(* ===== verification/_CoqProject ===== *)
-Q . S2P
Prelude.v
Bitwise.v
Division.v
CString.v
KStdlib.v
Printf.v
Alloc.v
Gallocator.v
Kmalloc.v
LinkedList.v
Sha1.v
HashTable.v
MRegMap.v
Falloc.v
Paging.v
Bitmap.v
Modules.v
Cpu.v
Task.v
Syscalls.v
Dma.v
Ksyms.v
Path.v
Teardown.v
Proc.v
Procm.v
User.v
Fs.v
Serialio.v
Interrupts.v
Pci.v
Time.v
Ps2io.v
Kbd.v
Kstdio.v
Vga.v
Storage.v
Ata.v
Ide.v
Boot.v
Vfs.v
Fat.v
Ramfs.v
Fb.v
Fbsink.v
Acpi.v
Files.v
Pagefault.v
MmInit.v
Elf.v
Loader.v
