(* ===== verification/Prelude.v ===== *)
(** * A verification development for dxgmx

    dxgmx is a hobby kernel for i686 (ILP32, one processor, no preemption in
    the kernel).  This library models its core in Rocq, from the allocators up
    to opening files and loading programs, and proves what its parts promise
    each other.  The definitions are translated from the C (and the assembly of
    the user copies) under [src/]; they keep the names of the source.

    ** How the program is modelled

    - An integer is a [Z]; where C narrows, wraps or is undefined, the wrap
      ([u8] ... [i64]) or [Undef] is written out.  A pointer is a [Z], null is 0.
    - Code that can stop gives an [outcome]: [Ret], [Panic] ([panic], [ASSERT],
      [TODO_FATAL]), or [Undef] (an access or operation without a meaning).
    - State is passed explicitly, one record per component; an object other
      code points at lives in a store ([gmap] from its address), so aliasing
      and dangling are visible.
    - A loop whose end the code knows is a [Fixpoint] on a count; any other
      takes fuel and gives [Undef] without it.  The fuel is a function of the
      state (the bytes of memory for strings, the pool for the scheduler, the
      bits of a bitmap for a search), and the theorems show the result is
      reached: none says only "if it returns".
    - Log lines and other output without effect on the state are left out.

    ** The files

    Foundations:
    - [Prelude]: this file.  Machine integers, [outcome] and its [bind_inv],
      case tactics, bit and list lemmas, the hint databases [wrap] and [bits].
    - [Bitwise] (kernel/utils/bitwise.c, bytes.c), [Division]
      (drivers/core/builtins: 64-bit division), [CString] (kernel/kstdlib/
      string.c, ctype.c: the byte memory [gmap Z Z], [bytes_at], [cstr],
      [write_bytes]), [KStdlib] (kernel/kstdlib/stdlib.c).

    Memory:
    - [Alloc]: the classes [Allocator]/[AllocatorLaws] and their aligned forms:
      which blocks are live, and what allocating, resizing and freeing do to
      them.  Every client is proved against these laws.
    - [Gallocator] (kernel/mem/gallocator.c, heap.c) and [Kmalloc]
      (kernel/mem/kmalloc.c), which is the instance of the classes: three pools
      of chunks with bitmaps; block contents for [kcalloc] and [krealloc].
    - [MRegMap] (kernel/mem/mregmap.c), [Falloc] (kernel/mem/falloc.c),
      [Bitmap] (kernel/utils/bitmap.c, kernel/mem/dma.c).
    - [Paging] (kernel/mem/paging.c, mm.c; arch/x86/mem/): the three levels of
      PAE tables in a store, [ps_wf] their shape, [pte_view] what the processor
      sees of an address; [Teardown]: destroying a paging structure; [MmInit]:
      the boot half of mm.c; [Pagefault] (kernel/mem/pagefault.c and the x86
      trap).

    Data structures:
    - [LinkedList] (kernel/utils/linkedlist.c), [Sha1] (drivers/crypto/sha1),
      [HashTable] (kernel/crypto/hashing.c, kernel/utils/hashtable.c), [Ksyms]
      (kernel/ksyms.c).

    Processes:
    - [Proc] (kernel/proc/proc.c): [fds_wf], the descriptors of a process;
      [Procm] (kernel/proc/procm.c and drivers/schedulers/ringsched): the pool
      [pool_wf], pids, yielding; [User] (arch/x86/user/user32.S,
      kernel/user.c): the copies that fault.

    Files and programs:
    - [Path] (kernel/fs/path.c); [Fs] (kernel/fs/fs.c, vnode.c): the state
      [vstate] all of this shares, and the classes [DriverTables]/[Drivers] for
      file-system code reached through pointers; [Vfs] (kernel/fs/vfs.c,
      vfs_fdt.c): [fdt_ok] the descriptor table, [vfs_ok] its agreement with
      processes and nodes; [Ramfs] (drivers/fs/ramfs, devfs): an instance of
      [Drivers]; [Files]: what a process can rely on.
    - [Elf] (kernel/elf/elf.c, elfloader.c) and [Loader], its theorems.

    Text and devices:
    - [Printf] (kernel/kstdlib/stdio.c): [vsnprintf] with its directives;
      [Kstdio] (kernel/kstdio.c, klog.c): the sinks characters go to; [Vga]
      (drivers/sinks/vgasink, rs232_sink; arch/x86/serial.c): the text screen
      as a window on an endless paper.
    - [Interrupts] (arch/x86/int, cmos.c): ports (class [Bus]), the interrupt
      controllers, the descriptor table and its stubs; [Time] (kernel/time,
      drivers/timers/pit): time sources, timers, waiting.
    - [Serialio] (drivers/input/serialio), [Ps2io] (drivers/buses/ps2io) and
      [Kbd] (drivers/input/ps2kbd): from the controller's bytes to the events a
      program reads; [Pci] (drivers/buses/pci): the devices and their drivers.
    - [Storage] (kernel/storage, kernel/utils/uuid.c): block devices and
      partitions; [Ata] and [Ide] (drivers/storage/ata): commands to a drive
      (class [PioDrive]) and the block devices made of drives; [Fat]
      (drivers/fs/fat): FAT32 as one more driver of [Fs].
    - [Dma]: the windows [dma_map_range] of [Bitmap] hands out; [Fb]
      (drivers/video/fb): frame buffers and their device node; [Fbsink]
      (drivers/sinks/fbsink): text painted on them; [Acpi] (drivers/acpi): the
      firmware's tables, on what mapping promises ([DmaWindows]).

    Starting and entering the kernel:
    - [Boot] (drivers/core/multiboot, kernel/kboot.c): what the boot loader
      hands over; [Modules] (kernel/module.c): the linked modules and the order
      they start in; [Cpu] (arch/x86/gdt.c, cpu.c): segments and what the
      processor can do.
    - [Task] (arch/x86/task.c): [task_switch] instruction by instruction;
      [Syscalls] (kernel/syscalls, arch/x86/syscalls.c, syscall_types.h,
      tools/syscalls_generate.cpp): from the list of definitions to the value a
      program finds in [eax].

    ** What the theorems show

    - Allocators: every block handed out is fresh, aligned, inside the heap and
      apart from the live ones, and freeing gives back exactly that block; the
      laws of [Alloc] follow.  Frames: which frame is taken and what else
      changes.  Paging: mapping, rights and teardown in terms of what the
      processor would translate.
    - Refinements: the hash table is a finite map, the linked list a list, the
      page tables a map from pages to frames, SHA-1 its RFC, the division
      routines [Z.div] and [Z.quot], the node cache a map from paths.
    - Processes: the ring scheduler is fair, a yield reaps the zombies in front
      and switches to the next living process, pids and descriptors are unique.
    - Files: opening, seeking, reading and closing keep [vfs_ok] and touch
      nothing else; loading an executable leaves exactly its segments, with
      their rights, in the new address space.
    - Devices: the hardware behind the ports is a class with the behaviour its
      standard gives it, and an executable instance shows that it can hold; the
      theorems then say what a driver does as a whole (what a read of a disk
      leaves, which key events a run of scan codes gives, which devices a walk
      of a bus finds, what is seen on a screen).
    - Entering the kernel: a task that is switched away from and back to finds
      its registers as they were; a system call reaches the function of its
      number with the caller's registers; interrupts reach their handlers;
      starting the modules ends, each after those it needs.
    - Errors: each operation's refusals and what they leave behind; where the
      code has a defect, the theorem states what happens (and the manifest
      lists it as a finding).

    ** Bounds and assumptions

    A theorem that needs sizes below 2^31 or 2^32 says so; they are the widths
    of the code's own types.  Drivers are assumed to do what the [Drivers]
    hypotheses of a theorem state, and [ramfs] is shown to do it where a
    witness needs one.  The memory of a page not yet written holds an arbitrary
    [stale] value.  The TLB is not modelled: a walk reads the tables as they
    are, which is what the flushes in the code are for.  Interrupts do not
    interleave with kernel code, as the kernel runs with them masked.

    ** Not modelled

    The real-time clock (its driver calls functions that are no longer there);
    stack traces and what [panic] prints; the switch of the processor to paging
    and the fixed sequence of calls that starts the kernel (entry32.S,
    kinit_arch.c, kinit_stage2.c), of which the table of segments, the order of
    the modules and the set-up of memory are modelled with their components;
    instructions that read or write one register; the 64-bit variants, which
    this configuration does not build; the linker script's addresses, which are
    parameters; the configuration tool in C++ and the build files. *)
From stdpp Require Export base tactics option list list_numbers numbers gmap sets.
From Stdlib Require Export ZArith Lia Bool Btauto.

#[global] Open Scope Z_scope.

(** ** Machine integers

    The kernel is built for i686 (ILP32): [int], [long], [size_t] and
    pointers are 32 bits wide, [long long] is 64.  An integer is a [Z]; every
    place where the C type narrows a value applies one of these wraps. *)
Definition u8 (z : Z) : Z := z mod 2 ^ 8.
Definition u16 (z : Z) : Z := z mod 2 ^ 16.
Definition u32 (z : Z) : Z := z mod 2 ^ 32.
Definition u64 (z : Z) : Z := z mod 2 ^ 64.

Definition i8 (z : Z) : Z := (z + 2 ^ 7) mod 2 ^ 8 - 2 ^ 7.
Definition i32 (z : Z) : Z := (z + 2 ^ 31) mod 2 ^ 32 - 2 ^ 31.
Definition i64 (z : Z) : Z := (z + 2 ^ 63) mod 2 ^ 64 - 2 ^ 63.

Definition is_u8 (z : Z) : Prop := 0 <= z < 2 ^ 8.
Definition is_u32 (z : Z) : Prop := 0 <= z < 2 ^ 32.
Definition is_u64 (z : Z) : Prop := 0 <= z < 2 ^ 64.
Definition is_i32 (z : Z) : Prop := - 2 ^ 31 <= z < 2 ^ 31.
Definition is_i64 (z : Z) : Prop := - 2 ^ 63 <= z < 2 ^ 63.

(** ** Outcomes

    [Ret a] is a normal return; [Panic] is [panic]/[ASSERT]/[TODO_FATAL]
    stopping the kernel; [Undef] is an access or an operation C gives no
    meaning to (a null dereference, a read outside an object, a shift by the
    width), or a loop whose fuel ran out. *)
Inductive outcome (A : Type) : Type :=
| Ret (a : A)
| Panic
| Undef.
Arguments Ret {A} a.
Arguments Panic {A}.
Arguments Undef {A}.

#[export] Instance outcome_ret : MRet outcome := fun A a => Ret a.
#[export] Instance outcome_bind : MBind outcome := fun A B f m =>
  match m with Ret a => f a | Panic => Panic | Undef => Undef end.
#[export] Instance outcome_fmap : FMap outcome := fun A B f m =>
  match m with Ret a => Ret (f a) | Panic => Panic | Undef => Undef end.
#[export] Instance outcome_eq_dec `{EqDecision A} : EqDecision (outcome A).
Proof. solve_decision. Defined.

(** [ASSERT(b)]. *)
Definition assert_ (b : bool) : outcome unit := if b then Ret tt else Panic.
(** A dereference that is defined only when the option is inhabited. *)
Definition deref {A} (o : option A) : outcome A :=
  match o with Some a => Ret a | None => Undef end.

Lemma bind_Ret {A B} (a : A) (f : A -> outcome B) : (Ret a ≫= f) = f a.
Proof. reflexivity. Qed.

Lemma bind_Ret_inv {A B} (m : outcome A) (f : A -> outcome B) b :
  (m ≫= f) = Ret b -> exists a, m = Ret a /\ f a = Ret b.
Proof. destruct m; cbn; intros; eauto; discriminate. Qed.

Lemma assert_Ret b : assert_ b = Ret tt <-> b = true.
Proof. destruct b; cbn; split; congruence. Qed.

(** Decompose a monadic hypothesis [m ≫= f = Ret b] into its steps. *)
Ltac bind_inv :=
  repeat match goal with
  | H : (?m ≫= ?f) = Ret ?b |- _ =>
      let a := fresh "r" in let E := fresh "E" in
      apply bind_Ret_inv in H as (a & E & H)
  | H : mret _ = Ret _ |- _ => injection H as H
  | H : Ret _ = Ret _ |- _ => injection H as H
  | H : assert_ _ = Ret _ |- _ => apply assert_Ret in H
  | H : deref ?o = Ret _ |- _ => destruct o eqn:?; [injection H as H | discriminate H]
  | H : Panic = Ret _ |- _ => discriminate H
  | H : Undef = Ret _ |- _ => discriminate H
  end.

(** Reflect the boolean comparisons of the code into propositions. *)
Ltac reflect_bools :=
  repeat match goal with
  | H : (_ && _)%bool = true |- _ => apply andb_prop in H as [? ?]
  | H : (_ || _)%bool = false |- _ => apply orb_false_elim in H as [? ?]
  | H : (_ && _)%bool = false |- _ => apply andb_false_iff in H as [H|H]
  | H : (_ || _)%bool = true |- _ => apply orb_true_iff in H as [H|H]
  | H : negb _ = true |- _ => apply negb_true_iff in H
  | H : negb _ = false |- _ => apply negb_false_iff in H
  | H : (_ =? _) = true |- _ => apply Z.eqb_eq in H
  | H : (_ =? _) = false |- _ => apply Z.eqb_neq in H
  | H : (_ <? _) = true |- _ => apply Z.ltb_lt in H
  | H : (_ <? _) = false |- _ => apply Z.ltb_ge in H
  | H : (_ <=? _) = true |- _ => apply Z.leb_le in H
  | H : (_ <=? _) = false |- _ => apply Z.leb_gt in H
  end.

(** Case analysis on the next boolean condition, reflected at once. *)
Ltac case_cond :=
  match goal with
  | |- context [if ?b then _ else _] =>
      lazymatch type of b with
      | bool => destruct b eqn:?
      end
  end; reflect_bools.

(** Evaluate a boolean condition whose comparisons arithmetic decides. *)
Ltac cond_true := match goal with
  |- context [if ?b then _ else _] => replace b with true by (symmetry; repeat (apply andb_true_intro; split); repeat (apply orb_true_intro); rewrite ?negb_true_iff, ?Z.ltb_lt, ?Z.leb_le, ?Z.eqb_eq, ?Z.ltb_ge, ?Z.leb_gt, ?Z.eqb_neq; lia) end.
Ltac cond_false := match goal with
  |- context [if ?b then _ else _] => replace b with false by (symmetry; destruct b eqn:?; [reflect_bools; lia|done]) end.

(** ** Arithmetic of the wraps *)
Lemma u8_small z : is_u8 z -> u8 z = z.
Proof. apply Z.mod_small. Qed.
Lemma u32_small z : is_u32 z -> u32 z = z.
Proof. apply Z.mod_small. Qed.
Lemma u64_small z : is_u64 z -> u64 z = z.
Proof. apply Z.mod_small. Qed.
Lemma i32_small z : is_i32 z -> i32 z = z.
Proof. unfold is_i32, i32. intros. rewrite Z.mod_small; lia. Qed.
Lemma i64_small z : is_i64 z -> i64 z = z.
Proof. unfold is_i64, i64. intros. rewrite Z.mod_small; lia. Qed.

Lemma i8_small z : - 2 ^ 7 <= z < 2 ^ 7 -> i8 z = z.
Proof. unfold i8. intros. rewrite Z.mod_small; lia. Qed.

Lemma u8_range z : is_u8 (u8 z).
Proof. apply Z.mod_pos_bound. lia. Qed.
Lemma u32_range z : is_u32 (u32 z).
Proof. apply Z.mod_pos_bound. lia. Qed.
Lemma u64_range z : is_u64 (u64 z).
Proof. apply Z.mod_pos_bound. lia. Qed.
Lemma i32_range z : is_i32 (i32 z).
Proof. unfold is_i32, i32. pose proof (Z.mod_pos_bound (z + 2^31) (2^32)). lia. Qed.
Lemma i64_range z : is_i64 (i64 z).
Proof. unfold is_i64, i64. pose proof (Z.mod_pos_bound (z + 2^63) (2^64)). lia. Qed.

Lemma u32_idemp z : u32 (u32 z) = u32 z.
Proof. apply u32_small, u32_range. Qed.
Lemma u64_idemp z : u64 (u64 z) = u64 z.
Proof. apply u64_small, u64_range. Qed.

Lemma i64_u64 z : i64 (u64 z) = i64 z.
Proof. unfold i64, u64. by rewrite Zplus_mod_idemp_l. Qed.
Lemma i32_u32 z : i32 (u32 z) = i32 z.
Proof. unfold i32, u32. by rewrite Zplus_mod_idemp_l. Qed.

(** A number below [2^n] has no bit at or above [n]. *)
Lemma testbit_above z n k : 0 <= z < 2 ^ n -> n <= k -> Z.testbit z k = false.
Proof.
  intros [H0 H1] Hk. destruct (decide (z = 0)) as [->|Hz]; [apply Z.bits_0|].
  apply Z.bits_above_log2; [lia|].
  assert (Z.log2 z < n) by (apply Z.log2_lt_pow2; lia). lia.
Qed.

Lemma testbit_mod z n k : 0 <= n -> 0 <= k ->
  Z.testbit (z mod 2 ^ n) k = (k <? n) && Z.testbit z k.
Proof.
  intros. case_eq (k <? n); intros; reflect_bools; cbn.
  - by apply Z.mod_pow2_bits_low.
  - by rewrite Z.mod_pow2_bits_high.
Qed.

Lemma testbit_pow2 n k : 0 <= n -> 0 <= k -> Z.testbit (2 ^ n) k = (n =? k).
Proof. intros. apply Z.pow2_bits_eqb. lia. Qed.

Lemma land_lt z w n : 0 <= n -> 0 <= z < 2 ^ n -> 0 <= w -> 0 <= Z.land z w < 2 ^ n.
Proof.
  intros. split; [apply Z.land_nonneg; lia|].
  destruct (decide (Z.land z w = 0)) as [->|]; [lia|].
  apply Z.log2_lt_cancel. rewrite Z.log2_pow2 by lia.
  assert (0 < Z.land z w) by (pose proof (Z.land_nonneg z w); lia).
  assert (z <> 0) by (intros ->; rewrite Z.land_0_l in *; lia).
  pose proof (Z.log2_land z w ltac:(lia) ltac:(lia)).
  assert (Z.log2 z < n) by (apply Z.log2_lt_pow2; lia). lia.
Qed.

Lemma lor_lt z w n : 0 <= n -> 0 <= z < 2 ^ n -> 0 <= w < 2 ^ n -> 0 <= Z.lor z w < 2 ^ n.
Proof.
  intros. split; [apply Z.lor_nonneg; lia|].
  destruct (decide (Z.lor z w = 0)) as [->|]; [lia|].
  apply Z.log2_lt_cancel. rewrite Z.log2_pow2, Z.log2_lor by lia.
  destruct (decide (n = 0)) as [->|].
  { assert (z = 0) by lia. assert (w = 0) by lia. subst. rewrite Z.lor_0_r in *. lia. }
  apply Z.max_lub_lt.
  - destruct (decide (z = 0)) as [->|]; [cbn; lia|apply Z.log2_lt_pow2; lia].
  - destruct (decide (w = 0)) as [->|]; [cbn; lia|apply Z.log2_lt_pow2; lia].
Qed.

(** Two disjoint-bit summands: shifting left and or-ing is adding. *)
Lemma lor_shiftl_add a b n : 0 <= n -> 0 <= b < 2 ^ n ->
  Z.lor (Z.shiftl a n) b = a * 2 ^ n + b.
Proof.
  intros. rewrite <- Z.shiftl_mul_pow2 by lia.
  symmetry. rewrite <- Z.lxor_lor.
  - apply Z.add_nocarry_lxor. apply Z.bits_inj'. intros k Hk.
    rewrite Z.land_spec, Z.bits_0, Z.shiftl_spec by lia.
    destruct (decide (k < n)).
    + by rewrite Z.testbit_neg_r by lia.
    + rewrite (testbit_above b n k) by lia. apply andb_false_r.
  - apply Z.bits_inj'. intros k Hk.
    rewrite Z.land_spec, Z.bits_0, Z.shiftl_spec by lia.
    destruct (decide (k < n)).
    + by rewrite Z.testbit_neg_r by lia.
    + rewrite (testbit_above b n k) by lia. apply andb_false_r.
Qed.

(** ** Hint databases

    [bits] rewrites [Z.testbit] through the bit operations; [wrap] removes a
    wrap whose argument is in range. *)
Create HintDb wrap.
Create Rewrite HintDb wrap.
#[export] Hint Resolve u8_range u32_range u64_range i32_range i64_range : wrap.
#[export] Hint Rewrite u32_idemp u64_idemp i64_u64 i32_u32 : wrap.

Create Rewrite HintDb bits.
#[export] Hint Rewrite Z.land_spec Z.lor_spec Z.lxor_spec Z.bits_0 : bits.

(** Prove an equation between words by comparing bits: every shift, mask and
    wrap is pushed to the bits of the atoms, then the cases on the bit index
    are closed by arithmetic. *)
Ltac bit_step :=
  first
    [ rewrite Z.land_spec | rewrite Z.lor_spec | rewrite Z.lxor_spec
    | rewrite Z.bits_0
    | rewrite Z.shiftr_spec by lia | rewrite Z.shiftl_spec by lia
    | rewrite Z.lnot_spec by lia
    | rewrite testbit_mod by lia
    | rewrite testbit_pow2 by lia ].

(** ** Lists *)
Lemma fmap_rev {A B} (f : A -> B) (l : list A) : f <$> rev l = rev (f <$> l).
Proof. induction l as [|x l IH]; [done|]. cbn. by rewrite fmap_app, IH. Qed.

Lemma mod_le_self a b : 0 <= a -> 0 < b -> a mod b <= a.
Proof. intros. apply Z.mod_le; lia. Qed.

#[export] Hint Resolve Z.mod_pos_bound : wrap.
