(* ===== verification/Bitwise.v ===== *)
(** * Bit operations, alignment and 64-bit division

    [kernel/utils/bitwise.c], the integer part of [kernel/utils/bytes.c] and
    the compiler support routines of [drivers/core/builtins]. *)
From S2P Require Import Prelude.

Module Bits.

(** [n] is the [u64] behind the pointer; [1 << bit] is an [int]. *)
Definition bw_clear (n bit : Z) : Z :=
  if bit <? 32 then
    let x := u32 (Z.lnot (i32 (Z.shiftl 1 bit))) in
    Z.land n x
  else if bit <? 64 then
    let old := u32 n in
    let n := Z.shiftr n 32 in
    let x := u32 (Z.lnot (i32 (Z.shiftl 1 (bit - 32)))) in
    let n := Z.land n x in
    let n := u64 (Z.shiftl n 32) in
    Z.lor n old
  else n.

Definition bw_set (n bit : Z) : Z :=
  if bit <? 32 then
    let x := u32 (i32 (Z.shiftl 1 bit)) in
    u64 (Z.lor n x)
  else if bit <? 64 then
    let old := u32 n in
    let n := Z.shiftr n 32 in
    let x := u32 (i32 (Z.shiftl 1 (bit - 32))) in
    let n := Z.lor n x in
    let n := u64 (Z.shiftl n 32) in
    Z.lor n old
  else n.

Definition bw_mask (n mask : Z) : Z :=
  let ret := Z.land (Z.shiftr n 32) (Z.shiftr mask 32) in
  let ret := u64 (Z.shiftl ret 32) in
  let tmp := Z.land (u32 n) (u32 mask) in
  Z.lor ret tmp.

Definition bw_or_mask (n mask : Z) : Z :=
  let old := u32 n in
  let n := Z.shiftr n 32 in
  let tmp := u32 (Z.shiftr mask 32) in
  let n := Z.lor n tmp in
  let n := u64 (Z.shiftl n 32) in
  let tmp := Z.lor old (u32 mask) in
  Z.lor n tmp.

Definition bw_and_mask (n mask : Z) : Z :=
  let old := u32 n in
  let n := Z.shiftr n 32 in
  let tmp := u32 (Z.shiftr mask 32) in
  let n := Z.land n tmp in
  let n := u64 (Z.shiftl n 32) in
  let tmp := Z.land old (u32 mask) in
  Z.lor n tmp.

Definition bw_is64_wide (n : Z) : Z := i32 (Z.shiftr n 32).

(** The shifts are defined for [0 < rot < 32] only. *)
Definition bw_u32_rotl (n rot : Z) : Z :=
  Z.lor (u32 (Z.shiftl n rot)) (Z.shiftr n (32 - rot)).

Definition bw_u32_flip_endianness (n : Z) : Z :=
  Z.lor (Z.lor (Z.lor
    (Z.land (Z.shiftr n 24) 0xFF)
    (Z.land (u32 (Z.shiftl n 8)) 0xFF0000))
    (Z.land (Z.shiftr n 8) 0xFF00))
    (Z.land (u32 (Z.shiftl n 24)) 0xFF000000).

Definition bw_is_power_of_two (n : Z) : bool :=
  negb (n =? 0) && (Z.land n (u64 (n - 1)) =? 0).

(** ** Bits of the masks *)
Lemma u32_i32 z : u32 (i32 z) = u32 z.
Proof. unfold u32, i32. Z.to_euclidean_division_equations; lia. Qed.

Lemma testbit_u32 z k : 0 <= k -> Z.testbit (u32 z) k = (k <? 32) && Z.testbit z k.
Proof. intros. by apply testbit_mod. Qed.
Lemma testbit_u64 z k : 0 <= k -> Z.testbit (u64 z) k = (k <? 64) && Z.testbit z k.
Proof. intros. by apply testbit_mod. Qed.

Lemma testbit_set_mask bit k : 0 <= bit < 32 -> 0 <= k ->
  Z.testbit (u32 (i32 (Z.shiftl 1 bit))) k = (bit =? k).
Proof.
  intros. rewrite u32_i32, testbit_u32, Z.shiftl_1_l, testbit_pow2 by lia.
  destruct (bit =? k) eqn:E; reflect_bools; [|apply andb_false_r].
  apply andb_true_intro. split; [apply Z.ltb_lt; lia|done].
Qed.

Lemma u32_lnot_i32 z : u32 (Z.lnot (i32 z)) = u32 (Z.lnot z).
Proof. unfold Z.lnot, u32, i32. Z.to_euclidean_division_equations; lia. Qed.

Lemma testbit_clear_mask bit k : 0 <= bit < 32 -> 0 <= k ->
  Z.testbit (u32 (Z.lnot (i32 (Z.shiftl 1 bit)))) k = (k <? 32) && negb (bit =? k).
Proof.
  intros. by rewrite u32_lnot_i32, testbit_u32, Z.lnot_spec, Z.shiftl_1_l, testbit_pow2 by lia.
Qed.

(** Prove an equation between words bit by bit: the bit operations are pushed
    to the atoms, every comparison of the bit index is decided, and the
    remaining goals are boolean tautologies. *)
Ltac word_step :=
  first
    [ bit_step
    | rewrite Z.testbit_neg_r by lia
    | rewrite testbit_set_mask by lia
    | rewrite testbit_clear_mask by lia
    | rewrite testbit_u32 by lia | rewrite testbit_u64 by lia
    | rewrite Z.setbit_eqb by lia | rewrite Z.clearbit_eqb by lia
    | match goal with
      | |- context [?a <? ?b] => destruct (a <? b) eqn:?; reflect_bools
      | |- context [?a =? ?b] => destruct (a =? b) eqn:?; reflect_bools
      end ].

Ltac word_solve :=
  apply Z.bits_inj'; intros k Hk;
  destruct (decide (k < 32)); [| destruct (decide (k < 64))];
  repeat word_step;
  repeat match goal with
  | |- context [Z.testbit ?n (?k - ?m + ?m)] => replace (k - m + m) with k by lia
  | H : is_u64 ?n |- context [Z.testbit ?n ?k] =>
      rewrite (testbit_above n 64 k) by (first [exact H | lia])
  end;
  try lia; btauto.

Lemma bw_set_setbit n bit : is_u64 n -> 0 <= bit < 64 -> bw_set n bit = Z.setbit n bit.
Proof.
  intros Hn Hb. unfold bw_set.
  case_cond; [|rewrite (proj2 (Z.ltb_lt bit 64)) by lia]; word_solve.
Qed.

Lemma bw_clear_clearbit_high n bit : is_u64 n -> 32 <= bit < 64 ->
  bw_clear n bit = Z.clearbit n bit.
Proof.
  intros Hn Hb. unfold bw_clear.
  rewrite (proj2 (Z.ltb_ge bit 32)), (proj2 (Z.ltb_lt bit 64)) by lia. word_solve.
Qed.

Lemma bw_clear_clearbit_low n bit : is_u64 n -> 0 <= bit < 32 ->
  bw_clear n bit = Z.clearbit (u32 n) bit.
Proof.
  intros Hn Hb. unfold bw_clear. rewrite (proj2 (Z.ltb_lt bit 32)) by lia. word_solve.
Qed.

Lemma bw_mask_land n m : is_u64 n -> is_u64 m -> bw_mask n m = Z.land n m.
Proof. intros. unfold bw_mask. word_solve. Qed.

Lemma bw_or_mask_lor n m : is_u64 n -> is_u64 m -> bw_or_mask n m = Z.lor n m.
Proof. intros. unfold bw_or_mask. word_solve. Qed.

Lemma bw_and_mask_land n m : is_u64 n -> is_u64 m -> bw_and_mask n m = Z.land n m.
Proof. intros. unfold bw_and_mask. word_solve. Qed.

Lemma bw_u32_rotl_testbit n rot k : is_u32 n -> 0 < rot < 32 -> 0 <= k < 32 ->
  Z.testbit (bw_u32_rotl n rot) k = Z.testbit n ((k - rot) mod 32).
Proof.
  intros Hn Hr Hk. unfold bw_u32_rotl.
  rewrite Z.lor_spec, testbit_u32, Z.shiftl_spec, Z.shiftr_spec by lia.
  rewrite (proj2 (Z.ltb_lt k 32)) by lia. cbn.
  destruct (decide (k < rot)).
  - rewrite Z.testbit_neg_r by lia. cbn. f_equal.
    rewrite <- (Z_mod_plus_full (k - rot) 1 32), Z.mod_small; lia.
  - rewrite (testbit_above n 32 (k + (32 - rot))) by (exact Hn || lia).
    rewrite orb_false_r. f_equal. rewrite Z.mod_small; lia.
Qed.

Lemma bw_u32_rotl_range n rot : is_u32 n -> 0 < rot < 32 -> is_u32 (bw_u32_rotl n rot).
Proof.
  intros [Hn0 Hn] Hr. apply (lor_lt _ _ 32); [lia|apply u32_range|].
  rewrite Z.shiftr_div_pow2 by lia. split; [apply Z.div_pos; lia|].
  apply Z.div_lt_upper_bound; [lia|]. assert (0 < 2 ^ (32 - rot)) by lia. nia.
Qed.

(** Byte [i] of a word, counted from the least significant. *)
Definition byte_of (n i : Z) : Z := Z.land (Z.shiftr n (8 * i)) 0xFF.

Lemma byte_mask_testbit m k : 0 <= m -> 0 <= k ->
  Z.testbit (Z.shiftl (Z.ones 8) m) k = (m <=? k) && (k <? m + 8).
Proof.
  intros. rewrite Z.shiftl_spec by lia.
  destruct (m <=? k) eqn:E; reflect_bools; [|by rewrite Z.testbit_neg_r by lia].
  rewrite Z.testbit_ones by lia.
  rewrite (proj2 (Z.leb_le 0 (k - m))) by lia. cbn [andb].
  destruct (k <? m + 8) eqn:F; reflect_bools; [apply Z.ltb_lt|apply Z.ltb_ge]; lia.
Qed.

(** Decide every comparison of the index that arithmetic settles. *)
Ltac bool_index :=
  repeat match goal with
  | |- context [?a <? ?b] =>
      first [rewrite (proj2 (Z.ltb_lt a b)) by lia | rewrite (proj2 (Z.ltb_ge a b)) by lia]
  | |- context [?a <=? ?b] =>
      first [rewrite (proj2 (Z.leb_le a b)) by lia | rewrite (proj2 (Z.leb_gt a b)) by lia]
  end.

Lemma flip_testbit n k : is_u32 n -> 0 <= k < 32 ->
  Z.testbit (bw_u32_flip_endianness n) k = Z.testbit n (24 - 8 * (k / 8) + k mod 8).
Proof.
  intros Hn Hk. unfold bw_u32_flip_endianness.
  change 0xFF with (Z.shiftl (Z.ones 8) 0). change 0xFF0000 with (Z.shiftl (Z.ones 8) 16).
  change 0xFF00 with (Z.shiftl (Z.ones 8) 8). change 0xFF000000 with (Z.shiftl (Z.ones 8) 24).
  rewrite !Z.lor_spec, !Z.land_spec, !testbit_u32, !byte_mask_testbit by lia.
  rewrite !(Z.shiftl_spec n), !Z.shiftr_spec by lia.
  assert (Hc : k / 8 = 0 \/ k / 8 = 1 \/ k / 8 = 2 \/ k / 8 = 3) by
    (assert (0 <= k / 8 < 4) by (split; [apply Z.div_pos|apply Z.div_lt_upper_bound]; lia); lia).
  pose proof (Z.div_mod k 8 ltac:(lia)) as Hd. pose proof (Z.mod_pos_bound k 8 ltac:(lia)).
  destruct Hc as [E|[E|[E|E]]]; rewrite E in Hd |- *; bool_index;
    rewrite ?andb_false_r, ?andb_true_r, ?orb_false_r, ?andb_true_l; cbn [orb]; f_equal; lia.
Qed.

Lemma flip_range n : is_u32 n -> is_u32 (bw_u32_flip_endianness n).
Proof.
  intros [Hn0 Hn]. unfold bw_u32_flip_endianness.
  repeat apply (lor_lt _ _ 32); try lia; rewrite Z.land_comm;
    apply (land_lt _ _ 32); try lia;
    solve [apply Z.shiftr_nonneg; lia | apply u32_range].
Qed.

Lemma u32_ext a b : is_u32 a -> is_u32 b ->
  (forall k, 0 <= k < 32 -> Z.testbit a k = Z.testbit b k) -> a = b.
Proof.
  intros Ha Hb H. apply Z.bits_inj'. intros k Hk.
  destruct (decide (k < 32)); [apply H; lia|].
  by rewrite (testbit_above a 32), (testbit_above b 32) by (done || lia).
Qed.
Lemma byte_of_testbit n i k : 0 <= i -> 0 <= k ->
  Z.testbit (byte_of n i) k = (k <? 8) && Z.testbit n (k + 8 * i).
Proof.
  intros. unfold byte_of. rewrite Z.land_spec, Z.shiftr_spec by lia.
  change 0xFF with (Z.ones 8). rewrite Z.testbit_ones by lia.
  rewrite (proj2 (Z.leb_le 0 k)) by lia. cbn [andb]. apply andb_comm.
Qed.

Lemma flip_byte n i : is_u32 n -> 0 <= i < 4 ->
  byte_of (bw_u32_flip_endianness n) i = byte_of n (3 - i).
Proof.
  intros Hn Hi. apply Z.bits_inj'. intros k Hk. rewrite !byte_of_testbit by lia.
  destruct (k <? 8) eqn:E; reflect_bools; [cbn [andb]|done].
  rewrite flip_testbit by (done || lia). f_equal.
  rewrite (Z.mul_comm 8 i), Z.div_add, Z_mod_plus_full, Z.div_small, Z.mod_small by lia. lia.
Qed.

Lemma flip_involutive n : is_u32 n ->
  bw_u32_flip_endianness (bw_u32_flip_endianness n) = n.
Proof.
  intros Hn. apply u32_ext; [by repeat apply flip_range|done|]. intros k Hk.
  pose proof (Z.div_mod k 8 ltac:(lia)) as Hd. pose proof (Z.mod_pos_bound k 8 ltac:(lia)).
  assert (0 <= k / 8 < 4) by (split; [apply Z.div_pos|apply Z.div_lt_upper_bound]; lia).
  rewrite flip_testbit by (apply flip_range, Hn || lia).
  rewrite flip_testbit by (done || lia). f_equal.
  replace (24 - 8 * (k / 8) + k mod 8) with (k mod 8 + (3 - k / 8) * 8) by lia.
  rewrite Z.div_add, Z_mod_plus_full, (Z.div_small (k mod 8)), Z.mod_mod by lia. lia.
Qed.

(** Clearing the lowest set bit leaves nothing exactly for powers of two. *)
Lemma land_pred_pow2 k : 0 <= k -> Z.land (2 ^ k) (2 ^ k - 1) = 0.
Proof.
  intros. replace (2 ^ k - 1) with (Z.ones k) by (rewrite Z.ones_equiv; lia).
  rewrite Z.land_ones, Z_mod_same_full by lia. done.
Qed.

Lemma land_pred_0_pow2 n : 0 < n -> Z.land n (n - 1) = 0 -> n = 2 ^ Z.log2 n.
Proof.
  intros Hn Hl. pose proof (Z.log2_spec n Hn) as [H1 H2].
  pose proof (Z.log2_nonneg n).
  destruct (decide (n = 2 ^ Z.log2 n)); [done|exfalso].
  assert (Hlog : Z.log2 (n - 1) = Z.log2 n) by (apply Z.log2_unique; lia).
  assert (Hb : Z.testbit (Z.land n (n - 1)) (Z.log2 n) = true).
  { rewrite Z.land_spec, Z.bit_log2 by lia. rewrite <- Hlog at 1.
    rewrite Z.bit_log2; [done|]. pose proof (Z.pow_pos_nonneg 2 (Z.log2 n)). lia. }
  rewrite Hl, Z.bits_0 in Hb. done.
Qed.

(** ** Properties *)

(** [bw_set] sets exactly the bit it is given, over the whole 64-bit word.
    [bw_clear] clears exactly its bit when the bit is in the high half, but
    for a bit of the low half the 32-bit mask is zero-extended and the whole
    high half of the word is cleared with it. *)
Theorem bw_set_clear_spec n bit : is_u64 n -> 0 <= bit < 64 ->
  bw_set n bit = Z.setbit n bit /\
  bw_clear n bit = (if bit <? 32 then Z.clearbit (u32 n) bit else Z.clearbit n bit).
Proof.
  intros Hn Hb. split; [by apply bw_set_setbit|].
  destruct (bit <? 32) eqn:E; reflect_bools;
    [apply bw_clear_clearbit_low|apply bw_clear_clearbit_high]; done || lia.
Qed.

Lemma bw_set_clear_spec_witness :
  (bw_set (2 ^ 40) 3 = Z.setbit (2 ^ 40) 3 /\
   bw_clear (2 ^ 40 + 8) 3 = Z.clearbit (u32 (2 ^ 40 + 8)) 3) /\
  bw_clear (2 ^ 40 + 8) 3 = 0 /\ Z.clearbit (2 ^ 40 + 8) 3 = 2 ^ 40.
Proof.
  split; [split|by vm_compute].
  - apply (bw_set_clear_spec (2 ^ 40) 3); unfold is_u64; lia.
  - apply (bw_set_clear_spec (2 ^ 40 + 8) 3); unfold is_u64; lia.
Defined.

(** flipping the endianness of a 32-bit word reverses its four bytes, stays
    a 32-bit word, and is its own inverse. *)
Theorem flip_endianness_correct n : is_u32 n ->
  is_u32 (bw_u32_flip_endianness n) /\
  (forall i, 0 <= i < 4 -> byte_of (bw_u32_flip_endianness n) i = byte_of n (3 - i)) /\
  bw_u32_flip_endianness (bw_u32_flip_endianness n) = n.
Proof.
  intros Hn. split; [by apply flip_range|]. split; [intros; by apply flip_byte|].
  by apply flip_involutive.
Qed.

Lemma flip_endianness_correct_witness :
  is_u32 (bw_u32_flip_endianness 0x12345678) /\
  bw_u32_flip_endianness 0x12345678 = 0x78563412.
Proof. split; [apply (flip_endianness_correct 0x12345678); unfold is_u32; lia|by vm_compute]. Defined.

(** [bw_is_power_of_two] accepts exactly the powers of two of a 64-bit word. *)
Theorem is_power_of_two_iff n : is_u64 n ->
  bw_is_power_of_two n = true <-> exists k, 0 <= k < 64 /\ n = 2 ^ k.
Proof.
  intros Hn. unfold is_u64 in Hn. unfold bw_is_power_of_two. split.
  - intros H. reflect_bools. rewrite u64_small in * by (unfold is_u64; lia).
    pose proof (land_pred_0_pow2 n ltac:(lia) ltac:(done)) as Heq.
    exists (Z.log2 n). split; [|done]. split; [apply Z.log2_nonneg|].
    apply Z.log2_lt_pow2; lia.
  - intros (k & Hk & ->). assert (0 < 2 ^ k) by lia.
    rewrite u64_small by (unfold is_u64; lia). rewrite land_pred_pow2 by lia.
    rewrite (proj2 (Z.eqb_neq (2 ^ k) 0)) by lia. done.
Qed.

Lemma is_power_of_two_iff_witness :
  (bw_is_power_of_two 4096 = true <-> exists k, 0 <= k < 64 /\ 4096 = 2 ^ k) /\
  bw_is_power_of_two 4096 = true /\ bw_is_power_of_two 4097 = false.
Proof. split; [apply (is_power_of_two_iff 4096); unfold is_u64; lia|by vm_compute]. Defined.

End Bits.

Module Bytes.

(** [alignment] is never 0 in the kernel ([n % 0] has no meaning). *)
Definition bytes_align_up64 (n alignment : Z) : Z :=
  if n mod alignment =? 0 then n
  else u64 (n + (alignment - n mod alignment)).

Definition bytes_align_down64 (n alignment : Z) : Z := n - n mod alignment.

Lemma align_down_spec n a : 0 < a -> 0 <= n ->
  let m := bytes_align_down64 n a in (a | m) /\ 0 <= m <= n /\ n < m + a.
Proof.
  intros Ha Hn. cbn. unfold bytes_align_down64.
  pose proof (Z.mod_pos_bound n a Ha). pose proof (Z.mod_le n a Hn Ha).
  split; [|lia]. exists (n / a). pose proof (Z.div_mod n a). lia.
Qed.

Lemma align_up_spec n a : 0 < a -> 0 <= n -> n + a <= 2 ^ 64 ->
  let m := bytes_align_up64 n a in (a | m) /\ n <= m < n + a.
Proof.
  intros Ha Hn Hle. cbn. unfold bytes_align_up64.
  pose proof (Z.mod_pos_bound n a Ha). pose proof (Z.div_mod n a ltac:(lia)).
  case_cond.
  - split; [exists (n / a); lia|lia].
  - rewrite u64_small by (unfold is_u64; lia). split; [|lia]. exists (n / a + 1). lia.
Qed.

Lemma align_up_id n a : 0 < a -> (a | n) -> bytes_align_up64 n a = n.
Proof.
  intros Ha [q ->]. unfold bytes_align_up64. by rewrite Z_mod_mult.
Qed.

Lemma align_down_id n a : 0 < a -> (a | n) -> bytes_align_down64 n a = n.
Proof. intros Ha [q ->]. unfold bytes_align_down64. rewrite Z_mod_mult. lia. Qed.

(** The next multiple is the least one: nothing between is aligned. *)
Lemma multiple_between a m n k : 0 < a -> (a | m) -> (a | k) -> n <= k -> m < n + a -> m <= k.
Proof. intros Ha [q ->] [r ->] ? ?. assert (q - 1 < r) by nia. nia. Qed.

(** aligning up gives the least multiple of the alignment that is not below
    [n], aligning down the greatest one not above it, as long as the result
    fits in 64 bits. *)
Theorem align_correct n a : 0 < a -> 0 <= n -> n + a <= 2 ^ 64 ->
  ((a | bytes_align_up64 n a) /\ n <= bytes_align_up64 n a /\
   forall m, (a | m) -> n <= m -> bytes_align_up64 n a <= m) /\
  ((a | bytes_align_down64 n a) /\ bytes_align_down64 n a <= n /\
   forall m, (a | m) -> m <= n -> m <= bytes_align_down64 n a).
Proof.
  intros Ha Hn Hle. destruct (align_up_spec n a) as [Hu1 Hu2]; try lia.
  destruct (align_down_spec n a) as (Hd1 & Hd2 & Hd3); try lia. split.
  - split; [done|]. split; [lia|]. intros m Hm Hnm.
    apply (multiple_between a _ n m); done || lia.
  - split; [done|]. split; [lia|]. intros m Hm Hnm.
    apply (multiple_between a m (bytes_align_down64 n a)); done || lia.
Qed.

Lemma align_correct_witness :
  (4096 | bytes_align_up64 5000 4096) /\ bytes_align_up64 5000 4096 = 8192 /\
  bytes_align_down64 5000 4096 = 4096.
Proof. split; [apply (align_correct 5000 4096); lia|by vm_compute]. Defined.

End Bytes.
