(* ===== verification/Division.v ===== *)
(** * 64-bit division on a 32-bit machine

    The compiler support routines of [drivers/core/builtins]: [__udivdi3],
    [__umoddi3] and their signed forms, against [Z.div], [Z.modulo],
    [Z.quot] and [Z.rem]. *)
From S2P Require Import Prelude Bitwise.

Module Division.

Definition U64_BITS : Z := 64.

(** [__builtin_clzll], which has no result for 0. *)
Definition clz (x : Z) : outcome Z := if x =? 0 then Undef else Ret (63 - Z.log2 x).

(** The registers of the division loop. *)
Record divst := DivSt { r : Z; n : Z; carry : Z }.

(** One iteration of the [while (shr--)] loop. *)
Definition div_iter (d : Z) (st : divst) : divst :=
  let r := Z.lor (u64 (Z.shiftl st.(r) 1)) (Z.shiftr st.(n) (U64_BITS - 1)) in
  let n := Z.lor (u64 (Z.shiftl st.(n) 1)) st.(carry) in
  let s := Z.shiftr (i64 (u64 (u64 (d - r) - 1))) (U64_BITS - 1) in
  let carry := u64 (Z.land s 1) in
  let r := u64 (r - Z.land d (u64 s)) in
  DivSt r n carry.

Fixpoint div_loop (shr : nat) (d : Z) (st : divst) : divst :=
  match shr with
  | O => st
  | S shr => div_loop shr d (div_iter d st)
  end.

Definition __udivdi3 (n d : Z) : outcome Z :=
  cd ← clz d; cn ← clz n;
  let shr := u8 (cd - cn) in
  if shr >? U64_BITS - 1 then Ret 0
  else if shr =? U64_BITS - 1 then Ret n
  else
    let shr := u8 (shr + 1) in
    let r := Z.shiftr n shr in
    let n := u64 (Z.shiftl n (U64_BITS - shr)) in
    let st := div_loop (Z.to_nat shr) d (DivSt r n 0) in
    Ret (Z.lor (u64 (Z.shiftl st.(Division.n) 1)) st.(Division.carry)).

Definition __umoddi3 (n d : Z) : outcome Z :=
  cd ← clz d; cn ← clz n;
  let shr := u8 (cd - cn) in
  if shr >? U64_BITS - 1 then Ret n
  else if shr =? U64_BITS - 1 then Ret 0
  else
    let shr := u8 (shr + 1) in
    let r := Z.shiftr n shr in
    let n := u64 (Z.shiftl n (U64_BITS - shr)) in
    let st := div_loop (Z.to_nat shr) d (DivSt r n 0) in
    Ret st.(Division.r).

Definition __divdi3 (a b : Z) : outcome Z :=
  let s_a := Z.shiftr a (U64_BITS - 1) in
  let s_b := Z.shiftr b (U64_BITS - 1) in
  let a_u := u64 (u64 (Z.lxor a s_a) + u64 (- s_a)) in
  let b_u := u64 (u64 (Z.lxor b s_b) + u64 (- s_b)) in
  let s_a := Z.lxor s_a s_b in
  q ← __udivdi3 a_u b_u;
  Ret (i64 (u64 (Z.lxor q (u64 s_a) + u64 (- s_a)))).

Definition __moddi3 (a b : Z) : outcome Z :=
  let s := Z.shiftr b (U64_BITS - 1) in
  let b_u := u64 (u64 (Z.lxor b s) + u64 (- s)) in
  let s := Z.shiftr a (U64_BITS - 1) in
  let a_u := u64 (u64 (Z.lxor a s) + u64 (- s)) in
  res ← __umoddi3 a_u b_u;
  Ret (i64 (u64 (Z.lxor res (u64 s) + u64 (- s)))).

(** ** The division loop

    After the iterations that leave [k] dividend bits [l] to process, the
    quotient so far is [2 * q + carry]: [q] has been shifted into the low
    end of [n], whose high end still holds [l]. *)
Record div_inv (n0 d : Z) (k : Z) (st : divst) : Prop := {
  inv_k : 0 <= k <= 63;
  inv_ex : exists l q,
    st.(n) = l * 2 ^ (64 - k) + q /\ 0 <= l < 2 ^ k /\
    0 <= q < 2 ^ (63 - k) /\ 0 <= st.(carry) <= 1 /\ 0 <= st.(r) < d /\
    2 * q + st.(carry) < 2 ^ (64 - k) /\
    n0 = ((2 * q + st.(carry)) * d + st.(r)) * 2 ^ k + l }.

Lemma shiftr_sign z : is_i64 z -> Z.shiftr z (U64_BITS - 1) = if z <? 0 then -1 else 0.
Proof.
  intros H. unfold is_i64 in H. rewrite Z.shiftr_div_pow2 by (unfold U64_BITS; lia).
  change (2 ^ (U64_BITS - 1)) with (2 ^ 63).
  case_cond; Z.to_euclidean_division_equations; lia.
Qed.

(** The branch-free subtraction is the conditional one. *)
Lemma div_iter_branch d st r' :
  r' = Z.lor (u64 (Z.shiftl st.(r) 1)) (Z.shiftr st.(n) (U64_BITS - 1)) ->
  is_u64 d -> is_u64 r' -> - 2 ^ 63 <= d - r' - 1 < 2 ^ 63 ->
  div_iter d st =
    DivSt (if d <=? r' then r' - d else r')
          (Z.lor (u64 (Z.shiftl st.(n) 1)) st.(carry))
          (if d <=? r' then 1 else 0).
Proof.
  intros Hr Hd Hr' Hc. unfold div_iter. cbv zeta. rewrite <- Hr.
  replace (i64 (u64 (u64 (d - r') - 1))) with (d - r' - 1).
  2:{ rewrite i64_u64. unfold i64, u64.
      replace ((d - r') mod 2 ^ 64 - 1 + 2 ^ 63) with ((d - r') mod 2 ^ 64 + (2 ^ 63 - 1)) by lia.
      rewrite Zplus_mod_idemp_l, Z.mod_small by lia. lia. }
  rewrite shiftr_sign by exact Hc. unfold is_u64 in *.
  destruct (d - r' - 1 <? 0) eqn:E; reflect_bools.
  - rewrite (proj2 (Z.leb_le d r')) by lia.
    change (u64 (-1)) with (Z.ones 64). rewrite Z.land_ones by lia.
    rewrite (Z.mod_small d) by lia. rewrite u64_small by (unfold is_u64; lia). done.
  - rewrite (proj2 (Z.leb_gt d r')) by lia.
    change (u64 0) with 0. rewrite Z.land_0_r, Z.sub_0_r, u64_small by (unfold is_u64; lia). done.
Qed.

Lemma lor_low_bit a c : is_u64 (2 * a) -> 0 <= c <= 1 ->
  Z.lor (u64 (Z.shiftl a 1)) c = 2 * a + c.
Proof.
  intros Ha Hc. rewrite u64_small by (rewrite Z.shiftl_mul_pow2 by lia; unfold is_u64 in *; lia).
  rewrite (lor_shiftl_add a c 1); lia.
Qed.

(** Shifting [n] left pushes the next dividend bit out of the top. *)
Lemma shift_out l q k c : 0 < k <= 63 -> 0 <= l < 2 ^ k -> 0 <= q < 2 ^ (63 - k) ->
  0 <= c <= 1 -> 2 * q + c < 2 ^ (64 - k) ->
  let n := l * 2 ^ (64 - k) + q in
  let b := l / 2 ^ (k - 1) in
  0 <= b <= 1 /\ Z.shiftr n (U64_BITS - 1) = b /\
  Z.lor (u64 (Z.shiftl n 1)) c = (l mod 2 ^ (k - 1)) * 2 ^ (64 - (k - 1)) + (2 * q + c).
Proof.
  intros Hk Hl Hq Hc Hqc. cbv zeta.
  assert (E1 : 2 ^ k = 2 * 2 ^ (k - 1)) by (rewrite <- Z.pow_succ_r by lia; f_equal; lia).
  assert (E2 : 2 ^ (64 - (k - 1)) = 2 * 2 ^ (64 - k)) by (rewrite <- Z.pow_succ_r by lia; f_equal; lia).
  assert (E3 : 2 ^ (64 - k) = 2 * 2 ^ (63 - k)) by (rewrite <- Z.pow_succ_r by lia; f_equal; lia).
  assert (E4 : 2 ^ 63 = 2 ^ (k - 1) * 2 ^ (64 - k)) by (rewrite <- Z.pow_add_r by lia; f_equal; lia).
  set (P := 2 ^ (k - 1)) in *. set (Q := 2 ^ (64 - k)) in *.
  assert (0 < P) by (subst P; lia). assert (0 < Q) by (subst Q; lia).
  pose proof (Z.div_mod l P ltac:(lia)) as Hdm. pose proof (Z.mod_pos_bound l P ltac:(lia)).
  assert (Hb : 0 <= l / P <= 1).
  { split; [apply Z.div_pos; lia|]. assert (l / P < 2) by (apply Z.div_lt_upper_bound; lia). lia. }
  assert (Hlow : 0 <= (l mod P) * Q + q < 2 ^ 63) by nia.
  assert (Hn : l * Q + q = (l / P) * 2 ^ 63 + ((l mod P) * Q + q)) by nia.
  split; [done|]. split.
  - rewrite Z.shiftr_div_pow2 by (unfold U64_BITS; lia). change (2 ^ (U64_BITS - 1)) with (2 ^ 63).
    rewrite Hn, Z.div_add_l by lia. rewrite (Z.div_small ((l mod P) * Q + q)) by lia. lia.
  - replace (u64 (Z.shiftl (l * Q + q) 1)) with (u64 (Z.shiftl ((l mod P) * Q + q) 1)).
    + rewrite lor_low_bit by (unfold is_u64; lia). rewrite E2. nia.
    + unfold u64. rewrite !Z.shiftl_mul_pow2 by lia. rewrite Hn.
      replace (((l / P) * 2 ^ 63 + ((l mod P) * Q + q)) * 2 ^ 1)
        with (((l mod P) * Q + q) * 2 ^ 1 + (l / P) * 2 ^ 64) by lia.
      by rewrite Z_mod_plus_full.
Qed.

Lemma div_iter_inv n0 d k st :
  is_u64 n0 -> is_u64 d -> 0 < k -> d <= 2 ^ 63 \/ (2 ^ 63 <= n0 /\ k = 1) ->
  div_inv n0 d k st -> div_inv n0 d (k - 1) (div_iter d st).
Proof.
  intros Hn0 Hd Hk Hwide [Hk63 (l & q & Hn & Hl & Hq & Hc & Hr & Hqc & Hinv)].
  destruct (shift_out l q k st.(carry)) as (Hb & Htop & Hlow); try lia.
  rewrite <- Hn in Htop, Hlow.
  assert (E1 : 2 ^ k = 2 * 2 ^ (k - 1)) by (rewrite <- Z.pow_succ_r by lia; f_equal; lia).
  assert (E2 : 2 ^ (64 - (k - 1)) = 2 * 2 ^ (64 - k)) by (rewrite <- Z.pow_succ_r by lia; f_equal; lia).
  pose proof (Z.div_mod l (2 ^ (k - 1)) ltac:(lia)) as Hdm.
  pose proof (Z.mod_pos_bound l (2 ^ (k - 1)) ltac:(lia)) as Hmb.
  set (b := l / 2 ^ (k - 1)) in *. set (l' := l mod 2 ^ (k - 1)) in *.
  unfold is_u64 in *.
  assert (H2r : 0 <= 2 * st.(r) + b < 2 ^ 64 /\ - 2 ^ 63 <= d - (2 * st.(r) + b) - 1 < 2 ^ 63).
  { destruct Hwide as [?|[? ->]]; [lia|].
    change (2 ^ (1 - 1)) with 1 in *. change (2 ^ 1) with 2 in *.
    set (Q := 2 * q + st.(carry)) in *. destruct (decide (d <= 2 ^ 63)); [lia|].
    assert (Q = 0) by (destruct (decide (1 <= Q)); [nia|lia]). lia. }
  destruct H2r as [H2r Hcmp].
  rewrite (div_iter_branch d st (2 * st.(r) + b)).
  2:{ rewrite Htop. rewrite lor_low_bit; unfold is_u64; lia. }
  2-4: assumption.
  rewrite Hlow. set (P := 2 ^ (k - 1)) in *.
  split; [lia|]. exists l', (2 * q + st.(carry)). cbn [r n carry].
  rewrite E2. replace (63 - (k - 1)) with (64 - k) by lia.
  destruct (d <=? 2 * st.(r) + b) eqn:E; reflect_bools;
    (repeat split; try lia); rewrite Hinv, E1, Hdm; lia.
Qed.

Lemma div_loop_inv n0 d : is_u64 n0 -> is_u64 d -> forall k st,
  d <= 2 ^ 63 \/ (2 ^ 63 <= n0 /\ (k <= 1)%nat) ->
  div_inv n0 d (Z.of_nat k) st -> div_inv n0 d 0 (div_loop k d st).
Proof.
  intros Hn0 Hd. induction k as [|k IH]; intros st Hw Hinv; cbn; [done|].
  apply IH; [lia|]. replace (Z.of_nat k) with (Z.of_nat (S k) - 1) by lia.
  apply div_iter_inv; lia || done.
Qed.

(** At the end the registers hold the quotient and the remainder. *)
Lemma div_inv_end n0 d st : is_u64 n0 -> 0 < d -> div_inv n0 d 0 st ->
  Z.lor (u64 (Z.shiftl st.(n) 1)) st.(carry) = n0 / d /\ st.(r) = n0 mod d.
Proof.
  intros Hn0 Hd [_ (l & q & Hn & Hl & Hq & Hc & Hr & Hqc & Hinv)].
  assert (l = 0) by (cbn in *; lia). subst l. rewrite Hn.
  rewrite Z.mul_0_l, Z.add_0_l. rewrite lor_low_bit by (unfold is_u64; cbn in *; lia).
  assert (E : n0 = d * (2 * q + st.(carry)) + st.(r)) by lia.
  split; [apply (Z.div_unique_pos _ _ _ st.(r))|apply (Z.mod_unique_pos _ _ (2 * q + st.(carry)))]; lia.
Qed.

(** The shift the routines start from aligns the top bits of [n] and [d]. *)
Lemma div_start_inv n0 d shr : is_u64 n0 -> 0 < n0 -> is_u64 d -> 0 < d ->
  shr = Z.log2 n0 - Z.log2 d -> 0 <= shr < 63 ->
  div_inv n0 d (shr + 1)
    (DivSt (Z.shiftr n0 (shr + 1)) (u64 (Z.shiftl n0 (U64_BITS - (shr + 1)))) 0).
Proof.
  intros Hn0 Hn0' Hd Hd' Hs Hr. split; [lia|].
  set (k := shr + 1) in *. exists (n0 mod 2 ^ k), 0. cbn [r n carry].
  pose proof (Z.log2_spec n0 Hn0') as [_ Hln]. pose proof (Z.log2_spec d Hd') as [Hld _].
  pose proof (Z.mod_pos_bound n0 (2 ^ k) ltac:(lia)) as Hmb.
  pose proof (Z.div_mod n0 (2 ^ k) ltac:(lia)) as Hdm.
  rewrite Z.shiftr_div_pow2 by lia.
  assert (0 <= n0 / 2 ^ k < d).
  { split; [apply Z.div_pos; lia|]. apply Z.div_lt_upper_bound; [lia|].
    eapply Z.lt_le_trans; [exact Hln|].
    replace (Z.succ (Z.log2 n0)) with (k + Z.log2 d) by lia.
    rewrite Z.pow_add_r by (lia || apply Z.log2_nonneg). nia. }
  assert (0 < 2 ^ (63 - k)) by lia. assert (0 < 2 ^ (64 - k)) by lia.
  repeat split; try lia.
  unfold u64. rewrite Z.shiftl_mul_pow2 by (unfold U64_BITS; lia).
  change U64_BITS with 64. replace (2 ^ 64) with (2 ^ k * 2 ^ (64 - k))
    by (rewrite <- Z.pow_add_r by lia; f_equal; lia).
  rewrite Z.mul_mod_distr_r by lia. lia.
Qed.

Lemma log2_u64 z : is_u64 z -> 0 <= Z.log2 z <= 63.
Proof.
  intros [H0 H]. split; [apply Z.log2_nonneg|].
  destruct (decide (z = 0)) as [->|]; [cbn; lia|].
  assert (Z.log2 z < 64) by (apply Z.log2_lt_pow2; lia). lia.
Qed.

(** What both routines branch on, and what the loop computes. *)
Lemma udivmod_cases n0 d : is_u64 n0 -> 0 < n0 -> is_u64 d -> 0 < d ->
  let shr := u8 ((63 - Z.log2 d) - (63 - Z.log2 n0)) in
  if shr >? U64_BITS - 1 then n0 < d
  else if shr =? U64_BITS - 1 then d = 1
  else
    let shr := u8 (shr + 1) in
    let st := div_loop (Z.to_nat shr) d
                (DivSt (Z.shiftr n0 shr) (u64 (Z.shiftl n0 (U64_BITS - shr))) 0) in
    Z.lor (u64 (Z.shiftl st.(n) 1)) st.(carry) = n0 / d /\ st.(r) = n0 mod d.
Proof.
  intros Hn Hn' Hd Hd'. cbv zeta. unfold U64_BITS.
  pose proof (log2_u64 n0 Hn) as Hl1. pose proof (log2_u64 d Hd) as Hl2.
  replace (63 - Z.log2 d - (63 - Z.log2 n0)) with (Z.log2 n0 - Z.log2 d) by lia.
  pose proof (Z.log2_spec d Hd') as [Hld Hld']. pose proof (Z.log2_spec n0 Hn') as [Hln Hln'].
  destruct (decide (Z.log2 n0 < Z.log2 d)) as [Hlt|Hge].
  - replace (u8 (Z.log2 n0 - Z.log2 d)) with (Z.log2 n0 - Z.log2 d + 256).
    2:{ unfold u8. rewrite <- (Z_mod_plus_full _ 1), Z.mod_small; lia. }
    destruct (_ >? _) eqn:E; rewrite Z.gtb_ltb in E; reflect_bools; [|lia].
    pose proof (Z.pow_le_mono_r 2 (Z.succ (Z.log2 n0)) (Z.log2 d)). lia.
  - rewrite (u8_small (Z.log2 n0 - Z.log2 d)) by (unfold is_u8; lia).
    destruct (_ >? _) eqn:E; rewrite Z.gtb_ltb in E; reflect_bools; [lia|].
    destruct (_ =? _) eqn:E2; reflect_bools.
    + assert (Hz : Z.log2 d = 0) by lia. rewrite Hz in Hld'. change (2 ^ Z.succ 0) with 2 in Hld'. lia.
    + rewrite (u8_small (_ + 1)) by (unfold is_u8; lia).
      apply div_inv_end; [done|lia|]. apply div_loop_inv; [done|done| |].
      * destruct (decide (d <= 2 ^ 63)); [by left|right].
        assert (63 <= Z.log2 d) by (apply Z.log2_le_pow2; lia).
        assert (Hx : Z.log2 n0 = 63) by lia. rewrite Hx in Hln. lia.
      * rewrite Z2Nat.id by lia. apply div_start_inv; lia || done.
Qed.

Lemma clz_pos x : 0 < x -> clz x = Ret (63 - Z.log2 x).
Proof. intros. unfold clz. by rewrite (proj2 (Z.eqb_neq x 0)) by lia. Qed.

Lemma udivdi3_div n d : is_u64 n -> 0 < n -> is_u64 d -> 0 < d -> __udivdi3 n d = Ret (n / d).
Proof.
  intros Hn Hn' Hd Hd'. unfold __udivdi3. rewrite !clz_pos, !bind_Ret by lia. cbv zeta.
  pose proof (udivmod_cases n d Hn Hn' Hd Hd') as H. cbv zeta in H.
  destruct (_ >? _); [by rewrite Z.div_small by lia|].
  destruct (_ =? _); [subst; by rewrite Z.div_1_r|]. by rewrite (proj1 H).
Qed.

Lemma umoddi3_mod n d : is_u64 n -> 0 < n -> is_u64 d -> 0 < d -> __umoddi3 n d = Ret (n mod d).
Proof.
  intros Hn Hn' Hd Hd'. unfold __umoddi3. rewrite !clz_pos, !bind_Ret by lia. cbv zeta.
  pose proof (udivmod_cases n d Hn Hn' Hd Hd') as H. cbv zeta in H.
  destruct (_ >? _); [by rewrite Z.mod_small by lia|].
  destruct (_ =? _); [subst; by rewrite Z.mod_1_r|]. by rewrite (proj2 H).
Qed.
(** Xor-ing with the sign mask [s] and adding [-s] negates exactly when [s = -1]. *)
Lemma cond_negate_abs a : is_i64 a ->
  let s := Z.shiftr a (U64_BITS - 1) in
  u64 (u64 (Z.lxor a s) + u64 (- s)) = Z.abs a.
Proof.
  intros Ha. cbv zeta. rewrite shiftr_sign by done. unfold is_i64 in Ha.
  case_cond.
  - rewrite Z.lxor_m1_r. change (u64 (- -1)) with 1. unfold Z.lnot.
    rewrite (u64_small (Z.pred (- a))) by (unfold is_u64; lia).
    rewrite u64_small by (unfold is_u64; lia). lia.
  - rewrite Z.lxor_0_r. change (u64 (- 0)) with 0. rewrite Z.add_0_r, u64_idemp.
    rewrite u64_small by (unfold is_u64; lia). lia.
Qed.

Lemma cond_negate_result q neg : is_u64 q ->
  let s := if neg : bool then -1 else 0 in
  i64 (u64 (Z.lxor q (u64 s) + u64 (- s))) = i64 (if neg then - q else q).
Proof.
  intros Hq. cbv zeta. rewrite i64_u64. unfold is_u64 in Hq. destruct neg.
  - change (u64 (-1)) with (Z.ones 64). change (u64 (- -1)) with 1.
    replace (Z.lxor q (Z.ones 64)) with (u64 (Z.lnot q)).
    + unfold i64, u64. replace ((Z.lnot q) mod 2 ^ 64 + 1 + 2 ^ 63)
        with ((Z.lnot q) mod 2 ^ 64 + (1 + 2 ^ 63)) by lia.
      rewrite Zplus_mod_idemp_l. do 2 f_equal. unfold Z.lnot. lia.
    + apply Z.bits_inj'. intros k Hk.
      rewrite Bits.testbit_u64, Z.lnot_spec, Z.lxor_spec, Z.testbit_ones by lia.
      rewrite (proj2 (Z.leb_le 0 k)) by lia. cbn [andb].
      destruct (k <? 64) eqn:E; reflect_bools; [cbn [andb]; by rewrite xorb_true_r|].
      rewrite (testbit_above q 64) by lia. done.
  - change (u64 0) with 0. change (u64 (- 0)) with 0. by rewrite Z.lxor_0_r, Z.add_0_r.
Qed.

Lemma sign_xor a b : is_i64 a -> is_i64 b ->
  Z.lxor (Z.shiftr a (U64_BITS - 1)) (Z.shiftr b (U64_BITS - 1)) =
  if xorb (a <? 0) (b <? 0) then -1 else 0.
Proof. intros. rewrite !shiftr_sign by done. by destruct (a <? 0), (b <? 0). Qed.

Lemma abs_quot a b : b <> 0 ->
  (if xorb (a <? 0) (b <? 0) then - (Z.abs a / Z.abs b) else Z.abs a / Z.abs b) = Z.quot a b.
Proof.
  intros Hb. rewrite <- Z.quot_div_nonneg by lia.
  destruct (a <? 0) eqn:Ea, (b <? 0) eqn:Eb; reflect_bools; cbn [xorb];
    rewrite ?(Z.abs_neq a), ?(Z.abs_eq a), ?(Z.abs_neq b), ?(Z.abs_eq b) by lia;
    rewrite ?Z.quot_opp_l, ?Z.quot_opp_r, ?Z.quot_opp_opp by lia; lia.
Qed.

Lemma abs_rem a b : b <> 0 ->
  (if a <? 0 then - (Z.abs a mod Z.abs b) else Z.abs a mod Z.abs b) = Z.rem a b.
Proof.
  intros Hb. rewrite <- Z.rem_mod_nonneg by lia. rewrite Z.rem_abs_r by lia.
  destruct (a <? 0) eqn:Ea; reflect_bools;
    rewrite ?(Z.abs_neq a), ?(Z.abs_eq a) by lia; rewrite ?Z.rem_opp_l by lia; lia.
Qed.

(** ** Properties *)

(** unsigned 64-bit division computes the quotient and the remainder of any
    non-zero dividend by any non-zero divisor, in the at most 63 iterations
    of its loop. *)
Theorem udivmod_correct n d : is_u64 n -> is_u64 d -> 0 < n -> 0 < d ->
  __udivdi3 n d = Ret (n / d) /\ __umoddi3 n d = Ret (n mod d).
Proof. intros. split; [by apply udivdi3_div|by apply umoddi3_mod]. Qed.

Lemma udivmod_correct_witness :
  __udivdi3 (2 ^ 64 - 1) 1000000007 = Ret ((2 ^ 64 - 1) / 1000000007) /\
  __umoddi3 (2 ^ 64 - 1) 1000000007 = Ret ((2 ^ 64 - 1) mod 1000000007).
Proof. apply (udivmod_correct (2 ^ 64 - 1) 1000000007); unfold is_u64; lia. Defined.

(** signed 64-bit division truncates towards zero and its remainder has the
    sign of the dividend, for every non-zero dividend and divisor; the one
    quotient that does not fit, [-2^63 / -1], wraps. *)
Theorem sdivmod_correct a b : is_i64 a -> is_i64 b -> a <> 0 -> b <> 0 ->
  __divdi3 a b = Ret (i64 (Z.quot a b)) /\ __moddi3 a b = Ret (Z.rem a b).
Proof.
  intros Ha Hb Ha0 Hb0. unfold __divdi3, __moddi3. cbv zeta.
  rewrite !cond_negate_abs, sign_xor by done.
  assert (is_u64 (Z.abs a) /\ is_u64 (Z.abs b)) as [? ?] by (unfold is_i64, is_u64 in *; lia).
  rewrite udivdi3_div, umoddi3_mod, !bind_Ret by (done || lia).
  assert (0 <= Z.abs a / Z.abs b <= Z.abs a).
  { split; [apply Z.div_pos; lia|apply Z.div_le_upper_bound; nia]. }
  pose proof (Z.mod_pos_bound (Z.abs a) (Z.abs b) ltac:(lia)).
  rewrite !cond_negate_result by (unfold is_u64 in *; lia).
  rewrite abs_quot by done. split; [done|]. rewrite shiftr_sign by done.
  rewrite cond_negate_result by (unfold is_u64 in *; lia). rewrite abs_rem by done.
  rewrite i64_small; [done|]. pose proof (Z.rem_bound_abs a b Hb0). unfold is_i64 in *. lia.
Qed.

Lemma sdivmod_correct_witness :
  (__divdi3 (-7) 2 = Ret (i64 (Z.quot (-7) 2)) /\ __moddi3 (-7) 2 = Ret (Z.rem (-7) 2)) /\
  __divdi3 (-7) 2 = Ret (-3) /\ __divdi3 (- 2 ^ 63) (-1) = Ret (- 2 ^ 63).
Proof.
  split; [apply (sdivmod_correct (-7) 2); unfold is_i64; lia|by vm_compute].
Defined.

(** a zero dividend reaches [__builtin_clzll(0)], which has no defined
    result: 0 divided by anything is undefined in all four routines. *)
Theorem zero_dividend_undefined d : is_i64 d ->
  __udivdi3 0 d = Undef /\ __umoddi3 0 d = Undef /\
  __divdi3 0 d = Undef /\ __moddi3 0 d = Undef.
Proof.
  intros Hd.
  assert (H : forall x, __udivdi3 0 x = Undef /\ __umoddi3 0 x = Undef).
  { intros x. unfold __udivdi3, __umoddi3, clz. by destruct (x =? 0). }
  unfold __divdi3, __moddi3.
  rewrite Z.shiftr_0_l, Z.lxor_0_l. change (u64 (- 0)) with 0. change (u64 (u64 0 + 0)) with 0.
  cbv zeta. destruct (H d). split; [done|]. split; [done|].
  by rewrite !(proj1 (H _)), !(proj2 (H _)).
Qed.

Lemma zero_dividend_undefined_witness : is_i64 5 /\ __udivdi3 0 5 = Undef.
Proof. split; [unfold is_i64; lia|apply (zero_dividend_undefined 5); unfold is_i64; lia]. Defined.

End Division.
