(* ===== verification/CString.v ===== *)
(** * C strings and memory blocks

    [kernel/kstdlib/string.c] and [ctype.c] over a byte memory: addresses are
    [Z], the memory maps the addresses that belong to some object to a byte.
    Reading or writing anywhere else is [Undef]. *)
From S2P Require Import Prelude.

#[global] Abbreviation mem := (gmap Z Z).

Section memory.
Implicit Types (m : gmap Z Z) (p a : Z) (l : list Z).

Definition load m a : outcome Z := deref (m !! a).
Definition store m a (v : Z) : outcome (gmap Z Z) :=
  match m !! a with Some _ => Ret (<[a := u8 v]> m) | None => Undef end.

(** A string loop cannot read more bytes than the memory holds. *)
Definition mem_fuel m : nat := S (size m).

(** ** The loops of [string.c] *)
Fixpoint memcmp_loop (k : nat) m (str1 str2 i : Z) : outcome Z :=
  match k with
  | O => Ret 0
  | S k =>
      byte1 ← load m (str1 + i); byte2 ← load m (str2 + i);
      if negb (byte1 =? byte2) then Ret (i32 (byte1 - byte2))
      else memcmp_loop k m str1 str2 (i + 1)
  end.
Definition memcmp m (str1 str2 n : Z) : outcome Z := memcmp_loop (Z.to_nat n) m str1 str2 0.

Fixpoint memcpy_loop (k : nat) m (dest src i : Z) : outcome (gmap Z Z) :=
  match k with
  | O => Ret m
  | S k => b ← load m (src + i); m ← store m (dest + i) b; memcpy_loop k m dest src (i + 1)
  end.
Definition memcpy m (dest src n : Z) : outcome (gmap Z Z * Z) :=
  m ← memcpy_loop (Z.to_nat n) m dest src 0; Ret (m, dest).

Fixpoint memset_loop (k : nat) m (s c i : Z) : outcome (gmap Z Z) :=
  match k with
  | O => Ret m
  | S k => m ← store m (s + i) (u8 c); memset_loop k m s c (i + 1)
  end.
Definition memset m (s c n : Z) : outcome (gmap Z Z * Z) :=
  m ← memset_loop (Z.to_nat n) m s c 0; Ret (m, s).

Fixpoint strlen_loop (fuel : nat) m (str ret : Z) : outcome Z :=
  match fuel with
  | O => Undef
  | S fuel =>
      c ← load m (str + ret);
      if negb (c =? 0) then strlen_loop fuel m str (u32 (ret + 1)) else Ret ret
  end.
Definition strlen m (str : Z) : outcome Z := strlen_loop (mem_fuel m) m str 0.

(** The terminator is tested before the bound. *)
Fixpoint strnlen_loop (fuel : nat) m (str n ret : Z) : outcome Z :=
  match fuel with
  | O => Undef
  | S fuel =>
      c ← load m (str + ret);
      if negb (c =? 0) && (ret <? n) then strnlen_loop fuel m str n (u32 (ret + 1)) else Ret ret
  end.
Definition strnlen m (str n : Z) : outcome Z := strnlen_loop (mem_fuel m) m str n 0.

(** [*(dest++) = src[i]]. *)
Fixpoint strncat_loop (k : nat) m (dest src i : Z) : outcome (gmap Z Z * Z) :=
  match k with
  | O => Ret (m, dest)
  | S k =>
      c ← load m (src + i); m ← store m dest c;
      strncat_loop k m (dest + 1) src (i + 1)
  end.
Definition strncat m (dest src n : Z) : outcome (gmap Z Z * Z) :=
  dl ← strlen m dest;
  let dest := dest + dl in
  srclen ← strlen m src;
  let end_ := if n <? srclen then n else srclen in
  '(m, dest) ← strncat_loop (Z.to_nat end_) m dest src 0;
  m ← store m dest 0;
  Ret (m, dest).
Definition strcat m (dest src : Z) : outcome (gmap Z Z * Z) :=
  n ← strlen m src; strncat m dest src n.

Fixpoint strcpy_loop (fuel : nat) m (dest src i : Z) : outcome (gmap Z Z * Z) :=
  match fuel with
  | O => Undef
  | S fuel =>
      c ← load m (src + i);
      if negb (c =? 0) then
        m ← store m (dest + i) c; strcpy_loop fuel m dest src (u32 (i + 1))
      else Ret (m, i)
  end.
Definition strcpy m (dest src : Z) : outcome (gmap Z Z * Z) :=
  '(m, i) ← strcpy_loop (mem_fuel m) m dest src 0;
  m ← store m (dest + i) 0;
  Ret (m, dest).

(** The copying part of [strncpy]; the second loop pads with zeros. *)
Fixpoint strncpy_copy (k : nat) m (dest src i : Z) : outcome (gmap Z Z * Z) :=
  match k with
  | O => Ret (m, i)
  | S k =>
      c ← load m (src + i);
      if negb (c =? 0) then
        m ← store m (dest + i) c; strncpy_copy k m dest src (i + 1)
      else Ret (m, i)
  end.
Definition strncpy m (dest src n : Z) : outcome (gmap Z Z * Z) :=
  '(m, i) ← strncpy_copy (Z.to_nat n) m dest src 0;
  m ← memset_loop (Z.to_nat (n - i)) m dest 0 i;
  Ret (m, dest).

Definition strcmp m (str1 str2 : Z) : outcome Z :=
  strlen1 ← strlen m str1;
  strlen2 ← strlen m str2;
  if strlen1 >? strlen2 then Ret 1
  else if strlen1 <? strlen2 then Ret (-1)
  else memcmp m str1 str2 strlen1.

(** A null result is address 0. *)
Fixpoint strchr_loop (k : nat) m (str c i : Z) : outcome Z :=
  match k with
  | O => Ret 0
  | S k =>
      b ← load m (str + i);
      if b =? u8 c then Ret (str + i) else strchr_loop k m str c (i + 1)
  end.
Definition strchr m (str c : Z) : outcome Z :=
  len ← strlen m str; strchr_loop (Z.to_nat len) m str c 0.

(** [i] runs from the terminator down to 0. *)
Fixpoint strrchr_loop (k : nat) m (str c i : Z) : outcome Z :=
  match k with
  | O => Ret 0
  | S k =>
      b ← load m (str + i);
      if b =? u8 c then Ret (str + i) else strrchr_loop k m str c (i - 1)
  end.
Definition _SSIZE_MAX_ : Z := 2 ^ 31 - 1.
Definition strrchr m (str c : Z) : outcome Z :=
  l ← strlen m str;
  let len := Z.min l _SSIZE_MAX_ in
  strrchr_loop (Z.to_nat (len + 1)) m str c len.

Fixpoint strstr_loop (fuel : nat) m (haystack needle haylen needlelen : Z) : outcome Z :=
  match fuel with
  | O => Undef
  | S fuel =>
      if haylen >=? needlelen then
        r ← memcmp m haystack needle needlelen;
        if r =? 0 then Ret haystack
        else strstr_loop fuel m (haystack + 1) needle (u32 (haylen - 1)) needlelen
      else Ret 0
  end.
Definition strstr m (haystack needle : Z) : outcome Z :=
  haylen ← strlen m haystack;
  needlelen ← strlen m needle;
  strstr_loop (S (Z.to_nat haylen)) m haystack needle haylen needlelen.
End memory.

(** ** Blocks of bytes

    [bytes_at m p l]: the bytes [l] are stored from [p] on.  [write_bytes] is
    the memory after storing [l] at [p]. *)
Section blocks.
Implicit Types (m : gmap Z Z) (p a : Z) (l s : list Z).

Definition bytes_at m p l : Prop := forall i b, l !! i = Some b -> m !! (p + Z.of_nat i) = Some b.
Definition mapped m p (n : Z) : Prop := forall a, p <= a < p + n -> is_Some (m !! a).
Definition disjoint p (n : Z) q (k : Z) : Prop := p + n <= q \/ q + k <= p.
Definition is_byte (b : Z) : Prop := 0 <= b < 256.

Fixpoint write_bytes m p l : gmap Z Z :=
  match l with [] => m | b :: l => write_bytes (<[p := b]> m) (p + 1) l end.

(** [s] is the NUL-terminated string at [p]. *)
Definition cstr m p s : Prop :=
  bytes_at m p (s ++ [0]) /\ Forall (fun b => 0 < b < 256) s /\
  0 <= p /\ p + Z.of_nat (length s) < 2 ^ 32.

Lemma write_bytes_lookup l : forall m p a,
  write_bytes m p l !! a =
  if decide (p <= a < p + Z.of_nat (length l)) then l !! Z.to_nat (a - p) else m !! a.
Proof.
  induction l as [|b l IH]; intros m p a; cbn [write_bytes length].
  - rewrite decide_False by lia. done.
  - rewrite IH. destruct (decide (p + 1 <= a < p + 1 + Z.of_nat (length l))).
    + rewrite decide_True by lia.
      replace (Z.to_nat (a - p)) with (S (Z.to_nat (a - (p + 1)))) by lia. done.
    + destruct (decide (a = p)) as [->|].
      * rewrite decide_True by lia. rewrite lookup_insert_eq.
        replace (Z.to_nat (p - p)) with O by lia. done.
      * rewrite decide_False by lia. by rewrite lookup_insert_ne.
Qed.

Lemma write_bytes_outside l m p a :
  a < p \/ p + Z.of_nat (length l) <= a -> write_bytes m p l !! a = m !! a.
Proof. intros. rewrite write_bytes_lookup, decide_False by lia. done. Qed.

Lemma write_bytes_snoc l : forall m p b,
  write_bytes m p (l ++ [b]) = <[p + Z.of_nat (length l) := b]> (write_bytes m p l).
Proof.
  induction l as [|c l IH]; intros m p b; cbn [write_bytes app length].
  - by replace (p + Z.of_nat 0) with p by lia.
  - rewrite IH. f_equal. lia.
Qed.

Lemma write_bytes_app l1 l2 : forall m p,
  write_bytes m p (l1 ++ l2) = write_bytes (write_bytes m p l1) (p + Z.of_nat (length l1)) l2.
Proof.
  induction l1 as [|b l1 IH]; intros m p; cbn [write_bytes app length].
  - by replace (p + Z.of_nat 0) with p by lia.
  - rewrite IH. f_equal. lia.
Qed.

Lemma write_bytes_at m p l : bytes_at (write_bytes m p l) p l.
Proof.
  intros i b H. pose proof (lookup_lt_Some _ _ _ H).
  rewrite write_bytes_lookup, decide_True by lia. by replace (Z.to_nat _) with i by lia.
Qed.

Lemma write_bytes_bytes_at m p l q s :
  bytes_at m q s -> disjoint p (Z.of_nat (length l)) q (Z.of_nat (length s)) ->
  bytes_at (write_bytes m p l) q s.
Proof.
  intros H Hd i b Hb. pose proof (lookup_lt_Some _ _ _ Hb).
  rewrite write_bytes_outside; [by apply H|]. unfold disjoint in Hd. lia.
Qed.

Lemma write_bytes_mapped m p l q n : mapped m q n -> mapped (write_bytes m p l) q n.
Proof.
  intros H a Ha. rewrite write_bytes_lookup. destruct (decide _); [|by apply H].
  apply lookup_lt_is_Some. lia.
Qed.

Lemma bytes_at_app m p l1 l2 :
  bytes_at m p (l1 ++ l2) <-> bytes_at m p l1 /\ bytes_at m (p + Z.of_nat (length l1)) l2.
Proof.
  split.
  - intros H. split; intros i b Hi.
    + apply H. by apply lookup_app_l_Some.
    + replace (p + _ + _) with (p + Z.of_nat (length l1 + i)) by lia. apply H.
      by rewrite lookup_app_r, (Nat.add_comm _ i), Nat.add_sub by lia.
  - intros [H1 H2] i b Hi. apply lookup_app_Some in Hi as [Hi|[Hle Hi]]; [by apply H1|].
    apply H2 in Hi. by replace (p + Z.of_nat i) with
      (p + Z.of_nat (length l1) + Z.of_nat (i - length l1)) by lia.
Qed.

Lemma load_bytes_at m p l i b : bytes_at m p l -> 0 <= i -> l !! Z.to_nat i = Some b ->
  load m (p + i) = Ret b.
Proof.
  intros H Hi Hb. apply H in Hb. rewrite Z2Nat.id in Hb by lia. unfold load. by rewrite Hb.
Qed.

Lemma store_mapped m p n a v : mapped m p n -> p <= a < p + n -> is_byte v ->
  store m a v = Ret (<[a := v]> m).
Proof.
  intros H Ha Hv. unfold store. destruct (H a Ha) as [b ->]. by rewrite u8_small.
Qed.

Lemma bytes_at_mapped m p l : bytes_at m p l -> mapped m p (Z.of_nat (length l)).
Proof.
  intros H a Ha. destruct (lookup_lt_is_Some_2 l (Z.to_nat (a - p)) ltac:(lia)) as [b Hb].
  exists b. apply H in Hb. rewrite Z2Nat.id in Hb by lia. by replace (p + (a - p)) with a in Hb by lia.
Qed.

(** A block of [n] mapped addresses needs [n] entries of the memory. *)
Lemma mapped_size m p n : mapped m p n -> (Z.to_nat n <= size m)%nat.
Proof.
  intros H. rewrite <- (length_seqZ p n), <- (size_list_to_set (C := gset Z) (seqZ p n)).
  2:{ apply NoDup_seqZ. }
  rewrite <- size_dom. apply subseteq_size. intros a Ha.
  apply elem_of_list_to_set, elem_of_seqZ in Ha. apply elem_of_dom, H. lia.
Qed.

Lemma cstr_fuel m p s : cstr m p s -> (length s < mem_fuel m)%nat.
Proof.
  intros [H _]. apply bytes_at_mapped, mapped_size in H. unfold mem_fuel.
  rewrite length_app in H. cbn in H. lia.
Qed.

Lemma cstr_load m p s i : cstr m p s -> 0 <= i < Z.of_nat (length s) ->
  exists b, s !! Z.to_nat i = Some b /\ load m (p + i) = Ret b /\ 0 < b < 256.
Proof.
  intros (H & Hb & _) Hi. destruct (lookup_lt_is_Some_2 s (Z.to_nat i) ltac:(lia)) as [b Hs].
  exists b. split; [done|]. split; [|by eapply Forall_lookup_1 in Hb].
  eapply load_bytes_at; [exact H|lia|]. by apply lookup_app_l_Some.
Qed.

Lemma cstr_load_end m p s : cstr m p s -> load m (p + Z.of_nat (length s)) = Ret 0.
Proof.
  intros (H & _). eapply load_bytes_at; [exact H|lia|].
  rewrite Nat2Z.id, lookup_app_r, Nat.sub_diag by lia. done.
Qed.
End blocks.

Ltac zneq := match goal with |- context [?b =? 0] => rewrite (proj2 (Z.eqb_neq b 0)) by lia end; cbn [negb].

(** ** [strlen] *)
Section strlen.
Implicit Types (m : gmap Z Z) (p : Z) (s : list Z).

Lemma strlen_loop_spec m p s : cstr m p s -> forall fuel i,
  0 <= i <= Z.of_nat (length s) -> (Z.to_nat (Z.of_nat (length s) - i) < fuel)%nat ->
  strlen_loop fuel m p i = Ret (Z.of_nat (length s)).
Proof.
  intros Hc. induction fuel as [|fuel IH]; intros i Hi Hf; [lia|]. cbn.
  destruct (decide (i = Z.of_nat (length s))) as [->|].
  - by rewrite (cstr_load_end m p s) by done.
  - destruct (cstr_load m p s i) as (b & _ & -> & Hb); [done|lia|]. rewrite bind_Ret. zneq.
    destruct Hc as (_ & _ & ?). rewrite u32_small by (unfold is_u32; lia). apply IH; lia.
Qed.

Lemma strlen_cstr m p s : cstr m p s -> strlen m p = Ret (Z.of_nat (length s)).
Proof.
  intros Hc. apply (strlen_loop_spec m p s Hc); [lia|]. pose proof (cstr_fuel m p s Hc). lia.
Qed.
End strlen.

(** ** Copying *)
Section copying.
Implicit Types (m : gmap Z Z) (p a dest src : Z) (s l : list Z).

Lemma cstr_write_bytes m p s q l : cstr m p s ->
  disjoint q (Z.of_nat (length l)) p (Z.of_nat (length s) + 1) -> cstr (write_bytes m q l) p s.
Proof.
  intros (H & Hr) Hd. split; [|done]. apply write_bytes_bytes_at; [done|].
  rewrite length_app. cbn. unfold disjoint in *. lia.
Qed.

Lemma cstr_byte m p s i b : cstr m p s -> s !! i = Some b -> 0 < b < 256.
Proof. intros (_ & H & _) Hb. by eapply Forall_lookup_1 in H. Qed.

(** One step of a copy: the byte is read from memory already written to and
    the written prefix grows by it. *)
Lemma copy_step m dest src s i b n :
  cstr m src s -> s !! i = Some b -> mapped m dest n -> Z.of_nat (length s) <= n ->
  disjoint dest n src (Z.of_nat (length s) + 1) ->
  let m' := write_bytes m dest (take i s) in
  load m' (src + Z.of_nat i) = Ret b /\
  store m' (dest + Z.of_nat i) b = Ret (write_bytes m dest (take (S i) s)).
Proof.
  intros Hc Hb Hm Hn Hd. cbv zeta. pose proof (lookup_lt_Some _ _ _ Hb) as Hi.
  pose proof (cstr_byte _ _ _ _ _ Hc Hb).
  assert (Hl : length (take i s) = i) by (rewrite length_take; lia). split.
  - destruct (cstr_load (write_bytes m dest (take i s)) src s (Z.of_nat i)) as (b' & Hb' & -> & _).
    + apply cstr_write_bytes; [done|]. rewrite Hl. unfold disjoint in *. lia.
    + lia.
    + rewrite Nat2Z.id in Hb'. congruence.
  - rewrite (take_S_r _ _ _ Hb), write_bytes_snoc, Hl.
    apply (store_mapped _ dest n); [by apply write_bytes_mapped|lia|unfold is_byte; lia].
Qed.

Lemma strcpy_loop_spec m dest src s :
  cstr m src s -> mapped m dest (Z.of_nat (length s) + 1) ->
  disjoint dest (Z.of_nat (length s) + 1) src (Z.of_nat (length s) + 1) ->
  forall fuel i, (i <= length s)%nat -> (length s - i < fuel)%nat ->
  strcpy_loop fuel (write_bytes m dest (take i s)) dest src (Z.of_nat i)
  = Ret (write_bytes m dest s, Z.of_nat (length s)).
Proof.
  intros Hc Hm Hd. induction fuel as [|fuel IH]; intros i Hi Hf; [lia|]. cbn.
  destruct (decide (i = length s)) as [->|].
  - rewrite take_ge by lia. erewrite cstr_load_end; [done|].
    apply cstr_write_bytes; [done|]. unfold disjoint in *. lia.
  - destruct (lookup_lt_is_Some_2 s i ltac:(lia)) as [b Hb].
    destruct (copy_step m dest src s i b _ Hc Hb Hm ltac:(lia) Hd) as [-> Hst].
    pose proof (cstr_byte _ _ _ _ _ Hc Hb). rewrite bind_Ret. zneq. rewrite Hst, bind_Ret.
    destruct Hc as (_ & _ & ?). rewrite u32_small by (unfold is_u32; lia).
    replace (Z.of_nat i + 1) with (Z.of_nat (S i)) by lia. apply IH; lia.
Qed.

Lemma strcpy_cstr m dest src s :
  cstr m src s -> mapped m dest (Z.of_nat (length s) + 1) ->
  disjoint dest (Z.of_nat (length s) + 1) src (Z.of_nat (length s) + 1) ->
  strcpy m dest src = Ret (write_bytes m dest (s ++ [0]), dest).
Proof.
  intros Hc Hm Hd. unfold strcpy.
  pose proof (strcpy_loop_spec m dest src s Hc Hm Hd (mem_fuel m) 0%nat ltac:(lia)) as H.
  rewrite take_0 in H. cbn [write_bytes] in H. change (Z.of_nat 0) with 0 in H.
  pose proof (cstr_fuel m src s Hc). rewrite H by lia. rewrite bind_Ret.
  rewrite (store_mapped _ dest (Z.of_nat (length s) + 1)); [|by apply write_bytes_mapped|lia|done].
  by rewrite write_bytes_snoc.
Qed.

Lemma strncat_loop_spec m dest src s n :
  cstr m src s -> mapped m dest n -> Z.of_nat (length s) <= n ->
  disjoint dest n src (Z.of_nat (length s) + 1) ->
  forall k i, (i + k <= length s)%nat ->
  strncat_loop k (write_bytes m dest (take i s)) (dest + Z.of_nat i) src (Z.of_nat i)
  = Ret (write_bytes m dest (take (i + k) s), dest + Z.of_nat (i + k)).
Proof.
  intros Hc Hm Hn Hd. induction k as [|k IH]; intros i Hi; cbn.
  - by rewrite Nat.add_0_r.
  - destruct (lookup_lt_is_Some_2 s i ltac:(lia)) as [b Hb].
    destruct (copy_step m dest src s i b _ Hc Hb Hm Hn Hd) as [-> Hst].
    rewrite bind_Ret, Hst, bind_Ret.
    replace (Z.of_nat i + 1) with (Z.of_nat (S i)) by lia.
    replace (dest + Z.of_nat i + 1) with (dest + Z.of_nat (S i)) by lia.
    rewrite IH by lia. by replace (S i + k)%nat with (i + S k)%nat by lia.
Qed.

(** Appending at most [n] bytes of [t] to the string [s] at [dest]. *)
Lemma strncat_cstr m dest src s t n :
  0 <= n -> cstr m dest s -> cstr m src t ->
  let k := Z.min n (Z.of_nat (length t)) in
  mapped m dest (Z.of_nat (length s) + Z.of_nat (length t) + 1) ->
  disjoint dest (Z.of_nat (length s) + Z.of_nat (length t) + 1) src (Z.of_nat (length t) + 1) ->
  strncat m dest src n =
    Ret (write_bytes m (dest + Z.of_nat (length s)) (take (Z.to_nat k) t ++ [0]),
         dest + Z.of_nat (length s) + k).
Proof.
  intros Hn Hs Ht k Hm Hd. unfold strncat.
  rewrite (strlen_cstr m dest s), (strlen_cstr m src t), !bind_Ret by done. cbv zeta.
  set (d := dest + Z.of_nat (length s)) in *.
  replace (if n <? Z.of_nat (length t) then n else Z.of_nat (length t)) with k
    by (subst k; case_cond; lia).
  assert (Hmd : mapped m d (Z.of_nat (length t) + 1)) by (intros a Ha; apply Hm; lia).
  assert (Hk : (0 + Z.to_nat k <= length t)%nat) by lia.
  pose proof (strncat_loop_spec m d src t (Z.of_nat (length t) + 1) Ht Hmd ltac:(lia)
    ltac:(unfold disjoint in *; lia) (Z.to_nat k) 0%nat Hk) as H.
  rewrite take_0 in H. cbn [write_bytes Nat.add] in H. change (Z.of_nat 0) with 0 in H.
  rewrite Z.add_0_r in H. rewrite H, bind_Ret. rewrite Z2Nat.id by lia.
  rewrite (store_mapped _ d (Z.of_nat (length t) + 1)); [|by apply write_bytes_mapped|lia|done].
  rewrite bind_Ret, write_bytes_snoc, length_take. do 3 f_equal. lia.
Qed.

Lemma memset_loop_spec m p n c : mapped m p n -> forall k i,
  0 <= i -> i + Z.of_nat k <= n ->
  memset_loop k m p c i = Ret (write_bytes m (p + i) (replicate k (u8 c))).
Proof.
  intros Hm k. revert m Hm. induction k as [|k IH]; intros m Hm i Hi Hk; cbn; [done|].
  rewrite (store_mapped m p n) by (done || lia || apply u8_range). rewrite bind_Ret.
  rewrite IH by (lia || (apply (write_bytes_mapped m (p + i) [u8 c]), Hm)).
  by replace (p + (i + 1)) with (p + i + 1) by lia.
Qed.

Lemma memset_spec m p c n : 0 <= n -> mapped m p n ->
  memset m p c n = Ret (write_bytes m p (replicate (Z.to_nat n) (u8 c)), p).
Proof.
  intros. unfold memset. rewrite (memset_loop_spec m p n) by (done || lia).
  by rewrite Z.add_0_r.
Qed.

(** [memcpy] copies upwards: right when [dest] is not inside the source. *)
Lemma memcpy_loop_spec m dest src l :
  bytes_at m src l -> Forall is_byte l -> mapped m dest (Z.of_nat (length l)) ->
  dest <= src \/ src + Z.of_nat (length l) <= dest ->
  forall k i, (i + k = length l)%nat ->
  memcpy_loop k (write_bytes m dest (take i l)) dest src (Z.of_nat i) = Ret (write_bytes m dest l).
Proof.
  intros Hl Hb Hm Hd. induction k as [|k IH]; intros i Hi; cbn.
  - by rewrite take_ge by lia.
  - destruct (lookup_lt_is_Some_2 l i ltac:(lia)) as [b Hbi].
    assert (Hlen : length (take i l) = i) by (rewrite length_take; lia).
    unfold load. rewrite write_bytes_outside by (rewrite Hlen; lia).
    rewrite (Hl _ _ Hbi). cbn [deref]. rewrite bind_Ret.
    rewrite (store_mapped _ dest (Z.of_nat (length l)));
      [|by apply write_bytes_mapped|lia|by eapply Forall_lookup_1 in Hb].
    rewrite bind_Ret. replace (Z.of_nat i + 1) with (Z.of_nat (S i)) by lia.
    rewrite <- (IH (S i)) by lia. by rewrite (take_S_r _ _ _ Hbi), write_bytes_snoc, Hlen.
Qed.

Lemma memcpy_spec m dest src l :
  bytes_at m src l -> Forall is_byte l -> mapped m dest (Z.of_nat (length l)) ->
  dest <= src \/ src + Z.of_nat (length l) <= dest ->
  memcpy m dest src (Z.of_nat (length l)) = Ret (write_bytes m dest l, dest).
Proof.
  intros. unfold memcpy. rewrite Nat2Z.id.
  pose proof (memcpy_loop_spec m dest src l) as Hl. specialize (Hl ltac:(done) ltac:(done) ltac:(done) ltac:(done) (length l) 0%nat ltac:(lia)).
  rewrite take_0 in Hl. cbn [write_bytes] in Hl. change (Z.of_nat 0) with 0 in Hl. by rewrite Hl.
Qed.
End copying.

(** ** Comparing *)
Section comparing.
Implicit Types (m : gmap Z Z) (p : Z) (s t : list Z).

(** The sign [memcmp] gives: the difference at the first mismatch. *)
Fixpoint byte_diff s t : Z :=
  match s, t with
  | b :: s, c :: t => if b =? c then byte_diff s t else b - c
  | _, _ => 0
  end.

Lemma byte_diff_0 s : forall t, length s = length t -> byte_diff s t = 0 <-> s = t.
Proof.
  induction s as [|b s IH]; intros [|c t] Hl; cbn in *; try done.
  destruct (b =? c) eqn:E; reflect_bools.
  - subst. rewrite IH by lia. split; congruence.
  - split; [lia|congruence].
Qed.

Lemma memcmp_loop_spec m p q s t : bytes_at m p s -> bytes_at m q t ->
  Forall is_byte s -> Forall is_byte t -> length s = length t ->
  forall k i, (i + k = length s)%nat ->
  memcmp_loop k m p q (Z.of_nat i) = Ret (byte_diff (drop i s) (drop i t)).
Proof.
  intros Hs Ht Hbs Hbt Hl. induction k as [|k IH]; intros i Hi; cbn.
  - by rewrite drop_ge by lia.
  - destruct (lookup_lt_is_Some_2 s i ltac:(lia)) as [b Hb].
    destruct (lookup_lt_is_Some_2 t i ltac:(lia)) as [c Hc].
    unfold load. rewrite (Hs _ _ Hb), (Ht _ _ Hc). cbn [deref]. rewrite !bind_Ret.
    rewrite (drop_S _ _ _ Hb), (drop_S _ _ _ Hc). cbn [byte_diff].
    pose proof (Forall_lookup_1 _ _ _ _ Hbs Hb) as Hb1. pose proof (Forall_lookup_1 _ _ _ _ Hbt Hc) as Hc1.
    unfold is_byte in Hb1, Hc1.
    destruct (b =? c); cbn [negb].
    + replace (Z.of_nat i + 1) with (Z.of_nat (S i)) by lia. apply IH. lia.
    + rewrite i32_small; [done|unfold is_i32; lia].
Qed.

Lemma memcmp_spec m p q s t : bytes_at m p s -> bytes_at m q t ->
  Forall is_byte s -> Forall is_byte t -> length s = length t ->
  memcmp m p q (Z.of_nat (length s)) = Ret (byte_diff s t).
Proof.
  intros. unfold memcmp. rewrite Nat2Z.id.
  pose proof (memcmp_loop_spec m p q s t) as Hl. specialize (Hl ltac:(done) ltac:(done) ltac:(done) ltac:(done) ltac:(done) (length s) 0%nat ltac:(lia)).
  done.
Qed.

Lemma cstr_bytes m p s : cstr m p s -> bytes_at m p s /\ Forall is_byte s.
Proof.
  intros (H & Hb & _). split; [by apply bytes_at_app in H as [H _]|].
  eapply Forall_impl; [exact Hb|]. unfold is_byte. cbn. lia.
Qed.

(** The order [strcmp] implements: by length, then bytewise. *)
Definition strcmp_spec s t : Z :=
  if (length t <? length s)%nat then 1
  else if (length s <? length t)%nat then -1 else byte_diff s t.

Lemma strcmp_spec_0 s t : strcmp_spec s t = 0 <-> s = t.
Proof.
  unfold strcmp_spec.
  destruct (length t <? length s)%nat eqn:E1; [apply Nat.ltb_lt in E1; split; [done|intros ->; lia]|].
  destruct (length s <? length t)%nat eqn:E2; [apply Nat.ltb_lt in E2; split; [done|intros ->; lia]|].
  apply Nat.ltb_ge in E1, E2. apply byte_diff_0. lia.
Qed.

Lemma strcmp_cstr m p q s t : cstr m p s -> cstr m q t ->
  strcmp m p q = Ret (strcmp_spec s t).
Proof.
  intros Hs Ht. unfold strcmp. rewrite (strlen_cstr m p s), (strlen_cstr m q t), !bind_Ret by done.
  unfold strcmp_spec. rewrite Z.gtb_ltb.
  destruct (length t <? length s)%nat eqn:E1.
  { apply Nat.ltb_lt in E1. by rewrite (proj2 (Z.ltb_lt _ _)) by lia. }
  apply Nat.ltb_ge in E1. rewrite (proj2 (Z.ltb_ge _ _)) by lia.
  destruct (length s <? length t)%nat eqn:E2.
  { apply Nat.ltb_lt in E2. by rewrite (proj2 (Z.ltb_lt _ _)) by lia. }
  apply Nat.ltb_ge in E2. rewrite (proj2 (Z.ltb_ge _ _)) by lia.
  destruct (cstr_bytes _ _ _ Hs), (cstr_bytes _ _ _ Ht). apply memcmp_spec; done || lia.
Qed.
End comparing.

(** ** Searching *)
Section searching.
Implicit Types (m : gmap Z Z) (p q : Z) (s t : list Z).

(** [t] occurs in [s] at index [i]. *)
Definition occurs_at s t (i : nat) : Prop := take (length t) (drop i s) = t /\ (i + length t <= length s)%nat.

Definition first_occurrence s t p (r : Z) : Prop :=
  (exists i, r = p + Z.of_nat i /\ occurs_at s t i /\ forall j, (j < i)%nat -> ~ occurs_at s t j) \/
  (r = 0 /\ forall j, ~ occurs_at s t j).

Lemma strstr_loop_spec m p q s t : cstr m p s -> cstr m q t ->
  forall fuel i, (i <= length s)%nat -> (length s - i < fuel)%nat ->
  (forall j, (j < i)%nat -> ~ occurs_at s t j) ->
  exists r, strstr_loop fuel m (p + Z.of_nat i) q (Z.of_nat (length s - i)) (Z.of_nat (length t)) = Ret r
    /\ first_occurrence s t p r.
Proof.
  intros Hs Ht. destruct (cstr_bytes _ _ _ Hs) as [Hsb Hs8], (cstr_bytes _ _ _ Ht) as [Htb Ht8].
  induction fuel as [|fuel IH]; intros i Hi Hf Hno; [lia|]. cbn.
  rewrite Z.geb_leb. case_cond.
  - set (w := take (length t) (drop i s)).
    assert (Hw : length w = length t) by (subst w; rewrite length_take, length_drop; lia).
    assert (Hwb : bytes_at m (p + Z.of_nat i) w).
    { rewrite <- (take_drop i s), <- (take_drop (length t) (drop i s)) in Hsb.
      apply bytes_at_app in Hsb as [_ Hsb]. rewrite length_take, Nat.min_l in Hsb by lia.
      by apply bytes_at_app in Hsb as [Hsb _]. }
    assert (Hw8 : Forall is_byte w) by (by apply Forall_take, Forall_drop).
    rewrite <- Hw, (memcmp_spec m _ q w t), bind_Ret by done.
    case_cond.
    + eexists. split; [done|]. left. exists i. split; [done|]. split; [|done].
      apply byte_diff_0 in Heqb0; [|done]. split; [exact Heqb0|lia].
    + assert (Hn : ~ occurs_at s t i).
      { intros [Ho _]. apply Heqb0, byte_diff_0; [done|exact Ho]. }
      assert (i <> length s).
      { intros ->. apply Hn. split; [|lia]. assert (length t = 0%nat) as Ht0 by lia.
        apply nil_length_inv in Ht0. by rewrite Ht0. }
      rewrite Hw. destruct Hs as (_ & _ & ?). rewrite u32_small by (unfold is_u32; lia).
      replace (p + Z.of_nat i + 1) with (p + Z.of_nat (S i)) by lia.
      replace (Z.of_nat (length s - i) - 1) with (Z.of_nat (length s - S i)) by lia.
      apply IH; [lia|lia|]. intros j Hj.
      destruct (decide (j = i)) as [->|]; [done|apply Hno; lia].
  - eexists. split; [done|]. right. split; [done|]. intros j Ho.
    destruct (decide (j < i)%nat); [by apply (Hno j)|]. destruct Ho. lia.
Qed.

Lemma strstr_cstr m p q s t : cstr m p s -> cstr m q t ->
  exists r, strstr m p q = Ret r /\ first_occurrence s t p r.
Proof.
  intros Hs Ht. unfold strstr. rewrite (strlen_cstr m p s), (strlen_cstr m q t), !bind_Ret by done.
  destruct (strstr_loop_spec m p q s t Hs Ht (S (length s)) 0%nat) as (r & Hr & Hf); try lia.
  exists r. split; [|done]. rewrite Nat2Z.id. rewrite Nat.sub_0_r, Z.add_0_r in Hr. exact Hr.
Qed.

Lemma strchr_loop_spec m p s c : cstr m p s -> is_byte c -> forall k i, (i + k = length s)%nat ->
  (forall j, (j < i)%nat -> s !! j <> Some c) ->
  exists r, strchr_loop k m p c (Z.of_nat i) = Ret r /\
    ((exists j, r = p + Z.of_nat j /\ s !! j = Some c /\ forall j', (j' < j)%nat -> s !! j' <> Some c) \/
     (r = 0 /\ ~ c ∈ s)).
Proof.
  intros Hs Hc. induction k as [|k IH]; intros i Hi Hno; cbn.
  - exists 0. split; [done|]. right. split; [done|]. intros [j Hj]%list_elem_of_lookup.
    pose proof (lookup_lt_Some _ _ _ Hj). apply (Hno j); [lia|done].
  - destruct (cstr_load m p s (Z.of_nat i) Hs ltac:(lia)) as (b & Hb & -> & _).
    rewrite Nat2Z.id in Hb. rewrite bind_Ret, u8_small by done. case_cond.
    + exists (p + Z.of_nat i). split; [done|]. left. exists i. subst b. done.
    + replace (Z.of_nat i + 1) with (Z.of_nat (S i)) by lia. apply IH; [lia|].
      intros j Hj. destruct (decide (j = i)) as [->|]; [congruence|apply Hno; lia].
Qed.

Lemma strrchr_loop_spec m p s c : cstr m p s -> is_byte c -> forall k,
  (k <= S (length s))%nat ->
  (forall j, (k <= j)%nat -> (s ++ [0]) !! j <> Some c) ->
  exists r, strrchr_loop k m p c (Z.of_nat k - 1) = Ret r /\
    ((exists j, r = p + Z.of_nat j /\ (s ++ [0]) !! j = Some c /\
        forall j', (j < j')%nat -> (s ++ [0]) !! j' <> Some c) \/
     (r = 0 /\ ~ c ∈ s ++ [0])).
Proof.
  intros Hs Hc. induction k as [|k IH]; intros Hk Hno; cbn [strrchr_loop].
  - exists 0. split; [done|]. right. split; [done|]. intros [j Hj]%list_elem_of_lookup.
    apply (Hno j); [lia|done].
  - replace (Z.of_nat (S k) - 1) with (Z.of_nat k) by lia.
    assert (exists b, (s ++ [0]) !! k = Some b) as [b Hb].
    { apply lookup_lt_is_Some_2. rewrite length_app. cbn. lia. }
    erewrite load_bytes_at; [|apply Hs|lia|by rewrite Nat2Z.id].
    rewrite bind_Ret, u8_small by done. case_cond.
    + exists (p + Z.of_nat k). split; [done|]. left. exists k. subst b.
      repeat split; [done|]. intros j' Hj'. apply Hno. lia.
    + apply IH; [lia|]. intros j Hj. destruct (decide (j = k)) as [->|]; [congruence|apply Hno; lia].
Qed.

End searching.

(** ** A buffer in memory

    [write_bytes m p b] is a memory with the buffer [b] at [p]; reads and
    writes inside it are operations on [b]. *)
Section buffer.
Implicit Types (m : gmap Z Z) (p i : Z) (b l s : list Z).

Lemma buf_load m p b i c : 0 <= i -> b !! Z.to_nat i = Some c -> load (write_bytes m p b) (p + i) = Ret c.
Proof. intros Hi Hb. by apply (load_bytes_at _ p b i c (write_bytes_at m p b)). Qed.

Lemma buf_store m p b i v : 0 <= i < Z.of_nat (length b) -> is_byte v ->
  store (write_bytes m p b) (p + i) v = Ret (write_bytes m p (<[Z.to_nat i := v]> b)).
Proof.
  intros Hi Hv. rewrite (store_mapped _ p (Z.of_nat (length b))); [|apply bytes_at_mapped, write_bytes_at|lia|done].
  f_equal. apply map_eq. intros a. rewrite write_bytes_lookup, length_insert.
  destruct (decide (a = p + i)) as [->|Hne].
  - rewrite lookup_insert_eq, decide_True by lia. replace (p + i - p) with i by lia.
    by rewrite list_lookup_insert_eq by lia.
  - rewrite lookup_insert_ne, write_bytes_lookup by done.
    destruct (decide _); [|done]. by rewrite list_lookup_insert_ne by lia.
Qed.

(** A string in a buffer: its bytes, a terminator, leftovers. *)
Lemma buf_at m p l0 c l1 : load (write_bytes m p (l0 ++ c :: l1)) (p + Z.of_nat (length l0)) = Ret c.
Proof. apply buf_load; [lia|]. rewrite Nat2Z.id. by apply list_lookup_middle. Qed.

Lemma bytes_at_write m p l : bytes_at m p l -> write_bytes m p l = m.
Proof.
  intros Hb. apply map_eq. intros a. rewrite write_bytes_lookup. destruct (decide _) as [Ha|]; [|done].
  destruct (lookup_lt_is_Some_2 l (Z.to_nat (a - p))) as (c & Hc); [lia|]. rewrite Hc.
  apply Hb in Hc. by replace (p + Z.of_nat (Z.to_nat (a - p))) with a in Hc by lia.
Qed.

(** Reading through a string. *)
Lemma cstr_head m p s : cstr m p s -> load m p = Ret (hd 0 s).
Proof.
  intros Hc. destruct s as [|c s].
  - rewrite <- (Z.add_0_r p). exact (cstr_load_end m p [] Hc).
  - destruct (cstr_load m p (c :: s) 0 Hc) as (b & Hb & Hl & _); [cbn; lia|]. rewrite Z.add_0_r in Hl. by injection Hb as ->.
Qed.
Lemma cstr_drop m p l s : cstr m p (l ++ s) -> cstr m (p + Z.of_nat (length l)) s.
Proof.
  intros (Hb & Hf & Hp & Hl). rewrite <- app_assoc in Hb. apply bytes_at_app in Hb as [_ Hb]. apply Forall_app in Hf as [_ Hf].
  rewrite length_app in Hl. repeat split; try done; lia.
Qed.
Lemma cstr_tail m p c s : cstr m p (c :: s) -> cstr m (p + 1) s.
Proof. apply (cstr_drop m p [c]). Qed.

(** A string in a buffer. *)
Lemma cstr_write m p s rest : Forall (fun c : Z => 0 < c < 256) s -> 0 <= p -> p + Z.of_nat (length s) < 2 ^ 32 ->
  cstr (write_bytes m p (s ++ 0 :: rest)) p s.
Proof.
  intros Hs Hp Hl. split; [|done]. pose proof (write_bytes_at m p (s ++ 0 :: rest)) as Hb.
  replace (s ++ 0 :: rest) with ((s ++ [0]) ++ rest) in * by by rewrite <- app_assoc. by apply bytes_at_app in Hb as [Hb _].
Qed.

(** Appending at most [n] bytes, when only the bytes copied have room. *)
Lemma strncat_loop_cut l : forall m d src, bytes_at m src l -> Forall is_byte l -> mapped m d (Z.of_nat (length l)) ->
  disjoint d (Z.of_nat (length l)) src (Z.of_nat (length l)) ->
  forall i, strncat_loop (length l) m d (src - i) i = Ret (write_bytes m d l, d + Z.of_nat (length l)).
Proof.
  induction l as [|c l IH]; intros m d src Hb Hf Hm Hd i; cbn [strncat_loop length write_bytes]; [by rewrite Z.add_0_r|].
  apply Forall_cons in Hf as [Hc Hf]. rewrite Z.sub_add.
  pose proof (load_bytes_at m src (c :: l) 0 c Hb ltac:(lia) eq_refl) as H0. rewrite Z.add_0_r in H0. rewrite H0, bind_Ret.
  rewrite (store_mapped m d (Z.of_nat (length (c :: l)))); [|done|cbn; lia|done]. rewrite bind_Ret.
  replace (src - i) with (src + 1 - (i + 1)) by lia. unfold disjoint in Hd. cbn [length] in Hd, Hm. rewrite IH.
  - do 2 f_equal. lia.
  - apply (write_bytes_bytes_at m d [c]); [|unfold disjoint; cbn; lia]. apply (bytes_at_app m src [c] l) in Hb as [_ Hb]. exact Hb.
  - done.
  - intros a Ha. apply (write_bytes_mapped m d [c] d (Z.of_nat (S (length l)))); [done|lia].
  - unfold disjoint. lia.
Qed.
Lemma strncat_cut m dest src s t n :
  0 <= n -> cstr m dest s -> cstr m src t ->
  let k := Z.min n (Z.of_nat (length t)) in
  mapped m dest (Z.of_nat (length s) + k + 1) ->
  disjoint dest (Z.of_nat (length s) + k + 1) src (Z.of_nat (length t) + 1) ->
  strncat m dest src n =
    Ret (write_bytes m (dest + Z.of_nat (length s)) (take (Z.to_nat k) t ++ [0]), dest + Z.of_nat (length s) + k).
Proof.
  intros Hn Hs Ht k Hm Hd. unfold strncat. rewrite (strlen_cstr m dest s), (strlen_cstr m src t), !bind_Ret by done. cbv zeta.
  set (d := dest + Z.of_nat (length s)) in *.
  replace (if n <? Z.of_nat (length t) then n else Z.of_nat (length t)) with k by (subst k; case_cond; lia).
  assert (Hk : length (take (Z.to_nat k) t) = Z.to_nat k) by (rewrite length_take; lia).
  destruct (cstr_bytes m src t Ht) as [Hb Hf]. unfold disjoint in Hd.
  pose proof (strncat_loop_cut (take (Z.to_nat k) t) m d src) as H. rewrite Hk in H. rewrite <- (Z.sub_0_r src) at 1. rewrite H.
  - rewrite bind_Ret. rewrite Z2Nat.id by lia. rewrite (store_mapped _ dest (Z.of_nat (length s) + k + 1)).
    + by rewrite bind_Ret, write_bytes_snoc, Hk, Z2Nat.id by lia.
    + by apply write_bytes_mapped.
    + lia.
    + unfold is_byte. lia.
  - intros i b Hi. apply Hb. by apply lookup_take_Some in Hi as [? _].
  - by apply Forall_take.
  - intros a Ha. apply Hm. lia.
  - unfold disjoint. lia.
Qed.
End buffer.

(** ** Character classes ([ctype.c]) *)
Definition b2z (b : bool) : Z := if b then 1 else 0.
Definition isdigit (c : Z) : bool := (48 <=? c) && (c <=? 57).
Definition isspace (c : Z) : bool :=
  (c =? 32) || (c =? 12) || (c =? 10) || (c =? 13) || (c =? 9) || (c =? 11).
Definition isxdigit (c : Z) : bool :=
  ((48 <=? c) && (c <=? 57)) || ((97 <=? c) && (c <=? 102)) || ((65 <=? c) && (c <=? 70)).
Definition isupper (c : Z) : bool := (65 <=? c) && (c <=? 90).
Definition tolower (c : Z) : Z := i32 (c + 32).

(** ** Properties *)

(** [strlen] terminates on every NUL-terminated string and returns its
    length; the fuel of the model, one more than the bytes in memory, is
    never exhausted. *)
Theorem strlen_correct (m : gmap Z Z) p s : cstr m p s -> strlen m p = Ret (Z.of_nat (length s)).
Proof. apply strlen_cstr. Qed.

(** "hi" at 100, "path" at 200, and a 16-byte buffer holding "a" at 300. *)
Definition demo_mem : gmap Z Z :=
  write_bytes (write_bytes (write_bytes ∅ 100 [104; 105; 0]) 200 [112; 97; 116; 104; 0])
    300 (97 :: replicate 15 0).

Lemma demo_cstr p s :
  forallb (fun i => bool_decide (demo_mem !! (p + Z.of_nat i) = (s ++ [0]) !! i)) (seq 0 (S (length s))) = true ->
  forallb (fun b => (0 <? b) && (b <? 256)) s = true -> 0 <= p <= 400 -> (length s < 100)%nat ->
  cstr demo_mem p s.
Proof.
  intros H1 H2 Hp Hl. rewrite forallb_forall in H1. split; [|split].
  - intros i b Hi. pose proof (lookup_lt_Some _ _ _ Hi) as Hlt. rewrite length_app in Hlt. cbn in Hlt.
    assert (Hin : In i (seq 0 (S (length s)))) by (apply in_seq; lia).
    apply H1, bool_decide_eq_true_1 in Hin. congruence.
  - apply Forall_forall. intros b Hb%list_elem_of_In.
    rewrite forallb_forall in H2. apply H2, andb_prop in Hb as [? ?]. lia.
  - lia.
Qed.

Lemma mapped_check (m : gmap Z Z) p n :
  forallb (fun i => bool_decide (is_Some (m !! (p + Z.of_nat i)))) (seq 0 (Z.to_nat n)) = true ->
  mapped m p n.
Proof.
  intros H a Ha. rewrite forallb_forall in H.
  replace a with (p + Z.of_nat (Z.to_nat (a - p))) by lia.
  eapply bool_decide_eq_true_1, H, in_seq. lia.
Qed.

Lemma strlen_correct_witness :
  cstr demo_mem 200 [112; 97; 116; 104] /\ strlen demo_mem 200 = Ret 4.
Proof.
  assert (H : cstr demo_mem 200 [112; 97; 116; 104]) by (apply demo_cstr; (by vm_compute) || (cbn; lia)).
  split; [exact H|apply (strlen_correct _ _ _ H)].
Defined.

(** [strcpy] stores exactly the source string and its terminator at the
    destination and nothing else, and returns the destination; [strncat]
    appends at most [n] bytes of the source over the old terminator, ends
    the result with a NUL, changes nothing else, and returns the address of
    the new terminator, not the destination. *)
Theorem strcpy_strncat_correct (m : gmap Z Z) dest src s t n :
  0 <= n -> cstr m dest s -> cstr m src t ->
  mapped m dest (Z.of_nat (length s) + Z.of_nat (length t) + 1) ->
  disjoint dest (Z.of_nat (length s) + Z.of_nat (length t) + 1) src (Z.of_nat (length t) + 1) ->
  strcpy m dest src = Ret (write_bytes m dest (t ++ [0]), dest) /\
  (let k := Z.min n (Z.of_nat (length t)) in
   strncat m dest src n =
     Ret (write_bytes m (dest + Z.of_nat (length s)) (take (Z.to_nat k) t ++ [0]),
          dest + Z.of_nat (length s) + k)).
Proof.
  intros Hn Hs Ht Hm Hd. split.
  - apply strcpy_cstr; [done| |unfold disjoint in *; lia]. intros a Ha. apply Hm. lia.
  - by apply strncat_cstr.
Qed.

Lemma strcpy_strncat_correct_witness :
  strcpy demo_mem 300 200 = Ret (write_bytes demo_mem 300 ([112; 97; 116; 104] ++ [0]), 300) /\
  strncat demo_mem 300 200 2 = Ret (write_bytes demo_mem 301 [112; 97; 0], 303).
Proof.
  assert (Ha : cstr demo_mem 300 [97]) by (apply demo_cstr; (by vm_compute) || (cbn; lia)).
  assert (Hb : cstr demo_mem 200 [112; 97; 116; 104]) by (apply demo_cstr; (by vm_compute) || (cbn; lia)).
  assert (Hm : mapped demo_mem 300 6).
  { apply mapped_check. by vm_compute. }
  apply (strcpy_strncat_correct demo_mem 300 200 [97] [112; 97; 116; 104] 2 ltac:(lia) Ha Hb Hm).
  right. cbn [length]. lia.
Defined.

(** [strcmp] orders strings by length first and only then by bytes, and is 0
    exactly on equal strings. *)
Theorem strcmp_correct (m : gmap Z Z) p q s t : cstr m p s -> cstr m q t ->
  strcmp m p q = Ret (strcmp_spec s t) /\ (strcmp_spec s t = 0 <-> s = t).
Proof.
  intros Hs Ht. split; [by apply strcmp_cstr|apply strcmp_spec_0].
Qed.

Lemma strcmp_correct_witness :
  strcmp demo_mem 200 100 = Ret 1 /\ strcmp_spec [112; 97; 116; 104] [104; 105] = 1.
Proof.
  assert (Ha : cstr demo_mem 100 [104; 105]) by (apply demo_cstr; (by vm_compute) || (cbn; lia)).
  assert (Hb : cstr demo_mem 200 [112; 97; 116; 104]) by (apply demo_cstr; (by vm_compute) || (cbn; lia)).
  split; [apply (strcmp_correct _ _ _ _ _ Hb Ha)|done].
Defined.

(** [strstr] terminates and returns the first occurrence of the needle, or
    null when there is none; [strchr] returns the first occurrence of a
    character but never the terminator. *)
Theorem strstr_strchr_correct (m : gmap Z Z) p q s t c :
  cstr m p s -> cstr m q t -> is_byte c ->
  (exists r, strstr m p q = Ret r /\ first_occurrence s t p r) /\
  (exists r, strchr m p c = Ret r /\
    ((exists j, r = p + Z.of_nat j /\ s !! j = Some c /\ forall j', (j' < j)%nat -> s !! j' <> Some c) \/
     (r = 0 /\ ~ c ∈ s))).
Proof.
  intros Hs Ht Hc. split; [by apply strstr_cstr|].
  unfold strchr. rewrite (strlen_cstr m p s), bind_Ret, Nat2Z.id by done.
  apply (strchr_loop_spec m p s c Hs Hc (length s) 0%nat); lia.
Qed.

Lemma strstr_strchr_correct_witness :
  (exists r, strstr demo_mem 200 100 = Ret r /\ first_occurrence [112; 97; 116; 104] [104; 105] 200 r) /\
  strchr demo_mem 200 104 = Ret 203 /\ strchr demo_mem 200 0 = Ret 0.
Proof.
  assert (Ha : cstr demo_mem 100 [104; 105]) by (apply demo_cstr; (by vm_compute) || (cbn; lia)).
  assert (Hb : cstr demo_mem 200 [112; 97; 116; 104]) by (apply demo_cstr; (by vm_compute) || (cbn; lia)).
  split; [|by vm_compute].
  apply (strstr_strchr_correct _ 200 100 _ _ 104 Hb Ha). by split.
Defined.
