(* ===== verification/KStdlib.v ===== *)
(** * Number conversion

    [kernel/kstdlib/stdlib.c]: integers to digits ([itoa] and its unsigned
    forms) and digits to integers ([strtoul], [strtol]), over the byte memory
    of [CString]. *)
From S2P Require Import Prelude CString.

Module Conv.

(** ** Definitions *)

Definition EINVAL : Z := 22.
Definition ERANGE : Z := 34.
Definition ULONG_MAX : Z := 2 ^ 32 - 1.

(** Negating the least [long long] overflows: it wraps to itself. *)
Definition llabs (n : Z) : Z := i64 (if n <? 0 then - n else n).
Definition labs (n : Z) : Z := i32 (llabs n).
Definition abs (n : Z) : Z := i32 (labs n).

Definition digit_char (tmp : Z) : Z := if tmp <? 10 then u8 (tmp + 48) else u8 (tmp + 55).

(** [while (n)]: the digits, least significant first, go to the local
    [char tmpbuff[21]]; a 22nd digit would be written outside it. *)
Definition TMPBUFF : nat := 21.
Fixpoint digits_loop (fuel : nat) (n base : Z) (tmpbuff : list Z) : outcome (list Z) :=
  match fuel with
  | O => Undef
  | S fuel =>
      if n =? 0 then Ret tmpbuff
      else if (TMPBUFF <=? length tmpbuff)%nat then Undef
      else digits_loop fuel (Z.quot n base) base (tmpbuff ++ [digit_char (Z.rem n base)])
  end.

(** [while (digits)]: store [tmpbuff] backwards, ending at [revstart]. *)
Fixpoint reverse_loop (digits : nat) (m : gmap Z Z) (str revstart : Z) (tmpbuff : list Z)
    : outcome (gmap Z Z) :=
  match digits with
  | O => Ret m
  | S d =>
      c ← deref (tmpbuff !! d);
      m ← store m (str + (revstart - Z.of_nat digits)) c;
      reverse_loop d m str revstart tmpbuff
  end.

(** The tail [ulltoa] and [lltoa] share: digits, reversal, terminator. *)
Definition emit_digits (m : gmap Z Z) (n str base revstart : Z) : outcome (gmap Z Z * Z) :=
  tmpbuff ← digits_loop (S (S TMPBUFF)) n base [];
  let digits := length tmpbuff in
  let revstart := revstart + Z.of_nat digits in
  m ← reverse_loop digits m str revstart tmpbuff;
  m ← store m (str + revstart) 0;
  Ret (m, str).

Definition emit_zero (m : gmap Z Z) (str : Z) : outcome (gmap Z Z * Z) :=
  m ← store m str 48;
  m ← store m (str + 1) 0;
  Ret (m, str).

Definition lltoa (m : gmap Z Z) (n str base : Z) : outcome (gmap Z Z * Z) :=
  if n =? 0 then emit_zero m str
  else if n <? 0 then
    m ← store m str 45;
    emit_digits m (llabs n) str base 1
  else emit_digits m n str base 0.
Definition ltoa (m : gmap Z Z) (n str base : Z) : outcome (gmap Z Z * Z) := lltoa m n str base.
Definition itoa (m : gmap Z Z) (n str base : Z) : outcome (gmap Z Z * Z) := ltoa m n str base.

Definition ulltoa (m : gmap Z Z) (n str base : Z) : outcome (gmap Z Z * Z) :=
  if n =? 0 then emit_zero m str else emit_digits m n str base 0.
Definition ultoa (m : gmap Z Z) (n str base : Z) : outcome (gmap Z Z * Z) := ulltoa m n str base.
Definition utoa (m : gmap Z Z) (n str base : Z) : outcome (gmap Z Z * Z) := ultoa m n str base.

Definition isbasedigit (c base : Z) : bool :=
  if (2 <=? base) && (base <=? 10) then (48 <=? c) && (c <=? 48 + base - 1)
  else if (11 <=? base) && (base <=? 32) then
    ((48 <=? c) && (c <=? 57)) || ((65 <=? c) && (c <=? 65 + base - 11)) ||
    ((97 <=? c) && (c <=? 97 + base - 11))
  else false.

(** The value of an accepted digit [c]. *)
Definition digit_val (c : Z) : Z :=
  if c <=? 57 then c - 48
  else if (97 <=? c) && (c <=? 118) then c - 97 + 10
  else c - 65 + 10.

(** [char] is signed. *)
Definition load_char (m : gmap Z Z) (str : Z) : outcome Z := b ← load m str; Ret (i8 b).

Fixpoint skip_space (fuel : nat) (m : gmap Z Z) (str : Z) : outcome Z :=
  match fuel with
  | O => Undef
  | S fuel => c ← load_char m str; if isspace c then skip_space fuel m (str + 1) else Ret str
  end.

(** How the digit loop ends: at [str] with a value, or by overflowing. *)
Inductive digits_end := Parsed (str out : Z) | Overflowed (str : Z).

Fixpoint strtoul_loop (fuel : nat) (m : gmap Z Z) (str base out : Z) : outcome digits_end :=
  match fuel with
  | O => Undef
  | S fuel =>
      c ← load_char m str;
      if c =? 0 then Ret (Parsed str out)
      else if negb (isbasedigit c base) then Ret (Parsed str out)
      else
        let tmp := u32 (out * base + digit_val c) in
        if tmp <? out then Ret (Overflowed str)
        else strtoul_loop fuel m (str + 1) base tmp
  end.

(** The return code, what [*endptr] is left as (when [endptr] is given) and
    what [*dst] is left as; [None] is "not written". *)
Record strto_res := StrtoRes { rc : Z; endptr : option Z; dst : option Z }.

(** What both parsers do before the first digit: skip blanks and the sign. *)
Definition strto_sign (m : gmap Z Z) (str : Z) : outcome (bool * Z) :=
  str ← skip_space (mem_fuel m) m str;
  c ← load_char m str;
  Ret (if c =? 45 then (true, str + 1) else (false, str)).

Definition strtoul (m : gmap Z Z) (str base : Z) : outcome strto_res :=
  if ((base <? 2) && negb (base =? 0)) || (base >? 36) then Ret (StrtoRes 0 None None)
  else if base =? 0 then Panic
  else
    let start := str in
    sg ← strto_sign m str;
    let neg : bool := sg.1 in let str : Z := sg.2 in
    c ← load_char m str;
    if negb (isbasedigit c base) then Ret (StrtoRes (- EINVAL) (Some start) None)
    else
      e ← strtoul_loop (mem_fuel m) m str base 0;
      Ret (match e with
           | Overflowed _ => StrtoRes (- ERANGE) (Some start) (Some ULONG_MAX)
           | Parsed str out => StrtoRes 0 (Some str) (Some (if neg then u32 (- out) else out))
           end).

(** A [long] that leaves its range has no meaning. *)
Definition long_ (z : Z) : outcome Z :=
  if (- 2 ^ 31 <=? z) && (z <? 2 ^ 31) then Ret z else Undef.

Fixpoint strtol_loop (fuel : nat) (m : gmap Z Z) (str base out : Z) : outcome digits_end :=
  match fuel with
  | O => Undef
  | S fuel =>
      c ← load_char m str;
      if c =? 0 then Ret (Parsed str out)
      else if negb (isbasedigit c base) then Ret (Parsed str out)
      else
        prod ← long_ (out * base);
        tmp ← long_ (prod + digit_val c);
        if tmp <? out then Ret (Overflowed str)
        else strtol_loop fuel m (str + 1) base tmp
  end.

Definition strtol (m : gmap Z Z) (str base : Z) : outcome strto_res :=
  if ((base <? 2) && negb (base =? 0)) || (base >? 36) then Ret (StrtoRes 0 None None)
  else if base =? 0 then Panic
  else
    let start := str in
    sg ← strto_sign m str;
    let neg : bool := sg.1 in let str : Z := sg.2 in
    c ← load_char m str;
    if negb (isbasedigit c base) then Ret (StrtoRes (- EINVAL) (Some start) None)
    else
      e ← strtol_loop (mem_fuel m) m str base 0;
      Ret (match e with
           | Overflowed _ =>
               StrtoRes (- ERANGE) (Some start) (Some (if neg then - 2 ^ 31 else 2 ^ 31 - 1))
           | Parsed str out => StrtoRes 0 (Some str) (Some (if neg then - out else out))
           end).

(** ** Digits and their value *)

(** The value of a digit list, least significant first. *)
Definition value_lsd (base : Z) (ds : list Z) : Z := foldr (fun d acc => d + base * acc) 0 ds.
(** The value of a digit list, most significant first, after [out]. *)
Definition value_msd (base out : Z) (ds : list Z) : Z := foldl (fun out d => out * base + d) out ds.

Lemma value_msd_rev base ds : value_msd base 0 (rev ds) = value_lsd base ds.
Proof.
  unfold value_msd, value_lsd.
  induction ds as [|d ds IH]; [done|]. cbn [rev foldr]. rewrite foldl_app, IH. cbn. lia.
Qed.

Lemma value_msd_ge base ds : 1 <= base -> Forall (fun d => 0 <= d) ds ->
  forall out, 0 <= out -> out <= value_msd base out ds.
Proof.
  intros Hb. induction 1 as [|d ds Hd _ IH]; intros out Ho; cbn; [done|].
  etransitivity; [|apply IH]; nia.
Qed.

Definition is_digit (base d : Z) : Prop := 0 <= d < base.

Lemma digits_loop_spec base : 2 <= base -> forall k fuel n buf,
  0 <= n < base ^ Z.of_nat k -> (k < fuel)%nat -> (length buf + k <= TMPBUFF)%nat ->
  exists ds, digits_loop fuel n base buf = Ret (buf ++ (digit_char <$> ds)) /\
    value_lsd base ds = n /\ Forall (is_digit base) ds /\ (length ds <= k)%nat /\
    (n <> 0 -> ds <> []).
Proof.
  intros Hb. induction k as [|k IH]; intros fuel n buf Hn Hf Hl;
    (destruct fuel as [|fuel]; [lia|]); cbn [digits_loop].
  - change (base ^ Z.of_nat 0) with 1 in Hn. assert (n = 0) as -> by lia.
    exists []. cbn. rewrite app_nil_r. repeat split; done.
  - destruct (n =? 0) eqn:E; reflect_bools.
    { exists []. cbn. rewrite app_nil_r. repeat split; try done. lia. }
    destruct (TMPBUFF <=? length buf)%nat eqn:E2; [apply Nat.leb_le in E2; lia|].
    rewrite Z.quot_div_nonneg, Z.rem_mod_nonneg by lia.
    pose proof (Z.mod_pos_bound n base ltac:(lia)). pose proof (Z.div_mod n base ltac:(lia)).
    destruct (IH fuel (n / base) (buf ++ [digit_char (n mod base)])) as (ds & Hd & Hv & Hall & Hlen & _).
    + split; [apply Z.div_pos; lia|]. apply Z.div_lt_upper_bound; [lia|].
      replace (Z.of_nat (S k)) with (Z.succ (Z.of_nat k)) in Hn by lia.
      rewrite Z.pow_succ_r in Hn by lia. lia.
    + lia.
    + rewrite length_app. cbn. lia.
    + exists (n mod base :: ds). rewrite Hd. cbn. rewrite <- app_assoc. cbn.
      unfold value_lsd in Hv. rewrite Hv.
      split; [done|]. split; [lia|]. split; [by constructor|]. split; [lia|done].
Qed.

Lemma digit_char_range base d : 2 <= base <= 32 -> is_digit base d ->
  let c := digit_char d in 48 <= c < 90 /\ i8 c = c /\ isbasedigit c base = true /\ digit_val c = d.
Proof.
  intros Hb [Hd0 Hd]. cbv zeta. unfold digit_char.
  assert (Hc : 48 <= (if d <? 10 then u8 (d + 48) else u8 (d + 55)) < 90 /\
               (if d <? 10 then u8 (d + 48) else u8 (d + 55)) = (if d <? 10 then d + 48 else d + 55)).
  { case_cond; rewrite u8_small by (unfold is_u8; lia); lia. }
  destruct Hc as [Hc ->].
  destruct (d <? 10) eqn:E; reflect_bools;
    (split; [lia|]; split; [unfold i8; rewrite Z.mod_small; lia|]; split;
     [unfold isbasedigit|unfold digit_val; repeat case_cond; lia]);
    repeat case_cond; try lia;
    match goal with |- ?b = true => destruct b eqn:?; [done|reflect_bools; lia] end.
Qed.

Lemma digit_char_byte d : is_byte (digit_char d).
Proof. unfold digit_char. case_cond; apply u8_range. Qed.

Lemma reverse_loop_spec (t : list Z) str revstart n : Forall is_byte t ->
  forall d m, (d <= length t)%nat -> mapped m str n -> Z.of_nat d <= revstart <= n ->
  reverse_loop d m str revstart t =
    Ret (write_bytes m (str + (revstart - Z.of_nat d)) (rev (take d t))).
Proof.
  intros Ht. induction d as [|d IH]; intros m Hd Hm Hr; cbn [reverse_loop]; [done|].
  destruct (lookup_lt_is_Some_2 t d ltac:(lia)) as [c Hc]. rewrite Hc. cbn [deref]. rewrite bind_Ret.
  rewrite (store_mapped m str n); [|done|lia|by eapply Forall_lookup_1 in Ht].
  rewrite bind_Ret, IH; [|lia|by apply (write_bytes_mapped m _ [c])|lia].
  rewrite (take_S_r _ _ _ Hc), rev_app_distr. cbn [rev app write_bytes].
  do 2 f_equal. lia.
Qed.

Lemma emit_digits_spec m n str base revstart k :
  2 <= base -> 0 <= n < base ^ Z.of_nat k -> (k <= TMPBUFF)%nat -> 0 <= revstart ->
  mapped m str (revstart + Z.of_nat k + 1) -> n <> 0 ->
  exists ds, emit_digits m n str base revstart =
    Ret (write_bytes m (str + revstart) ((digit_char <$> ds) ++ [0]), str) /\
    value_msd base 0 ds = n /\ Forall (is_digit base) ds /\ ds <> [] /\ (length ds <= k)%nat.
Proof.
  intros Hb Hn Hk Hr Hm Hn0.
  destruct (digits_loop_spec base Hb k (S (S TMPBUFF)) n []) as (ds & Hd & Hv & Hall & Hlen & Hne);
    [done|lia|cbn; lia|].
  exists (rev ds). unfold emit_digits. rewrite Hd, bind_Ret. cbn [app]. cbv zeta.
  rewrite length_fmap. rewrite (reverse_loop_spec _ _ _ (revstart + Z.of_nat k + 1));
    [|apply Forall_fmap, Forall_true; intros; apply digit_char_byte|by rewrite length_fmap|done|lia].
  rewrite bind_Ret. rewrite take_ge by (rewrite length_fmap; lia).
  rewrite (store_mapped _ str (revstart + Z.of_nat k + 1)); [|by apply write_bytes_mapped|lia|done].
  rewrite bind_Ret. split; [|split; [by rewrite value_msd_rev|]; split; [by apply Forall_rev|]].
  - rewrite fmap_rev, write_bytes_snoc, length_rev, length_fmap. do 3 f_equal; [lia|].
    f_equal. lia.
  - rewrite length_rev. split; [|done]. intros Hx. apply Hne; [done|].
    by rewrite <- (rev_involutive ds), Hx.
Qed.

Lemma ulltoa_spec m n str base k :
  2 <= base -> 0 <= n < base ^ Z.of_nat k -> (0 < k <= TMPBUFF)%nat ->
  mapped m str (Z.of_nat k + 1) ->
  exists ds, ulltoa m n str base = Ret (write_bytes m str ((digit_char <$> ds) ++ [0]), str) /\
    value_msd base 0 ds = n /\ Forall (is_digit base) ds /\ ds <> [] /\ (length ds <= k)%nat.
Proof.
  intros Hb Hn Hk Hm. unfold ulltoa, emit_zero. case_cond.
  - exists [0]. rewrite (store_mapped m str (Z.of_nat k + 1)), bind_Ret by (done || lia).
    rewrite (store_mapped _ str (Z.of_nat k + 1));
      [|by apply (write_bytes_mapped m _ [48])|lia|done].
    rewrite bind_Ret. repeat split; [cbn; lia|by repeat constructor; lia|done|cbn; lia].
  - destruct (emit_digits_spec m n str base 0 k) as (ds & He & Hrest); try done || lia.
    exists ds. by rewrite Z.add_0_r in He.
Qed.

Lemma load_char_digit m p base d : 2 <= base <= 32 -> is_digit base d ->
  m !! p = Some (digit_char d) -> load_char m p = Ret (digit_char d).
Proof.
  intros Hb Hd Hm. unfold load_char, load. rewrite Hm. cbn [deref]. rewrite bind_Ret.
  by destruct (digit_char_range base d Hb Hd) as (_ & -> & _).
Qed.

Lemma load_char_0 m p : m !! p = Some 0 -> load_char m p = Ret 0.
Proof. intros Hm. unfold load_char, load. by rewrite Hm. Qed.

(** The value the loop accumulates, wrapped at every step, and whether the
    overflow test lets every step pass. *)
Definition wrapped_msd (base out : Z) (ds : list Z) : Z := foldl (fun out d => u32 (out * base + d)) out ds.
Fixpoint never_drops (base out : Z) (ds : list Z) : bool :=
  match ds with
  | [] => true
  | d :: ds => (out <=? u32 (out * base + d)) && never_drops base (u32 (out * base + d)) ds
  end.

Lemma strtoul_loop_spec m base : 2 <= base <= 32 -> forall ds fuel p out,
  bytes_at m p ((digit_char <$> ds) ++ [0]) -> Forall (is_digit base) ds ->
  (length ds < fuel)%nat -> never_drops base out ds = true ->
  strtoul_loop fuel m p base out = Ret (Parsed (p + Z.of_nat (length ds)) (wrapped_msd base out ds)).
Proof.
  intros Hb. induction ds as [|d ds IH]; intros fuel p out Hm Hall Hf Hv;
    (destruct fuel as [|fuel]; [lia|]); cbn [strtoul_loop].
  - rewrite load_char_0 by (specialize (Hm 0%nat 0 eq_refl); by rewrite Z.add_0_r in Hm).
    cbn. by rewrite Z.add_0_r.
  - apply Forall_cons in Hall as [Hd Hall].
    rewrite (load_char_digit _ _ base d) by
      (done || (specialize (Hm 0%nat _ eq_refl); by rewrite Z.add_0_r in Hm)).
    destruct (digit_char_range base d Hb Hd) as (Hr & _ & Hbd & Hval).
    rewrite bind_Ret. zneq. rewrite Hbd, Hval. cbn [negb never_drops] in *. reflect_bools.
    cbv zeta. rewrite (proj2 (Z.ltb_ge _ _)) by lia.
    rewrite IH; [|by apply (bytes_at_app m p [digit_char d])|done|cbn in Hf; lia|done].
    cbn [length wrapped_msd foldl]. do 2 f_equal. lia.
Qed.

Lemma wrapped_exact base : 1 <= base -> forall ds out, Forall (fun d => 0 <= d) ds -> 0 <= out ->
  value_msd base out ds < 2 ^ 32 ->
  never_drops base out ds = true /\ wrapped_msd base out ds = value_msd base out ds.
Proof.
  intros Hb. induction ds as [|d ds IH]; intros out Hall Ho Hv; [done|].
  apply Forall_cons in Hall as [Hd Hall]. cbn [value_msd foldl] in Hv.
  assert (0 <= out * base + d) by nia.
  pose proof (value_msd_ge base ds Hb Hall (out * base + d) ltac:(lia)). unfold value_msd in *.
  assert (Hw : u32 (out * base + d) = out * base + d) by (apply u32_small; unfold is_u32; lia).
  destruct (IH (out * base + d)) as [H1 H2]; try done.
  cbn [never_drops wrapped_msd foldl]. rewrite Hw. split; [|exact H2].
  rewrite H1, andb_true_r. apply Z.leb_le. nia.
Qed.

(** A digit ends the blanks and is not a sign. *)
Lemma strto_sign_digit m p base d : 2 <= base <= 32 -> is_digit base d ->
  m !! p = Some (digit_char d) -> strto_sign m p = Ret (false, p).
Proof.
  intros Hb Hd Hm. unfold strto_sign, mem_fuel. cbn [skip_space].
  destruct (digit_char_range base d Hb Hd) as (Hr & _).
  rewrite (load_char_digit m p base d), bind_Ret by done.
  assert (isspace (digit_char d) = false) as ->.
  { unfold isspace. repeat (apply orb_false_intro); apply Z.eqb_neq; lia. }
  rewrite bind_Ret, (load_char_digit m p base d), bind_Ret by done.
  by rewrite (proj2 (Z.eqb_neq _ 45)) by lia.
Qed.

Lemma strtoul_digits m p base d ds : 2 <= base <= 32 ->
  bytes_at m p ((digit_char <$> d :: ds) ++ [0]) -> Forall (is_digit base) (d :: ds) ->
  never_drops base 0 (d :: ds) = true ->
  strtoul m p base = Ret (StrtoRes 0 (Some (p + Z.of_nat (length (d :: ds))))
                            (Some (wrapped_msd base 0 (d :: ds)))).
Proof.
  intros Hb Hm Hall Hv. unfold strtoul. rewrite Z.gtb_ltb.
  rewrite (proj2 (Z.ltb_ge base 2)), (proj2 (Z.ltb_ge 36 base)), (proj2 (Z.eqb_neq base 0)) by lia.
  cbn [negb andb orb]. pose proof (proj1 (Forall_cons _ _ _) Hall) as [Hd _].
  assert (Hp : m !! p = Some (digit_char d)) by (specialize (Hm 0%nat _ eq_refl); by rewrite Z.add_0_r in Hm).
  cbv zeta. rewrite (strto_sign_digit m p base d), bind_Ret by done. cbn [fst snd].
  rewrite (load_char_digit m p base d), bind_Ret by done.
  destruct (digit_char_range base d Hb Hd) as (_ & _ & -> & _). cbn [negb].
  rewrite (strtoul_loop_spec m base Hb (d :: ds)); try done.
  apply bytes_at_mapped, mapped_size in Hm. rewrite length_app, length_fmap, Nat2Z.id in Hm.
  unfold mem_fuel. cbn in *. lia.
Qed.

(** Skipping blanks stops inside the string or at its terminator. *)
Lemma skip_space_cstr m p s : cstr m p s -> forall fuel i,
  (i <= length s)%nat -> (length s - i < fuel)%nat ->
  exists j, (i <= j <= length s)%nat /\ skip_space fuel m (p + Z.of_nat i) = Ret (p + Z.of_nat j) /\
    (forall b, s !! j = Some b -> isspace (i8 b) = false).
Proof.
  intros Hc. induction fuel as [|fuel IH]; intros i Hi Hf; [lia|]. cbn [skip_space]. unfold load_char.
  destruct (decide (i = length s)) as [->|].
  - rewrite (cstr_load_end m p s Hc), !bind_Ret. exists (length s). split; [lia|]. split; [done|].
    intros b Hb. apply lookup_lt_Some in Hb. lia.
  - destruct (cstr_load m p s (Z.of_nat i) Hc ltac:(lia)) as (b & Hb & -> & _).
    rewrite Nat2Z.id in Hb. rewrite !bind_Ret. case_cond.
    + replace (p + Z.of_nat i + 1) with (p + Z.of_nat (S i)) by lia.
      destruct (IH (S i) ltac:(lia) ltac:(lia)) as (j & Hj & H). exists j. split; [lia|done].
    + exists i. split; [lia|]. split; [done|]. congruence.
Qed.

Lemma strto_sign_cstr m p s : cstr m p s ->
  exists neg q b, strto_sign m p = Ret (neg, q) /\ load_char m q = Ret b.
Proof.
  intros Hc. unfold strto_sign.
  destruct (skip_space_cstr m p s Hc (mem_fuel m) 0%nat) as (j & Hj & Hs & _);
    [lia|pose proof (cstr_fuel m p s Hc); lia|].
  rewrite Z.add_0_r in Hs. rewrite Hs, bind_Ret.
  assert (Hl : forall k, (k <= length s)%nat -> exists b, load_char m (p + Z.of_nat k) = Ret b).
  { intros k Hk. unfold load_char. destruct (decide (k = length s)) as [->|].
    - by rewrite (cstr_load_end m p s Hc), bind_Ret; eexists.
    - destruct (cstr_load m p s (Z.of_nat k) Hc ltac:(lia)) as (b & _ & -> & _). by eexists. }
  destruct (Hl j ltac:(lia)) as [c Hcj]. rewrite Hcj, bind_Ret. case_cond; [|by do 3 eexists].
  assert (j <> length s).
  { intros ->. unfold load_char in Hcj. rewrite (cstr_load_end m p s Hc) in Hcj.
    cbn in Hcj. by injection Hcj as <-. }
  destruct (Hl (S j) ltac:(lia)) as [c' Hc']. exists true, (p + Z.of_nat (S j)), c'.
  split; [by replace (p + Z.of_nat (S j)) with (p + Z.of_nat j + 1) by lia|done].
Qed.

(** ** Properties *)

(** a number printed by [ultoa] in a base from 2 to 32 and parsed back by
    [strtoul] in the same base is the same number, the end pointer is left at
    the terminator, and the printing stays inside the buffer: any [k] bytes
    that can hold its digits, plus one.  The digit scratch space of 21 bytes is
    the only bound ([k <= 21]). *)
Theorem ultoa_strtoul_roundtrip m n p base k :
  2 <= base <= 32 -> 0 <= n < 2 ^ 32 -> n < base ^ Z.of_nat k -> (0 < k <= TMPBUFF)%nat ->
  mapped m p (Z.of_nat k + 1) ->
  exists ds, (0 < length ds <= k)%nat /\
    ultoa m n p base = Ret (write_bytes m p (ds ++ [0]), p) /\
    strtoul (write_bytes m p (ds ++ [0])) p base =
      Ret (StrtoRes 0 (Some (p + Z.of_nat (length ds))) (Some n)).
Proof.
  intros Hb Hn Hnk Hk Hm.
  destruct (ulltoa_spec m n p base k) as ([|d ds] & Hu & Hv & Hall & Hne & Hlen); try done || lia.
  exists (digit_char <$> d :: ds). rewrite length_fmap. split; [cbn in *; lia|]. split; [exact Hu|].
  destruct (wrapped_exact base ltac:(lia) (d :: ds) 0) as [Hnd Hw]; [|lia|lia|].
  { eapply Forall_impl; [exact Hall|]. unfold is_digit. lia. }
  rewrite (strtoul_digits _ p base d ds); [by rewrite Hw, Hv|done|apply write_bytes_at|done|done].
Qed.

Lemma ultoa_strtoul_roundtrip_witness :
  (exists ds, (0 < length ds <= 10)%nat /\
    ultoa demo_mem 123456 300 10 = Ret (write_bytes demo_mem 300 (ds ++ [0]), 300) /\
    strtoul (write_bytes demo_mem 300 (ds ++ [0])) 300 10 =
      Ret (StrtoRes 0 (Some (300 + Z.of_nat (length ds))) (Some 123456))).
Proof.
  apply (ultoa_strtoul_roundtrip demo_mem 123456 300 10 10);
    [lia|lia|by vm_compute|unfold TMPBUFF; lia|].
  apply mapped_check. by vm_compute.
Defined.

(** [strtoul] rejects what it does not support in the ways the code has
    them: a base outside 2..36 returns 0 and leaves the result unwritten
    (base 0 stops the kernel instead), and a base from 33 to 36 passes that
    test but has no digits, so every text is refused with [-EINVAL]. *)
Theorem strtoul_bad_base m p s base : cstr m p s ->
  (base < 0 \/ base = 1 \/ 36 < base -> strtoul m p base = Ret (StrtoRes 0 None None)) /\
  (base = 0 -> strtoul m p base = Panic) /\
  (33 <= base <= 36 -> strtoul m p base = Ret (StrtoRes (- EINVAL) (Some p) None)).
Proof.
  intros Hc. unfold strtoul. rewrite Z.gtb_ltb. split; [|split].
  - intros Hb. cond_true. done.
  - intros ->. done.
  - intros Hb. rewrite (proj2 (Z.ltb_ge base 2)), (proj2 (Z.ltb_ge 36 base)), (proj2 (Z.eqb_neq base 0)) by lia.
    cbn [andb orb]. destruct (strto_sign_cstr m p s Hc) as (neg & q & b & -> & Hq).
    cbv zeta. rewrite bind_Ret. cbn [fst snd]. rewrite Hq, bind_Ret.
    assert (isbasedigit b base = false) as ->; [|done].
    unfold isbasedigit. repeat case_cond; lia || done.
Qed.

Lemma strtoul_bad_base_witness :
  strtoul demo_mem 200 1 = Ret (StrtoRes 0 None None) /\
  strtoul demo_mem 200 35 = Ret (StrtoRes (- EINVAL) (Some 200) None).
Proof.
  assert (Hb : cstr demo_mem 200 [112; 97; 116; 104]) by (apply demo_cstr; (by vm_compute) || (cbn; lia)).
  split; apply (strtoul_bad_base demo_mem 200 [112; 97; 116; 104]); try exact Hb; lia.
Defined.

(** the overflow test of [strtoul] compares the wrapped product with the
    previous value, so an overflow that wraps to something larger is missed:
    the nine digits [1FFFFFFFF], which denote [2^33 - 1], are parsed without
    an error as [2^32 - 1]. *)
Theorem strtoul_overflow_missed m p :
  let ds := 1 :: replicate 8 15 in
  bytes_at m p ((digit_char <$> ds) ++ [0]) ->
  value_msd 16 0 ds = 2 ^ 33 - 1 /\
  strtoul m p 16 = Ret (StrtoRes 0 (Some (p + 9)) (Some ULONG_MAX)).
Proof.
  intros ds Hb. split; [done|]. apply (strtoul_digits m p 16 1 (replicate 8 15)); [lia|exact Hb| |done].
  repeat constructor; unfold is_digit; lia.
Qed.

Lemma strtoul_overflow_missed_witness :
  strtoul (write_bytes ∅ 64 [49; 70; 70; 70; 70; 70; 70; 70; 70; 0]) 64 16 =
    Ret (StrtoRes 0 (Some (64 + 9)) (Some ULONG_MAX)).
Proof. apply (strtoul_overflow_missed _ 64), (write_bytes_at ∅ 64 [49; 70; 70; 70; 70; 70; 70; 70; 70; 0]). Defined.

End Conv.
