(* ===== verification/Printf.v ===== *)
(** * Formatted printing

    [kernel/kstdlib/stdio.c] over the byte memory of [CString]: [vsnprintf]
    with its directives, and the [long double] arithmetic of [%f] (and [modfl]
    of [kernel/kstdlib/math.c]) in the extended format of the x87. *)
From S2P Require Import Prelude CString KStdlib.
From Stdlib Require Import SpecFloat.

(** ** Data *)
Inductive PrintfLengthSpecifier :=
| PRINTF_LEN_NONE | PRINTF_LEN_hh | PRINTF_LEN_h | PRINTF_LEN_l | PRINTF_LEN_ll | PRINTF_LEN_j
| PRINTF_LEN_z | PRINTF_LEN_t | PRINTF_LEN_L.
#[export] Instance PrintfLengthSpecifier_eq_dec : EqDecision PrintfLengthSpecifier.
Proof. solve_decision. Defined.
Inductive PrintfParseStatus := PRINTF_PARSE_CONTINUE | PRINTF_PARSE_INVALID | PRINTF_PARSE_DONE.

Definition PRINTF_FLAG_LEFT_JUSTIFY : Z := 0x1.
Definition PRINTF_FLAG_FORCE_SIGN : Z := 0x2.
Definition PRINTF_FLAG_WHITESPACE : Z := 0x4.
Definition PRINTF_FLAG_HASHTAG : Z := 0x8.
Definition PRITNF_FLAG_PAD_ZERO : Z := 0x10.

Definition printf_parse_flags (c flags : Z) : Z * PrintfParseStatus :=
  if c =? 45 then (Z.lor flags PRINTF_FLAG_LEFT_JUSTIFY, PRINTF_PARSE_CONTINUE)
  else if c =? 43 then (Z.lor flags PRINTF_FLAG_FORCE_SIGN, PRINTF_PARSE_CONTINUE)
  else if c =? 32 then (Z.lor flags PRINTF_FLAG_WHITESPACE, PRINTF_PARSE_CONTINUE)
  else if c =? 35 then (Z.lor flags PRINTF_FLAG_HASHTAG, PRINTF_PARSE_CONTINUE)
  else if c =? 48 then (Z.lor flags PRITNF_FLAG_PAD_ZERO, PRINTF_PARSE_CONTINUE)
  else (flags, PRINTF_PARSE_DONE).

Definition printf_parse_length (c : Z) (length : PrintfLengthSpecifier) : PrintfLengthSpecifier * PrintfParseStatus :=
  let only l := if decide (length = PRINTF_LEN_NONE) then (l, PRINTF_PARSE_CONTINUE) else (length, PRINTF_PARSE_INVALID) in
  if c =? 108 then
    if decide (length = PRINTF_LEN_l) then (PRINTF_LEN_ll, PRINTF_PARSE_CONTINUE) else only PRINTF_LEN_l
  else if c =? 104 then
    if decide (length = PRINTF_LEN_h) then (PRINTF_LEN_hh, PRINTF_PARSE_CONTINUE) else only PRINTF_LEN_h
  else if c =? 106 then only PRINTF_LEN_j
  else if c =? 122 then only PRINTF_LEN_z
  else if c =? 116 then only PRINTF_LEN_t
  else if c =? 76 then only PRINTF_LEN_L
  else (length, PRINTF_PARSE_DONE).

(** ** Padding *)
Section padding.
Implicit Types (m : gmap Z Z).

(** [for (k = ...; k > 0; --k) buf[k] = buf[k - 1]]. *)
Fixpoint shift_right (k : nat) m (buf : Z) : outcome (gmap Z Z) :=
  match k with
  | O => Ret m
  | S k' => c ← load m (buf + Z.of_nat k'); m ← store m (buf + Z.of_nat k) c; shift_right k' m buf
  end.
(** [k] paddings left from the [i]th on. *)
Fixpoint pad_loop (k : nat) (i buflen c : Z) m (buf : Z) : outcome (gmap Z Z) :=
  match k with
  | O => Ret m
  | S k => m ← shift_right (Z.to_nat (buflen + i)) m buf; m ← store m (buf + i) c; pad_loop k (i + 1) buflen c m buf
  end.
Definition printf_apply_flags_and_width m (buf bufmax flags width : Z) : outcome (gmap Z Z * Z) :=
  let width := if width >? bufmax then bufmax else width in
  buflen ← strlen m buf;
  m ← (if width >? buflen then
         pad_loop (Z.to_nat (width - buflen)) 0 buflen (if Z.land flags PRITNF_FLAG_PAD_ZERO =? 0 then 32 else 48) m buf
       else Ret m);
  n ← strlen m buf; Ret (m, n).
End padding.

(** ** Arguments

    What [va_arg] takes from the stack, in 32-bit words. *)
Definition va_word (args : list Z) : outcome (Z * list Z) :=
  match args with w :: args => Ret (u32 w, args) | [] => Undef end.
Definition va_int (args : list Z) : outcome (Z * list Z) := '(w, args) ← va_word args; Ret (i32 w, args).
Definition va_ullong (args : list Z) : outcome (Z * list Z) :=
  '(lo, args) ← va_word args; '(hi, args) ← va_word args; Ret (lo + 2 ^ 32 * hi, args).
Definition va_llong (args : list Z) : outcome (Z * list Z) := '(w, args) ← va_ullong args; Ret (i64 w, args).

(** ** [long double]: 64 bits of precision *)
Definition ld_of (z e : Z) : spec_float := binary_normalize 64 16384 z e false.
Definition ld_mul (x y : spec_float) : spec_float := SFmul 64 16384 x y.
Definition ld_sub (x y : spec_float) : spec_float := SFsub 64 16384 x y.
(** A [double] from its 64 bits. *)
Definition ld_of_double (w : Z) : spec_float :=
  let neg := 2 ^ 63 <=? w in
  let e := (w / 2 ^ 52) mod 2 ^ 11 in
  let f := w mod 2 ^ 52 in
  if e =? 2047 then (if f =? 0 then S754_infinity neg else S754_nan)
  else if (e =? 0) && (f =? 0) then S754_zero neg
  else let a := if e =? 0 then f else f + 2 ^ 52 in
       ld_of (if neg then - a else a) (Z.max e 1 - 1075).
Definition va_double (args : list Z) : outcome (spec_float * list Z) := '(w, args) ← va_ullong args; Ret (ld_of_double w, args).
(** The 80 bits of a [long double], in three words. *)
Definition va_ldouble (args : list Z) : outcome (spec_float * list Z) :=
  '(f, args) ← va_ullong args; '(w, args) ← va_word args;
  let neg := 2 ^ 15 <=? w mod 2 ^ 16 in
  let e := w mod 2 ^ 15 in
  Ret (if e =? 32767 then (if f mod 2 ^ 63 =? 0 then S754_infinity neg else S754_nan)
       else if f =? 0 then S754_zero neg else ld_of (if neg then - f else f) (Z.max e 1 - 16446), args).
(** [(long long)x]: towards zero; out of range it has no meaning. *)
Definition ld_trunc (x : spec_float) : outcome Z :=
  match x with
  | S754_zero _ => Ret 0
  | S754_finite s f e =>
      let a := if 0 <=? e then Z.pos f * 2 ^ e else Z.pos f / 2 ^ (- e) in
      let z := if s then - a else a in
      if (- 2 ^ 63 <=? z) && (z <? 2 ^ 63) then Ret z else Undef
  | _ => Undef
  end.
(** [modfl] of [math.c]: the fraction and the whole part. *)
Definition modfl (x : spec_float) : outcome (spec_float * spec_float) :=
  z ← ld_trunc x; let whole := ld_of z 0 in Ret (ld_sub x whole, whole).

(** ** The directives *)
Definition TMPBUF : nat := 50.
Definition LDBL_DIG : Z := 18.
Definition LDBL_DECIMAL_DIG : Z := 21.
(** A signed 64-bit value that leaves its range has no meaning. *)
Definition llong_ (z : Z) : outcome Z := if (- 2 ^ 63 <=? z) && (z <? 2 ^ 63) then Ret z else Undef.

Section directives.
Implicit Types (m : gmap Z Z).
(** Where the call keeps its [char tmpbuf[50]]. *)
Context (tmpbuf : Z).

Fixpoint flags_loop (fuel : nat) m (fmt flags : Z) : outcome (Z * Z) :=
  match fuel with
  | O => Undef
  | S fuel =>
      c ← load m fmt;
      match printf_parse_flags c flags with
      | (flags, PRINTF_PARSE_CONTINUE) => flags_loop fuel m (fmt + 1) flags
      | (flags, _) => Ret (fmt, flags)
      end
  end.
(** [width] is a [u16]. *)
Fixpoint width_loop (fuel : nat) m (fmt width : Z) : outcome (Z * Z) :=
  match fuel with
  | O => Undef
  | S fuel =>
      c ← load m fmt;
      if isdigit c then width_loop fuel m (fmt + 1) (u16 (width * 10 + (c - 48))) else Ret (fmt, width)
  end.
Fixpoint precision_loop (fuel : nat) m (fmt precision : Z) : outcome (Z * Z) :=
  match fuel with
  | O => Undef
  | S fuel =>
      c ← load m fmt;
      if isdigit c then
        p ← llong_ (precision * 10); p ← llong_ (p + (c - 48)); precision_loop fuel m (fmt + 1) p
      else Ret (fmt, precision)
  end.
(** [reprocess_length]; the flag is false when the modifier is invalid. *)
Fixpoint length_loop (fuel : nat) m (fmt : Z) (length : PrintfLengthSpecifier) : outcome (Z * PrintfLengthSpecifier * bool) :=
  match fuel with
  | O => Undef
  | S fuel =>
      c ← load m fmt;
      match printf_parse_length c length with
      | (length, PRINTF_PARSE_CONTINUE) => length_loop fuel m (fmt + 1) length
      | (length, PRINTF_PARSE_INVALID) => Ret (fmt, length, false)
      | (length, PRINTF_PARSE_DONE) => Ret (fmt, length, true)
      end
  end.

(** [fmt] behind the width and the width; behind the precision and the
    precision, with the arguments left. *)
Definition parse_width m (fmt : Z) (args : list Z) : outcome (Z * Z * list Z) :=
  c ← load m fmt;
  if c =? 42 then '(w, args) ← va_int args; Ret (fmt + 1, u16 w, args)
  else '(fmt, w) ← width_loop (mem_fuel m) m fmt 0; Ret (fmt, w, args).
Definition parse_precision m (fmt : Z) (args : list Z) : outcome (Z * Z * list Z) :=
  c ← load m fmt;
  if c =? 46 then
    let fmt := fmt + 1 in
    c ← load m fmt;
    if c =? 42 then '(p, args) ← va_word args; Ret (fmt, p, args)
    else '(fmt, p) ← precision_loop (mem_fuel m) m fmt 0; Ret (fmt, p, args)
  else Ret (fmt, -1, args).

(** The digits of [%f] behind the point, [k] of them. *)
Fixpoint frac_loop (k : nat) m (idx : Z) (frac : spec_float) : outcome (gmap Z Z) :=
  match k with
  | O => Ret m
  | S k =>
      let frac := ld_mul frac (ld_of 10 0) in
      d ← ld_trunc frac;
      '(m, _) ← Conv.lltoa m d (tmpbuf + idx) 10;
      frac_loop k m (idx + 1) (ld_sub frac (ld_of d 0))
  end.
Definition print_float m (val : spec_float) (precision : Z) : outcome (gmap Z Z) :=
  '(frac, whole) ← modfl val;
  z ← ld_trunc whole;
  '(m, _) ← Conv.lltoa m z tmpbuf 10;
  let digits := if precision =? -1 then 6 else u32 precision in
  if digits >? 0 then
    let digits := Z.min digits LDBL_DECIMAL_DIG in
    let frac := if SFltb frac (ld_of 0 0) then ld_mul frac (ld_of (-1) 0) else frac in
    n ← strlen m tmpbuf; (* strcat(tmpbuf, ".") *)
    m ← store m (tmpbuf + n) 46; m ← store m (tmpbuf + n + 1) 0;
    idx ← strlen m tmpbuf;
    frac_loop (Z.to_nat digits) m idx frac
  else Ret m.

(** What a number prints as, in [tmpbuf]. *)
Definition print_signed m (len : PrintfLengthSpecifier) (args : list Z) : outcome (gmap Z Z * list Z) :=
  match len with
  | PRINTF_LEN_l => '(v, args) ← va_int args; '(m, _) ← Conv.ltoa m v tmpbuf 10; Ret (m, args)
  | PRINTF_LEN_ll => '(v, args) ← va_llong args; '(m, _) ← Conv.lltoa m v tmpbuf 10; Ret (m, args)
  | _ => '(v, args) ← va_int args; '(m, _) ← Conv.itoa m v tmpbuf 10; Ret (m, args)
  end.
Definition print_hex m (len : PrintfLengthSpecifier) (args : list Z) : outcome (gmap Z Z * list Z) :=
  match len with
  | PRINTF_LEN_l => '(v, args) ← va_word args; '(m, _) ← Conv.ultoa m v tmpbuf 16; Ret (m, args)
  | PRINTF_LEN_ll => '(v, args) ← va_ullong args; '(m, _) ← Conv.ulltoa m v tmpbuf 16; Ret (m, args)
  | _ => '(v, args) ← va_word args; '(m, _) ← Conv.utoa m v tmpbuf 16; Ret (m, args)
  end.
Definition print_unsigned m (len : PrintfLengthSpecifier) (args : list Z) : outcome (gmap Z Z * list Z) :=
  match len with
  | PRINTF_LEN_l => '(v, args) ← va_word args; '(m, _) ← Conv.ultoa m v tmpbuf 10; Ret (m, args)
  | PRINTF_LEN_ll => '(v, args) ← va_ullong args; '(m, _) ← Conv.ulltoa m v tmpbuf 10; Ret (m, args)
  | PRINTF_LEN_j | PRINTF_LEN_t | PRINTF_LEN_L => Ret (m, args)
  | _ => '(v, args) ← va_word args; '(m, _) ← Conv.utoa m v tmpbuf 10; Ret (m, args)
  end.

(** The specifier [c]: memory, what is printed and how much of it, and the
    arguments left. *)
Definition printf_convert m (c : Z) (len : PrintfLengthSpecifier) (flags width precision : Z) (args : list Z)
    : outcome (gmap Z Z * Z * Z * list Z) :=
  if (c =? 105) || (c =? 100) then
    '(m, args) ← print_signed m len args;
    '(m, n) ← printf_apply_flags_and_width m tmpbuf 21 flags width; Ret (m, tmpbuf, n, args)
  else if (c =? 120) || (c =? 88) then
    '(m, args) ← print_hex m len args;
    '(m, n) ← printf_apply_flags_and_width m tmpbuf 21 flags width; Ret (m, tmpbuf, n, args)
  else if c =? 112 then
    '(v, args) ← va_word args; '(m, _) ← Conv.ultoa m v tmpbuf 16;
    '(m, n) ← printf_apply_flags_and_width m tmpbuf 21 PRITNF_FLAG_PAD_ZERO 8; Ret (m, tmpbuf, n, args)
  else if c =? 117 then
    '(m, args) ← print_unsigned m len args;
    '(m, n) ← printf_apply_flags_and_width m tmpbuf 21 flags width; Ret (m, tmpbuf, n, args)
  else if (c =? 70) || (c =? 102) then
    '(val, args) ← (if decide (len = PRINTF_LEN_L) then va_ldouble args else va_double args);
    m ← print_float m val precision;
    '(m, n) ← printf_apply_flags_and_width m tmpbuf (LDBL_DIG + LDBL_DECIMAL_DIG + 3) flags width; Ret (m, tmpbuf, n, args)
  else if c =? 115 then
    '(a, args) ← va_word args;
    n ← strlen m a;
    Ret (m, a, (if negb (precision =? -1) && (u32 precision <=? n) then u32 precision else n), args)
  else if c =? 99 then
    '(v, args) ← va_int args; m ← store m tmpbuf (u8 v); Ret (m, tmpbuf, 1, args)
  else Ret (m, tmpbuf, 0, args).

(** [fmt] walks the format; [None] for a modifier that makes the directive
    invalid. *)
Definition directive m (fmt : Z) (args : list Z)
    : outcome (Z * option (PrintfLengthSpecifier * Z * Z * Z) * list Z) :=
  '(fmt, flags) ← flags_loop (mem_fuel m) m fmt 0;
  '(fmt, width, args) ← parse_width m fmt args;
  '(fmt, precision, args) ← parse_precision m fmt args;
  '(fmt, len, valid) ← length_loop (mem_fuel m) m fmt PRINTF_LEN_NONE;
  Ret (fmt, (if valid : bool then Some (len, flags, width, precision) else None), args).

Fixpoint printf_loop (fuel : nat) m (dest n fmt written : Z) (args : list Z) : outcome (gmap Z Z * Z) :=
  match fuel with
  | O => Undef
  | S fuel =>
      c ← load m fmt;
      if c =? 0 then Ret (m, i32 written)
      else if written >=? u32 (n - 1) then Ret (m, i32 written)
      else if negb (c =? 37) then
        '(m, _) ← strncat m dest fmt 1;
        printf_loop fuel m dest n (fmt + 1) (u32 (written + 1)) args
      else
        '(fmt, d, args) ← directive m (fmt + 1) args;
        match d with
        | None => printf_loop fuel m dest n (fmt + 1) written args
        | Some (len, flags, width, precision) =>
            let m := write_bytes m tmpbuf (replicate TMPBUF 0) in
            c ← load m fmt;
            '(m, outbuf, outbuf_len, args) ← printf_convert m c len flags width precision args;
            if u32 (written + outbuf_len) >? u32 (n - 1) then
              '(m, _) ← strncat m dest outbuf (u32 (outbuf_len - u32 (outbuf_len - n + 1)));
              Ret (m, i32 (written + outbuf_len))
            else
              '(m, _) ← strncat m dest outbuf outbuf_len;
              printf_loop fuel m dest n (fmt + 1) (u32 (written + outbuf_len)) args
        end
  end.

Definition vsnprintf m (dest n fmt : Z) (args : list Z) : outcome (gmap Z Z * Z) :=
  m ← store m dest 0; printf_loop (mem_fuel m) m dest n fmt 0 args.
Definition vsprintf m (dest fmt : Z) (args : list Z) : outcome (gmap Z Z * Z) := vsnprintf m dest (2 ^ 31 - 1) fmt args.
Definition snprintf m (dest n fmt : Z) (args : list Z) : outcome (gmap Z Z * Z) := vsnprintf m dest n fmt args.
Definition sprintf m (dest fmt : Z) (args : list Z) : outcome (gmap Z Z * Z) := vsprintf m dest fmt args.
End directives.

(** Runs on concrete formats: what the buffer holds, and the result. *)
Definition printed (r : outcome (gmap Z Z * Z)) (dest : Z) (k : nat) : outcome (list (option Z) * Z) :=
  '(m, n) ← r; Ret ((fun i => m !! (dest + Z.of_nat i)) <$> seq 0 k, n).
Definition demo_printf (fmt : list Z) : gmap Z Z :=
  write_bytes (write_bytes (write_bytes (write_bytes ∅ 1000 (replicate 50 7)) 100 (fmt ++ [0])) 500 (replicate 40 9))
    300 [97; 98; 99; 100; 101; 0].

(** ** What a format means

    A format is read as literal characters and directives with their
    arguments. *)
Inductive printf_arg :=
| ASigned (v : Z) | AHex (v : Z) | AUnsigned (v : Z) | APtr (v : Z) | AStr (a : Z) (s : list Z) | AChar (c : Z).
Inductive item :=
| Lit (c : Z)
| Dir (fl : list Z) (w : Z) (prec : option Z) (len : PrintfLengthSpecifier) (c : Z) (x : printf_arg).

(** The digits of [n], least significant first; numbers as text. *)
Fixpoint lsd (k : nat) (n base : Z) : list Z :=
  match k with
  | O => []
  | S k => if n =? 0 then [] else n mod base :: lsd k (n / base) base
  end.
Definition magnitude (base n : Z) : list Z := Conv.digit_char <$> rev (lsd Conv.TMPBUFF n base).
Definition utext (base n : Z) : list Z := if n =? 0 then [48] else magnitude base n.
Definition stext (n : Z) : list Z := if n <? 0 then 45 :: magnitude 10 (- n) else utext 10 n.

(** The directive as written. *)
Definition wtext (w : Z) : list Z := if w =? 0 then [] else utext 10 w.
Definition ptext (p : option Z) : list Z := match p with None => [] | Some p => 46 :: utext 10 p end.
Definition ltext (len : PrintfLengthSpecifier) : list Z :=
  match len with
  | PRINTF_LEN_NONE => [] | PRINTF_LEN_hh => [104; 104] | PRINTF_LEN_h => [104] | PRINTF_LEN_l => [108]
  | PRINTF_LEN_ll => [108; 108] | PRINTF_LEN_j => [106] | PRINTF_LEN_z => [122] | PRINTF_LEN_t => [116] | PRINTF_LEN_L => [76]
  end.
Definition item_text (it : item) : list Z :=
  match it with
  | Lit c => [c]
  | Dir fl w prec len c _ => 37 :: fl ++ wtext w ++ ptext prec ++ ltext len ++ [c]
  end.

(** The words it takes. *)
Definition int_words (len : PrintfLengthSpecifier) (v : Z) : list Z :=
  if decide (len = PRINTF_LEN_ll) then [u32 v; u32 (v / 2 ^ 32)] else [u32 v].
Definition item_words (it : item) : list Z :=
  match it with
  | Lit _ => []
  | Dir _ _ _ len _ x =>
      match x with
      | ASigned v | AHex v | AUnsigned v => int_words len v
      | APtr v => [v] | AStr a _ => [a] | AChar c => [c]
      end
  end.

(** The text it stands for, and how much of it is printed. *)
Definition padded (zero : bool) (w : Z) (t : list Z) : list Z :=
  replicate (Z.to_nat (Z.min w 21 - Z.of_nat (length t))) (if zero then 48 else 32) ++ t.
Definition zero_pad (fl : list Z) : bool := bool_decide (48 ∈ fl).
Definition item_full (it : item) : list Z :=
  match it with
  | Lit c => [c]
  | Dir fl w _ _ _ x =>
      match x with
      | ASigned v => padded (zero_pad fl) w (stext v)
      | AHex v => padded (zero_pad fl) w (utext 16 v)
      | AUnsigned v => padded (zero_pad fl) w (utext 10 v)
      | APtr v => padded true 8 (utext 16 v)
      | AStr _ s => s
      | AChar c => [c]
      end
  end.
Definition item_out (it : item) : list Z :=
  match it with
  | Dir _ _ (Some p) _ _ (AStr _ s) => take (Z.to_nat p) s
  | _ => item_full it
  end.

(** What fits: [lim] characters and a terminator.  The piece that crosses the
    limit is cut to [lim] characters of its own, whatever is in front of it. *)
Fixpoint layout (lim written : Z) (its : list item) : list Z * Z :=
  match its with
  | [] => ([], written)
  | it :: its =>
      if written >=? lim then ([], written)
      else
        let o := item_out it in
        let total := written + Z.of_nat (length o) in
        if total >? lim then (take (Z.to_nat lim) (item_full it), total)
        else let r := layout lim total its in (o ++ r.1, r.2)
  end.

(** ** Numbers as text *)
Section text.
Import Conv.

Lemma digits_loop_lsd base : 2 <= base -> forall k fuel n buf,
  0 <= n < base ^ Z.of_nat k -> (k < fuel)%nat -> (length buf + k <= TMPBUFF)%nat ->
  digits_loop fuel n base buf = Ret (buf ++ (digit_char <$> lsd k n base)).
Proof.
  intros Hb. induction k as [|k IH]; intros fuel n buf Hn Hf Hl; (destruct fuel as [|fuel]; [lia|]); cbn [digits_loop lsd].
  - change (base ^ Z.of_nat 0) with 1 in Hn. assert (n = 0) as -> by lia. cbn. by rewrite app_nil_r.
  - destruct (n =? 0) eqn:E; reflect_bools; [cbn; by rewrite app_nil_r|].
    destruct (TMPBUFF <=? length buf)%nat eqn:E2; [apply Nat.leb_le in E2; lia|].
    rewrite Z.quot_div_nonneg, Z.rem_mod_nonneg by lia. rewrite IH.
    + cbn [fmap list_fmap]. by rewrite <- app_assoc.
    + split; [apply Z.div_pos; lia|]. apply Z.div_lt_upper_bound; [lia|].
      replace (Z.of_nat (S k)) with (Z.succ (Z.of_nat k)) in Hn by lia. rewrite Z.pow_succ_r in Hn by lia. lia.
    + lia.
    + rewrite length_app. cbn. lia.
Qed.

Lemma lsd_length k n base : (length (lsd k n base) <= k)%nat.
Proof. revert n. induction k as [|k IH]; intros n; cbn; [lia|]. case_match; cbn; [lia|]. specialize (IH (n / base)). lia. Qed.
Lemma magnitude_length base n : (length (magnitude base n) <= TMPBUFF)%nat.
Proof. unfold magnitude. rewrite length_fmap, length_rev. apply lsd_length. Qed.
Lemma utext_length base n : (length (utext base n) <= TMPBUFF)%nat.
Proof. unfold utext. case_match; [cbn; unfold TMPBUFF; lia|]. apply magnitude_length. Qed.
Lemma lsd_digits base : 2 <= base -> forall k n, 0 <= n -> Forall (is_digit base) (lsd k n base).
Proof.
  intros Hb. induction k as [|k IH]; intros n Hn; cbn; [done|]. case_match; [done|]. constructor.
  - apply Z.mod_pos_bound. lia.
  - apply IH. apply Z.div_pos; lia.
Qed.
Lemma magnitude_digits base n : 2 <= base <= 32 -> 0 <= n -> Forall (fun c => 48 <= c < 90) (magnitude base n).
Proof.
  intros Hb Hn. unfold magnitude. apply Forall_fmap, Forall_rev. eapply Forall_impl; [apply lsd_digits; lia|].
  intros d Hd. by apply (digit_char_range base d).
Qed.
Lemma utext_digits base n : 2 <= base <= 32 -> 0 <= n -> Forall (fun c => 48 <= c < 90) (utext base n).
Proof. intros. unfold utext. case_match; [repeat constructor; lia|by apply magnitude_digits]. Qed.

Lemma emit_text m n str base rs : 2 <= base -> 0 < n < base ^ Z.of_nat TMPBUFF -> 0 <= rs -> mapped m str (rs + 22) ->
  emit_digits m n str base rs = Ret (write_bytes m (str + rs) (magnitude base n ++ [0]), str).
Proof.
  intros Hb Hn Hr Hm. unfold emit_digits. rewrite (digits_loop_lsd base Hb TMPBUFF) by (done || lia || (cbn; lia)). rewrite bind_Ret.
  cbn [app]. cbv zeta. rewrite length_fmap. pose proof (lsd_length TMPBUFF n base) as Hl. change TMPBUFF with 21%nat in *.
  rewrite (reverse_loop_spec _ _ _ (rs + 22)); [|apply Forall_fmap, Forall_true; intros; apply digit_char_byte|by rewrite length_fmap|done|lia].
  rewrite bind_Ret. rewrite take_ge by (rewrite length_fmap; lia).
  rewrite (store_mapped _ str (rs + 22)); [|by apply write_bytes_mapped|lia|done].
  rewrite bind_Ret. unfold magnitude. rewrite fmap_rev, write_bytes_snoc, length_rev, length_fmap. do 2 f_equal. change TMPBUFF with 21%nat. f_equal; [lia|]. f_equal. lia.
Qed.

Lemma ulltoa_text m n str base : 2 <= base -> 0 <= n < base ^ Z.of_nat TMPBUFF -> mapped m str 22 ->
  ulltoa m n str base = Ret (write_bytes m str (utext base n ++ [0]), str).
Proof.
  intros Hb Hn Hm. unfold ulltoa, utext, emit_zero. destruct (Z.eqb_spec n 0) as [->|Hn0].
  - rewrite (store_mapped m str 22), bind_Ret by (done || lia).
    rewrite (store_mapped _ str 22); [|by apply (write_bytes_mapped m _ [48])|lia|done]. by rewrite bind_Ret.
  - rewrite emit_text by (done || lia). by rewrite Z.add_0_r.
Qed.

Lemma below_10_21 n : n <= 2 ^ 64 -> n < 10 ^ Z.of_nat TMPBUFF.
Proof. intros Hn. eapply Z.le_lt_trans; [exact Hn|]. by vm_compute. Qed.
Lemma below_16_21 n : n <= 2 ^ 64 -> n < 16 ^ Z.of_nat TMPBUFF.
Proof. intros Hn. eapply Z.le_lt_trans; [exact Hn|]. by vm_compute. Qed.

Lemma lltoa_text m n str : - 2 ^ 63 < n < 2 ^ 63 -> mapped m str 23 ->
  lltoa m n str 10 = Ret (write_bytes m str (stext n ++ [0]), str).
Proof.
  intros Hn Hm. unfold lltoa, stext. destruct (Z.ltb_spec n 0) as [Hlt|Hge].
  - rewrite (proj2 (Z.eqb_neq n 0)) by lia. rewrite (store_mapped m str 23) by (done || lia). rewrite bind_Ret.
    assert (Ha : llabs n = - n) by (unfold llabs; rewrite (proj2 (Z.ltb_lt _ _)) by lia; apply i64_small; unfold is_i64; lia).
    rewrite Ha, emit_text; [reflexivity|lia|split; [lia|apply below_10_21; lia]|lia|by apply (write_bytes_mapped m _ [45])].
  - apply (ulltoa_text m n str 10); [lia|split; [lia|apply below_10_21; lia]|]. intros a Ha. apply Hm. lia.
Qed.
End text.

(** ** Padding *)
Section pad.
Implicit Types (m : gmap Z Z) (l s : list Z).

Lemma shift_right_spec m p : forall k l0 x l1, length l0 = k -> Forall is_byte l0 ->
  shift_right k (write_bytes m p (l0 ++ x :: l1)) p = Ret (write_bytes m p (take 1 (l0 ++ [x]) ++ l0 ++ l1)).
Proof.
  induction k as [|k IH]; intros l0 x l1 Hl Hb; cbn [shift_right]; [by destruct l0|].
  destruct l0 as [|y l0] using rev_ind; [done|clear IHl0]. rewrite length_app in Hl. cbn in Hl.
  apply Forall_app in Hb as [Hb Hy]. apply Forall_cons in Hy as [Hy _].
  rewrite <- !app_assoc. cbn [app]. replace (Z.of_nat k) with (Z.of_nat (length l0)) by lia. rewrite buf_at, bind_Ret.
  rewrite buf_store; [|rewrite length_app; cbn; lia|done]. rewrite bind_Ret.
  replace (Z.to_nat (Z.of_nat (S k))) with (length l0 + 1)%nat by lia. rewrite insert_app_r. cbn [insert list_insert].
  rewrite (IH l0 y (y :: l1)); [|lia|done]. do 2 f_equal. by destruct l0.
Qed.

Lemma pad_loop_spec c : is_byte c -> forall k i r m p s, Forall is_byte s -> (k < r)%nat -> s <> [] ->
  pad_loop k (Z.of_nat i) (Z.of_nat (length s)) c (write_bytes m p (replicate i c ++ s ++ replicate r 0)) p =
  Ret (write_bytes m p (replicate (i + k) c ++ s ++ replicate (r - k) 0)).
Proof.
  intros Hc. induction k as [|k IH]; intros i r m p s Hs Hr Hne; cbn [pad_loop]; [by rewrite Nat.add_0_r, Nat.sub_0_r|].
  destruct r as [|r]; [lia|]. cbn [replicate].
  replace (Z.to_nat (Z.of_nat (length s) + Z.of_nat i)) with (length (replicate i c ++ s)) by (rewrite length_app, length_replicate; lia).
  rewrite (app_assoc (replicate i c) s). rewrite shift_right_spec; [|done|by apply Forall_app_2; [apply Forall_replicate|]].
  rewrite bind_Ret. destruct s as [|y s]; [done|].
  rewrite buf_store; [|rewrite !length_app, length_take, !length_app, !length_replicate; cbn; lia|done]. rewrite bind_Ret, Nat2Z.id.
  assert (E : <[i:=c]> (take 1 ((replicate i c ++ y :: s) ++ [0]) ++ (replicate i c ++ y :: s) ++ replicate r 0)
    = replicate (S i) c ++ (y :: s) ++ replicate r 0).
  { destruct i as [|i]; [done|].
    replace (take 1 ((replicate (S i) c ++ y :: s) ++ [0]) ++ (replicate (S i) c ++ y :: s) ++ replicate r 0)
      with (replicate (S (S i)) c ++ (y :: s) ++ replicate r 0) by (cbn; rewrite <- !app_assoc; done).
    apply list_insert_id. rewrite lookup_app_l by (rewrite length_replicate; lia). apply lookup_replicate. split; [done|lia]. }
  rewrite E. replace (Z.of_nat i + 1) with (Z.of_nat (S i)) by lia.
  rewrite (IH (S i) r m p (y :: s)) by (done || lia). by replace (S i + k)%nat with (i + S k)%nat by lia.
Qed.

Definition char_ok (c : Z) : Prop := 0 < c < 256.
Lemma chars_bytes s : Forall char_ok s -> Forall is_byte s.
Proof. intros Hs. eapply Forall_impl; [exact Hs|]. unfold char_ok, is_byte. lia. Qed.

(** [t] in [tmpbuf], the rest of it zero. *)
Definition in_tmpbuf m (p : Z) (t : list Z) : gmap Z Z := write_bytes m p (t ++ replicate (TMPBUF - length t) 0).
Lemma tmpbuf_cstr m p t : Forall char_ok t -> (length t < TMPBUF)%nat -> 0 <= p -> p + 50 < 2 ^ 32 -> cstr (in_tmpbuf m p t) p t.
Proof.
  intros Ht Hl Hp Hp'. unfold TMPBUF in *. unfold in_tmpbuf, TMPBUF. replace (50 - length t)%nat with (S (49 - length t)) by lia.
  cbn [replicate]. apply cstr_write; [done|lia|lia].
Qed.

Lemma apply_width_spec m p (bufmax flags w : Z) t :
  Forall char_ok t -> t <> [] -> (length t <= 23)%nat -> 0 <= p -> p + 50 < 2 ^ 32 -> 0 <= w < 2 ^ 16 -> 0 <= bufmax <= 42 ->
  let o := replicate (Z.to_nat (Z.min w bufmax - Z.of_nat (length t))) (if Z.land flags PRITNF_FLAG_PAD_ZERO =? 0 then 32 else 48) ++ t in
  printf_apply_flags_and_width (in_tmpbuf m p t) p bufmax flags w = Ret (in_tmpbuf m p o, Z.of_nat (length o)) /\
  Forall char_ok o /\ (length o <= 42)%nat.
Proof.
  intros Ht Hne Hl Hp Hp' Hw Hbm o. set (c := if Z.land flags PRITNF_FLAG_PAD_ZERO =? 0 then 32 else 48) in o.
  assert (Hc : char_ok c) by (unfold c, char_ok; case_match; lia).
  assert (Hw' : (if w >? bufmax then bufmax else w) = Z.min w bufmax) by (destruct (Z.gtb_spec w bufmax); lia).
  assert (Hlo : (length o <= 42)%nat) by (unfold o; rewrite length_app, length_replicate; lia).
  assert (Ho : Forall char_ok o) by (apply Forall_app_2; [by apply Forall_replicate|done]).
  split; [|done]. unfold printf_apply_flags_and_width. cbv zeta.
  rewrite (strlen_cstr _ p t) by (apply tmpbuf_cstr; unfold TMPBUF; done || lia). rewrite bind_Ret, Hw'. fold c.
  assert (Hgo : (if Z.min w bufmax >? Z.of_nat (length t) then pad_loop (Z.to_nat (Z.min w bufmax - Z.of_nat (length t))) 0 (Z.of_nat (length t)) c (in_tmpbuf m p t) p
    else Ret (in_tmpbuf m p t)) = Ret (in_tmpbuf m p o)).
  { destruct (Z.gtb_spec (Z.min w bufmax) (Z.of_nat (length t))) as [Hgt|Hle].
    - unfold in_tmpbuf. change 0 with (Z.of_nat 0) at 1.
      rewrite (pad_loop_spec c ltac:(unfold char_ok, is_byte in *; lia) _ 0 (TMPBUF - length t) m p t);
        [|by apply chars_bytes|unfold TMPBUF; lia|done].
      f_equal. f_equal. unfold o. rewrite <- app_assoc. do 3 f_equal. rewrite length_app, length_replicate. unfold TMPBUF. lia.
    - unfold o. by replace (Z.to_nat (Z.min w bufmax - Z.of_nat (length t))) with 0%nat by lia. }
  rewrite Hgo, bind_Ret. by rewrite (strlen_cstr _ p o) by (apply tmpbuf_cstr; unfold TMPBUF; done || lia).
Qed.
End pad.

(** ** Reading a directive *)
Section parse.
Implicit Types (m : gmap Z Z) (p c : Z) (l fl : list Z).
Import Conv.

Definition flag_char c : Prop := c ∈ [45; 43; 32; 35; 48].
Definition conv_char c : Prop := c ∈ [105; 100; 120; 88; 112; 117; 115; 99].
Definition flag_bits fl (f : Z) : Z := foldl (fun f c => (printf_parse_flags c f).1) f fl.

Ltac in_list H := repeat (apply elem_of_cons in H as [H|H]); [subst..|by apply elem_of_nil in H].

Lemma flags_loop_spec fl : forall fuel m p rest f, cstr m p (fl ++ rest) -> Forall flag_char fl ->
  (forall f, printf_parse_flags (hd 0 rest) f = (f, PRINTF_PARSE_DONE)) ->
  (length fl < fuel)%nat -> flags_loop fuel m p f = Ret (p + Z.of_nat (length fl), flag_bits fl f).
Proof.
  induction fl as [|c fl IH]; intros fuel m p rest f Hc Hf Hd' Hl; (destruct fuel as [|fuel]; [cbn in Hl; lia|]); cbn [flags_loop length app] in *.
  - rewrite (cstr_head m p rest Hc), bind_Ret, Hd'. cbn iota. by rewrite Z.add_0_r.
  - rewrite (cstr_head m p _ Hc), bind_Ret. cbn [hd]. apply Forall_cons in Hf as [Hc0 Hf].
    assert (Hst : (printf_parse_flags c f).2 = PRINTF_PARSE_CONTINUE) by (unfold flag_char in Hc0; in_list Hc0; done).
    destruct (printf_parse_flags c f) as [f' st] eqn:E. cbn in Hst. subst st.
    rewrite (IH fuel m (p + 1) rest f'); [|by eapply cstr_tail|done|done|lia].
    cbn [flag_bits foldl]. rewrite E. cbn [fst]. f_equal. f_equal. lia.
Qed.

Lemma land_16 f : (Z.land f PRITNF_FLAG_PAD_ZERO =? 0) = negb (Z.testbit f 4).
Proof.
  assert (E : Z.land f PRITNF_FLAG_PAD_ZERO = if Z.testbit f 4 then 16 else 0).
  { change PRITNF_FLAG_PAD_ZERO with (2 ^ 4). apply Z.bits_inj'. intros k Hk. rewrite Z.land_spec, Z.pow2_bits_eqb by lia.
    destruct (Z.eqb_spec 4 k) as [<-|Hne]; [by destruct (Z.testbit f 4)|]. rewrite andb_false_r.
    destruct (Z.testbit f 4); [|by rewrite Z.bits_0]. change 16 with (2 ^ 4). rewrite Z.pow2_bits_eqb by lia. symmetry. by apply Z.eqb_neq. }
  rewrite E. by destruct (Z.testbit f 4).
Qed.
Lemma flag_bits_zero fl : Forall flag_char fl -> forall f, Z.testbit (flag_bits fl f) 4 = Z.testbit f 4 || zero_pad fl.
Proof.
  induction 1 as [|c fl Hc Hf IH]; intros f; cbn [flag_bits foldl]; [by rewrite orb_false_r|].
  change (foldl _ ?a fl) with (flag_bits fl a). rewrite IH.
  assert (Hz : zero_pad (c :: fl) = (c =? 48) || zero_pad fl).
  { unfold zero_pad. destruct (Z.eqb_spec c 48) as [->|Hne]; cbn [orb]; [apply bool_decide_eq_true_2; left|].
    apply bool_decide_ext. rewrite elem_of_cons. naive_solver. }
  rewrite Hz. unfold flag_char in Hc. in_list Hc; cbn [printf_parse_flags Z.eqb Pos.eqb fst]; rewrite Z.lor_spec; cbn; rewrite ?orb_false_r; try done.
  by rewrite orb_true_r.
Qed.

(** A number in the format: its digits and their value. *)
Lemma lsd_value base : 2 <= base -> forall k n, 0 <= n < base ^ Z.of_nat k -> value_lsd base (lsd k n base) = n.
Proof.
  intros Hb. induction k as [|k IH]; intros n Hn; cbn [lsd].
  - change (base ^ Z.of_nat 0) with 1 in Hn. cbn. lia.
  - destruct (Z.eqb_spec n 0) as [->|Hn0]; [done|]. change (n mod base + base * value_lsd base (lsd k (n / base) base) = n).
    rewrite IH; [pose proof (Z.div_mod n base); lia|]. split; [apply Z.div_pos; lia|]. apply Z.div_lt_upper_bound; [lia|].
    replace (Z.of_nat (S k)) with (Z.succ (Z.of_nat k)) in Hn by lia. rewrite Z.pow_succ_r in Hn by lia. lia.
Qed.
Lemma lsd_last base : 2 <= base -> forall k n, 0 < n < base ^ Z.of_nat k -> exists d l, lsd k n base = l ++ [d] /\ d <> 0.
Proof.
  intros Hb. induction k as [|k IH]; intros n Hn; [change (base ^ Z.of_nat 0) with 1 in Hn; lia|]. cbn [lsd].
  rewrite (proj2 (Z.eqb_neq n 0)) by lia. pose proof (Z.div_mod n base ltac:(lia)) as Hdm. pose proof (Z.mod_pos_bound n base ltac:(lia)).
  destruct (decide (n / base = 0)) as [E|E].
  - exists (n mod base), []. rewrite E. split; [|lia]. by destruct k.
  - pose proof (Z.div_pos n base ltac:(lia) ltac:(lia)). destruct (IH (n / base)) as (d & l & -> & Hd); [|by exists d, (n mod base :: l)].
    split; [lia|]. apply Z.div_lt_upper_bound; [lia|].
    replace (Z.of_nat (S k)) with (Z.succ (Z.of_nat k)) in Hn by lia. rewrite Z.pow_succ_r in Hn by lia. lia.
Qed.
Lemma utext_value n : 0 <= n <= 2 ^ 64 -> exists ds, utext 10 n = digit_char <$> ds /\ Forall (is_digit 10) ds /\
  value_msd 10 0 ds = n /\ (n <> 0 -> hd 0 ds <> 0) /\ ds <> [].
Proof.
  intros Hn. unfold utext. destruct (Z.eqb_spec n 0) as [->|Hn0].
  - exists [0]. repeat split; try done. repeat constructor; lia.
  - pose proof (below_10_21 n ltac:(lia)). exists (rev (lsd TMPBUFF n 10)). split; [done|]. split; [apply Forall_rev, lsd_digits; lia|].
    split; [rewrite value_msd_rev; apply lsd_value; lia|]. destruct (lsd_last 10 ltac:(lia) TMPBUFF n) as (d & l & -> & Hd); [lia|].
    rewrite rev_app_distr. cbn. done.
Qed.
Lemma dec_char d : is_digit 10 d -> digit_char d = d + 48 /\ isdigit (digit_char d) = true.
Proof.
  intros Hd. destruct Hd as [H0 H1]. unfold digit_char. rewrite (proj2 (Z.ltb_lt d 10)) by lia. rewrite u8_small by (unfold is_u8; lia).
  split; [done|]. unfold isdigit. apply andb_true_intro. rewrite !Z.leb_le. lia.
Qed.
Lemma value_msd_le d ds v : 0 <= d -> 0 <= v -> Forall (is_digit 10) ds -> v <= value_msd 10 v ds.
Proof. intros _ Hv Hd. apply value_msd_ge; [lia|eapply Forall_impl; [exact Hd|]; by intros ? []|lia]. Qed.

Lemma width_loop_spec ds : forall fuel m p rest w, cstr m p ((digit_char <$> ds) ++ rest) -> Forall (is_digit 10) ds ->
  isdigit (hd 0 rest) = false -> (length ds < fuel)%nat -> 0 <= w -> value_msd 10 w ds < 2 ^ 16 ->
  width_loop fuel m p w = Ret (p + Z.of_nat (length ds), value_msd 10 w ds).
Proof.
  induction ds as [|d ds IH]; intros fuel m p rest w Hc Hd Hr Hl Hw Hv; (destruct fuel as [|fuel]; [cbn in Hl; lia|]); cbn [width_loop length fmap list_fmap app] in *.
  - rewrite (cstr_head m p rest Hc), bind_Ret, Hr. by rewrite Z.add_0_r.
  - rewrite (cstr_head m p _ Hc), bind_Ret. cbn [hd]. apply Forall_cons in Hd as [Hd0 Hd]. destruct (dec_char d Hd0) as [E ->].
    change (value_msd 10 w (d :: ds)) with (value_msd 10 (w * 10 + d) ds) in *. destruct Hd0 as [H0 H1].
    pose proof (value_msd_le 0 ds (w * 10 + d) ltac:(lia) ltac:(lia) Hd).
    replace (u16 (w * 10 + (digit_char d - 48))) with (w * 10 + d) by (rewrite E; unfold u16; rewrite Z.mod_small; lia).
    rewrite (IH fuel m (p + 1) rest); [f_equal; f_equal; lia|by eapply cstr_tail|done|done|lia|lia|done].
Qed.
Lemma precision_loop_spec ds : forall fuel m p rest w, cstr m p ((digit_char <$> ds) ++ rest) -> Forall (is_digit 10) ds ->
  isdigit (hd 0 rest) = false -> (length ds < fuel)%nat -> 0 <= w -> value_msd 10 w ds < 2 ^ 31 ->
  precision_loop fuel m p w = Ret (p + Z.of_nat (length ds), value_msd 10 w ds).
Proof.
  induction ds as [|d ds IH]; intros fuel m p rest w Hc Hd Hr Hl Hw Hv; (destruct fuel as [|fuel]; [cbn in Hl; lia|]); cbn [precision_loop length fmap list_fmap app] in *.
  - rewrite (cstr_head m p rest Hc), bind_Ret, Hr. by rewrite Z.add_0_r.
  - rewrite (cstr_head m p _ Hc), bind_Ret. cbn [hd]. apply Forall_cons in Hd as [Hd0 Hd]. destruct (dec_char d Hd0) as [E ->].
    change (value_msd 10 w (d :: ds)) with (value_msd 10 (w * 10 + d) ds) in *. destruct Hd0 as [H0 H1].
    pose proof (value_msd_le 0 ds (w * 10 + d) ltac:(lia) ltac:(lia) Hd). unfold llong_. rewrite E.
    repeat (cond_true; rewrite bind_Ret). replace (w * 10 + (d + 48 - 48)) with (w * 10 + d) by lia.
    rewrite (IH fuel m (p + 1) rest); [f_equal; f_equal; lia|by eapply cstr_tail|done|done|lia|lia|done].
Qed.

Ltac parse_step := match goal with |- context [printf_parse_length ?a ?b] =>
  let r := eval vm_compute in (printf_parse_length a b) in change (printf_parse_length a b) with r; cbv beta iota zeta end.
Lemma length_loop_spec len c rest m p : conv_char c -> cstr m p (ltext len ++ c :: rest) ->
  length_loop (mem_fuel m) m p PRINTF_LEN_NONE = Ret (p + Z.of_nat (length (ltext len)), len, true).
Proof.
  intros Hc Hm. pose proof (cstr_fuel m p _ Hm) as Hf. rewrite length_app in Hf. cbn [length] in Hf.
  assert (Hend : forall q, printf_parse_length c q = (q, PRINTF_PARSE_DONE)) by (intros q; unfold conv_char in Hc; in_list Hc; done).
  assert (Hk : exists k, mem_fuel m = (length (ltext len) + S k)%nat) by (exists (mem_fuel m - length (ltext len) - 1)%nat; lia).
  destruct Hk as [k ->]. clear Hf. destruct len; cbn [ltext app length Nat.add] in *; cbn [length_loop];
    repeat (rewrite (cstr_head m _ _ Hm), bind_Ret; cbn [hd];
      first [rewrite Hend; cbn iota; f_equal; f_equal; f_equal; lia | parse_step; apply cstr_tail in Hm]).
Qed.

(** Where one part of a directive ends and the next begins. *)
Record dir_ok fl (w : Z) (prec : option Z) c : Prop := {
  do_flags : Forall flag_char fl; do_width : 0 <= w < 2 ^ 16;
  do_prec : forall p, prec = Some p -> 0 <= p < 2 ^ 31; do_conv : conv_char c }.
Lemma no_flag x f : x <> 45 -> x <> 43 -> x <> 32 -> x <> 35 -> x <> 48 -> printf_parse_flags x f = (f, PRINTF_PARSE_DONE).
Proof. intros. unfold printf_parse_flags. by rewrite !(proj2 (Z.eqb_neq x _)) by done. Qed.
Lemma tail_head len c rest : conv_char c -> let x := hd 0 (ltext len ++ c :: rest) in 70 < x /\ x <> 46.
Proof. intros Hc. assert (70 < c) by (unfold conv_char in Hc; in_list Hc; lia). destruct len; cbn; lia. Qed.
Lemma prec_head prec len c rest : conv_char c -> let x := hd 0 (ptext prec ++ ltext len ++ c :: rest) in 70 < x \/ x = 46.
Proof. intros Hc. destruct prec; cbn [ptext app hd]; [by right|]. left. by apply tail_head. Qed.
Lemma width_head w prec len c rest : 0 <= w < 2 ^ 16 -> conv_char c -> let x := hd 0 (wtext w ++ ptext prec ++ ltext len ++ c :: rest) in
  48 < x <= 57 \/ 70 < x \/ x = 46.
Proof.
  intros Hw Hc. unfold wtext. destruct (Z.eqb_spec w 0) as [->|Hw0]; [right; by apply prec_head|left].
  destruct (utext_value w) as (ds & -> & Hd & _ & Hne & Hnil); [lia|]. destruct ds as [|d ds]; [done|]. cbn.
  apply Forall_cons in Hd as [Hd _]. destruct (dec_char d Hd) as [-> _]. specialize (Hne Hw0). cbn in Hne. destruct Hd. lia.
Qed.

Lemma directive_spec m p args fl w prec len c rest : dir_ok fl w prec c ->
  cstr m p (fl ++ wtext w ++ ptext prec ++ ltext len ++ c :: rest) ->
  directive m p args = Ret (p + Z.of_nat (length (fl ++ wtext w ++ ptext prec ++ ltext len)),
    Some (len, flag_bits fl 0, w, default (-1) prec), args).
Proof.
  intros [Hf Hw Hp Hc] Hm. unfold directive. pose proof (cstr_fuel m p _ Hm) as Hfuel. rewrite length_app in Hfuel.
  assert (Hx : forall x, 48 < x <= 57 \/ 70 < x \/ x = 46 -> forall f, printf_parse_flags x f = (f, PRINTF_PARSE_DONE)) by (intros; apply no_flag; lia).
  assert (Hnd : forall x, 70 < x \/ x = 46 -> isdigit x = false) by (intros x Hx'; unfold isdigit; apply andb_false_iff; rewrite !Z.leb_gt; lia).
  rewrite (flags_loop_spec fl _ m p _ 0 Hm Hf) by (by (apply Hx, width_head) || lia). rewrite bind_Ret.
  apply cstr_drop in Hm. set (p1 := p + Z.of_nat (length fl)) in *.
  assert (Ew : parse_width m p1 args = Ret (p1 + Z.of_nat (length (wtext w)), w, args)).
  { unfold parse_width. rewrite (cstr_head m p1 _ Hm), bind_Ret.
    rewrite (proj2 (Z.eqb_neq _ 42)) by (pose proof (width_head w prec len c rest Hw Hc) as H; cbn zeta in H; lia).
    unfold wtext in *. destruct (Z.eqb_spec w 0) as [->|Hw0].
    - rewrite (width_loop_spec [] _ m p1 _ 0 Hm); [done|done|apply Hnd, prec_head; done|pose proof (cstr_fuel m p1 _ Hm); cbn; lia|lia|cbn; lia].
    - destruct (utext_value w) as (ds & Et & Hd & Hv & _); [lia|]. rewrite Et in *.
      pose proof (cstr_fuel m p1 _ Hm) as Hf1. rewrite length_app, length_fmap in Hf1.
      rewrite (width_loop_spec ds _ m p1 _ 0 Hm); [by rewrite bind_Ret, length_fmap, Hv|done|apply Hnd, prec_head; done|lia|lia|lia]. }
  rewrite Ew, bind_Ret. cbv beta iota. apply cstr_drop in Hm. set (p2 := p1 + Z.of_nat (length (wtext w))) in *.
  assert (Ep : parse_precision m p2 args = Ret (p2 + Z.of_nat (length (ptext prec)), default (-1) prec, args)).
  { unfold parse_precision. rewrite (cstr_head m p2 _ Hm), bind_Ret. destruct prec as [q|]; cbn [ptext app hd length] in *.
    - rewrite Z.eqb_refl. apply cstr_tail in Hm. destruct (utext_value q) as (ds & Et & Hd & Hv & _); [specialize (Hp q eq_refl); lia|].
      rewrite Et in *. rewrite (cstr_head m (p2 + 1) _ Hm), bind_Ret. pose proof (cstr_fuel m (p2 + 1) _ Hm) as Hf1. rewrite length_app, length_fmap in Hf1.
      assert (H42 : hd 0 ((digit_char <$> ds) ++ ltext len ++ c :: rest) =? 42 = false).
      { apply Z.eqb_neq. destruct ds as [|d ds]; [pose proof (tail_head len c rest Hc) as H; cbn in *; lia|]. cbn. apply Forall_cons in Hd as [Hd _].
        destruct (dec_char d Hd) as [-> _]. destruct Hd. lia. }
      rewrite H42. rewrite (precision_loop_spec ds _ m (p2 + 1) _ 0 Hm); [|done|apply Hnd; left; by apply tail_head|lia|lia|specialize (Hp q eq_refl); lia].
      rewrite bind_Ret, length_fmap, Hv. cbv beta iota. do 3 f_equal. lia.
    - rewrite (proj2 (Z.eqb_neq _ 46)) by (pose proof (tail_head len c rest Hc) as H; cbn in *; lia). by rewrite Z.add_0_r. }
  rewrite Ep, bind_Ret. cbv beta iota. apply cstr_drop in Hm. set (p3 := p2 + Z.of_nat (length (ptext prec))) in *.
  rewrite (length_loop_spec len c rest m p3 Hc Hm), bind_Ret. cbv beta iota. rewrite !length_app. unfold p3, p2, p1.
  do 3 f_equal. lia.
Qed.
End parse.

(** ** Converting an argument *)
Section convert.
Context (tmpbuf : Z) (Htmp : 0 <= tmpbuf) (Htmp' : tmpbuf + 50 < 2 ^ 32).
Implicit Types (m : gmap Z Z) (s t : list Z).
Import Conv.

Lemma tmpbuf_write m t : (length t < TMPBUF)%nat -> write_bytes (in_tmpbuf m tmpbuf []) tmpbuf (t ++ [0]) = in_tmpbuf m tmpbuf t.
Proof.
  intros Hl. unfold in_tmpbuf, TMPBUF in *. apply map_eq. intros a. rewrite !write_bytes_lookup, !length_app, !length_replicate. cbn [length app Nat.sub].
  destruct (decide (tmpbuf <= a < tmpbuf + Z.of_nat (length t + 1))) as [H1|H1].
  - rewrite decide_True by lia. destruct (decide (a = tmpbuf + Z.of_nat (length t))) as [->|Hne].
    + replace (Z.to_nat (tmpbuf + Z.of_nat (length t) - tmpbuf)) with (length t) by lia.
      rewrite !lookup_app_r, Nat.sub_diag by lia. symmetry. apply lookup_replicate. split; [done|lia].
    + by rewrite !lookup_app_l by lia.
  - destruct (decide (tmpbuf <= a < tmpbuf + Z.of_nat (length t + (50 - length t)))) as [H2|H2].
    + rewrite decide_True by lia. rewrite lookup_app_r by lia. trans (Some 0); [|symmetry]; apply lookup_replicate; (split; [done|lia]).
    + by rewrite decide_False by lia.
Qed.
Lemma tmpbuf_mapped m t : (length t <= TMPBUF)%nat -> mapped (in_tmpbuf m tmpbuf t) tmpbuf 50.
Proof.
  intros Hl a Ha. unfold in_tmpbuf. rewrite write_bytes_lookup, length_app, length_replicate. unfold TMPBUF in *.
  rewrite decide_True by lia. apply lookup_lt_is_Some. rewrite length_app, length_replicate. lia.
Qed.

Definition in_range (signed : bool) (len : PrintfLengthSpecifier) (v : Z) : Prop :=
  let b := if decide (len = PRINTF_LEN_ll) then 64 else 32 in
  if signed then - 2 ^ (b - 1) <= v < 2 ^ (b - 1) /\ v <> - 2 ^ 63 else 0 <= v < 2 ^ b.
Lemma word_of len v rest : exists args', int_words len v ++ rest = u32 v :: args' /\ (len <> PRINTF_LEN_ll -> args' = rest) /\
  (len = PRINTF_LEN_ll -> args' = u32 (v / 2 ^ 32) :: rest).
Proof. unfold int_words. destruct (decide _) as [E|E]; eexists; (split; [reflexivity|]); split; by intros. Qed.
Lemma two_words v : u32 v + 2 ^ 32 * u32 (v / 2 ^ 32) = u64 v.
Proof.
  unfold u32, u64. replace (2 ^ 64) with (2 ^ 32 * 2 ^ 32) by lia. rewrite Z.rem_mul_r by lia. lia.
Qed.

Lemma va_word_of len v rest : len <> PRINTF_LEN_ll -> va_word (int_words len v ++ rest) = Ret (u32 v, rest).
Proof. intros Hl. unfold int_words. rewrite decide_False by done. cbn. by rewrite u32_idemp. Qed.
Lemma va_int_of len v rest : len <> PRINTF_LEN_ll -> is_i32 v -> va_int (int_words len v ++ rest) = Ret (v, rest).
Proof. intros Hl Hv. unfold va_int. rewrite va_word_of by done. rewrite bind_Ret, i32_u32, i32_small by done. done. Qed.
Lemma va_ullong_of v rest : va_ullong (int_words PRINTF_LEN_ll v ++ rest) = Ret (u64 v, rest).
Proof.
  unfold int_words. rewrite decide_True by done. unfold va_ullong. cbn [app va_word]. rewrite bind_Ret. cbv beta iota. cbn [va_word]. rewrite bind_Ret. cbv beta iota.
  by rewrite !u32_idemp, two_words.
Qed.

Lemma print_signed_spec m len v rest : in_range true len v ->
  print_signed tmpbuf (in_tmpbuf m tmpbuf []) len (int_words len v ++ rest) = Ret (in_tmpbuf m tmpbuf (stext v), rest) /\
  Forall char_ok (stext v) /\ stext v <> [] /\ (length (stext v) <= 23)%nat.
Proof.
  intros Hr. assert (Hv : - 2 ^ 63 < v < 2 ^ 63) by (unfold in_range in Hr; destruct (decide _); cbn in Hr; lia).
  assert (Hlen : (length (stext v) <= 22)%nat).
  { unfold stext. case_match; cbn [length]; [pose proof (magnitude_length 10 (- v))|pose proof (utext_length 10 v)]; unfold TMPBUFF in *; lia. }
  split; [|split; [|split; [|lia]]].
  - assert (E : lltoa (in_tmpbuf m tmpbuf []) v tmpbuf 10 = Ret (in_tmpbuf m tmpbuf (stext v), tmpbuf)).
    { rewrite lltoa_text; [|done|intros a Ha; apply tmpbuf_mapped; [cbn; unfold TMPBUF; lia|lia]]. by rewrite tmpbuf_write by (unfold TMPBUF; lia). }
    destruct (decide (len = PRINTF_LEN_ll)) as [->|Hl].
    + unfold print_signed, va_llong. rewrite va_ullong_of, !bind_Ret, i64_u64, i64_small by (unfold is_i64; lia). cbv beta iota. by rewrite E.
    + assert (Hi : is_i32 v) by (unfold in_range in Hr; rewrite decide_False in Hr by done; unfold is_i32; cbn in Hr; lia).
      unfold print_signed. destruct len; try done; rewrite va_int_of by done; rewrite bind_Ret; cbv beta iota; unfold itoa, ltoa; by rewrite E.
  - unfold stext. case_match eqn:Ev; reflect_bools.
    + constructor; [unfold char_ok; lia|]. eapply Forall_impl; [apply magnitude_digits; lia|]. unfold char_ok. intros. lia.
    + eapply Forall_impl; [apply utext_digits; lia|]. unfold char_ok. intros. lia.
  - unfold stext. case_match eqn:Ev; [done|]. reflect_bools. destruct (utext_value v) as (ds & -> & _ & _ & _ & Hne); [lia|]. by destruct ds.
Qed.

Lemma print_unsigned_text m base v : (base = 10 \/ base = 16) -> is_u64 v ->
  ulltoa (in_tmpbuf m tmpbuf []) v tmpbuf base = Ret (in_tmpbuf m tmpbuf (utext base v), tmpbuf) /\
  Forall char_ok (utext base v) /\ utext base v <> [] /\ (length (utext base v) <= 23)%nat.
Proof.
  intros Hb Hv. unfold is_u64 in Hv. pose proof (utext_length base v) as Hl. unfold TMPBUFF in Hl.
  split; [|split; [|split; [|lia]]].
  - rewrite ulltoa_text; [by rewrite tmpbuf_write by (unfold TMPBUF; lia)|lia| |].
    + destruct Hb as [->| ->]; [pose proof (below_10_21 v ltac:(lia))|pose proof (below_16_21 v ltac:(lia))]; lia.
    + intros a Ha. apply tmpbuf_mapped; [cbn; unfold TMPBUF; lia|lia].
  - eapply Forall_impl; [apply utext_digits; lia|]. unfold char_ok. intros. lia.
  - unfold utext, magnitude. case_match eqn:Ev; [done|]. reflect_bools. intros Hn%fmap_nil_inv. apply (f_equal (@rev Z)) in Hn.
    rewrite rev_involutive in Hn. cbn [TMPBUFF lsd] in Hn. by rewrite (proj2 (Z.eqb_neq v 0)) in Hn by done.
Qed.
Lemma range_u len v : in_range false len v -> is_u64 v /\ (len <> PRINTF_LEN_ll -> is_u32 v).
Proof. unfold in_range. destruct (decide _); cbn; unfold is_u64, is_u32; intros; split; try lia; done. Qed.

Lemma print_hex_spec m len v rest : in_range false len v ->
  print_hex tmpbuf (in_tmpbuf m tmpbuf []) len (int_words len v ++ rest) = Ret (in_tmpbuf m tmpbuf (utext 16 v), rest).
Proof.
  intros Hr. destruct (range_u len v Hr) as [H64 H32]. destruct (print_unsigned_text m 16 v) as [E _]; [by right|done|].
  destruct (decide (len = PRINTF_LEN_ll)) as [->|Hl].
  - unfold print_hex. rewrite va_ullong_of, bind_Ret, u64_small by done. cbv beta iota. by rewrite E.
  - unfold print_hex. destruct len; try done; rewrite va_word_of by done; rewrite bind_Ret, u32_small by auto; cbv beta iota; unfold utoa, ultoa; by rewrite E.
Qed.
Lemma print_unsigned_spec m len v rest : in_range false len v -> len ∉ [PRINTF_LEN_j; PRINTF_LEN_t; PRINTF_LEN_L] ->
  print_unsigned tmpbuf (in_tmpbuf m tmpbuf []) len (int_words len v ++ rest) = Ret (in_tmpbuf m tmpbuf (utext 10 v), rest).
Proof.
  intros Hr Hn. destruct (range_u len v Hr) as [H64 H32]. destruct (print_unsigned_text m 10 v) as [E _]; [by left|done|].
  destruct (decide (len = PRINTF_LEN_ll)) as [->|Hl].
  - unfold print_unsigned. rewrite va_ullong_of, bind_Ret, u64_small by done. cbv beta iota. by rewrite E.
  - unfold print_unsigned. destruct len; try done; try (exfalso; apply Hn; set_solver);
      (rewrite va_word_of by done; rewrite bind_Ret, u32_small by auto; cbv beta iota; unfold utoa, ultoa; by rewrite E).
Qed.

(** What a caller has to pass. *)
Definition arg_ok m (len : PrintfLengthSpecifier) (c : Z) (x : printf_arg) : Prop :=
  match x with
  | ASigned v => (c = 100 \/ c = 105) /\ in_range true len v
  | AHex v => (c = 120 \/ c = 88) /\ in_range false len v
  | AUnsigned v => c = 117 /\ in_range false len v /\ len ∉ [PRINTF_LEN_j; PRINTF_LEN_t; PRINTF_LEN_L]
  | APtr v => c = 112 /\ is_u32 v
  | AStr a s => c = 115 /\ cstr m a s /\ Z.of_nat (length s) < 2 ^ 30 /\ disjoint tmpbuf 50 a (Z.of_nat (length s) + 1)
  | AChar v => c = 99 /\ char_ok v
  end.

Lemma in_tmpbuf_cstr m t p s : (length t <= TMPBUF)%nat -> cstr m p s -> disjoint tmpbuf 50 p (Z.of_nat (length s) + 1) -> cstr (in_tmpbuf m tmpbuf t) p s.
Proof.
  intros Hl Hc Hd. apply cstr_write_bytes; [done|]. rewrite length_app, length_replicate. unfold disjoint, TMPBUF in *. lia.
Qed.

Lemma padded_spec m fl w text : Forall flag_char fl -> Forall char_ok text -> text <> [] -> (length text <= 23)%nat -> 0 <= w < 2 ^ 16 ->
  printf_apply_flags_and_width (in_tmpbuf m tmpbuf text) tmpbuf 21 (flag_bits fl 0) w =
    Ret (in_tmpbuf m tmpbuf (padded (zero_pad fl) w text), Z.of_nat (length (padded (zero_pad fl) w text))) /\
  Forall char_ok (padded (zero_pad fl) w text) /\ (length (padded (zero_pad fl) w text) <= 42)%nat.
Proof.
  intros Hf Ht Hne Hl Hw. pose proof (apply_width_spec m tmpbuf 21 (flag_bits fl 0) w text Ht Hne Hl Htmp Htmp' Hw ltac:(lia)) as H.
  rewrite land_16, flag_bits_zero in H by done. rewrite Z.bits_0 in H. cbn [orb] in H.
  unfold padded. by destruct (zero_pad fl).
Qed.

(** A converted argument: what is to be printed is at [ob]. *)
Definition converted m (it : item) (r : outcome (gmap Z Z * Z * Z * list Z)) (rest : list Z) : Prop :=
  exists t ob, (length t <= 42)%nat /\ r = Ret (in_tmpbuf m tmpbuf t, ob, Z.of_nat (length (item_out it)), rest) /\
    cstr (in_tmpbuf m tmpbuf t) ob (item_full it) /\ item_out it = take (length (item_out it)) (item_full it) /\
    (ob = tmpbuf /\ (length (item_full it) <= 42)%nat \/ exists fl w prec len c s, it = Dir fl w prec len c (AStr ob s)).

Lemma converted_text m (it : item) t rest : Forall char_ok t -> (length t <= 42)%nat -> item_full it = t -> item_out it = t ->
  converted m it (Ret (in_tmpbuf m tmpbuf t, tmpbuf, Z.of_nat (length t), rest)) rest.
Proof.
  intros Ht Hl Hfu Ho. exists t, tmpbuf. rewrite Hfu, Ho. split; [done|]. split; [done|].
  split; [apply tmpbuf_cstr; unfold TMPBUF; done || lia|]. split; [by rewrite take_ge|by left].
Qed.

Lemma convert_spec m fl w prec len c x rest : dir_ok fl w prec c -> arg_ok m len c x ->
  converted m (Dir fl w prec len c x)
    (printf_convert tmpbuf (in_tmpbuf m tmpbuf []) c len (flag_bits fl 0) w (default (-1) prec) (item_words (Dir fl w prec len c x) ++ rest)) rest.
Proof.
  intros [Hf Hw Hp _] Hx. destruct x as [v|v|v|v|a s|v]; cbn [item_words arg_ok] in *; unfold printf_convert.
  - destruct Hx as [Hc Hr]. replace ((c =? 105) || (c =? 100)) with true by (destruct Hc as [->| ->]; done).
    destruct (print_signed_spec m len v rest Hr) as (-> & Ht & Hne & Hl). rewrite bind_Ret. cbv beta iota.
    destruct (padded_spec m fl w (stext v) Hf Ht Hne Hl Hw) as (-> & Ho & Hlo). rewrite bind_Ret. cbv beta iota. apply converted_text; try done.
    by destruct prec.
  - destruct Hx as [Hc Hr]. replace ((c =? 105) || (c =? 100)) with false by (destruct Hc as [->| ->]; done).
    replace ((c =? 120) || (c =? 88)) with true by (destruct Hc as [->| ->]; done).
    destruct (print_unsigned_text m 16 v) as (_ & Ht & Hne & Hl); [by right|by apply (range_u len)|]. rewrite print_hex_spec, bind_Ret by done. cbv beta iota.
    destruct (padded_spec m fl w (utext 16 v) Hf Ht Hne Hl Hw) as (-> & Ho & Hlo). rewrite bind_Ret. cbv beta iota. apply converted_text; try done.
    by destruct prec.
  - destruct Hx as (-> & Hr & Hn). change ((117 =? 105) || (117 =? 100)) with false. change ((117 =? 120) || (117 =? 88)) with false.
    change (117 =? 112) with false. change (117 =? 117) with true. cbv iota.
    destruct (print_unsigned_text m 10 v) as (_ & Ht & Hne & Hl); [by left|by apply (range_u len)|]. rewrite print_unsigned_spec, bind_Ret by done. cbv beta iota.
    destruct (padded_spec m fl w (utext 10 v) Hf Ht Hne Hl Hw) as (-> & Ho & Hlo). rewrite bind_Ret. cbv beta iota. apply converted_text; try done.
    by destruct prec.
  - destruct Hx as (-> & Hv). change ((112 =? 105) || (112 =? 100)) with false. change ((112 =? 120) || (112 =? 88)) with false.
    change (112 =? 112) with true. cbv iota. cbn [app va_word]. rewrite bind_Ret, u32_small by done. cbv beta iota.
    destruct (print_unsigned_text m 16 v) as (E & Ht & Hne & Hl); [by right|unfold is_u32, is_u64 in *; lia|]. unfold ultoa. rewrite E, bind_Ret. cbv beta iota.
    destruct (apply_width_spec m tmpbuf 21 PRITNF_FLAG_PAD_ZERO 8 (utext 16 v)) as (-> & Ho & Hlo); try done; [lia..|]. rewrite bind_Ret. cbv beta iota.
    apply converted_text; try done. by destruct prec.
  - destruct Hx as (-> & Hc & Hls & Hd). change ((115 =? 105) || (115 =? 100)) with false. change ((115 =? 120) || (115 =? 88)) with false.
    change (115 =? 112) with false. change (115 =? 117) with false. change ((115 =? 70) || (115 =? 102)) with false. change (115 =? 115) with true. cbv iota.
    cbn [app va_word]. pose proof Hc as (_ & _ & Ha). rewrite bind_Ret, u32_small by (unfold is_u32; lia). cbv beta iota.
    pose proof (in_tmpbuf_cstr m [] a s ltac:(cbn; unfold TMPBUF; lia) Hc Hd) as Hc'. rewrite (strlen_cstr _ a s Hc'), bind_Ret.
    exists [], a. split; [cbn; lia|]. split; [|split; [done|split; [|right; by repeat eexists]]].
    + do 2 f_equal. f_equal. destruct prec as [q|]; cbn [default item_out item_full]; [|done]. specialize (Hp q eq_refl). change (id q) with q.
      rewrite u32_small by (unfold is_u32; lia). rewrite (proj2 (Z.eqb_neq q (-1))) by lia. cbn [negb andb]. rewrite length_take.
      destruct (Z.leb_spec q (Z.of_nat (length s))); lia.
    + destruct prec as [q|]; cbn [item_out item_full]; [|by rewrite take_ge]. rewrite length_take.
      destruct (decide (Z.to_nat q <= length s)%nat); [by rewrite Nat.min_l by lia|]. by rewrite !take_ge by lia.
  - destruct Hx as (-> & Hv). change ((99 =? 105) || (99 =? 100)) with false. change ((99 =? 120) || (99 =? 88)) with false.
    change (99 =? 112) with false. change (99 =? 117) with false. change ((99 =? 70) || (99 =? 102)) with false. change (99 =? 115) with false.
    change (99 =? 99) with true. cbv iota. unfold va_int. cbn [app va_word]. rewrite !bind_Ret. cbv beta iota. unfold char_ok in Hv.
    rewrite i32_u32, i32_small by (unfold is_i32; lia). rewrite u8_small by (unfold is_u8; lia).
    rewrite (store_mapped _ tmpbuf 50); [|apply tmpbuf_mapped; cbn; unfold TMPBUF; lia|lia|unfold is_byte; lia]. rewrite bind_Ret.
    assert (E : <[tmpbuf := v]> (in_tmpbuf m tmpbuf []) = in_tmpbuf m tmpbuf [v]).
    { unfold in_tmpbuf. change ([] ++ replicate (TMPBUF - length []) 0) with (0 :: replicate 49 0).
      change ([v] ++ replicate (TMPBUF - length [v]) 0) with (v :: replicate 49 0). apply map_eq. intros a. destruct (decide (tmpbuf = a)) as [<-|Hne].
      - rewrite lookup_insert_eq, write_bytes_lookup, decide_True by (cbn [length]; lia). by rewrite Z.sub_diag.
      - rewrite lookup_insert_ne, !write_bytes_lookup by done. cbn [length]. destruct (decide _); [|done].
        by destruct (Z.to_nat (a - tmpbuf)) eqn:E; [lia|]. }
    rewrite E. apply (converted_text m _ [v]); [by repeat constructor; unfold char_ok; lia|cbn; lia|done|by destruct prec].
Qed.
End convert.

(** ** The loop over the format *)
Section loop.
Context (tmpbuf dest n : Z) (Htmp : 0 <= tmpbuf) (Htmp' : tmpbuf + 50 < 2 ^ 32) (Hn : 2 <= n < 2 ^ 30)
  (Hdest : 0 <= dest) (Hdest' : dest + 2 * n < 2 ^ 32) (Hapart : disjoint dest (2 * n) tmpbuf 50).
Implicit Types (m : gmap Z Z) (s t out : list Z) (its : list item).

(** A block the call does not write to. *)
Definition clear_of (a k : Z) : Prop := disjoint tmpbuf 50 a k /\ disjoint dest (2 * n) a k.
Definition item_ok m (it : item) : Prop :=
  match it with
  | Lit c => char_ok c /\ c <> 37
  | Dir fl w prec len c x => dir_ok fl w prec c /\ arg_ok tmpbuf m len c x /\ forall a s, x = AStr a s -> clear_of a (Z.of_nat (length s) + 1)
  end.
Definition kept m m' : Prop :=
  (forall a, ~ dest <= a < dest + 2 * n -> ~ tmpbuf <= a < tmpbuf + 50 -> m' !! a = m !! a) /\ (forall a, is_Some (m !! a) -> is_Some (m' !! a)).

Lemma kept_refl m : kept m m.
Proof. done. Qed.
Lemma kept_trans m1 m2 m3 : kept m1 m2 -> kept m2 m3 -> kept m1 m3.
Proof. intros [A1 B1] [A2 B2]. split; [|auto]. intros a H1 H2. by rewrite A2, A1. Qed.
Lemma kept_mapped m m' : kept m m' -> mapped m dest (2 * n) -> mapped m' dest (2 * n).
Proof. intros [_ B] H a Ha. apply B, H, Ha. Qed.
Lemma kept_cstr m m' p s : kept m m' -> cstr m p s -> clear_of p (Z.of_nat (length s) + 1) -> cstr m' p s.
Proof.
  intros [A _] (Hb & Hr) [H1 H2]. split; [|done]. intros i b Hi. pose proof (lookup_lt_Some _ _ _ Hi) as Hl. rewrite length_app in Hl. cbn in Hl.
  unfold disjoint in *. rewrite A by lia. by apply Hb.
Qed.
Lemma kept_items m m' its : kept m m' -> Forall (item_ok m) its -> Forall (item_ok m') its.
Proof.
  intros Hk. induction 1 as [|it its Hi _ IH]; constructor; [|done]. destruct it as [c|fl w prec len c x]; [done|].
  destruct Hi as (Hd & Hx & Hc). split; [done|]. split; [|done]. destruct x as [v|v|v|v|a s|v]; try exact Hx.
  destruct Hx as (E & Hs & Hl & Hdj). repeat split; try done; [apply (kept_cstr m m' a s Hk Hs), (Hc a s eq_refl)..|]; apply Hs.
Qed.
Lemma kept_tmpbuf m t : (length t <= TMPBUF)%nat -> kept m (in_tmpbuf m tmpbuf t).
Proof.
  intros Hl. unfold in_tmpbuf, TMPBUF in *. split; intros a; rewrite write_bytes_lookup, length_app, length_replicate.
  - intros _ H2. by rewrite decide_False by lia.
  - intros Ha. destruct (decide _); [|done]. apply lookup_lt_is_Some. rewrite length_app, length_replicate. lia.
Qed.

Lemma append_spec m out src t k : 0 <= k -> mapped m dest (2 * n) -> cstr m dest out -> cstr m src t ->
  disjoint dest (2 * n) src (Z.of_nat (length t) + 1) -> Z.of_nat (length out) + Z.min k (Z.of_nat (length t)) < 2 * n ->
  exists m' d, strncat m dest src k = Ret (m', d) /\ cstr m' dest (out ++ take (Z.to_nat k) t) /\ kept m m'.
Proof.
  intros Hk Hm Ho Ht Hd Hl. eexists _, _. split; [apply (strncat_cut m dest src out t k Hk Ho Ht)|].
  - intros a Ha. apply Hm. lia.
  - unfold disjoint in *. lia.
  - assert (E : take (Z.to_nat (Z.min k (Z.of_nat (length t)))) t = take (Z.to_nat k) t).
    { destruct (decide (k <= Z.of_nat (length t))); [by rewrite Z.min_l|]. by rewrite !take_ge by lia. }
    rewrite E. pose proof Ho as (Hb & Hf & _). pose proof Ht as (_ & Hft & _). assert (Hlt : (length (take (Z.to_nat k) t) <= Z.to_nat k)%nat /\ (length (take (Z.to_nat k) t) <= length t)%nat)
      by (rewrite length_take; lia). split; [|split].
    + split; [|split; [apply Forall_app_2; [done|by apply Forall_take]|rewrite length_app; lia]].
      rewrite <- app_assoc. apply bytes_at_app. split; [|apply write_bytes_at].
      apply write_bytes_bytes_at; [|unfold disjoint; lia]. by apply bytes_at_app in Hb as [Hb _].
    + intros a Ha _. apply write_bytes_outside. rewrite length_app. cbn. lia.
    + intros a Ha. rewrite write_bytes_lookup. destruct (decide _); [|done]. apply lookup_lt_is_Some. lia.
Qed.

Lemma loop_spec its : forall m fmt out fuel rest text, text = concat (item_text <$> its) ->
  cstr m fmt text -> clear_of fmt (Z.of_nat (length text) + 1) -> Forall (item_ok m) its -> mapped m dest (2 * n) ->
  cstr m dest out -> Z.of_nat (length out) <= n - 1 -> (length text < fuel)%nat ->
  let r := layout (n - 1) (Z.of_nat (length out)) its in
  exists m', printf_loop tmpbuf fuel m dest n fmt (Z.of_nat (length out)) (concat (item_words <$> its) ++ rest) = Ret (m', i32 r.2) /\
    cstr m' dest (out ++ r.1) /\ kept m m'.
Proof.
  assert (Hu : u32 (n - 1) = n - 1) by (apply u32_small; unfold is_u32; lia).
  induction its as [|it its IH]; intros m fmt out fuel rest text Etx Ht Hcl Hok Hm Ho Hout Hf r; (destruct fuel as [|fuel]; [lia|]).
  { cbn [printf_loop]. rewrite (cstr_head m fmt _ Ht), bind_Ret, Etx. cbn. exists m. rewrite app_nil_r. split; [done|]. split; [done|apply kept_refl]. }
  apply Forall_cons in Hok as [Hit Hok]. unfold r. clear r. cbn [layout]. cbn [fmap list_fmap concat] in Etx.
  assert (Hc0 : exists c0 tl, text = c0 :: tl /\ c0 <> 0 /\ (forall c, it = Lit c -> c0 = c)).
  { rewrite Etx. destruct it as [c|fl w prec len c x]; eexists _, _; (split; [reflexivity|]); (split; [|by intros ? [= ->]]); [|done]. destruct Hit as [[Hc _] _]. lia. }
  destruct Hc0 as (c0 & tl & E0 & Hc0 & Hlit).
  cbn [printf_loop]. rewrite Hu. rewrite (cstr_head m fmt _ Ht), bind_Ret, E0. cbn [hd].
  rewrite (proj2 (Z.eqb_neq c0 0)) by done. destruct (Z.geb_spec (Z.of_nat (length out)) (n - 1)) as [Hge|Hlt].
  { exists m. cbn. rewrite app_nil_r. split; [done|]. split; [done|apply kept_refl]. }
  destruct it as [c|fl w prec len c x].
  - (* a character *)
    specialize (Hlit c eq_refl). subst c0. cbn [item_text app item_out item_full item_words fmap list_fmap concat] in *. destruct Hit as [Hch Hne].
    rewrite (proj2 (Z.eqb_neq c 37)) by done. cbn [negb]. rewrite E0 in Etx. injection Etx as ->. rewrite E0 in *. cbn [length] in *.
    destruct (append_spec m out fmt _ 1 ltac:(lia) Hm Ho Ht (proj2 Hcl)) as (m1 & d & -> & Ho1 & Hk1); [cbn [length]; lia|].
    rewrite bind_Ret. cbv beta iota. change (take (Z.to_nat 1) (c :: concat (item_text <$> its))) with [c] in Ho1.
    rewrite (Z.gtb_ltb _ (n - 1)), (proj2 (Z.ltb_ge (n - 1) _)) by lia.
    assert (Ew : Z.of_nat (length out) + 1 = Z.of_nat (length (out ++ [c]))) by (rewrite length_app; cbn; lia).
    rewrite u32_small by (unfold is_u32; lia). change (Z.of_nat 1) with 1. rewrite Ew.
    assert (Hcl' : clear_of (fmt + 1) (Z.of_nat (length (concat (item_text <$> its))) + 1)) by (unfold clear_of, disjoint in *; lia).
    destruct (IH m1 (fmt + 1) (out ++ [c]) fuel rest _ eq_refl) as (m2 & E2 & Ho2 & Hk2).
    + apply (kept_cstr m); [done|by eapply cstr_tail|done].
    + done.
    + by apply (kept_items m).
    + by apply (kept_mapped m).
    + done.
    + lia.
    + lia.
    + exists m2. rewrite E2. cbn [fst snd app]. rewrite <- app_assoc in Ho2.
      split; [done|]. split; [done|by eapply kept_trans].
  - (* a directive *)
    destruct Hit as (Hd & Hx & Hxc). cbn [item_text app] in Etx. rewrite E0 in Etx. injection Etx as -> Etl.
    change (negb (37 =? 37)) with false. cbv iota. rewrite E0 in Ht, Hcl, Hf. cbn [length] in Hcl, Hf.
    rewrite Etl in *. clear Etl E0 text tl.
    rewrite <- !app_assoc in Ht, Hcl, Hf. cbn [app] in Ht, Hcl, Hf. apply cstr_tail in Ht.
    cbn [fmap list_fmap concat]. rewrite <- app_assoc.
    rewrite (directive_spec m (fmt + 1) _ fl w prec len c _ Hd Ht), bind_Ret. cbv beta iota.
    set (pre := fl ++ wtext w ++ ptext prec ++ ltext len) in *. set (post := concat (item_text <$> its)) in *.
    assert (Epre : fl ++ wtext w ++ ptext prec ++ ltext len ++ c :: post = pre ++ c :: post) by (unfold pre; rewrite <- !app_assoc; done).
    rewrite Epre in *. apply cstr_drop in Ht. rewrite length_app in Hcl, Hf. cbn [length] in Hcl, Hf. set (p1 := fmt + 1 + Z.of_nat (length pre)) in *.
    change (write_bytes m tmpbuf (replicate TMPBUF 0)) with (in_tmpbuf m tmpbuf []).
    assert (Hk0 : kept m (in_tmpbuf m tmpbuf [])) by (apply kept_tmpbuf; cbn; unfold TMPBUF; lia).
    rewrite (cstr_head _ p1 (c :: post)), bind_Ret; [|apply (kept_cstr m); [done|done|unfold clear_of, disjoint in *; cbn [length]; lia]]. cbn [hd].
    set (it := Dir fl w prec len c x) in *.
    pose proof (convert_spec tmpbuf Htmp Htmp' m fl w prec len c x (concat (item_words <$> its) ++ rest) Hd Hx) as Hcv. fold it in Hcv.
    destruct Hcv as (t & ob & Htl & -> & Hob & Hcut & Hwhere).
    rewrite bind_Ret. cbv beta iota.
    assert (Hk1 : kept m (in_tmpbuf m tmpbuf t)) by (apply kept_tmpbuf; unfold TMPBUF; lia).
    assert (Hm1 : mapped (in_tmpbuf m tmpbuf t) dest (2 * n)) by by apply (kept_mapped m).
    assert (Ho1 : cstr (in_tmpbuf m tmpbuf t) dest out).
    { apply in_tmpbuf_cstr; [unfold TMPBUF; lia|done|]. unfold disjoint in *. lia. }
    assert (Hobd : disjoint dest (2 * n) ob (Z.of_nat (length (item_full it)) + 1) /\ Z.of_nat (length (item_full it)) < 2 ^ 30).
    { destruct Hwhere as [[-> Hl]|(fl' & w' & prec' & len' & c' & s & E)]; [unfold disjoint in *; lia|].
      injection E as -> -> -> -> -> ->. cbn [item_full it]. destruct Hx as (_ & _ & Hls & _). split; [apply (Hxc ob s eq_refl)|done]. }
    destruct Hobd as [Hobd Hfull].
    assert (Hol : (length (item_out it) <= length (item_full it))%nat) by (rewrite Hcut at 1; rewrite length_take; lia).
    assert (Hsum : u32 (Z.of_nat (length out) + Z.of_nat (length (item_out it))) = Z.of_nat (length out) + Z.of_nat (length (item_out it)))
      by (apply u32_small; unfold is_u32; lia).
    rewrite Hsum. destruct (Z.gtb_spec (Z.of_nat (length out) + Z.of_nat (length (item_out it))) (n - 1)) as [Hgt|Hle].
    + assert (Ecut : u32 (Z.of_nat (length (item_out it)) - u32 (Z.of_nat (length (item_out it)) - n + 1)) = n - 1).
      { unfold u32. rewrite Zminus_mod_idemp_r. rewrite Z.mod_small by lia. lia. }
      rewrite Ecut. destruct (append_spec _ out ob _ (n - 1) ltac:(lia) Hm1 Ho1 Hob Hobd) as (m2 & d & -> & Ho2 & Hk2); [lia|].
      rewrite bind_Ret. cbv beta iota. exists m2. cbn [fst snd]. split; [done|]. split; [done|by eapply kept_trans].
    + destruct (append_spec _ out ob _ (Z.of_nat (length (item_out it))) ltac:(lia) Hm1 Ho1 Hob Hobd) as (m2 & d & -> & Ho2 & Hk2); [lia|].
      rewrite bind_Ret. cbv beta iota. rewrite Nat2Z.id, <- Hcut in Ho2.
      assert (Ew : Z.of_nat (length out) + Z.of_nat (length (item_out it)) = Z.of_nat (length (out ++ item_out it))) by (rewrite length_app; lia).
      rewrite Ew. assert (Hk : kept m m2) by by eapply kept_trans.
      assert (Hcl' : clear_of (p1 + 1) (Z.of_nat (length post) + 1)) by (unfold clear_of, disjoint in *; lia).
      destruct (IH m2 (p1 + 1) (out ++ item_out it) fuel rest _ eq_refl) as (m3 & E3 & Ho3 & Hk3).
      * apply (kept_cstr m); [done|by eapply cstr_tail|done].
      * done.
      * by apply (kept_items m).
      * by apply (kept_mapped m).
      * done.
      * rewrite <- Ew. lia.
      * unfold post in *. lia.
      * exists m3. rewrite E3. cbn [fst snd]. rewrite <- app_assoc in Ho3. split; [done|]. split; [done|by eapply kept_trans].
Qed.
End loop.

(** ** The contract *)
Lemma layout_fits lim its : forall written, written + Z.of_nat (length (concat (item_out <$> its))) <= lim ->
  layout lim written its = (concat (item_out <$> its), written + Z.of_nat (length (concat (item_out <$> its)))).
Proof.
  induction its as [|it its IH]; intros written Hl; cbn [layout fmap list_fmap concat] in *; [by rewrite Z.add_0_r|].
  rewrite length_app, Nat2Z.inj_add in *. destruct (Z.geb_spec written lim) as [Hge|Hlt].
  - assert (E : length (item_out it) = 0%nat /\ length (concat (item_out <$> its)) = 0%nat) by lia. destruct E as [E1 E2].
    apply nil_length_inv in E1, E2. rewrite E1, E2. cbn. by rewrite Z.add_0_r.
  - rewrite (Z.gtb_ltb _ lim), (proj2 (Z.ltb_ge lim _)) by lia. rewrite IH by lia. cbn. by rewrite Z.add_assoc.
Qed.

(** The loop from an empty buffer. *)
Lemma vsnprintf_spec tmpbuf dest n fmt its rest (m : gmap Z Z) :
  0 <= tmpbuf -> tmpbuf + 50 < 2 ^ 32 -> 2 <= n < 2 ^ 30 -> 0 <= dest -> dest + 2 * n < 2 ^ 32 -> disjoint dest (2 * n) tmpbuf 50 ->
  mapped m dest (2 * n) -> let text := concat (item_text <$> its) in
  cstr m fmt text -> clear_of tmpbuf dest n fmt (Z.of_nat (length text) + 1) -> Forall (item_ok tmpbuf dest n m) its ->
  let r := layout (n - 1) 0 its in
  let whole := concat (item_out <$> its) in
  exists m', vsnprintf tmpbuf m dest n fmt (concat (item_words <$> its) ++ rest) = Ret (m', i32 r.2) /\
    cstr m' dest r.1 /\ kept tmpbuf dest n m m' /\
    (Z.of_nat (length whole) <= n - 1 -> r = (whole, Z.of_nat (length whole))).
Proof.
  intros H1 H2 H3 H4 H5 H6 Hm text Ht Hc Hok r whole. unfold vsnprintf.
  rewrite (store_mapped m dest (2 * n)) by (done || lia). rewrite bind_Ret.
  assert (Hk : kept tmpbuf dest n m (<[dest := 0]> m)).
  { split; intros a; [intros Ha _; by rewrite lookup_insert_ne by lia|]. intros Ha. apply lookup_insert_is_Some'. by right. }
  assert (Ht' : cstr (<[dest := 0]> m) fmt text) by (eapply kept_cstr; eauto).
  destruct (loop_spec tmpbuf dest n H1 H2 H3 H4 H5 H6 its (<[dest := 0]> m) fmt [] (mem_fuel (<[dest := 0]> m)) rest text eq_refl Ht')
    as (m' & Hr & Ho & Hk').
  - done.
  - eapply kept_items; eauto.
  - eapply kept_mapped; eauto.
  - split; [|split; [done|cbn; lia]]. intros [|i] b Hi; [|done]. injection Hi as <-. rewrite Z.add_0_r. apply lookup_insert_eq.
  - cbn. lia.
  - apply (cstr_fuel _ fmt), Ht'.
  - exists m'. split; [exact Hr|]. split; [exact Ho|]. split; [eapply kept_trans; eauto|]. intros Hl. exact (layout_fits (n - 1) its 0 Hl).
Qed.

(** C14: [vsnprintf] on a format read as characters and directives (any flags,
    width, precision and length modifier the parser knows; [d], [i], [u], [x],
    [X], [p], [s] and [c]) with matching arguments leaves in the buffer, as a
    string, exactly the texts of the items in order, and returns its length,
    when it fits; nothing but the buffer and the call's own [tmpbuf] changes.
    When it does not fit, the items in front of the limit are whole, the one
    that crosses it is cut to [n - 1] characters of its own (and a [%s] loses
    its precision), so up to [2n - 1] bytes are written into the [n] of the
    buffer, and the result does not count the items behind. *)
Theorem vsnprintf_correct tmpbuf dest n fmt its rest (m : gmap Z Z) :
  0 <= tmpbuf -> tmpbuf + 50 < 2 ^ 32 -> 2 <= n < 2 ^ 30 -> 0 <= dest -> dest + 2 * n < 2 ^ 32 -> disjoint dest (2 * n) tmpbuf 50 ->
  mapped m dest (2 * n) -> let text := concat (item_text <$> its) in
  cstr m fmt text -> clear_of tmpbuf dest n fmt (Z.of_nat (length text) + 1) -> Forall (item_ok tmpbuf dest n m) its ->
  let r := layout (n - 1) 0 its in
  let whole := concat (item_out <$> its) in
  exists m', vsnprintf tmpbuf m dest n fmt (concat (item_words <$> its) ++ rest) = Ret (m', i32 r.2) /\
    cstr m' dest r.1 /\ kept tmpbuf dest n m m' /\
    (Z.of_nat (length whole) <= n - 1 -> r = (whole, Z.of_nat (length whole))).
Proof. exact (vsnprintf_spec tmpbuf dest n fmt its rest m). Qed.

(** ["x=%05d %s!"] *)
Definition demo_items : list item :=
  [Lit 120; Lit 61; Dir [48] 5 None PRINTF_LEN_NONE 100 (ASigned 42); Lit 32;
   Dir [] 0 None PRINTF_LEN_NONE 115 (AStr 300 [97; 98; 99; 100; 101]); Lit 33].
Definition demo_fmt : list Z := [120; 61; 37; 48; 53; 100; 32; 37; 115; 33].
Definition demo_out : list Z := [120; 61; 48; 48; 48; 52; 50; 32; 97; 98; 99; 100; 101; 33].

Lemma demo_text : concat (item_text <$> demo_items) = demo_fmt /\ concat (item_words <$> demo_items) = [42; 300] /\
  layout 19 0 demo_items = (demo_out, 14).
Proof. vm_compute. done. Qed.
Lemma cstr_check (m : gmap Z Z) p s :
  forallb (fun i => bool_decide (m !! (p + Z.of_nat i) = (s ++ [0]) !! i)) (seq 0 (S (length s))) = true ->
  forallb (fun b => (0 <? b) && (b <? 256)) s = true -> 0 <= p <= 400 -> (length s < 100)%nat -> cstr m p s.
Proof.
  intros H1 H2 Hp Hl. rewrite forallb_forall in H1. split; [|split].
  - intros i b Hi. pose proof (lookup_lt_Some _ _ _ Hi) as Hlt. rewrite length_app in Hlt. cbn in Hlt.
    assert (Hin : In i (seq 0 (S (length s)))) by (apply in_seq; lia). apply H1, bool_decide_eq_true_1 in Hin. congruence.
  - apply Forall_forall. intros b Hb%list_elem_of_In. rewrite forallb_forall in H2. apply H2, andb_prop in Hb as [? ?]. lia.
  - lia.
Qed.
Lemma demo_ready : let m := demo_printf demo_fmt in mapped m 500 40 /\ cstr m 100 demo_fmt /\ cstr m 300 [97; 98; 99; 100; 101].
Proof. split; [apply mapped_check; by vm_compute|]. split; apply cstr_check; (by vm_compute) || (cbn; lia). Qed.

Lemma vsnprintf_correct_witness : exists m', vsnprintf 1000 (demo_printf demo_fmt) 500 20 100 [42; 300] = Ret (m', 14) /\ cstr m' 500 demo_out.
Proof.
  destruct demo_ready as (Hm & Hf & Hs), demo_text as (E1 & E2 & E3).
  pose proof (vsnprintf_correct 1000 500 20 100 demo_items [] (demo_printf demo_fmt) ltac:(lia) ltac:(lia) ltac:(lia) ltac:(lia) ltac:(lia)
    ltac:(unfold disjoint; lia) Hm) as T. cbv zeta in T. rewrite E1, E2 in T. change (20 - 1) with 19 in T. rewrite E3 in T.
  destruct T as (m' & Hr & Ho & _).
  - exact Hf.
  - unfold clear_of, disjoint. cbn. lia.
  - repeat apply Forall_cons_2; try apply Forall_nil_2; try (unfold item_ok, char_ok; lia).
    + split; [|split; [|discriminate]].
      * split; [repeat constructor; unfold flag_char; set_solver|lia|discriminate|unfold conv_char; set_solver].
      * split; [by left|]. split; vm_compute; [split; [discriminate|reflexivity]|discriminate].
    + split; [|split].
      * split; [constructor|lia|discriminate|unfold conv_char; set_solver].
      * split; [reflexivity|]. split; [exact Hs|]. split; [cbn; lia|unfold disjoint; cbn; lia].
      * intros a s [= <- <-]. unfold clear_of, disjoint. cbn. lia.
  - exists m'. split; [exact Hr|exact Ho].
Defined.

(** Two strings of five characters into a buffer of eight bytes: ten
    characters and a terminator are written.  ["%%"] prints nothing; a format
    that ends in ["%"] is read past its end; ["%.*s"] takes its arguments and
    prints the letter [s]. *)
Example overflows_buffer : (layout 7 0 [Dir [] 0 None PRINTF_LEN_NONE 115 (AStr 300 [97; 98; 99; 100; 101]);
    Dir [] 0 None PRINTF_LEN_NONE 115 (AStr 300 [97; 98; 99; 100; 101])]).1 = [97; 98; 99; 100; 101; 97; 98; 99; 100; 101] /\
  (exists m, vsnprintf 1000 (demo_printf [49; 37; 37]) 500 20 100 [] = Ret (m, 1)) /\
  vsnprintf 1000 (demo_printf [53; 37]) 500 20 100 [] = Undef.
Proof. split; [|split]; [by vm_compute|eexists; by vm_compute|by vm_compute]. Qed.
