(* ===== verification/Alloc.v ===== *)
(** * The allocator interface

    What the kernel's data structures need from [kmalloc], [kfree] and
    [krealloc], as a type class: its clients are proved against the laws, and
    [Kmalloc] discharges them. *)
From S2P Require Import Prelude.

(** [H] is the allocator's whole state.  A null result is address 0. *)
Class Allocator (H : Type) := {
  kmalloc_ : Z -> H -> outcome (H * Z);
  kcalloc_ : Z -> H -> outcome (H * Z);
  krealloc_ : Z -> Z -> H -> outcome (H * Z);
  kfree_ : Z -> H -> outcome H;
  alloc_wf : H -> Prop;
  live : H -> Z -> option Z }.

Class AllocatorLaws (H : Type) `{Allocator H} := {
  malloc_law h n : alloc_wf h -> 0 < n < 2 ^ 32 ->
    exists h' p, kmalloc_ n h = Ret (h', p) /\ alloc_wf h' /\
      ((p = 0 /\ forall b, live h' b = live h b) \/
       (p <> 0 /\ live h p = None /\ forall b, live h' b = if decide (b = p) then Some n else live h b));
  calloc_law h n : alloc_wf h -> 0 < n < 2 ^ 32 ->
    exists h' p, kcalloc_ n h = Ret (h', p) /\ alloc_wf h' /\
      ((p = 0 /\ forall b, live h' b = live h b) \/
       (p <> 0 /\ live h p = None /\ forall b, live h' b = if decide (b = p) then Some n else live h b));
  realloc_law h p n : alloc_wf h -> 0 < n < 2 ^ 32 -> p = 0 \/ live h p <> None ->
    exists h' q, krealloc_ p n h = Ret (h', q) /\ alloc_wf h' /\
      ((q = 0 /\ forall b, live h' b = live h b) \/
       (q <> 0 /\ (q = p \/ live h q = None) /\
        forall b, live h' b = if decide (b = q) then Some n
                              else if decide (b = p) then None else live h b));
  realloc_zero h p : krealloc_ p 0 h = Ret (h, 0);
  free_law h p : alloc_wf h -> live h p <> None ->
    exists h', kfree_ p h = Ret h' /\ alloc_wf h' /\
      forall b, live h' b = if decide (b = p) then None else live h b;
  live_law h p n : alloc_wf h -> live h p = Some n -> 0 < p < 2 ^ 32 /\ 0 < n < 2 ^ 31;
  disjoint_law h p n q k : alloc_wf h -> live h p = Some n -> live h q = Some k -> p <> q ->
    p + n <= q \/ q + k <= p }.

(** Null is never live. *)
Lemma live_not_null `{AllocatorLaws H} h p : alloc_wf h -> live h p <> None -> p <> 0.
Proof.
  intros Hwf Hl ->. destruct (live h 0) as [n|] eqn:E; [|done].
  destruct (live_law h 0 n Hwf E). lia.
Qed.

(** Page-aligned blocks, and the lowest address a block can have. *)
Class AlignedAllocator (H : Type) `{Allocator H} := {
  kmalloc_aligned_ : Z -> Z -> H -> outcome (H * Z);
  lowest : H -> Z }.

Class AlignedAllocatorLaws (H : Type) `{AlignedAllocator H} := {
  amalloc_law h n e : alloc_wf h -> 0 < n < 2 ^ 32 -> 0 <= e <= 30 ->
    exists h' p, kmalloc_aligned_ n (2 ^ e) h = Ret (h', p) /\ alloc_wf h' /\ lowest h' = lowest h /\
      ((p = 0 /\ forall b, live h' b = live h b) \/
       (p <> 0 /\ (2 ^ e | p) /\ live h p = None /\
        forall b, live h' b = if decide (b = p) then Some n else live h b));
  lowest_law h p : alloc_wf h -> live h p <> None -> lowest h <= p;
  malloc_zero h : kmalloc_ 0 h = Ret (h, 0);
  lowest_kmalloc h n h' p : alloc_wf h -> kmalloc_ n h = Ret (h', p) -> lowest h' = lowest h;
  lowest_krealloc h p n h' q : alloc_wf h -> krealloc_ p n h = Ret (h', q) -> lowest h' = lowest h;
  lowest_kfree h p h' : alloc_wf h -> kfree_ p h = Ret h' -> lowest h' = lowest h;
  lowest_kcalloc h n h' p : alloc_wf h -> kcalloc_ n h = Ret (h', p) -> lowest h' = lowest h }.
