(* ===== verification/Gallocator.v ===== *)
(** * The chunk allocator

    [kernel/mem/gallocator.c] and [heap.c]: a heap is split into three pools of
    fixed-size chunks, each with a bitmap; an allocation takes a run of free
    chunks and the chunk before it, which holds its metadata. *)
From S2P Require Import Prelude Bitwise.
Import Bits Bytes.

(** ** Data *)

Definition LO_POOL_CHUNK_SIZE : Z := 32.
Definition MID_POOL_CHUNK_SIZE : Z := 64.
Definition HI_POOL_CHUNK_SIZE : Z := 128.
Definition HEAP_SIGNATURE : Z := 0xDEAD5160.
Definition ALLOCATION_SIGNATURE : Z := 0xDEADADD5.
Definition PAGESIZE : Z := 4096.

Record Heap := mkHeap { vaddr : Z; pagespan : Z }.

Definition heap_is_addr_inside (addr : Z) (heap : Heap) : bool :=
  let heapsize := u32 (heap.(pagespan) * PAGESIZE) in
  (addr >=? heap.(vaddr)) && (addr <? u32 (heap.(vaddr) + heapsize)).

Record GAllocatorHeapMeta := mkHeapMeta {
  signature : Z;
  lo_bitmap : Z; lo_bitmap_size : Z; lo_pool : Z; lo_poolchunks : Z;
  mid_bitmap : Z; mid_bitmap_size : Z; mid_pool : Z; mid_poolchunks : Z;
  hi_bitmap : Z; hi_bitmap_size : Z; hi_pool : Z; hi_poolchunks : Z }.

Record GAllocationMeta := mkAllocMeta {
  am_signature : Z; size : Z; am_chunksize : Z; alignment : Z }.

Record AllocationCtx := mkCtx {
  bitmapstart : Z; bitmapsize : Z; poolstart : Z; poolchunks : Z; chunksize : Z;
  byte : Z; bit : Z }.

(** [sizeof] of the two metadata structures on i686. *)
Definition sizeof_GAllocatorHeapMeta : Z := 52.
Definition sizeof_GAllocationMeta : Z := 16.

(** The memory of one heap: the metadata at its start, the bytes of each bitmap
    under the bitmap's address, the allocation metadata under the address of
    the structure (16 bytes below the allocation).  The layout theorem shows
    that these never overlap. *)
Record gheap := mkGHeap {
  hmeta : GAllocatorHeapMeta;
  bitmaps : gmap Z (list Z);
  ametas : gmap Z GAllocationMeta }.

(** [ceil(num / den)] in doubles: exact, as [den] is a power of two and [num]
    a 32-bit integer. *)
Definition ceil (num den : Z) : Z :=
  let t := Z.quot num den in
  if t * den =? num then t else Z.quot (num + den) den.

(** ** Positions in a bitmap *)

Definition set_pos (c : AllocationCtx) (byte bit : Z) : AllocationCtx :=
  mkCtx c.(bitmapstart) c.(bitmapsize) c.(poolstart) c.(poolchunks) c.(chunksize) byte bit.

(** [while (bits >= 8) { ++byte; bits -= 8; }]: the number of rounds. *)
Fixpoint advance_loop (k : nat) (bits byte : Z) : Z * Z :=
  match k with
  | O => (bits, byte)
  | S k => if bits >=? 8 then advance_loop k (bits - 8) (u32 (byte + 1)) else (bits, byte)
  end.
Definition allocationctx_advance (bits : Z) (c : AllocationCtx) : AllocationCtx :=
  let '(bits, byte) := advance_loop (Z.to_nat (bits / 8)) bits c.(byte) in
  if u32 (c.(bit) + bits) >=? 8 then
    set_pos c (u32 (byte + 1)) (i8 (u32 (c.(bit) + u32 (bits - 8))))
  else set_pos c byte (i8 (u32 (c.(bit) + bits))).

Definition allocationctx_to_offset (c : AllocationCtx) : Z :=
  u32 (c.(byte) * 8 * c.(chunksize) + c.(bit) * c.(chunksize)).

Definition addr_to_allocationctx_offset (addr : Z) (c : AllocationCtx) : AllocationCtx :=
  let addr := u32 (addr - c.(poolstart)) in
  let totalchunks := addr / c.(chunksize) in
  let byte := totalchunks / 8 in
  set_pos c byte (i8 (u32 (totalchunks - byte * 8))).

Definition is_allocationctx_inside_pool (c : AllocationCtx) : bool :=
  allocationctx_to_offset c <? u32 (c.(poolchunks) * c.(chunksize)).

(** ** Bitmap bytes *)

Definition bm_read (bm : list Z) (byte : Z) : outcome Z := deref (bm !! Z.to_nat byte).

Definition bm_set (bm : list Z) (byte bit : Z) : outcome (list Z) :=
  b ← bm_read bm byte; Ret (<[Z.to_nat byte := u8 (Z.lor b (Z.shiftl 1 bit))]> bm).
Definition bm_clear (bm : list Z) (byte bit : Z) : outcome (list Z) :=
  b ← bm_read bm byte; Ret (<[Z.to_nat byte := u8 (Z.land b (Z.lnot (Z.shiftl 1 bit)))]> bm).

Definition check_bit (bm : list Z) (c : AllocationCtx) : outcome bool :=
  b ← bm_read bm c.(byte); Ret (negb (Z.land b (Z.shiftl 1 c.(bit)) =? 0)).

(** The nested [while] of the three functions that walk a bitmap: bits of one
    byte until bit 7, then the next byte.  [visit] is the body of the inner
    loop; it says whether the function leaves the loops there. *)
Section walk.
Context {S_ : Type} (visit : AllocationCtx -> S_ -> outcome (S_ * bool)).

Fixpoint walk_byte (fuel : nat) (c : AllocationCtx) (s : S_) : outcome (AllocationCtx * S_ * bool) :=
  match fuel with
  | O => Undef
  | S fuel =>
      if is_allocationctx_inside_pool c then
        r ← visit c s;
        if r.2 : bool then Ret (c, r.1, true)
        else if c.(bit) =? 7 then Ret (set_pos c c.(byte) 0, r.1, false)
        else walk_byte fuel (set_pos c c.(byte) (c.(bit) + 1)) r.1
      else Ret (c, s, false)
  end.

Fixpoint walk (fuel : nat) (c : AllocationCtx) (s : S_) : outcome (S_ * bool) :=
  match fuel with
  | O => Undef
  | S fuel =>
      if c.(byte) <? c.(bitmapsize) then
        r ← walk_byte 8 c s;
        if r.2 : bool then Ret (r.1.2, true)
        else walk fuel (set_pos r.1.1 (u32 (r.1.1.(byte) + 1)) r.1.1.(bit)) r.1.2
      else Ret (s, false)
  end.
End walk.

Definition walk_fuel (c : AllocationCtx) : nat := S (Z.to_nat c.(bitmapsize)).

(** The loop body that counts free bits, up to [n] of them. *)
Definition count_visit (bm : list Z) (n : Z) (c : AllocationCtx) (found : Z) : outcome (Z * bool) :=
  set ← check_bit bm c;
  if set : bool then Ret (found, true)
  else let found := u32 (found + 1) in Ret (found, found =? n).

Definition gallocator_has_n_contiguous_bits (bm : list Z) (c : AllocationCtx) (n : Z) : outcome Z :=
  _ ← assert_ (c.(bit) <? 8);
  _ ← assert_ (is_allocationctx_inside_pool c);
  r ← walk (count_visit bm n) (walk_fuel c) c 0;
  _ ← assert_ (r.1 >? 0);
  Ret r.1.

(** The loop body that updates one bit and counts the bits left. *)
Definition update_visit (upd : list Z -> Z -> Z -> outcome (list Z)) (c : AllocationCtx)
    (s : list Z * Z) : outcome ((list Z * Z) * bool) :=
  bm ← upd s.1 c.(byte) c.(bit);
  let bits := u32 (s.2 - 1) in Ret ((bm, bits), bits =? 0).

(** The status and the bitmap that [set_bits] and [clear_bits] leave;
    [upd] is [|=] or [&= ~].  Falling out of the loops hits [ASSERT_NOT_HIT]. *)
Definition bitmap_update_bits (upd : list Z -> Z -> Z -> outcome (list Z))
    (bm : list Z) (c : AllocationCtx) (bits : Z) : outcome (list Z * Z) :=
  if (c.(bit) >? 7) || negb (is_allocationctx_inside_pool c) then Ret (bm, - 22)
  else if negb (is_allocationctx_inside_pool (allocationctx_advance bits c)) then Ret (bm, - 22)
  else if (c.(bit) =? 0) && (c.(byte) =? 0) then Ret (bm, 1)
  else
    bm ← (if c.(bit) =? 0 then upd bm (c.(byte) - 1) 7 else upd bm c.(byte) (c.(bit) - 1));
    r ← walk (update_visit upd) (walk_fuel c) c (bm, bits);
    if r.2 : bool then Ret (r.1.1, 0) else Panic.

Definition gallocator_bitmap_set_bits := bitmap_update_bits bm_set.
Definition gallocator_bitmap_clear_bits := bitmap_update_bits bm_clear.

(** Find a free chunk, aligned, with a free chunk before it. *)
Fixpoint find_loop (fuel : nat) (bm : list Z) (step : Z) (c : AllocationCtx)
    : outcome (bool * AllocationCtx) :=
  match fuel with
  | O => Undef
  | S fuel =>
      if (c.(byte) <? c.(bitmapsize)) && is_allocationctx_inside_pool c then
        ok ← check_bit bm c;
        if (c.(bit) =? 0) && (c.(byte) =? 0) then find_loop fuel bm step (allocationctx_advance step c)
        else
          let tmp := if c.(bit) =? 0 then set_pos c (c.(byte) - 1) 7
                     else set_pos c c.(byte) (c.(bit) - 1) in
          ok' ← check_bit bm tmp;
          if negb ok && negb ok' then Ret (true, c)
          else find_loop fuel bm step (allocationctx_advance step c)
      else Ret (false, c)
  end.

Definition find_fuel (c : AllocationCtx) : nat := S (Z.to_nat (8 * c.(bitmapsize))).

Definition gallocator_find_start_aligned (bm : list Z) (alignment : Z) (c : AllocationCtx)
    : outcome (bool * AllocationCtx) :=
  let starting_address := u32 (c.(poolstart) + allocationctx_to_offset c) in
  c ← (if negb (starting_address mod alignment =? 0) then
         let starting_address := u32 (bytes_align_up64 starting_address alignment) in
         _ ← assert_ (starting_address mod alignment =? 0);
         Ret (addr_to_allocationctx_offset starting_address c)
       else Ret c);
  find_loop (find_fuel c) bm (u32 (ceil alignment c.(chunksize))) c.

(** ** Allocation *)

Definition alloc_ctx (size : Z) (meta : GAllocatorHeapMeta) : AllocationCtx :=
  if size >=? HI_POOL_CHUNK_SIZE then
    mkCtx meta.(hi_bitmap) meta.(hi_bitmap_size) meta.(hi_pool) meta.(hi_poolchunks) HI_POOL_CHUNK_SIZE 0 0
  else if size >=? MID_POOL_CHUNK_SIZE then
    mkCtx meta.(mid_bitmap) meta.(mid_bitmap_size) meta.(mid_pool) meta.(mid_poolchunks) MID_POOL_CHUNK_SIZE 0 0
  else
    mkCtx meta.(lo_bitmap) meta.(lo_bitmap_size) meta.(lo_pool) meta.(lo_poolchunks) LO_POOL_CHUNK_SIZE 0 0.

Fixpoint search_loop (fuel : nat) (bm : list Z) (alignment chunksneeded : Z) (c : AllocationCtx)
    : outcome (option AllocationCtx) :=
  match fuel with
  | O => Undef
  | S fuel =>
      r ← gallocator_find_start_aligned bm alignment c;
      if r.1 : bool then
        let c := r.2 in
        if chunksneeded =? 1 then Ret (Some c)
        else
          chunksfound ← gallocator_has_n_contiguous_bits bm c chunksneeded;
          if chunksfound =? chunksneeded then Ret (Some c)
          else search_loop fuel bm alignment chunksneeded (allocationctx_advance chunksfound c)
      else Ret None
  end.

Definition gallocator_do_alloc_aligned (size alignment : Z) (h : gheap) : outcome (gheap * Z) :=
  let c := alloc_ctx size h.(hmeta) in
  let chunksneeded := u32 (ceil size c.(chunksize)) in
  bm ← deref (h.(bitmaps) !! c.(bitmapstart));
  r ← search_loop (find_fuel c) bm alignment chunksneeded c;
  match r with
  | None => Ret (h, 0)
  | Some c =>
      r ← gallocator_bitmap_set_bits bm c chunksneeded;
      let '(bm, st) := r : list Z * Z in
      let h := mkGHeap h.(hmeta) (<[c.(bitmapstart) := bm]> h.(bitmaps)) h.(ametas) in
      if negb (st =? 0) then Ret (h, 0)
      else
        let addr := u32 (c.(poolstart) + allocationctx_to_offset c) in
        let allocmeta := mkAllocMeta ALLOCATION_SIGNATURE size c.(chunksize) alignment in
        Ret (mkGHeap h.(hmeta) h.(bitmaps)
               (<[addr - sizeof_GAllocationMeta := allocmeta]> h.(ametas)), addr)
  end.

Definition gallocator_alloc_aligned (size alignment : Z) (h : gheap) : outcome (gheap * Z) :=
  if negb (h.(hmeta).(signature) =? HEAP_SIGNATURE) then Ret (h, 0)
  else gallocator_do_alloc_aligned size alignment h.

(** The metadata below [addr]; bytes that no allocation wrote carry no
    signature. *)
Definition allocmeta_of (addr : Z) (h : gheap) : option GAllocationMeta :=
  match h.(ametas) !! (addr - sizeof_GAllocationMeta) with
  | Some am => if am.(am_signature) =? ALLOCATION_SIGNATURE then Some am else None
  | None => None
  end.

Definition gallocator_allocation_size (addr : Z) (h : gheap) : Z :=
  if negb (h.(hmeta).(signature) =? HEAP_SIGNATURE) then - 22
  else match allocmeta_of addr h with Some am => i32 am.(size) | None => - 22 end.

Definition gallocator_allocation_alignment (addr : Z) (h : gheap) : Z :=
  if negb (h.(hmeta).(signature) =? HEAP_SIGNATURE) then - 22
  else match allocmeta_of addr h with Some am => i32 am.(alignment) | None => - 22 end.

Definition gallocator_is_valid_allocation (addr : Z) (h : gheap) : bool := true.

Definition free_ctx (chunksize : Z) (meta : GAllocatorHeapMeta) : outcome AllocationCtx :=
  if chunksize =? LO_POOL_CHUNK_SIZE then
    Ret (mkCtx meta.(lo_bitmap) meta.(lo_bitmap_size) meta.(lo_pool) meta.(lo_poolchunks) chunksize 0 0)
  else if chunksize =? MID_POOL_CHUNK_SIZE then
    Ret (mkCtx meta.(mid_bitmap) meta.(mid_bitmap_size) meta.(mid_pool) meta.(mid_poolchunks) chunksize 0 0)
  else if chunksize =? HI_POOL_CHUNK_SIZE then
    Ret (mkCtx meta.(hi_bitmap) meta.(hi_bitmap_size) meta.(hi_pool) meta.(hi_poolchunks) chunksize 0 0)
  else Panic.

(** [memset] over the metadata and the allocation erases every metadata
    structure in the range. *)
Definition erase_range (lo len : Z) (m : gmap Z GAllocationMeta) : gmap Z GAllocationMeta :=
  filter (fun '(a, _) => ~ (lo <= a < lo + len)) m.

Definition gallocator_free (addr : Z) (h : gheap) : outcome gheap :=
  if negb (h.(hmeta).(signature) =? HEAP_SIGNATURE) then Ret h
  else match allocmeta_of addr h with
  | None => Panic
  | Some am =>
      c ← free_ctx am.(am_chunksize) h.(hmeta);
      let chunks := u32 (ceil am.(size) am.(am_chunksize)) in
      let c := addr_to_allocationctx_offset addr c in
      bm ← deref (h.(bitmaps) !! c.(bitmapstart));
      r ← gallocator_bitmap_clear_bits bm c chunks;
      _ ← assert_ (r.2 =? 0);
      Ret (mkGHeap h.(hmeta) (<[c.(bitmapstart) := r.1]> h.(bitmaps))
             (erase_range (addr - sizeof_GAllocationMeta)
                (u32 (am.(size) + sizeof_GAllocationMeta)) h.(ametas)))
  end.

(** ** Heap initialisation *)

Definition gallocator_init : Z := 0.

(** [align_pool]: the pool start moves up to a chunk boundary, and one chunk is
    given up when it moved. *)
Definition align_pool (pool chunks chunk : Z) : Z * Z :=
  let tmp := u32 (bytes_align_up64 pool chunk) in
  (tmp, u32 (chunks - if negb (tmp =? pool) then 1 else 0)).

(** The status and the metadata stored at [heap->vaddr]; nothing else is
    written, in particular not the bitmaps. *)
Definition gallocator_init_heap (heap : Heap) : outcome (option GAllocatorHeapMeta * Z) :=
  let heapsize := u32 (heap.(pagespan) * PAGESIZE) in
  let metasize := u32 (bytes_align_up64 sizeof_GAllocatorHeapMeta HI_POOL_CHUNK_SIZE) in
  if heapsize <=? metasize then Ret (None, - 12)
  else
    let heapsize := u32 (heapsize - metasize) in
    let lo_pool_size := heapsize / 4 in
    let mid_pool_size := heapsize / 4 in
    let hi_pool_size := heapsize / 2 in
    let lo_poolchunks := lo_pool_size / LO_POOL_CHUNK_SIZE in
    let mid_poolchunks := mid_pool_size / MID_POOL_CHUNK_SIZE in
    let hi_poolchunks := hi_pool_size / HI_POOL_CHUNK_SIZE in
    let lo_bitmap_size := u32 (ceil lo_poolchunks 8) in
    let mid_bitmap_size := u32 (ceil mid_poolchunks 8) in
    let hi_bitmap_size := u32 (ceil hi_poolchunks 8) in
    let heapsize := u32 (heapsize - u32 (lo_bitmap_size + mid_bitmap_size + hi_bitmap_size)) in
    let lo_pool_size := heapsize / 4 in
    let mid_pool_size := heapsize / 4 in
    let hi_pool_size := heapsize / 2 in
    let lo_poolchunks := lo_pool_size / LO_POOL_CHUNK_SIZE in
    let mid_poolchunks := mid_pool_size / MID_POOL_CHUNK_SIZE in
    let hi_poolchunks := hi_pool_size / HI_POOL_CHUNK_SIZE in
    let bitmap_heap_start := u32 (heap.(vaddr) + metasize) in
    let lo_bitmap := bitmap_heap_start in
    let mid_bitmap := u32 (bitmap_heap_start + lo_bitmap_size) in
    let hi_bitmap := u32 (bitmap_heap_start + lo_bitmap_size + mid_bitmap_size) in
    let hi_pool := u32 (hi_bitmap + hi_bitmap_size) in
    let mid_pool := u32 (hi_pool + hi_poolchunks * HI_POOL_CHUNK_SIZE) in
    let lo_pool := u32 (mid_pool + mid_poolchunks * MID_POOL_CHUNK_SIZE) in
    let '(hi_pool, hi_poolchunks) := align_pool hi_pool hi_poolchunks HI_POOL_CHUNK_SIZE in
    let '(mid_pool, mid_poolchunks) := align_pool mid_pool mid_poolchunks MID_POOL_CHUNK_SIZE in
    let '(lo_pool, lo_poolchunks) := align_pool lo_pool lo_poolchunks LO_POOL_CHUNK_SIZE in
    _ ← assert_ (lo_pool mod LO_POOL_CHUNK_SIZE =? 0);
    _ ← assert_ (mid_pool mod MID_POOL_CHUNK_SIZE =? 0);
    _ ← assert_ (hi_pool mod HI_POOL_CHUNK_SIZE =? 0);
    Ret (Some (mkHeapMeta HEAP_SIGNATURE
                 lo_bitmap lo_bitmap_size lo_pool lo_poolchunks
                 mid_bitmap mid_bitmap_size mid_pool mid_poolchunks
                 hi_bitmap hi_bitmap_size hi_pool hi_poolchunks), 0).

(** The heap whose pages hold [meta] and, elsewhere, zeros. *)
Definition zeroed_heap (meta : GAllocatorHeapMeta) : gheap :=
  mkGHeap meta
    (<[meta.(hi_bitmap) := replicate (Z.to_nat meta.(hi_bitmap_size)) 0]>
     (<[meta.(mid_bitmap) := replicate (Z.to_nat meta.(mid_bitmap_size)) 0]>
      (<[meta.(lo_bitmap) := replicate (Z.to_nat meta.(lo_bitmap_size)) 0]> ∅)))
    ∅.

(** ** Positions as chunk indices *)

Definition at_ (c : AllocationCtx) (i : Z) : AllocationCtx := set_pos c (i / 8) (i mod 8).

(** The static part of a context: a pool that fits the address space and a
    bitmap with at least one bit per chunk. *)
Record ctx_ok (c : AllocationCtx) : Prop := {
  ok_chunk : 0 < c.(chunksize) <= 128;
  ok_chunks : 0 <= c.(poolchunks) <= 8 * c.(bitmapsize);
  ok_bitmap : 8 * c.(bitmapsize) * c.(chunksize) < 2 ^ 32 }.

Lemma at_at c i j : at_ (at_ c i) j = at_ c j.
Proof. done. Qed.

Lemma set_pos_at c i b t : set_pos (at_ c i) b t = set_pos c b t.
Proof. done. Qed.

Lemma ctx_ok_at c i : ctx_ok c -> ctx_ok (at_ c i).
Proof. intros []. by split. Qed.

Lemma div_mod_8 i : i = 8 * (i / 8) + i mod 8 /\ 0 <= i mod 8 < 8.
Proof. pose proof (Z.div_mod i 8). pose proof (Z.mod_pos_bound i 8). lia. Qed.

Lemma at_eq c b t : 0 <= t < 8 -> set_pos c b t = at_ c (8 * b + t).
Proof.
  intros Ht. unfold at_. rewrite (Z.mul_comm 8 b), Z.add_comm, Z.div_add, Z_mod_plus_full,
    Z.div_small, Z.mod_small by lia. done.
Qed.

Lemma advance_loop_spec k : forall bits b, Z.of_nat k = bits / 8 -> 0 <= bits -> 0 <= b ->
  b + bits / 8 < 2 ^ 32 -> advance_loop k bits b = (bits mod 8, b + bits / 8).
Proof.
  induction k as [|k IH]; intros bits b Hk Hb Hb0 Hlt; cbn [advance_loop];
    pose proof (div_mod_8 bits).
  - rewrite <- Hk. f_equal; lia.
  - rewrite Z.geb_leb. rewrite (proj2 (Z.leb_le 8 bits)) by lia.
    assert (Hd : (bits - 8) / 8 = bits / 8 - 1).
    { replace (bits - 8) with (bits + (-1) * 8) by lia. rewrite Z.div_add by lia. lia. }
    rewrite u32_small by (unfold is_u32; lia). rewrite IH by lia. rewrite Hd. f_equal; [|lia].
    replace (bits - 8) with (bits + (-1) * 8) by lia. apply Z_mod_plus_full.
Qed.

Lemma advance_at c i n : 0 <= i -> 0 <= n -> i + n < 2 ^ 32 ->
  allocationctx_advance n (at_ c i) = at_ c (i + n).
Proof.
  intros Hi Hn Hlt. unfold allocationctx_advance. cbn [byte bit at_ set_pos].
  pose proof (div_mod_8 i). pose proof (div_mod_8 n). pose proof (Z.div_pos n 8).
  rewrite advance_loop_spec by (rewrite ?Z2Nat.id; lia).
  rewrite (u32_small (i mod 8 + n mod 8)) by (unfold is_u32; lia). rewrite Z.geb_leb. case_cond.
  - replace (u32 (i mod 8 + u32 (n mod 8 - 8))) with (i mod 8 + n mod 8 - 8).
    2:{ unfold u32. rewrite Zplus_mod_idemp_r. rewrite (Z.mod_small (_ + (_ - 8))); lia. }
    rewrite u32_small by (unfold is_u32; lia).
    rewrite i8_small by lia.
    rewrite set_pos_at, at_eq by lia. f_equal. lia.
  - rewrite i8_small by lia.
    rewrite set_pos_at, at_eq by lia. f_equal. lia.
Qed.

Lemma to_offset_at c i : 0 <= i -> 0 <= i * c.(chunksize) < 2 ^ 32 ->
  allocationctx_to_offset (at_ c i) = i * c.(chunksize).
Proof.
  intros Hi Hlt. unfold allocationctx_to_offset. cbn [byte bit at_ set_pos chunksize].
  pose proof (div_mod_8 i). rewrite u32_small; unfold is_u32; nia.
Qed.

Lemma inside_at c i : ctx_ok c -> 0 <= i <= 8 * c.(bitmapsize) ->
  is_allocationctx_inside_pool (at_ c i) = (i <? c.(poolchunks)).
Proof.
  intros [] Hi. unfold is_allocationctx_inside_pool.
  rewrite to_offset_at by nia. cbn [poolchunks chunksize at_ set_pos].
  rewrite u32_small by (unfold is_u32; nia).
  destruct (i <? c.(poolchunks)) eqn:E; reflect_bools; [apply Z.ltb_lt|apply Z.ltb_ge]; nia.
Qed.

(** ** Walking the bitmap is visiting the indices up to the pool's end *)
Section walk_spec.
Context {S_ : Type} (visit : AllocationCtx -> S_ -> outcome (S_ * bool)).

Fixpoint iter (k : nat) (c : AllocationCtx) (i : Z) (s : S_) : outcome (S_ * bool) :=
  match k with
  | O => Ret (s, false)
  | S k => r ← visit (at_ c i) s; if r.2 : bool then Ret (r.1, true) else iter k c (i + 1) r.1
  end.

(** One byte: the bits from [i] to the byte's end, or to the pool's end. *)
Lemma walk_byte_iter c : ctx_ok c -> forall fuel i s k,
  0 <= i <= 8 * c.(bitmapsize) -> 8 - i mod 8 <= Z.of_nat fuel -> i / 8 < c.(bitmapsize) ->
  Z.of_nat k = Z.max 0 (c.(poolchunks) - i) ->
  iter k c i s = (r ← walk_byte visit fuel (at_ c i) s;
    if r.2 : bool then Ret (r.1.2, true)
    else iter (k - Z.to_nat (8 * (i / 8 + 1) - i)) c (8 * (i / 8 + 1)) r.1.2) /\
  (forall r, walk_byte visit fuel (at_ c i) s = Ret r -> r.2 = false ->
     exists t, 0 <= t < 8 /\ r.1.1 = set_pos c (i / 8) t /\
       (t = 0 \/ c.(poolchunks) <= 8 * (i / 8) + t)).
Proof.
  intros Hok. induction fuel as [|fuel IH]; intros i s k Hi Hf Hb Hk; pose proof (div_mod_8 i); [lia|].
  cbn [walk_byte]. rewrite inside_at by done. cbn [bit byte at_ set_pos].
  destruct (i <? c.(poolchunks)) eqn:Ein; reflect_bools.
  - destruct k as [|k]; [lia|]. cbn [iter].
    destruct (visit (at_ c i) s) as [[s' done_]| |] eqn:Ev; cbn; [|by split|by split].
    destruct done_; [split; [done|intros ? [= <-]; done]|].
    destruct (i mod 8 =? 7) eqn:E7; reflect_bools.
    + split.
      * rewrite bind_Ret. cbn [fst snd].
        replace (S k - Z.to_nat (8 * (i / 8 + 1) - i))%nat with k by lia. f_equal. lia.
      * intros ? [= <-] _. exists 0. split; [lia|]. split; [done|by left].
    + assert (Hd : (i + 1) / 8 = i / 8) by (symmetry; apply (Z.div_unique_pos _ _ _ (i mod 8 + 1)); lia).
      assert (Hm : (i + 1) mod 8 = i mod 8 + 1) by (symmetry; apply (Z.mod_unique_pos _ _ (i / 8)); lia).
      assert (Hat : set_pos (at_ c i) (i / 8) (i mod 8 + 1) = at_ c (i + 1)) by (unfold at_; by rewrite Hd, Hm).
      rewrite Hat. destruct (IH (i + 1) s' k) as [IH1 IH2]; try lia.
      rewrite Hd in IH1, IH2. split; [|done].
      replace (S k - Z.to_nat (8 * (i / 8 + 1) - i))%nat
        with (k - Z.to_nat (8 * (i / 8 + 1) - (i + 1)))%nat by lia. exact IH1.
  - cbn. assert (k = 0%nat) as -> by lia. split; [done|].
    intros ? [= <-] _. exists (i mod 8). split; [lia|]. split; [done|right]. lia.
Qed.

Lemma walk_past_end c fuel b t s : ctx_ok c -> 0 <= t < 8 -> 0 <= b ->
  c.(poolchunks) <= 8 * b + t ->
  Z.max 0 (c.(bitmapsize) - b) < Z.of_nat fuel -> walk visit fuel (set_pos c b t) s = Ret (s, false).
Proof.
  intros Hok Ht. revert b. induction fuel as [|fuel IH]; intros b Hb Hp Hf; cbn [walk].
  - lia.
  - cbn [byte bitmapsize set_pos]. case_cond; [|done].
    assert (E : walk_byte visit 8 (set_pos c b t) s = Ret (set_pos c b t, s, false)).
    { rewrite at_eq by done. cbn [walk_byte]. rewrite inside_at by (done || lia).
      by rewrite (proj2 (Z.ltb_ge _ _)) by lia. }
    rewrite E, bind_Ret. cbn [fst snd byte bit set_pos].
    destruct Hok. rewrite u32_small by (unfold is_u32; nia). apply IH; lia.
Qed.

Lemma walk_iter c : ctx_ok c -> forall fuel i s k,
  0 <= i -> Z.max 0 (c.(bitmapsize) - i / 8) < Z.of_nat fuel ->
  Z.of_nat k = Z.max 0 (c.(poolchunks) - i) ->
  walk visit fuel (at_ c i) s = iter k c i s.
Proof.
  intros Hok. pose proof (ok_chunks c Hok). pose proof (ok_bitmap c Hok). pose proof (ok_chunk c Hok).
  induction fuel as [|fuel IH]; intros i s k Hi Hf Hk; [lia|].
  pose proof (div_mod_8 i). cbn [walk].
  cbn [byte bitmapsize at_ set_pos]. case_cond.
  - destruct (walk_byte_iter c Hok 8 i s k) as [Hw Hw2]; try lia. rewrite Hw.
    destruct (walk_byte visit 8 (at_ c i) s) as [[[c' s'] done_]| |] eqn:Ew; cbn; [|done|done].
    destruct done_; [done|].
    destruct (Hw2 _ eq_refl eq_refl) as (t & Ht & Hc' & Hend). cbn in Hc'. subst c'. cbn [byte bit set_pos].
    rewrite u32_small by (unfold is_u32; nia).
    destruct (decide (t = 0)) as [->|Hne].
    + change (set_pos (set_pos c (i / 8) 0) (i / 8 + 1) 0) with (set_pos c (i / 8 + 1) 0).
      rewrite at_eq by lia. rewrite Z.add_0_r.
      apply IH; try lia.
      replace (8 * (i / 8 + 1) / 8) with (i / 8 + 1) by (rewrite Z.mul_comm, Z.div_mul; lia). lia.
    + change (set_pos (set_pos c (i / 8) t) (i / 8 + 1) t) with (set_pos c (i / 8 + 1) t).
      rewrite walk_past_end; try done || lia.
      destruct (k - _)%nat eqn:Ek; [done|lia].
  - assert (k = 0%nat) as -> by lia. done.
Qed.
End walk_spec.

(** ** Bits of a bitmap *)

Definition bm_ok (c : AllocationCtx) (bm : list Z) : Prop :=
  Z.of_nat (length bm) = c.(bitmapsize) /\ Forall is_u8 bm.

Definition bm_bit (bm : list Z) (i : Z) : bool :=
  Z.testbit (default 0 (bm !! Z.to_nat (i / 8))) (i mod 8).

Lemma bm_lookup c bm i : bm_ok c bm -> 0 <= i < 8 * c.(bitmapsize) ->
  exists b, bm !! Z.to_nat (i / 8) = Some b /\ is_u8 b.
Proof.
  intros [Hl Hb] Hi. pose proof (div_mod_8 i).
  destruct (lookup_lt_is_Some_2 bm (Z.to_nat (i / 8)) ltac:(lia)) as [b E].
  exists b. split; [done|]. by eapply Forall_lookup_1 in Hb.
Qed.

Lemma land_bit_test b t : 0 <= t -> negb (Z.land b (Z.shiftl 1 t) =? 0) = Z.testbit b t.
Proof.
  intros Ht. rewrite Z.shiftl_1_l. destruct (Z.testbit b t) eqn:E.
  - apply negb_true_iff, Z.eqb_neq. intros H.
    assert (Hb : Z.testbit (Z.land b (2 ^ t)) t = true) by (rewrite Z.land_spec, E, Z.pow2_bits_true by lia; done).
    rewrite H, Z.bits_0 in Hb. done.
  - apply negb_false_iff, Z.eqb_eq, Z.bits_inj'. intros k Hk.
    rewrite Z.land_spec, Z.bits_0, testbit_pow2 by lia.
    destruct (t =? k) eqn:F; [apply Z.eqb_eq in F; subst; by rewrite E|apply andb_false_r].
Qed.

Lemma check_bit_at c bm i : bm_ok c bm -> 0 <= i < 8 * c.(bitmapsize) ->
  check_bit bm (at_ c i) = Ret (bm_bit bm i).
Proof.
  intros Hbm Hi. destruct (bm_lookup c bm i Hbm Hi) as (b & Hb & _).
  unfold check_bit, bm_read, bm_bit. cbn [byte bit at_ set_pos]. rewrite Hb. cbn [deref].
  rewrite bind_Ret, land_bit_test by (pose proof (div_mod_8 i); lia). done.
Qed.

(** [upd] writes [v] to one bit and leaves the others. *)
Definition upd_spec (upd : list Z -> Z -> Z -> outcome (list Z)) (v : bool) : Prop :=
  forall c bm i, bm_ok c bm -> 0 <= i < 8 * c.(bitmapsize) ->
  exists bm', upd bm (i / 8) (i mod 8) = Ret bm' /\ bm_ok c bm' /\
    forall j, 0 <= j -> bm_bit bm' j = if i =? j then v else bm_bit bm j.

Lemma bm_bit_insert c bm i x j : bm_ok c bm -> 0 <= i < 8 * c.(bitmapsize) -> 0 <= j ->
  bm_bit (<[Z.to_nat (i / 8) := x]> bm) j =
  if i / 8 =? j / 8 then Z.testbit x (j mod 8) else bm_bit bm j.
Proof.
  intros [Hl _] Hi Hj. unfold bm_bit. pose proof (div_mod_8 i). pose proof (div_mod_8 j). case_cond.
  - rewrite Heqb, list_lookup_insert_eq by lia. done.
  - rewrite list_lookup_insert_ne by lia. done.
Qed.

Lemma bm_ok_insert c bm k x : bm_ok c bm -> is_u8 x -> bm_ok c (<[k := x]> bm).
Proof. intros [Hl Hb] Hx. split; [by rewrite length_insert|by apply Forall_insert]. Qed.

Lemma same_bit i j : (i =? j) = (i / 8 =? j / 8) && (i mod 8 =? j mod 8).
Proof.
  pose proof (div_mod_8 i). pose proof (div_mod_8 j).
  destruct (i =? j) eqn:E; reflect_bools.
  - subst. by rewrite !Z.eqb_refl.
  - symmetry. apply andb_false_iff. destruct (Z.eq_dec (i / 8) (j / 8)); [right|left]; apply Z.eqb_neq; lia.
Qed.

Lemma bm_set_spec : upd_spec bm_set true.
Proof.
  intros c bm i Hbm Hi. destruct (bm_lookup c bm i Hbm Hi) as (b & Hb & Hb8).
  pose proof (div_mod_8 i). unfold bm_set, bm_read. rewrite Hb. cbn [deref]. rewrite bind_Ret.
  eexists. split; [done|]. split; [apply bm_ok_insert; [done|apply u8_range]|].
  intros j Hj. rewrite (bm_bit_insert c) by done. pose proof (div_mod_8 j).
  rewrite (same_bit i j). destruct (i / 8 =? j / 8) eqn:E; cbn [andb]; [|done]. reflect_bools.
  unfold u8. rewrite testbit_mod, Z.lor_spec, Z.shiftl_1_l, testbit_pow2 by lia.
  rewrite (proj2 (Z.ltb_lt (j mod 8) 8)) by lia. cbn [andb].
  unfold bm_bit. rewrite <- E, Hb. cbn [default]. destruct (_ =? _); [apply orb_true_r|apply orb_false_r].
Qed.

Lemma bm_clear_spec : upd_spec bm_clear false.
Proof.
  intros c bm i Hbm Hi. destruct (bm_lookup c bm i Hbm Hi) as (b & Hb & Hb8).
  pose proof (div_mod_8 i). unfold bm_clear, bm_read. rewrite Hb. cbn [deref]. rewrite bind_Ret.
  eexists. split; [done|]. split; [apply bm_ok_insert; [done|apply u8_range]|].
  intros j Hj. rewrite (bm_bit_insert c) by done. pose proof (div_mod_8 j).
  rewrite (same_bit i j). destruct (i / 8 =? j / 8) eqn:E; cbn [andb]; [|done]. reflect_bools.
  unfold u8. rewrite testbit_mod, Z.land_spec, Z.lnot_spec, Z.shiftl_1_l, testbit_pow2 by lia.
  rewrite (proj2 (Z.ltb_lt (j mod 8) 8)) by lia. cbn [andb].
  unfold bm_bit. rewrite <- E, Hb. cbn [default]. destruct (_ =? _); [apply andb_false_r|apply andb_true_r].
Qed.

(** ** Runs of free chunks *)

Lemma count_visit_at c bm n i found : bm_ok c bm -> 0 <= i < 8 * c.(bitmapsize) ->
  count_visit bm n (at_ c i) found =
  if bm_bit bm i then Ret (found, true) else Ret (u32 (found + 1), u32 (found + 1) =? n).
Proof. intros. unfold count_visit. by rewrite (check_bit_at c bm i). Qed.

Lemma has_n_iter c bm n : ctx_ok c -> bm_ok c bm -> 1 <= n < 2 ^ 32 -> forall k i found,
  Z.of_nat k = c.(poolchunks) - i -> 0 <= i -> 0 <= found < n ->
  exists r, iter (count_visit bm n) k c i found = Ret r /\
    found <= r.1 <= n /\ i + (r.1 - found) <= c.(poolchunks) /\
    (forall j, i <= j < i + (r.1 - found) -> bm_bit bm j = false) /\
    (r.1 < n -> i + (r.1 - found) = c.(poolchunks) \/ bm_bit bm (i + (r.1 - found)) = true).
Proof.
  intros Hok Hbm Hn. induction k as [|k IH]; intros i found Hk Hi Hf; cbn [iter].
  - eexists. split; [done|]. cbn. split; [lia|]. split; [lia|]. split; [lia|]. left. lia.
  - pose proof (ok_chunks c Hok). rewrite (count_visit_at c) by (done || lia).
    destruct (bm_bit bm i) eqn:Eb.
    + cbn. eexists. split; [done|]. cbn. split; [lia|]. split; [lia|]. split; [lia|].
      right. by replace (i + (found - found)) with i by lia.
    + rewrite bind_Ret. cbn [fst snd]. rewrite u32_small by (unfold is_u32; lia).
      destruct (found + 1 =? n) eqn:En; reflect_bools.
      * eexists. split; [done|]. cbn. split; [lia|]. split; [lia|].
        split; [intros j Hj; by replace j with i by lia|lia].
      * destruct (IH (i + 1) (found + 1)) as (r & Hr & H1 & H2 & H3 & H4); try lia.
        exists r. split; [exact Hr|]. split; [lia|]. split; [lia|].
        replace (i + (r.1 - found)) with (i + 1 + (r.1 - (found + 1))) by lia.
        split; [|done]. intros j Hj. destruct (decide (j = i)) as [->|]; [done|apply H3; lia].
Qed.

Lemma walk_fuel_enough c i : 0 <= i -> Z.max 0 (c.(bitmapsize) - i / 8) < Z.of_nat (walk_fuel c).
Proof. intros. unfold walk_fuel. pose proof (Z.div_pos i 8). lia. Qed.

Lemma has_n_spec c bm i n : ctx_ok c -> bm_ok c bm -> 1 <= n < 2 ^ 32 ->
  0 <= i < c.(poolchunks) -> bm_bit bm i = false ->
  exists r, gallocator_has_n_contiguous_bits bm (at_ c i) n = Ret r /\
    1 <= r <= n /\ i + r <= c.(poolchunks) /\ (forall j, i <= j < i + r -> bm_bit bm j = false) /\
    (r < n -> i + r = c.(poolchunks) \/ bm_bit bm (i + r) = true).
Proof.
  intros Hok Hbm Hn Hi Hfree. unfold gallocator_has_n_contiguous_bits.
  pose proof (ok_chunks c Hok). pose proof (div_mod_8 i).
  cbn [bit at_ set_pos]. rewrite (proj2 (Z.ltb_lt _ 8)) by lia. cbn [assert_]. rewrite bind_Ret.
  change (set_pos c (i / 8) (i mod 8)) with (at_ c i).
  rewrite inside_at, (proj2 (Z.ltb_lt _ _)) by (done || lia). cbn [assert_]. rewrite bind_Ret.
  rewrite (walk_iter _ c Hok _ _ _ (Z.to_nat (c.(poolchunks) - i))) by first [apply (walk_fuel_enough c i); lia | lia].
  destruct (has_n_iter c bm n Hok Hbm Hn (Z.to_nat (c.(poolchunks) - i)) i 0)
    as (r & -> & H1 & H2 & H3 & H4); try lia.
  rewrite Z.sub_0_r in *. rewrite bind_Ret.
  assert (1 <= r.1).
  { destruct (decide (r.1 = 0)) as [E|]; [|lia]. rewrite E, Z.add_0_r in H4.
    destruct H4; [lia|lia|congruence]. }
  rewrite Z.gtb_ltb, (proj2 (Z.ltb_lt 0 _)) by lia. cbn [assert_]. rewrite bind_Ret.
  exists r.1. repeat split; try done; lia.
Qed.

(** ** Marking and clearing a run *)

Lemma update_iter upd v c : upd_spec upd v -> ctx_ok c -> forall k i bm bits,
  bm_ok c bm -> Z.of_nat k = c.(poolchunks) - i -> 0 <= i -> 1 <= bits <= Z.of_nat k -> bits < 2 ^ 32 ->
  exists bm', iter (update_visit upd) k c i (bm, bits) = Ret ((bm', 0), true) /\
    bm_ok c bm' /\
    forall j, 0 <= j -> bm_bit bm' j = if (i <=? j) && (j <? i + bits) then v else bm_bit bm j.
Proof.
  intros Hupd Hok. pose proof (ok_chunks c Hok).
  induction k as [|k IH]; intros i bm bits Hbm Hk Hi Hb Hb32; [lia|]. cbn [iter].
  destruct (Hupd c bm i Hbm ltac:(lia)) as (bm1 & Hu & Hbm1 & Hbits1).
  assert (update_visit upd (at_ c i) (bm, bits) = Ret ((bm1, u32 (bits - 1)), u32 (bits - 1) =? 0)) as ->.
  { unfold update_visit. cbn [byte bit at_ set_pos fst snd]. by rewrite Hu. }
  rewrite !bind_Ret. cbn [fst snd]. rewrite u32_small by (unfold is_u32; lia).
  destruct (bits - 1 =? 0) eqn:E; reflect_bools.
  - exists bm1. rewrite E. split; [done|]. split; [done|]. intros j Hj. rewrite Hbits1 by done.
    destruct (i =? j) eqn:Eij; reflect_bools.
    + by rewrite (proj2 (Z.leb_le i j)), (proj2 (Z.ltb_lt j (i + bits))) by lia.
    + destruct ((i <=? j) && (j <? i + bits)) eqn:F; [reflect_bools; lia|done].
  - destruct (IH (i + 1) bm1 (bits - 1) Hbm1) as (bm2 & Hit & Hbm2 & Hbits2); try lia.
    exists bm2. split; [exact Hit|]. split; [done|]. intros j Hj. rewrite Hbits2, Hbits1 by done.
    destruct (i =? j) eqn:Eij; reflect_bools.
    + subst. rewrite (proj2 (Z.leb_gt (j + 1) j)) by lia. cbn [andb].
      by rewrite (proj2 (Z.leb_le j j)), (proj2 (Z.ltb_lt j (j + bits))) by lia.
    + replace (i + 1 + (bits - 1)) with (i + bits) by lia.
      destruct (i <=? j) eqn:F; reflect_bools.
      * by rewrite (proj2 (Z.leb_le (i + 1) j)) by lia.
      * by rewrite (proj2 (Z.leb_gt (i + 1) j)) by lia.
Qed.

Lemma update_bits_spec upd v c bm i n : upd_spec upd v -> ctx_ok c -> bm_ok c bm ->
  1 <= i -> 1 <= n -> i + n < c.(poolchunks) ->
  exists bm', bitmap_update_bits upd bm (at_ c i) n = Ret (bm', 0) /\ bm_ok c bm' /\
    forall j, 0 <= j -> bm_bit bm' j = if (i - 1 <=? j) && (j <? i + n) then v else bm_bit bm j.
Proof.
  intros Hupd Hok Hbm Hi Hn Hlt. unfold bitmap_update_bits.
  pose proof (ok_chunks c Hok). pose proof (ok_bitmap c Hok). pose proof (ok_chunk c Hok).
  assert (8 * c.(bitmapsize) < 2 ^ 32) by nia.
  pose proof (div_mod_8 i) as Hdm. rewrite advance_at, !inside_at by (done || lia).
  rewrite !(proj2 (Z.ltb_lt _ _)) by lia. cbn [negb]. rewrite orb_false_r.
  cbn [bit byte at_ set_pos]. rewrite Z.gtb_ltb, (proj2 (Z.ltb_ge 7 _)) by lia.
  destruct ((i mod 8 =? 0) && (i / 8 =? 0)) eqn:E0; [reflect_bools; lia|clear E0].
  assert (Hmeta : (if i mod 8 =? 0 then upd bm (i / 8 - 1) 7 else upd bm (i / 8) (i mod 8 - 1))
                  = upd bm ((i - 1) / 8) ((i - 1) mod 8)).
  { destruct (i mod 8 =? 0) eqn:E; reflect_bools.
    - assert ((i - 1) / 8 = i / 8 - 1) as -> by (symmetry; apply (Z.div_unique_pos _ _ _ 7); lia).
      assert ((i - 1) mod 8 = 7) as -> by (symmetry; apply (Z.mod_unique_pos _ _ (i / 8 - 1)); lia). done.
    - assert ((i - 1) / 8 = i / 8) as -> by (symmetry; apply (Z.div_unique_pos _ _ _ (i mod 8 - 1)); lia).
      assert ((i - 1) mod 8 = i mod 8 - 1) as -> by (symmetry; apply (Z.mod_unique_pos _ _ (i / 8)); lia). done. }
  rewrite Hmeta. destruct (Hupd c bm (i - 1) Hbm ltac:(lia)) as (bm1 & -> & Hbm1 & Hbits1).
  rewrite bind_Ret.
  rewrite (walk_iter _ c Hok _ _ _ (Z.to_nat (c.(poolchunks) - i))) by first [apply (walk_fuel_enough c i); lia | lia].
  destruct (update_iter upd v c Hupd Hok (Z.to_nat (c.(poolchunks) - i)) i bm1 n)
    as (bm2 & -> & Hbm2 & Hbits2); try done || lia.
  rewrite bind_Ret. cbn [fst snd]. exists bm2. split; [done|]. split; [done|].
  intros j Hj. rewrite Hbits2, Hbits1 by done.
  destruct (i - 1 =? j) eqn:E; reflect_bools.
  - subst j. rewrite (proj2 (Z.leb_gt i _)), (proj2 (Z.leb_le _ _)), (proj2 (Z.ltb_lt (i - 1) _)) by lia. done.
  - destruct (i <=? j) eqn:F; reflect_bools.
    + by rewrite (proj2 (Z.leb_le (i - 1) j)) by lia.
    + by rewrite (proj2 (Z.leb_gt (i - 1) j)) by lia.
Qed.

(** A run that would reach the last chunk of the pool is refused. *)
Lemma update_bits_refused upd c bm i n : ctx_ok c -> 0 <= i -> 0 <= n ->
  c.(poolchunks) <= i + n <= 8 * c.(bitmapsize) ->
  bitmap_update_bits upd bm (at_ c i) n = Ret (bm, - 22).
Proof.
  intros Hok Hi Hn Hlt. unfold bitmap_update_bits.
  pose proof (ok_chunks c Hok). pose proof (ok_bitmap c Hok). pose proof (ok_chunk c Hok).
  assert (8 * c.(bitmapsize) < 2 ^ 32) by nia.
  rewrite advance_at, !inside_at by (done || lia).
  rewrite (proj2 (Z.ltb_ge (i + n) _)) by lia. cbn [negb]. by destruct (_ || _).
Qed.

(** ** Searching for an aligned run *)

Section search.
Context (c : AllocationCtx) (bm : list Z) (Hok : ctx_ok c) (Hbm : bm_ok c bm).

(** Chunk [j] and the chunk before it are free. *)
Definition cand (j : Z) : Prop := 1 <= j /\ bm_bit bm j = false /\ bm_bit bm (j - 1) = false.

(** What a search that looks at [P]-positions from [i] on promises. *)
Definition first_cand (P : Z -> Prop) (i : Z) (r : bool * AllocationCtx) : Prop :=
  if r.1 then exists j, r.2 = at_ c j /\ i <= j < c.(poolchunks) /\ P j /\ cand j /\
                        forall k, i <= k < j -> P k -> ~ cand k
  else forall k, i <= k < c.(poolchunks) -> P k -> ~ cand k.

Lemma set_pos_prev i : 1 <= i ->
  (if i mod 8 =? 0 then set_pos (at_ c i) (i / 8 - 1) 7 else set_pos (at_ c i) (i / 8) (i mod 8 - 1))
  = at_ c (i - 1).
Proof.
  intros Hi. pose proof (div_mod_8 i). case_cond; rewrite set_pos_at, at_eq by lia; f_equal; lia.
Qed.

(** One round of the search at a position inside the pool. *)
Lemma find_loop_step fuel step i : 1 <= step < 2 ^ 31 -> 0 <= i < c.(poolchunks) ->
  8 * c.(bitmapsize) < 2 ^ 31 ->
  (cand i /\ find_loop (S fuel) bm step (at_ c i) = Ret (true, at_ c i)) \/
  (~ cand i /\ find_loop (S fuel) bm step (at_ c i) = find_loop fuel bm step (at_ c (i + step))).
Proof.
  intros Hs Hi Hb. pose proof (ok_chunks c Hok). pose proof (div_mod_8 i) as Hdm.
  cbn [find_loop]. rewrite inside_at, (check_bit_at c), bind_Ret by (done || lia).
  rewrite advance_at by lia. cbn [byte bit bitmapsize at_ set_pos].
  change (set_pos c (i / 8) (i mod 8)) with (at_ c i).
  rewrite (proj2 (Z.ltb_lt (i / 8) _)), (proj2 (Z.ltb_lt i _)) by lia. cbn [andb].
  destruct (decide (i = 0)) as [->|Hi0].
  { right. split; [intros [? _]; lia|done]. }
  destruct ((i mod 8 =? 0) && (i / 8 =? 0)) eqn:E0; [reflect_bools; lia|clear E0].
  cbv zeta. rewrite set_pos_prev, (check_bit_at c), bind_Ret by (done || lia). unfold cand.
  destruct (bm_bit bm i) eqn:E1; cbn [negb andb]; [right; split; [intros (_ & ? & ?); congruence|done]|].
  destruct (bm_bit bm (i - 1)) eqn:E2; cbn [negb]; [right; split; [intros (_ & ? & ?); congruence|done]|].
  left. split; [|done]. split; [lia|done].
Qed.

Lemma find_loop_out fuel step i : 0 <= i -> c.(poolchunks) <= i ->
  find_loop (S fuel) bm step (at_ c i) = Ret (false, at_ c i).
Proof.
  intros Hi Hp. cbn [find_loop]. cbn [byte bitmapsize at_ set_pos].
  change (set_pos c (i / 8) (i mod 8)) with (at_ c i). pose proof (div_mod_8 i).
  destruct (i / 8 <? c.(bitmapsize)) eqn:E; reflect_bools; [|done].
  rewrite inside_at by (done || lia). by rewrite (proj2 (Z.ltb_ge i _)) by lia.
Qed.

Lemma find_loop_spec step : 1 <= step < 2 ^ 31 -> 8 * c.(bitmapsize) < 2 ^ 31 -> forall fuel i,
  0 <= i -> Z.max 0 (c.(poolchunks) - i) < Z.of_nat fuel ->
  exists r, find_loop fuel bm step (at_ c i) = Ret r /\ first_cand (fun k => (step | k - i)) i r.
Proof.
  intros Hs Hb. induction fuel as [|fuel IH]; intros i Hi Hf; [lia|].
  destruct (decide (c.(poolchunks) <= i)).
  { eexists. split; [by apply find_loop_out|]. intros k Hk. lia. }
  destruct (find_loop_step fuel step i Hs ltac:(lia) Hb) as [[Hc ->]|[Hc ->]].
  - eexists. split; [done|]. exists i. split; [done|]. split; [lia|].
    split; [by rewrite Z.sub_diag; apply Z.divide_0_r|]. split; [done|]. intros k Hk. lia.
  - destruct (IH (i + step)) as (r & Hr & Hfc); [lia|lia|]. exists r. split; [done|].
    assert (Hskip : forall k, i <= k < i + step -> (step | k - i) -> ~ cand k).
    { intros k Hk [q Hq]. destruct (decide (q = 0)) as [->|]; [|nia].
      by replace k with i by lia. }
    assert (Hsh : forall k, (step | k - i) -> (step | k - (i + step))).
    { intros k [q Hq]. exists (q - 1). lia. }
    unfold first_cand in *. destruct (r.1).
    + destruct Hfc as (j & Hj & Hij & [q Hq] & Hcj & Hmin). exists j. split; [done|]. split; [lia|].
      split; [exists (q + 1); lia|]. split; [done|]. intros k Hk Hd.
      destruct (decide (k < i + step)); [apply Hskip; lia || done|apply Hmin; [lia|by apply Hsh]].
    + intros k Hk Hd. destruct (decide (k < i + step)); [apply Hskip; lia || done|].
      apply Hfc; [lia|by apply Hsh].
Qed.

(** The step of the search against the alignment: either the alignment is a
    whole number of chunks, or every chunk is aligned. *)
Definition step_ok (alignment step : Z) : Prop :=
  alignment = step * c.(chunksize) \/ (step = 1 /\ (alignment | c.(chunksize))).

Definition aligned (alignment j : Z) : Prop := (alignment | c.(poolstart) + j * c.(chunksize)).

Lemma aligned_step alignment step i k : 0 < step -> step_ok alignment step -> aligned alignment i ->
  aligned alignment k <-> (step | k - i).
Proof.
  intros Hs Hst [q Hq]. unfold aligned. pose proof (ok_chunk c Hok).
  destruct Hst as [->|[-> Hd]].
  - split.
    + intros [p Hp]. exists (p - q). nia.
    + intros [p Hp]. exists (p + q). nia.
  - split; [intros _; exists (k - i); lia|]. intros _.
    replace (c.(poolstart) + k * c.(chunksize))
      with ((c.(poolstart) + i * c.(chunksize)) + (k - i) * c.(chunksize)) by lia.
    apply Z.divide_add_r; [by exists q|by apply Z.divide_mul_r].
Qed.

(** The pool lies in the address space, on a chunk boundary. *)
Record pool_ok : Prop := {
  pool_pos : 0 < c.(poolstart);
  pool_aligned : (c.(chunksize) | c.(poolstart));
  pool_end : c.(poolstart) + c.(poolchunks) * c.(chunksize) < 2 ^ 32;
  pool_small : 8 * c.(bitmapsize) < 2 ^ 31 }.

(** A power of two not above [2^31], in 32 bits. *)
Definition align_ok (alignment : Z) : Prop := 0 < alignment <= 2 ^ 31 /\ (alignment | 2 ^ 32).

(** Aligning the start of the search skips no aligned chunk. *)
Lemma align_start alignment step i : pool_ok -> align_ok alignment -> 1 <= step < 2 ^ 31 ->
  step_ok alignment step -> 0 <= i <= c.(poolchunks) ->
  exists i', 0 <= i' /\ i <= i' /\ (aligned alignment i' \/ c.(poolchunks) <= i') /\
    (forall k, i <= k < Z.min i' c.(poolchunks) -> ~ aligned alignment k) /\
    gallocator_find_start_aligned bm alignment (at_ c i) =
    find_loop (find_fuel c) bm (u32 (ceil alignment c.(chunksize))) (at_ c i').
Proof.
  intros [Hp0 Hpa Hpe Hps] [Hal Hal2] Hs Hst Hi. pose proof (ok_chunk c Hok). pose proof (ok_chunks c Hok).
  pose proof (ok_bitmap c Hok). unfold gallocator_find_start_aligned.
  set (A := c.(poolstart) + i * c.(chunksize)).
  assert (HA : 0 < A < 2 ^ 32) by nia.
  rewrite to_offset_at by nia. cbn [poolstart at_ set_pos].
  change (set_pos c (i / 8) (i mod 8)) with (at_ c i). change (find_fuel (at_ c i)) with (find_fuel c).
  fold A. rewrite (u32_small A) by (unfold is_u32; lia).
  destruct (A mod alignment =? 0) eqn:E; cbn [negb]; reflect_bools.
  { exists i. rewrite bind_Ret. split; [lia|]. split; [lia|]. split; [left; by apply Z.mod_divide; [lia|]|].
    split; [intros; lia|done]. }
  assert (Hna : ~ (alignment | A)) by (intros Hd; apply Z.mod_divide in Hd; lia).
  destruct (align_up_spec A alignment) as [HB1 HB2]; try lia.
  set (B := bytes_align_up64 A alignment) in *.
  assert (HB3 : B <= 2 ^ 32) by (apply (multiple_between alignment B A); done || lia).
  assert (Hchunk : alignment = step * c.(chunksize)).
  { destruct Hst as [?|[_ Hd]]; [done|]. exfalso. apply Hna. unfold A.
    apply Z.divide_add_r; [exact (Z.divide_trans _ _ _ Hd Hpa)|by apply Z.divide_mul_r]. }
  assert (Hcb : exists b, B = c.(poolstart) + b * c.(chunksize) /\ i <= b).
  { destruct HB1 as [q Hq], Hpa as [p Hp]. exists (q * step - p).
    assert (HB : B = c.(poolstart) + (q * step - p) * c.(chunksize))
      by (rewrite Hq, Hp, Hchunk; ring).
    split; [done|]. apply (Z.mul_le_mono_pos_r _ _ c.(chunksize)); subst A; lia. }
  destruct Hcb as (b & HBb & Hib). exists b. split; [lia|]. split; [done|]. split; [|split].
  - left. unfold aligned. by rewrite <- HBb.
  - intros k Hk Hka. assert (B <= c.(poolstart) + k * c.(chunksize)).
    2:{ assert (k * c.(chunksize) < b * c.(chunksize)) by (apply Z.mul_lt_mono_pos_r; lia). lia. }
    assert (i * c.(chunksize) <= k * c.(chunksize)) by (apply Z.mul_le_mono_nonneg_r; lia).
    apply (multiple_between alignment B A); done || lia.
  - assert (HB0 : u32 B mod alignment = 0).
    { unfold u32. destruct (decide (B = 2 ^ 32)) as [->|].
      - by rewrite Z_mod_same_full, Z.mod_0_l by lia.
      - rewrite (Z.mod_small B) by lia. apply Z.mod_divide; lia || done. }
    rewrite HB0. cbn [Z.eqb assert_]. rewrite bind_Ret. f_equal.
    unfold addr_to_allocationctx_offset. cbn [poolstart chunksize at_ set_pos].
    replace (u32 (u32 B - c.(poolstart))) with (B - c.(poolstart)).
    2:{ unfold u32. rewrite Zminus_mod_idemp_l, Z.mod_small; lia. }
    replace ((B - c.(poolstart)) / c.(chunksize)) with b
      by (rewrite HBb, Z.add_simpl_l, Z.div_mul; lia).
    rewrite bind_Ret. pose proof (div_mod_8 b).
    rewrite u32_small by (unfold is_u32; lia). rewrite i8_small by lia.
    rewrite set_pos_at. unfold at_. do 2 f_equal; lia.
Qed.

Lemma find_start_spec alignment step i : pool_ok -> align_ok alignment -> 1 <= step < 2 ^ 31 ->
  step = ceil alignment c.(chunksize) -> step_ok alignment step -> 0 <= i <= c.(poolchunks) ->
  exists r, gallocator_find_start_aligned bm alignment (at_ c i) = Ret r /\
    first_cand (aligned alignment) i r.
Proof.
  intros Hp Ha Hs Hstep Hst Hi.
  destruct (align_start alignment step i Hp Ha Hs Hst Hi) as (i' & Hi' & Hle & Hal & Hskip & ->).
  rewrite <- Hstep, u32_small by (unfold is_u32; lia).
  pose proof (ok_chunks c Hok). pose proof (pool_small Hp).
  destruct (find_loop_spec step Hs ltac:(lia) (find_fuel c) i' Hi') as (r & Hr & Hfc);
    [unfold find_fuel; lia|].
  exists r. split; [done|]. unfold first_cand in *. destruct r.1.
  - destruct Hfc as (j & Hj & Hij & Hd & Hcj & Hmin). destruct Hal as [Hal|]; [|lia].
    exists j. split; [done|]. split; [lia|].
    split; [apply (aligned_step alignment step i'); done || lia|]. split; [done|].
    intros k Hk Hka. destruct (decide (k < i')); [exfalso; apply (Hskip k); lia || done|].
    apply Hmin; [lia|apply (aligned_step alignment step i'); done || lia].
  - intros k Hk Hka. destruct (decide (k < i')); [exfalso; apply (Hskip k); lia || done|].
    destruct Hal as [Hal|]; [|lia]. apply Hfc; [lia|apply (aligned_step alignment step i'); done || lia].
Qed.

(** [n] chunks from [k] on, and the one before, are free and in the pool. *)
Definition fits (alignment n k : Z) : Prop :=
  1 <= k /\ k + n <= c.(poolchunks) /\ aligned alignment k /\
  forall x, k - 1 <= x < k + n -> bm_bit bm x = false.

Lemma search_loop_spec alignment step n : pool_ok -> align_ok alignment -> 1 <= step < 2 ^ 31 ->
  step = ceil alignment c.(chunksize) -> step_ok alignment step -> 1 <= n < 2 ^ 32 ->
  forall fuel i, 0 <= i <= c.(poolchunks) -> c.(poolchunks) - i < Z.of_nat fuel ->
  exists r, search_loop fuel bm alignment n (at_ c i) = Ret r /\
    match r with
    | Some c' => exists j, c' = at_ c j /\ i <= j /\ fits alignment n j /\
                           forall k, i <= k < j -> ~ fits alignment n k
    | None => forall k, i <= k -> ~ fits alignment n k
    end.
Proof.
  intros Hp Ha Hs Hstep Hst Hn. pose proof (ok_chunks c Hok). pose proof (pool_small Hp).
  induction fuel as [|fuel IH]; intros i Hi Hf; [lia|]. cbn [search_loop].
  destruct (find_start_spec alignment step i Hp Ha Hs Hstep Hst Hi) as ([b c'] & -> & Hfc).
  rewrite bind_Ret. unfold first_cand in Hfc. cbn [fst snd] in *.
  assert (Hfit : forall k, fits alignment n k -> k < c.(poolchunks) /\ aligned alignment k /\ cand k).
  { intros k (H1 & H2 & H3 & H4). split; [lia|]. split; [done|].
    split; [lia|]. split; apply H4; lia. }
  destruct b; [|eexists; split; [done|]; intros k Hk Hk'; destruct (Hfit k Hk') as (? & ? & ?);
                 apply (Hfc k); lia || done].
  destruct Hfc as (j & -> & Hij & Haj & Hcj & Hmin).
  assert (Hbefore : forall k, i <= k < j -> ~ fits alignment n k).
  { intros k Hk Hk'. destruct (Hfit k Hk') as (? & ? & ?). apply (Hmin k); lia || done. }
  destruct Hcj as (Hj1 & Hjf & Hjp).
  destruct (n =? 1) eqn:En; reflect_bools.
  { eexists. split; [done|]. exists j. split; [done|]. split; [lia|]. split; [|done].
    split; [lia|]. split; [lia|]. split; [done|]. intros x Hx.
    destruct (decide (x = j)) as [->|]; [done|]. by replace x with (j - 1) by lia. }
  destruct (has_n_spec c bm j n Hok Hbm Hn ltac:(lia) Hjf) as (r & -> & Hr1 & Hr2 & Hr3 & Hr4).
  rewrite bind_Ret. destruct (r =? n) eqn:Er; reflect_bools.
  { subst r. eexists. split; [done|]. exists j. split; [done|]. split; [lia|]. split; [|done].
    split; [lia|]. split; [lia|]. split; [done|]. intros x Hx.
    destruct (decide (x = j - 1)) as [->|]; [done|apply Hr3; lia]. }
  rewrite advance_at by lia.
  destruct (IH (j + r)) as (res & Hres & Hspec); [lia|lia|]. exists res. split; [done|].
  assert (Hskip : forall k, i <= k < j + r -> ~ fits alignment n k).
  { intros k Hk Hk'. destruct (decide (k < j)); [apply (Hbefore k); lia || done|].
    destruct Hk' as (H1 & H2 & H3 & H4). destruct Hr4 as [Hend|Hset]; [lia|lia|].
    rewrite H4 in Hset by lia. done. }
  destruct res as [c''|].
  - destruct Hspec as (j' & -> & Hj' & Hfit' & Hmin'). exists j'. split; [done|]. split; [lia|].
    split; [done|]. intros k Hk. destruct (decide (k < j + r)); [apply Hskip; lia|apply Hmin'; lia].
  - intros k Hk. destruct (decide (k < j + r)); [apply Hskip; lia|apply Hspec; lia].
Qed.
End search.

(** ** Rounding *)

Lemma ceil_spec num den : 0 <= num -> 0 < den ->
  num <= ceil num den * den < num + den /\ 0 <= ceil num den.
Proof.
  intros Hn Hd. unfold ceil. rewrite Z.quot_div_nonneg by lia.
  pose proof (Z.div_mod num den ltac:(lia)). pose proof (Z.mod_pos_bound num den Hd).
  pose proof (Z.div_pos num den Hn Hd). case_cond; [lia|].
  rewrite Z.quot_div_nonneg by lia.
  replace (num + den) with (num + 1 * den) by lia. rewrite Z.div_add by lia.
  assert (num mod den <> 0) by lia. nia.
Qed.

Lemma ceil_pos num den : 0 < num -> 0 < den -> 1 <= ceil num den.
Proof. intros. destruct (ceil_spec num den) as [[? ?] ?]; nia. Qed.

Lemma pow2_align_ok k : 0 <= k <= 31 -> align_ok (2 ^ k).
Proof.
  intros Hk. split; [split; [lia|apply Z.pow_le_mono_r; lia]|].
  exists (2 ^ (32 - k)). rewrite <- Z.pow_add_r by lia. f_equal. lia.
Qed.

(** The search step for a power-of-two alignment. *)
Lemma pow2_step c k e : 0 <= k <= 31 -> 5 <= e -> c.(chunksize) = 2 ^ e ->
  let step := ceil (2 ^ k) c.(chunksize) in
  1 <= step < 2 ^ 31 /\ step_ok c (2 ^ k) step.
Proof.
  intros Hk He Hc. cbv zeta. rewrite Hc.
  destruct (ceil_spec (2 ^ k) (2 ^ e)) as [Hb _]; [lia|lia|].
  pose proof (ceil_pos (2 ^ k) (2 ^ e) ltac:(lia) ltac:(lia)) as H1.
  assert (2 ^ k <= 2 ^ 31) by (apply Z.pow_le_mono_r; lia).
  assert (32 <= 2 ^ e) by (change 32 with (2 ^ 5); apply Z.pow_le_mono_r; lia).
  unfold step_ok. rewrite Hc. destruct (decide (k <= e)).
  - assert (2 ^ k <= 2 ^ e) by (apply Z.pow_le_mono_r; lia).
    assert (ceil (2 ^ k) (2 ^ e) = 1) as -> by nia. split; [lia|]. right. split; [done|].
    exists (2 ^ (e - k)). rewrite <- Z.pow_add_r by lia. f_equal. lia.
  - assert (E : 2 ^ k = 2 ^ (k - e) * 2 ^ e) by (rewrite <- Z.pow_add_r by lia; f_equal; lia).
    assert (ceil (2 ^ k) (2 ^ e) = 2 ^ (k - e)) as -> by nia.
    split; [|by left]. split; [lia|]. apply Z.pow_lt_mono_r; lia.
Qed.

(** ** The heap invariant *)

Inductive pool := Lo | Mid | Hi.
#[export] Instance pool_eq_dec : EqDecision pool.
Proof. solve_decision. Defined.

Definition pctx (meta : GAllocatorHeapMeta) (p : pool) : AllocationCtx :=
  match p with
  | Lo => mkCtx meta.(lo_bitmap) meta.(lo_bitmap_size) meta.(lo_pool) meta.(lo_poolchunks) LO_POOL_CHUNK_SIZE 0 0
  | Mid => mkCtx meta.(mid_bitmap) meta.(mid_bitmap_size) meta.(mid_pool) meta.(mid_poolchunks) MID_POOL_CHUNK_SIZE 0 0
  | Hi => mkCtx meta.(hi_bitmap) meta.(hi_bitmap_size) meta.(hi_pool) meta.(hi_poolchunks) HI_POOL_CHUNK_SIZE 0 0
  end.

Definition class_of (size : Z) : pool :=
  if size >=? HI_POOL_CHUNK_SIZE then Hi else if size >=? MID_POOL_CHUNK_SIZE then Mid else Lo.

Definition pool_hi_addr (c : AllocationCtx) : Z := c.(poolstart) + c.(poolchunks) * c.(chunksize).

Record meta_wf (m : GAllocatorHeapMeta) : Prop := {
  wf_sig : m.(signature) = HEAP_SIGNATURE;
  wf_ctx : forall p, ctx_ok (pctx m p);
  wf_pool : forall p, pool_ok (pctx m p);
  wf_half : forall p, (pctx m p).(poolchunks) * (pctx m p).(chunksize) < 2 ^ 31;
  wf_bitmaps_distinct : forall p q, p <> q -> (pctx m p).(bitmapstart) <> (pctx m q).(bitmapstart);
  wf_pools_disjoint : forall p q, p <> q ->
    pool_hi_addr (pctx m p) <= (pctx m q).(poolstart) \/
    pool_hi_addr (pctx m q) <= (pctx m p).(poolstart) }.

(** Chunks of an allocation and its first chunk. *)
Definition nchunks (am : GAllocationMeta) : Z := ceil am.(size) am.(am_chunksize).

(** [am] describes the allocation that starts at chunk [j] of pool [p]. *)
Definition alloc_at (h : gheap) (p : pool) (j : Z) (am : GAllocationMeta) : Prop :=
  let c := pctx h.(hmeta) p in
  h.(ametas) !! (c.(poolstart) + j * c.(chunksize) - sizeof_GAllocationMeta) = Some am /\
  am.(am_signature) = ALLOCATION_SIGNATURE /\ am.(am_chunksize) = c.(chunksize) /\
  0 < am.(size) /\ p = class_of am.(size) /\
  1 <= j /\ j + nchunks am < c.(poolchunks) /\
  (am.(alignment) | c.(poolstart) + j * c.(chunksize)) /\ 0 < am.(alignment) <= 2 ^ 31.

Record heap_wf (h : gheap) : Prop := {
  wf_meta : meta_wf h.(hmeta);
  wf_allocs : forall a am, h.(ametas) !! (a - sizeof_GAllocationMeta) = Some am ->
    exists p j, a = (pctx h.(hmeta) p).(poolstart) + j * (pctx h.(hmeta) p).(chunksize) /\ alloc_at h p j am;
  wf_bits : forall p, exists bm, h.(bitmaps) !! (pctx h.(hmeta) p).(bitmapstart) = Some bm /\
    bm_ok (pctx h.(hmeta) p) bm /\
    forall i, 0 <= i < (pctx h.(hmeta) p).(poolchunks) ->
      bm_bit bm i = true <-> exists j am, alloc_at h p j am /\ j - 1 <= i < j + nchunks am;
  wf_disjoint : forall p j1 am1 j2 am2, alloc_at h p j1 am1 -> alloc_at h p j2 am2 -> j1 <> j2 ->
    j1 + nchunks am1 <= j2 - 1 \/ j2 + nchunks am2 <= j1 - 1 }.

(** The size of the live allocation at [a]. *)
Definition live_size (h : gheap) (a : Z) : option Z :=
  size <$> h.(ametas) !! (a - sizeof_GAllocationMeta).

Lemma chunk_pow2 m p : exists e, 5 <= e /\ (pctx m p).(chunksize) = 2 ^ e.
Proof. destruct p; [exists 5|exists 6|exists 7]; by split. Qed.

Lemma chunk_ge m p : 32 <= (pctx m p).(chunksize) <= 128.
Proof. destruct p; cbn; unfold LO_POOL_CHUNK_SIZE, MID_POOL_CHUNK_SIZE, HI_POOL_CHUNK_SIZE; lia. Qed.

Lemma pctx_at0 m p : pctx m p = at_ (pctx m p) 0.
Proof. by destruct p. Qed.

Lemma alloc_ctx_class size m : alloc_ctx size m = pctx m (class_of size).
Proof. unfold alloc_ctx, class_of. by repeat case_cond. Qed.

Lemma free_ctx_pool m p : free_ctx (pctx m p).(chunksize) m = Ret (pctx m p).
Proof. by destruct p. Qed.

Lemma nchunks_bound am : 0 < am.(size) -> 32 <= am.(am_chunksize) ->
  am.(size) <= nchunks am * am.(am_chunksize) /\ 1 <= nchunks am.
Proof.
  intros. unfold nchunks. destruct (ceil_spec am.(size) am.(am_chunksize)); [lia|lia|].
  split; [lia|]. apply ceil_pos; lia.
Qed.

(** An allocation lies in its pool, past the first chunk. *)
Lemma alloc_at_range h p j am : meta_wf h.(hmeta) -> alloc_at h p j am ->
  let c := pctx h.(hmeta) p in let a := c.(poolstart) + j * c.(chunksize) in
  c.(poolstart) + 32 <= a /\ a + am.(size) + 32 <= pool_hi_addr c /\ am.(size) < 2 ^ 31 /\ 1 <= nchunks am.
Proof.
  intros Hm (_ & _ & Hcs & Hsz & _ & Hj & Hend & _). cbv zeta. unfold pool_hi_addr.
  pose proof (chunk_ge h.(hmeta) p). pose proof (wf_half _ Hm p).
  destruct (nchunks_bound am) as [Hn1 Hn2]; [done|lia|]. rewrite Hcs in Hn1.
  set (cs := chunksize _) in *. set (pc := poolchunks _) in *.
  assert ((j + nchunks am + 1) * cs <= pc * cs) by (apply Z.mul_le_mono_nonneg_r; lia).
  assert (1 * cs <= j * cs) by (apply Z.mul_le_mono_nonneg_r; lia). lia.
Qed.

(** The address of an allocation determines its pool and chunk. *)
Lemma alloc_at_inj h p j am q k am' : meta_wf h.(hmeta) -> alloc_at h p j am -> alloc_at h q k am' ->
  (pctx h.(hmeta) p).(poolstart) + j * (pctx h.(hmeta) p).(chunksize) =
  (pctx h.(hmeta) q).(poolstart) + k * (pctx h.(hmeta) q).(chunksize) -> p = q /\ j = k.
Proof.
  intros Hm H1 H2 Heq.
  destruct (alloc_at_range _ _ _ _ Hm H1) as (A1 & A2 & _ & _), (alloc_at_range _ _ _ _ Hm H2) as (B1 & B2 & _ & _).
  assert (0 < size am /\ 0 < size am') as [? ?] by (split; [apply H1|apply H2]).
  destruct (decide (p = q)) as [->|Hne].
  - split; [done|]. pose proof (chunk_ge h.(hmeta) q).
    apply (Z.mul_reg_r _ _ (pctx h.(hmeta) q).(chunksize)); lia.
  - exfalso. destruct (wf_pools_disjoint _ Hm p q Hne); lia.
Qed.

(** ** Allocating *)
Section alloc.
Context (h : gheap) (Hwf : heap_wf h) (sz k : Z).
Context (Hsz : 0 < sz < 2 ^ 32) (Hk : 0 <= k <= 31).

Let p := class_of sz.
Let c := pctx h.(hmeta) p.
Let n := ceil sz c.(chunksize).

Lemma n_range : 1 <= n < 2 ^ 32.
Proof.
  pose proof (chunk_ge h.(hmeta) p) as Hc. fold c in Hc.
  destruct (ceil_spec sz c.(chunksize)) as [? _]; [lia|lia|]. subst n.
  split; [apply ceil_pos; lia|nia].
Qed.

(** The heap after a successful allocation at chunk [j]. *)
Definition alloc_result (bm : list Z) (j : Z) : gheap :=
  mkGHeap h.(hmeta) (<[c.(bitmapstart) := bm]> h.(bitmaps))
    (<[c.(poolstart) + j * c.(chunksize) - sizeof_GAllocationMeta :=
       mkAllocMeta ALLOCATION_SIGNATURE sz c.(chunksize) (2 ^ k)]> h.(ametas)).

(** The search ends, with the first fitting run of the pool or with none. *)
Lemma do_alloc_cases bm : h.(bitmaps) !! c.(bitmapstart) = Some bm -> bm_ok c bm ->
  (gallocator_do_alloc_aligned sz (2 ^ k) h = Ret (h, 0) /\
     forall j, j + n < c.(poolchunks) -> ~ fits c bm (2 ^ k) n j) \/
  (exists j bm', fits c bm (2 ^ k) n j /\ j + n < c.(poolchunks) /\ bm_ok c bm' /\
     (forall x, 0 <= x -> bm_bit bm' x = if (j - 1 <=? x) && (x <? j + n) then true else bm_bit bm x) /\
     gallocator_do_alloc_aligned sz (2 ^ k) h =
       Ret (alloc_result bm' j, c.(poolstart) + j * c.(chunksize))).
Proof.
  intros Hbm Hbok. pose proof n_range as Hn. destruct (chunk_pow2 h.(hmeta) p) as (e & He & Hce).
  destruct (pow2_step c k e Hk He Hce) as [Hs Hst].
  pose proof (wf_ctx _ (wf_meta _ Hwf) p) as Hok. pose proof (wf_pool _ (wf_meta _ Hwf) p) as Hpool.
  fold c in Hok, Hpool. pose proof (ok_chunks _ Hok). pose proof (ok_chunk _ Hok).
  unfold gallocator_do_alloc_aligned. rewrite alloc_ctx_class. fold p c.
  rewrite (u32_small (ceil sz _)) by (fold n; unfold is_u32; lia). fold n. rewrite Hbm. cbn [deref].
  rewrite bind_Ret. assert (E0 : at_ c 0 = c) by (symmetry; apply pctx_at0).
  destruct (search_loop_spec c bm Hok Hbok (2 ^ k) _ n Hpool (pow2_align_ok k Hk) Hs eq_refl Hst Hn
              (find_fuel c) 0) as ([c'|] & Hsl & Hspec); [lia|unfold find_fuel; lia| |];
    rewrite E0 in Hsl.
  - rewrite Hsl, bind_Ret. destruct Hspec as (j & -> & Hj & Hfit & Hmin).
    destruct Hfit as (F1 & F2 & F3 & F4) eqn:EF. clear EF.
    destruct (decide (j + n < c.(poolchunks))).
    + right. destruct (update_bits_spec bm_set true c bm j n bm_set_spec Hok Hbok) as (bm' & Hset & Hbok' & Hbits); try lia.
      exists j, bm'. split; [done|]. split; [done|]. split; [done|]. split; [done|].
      unfold gallocator_bitmap_set_bits. rewrite Hset, bind_Ret. cbn [Z.eqb negb].
      destruct Hpool. rewrite to_offset_at by nia. cbn [poolstart bitmapstart chunksize at_ set_pos].
      rewrite u32_small by (unfold is_u32; nia). done.
    + left. unfold gallocator_bitmap_set_bits. rewrite (update_bits_refused _ c) by (done || lia).
      rewrite bind_Ret. cbn [Z.eqb negb]. split.
      * cbn [bitmapstart at_ set_pos]. change (negb (-22 =? 0)) with true. cbv iota.
        rewrite insert_id by done. by destruct h.
      * intros j' Hj'. assert (j' < j) by lia. intros Hf. apply (Hmin j'); [|done].
        destruct Hf. lia.
  - left. rewrite Hsl, bind_Ret. split; [done|]. intros j Hj Hf. apply (Hspec j); [|done].
    destruct Hf. lia.
Qed.
End alloc.

(** ** A successful allocation keeps the invariant *)
Section alloc_wf.
Context (h : gheap) (Hwf : heap_wf h) (sz k : Z).
Context (Hsz : 0 < sz < 2 ^ 32) (Hk : 0 <= k <= 31).

Let p := class_of sz.
Let c := pctx h.(hmeta) p.
Let n := ceil sz c.(chunksize).

Context (bm bm' : list Z) (j : Z).
Context (Hbm : h.(bitmaps) !! c.(bitmapstart) = Some bm).
Context (Hfit : fits c bm (2 ^ k) n j) (Hend : j + n < c.(poolchunks)).
Context (Hok' : bm_ok c bm').
Context (Hbits : forall x, 0 <= x -> bm_bit bm' x = if (j - 1 <=? x) && (x <? j + n) then true else bm_bit bm x).

Let h' := alloc_result h sz k bm' j.
Let a := c.(poolstart) + j * c.(chunksize).
Let am := mkAllocMeta ALLOCATION_SIGNATURE sz c.(chunksize) (2 ^ k).

(** The bits that were free belong to no allocation. *)
Lemma free_run_unowned j0 am0 : alloc_at h p j0 am0 -> j0 + nchunks am0 <= j - 1 \/ j + n <= j0 - 1.
Proof.
  intros Ha. destruct (wf_bits _ Hwf p) as (bm0 & Hbm0 & _ & Hb0). fold c in Hbm0, Hb0.
  assert (bm0 = bm) as -> by congruence.
  destruct Ha as (Hl & Hs & Hcs & Hz & Hcl & Hj0 & He0 & Hal).
  destruct (nchunks_bound am0) as [_ Hn0]; [done|rewrite Hcs; apply chunk_ge|].
  pose proof (n_range h sz Hsz) as Hn. fold p c n in Hn. fold c in He0.
  destruct (decide (j0 + nchunks am0 <= j - 1)); [by left|]. right.
  destruct (decide (j + n <= j0 - 1)); [done|exfalso].
  set (x := Z.max (j - 1) (j0 - 1)). destruct Hfit as (Hj & _ & _ & Hfree).
  assert (Hx : bm_bit bm x = false) by (apply Hfree; lia).
  assert (bm_bit bm x = true); [|congruence].
  apply Hb0; [lia|]. exists j0, am0. split; [|lia]. done.
Qed.

Lemma alloc_key_fresh : h.(ametas) !! (a - sizeof_GAllocationMeta) = None.
Proof.
  destruct (h.(ametas) !! (a - sizeof_GAllocationMeta)) as [am0|] eqn:E; [exfalso|done].
  destruct (wf_allocs _ Hwf a am0 E) as (q & j0 & Ha & Hat).
  pose proof (n_range h sz Hsz) as Hn. fold p c n in Hn. destruct Hfit as (Hj & _ & _ & _).
  destruct (alloc_at_range _ _ _ _ (wf_meta _ Hwf) Hat) as (R1 & R2 & _ & _).
  rewrite <- Ha in R1, R2. assert (0 < size am0) by apply Hat.
  pose proof (chunk_ge h.(hmeta) p) as Hc. fold c in Hc.
  assert (Hin : c.(poolstart) <= a /\ a < pool_hi_addr c) by (unfold pool_hi_addr; subst a; nia).
  destruct (decide (p = q)) as [Hpq|Hne]; [subst q|].
  - destruct (free_run_unowned j0 am0 Hat) as [Hd|Hd];
      (assert (j0 = j) by (apply (Z.mul_reg_r _ _ c.(chunksize)); subst a; fold c in Ha; lia));
      pose proof (nchunks_bound am0 ltac:(done)); destruct Hat as (_ & _ & Hcs & _); fold c in Hcs; lia.
  - destruct (wf_pools_disjoint _ (wf_meta _ Hwf) p q Hne) as [Hd|Hd]; fold c in Hd; lia.
Qed.

Lemma alloc_new_at : alloc_at h' p j am.
Proof.
  destruct Hfit as (Hj & _ & Hal & _). unfold alloc_at. cbn [hmeta h' alloc_result].
  fold p c. cbn [ametas h' alloc_result]. rewrite lookup_insert_eq.
  assert (2 ^ k <= 2 ^ 31) by (apply Z.pow_le_mono_r; lia). assert (0 < 2 ^ k) by lia.
  unfold am, nchunks. cbn [am_signature size am_chunksize alignment]. fold n.
  split; [done|]. split; [done|]. split; [done|]. split; [lia|]. split; [done|].
  split; [lia|]. split; [lia|]. split; [exact Hal|lia].
Qed.

Lemma alloc_at_iff q j0 am0 : alloc_at h' q j0 am0 <-> alloc_at h q j0 am0 \/ (q = p /\ j0 = j /\ am0 = am).
Proof.
  split.
  - intros Ha. pose proof Ha as (Hl & _). cbn [hmeta ametas h' alloc_result] in Hl.
    apply lookup_insert_Some in Hl as [[Heq <-]|[Hne Hl]].
    + right. pose proof alloc_new_at as Hn. destruct (alloc_at_inj _ _ _ _ _ _ _ (wf_meta _ Hwf : meta_wf h'.(hmeta)) Hn Ha) as [Hq Hj0]; [|done].
      unfold h'. cbn [hmeta alloc_result]. fold p c. fold p c in Heq. lia.
    + left. destruct Ha as (_ & Ha). by split.
  - intros [Ha|(-> & -> & ->)]; [|apply alloc_new_at].
    pose proof Ha as (Hl & Hr). split; [|done]. cbn [hmeta ametas h' alloc_result].
    apply lookup_insert_Some. right. split; [|done]. intros Heq.
    pose proof alloc_key_fresh as Hf. unfold a in Hf. fold p c in Heq. rewrite Heq in Hf. congruence.
Qed.

Lemma alloc_result_wf : heap_wf h'.
Proof.
  pose proof (n_range h sz Hsz) as Hn. fold p c n in Hn.
  assert (Hnn : nchunks am = n) by done.
  split.
  - apply (wf_meta _ Hwf).
  - intros b am0 Hl. cbn [hmeta ametas h' alloc_result] in Hl.
    apply lookup_insert_Some in Hl as [[Heq <-]|[Hne Hl]].
    + exists p, j. split; [fold p c in Heq; unfold h'; cbn [hmeta alloc_result]; fold c; lia|apply alloc_new_at].
    + destruct (wf_allocs _ Hwf b am0 Hl) as (q & j0 & Hb & Ha). exists q, j0.
      split; [done|]. apply alloc_at_iff. by left.
  - intros q. cbn [hmeta bitmaps h' alloc_result]. fold p c.
    destruct (wf_bits _ Hwf q) as (bmq & Hbmq & Hokq & Hbq).
    destruct (decide (q = p)) as [->|Hne].
    + fold c in Hbmq, Hokq, Hbq |- *. assert (bmq = bm) as -> by congruence.
      rewrite lookup_insert_eq. exists bm'. split; [done|]. split; [done|].
      intros i Hi. rewrite Hbits by lia. split.
      * destruct ((j - 1 <=? i) && (i <? j + n)) eqn:E; intros Hb; reflect_bools.
        -- exists j, am. split; [apply alloc_new_at|lia].
        -- apply Hbq in Hb as (j0 & am0 & Ha & Hr); [|lia]. exists j0, am0. split; [|done].
           apply alloc_at_iff. by left.
        -- apply Hbq in Hb as (j0 & am0 & Ha & Hr); [|lia]. exists j0, am0. split; [|done].
           apply alloc_at_iff. by left.
      * intros (j0 & am0 & Ha & Hr). apply alloc_at_iff in Ha as [Ha|(_ & -> & ->)].
        -- assert (bm_bit bm i = true) as -> by (apply Hbq; [lia|]; eauto). by destruct (_ && _).
        -- rewrite Hnn in Hr. by rewrite (proj2 (Z.leb_le (j - 1) i)), (proj2 (Z.ltb_lt i (j + n))) by lia.
    + rewrite lookup_insert_ne by (apply (wf_bitmaps_distinct _ (wf_meta _ Hwf)); done).
      exists bmq. split; [done|]. split; [done|]. intros i Hi. rewrite Hbq by done.
      split; intros (j0 & am0 & Ha & Hr); exists j0, am0; (split; [|done]).
      * apply alloc_at_iff. by left.
      * by apply alloc_at_iff in Ha as [Ha|(-> & _)].
  - intros q j1 am1 j2 am2 H1 H2 Hne.
    apply alloc_at_iff in H1 as [H1|(-> & -> & ->)], H2 as [H2|(E2 & -> & ->)]; rewrite ?Hnn.
    + by apply (wf_disjoint _ Hwf q).
    + subst q. destruct (free_run_unowned j1 am1 H1); [left|right]; lia.
    + destruct (free_run_unowned j2 am2 H2); [right|left]; lia.
    + done.
Qed.
End alloc_wf.

(** ** Freeing *)
Section free.
Context (h : gheap) (Hwf : heap_wf h) (p : pool) (j : Z) (am : GAllocationMeta).
Context (Ha : alloc_at h p j am).

Let c := pctx h.(hmeta) p.
Let a := c.(poolstart) + j * c.(chunksize).

(** Only the freed allocation's metadata lies in the erased range. *)
Lemma erase_only : erase_range (a - sizeof_GAllocationMeta) (u32 (am.(size) + sizeof_GAllocationMeta)) h.(ametas)
  = delete (a - sizeof_GAllocationMeta) h.(ametas).
Proof.
  destruct (alloc_at_range _ _ _ _ (wf_meta _ Hwf) Ha) as (R1 & R2 & R3 & _). fold c in R1, R2. fold a in R1, R2.
  assert (0 < size am) by apply Ha. unfold sizeof_GAllocationMeta in *.
  rewrite u32_small by (unfold is_u32; lia).
  apply map_eq. intros key. unfold erase_range. destruct (decide (key = a - 16)) as [->|Hne].
  - rewrite lookup_delete_eq. apply map_lookup_filter_None. right. intros x _ Hx. lia.
  - rewrite lookup_delete_ne by done.
    destruct (h.(ametas) !! key) as [am0|] eqn:E; [|apply map_lookup_filter_None; by left].
    apply map_lookup_filter_Some. split; [done|]. intros Hr.
    destruct (wf_allocs _ Hwf (key + 16) am0) as (q & j0 & Hb & Hat);
      [by unfold sizeof_GAllocationMeta; replace (key + 16 - 16) with key by lia|].
    destruct (alloc_at_range _ _ _ _ (wf_meta _ Hwf) Hat) as (S1 & S2 & _ & _). rewrite <- Hb in S1, S2.
    assert (0 < size am0) by apply Hat.
    destruct (decide (p = q)) as [Hpq|Hpq]; [subst q|].
    + fold c in Hb. destruct (decide (j = j0)) as [<-|Hj]; [unfold a in Hne; lia|].
      pose proof (chunk_ge h.(hmeta) p) as Hc. fold c in Hc.
      destruct (nchunks_bound am) as [Hn _]; [done|destruct Ha as (_ & _ & -> & _); fold c; lia|].
      destruct Ha as (_ & _ & Hcs & _). fold c in Hcs. rewrite Hcs in Hn.
      destruct (nchunks_bound am0) as [_ Hn0]; [done|destruct Hat as (_ & _ & -> & _); fold c; lia|].
      destruct (wf_disjoint _ Hwf p j am j0 am0 Ha Hat Hj); unfold a in *.
      * assert ((j + nchunks am + 1) * c.(chunksize) <= j0 * c.(chunksize)) by (apply Z.mul_le_mono_nonneg_r; lia). lia.
      * assert ((j0 + 1) * c.(chunksize) <= j * c.(chunksize)) by (apply Z.mul_le_mono_nonneg_r; lia). lia.
    + destruct (wf_pools_disjoint _ (wf_meta _ Hwf) p q Hpq) as [Hd|Hd]; fold c in Hd; lia.
Qed.

Definition free_result (bm : list Z) : gheap :=
  mkGHeap h.(hmeta) (<[c.(bitmapstart) := bm]> h.(bitmaps)) (delete (a - sizeof_GAllocationMeta) h.(ametas)).

Lemma free_runs bm : h.(bitmaps) !! c.(bitmapstart) = Some bm -> bm_ok c bm ->
  exists bm', bm_ok c bm' /\
    (forall x, 0 <= x -> bm_bit bm' x = if (j - 1 <=? x) && (x <? j + nchunks am) then false else bm_bit bm x) /\
    gallocator_free a h = Ret (free_result bm').
Proof.
  intros Hbm Hbok. pose proof Ha as (Hl & Hsig & Hcs & Hz & Hcl & Hj & He & _). fold c in Hl, Hcs, He. fold a in Hl.
  pose proof (wf_ctx _ (wf_meta _ Hwf) p) as Hok. pose proof (wf_pool _ (wf_meta _ Hwf) p) as Hpool.
  fold c in Hok, Hpool. pose proof (chunk_ge h.(hmeta) p) as Hc. fold c in Hc.
  destruct (nchunks_bound am) as [Hn1 Hn2]; [done|lia|].
  destruct (update_bits_spec bm_clear false c bm j (nchunks am) bm_clear_spec Hok Hbok) as (bm' & Hclr & Hbok' & Hbits); try lia.
  exists bm'. split; [done|]. split; [done|].
  pose proof (ok_chunks _ Hok). pose proof (ok_bitmap _ Hok). destruct Hpool.
  unfold gallocator_free, allocmeta_of. rewrite (wf_sig _ (wf_meta _ Hwf)), Z.eqb_refl. cbn [negb].
  rewrite Hl, Hsig, Z.eqb_refl, Hcs. 
  assert (free_ctx c.(chunksize) h.(hmeta) = Ret c) as -> by apply free_ctx_pool. rewrite bind_Ret.
  assert (Hn32 : nchunks am < 2 ^ 32) by lia. assert (Hjp : j < c.(poolchunks)) by lia.
  unfold nchunks in Hn32, Hclr, Hn2. rewrite Hcs in Hn32, Hclr, Hn2. rewrite (u32_small (ceil _ _)) by (unfold is_u32; lia).
  assert (Hpos : addr_to_allocationctx_offset a c = at_ c j).
  { unfold addr_to_allocationctx_offset. replace (a - c.(poolstart)) with (j * c.(chunksize)) by (unfold a; lia).
    assert (j * c.(chunksize) <= c.(poolchunks) * c.(chunksize)) by (apply Z.mul_le_mono_nonneg_r; lia).
    rewrite u32_small by (unfold is_u32; nia). rewrite Z.div_mul by lia.
    pose proof (div_mod_8 j). rewrite u32_small, i8_small by (unfold is_u32; lia).
    unfold at_. f_equal. lia. }
  rewrite Hpos. cbn [bitmapstart at_ set_pos]. rewrite Hbm. cbn [deref]. rewrite bind_Ret.
  change (set_pos c (j / 8) (j mod 8)) with (at_ c j).
  unfold gallocator_bitmap_clear_bits. rewrite Hclr, bind_Ret. cbn [fst snd Z.eqb assert_]. rewrite bind_Ret.
  by rewrite erase_only.
Qed.

Lemma alloc_at_free bm q j0 am0 : alloc_at (free_result bm) q j0 am0 <->
  alloc_at h q j0 am0 /\ ~ (q = p /\ j0 = j).
Proof.
  split.
  - intros Hat. pose proof Hat as (Hl & Hr). cbn [hmeta ametas free_result] in Hl.
    apply lookup_delete_Some in Hl as [Hne Hl]. split; [by split|].
    intros [-> ->]. apply Hne. done.
  - intros [Hat Hne]. pose proof Hat as (Hl & Hr). split; [|done]. cbn [hmeta ametas free_result].
    apply lookup_delete_Some. split; [|done]. intros Heq. apply Hne.
    destruct (alloc_at_inj h p j am q j0 am0 (wf_meta _ Hwf) Ha Hat) as [-> ->]; [|done].
    fold c. unfold a in Heq. lia.
Qed.

Lemma free_result_wf bm bm' : h.(bitmaps) !! c.(bitmapstart) = Some bm -> bm_ok c bm' ->
  (forall x, 0 <= x -> bm_bit bm' x = if (j - 1 <=? x) && (x <? j + nchunks am) then false else bm_bit bm x) ->
  heap_wf (free_result bm').
Proof.
  intros Hbm Hok' Hbits. split.
  - apply (wf_meta _ Hwf).
  - intros b am0 Hl. cbn [hmeta ametas free_result] in *. apply lookup_delete_Some in Hl as [Hne Hl].
    destruct (wf_allocs _ Hwf b am0 Hl) as (q & j0 & Hb & Hat). exists q, j0. split; [done|].
    apply alloc_at_free. split; [done|]. intros [-> ->]. apply Hne. fold c in Hb. unfold a. lia.
  - intros q. cbn [hmeta bitmaps free_result]. destruct (wf_bits _ Hwf q) as (bmq & Hbmq & Hokq & Hbq).
    destruct (decide (q = p)) as [->|Hne].
    + fold c in Hbmq, Hokq, Hbq |- *. assert (bmq = bm) as -> by congruence.
      rewrite lookup_insert_eq. exists bm'. split; [done|]. split; [done|].
      intros i Hi. rewrite Hbits by lia.
      destruct ((j - 1 <=? i) && (i <? j + nchunks am)) eqn:E.
      * reflect_bools. split; [done|]. intros (j0 & am0 & Hat & Hr).
        apply alloc_at_free in Hat as [Hat Hnj]. assert (Hjj : j <> j0) by (intros <-; by apply Hnj).
        destruct (wf_disjoint _ Hwf p j am j0 am0 Ha Hat Hjj); lia.
      * rewrite Hbq by done. split; intros (j0 & am0 & Hat & Hr); exists j0, am0; (split; [|done]).
        -- apply alloc_at_free. split; [done|]. intros [_ ->].
           assert (am0 = am) as -> by (destruct Hat as (? & _), Ha as (? & _); congruence).
           apply andb_false_iff in E as [E|E]; reflect_bools; lia.
        -- by apply alloc_at_free in Hat as [Hat _].
    + rewrite lookup_insert_ne by (apply (wf_bitmaps_distinct _ (wf_meta _ Hwf)); done).
      exists bmq. split; [done|]. split; [done|]. intros i Hi. rewrite Hbq by done.
      split; intros (j0 & am0 & Hat & Hr); exists j0, am0; (split; [|done]).
      * apply alloc_at_free. split; [done|]. by intros [-> _].
      * by apply alloc_at_free in Hat as [Hat _].
  - intros q j1 am1 j2 am2 H1 H2 Hne. apply alloc_at_free in H1 as [H1 _], H2 as [H2 _].
    by apply (wf_disjoint _ Hwf q).
Qed.
End free.

(** ** The layout of a fresh heap *)

Lemma align_pool_spec pool_ chunks chunk : 0 < chunk -> 0 <= pool_ -> pool_ + chunk < 2 ^ 32 ->
  1 <= chunks < 2 ^ 32 ->
  let '(tmp, chunks') := align_pool pool_ chunks chunk in
  (chunk | tmp) /\ pool_ <= tmp /\ tmp + chunks' * chunk <= pool_ + chunks * chunk /\
  0 <= chunks' <= chunks.
Proof.
  intros Hc Hp He Hn. unfold align_pool.
  destruct (align_up_spec pool_ chunk) as [Hd Hr]; try lia.
  rewrite (u32_small (bytes_align_up64 _ _)) by (unfold is_u32; lia).
  set (tmp := bytes_align_up64 pool_ chunk) in *. split; [done|]. split; [lia|].
  destruct (tmp =? pool_) eqn:E; cbn [negb]; reflect_bools;
    rewrite u32_small by (unfold is_u32; lia); nia.
Qed.

(** The sizes the pools and bitmaps get from [h] bytes after the metadata. *)
Definition pool_chunks_of (h d chunk : Z) : Z := h / d / chunk.

Lemma pool_chunks_bound h d chunk : 0 < d -> 0 < chunk -> 0 <= h ->
  pool_chunks_of h d chunk * chunk * d <= h /\ h < (pool_chunks_of h d chunk + 1) * chunk * d /\
  0 <= pool_chunks_of h d chunk.
Proof.
  intros Hd Hc Hh. unfold pool_chunks_of.
  pose proof (Z.div_mod h d ltac:(lia)). pose proof (Z.mod_pos_bound h d Hd).
  pose proof (Z.div_mod (h / d) chunk ltac:(lia)). pose proof (Z.mod_pos_bound (h / d) chunk Hc).
  pose proof (Z.div_pos h d Hh Hd). pose proof (Z.div_pos (h / d) chunk ltac:(lia) Hc).
  repeat split; nia.
Qed.

Lemma pool_chunks_mono h h' d chunk : 0 < d -> 0 < chunk -> h <= h' ->
  pool_chunks_of h d chunk <= pool_chunks_of h' d chunk.
Proof. intros. unfold pool_chunks_of. by repeat (apply Z.div_le_mono; [done|]). Qed.

(** Where everything lies in a heap that starts at [v] and ends at [e]: the
    metadata, the three bitmaps, then the pools, highest chunk size first. *)
Record layout_ok (v e : Z) (m : GAllocatorHeapMeta) : Prop := {
  lay_meta : v + sizeof_GAllocatorHeapMeta <= m.(lo_bitmap);
  lay_lo_bitmap : m.(lo_bitmap) + m.(lo_bitmap_size) <= m.(mid_bitmap);
  lay_mid_bitmap : m.(mid_bitmap) + m.(mid_bitmap_size) <= m.(hi_bitmap);
  lay_hi_bitmap : m.(hi_bitmap) + m.(hi_bitmap_size) <= m.(hi_pool);
  lay_hi_pool : m.(hi_pool) + m.(hi_poolchunks) * HI_POOL_CHUNK_SIZE <= m.(mid_pool);
  lay_mid_pool : m.(mid_pool) + m.(mid_poolchunks) * MID_POOL_CHUNK_SIZE <= m.(lo_pool);
  lay_lo_pool : m.(lo_pool) + m.(lo_poolchunks) * LO_POOL_CHUNK_SIZE <= e }.

(** What the metadata's own numbers satisfy. *)
Definition pool_meta_ok (bms pl pc cs : Z) : Prop :=
  1 <= bms /\ 0 <= pc <= 8 * bms /\ 8 * bms * cs < 2 ^ 32 /\ 8 * bms < 2 ^ 31 /\
  pc * cs < 2 ^ 31 /\ (cs | pl).

Lemma init_heap_spec heap : 0 < heap.(vaddr) -> 1 <= heap.(pagespan) ->
  heap.(vaddr) + heap.(pagespan) * PAGESIZE < 2 ^ 32 ->
  exists m, gallocator_init_heap heap = Ret (Some m, 0) /\ m.(signature) = HEAP_SIGNATURE /\
    layout_ok heap.(vaddr) (heap.(vaddr) + heap.(pagespan) * PAGESIZE) m /\
    pool_meta_ok m.(lo_bitmap_size) m.(lo_pool) m.(lo_poolchunks) LO_POOL_CHUNK_SIZE /\
    pool_meta_ok m.(mid_bitmap_size) m.(mid_pool) m.(mid_poolchunks) MID_POOL_CHUNK_SIZE /\
    pool_meta_ok m.(hi_bitmap_size) m.(hi_pool) m.(hi_poolchunks) HI_POOL_CHUNK_SIZE.
Proof.
  destruct heap as [v ps]. cbn [vaddr pagespan]. unfold PAGESIZE. intros Hv Hps Hend.
  unfold gallocator_init_heap. cbn [vaddr pagespan]. unfold PAGESIZE.
  rewrite (u32_small (ps * 4096)) by (unfold is_u32; lia).
  change (u32 (bytes_align_up64 sizeof_GAllocatorHeapMeta HI_POOL_CHUNK_SIZE)) with 128. cbv zeta.
  rewrite (proj2 (Z.leb_gt (ps * 4096) 128)) by lia.
  rewrite (u32_small (ps * 4096 - 128)) by (unfold is_u32; lia).
  set (H := ps * 4096 - 128). assert (HH : 3968 <= H /\ H + 128 + v < 2 ^ 32) by lia.
  change (H / 4 / LO_POOL_CHUNK_SIZE) with (pool_chunks_of H 4 LO_POOL_CHUNK_SIZE).
  change (H / 4 / MID_POOL_CHUNK_SIZE) with (pool_chunks_of H 4 MID_POOL_CHUNK_SIZE).
  change (H / 2 / HI_POOL_CHUNK_SIZE) with (pool_chunks_of H 2 HI_POOL_CHUNK_SIZE).
  pose proof (pool_chunks_bound H 4 LO_POOL_CHUNK_SIZE ltac:(lia) eq_refl ltac:(lia)) as Bl.
  pose proof (pool_chunks_bound H 4 MID_POOL_CHUNK_SIZE ltac:(lia) eq_refl ltac:(lia)) as Bm.
  pose proof (pool_chunks_bound H 2 HI_POOL_CHUNK_SIZE ltac:(lia) eq_refl ltac:(lia)) as Bh.
  pose proof (fun h => pool_chunks_mono h H 4 LO_POOL_CHUNK_SIZE ltac:(lia) eq_refl) as Ml.
  pose proof (fun h => pool_chunks_mono h H 4 MID_POOL_CHUNK_SIZE ltac:(lia) eq_refl) as Mm.
  pose proof (fun h => pool_chunks_mono h H 2 HI_POOL_CHUNK_SIZE ltac:(lia) eq_refl) as Mh.
  set (cl := pool_chunks_of H 4 LO_POOL_CHUNK_SIZE) in *.
  set (cm := pool_chunks_of H 4 MID_POOL_CHUNK_SIZE) in *.
  set (ch := pool_chunks_of H 2 HI_POOL_CHUNK_SIZE) in *.
  destruct (ceil_spec cl 8) as [Cl _]; [lia|lia|]. destruct (ceil_spec cm 8) as [Cm _]; [lia|lia|].
  destruct (ceil_spec ch 8) as [Ch _]; [lia|lia|].
  unfold LO_POOL_CHUNK_SIZE, MID_POOL_CHUNK_SIZE, HI_POOL_CHUNK_SIZE in Bl, Bm, Bh.
  rewrite !(u32_small (ceil _ _)) by (unfold is_u32; lia).
  set (bl := ceil cl 8) in *. set (bm := ceil cm 8) in *. set (bh := ceil ch 8) in *.
  rewrite (u32_small (bl + bm + bh)) by (unfold is_u32; lia).
  rewrite (u32_small (H - _)) by (unfold is_u32; lia).
  set (H' := H - (bl + bm + bh)). assert (HH' : 3900 <= H' <= H) by lia.
  change (H' / 4 / LO_POOL_CHUNK_SIZE) with (pool_chunks_of H' 4 LO_POOL_CHUNK_SIZE).
  change (H' / 4 / MID_POOL_CHUNK_SIZE) with (pool_chunks_of H' 4 MID_POOL_CHUNK_SIZE).
  change (H' / 2 / HI_POOL_CHUNK_SIZE) with (pool_chunks_of H' 2 HI_POOL_CHUNK_SIZE).
  pose proof (pool_chunks_bound H' 4 LO_POOL_CHUNK_SIZE ltac:(lia) eq_refl ltac:(lia)) as Bl'.
  pose proof (pool_chunks_bound H' 4 MID_POOL_CHUNK_SIZE ltac:(lia) eq_refl ltac:(lia)) as Bm'.
  pose proof (pool_chunks_bound H' 2 HI_POOL_CHUNK_SIZE ltac:(lia) eq_refl ltac:(lia)) as Bh'.
  specialize (Ml H' ltac:(lia)). specialize (Mm H' ltac:(lia)). specialize (Mh H' ltac:(lia)).
  set (dl := pool_chunks_of H' 4 LO_POOL_CHUNK_SIZE) in *.
  set (dm := pool_chunks_of H' 4 MID_POOL_CHUNK_SIZE) in *.
  set (dh := pool_chunks_of H' 2 HI_POOL_CHUNK_SIZE) in *.
  unfold LO_POOL_CHUNK_SIZE, MID_POOL_CHUNK_SIZE, HI_POOL_CHUNK_SIZE.
  unfold LO_POOL_CHUNK_SIZE, MID_POOL_CHUNK_SIZE, HI_POOL_CHUNK_SIZE in Bl', Bm', Bh'.
  rewrite (u32_small (v + 128)) by (unfold is_u32; lia).
  rewrite (u32_small (v + 128 + bl)) by (unfold is_u32; lia).
  rewrite (u32_small (v + 128 + bl + bm)) by (unfold is_u32; lia).
  rewrite (u32_small (v + 128 + bl + bm + bh)) by (unfold is_u32; lia).
  set (P := v + 128 + bl + bm + bh).
  rewrite (u32_small (P + dh * 128)) by (unfold is_u32; lia).
  rewrite (u32_small (P + dh * 128 + dm * 64)) by (unfold is_u32; lia).
  pose proof (align_pool_spec P dh 128 ltac:(lia) ltac:(lia) ltac:(lia) ltac:(lia)) as Ah.
  pose proof (align_pool_spec (P + dh * 128) dm 64 ltac:(lia) ltac:(lia) ltac:(lia) ltac:(lia)) as Am.
  pose proof (align_pool_spec (P + dh * 128 + dm * 64) dl 32 ltac:(lia) ltac:(lia) ltac:(lia) ltac:(lia)) as Al.
  destruct (align_pool P dh 128) as [hp hc], (align_pool (P + dh * 128) dm 64) as [mp mc],
    (align_pool (P + dh * 128 + dm * 64) dl 32) as [lp lc].
  destruct Ah as (Ah1 & Ah2 & Ah3 & Ah4), Am as (Am1 & Am2 & Am3 & Am4), Al as (Al1 & Al2 & Al3 & Al4).
  assert (forall x y, 0 < y -> (y | x) -> (x mod y =? 0) = true) as Hmod
    by (intros x y Hy Hd; by apply Z.eqb_eq, Z.mod_divide; [lia|]).
  rewrite !Hmod by (done || lia). cbn [assert_]. rewrite !bind_Ret.
  eexists. split; [reflexivity|]. split; [reflexivity|]. split; [|split; [|split]].
  - constructor; cbn -[Z.add Z.mul]; unfold sizeof_GAllocatorHeapMeta, LO_POOL_CHUNK_SIZE, MID_POOL_CHUNK_SIZE, HI_POOL_CHUNK_SIZE; lia.
  - unfold pool_meta_ok. cbn. repeat split; try assumption; lia.
  - unfold pool_meta_ok. cbn. repeat split; try assumption; lia.
  - unfold pool_meta_ok. cbn. repeat split; try assumption; lia.
Qed.

Lemma layout_meta_wf v e m : 0 < v -> e < 2 ^ 32 -> m.(signature) = HEAP_SIGNATURE ->
  layout_ok v e m ->
  pool_meta_ok m.(lo_bitmap_size) m.(lo_pool) m.(lo_poolchunks) LO_POOL_CHUNK_SIZE ->
  pool_meta_ok m.(mid_bitmap_size) m.(mid_pool) m.(mid_poolchunks) MID_POOL_CHUNK_SIZE ->
  pool_meta_ok m.(hi_bitmap_size) m.(hi_pool) m.(hi_poolchunks) HI_POOL_CHUNK_SIZE ->
  meta_wf m.
Proof.
  intros Hv He Hs [L1 L2 L3 L4 L5 L6 L7] (A1 & A2 & A3 & A4 & A5 & A6)
    (B1 & B2 & B3 & B4 & B5 & B6) (C1 & C2 & C3 & C4 & C5 & C6).
  unfold sizeof_GAllocatorHeapMeta, LO_POOL_CHUNK_SIZE, MID_POOL_CHUNK_SIZE, HI_POOL_CHUNK_SIZE in *.
  split.
  - done.
  - intros []; constructor; cbn; unfold LO_POOL_CHUNK_SIZE, MID_POOL_CHUNK_SIZE, HI_POOL_CHUNK_SIZE; lia.
  - intros []; constructor; cbn; unfold LO_POOL_CHUNK_SIZE, MID_POOL_CHUNK_SIZE, HI_POOL_CHUNK_SIZE;
      done || lia.
  - intros []; cbn; unfold LO_POOL_CHUNK_SIZE, MID_POOL_CHUNK_SIZE, HI_POOL_CHUNK_SIZE; lia.
  - intros [] []; cbn; lia || done.
  - intros [] []; unfold pool_hi_addr; cbn;
      unfold LO_POOL_CHUNK_SIZE, MID_POOL_CHUNK_SIZE, HI_POOL_CHUNK_SIZE; lia || done.
Qed.

Lemma zero_bitmap c n i : Z.of_nat n = c.(bitmapsize) -> bm_ok c (replicate n 0) /\
  bm_bit (replicate n 0) i = false.
Proof.
  intros Hn. split.
  - split; [by rewrite length_replicate|]. apply Forall_replicate. unfold is_u8. lia.
  - unfold bm_bit. destruct (replicate n 0 !! _) eqn:E; cbn; [|apply Z.bits_0].
    apply lookup_replicate in E as [-> _]. apply Z.bits_0.
Qed.

Lemma zeroed_heap_wf m : meta_wf m -> heap_wf (zeroed_heap m).
Proof.
  intros Hm. assert (Hno : forall p j am, ~ alloc_at (zeroed_heap m) p j am).
  { intros p j am (Hl & _). cbn [zeroed_heap ametas] in Hl. by rewrite lookup_empty in Hl. }
  split.
  - done.
  - intros a am Hl. cbn [zeroed_heap ametas] in Hl. by rewrite lookup_empty in Hl.
  - intros p. cbn [zeroed_heap hmeta bitmaps]. exists (replicate (Z.to_nat (pctx m p).(bitmapsize)) 0).
    pose proof (ok_chunks _ (wf_ctx _ Hm p)).
    split; [|split; [by apply (zero_bitmap (pctx m p) _ 0); lia|]].
    + pose proof (wf_bitmaps_distinct _ Hm) as Hd.
      destruct p; cbn [pctx bitmapstart bitmapsize].
      * rewrite lookup_insert_ne by (by apply (Hd Hi Lo)).
        rewrite lookup_insert_ne by (by apply (Hd Mid Lo)). by rewrite lookup_insert_eq.
      * rewrite lookup_insert_ne by (by apply (Hd Hi Mid)). by rewrite lookup_insert_eq.
      * by rewrite lookup_insert_eq.
    + intros i Hi. rewrite (proj2 (zero_bitmap (pctx m p) (Z.to_nat (pctx m p).(bitmapsize)) i ltac:(lia))).
      split; [done|]. intros (j & am & Ha & _). by apply Hno in Ha.
  - intros p j1 am1 j2 am2 H1. by apply Hno in H1.
Qed.

(** Allocation through the heap signature check. *)
Lemma alloc_aligned_spec h sz k : heap_wf h -> 0 < sz < 2 ^ 32 -> 0 <= k <= 31 ->
  (gallocator_alloc_aligned sz (2 ^ k) h = Ret (h, 0) /\
   forall bm j, let c := pctx h.(hmeta) (class_of sz) in
     h.(bitmaps) !! c.(bitmapstart) = Some bm ->
     j + ceil sz c.(chunksize) < c.(poolchunks) -> ~ fits c bm (2 ^ k) (ceil sz c.(chunksize)) j) \/
  exists h' a, gallocator_alloc_aligned sz (2 ^ k) h = Ret (h', a) /\ heap_wf h' /\
    0 < a < 2 ^ 32 /\ (2 ^ k | a) /\ live_size h a = None /\
    h'.(hmeta) = h.(hmeta) /\
    (exists cs, h'.(ametas) = <[a - sizeof_GAllocationMeta :=
                                 mkAllocMeta ALLOCATION_SIGNATURE sz cs (2 ^ k)]> h.(ametas)) /\
    (exists p, (pctx h.(hmeta) p).(poolstart) <= a /\ a + sz <= pool_hi_addr (pctx h.(hmeta) p)) /\
    forall b, live_size h' b = if decide (b = a) then Some sz else live_size h b.
Proof.
  intros Hwf Hsz Hk. unfold gallocator_alloc_aligned.
  rewrite (wf_sig _ (wf_meta _ Hwf)), Z.eqb_refl. cbn [negb].
  destruct (wf_bits _ Hwf (class_of sz)) as (bm & Hbm & Hok & _).
  destruct (do_alloc_cases h Hwf sz k Hsz Hk bm Hbm Hok) as [[Hnone Hno]|(j & bm' & Hfit & He & Hok' & Hb & Hr)].
  - left. split; [done|]. cbv zeta. intros bm0 j Hbm0 Hj. replace bm0 with bm by congruence. by apply Hno.
  - right. eexists _, _. split; [exact Hr|].
    pose proof (alloc_result_wf h Hwf sz k Hsz Hk bm bm' j Hbm Hfit He Hok' Hb) as Hwf'.
    pose proof (alloc_new_at h sz k Hsz Hk bm bm' j Hfit He) as Hat.
    split; [done|].
    destruct (alloc_at_range _ _ _ _ (wf_meta _ Hwf') Hat) as (R1 & R2 & _ & _). cbn [hmeta alloc_result size] in R1, R2.
    pose proof (wf_pool _ (wf_meta _ Hwf) (class_of sz)) as Hp. destruct Hp. unfold pool_hi_addr in R2.
    split; [lia|]. split; [apply Hfit|].
    split; [unfold live_size; by erewrite alloc_key_fresh|].
    split; [done|]. split; [by eexists|]. split. { exists (class_of sz). unfold pool_hi_addr. lia. }
    intros b. unfold live_size. cbn [ametas alloc_result]. case_decide as Hbd.
    + subst b. by rewrite lookup_insert_eq.
    + rewrite lookup_insert_ne; [done|lia].
Qed.

Lemma live_alloc_at h a n : heap_wf h -> live_size h a = Some n ->
  exists p j am, alloc_at h p j am /\ size am = n /\
    a = (pctx h.(hmeta) p).(poolstart) + j * (pctx h.(hmeta) p).(chunksize) /\
    h.(ametas) !! (a - sizeof_GAllocationMeta) = Some am.
Proof.
  intros Hwf Hl. unfold live_size in Hl. apply fmap_Some in Hl as (am & Hl & ->).
  destruct (wf_allocs _ Hwf a am Hl) as (p & j & Ha & Hat). by exists p, j, am.
Qed.

Lemma free_spec h a n : heap_wf h -> live_size h a = Some n ->
  exists h', gallocator_free a h = Ret h' /\ heap_wf h' /\ h'.(hmeta) = h.(hmeta) /\
    h'.(ametas) = delete (a - sizeof_GAllocationMeta) h.(ametas) /\
    forall b, live_size h' b = if decide (b = a) then None else live_size h b.
Proof.
  intros Hwf Hl. destruct (live_alloc_at h a n Hwf Hl) as (p & j & am & Hat & _ & -> & _).
  destruct (wf_bits _ Hwf p) as (bm & Hbm & Hok & _).
  destruct (free_runs h Hwf p j am Hat bm Hbm Hok) as (bm' & Hok' & Hb & Hr).
  eexists. split; [exact Hr|]. split; [by eapply free_result_wf|]. split; [done|]. split; [done|].
  intros b. unfold live_size. cbn [ametas free_result]. case_decide as Hbd.
  - subst b. by rewrite lookup_delete_eq.
  - rewrite lookup_delete_ne; [done|lia].
Qed.

Lemma free_not_live h a : heap_wf h -> live_size h a = None -> gallocator_free a h = Panic.
Proof.
  intros Hwf Hl. unfold gallocator_free, allocmeta_of.
  rewrite (wf_sig _ (wf_meta _ Hwf)), Z.eqb_refl. cbn [negb].
  unfold live_size in Hl. apply fmap_None in Hl. by rewrite Hl.
Qed.

(** Blocks stay a chunk apart: the metadata of each lies between. *)
Lemma live_disjoint h a n b k : heap_wf h -> live_size h a = Some n -> live_size h b = Some k ->
  a <> b -> a + n + 32 <= b \/ b + k + 32 <= a.
Proof.
  intros Hwf Ha Hb Hne.
  destruct (live_alloc_at h a n Hwf Ha) as (p & j & am & Hat & <- & -> & _).
  destruct (live_alloc_at h b k Hwf Hb) as (q & i & bm & Hbt & <- & -> & _).
  destruct (alloc_at_range _ _ _ _ (wf_meta _ Hwf) Hat) as (R1 & R2 & _ & R4).
  destruct (alloc_at_range _ _ _ _ (wf_meta _ Hwf) Hbt) as (S1 & S2 & _ & S4).
  destruct (decide (p = q)) as [Hpq|Hpq].
  - subst q. assert (Hij : j <> i) by (intros ->; done).
    pose proof (chunk_ge h.(hmeta) p). set (c := pctx h.(hmeta) p) in *.
    destruct (nchunks_bound am) as [Hn _]; [apply Hat|destruct Hat as (_ & _ & -> & _); fold c; lia|].
    destruct (nchunks_bound bm) as [Hm _]; [apply Hbt|destruct Hbt as (_ & _ & -> & _); fold c; lia|].
    assert (am_chunksize am = c.(chunksize)) as E1 by apply Hat.
    assert (am_chunksize bm = c.(chunksize)) as E2 by apply Hbt. rewrite E1 in Hn. rewrite E2 in Hm.
    destruct (wf_disjoint _ Hwf p j am i bm Hat Hbt Hij); [left|right].
    + assert ((j + nchunks am + 1) * c.(chunksize) <= i * c.(chunksize)) by (apply Z.mul_le_mono_nonneg_r; lia). lia.
    + assert ((i + nchunks bm + 1) * c.(chunksize) <= j * c.(chunksize)) by (apply Z.mul_le_mono_nonneg_r; lia). lia.
  - assert (0 < size am /\ 0 < size bm) as [? ?] by (split; [apply Hat|apply Hbt]).
    destruct (wf_pools_disjoint _ (wf_meta _ Hwf) p q Hpq); lia.
Qed.

(** ** Properties *)

(** a heap of at least one page that ends below 4 GiB is always initialised
    successfully, and its metadata, its three bitmaps and its three pools lie
    inside it, in that order, without overlapping; every pool starts on a
    multiple of its chunk size and has a bitmap bit for each chunk; with
    zeroed bitmaps the heap is well formed and holds no allocation. *)
Theorem init_heap_layout heap : 0 < heap.(vaddr) -> 1 <= heap.(pagespan) ->
  heap.(vaddr) + heap.(pagespan) * PAGESIZE < 2 ^ 32 ->
  exists m, gallocator_init_heap heap = Ret (Some m, 0) /\
    layout_ok heap.(vaddr) (heap.(vaddr) + heap.(pagespan) * PAGESIZE) m /\
    (forall p, ((pctx m p).(chunksize) | (pctx m p).(poolstart)) /\
               (pctx m p).(poolchunks) <= 8 * (pctx m p).(bitmapsize)) /\
    heap_wf (zeroed_heap m) /\ forall a, live_size (zeroed_heap m) a = None.
Proof.
  intros Hv Hp He. destruct (init_heap_spec heap Hv Hp He) as (m & Hi & Hs & Hl & A & B & C).
  pose proof (layout_meta_wf _ _ m Hv He Hs Hl A B C) as Hm.
  exists m. split; [done|]. split; [done|]. split; [|split; [by apply zeroed_heap_wf|done]].
  intros p. split; [apply (pool_aligned _ (wf_pool _ Hm p))|apply (ok_chunks _ (wf_ctx _ Hm p))].
Qed.

Lemma init_heap_layout_witness :
  exists m, gallocator_init_heap (mkHeap 0xC0400000 1024) = Ret (Some m, 0) /\
    layout_ok 0xC0400000 (0xC0400000 + 1024 * PAGESIZE) m.
Proof.
  destruct (init_heap_layout (mkHeap 0xC0400000 1024)) as (m & H1 & H2 & _);
    [done|done|done|by exists m].
Defined.

(** A two-page heap, for concrete runs. *)
Definition demo_heap : gheap :=
  match gallocator_init_heap (mkHeap 0xC0400000 2) with
  | Ret (Some m, _) => zeroed_heap m
  | _ => mkGHeap (mkHeapMeta 0 0 0 0 0 0 0 0 0 0 0 0 0) ∅ ∅
  end.

(** The address an allocation returned. *)
Definition addr_of (r : outcome (gheap * Z)) : Z := match r with Ret (_, a) => a | _ => 0 end.

Lemma demo_heap_wf : heap_wf demo_heap.
Proof.
  destruct (init_heap_spec (mkHeap 0xC0400000 2)) as (m & Hi & Hs & Hl & A & B & C); [done|done|done|].
  unfold demo_heap. rewrite Hi. apply zeroed_heap_wf.
  by apply (layout_meta_wf 0xC0400000 (0xC0400000 + 2 * PAGESIZE)).
Qed.

(** C9: on a well-formed heap an allocation with a power-of-two alignment always
    returns.  Either it gives a non-null address with that alignment, inside
    one pool, that was not allocated and that overlaps no live allocation, and
    the heap stays well formed with exactly that allocation added; or it gives
    null, the heap is unchanged, and no run of chunks of the size's pool would
    have done: none has the chunks and the metadata chunk free, the alignment,
    and an end strictly before the pool's last chunk boundary. *)
Theorem alloc_correct h sz k : heap_wf h -> 0 < sz < 2 ^ 32 -> 0 <= k <= 31 ->
  (gallocator_alloc_aligned sz (2 ^ k) h = Ret (h, 0) /\
   forall bm j, let c := pctx h.(hmeta) (class_of sz) in
     h.(bitmaps) !! c.(bitmapstart) = Some bm ->
     j + ceil sz c.(chunksize) < c.(poolchunks) -> ~ fits c bm (2 ^ k) (ceil sz c.(chunksize)) j) \/
  exists h' a, gallocator_alloc_aligned sz (2 ^ k) h = Ret (h', a) /\ heap_wf h' /\
    0 < a < 2 ^ 32 /\ (2 ^ k | a) /\
    (exists p, (pctx h.(hmeta) p).(poolstart) <= a /\ a + sz <= pool_hi_addr (pctx h.(hmeta) p)) /\
    (forall b n, live_size h b = Some n -> b + n <= a \/ a + sz <= b) /\
    forall b, live_size h' b = if decide (b = a) then Some sz else live_size h b.
Proof.
  intros Hwf Hsz Hk.
  destruct (alloc_aligned_spec h sz k Hwf Hsz Hk) as [?|(h' & a & Hr & Hwf' & Ha & Hal & Hf & _ & _ & Hin & Hlive)];
    [by left|right]. exists h', a. do 5 (split; [done|]). split; [|done].
  intros b n Hb. assert (b <> a) by (intros ->; congruence).
  destruct (live_disjoint h' a sz b n Hwf'); try lia; rewrite Hlive; by case_decide.
Qed.

Lemma alloc_correct_witness :
  exists h' a, gallocator_alloc_aligned 1000 (2 ^ 9) demo_heap = Ret (h', a) /\ heap_wf h' /\
    a = 0xC0400200 /\ live_size h' a = Some 1000.
Proof.
  destruct (alloc_correct demo_heap 1000 9 demo_heap_wf ltac:(lia) ltac:(lia))
    as [[H _]|(h' & a & H & Hwf & _ & _ & _ & _ & Hl)];
    pose proof (f_equal addr_of H) as Ha; vm_compute in Ha; [done|].
  exists h', a. split; [exact H|]. split; [exact Hwf|]. clear H.
  split; [symmetry; exact Ha|]. rewrite Hl, decide_True by reflexivity. reflexivity.
Defined.

(** freeing a live allocation removes exactly it and keeps the heap well
    formed; freeing any address that is not a live allocation, a second free
    of the same one included, stops the kernel. *)
Theorem free_correct h a : heap_wf h ->
  match live_size h a with
  | Some n => exists h', gallocator_free a h = Ret h' /\ heap_wf h' /\
      (forall b, live_size h' b = if decide (b = a) then None else live_size h b) /\
      gallocator_free a h' = Panic
  | None => gallocator_free a h = Panic
  end.
Proof.
  intros Hwf. destruct (live_size h a) as [n|] eqn:Hl; [|by apply free_not_live].
  destruct (free_spec h a n Hwf Hl) as (h' & Hr & Hwf' & _ & _ & Hlive). exists h'.
  do 3 (split; [done|]). apply free_not_live; [done|]. rewrite Hlive. by case_decide.
Qed.

Lemma free_correct_witness : gallocator_free 0xC0400200 demo_heap = Panic /\ heap_wf demo_heap.
Proof. split; [apply (free_correct demo_heap 0xC0400200 demo_heap_wf)|apply demo_heap_wf]. Defined.
