(* ===== verification/Kmalloc.v ===== *)
(** * The kernel allocator

    [kernel/mem/kmalloc.c] with its only driver, the gallocator: the heap
    table, the active heap, the statistics, and the contents of the blocks,
    which [kcalloc], [krealloc] and the driver's [free] write to. *)
From S2P Require Import Prelude Bitwise Gallocator Alloc.
Import Bits.

(** ** State *)

Definition KMALLOC_MAX_HEAPS : nat := 4.
Definition ENOSPC : Z := 28.

Record KMallocStatistics := mkStats {
  total_allocations : Z; total_frees : Z; total_allocated : Z; total_freed : Z }.

(** [g_driver] is the gallocator with its [default_alignment]; a heap-table
    entry is the heap and what its memory holds; [data] is the bytes of the
    blocks, an address never written reading as 0. *)
Record kstate := mkK {
  default_alignment : Z;
  g_heaps : list (Heap * gheap);
  g_active_heap : option nat;
  g_statistics : KMallocStatistics;
  data : gmap Z Z }.

Definition set_heap (k : kstate) (i : nat) (g : gheap) : kstate :=
  mkK k.(default_alignment) (alter (fun '(h, _) => (h, g)) i k.(g_heaps))
      k.(g_active_heap) k.(g_statistics) k.(data).
Definition set_stats (k : kstate) (s : KMallocStatistics) : kstate :=
  mkK k.(default_alignment) k.(g_heaps) k.(g_active_heap) s k.(data).
Definition set_data (k : kstate) (d : gmap Z Z) : kstate :=
  mkK k.(default_alignment) k.(g_heaps) k.(g_active_heap) k.(g_statistics) d.

Definition read_data (d : gmap Z Z) (a : Z) : Z := default 0 (d !! a).
Fixpoint copy_data (n : nat) (dest src : Z) (d : gmap Z Z) : gmap Z Z :=
  match n with
  | O => d
  | S n => copy_data n (dest + 1) (src + 1) (<[dest := read_data d src]> d)
  end.
Fixpoint zero_data (n : nat) (dest : Z) (d : gmap Z Z) : gmap Z Z :=
  match n with O => d | S n => zero_data n (dest + 1) (<[dest := 0]> d) end.

(** ** Operations *)

Definition kmalloc_check_driver (default_alignment : Z) : Z :=
  if bw_is_power_of_two default_alignment then 0 else - 22.

(** [max_align] is [_Alignof(max_align_t)], which the compiler chooses. *)
Definition kmalloc_init (max_align : Z) (k : kstate) : kstate * Z :=
  let k := mkK max_align k.(g_heaps) k.(g_active_heap) k.(g_statistics) k.(data) in
  let st := kmalloc_check_driver max_align in
  if st <? 0 then (k, st)
  else let st := gallocator_init in if st <? 0 then (k, st) else (k, 0).

(** The new heap's pages are zero. *)
Definition kmalloc_register_heap (heap : Heap) (k : kstate) : outcome (kstate * Z) :=
  if (length k.(g_heaps) =? KMALLOC_MAX_HEAPS)%nat then Ret (k, - ENOSPC)
  else
    r ← gallocator_init_heap heap;
    if r.2 <? 0 then Panic
    else
      meta ← deref r.1;
      Ret (mkK k.(default_alignment) (k.(g_heaps) ++ [(heap, zeroed_heap meta)])
             k.(g_active_heap) k.(g_statistics) k.(data), Z.of_nat (length k.(g_heaps))).

Definition kmalloc_use_heap (id : Z) (k : kstate) : kstate * Z :=
  if id >=? Z.of_nat (length k.(g_heaps)) then (k, - 22)
  else (mkK k.(default_alignment) k.(g_heaps) (Some (Z.to_nat id)) k.(g_statistics) k.(data), 0).

Definition kmalloc_owns_va (va : Z) (k : kstate) : bool :=
  existsb (fun hg => heap_is_addr_inside va hg.1) k.(g_heaps).

(** Dereferencing [g_active_heap]: its index and its table entry. *)
Definition active (k : kstate) : outcome (nat * (Heap * gheap)) :=
  i ← deref k.(g_active_heap); hg ← deref (k.(g_heaps) !! i); Ret (i, hg).

(** The statistics count failed allocations too. *)
Definition kmalloc_aligned_with_heap (size alignment : Z) (k : kstate) : outcome (kstate * Z) :=
  a ← active k;
  r ← gallocator_alloc_aligned size alignment a.2.2;
  let s := k.(g_statistics) in
  Ret (set_stats (set_heap k a.1 r.1)
         (mkStats (u32 (s.(total_allocations) + 1)) s.(total_frees)
            (u32 (s.(total_allocated) + size)) s.(total_freed)), r.2).

Definition kfree_with_heap (addr : Z) (k : kstate) : outcome kstate :=
  a ← active k;
  let size := gallocator_allocation_size addr a.2.2 in
  let s := k.(g_statistics) in
  let k := set_stats k (mkStats s.(total_allocations) (u32 (s.(total_frees) + 1))
                          s.(total_allocated) (u32 (s.(total_freed) + u32 size))) in
  g ← gallocator_free addr a.2.2;
  Ret (set_data (set_heap k a.1 g)
         (zero_data (Z.to_nat (size + sizeof_GAllocationMeta)) (addr - sizeof_GAllocationMeta) k.(data))).

Definition kmalloc_aligned (size alignment : Z) (k : kstate) : outcome (kstate * Z) :=
  if size =? 0 then Ret (k, 0)
  else if negb (bw_is_power_of_two alignment) then Panic
  else
    r ← kmalloc_aligned_with_heap size alignment k;
    _ ← assert_ (r.2 mod alignment =? 0);
    Ret r.

Definition kmalloc (size : Z) (k : kstate) : outcome (kstate * Z) :=
  kmalloc_aligned size k.(default_alignment) k.

Definition kcalloc (size : Z) (k : kstate) : outcome (kstate * Z) :=
  r ← kmalloc size k;
  if negb (r.2 =? 0) then Ret (set_data r.1 (zero_data (Z.to_nat size) r.2 r.1.(data)), r.2)
  else Ret r.

Definition kfree (addr : Z) (k : kstate) : outcome kstate :=
  if addr =? 0 then Panic
  else
    a ← active k;
    if negb (heap_is_addr_inside addr a.2.1) then Panic else kfree_with_heap addr k.

Definition krealloc (addr size : Z) (k : kstate) : outcome (kstate * Z) :=
  if size =? 0 then Ret (k, 0)
  else
    a ← active k;
    if negb (addr =? 0) && negb (heap_is_addr_inside addr a.2.1) then Ret (k, 0)
    else if negb (addr =? 0) then
      let res := gallocator_allocation_size addr a.2.2 in
      if res <=? 0 then Ret (k, 0)
      else
        let prevsize := res in
        if prevsize =? size then Ret (k, addr)
        else
          let res := gallocator_allocation_alignment addr a.2.2 in
          if res <? 0 then Ret (k, 0)
          else if negb (bw_is_power_of_two res) then Panic
          else
            r ← kmalloc_aligned_with_heap size res k;
            if r.2 =? 0 then Ret (r.1, 0)
            else
              let n := if prevsize <? size then prevsize else size in
              let k := set_data r.1 (copy_data (Z.to_nat n) r.2 addr r.1.(data)) in
              k ← kfree_with_heap addr k;
              Ret (k, r.2)
    else kmalloc_aligned_with_heap size k.(default_alignment) k.

(** ** The invariant *)

(** The heap's pools lie in the heap. *)
Definition heap_covers (h : Heap) (g : gheap) : Prop :=
  0 < h.(vaddr) /\ 0 <= h.(pagespan) /\ h.(vaddr) + h.(pagespan) * PAGESIZE < 2 ^ 32 /\
  forall p, h.(vaddr) <= (pctx g.(hmeta) p).(poolstart) /\
            pool_hi_addr (pctx g.(hmeta) p) <= h.(vaddr) + h.(pagespan) * PAGESIZE.

(** A usable allocator: a power-of-two default alignment and a well-formed
    active heap. *)
Definition kwf (k : kstate) : Prop :=
  (exists e, 0 <= e <= 30 /\ k.(default_alignment) = 2 ^ e) /\
  exists i h g, k.(g_active_heap) = Some i /\ k.(g_heaps) !! i = Some (h, g) /\
    heap_wf g /\ heap_covers h g /\
    (forall a am, g.(ametas) !! a = Some am -> exists e, 0 <= e <= 30 /\ am.(alignment) = 2 ^ e).

Definition klive (k : kstate) (a : Z) : option Z :=
  match active k with Ret (_, (_, g)) => live_size g a | _ => None end.

Lemma active_ret k i h g : k.(g_active_heap) = Some i -> k.(g_heaps) !! i = Some (h, g) ->
  active k = Ret (i, (h, g)).
Proof. intros H1 H2. unfold active. rewrite H1. cbn. by rewrite H2. Qed.

Lemma set_heap_lookup k i h g g' : k.(g_heaps) !! i = Some (h, g) ->
  (set_heap k i g').(g_heaps) !! i = Some (h, g').
Proof. intros H. cbn [g_heaps set_heap]. by rewrite list_lookup_alter_eq, H. Qed.

Lemma pow2_check e : 0 <= e <= 31 -> bw_is_power_of_two (2 ^ e) = true.
Proof.
  intros He. unfold bw_is_power_of_two. assert (0 < 2 ^ e <= 2 ^ 31) by (split; [lia|apply Z.pow_le_mono_r; lia]).
  rewrite u64_small by (unfold is_u64; lia). rewrite land_pred_pow2 by lia.
  by rewrite (proj2 (Z.eqb_neq (2 ^ e) 0)) by lia.
Qed.

Lemma inside_heap h g a n : heap_wf g -> heap_covers h g -> live_size g a = Some n ->
  heap_is_addr_inside a h = true /\ 0 < a < 2 ^ 32 /\ 0 < n < 2 ^ 31.
Proof.
  intros Hwf (H0 & Hp & He & Hc) Hl.
  destruct (live_alloc_at g a n Hwf Hl) as (p & j & am & Hat & Hn & Ha & _).
  destruct (alloc_at_range _ _ _ _ (wf_meta _ Hwf) Hat) as (R1 & R2 & R3 & _). rewrite <- Ha in R1, R2.
  assert (0 < size am) by apply Hat. destruct (Hc p).
  unfold heap_is_addr_inside. unfold PAGESIZE in *. rewrite !u32_small by (unfold is_u32; lia || (rewrite u32_small; unfold is_u32; lia)).
  rewrite Z.geb_leb. split; [|lia]. apply andb_true_intro. split; [apply Z.leb_le|apply Z.ltb_lt]; lia.
Qed.

Lemma live_meta g a n : heap_wf g -> live_size g a = Some n ->
  exists am, g.(ametas) !! (a - sizeof_GAllocationMeta) = Some am /\ am.(size) = n /\
    0 < n < 2 ^ 31 /\ gallocator_allocation_size a g = n /\
    gallocator_allocation_alignment a g = i32 am.(alignment).
Proof.
  intros Hwf Hl. destruct (live_alloc_at g a n Hwf Hl) as (p & j & am & Hat & Hn & Ha & Hm).
  destruct (alloc_at_range _ _ _ _ (wf_meta _ Hwf) Hat) as (_ & _ & R3 & _).
  assert (0 < size am) by apply Hat. exists am.
  unfold gallocator_allocation_size, gallocator_allocation_alignment, allocmeta_of.
  rewrite (wf_sig _ (wf_meta _ Hwf)), Z.eqb_refl, Hm. cbn [negb].
  assert (am_signature am = ALLOCATION_SIGNATURE) as -> by apply Hat. rewrite Z.eqb_refl.
  rewrite i32_small by (unfold is_i32; lia). repeat split; done || lia.
Qed.

(** ** The driver calls, on the kernel's state *)
Section ops.
Context (k : kstate) (Hk : kwf k).

(** Replacing the active heap by a well-formed one keeps the invariant. *)
Lemma kwf_update i h g g' s d : k.(g_active_heap) = Some i -> k.(g_heaps) !! i = Some (h, g) ->
  heap_covers h g -> heap_wf g' -> g'.(hmeta) = g.(hmeta) ->
  (forall a am, g'.(ametas) !! a = Some am -> exists e, 0 <= e <= 30 /\ am.(alignment) = 2 ^ e) ->
  let k' := set_data (set_stats (set_heap k i g') s) d in
  kwf k' /\ active k' = Ret (i, (h, g')) /\ (forall b, klive k' b = live_size g' b).
Proof.
  intros Hi Hg Hc Hwf Hm Hal. cbv zeta.
  assert (Hact : active (set_data (set_stats (set_heap k i g') s) d) = Ret (i, (h, g'))).
  { apply active_ret; [done|]. by eapply set_heap_lookup. }
  split; [|split; [done|]].
  - destruct Hk as [He _]. split; [exact He|]. exists i, h, g'. split; [done|].
    split; [by apply (set_heap_lookup k i h g)|]. split; [done|]. split; [|done].
    unfold heap_covers. by rewrite Hm.
  - intros b. unfold klive. by rewrite Hact.
Qed.

Lemma with_heap_spec sz e : 0 < sz < 2 ^ 32 -> 0 <= e <= 30 ->
  exists k' p, kmalloc_aligned_with_heap sz (2 ^ e) k = Ret (k', p) /\ kwf k' /\
    k'.(data) = k.(data) /\
    ((p = 0 /\ forall b, klive k' b = klive k b) \/
     (0 < p < 2 ^ 32 /\ (2 ^ e | p) /\ klive k p = None /\
      forall b, klive k' b = if decide (b = p) then Some sz else klive k b)).
Proof.
  intros Hsz He. pose proof Hk as [_ (i & h & g & Hi & Hg & Hwf & Hc & Hal)].
  assert (Hlk : forall b, klive k b = live_size g b) by (intros b; unfold klive; by rewrite (active_ret k i h g)).
  unfold kmalloc_aligned_with_heap. rewrite (active_ret k i h g), bind_Ret by done. cbn [fst snd].
  destruct (alloc_aligned_spec g sz e Hwf Hsz ltac:(lia))
    as [[-> _]|(g' & p & -> & Hwf' & Hp & Hd & Hf & Hm & (cs & Ham) & _ & Hl)]; rewrite bind_Ret; cbn [fst snd].
  - destruct (kwf_update i h g g (mkStats (u32 (k.(g_statistics).(total_allocations) + 1))
      k.(g_statistics).(total_frees) (u32 (k.(g_statistics).(total_allocated) + sz)) k.(g_statistics).(total_freed)) k.(data))
      as (H1 & _ & H2); try done.
    eexists _, 0. split; [reflexivity|]. split; [exact H1|]. split; [done|]. left. split; [done|].
    intros b. rewrite Hlk. apply H2.
  - destruct (kwf_update i h g g' (mkStats (u32 (k.(g_statistics).(total_allocations) + 1))
      k.(g_statistics).(total_frees) (u32 (k.(g_statistics).(total_allocated) + sz)) k.(g_statistics).(total_freed)) k.(data))
      as (H1 & _ & H2); try done.
    { intros a am Ha. rewrite Ham in Ha. apply lookup_insert_Some in Ha as [[_ <-]|[_ Ha]]; [by exists e|by eapply Hal]. }
    eexists _, p. split; [reflexivity|]. split; [exact H1|]. split; [done|]. right.
    split; [done|]. split; [done|]. split; [by rewrite Hlk|].
    intros b. rewrite Hlk, <- Hl. apply H2.
Qed.

Lemma kfree_with_heap_spec a n : klive k a = Some n ->
  exists k', kfree_with_heap a k = Ret k' /\ kwf k' /\
    k'.(data) = zero_data (Z.to_nat (n + 16)) (a - 16) k.(data) /\
    forall b, klive k' b = if decide (b = a) then None else klive k b.
Proof.
  intros Hl. pose proof Hk as [_ (i & h & g & Hi & Hg & Hwf & Hc & Hal)].
  assert (Hlk : forall b, klive k b = live_size g b) by (intros b; unfold klive; by rewrite (active_ret k i h g)).
  rewrite Hlk in Hl. unfold kfree_with_heap. rewrite (active_ret k i h g), bind_Ret by done. cbn [fst snd].
  destruct (live_meta g a n Hwf Hl) as (am & _ & _ & _ & -> & _).
  destruct (free_spec g a n Hwf Hl) as (g' & -> & Hwf' & Hm & Ham & Hl'). rewrite bind_Ret.
  set (s := mkStats _ _ _ _).
  destruct (kwf_update i h g g' s (zero_data (Z.to_nat (n + 16)) (a - 16) k.(data))) as (H1 & _ & H2); try done.
  { intros x am' Hx. rewrite Ham in Hx. apply lookup_delete_Some in Hx as [_ Hx]. by eapply Hal. }
  eexists. split; [reflexivity|]. split; [exact H1|]. split; [done|].
  intros b. rewrite Hlk, <- Hl'. apply H2.
Qed.

Lemma klive_inside a n : klive k a = Some n ->
  exists i h g, active k = Ret (i, (h, g)) /\ heap_is_addr_inside a h = true /\
    0 < a < 2 ^ 32 /\ 0 < n < 2 ^ 31 /\ gallocator_allocation_size a g = n /\
    exists e, 0 <= e <= 30 /\ gallocator_allocation_alignment a g = 2 ^ e.
Proof.
  intros Hl. pose proof Hk as [_ (i & h & g & Hi & Hg & Hwf & Hc & Hal)].
  pose proof (active_ret k i h g Hi Hg) as Hact. unfold klive in Hl. rewrite Hact in Hl.
  destruct (inside_heap h g a n Hwf Hc Hl) as (? & ? & ?).
  destruct (live_meta g a n Hwf Hl) as (am & Hm & _ & _ & Hsz & Hali).
  exists i, h, g. do 5 (split; [done|]). destruct (Hal _ _ Hm) as (e & He & Hae).
  exists e. split; [done|]. rewrite Hali, Hae. apply i32_small.
  assert (0 < 2 ^ e <= 2 ^ 30) by (split; [lia|apply Z.pow_le_mono_r; lia]). unfold is_i32. lia.
Qed.

Lemma kmalloc_spec sz : 0 < sz < 2 ^ 32 ->
  exists k' p, kmalloc sz k = Ret (k', p) /\ kwf k' /\ k'.(data) = k.(data) /\
    ((p = 0 /\ forall b, klive k' b = klive k b) \/
     (0 < p < 2 ^ 32 /\ (k.(default_alignment) | p) /\ klive k p = None /\
      forall b, klive k' b = if decide (b = p) then Some sz else klive k b)).
Proof.
  intros Hsz. pose proof Hk as [(e & He & Hde) _]. unfold kmalloc, kmalloc_aligned.
  rewrite (proj2 (Z.eqb_neq sz 0)) by lia. rewrite Hde, pow2_check by lia. cbn [negb].
  destruct (with_heap_spec sz e Hsz He) as (k' & p & -> & Hk' & Hd & Hcase). rewrite bind_Ret. cbn [fst snd].
  exists k', p.
  assert (p mod 2 ^ e = 0) as Hmod.
  { destruct Hcase as [[-> _]|(_ & Hdiv & _)]; [by rewrite Z.mod_0_l by lia|].
    apply Z.mod_divide; [lia|done]. }
  rewrite Hmod. cbn [Z.eqb assert_]. rewrite bind_Ret. done.
Qed.

Lemma kfree_spec a n : klive k a = Some n ->
  exists k', kfree a k = Ret k' /\ kwf k' /\
    k'.(data) = zero_data (Z.to_nat (n + 16)) (a - 16) k.(data) /\
    forall b, klive k' b = if decide (b = a) then None else klive k b.
Proof.
  intros Hl. destruct (klive_inside a n Hl) as (i & h & g & Hact & Hin & Ha & _).
  unfold kfree. rewrite (proj2 (Z.eqb_neq a 0)) by lia. rewrite Hact, bind_Ret. cbn [fst snd].
  rewrite Hin. cbn [negb]. by apply kfree_with_heap_spec.
Qed.
End ops.

(** ** Block contents *)

Lemma zero_data_read n : forall dest d a,
  read_data (zero_data n dest d) a = if decide (dest <= a < dest + Z.of_nat n) then 0 else read_data d a.
Proof.
  induction n as [|n IH]; intros dest d a; cbn [zero_data].
  - rewrite decide_False by lia. done.
  - rewrite IH. destruct (decide (a = dest)) as [->|Hne].
    + rewrite (decide_False (P := dest + 1 <= _ < _)), decide_True by lia.
      unfold read_data. by rewrite lookup_insert_eq.
    + unfold read_data. rewrite lookup_insert_ne by done.
      do 2 case_decide; lia || done.
Qed.

Lemma copy_data_read n : forall dest src d a, dest + Z.of_nat n <= src \/ src + Z.of_nat n <= dest ->
  read_data (copy_data n dest src d) a =
  if decide (dest <= a < dest + Z.of_nat n) then read_data d (src + (a - dest)) else read_data d a.
Proof.
  induction n as [|n IH]; intros dest src d a Hd; cbn [copy_data].
  - rewrite decide_False by lia. done.
  - rewrite IH by lia. destruct (decide (a = dest)) as [->|Hne].
    + rewrite (decide_False (P := dest + 1 <= _ < _)), decide_True by lia.
      unfold read_data at 1. rewrite lookup_insert_eq. cbn. f_equal. lia.
    + repeat case_decide; try lia.
      * unfold read_data. rewrite lookup_insert_ne by lia. do 2 f_equal. lia.
      * unfold read_data. by rewrite lookup_insert_ne by done.
Qed.

(** The bytes of [n0] at [a], and of every other live block, survive. *)
Definition block_kept (k k' : kstate) (a q len : Z) : Prop :=
  forall i, 0 <= i < len -> read_data k'.(data) (q + i) = read_data k.(data) (a + i).

Lemma klive_disjoint k a n b m : kwf k -> klive k a = Some n -> klive k b = Some m -> a <> b ->
  a + n + 32 <= b \/ b + m + 32 <= a.
Proof.
  intros [_ (i & h & g & Hi & Hg & Hwf & _)] Ha Hb Hne. unfold klive in *.
  rewrite (active_ret k i h g) in Ha, Hb by done. by apply (live_disjoint g).
Qed.

Lemma krealloc_spec k a n sz : kwf k -> klive k a = Some n -> 0 < sz < 2 ^ 32 ->
  exists k' q, krealloc a sz k = Ret (k', q) /\ kwf k' /\
    ((q = 0 /\ k'.(data) = k.(data) /\ forall b, klive k' b = klive k b) \/
     (q <> 0 /\ (q = a \/ klive k q = None) /\
      (forall b, klive k' b = if decide (b = q) then Some sz
                              else if decide (b = a) then None else klive k b) /\
      block_kept k k' a q (Z.min n sz) /\
      forall b m, klive k b = Some m -> b <> a -> block_kept k k' b b m)).
Proof.
  intros Hk Hl Hsz. destruct (klive_inside k Hk a n Hl) as (i & h & g & Hact & Hin & Ha & Hn & Hs & e & He & Hal).
  unfold krealloc. rewrite (proj2 (Z.eqb_neq sz 0)), (proj2 (Z.eqb_neq a 0)) by lia.
  rewrite Hact, bind_Ret. cbn [fst snd negb andb]. rewrite Hin, Hs, Hal. cbn [negb]. cbv zeta.
  rewrite (proj2 (Z.leb_gt n 0)) by lia. destruct (n =? sz) eqn:Ens; reflect_bools.
  { subst sz. exists k, a. split; [done|]. split; [done|]. right. split; [lia|]. split; [by left|].
    split; [|by split]. intros b. repeat case_decide; congruence. }
  assert (0 < 2 ^ e) by lia. rewrite (proj2 (Z.ltb_ge (2 ^ e) 0)), pow2_check by lia. cbn [negb].
  destruct (with_heap_spec k Hk sz e ltac:(lia) He) as (k1 & q & -> & Hk1 & Hd1 & Hcase).
  rewrite bind_Ret. cbn [fst snd].
  destruct Hcase as [[-> Hlv]|(Hq & _ & Hfresh & Hlv)].
  { rewrite Z.eqb_refl. exists k1, 0. split; [done|]. split; [done|]. left. done. }
  rewrite (proj2 (Z.eqb_neq q 0)) by lia.
  set (len := if n <? sz then n else sz). assert (Hlen : len = Z.min n sz) by (unfold len; case_cond; lia).
  set (k2 := set_data k1 _).
  assert (Hk2 : kwf k2) by exact Hk1.
  assert (Hl2 : forall b, klive k2 b = klive k1 b) by done.
  assert (Hqa : q <> a) by congruence.
  assert (Hla : klive k2 a = Some n) by (rewrite Hl2, Hlv, decide_False; done).
  assert (Hlq : klive k2 q = Some sz) by (rewrite Hl2, Hlv, decide_True; done).
  destruct (kfree_with_heap_spec k2 Hk2 a n Hla) as (k3 & -> & Hk3 & Hd3 & Hl3). rewrite bind_Ret.
  exists k3, q. split; [done|]. split; [done|]. right. split; [lia|]. split; [by right|].
  assert (Hread : forall x, read_data k3.(data) x =
    if decide (a - 16 <= x < a + n) then 0
    else if decide (q <= x < q + len) then read_data k.(data) (a + (x - q)) else read_data k.(data) x).
  { intros x. rewrite Hd3, zero_data_read. cbn [data k2 set_data]. rewrite copy_data_read, Hd1.
    - replace (a - 16 + Z.of_nat (Z.to_nat (n + 16))) with (a + n) by lia.
      by replace (q + Z.of_nat (Z.to_nat len)) with (q + len) by lia.
    - destruct (klive_disjoint k2 a n q sz Hk2 Hla Hlq ltac:(done)); lia. }
  split; [|split].
  - intros b. rewrite Hl3, Hl2, Hlv. repeat case_decide; congruence.
  - intros x Hx. rewrite Hread, decide_False, decide_True by
      (destruct (klive_disjoint k2 a n q sz Hk2 Hla Hlq ltac:(done)); lia).
    f_equal. lia.
  - intros b m Hb Hba x Hx.
    assert (Hlb : klive k2 b = Some m) by (rewrite Hl2, Hlv, decide_False; congruence).
    rewrite Hread. rewrite !decide_False; [done| |].
    + destruct (klive_disjoint k2 q sz b m Hk2 Hlq Hlb ltac:(congruence)); lia.
    + destruct (klive_disjoint k2 a n b m Hk2 Hla Hlb ltac:(congruence)); lia.
Qed.

(** ** The kernel allocator implements the interface *)

#[export] Instance kmalloc_allocator : Allocator kstate := {
  kmalloc_ := kmalloc; kcalloc_ := kcalloc; krealloc_ := krealloc; kfree_ := kfree; alloc_wf := kwf; live := klive }.

#[export] Instance kmalloc_laws : AllocatorLaws kstate.
Proof.
  split; cbn.
  - intros k n Hk Hn. destruct (kmalloc_spec k Hk n ltac:(lia)) as (k' & p & Hr & Hk' & _ & Hc).
    exists k', p. do 2 (split; [done|]). destruct Hc as [Hc|(Hp & _ & Hf & Hl)]; [by left|right].
    split; [lia|done].
  - intros k n Hk Hn. unfold kcalloc.
    destruct (kmalloc_spec k Hk n ltac:(lia)) as (k' & p & -> & Hk' & _ & Hc). rewrite bind_Ret. cbn [fst snd].
    destruct Hc as [[-> Hl]|(Hp & _ & Hf & Hl)].
    + exists k', 0. do 2 (split; [done|]). by left.
    + rewrite (proj2 (Z.eqb_neq p 0)) by lia. cbn [negb]. eexists _, p. split; [reflexivity|].
      split; [exact Hk'|]. right. split; [lia|done].
  - intros k p n Hk Hn [->|Hp].
    + unfold krealloc. rewrite (proj2 (Z.eqb_neq n 0)) by lia. pose proof Hk as [(e & He & Hde) (i & h & g & Hi & Hg & _)].
      rewrite (active_ret k i h g), bind_Ret by done. cbn [Z.eqb negb andb]. rewrite Hde.
      destruct (with_heap_spec k Hk n e ltac:(lia) He) as (k' & q & Hr & Hk' & _ & Hc).
      exists k', q. do 2 (split; [done|]). destruct Hc as [Hc|(Hq & _ & Hf & Hl)]; [by left|right].
      split; [lia|]. split; [by right|]. intros b. rewrite Hl.
      repeat case_decide; try done. subst b. destruct (klive k 0) as [z|] eqn:E; [|done].
      destruct (klive_inside k Hk 0 z E) as (_ & _ & _ & _ & _ & ? & _). lia.
    + destruct (klive k p) as [m|] eqn:E; [|done].
      destruct (krealloc_spec k p m n Hk E Hn) as (k' & q & Hr & Hk' & Hc). exists k', q.
      do 2 (split; [done|]). destruct Hc as [(-> & _ & Hl)|(Hq & Hor & Hl & _)]; [by left|by right].
  - done.
  - intros k p Hk Hp. destruct (klive k p) as [m|] eqn:E; [|done].
    destruct (kfree_spec k Hk p m E) as (k' & Hr & Hk' & _ & Hl). by exists k'.
  - intros k p n Hk E. destruct (klive_inside k Hk p n E) as (_ & _ & _ & _ & _ & ? & ? & _). lia.
  - intros k p n q m Hk Hp Hq Hne. destruct (klive_disjoint k p n q m Hk Hp Hq Hne); lia.
Qed.

(** The lowest address of the active heap, which no operation moves. *)
Definition klowest (k : kstate) : Z :=
  match active k with Ret (_, (h, _)) => h.(vaddr) | _ => 0 end.

Lemma klowest_set k i h g g' s d : active k = Ret (i, (h, g)) ->
  klowest (set_data (set_stats (set_heap k i g') s) d) = klowest k.
Proof.
  intros Ha. unfold klowest at 2. rewrite Ha. unfold active in Ha.
  destruct (g_active_heap k) as [j|] eqn:E1; [|done]. cbn in Ha.
  destruct (g_heaps k !! j) as [hg|] eqn:E2; [|done]. injection Ha as -> ->.
  unfold klowest, active. cbn [g_active_heap set_data set_stats set_heap g_heaps].
  rewrite E1. cbn. by rewrite list_lookup_alter_eq, E2.
Qed.

Lemma klowest_alloc sz al k k' p : kmalloc_aligned_with_heap sz al k = Ret (k', p) -> klowest k' = klowest k.
Proof.
  unfold kmalloc_aligned_with_heap. intros Hr. apply bind_Ret_inv in Hr as ([i [h g]] & Ha & Hr).
  apply bind_Ret_inv in Hr as (r & _ & Hr). injection Hr as <- <-.
  match goal with |- klowest (set_stats _ ?s) = _ => exact (klowest_set k i h g r.1 s k.(data) Ha) end.
Qed.

Lemma klowest_free a k k' : kfree_with_heap a k = Ret k' -> klowest k' = klowest k.
Proof.
  unfold kfree_with_heap. intros Hr. apply bind_Ret_inv in Hr as ([i [h g]] & Ha & Hr).
  apply bind_Ret_inv in Hr as (g' & _ & Hr). injection Hr as <-.
  match goal with |- klowest (set_data (set_heap (set_stats _ ?s) _ _) ?d) = _ => exact (klowest_set k i h g g' s d Ha) end.
Qed.

Lemma klowest_kmalloc n k k' p : kmalloc n k = Ret (k', p) -> klowest k' = klowest k.
Proof.
  intros Hr. unfold kmalloc, kmalloc_aligned in Hr. destruct (n =? 0); [by simplify_eq|].
  destruct (negb _); [by simplify_eq|]. apply bind_Ret_inv in Hr as ([k1 q] & Hm & Hr). apply klowest_alloc in Hm.
  rewrite <- Hm. bind_inv. by simplify_eq.
Qed.

#[export] Instance kmalloc_aligned_allocator : AlignedAllocator kstate := {
  kmalloc_aligned_ := kmalloc_aligned; lowest := klowest }.

#[export] Instance kmalloc_aligned_laws : AlignedAllocatorLaws kstate.
Proof.
  split; cbn.
  - intros k n e Hk Hn He. unfold kmalloc_aligned. rewrite (proj2 (Z.eqb_neq n 0)), pow2_check by lia. cbn [negb].
    destruct (with_heap_spec k Hk n e Hn He) as (k' & p & Hr & Hk' & _ & Hc). rewrite Hr, bind_Ret. cbn [fst snd].
    exists k', p. assert (p mod 2 ^ e = 0) as ->.
    { destruct Hc as [[-> _]|(_ & Hd & _)]; [by rewrite Z.mod_0_l by lia|apply Z.mod_divide; [lia|done]]. }
    do 2 (split; [done|]). split; [by eapply klowest_alloc|].
    destruct Hc as [Hc|(Hp & Hd & Hf & Hl)]; [by left|right]. split; [lia|done].
  - intros k p Hk Hp. destruct (klive k p) as [m|] eqn:E; [|done].
    destruct (klive_inside k Hk p m E) as (i & h & g & Ha & Hin & _). unfold klowest. rewrite Ha.
    unfold heap_is_addr_inside in Hin. reflect_bools. rewrite Z.geb_leb in *. reflect_bools. lia.
  - done.
  - intros k n k' p _ Hr. by eapply klowest_kmalloc.
  - intros k p n k' q _ Hr. unfold krealloc in Hr. destruct (n =? 0); [by injection Hr as <- _|].
    apply bind_Ret_inv in Hr as (a & _ & Hr). destruct (negb (p =? 0) && negb _); [by injection Hr as <- _|].
    destruct (negb (p =? 0)); [|by eapply klowest_alloc]. cbv zeta in Hr.
    destruct (_ <=? 0); [by injection Hr as <- _|]. destruct (_ =? n); [by injection Hr as <- _|].
    destruct (_ <? 0); [by injection Hr as <- _|]. destruct (negb _); [done|].
    apply bind_Ret_inv in Hr as ([k1 q1] & Hm & Hr). cbn [fst snd] in Hr. apply klowest_alloc in Hm.
    destruct (q1 =? 0); [by injection Hr as <- _|]. apply bind_Ret_inv in Hr as (k2 & Hf & Hr).
    injection Hr as <- _. apply klowest_free in Hf. rewrite Hf, <- Hm. done.
  - intros k p k' _ Hr. unfold kfree in Hr. destruct (p =? 0); [done|].
    apply bind_Ret_inv in Hr as (a & _ & Hr). destruct (negb _); [done|]. by eapply klowest_free.
  - intros k n k' p _ Hr. unfold kcalloc in Hr. apply bind_Ret_inv in Hr as ([k1 q] & Hm & Hr). apply klowest_kmalloc in Hm.
    rewrite <- Hm. destruct (negb _); by injection Hr as <- _.
Qed.

(** ** Bringing the allocator up *)

Definition boot_state : kstate := mkK 0 [] None (mkStats 0 0 0 0) ∅.

(** [kmalloc_init], one heap, and that heap made active. *)
Definition kmalloc_boot (max_align : Z) (heap : Heap) : outcome kstate :=
  let r := kmalloc_init max_align boot_state in
  _ ← assert_ (negb (r.2 <? 0));
  r ← kmalloc_register_heap heap r.1;
  let r' := kmalloc_use_heap r.2 r.1 in
  _ ← assert_ (negb (r'.2 <? 0));
  Ret r'.1.

Lemma kmalloc_boot_spec e heap : 0 <= e <= 30 -> 0 < heap.(vaddr) -> 1 <= heap.(pagespan) ->
  heap.(vaddr) + heap.(pagespan) * PAGESIZE < 2 ^ 32 ->
  exists k, kmalloc_boot (2 ^ e) heap = Ret k /\ kwf k /\ (forall a, klive k a = None) /\
    k.(default_alignment) = 2 ^ e.
Proof.
  intros He Hv Hp Hend. destruct (init_heap_spec heap Hv Hp Hend) as (m & Hi & Hs & Hl & A & B & C).
  pose proof (layout_meta_wf _ _ m Hv Hend Hs Hl A B C) as Hm.
  unfold kmalloc_boot, kmalloc_init, kmalloc_check_driver. rewrite pow2_check by lia.
  cbn. unfold kmalloc_register_heap. cbn. rewrite Hi. cbn.
  eexists. split; [reflexivity|]. split; [|split].
  - split; [by exists e|]. exists 0%nat, heap, (zeroed_heap m). split; [done|]. split; [done|].
    split; [by apply zeroed_heap_wf|]. split; [|done].
    split; [done|]. split; [lia|]. split; [done|]. destruct Hl, A as (? & ? & _), B as (? & ? & _), C as (? & ? & _).
    unfold sizeof_GAllocatorHeapMeta, LO_POOL_CHUNK_SIZE, MID_POOL_CHUNK_SIZE, HI_POOL_CHUNK_SIZE in *.
    intros []; unfold pool_hi_addr; cbn [pctx hmeta zeroed_heap poolstart poolchunks chunksize];
      unfold LO_POOL_CHUNK_SIZE, MID_POOL_CHUNK_SIZE, HI_POOL_CHUNK_SIZE; lia.
  - done.
  - done.
Qed.

(** ** Properties *)

(** C7: after the boot sequence (driver, one heap of at least a page, the heap
    made active) the allocator is well formed with nothing allocated; from
    there, on every well-formed state, [kmalloc] of a non-zero size returns a
    fresh, aligned, non-null block or null with the live blocks unchanged,
    [kcalloc]'s block reads as zero, and [kfree] of a live block removes
    exactly that block: no call panics and no reachable state is ill formed. *)
Theorem kmalloc_correct e heap : 0 <= e <= 30 -> 0 < heap.(vaddr) -> 1 <= heap.(pagespan) ->
  heap.(vaddr) + heap.(pagespan) * PAGESIZE < 2 ^ 32 ->
  (exists k, kmalloc_boot (2 ^ e) heap = Ret k /\ kwf k /\ forall a, klive k a = None) /\
  (forall k sz, kwf k -> 0 < sz < 2 ^ 32 ->
     exists k' p, kcalloc sz k = Ret (k', p) /\ kwf k' /\
       ((p = 0 /\ k'.(data) = k.(data) /\ forall b, klive k' b = klive k b) \/
        (0 < p < 2 ^ 32 /\ (k.(default_alignment) | p) /\ klive k p = None /\
         (forall b, klive k' b = if decide (b = p) then Some sz else klive k b) /\
         (forall i, 0 <= i < sz -> read_data k'.(data) (p + i) = 0) /\
         forall b m, klive k b = Some m -> block_kept k k' b b m))) /\
  (forall k a n, kwf k -> klive k a = Some n ->
     exists k', kfree a k = Ret k' /\ kwf k' /\
       (forall b, klive k' b = if decide (b = a) then None else klive k b) /\
       forall b m, klive k b = Some m -> b <> a -> block_kept k k' b b m).
Proof.
  intros He Hv Hp Hend. split; [|split].
  - destruct (kmalloc_boot_spec e heap He Hv Hp Hend) as (k & H1 & H2 & H3 & _). by exists k.
  - intros k sz Hk Hsz. unfold kcalloc.
    destruct (kmalloc_spec k Hk sz Hsz) as (k1 & p & -> & Hk1 & Hd & Hc). rewrite bind_Ret. cbn [fst snd].
    destruct Hc as [[-> Hl]|(Hp0 & Hal & Hf & Hl)].
    + exists k1, 0. split; [done|]. split; [done|]. by left.
    + rewrite (proj2 (Z.eqb_neq p 0)) by lia. cbn [negb]. eexists _, p. split; [reflexivity|].
      split; [exact Hk1|]. right. do 4 (split; [done|]). cbn [data set_data]. split.
      * intros i Hi. rewrite zero_data_read, decide_True by lia. done.
      * intros b m Hb i Hi. cbn [data set_data]. assert (Hbp : b <> p) by congruence.
        rewrite zero_data_read, Hd, decide_False; [done|].
        destruct (klive_disjoint k1 p sz b m Hk1); rewrite ?Hl; try lia; by case_decide.
  - intros k a n Hk Ha. destruct (kfree_spec k Hk a n Ha) as (k' & Hr & Hk' & Hd & Hl).
    exists k'. do 3 (split; [done|]). intros b m Hb Hba i Hi.
    rewrite Hd, zero_data_read, decide_False; [done|].
    destruct (klive_disjoint k a n b m Hk Ha Hb); [done|lia|lia].
Qed.

(** A booted allocator with a two-page heap, for concrete runs. *)
Definition demo_k : kstate :=
  match kmalloc_boot (2 ^ 3) (mkHeap 0xC0400000 12) with Ret k => k | _ => boot_state end.

Lemma demo_k_wf : kwf demo_k.
Proof.
  destruct (kmalloc_boot_spec 3 (mkHeap 0xC0400000 12)) as (k & Hb & Hk & _); [done|done|done|done|].
  unfold demo_k. by rewrite Hb.
Qed.

Lemma kmalloc_correct_witness :
  (exists k, kmalloc_boot (2 ^ 3) (mkHeap 0xC0400000 12) = Ret k /\ kwf k) /\
  exists k' p, kcalloc 24 demo_k = Ret (k', p) /\ kwf k'.
Proof.
  destruct (kmalloc_correct 3 (mkHeap 0xC0400000 12)) as ((k & H1 & H2 & _) & H3 & _);
    [done|done|done|done|].
  split; [by exists k|].
  destruct (H3 demo_k 24 demo_k_wf) as (k' & p & Hr & Hw & _); [lia|].
  exists k', p. exact (conj Hr Hw).
Defined.

(** [krealloc] of a live block to a new non-zero size either returns null and
    changes no block, or returns a block of the new size, the old address gone
    (unless it is the same), whose first bytes, up to the smaller of the two
    sizes, are those of the old block; every other live block keeps its bytes. *)
Theorem krealloc_correct k a n sz : kwf k -> klive k a = Some n -> 0 < sz < 2 ^ 32 ->
  exists k' q, krealloc a sz k = Ret (k', q) /\ kwf k' /\
    ((q = 0 /\ k'.(data) = k.(data) /\ forall b, klive k' b = klive k b) \/
     (q <> 0 /\ (q = a \/ klive k q = None) /\
      (forall b, klive k' b = if decide (b = q) then Some sz
                              else if decide (b = a) then None else klive k b) /\
      block_kept k k' a q (Z.min n sz) /\
      forall b m, klive k b = Some m -> b <> a -> block_kept k k' b b m)).
Proof. apply krealloc_spec. Qed.

(** [demo_k] after one allocation of 24 bytes: the new state and the block. *)
Definition demo_k24 : kstate * Z := match kmalloc 24 demo_k with Ret r => r | _ => (demo_k, 0) end.

Lemma demo_k24_live : kwf demo_k24.1 /\ klive demo_k24.1 demo_k24.2 = Some 24.
Proof.
  destruct (kmalloc_spec demo_k demo_k_wf 24) as (k' & p & Hr & Hk & _ & [[Hp _]|(Hp & _ & _ & Hl)]); [lia| |].
  - exfalso. pose proof (f_equal (fun r => match r with Ret (_, a) => a | _ => 0 end) Hr) as Ha.
    subst p. vm_compute in Ha. discriminate Ha.
  - unfold demo_k24. rewrite Hr. cbn [fst snd]. split; [exact Hk|]. by rewrite Hl, decide_True.
Qed.

Lemma krealloc_correct_witness :
  exists k' q, krealloc demo_k24.2 100 demo_k24.1 = Ret (k', q) /\ kwf k'.
Proof.
  destruct (krealloc_correct demo_k24.1 demo_k24.2 24 100 (proj1 demo_k24_live) (proj2 demo_k24_live))
    as (k' & q & Hr & Hk & _); [lia|].
  exists k', q. exact (conj Hr Hk).
Defined.

(** the statistics count an allocation that failed as if it had been made:
    a null result still raises the number of allocations and the number of
    bytes allocated (until they wrap). *)
Theorem failed_allocation_counted k k' sz : kmalloc sz k = Ret (k', 0) -> 0 < sz ->
  k'.(g_statistics).(total_allocations) = u32 (k.(g_statistics).(total_allocations) + 1) /\
  k'.(g_statistics).(total_allocated) = u32 (k.(g_statistics).(total_allocated) + sz).
Proof.
  intros Hr Hsz. unfold kmalloc, kmalloc_aligned in Hr. rewrite (proj2 (Z.eqb_neq sz 0)) in Hr by lia.
  destruct (negb (bw_is_power_of_two _)); [done|].
  apply bind_Ret_inv in Hr as (r & Hw & Hr). apply bind_Ret_inv in Hr as ([] & _ & Hr).
  injection Hr as ->. unfold kmalloc_aligned_with_heap in Hw.
  apply bind_Ret_inv in Hw as (a & _ & Hw). apply bind_Ret_inv in Hw as (r & _ & Hw).
  by injection Hw as <- _.
Qed.

Lemma failed_allocation_counted_witness :
  exists k', kmalloc 100000 demo_k = Ret (k', 0) /\ k'.(g_statistics).(total_allocated) = 100000.
Proof.
  destruct (kmalloc_spec demo_k demo_k_wf 100000 ltac:(lia)) as (k' & p & Hr & _ & _ & _).
  pose proof (f_equal (fun r => match r with Ret (_, a) => a | _ => 1 end) Hr) as Ha. vm_compute in Ha.
  subst p. exists k'. split; [exact Hr|].
  rewrite (proj2 (failed_allocation_counted demo_k k' 100000 Hr ltac:(lia))). vm_compute. reflexivity.
Defined.
