(* ===== verification/LinkedList.v ===== *)
(** * Linked lists

    [kernel/utils/linkedlist.c]: nodes in a store, allocated and freed through
    the allocator interface, against the list of their data. *)
From S2P Require Import Prelude Alloc Kmalloc.

(** ** Data *)

Definition ENOMEM : Z := 12.
Definition ENOENT : Z := 2.

Record LinkedListNode := mkNode { node_data : Z; next : Z }.
Record LinkedList := mkLL { root : Z; end_ : Z }.
Definition sizeof_LinkedListNode : Z := 8.

#[export] Instance LinkedListNode_eq_dec : EqDecision LinkedListNode.
Proof. solve_decision. Defined.

(** ** Operations *)
Section ops.
Context {H : Type} `{!Allocator H}.

(** The allocator and the nodes in its blocks. *)
Record llstate := mkLS { heap : H; nodes : gmap Z LinkedListNode }.

Definition read_node (s : llstate) (p : Z) : outcome LinkedListNode := deref (s.(nodes) !! p).

(** [p->next = q]. *)
Definition set_next (s : llstate) (p q : Z) : outcome llstate :=
  n ← read_node s p; Ret (mkLS s.(heap) (<[p := mkNode n.(node_data) q]> s.(nodes))).

(** [kmalloc] gives the block before the node is written to it. *)
Definition new_node (s : llstate) : outcome (llstate * Z) :=
  r ← kmalloc_ sizeof_LinkedListNode s.(heap); Ret (mkLS r.1 s.(nodes), r.2).
Definition free_node (s : llstate) (p : Z) : outcome llstate :=
  h ← kfree_ p s.(heap); Ret (mkLS h (delete p s.(nodes))).

Definition linkedlist_init (s : llstate) : LinkedList * Z := (mkLL 0 0, 0).

Definition linkedlist_add (data : Z) (s : llstate) (ll : LinkedList) : outcome (llstate * LinkedList * Z) :=
  let node := ll.(end_) in
  r ← (if negb (node =? 0) then
         r ← new_node s;
         s ← set_next r.1 node r.2;
         Ret (s, ll, r.2)
       else
         r ← new_node s;
         Ret (r.1, mkLL r.2 ll.(end_), r.2));
  let '(s, ll, node) := r : llstate * LinkedList * Z in
  if node =? 0 then Ret (s, ll, - ENOMEM)
  else
    let s := mkLS s.(heap) (<[node := mkNode data 0]> s.(nodes)) in
    Ret (s, mkLL ll.(root) node, 0).

(** Unlink [n], whose predecessor is [prev] (0 if none), and free it. *)
Definition unlink (s : llstate) (ll : LinkedList) (prev n : Z) : outcome (llstate * LinkedList * Z) :=
  let ll := if ll.(end_) =? n then mkLL ll.(root) prev else ll in
  nn ← read_node s n;
  r ← (if negb (prev =? 0) then s ← set_next s prev nn.(next); Ret (s, ll)
       else Ret (s, mkLL nn.(next) ll.(end_)));
  s ← free_node r.1 n;
  Ret (s, r.2, 0).

Fixpoint remove_data_loop (fuel : nat) (data : Z) (s : llstate) (ll : LinkedList) (prev n : Z)
    : outcome (llstate * LinkedList * Z) :=
  match fuel with
  | O => Undef
  | S fuel =>
      if n =? 0 then Ret (s, ll, - ENOENT)
      else
        nn ← read_node s n;
        if nn.(node_data) =? data then unlink s ll prev n
        else remove_data_loop fuel data s ll n nn.(next)
  end.
(** A list without cycles has at most as many nodes as the store. *)
Definition linkedlist_remove_by_data (data : Z) (s : llstate) (ll : LinkedList) :=
  remove_data_loop (S (size s.(nodes))) data s ll 0 ll.(root).

(** [running_count < pos && n]: [k] is [pos - running_count]. *)
Fixpoint position_loop (k : nat) (s : llstate) (prev n : Z) : outcome (Z * Z) :=
  match k with
  | O => Ret (prev, n)
  | S k =>
      if n =? 0 then Ret (prev, n)
      else nn ← read_node s n; position_loop k s n nn.(next)
  end.
Definition linkedlist_remove_by_position (pos : Z) (s : llstate) (ll : LinkedList) :=
  r ← position_loop (Z.to_nat pos) s 0 ll.(root);
  let '(prev, n) := r : Z * Z in
  if negb (n =? 0) then unlink s ll prev n else Ret (s, ll, - ENOENT).
End ops.
Arguments llstate : clear implicits.

(** ** Representation *)
Section rep.
Context {H : Type} `{AllocatorLaws H}.
Implicit Types (s : llstate H) (l : list (Z * Z)).

(** [l] lists the nodes from [p] to [q]: their addresses and data. *)
Fixpoint seg (m : gmap Z LinkedListNode) (p : Z) l (q : Z) : Prop :=
  match l with
  | [] => p = q
  | (a, d) :: l => p = a /\ a <> 0 /\ exists nx, m !! a = Some (mkNode d nx) /\ seg m nx l q
  end.

Definition last_addr l : Z := match last l with Some (a, _) => a | None => 0 end.

Record ll_rep s (ll : LinkedList) l : Prop := {
  rep_seg : seg s.(nodes) ll.(root) l 0;
  rep_end : ll.(end_) = last_addr l;
  rep_nodup : NoDup l.*1;
  rep_live : forall a, a ∈ l.*1 -> live s.(heap) a = Some sizeof_LinkedListNode;
  rep_nodes : forall a, is_Some (s.(nodes) !! a) -> live s.(heap) a <> None;
  rep_wf : alloc_wf s.(heap) }.

Lemma seg_app m l1 : forall p l2 q, seg m p (l1 ++ l2) q <-> exists r, seg m p l1 r /\ seg m r l2 q.
Proof.
  induction l1 as [|[a d] l1 IH]; intros p l2 q; cbn.
  - split; [intros; by exists p|intros (r & -> & ?); done].
  - split.
    + intros (-> & Ha & nx & Hm & Hs). apply IH in Hs as (r & Hr1 & Hr2).
      exists r. split; [|done]. split; [done|]. split; [done|]. by exists nx.
    + intros (r & (-> & Ha & nx & Hm & Hs) & Hr2). split; [done|]. split; [done|].
      exists nx. split; [done|]. apply IH. by exists r.
Qed.

(** Nodes outside the segment do not matter. *)
Lemma seg_frame m m' l : forall p q, (forall a, a ∈ l.*1 -> m' !! a = m !! a) -> seg m p l q -> seg m' p l q.
Proof.
  induction l as [|[a d] l IH]; intros p q Hf; cbn; [done|].
  intros (-> & Ha & nx & Hm & Hs). split; [done|]. split; [done|]. exists nx. split.
  - rewrite Hf; [done|]. left.
  - apply IH; [|done]. intros b Hb. apply Hf. by right.
Qed.

Lemma seg_head m p a d l q : seg m p ((a, d) :: l) q -> p = a /\ p <> 0 /\ exists nx, m !! p = Some (mkNode d nx) /\ seg m nx l q.
Proof. intros (-> & ? & ?). done. Qed.

Lemma seg_null m l q : seg m 0 l q -> l = [] .
Proof. destruct l as [|[a d] l]; [done|]. intros (<- & ? & _). done. Qed.

Lemma seg_elem m p l q a : seg m p l q -> a ∈ l.*1 -> is_Some (m !! a).
Proof.
  revert p. induction l as [|[b d] l IH]; intros p; cbn.
  - intros _ Ha. by apply elem_of_nil in Ha.
  - intros (-> & Hb & nx & Hm & Hs) [->|Ha]%elem_of_cons; [by rewrite Hm|by eapply IH].
Qed.

(** A list has no more nodes than the store. *)
Lemma seg_size m p l q : seg m p l q -> NoDup l.*1 -> (length l <= size m)%nat.
Proof.
  intros Hs Hnd. rewrite <- (length_fmap fst), <- (size_list_to_set (C := gset Z)), <- size_dom by done.
  apply subseteq_size. intros a Ha%elem_of_list_to_set. apply elem_of_dom. by eapply seg_elem.
Qed.

Lemma last_addr_snoc l a d : last_addr (l ++ [(a, d)]) = a.
Proof. unfold last_addr. by rewrite last_snoc. Qed.

(** Redirecting the last node's [next]. *)
Lemma seg_set_last m p l a d q r :
  NoDup (l ++ [(a, d)]).*1 -> seg m p (l ++ [(a, d)]) q ->
  exists nx, m !! a = Some (mkNode d nx) /\ seg (<[a := mkNode d r]> m) p (l ++ [(a, d)]) r.
Proof.
  intros Hnd Hs. apply seg_app in Hs as (p' & Hs1 & -> & Ha & nx & Hm & Hq).
  exists nx. split; [done|]. apply seg_app. exists a. split.
  - eapply seg_frame; [|exact Hs1]. intros b Hb. rewrite lookup_insert_ne; [done|].
    intros <-. rewrite fmap_app in Hnd. apply NoDup_app in Hnd as (_ & Hnd & _).
    apply (Hnd a Hb). left.
  - cbn. split; [done|]. split; [done|]. exists r. by rewrite lookup_insert_eq.
Qed.

(** ** Adding *)
Lemma add_rep data s ll l : ll_rep s ll l ->
  exists s' ll' r, linkedlist_add data s ll = Ret (s', ll', r) /\
    ((r = - ENOMEM /\ ll_rep s' ll' l) \/ (r = 0 /\ exists a, ll_rep s' ll' (l ++ [(a, data)]))).
Proof.
  intros [Hseg Hend Hnd Hlive Hnodes Hwf]. unfold linkedlist_add, new_node.
  destruct (malloc_law s.(heap) sizeof_LinkedListNode Hwf ltac:(unfold sizeof_LinkedListNode; lia))
    as (h' & p & -> & Hwf' & Hp).
  destruct l as [|x l0] eqn:El using rev_ind.
  - (* the list is empty *)
    clear IHl0 || idtac. cbn in Hend. rewrite Hend. cbn [Z.eqb negb]. rewrite !bind_Ret. cbn [fst snd heap nodes].
    cbn in Hseg. destruct Hp as [[-> Hl]|(Hp0 & Hf & Hl)].
    + eexists _, _, _. split; [reflexivity|]. left. split; [done|].
      split; cbn; try done; [set_solver|intros a Ha; rewrite Hl; by apply Hnodes].
    + rewrite (proj2 (Z.eqb_neq p 0)) by done. eexists _, _, _. split; [reflexivity|]. right. split; [done|].
      exists p. cbn [root end_ heap nodes app]. split; cbn [root end_ heap nodes]; try done.
      * cbn. split; [done|]. split; [done|]. exists 0. by rewrite lookup_insert_eq.
      * cbn. apply NoDup_singleton.
      * intros a. cbn. intros ->%list_elem_of_singleton. by rewrite Hl, decide_True.
      * intros a Ha. rewrite Hl. case_decide; [done|].
        rewrite lookup_insert_ne in Ha by done. by apply Hnodes.
  - (* it ends with [x] *)
    destruct x as [e d]. rewrite last_addr_snoc in Hend. rewrite Hend.
    assert (He0 : e <> 0).
    { apply seg_app in Hseg as (? & _ & _ & ? & _). done. }
    assert (Hle : live s.(heap) e = Some sizeof_LinkedListNode).
    { apply Hlive. rewrite fmap_app. apply elem_of_app. right. left. }
    rewrite (proj2 (Z.eqb_neq e 0)) by done. cbn [negb]. rewrite !bind_Ret. cbn [fst snd].
    destruct (seg_set_last _ _ _ _ _ _ p Hnd Hseg) as (nx & Hm & Hs').
    unfold set_next, read_node. cbn [nodes heap]. rewrite Hm. cbn [deref]. rewrite !bind_Ret. cbn [node_data].
    destruct Hp as [[-> Hl]|(Hp0 & Hf & Hl)].
    + rewrite Z.eqb_refl. eexists _, _, _. split; [reflexivity|]. left. split; [done|].
      split; cbn [root end_ heap nodes]; try done.
      * by rewrite last_addr_snoc.
      * intros a Ha. rewrite Hl. by apply Hlive.
      * intros a Ha. rewrite Hl. destruct (decide (a = e)) as [->|]; [congruence|].
        rewrite lookup_insert_ne in Ha by done. by apply Hnodes.
    + rewrite (proj2 (Z.eqb_neq p 0)) by done. eexists _, _, _. split; [reflexivity|]. right. split; [done|].
      exists p. cbn [root end_ heap nodes].
      assert (Hpn : p ∉ (l0 ++ [(e, d)]).*1) by (intros Hin; apply Hlive in Hin; congruence).
      split; cbn [root end_ heap nodes].
      * apply seg_app. exists p. split.
        -- eapply seg_frame; [|exact Hs']. intros a Ha. rewrite lookup_insert_ne; [done|]. by intros <-.
        -- cbn. split; [done|]. split; [done|]. exists 0. by rewrite lookup_insert_eq.
      * by rewrite last_addr_snoc.
      * rewrite fmap_app. apply NoDup_app. split; [done|]. split; [|apply NoDup_singleton].
        intros a Ha. cbn. intros ->%list_elem_of_singleton. done.
      * intros a. rewrite fmap_app, elem_of_app. cbn. rewrite list_elem_of_singleton, Hl.
        intros [Ha| ->]; case_decide; try done. by apply Hlive.
      * intros a Ha. rewrite Hl. case_decide; [done|].
        rewrite lookup_insert_ne in Ha by done. destruct (decide (a = e)) as [->|]; [congruence|].
        rewrite lookup_insert_ne in Ha by done. by apply Hnodes.
      * done.
Qed.
(** ** Removing *)

Lemma fst_split (l1 : list (Z * Z)) n d l2 :
  NoDup (l1 ++ (n, d) :: l2).*1 -> NoDup (l1 ++ l2).*1 /\ (n ∉ (l1 ++ l2).*1) /\
  forall a, a ∈ (l1 ++ l2).*1 -> a ∈ (l1 ++ (n, d) :: l2).*1.
Proof.
  rewrite !fmap_app. cbn. intros (Ha & Hb & Hc)%NoDup_app. apply NoDup_cons in Hc as [Hc Hd].
  split; [|split].
  - apply NoDup_app. split; [done|]. split; [|done]. intros x Hx Hx'. apply (Hb x Hx). by right.
  - intros [Hn|Hn]%elem_of_app; [|done]. apply (Hb n Hn). left.
  - intros a. rewrite !elem_of_app, elem_of_cons. tauto.
Qed.

Lemma last_addr_app l1 x l2 : last_addr (l1 ++ x :: l2) = last_addr (x :: l2).
Proof. unfold last_addr. by rewrite last_app_cons. Qed.

Lemma last_addr_in l : l <> [] -> last_addr l ∈ l.*1.
Proof.
  destruct l as [|[a d] l0 _] using rev_ind; [done|]. intros _. rewrite last_addr_snoc, fmap_app.
  apply elem_of_app. right. left.
Qed.

(** The end pointer after unlinking [n]. *)
Lemma unlink_end l1 n d l2 e : NoDup (l1 ++ (n, d) :: l2).*1 -> e = last_addr (l1 ++ (n, d) :: l2) ->
  (if e =? n then last_addr l1 else e) = last_addr (l1 ++ l2).
Proof.
  intros Hnd ->. rewrite last_addr_app. destruct (fst_split _ _ _ _ Hnd) as (_ & Hn & _).
  destruct l2 as [|x l2].
  - rewrite app_nil_r. unfold last_addr at 1. cbn. by rewrite Z.eqb_refl.
  - change ((n, d) :: x :: l2) with ([(n, d)] ++ x :: l2). rewrite !last_addr_app.
    destruct (last_addr (x :: l2) =? n) eqn:E; reflect_bools; [|done].
    exfalso. apply Hn. rewrite fmap_app. apply elem_of_app. right. rewrite <- E.
    by apply last_addr_in.
Qed.

Lemma unlink_rep s ll l1 n d l2 : ll_rep s ll (l1 ++ (n, d) :: l2) ->
  exists s' ll', unlink s ll (last_addr l1) n = Ret (s', ll', 0) /\ ll_rep s' ll' (l1 ++ l2).
Proof.
  intros [Hseg Hend Hnd Hlive Hnodes Hwf].
  pose proof (unlink_end _ _ _ _ _ Hnd Hend) as Hend'.
  destruct (fst_split _ _ _ _ Hnd) as (Hnd' & Hn & Hsub).
  pose proof Hseg as Hseg0. apply seg_app in Hseg as (n' & Hs1 & -> & Hn0 & nx & Hm & Hs2).
  assert (Hln : live s.(heap) n = Some sizeof_LinkedListNode).
  { apply Hlive. rewrite fmap_app. apply elem_of_app. right. left. }
  destruct (free_law s.(heap) n Hwf) as (h' & Hfree & Hwf' & Hl'); [by rewrite Hln|].
  unfold unlink, read_node, free_node. rewrite Hm. cbn [deref]. rewrite bind_Ret. cbn [next].
  set (ll0 := if end_ ll =? n then mkLL (root ll) (last_addr l1) else ll).
  assert (Hll0 : root ll0 = root ll /\ end_ ll0 = last_addr (l1 ++ l2)).
  { rewrite <- Hend'. unfold ll0. by destruct (_ =? _). }
  destruct Hll0 as [Hr0 He0].
  assert (Hdel : forall m' p l', seg m' p l' 0 -> (n ∉ l'.*1) -> seg (delete n m') p l' 0).
  { intros m' p l' Hs Hni. eapply seg_frame; [|exact Hs]. intros a Ha. rewrite lookup_delete_ne; [done|congruence]. }
  destruct l1 as [|[e de] l1 _] using rev_ind.
  - change (last_addr []) with 0. cbn [Z.eqb negb]. rewrite bind_Ret. cbn [fst snd].
    rewrite Hfree, !bind_Ret. eexists _, _. split; [reflexivity|]. cbn [app] in *.
    split; cbn [heap nodes root end_]; try done.
    + by apply Hdel.
    + intros a Ha. rewrite Hl'. case_decide; [congruence|]. by apply Hlive, Hsub.
    + intros a Ha. rewrite Hl'. case_decide as Han; [subst a; by rewrite lookup_delete_eq in Ha; destruct Ha|].
      rewrite lookup_delete_ne in Ha by done. by apply Hnodes.
  - rewrite last_addr_snoc.
    assert (Hen : e <> n).
    { intros ->. apply Hn. rewrite !fmap_app, !elem_of_app. left. right. left. }
    assert (He : e <> 0) by (apply seg_app in Hs1 as (? & _ & _ & ? & _); done).
    rewrite (proj2 (Z.eqb_neq e 0)) by done. cbn [negb].
    assert (Hnd1 : NoDup (l1 ++ [(e, de)]).*1).
    { rewrite fmap_app in Hnd'. by apply NoDup_app in Hnd' as (? & _). }
    destruct (seg_set_last _ _ _ _ _ _ nx Hnd1 Hs1) as (nx1 & Hme & Hs1').
    unfold set_next, read_node. rewrite Hme. cbn [deref]. rewrite !bind_Ret. cbn [fst snd node_data heap nodes].
    rewrite Hfree, !bind_Ret. eexists _, _. split; [reflexivity|].
    split; cbn [heap nodes root end_].
    + rewrite Hr0. apply Hdel; [|done]. apply seg_app. exists nx. split; [exact Hs1'|].
      eapply seg_frame; [|exact Hs2]. intros a Ha. rewrite lookup_insert_ne; [done|]. intros <-.
      rewrite fmap_app in Hnd'. apply NoDup_app in Hnd' as (_ & Hx & _). apply (Hx e); [|done].
      rewrite fmap_app. apply elem_of_app. right. left.
    + exact He0.
    + done.
    + intros a Ha. rewrite Hl'. case_decide; [congruence|]. by apply Hlive, Hsub.
    + intros a Ha. rewrite Hl'. case_decide as Han; [subst a; by rewrite lookup_delete_eq in Ha; destruct Ha|].
      rewrite lookup_delete_ne in Ha by done. apply Hnodes.
      destruct (decide (a = e)) as [->|]; [by rewrite Hme|]. by rewrite lookup_insert_ne in Ha.
    + done.
Qed.

(** The list without the first node that holds [data]. *)
Fixpoint remove_first (data : Z) l : option (list (Z * Z)) :=
  match l with
  | [] => None
  | x :: l => if x.2 =? data then Some l else cons x <$> remove_first data l
  end.

Lemma remove_data_loop_rep data s ll : forall l2 l1 fuel n,
  ll_rep s ll (l1 ++ l2) -> seg s.(nodes) n l2 0 -> (length l2 < fuel)%nat ->
  exists s' ll' r, remove_data_loop fuel data s ll (last_addr l1) n = Ret (s', ll', r) /\
    match remove_first data l2 with
    | Some l2' => r = 0 /\ ll_rep s' ll' (l1 ++ l2')
    | None => r = - ENOENT /\ s' = s /\ ll' = ll
    end.
Proof.
  induction l2 as [|[a d] l2 IH]; intros l1 fuel n Hrep Hs Hf; (destruct fuel as [|fuel]; [lia|]);
    cbn [remove_data_loop].
  - cbn in Hs. subst n. by eexists _, _, _.
  - apply seg_head in Hs as (-> & Ha & nx & Hm & Hs). rewrite (proj2 (Z.eqb_neq a 0)) by done.
    unfold read_node. rewrite Hm. cbn [deref]. rewrite bind_Ret. cbn [node_data next remove_first snd].
    destruct (d =? data) eqn:E.
    + destruct (unlink_rep s ll l1 a d l2 Hrep) as (s' & ll' & Hu & Hr'). by exists s', ll', 0.
    + replace (l1 ++ (a, d) :: l2) with ((l1 ++ [(a, d)]) ++ l2) in Hrep by (by rewrite <- app_assoc).
      destruct (IH (l1 ++ [(a, d)]) fuel nx Hrep Hs) as (s' & ll' & r & Hl & Hc); [cbn in Hf; lia|].
      rewrite last_addr_snoc in Hl. exists s', ll', r. split; [done|].
      destruct (remove_first data l2) as [l2'|]; cbn; [|done].
      destruct Hc as [-> Hc]. split; [done|]. by rewrite <- app_assoc in Hc.
Qed.

Lemma remove_by_data_rep data s ll l : ll_rep s ll l ->
  exists s' ll' r, linkedlist_remove_by_data data s ll = Ret (s', ll', r) /\
    match remove_first data l with
    | Some l' => r = 0 /\ ll_rep s' ll' l'
    | None => r = - ENOENT /\ s' = s /\ ll' = ll
    end.
Proof.
  intros Hrep. apply (remove_data_loop_rep data s ll l []); [done|apply Hrep|].
  pose proof (seg_size _ _ _ _ (rep_seg _ _ _ Hrep) (rep_nodup _ _ _ Hrep)). lia.
Qed.

Lemma position_loop_rep s : forall k l1 l2 n, seg s.(nodes) n l2 0 ->
  exists q, position_loop k s (last_addr l1) n = Ret (last_addr (l1 ++ take k l2), q) /\
    seg s.(nodes) q (drop k l2) 0.
Proof.
  induction k as [|k IH]; intros l1 l2 n Hs; cbn [position_loop].
  - rewrite take_0, drop_0, app_nil_r. by exists n.
  - destruct l2 as [|[a d] l2].
    + cbn in Hs. subst n. rewrite Z.eqb_refl, take_nil, drop_nil, app_nil_r. by exists 0.
    + apply seg_head in Hs as (-> & Ha & nx & Hm & Hs). rewrite (proj2 (Z.eqb_neq a 0)) by done.
      unfold read_node. rewrite Hm. cbn [deref]. rewrite bind_Ret. cbn [next].
      destruct (IH (l1 ++ [(a, d)]) l2 nx Hs) as (q & Hq & Hs'). rewrite last_addr_snoc, <- app_assoc in Hq.
      by exists q.
Qed.

Lemma remove_by_position_rep pos s ll l : 0 <= pos -> ll_rep s ll l ->
  exists s' ll' r, linkedlist_remove_by_position pos s ll = Ret (s', ll', r) /\
    if pos <? Z.of_nat (length l) then r = 0 /\ ll_rep s' ll' (delete (Z.to_nat pos) l)
    else r = - ENOENT /\ s' = s /\ ll' = ll.
Proof.
  intros Hpos Hrep. unfold linkedlist_remove_by_position.
  destruct (position_loop_rep s (Z.to_nat pos) [] l (root ll) (rep_seg _ _ _ Hrep)) as (q & Hq & Hs).
  change (last_addr []) with 0 in Hq. rewrite Hq, bind_Ret. cbn [app].
  destruct (pos <? Z.of_nat (length l)) eqn:E; reflect_bools.
  - destruct (drop (Z.to_nat pos) l) as [|[a d] l2] eqn:Ed.
    { apply (f_equal length) in Ed. rewrite length_drop in Ed. cbn in Ed. lia. }
    apply seg_head in Hs as (-> & Ha & _). rewrite (proj2 (Z.eqb_neq a 0)) by done. cbn [negb].
    rewrite <- (take_drop (Z.to_nat pos) l), Ed in Hrep.
    destruct (unlink_rep _ _ _ _ _ _ Hrep) as (s' & ll' & Hu & Hr'). exists s', ll', 0. split; [done|].
    split; [done|]. rewrite delete_take_drop. replace (drop (S (Z.to_nat pos)) l) with l2; [done|].
    by rewrite <- (Nat.add_1_r (Z.to_nat pos)), <- drop_drop, Ed.
  - rewrite drop_ge in Hs by lia. cbn in Hs. subst q. by eexists _, _, _.
Qed.

(** ** Properties *)

(** The list that a representation holds, with addresses forgotten. *)
Definition list_of s ll (ds : list Z) : Prop := exists l, ll_rep s ll l /\ l.*2 = ds.

(** Remove the first occurrence. *)
Fixpoint remove_value (d : Z) (ds : list Z) : option (list Z) :=
  match ds with
  | [] => None
  | x :: ds => if x =? d then Some ds else cons x <$> remove_value d ds
  end.

Lemma remove_first_values d l :
  (fun l' : list (Z * Z) => l'.*2) <$> remove_first d l = remove_value d l.*2.
Proof.
  induction l as [|x l IH]; [done|]. cbn. destruct (x.2 =? d); [done|].
  rewrite <- IH. by destruct (remove_first d l).
Qed.

(** The two calls the kernel's lists make, on the data alone. *)
Lemma add_list s ll ds x : list_of s ll ds -> exists s' ll' r, linkedlist_add x s ll = Ret (s', ll', r) /\
  ((r = 0 /\ list_of s' ll' (ds ++ [x])) \/ (r = - ENOMEM /\ list_of s' ll' ds)).
Proof.
  intros (l & Hrep & <-). destruct (add_rep x s ll l Hrep) as (s' & ll' & r & Hr & [[-> Hl]|[-> [a Hl]]]);
    exists s', ll'; eexists; (split; [exact Hr|]); [right|left]; (split; [done|]).
  - by exists l.
  - exists (l ++ [(a, x)]). split; [done|]. by rewrite fmap_app.
Qed.
Lemma remove_list s ll ds x : list_of s ll ds -> exists s' ll' r, linkedlist_remove_by_data x s ll = Ret (s', ll', r) /\
  match remove_value x ds with Some ds' => r = 0 /\ list_of s' ll' ds' | None => r = - ENOENT /\ s' = s /\ ll' = ll end.
Proof.
  intros (l & Hrep & <-). destruct (remove_by_data_rep x s ll l Hrep) as (s' & ll' & r & Hr & Hc). exists s', ll', r.
  split; [done|]. rewrite <- remove_first_values. destruct (remove_first x l) as [l'|]; cbn; [|done].
  destruct Hc as [-> Hc]. split; [done|]. by exists l'.
Qed.
Lemma remove_value_snoc x ds : x ∉ ds -> remove_value x (ds ++ [x]) = Some ds.
Proof.
  induction ds as [|d ds IH]; cbn.
  - by rewrite Z.eqb_refl.
  - intros [Hd Hds]%not_elem_of_cons. rewrite (proj2 (Z.eqb_neq d x)) by congruence. by rewrite IH.
Qed.

Lemma remove_first_sub data : forall l l', remove_first data l = Some l' -> forall b, b ∈ l'.*1 -> b ∈ l.*1.
Proof.
  induction l as [|x l IH]; intros l' Hr b Hb; [done|]. cbn in Hr |- *. destruct (x.2 =? data).
  - injection Hr as <-. by right.
  - destruct (remove_first data l) as [l0|] eqn:E; [|done]. injection Hr as <-. cbn in Hb. apply elem_of_cons in Hb as [->|Hb]; [by left|].
    right. by apply (IH l0).
Qed.
(** The node that was added was free before. *)
Lemma add_fresh data s ll l s' ll' r a : ll_rep s ll l -> linkedlist_add data s ll = Ret (s', ll', r) -> ll_rep s' ll' (l ++ [(a, data)]) -> live s.(heap) a = None.
Proof.
  intros [Hseg Hend Hnd Hlive Hnodes Hwf] Ha Ha'. pose proof (rep_end _ _ _ Ha') as He. rewrite last_addr_snoc in He.
  assert (Ha0 : a <> 0).
  { pose proof (rep_seg _ _ _ Ha') as Hs. by apply seg_app in Hs as (? & _ & _ & ? & _). }
  unfold linkedlist_add, new_node in Ha.
  destruct (malloc_law s.(heap) sizeof_LinkedListNode Hwf ltac:(unfold sizeof_LinkedListNode; lia)) as (h' & p & Hm & Hwf' & Hp).
  assert (p = a \/ p = 0 /\ a = ll.(end_)) as [->|[-> ->]].
  { rewrite Hm in Ha. destruct (Z.eqb_spec ll.(end_) 0) as [E|E]; cbn [negb] in Ha; rewrite !bind_Ret in Ha; cbn [fst snd heap nodes] in Ha.
    - destruct (Z.eqb_spec p 0); injection Ha as _ <- _; cbn [end_] in He; [congruence|by left].
    - unfold set_next, read_node in Ha. cbn [nodes heap] in Ha. destruct (s.(nodes) !! ll.(end_)) as [e|]; [|discriminate Ha].
      cbn [deref] in Ha. rewrite !bind_Ret in Ha. cbn [fst snd heap nodes] in Ha.
      destruct (Z.eqb_spec p 0); injection Ha as _ <- _; cbn [end_] in He; [right; by split|by left]. }
  - by destruct Hp as [[-> _]|(_ & Hf & _)].
  - exfalso. pose proof (rep_nodup _ _ _ Ha') as Hn. rewrite fmap_app in Hn. apply NoDup_app in Hn as (_ & Hn & _).
    apply (Hn ll.(end_)); [|cbn; by left]. rewrite Hend in Ha0 |- *. apply last_addr_in. by intros ->.
Qed.

(** ** Two lists in one heap

    A call on one list leaves the nodes of the other alone, and every block
    that is no node. *)
Lemma add_frame data s ll l s' ll' r : ll_rep s ll l -> linkedlist_add data s ll = Ret (s', ll', r) ->
  forall b, b ∉ l.*1 -> live s.(heap) b <> None -> s'.(nodes) !! b = s.(nodes) !! b /\ live s'.(heap) b = live s.(heap) b.
Proof.
  intros [Hseg Hend Hnd Hlive Hnodes Hwf] Ha b Hb Hlb. unfold linkedlist_add, new_node in Ha.
  destruct (malloc_law s.(heap) sizeof_LinkedListNode Hwf ltac:(unfold sizeof_LinkedListNode; lia)) as (h' & p & Hm & Hwf' & Hp).
  assert (Hh : live h' b = live s.(heap) b /\ b <> p \/ p = 0 /\ live h' b = live s.(heap) b).
  { destruct Hp as [[-> Hl]|(Hp0 & Hf & Hl)]; [by right|]. left. assert (b <> p) by congruence. split; [|done]. by rewrite Hl, decide_False. }
  rewrite Hm in Ha. clear Hp Hm. assert (He : ll.(end_) <> 0 -> b <> ll.(end_)).
  { intros He0 ->. apply Hb. rewrite Hend in He0 |- *. apply last_addr_in. by intros ->. }
  destruct (Z.eqb_spec ll.(end_) 0) as [E|E]; cbn [negb] in Ha; rewrite !bind_Ret in Ha; cbn [fst snd heap nodes] in Ha.
  - destruct (Z.eqb_spec p 0); injection Ha as <- _ _; cbn [heap nodes]; [by destruct Hh as [[? _]|[_ ?]]|].
    destruct Hh as [[Hh Hbp]|[? _]]; [|done]. split; [|done]. by rewrite lookup_insert_ne.
  - unfold set_next, read_node in Ha. cbn [nodes heap] in Ha. destruct (s.(nodes) !! ll.(end_)) as [e|]; [|discriminate Ha].
    cbn [deref] in Ha. rewrite !bind_Ret in Ha. cbn [fst snd heap nodes] in Ha. specialize (He E).
    destruct (Z.eqb_spec p 0); injection Ha as <- _ _; cbn [heap nodes].
    + split; [by rewrite lookup_insert_ne|by destruct Hh as [[? _]|[_ ?]]].
    + destruct Hh as [[Hh Hbp]|[? _]]; [|done]. split; [by rewrite !lookup_insert_ne|done].
Qed.

Lemma remove_loop_frame data : forall l fuel s ll prev n s' ll' r, alloc_wf s.(heap) -> (forall a, a ∈ l.*1 -> live s.(heap) a <> None) ->
  seg s.(nodes) n l 0 -> remove_data_loop fuel data s ll prev n = Ret (s', ll', r) ->
  forall b, b <> prev -> b ∉ l.*1 -> s'.(nodes) !! b = s.(nodes) !! b /\ live s'.(heap) b = live s.(heap) b.
Proof.
  induction l as [|[a d] l IH]; intros [|fuel] s ll prev n s' ll' r Hwf Hl Hs Hr b Hbp Hb; try discriminate Hr; cbn [remove_data_loop] in Hr.
  - cbn in Hs. subst n. by injection Hr as <- _ _.
  - apply seg_head in Hs as (-> & Ha & nx & Hm & Hs). cbn in Hb. apply not_elem_of_cons in Hb as [Hba Hb].
    rewrite (proj2 (Z.eqb_neq a 0)) in Hr by done. unfold read_node in Hr. rewrite Hm in Hr. cbn [deref] in Hr. rewrite bind_Ret in Hr.
    cbn [node_data next] in Hr. destruct (d =? data).
    + unfold unlink, read_node in Hr. rewrite Hm in Hr. cbn [deref] in Hr. rewrite bind_Ret in Hr. cbn [next] in Hr.
      destruct (free_law s.(heap) a Hwf) as (h' & Hf & _ & Hl'); [apply Hl; by left|].
      destruct (negb (prev =? 0)).
      * unfold set_next, read_node in Hr. destruct (s.(nodes) !! prev) as [e|]; [|discriminate Hr]. cbn [deref] in Hr. rewrite !bind_Ret in Hr.
        cbn [fst snd] in Hr. unfold free_node in Hr. cbn [heap nodes] in Hr. rewrite Hf, !bind_Ret in Hr. injection Hr as <- _ _. cbn [heap nodes].
        rewrite lookup_delete_ne, lookup_insert_ne, Hl', decide_False by done. done.
      * rewrite bind_Ret in Hr. cbn [fst snd] in Hr. unfold free_node in Hr. rewrite Hf, !bind_Ret in Hr. injection Hr as <- _ _. cbn [heap nodes].
        rewrite lookup_delete_ne, Hl', decide_False by done. done.
    + eapply IH; [exact Hwf| |exact Hs|exact Hr|done|done]. intros c Hc. apply Hl. by right.
Qed.
Lemma list_remove_frame data s ll l s' ll' r : ll_rep s ll l -> linkedlist_remove_by_data data s ll = Ret (s', ll', r) ->
  forall b, b <> 0 -> b ∉ l.*1 -> s'.(nodes) !! b = s.(nodes) !! b /\ live s'.(heap) b = live s.(heap) b.
Proof.
  intros [Hseg _ _ Hlive _ Hwf] Hr b Hb0 Hb. eapply remove_loop_frame; [exact Hwf| |exact Hseg|exact Hr|done|done].
  intros a Ha. by rewrite (Hlive a Ha).
Qed.

Record two_lists s lla (das : list Z) llb (dbs : list Z) : Prop := {
  two_reps : exists la lb, ll_rep s lla la /\ ll_rep s llb lb /\ la.*2 = das /\ lb.*2 = dbs /\ la.*1 ## lb.*1 }.
(** The blocks that are no nodes. *)
Definition keeps_blocks s s' : Prop := forall b, s.(nodes) !! b = None -> live s.(heap) b <> None ->
  s'.(nodes) !! b = None /\ live s'.(heap) b = live s.(heap) b.

Lemma two_swap s lla das llb dbs : two_lists s lla das llb dbs -> two_lists s llb dbs lla das.
Proof. intros [(la & lb & Ha & Hb & Ea & Eb & Hd)]. split. exists lb, la. do 4 (split; [done|]). set_solver. Qed.
Lemma two_fst s lla das llb dbs : two_lists s lla das llb dbs -> list_of s lla das.
Proof. intros [(la & lb & Ha & _ & Ea & _)]. by exists la. Qed.
Lemma seg_nodes m p l q a : seg m p l q -> m !! a = None -> a ∉ l.*1.
Proof. intros Hs Hm Ha. apply (seg_elem _ _ _ _ _ Hs) in Ha as [x Hx]. congruence. Qed.
(** The other list, in a state where its nodes are the same. *)
Lemma rep_frame s s' ll l : ll_rep s ll l -> alloc_wf s'.(heap) -> (forall a, is_Some (s'.(nodes) !! a) -> live s'.(heap) a <> None) ->
  (forall b, b ∈ l.*1 -> s'.(nodes) !! b = s.(nodes) !! b /\ live s'.(heap) b = live s.(heap) b) -> ll_rep s' ll l.
Proof.
  intros [Hseg Hend Hnd Hlive Hnodes Hwf] Hwf' Hn Hk. split; try done.
  - eapply seg_frame; [|exact Hseg]. intros a Ha. apply (Hk a Ha).
  - intros a Ha. destruct (Hk a Ha) as [_ ->]. by apply Hlive.
Qed.

Lemma two_add x s lla das llb dbs : two_lists s lla das llb dbs -> exists s' lla' r, linkedlist_add x s lla = Ret (s', lla', r) /\ keeps_blocks s s' /\
  ((r = 0 /\ two_lists s' lla' (das ++ [x]) llb dbs) \/ (r = - ENOMEM /\ two_lists s' lla' das llb dbs)).
Proof.
  intros [(la & lb & Ha & Hb & <- & <- & Hd)]. destruct (add_rep x s lla la Ha) as (s' & lla' & r & Hr & Hc).
  pose proof (add_frame _ _ _ _ _ _ _ Ha Hr) as Hf. exists s', lla', r. split; [done|]. split.
  - intros b Hnb Hlb. rewrite <- Hnb. apply Hf; [|done]. exact (seg_nodes _ _ _ _ _ (rep_seg _ _ _ Ha) Hnb).
  - assert (Hkb : forall b, b ∈ lb.*1 -> s'.(nodes) !! b = s.(nodes) !! b /\ live s'.(heap) b = live s.(heap) b).
    { intros b Hbb. apply Hf; [set_solver|]. by rewrite (rep_live _ _ _ Hb b Hbb). }
    destruct Hc as [[-> Ha']|[-> [a Ha']]]; [right|left]; (split; [done|]); constructor.
    + exists la, lb. split; [done|]. split; [|done]. apply (rep_frame s); [done|apply Ha'|apply Ha'|done].
    + exists (la ++ [(a, x)]), lb. split; [done|]. split; [apply (rep_frame s); [done|apply Ha'|apply Ha'|done]|].
      split; [by rewrite fmap_app|]. split; [done|]. rewrite fmap_app. cbn. intros b [Hba| ->%list_elem_of_singleton]%elem_of_app Hbb; [by apply (Hd b)|].
      (* the new node was free *)
      destruct (Hkb a Hbb) as [Hnk _]. pose proof (rep_nodup _ _ _ Ha') as Hnd. rewrite fmap_app in Hnd. apply NoDup_app in Hnd as (_ & Hna & _).
      pose proof (add_fresh _ _ _ _ _ _ _ _ Ha Hr Ha') as Hfr. by rewrite (rep_live _ _ _ Hb a Hbb) in Hfr.
Qed.

Lemma two_remove x s lla das llb dbs : two_lists s lla das llb dbs -> exists s' lla' r, linkedlist_remove_by_data x s lla = Ret (s', lla', r) /\ keeps_blocks s s' /\
  match remove_value x das with Some das' => r = 0 /\ two_lists s' lla' das' llb dbs | None => r = - ENOENT /\ s' = s /\ lla' = lla end.
Proof.
  intros [(la & lb & Ha & Hb & <- & <- & Hd)]. destruct (remove_by_data_rep x s lla la Ha) as (s' & lla' & r & Hr & Hc).
  pose proof (list_remove_frame _ _ _ _ _ _ _ Ha Hr) as Hf. assert (Hnz : forall b, live s.(heap) b <> None -> b <> 0) by (intros b; apply live_not_null, Ha).
  exists s', lla', r. split; [done|]. split.
  - intros b Hnb Hlb. rewrite <- Hnb. apply Hf; [by apply Hnz|]. exact (seg_nodes _ _ _ _ _ (rep_seg _ _ _ Ha) Hnb).
  - rewrite <- remove_first_values. destruct (remove_first x la) as [la'|] eqn:El; cbn; [|done]. destruct Hc as [-> Ha']. split; [done|]. constructor.
    exists la', lb. split; [done|]. assert (Hsub : forall b, b ∈ la'.*1 -> b ∈ la.*1) by (by apply (remove_first_sub x)).
    split; [|split; [done|]; split; [done|]; set_solver]. apply (rep_frame s); [done|apply Ha'|apply Ha'|].
    intros b Hbb. apply Hf; [|set_solver]. apply Hnz. by rewrite (rep_live _ _ _ Hb b Hbb).
Qed.

(** A block is taken or given back beside the lists. *)
Lemma two_heap s lla das llb dbs h' : two_lists s lla das llb dbs -> alloc_wf h' ->
  (forall b, is_Some (s.(nodes) !! b) -> live h' b = live s.(heap) b) -> two_lists (mkLS h' s.(nodes)) lla das llb dbs.
Proof.
  intros [(la & lb & Ha & Hb & <- & <- & Hd)] Hwf Hk. split. exists la, lb.
  assert (Hn : forall a, is_Some (s.(nodes) !! a) -> live h' a <> None) by (intros a Hs; rewrite Hk by done; by apply (rep_nodes _ _ _ Ha)).
  split; [|split; [|done]]; (eapply rep_frame; [eassumption|done|done|]); intros b Hbb; (split; [done|]); apply Hk;
    [apply (seg_elem _ _ _ _ b (rep_seg _ _ _ Ha) Hbb)|apply (seg_elem _ _ _ _ b (rep_seg _ _ _ Hb) Hbb)].
Qed.

(** over any allocator that keeps its laws, the linked list implements a list
    of data: adding appends at the end (or fails with [-ENOMEM], the list
    unchanged), removing by data deletes the first occurrence, removing by
    position deletes that position, both with [-ENOENT] and no change when
    there is nothing to remove; every node freed was live, and the nodes
    still linked stay allocated, so no call touches freed memory. *)
Theorem linkedlist_refines_list s ll ds x pos : list_of s ll ds -> 0 <= pos ->
  (exists s' ll' r, linkedlist_add x s ll = Ret (s', ll', r) /\
     ((r = 0 /\ list_of s' ll' (ds ++ [x])) \/ (r = - ENOMEM /\ list_of s' ll' ds))) /\
  (exists s' ll' r, linkedlist_remove_by_data x s ll = Ret (s', ll', r) /\
     match remove_value x ds with
     | Some ds' => r = 0 /\ list_of s' ll' ds'
     | None => r = - ENOENT /\ s' = s /\ ll' = ll
     end) /\
  (exists s' ll' r, linkedlist_remove_by_position pos s ll = Ret (s', ll', r) /\
     if pos <? Z.of_nat (length ds) then r = 0 /\ list_of s' ll' (delete (Z.to_nat pos) ds)
     else r = - ENOENT /\ s' = s /\ ll' = ll).
Proof.
  intros Hl Hpos. split; [by apply add_list|]. split; [by apply remove_list|]. destruct Hl as (l & Hrep & <-).
  destruct (remove_by_position_rep pos s ll l Hpos Hrep) as (s' & ll' & r & Hr & Hc). exists s', ll', r.
    split; [done|]. rewrite length_fmap. destruct (_ <? _); [|done]. destruct Hc as [-> Hc].
    split; [done|]. eexists. split; [exact Hc|]. by rewrite list_fmap_delete.
Qed.
End rep.

Lemma empty_list_of : list_of (mkLS demo_k ∅) (mkLL 0 0) [].
Proof.
  exists []. split; [|done]. split; cbn; try done.
  - apply NoDup_nil_2.
  - intros a Ha. by apply elem_of_nil in Ha.
  - intros a Ha. rewrite lookup_empty in Ha. by destruct Ha.
  - apply demo_k_wf.
Qed.

Lemma linkedlist_refines_list_witness :
  exists s' ll' r, linkedlist_add 7 (mkLS demo_k ∅) (mkLL 0 0) = Ret (s', ll', r) /\
    ((r = 0 /\ list_of s' ll' [7]) \/ (r = - ENOMEM /\ list_of s' ll' [])).
Proof. apply (linkedlist_refines_list (mkLS demo_k ∅) (mkLL 0 0) [] 7 0 empty_list_of). lia. Defined.
