(* ===== verification/Sha1.v ===== *)
(** * SHA-1

    [drivers/crypto/sha1/sha1.c] against RFC 3174.  The block buffer is the
    320 bytes of [u32 buf[80]] in the memory of a little-endian machine. *)
From S2P Require Import Prelude Bitwise.
Import Bits.

(** ** Bytes and words *)

Definition le_combine (l : list Z) : Z := foldr (fun b acc => b + 256 * acc) 0 l.
Fixpoint le_split (n : nat) (w : Z) : list Z :=
  match n with O => [] | S n => w mod 256 :: le_split n (w / 256) end.

Definition SHA1_DIGEST_SIZE : Z := 20.

(** [memcpy] of [l] to byte offset [off] of a buffer. *)
Definition write_at (buf : list Z) (off : nat) (l : list Z) : list Z :=
  take off buf ++ l ++ drop (off + length l) buf.
(** [buf[i]] as a [u32]. *)
Definition rd32 (buf : list Z) (i : nat) : Z := le_combine (take 4 (drop (4 * i) buf)).
Definition wr32 (buf : list Z) (i : nat) (w : Z) : list Z := write_at buf (4 * i) (le_split 4 w).

(** ** The context *)

Record regs := mkRegs { h0 : Z; h1 : Z; h2 : Z; h3 : Z; h4 : Z }.
Record SHA1Context := mkCtx {
  r : regs;
  block_buf : list Z; block_size : Z;
  extra_buf : list Z; extra_has : bool;
  msg_buf : list Z; msg_initsize : Z; msg_size : Z }.

Definition with_block (c : SHA1Context) (buf : list Z) (size : Z) : SHA1Context :=
  mkCtx c.(r) buf size c.(extra_buf) c.(extra_has) c.(msg_buf) c.(msg_initsize) c.(msg_size).
Definition with_extra (c : SHA1Context) (buf : list Z) (has : bool) : SHA1Context :=
  mkCtx c.(r) c.(block_buf) c.(block_size) buf has c.(msg_buf) c.(msg_initsize) c.(msg_size).
Definition with_regs (c : SHA1Context) (x : regs) : SHA1Context :=
  mkCtx x c.(block_buf) c.(block_size) c.(extra_buf) c.(extra_has) c.(msg_buf) c.(msg_initsize) c.(msg_size).

(** [initsize * 8] is a [size_t] product before it is widened. *)
Definition sha1_pad (c : SHA1Context) : outcome SHA1Context :=
  _ ← assert_ (c.(block_size) <=? 64);
  let size := Z.to_nat c.(block_size) in
  let paddingsize := 64 - c.(block_size) in
  let msgbits := u32 (c.(msg_initsize) * 8) in
  let hi := bw_u32_flip_endianness (Z.land (Z.shiftr msgbits 32) 0xFFFFFFFF) in
  let lo := bw_u32_flip_endianness (Z.land msgbits 0xFFFFFFFF) in
  if (paddingsize >=? 1) && (paddingsize <=? 8) then
    let buf := write_at c.(block_buf) size [128] in
    let buf := write_at buf (size + 1) (replicate (Z.to_nat (paddingsize - 1)) 0) in
    let extra := write_at c.(extra_buf) 0 (replicate 48 0) in
    let extra := wr32 extra 14 hi in
    let extra := wr32 extra 15 lo in
    Ret (with_extra (with_block c buf 64) extra true)
  else
    let buf := write_at c.(block_buf) size (replicate (Z.to_nat paddingsize) 0) in
    let buf := write_at buf size [128] in
    let buf := wr32 buf 14 hi in
    let buf := wr32 buf 15 lo in
    Ret (with_block c buf 64).

(** The five working variables. *)
Record work := mkW { wa : Z; wb : Z; wc : Z; wd : Z; we : Z }.

Definition SHA1_PROCESS_BLOCK_SWP (w : work) (f k : Z) (t : nat) (buf : list Z) : work :=
  let tmp := u32 (bw_u32_rotl w.(wa) 5 + f + w.(we) + rd32 buf t + k) in
  mkW tmp w.(wa) (bw_u32_rotl w.(wb) 30) w.(wc) w.(wd).

Definition sha1_process_block_1 (w : work) (buf : list Z) : work :=
  foldl (fun w t =>
    let f := Z.lor (Z.land w.(wb) w.(wc)) (Z.land (u32 (Z.lnot w.(wb))) w.(wd)) in
    SHA1_PROCESS_BLOCK_SWP w f 0x5A827999 t buf) w (seq 0 20).
Definition sha1_process_block_2 (w : work) (buf : list Z) : work :=
  foldl (fun w t =>
    let f := Z.lxor (Z.lxor w.(wb) w.(wc)) w.(wd) in
    SHA1_PROCESS_BLOCK_SWP w f 0x6ED9EBA1 t buf) w (seq 20 20).
Definition sha1_process_block_3 (w : work) (buf : list Z) : work :=
  foldl (fun w t =>
    let f := Z.lor (Z.lor (Z.land w.(wb) w.(wc)) (Z.land w.(wb) w.(wd))) (Z.land w.(wc) w.(wd)) in
    SHA1_PROCESS_BLOCK_SWP w f 0x8F1BBCDC t buf) w (seq 40 20).
Definition sha1_process_block_4 (w : work) (buf : list Z) : work :=
  foldl (fun w t =>
    let f := Z.lxor (Z.lxor w.(wb) w.(wc)) w.(wd) in
    SHA1_PROCESS_BLOCK_SWP w f 0xCA62C1D6 t buf) w (seq 60 20).

Definition flip_words (buf : list Z) : list Z :=
  foldl (fun buf i => wr32 buf i (bw_u32_flip_endianness (rd32 buf i))) buf (seq 0 16).
Definition expand_words (buf : list Z) : list Z :=
  foldl (fun buf i =>
    wr32 buf i (bw_u32_rotl
      (Z.lxor (Z.lxor (Z.lxor (rd32 buf (i - 3)) (rd32 buf (i - 8))) (rd32 buf (i - 14)))
              (rd32 buf (i - 16))) 1)) buf (seq 16 64).

(** [fuel] counts the recursive calls: the extra block is processed by one. *)
Fixpoint sha1_process_block (fuel : nat) (c : SHA1Context) : outcome SHA1Context :=
  match fuel with
  | O => Undef
  | S fuel =>
      _ ← assert_ (c.(block_size) =? 64);
      let buf := expand_words (flip_words c.(block_buf)) in
      let w := mkW c.(r).(h0) c.(r).(h1) c.(r).(h2) c.(r).(h3) c.(r).(h4) in
      let w := sha1_process_block_1 w buf in
      let w := sha1_process_block_2 w buf in
      let w := sha1_process_block_3 w buf in
      let w := sha1_process_block_4 w buf in
      let c := with_regs c (mkRegs (u32 (c.(r).(h0) + w.(wa))) (u32 (c.(r).(h1) + w.(wb)))
                 (u32 (c.(r).(h2) + w.(wc))) (u32 (c.(r).(h3) + w.(wd))) (u32 (c.(r).(h4) + w.(we)))) in
      let c := with_block c buf 0 in
      if c.(extra_has) then
        let c := with_extra c c.(extra_buf) false in
        let c := with_block c (write_at c.(block_buf) 0 (take 64 c.(extra_buf))) 64 in
        sha1_process_block fuel c
      else Ret c
  end.

Definition sha1_create_context (msg : list Z) (msglen : Z) : SHA1Context :=
  mkCtx (mkRegs 0x67452301 0xEFCDAB89 0x98BADCFE 0x10325476 0xC3D2E1F0)
    (replicate 320 0) 0 (replicate 64 0) false msg msglen msglen.

Definition sha1_read_block (c : SHA1Context) : SHA1Context * Z :=
  let read := if c.(msg_size) >=? 64 then 64 else c.(msg_size) in
  let n := Z.to_nat read in
  let buf := write_at c.(block_buf) 0 (take n c.(msg_buf)) in
  (mkCtx c.(r) buf read c.(extra_buf) c.(extra_has) (drop n c.(msg_buf)) c.(msg_initsize)
     (u32 (c.(msg_size) - read)), read).

(** [while (sha1_read_block(&ctx) == 64) sha1_process_block(&ctx);] *)
Fixpoint sha1_blocks (fuel : nat) (c : SHA1Context) : outcome SHA1Context :=
  match fuel with
  | O => Undef
  | S fuel =>
      let '(c, read) := sha1_read_block c in
      if read =? 64 then c ← sha1_process_block 2 c; sha1_blocks fuel c else Ret c
  end.

(** The status and the digest's bytes; the build is little-endian. *)
Definition sha1_chew (msg : list Z) : outcome (Z * list Z) :=
  let c := sha1_create_context msg (Z.of_nat (length msg)) in
  c ← sha1_blocks (S (length msg / 64)) c;
  c ← sha1_pad c;
  c ← sha1_process_block 2 c;
  let out x := le_split 4 (bw_u32_flip_endianness x) in
  Ret (0, out c.(r).(h0) ++ out c.(r).(h1) ++ out c.(r).(h2) ++ out c.(r).(h3) ++ out c.(r).(h4)).

(** ** RFC 3174 *)
Module RFC3174.

Definition be_split (n : nat) (w : Z) : list Z := rev (le_split n w).
Definition be_combine (l : list Z) : Z := le_combine (rev l).

(** Section 3: S^n, a circular left shift. *)
Definition S_ (n X : Z) : Z := (X * 2 ^ n) mod 2 ^ 32 + X / 2 ^ (32 - n).
Definition not32 (X : Z) : Z := 2 ^ 32 - 1 - X.

(** Section 5. *)
Definition f (t : nat) (B C D : Z) : Z :=
  if (t <? 20)%nat then Z.lor (Z.land B C) (Z.land (not32 B) D)
  else if (t <? 40)%nat then Z.lxor (Z.lxor B C) D
  else if (t <? 60)%nat then Z.lor (Z.lor (Z.land B C) (Z.land B D)) (Z.land C D)
  else Z.lxor (Z.lxor B C) D.
Definition K (t : nat) : Z :=
  if (t <? 20)%nat then 0x5A827999 else if (t <? 40)%nat then 0x6ED9EBA1
  else if (t <? 60)%nat then 0x8F1BBCDC else 0xCA62C1D6.

(** Section 6.1: the block's sixteen words, extended to eighty. *)
Definition block_words (B : list Z) : list Z :=
  map (fun i => be_combine (take 4 (drop (4 * i) B))) (seq 0 16).
Fixpoint extend (k : nat) (W : list Z) : list Z :=
  match k with
  | O => W
  | S k =>
      let t := length W in
      extend k (W ++ [S_ 1 (Z.lxor (Z.lxor (Z.lxor (W !!! (t - 3)%nat) (W !!! (t - 8)%nat))
                                  (W !!! (t - 14)%nat)) (W !!! (t - 16)%nat))])
  end.

Definition step (W : list Z) (w : work) (t : nat) : work :=
  let TEMP := (S_ 5 w.(wa) + f t w.(wb) w.(wc) w.(wd) + w.(we) + W !!! t + K t) mod 2 ^ 32 in
  mkW TEMP w.(wa) (S_ 30 w.(wb)) w.(wc) w.(wd).

Definition process (H : regs) (B : list Z) : regs :=
  let W := extend 64 (block_words B) in
  let w := foldl (step W) (mkW H.(h0) H.(h1) H.(h2) H.(h3) H.(h4)) (seq 0 80) in
  mkRegs ((H.(h0) + w.(wa)) mod 2 ^ 32) ((H.(h1) + w.(wb)) mod 2 ^ 32) ((H.(h2) + w.(wc)) mod 2 ^ 32)
         ((H.(h3) + w.(wd)) mod 2 ^ 32) ((H.(h4) + w.(we)) mod 2 ^ 32).

(** Section 4: [1], zeros, and the length in bits as two words, up to a multiple of
    64 bytes.  [bits] is the length. *)
Definition zeros (n : nat) : nat := (119 - n mod 64) mod 64.
Definition pad (bits : Z) (msg : list Z) : list Z :=
  msg ++ 128 :: replicate (zeros (length msg)) 0 ++ be_split 8 bits.

Fixpoint blocks (k : nat) (H : regs) (m : list Z) : regs :=
  match k with O => H | S k => blocks k (process H (take 64 m)) (drop 64 m) end.

Definition initial : regs := mkRegs 0x67452301 0xEFCDAB89 0x98BADCFE 0x10325476 0xC3D2E1F0.
Definition hash (bits : Z) (msg : list Z) : list Z :=
  let m := pad bits msg in
  let H := blocks (length m / 64) initial m in
  be_split 4 H.(h0) ++ be_split 4 H.(h1) ++ be_split 4 H.(h2) ++ be_split 4 H.(h3) ++ be_split 4 H.(h4).
Definition sha1 (msg : list Z) : list Z := hash (8 * Z.of_nat (length msg)) msg.
End RFC3174.

(** ** Bytes and words: lemmas *)

Definition bytes (l : list Z) : Prop := Forall is_u8 l.

Lemma le_combine_range l : bytes l -> 0 <= le_combine l < 2 ^ (8 * Z.of_nat (length l)).
Proof.
  induction 1 as [|b l Hb _ IH]; [done|]. change (le_combine (b :: l)) with (b + 256 * le_combine l).
  cbn [length]. unfold is_u8 in Hb.
  replace (8 * Z.of_nat (S (length l))) with (8 + 8 * Z.of_nat (length l)) by lia.
  rewrite Z.pow_add_r by lia. lia.
Qed.

Lemma le_split_length n w : length (le_split n w) = n.
Proof. revert w. induction n; intros; cbn; auto. Qed.

Lemma le_split_bytes n w : bytes (le_split n w).
Proof.
  revert w. induction n as [|n IH]; intros w; cbn; constructor; [|apply IH].
  unfold is_u8. apply Z.mod_pos_bound. lia.
Qed.

Lemma le_combine_split n : forall w, 0 <= w < 2 ^ (8 * Z.of_nat n) -> le_combine (le_split n w) = w.
Proof.
  induction n as [|n IH]; intros w Hw; [cbn in *; lia|]. cbn [le_split].
  change (le_combine (w mod 256 :: le_split n (w / 256))) with (w mod 256 + 256 * le_combine (le_split n (w / 256))).
  replace (8 * Z.of_nat (S n)) with (8 + 8 * Z.of_nat n) in Hw by lia. rewrite Z.pow_add_r in Hw by lia.
  rewrite IH; [pose proof (Z.div_mod w 256); lia|].
  split; [apply Z.div_pos; lia|apply Z.div_lt_upper_bound; lia].
Qed.

Lemma le_split_combine l : bytes l -> le_split (length l) (le_combine l) = l.
Proof.
  induction 1 as [|b l Hb Hl IH]; [done|]. change (le_combine (b :: l)) with (b + 256 * le_combine l).
  cbn [length le_split]. unfold is_u8 in Hb.
  rewrite (Z.mul_comm 256), Z_mod_plus_full, Z.mod_small by lia.
  rewrite Z.div_add, Z.div_small, Z.add_0_l by lia. by rewrite IH.
Qed.

Lemma write_at_length buf off l : (off + length l <= length buf)%nat -> length (write_at buf off l) = length buf.
Proof. intros. unfold write_at. rewrite !length_app, length_take, length_drop. lia. Qed.

Lemma write_at_lookup buf off l k : (off + length l <= length buf)%nat ->
  write_at buf off l !! k =
  if decide (off <= k < off + length l)%nat then l !! (k - off)%nat else buf !! k.
Proof.
  intros Hl. unfold write_at. assert (Ht : length (take off buf) = off) by (rewrite length_take; lia).
  destruct (decide (k < off)%nat).
  - rewrite lookup_app_l, lookup_take_lt, decide_False by lia. done.
  - rewrite lookup_app_r, Ht by lia. case_decide.
    + by rewrite lookup_app_l by lia.
    + rewrite lookup_app_r, lookup_drop by lia. f_equal. lia.
Qed.

Lemma write_at_bytes buf off l : bytes buf -> bytes l -> bytes (write_at buf off l).
Proof.
  intros Hb Hl. apply Forall_app. split; [by apply Forall_take|].
  apply Forall_app. split; [done|by apply Forall_drop].
Qed.

Lemma chunk_lookup (buf : list Z) i k : (k < 4)%nat -> take 4 (drop (4 * i) buf) !! k = buf !! (4 * i + k)%nat.
Proof. intros. by rewrite lookup_take_lt, lookup_drop by lia. Qed.

(** Two buffers with the same four bytes read the same word. *)
Lemma rd32_ext buf buf' i : (forall k, (k < 4)%nat -> buf !! (4 * i + k)%nat = buf' !! (4 * i + k)%nat) ->
  rd32 buf i = rd32 buf' i.
Proof.
  intros H. unfold rd32. f_equal. apply list_eq. intros k. destruct (decide (k < 4)%nat).
  - rewrite !chunk_lookup by lia. by apply H.
  - rewrite !lookup_take_ge by lia. done.
Qed.

Lemma rd32_write_outside buf off l i : (off + length l <= length buf)%nat ->
  (4 * i + 4 <= off \/ off + length l <= 4 * i)%nat -> rd32 (write_at buf off l) i = rd32 buf i.
Proof. intros Hl Ho. apply rd32_ext. intros k Hk. rewrite write_at_lookup, decide_False by lia. done. Qed.

Lemma rd32_wr32 buf i j w : (4 * i + 4 <= length buf)%nat -> is_u32 w ->
  rd32 (wr32 buf i w) j = if decide (i = j) then w else rd32 buf j.
Proof.
  intros Hl Hw. unfold wr32. case_decide as Hij.
  - subst j. unfold rd32. rewrite <- (le_combine_split 4 w) by exact Hw. f_equal. apply list_eq. intros k.
    destruct (decide (k < 4)%nat).
    + rewrite chunk_lookup, write_at_lookup, decide_True by (rewrite ?le_split_length; lia).
      rewrite le_combine_split by exact Hw. f_equal. lia.
    + rewrite lookup_take_ge by lia. symmetry. apply lookup_ge_None. rewrite le_split_length. lia.
  - apply rd32_write_outside; rewrite le_split_length; lia.
Qed.

Lemma rd32_u32 buf i : bytes buf -> is_u32 (rd32 buf i).
Proof.
  intros Hb. unfold rd32. assert (Hc : bytes (take 4 (drop (4 * i) buf))) by (by apply Forall_take, Forall_drop).
  pose proof (le_combine_range _ Hc) as Hr. rewrite length_take in Hr.
  assert (2 ^ (8 * Z.of_nat (4 `min` length (drop (4 * i) buf))) <= 2 ^ 32) by (apply Z.pow_le_mono_r; lia).
  unfold is_u32. lia.
Qed.

Lemma wr32_bytes buf i w : bytes buf -> bytes (wr32 buf i w).
Proof. intros. apply write_at_bytes; [done|apply le_split_bytes]. Qed.

Lemma wr32_length buf i w : (4 * i + 4 <= length buf)%nat -> length (wr32 buf i w) = length buf.
Proof. intros. apply write_at_length. rewrite le_split_length. lia. Qed.

(** ** The helpers against the RFC's *)

Lemma rotl_S n X : is_u32 X -> 0 < n < 32 -> bw_u32_rotl X n = RFC3174.S_ n X.
Proof.
  intros HX Hn. unfold bw_u32_rotl, RFC3174.S_, u32.
  rewrite Z.shiftl_mul_pow2, Z.shiftr_div_pow2 by lia.
  assert (E : (X * 2 ^ n) mod 2 ^ 32 = Z.shiftl (X mod 2 ^ (32 - n)) n).
  { rewrite Z.shiftl_mul_pow2 by lia. replace (2 ^ 32) with (2 ^ (32 - n) * 2 ^ n)
      by (rewrite <- Z.pow_add_r by lia; f_equal; lia). rewrite Z.mul_mod_distr_r by lia. done. }
  rewrite E, lor_shiftl_add, Z.shiftl_mul_pow2 by
    (lia || (split; [apply Z.div_pos; unfold is_u32 in HX; lia|];
             apply Z.div_lt_upper_bound; [lia|]; rewrite <- Z.pow_add_r by lia;
             replace (32 - n + n) with 32 by lia; apply HX)).
  done.
Qed.

Lemma not32_lnot X : is_u32 X -> u32 (Z.lnot X) = RFC3174.not32 X.
Proof.
  intros HX. unfold u32, RFC3174.not32, Z.lnot, is_u32 in *.
  rewrite <- (Z_mod_plus_full _ 1), Z.mod_small; lia.
Qed.

Lemma byte_of_combine l i : bytes l -> byte_of (le_combine l) (Z.of_nat i) = default 0 (l !! i).
Proof.
  intros Hl. revert i. induction Hl as [|b l Hb Hl IH]; intros i.
  - unfold byte_of. cbn [le_combine foldr]. rewrite Z.shiftr_0_l, Z.land_0_l. done.
  - change (le_combine (b :: l)) with (b + 256 * le_combine l). unfold is_u8 in Hb. unfold byte_of in *.
    change 0xFF with (Z.ones 8) in *. destruct i as [|i].
    + change (8 * Z.of_nat 0) with 0. rewrite Z.shiftr_0_r, Z.land_ones by lia. cbn.
      rewrite (Z.mul_comm 256). change (2 ^ 8) with 256. rewrite Z_mod_plus_full, Z.mod_small by lia. done.
    + cbn. rewrite <- IH. f_equal. replace (8 * Z.of_nat (S i)) with (8 + 8 * Z.of_nat i) by lia.
      rewrite <- Z.shiftr_shiftr by lia. f_equal. rewrite Z.shiftr_div_pow2 by lia.
      change (2 ^ 8) with 256. rewrite (Z.mul_comm 256), Z.div_add, Z.div_small by lia. lia.
Qed.

Lemma byte_ext a b : is_u32 a -> is_u32 b -> (forall i, 0 <= i < 4 -> byte_of a i = byte_of b i) -> a = b.
Proof.
  intros Ha Hb H. apply u32_ext; [done|done|]. intros k Hk.
  pose proof (Z.div_mod k 8 ltac:(lia)). pose proof (Z.mod_pos_bound k 8 ltac:(lia)).
  assert (0 <= k / 8 < 4) by (split; [apply Z.div_pos|apply Z.div_lt_upper_bound]; lia).
  specialize (H (k / 8) ltac:(lia)). apply (f_equal (fun z => Z.testbit z (k mod 8))) in H.
  rewrite !byte_of_testbit in H by lia. rewrite (proj2 (Z.ltb_lt (k mod 8) 8)) in H by lia. cbn [andb] in H.
  by replace (k mod 8 + 8 * (k / 8)) with k in H by lia.
Qed.

(** Flipping a little-endian word reads its bytes big-endian. *)
Lemma flip_combine l : bytes l -> length l = 4%nat ->
  bw_u32_flip_endianness (le_combine l) = RFC3174.be_combine l.
Proof.
  intros Hl H4. pose proof (le_combine_range l Hl) as Hr. rewrite H4 in Hr.
  assert (Hrev : bytes (rev l)) by (apply Forall_rev, Hl).
  pose proof (le_combine_range _ Hrev) as Hr'. rewrite length_rev, H4 in Hr'.
  apply byte_ext; [by apply flip_range|exact Hr'|]. intros i Hi.
  rewrite flip_byte by done. unfold RFC3174.be_combine.
  replace i with (Z.of_nat (Z.to_nat i)) at 2 by lia. replace (3 - i) with (Z.of_nat (3 - Z.to_nat i)) by lia.
  rewrite !byte_of_combine by done. f_equal.
  do 4 (destruct l as [|? l]; [done|]). destruct l; [|done].
  assert (Hc : Z.to_nat i = 0%nat \/ Z.to_nat i = 1%nat \/ Z.to_nat i = 2%nat \/ Z.to_nat i = 3%nat) by lia.
  by destruct Hc as [->|[->|[->| ->]]].
Qed.

Lemma split_flip w : is_u32 w -> le_split 4 (bw_u32_flip_endianness w) = RFC3174.be_split 4 w.
Proof.
  intros Hw. unfold RFC3174.be_split. rewrite <- (le_combine_split 4 w) at 1 by exact Hw.
  rewrite flip_combine by (apply le_split_bytes || by rewrite le_split_length).
  unfold RFC3174.be_combine. rewrite <- (le_split_length 4 w) at 1. rewrite <- length_rev.
  apply le_split_combine, Forall_rev, le_split_bytes.
Qed.

(** ** The message schedule *)

Lemma flip_words_spec n : forall buf, (4 * n <= length buf)%nat -> bytes buf ->
  let buf' := foldl (fun buf i => wr32 buf i (bw_u32_flip_endianness (rd32 buf i))) buf (seq 0 n) in
  length buf' = length buf /\ bytes buf' /\
  forall j, rd32 buf' j = if decide (j < n)%nat then bw_u32_flip_endianness (rd32 buf j) else rd32 buf j.
Proof.
  induction n as [|n IH]; intros buf Hl Hb; [done|].
  rewrite seq_S, foldl_app. cbn [foldl]. rewrite Nat.add_0_l.
  destruct (IH buf ltac:(lia) Hb) as (Hl' & Hb' & Hr).
  set (b' := foldl _ buf (seq 0 n)) in *. cbv zeta in *.
  split; [rewrite wr32_length; lia|]. split; [by apply wr32_bytes|]. intros j.
  rewrite rd32_wr32 by (lia || by apply flip_range, rd32_u32).
  case_decide as Hj; [subst j; rewrite (decide_True (P := (n < S n)%nat)), Hr, decide_False by lia; done|].
  rewrite Hr. repeat case_decide; done || lia.
Qed.

Lemma extend_length k : forall W, length (RFC3174.extend k W) = (length W + k)%nat.
Proof. induction k as [|k IH]; intros W; cbn; [lia|]. rewrite IH, length_app. cbn. lia. Qed.

Lemma extend_S k : forall W, RFC3174.extend (S k) W = RFC3174.extend 1 (RFC3174.extend k W).
Proof. induction k as [|k IH]; intros W; [done|]. apply (IH (W ++ [_])). Qed.

(** The buffer's first words are [W]. *)
Definition holds (buf : list Z) (W : list Z) : Prop :=
  forall j, (j < length W)%nat -> rd32 buf j = W !!! j.

Lemma lookup_total_snoc (W : list Z) x j : (j <= length W)%nat ->
  (W ++ [x]) !!! j = if decide (j = length W) then x else W !!! j.
Proof.
  intros Hj. case_decide as E.
  - subst j. by rewrite lookup_total_app_r, Nat.sub_diag by lia.
  - by rewrite lookup_total_app_l by lia.
Qed.

Lemma lxor_u32 a b : is_u32 a -> is_u32 b -> is_u32 (Z.lxor a b).
Proof.
  intros Ha Hb. unfold is_u32 in *. split; [apply Z.lxor_nonneg; lia|].
  destruct (decide (Z.lxor a b = 0)) as [->|]; [lia|].
  apply Z.log2_lt_cancel. rewrite Z.log2_pow2 by lia.
  eapply Z.le_lt_trans; [apply Z.log2_lxor; lia|].
  apply Z.max_lub_lt; (destruct (decide (a = 0)), (decide (b = 0)); subst; cbn; try lia;
    apply Z.log2_lt_pow2; lia).
Qed.

Lemma expand_words_spec k : forall buf W, length W = 16%nat -> (16 + k <= 80)%nat -> length buf = 320%nat ->
  bytes buf -> holds buf W ->
  let buf' := foldl (fun buf i =>
    wr32 buf i (bw_u32_rotl
      (Z.lxor (Z.lxor (Z.lxor (rd32 buf (i - 3)) (rd32 buf (i - 8))) (rd32 buf (i - 14)))
              (rd32 buf (i - 16))) 1)) buf (seq 16 k) in
  length buf' = 320%nat /\ bytes buf' /\ holds buf' (RFC3174.extend k W).
Proof.
  induction k as [|k IH]; intros buf W HW Hk Hl Hb Hh; [done|].
  rewrite seq_S, foldl_app. cbn [foldl].
  destruct (IH buf W HW ltac:(lia) Hl Hb Hh) as (Hl' & Hb' & Hh').
  set (b' := foldl _ buf (seq 16 k)) in *. cbv zeta in *.
  pose proof (extend_length k W) as HlW. rewrite HW in HlW.
  set (V := RFC3174.extend k W) in *.
  assert (Hu : forall i, is_u32 (rd32 b' i)) by (intros; by apply rd32_u32).
  split; [rewrite wr32_length; lia|]. split; [by apply wr32_bytes|].
  rewrite extend_S. fold V. cbn [RFC3174.extend]. intros j Hj. rewrite length_app in Hj. cbn in Hj.
  rewrite rd32_wr32 by (lia || (apply bw_u32_rotl_range; [by repeat apply lxor_u32|lia])).
  rewrite lookup_total_snoc by lia. rewrite HlW.
  rewrite rotl_S by (lia || by repeat apply lxor_u32). rewrite !Hh' by lia.
  destruct (decide (j = (16 + k)%nat)) as [->|].
  - by rewrite !decide_True by lia.
  - rewrite !decide_False by lia. apply Hh'. lia.
Qed.

Lemma schedule_spec buf B : length buf = 320%nat -> bytes buf -> length B = 64%nat -> take 64 buf = B ->
  let buf' := expand_words (flip_words buf) in
  length buf' = 320%nat /\ bytes buf' /\ holds buf' (RFC3174.extend 64 (RFC3174.block_words B)).
Proof.
  intros Hl Hb HB Ht. destruct (flip_words_spec 16 buf ltac:(lia) Hb) as (Hl1 & Hb1 & Hr1).
  apply (expand_words_spec 64 (flip_words buf) (RFC3174.block_words B));
    [done|lia|unfold flip_words; lia|exact Hb1|].
  intros j Hj. unfold RFC3174.block_words in *. rewrite length_map, length_seq in Hj.
  unfold flip_words. rewrite Hr1, decide_True by lia.
  rewrite (list_lookup_total_correct _ _ (RFC3174.be_combine (take 4 (drop (4 * j) B)))).
  2:{
      change (map ?f ?l) with (f <$> l). rewrite list_lookup_fmap, lookup_seq_lt by lia. done. }
  unfold rd32. rewrite <- Ht.
  replace (take 4 (drop (4 * j) (take 64 buf))) with (take 4 (drop (4 * j) buf)).
  - rewrite flip_combine; [done|by apply Forall_take, Forall_drop|].
    rewrite length_take, length_drop. lia.
  - apply list_eq. intros k. destruct (decide (k < 4)%nat).
    + rewrite !chunk_lookup, lookup_take_lt by lia. done.
    + by rewrite !lookup_take_ge by lia.
Qed.

(** ** The eighty rounds *)

Definition work_ok (w : work) : Prop :=
  is_u32 w.(wa) /\ is_u32 w.(wb) /\ is_u32 w.(wc) /\ is_u32 w.(wd) /\ is_u32 w.(we).

Lemma S_range n X : is_u32 X -> 0 < n < 32 -> is_u32 (RFC3174.S_ n X).
Proof. intros. rewrite <- rotl_S by done. by apply bw_u32_rotl_range. Qed.

Lemma step_ok W w t : work_ok w -> work_ok (RFC3174.step W w t).
Proof.
  intros (Ha & Hb & Hc & Hd & He). split; cbn; [apply Z.mod_pos_bound; lia|].
  split; [done|]. split; [by apply S_range|done].
Qed.

Lemma swp_step W buf w f k t : work_ok w -> rd32 buf t = W !!! t ->
  f = RFC3174.f t w.(wb) w.(wc) w.(wd) -> k = RFC3174.K t ->
  SHA1_PROCESS_BLOCK_SWP w f k t buf = RFC3174.step W w t.
Proof.
  intros (Ha & Hb & Hc & Hd & He) Hr -> ->. unfold SHA1_PROCESS_BLOCK_SWP, RFC3174.step, u32.
  by rewrite !rotl_S, Hr by done.
Qed.

(** Two folds that agree on well-formed states. *)
Lemma foldl_agree (g h : work -> nat -> work) ts : forall w, work_ok w ->
  (forall w t, work_ok w -> t ∈ ts -> g w t = h w t /\ work_ok (h w t)) ->
  foldl g w ts = foldl h w ts /\ work_ok (foldl h w ts).
Proof.
  induction ts as [|t ts IH]; intros w Hw Hgh; [done|]. cbn.
  destruct (Hgh w t Hw ltac:(left)) as [-> Hok]. apply IH; [done|].
  intros w' t' Hw' Ht'. apply Hgh; [done|by right].
Qed.

(** One of the four loops, from round [a] on. *)
Lemma quarter_spec (g : work -> nat -> work) W buf w a : length W = 80%nat -> holds buf W -> work_ok w ->
  (a + 20 <= 80)%nat ->
  (forall w t, work_ok w -> (a <= t < a + 20)%nat -> rd32 buf t = W !!! t -> g w t = RFC3174.step W w t) ->
  foldl g w (seq a 20) = foldl (RFC3174.step W) w (seq a 20) /\
  work_ok (foldl (RFC3174.step W) w (seq a 20)).
Proof.
  intros HW Hh Hw Ha Hg. apply foldl_agree; [done|]. intros w' t Hw' Ht.
  apply elem_of_seq in Ht. split; [|by apply step_ok]. apply Hg; [done|lia|apply Hh; lia].
Qed.

Ltac round_case :=
  intros w1 t1 Hw1 Ht1 Hr1; pose proof Hw1 as (? & ? & ? & ? & ?); apply swp_step; try done;
  unfold RFC3174.f, RFC3174.K;
  repeat match goal with |- context [(?x <? ?y)%nat] =>
    destruct (Nat.ltb_spec x y); try lia end; rewrite ?not32_lnot by done; done.

Lemma block_1_spec W buf w : length W = 80%nat -> holds buf W -> work_ok w ->
  sha1_process_block_1 w buf = foldl (RFC3174.step W) w (seq 0 20) /\
  work_ok (foldl (RFC3174.step W) w (seq 0 20)).
Proof. intros. apply (quarter_spec _ W buf w 0); try (done || lia); round_case. Qed.
Lemma block_2_spec W buf w : length W = 80%nat -> holds buf W -> work_ok w ->
  sha1_process_block_2 w buf = foldl (RFC3174.step W) w (seq 20 20) /\
  work_ok (foldl (RFC3174.step W) w (seq 20 20)).
Proof. intros. apply (quarter_spec _ W buf w 20); try (done || lia); round_case. Qed.
Lemma block_3_spec W buf w : length W = 80%nat -> holds buf W -> work_ok w ->
  sha1_process_block_3 w buf = foldl (RFC3174.step W) w (seq 40 20) /\
  work_ok (foldl (RFC3174.step W) w (seq 40 20)).
Proof. intros. apply (quarter_spec _ W buf w 40); try (done || lia); round_case. Qed.
Lemma block_4_spec W buf w : length W = 80%nat -> holds buf W -> work_ok w ->
  sha1_process_block_4 w buf = foldl (RFC3174.step W) w (seq 60 20) /\
  work_ok (foldl (RFC3174.step W) w (seq 60 20)).
Proof. intros. apply (quarter_spec _ W buf w 60); try (done || lia); round_case. Qed.

Lemma rounds_spec W buf w : length W = 80%nat -> holds buf W -> work_ok w ->
  sha1_process_block_4 (sha1_process_block_3 (sha1_process_block_2 (sha1_process_block_1 w buf) buf) buf) buf
  = foldl (RFC3174.step W) w (seq 0 80) /\ work_ok (foldl (RFC3174.step W) w (seq 0 80)).
Proof.
  intros HW Hh Hw.
  change (seq 0 80) with (seq 0 20 ++ seq 20 20 ++ seq 40 20 ++ seq 60 20). rewrite !foldl_app.
  destruct (block_1_spec W buf w HW Hh Hw) as [-> H1].
  destruct (block_2_spec W buf _ HW Hh H1) as [-> H2].
  destruct (block_3_spec W buf _ HW Hh H2) as [-> H3].
  by destruct (block_4_spec W buf _ HW Hh H3) as [-> H4].
Qed.

(** ** One block *)

Definition regs_ok (x : regs) : Prop :=
  is_u32 x.(h0) /\ is_u32 x.(h1) /\ is_u32 x.(h2) /\ is_u32 x.(h3) /\ is_u32 x.(h4).

Lemma mod_regs_ok a b c d e :
  regs_ok (mkRegs (a mod 2 ^ 32) (b mod 2 ^ 32) (c mod 2 ^ 32) (d mod 2 ^ 32) (e mod 2 ^ 32)).
Proof. do 4 (split; [apply u32_range|]). apply u32_range. Qed.

Lemma process_ok H B : regs_ok (RFC3174.process H B).
Proof. unfold RFC3174.process. cbv zeta. apply mod_regs_ok. Qed.

(** The parts of a context that stay well formed. *)
Definition ctx_ok (c : SHA1Context) : Prop :=
  length c.(block_buf) = 320%nat /\ bytes c.(block_buf) /\
  length c.(extra_buf) = 64%nat /\ bytes c.(extra_buf) /\ regs_ok c.(r).

Lemma process_block_spec fuel c B : ctx_ok c -> c.(block_size) = 64 -> take 64 c.(block_buf) = B ->
  exists buf', length buf' = 320%nat /\ bytes buf' /\
    sha1_process_block (S fuel) c =
      let c' := with_block (with_regs c (RFC3174.process c.(r) B)) buf' 0 in
      if c.(extra_has) then
        sha1_process_block fuel
          (with_block (with_extra c' c.(extra_buf) false) (write_at buf' 0 c.(extra_buf)) 64)
      else Ret c'.
Proof.
  intros (Hl & Hb & Hxl & Hxb & Hr) Hs Ht. cbn [sha1_process_block]. rewrite Hs.
  change (assert_ (64 =? 64)) with (Ret tt). cbv zeta. rewrite bind_Ret.
  assert (HB : length B = 64%nat) by (rewrite <- Ht, length_take; lia).
  destruct (schedule_spec c.(block_buf) B Hl Hb HB Ht) as (Hl' & Hb' & Hh).
  set (buf := expand_words (flip_words c.(block_buf))) in *. cbv zeta in *.
  destruct (rounds_spec _ buf (mkW (h0 (r c)) (h1 (r c)) (h2 (r c)) (h3 (r c)) (h4 (r c)))
    (extend_length 64 (RFC3174.block_words B)) Hh Hr) as [-> _].
  exists buf. split; [done|]. split; [done|].
  cbn [extra_has with_block with_regs extra_buf with_extra block_buf].
  rewrite take_ge by lia. by destruct c.
Qed.

Lemma process_block_plain fuel c B : ctx_ok c -> c.(block_size) = 64 -> take 64 c.(block_buf) = B ->
  c.(extra_has) = false ->
  exists c', sha1_process_block (S fuel) c = Ret c' /\ ctx_ok c' /\ c'.(r) = RFC3174.process c.(r) B /\
    c'.(extra_buf) = c.(extra_buf) /\ c'.(extra_has) = false /\ c'.(msg_buf) = c.(msg_buf) /\
    c'.(msg_initsize) = c.(msg_initsize) /\ c'.(msg_size) = c.(msg_size).
Proof.
  intros Hok Hs Ht Hx. destruct (process_block_spec fuel c B Hok Hs Ht) as (buf' & Hl & Hb & ->).
  rewrite Hx. cbv zeta. eexists. split; [reflexivity|]. cbn. split; [|done].
  destruct Hok as (_ & _ & ? & ? & _). split; [done|]. split; [done|]. split; [done|]. split; [done|].
  apply process_ok.
Qed.

(** A block with an extra one behind it: both are processed. *)
Lemma process_block_extra c B : ctx_ok c -> c.(block_size) = 64 -> take 64 c.(block_buf) = B ->
  c.(extra_has) = true ->
  exists c', sha1_process_block 2 c = Ret c' /\
    c'.(r) = RFC3174.process (RFC3174.process c.(r) B) c.(extra_buf).
Proof.
  intros Hok Hs Ht Hx. destruct (process_block_spec 1 c B Hok Hs Ht) as (buf' & Hl & Hb & ->).
  rewrite Hx. cbv zeta. destruct Hok as (_ & _ & Hxl & Hxb & _).
  set (c2 := with_block _ _ 64).
  destruct (process_block_plain 0 c2 c.(extra_buf)) as (c' & Hr & _ & Hreg & _).
  - split; [cbn; rewrite write_at_length; lia|]. split; [by apply write_at_bytes|].
    split; [done|]. split; [done|]. apply process_ok.
  - done.
  - change (block_buf c2) with (extra_buf c ++ drop (0 + length (extra_buf c)) buf').
    by rewrite take_app_le, take_ge by lia.
  - done.
  - exists c'. split; [exact Hr|exact Hreg].
Qed.

(** ** Reading the message *)

Lemma write_at_0 buf l : write_at buf 0 l = l ++ drop (length l) buf.
Proof. done. Qed.

(** What the loop over whole blocks leaves: the registers after them and the
    message's tail, shorter than a block, at the start of the buffer. *)
Lemma blocks_loop_spec : forall fuel c, ctx_ok c -> c.(extra_has) = false ->
  bytes c.(msg_buf) -> c.(msg_size) = Z.of_nat (length c.(msg_buf)) -> c.(msg_size) < 2 ^ 32 ->
  (length c.(msg_buf) / 64 < fuel)%nat ->
  let m := c.(msg_buf) in let k := (length m / 64)%nat in
  exists c', sha1_blocks fuel c = Ret c' /\ ctx_ok c' /\ c'.(extra_has) = false /\
    c'.(extra_buf) = c.(extra_buf) /\ c'.(msg_initsize) = c.(msg_initsize) /\
    c'.(r) = RFC3174.blocks k c.(r) m /\
    c'.(block_size) = Z.of_nat (length m mod 64) /\
    take (length m mod 64) c'.(block_buf) = drop (64 * k) m.
Proof.
  induction fuel as [|fuel IH]; intros c Hok Hx Hmb Hms Hlt Hf; cbv zeta; [lia|].
  cbn [sha1_blocks]. destruct (sha1_read_block c) as [c1 read] eqn:Er.
  unfold sha1_read_block in Er. rewrite Z.geb_leb in Er.
  pose proof (Nat.div_mod (length (msg_buf c)) 64 ltac:(lia)) as Hdm.
  pose proof (Nat.mod_upper_bound (length (msg_buf c)) 64 ltac:(lia)) as Hmod.
  destruct Hok as (Hl & Hb & Hxl & Hxb & Hr).
  destruct (64 <=? msg_size c) eqn:E; reflect_bools; injection Er as <- <-.
  - change (64 =? 64) with true. cbv iota. change (Z.to_nat 64) with 64%nat.
    assert (Ht64 : length (take 64 (msg_buf c)) = 64%nat) by (rewrite length_take; lia).
    set (c1 := mkCtx _ _ _ _ _ _ _ _).
    destruct (process_block_plain 1 c1 (take 64 (msg_buf c))) as (c2 & -> & Hok2 & Hr2 & Hx2 & Hh2 & Hm2 & Hi2 & Hs2).
    { split; [cbn; rewrite write_at_length; lia|]. split; [apply write_at_bytes; [done|by apply Forall_take]|]. done. }
    { done. }
    { cbn [block_buf c1]. rewrite write_at_0, take_app_le by lia. by rewrite take_ge by lia. }
    { done. }
    rewrite bind_Ret. cbn [msg_buf msg_size c1 extra_buf msg_initsize r] in *.
    assert (Hd : (length (drop 64 (msg_buf c)) / 64 = length (msg_buf c) / 64 - 1 /\
                  length (drop 64 (msg_buf c)) mod 64 = length (msg_buf c) mod 64)%nat).
    { rewrite length_drop. split.
      - symmetry. apply (Nat.div_unique _ 64 _ (length (msg_buf c) mod 64)); lia.
      - symmetry. apply (Nat.mod_unique _ 64 (length (msg_buf c) / 64 - 1)); lia. }
    destruct Hd as [Hd1 Hd2].
    destruct (IH c2) as (c' & Hr' & Hok' & Hx' & Hxb' & Hi' & Hrr & Hs' & Ht'); rewrite ?Hm2; try done.
    + by apply Forall_drop.
    + rewrite Hs2, length_drop, Hms, u32_small by (unfold is_u32; lia). lia.
    + rewrite Hs2, u32_small by (unfold is_u32; lia). lia.
    + rewrite Hd1. lia.
    + exists c'. split; [done|]. split; [done|]. split; [done|]. split; [congruence|]. split; [congruence|].
      rewrite Hm2 in *. rewrite Hd1 in *. rewrite Hd2 in *.
      destruct (length (msg_buf c) / 64)%nat as [|k] eqn:Ek; [lia|].
      replace (S k - 1)%nat with k in * by lia. split; [|split; [done|]].
      * rewrite Hrr, Hr2. done.
      * rewrite Ht', drop_drop. f_equal. lia.
  - rewrite (proj2 (Z.eqb_neq (msg_size c) 64)) by lia. eexists. split; [reflexivity|].
    assert (Ek : (length (msg_buf c) / 64 = 0)%nat) by (apply Nat.div_small; lia).
    assert (Em : (length (msg_buf c) mod 64 = length (msg_buf c))%nat) by (apply Nat.mod_small; lia).
    rewrite Ek, Em, Hms, Nat2Z.id. cbn [block_buf block_size r extra_has extra_buf msg_initsize].
    rewrite (take_ge (msg_buf c)) by lia.
    split; [|split; [done|]; split; [done|]; split; [done|]; split; [done|]; split; [done|]].
    + split; [cbn; rewrite write_at_length; lia|]. split; [by apply write_at_bytes|]. done.
    + rewrite write_at_0, take_app_le, take_ge by lia. done.
Qed.

(** ** Padding *)

Lemma write_at_app a b b' c off : length a = off -> length b' = length b ->
  write_at (a ++ b ++ c) off b' = a ++ b' ++ c.
Proof.
  intros <- Hb. unfold write_at. rewrite take_app_length, Hb, drop_app_add, drop_app_length. done.
Qed.

Lemma le_split_add a : forall b w, 0 <= w ->
  le_split (a + b) w = le_split a w ++ le_split b (w / 256 ^ Z.of_nat a).
Proof.
  induction a as [|a IH]; intros b w Hw; cbn [Nat.add le_split app].
  - change (256 ^ Z.of_nat 0) with 1. by rewrite Z.div_1_r.
  - rewrite IH by (apply Z.div_pos; lia). rewrite Z.div_div by lia.
    do 3 f_equal. rewrite Nat2Z.inj_succ, Z.pow_succ_r by lia. done.
Qed.

Lemma be_split_8 L : 0 <= L < 2 ^ 32 -> RFC3174.be_split 8 L = replicate 4 0 ++ RFC3174.be_split 4 L.
Proof.
  intros HL. unfold RFC3174.be_split. change 8%nat with (4 + 4)%nat. rewrite le_split_add by lia.
  change (256 ^ Z.of_nat 4) with (2 ^ 32). rewrite Z.div_small by lia. by rewrite rev_app_distr.
Qed.

(** The two length words the code stores. *)
Lemma length_words L : is_u32 L ->
  le_split 4 (bw_u32_flip_endianness (Z.land (Z.shiftr L 32) 0xFFFFFFFF)) = replicate 4 0 /\
  le_split 4 (bw_u32_flip_endianness (Z.land L 0xFFFFFFFF)) = RFC3174.be_split 4 L.
Proof.
  intros HL. split.
  - rewrite Z.shiftr_div_pow2, Z.div_small by (lia || exact HL). done.
  - change 0xFFFFFFFF with (Z.ones 32). rewrite Z.land_ones, Z.mod_small by (lia || exact HL).
    by apply split_flip.
Qed.

Lemma be_split_length n w : length (RFC3174.be_split n w) = n.
Proof. unfold RFC3174.be_split. by rewrite length_rev, le_split_length. Qed.
Lemma be_split_bytes n w : bytes (RFC3174.be_split n w).
Proof. apply Forall_rev, le_split_bytes. Qed.
Lemma zeros_bytes n : bytes (replicate n 0).
Proof. apply Forall_replicate. unfold is_u8. lia. Qed.

(** Concatenations of known bytes are bytes. *)
Ltac bytes_solve :=
  repeat match goal with
  | |- bytes (_ ++ _) => apply Forall_app; split; fold bytes
  | |- Forall is_u8 ?l => change (bytes l)
  end;
  first [ assumption | apply be_split_bytes | apply zeros_bytes
        | repeat constructor; unfold is_u8; lia ].

(** The tail's last block, or its last two, as the code builds them. *)
Definition short_block (tail : list Z) (L : Z) : list Z :=
  tail ++ [128] ++ replicate (55 - length tail) 0 ++ RFC3174.be_split 8 L.
Definition long_block (tail : list Z) : list Z :=
  tail ++ [128] ++ replicate (63 - length tail) 0.
Definition extra_block (L : Z) : list Z := replicate 56 0 ++ RFC3174.be_split 8 L.

Lemma pad_short c tail L : ctx_ok c -> L = u32 (c.(msg_initsize) * 8) -> (length tail < 56)%nat ->
  c.(block_size) = Z.of_nat (length tail) -> take (length tail) c.(block_buf) = tail ->
  exists buf, sha1_pad c = Ret (with_block c buf 64) /\ length buf = 320%nat /\ bytes buf /\
    take 64 buf = short_block tail L.
Proof.
  intros (Hl & Hb & _) HL Hn Hs Ht. set (n := length tail) in *.
  unfold sha1_pad. rewrite Hs, Nat2Z.id. rewrite (proj2 (Z.leb_le _ 64)) by lia.
  cbn [assert_]. rewrite bind_Ret. cbv zeta. rewrite <- HL.
  rewrite Z.geb_leb, (proj2 (Z.leb_gt (64 - Z.of_nat n) 8)), andb_false_r by lia.
  eexists. split; [reflexivity|].
  assert (HLu : is_u32 L) by (subst L; apply u32_range).
  destruct (length_words L HLu) as [Hw1 Hw2]. unfold wr32. rewrite Hw1, Hw2.
  set (rest := drop 64 c.(block_buf)).
  assert (E0 : c.(block_buf) = tail ++ take (64 - n) (drop n c.(block_buf)) ++ rest).
  { unfold rest. rewrite <- Ht at 1. replace 64%nat with (n + (64 - n))%nat at 2 by lia.
    by rewrite <- drop_drop, !take_drop. }
  assert (Hmid : length (take (64 - n) (drop n c.(block_buf))) = (64 - n)%nat)
    by (rewrite length_take, length_drop; lia).
  replace (Z.to_nat (64 - Z.of_nat n)) with (64 - n)%nat by lia.
  rewrite E0, write_at_app by (rewrite ?length_replicate; lia || done).
  replace (replicate (64 - n) 0) with ([0] ++ replicate (55 - n) 0 ++ replicate 4 0 ++ replicate 4 0)
    by (change [0] with (replicate 1 0); rewrite <- !replicate_add; f_equal; lia).
  rewrite <- !app_assoc. rewrite (write_at_app tail [0] [128]) by done.
  replace (tail ++ [128] ++ replicate (55 - n) 0 ++ replicate 4 0 ++ replicate 4 0 ++ rest)
    with ((tail ++ [128] ++ replicate (55 - n) 0) ++ replicate 4 0 ++ (replicate 4 0 ++ rest))
    by (by rewrite <- !app_assoc).
  assert (H56 : length (tail ++ [128] ++ replicate (55 - n) 0) = 56%nat).
  { rewrite !length_app, length_replicate. cbn [length]. fold n. lia. }
  rewrite write_at_app by done.
  rewrite (app_assoc _ (replicate 4 0)).
  rewrite (write_at_app (_ ++ replicate 4 0) (replicate 4 0)) by (rewrite ?length_app, ?length_replicate, ?be_split_length; rewrite ?length_app in H56; cbn [length] in *; lia).
  rewrite <- !app_assoc.
  assert (Hrest : length rest = 256%nat) by (unfold rest; rewrite length_drop; lia).
  assert (Hbt : bytes tail) by (rewrite <- Ht; by apply Forall_take).
  split; [|split].
  - rewrite !length_app, !length_replicate, be_split_length. cbn [length]. fold n. lia.
  - assert (bytes rest) by (by apply Forall_drop). bytes_solve.
  - unfold short_block. rewrite be_split_8 by exact HLu. fold n.
    rewrite (app_assoc _ _ rest), (app_assoc _ _ rest), (app_assoc _ _ rest), (app_assoc _ _ rest).
    rewrite take_app_length' ; [by rewrite <- ?app_assoc|].
    rewrite !length_app, !length_replicate, be_split_length. cbn [length]. fold n. lia.
Qed.

Lemma pad_long c tail L : ctx_ok c -> L = u32 (c.(msg_initsize) * 8) -> (56 <= length tail < 64)%nat ->
  c.(extra_buf) = replicate 64 0 ->
  c.(block_size) = Z.of_nat (length tail) -> take (length tail) c.(block_buf) = tail ->
  exists buf, sha1_pad c = Ret (with_extra (with_block c buf 64) (extra_block L) true) /\
    length buf = 320%nat /\ bytes buf /\ take 64 buf = long_block tail.
Proof.
  intros (Hl & Hb & _) HL Hn Hx Hs Ht. set (n := length tail) in *.
  unfold sha1_pad. rewrite Hs, Nat2Z.id. rewrite (proj2 (Z.leb_le _ 64)) by lia.
  cbn [assert_]. rewrite bind_Ret. cbv zeta. rewrite <- HL.
  rewrite Z.geb_leb, (proj2 (Z.leb_le 1 (64 - Z.of_nat n))), (proj2 (Z.leb_le (64 - Z.of_nat n) 8)) by lia.
  cbn [andb]. assert (HLu : is_u32 L) by (subst L; apply u32_range).
  destruct (length_words L HLu) as [Hw1 Hw2]. unfold wr32. rewrite Hw1, Hw2, Hx.
  assert (Hxb : write_at (write_at (write_at (replicate 64 0) 0 (replicate 48 0)) (4 * 14) (replicate 4 0))
                  (4 * 15) (RFC3174.be_split 4 L) = extra_block L).
  { change (write_at (replicate 64 0) 0 (replicate 48 0)) with (replicate 56 0 ++ replicate 4 0 ++ replicate 4 0).
    rewrite write_at_app by done. rewrite (app_assoc _ (replicate 4 0)).
    rewrite <- (app_nil_r (replicate 4 0)) at 2.
    rewrite (write_at_app (replicate 56 0 ++ replicate 4 0) (replicate 4 0) _ []) by (rewrite ?be_split_length; done).
    unfold extra_block. rewrite be_split_8, app_nil_r by exact HLu. by rewrite <- app_assoc. }
  rewrite Hxb. eexists. split; [reflexivity|].
  set (rest := drop 64 c.(block_buf)).
  set (y := take 1 (drop n c.(block_buf))). set (z := take (63 - n) (drop (n + 1) c.(block_buf))).
  assert (E0 : c.(block_buf) = tail ++ y ++ z ++ rest).
  { unfold rest, y, z. rewrite <- Ht at 1. replace 64%nat with ((n + 1) + (63 - n))%nat by lia.
    rewrite <- (drop_drop (block_buf c) (63 - n) (n + 1)), take_drop.
    rewrite <- (drop_drop (block_buf c) 1 n). by rewrite !take_drop. }
  assert (Hy : length y = 1%nat) by (unfold y; rewrite length_take, length_drop; lia).
  assert (Hz : length z = (63 - n)%nat) by (unfold z; rewrite length_take, length_drop; lia).
  replace (Z.to_nat (64 - Z.of_nat n - 1)) with (63 - n)%nat by lia.
  rewrite E0, write_at_app by done. rewrite (app_assoc tail [128]).
  rewrite (write_at_app (tail ++ [128]) z) by (rewrite ?length_app, ?length_replicate; cbn; lia).
  assert (Hrest : length rest = 256%nat) by (unfold rest; rewrite length_drop; lia).
  assert (Hbt : bytes tail) by (rewrite <- Ht; by apply Forall_take).
  split; [|split].
  - rewrite !length_app, length_replicate. cbn [length]. fold n. lia.
  - assert (bytes rest) by (by apply Forall_drop). bytes_solve.
  - unfold long_block. fold n. rewrite (app_assoc (tail ++ [128])), take_app_length'.
    + by rewrite <- app_assoc.
    + rewrite !length_app, length_replicate. cbn [length]. fold n. lia.
Qed.

(** ** The RFC's blocks *)

Lemma blocks_app k1 : forall k2 H m,
  RFC3174.blocks (k1 + k2) H m = RFC3174.blocks k2 (RFC3174.blocks k1 H m) (drop (64 * k1) m).
Proof.
  induction k1 as [|k1 IH]; intros k2 H m; [done|]. cbn [Nat.add RFC3174.blocks]. rewrite IH, drop_drop.
  do 2 f_equal. lia.
Qed.

Lemma blocks_prefix k : forall H m p, (64 * k <= length m)%nat ->
  RFC3174.blocks k H (m ++ p) = RFC3174.blocks k H m.
Proof.
  induction k as [|k IH]; intros H m p Hk; [done|]. cbn [RFC3174.blocks].
  rewrite take_app_le, drop_app_le by lia. apply IH. rewrite length_drop. lia.
Qed.

(** Hashing the whole message is hashing its blocks, then the padded tail. *)
Lemma rfc_tail bits m : let k := (length m / 64)%nat in let tail := drop (64 * k) m in
  RFC3174.blocks (length (RFC3174.pad bits m) / 64) RFC3174.initial (RFC3174.pad bits m) =
  let H := RFC3174.blocks k RFC3174.initial m in
  if (length tail <? 56)%nat then RFC3174.process H (short_block tail bits)
  else RFC3174.process (RFC3174.process H (long_block tail)) (extra_block bits).
Proof.
  cbv zeta. set (k := (length m / 64)%nat). set (tail := drop (64 * k) m).
  pose proof (Nat.div_mod (length m) 64 ltac:(lia)) as Hdm. fold k in Hdm.
  pose proof (Nat.mod_upper_bound (length m) 64 ltac:(lia)) as Hmod.
  assert (Htl : length tail = (length m mod 64)%nat) by (unfold tail; rewrite length_drop; lia).
  assert (Hsplit : forall p, RFC3174.pad bits m = m ++ p -> drop (64 * k) (RFC3174.pad bits m) = tail ++ p).
  { intros p ->. by rewrite drop_app_le by lia. }
  set (p := 128 :: replicate (RFC3174.zeros (length m)) 0 ++ RFC3174.be_split 8 bits).
  specialize (Hsplit p eq_refl).
  assert (Hlen : length p = (9 + RFC3174.zeros (length m))%nat).
  { unfold p. cbn [length]. rewrite length_app, length_replicate, be_split_length. lia. }
  assert (Hpl : length (RFC3174.pad bits m) = (length m + length p)%nat) by (unfold RFC3174.pad; by rewrite length_app).
  destruct (Nat.ltb_spec (length tail) 56).
  - assert (Hz : RFC3174.zeros (length m) = (55 - length tail)%nat).
    { unfold RFC3174.zeros. rewrite <- Htl. symmetry. apply (Nat.mod_unique _ 64 1); lia. }
    assert (Hd : (length (RFC3174.pad bits m) / 64 = k + 1)%nat).
    { symmetry. apply (Nat.div_unique _ 64 _ 0); lia. }
    rewrite Hd, blocks_app, Hsplit. unfold RFC3174.pad at 1. rewrite (blocks_prefix k) by lia.
    cbn [RFC3174.blocks]. rewrite take_ge by (rewrite length_app; lia). unfold p. by rewrite Hz.
  - assert (Hz : RFC3174.zeros (length m) = (119 - length tail)%nat).
    { unfold RFC3174.zeros. rewrite <- Htl. apply Nat.mod_small. lia. }
    assert (Hd : (length (RFC3174.pad bits m) / 64 = k + 2)%nat).
    { symmetry. apply (Nat.div_unique _ 64 _ 0); lia. }
    rewrite Hd, blocks_app, Hsplit. unfold RFC3174.pad at 1. rewrite (blocks_prefix k) by lia.
    assert (Hp : tail ++ p = long_block tail ++ extra_block bits).
    { unfold p, long_block, extra_block. rewrite Hz, <- !app_assoc. f_equal. cbn [app]. f_equal.
      rewrite app_assoc, <- replicate_add. do 2 f_equal. lia. }
    assert (Hll : length (long_block tail) = 64%nat).
    { unfold long_block. rewrite !length_app, length_replicate. cbn [length]. lia. }
    rewrite Hp. cbn [RFC3174.blocks]. rewrite take_app_length', drop_app_length' by done.
    rewrite take_ge; [done|]. unfold extra_block. rewrite length_app, length_replicate, be_split_length. lia.
Qed.

Lemma sha1_chew_spec msg : bytes msg -> Z.of_nat (length msg) < 2 ^ 32 ->
  sha1_chew msg = Ret (0, RFC3174.hash (u32 (8 * Z.of_nat (length msg))) msg).
Proof.
  intros Hb Hlen.
  unfold sha1_chew. set (c0 := sha1_create_context msg _). cbv zeta.
  destruct (blocks_loop_spec (S (length msg / 64)) c0) as (c & -> & Hok & Hx & Hxb & Hi & Hr & Hs & Ht); try done.
  { split; [done|]. split; [apply zeros_bytes|]. split; [done|]. split; [apply zeros_bytes|].
    unfold regs_ok, is_u32. cbn. lia. }
  { cbn. lia. }
  cbn [msg_buf msg_initsize extra_buf r c0 sha1_create_context] in *. rewrite bind_Ret.
  set (k := (length msg / 64)%nat) in *. set (tail := drop (64 * k) msg) in *.
  pose proof (Nat.div_mod (length msg) 64 ltac:(lia)) as Hdm. fold k in Hdm.
  pose proof (Nat.mod_upper_bound (length msg) 64 ltac:(lia)) as Hmod.
  assert (Htl : length tail = (length msg mod 64)%nat) by (unfold tail; rewrite length_drop; lia).
  rewrite <- Htl in Hs, Ht. set (L := u32 (8 * Z.of_nat (length msg))).
  assert (HL : L = u32 (c.(msg_initsize) * 8)) by (rewrite Hi; unfold L; f_equal; lia).
  assert (Hfin : exists c', (c1 ← sha1_pad c; sha1_process_block 2 c1) = Ret c' /\ regs_ok c'.(r) /\
    c'.(r) = RFC3174.blocks (length (RFC3174.pad L msg) / 64) RFC3174.initial (RFC3174.pad L msg)).
  { rewrite (rfc_tail L msg). fold k tail. cbv zeta. change RFC3174.initial with (r c0).
    cbn [r c0 sha1_create_context] in *. rewrite <- Hr.
    destruct (Nat.ltb_spec (length tail) 56) as [Hn|Hn].
    - destruct (pad_short c tail L Hok HL Hn Hs Ht) as (buf & -> & Hbl & Hbb & Hbt). rewrite bind_Ret.
      destruct (process_block_plain 1 (with_block c buf 64) (short_block tail L)) as (c' & -> & Hok' & Hr' & _); try done.
      { destruct Hok as (_ & _ & ? & ? & ?). done. }
      exists c'. split; [done|]. split; [apply Hok'|exact Hr'].
    - destruct (pad_long c tail L Hok HL ltac:(lia) Hxb Hs Ht) as (buf & -> & Hbl & Hbb & Hbt). rewrite bind_Ret.
      set (c1 := with_extra _ _ _).
      destruct (process_block_extra c1 (long_block tail)) as (c' & -> & Hr'); try done.
      { destruct Hok as (_ & _ & _ & _ & ?). split; [done|]. split; [done|]. split; [|split; [|done]].
        - cbn [c1 extra_buf with_extra]. unfold extra_block. by rewrite length_app, be_split_length.
        - cbn [c1 extra_buf with_extra]. unfold extra_block. bytes_solve. }
      exists c'. split; [done|]. split; [rewrite Hr'; apply process_ok|exact Hr']. }
  destruct Hfin as (c' & Hrun & Hro & Hreg).
  apply bind_Ret_inv in Hrun as (c1 & -> & Hrun). rewrite bind_Ret, Hrun, bind_Ret. unfold RFC3174.hash. cbv zeta. rewrite <- Hreg.
  destruct Hro as (? & ? & ? & ? & ?). by rewrite !split_flip.
Qed.

(** ** Properties *)

(** C13: SHA-1 of any message that fits the address space returns 0 and the digest
    RFC 3174 defines, with the one difference that the length appended to the
    message is taken modulo [2^32] bits: below 512 MiB the digest is the RFC's. *)
Theorem sha1_correct msg : bytes msg -> Z.of_nat (length msg) < 2 ^ 32 ->
  sha1_chew msg = Ret (0, RFC3174.hash (u32 (8 * Z.of_nat (length msg))) msg) /\
  (Z.of_nat (length msg) < 2 ^ 29 -> sha1_chew msg = Ret (0, RFC3174.sha1 msg)).
Proof.
  intros Hb Hlen. pose proof (sha1_chew_spec msg Hb Hlen) as H. split; [done|].
  intros Hs. rewrite H, u32_small; [done|unfold is_u32; lia].
Qed.

Lemma sha1_correct_witness :
  sha1_chew [97; 98; 99] = Ret (0, RFC3174.sha1 [97; 98; 99]) /\
  RFC3174.sha1 [97; 98; 99] =
    [0xa9; 0x99; 0x3e; 0x36; 0x47; 0x06; 0x81; 0x6a; 0xba; 0x3e; 0x25; 0x71; 0x78; 0x50; 0xc2; 0x6c;
     0x9c; 0xd0; 0xd8; 0x9d].
Proof.
  split; [|by vm_compute].
  apply (sha1_correct [97; 98; 99]); [repeat constructor; unfold is_u8; lia|cbn; lia|cbn; lia].
Defined.
