(* ===== verification/HashTable.v ===== *)
(** * Hash functions and hash tables

    [kernel/crypto/hashing.c]: the array of registered hash functions;
    [kernel/utils/hashtable.c]: tables of 64-bit keys and values over it. *)
From S2P Require Import Prelude Alloc Kmalloc Sha1.

(** ** Data *)

Definition ENODEV : Z := 19.
Definition ENOENT : Z := 2.
Definition ENOMEM : Z := 12.
Definition EBUSY : Z := 16.
Definition STEP : Z := 4.
Definition INITIAL_HASHTABLE_SLOTS : Z := 8.
Definition INITIAL_ENLARGE_THRESHOLD : Z := 4.
Definition sizeof_HashingFunction : Z := 24.
Definition sizeof_HashTableSlot : Z := 8.
Definition sizeof_HashTableEntry : Z := 16.

(** [chew] takes the bytes of the buffer and gives its status and the bytes it
    stores at [digest]; names are the bytes of the C string. *)
Record HashingFunction := mkHF {
  name : list Z; digest_size : Z; chew : list Z -> outcome (Z * list Z);
  security_priority : Z; speed_priority : Z; refcount : Z }.

Record HashTableSlot := mkSlot { entries_ptr : Z; entries : list (Z * Z) }.
Definition entry_count (sl : HashTableSlot) : Z := Z.of_nat (length sl.(entries)).

(** [slots_ptr] is the block, [slots] its [slot_capacity] elements. *)
Record HashTable := mkHT {
  slots_ptr : Z; slots : list HashTableSlot; slot_capacity : Z;
  biggest_slot_entry_count : Z; slot_entry_count_threshold : Z; hashfunc : Z }.

(** The key's eight bytes in memory. *)
Definition key_bytes (key : Z) : list Z := le_split 8 key.

Section ops.
Context {H : Type} `{!Allocator H}.

(** The allocator, and the block of registered functions. *)
Record hstate := mkHS { heap : H; g_hash_funcs : Z; funcs : list HashingFunction }.
Definition set_h (s : hstate) (h : H) : hstate := mkHS h s.(g_hash_funcs) s.(funcs).
Definition set_funcs (s : hstate) (l : list HashingFunction) : hstate := mkHS s.(heap) s.(g_hash_funcs) l.

(** ** The registry *)

Definition func_addr (s : hstate) (i : nat) : Z := s.(g_hash_funcs) + sizeof_HashingFunction * Z.of_nat i.
(** A [HashingFunction*] is defined when it points at an element of the block. *)
Definition func_index (s : hstate) (p : Z) : outcome nat :=
  let d := p - s.(g_hash_funcs) in
  let i := Z.to_nat (d / sizeof_HashingFunction) in
  if (0 <=? d) && (d mod sizeof_HashingFunction =? 0) && (i <? length s.(funcs))%nat
  then Ret i else Undef.
Definition read_func (s : hstate) (p : Z) : outcome HashingFunction :=
  i ← func_index s p; deref (s.(funcs) !! i).

Definition hashing_register_hashfunc (hf : HashingFunction) (s : hstate) : outcome (hstate * Z) :=
  r ← krealloc_ s.(g_hash_funcs) (u32 ((Z.of_nat (length s.(funcs)) + 1) * sizeof_HashingFunction)) s.(heap);
  if r.2 =? 0 then Ret (set_h s r.1, - ENOMEM)
  else Ret (mkHS r.1 r.2 (s.(funcs) ++ [hf]), 0).

(** The block shrinks by its last element, unless [krealloc] says no. *)
Definition hashing_shrink_hashfuncs (s : hstate) : outcome (hstate * Z) :=
  r ← krealloc_ s.(g_hash_funcs) (u32 ((Z.of_nat (length s.(funcs)) - 1) * sizeof_HashingFunction)) s.(heap);
  if r.2 =? 0 then Ret (set_h s r.1, - ENOMEM)
  else Ret (mkHS r.1 r.2 (removelast s.(funcs)), 0).

Fixpoint find_name (nm : list Z) (l : list HashingFunction) : option nat :=
  match l with
  | [] => None
  | f :: l => if bool_decide (f.(name) = nm) then Some O else S <$> find_name nm l
  end.

(** [*f = *(f + 1)] from element [i] on: the last element stays as it was. *)
Definition shift_down {A} (i : nat) (l : list A) : list A :=
  take i l ++ drop (S i) l ++ drop (length l - 1) l.

Definition hashing_unregister_hashfunc (nm : list Z) (s : hstate) : outcome (hstate * Z) :=
  match find_name nm s.(funcs) with
  | None => Undef
  | Some i =>
      f ← deref (s.(funcs) !! i);
      if negb (f.(refcount) =? 0) then Ret (s, - EBUSY)
      else
        r ← hashing_shrink_hashfuncs (set_funcs s (shift_down i s.(funcs)));
        Ret (r.1, 0)
  end.

(** The fastest, the first one on a tie. *)
Fixpoint best_from (l : list HashingFunction) (i best : nat) (p : Z) : nat :=
  match l with
  | [] => best
  | f :: l => if f.(speed_priority) >? p then best_from l (S i) i f.(speed_priority)
              else best_from l (S i) best p
  end.
Definition hashing_best_func_by_speed (s : hstate) : outcome Z :=
  if s.(g_hash_funcs) =? 0 then Ret 0
  else f ← deref (head s.(funcs)); Ret (func_addr s (best_from (tail s.(funcs)) 1 0 f.(speed_priority))).

Definition set_refcount (f : HashingFunction) (n : Z) : HashingFunction :=
  mkHF f.(name) f.(digest_size) f.(chew) f.(security_priority) f.(speed_priority) n.
Definition hashing_increase_refcount (p : Z) (s : hstate) : outcome hstate :=
  i ← func_index s p; f ← deref (s.(funcs) !! i);
  Ret (set_funcs s (<[i := set_refcount f (u32 (f.(refcount) + 1))]> s.(funcs))).
Definition hashing_decrease_refcount (p : Z) (s : hstate) : outcome (hstate * Z) :=
  i ← func_index s p; f ← deref (s.(funcs) !! i);
  if f.(refcount) =? 0 then Ret (s, - ENOENT)
  else Ret (set_funcs s (<[i := set_refcount f (f.(refcount) - 1)]> s.(funcs)), 0).

(** ** The table *)

Definition set_slots (ht : HashTable) (l : list HashTableSlot) : HashTable :=
  mkHT ht.(slots_ptr) l ht.(slot_capacity) ht.(biggest_slot_entry_count)
       ht.(slot_entry_count_threshold) ht.(hashfunc).

Definition hashtable_maybe_enlarge (s : hstate) (ht : HashTable) : outcome (hstate * HashTable * Z) :=
  if ht.(biggest_slot_entry_count) <? ht.(slot_entry_count_threshold) then Ret (s, ht, 0)
  else
    r ← krealloc_ ht.(slots_ptr) (u32 (u32 (ht.(slot_capacity) * 2) * sizeof_HashTableSlot)) s.(heap);
    if r.2 =? 0 then Ret (set_h s r.1, ht, - ENOMEM)
    else Ret (set_h s r.1,
      mkHT r.2 (ht.(slots) ++ replicate (Z.to_nat ht.(slot_capacity)) (mkSlot 0 []))
        (u32 (ht.(slot_capacity) * 2)) ht.(biggest_slot_entry_count)
        (u32 (ht.(slot_entry_count_threshold) * 2)) ht.(hashfunc), 0).

(** An error code (0 when none) and the slot index. *)
Definition hashtable_key_to_slot_idx (key : Z) (s : hstate) (ht : HashTable) : outcome (Z * Z) :=
  f ← read_func s ht.(hashfunc);
  _ ← assert_ (f.(digest_size) mod STEP =? 0);
  r ← f.(chew) (key_bytes key);
  if r.1 <? 0 then Ret (r.1, 0)
  else
    let words := rd32 r.2 <$> seq 0 (Z.to_nat (f.(digest_size) / STEP)) in
    let hashidx := foldl Z.lxor 0 words in
    if ht.(slot_capacity) =? 0 then Undef else Ret (0, hashidx mod ht.(slot_capacity)).

Fixpoint find_key (key : Z) (l : list (Z * Z)) : option nat :=
  match l with
  | [] => None
  | e :: l => if e.1 =? key then Some O else S <$> find_key key l
  end.

Definition hashtable_add_value_to_slot (key value : Z) (s : hstate) (sl : HashTableSlot)
    : outcome (hstate * HashTableSlot * Z) :=
  match find_key key sl.(entries) with
  | Some i => Ret (s, mkSlot sl.(entries_ptr) (<[i := (key, value)]> sl.(entries)), 0)
  | None =>
      r ← krealloc_ sl.(entries_ptr) (u32 ((entry_count sl + 1) * sizeof_HashTableEntry)) s.(heap);
      if r.2 =? 0 then Ret (set_h s r.1, sl, - ENOMEM)
      else Ret (set_h s r.1, mkSlot r.2 (sl.(entries) ++ [(key, value)]), 0)
  end.

Definition hashtable_find_entry (key : Z) (sl : HashTableSlot) : option (nat * (Z * Z)) :=
  i ← find_key key sl.(entries); e ← sl.(entries) !! i; Some (i, e).

Definition hashtable_init (s : hstate) : outcome (hstate * HashTable * Z) :=
  let ht := mkHT 0 [] 0 0 0 0 in
  p ← hashing_best_func_by_speed s;
  let ht := mkHT 0 [] 0 0 0 p in
  if p =? 0 then Ret (s, ht, - ENODEV)
  else
    r ← kcalloc_ (sizeof_HashTableSlot * INITIAL_HASHTABLE_SLOTS) s.(heap);
    let s := set_h s r.1 in
    if r.2 =? 0 then Ret (s, ht, - ENOMEM)
    else
      s ← hashing_increase_refcount p s;
      Ret (s, mkHT r.2 (replicate (Z.to_nat INITIAL_HASHTABLE_SLOTS) (mkSlot 0 []))
                INITIAL_HASHTABLE_SLOTS 0 INITIAL_ENLARGE_THRESHOLD p, 0).

Definition hashtable_insert (key value : Z) (s : hstate) (ht : HashTable) : outcome (hstate * HashTable * Z) :=
  r ← hashtable_maybe_enlarge s ht;
  let '(s, ht, st) := r : hstate * HashTable * Z in
  if st <? 0 then Ret (s, ht, st)
  else
    idx ← hashtable_key_to_slot_idx key s ht;
    if negb (idx.1 =? 0) then Ret (s, ht, idx.1)
    else
      sl ← deref (ht.(slots) !! Z.to_nat idx.2);
      r ← hashtable_add_value_to_slot key value s sl;
      let '(s, sl, st) := r : hstate * HashTableSlot * Z in
      Ret (s, set_slots ht (<[Z.to_nat idx.2 := sl]> ht.(slots)), st).

(** The error and the value. *)
Definition hashtable_find (key : Z) (s : hstate) (ht : HashTable) : outcome (Z * Z) :=
  idx ← hashtable_key_to_slot_idx key s ht;
  if negb (idx.1 =? 0) then Ret (idx.1, 0)
  else
    sl ← deref (ht.(slots) !! Z.to_nat idx.2);
    match hashtable_find_entry key sl with
    | None => Ret (- ENOENT, 0)
    | Some (_, e) => Ret (0, e.2)
    end.

Definition hashtable_remove (key : Z) (s : hstate) (ht : HashTable) : outcome (hstate * HashTable * Z) :=
  idx ← hashtable_key_to_slot_idx key s ht;
  if negb (idx.1 =? 0) then Ret (s, ht, idx.1)
  else
    sl ← deref (ht.(slots) !! Z.to_nat idx.2);
    match hashtable_find_entry key sl with
    | None => Ret (s, ht, - ENOENT)
    | Some (i, _) =>
        let l := shift_down i sl.(entries) in
        r ← (if entry_count sl =? 1 then h ← kfree_ sl.(entries_ptr) s.(heap); Ret (h, 0)
             else
               r ← krealloc_ sl.(entries_ptr) (u32 ((entry_count sl - 1) * sizeof_HashTableEntry)) s.(heap);
               _ ← assert_ (negb (r.2 =? 0)); Ret r);
        Ret (set_h s r.1,
             set_slots ht (<[Z.to_nat idx.2 := mkSlot r.2 (removelast l)]> ht.(slots)), 0)
    end.

Fixpoint free_slots (l : list HashTableSlot) (h : H) : outcome H :=
  match l with
  | [] => Ret h
  | sl :: l => if sl.(entries_ptr) =? 0 then free_slots l h
               else h ← kfree_ sl.(entries_ptr) h; free_slots l h
  end.
Definition hashtable_destroy (s : hstate) (ht : HashTable) : outcome (hstate * HashTable) :=
  h ← free_slots ht.(slots) s.(heap);
  h ← (if negb (ht.(slots_ptr) =? 0) then kfree_ ht.(slots_ptr) h else Ret h);
  r ← hashing_decrease_refcount ht.(hashfunc) (set_h s h);
  Ret (r.1, mkHT 0 [] 0 0 0 0).
End ops.
Arguments hstate : clear implicits.

(** The SHA-1 module's registration. *)
Definition sha1_hashfunc : HashingFunction := mkHF [115; 104; 97; 49] SHA1_DIGEST_SIZE sha1_chew 100 1000 0.

(** ** A table represents a finite map *)

(** A hash function tables can use: whole words, no error on a key. *)
Definition good_hash (f : HashingFunction) : Prop :=
  f.(digest_size) mod STEP = 0 /\
  forall k, is_u64 k -> exists d, f.(chew) (key_bytes k) = Ret (0, d).

Definition hash_of (f : HashingFunction) (k : Z) : Z :=
  match f.(chew) (key_bytes k) with
  | Ret (_, d) => foldl Z.lxor 0 (rd32 d <$> seq 0 (Z.to_nat (f.(digest_size) / STEP)))
  | _ => 0
  end.
Definition slot_of (f : HashingFunction) (n k : Z) : nat := Z.to_nat (hash_of f k mod n).

Section rep.
Context `{!Allocator H} `{!AllocatorLaws H}.
Implicit Types (s : hstate H) (h : H) (m : gmap Z Z).

Definition block_ok (h : H) (sl : HashTableSlot) : Prop :=
  (sl.(entries_ptr) = 0 /\ sl.(entries) = []) \/
  (live h sl.(entries_ptr) = Some (16 * entry_count sl) /\ sl.(entries) <> []).

Definition keys_ok (f : HashingFunction) (cap : Z) (n : nat) (l : list (Z * Z)) : Prop :=
  NoDup l.*1 /\ forall k, k ∈ l.*1 -> is_u64 k /\ slot_of f cap k = n.

Record ht_rep (f : HashingFunction) (s : hstate H) (ht : HashTable) (m : gmap Z Z) : Prop := {
  rep_wf : alloc_wf s.(heap);
  rep_func : read_func s ht.(hashfunc) = Ret f;
  rep_good : good_hash f;
  rep_cap : 0 < ht.(slot_capacity) /\ ht.(slot_capacity) = Z.of_nat (length ht.(slots));
  rep_big : ht.(biggest_slot_entry_count) < ht.(slot_entry_count_threshold);
  rep_blocks : live s.(heap) ht.(slots_ptr) <> None /\ live s.(heap) s.(g_hash_funcs) <> None /\
               ht.(slots_ptr) <> s.(g_hash_funcs);
  rep_slots : forall n sl, ht.(slots) !! n = Some sl ->
    block_ok s.(heap) sl /\ keys_ok f ht.(slot_capacity) n sl.(entries) /\
    sl.(entries_ptr) <> ht.(slots_ptr) /\ sl.(entries_ptr) <> s.(g_hash_funcs);
  rep_ptrs : forall n n' sl sl', ht.(slots) !! n = Some sl -> ht.(slots) !! n' = Some sl' ->
    n <> n' -> sl.(entries_ptr) <> 0 -> sl.(entries_ptr) <> sl'.(entries_ptr);
  rep_map : forall k v, m !! k = Some v <->
    exists sl, ht.(slots) !! slot_of f ht.(slot_capacity) k = Some sl /\ (k, v) ∈ sl.(entries) }.

(** Replacing one slot, its block moved, freed or grown, keeps the rest. *)
Lemma update_rep f s ht m n sl sl' h' m' :
  ht_rep f s ht m -> ht.(slots) !! n = Some sl -> alloc_wf h' ->
  (forall b, b <> sl.(entries_ptr) -> b <> sl'.(entries_ptr) -> live h' b = live s.(heap) b) ->
  (sl'.(entries_ptr) = sl.(entries_ptr) \/ sl'.(entries_ptr) = 0 \/ live s.(heap) sl'.(entries_ptr) = None) ->
  block_ok h' sl' -> keys_ok f ht.(slot_capacity) n sl'.(entries) ->
  (forall k v, slot_of f ht.(slot_capacity) k = n -> m' !! k = Some v <-> (k, v) ∈ sl'.(entries)) ->
  (forall k, slot_of f ht.(slot_capacity) k <> n -> m' !! k = m !! k) ->
  ht_rep f (set_h s h') (set_slots ht (<[n := sl']> ht.(slots))) m'.
Proof.
  intros R Hn Hwf' Hl Hp Hb Hk Hm Hm'. destruct R as [Rwf Rf Rg Rc Rb (Rs & Rh & Rsh) Rsl Rpt Rm].
  destruct (Rsl n sl Hn) as (Bn & _ & Hns & Hnh).
  assert (Hlt : (n < length ht.(slots))%nat) by by eapply lookup_lt_Some.
  pose proof (live_not_null _ _ Rwf Rs) as Hs0. pose proof (live_not_null _ _ Rwf Rh) as Hh0.
  assert (Hps : sl'.(entries_ptr) <> ht.(slots_ptr)) by (destruct Hp as [->|[->|E]]; congruence).
  assert (Hph : sl'.(entries_ptr) <> s.(g_hash_funcs)) by (destruct Hp as [->|[->|E]]; congruence).
  assert (Hother : forall n' sl2, ht.(slots) !! n' = Some sl2 -> n' <> n -> sl2.(entries_ptr) <> 0 ->
    sl2.(entries_ptr) <> sl'.(entries_ptr) /\ sl2.(entries_ptr) <> sl.(entries_ptr)).
  { intros n' sl2 Hn' Hne H0. pose proof (Rpt n' n _ _ Hn' Hn Hne H0) as Hd. split; [|done].
    destruct Hp as [->|[->|E]]; [done|done|]. intros Heq. rewrite <- Heq in E.
    destruct (Rsl n' sl2 Hn') as ([[E' _]|[E' _]] & _); congruence. }
  split; cbn [heap set_h slots set_slots slot_capacity slots_ptr g_hash_funcs hashfunc
              biggest_slot_entry_count slot_entry_count_threshold]; try done.
  - by rewrite length_insert.
  - by rewrite !Hl.
  - intros n' sl2 Hn'. destruct (decide (n' = n)) as [->|Hne].
    + rewrite list_lookup_insert_eq in Hn' by done. by injection Hn' as <-.
    + rewrite list_lookup_insert_ne in Hn' by done. destruct (Rsl n' sl2 Hn') as (B & K & ? & ?).
      split; [|done]. destruct B as [B|[B1 B2]]; [by left|right]. split; [|done].
      destruct (decide (sl2.(entries_ptr) = 0)) as [E0|E0].
      { exfalso. apply (live_not_null _ sl2.(entries_ptr) Rwf); [congruence|done]. }
      destruct (Hother n' sl2 Hn' Hne E0). by rewrite Hl.
  - intros n1 n2 sl1 sl2 H1 H2 Hne H0. destruct (decide (n1 = n)) as [->|N1], (decide (n2 = n)) as [->|N2]; [done| | |].
    + rewrite list_lookup_insert_eq in H1 by done. rewrite list_lookup_insert_ne in H2 by done.
      injection H1 as <-. destruct (decide (sl2.(entries_ptr) = 0)) as [->|E]; [done|].
      destruct (Hother n2 sl2 H2 N2 E) as [E1 _]. done.
    + rewrite list_lookup_insert_eq in H2 by done. rewrite list_lookup_insert_ne in H1 by done.
      injection H2 as <-. by apply (Hother n1 sl1 H1 N1 H0).
    + rewrite list_lookup_insert_ne in H1, H2 by done. by eapply Rpt.
  - intros k v. destruct (decide (slot_of f ht.(slot_capacity) k = n)) as [E|E].
    + rewrite (Hm k v E), E, list_lookup_insert_eq by done. split; [by eauto|].
      intros (x & Hx & Hin). by injection Hx as <-.
    + rewrite (Hm' k E), Rm, list_lookup_insert_ne by done. done.
Qed.

(** The same with the slots untouched: only other blocks changed. *)
Lemma heap_rep f s ht m h' : ht_rep f s ht m -> alloc_wf h' -> (forall b, live h' b = live s.(heap) b) ->
  ht_rep f (set_h s h') ht m.
Proof.
  intros [Rwf Rf Rg Rc Rb Rs Rsl Rpt Rm] Hwf Hl.
  split; cbn [heap set_h g_hash_funcs]; try done.
  - by rewrite !Hl.
  - intros n sl Hn. destruct (Rsl n sl Hn) as (B & K). split; [|done]. unfold block_ok. by rewrite Hl.
Qed.

Lemma key_to_slot_spec f s ht m k : ht_rep f s ht m -> is_u64 k ->
  exists sl, hashtable_key_to_slot_idx k s ht = Ret (0, hash_of f k mod ht.(slot_capacity)) /\
    Z.to_nat (hash_of f k mod ht.(slot_capacity)) = slot_of f ht.(slot_capacity) k /\
    ht.(slots) !! slot_of f ht.(slot_capacity) k = Some sl.
Proof.
  intros R Hk. destruct (rep_good _ _ _ _ R) as [Hd Hc]. destruct (Hc k Hk) as (d & Hd').
  destruct (rep_cap _ _ _ _ R) as [C1 C2].
  destruct (lookup_lt_is_Some_2 ht.(slots) (slot_of f ht.(slot_capacity) k)) as (sl & Hsl).
  { unfold slot_of. pose proof (Z.mod_pos_bound (hash_of f k) ht.(slot_capacity)). lia. }
  exists sl. split; [|done]. unfold hashtable_key_to_slot_idx. rewrite (rep_func _ _ _ _ R), bind_Ret.
  rewrite Hd. cbn [Z.eqb assert_]. rewrite bind_Ret, Hd', bind_Ret. cbn [fst snd]. rewrite Z.ltb_irrefl.
  cbv zeta. rewrite (proj2 (Z.eqb_neq ht.(slot_capacity) 0)) by lia. do 3 f_equal. unfold hash_of. by rewrite Hd'.
Qed.

Lemma find_key_spec k (l : list (Z * Z)) :
  match find_key k l with
  | Some i => exists v, l !! i = Some (k, v)
  | None => k ∉ l.*1
  end.
Proof.
  induction l as [|[k' v'] l IH]; cbn [find_key fst fmap list_fmap]; [set_solver|].
  destruct (k' =? k) eqn:E; reflect_bools; [subst; by exists v'|].
  destruct (find_key k l); cbn; [done|]. apply not_elem_of_cons. done.
Qed.

Lemma keys_unique (l : list (Z * Z)) i k v w : NoDup l.*1 -> l !! i = Some (k, v) ->
  (k, w) ∈ l <-> w = v.
Proof.
  intros Hnd Hi. split.
  - intros (j & Hj)%list_elem_of_lookup.
    assert (i = j) as <-; [|congruence].
    eapply NoDup_lookup; [done|rewrite list_lookup_fmap, Hi|rewrite list_lookup_fmap, Hj]; done.
  - intros ->. by eapply list_elem_of_lookup_2.
Qed.

Lemma drop_last_singleton {A} (l : list A) : l <> [] -> exists x, drop (length l - 1) l = [x].
Proof.
  intros Hl. destruct (exists_last Hl) as (l' & x & ->). exists x.
  rewrite length_app. cbn [length]. replace (length l' + 1 - 1)%nat with (length l') by lia.
  apply drop_app_length.
Qed.

(** Shifting down over element [i] and dropping the last element deletes [i]. *)
Lemma removelast_shift_down {A} i (l : list A) : (i < length l)%nat ->
  removelast (shift_down i l) = delete i l.
Proof.
  intros Hi. unfold shift_down. destruct (drop_last_singleton l) as (x & ->); [intros ->; cbn in Hi; lia|].
  rewrite app_assoc, removelast_app by done. cbn [removelast]. by rewrite app_nil_r, delete_take_drop.
Qed.

Lemma elem_of_delete {A} i (l : list A) x : x ∈ delete i l <-> exists j, j <> i /\ l !! j = Some x.
Proof.
  rewrite list_elem_of_lookup. split.
  - intros (j & Hj). destruct (decide (j < i)%nat).
    + rewrite list_lookup_delete_lt in Hj by done. exists j. split; [lia|done].
    + rewrite list_lookup_delete_ge in Hj by lia. exists (S j). split; [lia|done].
  - intros (j & Hne & Hj). destruct (decide (j < i)%nat).
    + exists j. by rewrite list_lookup_delete_lt.
    + exists (j - 1)%nat. rewrite list_lookup_delete_ge by lia. by replace (S (j - 1)) with j by lia.
Qed.

Lemma slot_map f s ht m n sl k v : ht_rep f s ht m -> slot_of f ht.(slot_capacity) k = n ->
  ht.(slots) !! n = Some sl -> m !! k = Some v <-> (k, v) ∈ sl.(entries).
Proof.
  intros R E Hn. rewrite (rep_map _ _ _ _ R), E. split; [|by eauto]. intros (x & Hx & Hin). congruence.
Qed.

Lemma key_mapped f s ht m n sl k : ht_rep f s ht m -> slot_of f ht.(slot_capacity) k = n ->
  ht.(slots) !! n = Some sl -> k ∉ sl.(entries).*1 <-> m !! k = None.
Proof.
  intros R E Hn. split.
  - intros Hk. destruct (m !! k) as [v|] eqn:Em; [|done]. destruct Hk.
    apply (slot_map _ _ _ _ _ _ _ _ R E Hn) in Em. apply list_elem_of_fmap. by exists (k, v).
  - intros Em ([k' v] & -> & Hin)%list_elem_of_fmap.
    apply (slot_map _ _ _ _ _ _ _ _ R E Hn) in Hin. cbn in *. congruence.
Qed.

Lemma find_spec f s ht m k : ht_rep f s ht m -> is_u64 k ->
  hashtable_find k s ht = Ret (match m !! k with Some v => (0, v) | None => (- ENOENT, 0) end).
Proof.
  intros R Hk. destruct (key_to_slot_spec _ _ _ _ _ R Hk) as (sl & Hi & Hs & Hsl).
  unfold hashtable_find. rewrite Hi, bind_Ret. cbn [fst snd Z.eqb negb]. rewrite Hs, Hsl. cbn [deref].
  rewrite bind_Ret. unfold hashtable_find_entry. pose proof (find_key_spec k sl.(entries)) as Hf.
  destruct (find_key k sl.(entries)) as [i|].
  - destruct Hf as (v & Hv). cbn. rewrite Hv.
    replace (m !! k) with (Some v); [done|]. symmetry.
    apply (slot_map _ _ _ _ _ _ _ _ R eq_refl Hsl). by eapply list_elem_of_lookup_2.
  - cbn. apply (key_mapped _ _ _ _ _ _ _ R eq_refl Hsl) in Hf. by rewrite Hf.
Qed.

Lemma slot_block_size f s ht m n sl : ht_rep f s ht m -> ht.(slots) !! n = Some sl ->
  0 <= 16 * entry_count sl < 2 ^ 31 /\ (sl.(entries_ptr) = 0 \/ live s.(heap) sl.(entries_ptr) <> None).
Proof.
  intros R Hn. destruct (rep_slots _ _ _ _ R n sl Hn) as ([[E1 E2]|[E1 E2]] & _).
  - unfold entry_count. rewrite E2. cbn. split; [lia|by left].
  - destruct (live_law _ _ _ (rep_wf _ _ _ _ R) E1). split; [lia|right; congruence].
Qed.

(** Writing slot [n]'s entries through a (possibly moved) block. *)
Lemma insert_spec f s ht m k v : ht_rep f s ht m -> is_u64 k ->
  exists s' ht' st, hashtable_insert k v s ht = Ret (s', ht', st) /\
    ht'.(slot_capacity) = ht.(slot_capacity) /\
    ((st = 0 /\ ht_rep f s' ht' (<[k := v]> m)) \/ (st = - ENOMEM /\ ht' = ht /\ ht_rep f s' ht m)).
Proof.
  intros R Hk. destruct (key_to_slot_spec _ _ _ _ _ R Hk) as (sl & Hi & Hs & Hsl).
  destruct (rep_slots _ _ _ _ R _ _ Hsl) as (HB & (Hnd & Hks) & Hsp & Hgp).
  destruct (slot_block_size _ _ _ _ _ _ R Hsl) as (Hsz & Hptr).
  unfold hashtable_insert, hashtable_maybe_enlarge.
  rewrite (proj2 (Z.ltb_lt _ _) (rep_big _ _ _ _ R)), bind_Ret. cbn [Z.ltb Z.compare].
  rewrite Hi, bind_Ret. cbn [fst snd Z.eqb negb]. rewrite Hs, Hsl. cbn [deref]. rewrite bind_Ret.
  unfold hashtable_add_value_to_slot. pose proof (find_key_spec k sl.(entries)) as Hf.
  destruct (find_key k sl.(entries)) as [i|].
  - destruct Hf as (w & Hw). rewrite bind_Ret. eexists _, _, 0. split; [reflexivity|]. split; [done|]. left.
    split; [done|].
    assert (Hlt : (i < length sl.(entries))%nat) by by eapply lookup_lt_Some.
    assert (Hfst : (<[i := (k, v)]> sl.(entries)).*1 = sl.(entries).*1).
    { rewrite list_fmap_insert. cbn. apply list_insert_id. rewrite list_lookup_fmap, Hw. done. }
    replace s with (set_h s s.(heap)) by by destruct s.
    apply (update_rep _ _ _ m _ sl); try done; cbn [entries_ptr entries].
    + exact (rep_wf _ _ _ _ R).
    + by left.
    + destruct HB as [[? HB]|[HB1 HB2]]; [by rewrite HB in Hw|right]. unfold entry_count in *. cbn [entries].
      rewrite length_insert. split; [done|]. intros E. apply (f_equal length) in E. rewrite length_insert in E. cbn in E. lia.
    + unfold keys_ok. by rewrite Hfst.
    + intros k' v' E. rewrite lookup_insert_Some, (slot_map _ _ _ _ _ _ _ _ R E Hsl). split.
      * intros [[<- <-]|[Hne (j & Hj)%list_elem_of_lookup]].
        { apply list_elem_of_lookup_2 with i. by apply list_lookup_insert_eq. }
        apply list_elem_of_lookup_2 with j. rewrite list_lookup_insert_ne; [done|]. intros ->. congruence.
      * destruct (decide (k = k')) as [<-|Hne].
        { intros Hin. left. split; [done|].
          symmetry. eapply (keys_unique (<[i := (k, v)]> sl.(entries)) i k v v'); [by rewrite Hfst| |done].
          by apply list_lookup_insert_eq. }
        intros (j & Hj)%list_elem_of_lookup. right. split; [done|].
        apply list_elem_of_lookup_2 with j. destruct (decide (i = j)) as [<-|Hij].
        { rewrite list_lookup_insert_eq in Hj by done. congruence. }
        by rewrite list_lookup_insert_ne in Hj.
    + intros k' E. rewrite lookup_insert_ne; [done|]. intros <-. done.
  - unfold sizeof_HashTableEntry in *. rewrite u32_small by (unfold is_u32; lia).
    destruct (realloc_law s.(heap) sl.(entries_ptr) ((entry_count sl + 1) * 16) (rep_wf _ _ _ _ R))
      as (h' & q & -> & Hwf' & Hc); [lia|done|]. rewrite !bind_Ret. cbn [fst snd].
    destruct Hc as [[-> Hl]|(Hq & Hqp & Hl)].
    { rewrite Z.eqb_refl, bind_Ret. eexists _, _, _. split; [reflexivity|]. split; [done|]. right.
      split; [done|]. rewrite list_insert_id by done. split; [by destruct ht|].
      by destruct ht; apply heap_rep. }
    rewrite (proj2 (Z.eqb_neq q 0)) by done. rewrite bind_Ret.
    eexists _, _, 0. split; [reflexivity|]. split; [done|]. left. split; [done|].
    pose proof (proj1 (key_mapped _ _ _ _ _ _ _ R eq_refl Hsl) Hf) as Hnone.
    apply (update_rep _ _ _ m _ sl); try done; cbn [entries_ptr entries].
    + intros b Hb1 Hb2. rewrite Hl. by rewrite !decide_False.
    + destruct Hqp as [->|Hqp]; [by left|by right; right].
    + right. unfold entry_count in *. cbn [entries_ptr entries]. rewrite Hl, decide_True, length_app by done. cbn [length].
      split; [f_equal; lia|by destruct sl.(entries)].
    + unfold keys_ok. rewrite fmap_app. cbn. split.
      * apply NoDup_app. split; [done|]. split; [|apply NoDup_singleton].
        intros x Hx ->%list_elem_of_singleton. done.
      * intros x [Hx|Hx]%elem_of_app; [by apply Hks|]. apply list_elem_of_singleton in Hx as ->. done.
    + intros k' v' E. rewrite lookup_insert_Some, elem_of_app, list_elem_of_singleton, (slot_map _ _ _ _ _ _ _ _ R E Hsl).
      split.
      * intros [[<- <-]|[Hne Hin]]; [by right|by left].
      * intros [Hin|[= -> ->]]; [|by left]. right. split; [|done]. intros <-.
        apply (slot_map _ _ _ _ _ _ _ _ R E Hsl) in Hin. congruence.
    + intros k' E. rewrite lookup_insert_ne; [done|]. intros <-. done.
Qed.

Lemma remove_absent f s ht m k : ht_rep f s ht m -> is_u64 k -> m !! k = None ->
  hashtable_remove k s ht = Ret (s, ht, - ENOENT).
Proof.
  intros R Hk Hm. destruct (key_to_slot_spec _ _ _ _ _ R Hk) as (sl & Hi & Hs & Hsl).
  unfold hashtable_remove. rewrite Hi, bind_Ret. cbn [fst snd Z.eqb negb]. rewrite Hs, Hsl. cbn [deref].
  rewrite bind_Ret. apply (key_mapped _ _ _ _ _ _ _ R eq_refl Hsl) in Hm.
  unfold hashtable_find_entry. pose proof (find_key_spec k sl.(entries)) as Hf.
  destruct (find_key k sl.(entries)) as [i|]; [|done]. destruct Hf as (v & Hv). destruct Hm.
  apply list_elem_of_fmap. exists (k, v). split; [done|]. by eapply list_elem_of_lookup_2.
Qed.

(** The two ways the block of a slot shrinks. *)
Definition shrink_block (sl : HashTableSlot) (h : H) : outcome (H * Z) :=
  if entry_count sl =? 1 then h ← kfree_ sl.(entries_ptr) h; Ret (h, 0)
  else r ← krealloc_ sl.(entries_ptr) (u32 ((entry_count sl - 1) * sizeof_HashTableEntry)) h;
       _ ← assert_ (negb (r.2 =? 0)); Ret r.

Lemma shrink_block_spec f s ht m n sl : ht_rep f s ht m -> ht.(slots) !! n = Some sl -> sl.(entries) <> [] ->
  (exists h' q, shrink_block sl s.(heap) = Ret (h', q) /\ alloc_wf h' /\
    (forall b, b <> sl.(entries_ptr) -> b <> q -> live h' b = live s.(heap) b) /\
    ((entry_count sl = 1 /\ q = 0) \/
     (q <> 0 /\ 1 < entry_count sl /\ (q = sl.(entries_ptr) \/ live s.(heap) q = None) /\
      live h' q = Some (16 * (entry_count sl - 1))))) \/
  (shrink_block sl s.(heap) = Panic /\ 1 < entry_count sl /\
   exists h', krealloc_ sl.(entries_ptr) (16 * (entry_count sl - 1)) s.(heap) = Ret (h', 0)).
Proof.
  intros R Hn Hne. destruct (slot_block_size _ _ _ _ _ _ R Hn) as (Hsz & Hp).
  destruct (rep_slots _ _ _ _ R _ _ Hn) as ([[_ ?]|[Hlv _]] & _); [done|].
  assert (1 <= entry_count sl) by (unfold entry_count; destruct sl.(entries); [done|cbn; lia]).
  unfold shrink_block, sizeof_HashTableEntry. destruct (entry_count sl =? 1) eqn:E1; reflect_bools.
  - destruct (free_law s.(heap) sl.(entries_ptr) (rep_wf _ _ _ _ R)) as (h' & -> & Hwf' & Hl); [congruence|].
    left. exists h', 0. do 2 (split; [done|]). split; [|by left]. intros b Hb _. by rewrite Hl, decide_False.
  - rewrite u32_small by (unfold is_u32; lia). replace ((entry_count sl - 1) * 16) with (16 * (entry_count sl - 1)) by lia.
    destruct (realloc_law s.(heap) sl.(entries_ptr) (16 * (entry_count sl - 1)) (rep_wf _ _ _ _ R))
      as (h' & q & Hr & Hwf' & Hc); [lia|done|]. rewrite Hr, bind_Ret. cbn [fst snd].
    destruct Hc as [[-> Hl]|(Hq & Hqp & Hl)].
    + right. split; [done|]. split; [lia|by exists h'].
    + left. rewrite (proj2 (Z.eqb_neq q 0)) by done. cbn [negb assert_]. rewrite bind_Ret.
      exists h', q. do 2 (split; [done|]). split; [intros b B1 B2; by rewrite Hl, !decide_False|].
      right. do 2 (split; [done || lia|]). split; [done|]. by rewrite Hl, decide_True.
Qed.

Lemma remove_present f s ht m k v : ht_rep f s ht m -> is_u64 k -> m !! k = Some v ->
  (exists s' ht', hashtable_remove k s ht = Ret (s', ht', 0) /\
     ht'.(slot_capacity) = ht.(slot_capacity) /\ ht_rep f s' ht' (delete k m)) \/
  (hashtable_remove k s ht = Panic /\
   exists b n h', live s.(heap) b <> None /\ 0 < n /\ krealloc_ b n s.(heap) = Ret (h', 0)).
Proof.
  intros R Hk Hm. destruct (key_to_slot_spec _ _ _ _ _ R Hk) as (sl & Hi & Hs & Hsl).
  destruct (rep_slots _ _ _ _ R _ _ Hsl) as (HB & (Hnd & Hks) & Hsp & Hgp).
  unfold hashtable_remove. rewrite Hi, bind_Ret. cbn [fst snd Z.eqb negb]. rewrite Hs, Hsl. cbn [deref].
  rewrite bind_Ret. unfold hashtable_find_entry. pose proof (find_key_spec k sl.(entries)) as Hf.
  destruct (find_key k sl.(entries)) as [i|]; cycle 1.
  { apply (key_mapped _ _ _ _ _ _ _ R eq_refl Hsl) in Hf. congruence. }
  destruct Hf as (w & Hw). cbn. rewrite Hw. cbn.
  assert (Hlt : (i < length sl.(entries))%nat) by by eapply lookup_lt_Some.
  rewrite removelast_shift_down by done. fold (shrink_block sl s.(heap)).
  assert (Hne : sl.(entries) <> []) by (destruct sl.(entries); [cbn in Hlt; lia|done]).
  destruct HB as [[_ HB]|[HB _]]; [done|].
  destruct (shrink_block_spec _ _ _ _ _ _ R Hsl Hne) as [(h' & q & -> & Hwf' & Hl & Hc)|(-> & H1 & h' & Hr)].
  2: { right. split; [done|]. exists sl.(entries_ptr), (16 * (entry_count sl - 1)), h'. split; [congruence|]. split; [lia|done]. }
  left. cbn. eexists _, _. split; [reflexivity|]. split; [done|].
  apply (update_rep _ _ _ m _ sl); try done; cbn [entries_ptr entries].
  - destruct Hc as [[_ ->]|(_ & _ & [->|Hqn] & _)]; [by right; left|by left|by right; right].
  - unfold block_ok, entry_count in *. cbn [entries_ptr entries].
    assert (Hlen : length (delete i sl.(entries)) = (length sl.(entries) - 1)%nat) by (rewrite length_delete; [lia|by eexists]).
    rewrite Hlen. destruct Hc as [[H1 ->]|(_ & H1 & _ & ->)]; [left|right].
    + split; [done|]. apply length_zero_iff_nil. lia.
    + split; [f_equal; lia|]. intros E. rewrite E in Hlen. cbn in Hlen. lia.
  - unfold keys_ok. split.
    + rewrite list_fmap_delete. eapply sublist_NoDup; [done|]. apply sublist_delete.
    + intros x (y & -> & Hy)%list_elem_of_fmap. apply Hks. apply list_elem_of_fmap. exists y. split; [done|].
      apply elem_of_delete in Hy as (j & _ & Hj). by eapply list_elem_of_lookup_2.
  - intros k' v' E. rewrite lookup_delete_Some, (slot_map _ _ _ _ _ _ _ _ R E Hsl). split.
    + intros [Hkk (j & Hj)%list_elem_of_lookup]. apply elem_of_delete. exists j. split; [congruence|done].
    + intros (j' & Hne' & Hj')%elem_of_delete.
      split; [|by eapply list_elem_of_lookup_2]. intros <-. apply Hne'.
      eapply NoDup_lookup; [done|rewrite list_lookup_fmap, Hj'|rewrite list_lookup_fmap, Hw]; done.
  - intros k' E. rewrite lookup_delete_ne; [done|]. intros <-. done.
Qed.

(** ** What a table does to other blocks *)

Definition ht_blocks s ht : list Z := ht.(slots_ptr) :: s.(g_hash_funcs) :: (entries_ptr <$> ht.(slots)).

Lemma ht_frame f s ht m h' : ht_rep f s ht m -> alloc_wf h' ->
  (forall b, b ∈ ht_blocks s ht -> live h' b = live s.(heap) b) -> ht_rep f (set_h s h') ht m.
Proof.
  intros [Rwf Rf Rg Rc Rb Rs Rsl Rpt Rm] Hwf Hl. unfold ht_blocks in Hl.
  split; cbn [heap set_h g_hash_funcs]; try done.
  - rewrite !Hl; [done|right; left|left].
  - intros n sl Hn. destruct (Rsl n sl Hn) as (B & K). split; [|done]. unfold block_ok. rewrite Hl; [done|].
    right. right. apply list_elem_of_fmap. exists sl. split; [done|]. by eapply list_elem_of_lookup_2.
Qed.

(** A block of the table is live, or the null block of an empty slot. *)
Lemma ht_blocks_live f s ht m b : ht_rep f s ht m -> b ∈ ht_blocks s ht -> b = 0 \/ live s.(heap) b <> None.
Proof.
  intros R. destruct (rep_blocks _ _ _ _ R) as (Hs & Hg & _). unfold ht_blocks. intros [->|[->|Hb]%elem_of_cons]%elem_of_cons; [by right..|].
  apply list_elem_of_fmap in Hb as (sl & -> & [n Hn]%list_elem_of_lookup).
  destruct (rep_slots _ _ _ _ R n sl Hn) as ([[-> _]|[Hl _]] & _); [by left|right]. by rewrite Hl.
Qed.

(** The registry stays, and a live block outside the table keeps its size and
    stays outside. *)
Record ht_step s s' ht ht' : Prop := {
  hst_funcs : s'.(funcs) = s.(funcs);
  hst_ptr : s'.(g_hash_funcs) = s.(g_hash_funcs);
  hst_other : forall b, live s.(heap) b <> None -> b ∉ ht_blocks s ht ->
    live s'.(heap) b = live s.(heap) b /\ b ∉ ht_blocks s' ht' }.

Lemma slot_outside s ht n sl b h' : b ∉ ht_blocks s ht -> b <> sl.(entries_ptr) ->
  b ∉ ht_blocks (set_h s h') (set_slots ht (<[n := sl]> ht.(slots))).
Proof.
  unfold ht_blocks. cbn. intros Hb Hne. rewrite !not_elem_of_cons in *. destruct Hb as (? & ? & Hb). split; [done|]. split; [done|].
  rewrite list_fmap_insert. intros [j Hj]%list_elem_of_lookup. apply Hb.
  destruct (decide (j = n)) as [->|Hj'].
  - pose proof (lookup_lt_Some _ _ _ Hj) as Hlt. rewrite length_insert in Hlt. rewrite list_lookup_insert_eq in Hj by done. congruence.
  - rewrite list_lookup_insert_ne in Hj by done. by eapply list_elem_of_lookup_2.
Qed.
Lemma slot_ptr_in s ht n sl : ht.(slots) !! n = Some sl -> sl.(entries_ptr) ∈ ht_blocks s ht.
Proof. intros Hn. right. right. apply list_elem_of_fmap. exists sl. split; [done|]. by eapply list_elem_of_lookup_2. Qed.

Lemma insert_frame f s ht m k v s' ht' st : ht_rep f s ht m -> is_u64 k ->
  hashtable_insert k v s ht = Ret (s', ht', st) -> ht_step s s' ht ht'.
Proof.
  intros R Hk. destruct (key_to_slot_spec _ _ _ _ _ R Hk) as (sl & Hi & Hs & Hsl).
  destruct (slot_block_size _ _ _ _ _ _ R Hsl) as (Hsz & Hptr). pose proof (slot_ptr_in s ht _ sl Hsl) as Hin.
  unfold hashtable_insert, hashtable_maybe_enlarge.
  rewrite (proj2 (Z.ltb_lt _ _) (rep_big _ _ _ _ R)), bind_Ret. cbn [Z.ltb Z.compare].
  rewrite Hi, bind_Ret. cbn [fst snd Z.eqb negb]. rewrite Hs, Hsl. cbn [deref]. rewrite bind_Ret.
  unfold hashtable_add_value_to_slot. destruct (find_key k sl.(entries)) as [i|].
  - rewrite bind_Ret. intros E. injection E as <- <- <-. split; [done|done|]. intros b Hb Hno. split; [done|].
    replace s with (set_h s s.(heap)) by by destruct s. apply slot_outside; [by destruct s|]. cbn. intros ->. done.
  - unfold sizeof_HashTableEntry in *. rewrite u32_small by (unfold is_u32; lia).
    destruct (realloc_law s.(heap) sl.(entries_ptr) ((entry_count sl + 1) * 16) (rep_wf _ _ _ _ R))
      as (h' & q & -> & Hwf' & Hc); [lia|done|]. rewrite !bind_Ret. cbn [fst snd].
    destruct Hc as [[-> Hl]|(Hq & Hqp & Hl)].
    + rewrite Z.eqb_refl, bind_Ret. intros E. injection E as <- <- <-. split; [done|done|]. intros b Hb Hno.
      split; [apply Hl|]. apply slot_outside; [done|]. by intros ->.
    + rewrite (proj2 (Z.eqb_neq q 0)) by done. rewrite bind_Ret. intros E. injection E as <- <- <-. split; [done|done|]. intros b Hb Hno.
      assert (Hbq : b <> q) by (intros ->; by destruct Hqp as [->|?]).
      assert (Hbp : b <> sl.(entries_ptr)) by by intros ->.
      split; [cbn; rewrite Hl; by rewrite !decide_False|]. by apply slot_outside.
Qed.

Lemma remove_frame f s ht m k s' ht' st : ht_rep f s ht m -> is_u64 k ->
  hashtable_remove k s ht = Ret (s', ht', st) -> ht_step s s' ht ht'.
Proof.
  intros R Hk. destruct (key_to_slot_spec _ _ _ _ _ R Hk) as (sl & Hi & Hs & Hsl). pose proof (slot_ptr_in s ht _ sl Hsl) as Hin.
  unfold hashtable_remove. rewrite Hi, bind_Ret. cbn [fst snd Z.eqb negb]. rewrite Hs, Hsl. cbn [deref].
  rewrite bind_Ret. unfold hashtable_find_entry. pose proof (find_key_spec k sl.(entries)) as Hf.
  destruct (find_key k sl.(entries)) as [i|]; cbn; cycle 1.
  { intros E. injection E as <- <- <-. by split. }
  destruct Hf as (w & Hw). rewrite Hw. fold (shrink_block sl s.(heap)).
  assert (Hne : sl.(entries) <> []) by (intros En; by rewrite En in Hw).
  destruct (shrink_block_spec _ _ _ _ _ _ R Hsl Hne) as [(h' & q & -> & Hwf' & Hl & Hc)|(-> & _)]; [|discriminate].
  cbn. intros E. injection E as <- <- <-. split; [done|done|]. intros b Hb Hno.
  assert (Hbp : b <> sl.(entries_ptr)) by by intros ->.
  assert (Hbq : b <> q).
  { intros ->. destruct Hc as [[_ ->]|(_ & _ & [->|?] & _)]; [|done..]. by apply (live_not_null _ 0 (rep_wf _ _ _ _ R)). }
  split; [by apply Hl|]. by apply slot_outside.
Qed.

(** ** Creating a table *)

Lemma func_index_addr s i : (i < length s.(funcs))%nat -> func_index s (func_addr s i) = Ret i.
Proof.
  intros Hi. unfold func_index, func_addr, sizeof_HashingFunction. cbv zeta.
  replace (g_hash_funcs s + 24 * Z.of_nat i - g_hash_funcs s) with (Z.of_nat i * 24) by lia.
  rewrite Z.div_mul, Z.mod_mul, Nat2Z.id by done. rewrite (proj2 (Z.leb_le 0 _)) by lia.
  by rewrite (proj2 (Nat.ltb_lt _ _) Hi).
Qed.

(** [best_from] scans [l = drop i all]: it keeps the best so far. *)
Lemma best_from_spec (all : list HashingFunction) l : forall i best b p,
  drop i all = l -> all !! best = Some b -> b.(speed_priority) = p ->
  (forall j f, all !! j = Some f -> (j < i)%nat -> f.(speed_priority) <= p) ->
  exists b', all !! best_from l i best p = Some b' /\
    forall f, f ∈ all -> f.(speed_priority) <= b'.(speed_priority).
Proof.
  induction l as [|f l IH]; intros i best b p Hd Hb <- Hle; cbn [best_from].
  - exists b. split; [done|]. intros f (j & Hj)%list_elem_of_lookup. apply (Hle j f Hj).
    assert (length all <= i)%nat.
    { apply (f_equal length) in Hd. rewrite length_drop in Hd. cbn in Hd. lia. }
    apply lookup_lt_Some in Hj. lia.
  - assert (Hi : all !! i = Some f) by (rewrite <- (Nat.add_0_r i), <- lookup_drop, Hd; done).
    assert (Hd' : drop (S i) all = l).
    { replace (S i) with (i + 1)%nat by lia. rewrite <- drop_drop, Hd. done. }
    rewrite Z.gtb_ltb. destruct (Z.ltb_spec b.(speed_priority) f.(speed_priority)).
    + eapply (IH (S i) i f); [done|done|done|]. intros j g Hj Hlt. destruct (decide (j = i)) as [->|].
      * assert (g = f) by congruence. subst. lia.
      * pose proof (Hle j g Hj ltac:(lia)). lia.
    + eapply (IH (S i) best b); [done|done|done|]. intros j g Hj Hlt. destruct (decide (j = i)) as [->|].
      * assert (g = f) by congruence. subst. lia.
      * apply (Hle j g Hj). lia.
Qed.

(** A registry with at least one usable function. *)
Definition registry_ok s : Prop :=
  alloc_wf s.(heap) /\ live s.(heap) s.(g_hash_funcs) <> None /\ s.(funcs) <> [] /\
  Forall good_hash s.(funcs).

Lemma best_func_spec s : registry_ok s ->
  exists i f, hashing_best_func_by_speed s = Ret (func_addr s i) /\ s.(funcs) !! i = Some f /\
    forall g, g ∈ s.(funcs) -> g.(speed_priority) <= f.(speed_priority).
Proof.
  intros (Hwf & Hl & Hne & _). unfold hashing_best_func_by_speed.
  rewrite (proj2 (Z.eqb_neq _ 0)) by by eapply live_not_null.
  destruct (funcs s) as [|f l] eqn:E; [done|]. cbn [head deref tail]. rewrite bind_Ret.
  destruct (best_from_spec (f :: l) l 1 0 f f.(speed_priority)) as (b & Hb & Hle); [done|done|done| |].
  { intros [|j] g Hj Hlt; [|lia]. injection Hj as <-. lia. }
  by exists (best_from l 1 0 f.(speed_priority)), b.
Qed.

Lemma init_spec s : registry_ok s ->
  exists s' ht st f, hashtable_init s = Ret (s', ht, st) /\
    f ∈ s.(funcs) /\ (forall g, g ∈ s.(funcs) -> g.(speed_priority) <= f.(speed_priority)) /\
    ((st = 0 /\ ht_rep (set_refcount f (u32 (f.(refcount) + 1))) s' ht ∅) \/
     (st = - ENOMEM /\ forall b, live s'.(heap) b = live s.(heap) b)).
Proof.
  intros Hr. destruct (best_func_spec s Hr) as (i & f & Hbest & Hi & Hle).
  destruct Hr as (Hwf & Hlv & Hne & Hgood). unfold hashtable_init. cbv zeta. rewrite Hbest, bind_Ret.
  assert (Hlt : (i < length s.(funcs))%nat) by by eapply lookup_lt_Some.
  assert (Hp : func_addr s i <> 0).
  { unfold func_addr, sizeof_HashingFunction. destruct (live s.(heap) s.(g_hash_funcs)) as [n|] eqn:E; [|done].
    destruct (live_law _ _ _ Hwf E). lia. }
  rewrite (proj2 (Z.eqb_neq _ 0) Hp). unfold sizeof_HashTableSlot, INITIAL_HASHTABLE_SLOTS.
  destruct (calloc_law s.(heap) (8 * 8) Hwf) as (h' & q & -> & Hwf' & Hc); [lia|]. rewrite bind_Ret. cbn [fst snd].
  destruct Hc as [[-> Hl]|(Hq & Hf & Hl)].
  { rewrite Z.eqb_refl. eexists _, _, _, f. split; [reflexivity|].
    split; [by eapply list_elem_of_lookup_2|]. split; [done|]. by right. }
  rewrite (proj2 (Z.eqb_neq q 0)) by done. unfold hashing_increase_refcount.
  change (func_addr s i) with (func_addr (set_h s h') i).
  rewrite func_index_addr, bind_Ret by done. cbn [funcs set_h]. rewrite Hi. cbn [deref]. rewrite !bind_Ret.
  eexists _, _, 0, f. split; [reflexivity|]. split; [by eapply list_elem_of_lookup_2|]. split; [done|].
  left. split; [done|]. set (f' := set_refcount _ _).
  split; cbn [heap set_h set_funcs hashfunc slot_capacity slots slots_ptr g_hash_funcs
              biggest_slot_entry_count slot_entry_count_threshold].
  - done.
  - unfold read_func. set (s' := set_funcs _ _). change (func_addr _ i) with (func_addr s' i).
    rewrite func_index_addr by (cbn; by rewrite length_insert). rewrite bind_Ret. cbn [funcs s' set_funcs].
    by rewrite list_lookup_insert_eq.
  - exact (proj1 (Forall_lookup _ _) Hgood i f Hi).
  - by rewrite length_replicate.
  - unfold INITIAL_ENLARGE_THRESHOLD. lia.
  - rewrite !Hl. assert (q <> s.(g_hash_funcs)) by congruence. rewrite decide_True, decide_False by done. done.
  - intros n sl [-> _]%lookup_replicate. unfold block_ok, keys_ok. cbn [entries_ptr entries].
    pose proof (live_not_null _ _ Hwf Hlv) as H0. split; [by left|]. split; [split; [constructor|]|done].
    intros k Hk. by apply not_elem_of_nil in Hk.
  - intros n n' sl sl' [-> _]%lookup_replicate. done.
  - intros k v. rewrite lookup_empty. split; [done|].
    intros (sl & [-> _]%lookup_replicate & Hin). by apply not_elem_of_nil in Hin.
Qed.
End rep.

Lemma key_bytes_ok k : bytes (key_bytes k) /\ length (key_bytes k) = 8%nat.
Proof. split; [apply le_split_bytes|apply le_split_length]. Qed.

Lemma sha1_good : good_hash sha1_hashfunc.
Proof.
  split; [done|]. intros k _. destruct (key_bytes_ok k) as [Hb Hl].
  eexists. cbn [chew sha1_hashfunc]. apply sha1_chew_spec; [done|]. rewrite Hl. lia.
Qed.

(** ** Properties *)

(** C8: a hash table over the kernel allocator is a finite map from 64-bit
    keys to values.  On a table representing [m], [hashtable_find] answers
    [m]'s value or [-ENOENT]; [hashtable_insert] returns 0 and represents [m]
    with the key's value added or replaced, or returns [-ENOMEM] with the
    table unchanged; [hashtable_remove] of a missing key returns [-ENOENT]
    and changes nothing; of a present key it returns 0 and represents [m]
    without the key, or panics, which it does only when [krealloc] could not
    shrink a live block.  No operation ever changes the number of slots. *)
Theorem hashtable_refines_map (f : HashingFunction) (s : hstate kstate) ht m k v :
  ht_rep f s ht m -> is_u64 k ->
  hashtable_find k s ht = Ret (match m !! k with Some x => (0, x) | None => (- ENOENT, 0) end) /\
  (exists s' ht' st, hashtable_insert k v s ht = Ret (s', ht', st) /\
     ht'.(slot_capacity) = ht.(slot_capacity) /\
     ((st = 0 /\ ht_rep f s' ht' (<[k := v]> m)) \/ (st = - ENOMEM /\ ht' = ht /\ ht_rep f s' ht m))) /\
  (m !! k = None -> hashtable_remove k s ht = Ret (s, ht, - ENOENT)) /\
  (m !! k <> None ->
     (exists s' ht', hashtable_remove k s ht = Ret (s', ht', 0) /\
        ht'.(slot_capacity) = ht.(slot_capacity) /\ ht_rep f s' ht' (delete k m)) \/
     (hashtable_remove k s ht = Panic /\
      exists b n h', klive s.(heap) b <> None /\ 0 < n /\ krealloc b n s.(heap) = Ret (h', 0))).
Proof.
  intros R Hk. split; [exact (find_spec _ _ _ _ _ R Hk)|]. split; [exact (insert_spec _ _ _ _ _ _ R Hk)|].
  split; [exact (remove_absent _ _ _ _ _ R Hk)|]. intros Hm.
  destruct (m !! k) as [x|] eqn:E; [|done]. exact (remove_present _ _ _ _ _ _ R Hk E).
Qed.

(** A registry with SHA-1 in it, on the booted two-page heap. *)
Definition demo_registry : hstate kstate :=
  match hashing_register_hashfunc sha1_hashfunc (mkHS demo_k 0 []) with Ret r => r.1 | _ => mkHS demo_k 0 [] end.

Lemma demo_registry_ok : registry_ok demo_registry.
Proof.
  unfold demo_registry, hashing_register_hashfunc. cbn [funcs length heap g_hash_funcs].
  pose proof (Hwf0 := demo_k_wf : @alloc_wf kstate kmalloc_allocator demo_k).
  destruct (realloc_law demo_k 0 (u32 ((Z.of_nat 0 + 1) * sizeof_HashingFunction)) Hwf0) as (h' & q & Hr & Hwf & Hc);
    [by vm_compute|by left|].
  destruct Hc as [[-> _]|(Hq & _ & Hl)].
  { exfalso. pose proof (f_equal (fun r => match r with Ret (_, a) => a | _ => 1 end) Hr) as Ha.
    vm_compute in Ha. discriminate Ha. }
  rewrite Hr, bind_Ret. cbn [fst snd]. rewrite (proj2 (Z.eqb_neq q 0)) by exact Hq. cbn [fst app].
  split; [exact Hwf|]. split; [|split; [discriminate|]].
  - cbn [heap g_hash_funcs]. rewrite Hl, decide_True by exact eq_refl. discriminate.
  - cbn [funcs]. constructor; [exact sha1_good|constructor].
Qed.

(** with at least one usable function registered, [hashtable_init] picks a
    fastest one, and makes a table of 8 slots over it that represents the
    empty map, or returns [-ENOMEM] having allocated nothing. *)
Theorem hashtable_init_correct (s : hstate kstate) : registry_ok s ->
  exists s' ht st f, hashtable_init s = Ret (s', ht, st) /\
    f ∈ s.(funcs) /\ (forall g, g ∈ s.(funcs) -> g.(speed_priority) <= f.(speed_priority)) /\
    ((st = 0 /\ ht_rep (set_refcount f (u32 (f.(refcount) + 1))) s' ht ∅) \/
     (st = - ENOMEM /\ forall b, klive s'.(heap) b = klive s.(heap) b)).
Proof. intros Hr. exact (init_spec s Hr). Qed.

Lemma hashtable_init_correct_witness :
  exists s' ht st, hashtable_init demo_registry = Ret (s', ht, st).
Proof.
  destruct (hashtable_init_correct demo_registry demo_registry_ok) as (s' & ht & st & f & H & _).
  exists s', ht, st. exact H.
Defined.

Lemma demo_table : exists s ht f, hashtable_init demo_registry = Ret (s, ht, 0) /\ ht_rep f s ht ∅.
Proof.
  destruct (init_spec demo_registry demo_registry_ok) as (s & ht & st & f & H & _ & _ & [[-> R]|[-> _]]).
  - exists s, ht, (set_refcount f (u32 (refcount f + 1))). split; [exact H|exact R].
  - exfalso. pose proof (f_equal (fun r => match r with Ret (_, a) => a | _ => 1 end) H) as Ha.
    vm_compute in Ha. discriminate Ha.
Qed.

Lemma hashtable_refines_map_witness :
  exists f (s : hstate kstate) ht s' ht' st,
    ht_rep f s ht ∅ /\ hashtable_find 7 s ht = Ret (- ENOENT, 0) /\
    hashtable_insert 7 42 s ht = Ret (s', ht', st).
Proof.
  destruct demo_table as (s & ht & f & _ & R).
  destruct (hashtable_refines_map f s ht ∅ 7 42 R) as (H1 & (s' & ht' & st & H2 & _) & _);
    [unfold is_u64; lia|].
  exists f, s, ht, s', ht', st. split; [exact R|]. split; [exact H1|exact H2].
Defined.

(** A table, then a second function registered: a lookup before and after. *)
Definition dangling_run : outcome (outcome (Z * Z) * outcome (Z * Z)) :=
  r ← hashtable_init demo_registry;
  r' ← hashing_register_hashfunc (mkHF [120] SHA1_DIGEST_SIZE sha1_chew 1 1 0) r.1.1;
  Ret (hashtable_find 7 r.1.1 r.1.2, hashtable_find 7 r'.1 r.1.2).

(** registering a hash function moves the array of registered functions, and
    a table made before keeps the address of its function in the old array:
    the same lookup that answered [-ENOENT] dereferences a dangling pointer
    once another function has been registered. *)
Theorem register_dangles_tables : dangling_run = Ret (Ret (- ENOENT, 0), Undef).
Proof. vm_compute. reflexivity. Qed.
