(* ===== verification/MRegMap.v ===== *)
(** * The map of physical memory regions

    [kernel/mem/mregmap.c]: an array of regions kept sorted by start.  Adding
    or removing a range trims the regions that overlap it. *)
From Stdlib Require Import Sorted.
From S2P Require Import Prelude Bitwise Gallocator Alloc Kmalloc.
Import Bits.

(** ** Data *)

Record MemoryRegion := mkRegion { start : Z; size : Z; perms : Z }.
Definition zero_region : MemoryRegion := mkRegion 0 0 0.
Definition sizeof_MemoryRegion : Z := 20.

(** [regions] is the block at [regions_ptr], as the whole elements it holds. *)
Record MemoryRegionMap := mkMap {
  regions_ptr : Z; regions : list MemoryRegion; regions_size : Z; regions_capacity : Z }.
Definition set_regions (m : MemoryRegionMap) (l : list MemoryRegion) : MemoryRegionMap :=
  mkMap m.(regions_ptr) l m.(regions_size) m.(regions_capacity).
Definition set_size (m : MemoryRegionMap) (n : Z) : MemoryRegionMap :=
  mkMap m.(regions_ptr) m.(regions) n m.(regions_capacity).

(** The regions in use, and their exclusive end. *)
Definition active (m : MemoryRegionMap) : list MemoryRegion := take (Z.to_nat m.(regions_size)) m.(regions).
Definition reg_end (r : MemoryRegion) : Z := u64 (r.(start) + r.(size)).

(** Element accesses, defined inside the block. *)
Definition reg_at (m : MemoryRegionMap) (i : Z) : outcome MemoryRegion :=
  deref (m.(regions) !! Z.to_nat i).
Definition reg_write (m : MemoryRegionMap) (i : Z) (r : MemoryRegion) : outcome MemoryRegionMap :=
  _ ← reg_at m i; Ret (set_regions m (<[Z.to_nat i := r]> m.(regions))).

(** ** Operations *)

(** [for (k = idx; k < regions_size - 1; ++k) regions[k] = regions[k + 1]]. *)
Fixpoint shift_regions (n : nat) (k : Z) (m : MemoryRegionMap) : outcome MemoryRegionMap :=
  match n with
  | O => Ret m
  | S n => r ← reg_at m (k + 1); m ← reg_write m k r; shift_regions n (k + 1) m
  end.
Definition mregmap_rm_region_at_index (idx : Z) (m : MemoryRegionMap) : outcome (MemoryRegionMap * bool) :=
  if m.(regions_size) <=? idx then Ret (m, false)
  else m ← shift_regions (Z.to_nat (m.(regions_size) - 1 - idx)) idx m;
       Ret (set_size m (m.(regions_size) - 1), true).

(** [Some r]: shrunk; [None]: the region should be removed. *)
Definition mreg_shrink (sz : Z) (r : MemoryRegion) : option MemoryRegion :=
  if r.(size) <=? sz then None else Some (mkRegion r.(start) (r.(size) - sz) r.(perms)).

(** One step of the bubble sort by start. *)
Definition swap_if (l : list MemoryRegion) (k : nat) : list MemoryRegion :=
  match l !! k, l !! S k with
  | Some a, Some b => if a.(start) >? b.(start) then <[k := b]> (<[S k := a]> l) else l
  | _, _ => l
  end.
Definition sort_pass (n : nat) (l : list MemoryRegion) (i : nat) : list MemoryRegion :=
  foldl swap_if l (seq 0 (n - i - 1)).
Definition sort_regions (n : nat) (l : list MemoryRegion) : list MemoryRegion :=
  foldl (sort_pass n) l (seq 0 (n - 1)).

Section ops.
Context {H : Type} `{!Allocator H}.
Definition mstate : Type := H * MemoryRegionMap.

(** The block is asked to hold [regions_size + n] bytes: the elements past it
    are gone. *)
Definition mregmap_enlarge (n : Z) (s : mstate) : outcome (mstate * bool) :=
  let m := s.2 in
  let want := u32 (m.(regions_size) + n) in
  if want >? m.(regions_capacity) then
    r ← krealloc_ m.(regions_ptr) want s.1;
    if r.2 =? 0 then Ret ((r.1, m), false)
    else Ret ((r.1, mkMap r.2 (take (Z.to_nat (want / sizeof_MemoryRegion)) m.(regions)) want want), true)
  else Ret ((s.1, set_size m want), true).

(** [mregmap_add_reg] after a given overlap fix. *)
Definition add_reg_with (fix_overlaps : MemoryRegion -> mstate -> outcome mstate)
    (region : MemoryRegion) (s : mstate) : outcome (mstate * bool) :=
  s ← fix_overlaps region s;
  r ← mregmap_enlarge 1 s;
  if negb r.2 then Ret (r.1, false)
  else
    m ← reg_write r.1.2 (r.1.2.(regions_size) - 1) region;
    Ret ((r.1.1, set_regions m (sort_regions (Z.to_nat m.(regions_size)) m.(regions))), true).

(** The loop from index [i]; it calls [mregmap_add_reg] when it splits. *)
Fixpoint fix_overlaps_loop (fuel : nat) (region : MemoryRegion) (i : Z) (s : mstate) : outcome mstate :=
  match fuel with
  | O => Undef
  | S fuel =>
      if negb (i <? s.2.(regions_size)) then Ret s
      else
        tmp ← reg_at s.2 i;
        s ← (if region.(start) >? tmp.(start) then
               if reg_end region <? reg_end tmp then
                 let prevstart := tmp.(start) in
                 let start' := reg_end region in
                 m ← reg_write s.2 i (mkRegion start' (u64 (tmp.(size) - start')) tmp.(perms));
                 let newarea := mkRegion prevstart (u64 (region.(start) - prevstart)) tmp.(perms) in
                 r ← add_reg_with (fun r s => fix_overlaps_loop fuel r 0 s) newarea (s.1, m);
                 Ret (r.1 : mstate)
               else if region.(start) <? reg_end tmp then
                 match mreg_shrink (u32 (u64 (reg_end tmp - region.(start)))) tmp with
                 | Some tmp' => m ← reg_write s.2 i tmp'; Ret (s.1, m)
                 | None => r ← mregmap_rm_region_at_index i s.2; Ret (s.1, r.1 : MemoryRegionMap)
                 end
               else Ret s
             else
               if reg_end region >=? reg_end tmp then
                 r ← mregmap_rm_region_at_index i s.2; Ret (s.1, r.1 : MemoryRegionMap)
               else if reg_end region >? tmp.(start) then
                 match mreg_shrink (u32 (u64 (reg_end region - tmp.(start)))) tmp with
                 | Some tmp' =>
                     m ← reg_write s.2 i (mkRegion (reg_end region) tmp'.(size) tmp'.(perms)); Ret (s.1, m)
                 | None => r ← mregmap_rm_region_at_index i s.2; Ret (s.1, r.1 : MemoryRegionMap)
                 end
               else Ret s);
        fix_overlaps_loop fuel region (i + 1) s
  end.
Definition mregmap_fix_overlaps (fuel : nat) (region : MemoryRegion) (s : mstate) : outcome mstate :=
  fix_overlaps_loop fuel region 0 s.
Definition mregmap_add_reg (fuel : nat) (region : MemoryRegion) (s : mstate) : outcome (mstate * bool) :=
  add_reg_with (mregmap_fix_overlaps fuel) region s.
Definition mregmap_rm_reg (fuel : nat) (st sz : Z) (s : mstate) : outcome (mstate * bool) :=
  s ← mregmap_fix_overlaps fuel (mkRegion st sz 0) s; Ret (s, true).

Definition mregmap_init (areas_count : Z) (s : mstate) : outcome (mstate * bool) :=
  r ← kmalloc_ (u32 (areas_count * sizeof_MemoryRegion)) s.1;
  if r.2 =? 0 then Ret ((r.1, mkMap 0 [] s.2.(regions_size) s.2.(regions_capacity)), false)
  else Ret ((r.1, mkMap r.2 (replicate (Z.to_nat areas_count) zero_region) 0 areas_count), true).
End ops.
Arguments mstate : clear implicits.

(** [alignment] is a [u16]: [~(alignment - 1)] is an [int], sign-extended. *)
Definition align_start (alignment : Z) (r : MemoryRegion) : Z :=
  Z.land (u64 (r.(start) + (alignment - 1))) (u64 (Z.lnot (alignment - 1))).
Fixpoint align_loop (n : nat) (alignment i : Z) (m : MemoryRegionMap) : outcome MemoryRegionMap :=
  match n with
  | O => Ret m
  | S n =>
      tmp ← reg_at m i;
      match mreg_shrink (u64 (align_start alignment tmp - tmp.(start))) tmp with
      | None => r ← mregmap_rm_region_at_index i m; Ret r.1
      | Some tmp' =>
          m ← reg_write m i (mkRegion (align_start alignment tmp) tmp'.(size) tmp'.(perms));
          align_loop n alignment (i + 1) m
      end
  end.
Definition mregmap_align_regs (alignment : Z) (m : MemoryRegionMap) : outcome (MemoryRegionMap * bool) :=
  if negb (bw_is_power_of_two alignment) then Ret (m, false)
  else m ← align_loop (Z.to_nat m.(regions_size)) alignment 0 m; Ret (m, true).

(** ** Sorting *)

Definition start_le (a b : MemoryRegion) : Prop := a.(start) <= b.(start).

Lemma swap_if_middle q x b w : swap_if (q ++ x :: b :: w) (length q) =
  if x.(start) >? b.(start) then q ++ b :: x :: w else q ++ x :: b :: w.
Proof.
  unfold swap_if. rewrite list_lookup_middle by done.
  replace (q ++ x :: b :: w) with ((q ++ [x]) ++ b :: w) by by rewrite <- app_assoc.
  rewrite list_lookup_middle by (rewrite length_app; cbn; lia).
  destruct (start x >? start b); [|by rewrite <- app_assoc].
  replace (S (length q)) with (length (q ++ [x]) + 0)%nat by (rewrite length_app; cbn; lia).
  rewrite insert_app_r. cbn [list_insert insert]. rewrite <- app_assoc.
  rewrite <- (Nat.add_0_r (length q)), insert_app_r. done.
Qed.

(** A pass moves the largest of the first elements behind them. *)
Lemma pass_prefix u : forall w, u <> [] ->
  exists q x, foldl swap_if (u ++ w) (seq 0 (length u - 1)) = q ++ x :: w /\
    q ++ [x] ≡ₚ u /\ Forall (fun y => start_le y x) q.
Proof.
  induction u as [|b u IH] using rev_ind; [done|]. intros w _.
  destruct u as [|c u']; [by exists [], b|]. set (u := c :: u') in *.
  rewrite length_app. cbn [length]. replace (length u + 1 - 1)%nat with (S (length u - 1)) by (unfold u; cbn; lia).
  rewrite seq_S, foldl_app. cbn [Nat.add]. rewrite <- app_assoc. cbn [app].
  destruct (IH (b :: w)) as (q & x & Hf & Hp & Hall); [done|]. rewrite Hf. cbn [foldl].
  assert (Hl : length q = (length u - 1)%nat).
  { apply Permutation_length in Hp. rewrite length_app in Hp. cbn in Hp. unfold u in *. cbn in *. lia. }
  rewrite <- Hl, swap_if_middle, Z.gtb_ltb. destruct (Z.ltb_spec b.(start) x.(start)).
  - exists (q ++ [b]), x. rewrite <- !app_assoc. split; [done|]. split.
    + rewrite <- Hp, <- app_assoc. cbn. apply Permutation_app_head, perm_swap.
    + apply Forall_app. split; [done|]. constructor; [unfold start_le; lia|done].
  - exists (q ++ [x]), b. rewrite <- !app_assoc. split; [done|]. split.
    + rewrite <- Hp. by rewrite <- app_assoc.
    + apply Forall_app. split; [|by constructor; [|done]].
      eapply Forall_impl; [done|]. unfold start_le. lia.
Qed.

(** After [k] passes the last [k] of the first [n] are in place. *)
Lemma passes_spec u w k : (k < length u)%nat ->
  exists pre post, foldl (sort_pass (length u)) (u ++ w) (seq 0 k) = pre ++ post ++ w /\
    pre ++ post ≡ₚ u /\ length post = k /\ StronglySorted start_le post /\
    (forall a b, a ∈ pre -> b ∈ post -> start_le a b).
Proof.
  induction k as [|k IH]; intros Hk.
  - exists u, []. cbn. rewrite app_nil_r. do 3 (split; [done|]). split; [constructor|]. intros a b _ Hb. by apply not_elem_of_nil in Hb.
  - destruct IH as (pre & post & Hf & Hp & Hl & Hs & Hle); [lia|].
    rewrite seq_S, foldl_app, Hf. cbn [foldl Nat.add]. unfold sort_pass.
    pose proof (Permutation_length Hp) as Hlen. rewrite length_app in Hlen.
    replace (length u - k - 1)%nat with (length pre - 1)%nat by lia.
    destruct (pass_prefix pre (post ++ w)) as (q & x & -> & Hp' & Hall); [by intros ->; cbn in Hlen; lia|].
    exists q, (x :: post). cbn [length]. rewrite Hl. split; [done|]. split; [|split; [done|]].
    + rewrite <- Hp, <- Hp', <- app_assoc. done.
    + split.
      * constructor; [done|]. apply Forall_forall. intros b Hb. apply Hle; [|done].
        rewrite <- Hp'. apply elem_of_app. right. by apply list_elem_of_singleton.
      * intros a b Ha [->|Hb]%elem_of_cons; [by eapply Forall_forall in Hall|].
        apply Hle; [|done]. rewrite <- Hp'. apply elem_of_app. by left.
Qed.

Lemma sort_regions_spec u w : u <> [] ->
  exists u', sort_regions (length u) (u ++ w) = u' ++ w /\ u' ≡ₚ u /\ StronglySorted start_le u'.
Proof.
  intros Hu. unfold sort_regions.
  destruct (passes_spec u w (length u - 1)) as (pre & post & -> & Hp & Hl & Hs & Hle); [destruct u; cbn in *; [done|lia]|].
  exists (pre ++ post). rewrite app_assoc. do 2 (split; [done|]).
  pose proof (Permutation_length Hp) as Hlen. rewrite length_app in Hlen.
  destruct pre as [|x [|y pre]]; cbn in Hlen; [done| |lia].
  cbn. constructor; [done|]. apply Forall_forall. intros b Hb. apply Hle; [by left|done].
Qed.

(** ** Trimming the overlapped regions *)

Definition region_ok (r : MemoryRegion) : Prop :=
  0 <= r.(start) /\ 0 < r.(size) /\ r.(start) + r.(size) < 2 ^ 64.
Definition inside (a : Z) (r : MemoryRegion) : Prop := r.(start) <= a < r.(start) + r.(size).
Definition covered (l : list MemoryRegion) (a : Z) : Prop := exists r, r ∈ l /\ inside a r.

(** [t] without the bytes of [r], when [r] takes an end of it or nothing. *)
Definition trim (r t : MemoryRegion) : MemoryRegion :=
  if t.(start) <? r.(start) then mkRegion t.(start) (Z.min t.(size) (r.(start) - t.(start))) t.(perms)
  else let s := Z.max t.(start) (r.(start) + r.(size)) in
       mkRegion s (t.(size) - (s - t.(start))) t.(perms).
(** Neither region lies within the other, and [size_t] holds the overlap. *)
Definition trimmable (r t : MemoryRegion) : Prop :=
  (t.(start) < r.(start) -> t.(start) + t.(size) <= r.(start) + r.(size) /\
                            t.(start) + t.(size) - r.(start) < 2 ^ 32) /\
  (r.(start) <= t.(start) -> r.(start) + r.(size) < t.(start) + t.(size) /\
                             r.(start) + r.(size) - t.(start) < 2 ^ 32).

Lemma trim_inside r t a : region_ok r -> region_ok t -> trimmable r t ->
  inside a (trim r t) <-> inside a t /\ ~ inside a r.
Proof.
  unfold region_ok, inside, trim, trimmable. intros Hr Ht [H1 H2].
  destruct (Z.ltb_spec t.(start) r.(start)); cbn [start size]; lia.
Qed.

Lemma reg_end_small r : region_ok r -> reg_end r = r.(start) + r.(size).
Proof. intros (? & ? & ?). apply u64_small. unfold is_u64. lia. Qed.

Lemma reg_at_middle m pre t post : m.(regions) = pre ++ t :: post ->
  reg_at m (Z.of_nat (length pre)) = Ret t.
Proof. intros E. unfold reg_at. by rewrite E, Nat2Z.id, list_lookup_middle. Qed.

Lemma reg_write_middle m pre t post r : m.(regions) = pre ++ t :: post ->
  reg_write m (Z.of_nat (length pre)) r = Ret (set_regions m (pre ++ r :: post)).
Proof.
  intros E. unfold reg_write. rewrite (reg_at_middle m pre t post E), bind_Ret, E, Nat2Z.id.
  rewrite <- (Nat.add_0_r (length pre)) at 1. by rewrite insert_app_r.
Qed.

Lemma set_regions_id m : set_regions m m.(regions) = m.
Proof. by destruct m. Qed.

Section spec.
Context {H : Type} `{!Allocator H}.

Lemma fix_loop_spec r (h : H) todo : forall fuel m pre post, region_ok r ->
  m.(regions) = pre ++ todo ++ post -> m.(regions_size) = Z.of_nat (length pre + length todo) ->
  (length todo < fuel)%nat -> Forall (fun t => region_ok t /\ trimmable r t) todo ->
  fix_overlaps_loop fuel r (Z.of_nat (length pre)) (h, m) =
  Ret (h, set_regions m (pre ++ (trim r <$> todo) ++ post)).
Proof.
  induction todo as [|t todo IH]; intros [|fuel] m pre post Hr E Hs Hf Hall; cbn [length] in *; try lia;
    cbn [fix_overlaps_loop snd fst].
  - rewrite (proj2 (Z.ltb_ge _ _)) by lia. cbn in *. rewrite <- E. by rewrite set_regions_id.
  - rewrite (proj2 (Z.ltb_lt _ _)) by lia. cbn [negb].
    rewrite (reg_at_middle m pre t _ E), bind_Ret.
    apply Forall_cons in Hall as [[Ht Htr] Hall].
    assert (Hnext : forall m', m'.(regions) = pre ++ trim r t :: todo ++ post ->
      m'.(regions_size) = m.(regions_size) -> set_regions m' (regions m) = m ->
      fix_overlaps_loop fuel r (Z.of_nat (length pre) + 1) (h, m') =
      Ret (h, set_regions m (pre ++ (trim r <$> t :: todo) ++ post))).
    { intros m' E' Hs' Hm'. replace (Z.of_nat (length pre) + 1) with (Z.of_nat (length (pre ++ [trim r t]))).
      2: { rewrite length_app. cbn. lia. }
      rewrite (IH fuel m' (pre ++ [trim r t]) post); [|done| | |lia|done].
      - rewrite <- Hm', <- app_assoc. done.
      - rewrite E', <- app_assoc. done.
      - rewrite Hs', Hs, length_app. cbn. lia. }
    assert (Hid : trim r t = t -> fix_overlaps_loop fuel r (Z.of_nat (length pre) + 1) (h, m) =
      Ret (h, set_regions m (pre ++ (trim r <$> t :: todo) ++ post))).
    { intros Et. apply Hnext; [by rewrite Et|done|]. by destruct m. }
    rewrite !reg_end_small by done. destruct Htr as [T1 T2]. destruct Ht as (? & ? & ?), Hr as (? & ? & ?).
    rewrite !Z.gtb_ltb, Z.geb_leb. unfold trim in Hnext, Hid. unfold mreg_shrink.
    destruct (Z.ltb_spec t.(start) r.(start)) as [Hlt|Hge].
    + destruct (T1 Hlt) as [T11 T12]. rewrite (proj2 (Z.ltb_ge _ _)) by lia.
      destruct (Z.ltb_spec r.(start) (t.(start) + t.(size))).
      * rewrite u64_small, u32_small by (unfold is_u64, is_u32; lia).
        rewrite (proj2 (Z.leb_gt _ _)) by lia. rewrite (reg_write_middle m pre t _ _ E), !bind_Ret.
        apply Hnext; [|done|by destruct m]. cbn [regions set_regions]. do 3 f_equal. lia.
      * rewrite bind_Ret. apply Hid. destruct t as [ts tz tp]. cbn [start size perms] in *. f_equal. lia.
    + destruct (T2 ltac:(lia)) as [T21 T22]. rewrite (proj2 (Z.leb_gt _ _)) by lia.
      destruct (Z.ltb_spec t.(start) (r.(start) + r.(size))).
      * rewrite u64_small, u32_small by (unfold is_u64, is_u32; lia).
        rewrite (proj2 (Z.leb_gt _ _)) by lia. rewrite (reg_write_middle m pre t _ _ E), !bind_Ret.
        cbn [size perms]. apply Hnext; [|done|by destruct m]. cbn [regions set_regions]. cbv zeta. do 3 f_equal; lia.
      * rewrite bind_Ret. apply Hid. cbv zeta. destruct t as [ts tz tp]. cbn [start size perms] in *. f_equal; lia.
Qed.

(** A map whose array holds its regions. *)
Definition map_ok (m : MemoryRegionMap) : Prop :=
  0 <= m.(regions_size) <= m.(regions_capacity) /\ m.(regions_capacity) < 2 ^ 32 /\
  (Z.to_nat m.(regions_capacity) <= length m.(regions))%nat /\ Forall region_ok (active m).

Lemma fix_overlaps_spec fuel r (h : H) m : map_ok m -> region_ok r -> Forall (trimmable r) (active m) ->
  (Z.to_nat m.(regions_size) < fuel)%nat ->
  mregmap_fix_overlaps fuel r (h, m) =
    Ret (h, set_regions m ((trim r <$> active m) ++ drop (Z.to_nat m.(regions_size)) m.(regions))).
Proof.
  intros (Hs & Hc & Hl & Hok) Hr Ht Hf. unfold mregmap_fix_overlaps.
  assert (Hla : length (active m) = Z.to_nat m.(regions_size)) by (unfold active; rewrite length_take; lia).
  apply (fix_loop_spec r h (active m) fuel m [] (drop (Z.to_nat m.(regions_size)) m.(regions))); [done| | |lia|].
  - cbn. unfold active. by rewrite take_drop.
  - cbn. lia.
  - apply Forall_and. done.
Qed.

Lemma add_reg_spec fuel r (h : H) m : map_ok m -> region_ok r -> Forall (trimmable r) (active m) ->
  (Z.to_nat m.(regions_size) < fuel)%nat -> m.(regions_size) < m.(regions_capacity) ->
  exists m', mregmap_add_reg fuel r (h, m) = Ret ((h, m'), true) /\
    m'.(regions_size) = m.(regions_size) + 1 /\
    (m'.(regions_capacity) = m.(regions_capacity) /\ length m'.(regions) = length m.(regions)) /\
    active m' ≡ₚ r :: (trim r <$> active m) /\ StronglySorted start_le (active m').
Proof.
  intros Hm Hr Ht Hf Hroom. pose proof Hm as (Hs & Hc & Hl & Hok).
  unfold mregmap_add_reg, add_reg_with. rewrite (fix_overlaps_spec fuel r h m Hm Hr Ht Hf), bind_Ret.
  set (l := trim r <$> active m). set (n := Z.to_nat m.(regions_size)).
  assert (Hla : length l = n) by (unfold l, active; rewrite length_fmap, length_take; lia).
  destruct (drop n m.(regions)) as [|x post] eqn:Ed.
  { apply (f_equal length) in Ed. rewrite length_drop in Ed. cbn in Ed. lia. }
  unfold mregmap_enlarge. cbn [snd fst regions_size regions_capacity set_regions regions regions_ptr].
  rewrite u32_small, Z.gtb_ltb by (unfold is_u32; lia). rewrite (proj2 (Z.ltb_ge _ _)) by lia.
  rewrite bind_Ret. cbn [snd fst negb set_size regions_size regions].
  replace (regions_size m + 1 - 1) with (Z.of_nat (length l)) by lia.
  rewrite (reg_write_middle _ l x post r) by done. rewrite bind_Ret.
  destruct (sort_regions_spec (l ++ [r]) post) as (u & Hu & Hp & Hsort); [by destruct l|].
  pose proof (Permutation_length Hp) as Hlu. rewrite length_app in Hlu. cbn in Hlu.
  eexists. split; [reflexivity|]. split; [done|].
  unfold active. cbn [set_regions regions regions_size set_size regions_capacity].
  replace (Z.to_nat (regions_size m + 1)) with (length (l ++ [r])) by (rewrite length_app; cbn; lia).
  replace (l ++ r :: post) with ((l ++ [r]) ++ post) by by rewrite <- app_assoc.
  rewrite Hu. split.
  { split; [done|]. apply (f_equal length) in Ed. rewrite length_drop in Ed. cbn in Ed. rewrite length_app. lia. }
  rewrite take_app_length' by (rewrite length_app; cbn; lia). split; [|done].
  rewrite Hp. symmetry. apply Permutation_cons_append.
Qed.
End spec.

Lemma covered_trim r l a : region_ok r -> Forall region_ok l -> Forall (trimmable r) l ->
  covered (trim r <$> l) a <-> covered l a /\ ~ inside a r.
Proof.
  intros Hr Hl Ht. rewrite Forall_forall in Hl, Ht. unfold covered. split.
  - intros (x & (t & -> & Hin)%list_elem_of_fmap & Ha). apply trim_inside in Ha as [Ha Hn]; [|auto..].
    split; [by exists t|done].
  - intros [(t & Hin & Ha) Hn]. exists (trim r t). split; [by apply list_elem_of_fmap_2|].
    by apply trim_inside; auto.
Qed.

(** ** Removing and aligning *)

Lemma shift_spec rest : forall m pre t slack, m.(regions) = pre ++ t :: rest ++ slack ->
  exists x, shift_regions (length rest) (Z.of_nat (length pre)) m =
    Ret (set_regions m (pre ++ rest ++ x :: slack)).
Proof.
  induction rest as [|y rest IH]; intros m pre t slack E; cbn [length shift_regions app].
  - exists t. cbn in E. rewrite <- E. by rewrite set_regions_id.
  - assert (E1 : m.(regions) = (pre ++ [t]) ++ y :: rest ++ slack) by by rewrite E, <- app_assoc.
    assert (Hlen : forall z, Z.of_nat (length pre) + 1 = Z.of_nat (length (pre ++ [z]))) by (intros z; rewrite length_app; cbn; lia).
    rewrite (Hlen t), (reg_at_middle _ _ _ _ E1), bind_Ret, (reg_write_middle m pre t _ y E), bind_Ret.
    replace (length (pre ++ [t])) with (length (pre ++ [y])) by (rewrite !length_app; done).
    destruct (IH (set_regions m (pre ++ y :: y :: rest ++ slack)) (pre ++ [y]) y slack) as (x & Hx).
    { cbn. by rewrite <- app_assoc. }
    exists x. etrans; [exact Hx|]. by rewrite <- app_assoc.
Qed.

Lemma rm_at_spec m pre t rest slack : m.(regions) = pre ++ t :: rest ++ slack ->
  m.(regions_size) = Z.of_nat (length pre + S (length rest)) ->
  exists m', mregmap_rm_region_at_index (Z.of_nat (length pre)) m = Ret (m', true) /\
    active m' = pre ++ rest.
Proof.
  intros E Hs. unfold mregmap_rm_region_at_index. rewrite (proj2 (Z.leb_gt _ _)) by lia.
  replace (Z.to_nat (regions_size m - 1 - Z.of_nat (length pre))) with (length rest) by lia.
  destruct (shift_spec rest m pre t slack E) as (x & ->). rewrite bind_Ret.
  eexists. split; [reflexivity|]. unfold active. cbn [regions regions_size set_regions set_size].
  rewrite app_assoc. apply take_app_length'. rewrite length_app. lia.
Qed.

Lemma land_align x e : 0 <= x < 2 ^ 64 -> 0 <= e <= 16 ->
  Z.land x (u64 (Z.lnot (2 ^ e - 1))) = x / 2 ^ e * 2 ^ e.
Proof.
  intros Hx He. rewrite <- Z.shiftl_mul_pow2, <- Z.shiftr_div_pow2 by lia.
  apply Z.bits_inj'. intros k Hk. unfold u64. rewrite Z.land_spec, testbit_mod, Z.lnot_spec, Z.shiftl_spec by lia.
  replace (2 ^ e - 1) with (Z.ones e) by (rewrite Z.ones_equiv; lia).
  destruct (Z.ltb_spec k 64).
  - destruct (Z.lt_ge_cases k e).
    + rewrite Z.ones_spec_low, (Z.testbit_neg_r _ (k - e)) by lia. cbn. apply andb_false_r.
    + rewrite Z.ones_spec_high, Z.shiftr_spec by lia. cbn. rewrite andb_true_r. f_equal. lia.
  - rewrite (testbit_above x 64) by lia. cbn. rewrite Z.shiftr_spec by lia.
    symmetry. apply (testbit_above x 64); lia.
Qed.

(** The least multiple of [a] at or above [x]. *)
Definition round_up (a x : Z) : Z := (x + (a - 1)) / a * a.
Definition aligned (a : Z) (t : MemoryRegion) : MemoryRegion :=
  mkRegion (round_up a t.(start)) (t.(size) - (round_up a t.(start) - t.(start))) t.(perms).
(** Align regions up to the first one that would be empty: that one is dropped
    and the ones behind it stay as they are. *)
Fixpoint align_until (a : Z) (l : list MemoryRegion) : list MemoryRegion :=
  match l with
  | [] => []
  | t :: l => if t.(size) <=? round_up a t.(start) - t.(start) then l
              else aligned a t :: align_until a l
  end.

Lemma round_up_spec a x : 0 < a -> x <= round_up a x < x + a /\ (a | round_up a x).
Proof.
  intros Ha. unfold round_up. pose proof (Z.div_mod (x + (a - 1)) a ltac:(lia)) as Hd.
  pose proof (Z.mod_pos_bound (x + (a - 1)) a Ha). split; [lia|by exists ((x + (a - 1)) / a)].
Qed.

Lemma align_start_spec e t : 0 <= e <= 15 -> region_ok t -> t.(start) + 2 ^ e <= 2 ^ 64 ->
  align_start (2 ^ e) t = round_up (2 ^ e) t.(start).
Proof.
  intros He (? & ? & ?) Hb. assert (0 < 2 ^ e) by lia.
  unfold align_start. rewrite u64_small by (unfold is_u64; lia). apply land_align; lia.
Qed.

Lemma align_loop_spec e todo : forall m pre slack, 0 <= e <= 15 ->
  m.(regions) = pre ++ todo ++ slack -> m.(regions_size) = Z.of_nat (length pre + length todo) ->
  Forall (fun t => region_ok t /\ t.(start) + 2 ^ e <= 2 ^ 64) todo ->
  exists m', align_loop (length todo) (2 ^ e) (Z.of_nat (length pre)) m = Ret m' /\
    active m' = pre ++ align_until (2 ^ e) todo.
Proof.
  induction todo as [|t todo IH]; intros m pre slack He E Hs Hall; cbn [align_loop length align_until] in *.
  - exists m. split; [done|]. unfold active. rewrite E. rewrite app_nil_r. apply take_app_length'. lia.
  - apply Forall_cons in Hall as [[Ht Hb] Hall]. rewrite (reg_at_middle m pre t _ E), bind_Ret.
    rewrite align_start_spec by done. pose proof (round_up_spec (2 ^ e) t.(start) ltac:(lia)) as [Hr _].
    pose proof Ht as (? & ? & ?). assert (2 ^ e <= 2 ^ 15) by (apply Z.pow_le_mono_r; lia).
    unfold mreg_shrink. rewrite u64_small by (unfold is_u64; lia).
    destruct (t.(size) <=? round_up (2 ^ e) t.(start) - t.(start)) eqn:Es.
    + destruct (rm_at_spec m pre t todo slack E) as (m' & -> & Ha); [lia|]. rewrite bind_Ret. by exists m'.
    + cbn [size perms]. rewrite (reg_write_middle m pre t _ _ E), bind_Ret.
      set (m1 := set_regions m _).
      destruct (IH m1 (pre ++ [aligned (2 ^ e) t]) slack) as (m' & Hrun & Ha); [done| | |done|].
      * cbn. by rewrite <- app_assoc.
      * cbn. rewrite length_app. cbn. lia.
      * replace (Z.of_nat (length pre) + 1) with (Z.of_nat (length (pre ++ [aligned (2 ^ e) t]))) by (rewrite length_app; cbn; lia).
        exists m'. split; [done|]. by rewrite Ha, <- app_assoc.
Qed.

(** ** Properties *)

(** adding a region that neither contains nor lies strictly inside a mapped
    region (and overlaps none by 4 GiB or more), with room in the array,
    succeeds: the map is then the new region with the old ones trimmed, sorted
    by start; its bytes are those of the old map and of the region, and no
    trimmed region shares a byte with the new one.  Removing such a range
    leaves exactly the bytes of the old map outside the range. *)
Theorem mregmap_trims `{!Allocator H} fuel r (h : H) m : map_ok m -> region_ok r ->
  Forall (trimmable r) (active m) -> (Z.to_nat m.(regions_size) < fuel)%nat ->
  (m.(regions_size) < m.(regions_capacity) ->
   exists m', mregmap_add_reg fuel r (h, m) = Ret ((h, m'), true) /\
     m'.(regions_size) = m.(regions_size) + 1 /\
     active m' ≡ₚ r :: (trim r <$> active m) /\ StronglySorted start_le (active m') /\
     (forall a, covered (active m') a <-> inside a r \/ covered (active m) a) /\
     (forall a, inside a r -> ~ covered (trim r <$> active m) a)) /\
  (exists m', mregmap_rm_reg fuel r.(start) r.(size) (h, m) = Ret ((h, m'), true) /\
     m'.(regions_size) = m.(regions_size) /\
     forall a, covered (active m') a <-> covered (active m) a /\ ~ inside a r).
Proof.
  intros Hm Hr Ht Hf. pose proof Hm as (Hs & Hc & Hl & Hok). split.
  - intros Hroom. destruct (add_reg_spec fuel r h m Hm Hr Ht Hf Hroom) as (m' & Hrun & Hsz & _ & Hp & Hsort).
    exists m'. do 4 (split; [done|]). split.
    + intros a. trans (covered (r :: (trim r <$> active m)) a); [unfold covered; by setoid_rewrite Hp|].
      trans (inside a r \/ covered (trim r <$> active m) a).
      * unfold covered. split; [intros (x & [->|Hx]%elem_of_cons & Ha); eauto|].
        intros [Ha|(x & Hx & Ha)]; [exists r; split; [left|done]|exists x; split; [by right|done]].
      * rewrite covered_trim by done. destruct (decide (start r <= a < start r + size r)); unfold inside in *; tauto.
    + intros a Ha Hcov. apply covered_trim in Hcov; [|done..]. by destruct Hcov.
  - set (r0 := mkRegion r.(start) r.(size) 0).
    assert (Hr0 : region_ok r0) by exact Hr. assert (Ht0 : Forall (trimmable r0) (active m)) by exact Ht.
    unfold mregmap_rm_reg. rewrite (fix_overlaps_spec fuel r0 h m Hm Hr0 Ht0 Hf), bind_Ret.
    eexists. split; [reflexivity|]. split; [done|]. intros a.
    unfold active at 1. cbn [regions regions_size set_regions].
    rewrite take_app_length' by (unfold active; rewrite length_fmap, length_take; lia).
    by rewrite covered_trim.
Qed.

(** The firmware map of a 128 MiB machine, with room for more. *)
Definition demo_map : MemoryRegionMap :=
  mkMap 0xC0300000 [mkRegion 0 0x9FC00 3; mkRegion 0x100000 0x7F00000 3; zero_region; zero_region] 2 4.

Lemma demo_map_ok : map_ok demo_map.
Proof.
  split; [cbn; lia|]. split; [cbn; lia|]. split; [cbn; lia|].
  repeat constructor; cbn; lia.
Qed.

Lemma mregmap_trims_witness :
  exists m', mregmap_add_reg 3 (mkRegion 0x80000 0x90000 1) (demo_k, demo_map) = Ret ((demo_k, m'), true) /\
    active m' ≡ₚ [mkRegion 0x80000 0x90000 1; mkRegion 0 0x80000 3; mkRegion 0x110000 0x7EF0000 3].
Proof.
  destruct (mregmap_trims 3 (mkRegion 0x80000 0x90000 1) demo_k demo_map demo_map_ok) as [Hadd _].
  - repeat split; cbn; lia.
  - repeat (apply Forall_cons; split; [split; cbn; lia|]). by apply Forall_nil.
  - cbn. lia.
  - destruct Hadd as (m' & Hrun & _ & Hp & _); [cbn; lia|]. exists m'. split; [exact Hrun|exact Hp].
Defined.

(** [mregmap_align_regs] with a power of two below 64 KiB moves every start up
    to the next multiple and keeps the ends, as long as no region vanishes:
    the first region too small to reach the multiple is removed, and the
    regions behind it are left unaligned.  Any other alignment is refused. *)
Theorem mregmap_align_correct e m : 0 <= e <= 15 -> map_ok m ->
  Forall (fun t => t.(start) + 2 ^ e <= 2 ^ 64) (active m) ->
  (exists m', mregmap_align_regs (2 ^ e) m = Ret (m', true) /\ active m' = align_until (2 ^ e) (active m)) /\
  (Forall (fun t => round_up (2 ^ e) t.(start) < t.(start) + t.(size)) (active m) ->
   align_until (2 ^ e) (active m) = aligned (2 ^ e) <$> active m) /\
  (forall t, t ∈ aligned (2 ^ e) <$> active m -> (2 ^ e | t.(start))).
Proof.
  intros He Hm Hb. pose proof Hm as (Hs & Hc & Hl & Hok). split; [|split].
  - unfold mregmap_align_regs. rewrite pow2_check by lia. cbn [negb].
    assert (Hla : length (active m) = Z.to_nat m.(regions_size)) by (unfold active; rewrite length_take; lia).
    destruct (align_loop_spec e (active m) m [] (drop (Z.to_nat m.(regions_size)) m.(regions)) He) as (m' & Hrun & Ha).
    + unfold active. cbn. by rewrite take_drop.
    + cbn. lia.
    + by apply Forall_and.
    + rewrite Hla in Hrun. change (Z.of_nat (@length MemoryRegion [])) with 0 in Hrun. rewrite Hrun, bind_Ret. by exists m'.
  - generalize (active m). intros l. clear. induction l as [|t l IH]; intros Hall; [done|]. apply Forall_cons in Hall as [Ht Hall].
    cbn [align_until fmap list_fmap]. rewrite (proj2 (Z.leb_gt _ _)) by lia.
    by rewrite IH.
  - intros x (t & -> & _)%list_elem_of_fmap. cbn. apply (round_up_spec (2 ^ e)). lia.
Qed.

Lemma mregmap_align_correct_witness :
  exists m', mregmap_align_regs (2 ^ 12) demo_map = Ret (m', true) /\
    active m' = align_until (2 ^ 12) (active demo_map).
Proof.
  apply (mregmap_align_correct 12 demo_map); [lia|exact demo_map_ok|repeat constructor; cbn; lia].
Defined.

(** The removal splits the second region: its upper part should reach
    [0x8000000] and ends 1 MiB short, at the old size. *)
Example split_loses_memory `{!Allocator H} (h : H) :
  mregmap_rm_reg 10 0x200000 0x100000 (h, demo_map) =
  Ret ((h, mkMap 0xC0300000 [mkRegion 0 0x9FC00 3; mkRegion 0x100000 0x100000 3;
                             mkRegion 0x300000 0x7C00000 3; zero_region] 3 4), true).
Proof. reflexivity. Qed.
