(* ===== verification/Falloc.v ===== *)
(** * The page frame allocator

    [kernel/mem/falloc.c]: one bit per 4 KiB frame of the 4 GiB physical
    space, set when the frame is taken.  User frames are searched from the end
    of the bitmap down, by a cursor. *)
From S2P Require Import Prelude Bitwise Alloc MRegMap.
Import Bits.

(** ** State *)

Definition PAGEFRAME_POOL_SIZE : Z := 1024 * 16.
Definition PAGESIZE : Z := 4096.
Definition ENOMEM : Z := 12.

Record fstate := mkF {
  g_pgframe_pool : list Z; g_pgframes_cnt : Z;
  g_pgframes_user_cursor : Z; g_pgframes_user_subcursor : Z }.
Definition set_pool (s : fstate) (l : list Z) (n : Z) : fstate :=
  mkF l n s.(g_pgframes_user_cursor) s.(g_pgframes_user_subcursor).

(** What the linker places: the pool is zero until [falloc_init]. *)
Definition falloc_boot : fstate :=
  mkF (replicate (Z.to_nat PAGEFRAME_POOL_SIZE) 0) 0 (PAGEFRAME_POOL_SIZE - 1) 63.

(** ** Operations *)

(** The subcursor counts down from [n - 1] to the first clear bit. *)
Fixpoint scan_word (n : nat) (w : Z) : option Z :=
  match n with
  | O => None
  | S n => if Z.land (Z.shiftr w (Z.of_nat n)) 1 =? 0 then Some (Z.of_nat n) else scan_word n w
  end.

(** The cursor counts down from [n]; word 0 is never looked at. *)
Fixpoint user_loop (n : nat) (s : fstate) : outcome (fstate * Z) :=
  match n with
  | O => Ret (s, 0)
  | S n' =>
      w ← deref (s.(g_pgframe_pool) !! n);
      match scan_word (Z.to_nat (s.(g_pgframes_user_subcursor) + 1)) w with
      | Some b =>
          Ret (mkF (<[n := bw_set w b]> s.(g_pgframe_pool)) (u32 (s.(g_pgframes_cnt) - 1)) (Z.of_nat n) b,
               u32 (Z.of_nat n * 64 * PAGESIZE + b * PAGESIZE))
      | None => user_loop n' (mkF s.(g_pgframe_pool) s.(g_pgframes_cnt) (Z.of_nat n') 63)
      end
  end.
Definition falloc_one_user (s : fstate) : outcome (fstate * Z) :=
  user_loop (Z.to_nat s.(g_pgframes_user_cursor)) s.

(** The word and the bit of a frame. *)
Definition frame_word (base : Z) : Z := u16 (base / PAGESIZE / 64).
Definition frame_bit (base : Z) : Z := u64 (base / PAGESIZE - frame_word base * 64).

Definition falloc_is_frame_available (base : Z) (s : fstate) : outcome bool :=
  _ ← assert_ (base mod PAGESIZE =? 0);
  w ← deref (s.(g_pgframe_pool) !! Z.to_nat (frame_word base));
  Ret (Z.land (Z.shiftr w (frame_bit base)) 1 =? 0).

Definition falloc_one_at (base : Z) (s : fstate) : outcome (fstate * Z) :=
  _ ← assert_ (base mod PAGESIZE =? 0);
  av ← falloc_is_frame_available base s;
  if negb av then Ret (s, - ENOMEM)
  else
    w ← deref (s.(g_pgframe_pool) !! Z.to_nat (frame_word base));
    Ret (set_pool s (<[Z.to_nat (frame_word base) := bw_set w (frame_bit base)]> s.(g_pgframe_pool))
                  s.(g_pgframes_cnt), 0).

Definition falloc_get_free_frames_count (s : fstate) : Z := s.(g_pgframes_cnt).

Definition ffree_one (base : Z) (s : fstate) : outcome fstate :=
  _ ← assert_ (base mod PAGESIZE =? 0);
  w ← deref (s.(g_pgframe_pool) !! Z.to_nat (frame_word base));
  Ret (set_pool s (<[Z.to_nat (frame_word base) := bw_clear w (frame_bit base)]> s.(g_pgframe_pool))
                (u32 (s.(g_pgframes_cnt) + 1))).

(** The loop runs while [frame < end] in [u64]; [ffree_one] takes a 32-bit
    address. *)
Fixpoint add_available_loop (fuel : nat) (frame end_ : Z) (s : fstate) : outcome fstate :=
  match fuel with
  | O => Undef
  | S fuel =>
      if negb (frame <? end_) then Ret s
      else s ← ffree_one (u32 frame) s; add_available_loop fuel (u64 (frame + PAGESIZE)) end_ s
  end.
Definition pageframe_add_available (region : MemoryRegion) (s : fstate) : outcome fstate :=
  add_available_loop (S (S (Z.to_nat (region.(size) / PAGESIZE)))) region.(start) (reg_end region) s.

Fixpoint add_regions (l : list MemoryRegion) (s : fstate) : outcome fstate :=
  match l with
  | [] => Ret s
  | area :: l => s ← pageframe_add_available area s; add_regions l s
  end.
Definition falloc_init (mregmap : MemoryRegionMap) (s : fstate) : outcome (fstate * Z) :=
  let s := set_pool s (replicate (Z.to_nat PAGEFRAME_POOL_SIZE) (2 ^ 64 - 1)) s.(g_pgframes_cnt) in
  s ← add_regions (active mregmap) s;
  if s.(g_pgframes_cnt) =? 0 then Panic else Ret (s, 0).

(** ** The frames the bitmap stands for *)

(** Frame [n] is taken; every number beyond the pool is. *)
Definition taken (s : fstate) (n : Z) : bool :=
  match s.(g_pgframe_pool) !! Z.to_nat (n / 64) with
  | Some w => Z.testbit w (n mod 64)
  | None => true
  end.

Record falloc_wf (s : fstate) : Prop := {
  wf_len : Z.of_nat (length s.(g_pgframe_pool)) = PAGEFRAME_POOL_SIZE;
  wf_words : Forall is_u64 s.(g_pgframe_pool);
  wf_cnt : is_u32 s.(g_pgframes_cnt);
  wf_cursor : 0 <= s.(g_pgframes_user_cursor) < PAGEFRAME_POOL_SIZE;
  wf_sub : 0 <= s.(g_pgframes_user_subcursor) <= 63 }.

(** The highest frame the cursor still reaches. *)
Definition cursor_frame (s : fstate) : Z := 64 * s.(g_pgframes_user_cursor) + s.(g_pgframes_user_subcursor).

Lemma land1_testbit w b : 0 <= b -> (Z.land (Z.shiftr w b) 1 =? 0) = negb (Z.testbit w b).
Proof.
  intros Hb. rewrite <- (Z.add_0_l b) at 2. rewrite <- Z.shiftr_spec by lia.
  change 1 with (Z.ones 1). rewrite Z.land_ones by lia. rewrite Z.bit0_odd, Zmod_odd.
  by destruct (Z.odd (Z.shiftr w b)).
Qed.

Lemma scan_word_spec n w :
  match scan_word n w with
  | Some b => 0 <= b < Z.of_nat n /\ Z.testbit w b = false /\
              forall k, b < k < Z.of_nat n -> Z.testbit w k = true
  | None => forall k, 0 <= k < Z.of_nat n -> Z.testbit w k = true
  end.
Proof.
  induction n as [|n IH]; cbn [scan_word]; [lia|]. rewrite land1_testbit by lia.
  destruct (Z.testbit w (Z.of_nat n)) eqn:E; cbn [negb].
  - assert (Hk : forall k, k < Z.of_nat (S n) -> k = Z.of_nat n \/ k < Z.of_nat n) by lia.
    destruct (scan_word n w) as [b|].
    + destruct IH as (? & ? & Hb). split; [lia|]. split; [done|].
      intros k Hk'. destruct (Hk k) as [->|?]; [lia|done|]. apply Hb. lia.
    + intros k Hk'. destruct (Hk k) as [->|?]; [lia|done|]. apply IH. lia.
  - split; [lia|]. split; [done|]. lia.
Qed.

(** Writing word [i] changes the frames of that word. *)
Lemma taken_insert s i w cnt' cu su n : 0 <= n -> (i < length s.(g_pgframe_pool))%nat ->
  taken (mkF (<[i := w]> s.(g_pgframe_pool)) cnt' cu su) n =
  if n / 64 =? Z.of_nat i then Z.testbit w (n mod 64) else taken s n.
Proof.
  intros Hn Hi. unfold taken. cbn [g_pgframe_pool].
  assert (0 <= n / 64) by (apply Z.div_pos; lia). destruct (Z.eqb_spec (n / 64) (Z.of_nat i)) as [->|Hne].
  - rewrite Nat2Z.id, list_lookup_insert_eq; [done|lia].
  - rewrite list_lookup_insert_ne by lia. done.
Qed.

Lemma frame_div_mod w b n : 0 <= b < 64 -> (n / 64 = w /\ n mod 64 = b <-> n = 64 * w + b).
Proof. intros. split; intros; [|subst n]; Z.div_mod_to_equations; lia. Qed.

Lemma set_bits_taken s i w b cnt' cu su : falloc_wf s -> s.(g_pgframe_pool) !! i = Some w -> 0 <= b < 64 ->
  is_u32 cnt' -> 0 <= cu < PAGEFRAME_POOL_SIZE -> 0 <= su <= 63 ->
  let s' := mkF (<[i := bw_set w b]> s.(g_pgframe_pool)) cnt' cu su in
  falloc_wf s' /\ forall n, 0 <= n -> taken s' n = (n =? 64 * Z.of_nat i + b) || taken s n.
Proof.
  intros Hwf Hw Hb Hcn Hcu Hsu s'. pose proof (wf_len _ Hwf) as Hlen. pose proof (wf_words _ Hwf) as Hall.
  assert (Hi : (i < length s.(g_pgframe_pool))%nat) by by eapply lookup_lt_Some.
  assert (Hw64 : is_u64 w) by by eapply Forall_lookup_1.
  assert (Hset : bw_set w b = Z.setbit w b) by by apply bw_set_setbit.
  split.
  - split; cbn; try done; [by rewrite length_insert|].
    apply Forall_insert; [done|]. rewrite Hset. unfold Z.setbit, is_u64 in *. rewrite Z.shiftl_1_l.
    apply lor_lt; [lia|lia|]. split; [lia|]. apply Z.pow_lt_mono_r; lia.
  - intros n Hn. unfold s'. rewrite taken_insert by done.
    pose proof (frame_div_mod (Z.of_nat i) b n Hb) as Hdm.
    pose proof (Z.mod_pos_bound n 64 ltac:(lia)).
    assert (Htk : n / 64 = Z.of_nat i -> taken s n = Z.testbit w (n mod 64)).
    { intros E. unfold taken. by rewrite E, Nat2Z.id, Hw. }
    destruct (Z.eqb_spec (n / 64) (Z.of_nat i)) as [E|E].
    + rewrite Hset, Z.setbit_eqb, Htk by lia. f_equal.
      destruct (Z.eqb_spec b (n mod 64)), (Z.eqb_spec n (64 * Z.of_nat i + b)); lia.
    + rewrite (proj2 (Z.eqb_neq n _)); [done|]. intros ->. apply E. apply Hdm. done.
Qed.

Lemma user_loop_spec n : forall s, falloc_wf s -> s.(g_pgframes_user_cursor) = Z.of_nat n ->
  exists s' p, user_loop n s = Ret (s', p) /\ falloc_wf s' /\
    ((p = 0 /\ (forall k, taken s' k = taken s k) /\ s'.(g_pgframes_cnt) = s.(g_pgframes_cnt) /\
      s'.(g_pgframes_user_cursor) = 0 /\
      forall k, 64 <= k <= cursor_frame s -> taken s k = true) \/
     (exists k, p = k * PAGESIZE /\ 64 <= k <= cursor_frame s /\ taken s k = false /\
      (forall j, k < j <= cursor_frame s -> taken s j = true) /\
      (forall j, 0 <= j -> taken s' j = (j =? k) || taken s j) /\
      s'.(g_pgframes_cnt) = u32 (s.(g_pgframes_cnt) - 1) /\ cursor_frame s' = k)).
Proof.
  induction n as [|n IH]; intros s Hwf Hc; cbn [user_loop];
    pose proof (wf_cursor _ Hwf) as Hcu; pose proof (wf_sub _ Hwf) as Hsu; unfold PAGEFRAME_POOL_SIZE in *.
  - exists s, 0. split; [done|]. split; [done|]. left. do 4 (split; [done|]). unfold cursor_frame. lia.
  - destruct (lookup_lt_is_Some_2 s.(g_pgframe_pool) (S n)) as (w & Hw).
    { pose proof (wf_len _ Hwf). unfold PAGEFRAME_POOL_SIZE in *. lia. }
    rewrite Hw. cbn [deref]. rewrite bind_Ret.
    pose proof (scan_word_spec (Z.to_nat (g_pgframes_user_subcursor s + 1)) w) as Hscan.
    rewrite Z2Nat.id in Hscan by lia.
    assert (Hword : forall b, 0 <= b < 64 -> taken s (64 * Z.of_nat (S n) + b) = Z.testbit w b).
    { intros b Hb. unfold taken. pose proof (proj2 (frame_div_mod (Z.of_nat (S n)) b _ Hb) eq_refl) as [-> ->].
      by rewrite Nat2Z.id, Hw. }
    unfold cursor_frame in *. rewrite Hc in *. destruct (scan_word _ w) as [b|].
    + destruct Hscan as (Hb & Hfree & Hall).
      destruct (set_bits_taken s (S n) w b (u32 (s.(g_pgframes_cnt) - 1)) (Z.of_nat (S n)) b) as [Hwf' Ht];
        [done|done|lia|apply u32_range|unfold PAGEFRAME_POOL_SIZE; lia|lia|].
      eexists _, _. split; [reflexivity|]. split; [exact Hwf'|]. right. exists (64 * Z.of_nat (S n) + b).
      split; [rewrite u32_small; [lia|unfold is_u32, PAGESIZE; lia]|]. split; [lia|].
      split; [by rewrite Hword by lia|]. split; [|split; [exact Ht|done]].
      intros j Hj. replace j with (64 * Z.of_nat (S n) + (j - 64 * Z.of_nat (S n))) by lia.
      rewrite Hword by lia. apply Hall. lia.
    + destruct (IH (mkF s.(g_pgframe_pool) s.(g_pgframes_cnt) (Z.of_nat n) 63)) as (s' & p & Hrun & Hwf' & Hcase);
        [|done|].
      { destruct Hwf. split; cbn; try done; unfold PAGEFRAME_POOL_SIZE; lia. }
      cbn [g_pgframes_user_cursor g_pgframes_user_subcursor g_pgframes_cnt g_pgframe_pool] in Hcase.
      assert (Hrest : forall j, 64 * Z.of_nat n + 63 < j <= 64 * Z.of_nat (S n) + g_pgframes_user_subcursor s -> taken s j = true).
      { intros j Hj. replace j with (64 * Z.of_nat (S n) + (j - 64 * Z.of_nat (S n))) by lia.
        rewrite Hword by lia. apply Hscan. lia. }
      exists s', p. split; [done|]. split; [done|].
      destruct Hcase as [(? & Ht & ? & ? & Hk)|(k & ? & Hk & Hf & Hj & Ht & ? & ?)].
      * left. do 4 (split; [done|]). intros k Hk'.
        destruct (Z.le_gt_cases k (64 * Z.of_nat n + 63)); [apply Hk; lia|apply Hrest; lia].
      * right. exists k. split; [done|]. split; [lia|]. split; [done|]. split; [|done].
        intros j Hj'. destruct (Z.le_gt_cases j (64 * Z.of_nat n + 63)); [apply Hj; lia|apply Hrest; lia].
Qed.

(** ** Frames by address *)

(** Clearing a low bit of a word also clears its upper half. *)
Definition cleared_by (n k : Z) : bool :=
  (k =? n) || ((k / 64 =? n / 64) && (n mod 64 <? 32) && (32 <=? k mod 64)).

Lemma frame_addr n : 0 <= n < 2 ^ 20 ->
  n * PAGESIZE mod PAGESIZE = 0 /\ frame_word (n * PAGESIZE) = n / 64 /\ frame_bit (n * PAGESIZE) = n mod 64.
Proof.
  intros Hn. split; [by apply Z.mod_mul|]. unfold frame_bit, frame_word. rewrite Z.div_mul by done.
  assert (0 <= n / 64 < 2 ^ 14) by (Z.div_mod_to_equations; lia).
  assert (u16 (n / 64) = n / 64) as -> by (apply Z.mod_small; lia). split; [done|].
  pose proof (Z.mod_pos_bound n 64 ltac:(lia)). rewrite u64_small; [|unfold is_u64]; Z.div_mod_to_equations; lia.
Qed.

Lemma frame_lookup s n : falloc_wf s -> 0 <= n < 2 ^ 20 ->
  exists w, s.(g_pgframe_pool) !! Z.to_nat (n / 64) = Some w /\ taken s n = Z.testbit w (n mod 64).
Proof.
  intros Hwf Hn. pose proof (wf_len _ Hwf). unfold PAGEFRAME_POOL_SIZE in *.
  destruct (lookup_lt_is_Some_2 s.(g_pgframe_pool) (Z.to_nat (n / 64))) as (w & Hw).
  { assert (0 <= n / 64 < 2 ^ 14) by (Z.div_mod_to_equations; lia). lia. }
  exists w. split; [done|]. unfold taken. by rewrite Hw.
Qed.

Lemma available_spec s n : falloc_wf s -> 0 <= n < 2 ^ 20 ->
  falloc_is_frame_available (n * PAGESIZE) s = Ret (negb (taken s n)).
Proof.
  intros Hwf Hn. destruct (frame_addr n Hn) as (Hm & Hw & Hb). destruct (frame_lookup s n Hwf Hn) as (w & Hl & Ht).
  unfold falloc_is_frame_available. rewrite Hm. cbn [Z.eqb assert_]. rewrite bind_Ret, Hw, Hl, Hb. cbn [deref].
  rewrite bind_Ret, land1_testbit, Ht; [done|]. by apply Z.mod_pos_bound.
Qed.

Lemma one_at_spec s n : falloc_wf s -> 0 <= n < 2 ^ 20 ->
  exists s', falloc_one_at (n * PAGESIZE) s = Ret (s', if taken s n then - ENOMEM else 0) /\ falloc_wf s' /\
    (forall k, 0 <= k -> taken s' k = (k =? n) || taken s k) /\
    s'.(g_pgframes_cnt) = s.(g_pgframes_cnt) /\ cursor_frame s' = cursor_frame s.
Proof.
  intros Hwf Hn. destruct (frame_addr n Hn) as (Hm & Hw & Hb). destruct (frame_lookup s n Hwf Hn) as (w & Hl & Ht).
  unfold falloc_one_at. rewrite Hm. cbn [Z.eqb assert_]. rewrite bind_Ret, (available_spec s n Hwf Hn), bind_Ret, negb_involutive.
  destruct (taken s n) eqn:Et.
  - exists s. do 2 (split; [done|]). split; [|done]. intros k Hk.
    destruct (Z.eqb_spec k n) as [->|]; [by rewrite Et|done].
  - rewrite Hw, Hl, Hb. cbn [deref]. rewrite bind_Ret. eexists. split; [reflexivity|].
    destruct (set_bits_taken s (Z.to_nat (n / 64)) w (n mod 64) s.(g_pgframes_cnt) s.(g_pgframes_user_cursor)
      s.(g_pgframes_user_subcursor)) as [Hwf' Ht']; [done|done|by apply Z.mod_pos_bound|apply Hwf|apply Hwf|apply Hwf|].
    split; [exact Hwf'|]. split; [|done]. intros k Hk. unfold set_pool. rewrite Ht' by done. f_equal. f_equal.
    assert (0 <= n / 64) by (apply Z.div_pos; lia). rewrite Z2Nat.id by done. symmetry. apply Z.div_mod. lia.
Qed.

Lemma u64_of_bits x : (forall k, 64 <= k -> Z.testbit x k = false) -> is_u64 x.
Proof.
  intros Hx. replace x with (u64 x); [apply u64_range|]. unfold u64. apply Z.bits_inj'. intros k Hk.
  rewrite testbit_mod by lia. destruct (Z.ltb_spec k 64); [done|]. by rewrite Hx.
Qed.

Lemma ffree_spec s n : falloc_wf s -> 0 <= n < 2 ^ 20 ->
  exists s', ffree_one (n * PAGESIZE) s = Ret s' /\ falloc_wf s' /\
    (forall k, 0 <= k -> taken s' k = taken s k && negb (cleared_by n k)) /\
    s'.(g_pgframes_cnt) = u32 (s.(g_pgframes_cnt) + 1) /\ cursor_frame s' = cursor_frame s.
Proof.
  intros Hwf Hn. destruct (frame_addr n Hn) as (Hm & Hw & Hb). destruct (frame_lookup s n Hwf Hn) as (w & Hl & Ht).
  unfold ffree_one. rewrite Hm. cbn [Z.eqb assert_]. rewrite bind_Ret, Hw, Hl, Hb. cbn [deref]. rewrite bind_Ret.
  eexists. split; [reflexivity|]. pose proof (Z.mod_pos_bound n 64 ltac:(lia)) as Hmod.
  assert (Hlt : (Z.to_nat (n / 64) < length s.(g_pgframe_pool))%nat) by by eapply lookup_lt_Some.
  assert (Hw64 : is_u64 w) by (eapply Forall_lookup_1; [apply Hwf|done]).
  assert (Hclear : is_u64 (bw_clear w (n mod 64)) /\ forall b, 0 <= b < 64 ->
    Z.testbit (bw_clear w (n mod 64)) b = Z.testbit w b && negb ((b =? n mod 64) || ((n mod 64 <? 32) && (32 <=? b)))).
  { destruct (Z.lt_ge_cases (n mod 64) 32) as [Hlo|Hhi].
    - rewrite bw_clear_clearbit_low by (done || lia). split.
      + apply u64_of_bits. intros b Hb'. rewrite Z.clearbit_eqb, testbit_u32, (proj2 (Z.ltb_ge b 32)) by lia. done.
      + intros b Hb'. rewrite Z.clearbit_eqb, testbit_u32 by lia.
        destruct (Z.ltb_spec b 32), (Z.leb_spec 32 b), (Z.ltb_spec (n mod 64) 32); try lia;
          rewrite (Z.eqb_sym b); by destruct (n mod 64 =? b), (Z.testbit w b).
    - rewrite bw_clear_clearbit_high by (done || lia). split.
      + apply u64_of_bits. intros b Hb'. rewrite Z.clearbit_eqb, (testbit_above w 64) by (exact Hw64 || lia). done.
      + intros b Hb'. rewrite Z.clearbit_eqb by lia. rewrite (proj2 (Z.ltb_ge (n mod 64) 32)), (Z.eqb_sym b) by lia.
        cbn. by rewrite orb_false_r. }
  destruct Hclear as [Hc64 Hbits]. split; [|split; [|done]].
  - destruct Hwf. split; cbn; try done; [by rewrite length_insert|by apply Forall_insert|apply u32_range].
  - intros k Hk. unfold set_pool. rewrite taken_insert by done.
    assert (0 <= n / 64) by (apply Z.div_pos; lia). rewrite Z2Nat.id by done. unfold cleared_by.
    pose proof (Z.mod_pos_bound k 64 ltac:(lia)) as Hkm.
    pose proof (Z.div_mod k 64 ltac:(lia)). pose proof (Z.div_mod n 64 ltac:(lia)).
    destruct (Z.eqb_spec (k / 64) (n / 64)) as [E|E].
    + rewrite Hbits by done. assert (taken s k = Z.testbit w (k mod 64)) as -> by (unfold taken; by rewrite E, Hl).
      cbn [andb]. do 3 f_equal. destruct (Z.eqb_spec (k mod 64) (n mod 64)), (Z.eqb_spec k n); lia.
    + rewrite (proj2 (Z.eqb_neq k n)) by congruence. cbn. by rewrite andb_true_r.
Qed.

(** ** Registering the available memory *)

(** The frames a region's loop frees, the last one possibly partial. *)
Definition frame_of (r : MemoryRegion) (n : Z) : Prop :=
  r.(start) <= n * PAGESIZE < r.(start) + r.(size).
Definition region_frames (r : MemoryRegion) : Z := (r.(size) + (PAGESIZE - 1)) / PAGESIZE.
Definition total_frames (l : list MemoryRegion) : Z := foldr (fun r n => region_frames r + n) 0 l.

(** A page-aligned region of the 4 GiB space. *)
Definition usable (r : MemoryRegion) : Prop :=
  0 <= r.(start) /\ (PAGESIZE | r.(start)) /\ 0 < r.(size) /\ r.(start) + r.(size) <= 2 ^ 32.


Lemma available_loop_spec e fuel : forall a s, falloc_wf s -> 0 <= a -> a * PAGESIZE <= 2 ^ 32 -> e <= 2 ^ 32 ->
  e - a * PAGESIZE <= Z.of_nat fuel * PAGESIZE ->
  exists s', add_available_loop (S fuel) (a * PAGESIZE) e s = Ret s' /\ falloc_wf s' /\
    (forall k, 0 <= k -> taken s' k = false <->
       taken s k = false \/ exists n, a <= n /\ n * PAGESIZE < e /\ cleared_by n k = true) /\
    s'.(g_pgframes_cnt) = u32 (s.(g_pgframes_cnt) + Z.max 0 ((e + (PAGESIZE - 1)) / PAGESIZE - a)) /\
    cursor_frame s' = cursor_frame s.
Proof.
  assert (Hdone : forall fuel a s, falloc_wf s -> e <= a * PAGESIZE ->
    exists s', add_available_loop (S fuel) (a * PAGESIZE) e s = Ret s' /\ falloc_wf s' /\
    (forall k, 0 <= k -> taken s' k = false <->
       taken s k = false \/ exists n, a <= n /\ n * PAGESIZE < e /\ cleared_by n k = true) /\
    s'.(g_pgframes_cnt) = u32 (s.(g_pgframes_cnt) + Z.max 0 ((e + (PAGESIZE - 1)) / PAGESIZE - a)) /\
    cursor_frame s' = cursor_frame s).
  { intros f a s Hwf Hge. exists s. cbn [add_available_loop]. rewrite (proj2 (Z.ltb_ge _ _)) by done.
    do 2 (split; [done|]). split; [|split; [|done]].
    - intros k _. split; [by left|]. unfold PAGESIZE in *. intros [?|(n & ? & ? & _)]; [done|lia].
    - rewrite Z.max_l, Z.add_0_r, u32_small; [done|apply Hwf|]. unfold PAGESIZE in *.
      assert ((e + (4096 - 1)) / 4096 < a + 1); [|lia]. apply Z.div_lt_upper_bound; lia. }
  induction fuel as [|fuel IH]; intros a s Hwf Ha Ha' He Hf.
  { apply Hdone; [done|]. unfold PAGESIZE in *. lia. }
  destruct (Z.lt_ge_cases (a * PAGESIZE) e) as [Hlt|Hge]; [|by apply Hdone].
  remember (S fuel) as fl. cbn [add_available_loop]. rewrite (proj2 (Z.ltb_lt _ _)) by done. cbn [negb].
  rewrite u32_small, u64_small by (unfold is_u32, is_u64, PAGESIZE in *; lia).
  destruct (ffree_spec s a Hwf) as (s1 & -> & Hwf1 & Ht1 & Hc1 & Hcf1); [unfold PAGESIZE in *; lia|].
  rewrite bind_Ret. replace (a * PAGESIZE + PAGESIZE) with ((a + 1) * PAGESIZE) by lia. subst fl.
  destruct (IH (a + 1) s1) as (s' & Hr & Hwf' & Ht & Hc & Hcf); [done|lia|unfold PAGESIZE in *; lia|done|unfold PAGESIZE in *; lia|].
  exists s'. do 2 (split; [done|]). split; [|split; [|by rewrite Hcf]].
  - intros k Hk. rewrite (Ht k Hk), (Ht1 k Hk), andb_false_iff, negb_false_iff. split.
    + intros [[?|?]|(n & ? & ? & ?)]; [by left| |]; right; [exists a|exists n]; repeat split; done || lia.
    + intros [?|(n & Hn & ? & ?)]; [by left; left|]. destruct (decide (n = a)) as [->|]; [by left; right|].
      right. exists n. repeat split; done || lia.
  - rewrite Hc, Hc1. unfold u32. rewrite Zplus_mod_idemp_l. f_equal. unfold PAGESIZE in *.
    assert (a + 1 <= (e + (4096 - 1)) / 4096) by (apply Z.div_le_lower_bound; lia). lia.
Qed.

Lemma add_available_spec r s : falloc_wf s -> usable r ->
  exists s', pageframe_add_available r s = Ret s' /\ falloc_wf s' /\
    (forall k, 0 <= k -> taken s' k = false <->
       taken s k = false \/ exists n, frame_of r n /\ cleared_by n k = true) /\
    s'.(g_pgframes_cnt) = u32 (s.(g_pgframes_cnt) + region_frames r) /\ cursor_frame s' = cursor_frame s.
Proof.
  intros Hwf (H0 & (a & Ha) & Hs & He). unfold pageframe_add_available. rewrite reg_end_small by (repeat split; lia).
  rewrite Ha. unfold PAGESIZE in *. assert (0 <= r.(size) / 4096) by (apply Z.div_pos; lia).
  destruct (available_loop_spec (a * PAGESIZE + r.(size)) (S (Z.to_nat (r.(size) / 4096))) a s)
    as (s' & Hr & Hwf' & Ht & Hc & Hcf); unfold PAGESIZE in *; [done|lia|lia|lia|Z.div_mod_to_equations; lia|].
  exists s'. do 2 (split; [done|]). split; [|split; [|done]].
  - intros k Hk. rewrite (Ht k Hk). unfold frame_of, PAGESIZE. rewrite Ha.
    split; (intros [?|(n & Hn)]; [by left|right; exists n]); repeat split; try apply Hn; lia.
  - rewrite Hc. unfold region_frames, PAGESIZE. do 2 f_equal. replace (a * 4096 + size r + (4096 - 1)) with (size r + (4096 - 1) + a * 4096) by lia.
    rewrite Z.div_add by done. assert (0 <= (size r + (4096 - 1)) / 4096) by (apply Z.div_pos; lia). lia.
Qed.

Lemma add_regions_spec l : forall s, falloc_wf s -> Forall usable l ->
  exists s', add_regions l s = Ret s' /\ falloc_wf s' /\
    (forall k, 0 <= k -> taken s' k = false <->
       taken s k = false \/ exists r n, r ∈ l /\ frame_of r n /\ cleared_by n k = true) /\
    s'.(g_pgframes_cnt) = u32 (s.(g_pgframes_cnt) + total_frames l) /\ cursor_frame s' = cursor_frame s.
Proof.
  induction l as [|r l IH]; intros s Hwf Hall; cbn [add_regions].
  - exists s. do 2 (split; [done|]). split; [|split; [|done]].
    + intros k _. split; [by left|]. intros [?|(r & n & Hr & _)]; [done|]. by apply not_elem_of_nil in Hr.
    + cbn. rewrite Z.add_0_r, u32_small; [done|apply Hwf].
  - apply Forall_cons in Hall as [Hr Hall].
    destruct (add_available_spec r s Hwf Hr) as (s1 & -> & Hwf1 & Ht1 & Hc1 & Hcf1). rewrite bind_Ret.
    destruct (IH s1 Hwf1 Hall) as (s' & Hrun & Hwf' & Ht & Hc & Hcf).
    exists s'. do 2 (split; [done|]). split; [|split; [|by rewrite Hcf]].
    + intros k Hk. rewrite (Ht k Hk), (Ht1 k Hk). split.
      * intros [[?|(n & ?)]|(r' & n & ? & ?)]; [by left| |]; right; [exists r, n|exists r', n]; (split; [|done]).
        { by left. } { by right. }
      * intros [?|(r' & n & [->|Hin]%elem_of_cons & Hn)]; [by left; left|left; right; by exists n|right; by exists r', n].
    + rewrite Hc, Hc1. unfold u32. rewrite Zplus_mod_idemp_l. f_equal. cbn. unfold total_frames. lia.
Qed.

(** ** Properties *)

(** [falloc_one_user] returns the highest free frame at or below the cursor
    (from frame 64 on), marks exactly that frame and counts it out, and leaves
    the cursor on it; it returns 0 exactly when every such frame is taken, and
    then changes no frame.  The cursor never rises, so a frame freed above it
    is never handed out again, and after one failure every call fails. *)
Theorem falloc_one_user_correct s : falloc_wf s ->
  (exists s' p, falloc_one_user s = Ret (s', p) /\ falloc_wf s' /\
    ((p = 0 /\ (forall k, taken s' k = taken s k) /\ s'.(g_pgframes_cnt) = s.(g_pgframes_cnt) /\
      s'.(g_pgframes_user_cursor) = 0 /\
      forall k, 64 <= k <= cursor_frame s -> taken s k = true) \/
     (exists k, p = k * PAGESIZE /\ 64 <= k <= cursor_frame s /\ taken s k = false /\
      (forall j, k < j <= cursor_frame s -> taken s j = true) /\
      (forall j, 0 <= j -> taken s' j = (j =? k) || taken s j) /\
      s'.(g_pgframes_cnt) = u32 (s.(g_pgframes_cnt) - 1) /\ cursor_frame s' = k))) /\
  (s.(g_pgframes_user_cursor) = 0 -> falloc_one_user s = Ret (s, 0)).
Proof.
  intros Hwf. pose proof (wf_cursor _ Hwf). split.
  - apply user_loop_spec; [done|lia].
  - intros E. unfold falloc_one_user. by rewrite E.
Qed.

(** for the frame number [n] of a 32-bit page-aligned address,
    [falloc_is_frame_available] tells whether it is free; [falloc_one_at]
    returns [-ENOMEM] if it is taken and marks exactly it otherwise, without
    counting it out; [ffree_one] frees it, counting it in even if it was free,
    and when its bit is in the low half of its 64-bit word it also frees the
    32 frames of the high half.  An unaligned address stops the kernel. *)
Theorem falloc_by_address_correct s n base : falloc_wf s -> 0 <= n < 2 ^ 20 ->
  falloc_is_frame_available (n * PAGESIZE) s = Ret (negb (taken s n)) /\
  (exists s', falloc_one_at (n * PAGESIZE) s = Ret (s', if taken s n then - ENOMEM else 0) /\ falloc_wf s' /\
    (forall k, 0 <= k -> taken s' k = (k =? n) || taken s k) /\
    falloc_get_free_frames_count s' = falloc_get_free_frames_count s /\ cursor_frame s' = cursor_frame s) /\
  (exists s', ffree_one (n * PAGESIZE) s = Ret s' /\ falloc_wf s' /\
    (forall k, 0 <= k -> taken s' k = taken s k && negb (cleared_by n k)) /\
    falloc_get_free_frames_count s' = u32 (falloc_get_free_frames_count s + 1) /\
    cursor_frame s' = cursor_frame s) /\
  (base mod PAGESIZE <> 0 -> falloc_is_frame_available base s = Panic /\ falloc_one_at base s = Panic /\
     ffree_one base s = Panic).
Proof.
  intros Hwf Hn. split; [by apply available_spec|]. split; [by apply one_at_spec|]. split; [by apply ffree_spec|].
  intros Hb. unfold falloc_is_frame_available, falloc_one_at, ffree_one. by rewrite (proj2 (Z.eqb_neq _ 0) Hb).
Qed.

Lemma falloc_filled s : is_u32 s.(g_pgframes_cnt) -> 0 <= s.(g_pgframes_user_cursor) < PAGEFRAME_POOL_SIZE ->
  0 <= s.(g_pgframes_user_subcursor) <= 63 ->
  let s' := set_pool s (replicate (Z.to_nat PAGEFRAME_POOL_SIZE) (2 ^ 64 - 1)) s.(g_pgframes_cnt) in
  falloc_wf s' /\ forall k, taken s' k = true.
Proof.
  intros Hc Hcu Hsu. cbv zeta. split.
  - split; cbn [set_pool g_pgframe_pool g_pgframes_cnt g_pgframes_user_cursor g_pgframes_user_subcursor]; [| |done..].
    + rewrite length_replicate. unfold PAGEFRAME_POOL_SIZE. lia.
    + apply Forall_replicate. unfold is_u64. lia.
  - intros k. unfold taken. cbn [set_pool g_pgframe_pool].
    destruct (replicate (Z.to_nat PAGEFRAME_POOL_SIZE) (2 ^ 64 - 1) !! Z.to_nat (k / 64)) as [w|] eqn:E; [|done].
    apply lookup_replicate in E as [-> _]. pose proof (Z.mod_pos_bound k 64 ltac:(lia)).
    change (2 ^ 64 - 1) with (Z.ones 64). apply Z.ones_spec_low. lia.
Qed.

(** from page-aligned regions of the 4 GiB space, [falloc_init] makes every
    frame taken but those of the regions: each frame that starts inside one,
    even one that runs past its end, and, when a region has a frame in the low
    half of a word, the 32 frames of that word's high half.  The count is the
    number of frames freed; with none, the kernel stops. *)
Theorem falloc_init_correct m s : is_u32 s.(g_pgframes_cnt) ->
  0 <= s.(g_pgframes_user_cursor) < PAGEFRAME_POOL_SIZE -> 0 <= s.(g_pgframes_user_subcursor) <= 63 ->
  Forall usable (active m) ->
  let n := u32 (s.(g_pgframes_cnt) + total_frames (active m)) in
  if n =? 0 then falloc_init m s = Panic
  else exists s', falloc_init m s = Ret (s', 0) /\ falloc_wf s' /\ falloc_get_free_frames_count s' = n /\
    forall k, 0 <= k -> taken s' k = false <->
      exists r f, r ∈ active m /\ frame_of r f /\ cleared_by f k = true.
Proof.
  intros Hc Hcu Hsu Hall n. destruct (falloc_filled s Hc Hcu Hsu) as [Hwf Hfull].
  destruct (add_regions_spec (active m) _ Hwf Hall) as (s' & Hrun & Hwf' & Ht & Hcnt & _).
  unfold falloc_init. cbv zeta. rewrite Hrun, bind_Ret.
  assert (g_pgframes_cnt s' = n) as -> by done. destruct (n =? 0); [done|].
  exists s'. do 3 (split; [done|]). intros k Hk. rewrite (Ht k Hk), Hfull. split; [|by right].
  by intros [?|?].
Qed.

(** One 128 MiB region from 1 MiB on. *)
Definition demo_frames : MemoryRegionMap := mkMap 0xC0300000 [mkRegion 0x100000 0x7F00000 3] 1 1.

Lemma demo_frames_usable : Forall usable (active demo_frames).
Proof. constructor; [|constructor]. split; [cbn; lia|]. split; [by exists 256|]. cbn; lia. Qed.

Lemma demo_falloc : exists s, falloc_wf s /\ taken s 300 = false /\ falloc_init demo_frames falloc_boot = Ret (s, 0).
Proof.
  destruct (add_regions_spec (active demo_frames)
    (set_pool falloc_boot (replicate (Z.to_nat PAGEFRAME_POOL_SIZE) (2 ^ 64 - 1)) 0)) as (s & Hrun & Hwf & Ht & Hc & _).
  { apply (falloc_filled falloc_boot); cbn; unfold is_u32, PAGEFRAME_POOL_SIZE; lia. }
  { exact demo_frames_usable. }
  exists s. split; [done|]. split.
  - apply Ht; [lia|]. right. exists (mkRegion 0x100000 0x7F00000 3), 300. split; [by left|]. split; [|done].
    unfold frame_of, PAGESIZE. cbn. lia.
  - unfold falloc_init. cbv zeta. change (g_pgframes_cnt falloc_boot) with 0. rewrite Hrun, bind_Ret, Hc. done.
Qed.

Lemma falloc_one_user_correct_witness : exists s s' p, taken s 300 = false /\ falloc_one_user s = Ret (s', p).
Proof.
  destruct demo_falloc as (s & Hwf & Ht & _).
  destruct (falloc_one_user_correct s Hwf) as [(s' & p & Hr & _) _].
  exists s, s', p. exact (conj Ht Hr).
Defined.

Lemma falloc_by_address_correct_witness :
  exists s s', taken s 300 = false /\ falloc_one_at (300 * PAGESIZE) s = Ret (s', 0).
Proof.
  destruct demo_falloc as (s & Hwf & Ht & _).
  destruct (falloc_by_address_correct s 300 1 Hwf) as (_ & (s' & Hr & _) & _); [lia|].
  rewrite Ht in Hr. exists s, s'. exact (conj Ht Hr).
Defined.

Lemma falloc_init_correct_witness :
  exists s, falloc_init demo_frames falloc_boot = Ret (s, 0) /\ falloc_get_free_frames_count s = 32512.
Proof.
  destruct (falloc_init_correct demo_frames falloc_boot) as (s & Hr & _ & Hc & _);
    [cbn; unfold is_u32; lia|cbn; unfold PAGEFRAME_POOL_SIZE; lia|cbn; lia|exact demo_frames_usable|].
  exists s. exact (conj Hr Hc).
Defined.
