(* ===== verification/Paging.v ===== *)
(** * Virtual memory

    [kernel/mem/paging.c], the tracked pages of a paging structure;
    [arch/x86/mem/{pdpt,pd,pt,mm}.c], the three levels of x86 PAE tables;
    [kernel/mem/mm.c], their use through frames. *)
From Stdlib Require Import Sorted.
From S2P Require Import Prelude Alloc Bitwise Gallocator Kmalloc MRegMap Falloc.

(** ** Data *)

Definition EINVAL : Z := 22.
Definition ENOENT : Z := 2.
Definition ENOMEM : Z := 12.
Definition GIB : Z := 2 ^ 30.
Definition PAGESIZE : Z := 4096.
Definition PAGE_X : Z := 1.
Definition PAGE_W : Z := 2.
Definition PAGE_USER : Z := 8.
Definition PAGE_PRESENT : Z := 16.
Definition sizeof_Page : Z := 4.
Definition sizeof_table : Z := 4096.
Definition sizeof_pdpt : Z := 32.

(** The bit-fields the code reads or writes; the others stay as [memset] left
    them. *)
Record pdpte_t := mkPdpte { pdpte_present : bool; pd_base : Z }.
Record pde_t := mkPde {
  pde_present : bool; pde_writable : bool; pde_user_access : bool; table_base : Z; pde_exec_disable : bool }.
Record pte_t := mkPte {
  pte_present : bool; pte_writable : bool; pte_user_access : bool; frame_base : Z; pte_exec_disable : bool }.

Definition zero_pdpte : pdpte_t := mkPdpte false 0.
Definition zero_pde : pde_t := mkPde false false false 0 false.
Definition zero_pte : pte_t := mkPte false false false 0 false.

(** [pd_init], [pt_init] and [pdpt_init]: zeroed tables. *)
Definition pd_init : list pde_t := replicate 512 zero_pde.
Definition pt_init : list pte_t := replicate 512 zero_pte.
Definition pdpt_init : list pdpte_t := replicate 4 zero_pdpte.

Inductive table : Type :=
| Pdpt (entries : list pdpte_t)
| Pd (entries : list pde_t)
| Pt (entries : list pte_t).

(** [allocated_pages] is the block; [pages] its first [allocated_pages_size]
    elements; [data] the address of the top-level table. *)
Record PagingStruct := mkPS {
  allocated_pages : Z; pages : list Z; allocated_pages_capacity : Z; data : Z }.
Definition allocated_pages_size (ps : PagingStruct) : Z := Z.of_nat (length ps.(pages)).

(** ** Indices and entries *)

Definition pdpte_idx (vaddr : Z) : nat := Z.to_nat (vaddr / GIB).
Definition pde_idx (vaddr : Z) : nat :=
  let off := u32 (vaddr / (PAGESIZE * 512 * 512) * 512) in
  Z.to_nat (u32 (vaddr / (PAGESIZE * 512) - off)).
Definition pte_idx (vaddr : Z) : nat :=
  let off := u32 (vaddr / (PAGESIZE * 512) * 512) in
  Z.to_nat (u32 (vaddr / PAGESIZE - off)).

Definition pdpte_pd_paddr (e : pdpte_t) : Z := u32 (Z.shiftl e.(pd_base) 12).
Definition pde_pt_paddr (e : pde_t) : Z := u32 (Z.shiftl e.(table_base) 12).
Definition pte_frame_paddr (e : pte_t) : Z := u32 (Z.shiftl e.(frame_base) 12).

Definition pdpte_set_pd_paddr (paddr : Z) (e : pdpte_t) : pdpte_t :=
  mkPdpte e.(pdpte_present) (Z.shiftr paddr 12).
Definition pde_set_pt_paddr (paddr : Z) (e : pde_t) : pde_t :=
  mkPde e.(pde_present) e.(pde_writable) e.(pde_user_access) (Z.shiftr paddr 12) e.(pde_exec_disable).
Definition pte_set_frame_paddr (paddr : Z) (e : pte_t) : pte_t :=
  mkPte e.(pte_present) e.(pte_writable) e.(pte_user_access) (Z.shiftr paddr 12) e.(pte_exec_disable).

Definition pdpte_set_present (e : pdpte_t) : pdpte_t := mkPdpte true e.(pd_base).
Definition pde_set_present (e : pde_t) : pde_t :=
  mkPde true e.(pde_writable) e.(pde_user_access) e.(table_base) e.(pde_exec_disable).
Definition pte_set_present (b : bool) (e : pte_t) : pte_t :=
  mkPte b e.(pte_writable) e.(pte_user_access) e.(frame_base) e.(pte_exec_disable).

Definition has (flags bit : Z) : bool := negb (Z.land flags bit =? 0).

Definition set_pde_flags (flags : Z) (e : pde_t) : pde_t :=
  mkPde e.(pde_present) (if negb e.(pde_writable) && has flags PAGE_W then true else e.(pde_writable))
    (has flags PAGE_USER) e.(table_base)
    (if e.(pde_exec_disable) && has flags PAGE_X then false else e.(pde_exec_disable)).
Definition set_pte_flags (flags : Z) (e : pte_t) : pte_t :=
  mkPte e.(pte_present) (has flags PAGE_W) (has flags PAGE_USER) e.(frame_base) (negb (has flags PAGE_X)).
(** [mm_set_pte_and_pde_flags], on the two entries. *)
Definition mm_set_pte_and_pde_flags (pte : pte_t) (pde : pde_t) (flags : Z) : pte_t * pde_t :=
  (set_pte_flags flags pte, set_pde_flags flags pde).

Section mm.
(** [koff] is [kimg_map_offset()], which the linker script fixes. *)
Context {H : Type} `{!Allocator H} `{!AlignedAllocator H} (koff : Z).

(** The kernel's blocks, the frames, and the tables in memory by address. *)
Record mstate := mkM { heap : H; frames : fstate; tables : gmap Z table }.
Definition set_heap (s : mstate) (h : H) : mstate := mkM h s.(frames) s.(tables).
Definition set_frames (s : mstate) (f : fstate) : mstate := mkM s.(heap) f s.(tables).
Definition set_table (s : mstate) (a : Z) (t : table) : mstate := mkM s.(heap) s.(frames) (<[a := t]> s.(tables)).

Definition mm_kpa2va (pa : Z) : Z := u32 (pa + koff).
Definition mm_kva2pa (va : Z) : Z := u32 (va - koff).

Definition get_pdpt (s : mstate) (a : Z) : outcome (list pdpte_t) :=
  match s.(tables) !! a with Some (Pdpt l) => Ret l | _ => Undef end.
Definition get_pd (s : mstate) (a : Z) : outcome (list pde_t) :=
  match s.(tables) !! a with Some (Pd l) => Ret l | _ => Undef end.
Definition get_pt (s : mstate) (a : Z) : outcome (list pte_t) :=
  match s.(tables) !! a with Some (Pt l) => Ret l | _ => Undef end.

(** [NULL] is 0. *)
Definition pdpte_pd_vaddr (e : pdpte_t) : Z :=
  if pdpte_pd_paddr e =? 0 then 0 else mm_kpa2va (pdpte_pd_paddr e).
Definition pde_pt_vaddr (e : pde_t) : Z :=
  if pde_pt_paddr e =? 0 then 0 else mm_kpa2va (pde_pt_paddr e).
Definition pdpte_set_pd_vaddr (vaddr : Z) (e : pdpte_t) : pdpte_t := pdpte_set_pd_paddr (mm_kva2pa vaddr) e.
Definition pde_set_pt_vaddr (vaddr : Z) (e : pde_t) : pde_t := pde_set_pt_paddr (mm_kva2pa vaddr) e.

Definition pd_from_vaddr_abs (vaddr pdpt : Z) (s : mstate) : outcome Z :=
  l ← get_pdpt s pdpt; e ← deref (l !! pdpte_idx vaddr); Ret (pdpte_pd_vaddr e).
(** A pointer to an entry: the table's address and the index. *)
Definition pde_from_vaddr_abs (vaddr pdpt : Z) (s : mstate) : outcome (option (Z * nat)) :=
  pd ← pd_from_vaddr_abs vaddr pdpt s; Ret (if pd =? 0 then None else Some (pd, pde_idx vaddr)).
Definition pt_from_vaddr_abs (vaddr pdpt : Z) (s : mstate) : outcome Z :=
  p ← pde_from_vaddr_abs vaddr pdpt s;
  match p with
  | None => Ret 0
  | Some (pd, i) => l ← get_pd s pd; e ← deref (l !! i); Ret (pde_pt_vaddr e)
  end.
Definition pte_from_vaddr_abs (vaddr pdpt : Z) (s : mstate) : outcome (option (Z * nat)) :=
  pt ← pt_from_vaddr_abs vaddr pdpt s; Ret (if pt =? 0 then None else Some (pt, pte_idx vaddr)).

Definition mm_va2pa_arch (vaddr : Z) (ps : PagingStruct) (s : mstate) : outcome Z :=
  p ← pte_from_vaddr_abs vaddr ps.(data) s;
  match p with
  | None => Ret 0
  | Some (pt, i) => l ← get_pt s pt; e ← deref (l !! i); Ret (u32 (pte_frame_paddr e + vaddr mod PAGESIZE))
  end.

(** ** Mapping a page *)

(** The page directory of [vaddr], allocated when absent (0 when it cannot). *)
Definition map_get_pd (vaddr : Z) (ps : PagingStruct) (s : mstate) : outcome (mstate * Z) :=
  l ← get_pdpt s ps.(data);
  e ← deref (l !! pdpte_idx vaddr);
  if pdpte_pd_vaddr e =? 0 then
    r ← kmalloc_aligned_ sizeof_table PAGESIZE s.(heap);
    let s := set_heap s r.1 in
    if r.2 =? 0 then Ret (s, 0)
    else
      let s := set_table s r.2 (Pd pd_init) in
      Ret (set_table s ps.(data) (Pdpt (<[pdpte_idx vaddr := pdpte_set_pd_vaddr r.2 e]> l)), r.2)
  else Ret (s, pdpte_pd_vaddr e).

Definition map_get_pt (vaddr pd : Z) (s : mstate) : outcome (mstate * Z) :=
  l ← get_pd s pd;
  e ← deref (l !! pde_idx vaddr);
  if pde_pt_vaddr e =? 0 then
    r ← kmalloc_aligned_ sizeof_table PAGESIZE s.(heap);
    let s := set_heap s r.1 in
    if r.2 =? 0 then Ret (s, 0)
    else
      let s := set_table s r.2 (Pt pt_init) in
      Ret (set_table s pd (Pd (<[pde_idx vaddr := pde_set_pt_vaddr r.2 e]> l)), r.2)
  else Ret (s, pde_pt_vaddr e).

(** The entries of the three levels, then the flags. *)
Definition map_set_entries (vaddr paddr flags pdpt pd pt : Z) (s : mstate) : outcome mstate :=
  l3 ← get_pdpt s pdpt; e3 ← deref (l3 !! pdpte_idx vaddr);
  let s := set_table s pdpt (Pdpt (<[pdpte_idx vaddr := pdpte_set_present e3]> l3)) in
  l2 ← get_pd s pd; e2 ← deref (l2 !! pde_idx vaddr);
  l1 ← get_pt s pt; e1 ← deref (l1 !! pte_idx vaddr);
  let r := mm_set_pte_and_pde_flags (pte_set_present true (pte_set_frame_paddr paddr e1)) (pde_set_present e2) flags in
  let s := set_table s pd (Pd (<[pde_idx vaddr := r.2]> l2)) in
  Ret (set_table s pt (Pt (<[pte_idx vaddr := r.1]> l1))).

Definition mm_map_page_arch (vaddr paddr flags : Z) (ps : PagingStruct) (s : mstate) : outcome (mstate * Z) :=
  _ ← assert_ (negb (ps.(data) =? 0));
  r ← map_get_pd vaddr ps s;
  if r.2 =? 0 then Ret (r.1, - ENOMEM)
  else
    r' ← map_get_pt vaddr r.2 r.1;
    if r'.2 =? 0 then Ret (r'.1, - ENOMEM)
    else s ← map_set_entries vaddr paddr flags ps.(data) r.2 r'.2 r'.1; Ret (s, 0).

Definition mm_map_page (vaddr paddr flags : Z) (ps : PagingStruct) (s : mstate) : outcome (mstate * Z) :=
  _ ← assert_ (vaddr mod PAGESIZE =? 0);
  _ ← assert_ (paddr mod PAGESIZE =? 0);
  mm_map_page_arch vaddr paddr flags ps s.

(** ** Changing flags *)

Definition mm_set_page_flags_arch (vaddr flags : Z) (ps : PagingStruct) (s : mstate) : outcome (mstate * Z) :=
  _ ← assert_ (vaddr mod PAGESIZE =? 0);
  _ ← assert_ (negb (ps.(data) =? 0));
  l3 ← get_pdpt s ps.(data); e3 ← deref (l3 !! pdpte_idx vaddr);
  let pd := pdpte_pd_vaddr e3 in
  if pd =? 0 then Ret (s, - EINVAL)
  else
    l2 ← get_pd s pd; e2 ← deref (l2 !! pde_idx vaddr);
    let pt := pde_pt_vaddr e2 in
    if pt =? 0 then Ret (s, - EINVAL)
    else
      l1 ← get_pt s pt; e1 ← deref (l1 !! pte_idx vaddr);
      if pte_frame_paddr e1 =? 0 then Ret (s, - EINVAL)
      else
        let r := mm_set_pte_and_pde_flags e1 e2 flags in
        let s := set_table s pd (Pd (<[pde_idx vaddr := r.2]> l2)) in
        Ret (set_table s pt (Pt (<[pte_idx vaddr := r.1]> l1)), 0).

Definition rm_pte_flags (flags : Z) (e : pte_t) : pte_t :=
  mkPte (negb (has flags PAGE_PRESENT)) (negb (has flags PAGE_W)) (negb (has flags PAGE_USER))
    e.(frame_base) (has flags PAGE_X).
Definition mm_rm_page_flags_arch (vaddr flags : Z) (ps : PagingStruct) (s : mstate) : outcome (mstate * Z) :=
  _ ← assert_ (vaddr mod PAGESIZE =? 0);
  _ ← assert_ (negb (ps.(data) =? 0));
  p ← pte_from_vaddr_abs vaddr ps.(data) s;
  match p with
  | None => Ret (s, - ENOENT)
  | Some (pt, i) =>
      l ← get_pt s pt; e ← deref (l !! i);
      Ret (set_table s pt (Pt (<[i := rm_pte_flags flags e]> l)), 0)
  end.

(** ** Tracked pages *)

Definition pagingstruct_enlarge_allocated_pages (ps : PagingStruct) (s : mstate) : outcome (mstate * PagingStruct * Z) :=
  let newcap := u32 (ps.(allocated_pages_capacity) + 20) in
  r ← krealloc_ ps.(allocated_pages) (u32 (newcap * sizeof_Page)) s.(heap);
  if r.2 =? 0 then Ret (set_heap s r.1, ps, - ENOMEM)
  else Ret (set_heap s r.1, mkPS r.2 ps.(pages) newcap ps.(data), 0).

Definition pagingstruct_init (s : mstate) : outcome (mstate * PagingStruct * Z) :=
  pagingstruct_enlarge_allocated_pages (mkPS 0 [] 0 0) s.

Definition pagingstruct_destroy (ps : PagingStruct) (s : mstate) : outcome (mstate * PagingStruct) :=
  if negb (ps.(allocated_pages) =? 0) then
    h ← kfree_ ps.(allocated_pages) s.(heap); Ret (set_heap s h, mkPS 0 [] 0 ps.(data))
  else Ret (s, mkPS 0 [] 0 ps.(data)).

(** Where a page goes in the ascending order; the same page twice stops the
    kernel. *)
Fixpoint track_index (vaddr : Z) (l : list Z) : outcome nat :=
  match l with
  | [] => Ret O
  | x :: l => if x =? vaddr then Panic else if x >? vaddr then Ret O else i ← track_index vaddr l; Ret (S i)
  end.

(** The pages from the index on move up by one. *)
Definition pagingstruct_track_page (vaddr : Z) (ps : PagingStruct) (s : mstate) : outcome (mstate * PagingStruct * Z) :=
  r ← (if allocated_pages_size ps =? ps.(allocated_pages_capacity)
       then pagingstruct_enlarge_allocated_pages ps s else Ret (s, ps, 0));
  let '(s, ps, st) := r : mstate * PagingStruct * Z in
  if st <? 0 then Ret (s, ps, st)
  else
    i ← track_index vaddr ps.(pages);
    Ret (s, mkPS ps.(allocated_pages) (take i ps.(pages) ++ vaddr :: drop i ps.(pages))
                 ps.(allocated_pages_capacity) ps.(data), 0).

(** ** Paging structures *)

Definition mm_init_paging_struct_arch (ps : PagingStruct) (s : mstate) : outcome (mstate * PagingStruct * Z) :=
  r ← kmalloc_aligned_ sizeof_pdpt PAGESIZE s.(heap);
  let s := set_heap s r.1 in
  let ps := mkPS ps.(allocated_pages) ps.(pages) ps.(allocated_pages_capacity) r.2 in
  if r.2 =? 0 then r ← pagingstruct_destroy ps s; Ret (r.1 : mstate, r.2 : PagingStruct, - ENOMEM)
  else Ret (set_table s r.2 (Pdpt pdpt_init), ps, 0).

Definition mm_init_paging_struct (s : mstate) : outcome (mstate * PagingStruct * Z) :=
  r ← pagingstruct_init s;
  let '(s, ps, st) := r : mstate * PagingStruct * Z in
  if st <? 0 then Ret (s, ps, st)
  else
    r ← mm_init_paging_struct_arch ps s;
    let '(s, ps, st) := r : mstate * PagingStruct * Z in
    if st <? 0 then r ← pagingstruct_destroy ps s; Ret (r.1 : mstate, r.2 : PagingStruct, st)
    else Ret (s, ps, 0).

Definition mm_map_kernel_into_paging_struct (kimg_vaddr : Z) (kps ps : PagingStruct) (s : mstate) : outcome (mstate * Z) :=
  _ ← assert_ (negb (ps.(data) =? 0));
  kl ← get_pdpt s kps.(data); ke ← deref (kl !! pdpte_idx kimg_vaddr);
  l ← get_pdpt s ps.(data); _ ← deref (l !! pdpte_idx kimg_vaddr);
  Ret (set_table s ps.(data) (Pdpt (<[pdpte_idx kimg_vaddr := ke]> l)), 0).

Definition mm_new_user_page (vaddr flags : Z) (ps : PagingStruct) (s : mstate) : outcome (mstate * PagingStruct * Z) :=
  _ ← assert_ (vaddr mod PAGESIZE =? 0);
  r ← falloc_one_user s.(frames);
  let s := set_frames s r.1 in
  if r.2 =? 0 then Ret (s, ps, - ENOMEM)
  else
    let paddr := r.2 in
    r ← mm_map_page_arch vaddr paddr (Z.lor flags PAGE_USER) ps s;
    if r.2 <? 0 then f ← ffree_one paddr r.1.(frames); Ret (set_frames r.1 f, ps, r.2)
    else
      r ← pagingstruct_track_page vaddr ps r.1;
      if r.2 <? 0 then Panic else Ret r.

(** *** Destroying: the frames, then the page tables, then the directories *)

(** The entry is cleared before its frame is read back: the frame freed is
    always frame 0. *)
Definition destroy_page (pdpt vaddr : Z) (s : mstate) : outcome mstate :=
  p ← pte_from_vaddr_abs vaddr pdpt s;
  pi ← deref p;
  l ← get_pt s pi.1; e ← deref (l !! pi.2);
  let e := pte_set_present false (pte_set_frame_paddr 0 e) in
  let s := set_table s pi.1 (Pt (<[pi.2 := e]> l)) in
  f ← ffree_one (pte_frame_paddr e) s.(frames); Ret (set_frames s f).
Fixpoint destroy_pages (pdpt : Z) (l : list Z) (s : mstate) : outcome mstate :=
  match l with
  | [] => Ret s
  | v :: l => s ← destroy_page pdpt v s; destroy_pages pdpt l s
  end.
Definition free_table (a : Z) (s : mstate) : outcome mstate :=
  h ← kfree_ a s.(heap); Ret (mkM h s.(frames) (delete a s.(tables))).
Fixpoint destroy_pts (pdpt : Z) (l : list Z) (pt : Z) (s : mstate) : outcome mstate :=
  match l with
  | [] => Ret s
  | v :: l => pttmp ← pt_from_vaddr_abs v pdpt s;
      if pt =? pttmp then destroy_pts pdpt l pt s
      else s ← free_table pttmp s; destroy_pts pdpt l pttmp s
  end.
Fixpoint destroy_pds (pdpt : Z) (l : list Z) (pd : Z) (s : mstate) : outcome mstate :=
  match l with
  | [] => Ret s
  | v :: l => pdtmp ← pd_from_vaddr_abs v pdpt s;
      if pd =? pdtmp then destroy_pds pdpt l pd s
      else s ← free_table pdtmp s; destroy_pds pdpt l pdtmp s
  end.
Definition mm_destroy_paging_struct (ps : PagingStruct) (s : mstate) : outcome (mstate * PagingStruct) :=
  s ← destroy_pages ps.(data) ps.(pages) s;
  s ← destroy_pts ps.(data) ps.(pages) 0 s;
  s ← destroy_pds ps.(data) ps.(pages) 0 s;
  r ← (if negb (ps.(data) =? 0) then
         s ← free_table ps.(data) s;
         Ret (s, mkPS ps.(allocated_pages) ps.(pages) ps.(allocated_pages_capacity) 0)
       else Ret (s, ps));
  pagingstruct_destroy r.2 r.1.
End mm.
Arguments mstate : clear implicits.

(** ** Arithmetic of the indices and bases *)

Lemma idx_eq va : is_u32 va ->
  Z.of_nat (pdpte_idx va) = va / 2 ^ 30 /\ Z.of_nat (pde_idx va) = va / 2 ^ 21 mod 512 /\
  Z.of_nat (pte_idx va) = va / 2 ^ 12 mod 512.
Proof.
  intros Hva. unfold is_u32, pdpte_idx, pde_idx, pte_idx, GIB, PAGESIZE, u32 in *. cbv zeta.
  change (4096 * 512 * 512) with (2 ^ 30). change (4096 * 512) with (2 ^ 21). change 4096 with (2 ^ 12).
  assert (0 <= va / 2 ^ 30 < 4) by (split; [apply Z.div_pos|apply Z.div_lt_upper_bound]; lia).
  assert (va / 2 ^ 30 = va / 2 ^ 21 / 512) as E1 by (rewrite Z.div_div by lia; done).
  assert (va / 2 ^ 21 = va / 2 ^ 12 / 512) as E2 by (rewrite Z.div_div by lia; done).
  pose proof (Z.div_mod (va / 2 ^ 21) 512 ltac:(lia)). pose proof (Z.mod_pos_bound (va / 2 ^ 21) 512 ltac:(lia)).
  pose proof (Z.div_mod (va / 2 ^ 12) 512 ltac:(lia)). pose proof (Z.mod_pos_bound (va / 2 ^ 12) 512 ltac:(lia)).
  assert (0 <= va / 2 ^ 21 < 2 ^ 11) by (split; [apply Z.div_pos|apply Z.div_lt_upper_bound]; lia).
  assert (0 <= va / 2 ^ 12 < 2 ^ 20) by (split; [apply Z.div_pos|apply Z.div_lt_upper_bound]; lia).
  repeat split.
  - rewrite Z2Nat.id by lia. done.
  - rewrite (Z.mod_small (_ * 512)), (Z.mod_small (_ - _)) by lia. lia.
  - rewrite (Z.mod_small (_ * 512)), (Z.mod_small (_ - _)) by lia. lia.
Qed.

Lemma idx_lt va : is_u32 va -> (pdpte_idx va < 4)%nat /\ (pde_idx va < 512)%nat /\ (pte_idx va < 512)%nat.
Proof.
  intros Hva. destruct (idx_eq va Hva) as (E1 & E2 & E3). unfold is_u32 in Hva.
  pose proof (Z.mod_pos_bound (va / 2 ^ 21) 512). pose proof (Z.mod_pos_bound (va / 2 ^ 12) 512).
  assert (va / 2 ^ 30 < 4) by (apply Z.div_lt_upper_bound; lia). lia.
Qed.

(** The three indices determine the page. *)
Lemma idx_inj va va' : is_u32 va -> is_u32 va' -> pdpte_idx va = pdpte_idx va' -> pde_idx va = pde_idx va' ->
  pte_idx va = pte_idx va' -> va / PAGESIZE = va' / PAGESIZE.
Proof.
  intros H1 H2 I1 I2 I3. destruct (idx_eq va H1) as (E1 & E2 & E3), (idx_eq va' H2) as (F1 & F2 & F3).
  rewrite I1, F1 in E1. rewrite I2, F2 in E2. rewrite I3, F3 in E3. unfold PAGESIZE. change 4096 with (2 ^ 12).
  assert (D1 : forall x, x / 2 ^ 30 = x / 2 ^ 21 / 512) by (intros; rewrite Z.div_div by lia; done).
  assert (D2 : forall x, x / 2 ^ 21 = x / 2 ^ 12 / 512) by (intros; rewrite Z.div_div by lia; done).
  rewrite !D1 in E1. pose proof (Z.div_mod (va / 2 ^ 21) 512 ltac:(lia)). pose proof (Z.div_mod (va' / 2 ^ 21) 512 ltac:(lia)).
  assert (E21 : va / 2 ^ 21 = va' / 2 ^ 21) by lia. rewrite !D2 in E21.
  pose proof (Z.div_mod (va / 2 ^ 12) 512 ltac:(lia)). pose proof (Z.div_mod (va' / 2 ^ 12) 512 ltac:(lia)). lia.
Qed.

Lemma same_page_idx va va' : is_u32 va -> is_u32 va' -> va / PAGESIZE = va' / PAGESIZE ->
  pdpte_idx va = pdpte_idx va' /\ pde_idx va = pde_idx va' /\ pte_idx va = pte_idx va'.
Proof.
  intros H1 H2 E. destruct (idx_eq va H1) as (E1 & E2 & E3), (idx_eq va' H2) as (F1 & F2 & F3).
  unfold PAGESIZE in E. change 4096 with (2 ^ 12) in E.
  assert (D1 : forall x, x / 2 ^ 30 = x / 2 ^ 12 / 2 ^ 18) by (intros; rewrite Z.div_div by lia; done).
  assert (D2 : forall x, x / 2 ^ 21 = x / 2 ^ 12 / 512) by (intros; rewrite Z.div_div by lia; done).
  rewrite D1, E in E1. rewrite D1 in F1. rewrite D2, E in E2. rewrite D2 in F2. rewrite E in E3. lia.
Qed.

(** A base that is in use. *)
Definition base_ok (b : Z) : Prop := 0 < b < 2 ^ 20.

Lemma base_shift b : 0 <= b < 2 ^ 20 -> u32 (Z.shiftl b 12) = b * PAGESIZE.
Proof. intros Hb. rewrite Z.shiftl_mul_pow2 by lia. apply u32_small. unfold is_u32, PAGESIZE in *. lia. Qed.

Section wf.
Context {H : Type} `{!Allocator H} `{!AlignedAllocator H} `{!AllocatorLaws H} `{!AlignedAllocatorLaws H}.
Context (koff : Z) (Hkoff : 0 <= koff < 2 ^ 32) (Hkoff' : (PAGESIZE | koff)).
Implicit Types (s : mstate H).

Definition addr_of (b : Z) : Z := mm_kpa2va koff (b * PAGESIZE).

Lemma addr_of_inj b b' : base_ok b -> base_ok b' -> addr_of b = addr_of b' -> b = b'.
Proof. unfold base_ok, addr_of, mm_kpa2va, PAGESIZE, u32. intros. Z.div_mod_to_equations. lia. Qed.

(** A block above the offset, as the base of an entry. *)
Lemma base_of_block p : (PAGESIZE | p) -> koff < p < 2 ^ 32 ->
  base_ok (Z.shiftr (mm_kva2pa koff p) 12) /\ addr_of (Z.shiftr (mm_kva2pa koff p) 12) = p.
Proof.
  intros (q & ->) Hp. destruct Hkoff' as (k & Ek). unfold addr_of, mm_kva2pa, mm_kpa2va, base_ok, PAGESIZE in *.
  rewrite (u32_small (q * 4096 - koff)) by (unfold is_u32; lia).
  rewrite Z.shiftr_div_pow2 by lia. change (2 ^ 12) with 4096.
  replace (q * 4096 - koff) with ((q - k) * 4096) by lia. rewrite Z.div_mul by done.
  split; [lia|]. rewrite u32_small; [lia|unfold is_u32; lia].
Qed.

Definition table_len (t : table) : Prop :=
  match t with Pdpt l => length l = 4%nat | Pd l => length l = 512%nat | Pt l => length l = 512%nat end.
Definition pd_ref (tb : gmap Z table) (e : pdpte_t) : Prop :=
  e.(pd_base) = 0 \/ (base_ok e.(pd_base) /\ exists l, tb !! addr_of e.(pd_base) = Some (Pd l)).
Definition pt_ref (tb : gmap Z table) (e : pde_t) : Prop :=
  e.(table_base) = 0 \/ (base_ok e.(table_base) /\ exists l, tb !! addr_of e.(table_base) = Some (Pt l)).

(** The tables below the top-level table at [d]: every reference leads to a
    table of the next level, and no two entries share one. *)
Record tables_wf (tb : gmap Z table) (d : Z) : Prop := {
  tw_null : tb !! 0 = None;
  tw_top : exists l, tb !! d = Some (Pdpt l);
  tw_len : forall a t, tb !! a = Some t -> table_len t;
  tw_pd : forall l i e, tb !! d = Some (Pdpt l) -> l !! i = Some e -> pd_ref tb e;
  tw_pt : forall a l i e, tb !! a = Some (Pd l) -> l !! i = Some e -> pt_ref tb e;
  tw_pd_inj : forall l i j e e', tb !! d = Some (Pdpt l) -> l !! i = Some e -> l !! j = Some e' ->
    e.(pd_base) <> 0 -> e.(pd_base) = e'.(pd_base) -> i = j;
  tw_pt_inj : forall a b l m i j e e', tb !! a = Some (Pd l) -> tb !! b = Some (Pd m) ->
    l !! i = Some e -> m !! j = Some e' -> e.(table_base) <> 0 -> e.(table_base) = e'.(table_base) ->
    a = b /\ i = j }.

Record ps_wf (s : mstate H) (d : Z) : Prop := {
  pw_alloc : alloc_wf s.(heap);
  pw_low : koff < lowest s.(heap);
  pw_live : forall a, s.(tables) !! a <> None -> live s.(heap) a <> None \/ a < lowest s.(heap);
  pw_tables : tables_wf s.(tables) d }.

(** ** Walking the tables *)

Definition walk_pd (tb : gmap Z table) (d va : Z) : option Z :=
  match tb !! d with
  | Some (Pdpt l) => e ← l !! pdpte_idx va; if e.(pd_base) =? 0 then None else Some (addr_of e.(pd_base))
  | _ => None
  end.
Definition walk_pt (tb : gmap Z table) (d va : Z) : option Z :=
  pd ← walk_pd tb d va;
  match tb !! pd with
  | Some (Pd l) => e ← l !! pde_idx va; if e.(table_base) =? 0 then None else Some (addr_of e.(table_base))
  | _ => None
  end.

(** The entry of a page; a page without a table reads as the zero entry. *)
Definition pte_view (tb : gmap Z table) (d va : Z) : pte_t :=
  match walk_pt tb d va with
  | Some pt => match tb !! pt with Some (Pt l) => default zero_pte (l !! pte_idx va) | _ => zero_pte end
  | None => zero_pte
  end.

Lemma pdpte_vaddr_spec tb d e l : tables_wf tb d -> pd_ref tb e ->
  pdpte_pd_vaddr koff e = (if e.(pd_base) =? 0 then 0 else addr_of e.(pd_base)) /\
  (tb !! addr_of e.(pd_base) = Some (Pd l) -> addr_of e.(pd_base) <> 0).
Proof.
  intros Hwf Hr. split; [|intros E E0; rewrite E0, (tw_null _ _ Hwf) in E; done].
  unfold pdpte_pd_vaddr, pdpte_pd_paddr. destruct Hr as [E|[Hb _]]; [by rewrite E|].
  rewrite base_shift by (unfold base_ok in Hb; lia). unfold base_ok, PAGESIZE in *.
  rewrite !(proj2 (Z.eqb_neq _ 0)) by lia. done.
Qed.

Lemma pde_vaddr_spec tb d e l : tables_wf tb d -> pt_ref tb e ->
  pde_pt_vaddr koff e = (if e.(table_base) =? 0 then 0 else addr_of e.(table_base)) /\
  (tb !! addr_of e.(table_base) = Some (Pt l) -> addr_of e.(table_base) <> 0).
Proof.
  intros Hwf Hr. split; [|intros E E0; rewrite E0, (tw_null _ _ Hwf) in E; done].
  unfold pde_pt_vaddr, pde_pt_paddr. destruct Hr as [E|[Hb _]]; [by rewrite E|].
  rewrite base_shift by (unfold base_ok in Hb; lia). unfold base_ok, PAGESIZE in *.
  rewrite !(proj2 (Z.eqb_neq _ 0)) by lia. done.
Qed.

Lemma top_entry tb d va : tables_wf tb d -> is_u32 va ->
  exists l e, tb !! d = Some (Pdpt l) /\ l !! pdpte_idx va = Some e /\ pd_ref tb e.
Proof.
  intros Hwf Hva. destruct (tw_top _ _ Hwf) as (l & Hl). pose proof (tw_len _ _ Hwf _ _ Hl) as Hlen. cbn in Hlen.
  destruct (lookup_lt_is_Some_2 l (pdpte_idx va)) as (e & He); [rewrite Hlen; by apply idx_lt|].
  exists l, e. do 2 (split; [done|]). by eapply tw_pd.
Qed.

Lemma pd_entry tb d a l va : tables_wf tb d -> is_u32 va -> tb !! a = Some (Pd l) ->
  exists e, l !! pde_idx va = Some e /\ pt_ref tb e.
Proof.
  intros Hwf Hva Hl. pose proof (tw_len _ _ Hwf _ _ Hl) as Hlen. cbn in Hlen.
  destruct (lookup_lt_is_Some_2 l (pde_idx va)) as (e & He); [rewrite Hlen; by apply idx_lt|].
  exists e. split; [done|]. by eapply tw_pt.
Qed.

Lemma pt_entry tb d a l va : tables_wf tb d -> is_u32 va -> tb !! a = Some (Pt l) ->
  exists e, l !! pte_idx va = Some e.
Proof.
  intros Hwf Hva Hl. pose proof (tw_len _ _ Hwf _ _ Hl) as Hlen. cbn in Hlen.
  apply (lookup_lt_is_Some_2 l (pte_idx va)). rewrite Hlen. by apply idx_lt.
Qed.

(** The code's walk is the pure one. *)
Lemma walk_code s d va : tables_wf s.(tables) d -> is_u32 va ->
  pd_from_vaddr_abs koff va d s = Ret (default 0 (walk_pd s.(tables) d va)) /\
  pt_from_vaddr_abs koff va d s = Ret (default 0 (walk_pt s.(tables) d va)) /\
  pte_from_vaddr_abs koff va d s = Ret ((fun pt => (pt, pte_idx va)) <$> walk_pt s.(tables) d va).
Proof.
  intros Hwf Hva. destruct (top_entry _ _ va Hwf Hva) as (l3 & e3 & Hl3 & He3 & Hr3).
  destruct (pdpte_vaddr_spec _ _ e3 [] Hwf Hr3) as [Hv3 _].
  assert (H1 : pd_from_vaddr_abs koff va d s = Ret (default 0 (walk_pd s.(tables) d va))).
  { unfold pd_from_vaddr_abs, get_pdpt, walk_pd. rewrite Hl3, bind_Ret, He3. cbn [deref]. rewrite bind_Ret, Hv3.
    cbn. by destruct (pd_base e3 =? 0). }
  assert (H2 : pt_from_vaddr_abs koff va d s = Ret (default 0 (walk_pt s.(tables) d va))).
  { unfold pt_from_vaddr_abs, pde_from_vaddr_abs. rewrite H1, bind_Ret. unfold walk_pt, walk_pd.
    rewrite Hl3, He3. cbn. destruct (Z.eqb_spec (pd_base e3) 0) as [E|E]; [done|]. cbn.
    destruct Hr3 as [?|(Hb & l2 & Hl2)]; [done|]. destruct (pdpte_vaddr_spec _ _ e3 l2 Hwf) as [_ Hne]; [by right; eauto|].
    rewrite (proj2 (Z.eqb_neq _ 0)) by auto. cbn. unfold get_pd. rewrite Hl2. cbn.
    destruct (pd_entry _ _ _ _ va Hwf Hva Hl2) as (e2 & He2 & Hr2). rewrite He2. cbn.
    destruct (pde_vaddr_spec _ _ e2 [] Hwf Hr2) as [-> _]. by destruct (table_base e2 =? 0). }
  split; [done|]. split; [done|]. unfold pte_from_vaddr_abs. rewrite H2, bind_Ret.
  destruct (walk_pt s.(tables) d va) as [pt|] eqn:Ew; [|done]. cbn.
  enough (pt <> 0) by by rewrite (proj2 (Z.eqb_neq pt 0)).
  unfold walk_pt, walk_pd in Ew. rewrite Hl3, He3 in Ew. cbn in Ew.
  destruct (Z.eqb_spec (pd_base e3) 0); [done|]. cbn in Ew. destruct Hr3 as [?|(_ & l2 & Hl2)]; [done|]. rewrite Hl2 in Ew.
  destruct (pd_entry _ _ _ _ va Hwf Hva Hl2) as (e2 & He2 & Hr2). rewrite He2 in Ew. cbn in Ew.
  destruct (Z.eqb_spec (table_base e2) 0); [done|]. injection Ew as <-.
  destruct Hr2 as [?|(Hb & l1 & Hl1)]; [done|]. destruct (pde_vaddr_spec _ _ e2 l1 Hwf) as [_ Hne]; [by right; eauto|]. auto.
Qed.

(** *** What each kind of write keeps *)

(** References survive any write that keeps the kinds of the other tables. *)
Lemma pd_ref_insert tb a t e : (forall l, tb !! a = Some (Pd l) -> exists l', t = Pd l') ->
  pd_ref tb e -> pd_ref (<[a := t]> tb) e.
Proof.
  intros Hk [E|[Hb (l & Hl)]]; [by left|right]. split; [done|].
  destruct (decide (a = addr_of (pd_base e))) as [->|Hne].
  - destruct (Hk l Hl) as (l' & ->). exists l'. by rewrite lookup_insert_eq.
  - exists l. by rewrite lookup_insert_ne.
Qed.
Lemma pt_ref_insert tb a t e : (forall l, tb !! a = Some (Pt l) -> exists l', t = Pt l') ->
  pt_ref tb e -> pt_ref (<[a := t]> tb) e.
Proof.
  intros Hk [E|[Hb (l & Hl)]]; [by left|right]. split; [done|].
  destruct (decide (a = addr_of (table_base e))) as [->|Hne].
  - destruct (Hk l Hl) as (l' & ->). exists l'. by rewrite lookup_insert_eq.
  - exists l. by rewrite lookup_insert_ne.
Qed.

Lemma pd_init_lookup i e : pd_init !! i = Some e -> e = zero_pde.
Proof. unfold pd_init. by intros [-> _]%lookup_replicate. Qed.
Lemma pt_init_lookup i e : pt_init !! i = Some e -> e = zero_pte.
Proof. unfold pt_init. by intros [-> _]%lookup_replicate. Qed.
Lemma init_lengths : length pd_init = 512%nat /\ length pt_init = 512%nat.
Proof. done. Qed.
#[local] Opaque pd_init pt_init.

Lemma fresh_wf tb d p t : tables_wf tb d -> tb !! p = None -> p <> 0 -> t = Pd pd_init \/ t = Pt pt_init ->
  tables_wf (<[p := t]> tb) d.
Proof.
  intros Hwf Hp H0 Ht. pose proof (tw_top _ _ Hwf) as (l0 & Hl0).
  assert (Hpd : forall a l i e, <[p := t]> tb !! a = Some (Pd l) -> l !! i = Some e ->
    tb !! a = Some (Pd l) \/ (a = p /\ e = zero_pde)).
  { intros a l i e [[<- E]|[Hne Ha]]%lookup_insert_Some Hi; [right|by left].
    split; [done|]. destruct Ht as [->| ->]; [|done]. assert (l = pd_init) as -> by congruence. by eapply pd_init_lookup. }
  split.
  - by rewrite lookup_insert_ne, (tw_null _ _ Hwf).
  - exists l0. rewrite lookup_insert_ne; [done|congruence].
  - intros a t' [[<- <-]|[_ Ha]]%lookup_insert_Some; [|by eapply tw_len].
    destruct Ht as [->| ->]; apply init_lengths.
  - intros l i e Hd Hi. rewrite lookup_insert_ne in Hd by congruence.
    apply pd_ref_insert; [congruence|]. by eapply tw_pd.
  - intros a l i e Ha Hi. destruct (Hpd _ _ _ _ Ha Hi) as [Ha'|[-> ->]]; [|by left].
    apply pt_ref_insert; [congruence|]. by eapply tw_pt.
  - intros l i j e e' Hd. rewrite lookup_insert_ne in Hd by congruence. by eapply tw_pd_inj.
  - intros a b l m i j e e' Ha Hb Hi Hj Hne Heq.
    destruct (Hpd _ _ _ _ Ha Hi) as [Ha'|[-> ->]]; [|done].
    destruct (Hpd _ _ _ _ Hb Hj) as [Hb'|[-> ->]]; [|by rewrite Heq in Hne].
    by apply (tw_pt_inj _ _ Hwf a b l m i j e e').
Qed.

Lemma fresh_view tb d p t va : tables_wf tb d -> tb !! p = None -> pte_view (<[p := t]> tb) d va = pte_view tb d va.
Proof.
  intros Hwf Hp. pose proof (tw_top _ _ Hwf) as (l0 & Hl0). unfold pte_view, walk_pt, walk_pd.
  rewrite lookup_insert_ne, Hl0 by congruence. destruct (l0 !! pdpte_idx va) as [e3|] eqn:E3; [|done]. cbn.
  destruct (Z.eqb_spec (pd_base e3) 0); [done|]. cbn.
  destruct (tw_pd _ _ Hwf _ _ _ Hl0 E3) as [?|(_ & l2 & Hl2)]; [done|].
  rewrite lookup_insert_ne, Hl2 by congruence. destruct (l2 !! pde_idx va) as [e2|] eqn:E2; [|done]. cbn.
  destruct (Z.eqb_spec (table_base e2) 0); [done|]. cbn.
  destruct (tw_pt _ _ Hwf _ _ _ _ Hl2 E2) as [?|(_ & l1 & Hl1)]; [done|].
  by rewrite lookup_insert_ne by congruence.
Qed.

(** Replacing an entry of the top-level table: the same base, or a zeroed
    directory nothing else refers to. *)
Definition pd_step (tb : gmap Z table) (l : list pdpte_t) (e e' : pdpte_t) : Prop :=
  e'.(pd_base) = e.(pd_base) \/
  (e.(pd_base) = 0 /\ base_ok e'.(pd_base) /\ tb !! addr_of e'.(pd_base) = Some (Pd pd_init) /\
   forall j x, l !! j = Some x -> x.(pd_base) <> e'.(pd_base)).

Lemma pdpt_wf tb d l i e e' : tables_wf tb d -> tb !! d = Some (Pdpt l) -> l !! i = Some e -> pd_step tb l e e' ->
  tables_wf (<[d := Pdpt (<[i := e']> l)]> tb) d.
Proof.
  intros Hwf Hd Hi Hst. assert (Hil : (i < length l)%nat) by by eapply lookup_lt_Some.
  assert (Hpd : forall a l', <[d := Pdpt (<[i := e']> l)]> tb !! a = Some (Pd l') -> tb !! a = Some (Pd l'))
    by (intros a l' [[_ ?]|[_ ?]]%lookup_insert_Some; done).
  assert (Hr' : pd_ref tb e').
  { destruct Hst as [E|(_ & Hb & Hz & _)]; [|right; split; [done|by eexists]].
    pose proof (tw_pd _ _ Hwf _ _ _ Hd Hi) as Hr. unfold pd_ref in *. by rewrite E. }
  split.
  - rewrite lookup_insert_ne; [apply Hwf|]. intros ->. by rewrite (tw_null _ _ Hwf) in Hd.
  - eexists. apply lookup_insert_eq.
  - intros a t [[<- <-]|[_ Ha]]%lookup_insert_Some; [|by eapply tw_len]. cbn. rewrite length_insert. exact (tw_len _ _ Hwf _ _ Hd).
  - intros m j x [[_ [= <-]]|[? _]]%lookup_insert_Some Hj; [|done]. apply pd_ref_insert; [congruence|].
    apply list_lookup_insert_Some in Hj as [(-> & <- & _)|[_ Hj]]; [done|]. by eapply tw_pd.
  - intros a m j x Ha%Hpd Hj. apply pt_ref_insert; [congruence|]. by eapply tw_pt.
  - intros m j k x y [[_ [= <-]]|[? _]]%lookup_insert_Some Hj Hk Hne Heq; [|done].
    apply list_lookup_insert_Some in Hj as [(-> & <- & _)|[Hij Hj]];
      apply list_lookup_insert_Some in Hk as [(-> & <- & _)|[Hik Hk]]; [done| | |].
    + destruct Hst as [E|(_ & _ & _ & Hu)]; [|by destruct (Hu _ _ Hk)].
      eapply (tw_pd_inj _ _ Hwf l j k e y); congruence.
    + destruct Hst as [E|(_ & _ & _ & Hu)]; [|by destruct (Hu _ _ Hj)].
      eapply (tw_pd_inj _ _ Hwf l j k x e); congruence.
    + by eapply (tw_pd_inj _ _ Hwf l j k x y).
  - intros a b m m' j k x y Ha%Hpd Hb%Hpd. by eapply tw_pt_inj.
Qed.

Lemma pdpt_view tb d l i e e' va : tables_wf tb d -> tb !! d = Some (Pdpt l) -> l !! i = Some e -> pd_step tb l e e' ->
  pte_view (<[d := Pdpt (<[i := e']> l)]> tb) d va = pte_view tb d va.
Proof.
  intros Hwf Hd Hi Hst. assert (Hil : (i < length l)%nat) by by eapply lookup_lt_Some.
  assert (Hne : forall a t, tb !! a = Some t -> (forall x, t <> Pdpt x) ->
    <[d := Pdpt (<[i := e']> l)]> tb !! a = Some t).
  { intros a t Ha Ht. rewrite lookup_insert_ne; [done|]. intros ->. rewrite Hd in Ha. injection Ha as <-. by destruct (Ht l). }
  unfold pte_view, walk_pt, walk_pd. rewrite lookup_insert_eq, Hd.
  assert (Hsame : forall e3 b, pd_ref tb e3 -> pd_base e3 = b ->
    match (pd ← (if b =? 0 then None else Some (addr_of b));
           match <[d := Pdpt (<[i := e']> l)]> tb !! pd with
           | Some (Pd l0) => e ← l0 !! pde_idx va; if table_base e =? 0 then None else Some (addr_of (table_base e))
           | _ => None end) with
    | Some pt => match <[d := Pdpt (<[i := e']> l)]> tb !! pt with Some (Pt l0) => default zero_pte (l0 !! pte_idx va) | _ => zero_pte end
    | None => zero_pte end =
    match (pd ← (if b =? 0 then None else Some (addr_of b));
           match tb !! pd with
           | Some (Pd l0) => e ← l0 !! pde_idx va; if table_base e =? 0 then None else Some (addr_of (table_base e))
           | _ => None end) with
    | Some pt => match tb !! pt with Some (Pt l0) => default zero_pte (l0 !! pte_idx va) | _ => zero_pte end
    | None => zero_pte end).
  { intros e3 b Hr <-. destruct (Z.eqb_spec (pd_base e3) 0); [done|]. cbn. destruct Hr as [?|(_ & l2 & Hl2)]; [done|].
    rewrite (Hne _ _ Hl2), Hl2 by done. destruct (l2 !! pde_idx va) as [e2|] eqn:E2; [|done]. cbn.
    destruct (Z.eqb_spec (table_base e2) 0); [done|].
    destruct (tw_pt _ _ Hwf _ _ _ _ Hl2 E2) as [?|(_ & l1 & Hl1)]; [done|]. by rewrite (Hne _ _ Hl1), Hl1. }
  destruct (decide (i = pdpte_idx va)) as [->|Hiv].
  - rewrite list_lookup_insert_eq, Hi by done. cbn. destruct Hst as [->|(E & Hb & Hz & _)].
    + apply (Hsame e _); [by eapply tw_pd|done].
    + rewrite E. cbn. unfold base_ok in Hb. rewrite (proj2 (Z.eqb_neq _ 0)) by lia. cbn.
      rewrite (Hne _ _ Hz) by done. destruct (pd_init !! pde_idx va) as [x|] eqn:Ex; [|done].
      apply pd_init_lookup in Ex as ->. done.
  - rewrite list_lookup_insert_ne by done. destruct (l !! pdpte_idx va) as [e3|] eqn:E3; [|done]. cbn.
    apply (Hsame e3 _); [by eapply tw_pd|done].
Qed.

(** The same for an entry of a directory. *)
Definition pt_step (tb : gmap Z table) (e e' : pde_t) : Prop :=
  e'.(table_base) = e.(table_base) \/
  (e.(table_base) = 0 /\ base_ok e'.(table_base) /\ tb !! addr_of e'.(table_base) = Some (Pt pt_init) /\
   forall a l j x, tb !! a = Some (Pd l) -> l !! j = Some x -> x.(table_base) <> e'.(table_base)).

Lemma pd_insert_kind (tb : gmap Z table) a l l' b t : tb !! a = Some (Pd l) -> (forall m, t <> Pd m) ->
  <[a := Pd l']> tb !! b = Some t <-> tb !! b = Some t.
Proof.
  intros Ha Ht. destruct (decide (a = b)) as [<-|Hne].
  - rewrite lookup_insert_eq, Ha. split; intros [= <-]; [destruct (Ht l')|destruct (Ht l)]; done.
  - by rewrite lookup_insert_ne.
Qed.

Lemma pd_wf tb d a l i e e' : tables_wf tb d -> tb !! a = Some (Pd l) -> l !! i = Some e -> pt_step tb e e' ->
  tables_wf (<[a := Pd (<[i := e']> l)]> tb) d.
Proof.
  intros Hwf Ha Hi Hst. assert (Hil : (i < length l)%nat) by by eapply lookup_lt_Some.
  assert (Hk : forall b t, (forall m, t <> Pd m) -> <[a := Pd (<[i := e']> l)]> tb !! b = Some t <-> tb !! b = Some t)
    by (intros; by eapply pd_insert_kind).
  assert (Hr' : pt_ref tb e').
  { destruct Hst as [E|(_ & Hb & Hz & _)]; [|right; split; [done|by eexists]].
    pose proof (tw_pt _ _ Hwf _ _ _ _ Ha Hi) as Hr. unfold pt_ref in *. by rewrite E. }
  assert (Hent : forall b m j x, <[a := Pd (<[i := e']> l)]> tb !! b = Some (Pd m) -> m !! j = Some x ->
    (b = a /\ j = i /\ x = e') \/ exists m', tb !! b = Some (Pd m') /\ m' !! j = Some x /\ ~ (b = a /\ j = i)).
  { intros b m j x [[<- [= <-]]|[Hne Hb]]%lookup_insert_Some Hj.
    - apply list_lookup_insert_Some in Hj as [(-> & <- & _)|[Hij Hj]]; [by left|right].
      exists l. split; [done|]. split; [done|]. by intros [_ ->].
    - right. exists m. split; [done|]. split; [done|]. by intros [-> _]. }
  split.
  - rewrite lookup_insert_ne; [apply Hwf|]. intros ->. by rewrite (tw_null _ _ Hwf) in Ha.
  - destruct (tw_top _ _ Hwf) as (l0 & Hl0). exists l0. by apply Hk.
  - intros b t [[<- <-]|[_ Hb]]%lookup_insert_Some; [|by eapply tw_len]. cbn. rewrite length_insert. exact (tw_len _ _ Hwf _ _ Ha).
  - intros m j x Hd%Hk Hj; [|done]. apply pd_ref_insert; [|by eapply tw_pd]. by eauto.
  - intros b m j x Hb Hj. apply pt_ref_insert; [congruence|].
    destruct (Hent _ _ _ _ Hb Hj) as [(-> & -> & ->)|(m' & Hb' & Hj' & _)]; [done|by eapply tw_pt].
  - intros m j k x y Hd%Hk; [|done]. by eapply tw_pd_inj.
  - intros b c m m' j k x y Hb Hc Hj Hk' Hne Heq.
    destruct (Hent _ _ _ _ Hb Hj) as [(-> & -> & ->)|(n & Hb' & Hj' & Hx)], (Hent _ _ _ _ Hc Hk') as [(-> & -> & ->)|(n' & Hc' & Hk'' & Hy)];
      [done| | |].
    + exfalso. destruct Hst as [E|(_ & _ & _ & Hu)]; [|by destruct (Hu _ _ _ _ Hc' Hk'')].
      apply Hy. assert (a = c /\ i = k) as [-> ->]; [|done]. apply (tw_pt_inj _ _ Hwf a c l n' i k e y); congruence.
    + exfalso. destruct Hst as [E|(_ & _ & _ & Hu)]; [|by destruct (Hu _ _ _ _ Hb' Hj')].
      apply Hx. assert (a = b /\ i = j) as [-> ->]; [|done]. apply (tw_pt_inj _ _ Hwf a b l n i j e x); congruence.
    + by eapply (tw_pt_inj _ _ Hwf b c n n' j k x y).
Qed.

Lemma pd_view tb d a l i e e' va : tables_wf tb d -> tb !! a = Some (Pd l) -> l !! i = Some e -> pt_step tb e e' ->
  pte_view (<[a := Pd (<[i := e']> l)]> tb) d va = pte_view tb d va.
Proof.
  intros Hwf Ha Hi Hst. assert (Hil : (i < length l)%nat) by by eapply lookup_lt_Some.
  assert (Hk : forall b t, (forall m, t <> Pd m) -> <[a := Pd (<[i := e']> l)]> tb !! b = Some t <-> tb !! b = Some t)
    by (intros; by eapply pd_insert_kind).
  destruct (tw_top _ _ Hwf) as (l0 & Hl0). unfold pte_view, walk_pt, walk_pd.
  rewrite (proj2 (Hk d (Pdpt l0) ltac:(done)) Hl0), Hl0. destruct (l0 !! pdpte_idx va) as [e3|] eqn:E3; [|done]. cbn.
  destruct (Z.eqb_spec (pd_base e3) 0); [done|]. cbn.
  destruct (tw_pd _ _ Hwf _ _ _ Hl0 E3) as [?|(_ & l2 & Hl2)]; [done|].
  destruct (decide (a = addr_of (pd_base e3))) as [Ea|Hne].
  - rewrite <- Ea in *. rewrite lookup_insert_eq, Ha. destruct (decide (i = pde_idx va)) as [->|Hiv].
    + rewrite list_lookup_insert_eq, Hi by done. cbn. destruct Hst as [->|(E & Hb & Hz & _)].
      * destruct (Z.eqb_spec (table_base e) 0); [done|].
        destruct (tw_pt _ _ Hwf _ _ _ _ Ha Hi) as [?|(_ & l1 & Hl1)]; [done|].
        by rewrite (proj2 (Hk _ (Pt l1) ltac:(done)) Hl1), Hl1.
      * rewrite E. unfold base_ok in Hb. rewrite (proj2 (Z.eqb_neq _ 0)) by lia. cbn.
        rewrite (proj2 (Hk _ (Pt pt_init) ltac:(done)) Hz). destruct (pt_init !! pte_idx va) as [x|] eqn:Ex; [|done].
        by apply pt_init_lookup in Ex as ->.
    + rewrite list_lookup_insert_ne by done. destruct (l !! pde_idx va) as [e2|] eqn:E2; [|done]. cbn.
      destruct (Z.eqb_spec (table_base e2) 0); [done|].
      destruct (tw_pt _ _ Hwf _ _ _ _ Ha E2) as [?|(_ & l1 & Hl1)]; [done|].
      by rewrite (proj2 (Hk _ (Pt l1) ltac:(done)) Hl1), Hl1.
  - rewrite lookup_insert_ne, Hl2 by done. destruct (l2 !! pde_idx va) as [e2|] eqn:E2; [|done]. cbn.
    destruct (Z.eqb_spec (table_base e2) 0); [done|].
    destruct (tw_pt _ _ Hwf _ _ _ _ Hl2 E2) as [?|(_ & l1 & Hl1)]; [done|].
    by rewrite (proj2 (Hk _ (Pt l1) ltac:(done)) Hl1), Hl1.
Qed.

(** Any write to an entry of a page table. *)
Lemma pt_wf tb d a l i e' : tables_wf tb d -> tb !! a = Some (Pt l) -> tables_wf (<[a := Pt (<[i := e']> l)]> tb) d.
Proof.
  intros Hwf Ha.
  assert (Hk : forall b t, (forall m, t <> Pt m) -> <[a := Pt (<[i := e']> l)]> tb !! b = Some t <-> tb !! b = Some t).
  { intros b t Ht. destruct (decide (a = b)) as [<-|Hne]; [|by rewrite lookup_insert_ne].
    rewrite lookup_insert_eq, Ha. split; intros [= <-]; [destruct (Ht (<[i := e']> l))|destruct (Ht l)]; done. }
  split.
  - rewrite lookup_insert_ne; [apply Hwf|]. intros ->. by rewrite (tw_null _ _ Hwf) in Ha.
  - destruct (tw_top _ _ Hwf) as (l0 & Hl0). exists l0. by apply Hk.
  - intros b t [[<- <-]|[_ Hb]]%lookup_insert_Some; [|by eapply tw_len]. cbn. rewrite length_insert. exact (tw_len _ _ Hwf _ _ Ha).
  - intros m j x Hd%Hk Hj; [|done]. apply pd_ref_insert; [congruence|]. by eapply tw_pd.
  - intros b m j x Hb%Hk Hj; [|done]. apply pt_ref_insert; [by eauto|]. by eapply tw_pt.
  - intros m j k x y Hd%Hk; [|done]. by eapply tw_pd_inj.
  - intros b c m m' j k x y Hb%Hk Hc%Hk; [|done..]. by eapply tw_pt_inj.
Qed.

Lemma pt_walk tb d a l i e' va : tables_wf tb d -> tb !! a = Some (Pt l) ->
  walk_pt (<[a := Pt (<[i := e']> l)]> tb) d va = walk_pt tb d va.
Proof.
  intros Hwf Ha. destruct (tw_top _ _ Hwf) as (l0 & Hl0). unfold walk_pt, walk_pd.
  rewrite lookup_insert_ne, Hl0 by congruence. destruct (l0 !! pdpte_idx va) as [e3|] eqn:E3; [|done]. cbn.
  destruct (Z.eqb_spec (pd_base e3) 0); [done|]. cbn.
  destruct (tw_pd _ _ Hwf _ _ _ Hl0 E3) as [?|(_ & l2 & Hl2)]; [done|].
  by rewrite lookup_insert_ne by congruence.
Qed.

Lemma walk_pt_inv tb d va pt : tables_wf tb d -> walk_pt tb d va = Some pt ->
  exists l3 e3 l2 e2 l1, tb !! d = Some (Pdpt l3) /\ l3 !! pdpte_idx va = Some e3 /\ base_ok e3.(pd_base) /\
    tb !! addr_of e3.(pd_base) = Some (Pd l2) /\ l2 !! pde_idx va = Some e2 /\ base_ok e2.(table_base) /\
    pt = addr_of e2.(table_base) /\ tb !! pt = Some (Pt l1).
Proof.
  intros Hwf Hw. destruct (tw_top _ _ Hwf) as (l3 & Hl3). unfold walk_pt, walk_pd in Hw. rewrite Hl3 in Hw.
  destruct (l3 !! pdpte_idx va) as [e3|] eqn:E3; [|done]. cbn in Hw.
  destruct (Z.eqb_spec (pd_base e3) 0); [done|]. cbn in Hw.
  destruct (tw_pd _ _ Hwf _ _ _ Hl3 E3) as [?|(Hb3 & l2 & Hl2)]; [done|]. rewrite Hl2 in Hw.
  destruct (l2 !! pde_idx va) as [e2|] eqn:E2; [|done]. cbn in Hw.
  destruct (Z.eqb_spec (table_base e2) 0); [done|]. injection Hw as <-.
  destruct (tw_pt _ _ Hwf _ _ _ _ Hl2 E2) as [?|(Hb2 & l1 & Hl1)]; [done|].
  by exists l3, e3, l2, e2, l1.
Qed.

(** Two pages with the same entry are the same page. *)
Lemma walk_pt_inj tb d va va' pt : tables_wf tb d -> is_u32 va -> is_u32 va' ->
  walk_pt tb d va = Some pt -> walk_pt tb d va' = Some pt -> pte_idx va = pte_idx va' ->
  va / PAGESIZE = va' / PAGESIZE.
Proof.
  intros Hwf Hva Hva' (l3 & e3 & l2 & e2 & l1 & Hl3 & He3 & Hb3 & Hl2 & He2 & Hb2 & Hpt & _)%walk_pt_inv
    (m3 & f3 & m2 & f2 & m1 & Hm3 & Hf3 & Hc3 & Hm2 & Hf2 & Hc2 & Hpt' & _)%walk_pt_inv Hi; [|done..].
  rewrite Hpt in Hpt'. apply addr_of_inj in Hpt'; [|done..].
  destruct (tw_pt_inj _ _ Hwf _ _ _ _ _ _ _ _ Hl2 Hm2 He2 Hf2) as [Ha Hj]; [unfold base_ok in Hb2; lia|done|].
  apply addr_of_inj in Ha; [|done..]. assert (m3 = l3) as -> by congruence.
  apply (idx_inj va va' Hva Hva'); [|done|done].
  by eapply (tw_pd_inj _ _ Hwf l3 _ _ e3 f3); [..|unfold base_ok in Hb3; lia|].
Qed.

(** Writing a page's entry changes that page only. *)
Lemma pt_view tb d va pt l e' va' : tables_wf tb d -> is_u32 va -> is_u32 va' ->
  walk_pt tb d va = Some pt -> tb !! pt = Some (Pt l) ->
  pte_view (<[pt := Pt (<[pte_idx va := e']> l)]> tb) d va' =
  if va' / PAGESIZE =? va / PAGESIZE then e' else pte_view tb d va'.
Proof.
  intros Hwf Hva Hva' Hw Hl. unfold pte_view. rewrite pt_walk by done.
  pose proof (tw_len _ _ Hwf _ _ Hl) as Hlen. cbn in Hlen.
  destruct (Z.eqb_spec (va' / PAGESIZE) (va / PAGESIZE)) as [E|E].
  - destruct (same_page_idx va' va Hva' Hva E) as (I3 & I2 & I1).
    assert (walk_pt tb d va' = Some pt) as -> by (rewrite <- Hw; unfold walk_pt, walk_pd; by rewrite I3, I2).
    rewrite lookup_insert_eq, I1, list_lookup_insert_eq; [done|]. rewrite Hlen. by apply idx_lt.
  - destruct (walk_pt tb d va') as [pt'|] eqn:Ew; [|done].
    destruct (decide (pt = pt')) as [<-|Hne]; [|by rewrite lookup_insert_ne].
    rewrite lookup_insert_eq, Hl, list_lookup_insert_ne; [done|]. intros Hi. apply E.
    symmetry. by eapply walk_pt_inj.
Qed.

(** ** Mapping *)

Lemma ps_wf_update s d a t : ps_wf s d -> s.(tables) !! a <> None -> tables_wf (<[a := t]> s.(tables)) d ->
  ps_wf (set_table s a t) d.
Proof.
  intros [Ha Hl Hv Ht] Hin Hwf. split; try done. intros b Hb. apply Hv.
  cbn in Hb. destruct (decide (a = b)) as [<-|Hne]; [done|]. by rewrite lookup_insert_ne in Hb.
Qed.

(** Blocks that stay, and that no new table takes. *)
Definition grows s s' : Prop :=
  forall b, live s.(heap) b <> None -> live s'.(heap) b = live s.(heap) b /\ (s.(tables) !! b = None -> s'.(tables) !! b = None).
Lemma grows_refl s : grows s s.
Proof. by intros b _. Qed.
Lemma grows_trans s1 s2 s3 : grows s1 s2 -> grows s2 s3 -> grows s1 s3.
Proof.
  intros H1 H2 b Hb. destruct (H1 b Hb) as [E1 T1]. destruct (H2 b) as [E2 T2]; [by rewrite E1|].
  split; [by rewrite E2|auto].
Qed.
Lemma grows_update s a t : s.(tables) !! a <> None -> grows s (set_table s a t).
Proof.
  intros Ha b Hb. split; [done|]. cbn. intros Hn. rewrite lookup_insert_ne; [done|]. congruence.
Qed.

(** A new table: no memory, or a page-aligned block above the offset. *)
Lemma new_table_spec s d : ps_wf s d ->
  exists h' p, kmalloc_aligned_ sizeof_table PAGESIZE s.(heap) = Ret (h', p) /\
    ((p = 0 /\ ps_wf (set_heap s h') d /\ grows s (set_heap s h')) \/
     (p <> 0 /\ (PAGESIZE | p) /\ koff < p < 2 ^ 32 /\ s.(tables) !! p = None /\
      forall t, t = Pd pd_init \/ t = Pt pt_init ->
        ps_wf (set_table (set_heap s h') p t) d /\ grows s (set_table (set_heap s h') p t))).
Proof.
  intros [Ha Hlo Hv Ht]. destruct (amalloc_law s.(heap) sizeof_table 12 Ha) as (h' & p & Hr & Ha' & Hlow & Hc);
    [done|done|]. exists h', p. split; [done|]. destruct Hc as [[-> Hl]|(Hp & Hd & Hf & Hl)].
  - left. split; [done|]. split; [|intros b Hb; cbn; by rewrite Hl].
    split; cbn; [done|by rewrite Hlow| |done]. intros b Hb. rewrite Hl, Hlow. by apply Hv.
  - assert (Hlv : live h' p = Some sizeof_table) by by rewrite Hl, decide_True.
    destruct (live_law h' p _ Ha' Hlv) as [? _].
    assert (lowest h' <= p) by (apply lowest_law; [done|congruence]).
    assert (Hn : s.(tables) !! p = None).
    { destruct (s.(tables) !! p) eqn:E; [|done]. destruct (Hv p); [congruence|congruence|lia]. }
    right. split; [done|]. split; [done|]. split; [lia|]. split; [done|]. intros t Htt.
    split; [|intros b Hb; cbn; assert (b <> p) by congruence; rewrite Hl, lookup_insert_ne by done; by rewrite decide_False].
    split; cbn; [done|by rewrite Hlow| |by apply fresh_wf].
    intros b Hb. rewrite Hl, Hlow. case_decide; [by left|]. rewrite lookup_insert_ne in Hb by done. by apply Hv.
Qed.

(** Nothing refers to an address without a table. *)
Lemma fresh_pd_unref tb d l p : tables_wf tb d -> tb !! d = Some (Pdpt l) -> tb !! p = None ->
  forall j x, l !! j = Some x -> addr_of x.(pd_base) = p -> x.(pd_base) = 0.
Proof.
  intros Hwf Hl Hp j x Hj Ha. destruct (tw_pd _ _ Hwf _ _ _ Hl Hj) as [?|(_ & l' & Hl')]; [done|]. congruence.
Qed.
Lemma fresh_pt_unref tb d p : tables_wf tb d -> tb !! p = None ->
  forall a l j x, tb !! a = Some (Pd l) -> l !! j = Some x -> addr_of x.(table_base) = p -> x.(table_base) = 0.
Proof.
  intros Hwf Hp a l j x Hl Hj Ha. destruct (tw_pt _ _ Hwf _ _ _ _ Hl Hj) as [?|(_ & l' & Hl')]; [done|]. congruence.
Qed.

Lemma map_get_pd_spec s ps va : ps_wf s ps.(data) -> is_u32 va ->
  exists s' pd, map_get_pd koff va ps s = Ret (s', pd) /\ ps_wf s' ps.(data) /\ s'.(frames) = s.(frames) /\ grows s s' /\
    (forall va', pte_view s'.(tables) ps.(data) va' = pte_view s.(tables) ps.(data) va') /\
    (pd = 0 \/ (pd <> 0 /\ walk_pd s'.(tables) ps.(data) va = Some pd /\ exists l, s'.(tables) !! pd = Some (Pd l))).
Proof.
  intros Hps Hva. pose proof (pw_tables _ _ Hps) as Hwf.
  destruct (top_entry _ _ va Hwf Hva) as (l & e & Hl & He & Hr).
  unfold map_get_pd, get_pdpt. rewrite Hl, bind_Ret, He. cbn [deref]. rewrite bind_Ret.
  destruct (pdpte_vaddr_spec _ _ e [] Hwf Hr) as [-> _].
  destruct (Z.eqb_spec (pd_base e) 0) as [E|E].
  - rewrite Z.eqb_refl. destruct (new_table_spec s _ Hps) as (h' & p & -> & Hc). rewrite bind_Ret. cbn [fst snd]. cbv zeta.
    destruct Hc as [(-> & Hps' & Hg)|(Hp & Hd & Hpr & Hn & Hps')].
    + rewrite Z.eqb_refl. eexists _, 0. split; [reflexivity|]. do 4 (split; [done|]). by left.
    + rewrite (proj2 (Z.eqb_neq p 0)) by done. destruct (Hps' (Pd pd_init) ltac:(by left)) as [Hps1 Hg]; clear Hps'; rename Hps1 into Hps'.
      destruct (base_of_block p Hd Hpr) as [Hb Hab].
      set (e' := pdpte_set_pd_vaddr koff p e).
      assert (Hl' : <[p := Pd pd_init]> s.(tables) !! ps.(data) = Some (Pdpt l)) by (rewrite lookup_insert_ne; congruence).
      assert (Hst : pd_step (<[p := Pd pd_init]> s.(tables)) l e e').
      { right. split; [done|]. split; [exact Hb|]. cbn [e' pdpte_set_pd_vaddr pdpte_set_pd_paddr pd_base].
        split; [by rewrite Hab, lookup_insert_eq|]. intros j x Hj Hx.
        rewrite <- Hx in Hab, Hb. rewrite (fresh_pd_unref _ _ l p Hwf Hl Hn j x Hj Hab) in Hb. unfold base_ok in Hb. lia. }
      eexists _, p. split; [reflexivity|]. split; [|split; [done|split; [eapply grows_trans; [exact Hg|apply grows_update; cbn; congruence]|split]]].
      * apply ps_wf_update; [done|cbn; congruence|]. eapply pdpt_wf; [apply Hps'|done|done|done].
      * intros va'. cbn. rewrite (pdpt_view _ _ l _ e e') by first [apply Hps'|done]. by apply fresh_view.
      * right. split; [done|]. cbn. assert (Hil : (pdpte_idx va < length l)%nat) by by eapply lookup_lt_Some.
        split.
        { unfold walk_pd. rewrite lookup_insert_eq, list_lookup_insert_eq by done. cbn.
          unfold base_ok in Hb. rewrite (proj2 (Z.eqb_neq _ 0)) by lia. by rewrite Hab. }
        exists pd_init. rewrite lookup_insert_ne by congruence. apply lookup_insert_eq.
  - destruct Hr as [?|(Hb & l2 & Hl2)]; [done|]. assert (Hne : addr_of (pd_base e) <> 0).
    { intros E0. by rewrite E0, (tw_null _ _ Hwf) in Hl2. }
    rewrite (proj2 (Z.eqb_neq (addr_of _) 0)) by done. exists s, (addr_of (pd_base e)). do 3 (split; [done|]). split; [apply grows_refl|]. split; [done|]. right.
    split; [done|]. split; [|by exists l2]. unfold walk_pd. rewrite Hl, He. cbn. by rewrite (proj2 (Z.eqb_neq _ 0)).
Qed.

Lemma map_get_pt_spec s d pd l va : ps_wf s d -> is_u32 va ->
  walk_pd s.(tables) d va = Some pd -> s.(tables) !! pd = Some (Pd l) ->
  exists s' pt, map_get_pt koff va pd s = Ret (s', pt) /\ ps_wf s' d /\ s'.(frames) = s.(frames) /\ grows s s' /\
    (forall va', pte_view s'.(tables) d va' = pte_view s.(tables) d va') /\
    (pt = 0 \/ (pt <> 0 /\ walk_pd s'.(tables) d va = Some pd /\ walk_pt s'.(tables) d va = Some pt)).
Proof.
  intros Hps Hva Hw Hl. pose proof (pw_tables _ _ Hps) as Hwf.
  destruct (pd_entry _ _ _ _ va Hwf Hva Hl) as (e & He & Hr).
  unfold map_get_pt, get_pd. rewrite Hl, bind_Ret, He. cbn [deref]. rewrite bind_Ret.
  destruct (pde_vaddr_spec _ _ e [] Hwf Hr) as [-> _].
  destruct (Z.eqb_spec (table_base e) 0) as [E|E].
  - rewrite Z.eqb_refl. destruct (new_table_spec s _ Hps) as (h' & p & -> & Hc). rewrite bind_Ret. cbn [fst snd]. cbv zeta.
    destruct Hc as [(-> & Hps' & Hg)|(Hp & Hd & Hpr & Hn & Hps')].
    + rewrite Z.eqb_refl. eexists _, 0. split; [reflexivity|]. do 4 (split; [done|]). by left.
    + rewrite (proj2 (Z.eqb_neq p 0)) by done. destruct (Hps' (Pt pt_init) ltac:(by right)) as [Hps1 Hg]; clear Hps'; rename Hps1 into Hps'.
      destruct (base_of_block p Hd Hpr) as [Hb Hab].
      set (e' := pde_set_pt_vaddr koff p e).
      assert (Hl' : <[p := Pt pt_init]> s.(tables) !! pd = Some (Pd l)) by (rewrite lookup_insert_ne; congruence).
      assert (Hst : pt_step (<[p := Pt pt_init]> s.(tables)) e e').
      { right. split; [done|]. split; [exact Hb|]. cbn [e' pde_set_pt_vaddr pde_set_pt_paddr table_base].
        split; [by rewrite Hab, lookup_insert_eq|]. intros a m j x [[_ ?]|[_ Ha]]%lookup_insert_Some Hj Hx; [done|].
        rewrite <- Hx in Hab, Hb. rewrite (fresh_pt_unref _ _ p Hwf Hn a m j x Ha Hj Hab) in Hb. unfold base_ok in Hb. lia. }
      eexists _, p. split; [reflexivity|]. split; [|split; [done|split; [eapply grows_trans; [exact Hg|apply grows_update; cbn; congruence]|split]]].
      * apply ps_wf_update; [done|cbn; congruence|]. eapply pd_wf; [apply Hps'|done|done|done].
      * intros va'. cbn. rewrite (pd_view _ _ _ l _ e e') by first [apply Hps'|done]. by apply fresh_view.
      * right. split; [done|]. cbn. assert (Hil : (pde_idx va < length l)%nat) by by eapply lookup_lt_Some.
        destruct (tw_top _ _ Hwf) as (l3 & Hl3).
        assert (Hw' : walk_pd (<[pd := Pd (<[pde_idx va := e']> l)]> (<[p := Pt pt_init]> s.(tables))) d va = Some pd).
        { unfold walk_pd in *. rewrite !lookup_insert_ne, Hl3 by congruence. by rewrite Hl3 in Hw. }
        split; [done|]. unfold walk_pt. rewrite Hw'. cbn. rewrite lookup_insert_eq, list_lookup_insert_eq by done. cbn.
        unfold base_ok in Hb. rewrite (proj2 (Z.eqb_neq _ 0)) by lia. by rewrite Hab.
  - destruct Hr as [?|(Hb & l2 & Hl2)]; [done|]. assert (Hne : addr_of (table_base e) <> 0).
    { intros E0. by rewrite E0, (tw_null _ _ Hwf) in Hl2. }
    rewrite (proj2 (Z.eqb_neq (addr_of _) 0)) by done. exists s, (addr_of (table_base e)). do 3 (split; [done|]). split; [apply grows_refl|]. split; [done|]. right.
    split; [done|]. split; [done|]. unfold walk_pt. rewrite Hw. cbn. rewrite Hl, He. cbn. by rewrite (proj2 (Z.eqb_neq _ 0)).
Qed.

(** ** What the processor sees *)

(** The physical address and the write, user and execute rights of an access
    to [va]: every level present, a right granted when both the directory and
    the page entry grant it. *)
Definition translate (tb : gmap Z table) (d va : Z) : option (Z * (bool * bool * bool)) :=
  match tb !! d with
  | Some (Pdpt l3) =>
      e3 ← l3 !! pdpte_idx va;
      match tb !! addr_of e3.(pd_base) with
      | Some (Pd l2) =>
          e2 ← l2 !! pde_idx va;
          match tb !! addr_of e2.(table_base) with
          | Some (Pt l1) =>
              e1 ← l1 !! pte_idx va;
              if e3.(pdpte_present) && e2.(pde_present) && e1.(pte_present) then
                Some (e1.(frame_base) * PAGESIZE + va mod PAGESIZE,
                      (e2.(pde_writable) && e1.(pte_writable),
                       e2.(pde_user_access) && e1.(pte_user_access),
                       negb e2.(pde_exec_disable) && negb e1.(pte_exec_disable)))
              else None
          | _ => None
          end
      | _ => None
      end
  | _ => None
  end.
Definition rights (flags : Z) : bool * bool * bool := (has flags PAGE_W, has flags PAGE_USER, has flags PAGE_X).

(** Rewriting the three entries of a page: only its own page entry is seen
    elsewhere. *)
Lemma write_entries s d va pd pt l3 e3 e3' l2 e2 e2' l1 e1' : ps_wf s d -> is_u32 va ->
  walk_pt s.(tables) d va = Some pt ->
  s.(tables) !! d = Some (Pdpt l3) -> l3 !! pdpte_idx va = Some e3 -> e3'.(pd_base) = e3.(pd_base) ->
  pd = addr_of e3.(pd_base) ->
  s.(tables) !! pd = Some (Pd l2) -> l2 !! pde_idx va = Some e2 -> e2'.(table_base) = e2.(table_base) ->
  s.(tables) !! pt = Some (Pt l1) ->
  let tb := <[pt := Pt (<[pte_idx va := e1']> l1)]> (<[pd := Pd (<[pde_idx va := e2']> l2)]>
              (<[d := Pdpt (<[pdpte_idx va := e3']> l3)]> s.(tables))) in
  ps_wf (mkM s.(heap) s.(frames) tb) d /\
  (forall va', is_u32 va' -> pte_view tb d va' =
     if va' / PAGESIZE =? va / PAGESIZE then e1' else pte_view s.(tables) d va') /\
  (forall va', is_u32 va' -> va' / PAGESIZE = va / PAGESIZE -> translate tb d va' =
     if e3'.(pdpte_present) && e2'.(pde_present) && e1'.(pte_present) then
       Some (e1'.(frame_base) * PAGESIZE + va' mod PAGESIZE,
             (e2'.(pde_writable) && e1'.(pte_writable), e2'.(pde_user_access) && e1'.(pte_user_access),
              negb e2'.(pde_exec_disable) && negb e1'.(pte_exec_disable)))
     else None).
Proof.
  intros Hps Hva Hw Hl3 He3 Hb3 Hpd Hl2 He2 Hb2 Hl1 tb. pose proof (pw_tables _ _ Hps) as Hwf.
  destruct (walk_pt_inv _ _ _ _ Hwf Hw) as (m3 & f3 & m2 & f2 & m1 & Hm3 & Hf3 & Hc3 & Hm2 & Hf2 & Hc2 & Hpt & _).
  assert (m3 = l3) as -> by congruence. assert (f3 = e3) as -> by congruence. rewrite <- Hpd in Hm2.
  assert (m2 = l2) as -> by congruence. assert (f2 = e2) as -> by congruence. clear Hm3 Hf3 Hm2 Hf2.
  assert (Hlen3 : (pdpte_idx va < length l3)%nat) by by eapply lookup_lt_Some.
  assert (Hlen2 : (pde_idx va < length l2)%nat) by by eapply lookup_lt_Some.
  assert (Hlen1 : (pte_idx va < length l1)%nat).
  { pose proof (tw_len _ _ Hwf _ _ Hl1) as Hlen. cbn in Hlen. rewrite Hlen. by apply idx_lt. }
  assert (Hdp : d <> pd) by congruence. assert (Hdt : d <> pt) by congruence. assert (Hpp : pd <> pt) by congruence.
  set (tb1 := <[d := Pdpt (<[pdpte_idx va := e3']> l3)]> s.(tables)) in *.
  set (tb2 := <[pd := Pd (<[pde_idx va := e2']> l2)]> tb1) in *.
  assert (Hwf1 : tables_wf tb1 d) by (eapply pdpt_wf; [done|done|done|by left]).
  assert (Hl2' : tb1 !! pd = Some (Pd l2)) by by unfold tb1; rewrite lookup_insert_ne.
  assert (Hwf2 : tables_wf tb2 d) by (eapply pd_wf; [done|done|done|by left]).
  assert (Hl1' : tb2 !! pt = Some (Pt l1)) by (unfold tb2, tb1; by rewrite !lookup_insert_ne by congruence).
  assert (Hw2 : walk_pt tb2 d va = Some pt).
  { unfold walk_pt, walk_pd, tb2, tb1. rewrite lookup_insert_ne, lookup_insert_eq by congruence.
    rewrite list_lookup_insert_eq by done. cbn. rewrite Hb3. unfold base_ok in Hc3, Hc2.
    rewrite (proj2 (Z.eqb_neq (pd_base e3) 0)) by lia. cbn. rewrite <- Hpd, lookup_insert_eq.
    rewrite list_lookup_insert_eq by done. cbn. rewrite Hb2, (proj2 (Z.eqb_neq (table_base e2) 0)) by lia. by rewrite Hpt. }
  assert (Hwf3 : tables_wf tb d) by by apply pt_wf.
  split; [|split].
  - destruct Hps as [Ha Hlo Hv _]. split; cbn; [done|done| |done]. intros b Hb. apply Hv. intros E. apply Hb.
    unfold tb, tb2, tb1. rewrite !lookup_insert_ne by congruence. done.
  - intros va' Hva'. unfold tb. rewrite (pt_view tb2 d va pt l1 e1' va') by done.
    destruct (va' / PAGESIZE =? va / PAGESIZE); [done|].
    unfold tb2. rewrite (pd_view tb1 d pd l2 _ e2 e2') by (done || by left).
    unfold tb1. by rewrite (pdpt_view _ d l3 _ e3 e3') by (done || by left).
  - intros va' Hva' Hpg. destruct (same_page_idx va' va Hva' Hva Hpg) as (I3 & I2 & I1).
    unfold translate. rewrite I3, I2, I1.
    assert (Hd3 : tb !! d = Some (Pdpt (<[pdpte_idx va := e3']> l3))).
    { unfold tb, tb2, tb1. by rewrite !lookup_insert_ne, lookup_insert_eq by congruence. }
    rewrite Hd3, list_lookup_insert_eq by done. cbn. rewrite Hb3, <- Hpd.
    assert (Hd2 : tb !! pd = Some (Pd (<[pde_idx va := e2']> l2))).
    { unfold tb, tb2. by rewrite !lookup_insert_ne, lookup_insert_eq by congruence. }
    rewrite Hd2, list_lookup_insert_eq by done. cbn. rewrite Hb2, <- Hpt.
    unfold tb. rewrite lookup_insert_eq, list_lookup_insert_eq by done. done.
Qed.

Lemma walk_entries s d va pd pt : ps_wf s d -> is_u32 va ->
  walk_pd s.(tables) d va = Some pd -> walk_pt s.(tables) d va = Some pt ->
  exists l3 e3 l2 e2 l1 e1, s.(tables) !! d = Some (Pdpt l3) /\ l3 !! pdpte_idx va = Some e3 /\
    pd = addr_of e3.(pd_base) /\ s.(tables) !! pd = Some (Pd l2) /\ l2 !! pde_idx va = Some e2 /\
    pt = addr_of e2.(table_base) /\ s.(tables) !! pt = Some (Pt l1) /\ l1 !! pte_idx va = Some e1 /\
    pte_view s.(tables) d va = e1.
Proof.
  intros Hps Hva Hwd Hw. pose proof (pw_tables _ _ Hps) as Hwf.
  destruct (walk_pt_inv _ _ _ _ Hwf Hw) as (l3 & e3 & l2 & e2 & l1 & Hl3 & He3 & Hc3 & Hl2 & He2 & Hc2 & Hpt & Hl1).
  destruct (pt_entry _ _ _ _ va Hwf Hva Hl1) as (e1 & He1).
  assert (pd = addr_of (pd_base e3)) as ->.
  { unfold walk_pd in Hwd. rewrite Hl3, He3 in Hwd. cbn in Hwd. destruct (pd_base e3 =? 0); [done|congruence]. }
  exists l3, e3, l2, e2, l1, e1. do 8 (split; [done|]). unfold pte_view. by rewrite Hw, Hl1, He1.
Qed.

Lemma map_set_entries_spec s d va pa flags pd pt : ps_wf s d -> is_u32 va -> is_u32 pa -> pa mod PAGESIZE = 0 ->
  walk_pd s.(tables) d va = Some pd -> walk_pt s.(tables) d va = Some pt ->
  exists s', map_set_entries va pa flags d pd pt s = Ret s' /\ ps_wf s' d /\ s'.(frames) = s.(frames) /\ grows s s' /\
    (forall va', is_u32 va' -> pte_view s'.(tables) d va' =
       if va' / PAGESIZE =? va / PAGESIZE then
         mkPte true (has flags PAGE_W) (has flags PAGE_USER) (pa / PAGESIZE) (negb (has flags PAGE_X))
       else pte_view s.(tables) d va') /\
    (forall va', is_u32 va' -> va' / PAGESIZE = va / PAGESIZE ->
       translate s'.(tables) d va' = Some (pa + va' mod PAGESIZE, rights flags)).
Proof.
  intros Hps Hva Hpa Hal Hwd Hw.
  destruct (walk_entries _ _ _ _ _ Hps Hva Hwd Hw) as (l3 & e3 & l2 & e2 & l1 & e1 & Hl3 & He3 & Hpd & Hl2 & He2 & Hpt & Hl1 & He1 & _).
  unfold map_set_entries, get_pdpt. rewrite Hl3, bind_Ret, He3. cbn [deref]. rewrite bind_Ret. cbv zeta.
  assert (Hdp : d <> pd) by congruence. assert (Hdt : d <> pt) by congruence.
  unfold get_pd, get_pt. cbn [tables set_table]. rewrite !lookup_insert_ne, Hl2, bind_Ret, He2 by done. cbn [deref].
  rewrite bind_Ret, Hl1, bind_Ret, He1. cbn [deref]. rewrite bind_Ret. cbn [fst snd mm_set_pte_and_pde_flags].
  edestruct (write_entries s d va pd pt l3 e3 (pdpte_set_present e3) l2 e2 (set_pde_flags flags (pde_set_present e2)) l1
    (set_pte_flags flags (pte_set_present true (pte_set_frame_paddr pa e1)))) as (Hps' & Hview & Htr); try done.
  eexists. split; [reflexivity|]. split; [exact Hps'|]. split; [done|]. split.
  { eapply grows_trans; [apply (grows_update s d); congruence|]. eapply grows_trans; apply grows_update; cbn;
      rewrite !lookup_insert_ne by congruence; congruence. }
  assert (Hfr : Z.shiftr pa 12 = pa / PAGESIZE) by by rewrite Z.shiftr_div_pow2.
  split.
  - intros va' Hva'. etrans; [exact (Hview va' Hva')|]. unfold set_pte_flags. cbn. by rewrite Hfr.
  - intros va' Hva' Hpg. etrans; [exact (Htr va' Hva' Hpg)|]. cbn. rewrite Hfr.
    unfold rights, set_pde_flags, set_pte_flags, PAGESIZE in *. cbn. do 2 f_equal.
    + Z.div_mod_to_equations. lia.
    + destruct (pde_writable e2), (has flags PAGE_W), (has flags PAGE_USER), (pde_exec_disable e2), (has flags PAGE_X); done.
Qed.

Lemma map_page_spec s ps va pa flags : ps_wf s ps.(data) -> is_u32 va -> is_u32 pa -> pa mod PAGESIZE = 0 ->
  exists s' st, mm_map_page_arch koff va pa flags ps s = Ret (s', st) /\ ps_wf s' ps.(data) /\ s'.(frames) = s.(frames) /\ grows s s' /\
    ((st = - ENOMEM /\ forall va', pte_view s'.(tables) ps.(data) va' = pte_view s.(tables) ps.(data) va') \/
     (st = 0 /\
      (forall va', is_u32 va' -> pte_view s'.(tables) ps.(data) va' =
         if va' / PAGESIZE =? va / PAGESIZE then
           mkPte true (has flags PAGE_W) (has flags PAGE_USER) (pa / PAGESIZE) (negb (has flags PAGE_X))
         else pte_view s.(tables) ps.(data) va') /\
      (forall va', is_u32 va' -> va' / PAGESIZE = va / PAGESIZE ->
         translate s'.(tables) ps.(data) va' = Some (pa + va' mod PAGESIZE, rights flags)))).
Proof.
  intros Hps Hva Hpa Hal. unfold mm_map_page_arch.
  assert (Hd0 : ps.(data) <> 0).
  { intros E. destruct (tw_top _ _ (pw_tables _ _ Hps)) as (l & Hl). rewrite E, (tw_null _ _ (pw_tables _ _ Hps)) in Hl. done. }
  rewrite (proj2 (Z.eqb_neq _ 0) Hd0). cbn [negb assert_]. rewrite bind_Ret.
  destruct (map_get_pd_spec s ps va Hps Hva) as (s1 & pd & -> & Hps1 & Hf1 & Hg1 & Hv1 & Hc1). rewrite bind_Ret. cbn [fst snd].
  destruct Hc1 as [->|(Hpd & Hw1 & l & Hl)].
  { rewrite Z.eqb_refl. exists s1, (- ENOMEM). do 4 (split; [done|]). by left. }
  rewrite (proj2 (Z.eqb_neq pd 0)) by done.
  destruct (map_get_pt_spec s1 _ pd l va Hps1 Hva Hw1 Hl) as (s2 & pt & -> & Hps2 & Hf2 & Hg2 & Hv2 & Hc2). rewrite bind_Ret. cbn [fst snd].
  destruct Hc2 as [->|(Hpt & Hwd & Hw)].
  { rewrite Z.eqb_refl. exists s2, (- ENOMEM). split; [done|]. split; [done|]. split; [congruence|].
    split; [by eapply grows_trans|]. left. split; [done|].
    intros va'. by rewrite Hv2, Hv1. }
  rewrite (proj2 (Z.eqb_neq pt 0)) by done.
  destruct (map_set_entries_spec s2 _ va pa flags pd pt Hps2 Hva Hpa Hal Hwd Hw) as (s3 & -> & Hps3 & Hf3 & Hg3 & Hv3 & Ht3).
  rewrite bind_Ret. exists s3, 0. split; [done|]. split; [done|]. split; [congruence|].
  split; [eapply grows_trans; [exact Hg1|by eapply grows_trans]|]. right. split; [done|].
  split; [|done]. intros va' Hva'. rewrite Hv3 by done. destruct (va' / PAGESIZE =? va / PAGESIZE); [done|]. by rewrite Hv2, Hv1.
Qed.

(** ** Flags of a mapped page *)

Lemma top_nonzero s d : ps_wf s d -> d <> 0.
Proof.
  intros Hps ->. destruct (tw_top _ _ (pw_tables _ _ Hps)) as (l & Hl).
  by rewrite (tw_null _ _ (pw_tables _ _ Hps)) in Hl.
Qed.

Lemma walk_pt_pd tb d va pt : walk_pt tb d va = Some pt -> exists pd, walk_pd tb d va = Some pd.
Proof. unfold walk_pt. intros Hw. destruct (walk_pd tb d va) as [pd|]; [by exists pd|done]. Qed.

(** The entry of [va] with [f] applied; the others as they are. *)
Definition only_changes (tb tb' : gmap Z table) (d va : Z) (e : pte_t) : Prop :=
  forall va', is_u32 va' -> pte_view tb' d va' =
    if va' / PAGESIZE =? va / PAGESIZE then e else pte_view tb d va'.

Lemma set_flags_spec s ps va flags : ps_wf s ps.(data) -> is_u32 va -> va mod PAGESIZE = 0 ->
  let old := pte_view s.(tables) ps.(data) va in
  if pte_frame_paddr old =? 0 then mm_set_page_flags_arch koff va flags ps s = Ret (s, - EINVAL)
  else exists s', mm_set_page_flags_arch koff va flags ps s = Ret (s', 0) /\ ps_wf s' ps.(data) /\
    only_changes s.(tables) s'.(tables) ps.(data) va (set_pte_flags flags old).
Proof.
  intros Hps Hva Hal old. pose proof (pw_tables _ _ Hps) as Hwf. unfold mm_set_page_flags_arch. rewrite Hal.
  rewrite (proj2 (Z.eqb_neq _ 0) (top_nonzero _ _ Hps)). cbn [Z.eqb assert_ negb]. rewrite !bind_Ret.
  destruct (top_entry _ _ va Hwf Hva) as (l3 & e3 & Hl3 & He3 & Hr3).
  unfold get_pdpt. rewrite Hl3, bind_Ret, He3. cbn [deref]. rewrite bind_Ret. cbv zeta.
  destruct (pdpte_vaddr_spec _ _ e3 [] Hwf Hr3) as [-> _].
  assert (Hold : old = pte_view s.(tables) ps.(data) va) by done.
  unfold pte_view, walk_pt, walk_pd in Hold. rewrite Hl3, He3 in Hold. cbn in Hold.
  destruct (Z.eqb_spec (pd_base e3) 0) as [E3|E3]; [by rewrite Hold|]. cbn in Hold.
  destruct Hr3 as [?|(Hb3 & l2 & Hl2)]; [done|]. destruct (pdpte_vaddr_spec _ _ e3 l2 Hwf) as [_ Hn3]; [by right; eauto|].
  rewrite (proj2 (Z.eqb_neq (addr_of _) 0)) by auto. rewrite Hl2 in Hold. unfold get_pd. rewrite Hl2, bind_Ret.
  destruct (pd_entry _ _ _ _ va Hwf Hva Hl2) as (e2 & He2 & Hr2). rewrite He2 in Hold |- *. cbn [deref]. rewrite bind_Ret.
  destruct (pde_vaddr_spec _ _ e2 [] Hwf Hr2) as [-> _]. cbn in Hold.
  destruct (Z.eqb_spec (table_base e2) 0) as [E2|E2]; [by rewrite Hold|].
  destruct Hr2 as [?|(Hb2 & l1 & Hl1)]; [done|]. destruct (pde_vaddr_spec _ _ e2 l1 Hwf) as [_ Hn2]; [by right; eauto|].
  rewrite (proj2 (Z.eqb_neq (addr_of _) 0)) by auto. rewrite Hl1 in Hold. unfold get_pt. rewrite Hl1, bind_Ret.
  destruct (pt_entry _ _ _ _ va Hwf Hva Hl1) as (e1 & He1). rewrite He1 in Hold |- *. cbn in Hold.
  cbn [deref]. rewrite bind_Ret. subst old. rewrite Hold. destruct (pte_frame_paddr e1 =? 0); [done|].
  cbn [fst snd mm_set_pte_and_pde_flags].
  assert (Hw : walk_pt s.(tables) ps.(data) va = Some (addr_of (table_base e2))).
  { unfold walk_pt, walk_pd. rewrite Hl3, He3. cbn. rewrite (proj2 (Z.eqb_neq (pd_base e3) 0)) by done. cbn.
    rewrite Hl2, He2. cbn. by rewrite (proj2 (Z.eqb_neq (table_base e2) 0)). }
  edestruct (write_entries s ps.(data) va (addr_of (pd_base e3)) (addr_of (table_base e2)) l3 e3 e3 l2 e2
    (set_pde_flags flags e2) l1 (set_pte_flags flags e1)) as (Hps' & Hview & _); try done.
  rewrite (list_insert_id l3), (insert_id (tables s)) in Hps', Hview by done.
  eexists. split; [reflexivity|]. split; [exact Hps'|exact Hview].
Qed.

Lemma rm_flags_spec s ps va flags : ps_wf s ps.(data) -> is_u32 va -> va mod PAGESIZE = 0 ->
  match walk_pt s.(tables) ps.(data) va with
  | None => mm_rm_page_flags_arch koff va flags ps s = Ret (s, - ENOENT)
  | Some _ => exists s', mm_rm_page_flags_arch koff va flags ps s = Ret (s', 0) /\ ps_wf s' ps.(data) /\
      only_changes s.(tables) s'.(tables) ps.(data) va (rm_pte_flags flags (pte_view s.(tables) ps.(data) va))
  end.
Proof.
  intros Hps Hva Hal. pose proof (pw_tables _ _ Hps) as Hwf. unfold mm_rm_page_flags_arch. rewrite Hal.
  rewrite (proj2 (Z.eqb_neq _ 0) (top_nonzero _ _ Hps)). cbn [Z.eqb assert_ negb]. rewrite !bind_Ret.
  destruct (walk_code s _ va Hwf Hva) as (_ & _ & ->). rewrite bind_Ret.
  destruct (walk_pt s.(tables) ps.(data) va) as [pt|] eqn:Hw; [|done]. cbn.
  destruct (walk_pt_inv _ _ _ _ Hwf Hw) as (_ & _ & _ & _ & l1 & _ & _ & _ & _ & _ & _ & _ & Hl1).
  destruct (pt_entry _ _ _ _ va Hwf Hva Hl1) as (e1 & He1). unfold get_pt. rewrite Hl1. cbn. rewrite He1. cbn.
  assert (Hview : pte_view s.(tables) ps.(data) va = e1) by (unfold pte_view; by rewrite Hw, Hl1, He1).
  rewrite Hview. eexists. split; [reflexivity|]. split.
  - apply ps_wf_update; [done|congruence|]. by apply pt_wf.
  - intros va' Hva'. by apply pt_view.
Qed.

(** ** Tracking *)

Definition ascending (l : list Z) : Prop := StronglySorted Z.lt l.

(** The array of tracked pages is a block of its own, with room for them. *)
Definition tracks s (ps : PagingStruct) : Prop :=
  ascending ps.(pages) /\ 0 <= allocated_pages_size ps <= ps.(allocated_pages_capacity) /\
  s.(tables) !! ps.(allocated_pages) = None /\
  ((ps.(allocated_pages) = 0 /\ ps.(allocated_pages_capacity) = 0) \/
   live s.(heap) ps.(allocated_pages) = Some (4 * ps.(allocated_pages_capacity))).

Lemma track_index_spec va l : ascending l ->
  (va ∈ l /\ track_index va l = Panic) \/
  ((va ∉ l) /\ exists i, track_index va l = Ret i /\ ascending (take i l ++ va :: drop i l)).
Proof.
  intros Hs. induction Hs as [|x l Hs IH Hall]; cbn [track_index].
  - right. split; [apply not_elem_of_nil|]. exists O. split; [done|]. repeat constructor.
  - destruct (Z.eqb_spec x va) as [->|Hne]; [left; split; [by left|done]|]. rewrite Z.gtb_ltb.
    destruct (Z.ltb_spec va x) as [Hlt|Hge].
    + right. split.
      * intros [->|Hin]%elem_of_cons; [done|]. rewrite Forall_forall in Hall. specialize (Hall _ Hin). lia.
      * exists O. split; [done|]. cbn. constructor; [by constructor|]. constructor; [done|].
        eapply Forall_impl; [exact Hall|]. cbn. lia.
    + destruct IH as [[Hin ->]|(Hin & i & -> & Hi)]; [left; split; [by right|done]|].
      right. split; [by apply not_elem_of_cons|]. exists (S i). split; [done|]. cbn. constructor; [done|].
      rewrite Forall_forall in Hall |- *. intros y Hy. apply elem_of_app in Hy as [Hy|[->|Hy]%elem_of_cons].
      * apply Hall. rewrite <- (take_drop i l). apply elem_of_app. by left.
      * lia.
      * apply Hall. rewrite <- (take_drop i l). apply elem_of_app. by right.
Qed.

Lemma insert_perm i (l : list Z) va : take i l ++ va :: drop i l ≡ₚ va :: l.
Proof. rewrite <- Permutation_middle. by rewrite take_drop. Qed.

Lemma enlarge_spec s d ps : ps_wf s d -> tracks s ps ->
  exists s' ps' st, pagingstruct_enlarge_allocated_pages ps s = Ret (s', ps', st) /\ ps_wf s' d /\
    s'.(frames) = s.(frames) /\ s'.(tables) = s.(tables) /\ ps'.(pages) = ps.(pages) /\ ps'.(data) = ps.(data) /\
    ((st = 0 /\ tracks s' ps' /\ ps'.(allocated_pages_capacity) = ps.(allocated_pages_capacity) + 20) \/
     (st = - ENOMEM /\ ps' = ps)).
Proof.
  intros Hps (Hs & Hsz & Hnt & Hblk). destruct Hps as [Ha Hlo Hv Hwf].
  assert (Hcap : 0 <= 4 * ps.(allocated_pages_capacity) < 2 ^ 31 /\
    (ps.(allocated_pages) = 0 \/ live s.(heap) ps.(allocated_pages) <> None)).
  { destruct Hblk as [[E1 E2]|E]; [split; [lia|by left]|].
    destruct (live_law _ _ _ Ha E). split; [lia|right; congruence]. }
  destruct Hcap as [Hcap Hp]. unfold pagingstruct_enlarge_allocated_pages, sizeof_Page. cbv zeta.
  rewrite (u32_small (_ + 20)) by (unfold is_u32; lia). rewrite (u32_small (_ * 4)) by (unfold is_u32; lia).
  destruct (realloc_law s.(heap) ps.(allocated_pages) ((ps.(allocated_pages_capacity) + 20) * 4) Ha)
    as (h' & q & Hr & Ha' & Hc); [lia|done|]. rewrite Hr, bind_Ret. cbn [fst snd].
  pose proof (lowest_krealloc _ _ _ _ _ Ha Hr) as Hlow.
  destruct Hc as [[-> Hl]|(Hq & Hqp & Hl)].
  - rewrite Z.eqb_refl. eexists _, ps, _. split; [reflexivity|]. split; [|repeat (split; [done|]); by right].
    split; cbn; [done|by rewrite Hlow| |done]. intros b Hb. rewrite Hl, Hlow. by apply Hv.
  - rewrite (proj2 (Z.eqb_neq q 0)) by done.
    assert (Hlq : live h' q = Some ((allocated_pages_capacity ps + 20) * 4)) by by rewrite Hl, decide_True.
    assert (Hqt : s.(tables) !! q = None).
    { destruct Hqp as [->|Hqn]; [done|]. destruct (s.(tables) !! q) eqn:E; [|done].
      destruct (Hv q) as [?|?]; [congruence|congruence|].
      assert (lowest h' <= q) by (apply lowest_law; [done|congruence]). lia. }
    eexists _, _, 0. split; [reflexivity|]. split; [|do 4 (split; [done|]); left].
    + split; cbn; [done|by rewrite Hlow| |done]. intros b Hb. rewrite Hl, Hlow.
      rewrite !decide_False by congruence. by apply Hv.
    + split; [done|]. split; [|done]. split; [done|]. split; [unfold allocated_pages_size in *; cbn [pages allocated_pages_capacity]; lia|].
      split; [done|]. right. cbn. rewrite Hlq. f_equal. lia.
Qed.

Lemma track_page_spec s d ps va : ps_wf s d -> tracks s ps ->
  (va ∈ ps.(pages) /\ exists s' ps', ps_wf s' d /\
     (pagingstruct_track_page va ps s = Panic \/ pagingstruct_track_page va ps s = Ret (s', ps', - ENOMEM))) \/
  ((va ∉ ps.(pages)) /\ exists s' ps' st, pagingstruct_track_page va ps s = Ret (s', ps', st) /\ ps_wf s' d /\
    s'.(frames) = s.(frames) /\ s'.(tables) = s.(tables) /\ ps'.(data) = ps.(data) /\
    ((st = 0 /\ tracks s' ps' /\ ps'.(pages) ≡ₚ va :: ps.(pages)) \/
     (st = - ENOMEM /\ ps' = ps /\ allocated_pages_size ps = ps.(allocated_pages_capacity)))).
Proof.
  intros Hps Htr. unfold pagingstruct_track_page.
  assert (Hgo : forall s1 ps1, ps_wf s1 d -> tracks s1 ps1 -> s1.(tables) = s.(tables) -> s1.(frames) = s.(frames) ->
    ps1.(pages) = ps.(pages) -> ps1.(data) = ps.(data) -> allocated_pages_size ps1 < ps1.(allocated_pages_capacity) ->
    (va ∈ ps.(pages) /\ (i ← track_index va ps1.(pages);
       Ret (s1, mkPS ps1.(allocated_pages) (take i ps1.(pages) ++ va :: drop i ps1.(pages)) ps1.(allocated_pages_capacity) ps1.(data), 0)) = Panic) \/
    ((va ∉ ps.(pages)) /\ exists s' ps' st, (i ← track_index va ps1.(pages);
       Ret (s1, mkPS ps1.(allocated_pages) (take i ps1.(pages) ++ va :: drop i ps1.(pages)) ps1.(allocated_pages_capacity) ps1.(data), 0)) = Ret (s', ps', st) /\
      ps_wf s' d /\ s'.(frames) = s.(frames) /\ s'.(tables) = s.(tables) /\ ps'.(data) = ps.(data) /\
      ((st = 0 /\ tracks s' ps' /\ ps'.(pages) ≡ₚ va :: ps.(pages)) \/
       (st = - ENOMEM /\ ps' = ps /\ allocated_pages_size ps = ps.(allocated_pages_capacity))))).
  { intros s1 ps1 Hps1 (T1 & T2 & T3 & T4) Et Ef Ep Ed Hroom. rewrite <- Ep.
    destruct (track_index_spec va ps1.(pages) T1) as [[Hin ->]|(Hin & i & -> & Hasc)]; [by left|right].
    split; [done|]. cbn. eexists _, _, 0. split; [reflexivity|]. do 4 (split; [done|]). left. split; [done|].
    split; [|apply insert_perm]. split; [done|]. cbn. unfold allocated_pages_size in *. cbn.
    rewrite (Permutation_length (insert_perm i ps1.(pages) va)). cbn [length]. split; [lia|done]. }
  pose proof Htr as (_ & Hsz & _). destruct (Z.eqb_spec (allocated_pages_size ps) (allocated_pages_capacity ps)) as [E|E].
  - destruct (enlarge_spec s d ps Hps Htr) as (s1 & ps1 & st & -> & Hps1 & Ef & Et & Ep & Ed & Hc). rewrite bind_Ret.
    destruct Hc as [(-> & Htr1 & Hcap)|(-> & ->)]; cbn [Z.ltb Z.compare].
    + destruct (Hgo s1 ps1) as [[Hin Hp]|Hok]; try done.
      { unfold allocated_pages_size in *. rewrite Ep. lia. }
      { left. split; [done|]. exists s, ps. split; [done|]. by left. } { by right. }
    + destruct (decide (va ∈ ps.(pages))) as [Hin|Hin].
      * left. split; [done|]. exists s1, ps. split; [done|]. by right.
      * right. split; [done|]. exists s1, ps, (- ENOMEM). do 5 (split; [done|]). by right.
  - rewrite bind_Ret. cbn [Z.ltb Z.compare]. destruct (Hgo s ps) as [[Hin Hp]|Hok]; try done; [lia| |by right].
    left. split; [done|]. exists s, ps. split; [done|]. by left.
Qed.

Lemma tracks_grows s s' ps : grows s s' -> tables_wf s'.(tables) ps.(data) -> tracks s ps -> tracks s' ps.
Proof.
  intros Hg Hwf (T1 & T2 & T3 & T4). split; [done|]. split; [done|].
  destruct T4 as [[E1 E2]|E].
  - split; [rewrite E1; by apply Hwf|by left].
  - destruct (Hg ps.(allocated_pages)) as [El Et]; [congruence|]. split; [auto|right; by rewrite El].
Qed.

(** ** A new user page *)

Lemma has_lor f b c : has (Z.lor f b) c = has f c || has b c.
Proof.
  unfold has. rewrite Z.land_lor_distr_l.
  destruct (Z.eqb_spec (Z.lor (Z.land f c) (Z.land b c)) 0) as [E|E].
  - apply Z.lor_eq_0_iff in E as [-> ->]. done.
  - destruct (Z.eqb_spec (Z.land f c) 0) as [E1|]; [|done]. destruct (Z.eqb_spec (Z.land b c) 0) as [E2|]; [|done].
    by rewrite E1, E2 in E.
Qed.

(** The page was mapped to frame [k], taken for it, with [flags] for a user. *)
Definition user_page_made s s' (ps ps' : PagingStruct) (va flags k : Z) : Prop :=
  taken s.(frames) k = false /\ (forall j, 0 <= j -> taken s'.(frames) j = (j =? k) || taken s.(frames) j) /\
  only_changes s.(tables) s'.(tables) ps.(data) va
    (mkPte true (has flags PAGE_W) true k (negb (has flags PAGE_X))) /\
  (forall va', is_u32 va' -> va' / PAGESIZE = va / PAGESIZE -> translate s'.(tables) ps.(data) va' =
     Some (k * PAGESIZE + va' mod PAGESIZE, (has flags PAGE_W, true, has flags PAGE_X))) /\
  ps'.(pages) ≡ₚ va :: ps.(pages) /\ ascending ps'.(pages) /\ 0 < k < 2 ^ 20.

Lemma new_user_page_spec s ps va flags : ps_wf s ps.(data) -> falloc_wf s.(frames) -> tracks s ps ->
  is_u32 va -> va mod PAGESIZE = 0 ->
  (exists s' ps', mm_new_user_page koff va flags ps s = Ret (s', ps', 0) /\ ps_wf s' ps.(data) /\
     falloc_wf s'.(frames) /\ tracks s' ps' /\ ps'.(data) = ps.(data) /\
     exists k, user_page_made s s' ps ps' va flags k) \/
  (exists s', mm_new_user_page koff va flags ps s = Ret (s', ps, - ENOMEM) /\ ps_wf s' ps.(data) /\
     falloc_wf s'.(frames) /\ tracks s' ps /\
     forall va', pte_view s'.(tables) ps.(data) va' = pte_view s.(tables) ps.(data) va') \/
  (mm_new_user_page koff va flags ps s = Panic /\
     (va ∈ ps.(pages) \/ allocated_pages_size ps = ps.(allocated_pages_capacity))).
Proof.
  intros Hps Hf Htr Hva Hal. unfold mm_new_user_page. rewrite Hal. cbn [Z.eqb assert_]. rewrite bind_Ret.
  destruct (user_loop_spec (Z.to_nat s.(frames).(g_pgframes_user_cursor)) s.(frames) Hf) as (f1 & p & Hr & Hf1 & Hc).
  { pose proof (wf_cursor _ Hf). lia. }
  unfold falloc_one_user. rewrite Hr, bind_Ret. cbn [fst snd]. cbv zeta. set (s1 := set_frames s f1).
  assert (Hps1 : ps_wf s1 ps.(data)) by by destruct Hps.
  destruct Hc as [(-> & Ht & _)|(k & -> & Hk & Hfree & _ & Htk & _)].
  { rewrite Z.eqb_refl. right. left. exists s1. do 4 (split; [done|]). done. }
  assert (Hk20 : 0 < k < 2 ^ 20).
  { pose proof (wf_cursor _ Hf). pose proof (wf_sub _ Hf). unfold cursor_frame, PAGEFRAME_POOL_SIZE in *. lia. }
  change Falloc.PAGESIZE with PAGESIZE in *.
  rewrite (proj2 (Z.eqb_neq (k * PAGESIZE) 0)) by (unfold PAGESIZE; lia).
  destruct (map_page_spec s1 ps va (k * PAGESIZE) (Z.lor flags PAGE_USER) Hps1 Hva)
    as (s2 & st & -> & Hps2 & Hf2 & Hg2 & Hc2); [unfold is_u32, PAGESIZE; lia|by apply Z.mod_mul|].
  rewrite bind_Ret. cbn [fst snd]. assert (Hf2' : s2.(frames) = f1) by done.
  destruct Hc2 as [(-> & Hv)|(-> & Hv & Htl)].
  - cbn [Z.ltb Z.compare ENOMEM Z.opp].
    destruct (ffree_spec s2.(frames) k) as (f3 & Hfr & Hf3 & _); [by rewrite Hf2'|lia|].
    change Falloc.PAGESIZE with PAGESIZE in Hfr. rewrite Hfr, bind_Ret. right. left.
    exists (set_frames s2 f3). split; [done|]. split; [by destruct Hps2|]. split; [done|].
    split; [|exact Hv]. apply (tracks_grows s s2); [exact Hg2|apply Hps2|done].
  - cbn [Z.ltb Z.compare].
    assert (Htr2 : tracks s2 ps) by (apply (tracks_grows s s2); [exact Hg2|apply Hps2|done]).
    destruct (track_page_spec s2 _ ps va Hps2 Htr2) as [(Hin & s3 & ps3 & _ & [-> | ->])|(Hin & s3 & ps3 & st & -> & Hps3 & Ef & Et & Ed & Hc)].
    + right. right. split; [done|by left].
    + right. right. split; [done|by left].
    + rewrite bind_Ret. cbn [fst snd]. destruct Hc as [(-> & Htr3 & Hp)|(-> & -> & Hfull)]; [|right; right; split; [done|by right]].
      cbn [Z.ltb Z.compare]. left. exists s3, ps3. do 2 (split; [done|]). split; [by rewrite Ef, Hf2'|].
      do 2 (split; [done|]). exists k. split; [done|]. split; [intros j Hj; rewrite Ef, Hf2'; by apply Htk|].
      assert (HW : has (Z.lor flags PAGE_USER) PAGE_W = has flags PAGE_W) by (rewrite has_lor; apply orb_false_r).
      assert (HX : has (Z.lor flags PAGE_USER) PAGE_X = has flags PAGE_X) by (rewrite has_lor; apply orb_false_r).
      assert (HU : has (Z.lor flags PAGE_USER) PAGE_USER = true) by (rewrite has_lor; apply orb_true_r).
      rewrite Et. split; [|split; [|split; [done|split; [apply Htr3|done]]]].
      * intros va' Hva'. rewrite (Hv va' Hva'), HW, HX, HU. by rewrite Z.div_mul.
      * intros va' Hva' Hpg. rewrite (Htl va' Hva' Hpg). unfold rights. by rewrite HW, HX, HU.
Qed.

(** The physical address the kernel computes. *)
Lemma va2pa_spec s ps va : ps_wf s ps.(data) -> is_u32 va ->
  pte_view s.(tables) ps.(data) va <> zero_pte ->
  mm_va2pa_arch koff va ps s = Ret (u32 (pte_frame_paddr (pte_view s.(tables) ps.(data) va) + va mod PAGESIZE)).
Proof.
  intros Hps Hva Hne. pose proof (pw_tables _ _ Hps) as Hwf. unfold mm_va2pa_arch.
  destruct (walk_code s _ va Hwf Hva) as (_ & _ & ->). rewrite bind_Ret. unfold pte_view in *.
  destruct (walk_pt s.(tables) ps.(data) va) as [pt|] eqn:Hw; [|done]. cbn.
  destruct (walk_pt_inv _ _ _ _ Hwf Hw) as (_ & _ & _ & _ & l1 & _ & _ & _ & _ & _ & _ & _ & Hl1).
  destruct (pt_entry _ _ _ _ va Hwf Hva Hl1) as (e1 & He1). unfold get_pt. rewrite Hl1. cbn. by rewrite He1.
Qed.
End wf.

(** ** Properties *)


(** on a page whose frame is not frame 0, [mm_set_page_flags] gives the page
    exactly the flags asked for and keeps its frame and every other page; on
    any other page it returns [-EINVAL].  [mm_rm_page_flags] clears the rights
    it names, but it also sets every one it does not name: whatever the page
    was, it becomes writable, user accessible, present and executable except
    for the rights removed. *)
Theorem page_flags_correct koff (s : mstate kstate) ps va flags :
  0 <= koff < 2 ^ 32 -> (PAGESIZE | koff) -> ps_wf koff s ps.(data) -> is_u32 va -> va mod PAGESIZE = 0 ->
  let old := pte_view koff s.(tables) ps.(data) va in
  (if pte_frame_paddr old =? 0 then mm_set_page_flags_arch koff va flags ps s = Ret (s, - EINVAL)
   else exists s', mm_set_page_flags_arch koff va flags ps s = Ret (s', 0) /\ ps_wf koff s' ps.(data) /\
     only_changes koff s.(tables) s'.(tables) ps.(data) va
       (mkPte old.(pte_present) (has flags PAGE_W) (has flags PAGE_USER) old.(frame_base) (negb (has flags PAGE_X)))) /\
  match walk_pt koff s.(tables) ps.(data) va with
  | None => mm_rm_page_flags_arch koff va flags ps s = Ret (s, - ENOENT)
  | Some _ => exists s', mm_rm_page_flags_arch koff va flags ps s = Ret (s', 0) /\ ps_wf koff s' ps.(data) /\
      only_changes koff s.(tables) s'.(tables) ps.(data) va
        (mkPte (negb (has flags PAGE_PRESENT)) (negb (has flags PAGE_W)) (negb (has flags PAGE_USER))
               old.(frame_base) (has flags PAGE_X))
  end.
Proof.
  intros Hk Hk' Hps Hva Hal old. split.
  - exact (set_flags_spec koff Hk s ps va flags Hps Hva Hal).
  - exact (rm_flags_spec koff Hk s ps va flags Hps Hva Hal).
Qed.


(** A kernel mapped at 3 GiB with a 200 KiB heap and an empty paging
    structure. *)
Definition demo_koff : Z := 0xC0000000.
Definition demo_ps : PagingStruct := mkPS 0 [] 0 0xC0200000.
Definition demo_heap_k : kstate :=
  match kmalloc_boot (2 ^ 3) (mkHeap 0xC0400000 50) with Ret k => k | _ => boot_state end.
Definition demo_mm (f : fstate) : mstate kstate := mkM demo_heap_k f {[ demo_ps.(data) := Pdpt pdpt_init ]}.

Lemma single_table_wf koff d : d <> 0 -> tables_wf koff {[ d := Pdpt pdpt_init ]} d.
Proof.
  intros Hd. assert (Hz : forall i e, pdpt_init !! i = Some e -> e = zero_pdpte)
    by (unfold pdpt_init; by intros i e [-> _]%lookup_replicate).
  assert (Hs : forall a t, ({[ d := Pdpt pdpt_init ]} : gmap Z table) !! a = Some t -> t = Pdpt pdpt_init)
    by (intros a t Ha; apply lookup_singleton_Some in Ha; by destruct Ha).
  split.
  - by rewrite lookup_singleton_ne.
  - eexists; apply lookup_singleton_eq.
  - by intros a t ->%Hs.
  - intros l i e Ha Hi. apply Hs in Ha. assert (l = pdpt_init) as -> by congruence. left. by rewrite (Hz _ _ Hi).
  - by intros a l i e Ha%Hs.
  - intros l i j e e' Ha Hi _ Hne. apply Hs in Ha. assert (l = pdpt_init) as -> by congruence. by rewrite (Hz _ _ Hi) in Hne.
  - by intros a b l m i j e e' Ha%Hs.
Qed.

Lemma single_table_at (d a : Z) (t : table) : ({[ d := t ]} : gmap Z table) !! a <> None -> a = d.
Proof. intros Ha. destruct (decide (d = a)) as [->|Hne]; [done|]. by rewrite lookup_singleton_ne in Ha. Qed.

Lemma demo_mm_wf f : ps_wf demo_koff (demo_mm f) demo_ps.(data).
Proof.
  destruct (kmalloc_boot_spec 3 (mkHeap 0xC0400000 50)) as (k & Hb & Hk & _); [done|done|done|done|].
  assert (Hd : demo_heap_k = k) by (unfold demo_heap_k; by rewrite Hb).
  assert (Hl : klowest demo_heap_k = 0xC0400000) by (vm_compute; reflexivity).
  split; cbn [heap tables demo_mm].
  - rewrite Hd. exact Hk.
  - change (lowest demo_heap_k) with (klowest demo_heap_k). rewrite Hl. unfold demo_koff. lia.
  - intros a Ha. right. change (lowest demo_heap_k) with (klowest demo_heap_k). rewrite Hl.
    apply single_table_at in Ha as ->. cbn. lia.
  - by apply single_table_wf.
Qed.


Lemma page_flags_correct_witness :
  mm_rm_page_flags_arch demo_koff 0x8000000 PAGE_X demo_ps (demo_mm falloc_boot) = Ret (demo_mm falloc_boot, - ENOENT).
Proof.
  exact (proj2 (page_flags_correct demo_koff (demo_mm falloc_boot) demo_ps 0x8000000 PAGE_X
    ltac:(unfold demo_koff; lia) ltac:(by exists 0xC0000) (demo_mm_wf falloc_boot) ltac:(unfold is_u32; lia) eq_refl)).
Defined.

(** [PAGE_X] removed from a read-only kernel page: it ends up writable and open
    to users. *)
Example rm_exec_opens_page : rm_pte_flags PAGE_X (mkPte true false false 5 false) = mkPte true true true 5 true.
Proof. reflexivity. Qed.

Lemma demo_tracks f : tracks (demo_mm f) demo_ps.
Proof. split; [constructor|]. split; [done|]. split; [done|by left]. Qed.

