(* ===== verification/Bitmap.v ===== *)
(** * Unit bitmaps and the DMA range mapper

    [kernel/utils/bitmap.c]: a bitmap of units handed out in runs, searched
    from a cursor; [kernel/mem/dma.c]: ranges of virtual pages from it. *)
From S2P Require Import Prelude Alloc Bitwise Gallocator Kmalloc MRegMap Falloc Paging.

(** ** The bitmap *)

Definition EINVAL : Z := 22.
Definition ENOMEM : Z := 12.

(** [start] is the block [start_ptr] of [size] bytes. *)
Record Bitmap := mkBM { start_ptr : Z; start : list Z; size : Z; byte_cursor : Z; bit_cursor : Z }.
Definition set_bytes (bm : Bitmap) (l : list Z) : Bitmap :=
  mkBM bm.(start_ptr) l bm.(size) bm.(byte_cursor) bm.(bit_cursor).
Definition set_cursor (bm : Bitmap) (byte bit : Z) : Bitmap :=
  mkBM bm.(start_ptr) bm.(start) bm.(size) byte bit.

(** The inner loop of [bitmap_mark_bitmap] on one byte, from bit [k] for [m]
    bits: the byte, what is left of [n], and whether that reached 0. *)
Fixpoint mark_byte (m : nat) (k b n : Z) : Z * Z * bool :=
  match m with
  | O => (b, n, false)
  | S m =>
      let b := u8 (Z.lor b (Z.shiftl 1 k)) in
      let n := u32 (n - 1) in
      if n =? 0 then (b, n, true) else mark_byte m (k + 1) b n
  end.
(** The outer loop over [m] bytes from [i]; every byte is marked from [bit]. *)
Fixpoint mark_loop (m : nat) (i : nat) (bit n : Z) (l : list Z) : outcome (list Z * Z) :=
  match m with
  | O => Ret (l, -1)
  | S m =>
      b ← deref (l !! i);
      let r := mark_byte (Z.to_nat (8 - bit)) bit b n in
      let l := <[i := r.1.1]> l in
      if r.2 : bool then Ret (l, 0) else mark_loop m (S i) bit r.1.2 l
  end.
Definition bitmap_mark_bitmap (byte bit n : Z) (bm : Bitmap) : outcome (Bitmap * Z) :=
  r ← mark_loop (Z.to_nat (bm.(size) - byte)) (Z.to_nat byte) bit n bm.(start);
  Ret (set_bytes bm r.1, r.2).

(** The run found so far: its length and the byte and bit of its start. *)
Record run := mkRun { found : Z; byte_start : Z; bit_start : Z }.

(** The bits of one byte from [bit], [m] of them: the run reaching [n] and its
    last bit, or the run so far. *)
Fixpoint scan_bits (m : nat) (val n byte bit : Z) (r : run) : (run * Z) + run :=
  match m with
  | O => inr r
  | S m =>
      if Z.land val (Z.shiftl 1 bit) =? 0 then
        let r := if r.(found) =? 0 then mkRun 0 byte bit else r in
        let r := mkRun (u32 (r.(found) + 1)) r.(byte_start) r.(bit_start) in
        if negb (r.(found) =? n) then scan_bits m val n byte (bit + 1) r else inl (r, bit)
      else scan_bits m val n byte (bit + 1) (mkRun 0 r.(byte_start) r.(bit_start))
  end.

(** The loop over [m] bytes from the cursor. *)
Fixpoint scan_bytes (m : nat) (n : Z) (r : run) (bm : Bitmap) : outcome (Bitmap * Z) :=
  match m with
  | O => Ret (bm, - ENOMEM)
  | S m =>
      val ← deref (bm.(start) !! Z.to_nat bm.(byte_cursor));
      match scan_bits (Z.to_nat (8 - bm.(bit_cursor))) val n bm.(byte_cursor) bm.(bit_cursor) r with
      | inr r => scan_bytes m n r (set_cursor bm (bm.(byte_cursor) + 1) 0)
      | inl (r, bit) =>
          mk ← bitmap_mark_bitmap r.(byte_start) r.(bit_start) n bm;
          _ ← assert_ (mk.2 =? 0);
          let bm := mk.1 in
          let bit := bit + 1 in
          let bm := if bit =? 8 then
                      set_cursor bm (if bm.(byte_cursor) + 1 =? bm.(size) then 0 else bm.(byte_cursor) + 1) 0
                    else set_cursor bm bm.(byte_cursor) bit in
          Ret (bm, i32 (r.(byte_start) * 8 + r.(bit_start)))
      end
  end.
Definition bitmap_first_n_free_and_mark (n : Z) (bm : Bitmap) : outcome (Bitmap * Z) :=
  scan_bytes (Z.to_nat (bm.(size) - bm.(byte_cursor))) n (mkRun 0 0 0) bm.

Section init.
Context {H : Type} `{!Allocator H}.
(** [ceil(units / 8.0)] is exact on 32-bit integers. *)
Definition bitmap_init (units : Z) (h : H) (bm : Bitmap) : outcome (H * Bitmap * Z) :=
  if units =? 0 then Ret (h, bm, - EINVAL)
  else
    let sz := (units + 7) / 8 in
    r ← kcalloc_ sz h;
    if r.2 =? 0 then Ret (r.1, mkBM 0 bm.(start) bm.(size) bm.(byte_cursor) bm.(bit_cursor), - ENOMEM)
    else Ret (r.1, mkBM r.2 (replicate (Z.to_nat sz) 0) sz 0 0, 0).
End init.

(** ** DMA ranges *)

Definition PAGESIZE : Z := 4096.

Section dma.
Context {H : Type} `{!Allocator H} `{!AlignedAllocator H} (koff : Z).

(** The parts of a process the mapper uses. *)
Record dmaproc := mkDP { dma_heap : Heap; dma_bitmap : Bitmap; paging_struct : PagingStruct }.
Definition BITMAP_NOT_INIT (bm : Bitmap) : bool := bm.(size) =? 0.

Fixpoint dma_map_loop (m : nat) (i start paddr flags : Z) (p : dmaproc) (s : mstate H) : outcome (mstate H * Z) :=
  match m with
  | O => Ret (s, 0)
  | S m =>
      r ← mm_map_page koff (u32 (p.(dma_heap).(vaddr) + u32 ((start + i) * PAGESIZE)))
            (u32 (paddr + u32 (i * PAGESIZE))) flags p.(paging_struct) s;
      if r.2 <? 0 then Ret r else dma_map_loop m (i + 1) start paddr flags p r.1
  end.

(** The error (0 when none) and the address. *)
Definition dma_map_range (paddr n flags : Z) (p : dmaproc) (s : mstate H) : outcome (mstate H * dmaproc * (Z * Z)) :=
  _ ← assert_ (paddr mod PAGESIZE =? 0);
  r ← (if BITMAP_NOT_INIT p.(dma_bitmap) then
         r ← bitmap_init (u32 p.(dma_heap).(pagespan)) s.(heap) p.(dma_bitmap);
         Ret (set_heap s r.1.1, mkDP p.(dma_heap) r.1.2 p.(paging_struct), r.2)
       else Ret (s, p, 0));
  let '(s, p, st) := r : mstate H * dmaproc * Z in
  if st <? 0 then Ret (s, p, (st, 0))
  else
    let pages := u32 (Bytes.bytes_align_up64 n PAGESIZE) / PAGESIZE in
    r ← bitmap_first_n_free_and_mark pages p.(dma_bitmap);
    let p := mkDP p.(dma_heap) r.1 p.(paging_struct) in
    if r.2 <? 0 then Ret (s, p, (- ENOMEM, 0))
    else
      let start := r.2 in
      r ← dma_map_loop (Z.to_nat pages) 0 start paddr flags p s;
      if r.2 <? 0 then Ret (r.1, p, (r.2, 0))
      else Ret (r.1, p, (0, u32 (p.(dma_heap).(vaddr) + u32 (start * PAGESIZE)))).
End dma.

(** ** Units *)

Definition unit_taken (l : list Z) (j : Z) : bool :=
  match l !! Z.to_nat (j / 8) with Some b => Z.testbit b (j mod 8) | None => true end.

Record bm_wf (bm : Bitmap) : Prop := {
  bw_len : Z.of_nat (length bm.(start)) = bm.(size);
  bw_bytes : Forall is_u8 bm.(start);
  bw_size : bm.(size) < 2 ^ 28;
  bw_byte : 0 <= bm.(byte_cursor) <= bm.(size);
  bw_bit : 0 <= bm.(bit_cursor) < 8 }.

(** The units [bitmap_mark_bitmap] marks for [n] units from [u]: in every byte
    only the bits from [u mod 8] on. *)
Definition marked (u n j : Z) : bool :=
  (u / 8 <=? j / 8) && (u mod 8 <=? j mod 8) &&
  ((j / 8 - u / 8) * (8 - u mod 8) + (j mod 8 - u mod 8) <? n).

Lemma unit_split u : u = 8 * (u / 8) + u mod 8 /\ 0 <= u mod 8 < 8.
Proof. split; [apply Z.div_mod; lia|by apply Z.mod_pos_bound]. Qed.

Lemma unit_at i b : 0 <= b < 8 -> (8 * i + b) / 8 = i /\ (8 * i + b) mod 8 = b.
Proof. intros. split; Z.div_mod_to_equations; lia. Qed.

Lemma marked_exact u n j : u mod 8 = 0 \/ u mod 8 + n <= 8 -> marked u n j = (u <=? j) && (j <? u + n).
Proof.
  intros Hu. unfold marked. destruct (unit_split u) as [Eu Ru], (unit_split j) as [Ej Rj].
  set (a := u / 8) in *. set (b := u mod 8) in *. set (c := j / 8) in *. set (d := j mod 8) in *.
  destruct Hu as [Hb|Hb].
  - rewrite Hb in *. destruct (Z.leb_spec a c), (Z.leb_spec 0 d), (Z.ltb_spec ((c - a) * (8 - 0) + (d - 0)) n),
      (Z.leb_spec u j), (Z.ltb_spec j (u + n)); cbn; lia.
  - destruct (Z.leb_spec a c), (Z.leb_spec b d), (Z.leb_spec u j), (Z.ltb_spec j (u + n)); cbn; try lia;
      destruct (Z.ltb_spec ((c - a) * (8 - b) + (d - b)) n); try lia.
    + exfalso. assert (c = a \/ a + 1 <= c) as [->|] by lia; nia.
    + exfalso. assert (c = a \/ a + 1 <= c) as [->|] by lia; nia.
Qed.

Lemma mark_byte_spec m : forall k b n, 0 <= k -> k + Z.of_nat m = 8 -> is_u8 b -> 1 <= n < 2 ^ 32 ->
  exists b' n', mark_byte m k b n = (b', n', n <=? Z.of_nat m) /\ is_u8 b' /\
    (Z.of_nat m < n -> n' = n - Z.of_nat m) /\
    forall j, 0 <= j < 8 -> Z.testbit b' j = Z.testbit b j || ((k <=? j) && (j <? k + n)).
Proof.
  induction m as [|m IH]; intros k b n Hk Hkm Hb Hn; cbn [mark_byte].
  - exists b, n. rewrite (proj2 (Z.leb_gt _ _)) by lia. do 2 (split; [done|]). split; [lia|].
    intros j Hj. rewrite (proj2 (Z.leb_gt k j)) by lia. by rewrite orb_false_r.
  - set (b1 := u8 (Z.lor b (Z.shiftl 1 k))).
    assert (Hbit : forall j, 0 <= j < 8 -> Z.testbit b1 j = Z.testbit b j || (k =? j)).
    { intros j Hj. unfold b1, u8. rewrite testbit_mod, (proj2 (Z.ltb_lt j 8)), Z.lor_spec, Z.shiftl_1_l, Z.pow2_bits_eqb by lia. done. }
    rewrite u32_small by (unfold is_u32; lia). destruct (Z.eqb_spec (n - 1) 0) as [E|E].
    + exists b1, (n - 1). rewrite (proj2 (Z.leb_le _ _)) by lia. split; [done|]. split; [apply u8_range|]. split; [lia|].
      intros j Hj. rewrite Hbit by lia. f_equal. destruct (Z.eqb_spec k j), (Z.leb_spec k j), (Z.ltb_spec j (k + n)); cbn; lia.
    + destruct (IH (k + 1) b1 (n - 1)) as (b' & n' & -> & Hb' & Hn' & Hj'); [lia|lia|apply u8_range|lia|].
      exists b', n'. split; [f_equal; destruct (Z.leb_spec (n - 1) (Z.of_nat m)), (Z.leb_spec n (Z.of_nat (S m))); lia|].
      split; [done|]. split; [lia|]. intros j Hj. rewrite Hj', Hbit, <- orb_assoc by lia. f_equal.
      destruct (Z.eqb_spec k j), (Z.leb_spec k j), (Z.leb_spec (k + 1) j), (Z.ltb_spec j (k + 1 + (n - 1))), (Z.ltb_spec j (k + n)); cbn; lia.
Qed.

(** What marking [n] units from bit [bit] of byte [i] on adds. *)
Definition marks (i bit n j : Z) : bool :=
  (i <=? j / 8) && (bit <=? j mod 8) && ((j / 8 - i) * (8 - bit) + (j mod 8 - bit) <? n).

Lemma unit_taken_insert l i b j : 0 <= j -> (i < length l)%nat ->
  unit_taken (<[i := b]> l) j = if j / 8 =? Z.of_nat i then Z.testbit b (j mod 8) else unit_taken l j.
Proof.
  intros Hj Hi. unfold unit_taken. assert (0 <= j / 8) by (apply Z.div_pos; lia).
  destruct (Z.eqb_spec (j / 8) (Z.of_nat i)) as [->|Hne].
  - by rewrite Nat2Z.id, list_lookup_insert_eq.
  - by rewrite list_lookup_insert_ne by lia.
Qed.

Lemma mark_loop_spec m : forall i bit n l, 0 <= bit < 8 -> Forall is_u8 l -> (i + m = length l)%nat -> 1 <= n < 2 ^ 32 ->
  exists l', mark_loop m i bit n l = Ret (l', if n <=? Z.of_nat m * (8 - bit) then 0 else -1) /\
    Forall is_u8 l' /\ length l' = length l /\
    (n <= Z.of_nat m * (8 - bit) ->
     forall j, 0 <= j -> unit_taken l' j = unit_taken l j || marks (Z.of_nat i) bit n j).
Proof.
  induction m as [|m IH]; intros i bit n l Hbit Hl Hlen Hn; cbn [mark_loop].
  - exists l. rewrite (proj2 (Z.leb_gt _ _)) by lia. do 3 (split; [done|]). lia.
  - destruct (lookup_lt_is_Some_2 l i) as (b & Hb); [lia|]. rewrite Hb. cbn [deref]. rewrite bind_Ret.
    assert (Hb8 : is_u8 b) by by eapply Forall_lookup_1.
    destruct (mark_byte_spec (Z.to_nat (8 - bit)) bit b n) as (b' & n' & -> & Hb' & Hn' & Hbits); [lia|lia|done|done|].
    rewrite Z2Nat.id in * by lia. cbn [fst snd]. cbv zeta.
    assert (Hins : Forall is_u8 (<[i := b']> l)) by by apply Forall_insert.
    assert (Hbyte : forall j, 0 <= j -> unit_taken (<[i := b']> l) j =
      unit_taken l j || ((j / 8 =? Z.of_nat i) && (bit <=? j mod 8) && (j mod 8 <? bit + n))).
    { intros j Hj. rewrite unit_taken_insert by (done || lia). destruct (Z.eqb_spec (j / 8) (Z.of_nat i)) as [E|E].
      - rewrite Hbits by by apply Z.mod_pos_bound. f_equal. unfold unit_taken. by rewrite E, Nat2Z.id, Hb.
      - by rewrite orb_false_r. }
    destruct (Z.leb_spec n (8 - bit)) as [Hle|Hgt].
    + exists (<[i := b']> l). rewrite (proj2 (Z.leb_le _ _)) by nia. split; [done|]. split; [done|]. split; [by rewrite length_insert|].
      intros _ j Hj. rewrite Hbyte by done. f_equal. unfold marks. destruct (unit_split j) as [Ej Rj].
      set (c := j / 8) in *. set (d := j mod 8) in *.
      destruct (Z.eqb_spec c (Z.of_nat i)) as [->|Hc].
      * rewrite Z.leb_refl. destruct (Z.leb_spec bit d), (Z.ltb_spec d (bit + n)), (Z.ltb_spec ((Z.of_nat i - Z.of_nat i) * (8 - bit) + (d - bit)) n); cbn; lia.
      * destruct (Z.leb_spec (Z.of_nat i) c), (Z.leb_spec bit d); cbn; try lia.
        symmetry. apply Z.ltb_ge. assert (1 <= c - Z.of_nat i) by lia. nia.
    + rewrite Hn' by lia. destruct (IH (S i) bit (n - (8 - bit)) (<[i := b']> l)) as (l' & -> & Hl' & Hlen' & Hj');
        [done|done|rewrite length_insert; lia|lia|].
      exists l'. split; [|split; [done|split; [by rewrite Hlen', length_insert|]]].
      { do 2 f_equal. destruct (Z.leb_spec (n - (8 - bit)) (Z.of_nat m * (8 - bit))), (Z.leb_spec n (Z.of_nat (S m) * (8 - bit))); done || lia. }
      intros Hcap j Hj. rewrite Hj' by lia. rewrite Hbyte, <- orb_assoc by done. f_equal. unfold marks.
      destruct (unit_split j) as [Ej Rj]. set (c := j / 8) in *. set (d := j mod 8) in *.
      rewrite Nat2Z.inj_succ. destruct (Z.eqb_spec c (Z.of_nat i)) as [->|Hc].
      * rewrite Z.leb_refl, (proj2 (Z.leb_gt (Z.succ _) _)) by lia. cbn. rewrite orb_false_r. f_equal.
        destruct (Z.ltb_spec d (bit + n)), (Z.ltb_spec ((Z.of_nat i - Z.of_nat i) * (8 - bit) + (d - bit)) n); lia.
      * cbn. destruct (Z.leb_spec (Z.of_nat i) c), (Z.leb_spec (Z.succ (Z.of_nat i)) c); try lia; cbn.
        f_equal. destruct (Z.ltb_spec ((c - Z.succ (Z.of_nat i)) * (8 - bit) + (d - bit)) (n - (8 - bit))),
          (Z.ltb_spec ((c - Z.of_nat i) * (8 - bit) + (d - bit)) n); lia.
Qed.

(** ** The search *)

Section scan.
Context (l : list Z) (n c0 : Z) (Hn : 1 <= n < 2 ^ 32) (Hl : Forall is_u8 l).

Definition free_run (u : Z) : Prop := forall j, u <= j < u + n -> unit_taken l j = false.
Definition no_run (p : Z) : Prop := forall u, c0 <= u -> u + n <= p -> ~ free_run u.

(** At unit [p]: the current run ends there, starts after a taken unit or at
    the cursor, and is too short. *)
Record scan_inv (p : Z) (r : run) : Prop := {
  si_found : 0 <= r.(found) < n /\ c0 <= p - r.(found);
  si_start : 0 < r.(found) -> 8 * r.(byte_start) + r.(bit_start) = p - r.(found) /\ 0 <= r.(bit_start) < 8;
  si_free : forall j, p - r.(found) <= j < p -> unit_taken l j = false;
  si_before : p - r.(found) = c0 \/ unit_taken l (p - r.(found) - 1) = true;
  si_none : no_run p }.

(** [u] is the first run from the cursor, found as [r]. *)
Definition first_run (u : Z) (r : run) : Prop :=
  c0 <= u /\ free_run u /\ no_run (u + n - 1) /\
  8 * r.(byte_start) + r.(bit_start) = u /\ 0 <= r.(bit_start) < 8.

Lemma bit_test b k : 0 <= k < 8 -> (Z.land b (Z.shiftl 1 k) =? 0) = negb (Z.testbit b k).
Proof.
  intros Hk. rewrite Z.shiftl_1_l. destruct (Z.testbit b k) eqn:E; cbn.
  - apply Z.eqb_neq. intros E0. apply (f_equal (fun z => Z.testbit z k)) in E0.
    rewrite Z.land_spec, Z.pow2_bits_true, E, Z.bits_0 in E0 by lia. done.
  - apply Z.eqb_eq. apply Z.bits_inj'. intros j Hj. rewrite Z.land_spec, Z.bits_0, Z.pow2_bits_eqb by lia.
    destruct (Z.eqb_spec k j) as [<-|]; [by rewrite E|apply andb_false_r].
Qed.

Lemma step_taken p r : scan_inv p r -> unit_taken l p = true -> c0 <= p ->
  scan_inv (p + 1) (mkRun 0 r.(byte_start) r.(bit_start)).
Proof.
  intros I Ht Hp. split; cbn [found]; [lia|lia|lia|right; by replace (p + 1 - 0 - 1) with p by lia|].
  intros u Hu Hup Hf. destruct (Z.eq_dec (u + n) (p + 1)) as [E|E].
  - rewrite (Hf p) in Ht by lia. done.
  - apply (si_none _ _ I u Hu); [lia|done].
Qed.

(** A free unit makes the run one longer, or completes it. *)
Lemma step_free p r byte bit : scan_inv p r -> unit_taken l p = false -> p = 8 * byte + bit -> 0 <= bit < 8 ->
  let r0 := if r.(found) =? 0 then mkRun 0 byte bit else r in
  let r' := mkRun (u32 (r0.(found) + 1)) r0.(byte_start) r0.(bit_start) in
  if r'.(found) =? n then first_run (p + 1 - n) r' else scan_inv (p + 1) r'.
Proof.
  intros [[Hf Hc] Hs Hfree Hbef Hnone] Ht Hp Hbit r0 r'.
  assert (Hr0 : r0.(found) = r.(found) /\ 8 * r0.(byte_start) + r0.(bit_start) = p - r.(found) /\ 0 <= r0.(bit_start) < 8).
  { unfold r0. destruct (Z.eqb_spec r.(found) 0) as [E|E]; cbn; [lia|]. destruct Hs; lia. }
  destruct Hr0 as (E0 & Es & Eb). assert (Hfr : r'.(found) = r.(found) + 1).
  { unfold r'. cbn. rewrite E0, u32_small; [done|unfold is_u32; lia]. }
  assert (Hall : forall j, p - r.(found) <= j < p + 1 -> unit_taken l j = false).
  { intros j Hj. destruct (Z.eq_dec j p) as [->|]; [done|]. apply Hfree. lia. }
  rewrite Hfr. destruct (Z.eqb_spec (r.(found) + 1) n) as [E|E].
  - assert (Hst : p - r.(found) = p + 1 - n) by lia. rewrite Hst in *.
    split; [lia|]. split; [intros j Hj; apply Hall; lia|]. split; [|unfold r'; cbn; lia].
    intros u Hu Hup. apply Hnone; [done|lia].
  - split; rewrite ?Hfr.
    + lia.
    + intros _. unfold r'. cbn. lia.
    + intros j Hj. apply Hall. lia.
    + replace (p + 1 - (r.(found) + 1)) with (p - r.(found)) by lia. done.
    + intros u Hu Hup Hrun. destruct (Z.eq_dec (u + n) (p + 1)) as [Eu|Eu]; [|by apply (Hnone u); [|lia|]].
      destruct Hbef as [Hb|Hb]; [lia|]. rewrite (Hrun (p - r.(found) - 1)) in Hb by lia. done.
Qed.

Lemma scan_bits_spec m : forall val byte bit r, 0 <= bit -> bit + Z.of_nat m = 8 -> l !! Z.to_nat byte = Some val -> 0 <= byte ->
  c0 <= 8 * byte + bit -> scan_inv (8 * byte + bit) r ->
  match scan_bits m val n byte bit r with
  | inr r' => scan_inv (8 * byte + 8) r'
  | inl (r', b) => bit <= b < 8 /\ first_run (8 * byte + b + 1 - n) r'
  end.
Proof.
  induction m as [|m IH]; intros val byte bit r Hb Hbm Hv Hby Hc I; cbn [scan_bits].
  - by replace (8 * byte + 8) with (8 * byte + bit) by lia.
  - assert (Ht : unit_taken l (8 * byte + bit) = Z.testbit val bit).
    { unfold unit_taken. destruct (unit_at byte bit) as [-> ->]; [lia|]. by rewrite Hv. }
    rewrite bit_test by lia. destruct (Z.testbit val bit); cbn [negb].
    + pose proof (step_taken _ _ I Ht Hc) as I'. replace (8 * byte + bit + 1) with (8 * byte + (bit + 1)) in I' by lia.
      specialize (IH val byte (bit + 1) _ ltac:(lia) ltac:(lia) Hv Hby ltac:(lia) I').
      destruct (scan_bits m val n byte (bit + 1) _) as [[r' b]|r']; [|done]. destruct IH. split; [lia|done].
    + pose proof (step_free _ _ byte bit I Ht eq_refl ltac:(lia)) as I'. cbv zeta in I'.
      set (r' := mkRun (u32 _) _ _) in *. destruct (Z.eqb_spec r'.(found) n) as [E|E]; cbn [negb].
      * split; [lia|done].
      * replace (8 * byte + bit + 1) with (8 * byte + (bit + 1)) in I' by lia.
        specialize (IH val byte (bit + 1) _ ltac:(lia) ltac:(lia) Hv Hby ltac:(lia) I').
        destruct (scan_bits m val n byte (bit + 1) _) as [[r'' b]|r'']; [|done]. destruct IH. split; [lia|done].
Qed.
End scan.

(** The result of a search that finds the run at [u]: marked, the cursor right
    behind it (back at the start when it ends the map), or a panic when the
    marking leaves the map. *)
Definition cursor_unit (bm : Bitmap) : Z := 8 * bm.(byte_cursor) + bm.(bit_cursor).
Definition alloc_result (bm : Bitmap) (n u : Z) (o : outcome (Bitmap * Z)) : Prop :=
  if n <=? (bm.(size) - u / 8) * (8 - u mod 8) then
    exists bm', o = Ret (bm', u) /\ bm_wf bm' /\ bm'.(size) = bm.(size) /\
      (forall j, 0 <= j -> unit_taken bm'.(start) j = unit_taken bm.(start) j || marked u n j) /\
      cursor_unit bm' = if u + n =? 8 * bm.(size) then 0 else u + n
  else o = Panic.

Lemma mark_bitmap_spec bm u n : bm_wf bm -> 1 <= n < 2 ^ 32 -> 0 <= u -> u < 8 * bm.(size) ->
  exists bm', bitmap_mark_bitmap (u / 8) (u mod 8) n bm =
    Ret (bm', if n <=? (bm.(size) - u / 8) * (8 - u mod 8) then 0 else -1) /\ bm_wf bm' /\
    bm'.(size) = bm.(size) /\ bm'.(byte_cursor) = bm.(byte_cursor) /\ bm'.(bit_cursor) = bm.(bit_cursor) /\
    (n <= (bm.(size) - u / 8) * (8 - u mod 8) ->
     forall j, 0 <= j -> unit_taken bm'.(start) j = unit_taken bm.(start) j || marked u n j).
Proof.
  intros Hwf Hn Hu Hus. destruct (unit_split u) as [Eu Ru]. assert (0 <= u / 8) by (apply Z.div_pos; lia).
  pose proof (bw_len _ Hwf). unfold bitmap_mark_bitmap.
  destruct (mark_loop_spec (Z.to_nat (bm.(size) - u / 8)) (Z.to_nat (u / 8)) (u mod 8) n bm.(start)) as (l' & -> & Hl' & Hlen & Hm);
    [done|apply Hwf|lia|done|].
  rewrite bind_Ret. cbn [fst snd]. rewrite !Z2Nat.id in * by lia. eexists. split; [reflexivity|].
  split; [|split; [done|split; [done|split; [done|exact Hm]]]].
  destruct Hwf. split; cbn; try done. by rewrite Hlen.
Qed.

Lemma scan_bytes_spec m : forall n c0 bm r, bm_wf bm -> 1 <= n < 2 ^ 32 -> 0 <= c0 ->
  bm.(byte_cursor) = bm.(size) - Z.of_nat m -> c0 <= cursor_unit bm ->
  (bm.(bit_cursor) = 0 \/ (0 < m)%nat) -> scan_inv bm.(start) n c0 (cursor_unit bm) r ->
  (exists bm', scan_bytes m n r bm = Ret (bm', - ENOMEM) /\ bm_wf bm' /\ bm'.(start) = bm.(start) /\
     bm'.(size) = bm.(size) /\ bm'.(byte_cursor) = bm.(size) /\ no_run bm.(start) n c0 (8 * bm.(size))) \/
  (exists u, c0 <= u /\ u + n <= 8 * bm.(size) /\ free_run bm.(start) n u /\ no_run bm.(start) n c0 (u + n - 1) /\
     alloc_result bm n u (scan_bytes m n r bm)).
Proof.
  induction m as [|m IH]; intros n c0 bm r Hwf Hn Hc0 Hbc Hcu Hz I; unfold cursor_unit in *; cbn [scan_bytes].
  - left. exists bm. do 4 (split; [done|]). split; [lia|]. destruct Hz as [Hz|Hz]; [|lia].
    replace (8 * size bm) with (8 * byte_cursor bm + bit_cursor bm) by lia. apply I.
  - pose proof (bw_len _ Hwf) as Hlen. pose proof (bw_byte _ Hwf) as Hby. pose proof (bw_bit _ Hwf) as Hbi.
    destruct (lookup_lt_is_Some_2 bm.(start) (Z.to_nat bm.(byte_cursor))) as (val & Hv); [lia|].
    rewrite Hv. cbn [deref]. rewrite bind_Ret.
    pose proof (scan_bits_spec bm.(start) n c0 Hn (Z.to_nat (8 - bm.(bit_cursor))) val _ bm.(bit_cursor) r
      ltac:(lia) ltac:(lia) Hv ltac:(lia) Hcu I) as Hscan.
    destruct (scan_bits _ val n _ _ r) as [[r' b]|r'].
    + right. destruct Hscan as (Hb & Hc & Hfree & Hnone & Hst & Hbs). set (u := 8 * byte_cursor bm + b + 1 - n) in *.
      exists u. split; [done|]. split; [lia|]. split; [done|]. split; [done|].
      destruct (unit_at r'.(byte_start) r'.(bit_start) Hbs) as [Eb Em]. rewrite Hst in Eb, Em.
      destruct (mark_bitmap_spec bm u n Hwf Hn ltac:(lia) ltac:(lia)) as (bm1 & Hmark & Hwf1 & Hs1 & Hby1 & Hbi1 & Hm1).
      rewrite Eb, Em in Hmark, Hm1. rewrite Hmark, bind_Ret. unfold alloc_result. rewrite Eb, Em.
      destruct (Z.leb_spec n ((size bm - byte_start r') * (8 - bit_start r'))) as [Hcap|Hcap]; [|done].
      cbn [fst snd Z.eqb assert_]. rewrite bind_Ret. cbv zeta.
      assert (Hval : i32 (byte_start r' * 8 + bit_start r') = u).
      { rewrite Z.mul_comm, Hst. apply i32_small. pose proof (bw_size _ Hwf). unfold is_i32. lia. }
      rewrite Hval, Hby1, Hs1. eexists. split; [reflexivity|]. destruct Hwf1.
      destruct (Z.eqb_spec (b + 1) 8) as [E8|E8].
      * destruct (Z.eqb_spec (byte_cursor bm + 1) (size bm)) as [Ee|Ee].
        { split; [split; cbn; try done; lia|]. split; [done|]. split; [intros j Hj; cbn; by apply Hm1|].
          cbn [cursor_unit set_cursor byte_cursor bit_cursor]. unfold cursor_unit. cbn.
          rewrite (proj2 (Z.eqb_eq (u + n) _)) by lia. done. }
        split; [split; cbn; try done; lia|]. split; [done|]. split; [intros j Hj; cbn; by apply Hm1|].
        unfold cursor_unit. cbn [set_cursor byte_cursor bit_cursor].
        rewrite (proj2 (Z.eqb_neq (u + n) _)) by lia. lia.
      * split; [split; cbn; try done; lia|]. split; [done|]. split; [intros j Hj; cbn; by apply Hm1|].
        unfold cursor_unit. cbn [set_cursor byte_cursor bit_cursor].
        rewrite (proj2 (Z.eqb_neq (u + n) _)) by lia. lia.
    + set (bm1 := set_cursor bm (byte_cursor bm + 1) 0).
      assert (Hwf1 : bm_wf bm1) by (destruct Hwf; split; cbn; try done; lia).
      destruct (IH n c0 bm1 r' Hwf1 Hn Hc0) as [(bm' & Hr & Hw & Hs & Hsz & Hbc' & Hno)|Hok];
        [cbn; lia|unfold cursor_unit; cbn [bm1 set_cursor byte_cursor bit_cursor]; lia|by left
        |unfold cursor_unit; cbn [bm1 set_cursor byte_cursor bit_cursor start];
         by replace (8 * (byte_cursor bm + 1) + 0) with (8 * byte_cursor bm + 8) by lia| |].
      * left. exists bm'. done.
      * right. exact Hok.
Qed.

(** ** Properties *)

(** a request for [n >= 1] units finds the first run of [n] free units from
    the cursor on, returns its first unit, marks units from it and leaves the
    cursor right behind it, at 0 when the run ends the map; without such a run
    it returns [-ENOMEM], marks nothing and leaves the cursor at the end, so
    that every later request fails.  A run that starts on a byte boundary or
    lies within one byte is marked exactly; for another the bits below its
    start are skipped in every byte, so that other units are marked instead,
    and the kernel stops when these do not fit. *)
Theorem bitmap_alloc_correct bm n : bm_wf bm -> 1 <= n < 2 ^ 32 ->
  ((exists bm', bitmap_first_n_free_and_mark n bm = Ret (bm', - ENOMEM) /\ bm_wf bm' /\
      bm'.(start) = bm.(start) /\ bm'.(byte_cursor) = bm.(size) /\
      no_run bm.(start) n (cursor_unit bm) (8 * bm.(size)) /\
      forall k, bitmap_first_n_free_and_mark k bm' = Ret (bm', - ENOMEM)) \/
   (exists u, cursor_unit bm <= u /\ u + n <= 8 * bm.(size) /\ free_run bm.(start) n u /\
      no_run bm.(start) n (cursor_unit bm) (u + n - 1) /\
      alloc_result bm n u (bitmap_first_n_free_and_mark n bm))) /\
  (forall u j, u mod 8 = 0 \/ u mod 8 + n <= 8 -> marked u n j = (u <=? j) && (j <? u + n)).
Proof.
  intros Hwf Hn. split; [|intros u j; apply marked_exact]. unfold bitmap_first_n_free_and_mark.
  pose proof (bw_byte _ Hwf). pose proof (bw_bit _ Hwf). set (c0 := cursor_unit bm).
  destruct (decide (bm.(byte_cursor) = bm.(size))) as [E|E].
  - left. rewrite E, Z.sub_diag. cbn [Z.to_nat scan_bytes]. exists bm. do 4 (split; [done|]). split.
    + intros u Hu Hun. unfold c0, cursor_unit in *. lia.
    + intros k. by rewrite E, Z.sub_diag.
  - destruct (scan_bytes_spec (Z.to_nat (size bm - byte_cursor bm)) n c0 bm (mkRun 0 0 0)) as [(bm' & -> & Hwf' & Hs & Hsz & Hbc & Hno)|Hok];
      [done|done|unfold c0, cursor_unit; lia|lia|done|right; lia| | |by right].
    + split; cbn [found]; [split; unfold c0; lia|lia|unfold c0; lia|left; unfold c0; lia|].
      intros u Hu Hun. unfold c0 in *. lia.
    + left. exists bm'. do 5 (split; [done|]). intros k. rewrite Hbc, Hsz, Z.sub_diag. done.
Qed.

Definition demo_bm : Bitmap := mkBM 0xC0401000 [0; 0; 0] 3 0 0.
Lemma demo_bm_wf : bm_wf demo_bm.
Proof. split; cbn; try lia. repeat constructor; unfold is_u8; lia. Qed.

Lemma bitmap_alloc_correct_witness : exists bm', bitmap_first_n_free_and_mark 8 demo_bm = Ret (bm', 0) /\ bm_wf bm'.
Proof.
  destruct (bitmap_alloc_correct demo_bm 8 demo_bm_wf) as [[(bm' & Hr & _)|(u & _ & _ & _ & _ & Ha)] _]; [lia| |].
  - exfalso. pose proof (f_equal (fun r => match r with Ret (_, a) => a | _ => 0 end) Hr) as E. vm_compute in E. discriminate E.
  - unfold alloc_result in Ha. destruct (8 <=? (size demo_bm - u / 8) * (8 - u mod 8)).
    + destruct Ha as (bm' & Hr & Hwf & _). exists bm'. split; [|exact Hwf]. rewrite Hr.
      pose proof (f_equal (fun r => match r with Ret (_, a) => a | _ => -1 end) Hr) as E. vm_compute in E. rewrite <- E. reflexivity.
    + exfalso. pose proof (f_equal (fun r => match r with Ret _ => true | _ => false end) Ha) as E. vm_compute in E. discriminate E.
Defined.

(** Four, eight, then eight units fill the 24 units of a map; four more are
    then given at unit 8, inside the second run (4 to 11), which marked units
    12 to 15 instead of 8 to 11. *)
Example runs_overlap :
  (r1 ← bitmap_first_n_free_and_mark 4 demo_bm; r2 ← bitmap_first_n_free_and_mark 8 r1.1;
   r3 ← bitmap_first_n_free_and_mark 8 r2.1; r4 ← bitmap_first_n_free_and_mark 4 r3.1;
   Ret (r1.2, r2.2, r3.2, r4.2)) = Ret (0, 4, 16, 8).
Proof. reflexivity. Qed.
