(* ===== verification/Modules.v ===== *)
(** * Built-in modules

    [kernel/module.c]: the table of modules the linker collects, and starting
    them by stage, each after the ones its [main] asks for.  The body of a
    [main] is code of another part of the kernel: a program of effects on a
    state [W] and of calls back to [mod_builtin_depends_on] ([code]). *)
From S2P Require Import Prelude CString.

(** ** Data ([module.h]) *)
Definition EINVAL : Z := 22.
Definition ENOENT : Z := 2.
Definition MODULE_STAGE3 : Z := 0.
Definition MODULE_STAGE1 : Z := 1.
Definition MODULE_STAGE2 : Z := 2.
Record Module_ := mkModule { m_name : Z; m_stage : Z; m_main : Z; m_exit : Z; _initialized : bool; _refcount : Z }.
Definition set_initialized (m : Module_) : Module_ := mkModule m.(m_name) m.(m_stage) m.(m_main) m.(m_exit) true m.(_refcount).
Definition inc_refcount (m : Module_) : Module_ := mkModule m.(m_name) m.(m_stage) m.(m_main) m.(m_exit) m.(_initialized) (u32 (m.(_refcount) + 1)).

Inductive code (W : Type) : Type :=
| Return (st : Z)
| Effect (f : W -> outcome (W * Z)) (k : Z -> code W)
| Depends_on (name : Z) (k : Z -> code W).
Arguments Return {W} st.
Arguments Effect {W} f k.
Arguments Depends_on {W} name k.

(** The function at the address of a [main]. *)
Class Mains (W : Type) := main_code : Z -> code W.

(** [calls] is not in the program: the calls of [main] that came back, with
    the index of the module and what was returned, the last one first. *)
Record mods (W : Type) := mkMods { table : list Module_; world : W; calls : list (nat * Z) }.
Arguments mkMods {W} table world calls.
Arguments table {W} m.
Arguments world {W} m.
Arguments calls {W} m.

(** ** Operations *)
Section ops.
Context {W : Type} `{!Mains W} (mem : gmap Z Z).
Implicit Types (s : mods W) (i : nat).

Definition set_world (w : W) s : mods W := mkMods s.(table) w s.(calls).
Definition add_call (i : nat) (st : Z) s : mods W := mkMods s.(table) s.(world) ((i, st) :: s.(calls)).
Definition update (i : nat) (f : Module_ -> Module_) s : mods W := mkMods (alter f i s.(table)) s.(world) s.(calls).

(** [FOR_EACH_ELEM_IN_DARR] over the table, from index [i]. *)
Fixpoint find_from (l : list Module_) (name : Z) (i : nat) : outcome (option nat) :=
  match l with
  | [] => Ret None
  | m :: l => c ← strcmp mem m.(m_name) name; if c =? 0 then Ret (Some i) else find_from l name (S i)
  end.
Definition mod_builtin_find_by_name (name : Z) s : outcome (option nat) := find_from s.(table) name 0.

(** A [main] that runs with [depends] as [mod_builtin_depends_on]. *)
Fixpoint run (depends : Z -> mods W -> outcome (mods W * Z)) (c : code W) s : outcome (mods W * Z) :=
  match c with
  | Return st => Ret (s, st)
  | Effect f k => r ← f s.(world); run depends (k r.2) (set_world r.1 s)
  | Depends_on name k => r ← depends name s; run depends (k r.2) r.1
  end.

Definition init_with (depends : Z -> mods W -> outcome (mods W * Z)) (i : nat) s : outcome (mods W * Z) :=
  m ← deref (s.(table) !! i);
  if m.(m_name) =? 0 then Ret (s, - EINVAL)
  else if m.(m_main) =? 0 then Ret (s, 0)
  else if m.(_initialized) then Ret (s, 0)
  else
    r ← run depends (main_code m.(m_main)) s;
    let s := add_call i r.2 r.1 in
    if r.2 <? 0 then Ret (s, r.2) else Ret (update i set_initialized s, 0).

(** The recursion through the [main] of a module. *)
Fixpoint mod_builtin_depends_on (fuel : nat) (name : Z) s : outcome (mods W * Z) :=
  match fuel with
  | O => Undef
  | S fuel =>
      target ← mod_builtin_find_by_name name s;
      match target with
      | None => Ret (s, - ENOENT)
      | Some i =>
          r ← init_with (mod_builtin_depends_on fuel) i s;
          if r.2 <? 0 then Ret r else Ret (update i inc_refcount r.1, 0)
      end
  end.
Definition mod_builtin_init (fuel : nat) (i : nat) s : outcome (mods W * Z) := init_with (mod_builtin_depends_on fuel) i s.

Fixpoint stage_loop (fuel : nat) (stage : Z) (todo i : nat) s : outcome (mods W) :=
  match todo with
  | O => Ret s
  | S todo =>
      m ← deref (s.(table) !! i);
      if negb (m.(m_stage) =? stage) then stage_loop fuel stage todo (S i) s
      else r ← mod_builtin_init fuel i s; stage_loop fuel stage todo (S i) r.1
  end.
Definition mod_builtin_init_stage (fuel : nat) (stage : Z) s : outcome (mods W * Z) :=
  s ← stage_loop fuel stage (length s.(table)) 0 s; Ret (s, 0).
Definition mod_builtin_init_stage1 (fuel : nat) s := mod_builtin_init_stage fuel MODULE_STAGE1 s.
Definition mod_builtin_init_stage2 (fuel : nat) s := mod_builtin_init_stage fuel MODULE_STAGE2 s.
Definition mod_builtin_init_stage3 (fuel : nat) s := mod_builtin_init_stage fuel MODULE_STAGE3 s.

(** The lines of [mod_builtin_dump_all]: a stage's number and a name. *)
Definition lookup_table : list Z := [3; 1; 2].
Definition mod_builtin_dump_all s : outcome (list (Z * Z)) :=
  foldr (fun m acc => n ← deref (lookup_table !! Z.to_nat m.(m_stage)); l ← acc; Ret ((n, m.(m_name)) :: l)) (Ret []) s.(table).
End ops.

(** ** What starting a module leaves

    [T] is the table as linked, [ns] the names in it, and [rank] orders the
    modules so that a [main] asks only for modules below its own. *)
Definition shape (m : Module_) : Module_ := mkModule m.(m_name) m.(m_stage) m.(m_main) m.(m_exit) false 0.
(** The calls of module [i]'s [main] that succeeded. *)
Definition successes (i : nat) (l : list (nat * Z)) : nat :=
  length (filter (fun c => c.1 = i /\ 0 <= c.2) l).

Section spec.
Context {W : Type} `{!Mains W} (mem : gmap Z Z) (T : list Module_) (ns : list (list Z)) (rank : nat -> nat).
Implicit Types (s : mods W) (i : nat).

Inductive calm (r : nat) : code W -> Prop :=
| calm_return st : calm r (Return st)
| calm_effect f k : (forall w, exists w' v, f w = Ret (w', v)) -> (forall v, calm r (k v)) -> calm r (Effect f k)
| calm_depends name x k : cstr mem name x -> (forall i, ns !! i = Some x -> (rank i < r)%nat) ->
    (forall v, calm r (k v)) -> calm r (Depends_on name k).

Definition named : Prop := Forall2 (fun m x => m.(m_name) <> 0 /\ cstr mem m.(m_name) x) T ns /\ NoDup ns.
Definition mains_calm : Prop := forall i m, T !! i = Some m -> m.(m_main) <> 0 -> calm (rank i) (main_code m.(m_main)).

(** The table is the linked one, and a module is initialised exactly when its
    [main] has succeeded, which it has done once. *)
Definition mods_wf s : Prop :=
  shape <$> s.(table) = T /\
  forall i m, s.(table) !! i = Some m -> successes i s.(calls) = if m.(_initialized) then 1%nat else O.
Definition started s i : Prop := exists m, s.(table) !! i = Some m /\ m.(_initialized) = true.
(** [s'] comes after [s] by starting modules of rank below [r]. *)
Definition later (r : nat) s s' : Prop :=
  mods_wf s' /\ (forall i, started s i -> started s' i) /\
  (forall i, (r <= rank i)%nat -> s'.(table) !! i = s.(table) !! i) /\
  exists l, s'.(calls) = l ++ s.(calls) /\ Forall (fun c => (rank c.1 < r)%nat /\ ~ started s c.1) l.

Lemma later_refl r s : mods_wf s -> later r s s.
Proof. intros Hs. split; [done|]. split; [done|]. split; [done|]. by exists []. Qed.

Lemma later_trans r s1 s2 s3 : later r s1 s2 -> later r s2 s3 -> later r s1 s3.
Proof.
  intros (_ & A1 & A2 & l & A3 & A4) (B0 & B1 & B2 & l' & B3 & B4).
  split; [done|]. split; [auto|]. split; [intros; by rewrite B2, A2|].
  exists (l' ++ l). split; [by rewrite B3, A3, app_assoc|]. apply Forall_app. split; [|done].
  eapply Forall_impl; [exact B4|]. intros c [? Hn]. split; [done|]. by intros ?%A1.
Qed.

Lemma later_mono r r' s s' : (r <= r')%nat -> later r s s' -> later r' s s'.
Proof.
  intros Hr (A0 & A1 & A2 & l & A3 & A4). split; [done|]. split; [done|]. split; [intros; apply A2; lia|].
  exists l. split; [done|]. eapply Forall_impl; [exact A4|]. intros c [? ?]. split; [lia|done].
Qed.

Lemma later_world r s w : mods_wf s -> later r s (set_world w s).
Proof. intros Hs. split; [done|]. split; [done|]. split; [done|]. by exists []. Qed.

Lemma find_module_spec name x : cstr mem name x -> forall l ms k,
  Forall2 (fun m y => m.(m_name) <> 0 /\ cstr mem m.(m_name) y) ms l -> NoDup l ->
  (x ∉ l -> find_from mem ms name k = Ret None) /\
  (forall i, l !! i = Some x -> find_from mem ms name k = Ret (Some (k + i)%nat)).
Proof.
  intros Hx l ms. revert l. induction ms as [|m ms IH]; intros l k Hf Hd; inversion Hf as [|? y ? l' [_ Hm] Hf']; subst; [done|].
  apply NoDup_cons in Hd as [Hn Hd]. destruct (IH l' (S k) Hf' Hd) as [I1 I2].
  cbn [find_from]. rewrite (strcmp_cstr _ _ _ _ _ Hm Hx), bind_Ret. pose proof (strcmp_spec_0 y x) as E0. split.
  - intros Hnot. apply not_elem_of_cons in Hnot as [Hne Hnot]. rewrite (proj2 (Z.eqb_neq _ _)) by (rewrite E0; congruence). auto.
  - intros [|i] Hi; cbn in Hi.
    + injection Hi as ->. rewrite (proj2 (Z.eqb_eq _ _)) by (by apply E0). f_equal. f_equal. lia.
    + rewrite (proj2 (Z.eqb_neq _ _)); [rewrite (I2 i Hi); f_equal; f_equal; lia|].
      rewrite E0. intros ->. apply Hn. by eapply list_elem_of_lookup_2.
Qed.

Lemma shape_eq s i m : mods_wf s -> s.(table) !! i = Some m -> T !! i = Some (shape m).
Proof. intros [Ht _] Hm. rewrite <- Ht, list_lookup_fmap, Hm. done. Qed.

Lemma wf_lookup s i m0 : mods_wf s -> T !! i = Some m0 -> exists m, s.(table) !! i = Some m /\ shape m = m0.
Proof. intros [Ht _] Hm. rewrite <- Ht in Hm. apply list_lookup_fmap_Some in Hm as (m & -> & ?). eauto. Qed.

Lemma names_of s name x : named -> mods_wf s -> cstr mem name x ->
  (x ∉ ns -> mod_builtin_find_by_name mem name s = Ret None) /\
  (forall i, ns !! i = Some x -> mod_builtin_find_by_name mem name s = Ret (Some i)).
Proof.
  intros [Hf Hd] [Ht _] Hx. apply (find_module_spec name x Hx ns s.(table) 0); [|done].
  rewrite <- Ht, Forall2_fmap_l in Hf. exact Hf.
Qed.

(** ** Updates of one module *)
Lemma update_refcount r s i : mods_wf s -> (rank i < r)%nat -> later r s (update i inc_refcount s).
Proof.
  intros [Ht Hc] Hr. split; [split|split; [|split]].
  - cbn. rewrite <- Ht. apply list_eq. intros j. rewrite !list_lookup_fmap.
    destruct (decide (i = j)) as [->|]; [rewrite list_lookup_alter_eq; by destruct (table s !! j)|by rewrite list_lookup_alter_ne].
  - intros j m. cbn [table calls update]. destruct (decide (i = j)) as [->|].
    + rewrite list_lookup_alter_eq. destruct (table s !! j) as [m0|] eqn:E; [|done]. cbn. intros [= <-]. apply (Hc _ _ E).
    + rewrite list_lookup_alter_ne by done. apply Hc.
  - intros j (m & Hm & Hi). unfold started. cbn. destruct (decide (i = j)) as [->|].
    + rewrite list_lookup_alter_eq, Hm. by exists (inc_refcount m).
    + rewrite list_lookup_alter_ne by done. eauto.
  - intros j Hj. cbn. apply list_lookup_alter_ne. intros ->. lia.
  - by exists [].
Qed.

Lemma successes_cons i j st l : successes i ((j, st) :: l) = (if bool_decide (j = i /\ 0 <= st) then S (successes i l) else successes i l).
Proof. unfold successes. rewrite filter_cons. cbn. case_bool_decide; [by rewrite decide_True|by rewrite decide_False]. Qed.

Lemma call_failed r s i st : mods_wf s -> st < 0 -> (rank i < r)%nat -> ~ started s i -> later r s (add_call i st s).
Proof.
  intros [Ht Hc] Hst Hr Hn. split; [split|split; [|split]]; try done.
  - intros j m Hj. cbn [calls add_call]. rewrite successes_cons, bool_decide_eq_false_2 by (intros [? ?]; lia). by apply Hc.
  - exists [(i, st)]. split; [done|]. by constructor.
Qed.

Lemma call_succeeded r s i st : mods_wf s -> 0 <= st -> (rank i < r)%nat -> (exists m, s.(table) !! i = Some m /\ m.(_initialized) = false) ->
  later r s (update i set_initialized (add_call i st s)) /\ started (update i set_initialized (add_call i st s)) i.
Proof.
  intros [Ht Hc] Hst Hr (m & Hm & Hi). split; [split; [split|split; [|split]]|].
  - cbn. rewrite <- Ht. apply list_eq. intros j. rewrite !list_lookup_fmap.
    destruct (decide (i = j)) as [->|]; [rewrite list_lookup_alter_eq; by destruct (table s !! j)|by rewrite list_lookup_alter_ne].
  - intros j m'. cbn [table calls update add_call]. rewrite successes_cons. destruct (decide (i = j)) as [->|].
    + rewrite list_lookup_alter_eq, Hm. cbn. intros [= <-]. rewrite bool_decide_eq_true_2 by done. cbn. by rewrite (Hc _ _ Hm), Hi.
    + rewrite list_lookup_alter_ne by done. rewrite bool_decide_eq_false_2 by (by intros [? ?]). apply Hc.
  - intros j (m' & Hm' & Hi'). unfold started. cbn. destruct (decide (i = j)) as [->|].
    + rewrite list_lookup_alter_eq, Hm'. by exists (set_initialized m').
    + rewrite list_lookup_alter_ne by done. eauto.
  - intros j Hj. cbn. apply list_lookup_alter_ne. intros ->. lia.
  - exists [(i, st)]. split; [done|]. constructor; [|done]. split; [done|]. intros (m' & Hm' & Hi'). cbn in *. congruence.
  - exists (set_initialized m). cbn. by rewrite list_lookup_alter_eq, Hm.
Qed.

(** ** Running a [main] *)
Definition dep_spec (r : nat) (depends : Z -> mods W -> outcome (mods W * Z)) : Prop :=
  forall name x s, cstr mem name x -> (forall i, ns !! i = Some x -> (rank i < r)%nat) -> mods_wf s ->
  exists s' st, depends name s = Ret (s', st) /\ later r s s'.

Lemma run_spec r depends c : dep_spec r depends -> calm r c -> forall s, mods_wf s ->
  exists s' st, run depends c s = Ret (s', st) /\ later r s s'.
Proof.
  intros Hd Hc. induction Hc as [st|f k Hf _ IH|name x k Hx Hr _ IH]; intros s Hs; cbn [run].
  - exists s, st. split; [done|by apply later_refl].
  - destruct (Hf s.(world)) as (w & v & ->). rewrite bind_Ret. cbn [fst snd].
    destruct (IH v (set_world w s)) as (s' & st & E & Hl); [done|].
    exists s', st. split; [exact E|]. eapply later_trans; [by apply (later_world r s w)|done].
  - destruct (Hd name x s Hx Hr Hs) as (s1 & v & -> & Hl). rewrite bind_Ret. cbn [fst snd].
    destruct (IH v s1) as (s' & st & E & Hl'); [apply Hl|].
    exists s', st. split; [exact E|]. by eapply later_trans.
Qed.

(** What [mod_builtin_init] answers for module [i]. *)
Definition init_answer (i : nat) s s' (st : Z) : Prop :=
  (st = 0 /\ forall m, T !! i = Some m -> m.(m_main) <> 0 -> started s' i) \/
  (st < 0 /\ ~ started s i /\ (i, st) ∈ s'.(calls)).

Lemma init_module_spec depends i s : named -> mains_calm -> dep_spec (rank i) depends -> mods_wf s -> (i < length T)%nat ->
  exists s' st, init_with depends i s = Ret (s', st) /\ later (S (rank i)) s s' /\ init_answer i s s' st /\ (0 <= st -> st = 0).
Proof.
  intros Hn Hm Hd Hs Hi. destruct (lookup_lt_is_Some_2 T i Hi) as [m0 Hm0].
  destruct (wf_lookup s i m0 Hs Hm0) as (m & E & <-).
  unfold init_with. rewrite E. cbn [deref]. rewrite bind_Ret.
  destruct Hn as [Hf _]. destruct (Forall2_lookup_l _ _ _ _ _ Hf Hm0) as (x & _ & Hname & _). cbn in Hname.
  rewrite (proj2 (Z.eqb_neq _ _)) by done.
  destruct (m_main m =? 0) eqn:E0.
  { exists s, 0. split; [done|]. split; [by apply later_refl|]. split; [left; split; [done|]|done].
    intros m1 Hm1 Hz. rewrite Hm0 in Hm1. injection Hm1 as <-. cbn in Hz. apply Z.eqb_eq in E0. done. }
  apply Z.eqb_neq in E0. destruct (_initialized m) eqn:Ei.
  { exists s, 0. split; [done|]. split; [by apply later_refl|]. split; [left; split; [done|]|done]. intros; by exists m. }
  destruct (run_spec (rank i) depends (main_code m.(m_main)) Hd) with (s := s) as (s1 & st & -> & Hl); [apply (Hm i (shape m) Hm0 E0)|done|].
  rewrite bind_Ret. cbn [fst snd].
  assert (Es : s1.(table) !! i = Some m) by (rewrite <- E; by apply Hl).
  assert (Hns : ~ started s i) by (intros (? & ? & ?); congruence).
  assert (Hns1 : ~ started s1 i) by (intros (? & ? & ?); congruence).
  pose proof (later_mono (rank i) (S (rank i)) _ _ ltac:(lia) Hl) as Hl'.
  destruct (Z.ltb_spec st 0) as [Hst|Hst].
  - exists (add_call i st s1), st. split; [done|]. split; [|split; [|lia]].
    + eapply later_trans; [exact Hl'|]. apply call_failed; [apply Hl|done|lia|done].
    + right. split; [done|]. split; [done|]. cbn. by left.
  - destruct (call_succeeded (S (rank i)) s1 i st) as [Hl2 Hst2]; [apply Hl|done|lia|by exists m|].
    eexists _, 0. split; [reflexivity|]. split; [by eapply later_trans|]. split; [left; by split|done].
Qed.

Lemma depends_spec : named -> mains_calm -> forall fuel r, (r < fuel)%nat -> dep_spec r (mod_builtin_depends_on mem fuel).
Proof.
  intros Hn Hm fuel. induction fuel as [|fuel IH]; intros r Hr name x s Hx Hrank Hs; [lia|].
  cbn [mod_builtin_depends_on]. destruct (names_of s name x Hn Hs Hx) as [N1 N2].
  destruct (decide (x ∈ ns)) as [Hin|Hnot].
  2: { rewrite (N1 Hnot), bind_Ret. eexists _, _. split; [reflexivity|by apply later_refl]. }
  apply list_elem_of_lookup_1 in Hin as [i Hi]. rewrite (N2 i Hi), bind_Ret. specialize (Hrank i Hi).
  assert (Hlt : (i < length T)%nat).
  { destruct Hn as [Hf _]. rewrite (Forall2_length _ _ _ Hf). by eapply lookup_lt_Some. }
  destruct (init_module_spec (mod_builtin_depends_on mem fuel) i s Hn Hm) as (s1 & st & -> & Hl & _ & _); [apply IH; lia|done|done|].
  rewrite bind_Ret. cbn [fst snd]. apply (later_mono _ r) in Hl; [|lia].
  destruct (st <? 0); eexists _, _; (split; [reflexivity|]); [done|].
  eapply later_trans; [exact Hl|]. apply update_refcount; [apply Hl|done].
Qed.

(** ** A stage *)
Definition stage_answer (stage : Z) (i : nat) s s' : Prop :=
  forall m, T !! i = Some m -> m.(m_stage) = stage -> m.(m_main) <> 0 ->
  started s' i \/ exists st, st < 0 /\ (i, st) ∈ s'.(calls).

Lemma stage_answer_later r stage i s s1 s2 : stage_answer stage i s s1 -> later r s1 s2 -> stage_answer stage i s s2.
Proof.
  intros Ha (_ & Hl & _ & l & El & _) m H1 H2 H3. destruct (Ha m H1 H2 H3) as [?|(st & ? & ?)]; [left; auto|right].
  exists st. split; [done|]. rewrite El. apply elem_of_app. by right.
Qed.

Lemma stage_loop_spec fuel r stage : named -> mains_calm -> (forall i, (i < length T)%nat -> (rank i < r)%nat) -> (r <= fuel)%nat ->
  forall todo i s, mods_wf s -> (i + todo = length T)%nat ->
  exists s', stage_loop mem fuel stage todo i s = Ret s' /\ later r s s' /\
    forall j, (i <= j)%nat -> stage_answer stage j s s'.
Proof.
  intros Hn Hm Hr Hf todo. induction todo as [|todo IH]; intros i s Hs Hi; cbn [stage_loop].
  - exists s. split; [done|]. split; [by apply later_refl|].
    intros j Hj m E%lookup_lt_Some. lia.
  - destruct (lookup_lt_is_Some_2 T i ltac:(lia)) as [m0 Hm0]. destruct (wf_lookup s i m0 Hs Hm0) as (m & E & <-).
    rewrite E. cbn [deref]. rewrite bind_Ret. destruct (Z.eqb_spec m.(m_stage) stage) as [Est|Est]; cbn [negb].
    + destruct (init_module_spec (mod_builtin_depends_on mem fuel) i s Hn Hm) as (s1 & st & E1 & Hl & Ha & _);
        [apply depends_spec; [done|done|specialize (Hr i ltac:(lia)); lia]|done|lia|].
      unfold mod_builtin_init. rewrite E1, bind_Ret. cbn [fst snd]. apply (later_mono _ r) in Hl; [|specialize (Hr i ltac:(lia)); lia].
      destruct (IH (S i) s1) as (s' & E2 & Hl2 & Ha2); [apply Hl|lia|]. exists s'. split; [done|]. split; [by eapply later_trans|].
      intros j Hj. destruct (decide (j = i)) as [->|].
      2: { intros m1 ???. eapply Ha2; [lia|done..]. }
      apply (stage_answer_later r stage i s s1 s'); [|done]. intros m1 H1 H2 H3.
      destruct Ha as [[_ Ha]|(? & _ & Ha)]; [left; by eapply Ha|right; eauto].
    + destruct (IH (S i) s Hs) as (s' & E2 & Hl & Ha); [lia|]. exists s'. split; [done|]. split; [done|].
      intros j Hj. destruct (decide (j = i)) as [->|]; [|apply Ha; lia].
      intros m1 H1 H2. rewrite Hm0 in H1. injection H1 as <-. done.
Qed.

(** A set of modules each of which first asks for another of the set. *)
Definition cyclic (s : mods W) (C : nat -> Prop) : Prop :=
  forall i, C i -> exists m name x k j, s.(table) !! i = Some m /\ m.(m_main) <> 0 /\ m.(_initialized) = false /\
    main_code m.(m_main) = Depends_on name k /\ cstr mem name x /\ ns !! j = Some x /\ C j.

Lemma cycle_undef C s : named -> mods_wf s -> cyclic s C -> forall fuel i name x,
  C i -> ns !! i = Some x -> cstr mem name x -> mod_builtin_depends_on mem fuel name s = Undef.
Proof.
  intros Hn Hs Hc fuel. induction fuel as [|fuel IH]; intros i name x Hi Hx Hname; [done|].
  cbn [mod_builtin_depends_on]. destruct (names_of s name x Hn Hs Hname) as [_ ->%(fun f => f i Hx)]. rewrite bind_Ret.
  destruct (Hc i Hi) as (m & name' & x' & k & j & Hm & Hmain & Hini & Hcode & Hx' & Hj & HC).
  unfold init_with. rewrite Hm. cbn [deref]. rewrite bind_Ret.
  destruct Hn as [Hf _]. destruct (Forall2_lookup_l _ _ _ _ _ Hf (shape_eq _ _ _ Hs Hm)) as (? & _ & Hnz & _). cbn in Hnz.
  rewrite (proj2 (Z.eqb_neq _ _)), (proj2 (Z.eqb_neq _ _)), Hini, Hcode by done. cbn [run].
  by rewrite (IH j name' x' HC Hj Hx').
Qed.

Lemma depends_answer fuel i name x s : named -> mains_calm -> mods_wf s -> cstr mem name x -> ns !! i = Some x -> (rank i < fuel)%nat ->
  exists s' st, mod_builtin_depends_on mem (S fuel) name s = Ret (s', st) /\ later (S (rank i)) s s' /\ init_answer i s s' st.
Proof.
  intros Hn Hm Hs Hx Hi Hf. cbn [mod_builtin_depends_on]. destruct (names_of s name x Hn Hs Hx) as [_ ->%(fun f => f i Hi)]. rewrite bind_Ret.
  assert (Hlt : (i < length T)%nat).
  { destruct Hn as [Hall _]. rewrite (Forall2_length _ _ _ Hall). by eapply lookup_lt_Some. }
  destruct (init_module_spec (mod_builtin_depends_on mem fuel) i s Hn Hm) as (s1 & st & -> & Hl & Ha & Hz); [by apply depends_spec|done|done|].
  rewrite bind_Ret. cbn [fst snd]. destruct (Z.ltb_spec st 0) as [Hst|Hst]; eexists _, _; (split; [reflexivity|]); [done|].
  pose proof (update_refcount (S (rank i)) s1 i ltac:(apply Hl) ltac:(lia)) as Hu.
  split; [by eapply later_trans|]. destruct Ha as [[_ Ha]|(? & _)]; [|lia].
  left. split; [done|]. intros m H1 H2. apply (proj1 (proj2 Hu)). by apply (Ha m).
Qed.

Lemma stage_spec fuel stage s : named -> mains_calm -> (forall i, (i < length T)%nat -> (rank i < fuel)%nat) -> mods_wf s ->
  exists s', mod_builtin_init_stage mem fuel stage s = Ret (s', 0) /\ later fuel s s' /\ forall j, stage_answer stage j s s'.
Proof.
  intros Hn Hm Hr Hs. unfold mod_builtin_init_stage.
  assert (El : length s.(table) = length T) by (destruct Hs as [<- _]; by rewrite length_fmap).
  destruct (stage_loop_spec fuel fuel stage Hn Hm Hr ltac:(lia) (length T) 0 s Hs ltac:(lia)) as (s' & E & Hl & Ha).
  rewrite El, E, bind_Ret. exists s'. split; [done|]. split; [done|]. intros j. apply Ha. lia.
Qed.
End spec.

(** The three calls of [kinit_stage2], in their order. *)
Definition start_modules {W} `{!Mains W} mem (fuel : nat) (s : mods W) : outcome (mods W) :=
  r ← mod_builtin_init_stage1 mem fuel s; r ← mod_builtin_init_stage2 mem fuel r.1;
  r ← mod_builtin_init_stage3 mem fuel r.1; Ret r.1.

(** C27: When no [main] asks, directly or through others, for itself, the three
    stages end: every module with a [main] is initialised or its [main] has
    failed, a [main] that succeeded has run to its end exactly once, and none
    of a module that was initialised before runs again; [mod_builtin_depends_on]
    answers 0 only with the module initialised, and [-ENOENT] for a name that
    is not in the table.  Modules that ask for each other in a circle never
    come back: a module is marked only after its [main]. *)
Theorem modules_correct {W} `{!Mains W} mem T ns rank fuel (s : mods W) :
  named mem T ns -> mods_wf T s ->
  (mains_calm mem T ns rank -> (forall i, (i < length T)%nat -> (rank i < fuel)%nat) ->
   (exists s', start_modules mem fuel s = Ret s' /\ later T rank fuel s s' /\
      forall i m, T !! i = Some m -> m.(m_stage) ∈ [MODULE_STAGE1; MODULE_STAGE2; MODULE_STAGE3] -> m.(m_main) <> 0 ->
        started s' i \/ exists st, st < 0 /\ (i, st) ∈ s'.(calls)) /\
   (forall i x name, ns !! i = Some x -> cstr mem name x ->
      exists s' st, mod_builtin_depends_on mem (S fuel) name s = Ret (s', st) /\ later T rank (S (rank i)) s s' /\ init_answer T i s s' st)) /\
  (forall x name, x ∉ ns -> cstr mem name x -> mod_builtin_depends_on mem (S fuel) name s = Ret (s, - ENOENT)) /\
  (forall C i x name, cyclic mem ns s C -> C i -> ns !! i = Some x -> cstr mem name x ->
     forall fuel, mod_builtin_depends_on mem fuel name s = Undef).
Proof.
  intros Hn Hs. split; [intros Hm Hr; split|split].
  - destruct (stage_spec mem T ns rank fuel MODULE_STAGE1 s Hn Hm Hr Hs) as (s1 & E1 & L1 & A1).
    destruct (stage_spec mem T ns rank fuel MODULE_STAGE2 s1 Hn Hm Hr (proj1 L1)) as (s2 & E2 & L2 & A2).
    destruct (stage_spec mem T ns rank fuel MODULE_STAGE3 s2 Hn Hm Hr (proj1 L2)) as (s3 & E3 & L3 & A3).
    exists s3. unfold start_modules, mod_builtin_init_stage1, mod_builtin_init_stage2, mod_builtin_init_stage3.
    rewrite E1, bind_Ret. cbn [fst]. rewrite E2, bind_Ret. cbn [fst]. rewrite E3, bind_Ret.
    split; [done|]. split; [eapply later_trans; [eapply later_trans; [exact L1|exact L2]|exact L3]|].
    intros i m Hi Hst Hm0. rewrite !elem_of_cons in Hst. destruct Hst as [E|[E|[E|[]%not_elem_of_nil]]].
    + by apply (stage_answer_later T rank fuel MODULE_STAGE1 i s s2 s3 (stage_answer_later T rank fuel MODULE_STAGE1 i s s1 s2 (A1 i) L2) L3 m).
    + by apply (stage_answer_later T rank fuel MODULE_STAGE2 i s1 s2 s3 (A2 i) L3 m).
    + by apply (A3 i m).
  - intros i x name Hi Hx. apply (depends_answer mem T ns rank fuel i name x); try done. apply Hr.
    destruct Hn as [Hall _]. rewrite (Forall2_length _ _ _ Hall). by eapply lookup_lt_Some.
  - intros x name Hx Hname. cbn [mod_builtin_depends_on]. by rewrite (proj1 (names_of mem T ns s name x Hn Hs Hname) Hx), bind_Ret.
  - intros C i x name HC Hi Hx Hname f. by apply (cycle_undef mem T ns C s Hn Hs HC f i name x).
Qed.

(** ** Example: [fbsink], [fb] and [sha1] *)
Module Demo.
Definition FB : list Z := [102; 98].
Definition FBSINK : list Z := [102; 98; 115; 105; 110; 107].
Definition SHA1 : list Z := [115; 104; 97; 49].
Definition mem : gmap Z Z :=
  write_bytes (write_bytes (write_bytes ∅ 100 (FB ++ [0])) 200 (FBSINK ++ [0])) 300 (SHA1 ++ [0]).
Definition T : list Module_ :=
  [mkModule 200 MODULE_STAGE2 11 0 false 0; mkModule 100 MODULE_STAGE3 10 0 false 0; mkModule 300 MODULE_STAGE2 12 0 false 0].
(** The world: whether there is a framebuffer, and the registrations. *)
#[local] Instance mains : Mains (bool * list Z) := fun f =>
  if f =? 11 then Depends_on 100 (fun st => if st <? 0 then Return st else Effect (fun w => Ret ((w.1, 11 :: w.2), 0)) Return)
  else if f =? 10 then Effect (fun w => if w.1 : bool then Ret ((w.1, 10 :: w.2), 0) else Ret (w, - ENOENT)) Return
  else Effect (fun w => Ret ((w.1, f :: w.2), 0)) Return.
Definition rank (i : nat) : nat := if (i =? 0)%nat then 1%nat else 0%nat.
Definition start (fb : bool) : mods (bool * list Z) := mkMods T (fb, []) [].
Definition ns : list (list Z) := [FBSINK; FB; SHA1].

Lemma demo_name p s :
  forallb (fun i => bool_decide (mem !! (p + Z.of_nat i) = (s ++ [0]) !! i)) (seq 0 (S (length s))) = true ->
  forallb (fun b => (0 <? b) && (b <? 256)) s = true -> 0 <= p <= 400 -> (length s < 100)%nat -> cstr mem p s.
Proof.
  intros H1 H2 Hp Hl. rewrite forallb_forall in H1, H2. split; [|split; [|lia]].
  - intros i b Hi. pose proof (lookup_lt_Some _ _ _ Hi) as Hlt. rewrite length_app in Hlt. cbn in Hlt.
    rewrite <- Hi. apply (bool_decide_eq_true_1 _). apply H1, in_seq. lia.
  - apply Forall_forall. intros b Hb%list_elem_of_In. apply H2, andb_prop in Hb as [? ?]. lia.
Qed.

Lemma demo_named : named mem T ns.
Proof.
  split.
  - repeat constructor; try done; apply demo_name; (by vm_compute) || (cbn; lia).
  - apply (bool_decide_eq_true_1 (NoDup ns)). by vm_compute.
Qed.

Lemma demo_calm : mains_calm mem T ns rank.
Proof.
  intros i m Hi _. destruct i as [|[|[|i]]]; cbn in Hi; [injection Hi as <-..|done]; cbn [m_main].
  - apply calm_depends with FB; [apply demo_name; (by vm_compute) || (cbn; lia)| |].
    + intros [|[|[|i]]]; cbn; try done. intros _. lia.
    + intros v. cbn beta. destruct (v <? 0); [constructor|]. constructor; [eauto|constructor].
  - constructor; [|constructor]. intros [[] w]; cbn; eauto.
  - constructor; [eauto|constructor].
Qed.

Lemma demo_wf fb : mods_wf T (start fb).
Proof. split; [done|]. intros i m Hi. destruct i as [|[|[|i]]]; cbn in Hi; [injection Hi as <-; done..|done]. Qed.
End Demo.

(** Without a framebuffer the [main] of [fb] fails for [fbsink] and then again
    in its own stage. *)
Example fb_fails_twice :
  (fun s => s.(calls)) <$> start_modules (Mains0 := Demo.mains) Demo.mem 2 (Demo.start false) =
  Ret [(1%nat, - ENOENT); (2%nat, 0); (0%nat, - ENOENT); (1%nat, - ENOENT)].
Proof. by vm_compute. Qed.

Lemma modules_correct_witness :
  (exists s', start_modules (Mains0 := Demo.mains) Demo.mem 2 (Demo.start true) = Ret s' /\ started s' 0) /\
  mod_builtin_depends_on (Mains0 := Demo.mains) Demo.mem 3 300 (Demo.start true) <> Undef.
Proof.
  destruct (modules_correct (Mains0 := Demo.mains) Demo.mem Demo.T Demo.ns Demo.rank 2 (Demo.start true) Demo.demo_named (Demo.demo_wf true)) as [A _].
  destruct A as [(s' & E & _) D]; [apply Demo.demo_calm|intros [|[|i]] _; cbn; lia|]. split.
  - exists s'. split; [exact E|]. vm_compute in E. injection E as <-. eexists. split; [reflexivity|done].
  - destruct (D 2%nat Demo.SHA1 300) as (s2 & st & -> & _); [done|apply Demo.demo_name; (by vm_compute) || (cbn; lia)|done].
Defined.
