(* ===== verification/Cpu.v ===== *)
(** * The processor

    [arch/x86/gdt.c] with the table of [arch/x86/boot/entry32.S]: the segment
    descriptors and the task state segment; [arch/x86/cpu.c]: who made the
    processor and what it can do.  The instruction [cpuid] is a parameter. *)
From S2P Require Import Prelude CString.

(** ** [gdt.c] *)
Definition GDT_ENTRIES_CNT : Z := 6.
Definition GDT_KERNEL_CS : Z := 0x8.
Definition GDT_KERNEL_DS : Z := 0x10.
Definition GDT_USER_CS : Z := 0x18.
Definition GDT_USER_DS : Z := 0x20.
Definition GDT_TSS : Z := 0x28.

Record GDTEntry := mkGdt {
  limit_lo : Z; base_lo : Z; access_byte : Z; limit_hi : Z; g_reserved : Z; longmode : Z; bits32 : Z; granularity : Z; base_hi : Z }.
Definition sizeof_GDTEntry : Z := 8.
(** The members of the task state segment that are not always zero. *)
Record TssEntry := mkTss { esp0 : Z; ss0 : Z }.
Definition sizeof_TssEntry : Z := 104.

(** The eight bytes as the assembler lays them out: limit, base, access, high
    limit with the flags, high base. *)
Definition asm_entry (access flags : Z) : GDTEntry :=
  mkGdt 0xFFFF 0 access (Z.land flags 0xF) (Z.land (Z.shiftr flags 4) 1) (Z.land (Z.shiftr flags 5) 1)
    (Z.land (Z.shiftr flags 6) 1) (Z.land (Z.shiftr flags 7) 1) 0.
Definition FLAT : Z := Z.lor (Z.lor 0xF (Z.shiftl 1 6)) (Z.shiftl 1 7).
Definition ACCESS (exec : bool) (dpl : Z) : Z :=
  Z.lor (Z.lor (Z.lor (Z.lor (Z.shiftl 1 1) (if exec then Z.shiftl 1 3 else 0)) (Z.shiftl 1 4)) (Z.shiftl dpl 5)) (Z.shiftl 1 7).
Definition null_entry : GDTEntry := mkGdt 0 0 0 0 0 0 0 0 0.
Definition boot_gdt : list GDTEntry :=
  [null_entry; asm_entry (ACCESS true 0) FLAT; asm_entry (ACCESS false 0) FLAT; asm_entry (ACCESS true 3) FLAT;
   asm_entry (ACCESS false 3) FLAT; null_entry].
Definition boot_gdt_size : Z := 48.

Definition gdt_encode_entry_base_and_limit (base limit : Z) (e : GDTEntry) : GDTEntry :=
  mkGdt (Z.land limit 0xFFFF) (Z.land base 0xFFFFFF) e.(access_byte) (Z.shiftr (Z.land limit 0xF0000) 16)
    e.(g_reserved) e.(longmode) e.(bits32) e.(granularity) (Z.shiftr (Z.land base 0xFF000000) 24).
Definition set_access (bit : Z) (e : GDTEntry) : GDTEntry :=
  mkGdt e.(limit_lo) e.(base_lo) (Z.lor e.(access_byte) (Z.shiftl 1 bit)) e.(limit_hi) e.(g_reserved) e.(longmode) e.(bits32) e.(granularity) e.(base_hi).

(** [g_tss] at [tss_addr]; the bits are [accessed], [exec] and [present]. *)
Definition gdt_finish_init (tss_addr gdt_size : Z) (gdt : list GDTEntry) : outcome (list GDTEntry * TssEntry) :=
  _ ← assert_ (gdt_size =? GDT_ENTRIES_CNT * sizeof_GDTEntry);
  let i := Z.to_nat (GDT_TSS / sizeof_GDTEntry) in
  entry ← deref (gdt !! i);
  let entry := gdt_encode_entry_base_and_limit tss_addr sizeof_TssEntry entry in
  let entry := set_access 7 (set_access 3 (set_access 0 entry)) in
  Ret (<[i := entry]> gdt, mkTss 0 GDT_KERNEL_DS).
Definition tss_set_esp0 (esp : Z) (t : TssEntry) : TssEntry := mkTss esp t.(ss0).
Definition tss_get_esp0 (t : TssEntry) : Z := t.(esp0).

(** *** What the processor reads in a descriptor *)
Definition gdt_bytes (e : GDTEntry) : list Z :=
  [e.(limit_lo) mod 256; e.(limit_lo) / 256; e.(base_lo) mod 256; e.(base_lo) / 256 mod 256; e.(base_lo) / 65536; e.(access_byte);
   e.(limit_hi) + 16 * e.(g_reserved) + 32 * e.(longmode) + 64 * e.(bits32) + 128 * e.(granularity); e.(base_hi)].
Definition byte (l : list Z) (i : nat) : Z := nth i l 0.
Definition seg_base (l : list Z) : Z := byte l 2 + 2 ^ 8 * byte l 3 + 2 ^ 16 * byte l 4 + 2 ^ 24 * byte l 7.
Definition seg_limit (l : list Z) : Z :=
  let raw := byte l 0 + 2 ^ 8 * byte l 1 + 2 ^ 16 * (byte l 6 mod 16) in
  if Z.testbit (byte l 6) 7 then raw * 4096 + 4095 else raw.
Definition seg_present (l : list Z) : bool := Z.testbit (byte l 5) 7.
Definition seg_dpl (l : list Z) : Z := byte l 5 / 32 mod 4.
(** Bit 4 and the type: 9 for a 32-bit task state segment that is free, 16 +
    10 for code, 16 + 2 for data. *)
Definition seg_type (l : list Z) : Z := byte l 5 mod 32.

Lemma encode_base base limit e : is_u32 base -> seg_base (gdt_bytes (gdt_encode_entry_base_and_limit base limit e)) = base.
Proof.
  intros Hb. unfold seg_base, gdt_bytes, byte, gdt_encode_entry_base_and_limit. cbn [nth limit_lo base_lo base_hi].
  assert (E1 : Z.land base 0xFFFFFF = base mod 2 ^ 24) by (change 0xFFFFFF with (Z.ones 24); by rewrite Z.land_ones by lia).
  assert (E2 : Z.shiftr (Z.land base 0xFF000000) 24 = base / 2 ^ 24).
  { rewrite Z.shiftr_land. change (Z.shiftr 0xFF000000 24) with (Z.ones 8). rewrite Z.land_ones, Z.shiftr_div_pow2 by lia.
    apply Z.mod_small. unfold is_u32 in Hb. Z.div_mod_to_equations. lia. }
  rewrite E1, E2. Z.div_mod_to_equations. lia.
Qed.

Lemma encode_limit base limit e : 0 <= limit < 2 ^ 20 -> e.(granularity) = 0 -> 0 <= e.(g_reserved) < 2 -> 0 <= e.(longmode) < 2 -> 0 <= e.(bits32) < 2 ->
  seg_limit (gdt_bytes (gdt_encode_entry_base_and_limit base limit e)) = limit.
Proof.
  intros Hl Hg H1 H2 H3. unfold seg_limit, gdt_bytes, byte, gdt_encode_entry_base_and_limit. cbn [nth limit_lo limit_hi g_reserved longmode bits32 granularity]. rewrite Hg.
  assert (E1 : Z.land limit 0xFFFF = limit mod 2 ^ 16) by (change 0xFFFF with (Z.ones 16); by rewrite Z.land_ones by lia).
  assert (E2 : Z.shiftr (Z.land limit 0xF0000) 16 = limit / 2 ^ 16).
  { rewrite Z.shiftr_land. change (Z.shiftr 0xF0000 16) with (Z.ones 4). rewrite Z.land_ones, Z.shiftr_div_pow2 by lia.
    apply Z.mod_small. Z.div_mod_to_equations. lia. }
  rewrite E1, E2. set (b := limit / 2 ^ 16 + _ + _ + _ + 128 * 0).
  assert (Hb : 0 <= b < 2 ^ 7 /\ b mod 16 = limit / 2 ^ 16) by (unfold b; Z.div_mod_to_equations; lia).
  rewrite (testbit_above b 7 7) by lia. rewrite (proj2 Hb). Z.div_mod_to_equations. lia.
Qed.

(** the table the kernel runs with: flat code and data segments for the kernel
    and for programs, and a free, present task state segment of the kernel
    over [g_tss], whose limit is one byte too large. *)
Theorem gdt_finish_correct tss_addr : is_u32 tss_addr ->
  exists gdt, gdt_finish_init tss_addr boot_gdt_size boot_gdt = Ret (gdt, mkTss 0 GDT_KERNEL_DS) /\
    (forall sel exec dpl, (sel, exec, dpl) ∈ [(GDT_KERNEL_CS, true, 0); (GDT_KERNEL_DS, false, 0); (GDT_USER_CS, true, 3); (GDT_USER_DS, false, 3)] ->
       exists e, gdt !! Z.to_nat (sel / 8) = Some e /\ let l := gdt_bytes e in
         seg_base l = 0 /\ seg_limit l = 2 ^ 32 - 1 /\ seg_present l = true /\ seg_dpl l = dpl /\ seg_type l = (if exec : bool then 26 else 18)) /\
    exists e, gdt !! Z.to_nat (GDT_TSS / 8) = Some e /\ let l := gdt_bytes e in
      seg_base l = tss_addr /\ seg_limit l = sizeof_TssEntry /\ seg_present l = true /\ seg_dpl l = 0 /\ seg_type l = 9.
Proof.
  intros Ht. eexists. split; [reflexivity|]. split.
  - intros sel exec dpl Hin. rewrite !elem_of_cons in Hin.
    destruct Hin as [[= -> -> ->]|[[= -> -> ->]|[[= -> -> ->]|[[= -> -> ->]|[]%not_elem_of_nil]]]]; eexists; (split; [reflexivity|]); by vm_compute.
  - eexists. split; [reflexivity|]. cbv zeta. split; [apply (encode_base tss_addr sizeof_TssEntry null_entry Ht)|].
    split; [apply (encode_limit tss_addr sizeof_TssEntry null_entry); unfold sizeof_TssEntry; cbn; lia|]. by vm_compute.
Qed.

(** ** [cpu.c] *)
Definition CPU_VENDOR_INTEL : Z := 0.
Definition CPU_VENDOR_AMD : Z := 1.
Definition CPU_VENDORSTR_INTEL : list Z := [71; 101; 110; 117; 105; 110; 101; 73; 110; 116; 101; 108].
Definition CPU_VENDORSTR_AMD : list Z := [65; 117; 116; 104; 101; 110; 116; 105; 99; 65; 77; 68].
Definition CPU_MSR : Z := Z.shiftl 1 5.
Record CPUInfo := mkInfo { vendor : Z; vendorstr : list Z; cpuid_eaxmax : Z; stepping : Z; model : Z; family : Z }.
(** [flags] is the union's other view of the bit fields. *)
Record cpustate := mkCpu { g_cpufeatures : Z; g_cpuinfo : CPUInfo; g_cpu_identified : bool }.

(** The four registers [cpuid] leaves for a function: eax, ebx, ecx, edx. *)
Class Cpuid := { cpuid_avail : bool; cpuid : Z -> Z * Z * Z * Z }.

Definition put_flag (bit : Z) (v : Z) (flags : Z) : Z := if Z.odd v then Z.setbit flags bit else Z.clearbit flags bit.
(** The member (its bit in [flags]) and the bit of [edx], one line each. *)
Definition common_features : list (Z * Z) :=
  [(0, 0); (1, 1); (2, 2); (3, 3); (4, 4); (5, 5); (6, 6); (7, 7); (8, 8); (9, 9); (10, 11); (11, 12); (12, 13); (13, 14);
   (14, 15); (15, 16); (16, 17); (17, 19); (18, 23); (19, 24); (20, 25); (21, 26); (22, 28)].
Definition intel_features : list (Z * Z) := [(23, 18); (24, 21); (25, 22); (26, 27); (27, 29)].
Definition set_features (table : list (Z * Z)) (edx flags : Z) : Z :=
  foldl (fun flags p => put_flag p.1 (Z.land (Z.shiftr edx p.2) 1) flags) flags table.
Definition cpu_set_common_features (edx flags : Z) : Z := set_features common_features edx flags.

(** The structures laid over [eax]: the bit fields fill bytes from below, and
    the whole byte [ext_family] starts the byte behind [ext_model]. *)
Definition f1_stepping (eax : Z) : Z := eax mod 16.
Definition f1_model (eax : Z) : Z := eax / 16 mod 16.
Definition f1_family (eax : Z) : Z := eax / 256 mod 16.
Definition f1_ext_model (eax : Z) : Z := eax / 65536 mod 16.
Definition f1_ext_family (eax : Z) : Z := eax / 16777216 mod 256.

Section identify.
Context `{!Cpuid}.
Definition cpu_handle_amd_cpuid (s : cpustate) : cpustate :=
  let '(eax, ebx, ecx, edx) := cpuid 1 in
  let '(fam, mod_) :=
    if f1_family eax <? 0xF then (f1_family eax, f1_model eax)
    else (u8 (f1_family eax + f1_ext_family eax), u8 (f1_ext_model eax * 0x10 + f1_model eax)) in
  let i := s.(g_cpuinfo) in
  mkCpu (cpu_set_common_features edx s.(g_cpufeatures))
    (mkInfo CPU_VENDOR_AMD i.(vendorstr) i.(cpuid_eaxmax) (f1_stepping eax) mod_ fam) s.(g_cpu_identified).
Definition cpu_handle_intel_cpuid (s : cpustate) : cpustate :=
  let '(eax, ebx, ecx, edx) := cpuid 1 in
  let i := s.(g_cpuinfo) in
  mkCpu (set_features intel_features edx (cpu_set_common_features edx s.(g_cpufeatures)))
    (mkInfo CPU_VENDOR_INTEL i.(vendorstr) i.(cpuid_eaxmax) (f1_stepping eax)
       (u8 (Z.shiftl (f1_ext_model eax) 4 + f1_model eax)) (u8 (f1_ext_family eax + f1_family eax))) s.(g_cpu_identified).

Definition word4 (z : Z) : list Z := [z mod 256; z / 256 mod 256; z / 65536 mod 256; z / 16777216 mod 256].
Fixpoint c_string (l : list Z) : list Z := match l with [] => [] | b :: l => if b =? 0 then [] else b :: c_string l end.
Definition cpu_identify (s : cpustate) : outcome (cpustate * Z) :=
  if negb cpuid_avail then Panic
  else
    let '(eax, ebx, ecx, edx) := cpuid 0 in
    let i := s.(g_cpuinfo) in
    let str := c_string (word4 ebx ++ word4 edx ++ word4 ecx) in
    let s := mkCpu 0 (mkInfo i.(vendor) str eax i.(stepping) i.(model) i.(family)) s.(g_cpu_identified) in
    s ← (if bool_decide (str = CPU_VENDORSTR_AMD) then Ret (cpu_handle_amd_cpuid s)
         else if bool_decide (str = CPU_VENDORSTR_INTEL) then Ret (cpu_handle_intel_cpuid s)
         else Panic);
    Ret (mkCpu s.(g_cpufeatures) s.(g_cpuinfo) true, 0).
End identify.
Definition cpu_get_info (s : cpustate) : option CPUInfo := if negb s.(g_cpu_identified) then None else Some s.(g_cpuinfo).
Definition cpu_has_feature (flag : Z) (s : cpustate) : bool := negb (Z.land s.(g_cpufeatures) flag =? 0).
(** The register behind [rdmsr], its high and low word. *)
Definition cpu_read_msr (rdmsr : Z -> Z * Z) (msr : Z) (s : cpustate) : Z :=
  if negb (cpu_has_feature CPU_MSR s) then 0 else let '(hi, lo) := rdmsr msr in Z.lor (Z.shiftl hi 32) lo.

(** *** Features *)
Lemma put_flag_bit bit v flags k : 0 <= bit -> 0 <= k -> Z.testbit (put_flag bit v flags) k = if bit =? k then Z.odd v else Z.testbit flags k.
Proof.
  intros Hb Hk. unfold put_flag. destruct (Z.odd v), (Z.eqb_spec bit k) as [->|Hne].
  - by rewrite Z.setbit_eq by lia.
  - by rewrite Z.setbit_neq by lia.
  - by rewrite Z.clearbit_eq by lia.
  - by rewrite Z.clearbit_neq by lia.
Qed.

Lemma set_features_bit edx k : 0 <= k -> forall table flags, Forall (fun p => 0 <= p.1 /\ 0 <= p.2) table -> NoDup table.*1 ->
  Z.testbit (set_features table edx flags) k =
    match list_find (fun p => p.1 = k) table with Some (_, p) => Z.testbit edx p.2 | None => Z.testbit flags k end.
Proof.
  intros Hk table. induction table as [|[b e] table IH] using rev_ind; intros flags Ht Hn; [done|].
  unfold set_features. rewrite foldl_app. cbn [foldl fst snd]. fold (set_features table edx flags).
  apply Forall_app in Ht as [Ht He]. apply Forall_cons in He as [[Hb He] _]. cbn in Hb, He.
  rewrite fmap_app in Hn. cbn in Hn. apply NoDup_app in Hn as (Hn & Hnot & _).
  assert (Hodd : Z.odd (Z.land (Z.shiftr edx e) 1) = Z.testbit edx e).
  { rewrite <- Z.bit0_odd, Z.land_spec, Z.shiftr_spec by lia. cbn. by rewrite andb_true_r. }
  rewrite put_flag_bit, Hodd, (IH flags Ht Hn) by done.
  destruct (Z.eqb_spec b k) as [->|Hne].
  - assert (list_find (fun p => p.1 = k) table = None) as Hnone.
    { apply list_find_None, Forall_forall. intros p Hp E. apply (Hnot k); [|by apply list_elem_of_singleton].
      apply list_elem_of_fmap. by exists p. }
    rewrite (list_find_app_r _ _ _ Hnone). cbn. by rewrite decide_True.
  - destruct (list_find (fun p => p.1 = k) table) as [[i p]|] eqn:E.
    + by rewrite (list_find_app_l _ _ _ _ _ E).
    + rewrite (list_find_app_r _ _ _ E). cbn. by rewrite decide_False.
Qed.

Lemma has_feature_bit k s : 0 <= k -> cpu_has_feature (Z.shiftl 1 k) s = Z.testbit s.(g_cpufeatures) k.
Proof.
  intros Hk. unfold cpu_has_feature. rewrite Z.shiftl_1_l. destruct (Z.testbit (g_cpufeatures s) k) eqn:E.
  - apply negb_true_iff, Z.eqb_neq. intros E0. apply (f_equal (fun z => Z.testbit z k)) in E0.
    by rewrite Z.land_spec, Z.pow2_bits_true, E, Z.bits_0 in E0 by lia.
  - apply negb_false_iff, Z.eqb_eq. apply Z.bits_inj'. intros j Hj. rewrite Z.land_spec, Z.bits_0, Z.pow2_bits_eqb by lia.
    destruct (Z.eqb_spec k j) as [<-|]; [by rewrite E|apply andb_false_r].
Qed.

(** What the vendor's manual numbers the features by. *)
Definition features_of (str : list Z) : list (Z * Z) :=
  common_features ++ (if bool_decide (str = CPU_VENDORSTR_INTEL) then intel_features else []).

Lemma tables_ok str : Forall (fun p => 0 <= p.1 /\ 0 <= p.2) (features_of str) /\ NoDup (features_of str).*1.
Proof.
  unfold features_of. destruct (bool_decide _); split;
    first [by repeat (apply Forall_cons; split; [cbn; lia|]) | apply (bool_decide_eq_true_1 (NoDup _)); by vm_compute].
Qed.

Lemma set_features_app t t' edx flags : set_features t' edx (set_features t edx flags) = set_features (t ++ t') edx flags.
Proof. unfold set_features. by rewrite foldl_app. Qed.

(** [cpu_identify] stops the kernel on a processor that cannot be asked or is
    of an unknown maker; on any other, each feature it can be asked for is
    there exactly when the processor reports it, at the bit the manuals give. *)
Theorem cpu_identify_correct `{!Cpuid} s eax ebx ecx edx : cpuid 0 = (eax, ebx, ecx, edx) ->
  let str := c_string (word4 ebx ++ word4 edx ++ word4 ecx) in
  (cpuid_avail = false \/ (str <> CPU_VENDORSTR_AMD /\ str <> CPU_VENDORSTR_INTEL) -> cpu_identify s = Panic) /\
  (cpuid_avail = true -> str = CPU_VENDORSTR_AMD \/ str = CPU_VENDORSTR_INTEL ->
   exists s', cpu_identify s = Ret (s', 0) /\ cpu_get_info s' = Some s'.(g_cpuinfo) /\ s'.(g_cpuinfo).(vendorstr) = str /\
     forall k, 0 <= k -> cpu_has_feature (Z.shiftl 1 k) s' =
       match list_find (fun p => p.1 = k) (features_of str) with Some (_, p) => Z.testbit (cpuid 1).2 p.2 | None => false end).
Proof.
  intros E0 str. unfold cpu_identify. rewrite E0. fold str. split.
  - intros [->|[H1 H2]]; [done|]. destruct cpuid_avail; [|done]. cbn [negb]. by rewrite !bool_decide_eq_false_2.
  - intros -> Hstr. cbn [negb]. destruct (tables_ok str) as [T1 T2].
    destruct (cpuid 1) as [[[a1 b1] c1] d1] eqn:E1.
    assert (Hbit : forall k, 0 <= k -> Z.testbit (set_features (features_of str) d1 0) k =
      match list_find (fun p => p.1 = k) (features_of str) with Some (_, p) => Z.testbit d1 p.2 | None => false end).
    { intros k Hk. rewrite (set_features_bit d1 k Hk (features_of str) 0 T1 T2). destruct (list_find _ _) as [[? ?]|]; [done|]. apply Z.bits_0. }
    destruct (bool_decide (str = CPU_VENDORSTR_AMD)) eqn:Ea.
    + apply bool_decide_eq_true_1 in Ea. rewrite bind_Ret. eexists. split; [reflexivity|]. cbn [cpu_get_info g_cpu_identified negb].
      unfold cpu_handle_amd_cpuid. rewrite E1. destruct (if f1_family a1 <? 15 then _ else _). cbn. do 2 (split; [done|]).
      intros k Hk. rewrite has_feature_bit by done. cbn [g_cpufeatures]. etransitivity; [|apply (Hbit k Hk)]. unfold features_of, cpu_set_common_features. rewrite Ea. done.
    + apply bool_decide_eq_false_1 in Ea. destruct Hstr as [?|Hi]; [done|]. rewrite bool_decide_eq_true_2 by done. rewrite bind_Ret.
      eexists. split; [reflexivity|]. cbn [cpu_get_info g_cpu_identified negb]. unfold cpu_handle_intel_cpuid. rewrite E1. cbn. do 2 (split; [done|]).
      intros k Hk. rewrite has_feature_bit by done. cbn [g_cpufeatures]. etransitivity; [|apply (Hbit k Hk)].
      unfold features_of. rewrite bool_decide_eq_true_2 by done. unfold cpu_set_common_features. by rewrite <- set_features_app.
Qed.

(** A processor of family 23 (15 + 8): its extended family lies in bits 20 to
    27, and the code reads bits 24 to 31. *)
#[local] Instance zen : Cpuid := {|
  cpuid_avail := true;
  cpuid f := if f =? 0 then (0xD, 0x68747541, 0x444D4163, 0x69746E65) else (0x00800F11, 0, 0, 0x178BFBFF) |}.
Example zen_family : exists s', cpu_identify (mkCpu 0 (mkInfo 0 [] 0 0 0 0) false) = Ret (s', 0) /\
  s'.(g_cpuinfo).(vendor) = CPU_VENDOR_AMD /\ s'.(g_cpuinfo).(family) = 15 /\ cpu_has_feature CPU_MSR s' = true.
Proof. eexists. split; [by vm_compute|]. by vm_compute. Qed.

Lemma gdt_finish_correct_witness :
  exists gdt, gdt_finish_init 0xC0120004 boot_gdt_size boot_gdt = Ret (gdt, mkTss 0 GDT_KERNEL_DS) /\
    exists e, gdt !! 5%nat = Some e /\ seg_base (gdt_bytes e) = 0xC0120004 /\ seg_type (gdt_bytes e) = 9.
Proof.
  destruct (gdt_finish_correct 0xC0120004) as (gdt & H & _ & e & E & Hb & _ & _ & _ & Ht); [unfold is_u32; lia|].
  exists gdt. split; [exact H|]. exists e. split; [exact E|]. split; [exact Hb|exact Ht].
Defined.
Lemma cpu_identify_correct_witness :
  exists s', cpu_identify (mkCpu 0 (mkInfo 0 [] 0 0 0 0) false) = Ret (s', 0) /\ cpu_has_feature (Z.shiftl 1 13) s' = true.
Proof.
  destruct (proj2 (@cpu_identify_correct zen (mkCpu 0 (mkInfo 0 [] 0 0 0 0) false) 0xD 0x68747541 0x444D4163 0x69746E65 eq_refl) eq_refl)
    as (s' & E & _ & _ & H); [left; by vm_compute|].
  exists s'. split; [exact E|]. rewrite H by lia. by vm_compute.
Defined.
