(* ===== verification/Task.v ===== *)
(** * Switching between tasks

    [arch/x86/task.c] for i686: the instructions of [task_switch], run on the
    registers and the words of memory they touch, and a
    [TaskContext] (x86/task_ctx.h): one word, the stack pointer. *)
From S2P Require Import Prelude.

Inductive reg := EBX | ESI | EDI | EBP | ESP.
Record machine := mkMachine { ebx : Z; esi : Z; edi : Z; ebp : Z; esp : Z; eflags : Z; eip : Z; mem : gmap Z Z }.
Definition get (r : reg) (m : machine) : Z :=
  match r with EBX => m.(ebx) | ESI => m.(esi) | EDI => m.(edi) | EBP => m.(ebp) | ESP => m.(esp) end.
Definition set (r : reg) (v : Z) (m : machine) : machine :=
  let 'mkMachine b s d p sp f ip w := m in
  match r with
  | EBX => mkMachine v s d p sp f ip w | ESI => mkMachine b v d p sp f ip w | EDI => mkMachine b s v p sp f ip w
  | EBP => mkMachine b s d v sp f ip w | ESP => mkMachine b s d p v f ip w
  end.

(** Words are at multiples of four, where the stacks and the contexts lie. *)
Definition load (a : Z) (m : machine) : outcome Z := if a mod 4 =? 0 then deref (m.(mem) !! a) else Undef.
Definition store (a v : Z) (m : machine) : outcome machine :=
  if a mod 4 =? 0 then
    _ ← deref (m.(mem) !! a);
    Ret (mkMachine m.(ebx) m.(esi) m.(edi) m.(ebp) m.(esp) m.(eflags) m.(eip) (<[a := v]> m.(mem)))
  else Undef.
Definition push (v : Z) (m : machine) : outcome machine :=
  let a := u32 (m.(esp) - 4) in
  m ← store a v m;
  Ret (set ESP a m).
Definition pop (m : machine) : outcome (Z * machine) :=
  v ← load m.(esp) m;
  Ret (v, set ESP (u32 (m.(esp) + 4)) m).

(** [pushf] leaves out RF and VM; [popf] in the kernel sets the flags a program
    can hold and clears RF, VIF and VIP. *)
Definition FLAGS : Z := 0x247FD5.
Definition PUSHED : Z := 0xFCFFFF.
Definition CLEARED : Z := 0x190000.
Inductive instr :=
| Push (r : reg) | Pushfl | MovLoad (off : Z) (base dst : reg) | MovStore (src : reg) (off : Z) (base : reg)
| Popfl | Pop (r : reg) | RetI.
Definition exec (i : instr) (m : machine) : outcome machine :=
  match i with
  | Push r => push (get r m) m
  | Pushfl => push (Z.land m.(eflags) PUSHED) m
  | MovLoad off base dst => v ← load (u32 (get base m + off)) m; Ret (set dst v m)
  | MovStore src off base => store (u32 (get base m + off)) (get src m) m
  | Popfl =>
      r ← pop m;
      let '(v, m) := r : Z * machine in
      Ret (mkMachine m.(ebx) m.(esi) m.(edi) m.(ebp) m.(esp)
             (Z.lor (Z.land v FLAGS) (Z.ldiff m.(eflags) (Z.lor FLAGS CLEARED))) m.(eip) m.(mem))
  | Pop r => x ← pop m; let '(v, m) := x : Z * machine in Ret (set r v m)
  | RetI =>
      r ← pop m;
      let '(v, m) := r : Z * machine in
      Ret (mkMachine m.(ebx) m.(esi) m.(edi) m.(ebp) m.(esp) m.(eflags) v m.(mem))
  end.
Fixpoint run_code (l : list instr) (m : machine) : outcome machine :=
  match l with [] => Ret m | i :: l => m ← exec i m; run_code l m end.

Definition I686_TASK_SWITCH (esp0_off : Z) : list instr :=
  [Push EBX; Push ESI; Push EDI; Push EBP; Pushfl;
   MovLoad 0x18 ESP EBX; MovStore ESP esp0_off EBX;
   MovLoad 0x1C ESP EBX; MovLoad esp0_off EBX ESP;
   Popfl; Pop EBP; Pop EDI; Pop ESI; Pop EBX; RetI].
(** From the first instruction, the caller's two arguments behind the return
    address. *)
Definition task_switch (m : machine) : outcome machine := run_code (I686_TASK_SWITCH 0) m.

(** ** A task that waits *)
Record task := mkTask { t_ebx : Z; t_esi : Z; t_edi : Z; t_ebp : Z; t_esp : Z; t_eflags : Z; t_eip : Z }.

(** The words a waiting task needs: its context and its six on the stack. *)
Definition frame (ctx sp : Z) : list Z := [ctx; sp; sp + 4; sp + 8; sp + 12; sp + 16; sp + 20].
Record parked (w : gmap Z Z) (ctx sp : Z) (t : task) : Prop := {
  pk_sp : sp mod 4 = 0 /\ 0 <= sp /\ sp + 24 < 2 ^ 32;
  pk_ctx : ctx mod 4 = 0 /\ is_u32 ctx /\ w !! ctx = Some sp;
  pk_flags : exists f, w !! sp = Some f /\ Z.land f FLAGS = Z.land t.(t_eflags) FLAGS;
  pk_regs : w !! (sp + 4) = Some t.(t_ebp) /\ w !! (sp + 8) = Some t.(t_edi) /\ w !! (sp + 12) = Some t.(t_esi) /\ w !! (sp + 16) = Some t.(t_ebx);
  pk_ret : w !! (sp + 20) = Some t.(t_eip) /\ t.(t_esp) = sp + 24 }.

(** A call of [task_switch(prev, next)] that returns to [ret]. *)
Record called (m : machine) (prev next ret : Z) : Prop := {
  cl_sp : m.(esp) mod 4 = 0 /\ 20 <= m.(esp) /\ m.(esp) + 12 < 2 ^ 32;
  cl_args : m.(mem) !! m.(esp) = Some ret /\ m.(mem) !! (m.(esp) + 4) = Some prev /\ m.(mem) !! (m.(esp) + 8) = Some next;
  cl_stack : forall k, 1 <= k <= 5 -> is_Some (m.(mem) !! (m.(esp) - 4 * k));
  cl_prev : prev mod 4 = 0 /\ is_u32 prev /\ is_Some (m.(mem) !! prev) /\ (prev < m.(esp) - 20 \/ m.(esp) + 8 < prev) }.

(** What the call writes. *)
Definition written (m : machine) (prev : Z) : list Z :=
  prev :: ((fun k => m.(esp) - 4 * k) <$> [1; 2; 3; 4; 5]).
(** The caller as its own code will find it after the call. *)
Definition caller (m : machine) (ret : Z) : task := mkTask m.(ebx) m.(esi) m.(edi) m.(ebp) (m.(esp) + 4) m.(eflags) ret.
Definition resumed (t : task) (m : machine) : Prop :=
  m.(ebx) = t.(t_ebx) /\ m.(esi) = t.(t_esi) /\ m.(edi) = t.(t_edi) /\ m.(ebp) = t.(t_ebp) /\ m.(esp) = t.(t_esp) /\
  Z.land m.(eflags) FLAGS = Z.land t.(t_eflags) FLAGS /\ m.(eip) = t.(t_eip).

Lemma push_spec a v m : a = m.(esp) - 4 -> m.(esp) mod 4 = 0 -> 4 <= m.(esp) < 2 ^ 32 -> is_Some (m.(mem) !! a) ->
  push v m = Ret (mkMachine m.(ebx) m.(esi) m.(edi) m.(ebp) a m.(eflags) m.(eip) (<[a := v]> m.(mem))).
Proof.
  intros -> Ha Hr [x Hx]. unfold push, store. rewrite u32_small by (unfold is_u32; lia).
  rewrite (proj2 (Z.eqb_eq _ _)) by (Z.div_mod_to_equations; lia). rewrite Hx. by destruct m.
Qed.
Lemma pop_spec v m : m.(esp) mod 4 = 0 -> 0 <= m.(esp) -> m.(esp) + 4 < 2 ^ 32 -> m.(mem) !! m.(esp) = Some v ->
  pop m = Ret (v, mkMachine m.(ebx) m.(esi) m.(edi) m.(ebp) (m.(esp) + 4) m.(eflags) m.(eip) m.(mem)).
Proof. intros Ha H0 H1 Hx. unfold pop, load. rewrite Ha, Hx. cbn. unfold u32. rewrite Z.mod_small by lia. by destruct m. Qed.

Lemma popfl_flags v old : Z.land (Z.lor (Z.land v FLAGS) (Z.ldiff old (Z.lor FLAGS CLEARED))) FLAGS = Z.land v FLAGS.
Proof.
  apply Z.bits_inj'. intros k Hk. rewrite !Z.land_spec, Z.lor_spec, Z.land_spec, Z.ldiff_spec, Z.lor_spec by lia.
  destruct (Z.testbit FLAGS k), (Z.testbit v k), (Z.testbit old k), (Z.testbit CLEARED k); reflexivity.
Qed.

Definition saved (m : machine) (prev : Z) : gmap Z Z :=
  <[prev := m.(esp) - 20]> (<[m.(esp) - 20 := Z.land m.(eflags) PUSHED]> (<[m.(esp) - 16 := m.(ebp)]>
    (<[m.(esp) - 12 := m.(edi)]> (<[m.(esp) - 8 := m.(esi)]> (<[m.(esp) - 4 := m.(ebx)]> m.(mem)))))).

Lemma load_spec a v m : a mod 4 = 0 -> m.(mem) !! a = Some v -> load a m = Ret v.
Proof. intros Ha Hv. unfold load. by rewrite Ha, Hv. Qed.
Lemma store_spec a v m : a mod 4 = 0 -> is_Some (m.(mem) !! a) ->
  store a v m = Ret (mkMachine m.(ebx) m.(esi) m.(edi) m.(ebp) m.(esp) m.(eflags) m.(eip) (<[a := v]> m.(mem))).
Proof. intros Ha [x Hx]. unfold store. by rewrite Ha, Hx. Qed.


Ltac words := cbn [ebx esi edi ebp esp eflags eip mem get]; first
  [ done | lia | (Z.div_mod_to_equations; lia) | (rewrite ?lookup_insert_ne by lia; rewrite ?lookup_insert_eq; by eauto) ].
Ltac push_at a := rewrite (push_spec a) by words; rewrite bind_Ret; cbn [ebx esi edi ebp esp eflags eip mem get].

(** The first half: the frame is written, the context points at it. *)
Lemma switch_saves m prev next ret k : called m prev next ret ->
  run_code ([Push EBX; Push ESI; Push EDI; Push EBP; Pushfl; MovLoad 0x18 ESP EBX; MovStore ESP 0 EBX; MovLoad 0x1C ESP EBX] ++ k) m =
  run_code k (mkMachine next m.(esi) m.(edi) m.(ebp) (m.(esp) - 20) m.(eflags) m.(eip) (saved m prev)).
Proof.
  intros [(Ha & H0 & H1) (Hr & Hp & Hn) Hs (Hpa & Hpr & Hpm & Hap)]. destruct m as [b s d p sp f ip w]. cbn [esp mem] in *.
  assert (S : is_Some (w !! (sp - 4)) /\ is_Some (w !! (sp - 8)) /\ is_Some (w !! (sp - 12)) /\ is_Some (w !! (sp - 16)) /\ is_Some (w !! (sp - 20)))
    by (split_and!; [apply (Hs 1)|apply (Hs 2)|apply (Hs 3)|apply (Hs 4)|apply (Hs 5)]; lia).
  destruct S as (S1 & S2 & S3 & S4 & S5). cbn [app run_code exec get].
  push_at (sp - 4). push_at (sp - 8). push_at (sp - 12). push_at (sp - 16). push_at (sp - 20).
  replace (u32 (sp - 20 + 24)) with (sp + 4) by (rewrite u32_small by (unfold is_u32; lia); lia).
  rewrite (load_spec _ prev) by words. rewrite !bind_Ret. cbn [set ebx esi edi ebp esp eflags eip mem get].
  rewrite Z.add_0_r, u32_small by done. rewrite store_spec by words.
  rewrite bind_Ret. cbn [ebx esi edi ebp esp eflags eip mem get].
  replace (u32 (sp - 20 + 28)) with (sp + 8) by (rewrite u32_small by (unfold is_u32; lia); lia).
  rewrite (load_spec _ next) by words. by rewrite !bind_Ret.
Qed.

Ltac pop_at v := rewrite (pop_spec v) by words; rewrite !bind_Ret; cbn [set ebx esi edi ebp esp eflags eip mem get].

(** The second half: the other task's registers are back. *)
Lemma switch_resumes m sp t : parked m.(mem) m.(ebx) sp t ->
  exists m', run_code [MovLoad 0 EBX ESP; Popfl; Pop EBP; Pop EDI; Pop ESI; Pop EBX; RetI] m = Ret m' /\ resumed t m' /\ m'.(mem) = m.(mem).
Proof.
  intros [(Ha & H0 & H1) (Hc & Hr & Hs) (f' & Hf & Hff) (Hp & Hd & Hi & Hb) (He & Hsp)]. destruct m as [b s d p sp0 f ip w]. cbn [ebx mem] in *.
  cbn [run_code exec get ebx]. rewrite Z.add_0_r, u32_small by done. rewrite (load_spec _ sp) by words.
  rewrite !bind_Ret. cbn [set ebx esi edi ebp esp eflags eip mem get].
  pop_at f'. pop_at (t_ebp t). replace (sp + 4 + 4) with (sp + 8) by lia. pop_at (t_edi t). replace (sp + 8 + 4) with (sp + 12) by lia.
  pop_at (t_esi t). replace (sp + 12 + 4) with (sp + 16) by lia. pop_at (t_ebx t). replace (sp + 16 + 4) with (sp + 20) by lia.
  pop_at (t_eip t). eexists. split; [reflexivity|]. split; [|done].
  unfold resumed. cbn [ebx esi edi ebp esp eflags eip]. rewrite popfl_flags. split_and!; try done. lia.
Qed.

Lemma saved_other m prev x : x ∉ written m prev -> saved m prev !! x = m.(mem) !! x.
Proof.
  unfold written. cbn. rewrite !not_elem_of_cons. intros (H0 & H1 & H2 & H3 & H4 & H5 & _). unfold saved.
  by rewrite !lookup_insert_ne by lia.
Qed.

Lemma saved_parked m prev next ret : called m prev next ret -> parked (saved m prev) prev (m.(esp) - 20) (caller m ret).
Proof.
  intros [(Ha & H0 & H1) (Hr & _ & _) _ (Hpa & Hpr & _ & Hap)]. split.
  - split; [Z.div_mod_to_equations; lia|lia].
  - split_and!; try done. unfold saved. by rewrite lookup_insert_eq.
  - exists (Z.land m.(eflags) PUSHED). split; [unfold saved; words|]. rewrite <- Z.land_assoc. done.
  - replace (esp m - 20 + 4) with (esp m - 16) by lia. replace (esp m - 20 + 8) with (esp m - 12) by lia.
    replace (esp m - 20 + 12) with (esp m - 8) by lia. replace (esp m - 20 + 16) with (esp m - 4) by lia. unfold saved, caller. split_and!; words.
  - replace (esp m - 20 + 20) with (esp m) by lia. unfold saved, caller. split; [words|cbn; lia].
Qed.

Lemma parked_same w w' ctx sp t : parked w ctx sp t -> (forall x, x ∈ frame ctx sp -> w' !! x = w !! x) -> parked w' ctx sp t.
Proof.
  intros [A (B1 & B2 & B3) (f & F & F') R (E & E')] H. unfold frame in H.
  assert (G : forall x v, x ∈ [ctx; sp; sp + 4; sp + 8; sp + 12; sp + 16; sp + 20] -> w !! x = Some v -> w' !! x = Some v) by (intros x v Hx; by rewrite H).
  destruct R as (R1 & R2 & R3 & R4). split; [done| | | |].
  - split_and!; try done. by apply G; [set_solver|].
  - exists f. split; [|done]. by apply G; [set_solver|].
  - split_and!; by (apply G; [set_solver|]).
  - split; [|done]. by apply G; [set_solver|].
Qed.

Lemma task_switch_spec m prev next ret sp t : called m prev next ret -> parked m.(mem) next sp t ->
  (forall x, x ∈ frame next sp -> x ∉ written m prev) ->
  exists m', task_switch m = Ret m' /\ resumed t m' /\ m'.(mem) = saved m prev.
Proof.
  intros Hc Hp Hd. unfold task_switch, I686_TASK_SWITCH.
  pose proof (switch_saves m prev next ret [MovLoad 0 EBX ESP; Popfl; Pop EBP; Pop EDI; Pop ESI; Pop EBX; RetI] Hc) as E.
  cbn [app] in E. rewrite E.
  edestruct switch_resumes as (m' & E' & R & W); [|exists m'; split; [exact E'|split; [exact R|exact W]]].
  cbn [mem ebx]. apply (parked_same m.(mem)); [exact Hp|]. intros x Hx. by apply saved_other, Hd.
Qed.

(** C5: switching away and back is invisible to a task: the next one runs with
    the registers, flags, stack and return address it waits with, only the
    caller's context and the five words below its stack are written, and once
    anyone switches to the caller again, its frame untouched, it returns from
    its call with its callee-saved registers, stack pointer and flags. *)
Theorem task_switch_roundtrip m a b ret sp t : called m a b ret -> parked m.(mem) b sp t ->
  (forall x, x ∈ frame b sp -> x ∉ written m a) ->
  exists m', task_switch m = Ret m' /\ resumed t m' /\
    (forall x, x ∉ written m a -> m'.(mem) !! x = m.(mem) !! x) /\
    forall n c ret', called n c a ret' ->
      (forall x, x ∈ frame a (m.(esp) - 20) -> n.(mem) !! x = m'.(mem) !! x /\ x ∉ written n c) ->
      exists n', task_switch n = Ret n' /\ resumed (caller m ret) n'.
Proof.
  intros Hc Hp Hd. destruct (task_switch_spec m a b ret sp t Hc Hp Hd) as (m' & E & R & W).
  exists m'. do 2 (split; [done|]). split; [intros x Hx; rewrite W; by apply saved_other|].
  intros n c ret' Hn Hf. destruct (task_switch_spec n c a ret' (m.(esp) - 20) (caller m ret) Hn) as (n' & E' & R' & _).
  - apply (parked_same m'.(mem)); [rewrite W; by eapply saved_parked|]. intros x Hx. by apply Hf.
  - intros x Hx. by apply Hf.
  - by exists n'.
Qed.

(** Two tasks: one at 0x1000 calls, the other waits with its stack at 0x2000. *)
Definition two_tasks : machine :=
  mkMachine 1 2 3 4 0x1000 0x246 0xC0100000
    (list_to_map [(0x1000, 0xC0100500); (0x1004, 0x500); (0x1008, 0x600); (0xFFC, 0); (0xFF8, 0); (0xFF4, 0); (0xFF0, 0); (0xFEC, 0); (0x500, 0);
       (0x600, 0x2000); (0x2000, 0x202); (0x2004, 14); (0x2008, 13); (0x200C, 12); (0x2010, 11); (0x2014, 0xC0100900)]).
Lemma task_switch_roundtrip_witness :
  exists m', task_switch two_tasks = Ret m' /\ m'.(ebx) = 11 /\ m'.(esp) = 0x2018 /\ m'.(eip) = 0xC0100900.
Proof.
  destruct (task_switch_roundtrip two_tasks 0x500 0x600 0xC0100500 0x2000 (mkTask 11 12 13 14 0x2018 0x202 0xC0100900)) as (m' & E & R & _).
  - split; [by vm_compute| |intros k Hk; assert (k = 1 \/ k = 2 \/ k = 3 \/ k = 4 \/ k = 5) as [->|[->|[->|[->| ->]]]] by lia; by eexists|].
    + by vm_compute.
    + split; [done|]. split; [by vm_compute|]. split; [by eexists|left; by vm_compute].
  - split; [by vm_compute|by vm_compute|exists 0x202; by vm_compute|by vm_compute|by vm_compute].
  - intros x Hx. revert x Hx. apply Forall_forall, (bool_decide_eq_true_1 (Forall _ _)). by vm_compute.
  - exists m'. destruct R as (R1 & _ & _ & _ & R5 & _ & R7). split; [exact E|]. split; [exact R1|]. split; [exact R5|exact R7].
Defined.

