(* ===== verification/Syscalls.v ===== *)
(** * System calls

    [kernel/syscalls/syscalls.c], [arch/x86/syscalls.c], the macros of
    [syscall_types.h] and the build tool [tools/syscalls_generate.cpp] that
    lists them: from the definitions in [kernel/syscalls_common.json] to what a
    program finds in [eax] after interrupt 0x80. *)
From stdpp Require Import strings.
From S2P Require Import Prelude Bitwise.
Open Scope string_scope.
Open Scope Z_scope.

Definition ENOSYS : Z := 38.

(** ** [syscalls_generate.cpp] *)
Record SyscallDef := mkDef { idx : nat; ret : string; name : string; args : list string }.
(** The line [generate_syscall_def_macro] writes; the number in the macro's
    name is the length of [args]. *)
Inductive macro := SYSCALL_VOID (d : SyscallDef) | SYSCALL_RETV (d : SyscallDef) | SYSCALL_NULL (n : nat).
Definition generate_syscall_def_macro (d : SyscallDef) : macro :=
  if bool_decide (d.(ret) = "void") then SYSCALL_VOID d else SYSCALL_RETV d.

(** [std::max_element]: the first of the largest. *)
Definition max_element (defs : list SyscallDef) : option SyscallDef :=
  match defs with
  | [] => None
  | d :: defs => Some (foldl (fun best d => if (best.(idx) <? d.(idx))%nat then d else best) d defs)
  end.
Definition defined_idxes (n : nat) (defs : list SyscallDef) : list bool :=
  foldl (fun l d => <[d.(idx) := true]> l) (replicate n false) defs.
(** The macro lines of the file, in order. *)
Definition print_output_content (defs : list SyscallDef) : outcome (list macro) :=
  it ← deref (max_element defs);
  let defined := defined_idxes (S it.(idx)) defs in
  Ret ((fun p : nat * bool =>
          let '(i, b) := p in
          if b then from_option (fun q : nat * SyscallDef => generate_syscall_def_macro q.2) (SYSCALL_NULL i) (list_find (fun d => d.(idx) = i) defs)
          else SYSCALL_NULL i) <$> zip (seq 0 (S it.(idx))) defined).

(** ** [syscall_types.h] and [syscalls.c] *)
Section syscalls.
(** The kernel's functions, by name, on its state: their arguments and what
    they return. *)
Context {W : Type} (sysfn : string -> list Z -> W -> outcome (W * Z)).
Record SyscallEntry := mkEntry { func : list Z -> W -> outcome (W * Z) }.

(** The types of the definitions are one word wide; the signed ones among them. *)
Definition arg_value (ty : string) (v : Z) : Z :=
  if bool_decide (ty ∈ ["int"; "ssize_t"; "off_t"]) then i32 v else u32 v.
(** One [va_arg] per type; the list holds what the caller pushed. *)
Fixpoint va_args (tys : list string) (l : list Z) : outcome (list Z) :=
  match tys, l with
  | [], _ => Ret []
  | _ :: _, [] => Undef
  | ty :: tys, v :: l => vs ← va_args tys l; Ret (arg_value ty v :: vs)
  end.
Definition sys_undefined (sysn : Z) : Z := - ENOSYS.
(** The macros there are: one argument without a result, three or six with;
    any other line does not compile. *)
Definition stub (m : macro) : option SyscallEntry :=
  match m with
  | SYSCALL_VOID d =>
      if bool_decide (length d.(args) = 1%nat) then
        Some (mkEntry (fun l w => vs ← va_args d.(args) l; r ← sysfn d.(name) vs w; let '(w, _) := r : W * Z in Ret (w, 0)))
      else None
  | SYSCALL_RETV d =>
      if bool_decide (length d.(args) = 3%nat) || bool_decide (length d.(args) = 6%nat) then
        Some (mkEntry (fun l w => vs ← va_args d.(args) l; r ← sysfn d.(name) vs w; let '(w, v) := r : W * Z in Ret (w, i32 v)))
      else None
  | SYSCALL_NULL n => Some (mkEntry (fun _ w => Ret (w, sys_undefined (Z.of_nat n))))
  end.
(** The section [.syscalls]: the entries in the order of the lines. *)
Definition syscalls_section (defs : list SyscallDef) : outcome (option (list SyscallEntry)) :=
  ms ← print_output_content defs; Ret (mapM stub ms).

(** [g_syscall_entries] with its count; the entries are one pointer each. *)
Definition sizeof_SyscallEntry : Z := 4.
Definition syscalls_init (start end_ : Z) (section : list SyscallEntry) : list SyscallEntry * Z :=
  (section, (end_ - start) / sizeof_SyscallEntry).
Definition syscalls_do_handle (g : list SyscallEntry * Z) (n : Z) (list_ : list Z) (w : W) : outcome (W * Z) :=
  let '(g_syscall_entries, g_syscall_entry_count) := g in
  if n >=? g_syscall_entry_count then Ret (w, sys_undefined n)
  else e ← deref (g_syscall_entries !! Z.to_nat n); e.(func) list_ w.

(** ** [arch/x86/syscalls.c] *)
Record InterruptFrame := mkFrame { xax : Z; xbx : Z; xcx : Z; xdx : Z; xsi : Z; xdi : Z; xbp : Z }.
Definition registers (f : InterruptFrame) : list Z := [f.(xbx); f.(xcx); f.(xdx); f.(xsi); f.(xdi); f.(xbp)].
Definition set_xax (v : Z) (f : InterruptFrame) : InterruptFrame := mkFrame v f.(xbx) f.(xcx) f.(xdx) f.(xsi) f.(xdi) f.(xbp).
Definition x86syscall_isr (g : list SyscallEntry * Z) (f : InterruptFrame) (w : W) : outcome (W * InterruptFrame) :=
  r ← syscalls_do_handle g f.(xax) (registers f) w;
  let '(w, v) := r : W * Z in
  Ret (w, set_xax (u32 v) f).
End syscalls.

(** *** The table *)
Lemma max_element_ge defs it d : max_element defs = Some it -> d ∈ defs -> (idx d <= idx it)%nat.
Proof.
  destruct defs as [|d0 defs]; [done|]. intros [= <-]. cut (forall best, (idx best <= idx (foldl (fun best d => if (idx best <? idx d)%nat then d else best) best defs))%nat
    /\ forall d, d ∈ defs -> (idx d <= idx (foldl (fun best d => if (idx best <? idx d)%nat then d else best) best defs))%nat).
  { intros H [->|Hd]%elem_of_cons; [by apply (proj1 (H d0))|by apply (proj2 (H d0))]. }
  induction defs as [|e defs IH]; intros best; [split; [done|by intros ? ?%elem_of_nil]|]. cbn [foldl].
  destruct (IH (if (idx best <? idx e)%nat then e else best)) as [IH1 IH2]. destruct (Nat.ltb_spec (idx best) (idx e)).
  - split; [lia|]. intros d' [->|Hd]%elem_of_cons; [lia|by apply IH2].
  - split; [lia|]. intros d' [->|Hd]%elem_of_cons; [lia|by apply IH2].
Qed.

Lemma defined_length n defs : length (defined_idxes n defs) = n.
Proof.
  unfold defined_idxes. rewrite <- (length_replicate n false) at 2. generalize (replicate n false).
  induction defs as [|d defs IH]; intros l; [done|]. cbn. by rewrite IH, length_insert.
Qed.
Lemma defined_lookup n defs i : (i < n)%nat -> defined_idxes n defs !! i = Some (bool_decide (Exists (fun d => idx d = i) defs)).
Proof.
  intros Hi. induction defs as [|d defs IH] using rev_ind; [by apply lookup_replicate_2|].
  unfold defined_idxes. rewrite foldl_app. cbn. fold (defined_idxes n defs). destruct (decide (idx d = i)) as [<-|Hne].
  - rewrite list_lookup_insert_eq by (by rewrite defined_length). f_equal. symmetry. apply bool_decide_eq_true_2, Exists_app. right. by left.
  - rewrite list_lookup_insert_ne by done. rewrite IH. f_equal. apply bool_decide_ext. rewrite Exists_app, Exists_cons, Exists_nil. naive_solver.
Qed.

(** The line of a number: its first definition's, or the null one's. *)
Definition first_def (n : nat) (defs : list SyscallDef) : option SyscallDef := snd <$> list_find (fun d => d.(idx) = n) defs.
Definition line (n : nat) (defs : list SyscallDef) : macro := from_option generate_syscall_def_macro (SYSCALL_NULL n) (first_def n defs).

Lemma first_def_some n defs d : first_def n defs = Some d -> d ∈ defs /\ idx d = n.
Proof.
  unfold first_def. destruct (list_find _ _) as [[i e]|] eqn:E; [|done]. intros [= ->].
  apply list_find_Some in E as (E & H & _). split; [by eapply list_elem_of_lookup_2|done].
Qed.

Lemma print_output_spec defs it : max_element defs = Some it -> print_output_content defs = Ret ((fun n => line n defs) <$> seq 0 (S it.(idx))).
Proof.
  intros Hm. unfold print_output_content. rewrite Hm. cbn [deref]. rewrite bind_Ret. f_equal. apply list_eq. intros i.
  rewrite !list_lookup_fmap. destruct (decide (i < S (idx it))%nat) as [Hi|Hi].
  - rewrite (lookup_seq_lt 0 _ i), Nat.add_0_l by done.
    rewrite (proj2 (lookup_zip_Some _ _ i i (bool_decide (Exists (fun d => idx d = i) defs))));
      [|split; [by apply lookup_seq|by apply defined_lookup]].
    cbn [fmap option_fmap option_map]. f_equal. unfold line, first_def. destruct (bool_decide_reflect (Exists (fun d => idx d = i) defs)) as [He|He].
    + by destruct (list_find _ _).
    + assert (list_find (fun d => idx d = i) defs = None) as ->; [|done]. apply list_find_None. by apply Forall_Exists_neg.
  - rewrite (lookup_seq_ge 0 _ i) by lia. by rewrite lookup_ge_None_2 by (rewrite length_zip_with, length_seq, defined_length; lia).
Qed.

(** *** Calls *)
(** The shapes there is a macro for. *)
Definition shaped (d : SyscallDef) : bool :=
  if bool_decide (d.(ret) = "void") then bool_decide (length d.(args) = 1%nat)
  else bool_decide (length d.(args) = 3%nat) || bool_decide (length d.(args) = 6%nat).

Section calls.
Context {W : Type} (sysfn : string -> list Z -> W -> outcome (W * Z)).

Lemma va_args_spec tys : forall l, (length tys <= length l)%nat -> va_args tys l = Ret (zip_with arg_value tys l).
Proof.
  induction tys as [|ty tys IH]; intros [|v l] Hl; cbn in Hl |- *; [done|done|lia|]. by rewrite IH by lia.
Qed.
Lemma shaped_length d : shaped d = true -> (length d.(args) <= 6)%nat.
Proof. unfold shaped. intros H. repeat case_bool_decide; try done; lia. Qed.

Lemma stub_spec d : shaped d = true -> exists e, stub sysfn (generate_syscall_def_macro d) = Some e /\
  forall f w, e.(func) (registers f) w =
    (r ← sysfn d.(name) (zip_with arg_value d.(args) (registers f)) w; Ret (r.1, if bool_decide (d.(ret) = "void") then 0 else i32 r.2)).
Proof.
  intros Hs. pose proof (shaped_length d Hs) as Hl. unfold shaped in Hs. unfold generate_syscall_def_macro.
  destruct (bool_decide (ret d = "void")); cbn [stub]; rewrite Hs; (eexists; split; [reflexivity|]); intros f w; cbn [func];
    (rewrite va_args_spec by done); rewrite bind_Ret; by destruct (sysfn _ _ _) as [[? ?]| |].
Qed.

Lemma section_spec defs it : max_element defs = Some it -> Forall (fun d => shaped d = true) defs ->
  exists section, syscalls_section sysfn defs = Ret (Some section) /\ length section = S it.(idx) /\
    forall n, (n <= it.(idx))%nat -> exists e, section !! n = Some e /\ stub sysfn (line n defs) = Some e.
Proof.
  intros Hm Hs. unfold syscalls_section. rewrite (print_output_spec defs it Hm), bind_Ret.
  destruct (mapM (stub sysfn) ((fun n => line n defs) <$> seq 0 (S (idx it)))) as [section|] eqn:E.
  - exists section. split; [done|]. apply mapM_Some in E. pose proof (Forall2_length _ _ _ E) as Hlen.
    rewrite length_fmap, length_seq in Hlen. split; [done|]. intros n Hn.
    destruct (Forall2_lookup_l _ _ _ n (line n defs) E) as (e & He & Hst); [|by exists e].
    rewrite list_lookup_fmap, lookup_seq_lt by lia. done.
  - exfalso. apply mapM_None, Exists_exists in E as (m & Hm' & Hn). apply list_elem_of_fmap in Hm' as (n & -> & _). unfold line in Hn.
    destruct (first_def n defs) as [d|] eqn:Ed; cbn in Hn; [|done]. apply first_def_some in Ed as [Ed _].
    rewrite Forall_forall in Hs. destruct (stub_spec d (Hs d Ed)) as (e & He & _). congruence.
Qed.

(** C26: for any list of definitions of the shapes there are macros for, the
    build ends with a table that hands each number to the first definition
    with it: interrupt 0x80 calls that function with the registers from [ebx]
    on as its arguments, each in its type, and leaves the result (0 for
    [void]) in [eax] and the other registers alone; every other number, a gap
    in the table or one behind it, changes nothing and leaves [-ENOSYS]. *)
Theorem syscalls_correct defs start end_ f w : defs <> [] -> Forall (fun d => shaped d = true) defs -> is_u32 f.(xax) ->
  exists section, syscalls_section sysfn defs = Ret (Some section) /\
    (end_ - start = sizeof_SyscallEntry * Z.of_nat (length section) ->
     x86syscall_isr (syscalls_init start end_ section) f w =
       match first_def (Z.to_nat f.(xax)) defs with
       | Some d =>
           r ← sysfn d.(name) (zip_with arg_value d.(args) (registers f)) w;
           Ret (r.1, set_xax (if bool_decide (d.(ret) = "void") then 0 else u32 r.2) f)
       | None => Ret (w, set_xax (u32 (- ENOSYS)) f)
       end).
Proof.
  intros Hne Hs Hx. assert (exists it, max_element defs = Some it) as [it Hm] by (destruct defs; [done|by eexists]).
  destruct (section_spec defs it Hm Hs) as (section & Hsec & Hlen & Hent). exists section. split; [done|]. intros Hsize.
  unfold x86syscall_isr, syscalls_init, syscalls_do_handle. rewrite Hsize, (Z.mul_comm sizeof_SyscallEntry), Z.div_mul, Hlen by done.
  unfold is_u32 in Hx. rewrite Z.geb_leb. destruct (Z.leb_spec (Z.of_nat (S (idx it))) (xax f)) as [Hge|Hlt].
  - destruct (first_def (Z.to_nat (xax f)) defs) as [d|] eqn:Ed; [|done]. apply first_def_some in Ed as [Ed Ei].
    pose proof (max_element_ge _ _ _ Hm Ed). lia.
  - destruct (Hent (Z.to_nat (xax f))) as (e & He & Hst); [lia|]. rewrite He. cbn [deref]. rewrite bind_Ret. unfold line in Hst.
    destruct (first_def (Z.to_nat (xax f)) defs) as [d|] eqn:Ed; cbn in Hst; [|by injection Hst as <-].
    apply first_def_some in Ed as [Ed _]. rewrite Forall_forall in Hs. destruct (stub_spec d (Hs d Ed)) as (e' & He' & Hrun).
    replace e with e' by congruence. rewrite Hrun. destruct (sysfn _ _ _) as [[w' v]| |]; [|done|done]. rewrite !bind_Ret. cbn.
    destruct (bool_decide _); [done|]. by rewrite Bits.u32_i32.
Qed.
End calls.

(** ** [syscalls_common.json] *)
Definition syscalls_common : list SyscallDef :=
  [mkDef 0 "void" "sys_exit" ["int"]; mkDef 1 "int" "sys_open" ["const char*"; "int"; "mode_t"];
   mkDef 2 "ssize_t" "sys_read" ["int"; "void*"; "size_t"]; mkDef 3 "int" "sys_ioctl" ["int"; "int"; "void*"];
   mkDef 4 "ssize_t" "sys_write" ["int"; "const void*"; "size_t"];
   mkDef 5 "void*" "sys_mmap" ["void*"; "size_t"; "int"; "int"; "int"; "off_t"]].

(** A kernel that notes its calls: [sys_read(-1, ...)] fails with [-EBADF]. *)
Definition noting (name : string) (vs : list Z) (w : list (string * list Z)) : outcome (list (string * list Z) * Z) :=
  Ret ((w ++ [(name, vs)])%list, if bool_decide (name = "sys_read") then -9 else 3).
Lemma syscalls_correct_witness : exists section, syscalls_section noting syscalls_common = Ret (Some section) /\
  x86syscall_isr (syscalls_init 0xC0140000 0xC0140018 section) (mkFrame 2 0xFFFFFFFF 0x8000 16 7 8 9) [] =
    Ret ([("sys_read", [-1; 0x8000; 16])], mkFrame 0xFFFFFFF7 0xFFFFFFFF 0x8000 16 7 8 9).
Proof.
  destruct (syscalls_correct noting syscalls_common 0xC0140000 0xC0140018 (mkFrame 2 0xFFFFFFFF 0x8000 16 7 8 9) []) as (section & Hs & H).
  - done.
  - apply (bool_decide_eq_true_1 (Forall _ _)). by vm_compute.
  - by vm_compute.
  - exists section. split; [exact Hs|]. rewrite H; [by vm_compute|]. by injection Hs as <-.
Defined.
(** A number behind the table. *)
Example beyond_table :
  (s ← syscalls_section noting syscalls_common;
   section ← deref s;
   x86syscall_isr (syscalls_init 0xC0140000 0xC0140018 section) (mkFrame 6 0 0 0 0 0 0) []) = Ret ([], mkFrame 0xFFFFFFDA 0 0 0 0 0 0).
Proof. by vm_compute. Qed.
