(* ===== verification/Dma.v ===== *)
(** * What mapping a range for a device leaves

    The theorems of [dma_map_range] ([kernel/mem/dma.c], modelled in
    [Bitmap]): the pages it maps, through the page tables of [Paging] and the
    unit bitmap. *)
From S2P Require Import Prelude Alloc Bitwise Gallocator Kmalloc MRegMap Falloc Paging Bitmap.

Lemma page_div a k : a mod PAGESIZE = 0 -> (a + k * PAGESIZE) / PAGESIZE = a / PAGESIZE + k /\ (a + k * PAGESIZE) mod PAGESIZE = 0.
Proof. intros Ha. unfold PAGESIZE in *. split; Z.div_mod_to_equations; lia. Qed.

Section dma.
Context {H : Type} `{!Allocator H} `{!AlignedAllocator H} `{!AllocatorLaws H} `{!AlignedAllocatorLaws H}.
Context (koff : Z) (Hkoff : 0 <= koff < 2 ^ 32) (Hkoff' : (PAGESIZE | koff)).
Implicit Types (s : mstate H) (p : dmaproc).

(** The pages from [va] on, [n] of them, show the frames from [pa] on with the
    rights of [flags]; every other page is as it was. *)
Definition range_entry (flags frame : Z) : pte_t :=
  mkPte true (has flags PAGE_W) (has flags PAGE_USER) frame (negb (has flags PAGE_X)).
Definition range_mapped (va pa n flags : Z) s s' (d : Z) : Prop :=
  forall va', is_u32 va' ->
    pte_view koff s'.(tables) d va' =
      let k := va' / PAGESIZE - va / PAGESIZE in
      if (0 <=? k) && (k <? n) then range_entry flags (pa / PAGESIZE + k) else pte_view koff s.(tables) d va'.

Lemma range_mapped_0 va pa flags s d : range_mapped va pa 0 flags s s d.
Proof. intros va' _. cbv zeta. by destruct (Z.leb_spec 0 (va' / PAGESIZE - va / PAGESIZE)), (Z.ltb_spec (va' / PAGESIZE - va / PAGESIZE) 0); try lia. Qed.

Lemma range_mapped_step va pa k n flags s s1 s2 d : va mod PAGESIZE = 0 -> pa mod PAGESIZE = 0 -> 0 <= k ->
  (forall va', is_u32 va' -> pte_view koff s1.(tables) d va' =
     if va' / PAGESIZE =? (va + k * PAGESIZE) / PAGESIZE then range_entry flags ((pa + k * PAGESIZE) / PAGESIZE)
     else pte_view koff s.(tables) d va') ->
  range_mapped (va + (k + 1) * PAGESIZE) (pa + (k + 1) * PAGESIZE) n flags s1 s2 d ->
  0 <= n -> range_mapped (va + k * PAGESIZE) (pa + k * PAGESIZE) (n + 1) flags s s2 d.
Proof.
  intros Hva Hpa Hk H1 H2 Hn va' Hva'. cbv zeta. rewrite (H2 va' Hva'). cbv zeta. rewrite (H1 va' Hva').
  destruct (page_div va k Hva) as [-> _], (page_div va (k + 1) Hva) as [-> _], (page_div pa k Hpa) as [-> _], (page_div pa (k + 1) Hpa) as [-> _].
  set (q := va' / PAGESIZE). set (a := va / PAGESIZE).
  destruct (Z.leb_spec 0 (q - (a + (k + 1)))), (Z.ltb_spec (q - (a + (k + 1))) n), (Z.leb_spec 0 (q - (a + k))),
    (Z.ltb_spec (q - (a + k)) (n + 1)), (Z.eqb_spec q (a + k)); cbn; try lia; try done; f_equal; lia.
Qed.

(** The loop: all the pages, or those before the one that had no table. *)
Lemma dma_map_loop_spec m : forall i start pa flags p s, ps_wf koff s p.(paging_struct).(data) ->
  p.(dma_heap).(vaddr) mod PAGESIZE = 0 -> pa mod PAGESIZE = 0 -> 0 <= p.(dma_heap).(vaddr) -> 0 <= pa -> 0 <= start -> 0 <= i ->
  p.(dma_heap).(vaddr) + (start + i + Z.of_nat m) * PAGESIZE <= 2 ^ 32 -> pa + (i + Z.of_nat m) * PAGESIZE <= 2 ^ 32 ->
  let va := p.(dma_heap).(vaddr) + (start + i) * PAGESIZE in
  exists s' st, dma_map_loop koff m i start pa flags p s = Ret (s', st) /\ ps_wf koff s' p.(paging_struct).(data) /\
    grows s s' /\
    exists k, 0 <= k <= Z.of_nat m /\ range_mapped va (pa + i * PAGESIZE) k flags s s' p.(paging_struct).(data) /\
      ((st = 0 /\ k = Z.of_nat m) \/ (st = - ENOMEM /\ k < Z.of_nat m)).
Proof.
  induction m as [|m IH]; intros i start pa flags p s Hps Hva Hpa Hv0 Hp0 Hs0 Hi Hve Hpe va; cbn [dma_map_loop].
  - exists s, 0. do 2 (split; [done|]). split; [apply grows_refl|]. exists 0. split; [lia|]. split; [apply range_mapped_0|by left].
  - assert (Ev : u32 (vaddr (dma_heap p) + u32 ((start + i) * PAGESIZE)) = va).
    { unfold PAGESIZE in *. rewrite (u32_small ((start + i) * 4096)), u32_small by (unfold is_u32; lia). done. }
    assert (Ep : u32 (pa + u32 (i * PAGESIZE)) = pa + i * PAGESIZE).
    { unfold PAGESIZE in *. rewrite (u32_small (i * 4096)), u32_small by (unfold is_u32; lia). done. }
    rewrite Ev, Ep. destruct (page_div (vaddr (dma_heap p)) (start + i) Hva) as [_ Mv], (page_div pa i Hpa) as [_ Mp].
    fold va in Mv. unfold mm_map_page. change Paging.PAGESIZE with PAGESIZE. rewrite Mv, Mp. cbn [Z.eqb assert_]. rewrite !bind_Ret.
    destruct (map_page_spec koff Hkoff Hkoff' s p.(paging_struct) va (pa + i * PAGESIZE) flags) as (s1 & st & -> & Hps1 & _ & Hg1 & Hc);
      [done|unfold is_u32, PAGESIZE in *; lia|unfold is_u32, PAGESIZE in *; lia|done|].
    rewrite bind_Ret. cbn [fst snd]. destruct Hc as [[-> Hv]|(-> & Hv & _)]; cbn [Z.ltb Z.compare Z.opp ENOMEM].
    + exists s1, (- ENOMEM). do 3 (split; [done|]). exists 0. split; [lia|]. split; [|right; split; [done|lia]].
      intros va' Hva'. rewrite (Hv va'). by apply range_mapped_0.
    + destruct (IH (i + 1) start pa flags p s1 Hps1 Hva Hpa Hv0 Hp0 Hs0) as (s2 & st & -> & Hps2 & Hg2 & k & Hk & Hr & Hst); [lia|unfold PAGESIZE in *; lia|unfold PAGESIZE in *; lia|].
      exists s2, st. split; [done|]. split; [done|]. split; [by eapply grows_trans|]. exists (k + 1). split; [lia|]. split.
      * destruct (page_div (vaddr (dma_heap p)) start Hva) as [_ Ms].
        assert (Ea : forall j, vaddr (dma_heap p) + (start + j) * PAGESIZE = vaddr (dma_heap p) + start * PAGESIZE + j * PAGESIZE) by (intros; lia).
        rewrite Ea in Hr. unfold va in *. rewrite Ea in *.
        apply (range_mapped_step _ _ i k flags s s1 s2 _ Ms Hpa Hi Hv Hr). lia.
      * destruct Hst as [[-> ->]|[-> Hlt]]; [left|right]; split; lia || done.
Qed.

(** The bitmap the search runs on: the process's, or a new one without a taken
    unit. *)
Definition start_bitmap p (bm : Bitmap) : Prop :=
  bm_wf bm /\
  if BITMAP_NOT_INIT p.(dma_bitmap)
  then bm.(size) = (p.(dma_heap).(pagespan) + 7) / 8 /\ cursor_unit bm = 0 /\ forall j, 0 <= j < 8 * bm.(size) -> unit_taken bm.(start) j = false
  else bm = p.(dma_bitmap).
Record dma_ok s p : Prop := {
  do_ps : ps_wf koff s p.(paging_struct).(data);
  do_bm : BITMAP_NOT_INIT p.(dma_bitmap) = false -> bm_wf p.(dma_bitmap);
  do_span : 0 <= p.(dma_heap).(pagespan) < 2 ^ 20;
  do_va : p.(dma_heap).(vaddr) mod PAGESIZE = 0 /\ 0 <= p.(dma_heap).(vaddr);
  do_end : forall bm, start_bitmap p bm -> p.(dma_heap).(vaddr) + 8 * bm.(size) * PAGESIZE <= 2 ^ 32 }.

Lemma ps_wf_heap s d h : ps_wf koff s d -> alloc_wf h -> lowest h = lowest s.(heap) ->
  (forall b, live s.(heap) b <> None -> live h b = live s.(heap) b) -> ps_wf koff (set_heap s h) d.
Proof.
  intros [Ha Hlow Hl Ht] Hh Hlo Hlive. split; [done|cbn; lia| |exact Ht].
  intros a Hta. destruct (Hl a Hta) as [Hla|Hla]; [left; cbn; by rewrite Hlive|right; cbn; lia].
Qed.

Lemma zero_units n : forall j, 0 <= j < 8 * Z.of_nat n -> unit_taken (replicate n 0) j = false.
Proof.
  intros j Hj. unfold unit_taken. rewrite lookup_replicate_2; [apply Z.testbit_0_l|].
  assert (0 <= j / 8 < Z.of_nat n) by (Z.div_mod_to_equations; lia). lia.
Qed.

(** Making the bitmap when it is not there. *)
Lemma ensure_bitmap s p : dma_ok s p ->
  (BITMAP_NOT_INIT p.(dma_bitmap) = false /\ start_bitmap p p.(dma_bitmap)) \/
  (BITMAP_NOT_INIT p.(dma_bitmap) = true /\
   exists h bm st, bitmap_init (u32 p.(dma_heap).(pagespan)) s.(heap) p.(dma_bitmap) = Ret (h, bm, st) /\
     ps_wf koff (set_heap s h) p.(paging_struct).(data) /\ grows s (set_heap s h) /\
     ((st = - EINVAL /\ p.(dma_heap).(pagespan) = 0) \/ st = - ENOMEM \/ (st = 0 /\ start_bitmap p bm))).
Proof.
  intros [Hps Hbm Hspan _ _]. unfold start_bitmap. destruct (BITMAP_NOT_INIT p.(dma_bitmap)); [right|left; auto].
  split; [done|]. unfold bitmap_init. rewrite u32_small by (unfold is_u32; lia).
  assert (Hself : ps_wf koff (set_heap s s.(heap)) p.(paging_struct).(data)) by by destruct s.
  destruct (Z.eqb_spec (pagespan (dma_heap p)) 0) as [E|E].
  { eexists _, _, _. split; [reflexivity|]. split; [done|]. split; [by destruct s|by left]. }
  set (sz := (pagespan (dma_heap p) + 7) / 8). assert (Hsz : 1 <= sz < 2 ^ 18) by (unfold sz; Z.div_mod_to_equations; lia).
  destruct (calloc_law s.(heap) sz (pw_alloc _ _ _ Hps)) as (h & q & Hr & Hh & Hc); [lia|].
  pose proof (lowest_kcalloc _ _ _ _ (pw_alloc _ _ _ Hps) Hr) as Hlow. rewrite Hr, bind_Ret. cbn [fst snd].
  assert (Hlive : forall b, live s.(heap) b <> None -> live h b = live s.(heap) b).
  { intros b Hb. destruct Hc as [[_ Hl]|(_ & Hn & Hl)]; [apply Hl|]. rewrite Hl, decide_False; [done|congruence]. }
  assert (Hps' : ps_wf koff (set_heap s h) p.(paging_struct).(data)) by by apply ps_wf_heap.
  assert (Hgr : grows s (set_heap s h)) by (intros b Hb; split; [by apply Hlive|done]).
  destruct (q =? 0); eexists _, _, _; (split; [reflexivity|]); (split; [done|]); (split; [done|]); right; [by left|right].
  split; [done|]. split.
  - split; cbn; [rewrite length_replicate; lia|by apply Forall_replicate; unfold is_u8; lia|lia|lia|lia].
  - cbn. split; [done|]. split; [done|]. intros j Hj. apply zero_units. lia.
Qed.

(** How many pages a range takes. *)
Lemma range_pages n : 1 <= n -> n + PAGESIZE <= 2 ^ 32 ->
  u32 (Bytes.bytes_align_up64 n PAGESIZE) / PAGESIZE = (n + PAGESIZE - 1) / PAGESIZE.
Proof.
  intros Hn Hle. destruct (Bytes.align_up_spec n PAGESIZE) as [[q Hq] Hm]; [done|lia|unfold PAGESIZE in *; lia|].
  rewrite Hq in *. unfold PAGESIZE in *. rewrite u32_small by (unfold is_u32; lia). Z.div_mod_to_equations. lia.
Qed.

Lemma taken_result bm n u o : alloc_result bm n u o -> o = Panic \/ exists bm', o = Ret (bm', u) /\ bm_wf bm'.
Proof.
  unfold alloc_result. destruct (_ <=? _); [|by left]. intros (bm' & -> & Hw & _). right. by exists bm'.
Qed.

(** What [dma_map_range] answers: [pages] pages from the free run at [u]. *)
Definition dma_answer pa pages flags s p (o : outcome (mstate H * dmaproc * (Z * Z))) : Prop :=
  exists s' p' err va, o = Ret (s', p', (err, va)) /\ ps_wf koff s' p.(paging_struct).(data) /\
    grows s s' /\ p'.(paging_struct) = p.(paging_struct) /\ p'.(dma_heap) = p.(dma_heap) /\
    ((err < 0 /\ forall va', is_u32 va' -> pte_view koff s'.(tables) p.(paging_struct).(data) va' = pte_view koff s.(tables) p.(paging_struct).(data) va') \/
     exists bm u k, start_bitmap p bm /\ 0 <= u /\ u + pages <= 8 * bm.(size) /\ free_run bm.(start) pages u /\ bm_wf p'.(dma_bitmap) /\
       range_mapped (p.(dma_heap).(vaddr) + u * PAGESIZE) pa k flags s s' p.(paging_struct).(data) /\
       ((err = 0 /\ va = p.(dma_heap).(vaddr) + u * PAGESIZE /\ k = pages) \/ (err = - ENOMEM /\ 0 <= k < pages))).

(** The search and the loop, as [dma_map_range] does them. *)
Definition dma_tail pa pages flags (bm : Bitmap) p s : outcome (mstate H * dmaproc * (Z * Z)) :=
  r ← bitmap_first_n_free_and_mark pages bm;
  let p := mkDP p.(dma_heap) r.1 p.(paging_struct) in
  if r.2 <? 0 then Ret (s, p, (- ENOMEM, 0))
  else
    let start := r.2 in
    r ← dma_map_loop koff (Z.to_nat pages) 0 start pa flags p s;
    if r.2 <? 0 then Ret (r.1, p, (r.2, 0))
    else Ret (r.1, p, (0, u32 (p.(dma_heap).(vaddr) + u32 (start * PAGESIZE)))).

Lemma dma_tail_spec s p bm pa pages flags : start_bitmap p bm -> ps_wf koff s p.(paging_struct).(data) ->
  p.(dma_heap).(vaddr) mod PAGESIZE = 0 -> 0 <= p.(dma_heap).(vaddr) -> p.(dma_heap).(vaddr) + 8 * bm.(size) * PAGESIZE <= 2 ^ 32 ->
  pa mod PAGESIZE = 0 -> 0 <= pa -> 1 <= pages < 2 ^ 20 -> pa + pages * PAGESIZE <= 2 ^ 32 ->
  dma_tail pa pages flags bm p s = Panic \/ dma_answer pa pages flags s p (dma_tail pa pages flags bm p s).
Proof.
  intros Hst Hps Hva Hv0 Hve Hpa Hp0 Hn Hend. unfold dma_tail. pose proof (proj1 Hst) as Hwf.
  pose proof (bw_byte _ Hwf) as Hby. pose proof (bw_bit _ Hwf) as Hbi. pose proof (bw_size _ Hwf) as Hbs.
  destruct (proj1 (bitmap_alloc_correct bm pages Hwf ltac:(lia))) as [(bm' & -> & Hwf' & _)|(u & Hu & Hun & Hfree & _ & Hres)].
  { right. rewrite bind_Ret. eexists _, _, _, _. split; [reflexivity|]. split; [done|]. split; [apply grows_refl|]. do 2 (split; [done|]). by left. }
  assert (Hu0 : 0 <= u) by (unfold cursor_unit in Hu; lia).
  apply taken_result in Hres as [->|(bm' & -> & Hwf')]; [by left|right]. rewrite bind_Ret. cbn [fst snd]. cbv zeta.
  rewrite (proj2 (Z.ltb_ge u 0)) by lia.
  destruct (dma_map_loop_spec (Z.to_nat pages) 0 u pa flags (mkDP p.(dma_heap) bm' p.(paging_struct)) s) as (s' & st & -> & Hps' & Hg & k & Hk & Hr & Hc);
    cbn [dma_heap paging_struct]; try done; try (unfold PAGESIZE in *; lia).
  cbn [dma_heap paging_struct] in Hps', Hr. rewrite bind_Ret. cbn [fst snd].
  rewrite !Z.add_0_r in Hr. rewrite Z2Nat.id in Hk, Hc by lia.
  assert (Eva : u32 (vaddr (dma_heap p) + u32 (u * PAGESIZE)) = vaddr (dma_heap p) + u * PAGESIZE).
  { unfold PAGESIZE in *. rewrite (u32_small (u * 4096)), u32_small by (unfold is_u32; lia). done. }
  destruct Hc as [[-> ->]|[-> Hlt]]; cbn [Z.ltb Z.compare Z.opp ENOMEM dma_heap]; eexists _, _, _, _; (split; [reflexivity|]); do 4 (split; [done|]);
    right; exists bm, u; [exists pages|exists k]; do 5 (split; [done|]); (split; [exact Hr|]).
  - by left.
  - right. split; [done|lia].
Qed.

Lemma dma_answer_grows s0 s p pa pages flags o : s0.(tables) = s.(tables) -> grows s s0 ->
  o = Panic \/ dma_answer pa pages flags s0 p o -> o = Panic \/ dma_answer pa pages flags s p o.
Proof.
  intros Et Hg [?|(s' & p' & err & va & Ho & Hps & Hg' & Hp & Hh & Hc)]; [by left|right].
  exists s', p', err, va. do 2 (split; [done|]). split; [by eapply grows_trans|]. do 2 (split; [done|]).
  unfold range_mapped in *. by rewrite Et in Hc.
Qed.

Lemma dma_map_range_spec s p pa n flags : dma_ok s p -> pa mod PAGESIZE = 0 -> 0 <= pa -> 1 <= n ->
  pa + (n + PAGESIZE - 1) <= 2 ^ 32 -> n + PAGESIZE <= 2 ^ 32 ->
  dma_map_range koff pa n flags p s = Panic \/ dma_answer pa ((n + PAGESIZE - 1) / PAGESIZE) flags s p (dma_map_range koff pa n flags p s).
Proof.
  intros Hok Hpa Hp0 Hn Hend Hsmall. pose proof Hok as [Hps _ _ [Hva Hv0] Hve]. unfold dma_map_range.
  change (pa mod Bitmap.PAGESIZE) with (pa mod PAGESIZE). rewrite Hpa. cbn [Z.eqb assert_]. rewrite bind_Ret.
  rewrite range_pages by done. set (pages := (n + PAGESIZE - 1) / PAGESIZE).
  assert (Hpages : 1 <= pages < 2 ^ 20 /\ pa + pages * PAGESIZE <= 2 ^ 32).
  { unfold pages, PAGESIZE in *. Z.div_mod_to_equations. lia. }
  destruct (ensure_bitmap s p Hok) as [[Hi Hst]|(Hi & h & bm & st & Hr & Hps' & Hg & Hc)]; rewrite Hi.
  - rewrite bind_Ret. change (if 0 <? 0 then _ else ?e) with e. destruct p as [dh bm ps]. cbn [dma_bitmap dma_heap paging_struct] in *.
    exact (dma_tail_spec s (mkDP dh bm ps) bm pa pages flags Hst Hps Hva Hv0 (Hve bm Hst) Hpa Hp0 (proj1 Hpages) (proj2 Hpages)).
  - rewrite Hr, !bind_Ret. cbn [fst snd]. destruct Hc as [[-> _]|[->|(-> & Hst)]]; cbn [Z.ltb Z.compare Z.opp EINVAL ENOMEM].
    1, 2: right; eexists _, _, _, _; (split; [reflexivity|]); do 4 (split; [done|]); by left.
    apply (dma_answer_grows (set_heap s h)); [done|done|].
    exact (dma_tail_spec (set_heap s h) p bm pa pages flags Hst Hps' Hva Hv0 (Hve bm Hst) Hpa Hp0 (proj1 Hpages) (proj2 Hpages)).
Qed.
End dma.

Lemma dma_map_range_full koff (s : mstate kstate) p pa n flags :
  0 <= koff < 2 ^ 32 -> (PAGESIZE | koff) -> dma_ok koff s p ->
  pa mod PAGESIZE = 0 -> 0 <= pa -> 1 <= n -> pa + (n + PAGESIZE - 1) <= 2 ^ 32 -> n + PAGESIZE <= 2 ^ 32 ->
  let pages := (n + PAGESIZE - 1) / PAGESIZE in
  let d := p.(paging_struct).(data) in
  dma_map_range koff pa n flags p s = Panic \/
  exists s' p' err va, dma_map_range koff pa n flags p s = Ret (s', p', (err, va)) /\ ps_wf koff s' d /\ grows s s' /\
    ((err < 0 /\ exists v k, 0 <= k < pages /\ range_mapped koff v pa k flags s s' d) \/
     (err = 0 /\
      (exists bm u, start_bitmap p bm /\ free_run bm.(start) pages u /\ va = p.(dma_heap).(vaddr) + u * PAGESIZE) /\
      (forall a, va <= a < va + pages * PAGESIZE ->
         mm_va2pa_arch koff a p.(paging_struct) s' = Ret (pa + (a - va)) /\
         pte_view koff s'.(tables) d a = range_entry flags ((pa + (a - va)) / PAGESIZE)) /\
      (forall a, is_u32 a -> ~ va <= a < va + pages * PAGESIZE -> pte_view koff s'.(tables) d a = pte_view koff s.(tables) d a))).
Proof.
  intros Hk Hk' Hok Hpa Hp0 Hn Hend Hsmall pages d. pose proof Hok as [_ _ _ [Hva Hv0] Hve].
  assert (Hpages : 1 <= pages < 2 ^ 20 /\ pa + pages * PAGESIZE <= 2 ^ 32).
  { unfold pages, PAGESIZE in *. Z.div_mod_to_equations. lia. }
  destruct (dma_map_range_spec koff Hk Hk' s p pa n flags Hok Hpa Hp0 Hn Hend Hsmall) as [->|(s' & p' & err & va & -> & Hps & Hg & _ & _ & Hc)]; [by left|right].
  fold pages d in Hps, Hc. exists s', p', err, va. do 3 (split; [done|]).
  destruct Hc as [[He Hv]|(bm & u & k & Hst & Hu & Hun & Hfree & _ & Hr & Hc)].
  { left. split; [done|]. exists 0, 0. split; [lia|]. intros va' Hva'. rewrite (Hv va' Hva'). by apply range_mapped_0. }
  destruct Hc as [(-> & -> & ->)|[-> Hk2]]; [right|left; split; [done|by exists (vaddr (dma_heap p) + u * PAGESIZE), k]].
  set (va := vaddr (dma_heap p) + u * PAGESIZE) in *. specialize (Hve bm Hst).
  assert (Hval : va mod PAGESIZE = 0) by (destruct (page_div (vaddr (dma_heap p)) u Hva); done).
  assert (Hve' : va + pages * PAGESIZE <= 2 ^ 32) by (unfold va, PAGESIZE in *; nia).
  assert (Hva0 : 0 <= va) by (unfold va, PAGESIZE; lia).
  split; [done|]. split; [by exists bm, u|]. split; intros a Ha.
  - assert (Hau : is_u32 a) by (unfold is_u32; lia). pose proof (Hr a Hau) as He. cbv zeta in He.
    assert (Hkk : 0 <= a / PAGESIZE - va / PAGESIZE < pages /\ (pa + (a - va)) / PAGESIZE = pa / PAGESIZE + (a / PAGESIZE - va / PAGESIZE) /\
      (pa + (a - va)) mod PAGESIZE = a mod PAGESIZE) by (unfold PAGESIZE in *; Z.div_mod_to_equations; lia).
    destruct Hkk as (Hkk & Ediv & Emod). rewrite (proj2 (Z.leb_le _ _)), (proj2 (Z.ltb_lt _ _)) in He by lia. cbn [andb] in He.
    split; [|by rewrite Ediv]. unfold d in He.
    rewrite (va2pa_spec koff s' p.(paging_struct) a Hps Hau), He by (rewrite He; done).
    unfold pte_frame_paddr, range_entry. cbn [frame_base]. rewrite <- Ediv, base_shift by (unfold PAGESIZE in *; Z.div_mod_to_equations; lia).
    f_equal. change Paging.PAGESIZE with PAGESIZE. rewrite <- Emod.
    replace ((pa + (a - va)) / PAGESIZE * PAGESIZE + (pa + (a - va)) mod PAGESIZE) with (pa + (a - va)) by (unfold PAGESIZE in *; Z.div_mod_to_equations; lia).
    apply u32_small. unfold is_u32. lia.
  - intros Hout. rewrite (Hr a Ha). cbv zeta.
    destruct (Z.leb_spec 0 (a / PAGESIZE - va / PAGESIZE)), (Z.ltb_spec (a / PAGESIZE - va / PAGESIZE) pages); cbn; try done.
    exfalso. apply Hout. unfold PAGESIZE in *. Z.div_mod_to_equations. lia.
Qed.

(** [dma_map_range] answers an address from which the pages of the range
    show the frames asked for with exactly the rights asked for, the kernel's
    own [mm_va2pa] agrees, they come from a run of units that was free in the
    process's bitmap, and no other page changes; or it answers a negative
    error, and then at most a beginning of one such run has been mapped; or
    the bitmap stops the kernel.  A bitmap that is not there is made first. *)
Theorem dma_map_range_correct koff (s : mstate kstate) p pa n flags :
  0 <= koff < 2 ^ 32 -> (PAGESIZE | koff) -> dma_ok koff s p ->
  pa mod PAGESIZE = 0 -> 0 <= pa -> 1 <= n -> pa + (n + PAGESIZE - 1) <= 2 ^ 32 -> n + PAGESIZE <= 2 ^ 32 ->
  let pages := (n + PAGESIZE - 1) / PAGESIZE in
  let d := p.(paging_struct).(data) in
  dma_map_range koff pa n flags p s = Panic \/
  exists s' p' err va, dma_map_range koff pa n flags p s = Ret (s', p', (err, va)) /\ ps_wf koff s' d /\ grows s s' /\
    ((err < 0 /\ exists v k, 0 <= k < pages /\ range_mapped koff v pa k flags s s' d) \/
     (err = 0 /\
      (exists bm u, start_bitmap p bm /\ free_run bm.(start) pages u /\ va = p.(dma_heap).(vaddr) + u * PAGESIZE) /\
      (forall a, va <= a < va + pages * PAGESIZE ->
         mm_va2pa_arch koff a p.(paging_struct) s' = Ret (pa + (a - va)) /\
         pte_view koff s'.(tables) d a = range_entry flags ((pa + (a - va)) / PAGESIZE)) /\
      (forall a, is_u32 a -> ~ va <= a < va + pages * PAGESIZE -> pte_view koff s'.(tables) d a = pte_view koff s.(tables) d a))).
Proof. exact (dma_map_range_full koff s p pa n flags). Qed.

(** A process with 64 pages for devices and no bitmap yet. *)
Definition demo_dma : dmaproc := mkDP (mkHeap 0xD0000000 64) (mkBM 0 [] 0 0 0) demo_ps.
Lemma demo_dma_ok : dma_ok demo_koff (demo_mm falloc_boot) demo_dma.
Proof.
  split; [exact (demo_mm_wf falloc_boot)|done|cbn; lia|split; [done|cbn; lia]|].
  intros bm [_ (E & _)]. change (pagespan (dma_heap demo_dma)) with 64 in E. rewrite E. by vm_compute.
Qed.

Lemma dma_map_range_correct_witness : exists s' p',
  dma_map_range demo_koff 0xFD000000 8192 PAGE_W demo_dma (demo_mm falloc_boot) = Ret (s', p', (0, 0xD0000000)) /\
  mm_va2pa_arch demo_koff 0xD0001234 demo_ps s' = Ret 0xFD001234.
Proof.
  destruct (dma_map_range_correct demo_koff (demo_mm falloc_boot) demo_dma 0xFD000000 8192 PAGE_W)
    as [E|(s' & p' & err & va & E & _ & _ & Hc)];
    [unfold demo_koff; lia|by exists 0xC0000|exact demo_dma_ok|done|lia|lia|unfold PAGESIZE; lia|unfold PAGESIZE; lia| |].
  - exfalso. pose proof (f_equal (fun r => match r with Panic => true | _ => false end) E) as E'. vm_compute in E'. discriminate E'.
  - pose proof (f_equal (fun r => match r with Ret (_, a) => a | _ => (1, 0) end) E) as E'. vm_compute in E'. injection E' as <- <-.
    exists s', p'. split; [exact E|]. destruct Hc as [[Hneg _]|(_ & _ & Ht & _)]; [lia|].
    apply (proj1 (Ht 0xD0001234 ltac:(split; by vm_compute))).
Defined.
