(* ===== verification/Ksyms.v ===== *)
(** * Kernel symbols

    [kernel/ksyms.c]: the symbol table parsed from the text of the [.ksyms]
    section, and the search of the symbol an address falls under. *)
From Stdlib Require Import Sorted.
From S2P Require Import Prelude CString KStdlib Alloc Bitwise Gallocator Kmalloc.
Import Conv.

(** ** Data *)

Definition EINVAL : Z := 22.
Definition ENOMEM : Z := 12.
Definition sizeof_KernelSymbol : Z := 12.

Record KernelSymbol := mkSym { addr : Z; str : Z; sym_strlen : Z }.
Definition zero_symbol : KernelSymbol := mkSym 0 0 0.

(** [g_ksyms_table] is the elements of its block. *)
Record ksyms_state := mkKS {
  g_ksyms_entries_cnt : Z; g_ksyms_available : bool; g_ksyms_table : list KernelSymbol }.

Section load.
Context {H : Type} `{!Allocator H}.
(** The section, the literal of the magic number, and the local buffer. *)
Context (g_ksyms magic buf : Z).

(** [while (ksyms[len] != '\n') ++len]. *)
Fixpoint line_len (fuel : nat) (m : gmap Z Z) (ksyms len : Z) : outcome Z :=
  match fuel with
  | O => Undef
  | S fuel => c ← load m (ksyms + len); if negb (c =? 10) then line_len fuel m ksyms (len + 1) else Ret len
  end.

Fixpoint parse_entries (k : nat) (i : nat) (ksyms : Z) (tbl : list KernelSymbol) (m : gmap Z Z)
    : outcome (gmap Z Z * list KernelSymbol * Z) :=
  match k with
  | O => Ret (m, tbl, 0)
  | S k =>
      r ← memcpy m buf ksyms 8;
      let m := r.1 in
      st ← strtoul m buf 16;
      if st.(rc) <? 0 then Ret (m, tbl, st.(rc))
      else
        a ← deref st.(dst);
        let ksyms := ksyms + 11 in
        len ← line_len (mem_fuel m) m ksyms 0;
        parse_entries k (S i) (ksyms + (len + 1)) (<[i := mkSym a ksyms len]> tbl) m
  end.

Definition ksyms_load (m : gmap Z Z) (h : H) (s : ksyms_state) : outcome (gmap Z Z * H * ksyms_state * Z) :=
  c ← memcmp m g_ksyms magic 9;
  if negb (c =? 0) then Ret (m, h, s, - EINVAL)
  else
    r ← memset m buf 0 9;
    r ← memcpy r.1 buf (g_ksyms + 9) 8;
    let m := r.1 in
    st ← strtoul m buf 16;
    let s := mkKS (default s.(g_ksyms_entries_cnt) st.(dst)) s.(g_ksyms_available) s.(g_ksyms_table) in
    nl ← load m (g_ksyms + 17);
    if (st.(rc) <? 0) || negb (nl =? 10) then Ret (m, h, s, st.(rc))
    else
      let n := s.(g_ksyms_entries_cnt) in
      a ← kmalloc_ (u32 (n * sizeof_KernelSymbol)) h;
      if a.2 =? 0 then Ret (m, a.1, mkKS n s.(g_ksyms_available) [], - ENOMEM)
      else
        r ← parse_entries (Z.to_nat n) 0 (g_ksyms + 18) (replicate (Z.to_nat n) zero_symbol) m;
        let '(m, tbl, st) := r : gmap Z Z * list KernelSymbol * Z in
        if st <? 0 then Ret (m, a.1, mkKS n s.(g_ksyms_available) tbl, st)
        else Ret (m, a.1, mkKS n true tbl, 0).
End load.

(** ** Looking an address up *)

(** [l] and [r] are [i32]; the index of the last symbol probed, if any. *)
Fixpoint search_loop (fuel : nat) (tbl : list KernelSymbol) (a l r : Z) (ksym : option Z) : outcome (option Z) :=
  match fuel with
  | O => Undef
  | S fuel =>
      if negb (l <=? r) then Ret ksym
      else
        let m := i32 (l + r) ÷ 2 in
        e ← deref (tbl !! Z.to_nat m);
        if e.(addr) <? a then search_loop fuel tbl a (m + 1) r (Some m)
        else if e.(addr) >? a then search_loop fuel tbl a l (m - 1) (Some m)
        else Ret (Some m)
  end.

(** The symbol of an address: its index in the table. *)
Definition find_symbol (a : Z) (s : ksyms_state) : outcome Z :=
  k ← search_loop (S (length s.(g_ksyms_table))) s.(g_ksyms_table) a 0 (i32 (s.(g_ksyms_entries_cnt) - 1)) None;
  i ← deref k;
  e ← deref (s.(g_ksyms_table) !! Z.to_nat i);
  Ret (if (e.(addr) >? a) && (0 <? i) then i - 1 else i).

(** The memory, the offset and the number of characters written. *)
Definition ksyms_get_symbol_name (a name n : Z) (m : gmap Z Z) (s : ksyms_state) : outcome (gmap Z Z * option Z * Z) :=
  if negb s.(g_ksyms_available) || (name =? 0) then Ret (m, None, 0)
  else
    i ← find_symbol a s;
    e ← deref (s.(g_ksyms_table) !! Z.to_nat i);
    let wr := if e.(sym_strlen) <? n then e.(sym_strlen) else n in
    r ← strncpy m name e.(str) wr;
    Ret (r.1, Some (u32 (a - e.(addr))), wr).

(** ** The search *)

Section search.
Context (tbl : list KernelSymbol) (a : Z).
Definition sorted_table : Prop := forall i j x y, (i <= j)%nat -> tbl !! i = Some x -> tbl !! j = Some y -> x.(addr) <= y.(addr).
Context (Hs : sorted_table) (Hlen : Z.of_nat (length tbl) < 2 ^ 30) (Hne : tbl <> []).

(** [l..r] is what is left: below it every address is under [a], above it
    over; the last probe is next to it. *)
Definition search_inv (l r : Z) (k : option Z) : Prop :=
  0 <= l /\ -1 <= r < Z.of_nat (length tbl) /\ l <= r + 1 /\
  (forall i x, tbl !! i = Some x -> Z.of_nat i < l -> x.(addr) < a) /\
  (forall i x, tbl !! i = Some x -> r < Z.of_nat i -> a < x.(addr)) /\
  match k with
  | None => l = 0 /\ r = Z.of_nat (length tbl) - 1
  | Some m => (0 <= m < Z.of_nat (length tbl)) /\ (m = l - 1 \/ m = r + 1)
  end.

(** The best symbol: at or under [a] as high as possible, or the first. *)
Definition best_symbol (i : Z) : Prop :=
  0 <= i /\ exists x, tbl !! Z.to_nat i = Some x /\
    ((x.(addr) <= a /\ forall j y, tbl !! j = Some y -> y.(addr) <= x.(addr) \/ a < y.(addr)) \/
     (i = 0 /\ forall j y, tbl !! j = Some y -> a < y.(addr))).

Definition fix_up (k : option Z) : outcome Z :=
  i ← deref k; e ← deref (tbl !! Z.to_nat i); Ret (if (e.(addr) >? a) && (0 <? i) then i - 1 else i).

Lemma search_done l r k : search_inv l r k -> r < l -> exists i, fix_up k = Ret i /\ best_symbol i.
Proof.
  intros (Hl & Hr & Hlr & Hlow & Hhigh & Hk) Hd. assert (r = l - 1) as -> by lia.
  assert (0 < Z.of_nat (length tbl)) by (destruct tbl; cbn; [done|lia]).
  destruct k as [m|]; [|lia]. destruct Hk as [Hm Hnext].
  destruct (lookup_lt_is_Some_2 tbl (Z.to_nat m)) as (e & He); [lia|].
  unfold fix_up. cbn. rewrite He. cbn. rewrite Z.gtb_ltb. eexists. split; [reflexivity|].
  destruct Hnext as [Hm'|Hm'].
  - assert (addr e < a) by (apply (Hlow _ _ He); lia). rewrite (proj2 (Z.ltb_ge a _)) by lia. cbn.
    split; [lia|]. exists e. split; [done|]. left. split; [lia|]. intros j y Hj.
    destruct (Z.lt_ge_cases (Z.of_nat j) l) as [Hjl|Hjl].
    + left. apply (Hs j (Z.to_nat m)); [lia|done|done].
    + right. apply (Hhigh _ _ Hj). lia.
  - assert (a < addr e) by (apply (Hhigh _ _ He); lia). rewrite (proj2 (Z.ltb_lt a _)) by lia. cbn.
    destruct (Z.ltb_spec 0 m) as [Hm0|Hm0].
    + destruct (lookup_lt_is_Some_2 tbl (Z.to_nat (m - 1))) as (x & Hx); [lia|].
      split; [lia|]. exists x. split; [done|]. left. pose proof (Hlow _ _ Hx ltac:(lia)). split; [lia|].
      intros j y Hj. destruct (Z.lt_ge_cases (Z.of_nat j) m) as [Hjl|Hjl].
      * left. apply (Hs j (Z.to_nat (m - 1))); [lia|done|done].
      * right. apply (Hhigh _ _ Hj). lia.
    + split; [lia|]. exists e. split; [done|]. right. split; [lia|]. intros j y Hj. apply (Hhigh _ _ Hj). lia.
Qed.

Lemma search_spec fuel : forall l r k, search_inv l r k -> (Z.to_nat (r - l + 1) < fuel)%nat ->
  exists k' i, search_loop fuel tbl a l r k = Ret k' /\ fix_up k' = Ret i /\ best_symbol i.
Proof.
  induction fuel as [|fuel IH]; intros l r k I Hf; [lia|]. cbn [search_loop].
  destruct (Z.leb_spec l r) as [Hle|Hgt]; cbn [negb].
  2: { destruct (search_done l r k I Hgt) as (i & ? & ?). by exists k, i. }
  pose proof I as (Hl & Hr & Hlr & Hlow & Hhigh & Hk). cbv zeta.
  rewrite i32_small by (unfold is_i32; lia). rewrite Z.quot_div_nonneg by lia.
  set (m := (l + r) / 2). assert (Hm : l <= m <= r) by (unfold m; Z.div_mod_to_equations; lia).
  destruct (lookup_lt_is_Some_2 tbl (Z.to_nat m)) as (e & He); [lia|]. rewrite He. cbn [deref]. rewrite bind_Ret, Z.gtb_ltb.
  destruct (Z.ltb_spec (addr e) a) as [H1|H1]; [|destruct (Z.ltb_spec a (addr e)) as [H2|H2]].
  - apply IH; [|lia]. split; [lia|]. split; [lia|]. split; [lia|]. split; [|split; [done|lia]].
    intros i x Hi Him. pose proof (Hs i (Z.to_nat m) x e ltac:(lia) Hi He). lia.
  - apply IH; [|lia]. split; [lia|]. split; [lia|]. split; [lia|]. split; [done|split; [|lia]].
    intros i x Hi Him. pose proof (Hs (Z.to_nat m) i e x ltac:(lia) He Hi). lia.
  - exists (Some m), m. split; [done|]. unfold fix_up. cbn. rewrite He. cbn. rewrite Z.gtb_ltb, (proj2 (Z.ltb_ge _ _)) by lia.
    split; [done|]. split; [lia|]. exists e. split; [done|]. left. split; [lia|]. intros j y Hj. lia.
Qed.
End search.

Lemma find_symbol_spec s a : sorted_table s.(g_ksyms_table) -> s.(g_ksyms_table) <> [] ->
  Z.of_nat (length s.(g_ksyms_table)) < 2 ^ 30 -> s.(g_ksyms_entries_cnt) = Z.of_nat (length s.(g_ksyms_table)) ->
  exists i, find_symbol a s = Ret i /\ best_symbol s.(g_ksyms_table) a i.
Proof.
  intros Hs Hne Hl Hc. unfold find_symbol. rewrite Hc, i32_small by (unfold is_i32; lia).
  destruct (search_spec s.(g_ksyms_table) a Hs Hl Hne (S (length (g_ksyms_table s))) 0 (Z.of_nat (length (g_ksyms_table s)) - 1) None)
    as (k' & i & -> & Hi & Hb); [|lia|].
  - split; [lia|]. split; [lia|]. split; [lia|]. split; [lia|]. split; [|done].
    intros i x Hi. apply lookup_lt_Some in Hi. lia.
  - rewrite bind_Ret. by exists i.
Qed.

(** ** Parsing the section *)

(** A line: eight hexadecimal digits, three characters, the name. *)
Record line := mkLine { l_digits : list Z; l_sep : list Z; l_name : list Z }.
Definition line_ok (x : line) : Prop :=
  length x.(l_digits) = 8%nat /\ Forall (is_digit 16) x.(l_digits) /\ length x.(l_sep) = 3%nat /\
  Forall (fun c => c <> 10) x.(l_name).
Definition line_text (x : line) : list Z := (digit_char <$> x.(l_digits)) ++ x.(l_sep) ++ x.(l_name) ++ [10].
Definition lines_text (l : list line) : list Z := concat (line_text <$> l).
Definition line_addr (x : line) : Z := value_msd 16 0 x.(l_digits).

(** The table of the lines whose text starts at [p]. *)
Fixpoint table_of (p : Z) (l : list line) : list KernelSymbol :=
  match l with
  | [] => []
  | x :: l => mkSym (line_addr x) (p + 11) (Z.of_nat (length x.(l_name)))
              :: table_of (p + Z.of_nat (length (line_text x))) l
  end.

Lemma value_8 ds : length ds = 8%nat -> Forall (is_digit 16) ds -> value_msd 16 0 ds < 2 ^ 32.
Proof.
  intros Hl Hd. destruct ds as [|a [|b [|c [|d [|e [|f [|g [|h [|? ?]]]]]]]]]; try done.
  repeat match goal with H : Forall _ (_ :: _) |- _ => apply Forall_cons in H as [? H] end.
  unfold is_digit, value_msd in *. cbn [foldl]. lia.
Qed.

Section load_spec.
Context (buf base n : Z) (Hbuf : disjoint buf 9 base n).
Implicit Types (m : gmap Z Z).

(** Only the buffer changes, and it stays readable. *)
Definition same_text m m' : Prop :=
  (forall a, base <= a < base + n -> m' !! a = m !! a) /\ mapped m' buf 9 /\ m' !! (buf + 8) = Some 0.

Lemma bytes_same m m' p l : same_text m m' -> base <= p -> p + Z.of_nat (length l) <= base + n ->
  bytes_at m p l -> bytes_at m' p l.
Proof.
  intros (Hsame & _) H1 H2 Hb i b Hi. pose proof (lookup_lt_Some _ _ _ Hi). rewrite Hsame by lia. by apply Hb.
Qed.

Lemma parse_number m p ds : mapped m buf 9 -> m !! (buf + 8) = Some 0 -> base <= p -> p + 8 <= base + n ->
  length ds = 8%nat -> Forall (is_digit 16) ds -> bytes_at m p (digit_char <$> ds) ->
  exists m' e, memcpy m buf p 8 = Ret (m', buf) /\ same_text m m' /\
    strtoul m' buf 16 = Ret (StrtoRes 0 e (Some (value_msd 16 0 ds))).
Proof.
  intros Hm H0 Hp Hp' Hl Hd Hb. unfold disjoint in Hbuf.
  assert (Hbytes : Forall is_byte (digit_char <$> ds)).
  { apply Forall_fmap, Forall_forall. intros d _. apply digit_char_byte. }
  assert (Hlen : Z.of_nat (length (digit_char <$> ds)) = 8) by (rewrite length_fmap; lia).
  pose proof (memcpy_spec m buf p (digit_char <$> ds) Hb Hbytes) as Hcpy. rewrite Hlen in Hcpy.
  set (m' := write_bytes m buf (digit_char <$> ds)) in *.
  assert (Hout : forall a, a < buf \/ buf + 8 <= a -> m' !! a = m !! a).
  { intros a Ha. apply write_bytes_outside. lia. }
  assert (Hm' : same_text m m').
  { split; [intros a Ha; apply Hout; lia|]. split; [by apply write_bytes_mapped|]. rewrite Hout by lia. done. }
  assert (Hat : bytes_at m' buf ((digit_char <$> ds) ++ [0])).
  { apply bytes_at_app. split; [apply write_bytes_at|]. rewrite Hlen. intros [|i] b; [|by intros]. intros [= <-].
    rewrite Z.add_0_r. apply Hm'. }
  exists m'. destruct ds as [|d ds]; [done|].
  destruct (wrapped_exact 16 ltac:(lia) (d :: ds) 0) as [Hnd Hw]; [|lia|by apply value_8|].
  { eapply Forall_impl; [exact Hd|]. unfold is_digit. lia. }
  eexists. split; [apply Hcpy; [|lia]|split; [done|]].
  - intros a Ha. apply Hm. lia.
  - rewrite (strtoul_digits m' buf 16 d ds) by (done || lia). by rewrite Hw.
Qed.

Lemma line_len_spec m p name : bytes_at m p (name ++ [10]) -> Forall (fun c => c <> 10) name ->
  forall k i fuel, (i + k = length name)%nat -> (k < fuel)%nat ->
  line_len fuel m p (Z.of_nat i) = Ret (Z.of_nat (length name)).
Proof.
  intros Hb Hn. induction k as [|k IH]; intros i [|fuel] Hik Hf; try lia; cbn [line_len].
  - assert (i = length name) as -> by lia. unfold load. rewrite (Hb (length name) 10) by by apply list_lookup_middle.
    done.
  - destruct (lookup_lt_is_Some_2 name i) as (c & Hc); [lia|]. unfold load.
    rewrite (Hb i c) by by apply lookup_app_l_Some. cbn [deref]. rewrite bind_Ret.
    pose proof (proj1 (Forall_lookup _ _) Hn _ _ Hc). cbn in *. rewrite (proj2 (Z.eqb_neq c 10)) by done. cbn [negb].
    replace (Z.of_nat i + 1) with (Z.of_nat (S i)) by lia. apply IH; lia.
Qed.

Lemma parse_entries_spec lines : forall m p pre rest, base <= p -> p + Z.of_nat (length (lines_text lines)) <= base + n ->
  mapped m buf 9 -> m !! (buf + 8) = Some 0 -> bytes_at m p (lines_text lines) -> Forall line_ok lines ->
  length rest = length lines ->
  exists m', parse_entries buf (length lines) (length pre) p (pre ++ rest) m = Ret (m', pre ++ table_of p lines, 0) /\
    same_text m m'.
Proof.
  induction lines as [|x lines IH]; intros m p pre rest Hp Hpn Hm H0 Hb Hok Hr; cbn [parse_entries table_of length].
  - destruct rest; [|done]. exists m. split; [done|]. split; [done|]. split; done.
  - apply Forall_cons in Hok as [(Hl8 & Hd & Hl3 & Hnm) Hok]. unfold lines_text in *. cbn [fmap list_fmap concat] in *.
    rewrite length_app in Hpn. apply bytes_at_app in Hb as [Hx Hb].
    assert (Hlen : Z.of_nat (length (line_text x)) = 12 + Z.of_nat (length x.(l_name))).
    { unfold line_text. rewrite !length_app, length_fmap. cbn. lia. }
    unfold line_text in Hx. apply bytes_at_app in Hx as [Hdig Hx]. rewrite length_fmap, Hl8 in Hx.
    apply bytes_at_app in Hx as [_ Hname]. rewrite Hl3 in Hname.
    destruct (parse_number m p x.(l_digits)) as (m1 & e & -> & Hs1 & Hst); try done; [lia|].
    rewrite bind_Ret. cbn [fst]. rewrite Hst, bind_Ret. cbn [rc dst Z.ltb Z.compare deref]. rewrite bind_Ret.
    assert (Hname1 : bytes_at m1 (p + 11) (x.(l_name) ++ [10])).
    { apply (bytes_same m m1); [done|lia|rewrite length_app; cbn; lia|]. by replace (p + 11) with (p + Z.of_nat 8 + Z.of_nat 3) by lia. }
    assert (Hfuel : (length x.(l_name) < mem_fuel m1)%nat).
    { pose proof (mapped_size m1 _ _ (bytes_at_mapped _ _ _ Hname1)) as Hsz. rewrite Nat2Z.id, length_app in Hsz. unfold mem_fuel. cbn in Hsz. lia. }
    pose proof (line_len_spec m1 (p + 11) x.(l_name) Hname1 Hnm (length x.(l_name)) 0 (mem_fuel m1) ltac:(lia) Hfuel) as Hll.
    change (Z.of_nat 0) with 0 in Hll. rewrite Hll, bind_Ret.
    destruct rest as [|y rest]; [done|]. set (e1 := mkSym _ _ _).
    assert (<[length pre := e1]> (pre ++ y :: rest) = (pre ++ [e1]) ++ rest) as ->.
    { rewrite <- (Nat.add_0_r (length pre)), insert_app_r. cbn. by rewrite <- app_assoc. }
    replace (S (length pre)) with (length (pre ++ [e1])) by (rewrite length_app; cbn; lia).
    replace (p + 11 + (Z.of_nat (length x.(l_name)) + 1)) with (p + Z.of_nat (length (line_text x))) by lia.
    destruct (IH m1 (p + Z.of_nat (length (line_text x))) (pre ++ [e1]) rest) as (m2 & Hrun & Hs2);
      [lia|lia|apply Hs1|apply Hs1|apply (bytes_same m m1); [done|lia|lia|done]|done|by injection Hr|].
    exists m2. split; [by rewrite Hrun, <- app_assoc|].
    split; [|apply Hs2]. intros a Ha. destruct Hs1 as [Hs1 _], Hs2 as [Hs2 _]. by rewrite Hs2, Hs1.
Qed.
End load_spec.

(** ** The name written *)

Lemma strncpy_exact m dest src l : bytes_at m src l -> Forall (fun b => 0 < b < 256) l ->
  mapped m dest (Z.of_nat (length l)) -> disjoint dest (Z.of_nat (length l)) src (Z.of_nat (length l)) ->
  strncpy m dest src (Z.of_nat (length l)) = Ret (write_bytes m dest l, dest).
Proof.
  intros Hb Hnz Hm Hd. unfold strncpy. rewrite Nat2Z.id.
  assert (Hloop : forall k i, (i + k = length l)%nat ->
    strncpy_copy k (write_bytes m dest (take i l)) dest src (Z.of_nat i) = Ret (write_bytes m dest l, Z.of_nat (length l))).
  { induction k as [|k IH]; intros i Hi; cbn [strncpy_copy].
    - rewrite take_ge by lia. by replace i with (length l) by lia.
    - destruct (lookup_lt_is_Some_2 l i ltac:(lia)) as [b Hbi].
      assert (Hlen : length (take i l) = i) by (rewrite length_take; lia). unfold disjoint in Hd.
      unfold load. rewrite write_bytes_outside by (rewrite Hlen; lia). rewrite (Hb _ _ Hbi). cbn [deref]. rewrite bind_Ret.
      pose proof (proj1 (Forall_lookup _ _) Hnz _ _ Hbi) as Hb0. cbn in Hb0.
      rewrite (proj2 (Z.eqb_neq b 0)) by lia. cbn [negb].
      rewrite (store_mapped _ dest (Z.of_nat (length l)));
        [|by apply write_bytes_mapped|lia|unfold is_byte; lia].
      rewrite bind_Ret. replace (Z.of_nat i + 1) with (Z.of_nat (S i)) by lia. rewrite <- (IH (S i)) by lia.
      by rewrite (take_S_r _ _ _ Hbi), write_bytes_snoc, Hlen. }
  specialize (Hloop (length l) 0%nat ltac:(lia)). rewrite take_0 in Hloop. cbn [write_bytes] in Hloop.
  change (Z.of_nat 0) with 0 in Hloop. rewrite Hloop, bind_Ret. by rewrite Z.sub_diag.
Qed.

(** ** Properties *)

(** The section: the magic number, the number of lines, the lines. *)
Definition magic_text : list Z := [49; 66; 65; 68; 65; 68; 68; 52; 10].
Definition section_text (cnt : list Z) (lines : list line) : list Z :=
  magic_text ++ (digit_char <$> cnt) ++ [10] ++ lines_text lines.

(** from a section made of the magic number, a count and that many lines,
    [ksyms_load] returns 0 and makes the table of the lines, each symbol with
    the address its eight digits say and the position and length of its name,
    or returns [-ENOMEM] when the table cannot be allocated; outside its local
    buffer the memory is untouched. *)
Theorem ksyms_load_correct g_ksyms magic buf cnt lines m (h : kstate) s :
  let text := section_text cnt lines in
  bytes_at m g_ksyms text -> bytes_at m magic magic_text -> mapped m buf 9 ->
  disjoint buf 9 g_ksyms (Z.of_nat (length text)) ->
  length cnt = 8%nat -> Forall (is_digit 16) cnt -> value_msd 16 0 cnt = Z.of_nat (length lines) ->
  Forall line_ok lines -> kwf h -> lines <> [] -> 12 * Z.of_nat (length lines) < 2 ^ 32 ->
  exists m' h' s' st, ksyms_load g_ksyms magic buf m h s = Ret (m', h', s', st) /\ kwf h' /\
    (forall a, g_ksyms <= a < g_ksyms + Z.of_nat (length text) -> m' !! a = m !! a) /\
    ((st = 0 /\ s'.(g_ksyms_available) = true /\ s'.(g_ksyms_entries_cnt) = Z.of_nat (length lines) /\
      s'.(g_ksyms_table) = table_of (g_ksyms + 18) lines) \/
     (st = - ENOMEM /\ s'.(g_ksyms_available) = s.(g_ksyms_available))).
Proof.
  intros text Ht Hmg Hbuf Hdis Hc8 Hcd Hcv Hok Hh Hne Hsz. unfold ksyms_load.
  assert (Htl : Z.of_nat (length text) = 18 + Z.of_nat (length (lines_text lines))).
  { unfold text, section_text. rewrite !length_app, length_fmap, Hc8. cbn. lia. }
  unfold text, section_text in Ht. apply bytes_at_app in Ht as [Ht1 Ht]. apply bytes_at_app in Ht as [Ht2 Ht].
  apply bytes_at_app in Ht as [Ht3 Ht4]. rewrite length_fmap, Hc8 in Ht3, Ht4. cbn [length magic_text] in Ht2, Ht3, Ht4.
  assert (memcmp m g_ksyms magic 9 = Ret 0) as ->.
  { pose proof (memcmp_spec m g_ksyms magic magic_text magic_text) as Hcmp.
    change (Z.of_nat (length magic_text)) with 9 in Hcmp. assert (Hmb : Forall is_byte magic_text) by (repeat constructor; unfold is_byte; lia).
    by rewrite (Hcmp Ht1 Hmg Hmb Hmb eq_refl). }
  rewrite bind_Ret. cbn [Z.eqb negb].
  rewrite (memset_spec m buf 0 9) by (done || lia). rewrite bind_Ret. cbn [fst].
  set (m0 := write_bytes m buf _).
  assert (Hs0 : same_text buf g_ksyms (Z.of_nat (length text)) m m0).
  { unfold disjoint in Hdis. split; [|split].
    - intros a Ha. apply write_bytes_outside. rewrite length_replicate. lia.
    - by apply write_bytes_mapped.
    - unfold m0. rewrite write_bytes_lookup, decide_True by (rewrite length_replicate; lia).
      replace (Z.to_nat (buf + 8 - buf)) with 8%nat by lia. done. }
  destruct (parse_number buf g_ksyms (Z.of_nat (length text)) Hdis m0 (g_ksyms + 9) cnt) as (m1 & e & -> & Hs1 & Hst);
    [apply Hs0|apply Hs0|lia|lia|done|done|apply (bytes_same buf g_ksyms (Z.of_nat (length text)) m m0); [done|lia|rewrite length_fmap; lia|done]|].
  rewrite bind_Ret. cbn [fst]. cbv zeta. rewrite Hst, bind_Ret. cbn [rc dst default].
  assert (Hsame1 : forall a, g_ksyms <= a < g_ksyms + Z.of_nat (length text) -> m1 !! a = m !! a).
  { intros a Ha. destruct Hs0 as [E0 _], Hs1 as [E1 _]. by rewrite E1, E0. }
  unfold load. rewrite Hsame1 by lia.
  assert (m !! (g_ksyms + 17) = Some 10) as ->.
  { specialize (Ht3 0%nat 10 eq_refl). rewrite <- Ht3. f_equal. lia. }
  cbn [deref]. rewrite bind_Ret. cbn [Z.ltb Z.compare Z.eqb negb orb]. unfold default. rewrite Hcv.
  cbn [g_ksyms_entries_cnt g_ksyms_available g_ksyms_table]. unfold id.
  assert (0 < Z.of_nat (length lines)) by (destruct lines; cbn; [done|lia]).
  unfold sizeof_KernelSymbol. rewrite u32_small by (unfold is_u32; lia).
  pose proof (Hh' := Hh : @alloc_wf kstate kmalloc_allocator h).
  destruct (malloc_law h (Z.of_nat (length lines) * 12) Hh') as (h' & p & Hr & Hh1 & _); [lia|]. rewrite Hr, bind_Ret. cbn [fst snd].
  destruct (Z.eqb_spec p 0) as [->|Hp].
  - eexists m1, h', _, _. split; [reflexivity|]. split; [done|]. split; [exact Hsame1|]. by right.
  - rewrite Nat2Z.id.
    destruct (parse_entries_spec buf g_ksyms (Z.of_nat (length text)) Hdis lines m1 (g_ksyms + 18) []
      (replicate (length lines) zero_symbol)) as (m2 & Hrun & Hs2); [lia|lia|apply Hs1|apply Hs1| |done|apply length_replicate|].
    + apply (bytes_same buf g_ksyms (Z.of_nat (length text)) m0 m1); [done|lia|lia|].
      apply (bytes_same buf g_ksyms (Z.of_nat (length text)) m m0); [done|lia|lia|].
      by replace (g_ksyms + 18) with (g_ksyms + Z.of_nat 9 + Z.of_nat 8 + Z.of_nat 1) by lia.
    + cbn [app length] in Hrun. rewrite Hrun, bind_Ret. cbn [Z.ltb Z.compare].
      eexists m2, h', _, 0. split; [reflexivity|]. split; [done|]. split; [|by left].
      intros a Ha. destruct Hs2 as [E2 _]. rewrite E2 by done. by apply Hsame1.
Qed.

(** with a loaded table sorted by address, [ksyms_get_symbol_name] finds the
    symbol with the highest address at or below the one asked for, or the
    first symbol when all are above; it writes the first characters of its
    name, as many as fit in [n], with no terminator, and gives the distance to
    the symbol.  Before a load it writes nothing. *)
Theorem ksyms_lookup_correct a name n m s :
  (s.(g_ksyms_available) = false -> ksyms_get_symbol_name a name n m s = Ret (m, None, 0)) /\
  (s.(g_ksyms_available) = true -> name <> 0 -> 0 <= n ->
   sorted_table s.(g_ksyms_table) -> s.(g_ksyms_table) <> [] -> Z.of_nat (length s.(g_ksyms_table)) < 2 ^ 30 ->
   s.(g_ksyms_entries_cnt) = Z.of_nat (length s.(g_ksyms_table)) ->
   (forall i e, s.(g_ksyms_table) !! i = Some e -> exists text, e.(sym_strlen) = Z.of_nat (length text) /\
      bytes_at m e.(str) text /\ Forall (fun b => 0 < b < 256) text /\
      disjoint name (Z.min (Z.of_nat (length text)) n) e.(str) (Z.of_nat (length text))) ->
   mapped m name n ->
   exists i e text, best_symbol s.(g_ksyms_table) a i /\ s.(g_ksyms_table) !! Z.to_nat i = Some e /\
     bytes_at m e.(str) text /\ e.(sym_strlen) = Z.of_nat (length text) /\
     let k := Z.min (Z.of_nat (length text)) n in
     ksyms_get_symbol_name a name n m s =
       Ret (write_bytes m name (take (Z.to_nat k) text), Some (u32 (a - e.(addr))), k)).
Proof.
  split; [intros Ha; unfold ksyms_get_symbol_name; by rewrite Ha|].
  intros Hav Hn0 Hn Hs Hne Hl Hc Hnames Hmap.
  destruct (find_symbol_spec s a Hs Hne Hl Hc) as (i & Hi & Hb).
  destruct Hb as (Hi0 & e & He & Hbest). destruct (Hnames _ _ He) as (text & Hlen & Hat & Hnz & Hdis).
  exists i, e, text. split; [split; [done|by exists e]|]. do 3 (split; [done|]). cbv zeta.
  unfold ksyms_get_symbol_name. rewrite Hav, (proj2 (Z.eqb_neq name 0)) by done. cbn [negb orb].
  rewrite Hi, bind_Ret, He. cbn [deref]. rewrite bind_Ret. cbv zeta. rewrite Hlen.
  set (k := Z.min (Z.of_nat (length text)) n) in *.
  assert ((if Z.of_nat (length text) <? n then Z.of_nat (length text) else n) = k) as -> by (case_cond; lia).
  assert (Hk : Z.of_nat (length (take (Z.to_nat k) text)) = k) by (rewrite length_take; lia).
  pose proof (strncpy_exact m name e.(str) (take (Z.to_nat k) text)) as Hcpy. rewrite Hk in Hcpy. rewrite Hcpy.
  - by rewrite bind_Ret.
  - intros j b Hj. apply lookup_take_Some in Hj as [Hj _]. by apply Hat.
  - by apply Forall_take.
  - intros x Hx. apply Hmap. lia.
  - unfold disjoint in *. lia.
Qed.

(** Two symbols, "a" at 0x1000 and "bc" at 0x2000, the section at 1000, the
    magic number at 2000, the buffer at 3000 and room for a name at 4000. *)
Definition demo_lines : list line :=
  [mkLine [0; 0; 0; 0; 1; 0; 0; 0] [32; 84; 32] [97]; mkLine [0; 0; 0; 0; 2; 0; 0; 0] [32; 84; 32] [98; 99]].
Definition demo_count : list Z := [0; 0; 0; 0; 0; 0; 0; 2].
Definition demo_text : list Z := section_text demo_count demo_lines.
Definition demo_ksyms : gmap Z Z :=
  write_bytes (write_bytes (write_bytes (write_bytes ∅ 4000 (replicate 8 0)) 1000 demo_text) 2000 magic_text)
    3000 (replicate 9 7).
Definition no_ksyms : ksyms_state := mkKS 0 false [].

Lemma demo_text_at : bytes_at demo_ksyms 1000 demo_text.
Proof.
  do 2 (apply write_bytes_bytes_at; [|unfold disjoint; cbn; lia]). apply write_bytes_at.
Qed.

Lemma demo_mapped p l : bytes_at demo_ksyms p l -> mapped demo_ksyms p (Z.of_nat (length l)).
Proof. apply bytes_at_mapped. Qed.

Lemma demo_lines_ok : Forall line_ok demo_lines.
Proof.
  repeat (apply Forall_cons; split); try apply Forall_nil_2;
    (split; [done|]; split; [repeat constructor; unfold is_digit; lia|]; split; [done|]; repeat constructor; lia).
Qed.

Lemma ksyms_load_correct_witness :
  exists m' h' s', ksyms_load 1000 2000 3000 demo_ksyms demo_k no_ksyms = Ret (m', h', s', 0) /\
    s'.(g_ksyms_table) = [mkSym 0x1000 1029 1; mkSym 0x2000 1042 2].
Proof.
  destruct (ksyms_load_correct 1000 2000 3000 demo_count demo_lines demo_ksyms demo_k no_ksyms)
    as (m' & h' & s' & st & Hr & _ & _ & [(-> & _ & _ & Ht)|[-> _]]).
  - exact demo_text_at.
  - apply write_bytes_bytes_at; [apply write_bytes_at|unfold disjoint; cbn; lia].
  - apply (demo_mapped 3000 (replicate 9 7)). apply write_bytes_at.
  - unfold disjoint. cbn. lia.
  - reflexivity.
  - repeat constructor; unfold is_digit; lia.
  - reflexivity.
  - exact demo_lines_ok.
  - exact demo_k_wf.
  - discriminate.
  - cbn. lia.
  - exists m', h', s'. split; [exact Hr|exact Ht].
  - exfalso. pose proof (f_equal (fun r => match r with Ret (_, a) => a | _ => 1 end) Hr) as E.
    vm_compute in E. discriminate E.
Defined.

Definition demo_symbols : ksyms_state := mkKS 2 true (table_of 1018 demo_lines).

Lemma ksyms_lookup_correct_witness :
  exists i e text, best_symbol demo_symbols.(g_ksyms_table) 0x2004 i /\
    demo_symbols.(g_ksyms_table) !! Z.to_nat i = Some e /\
    ksyms_get_symbol_name 0x2004 4000 8 demo_ksyms demo_symbols =
      Ret (write_bytes demo_ksyms 4000 (take (Z.to_nat (Z.min (Z.of_nat (length text)) 8)) text),
           Some (u32 (0x2004 - e.(addr))), Z.min (Z.of_nat (length text)) 8).
Proof.
  pose proof demo_text_at as Ht.
  assert (H1 : bytes_at demo_ksyms 1029 [97]).
  { intros [|i] b Hb; [|by destruct i]. injection Hb as <-. exact (Ht 29%nat 97 eq_refl). }
  assert (H2 : bytes_at demo_ksyms 1042 [98; 99]).
  { intros [|[|i]] b Hb; [| |by destruct i]; injection Hb as <-; [exact (Ht 42%nat 98 eq_refl)|exact (Ht 43%nat 99 eq_refl)]. }
  destruct (proj2 (ksyms_lookup_correct 0x2004 4000 8 demo_ksyms demo_symbols))
    as (i & e & text & Hb & He & _ & _ & Hr).
  - reflexivity.
  - discriminate.
  - lia.
  - intros [|[|i]] [|[|j]] x y Hij Hx Hy; try (destruct i; discriminate Hx); try (destruct j; discriminate Hy); try lia;
      injection Hx as <-; injection Hy as <-; cbn; lia.
  - discriminate.
  - cbn. lia.
  - reflexivity.
  - intros [|[|i]] e He; [| |destruct i; discriminate He]; injection He as <-.
    + exists [97]. repeat split; [exact H1|repeat constructor; lia|unfold disjoint; cbn; lia].
    + exists [98; 99]. repeat split; [exact H2|repeat constructor; lia|unfold disjoint; cbn; lia].
  - apply (demo_mapped 4000 (replicate 8 0)).
    do 3 (apply write_bytes_bytes_at; [|unfold disjoint; cbn; lia]). apply write_bytes_at.
  - exists i, e, text. split; [exact Hb|]. split; [exact He|exact Hr].
Defined.
