(* ===== verification/Path.v ===== *)
(** * Paths

    [kernel/fs/path.c]: canonical paths, paths relative to a mount point and
    file names, edited in place in the byte memory. *)
From S2P Require Import Prelude CString.

Definition EINVAL : Z := 22.
Definition ENAMETOOLONG : Z := 36.
(** ['/'] and ['.']. *)
Definition SLASH : Z := 47.
Definition DOT : Z := 46.

Section path.
Implicit Types (m : gmap Z Z) (path i : Z).

(** [for (; n--; ++k) path[k] = path[k + d]]: how the code closes a gap. *)
Fixpoint shift_left (n : nat) m path k (d : Z) : outcome (gmap Z Z) :=
  match n with
  | O => Ret m
  | S n => c ← load m (path + (k + d)); m ← store m (path + k) c; shift_left n m path (k + 1) d
  end.

(** [matching += (path[i] == fs->mntpoint[i])]. *)
Fixpoint count_matching (n : nat) m path (mnt i matching : Z) : outcome Z :=
  match n with
  | O => Ret matching
  | S n => a ← load m (path + i); b ← load m (mnt + i);
      count_matching n m path mnt (i + 1) (if a =? b then matching + 1 else matching)
  end.
Fixpoint drop_front (n : nat) m path (pathlen : Z) : outcome (gmap Z Z) :=
  match n with
  | O => Ret m
  | S n => m ← shift_left (Z.to_nat pathlen) m path 0 1; drop_front n m path pathlen
  end.

(** [fs] is the mount point of a file system that is not null. *)
Definition path_make_relative m path (fs : option Z) : outcome (gmap Z Z * Z) :=
  match fs with
  | None => Ret (m, - EINVAL)
  | Some mnt =>
      if (path =? 0) || (mnt =? 0) then Ret (m, - EINVAL)
      else
        pathlen ← strlen m path;
        prefixlen ← strlen m mnt;
        if prefixlen >? pathlen then Ret (m, - EINVAL)
        else
          c ← load m mnt;
          if (prefixlen =? 1) && (c =? SLASH) then Ret (m, 0)
          else
            matching ← count_matching (Z.to_nat prefixlen) m path mnt 0 0;
            if negb (matching =? prefixlen) then Ret (m, - ENAMETOOLONG)
            else m ← drop_front (Z.to_nat prefixlen) m path pathlen; Ret (m, 0)
  end.

(** Without a slash [end] is null and [off] is minus the address. *)
Definition path_make_filename m path : outcome (gmap Z Z * Z) :=
  end_ ← strrchr m path SLASH;
  let off := u32 (end_ - path) in
  r ← strcpy m path (u32 (path + (off + 1)));
  Ret (r.1, 0).

(** First pass: slashes that follow a slash go. *)
Fixpoint squeeze_loop (fuel : nat) m path i (pathlen : Z) (hit_del : bool) : outcome (gmap Z Z * Z) :=
  match fuel with
  | O => Undef
  | S fuel =>
      if negb (i <? pathlen) then Ret (m, pathlen)
      else
        c ← load m (path + i);
        if c =? SLASH then
          if hit_del then
            m ← shift_left (Z.to_nat (pathlen - i)) m path i 1;
            squeeze_loop fuel m path i (pathlen - 1) true
          else squeeze_loop fuel m path (i + 1) pathlen true
        else squeeze_loop fuel m path (i + 1) pathlen false
  end.

(** Second pass: ["./"] and a last ["."] go; [++i] follows in every case. *)
Fixpoint dots_loop (fuel : nat) m path i (pathlen : Z) : outcome (gmap Z Z * Z) :=
  match fuel with
  | O => Undef
  | S fuel =>
      if negb (i <? pathlen) then Ret (m, pathlen)
      else
        c ← load m (path + i);
        if negb (c =? DOT) then dots_loop fuel m path (i + 1) pathlen
        else
          slash ← (if i <? pathlen - 1 then load m (path + (i + 1)) else Ret 0);
          if slash =? SLASH then
            m ← shift_left (Z.to_nat (pathlen - 1 - i)) m path i 2;
            dots_loop fuel m path (i + 1) (pathlen - 2)
          else if i =? pathlen - 1 then
            m ← store m (path + (pathlen - 1)) 0; dots_loop fuel m path (i + 1) (pathlen - 1)
          else dots_loop fuel m path (i + 1) pathlen
  end.

Definition path_make_canonical m path : outcome (gmap Z Z * Z) :=
  pathlen ← strlen m path;
  r ← squeeze_loop (S (Z.to_nat pathlen)) m path 0 pathlen false;
  let '(m, pathlen) := r : gmap Z Z * Z in
  r ← dots_loop (S (Z.to_nat pathlen)) m path 0 pathlen;
  let '(m, pathlen) := r : gmap Z Z * Z in
  if 1 <? pathlen then
    c ← load m (path + (pathlen - 1));
    if c =? SLASH then m ← store m (path + (pathlen - 1)) 0; Ret (m, 0) else Ret (m, 0)
  else Ret (m, 0).
End path.

(** ** The passes on the bytes of the path *)

Fixpoint squeeze (hit : bool) (l : list Z) : list Z :=
  match l with
  | [] => []
  | c :: l => if c =? SLASH then if hit then squeeze true l else c :: squeeze true l else c :: squeeze false l
  end.
(** What follows a removed ["./"] is not looked at. *)
Fixpoint drop_dots (l : list Z) : list Z :=
  match l with
  | [] => []
  | c :: l1 =>
      if c =? DOT then
        match l1 with
        | [] => []
        | c' :: l2 => if c' =? SLASH then match l2 with [] => [] | x :: l3 => x :: drop_dots l3 end
                      else c :: drop_dots l1
        end
      else c :: drop_dots l1
  end.
Definition strip_slash (l : list Z) : list Z :=
  match last l with
  | Some c => if (1 <? Z.of_nat (length l)) && (c =? SLASH) then removelast l else l
  | None => l
  end.
Definition canonical (s : list Z) : list Z := strip_slash (drop_dots (squeeze false s)).

(** ** A buffer in memory

    [write_bytes m p b] is a memory with the buffer [b] at [p]; reads, writes
    and shifts inside it are operations on [b]. *)
Section buffer.
Implicit Types (m : gmap Z Z) (p i : Z) (b l : list Z).

(** A buffer split at [k]: [n] bytes move down by [d]. *)
Lemma shift_left_spec n : forall m p l0 l1 l2 l3 d, (0 < d) -> length l1 = Z.to_nat d -> length l2 = n ->
  Forall is_byte l2 ->
  shift_left n (write_bytes m p (l0 ++ l1 ++ l2 ++ l3)) p (Z.of_nat (length l0)) d =
  Ret (write_bytes m p (l0 ++ l2 ++ drop n (l1 ++ l2 ++ l3))).
Proof.
  induction n as [|n IH]; intros m p l0 l1 l2 l3 d Hd H1 H2 Hb; cbn [shift_left].
  - destruct l2; [|done]. by rewrite drop_0.
  - destruct l2 as [|c l2]; [done|]. apply Forall_cons in Hb as [Hc Hb].
    destruct l1 as [|x l1]; [cbn in H1; lia|].
    rewrite (buf_load _ _ _ _ c); [|lia|].
    2: { replace (Z.to_nat (Z.of_nat (length l0) + d)) with (length (l0 ++ x :: l1) + 0)%nat by (rewrite length_app; lia).
         rewrite !app_assoc, <- (app_assoc (l0 ++ x :: l1)), lookup_app_r by lia.
         by replace (length (l0 ++ x :: l1) + 0 - length (l0 ++ x :: l1))%nat with 0%nat by lia. }
    rewrite bind_Ret, buf_store by (done || rewrite !length_app; cbn; lia). rewrite bind_Ret, Nat2Z.id.
    rewrite insert_app_r_alt, Nat.sub_diag by lia. cbn [app insert list_insert].
    replace (l0 ++ c :: l1 ++ c :: l2 ++ l3) with ((l0 ++ [c]) ++ (l1 ++ [c]) ++ l2 ++ l3) by (rewrite <- !app_assoc; done).
    replace (Z.of_nat (length l0) + 1) with (Z.of_nat (length (l0 ++ [c]))) by (rewrite length_app; cbn; lia).
    rewrite IH; [|done|rewrite length_app; cbn in *; lia|by injection H2|done].
    f_equal. f_equal. rewrite <- !app_assoc. cbn. done.
Qed.
Definition path_byte (c : Z) : Prop := 0 < c < 256.
Lemma path_bytes l : Forall path_byte l -> Forall is_byte (l ++ [0]).
Proof.
  intros Hl. apply Forall_app. split; [|by repeat constructor].
  eapply Forall_impl; [exact Hl|]. unfold path_byte, is_byte. lia.
Qed.

(** [d] bytes are cut out of the string. *)
Lemma cut_spec m p l0 l1 l2 rest d n : 0 < d -> length l1 = Z.to_nat d -> n = S (length l2) -> Forall path_byte l2 ->
  exists rest', length rest' = (length l1 + length rest)%nat /\
    shift_left n (write_bytes m p (l0 ++ l1 ++ l2 ++ 0 :: rest)) p (Z.of_nat (length l0)) d =
    Ret (write_bytes m p (l0 ++ l2 ++ 0 :: rest')).
Proof.
  intros Hd H1 -> Hb. replace (l2 ++ 0 :: rest) with ((l2 ++ [0]) ++ rest) by by rewrite <- app_assoc.
  rewrite shift_left_spec; [|done|done|rewrite length_app; cbn; lia|by apply path_bytes].
  exists (drop (S (length l2)) (l1 ++ (l2 ++ [0]) ++ rest)). rewrite length_drop, !length_app. cbn.
  split; [lia|]. by rewrite <- !app_assoc.
Qed.

Lemma squeeze_loop_spec fuel : forall m p l0 l1 rest hit, (length l1 < fuel)%nat -> Forall path_byte l1 ->
  exists rest', (length l0 + length l1 + length rest = length l0 + length (squeeze hit l1) + length rest')%nat /\
    squeeze_loop fuel (write_bytes m p (l0 ++ l1 ++ 0 :: rest)) p (Z.of_nat (length l0)) (Z.of_nat (length l0 + length l1)) hit =
    Ret (write_bytes m p (l0 ++ squeeze hit l1 ++ 0 :: rest'), Z.of_nat (length l0 + length (squeeze hit l1))).
Proof.
  induction fuel as [|fuel IH]; intros m p l0 [|c l1] rest hit Hf Hb; cbn [length] in *; try lia; cbn [squeeze_loop].
  - rewrite (proj2 (Z.ltb_ge _ _)) by lia. exists rest. done.
  - rewrite (proj2 (Z.ltb_lt _ _)) by lia. cbn [negb app]. rewrite buf_at, bind_Ret. apply Forall_cons in Hb as [Hc Hb].
    assert (Hgo : forall hit', exists rest', (length l0 + S (length l1) + length rest = length l0 + S (length (squeeze hit' l1)) + length rest')%nat /\
      squeeze_loop fuel (write_bytes m p (l0 ++ c :: l1 ++ 0 :: rest)) p (Z.of_nat (length l0) + 1) (Z.of_nat (length l0 + S (length l1))) hit' =
      Ret (write_bytes m p (l0 ++ c :: squeeze hit' l1 ++ 0 :: rest'), Z.of_nat (length l0 + S (length (squeeze hit' l1))))).
    { intros hit'. destruct (IH m p (l0 ++ [c]) l1 rest hit') as (rest' & Hl & He); [lia|done|]. exists rest'.
      rewrite length_app in *. cbn [length] in *. rewrite <- !app_assoc in He. cbn [app] in He. split; [lia|].
      rewrite <- Nat.add_assoc in He. cbn [Nat.add] in He. rewrite <- Nat.add_assoc in He. cbn [Nat.add] in He.
      replace (Z.of_nat (length l0) + 1) with (Z.of_nat (length l0 + 1)) by lia. exact He. }
    cbn [squeeze]. destruct (Z.eqb_spec c SLASH) as [->|Hs]; [|apply Hgo].
    destruct hit; [|apply Hgo].
    destruct (cut_spec m p l0 [SLASH] l1 rest 1 (Z.to_nat (Z.of_nat (length l0 + S (length l1)) - Z.of_nat (length l0)))) as (rest1 & Hl1 & Hc1);
      [lia|done|lia|done|]. cbn [app] in Hc1. rewrite Hc1, bind_Ret.
    destruct (IH m p l0 l1 rest1 true) as (rest' & Hl & He); [lia|done|]. exists rest'. cbn in Hl1. split; [lia|].
    replace (Z.of_nat (length l0 + S (length l1)) - 1) with (Z.of_nat (length l0 + length l1)) by lia. exact He.
Qed.

Lemma dots_loop_spec fuel : forall m p l0 l1 rest, (length l1 < fuel)%nat -> Forall path_byte l1 ->
  exists rest', (length l1 + length rest = length (drop_dots l1) + length rest')%nat /\
    dots_loop fuel (write_bytes m p (l0 ++ l1 ++ 0 :: rest)) p (Z.of_nat (length l0)) (Z.of_nat (length l0 + length l1)) =
    Ret (write_bytes m p (l0 ++ drop_dots l1 ++ 0 :: rest'), Z.of_nat (length l0 + length (drop_dots l1))).
Proof.
  induction fuel as [|fuel IH]; intros m p l0 [|c l1] rest Hf Hb; cbn [length] in *; try lia; cbn [dots_loop].
  - rewrite (proj2 (Z.ltb_ge _ _)) by lia. by exists rest.
  - rewrite (proj2 (Z.ltb_lt _ _)) by lia. cbn [negb app]. rewrite buf_at, bind_Ret. apply Forall_cons in Hb as [Hc Hb].
    assert (Hgo : forall c l1 rest, (length l1 < fuel)%nat -> Forall path_byte l1 ->
      exists rest', (S (length l1) + length rest = S (length (drop_dots l1)) + length rest')%nat /\
      dots_loop fuel (write_bytes m p (l0 ++ c :: l1 ++ 0 :: rest)) p (Z.of_nat (length l0) + 1) (Z.of_nat (length l0 + S (length l1))) =
      Ret (write_bytes m p (l0 ++ c :: drop_dots l1 ++ 0 :: rest'), Z.of_nat (length l0 + S (length (drop_dots l1))))).
    { clear -IH. intros c l1 rest Hf Hb. destruct (IH m p (l0 ++ [c]) l1 rest) as (rest' & Hl & He); [lia|done|]. exists rest'.
      rewrite length_app in *. cbn [length] in *. rewrite <- !app_assoc in He. cbn [app] in He. split; [lia|].
      rewrite <- Nat.add_assoc in He. cbn [Nat.add] in He. rewrite <- Nat.add_assoc in He. cbn [Nat.add] in He.
      replace (Z.of_nat (length l0) + 1) with (Z.of_nat (length l0 + 1)) by lia. exact He. }
    cbn [drop_dots]. destruct (Z.eqb_spec c DOT) as [->|Hd]; cbn [negb]; [|by apply Hgo; [lia|]].
    destruct l1 as [|c' l1].
    + (* the last character *)
      cbn [length]. rewrite (proj2 (Z.ltb_ge _ _)), bind_Ret by lia. cbn [Z.eqb SLASH].
      rewrite (proj2 (Z.eqb_eq _ _)) by lia. cbn [app].
      replace (p + (Z.of_nat (length l0 + 1) - 1)) with (p + Z.of_nat (length l0)) by lia.
      rewrite buf_store by (unfold is_byte; rewrite ?length_app; cbn; lia). rewrite bind_Ret, Nat2Z.id.
      rewrite insert_app_r_alt, Nat.sub_diag by lia. cbn [insert list_insert]. exists (0 :: rest). cbn [length app].
      split; [lia|]. destruct fuel as [|fuel]; [cbn in Hf; lia|]. cbn [dots_loop]. rewrite (proj2 (Z.ltb_ge _ _)) by lia.
      cbn [negb]. f_equal. f_equal. lia.
    + cbn [length] in *. rewrite (proj2 (Z.ltb_lt _ (_ - 1))) by lia. cbn [app].
      replace (p + (Z.of_nat (length l0) + 1)) with (p + Z.of_nat (length (l0 ++ [DOT]))) by (rewrite length_app; cbn; lia).
      replace (l0 ++ DOT :: c' :: l1 ++ 0 :: rest) with ((l0 ++ [DOT]) ++ c' :: l1 ++ 0 :: rest) by by rewrite <- app_assoc.
      rewrite buf_at, bind_Ret, <- app_assoc. cbn [app]. apply Forall_cons in Hb as [Hc' Hb].
      destruct (Z.eqb_spec c' SLASH) as [->|Hs].
      * destruct (cut_spec m p l0 [DOT; SLASH] l1 rest 2 (Z.to_nat (Z.of_nat (length l0 + S (S (length l1))) - 1 - Z.of_nat (length l0))))
          as (rest1 & Hl1 & Hc1); [lia|done|lia|done|]. cbn [app] in Hc1. rewrite Hc1, bind_Ret. cbn in Hl1.
        replace (Z.of_nat (length l0 + S (S (length l1))) - 2) with (Z.of_nat (length l0 + length l1)) by lia.
        destruct l1 as [|x l1].
        { exists rest1. cbn [length app] in *. split; [lia|]. destruct fuel as [|fuel]; [lia|]. cbn [dots_loop].
          by rewrite (proj2 (Z.ltb_ge _ _)) by lia. }
        apply Forall_cons in Hb as [Hx Hb]. cbn [length app] in *.
        destruct (Hgo x l1 rest1) as (rest' & Hl & He); [lia|done|]. exists rest'. split; [lia|]. exact He.
      * rewrite (proj2 (Z.eqb_neq _ (_ - 1))) by lia.
        destruct (Hgo DOT (c' :: l1) rest) as (rest' & Hl & He); [cbn; lia|by constructor|]. exists rest'. cbn [length] in *.
        split; [lia|]. exact He.
Qed.
End buffer.

(** ** What the passes leave *)

Lemma squeeze_sublist l : forall hit, squeeze hit l `sublist_of` l.
Proof.
  induction l as [|c l IH]; intros hit; cbn [squeeze]; [done|].
  destruct (c =? SLASH); [destruct hit|]; by constructor.
Qed.
Lemma drop_dots_sublist l : drop_dots l `sublist_of` l.
Proof.
  induction l as [l IH] using (induction_ltof1 _ (@length Z)). unfold ltof in IH.
  destruct l as [|c l1]; [done|]. cbn [drop_dots]. destruct (c =? DOT).
  - destruct l1 as [|c' l2]; [by constructor|]. destruct (c' =? SLASH).
    + destruct l2 as [|x l3]; [by do 2 constructor|]. do 3 constructor. apply IH. cbn. lia.
    + constructor. apply IH. cbn. lia.
  - constructor. apply IH. cbn. lia.
Qed.
Lemma strip_sublist l : strip_slash l `sublist_of` l.
Proof.
  unfold strip_slash. destruct (last l) as [c|] eqn:E; [|done]. destruct (_ && _); [|done].
  destruct (exists_last (l := l)) as (l' & x & ->); [by intros ->|]. rewrite removelast_last. by apply sublist_inserts_r.
Qed.
Lemma canonical_sublist s : canonical s `sublist_of` s.
Proof. unfold canonical. by rewrite strip_sublist, drop_dots_sublist, squeeze_sublist. Qed.

Lemma sublist_Forall {A} (P : A -> Prop) l k : l `sublist_of` k -> Forall P k -> Forall P l.
Proof. induction 1; intros Hf; try done; apply Forall_cons in Hf as [Hx Hf]; auto. Qed.

(** No two slashes in a row; [prev] is whether one precedes. *)
Fixpoint single_slashes (prev : bool) (l : list Z) : Prop :=
  match l with
  | [] => True
  | c :: l => (c = SLASH -> prev = false) /\ single_slashes (c =? SLASH) l
  end.

Lemma single_lookup l : forall prev, single_slashes prev l ->
  forall i, l !! i = Some SLASH -> l !! S i = Some SLASH -> False.
Proof.
  induction l as [|c l IH]; intros prev Hp i Hi Hj; [done|]. destruct Hp as [H1 H2]. destruct i as [|i].
  - injection Hi as ->. destruct l as [|c' l]; [done|]. injection Hj as ->. destruct H2 as [H2 _]. by specialize (H2 eq_refl).
  - by apply (IH _ H2 i).
Qed.
Lemma single_weaken l prev : single_slashes prev l -> single_slashes false l.
Proof. destruct l; cbn; [done|]. by intros [_ ?]. Qed.
Lemma squeeze_single l : forall hit, single_slashes hit (squeeze hit l).
Proof.
  induction l as [|c l IH]; intros hit; cbn [squeeze]; [done|].
  destruct (Z.eqb_spec c SLASH) as [->|Hs]; [destruct hit|].
  - apply IH.
  - split; [done|]. apply IH.
  - cbn. split; [done|]. rewrite (proj2 (Z.eqb_neq c SLASH) Hs). apply IH.
Qed.
Lemma drop_dots_single l : forall prev, single_slashes prev l -> single_slashes prev (drop_dots l).
Proof.
  induction l as [l IH] using (induction_ltof1 _ (@length Z)). unfold ltof in IH.
  intros prev. destruct l as [|c l1]; [done|]. intros [Hc H1]. cbn [drop_dots].
  assert (Hgo : single_slashes prev (c :: drop_dots l1)) by (split; [done|]; apply IH; cbn; [lia|done]).
  destruct (Z.eqb_spec c DOT) as [->|]; [|done]. destruct l1 as [|c' l2]; [done|].
  destruct (Z.eqb_spec c' SLASH) as [->|]; [|done]. destruct l2 as [|x l3]; [done|].
  destruct H1 as [_ [Hx H3]]. assert (Hxs : x <> SLASH) by (intros ->; by specialize (Hx eq_refl)).
  split; [done|]. apply IH; [cbn; lia|done].
Qed.
Lemma single_removelast l : forall prev, single_slashes prev l -> single_slashes prev (removelast l).
Proof.
  induction l as [|c l IH]; intros prev; [done|]. intros [H1 H2]. cbn [removelast].
  destruct l as [|c' l]; [done|]. split; [done|]. by apply IH.
Qed.
Lemma strip_single l : single_slashes false l -> single_slashes false (strip_slash l).
Proof.
  intros Hl. unfold strip_slash. destruct (last l); [|done]. destruct (_ && _); [|done]. by apply single_removelast.
Qed.
Lemma strip_last l : single_slashes false l -> last (strip_slash l) = Some SLASH -> strip_slash l = [SLASH].
Proof.
  intros Hl. destruct (decide (l = [])) as [->|Hne]; [done|].
  destruct (exists_last Hne) as (l' & x & ->). unfold strip_slash. rewrite last_snoc.
  destruct (Z.ltb_spec 1 (Z.of_nat (length (l' ++ [x])))) as [Hlen|Hlen]; cbn [andb].
  - destruct (Z.eqb_spec x SLASH) as [->|Hx].
    + rewrite removelast_last. intros Hlast. destruct (exists_last (l := l')) as (l2 & y & ->); [by intros ->|].
      rewrite last_snoc in Hlast. injection Hlast as ->. exfalso.
      apply (single_lookup _ _ Hl (length l2)); rewrite <- app_assoc; cbn.
      * by apply list_lookup_middle.
      * rewrite lookup_app_r by lia. by replace (S (length l2) - length l2)%nat with 1%nat by lia.
    + rewrite last_snoc. by intros [= ->].
  - rewrite last_snoc. rewrite length_app in Hlen. cbn in Hlen. destruct l'; [|cbn in Hlen; lia]. by intros [= ->].
Qed.

(** ** Components *)

(** The path made of components, each behind a slash. *)
Definition join (cs : list (list Z)) : list Z :=
  match cs with [] => [SLASH] | _ => concat ((fun c => SLASH :: c) <$> cs) end.
(** Any absolute path: each component behind one or more slashes, and
    slashes at the end. *)
Definition render (l : list (nat * list Z)) (tail : nat) : list Z :=
  concat ((fun x => replicate (S x.1) SLASH ++ x.2) <$> l) ++ replicate tail SLASH.
Definition plain (c : list Z) : Prop := c <> [] /\ Forall (fun x => x <> SLASH) c /\ last c <> Some DOT.
(** Plain components, and ["."] where the next one is plain. *)
Fixpoint clean (cs : list (list Z)) : Prop :=
  match cs with
  | [] => True
  | c :: cs => (plain c \/ (c = [DOT] /\ match cs with c' :: _ => plain c' | [] => True end)) /\ clean cs
  end.
Definition not_dot (cs : list (list Z)) : list (list Z) := filter (fun c => c <> [DOT]) cs.
(** With single slashes. *)
Definition flat (cs : list (list Z)) (tail : bool) : list Z :=
  concat ((fun c => SLASH :: c) <$> cs) ++ (if tail then [SLASH] else []).

Lemma squeeze_slashes n t : squeeze true (replicate n SLASH ++ t) = squeeze true t.
Proof. by induction n. Qed.
Lemma squeeze_component c : forall hit t, c <> [] -> Forall (fun x => x <> SLASH) c ->
  squeeze hit (c ++ t) = c ++ squeeze false t.
Proof.
  induction c as [|x c IH]; intros hit t Hne Hf; [done|]. apply Forall_cons in Hf as [Hx Hf]. cbn [app squeeze].
  rewrite (proj2 (Z.eqb_neq x SLASH) Hx). f_equal. destruct c; [done|]. by apply IH.
Qed.
Lemma squeeze_render l tail : Forall (fun x => x.2 <> [] /\ Forall (fun y => y <> SLASH) x.2) l ->
  squeeze false (render l tail) = flat (l.*2) (negb (tail =? 0)%nat).
Proof.
  unfold render, flat. induction 1 as [|[n c] l [Hne Hc] _ IH].
  - cbn. destruct tail as [|tail]; [done|]. cbn. f_equal. rewrite <- (app_nil_r (replicate tail SLASH)). by rewrite squeeze_slashes.
  - cbn [fmap list_fmap concat fst snd replicate app] in *. rewrite <- !app_assoc. cbn [app squeeze].
    rewrite Z.eqb_refl, squeeze_slashes, squeeze_component by done. by rewrite IH.
Qed.

Lemma drop_dots_plain c : forall t, Forall (fun x => x <> SLASH) c -> last c <> Some DOT ->
  drop_dots (c ++ t) = c ++ drop_dots t.
Proof.
  induction c as [|x c IH]; intros t Hf Hl; [done|]. apply Forall_cons in Hf as [Hx Hf]. cbn [app drop_dots].
  destruct c as [|y c].
  { cbn in Hl. destruct (Z.eqb_spec x DOT) as [->|]; [done|]. done. }
  rewrite last_cons_cons in Hl. rewrite IH by done. apply Forall_cons in Hf as [Hy Hf]. cbn [app].
  destruct (x =? DOT); [|done]. by rewrite (proj2 (Z.eqb_neq y SLASH) Hy).
Qed.
Lemma drop_dots_second x c t : plain (x :: c) -> drop_dots (x :: c ++ t) = x :: drop_dots (c ++ t).
Proof.
  intros (_ & Hf & Hl). cbn [drop_dots]. destruct (Z.eqb_spec x DOT) as [->|]; [|done].
  destruct c as [|y c]; [done|]. apply Forall_cons in Hf as [_ [Hy _]%Forall_cons]. cbn [app].
  by rewrite (proj2 (Z.eqb_neq y SLASH) Hy).
Qed.

Lemma drop_dots_flat cs : forall tail, clean cs ->
  exists tail', drop_dots (flat cs tail) = flat (not_dot cs) tail' /\ (cs <> [] \/ tail = true -> not_dot cs = [] -> tail' = true).
Proof.
  unfold not_dot. induction cs as [|c cs IH]; intros tail Hok.
  { exists tail. split; [by destruct tail|]. intros [?|?] _; done. }
  destruct Hok as [Hc Hok]. destruct (IH tail Hok) as (tail' & Hd & Ht). unfold flat in *. cbn [fmap list_fmap concat app].
  destruct Hc as [Hp|[-> Hn]].
  - assert (c <> [DOT]) by (intros ->; by destruct Hp as (_ & _ & [])).
    rewrite filter_cons_True by done. exists tail'. split; [|done]. cbn [fmap list_fmap concat app drop_dots].
    destruct Hp as (_ & Hf & Hl). rewrite <- !app_assoc, drop_dots_plain by done. cbn. by rewrite Hd.
  - rewrite filter_cons_False by (intros Hx; by destruct Hx). cbn [app drop_dots]. rewrite Z.eqb_refl.
    destruct cs as [|[|x c'] cs].
    + exists true. split; [by destruct tail|done].
    + by destruct Hn.
    + exists tail'. split; [|intros _; apply Ht; by left]. cbn [fmap list_fmap concat app] in *.
      change (drop_dots (SLASH :: ?l)) with (SLASH :: drop_dots l) in Hd.
      rewrite <- !app_assoc in *. cbn [app] in *. rewrite drop_dots_second in Hd by done. exact Hd.
Qed.

Lemma strip_flat cs tail : Forall plain cs -> (cs = [] -> tail = true) -> strip_slash (flat cs tail) = join cs.
Proof.
  intros Hp Ht. unfold flat, join. destruct cs as [|c cs]; [by rewrite Ht|].
  destruct (exists_last (l := c :: cs)) as (cs' & d & E); [done|]. rewrite E in *.
  assert (E' : concat ((fun c => SLASH :: c) <$> (cs' ++ [d])) = concat ((fun c => SLASH :: c) <$> cs') ++ SLASH :: d).
  { rewrite fmap_app, concat_app. cbn. by rewrite app_nil_r. }
  rewrite E'. apply Forall_app in Hp as [_ [(Hne & Hf & _) _]%Forall_cons].
  destruct (exists_last Hne) as (d' & z & ->). apply Forall_app in Hf as [_ [Hz _]%Forall_cons].
  unfold strip_slash. destruct tail.
  - rewrite last_snoc, Z.eqb_refl, andb_true_r, removelast_last.
    rewrite (proj2 (Z.ltb_lt _ _)); [done|]. rewrite !length_app. cbn. rewrite length_app. cbn. lia.
  - rewrite app_nil_r, app_comm_cons, app_assoc, last_snoc, (proj2 (Z.eqb_neq z SLASH) Hz). by rewrite andb_false_r.
Qed.

Lemma clean_plain cs : clean cs -> Forall plain (not_dot cs).
Proof.
  unfold not_dot. induction cs as [|c cs IH]; [by constructor|]. intros [Hc Hok].
  destruct (decide (c = [DOT])) as [->|Hne].
  - rewrite filter_cons_False by (intros Hx; by destruct Hx). auto.
  - rewrite filter_cons_True by done. constructor; [|auto]. by destruct Hc as [?|[? _]].
Qed.

Lemma canonical_render l tail : clean (l.*2) -> (l <> [] \/ tail <> O) ->
  canonical (render l tail) = join (not_dot (l.*2)).
Proof.
  intros Hok Hne. unfold canonical. rewrite squeeze_render.
  - destruct (drop_dots_flat _ (negb (tail =? 0)%nat) Hok) as (tail' & -> & Ht).
    apply strip_flat; [by apply clean_plain|]. apply Ht. destruct Hne as [Hl|Hl].
    + left. by destruct l.
    + right. by destruct tail.
  - clear Hne. induction l as [|[n c] l IH]; [by constructor|]. destruct Hok as [Hc Hok]. cbn in Hc.
    constructor; [|by apply IH]. cbn. destruct Hc as [(? & ? & _)|[-> _]]; [done|]. split; [done|]. by repeat constructor.
Qed.

(** ** The functions on memory *)

Section spec.
Implicit Types (m : gmap Z Z) (p : Z) (s t l : list Z).

Lemma cstr_buf m p s : cstr m p s -> m = write_bytes m p (s ++ [0]).
Proof. intros (Hb & _). by rewrite bytes_at_write. Qed.

(** Outside the block of a string nothing changes. *)
Definition only_block m m' p (n : nat) : Prop := forall a, a < p \/ p + Z.of_nat n < a -> m' !! a = m !! a.

Lemma buf_cstr m p s t rest : cstr m p s -> Forall path_byte t -> (length t + length rest = length s)%nat ->
  cstr (write_bytes m p (t ++ 0 :: rest)) p t /\ only_block m (write_bytes m p (t ++ 0 :: rest)) p (length s).
Proof.
  intros (_ & _ & Hp & Hs) Ht Hl. split.
  - split; [|split; [exact Ht|lia]]. pose proof (write_bytes_at m p (t ++ 0 :: rest)) as Hb.
    replace (t ++ 0 :: rest) with ((t ++ [0]) ++ rest) in * by by rewrite <- app_assoc.
    by apply bytes_at_app in Hb as [Hb _].
  - intros a Ha. apply write_bytes_outside. rewrite length_app. cbn. lia.
Qed.

Lemma path_make_canonical_spec m p s : cstr m p s ->
  exists m', path_make_canonical m p = Ret (m', 0) /\ cstr m' p (canonical s) /\ only_block m m' p (length s).
Proof.
  intros Hc. pose proof Hc as (_ & Hb & _). unfold path_make_canonical. rewrite (strlen_cstr m p s Hc), bind_Ret, Nat2Z.id.
  destruct (squeeze_loop_spec (S (length s)) m p [] s [] false) as (rest & Hl & He); [lia|done|].
  cbn [app length Nat.add] in He, Hl. change (Z.of_nat 0) with 0 in He.
  rewrite <- (cstr_buf m p s Hc) in He. rewrite He, bind_Ret. clear He. cbv beta iota.
  set (t := squeeze false s) in *.
  assert (Ht : Forall path_byte t) by (eapply sublist_Forall; [apply squeeze_sublist|done]).
  rewrite Nat2Z.id. destruct (dots_loop_spec (S (length t)) m p [] t rest) as (rest1 & Hl1 & He); [lia|done|].
  cbn [app length Nat.add] in He. change (Z.of_nat 0) with 0 in He. rewrite He, bind_Ret. clear He. cbv beta iota.
  change (canonical s) with (strip_slash (drop_dots t)). set (u := drop_dots t) in *.
  assert (Hu : Forall path_byte u) by (eapply sublist_Forall; [apply drop_dots_sublist|done]).
  assert (Hlen : (length u + length rest1 = length s)%nat) by (cbn in Hl; lia).
  unfold strip_slash. destruct (decide (u = [])) as [->|Hne].
  { eexists. split; [done|]. by apply (buf_cstr m p s [] rest1). }
  destruct (exists_last Hne) as (u' & c & E). rewrite E in *. rewrite last_snoc.
  destruct (Z.ltb_spec 1 (Z.of_nat (length (u' ++ [c])))) as [H1|H1]; cbn [andb].
  2: { eexists. split; [done|]. by apply buf_cstr. }
  rewrite <- app_assoc. cbn [app]. rewrite length_app in *. cbn [length] in *.
  replace (p + (Z.of_nat (length u' + 1) - 1)) with (p + Z.of_nat (length u')) by lia.
  rewrite buf_at, bind_Ret. destruct (Z.eqb_spec c SLASH) as [->|Hcs].
  - rewrite buf_store by (unfold is_byte; rewrite ?length_app; cbn; lia). rewrite bind_Ret, Nat2Z.id.
    rewrite insert_app_r_alt, Nat.sub_diag by lia. cbn [insert list_insert]. eexists. split; [done|].
    rewrite removelast_last. apply Forall_app in Hu as [Hu _]. apply buf_cstr; [done|done|cbn; lia].
  - eexists. split; [done|]. replace (u' ++ c :: 0 :: rest1) with ((u' ++ [c]) ++ 0 :: rest1) by by rewrite <- app_assoc.
    apply buf_cstr; [done|done|rewrite length_app; cbn; lia].
Qed.

(** *** Relative paths *)

Lemma count_matching_spec m p q s t : bytes_at m p s -> bytes_at m q t -> (length t <= length s)%nat ->
  forall n i k, (i + n = length t)%nat -> exists c, count_matching n m p q (Z.of_nat i) k = Ret (k + c) /\
    0 <= c <= Z.of_nat n /\ (c = Z.of_nat n <-> take n (drop i s) = drop i t).
Proof.
  intros Hs Ht Hl. induction n as [|n IH]; intros i k Hi; cbn [count_matching].
  - exists 0. split; [f_equal; lia|]. split; [lia|]. by rewrite (drop_ge t), take_0 by lia.
  - destruct (lookup_lt_is_Some_2 s i) as (a & Ha); [lia|]. destruct (lookup_lt_is_Some_2 t i) as (b & Hb); [lia|].
    unfold load. rewrite (Hs _ _ Ha), (Ht _ _ Hb). cbn [deref]. rewrite !bind_Ret.
    replace (Z.of_nat i + 1) with (Z.of_nat (S i)) by lia.
    rewrite (drop_S s a i Ha), (drop_S t b i Hb). cbn [take].
    destruct (Z.eqb_spec a b) as [->|Hab].
    + destruct (IH (S i) (k + 1)) as (c & -> & Hc & Hiff); [lia|]. exists (c + 1). split; [f_equal; lia|]. split; [lia|].
      split; [intros E; f_equal; apply Hiff; lia|intros [= E]; apply Hiff in E; lia].
    + destruct (IH (S i) k) as (c & -> & Hc & _); [lia|]. exists c. split; [done|]. split; [lia|].
      split; [lia|intros [= E _]; done].
Qed.

Lemma drop_front_spec l1 : forall m p l2 k, Forall is_byte (l1 ++ l2) ->
  drop_front (length l1) (write_bytes m p (l1 ++ l2 ++ replicate (S k) 0)) p (Z.of_nat (length l1 + length l2 + k)) =
  Ret (write_bytes m p (l2 ++ replicate (S (length l1 + k)) 0)).
Proof.
  induction l1 as [|c l1 IH]; intros m p l2 k Hb; cbn [drop_front length]; [done|].
  rewrite Nat2Z.id. apply Forall_cons in Hb as [Hc Hb].
  pose proof (shift_left_spec (S (length l1) + length l2 + k) m p [] [c] (l1 ++ l2 ++ replicate (S k) 0) [] 1) as Hsh.
  rewrite !app_nil_r in Hsh. cbn [app length] in Hsh. change (Z.of_nat 0) with 0 in Hsh. cbn [app]. rewrite Hsh, bind_Ret; clear Hsh.
  - replace (drop (S (length l1) + length l2 + k) (c :: l1 ++ l2 ++ replicate (S k) 0)) with [0].
    2: { symmetry. cbn [Nat.add drop]. rewrite drop_app_ge, drop_app_ge by lia.
         replace (length l1 + length l2 + k - length l1 - length l2)%nat with k by lia.
         rewrite drop_replicate. by replace (S k - k)%nat with 1%nat by lia. }
    rewrite <- !app_assoc, <- replicate_S_end.
    replace (Z.of_nat (S (length l1) + length l2 + k)) with (Z.of_nat (length l1 + length l2 + S k)) by lia.
    rewrite IH by done. do 4 f_equal. lia.
  - lia.
  - done.
  - rewrite !length_app, length_replicate. lia.
  - rewrite app_assoc. apply Forall_app. split; [done|]. apply Forall_forall. intros x ->%elem_of_replicate_inv. done.
Qed.

Lemma path_make_relative_spec m p q s t : cstr m p s -> cstr m q t -> p <> 0 -> q <> 0 ->
  path_make_relative m p None = Ret (m, - EINVAL) /\
  ((length s < length t)%nat -> path_make_relative m p (Some q) = Ret (m, - EINVAL)) /\
  ((length t <= length s)%nat -> t = [SLASH] -> path_make_relative m p (Some q) = Ret (m, 0)) /\
  ((length t <= length s)%nat -> t <> [SLASH] -> take (length t) s <> t -> path_make_relative m p (Some q) = Ret (m, - ENAMETOOLONG)) /\
  (t <> [SLASH] -> t `prefix_of` s -> exists m', path_make_relative m p (Some q) = Ret (m', 0) /\
     cstr m' p (drop (length t) s) /\ only_block m m' p (length s)).
Proof.
  intros Hs Ht Hp Hq. split; [done|]. unfold path_make_relative.
  rewrite (proj2 (Z.eqb_neq p 0)), (proj2 (Z.eqb_neq q 0)) by done. cbn [orb].
  rewrite (strlen_cstr m p s Hs), (strlen_cstr m q t Ht), !bind_Ret, Z.gtb_ltb.
  assert (Hhead : load m q = Ret (default 0 (head t))).
  { unfold load. destruct Ht as (Hb & _). specialize (Hb 0%nat). rewrite Z.add_0_r in Hb. destruct t; by rewrite (Hb _ eq_refl). }
  assert (Hroot : (Z.of_nat (length t) =? 1) && (default 0 (head t) =? SLASH) = bool_decide (t = [SLASH])).
  { destruct t as [|c [|c' t]]; [done| |].
    - cbn. destruct (Z.eqb_spec c SLASH) as [->|Hc]; [done|]. rewrite bool_decide_eq_false_2; [done|congruence].
    - rewrite bool_decide_eq_false_2 by done. apply andb_false_iff. left. apply Z.eqb_neq. cbn. lia. }
  split; [intros Hl; by rewrite (proj2 (Z.ltb_lt _ _)) by lia|].
  split.
  { intros Hl ->. rewrite (proj2 (Z.ltb_ge _ _)), Hhead, bind_Ret by lia. by rewrite Hroot, bool_decide_eq_true_2. }
  pose proof Hs as (Hbs & Hby & _). pose proof Ht as (Hbt & _). apply bytes_at_app in Hbt as [Hbt _].
  pose proof (proj1 (proj1 (bytes_at_app _ _ _ _) Hbs)) as Hbs'.
  split.
  - intros Hl Hr Hnp. rewrite (proj2 (Z.ltb_ge _ _)), Hhead, bind_Ret, Hroot, bool_decide_eq_false_2 by (done || lia).
    destruct (count_matching_spec m p q s t Hbs' Hbt Hl (length t) 0 0) as (c & Hc & Hr' & Hiff); [done|].
    change (Z.of_nat 0) with 0 in Hc. rewrite Nat2Z.id, Hc, bind_Ret. rewrite !drop_0 in Hiff.
    rewrite (proj2 (Z.eqb_neq (0 + c) _)); [done|]. intros E. apply Hnp, Hiff. lia.
  - intros Hr (u & ->). rewrite length_app in *.
    rewrite (proj2 (Z.ltb_ge _ _)), Hhead, bind_Ret, Hroot, bool_decide_eq_false_2 by (done || lia).
    destruct (count_matching_spec m p q (t ++ u) t Hbs' Hbt ltac:(rewrite length_app; lia) (length t) 0 0) as (c & Hc & Hr' & Hiff); [done|].
    change (Z.of_nat 0) with 0 in Hc. rewrite Nat2Z.id, Hc, bind_Ret. rewrite !drop_0, take_app_length in Hiff.
    rewrite (proj2 (Z.eqb_eq (0 + c) _)) by (apply Hiff; done). cbn [negb].
    pose proof (drop_front_spec t m p u 0) as Hdf.
    rewrite Nat.add_0_r, app_assoc in Hdf. cbn [replicate] in Hdf. rewrite <- (cstr_buf m p _ Hs) in Hdf. rewrite Hdf, bind_Ret.
    + eexists. split; [done|]. rewrite drop_app_length. cbn [replicate Nat.add]. rewrite <- length_app.
      apply buf_cstr; [done|by apply Forall_app in Hby as [_ ?]|rewrite length_replicate, length_app; lia].
    + eapply Forall_impl; [exact Hby|]. unfold is_byte. lia.
Qed.

(** *** File names *)

Lemma strcpy_down_loop m dest src s : cstr m src s -> mapped m dest (Z.of_nat (length s) + 1) -> dest <= src ->
  forall fuel i, (i <= length s)%nat -> (length s - i < fuel)%nat ->
  strcpy_loop fuel (write_bytes m dest (take i s)) dest src (Z.of_nat i) = Ret (write_bytes m dest s, Z.of_nat (length s)).
Proof.
  intros Hc Hm Hd. assert (Hread : forall i, (i <= length s)%nat -> load (write_bytes m dest (take i s)) (src + Z.of_nat i) = load m (src + Z.of_nat i)).
  { intros i Hi. unfold load. rewrite write_bytes_outside; [done|]. rewrite length_take. lia. }
  induction fuel as [|fuel IH]; intros i Hi Hf; [lia|]. cbn [strcpy_loop]. rewrite Hread by done.
  destruct (decide (i = length s)) as [->|].
  - rewrite take_ge by lia. by rewrite (cstr_load_end m src s Hc).
  - destruct (lookup_lt_is_Some_2 s i ltac:(lia)) as [b Hb].
    destruct (cstr_load m src s (Z.of_nat i) Hc ltac:(lia)) as (b' & Hb' & -> & Hr). rewrite Nat2Z.id, Hb in Hb'. injection Hb' as <-.
    rewrite bind_Ret. zneq.
    rewrite (store_mapped _ dest (Z.of_nat (length s) + 1)) by (by apply write_bytes_mapped || lia || (unfold is_byte; lia)).
    rewrite bind_Ret. destruct Hc as (_ & _ & ?). rewrite u32_small by (unfold is_u32; lia).
    replace (Z.of_nat i + 1) with (Z.of_nat (S i)) by lia. rewrite <- (IH (S i)) by lia.
    rewrite (take_S_r _ _ _ Hb), write_bytes_snoc, length_take. by rewrite Nat.min_l by lia.
Qed.

Lemma path_make_filename_spec m p s name : cstr m p (s ++ SLASH :: name) -> ~ SLASH ∈ name ->
  Z.of_nat (length (s ++ SLASH :: name)) < 2 ^ 31 - 1 ->
  exists m', path_make_filename m p = Ret (m', 0) /\ cstr m' p name /\ only_block m m' p (length (s ++ SLASH :: name)).
Proof.
  intros Hc Hn Hlen. unfold path_make_filename, strrchr. rewrite (strlen_cstr m p _ Hc), bind_Ret. cbv zeta.
  rewrite Z.min_l by (unfold _SSIZE_MAX_; lia). set (L := length (s ++ SLASH :: name)) in *.
  destruct (strrchr_loop_spec m p _ SLASH Hc ltac:(by split) (S L)) as (r & Hr & Hcase); [lia| |].
  { intros j Hj Hjs. apply lookup_lt_Some in Hjs. rewrite length_app in Hjs. cbn in Hjs. lia. }
  replace (Z.of_nat (S L) - 1) with (Z.of_nat L) in Hr by lia. replace (Z.to_nat (Z.of_nat L + 1)) with (S L) by lia.
  rewrite Hr, bind_Ret. assert (Hj : r = p + Z.of_nat (length s)).
  { destruct Hcase as [(j & -> & Hj & Hmax)|[_ Hno]].
    - assert (Hs : ((s ++ SLASH :: name) ++ [0]) !! length s = Some SLASH).
      { rewrite <- app_assoc. by apply list_lookup_middle. }
      destruct (lt_eq_lt_dec j (length s)) as [[Hlt| ->]|Hgt]; [by destruct (Hmax _ Hlt)|done|].
      exfalso. rewrite <- app_assoc, lookup_app_r in Hj by lia. replace (j - length s)%nat with (S (j - length s - 1)) in Hj by lia.
      cbn [lookup list_lookup app] in Hj. apply lookup_app_Some in Hj as [Hj|[_ Hj]].
      + apply Hn. by eapply list_elem_of_lookup_2.
      + destruct (_ - _ - _)%nat as [|?] in Hj; [|done]. discriminate Hj.
    - destruct Hno. rewrite !elem_of_app, elem_of_cons. auto. }
  subst r. pose proof Hc as (Hb & Hby & Hp & Hp'). fold L in Hp'.
  assert (HL : L = (length s + S (length name))%nat) by (unfold L; rewrite length_app; done).
  replace (p + Z.of_nat (length s) - p) with (Z.of_nat (length s)) by lia.
  rewrite !u32_small by (unfold is_u32; rewrite ?u32_small by (unfold is_u32; lia); lia).
  assert (Hcn : cstr m (p + (Z.of_nat (length s) + 1)) name).
  { split; [|split; [by apply Forall_app in Hby as [_ [_ ?]%Forall_cons]|lia]].
    replace (p + (Z.of_nat (length s) + 1)) with (p + Z.of_nat (length (s ++ [SLASH]))) by (rewrite length_app; cbn; lia).
    replace ((s ++ SLASH :: name) ++ [0]) with ((s ++ [SLASH]) ++ name ++ [0]) in Hb by by rewrite <- !app_assoc.
    by apply bytes_at_app in Hb as [_ Hb]. }
  unfold strcpy. pose proof (strcpy_down_loop m p (p + (Z.of_nat (length s) + 1)) name Hcn) as Hcpy.
  assert (Hm : mapped m p (Z.of_nat (length name) + 1)).
  { intros a Ha. apply (bytes_at_mapped _ _ _ Hb). rewrite length_app. fold L. cbn. lia. }
  specialize (Hcpy Hm ltac:(lia) (mem_fuel m) 0%nat ltac:(lia)). rewrite take_0 in Hcpy. cbn [write_bytes] in Hcpy.
  change (Z.of_nat 0) with 0 in Hcpy. pose proof (cstr_fuel m _ _ Hcn). rewrite Hcpy, bind_Ret by lia.
  rewrite (store_mapped _ p (Z.of_nat (length name) + 1)); [|by apply write_bytes_mapped|lia|by split].
  rewrite !bind_Ret. cbn [fst]. eexists. split; [done|].
  rewrite <- write_bytes_snoc. split.
  - split; [apply write_bytes_at|]. destruct Hcn as (_ & ? & _). split; [done|lia].
  - intros a Ha. apply write_bytes_outside. rewrite length_app. cbn. lia.
Qed.
End spec.

(** ** Properties *)

(** C35: making a path canonical terminates and rewrites it in place to a
    subsequence of its bytes without two slashes in a row and without a
    trailing one (["/"] apart); a path whose components are plain - free of
    slashes and not ending in a dot - with ["."] components between them
    becomes exactly its plain components, each behind one slash. *)
Theorem path_make_canonical_correct m p s : cstr m p s ->
  (exists m', path_make_canonical m p = Ret (m', 0) /\ cstr m' p (canonical s) /\ only_block m m' p (length s)) /\
  canonical s `sublist_of` s /\
  (forall i, canonical s !! i = Some SLASH -> canonical s !! S i = Some SLASH -> False) /\
  (last (canonical s) = Some SLASH -> canonical s = [SLASH]) /\
  (forall l tail, s = render l tail -> clean (l.*2) -> (l <> [] \/ tail <> O) -> canonical s = join (not_dot (l.*2))).
Proof.
  intros Hc. assert (Hd : single_slashes false (drop_dots (squeeze false s))) by apply drop_dots_single, squeeze_single.
  split; [by apply path_make_canonical_spec|]. split; [apply canonical_sublist|].
  split; [apply (single_lookup _ false), strip_single, Hd|]. split; [by apply strip_last|].
  intros l tail ->. apply canonical_render.
Qed.

(** ["//dev/./fb/"] at 100, ["/dev"] at 200. *)
Definition demo_path : list Z := [47; 47; 100; 101; 118; 47; 46; 47; 102; 98; 47].
Definition demo_mnt : list Z := [47; 100; 101; 118].
Definition demo_paths : gmap Z Z := write_bytes (write_bytes ∅ 100 (demo_path ++ [0])) 200 (demo_mnt ++ [0]).
Lemma demo_cstrs : cstr demo_paths 100 demo_path /\ cstr demo_paths 200 demo_mnt.
Proof.
  split; (split; [|split; [by repeat constructor|cbn; lia]]); unfold demo_paths.
  - apply write_bytes_bytes_at; [apply write_bytes_at|right; cbn; lia].
  - apply write_bytes_at.
Qed.

(** "/dev/fb". *)
Definition demo_canonical : list Z := [47; 100; 101; 118; 47; 102; 98].
Lemma path_make_canonical_correct_witness : canonical demo_path = demo_canonical /\
  exists m', path_make_canonical demo_paths 100 = Ret (m', 0) /\ cstr m' 100 demo_canonical.
Proof.
  destruct (path_make_canonical_correct demo_paths 100 demo_path (proj1 demo_cstrs)) as ((m' & Hr & Hc & _) & _ & _ & _ & Hcomp).
  split; [|exists m'; split; [exact Hr|exact Hc]].
  apply (Hcomp [(1%nat, [100; 101; 118]); (0%nat, [46]); (0%nat, [102; 98])] 1%nat).
  - reflexivity.
  - assert (plain [100; 101; 118] /\ plain [102; 98]) as [? ?].
    { split; (split; [discriminate|split; [by repeat constructor|discriminate]]). }
    cbn. auto.
  - left. discriminate.
Defined.

(** a path below a mount point (any extension of its string) becomes the
    rest of the string, a path on ["/"] stays, one shorter than the mount
    point is refused with [-EINVAL] and one that differs from it with
    [-ENAMETOOLONG], untouched; a path becomes the name behind its last
    slash.  In every case nothing else in memory changes. *)
Theorem path_relative_filename_correct m p q s t : cstr m p s -> cstr m q t -> p <> 0 -> q <> 0 ->
  ((length s < length t)%nat -> path_make_relative m p (Some q) = Ret (m, - EINVAL)) /\
  ((length t <= length s)%nat -> t = [SLASH] -> path_make_relative m p (Some q) = Ret (m, 0)) /\
  ((length t <= length s)%nat -> t <> [SLASH] -> take (length t) s <> t -> path_make_relative m p (Some q) = Ret (m, - ENAMETOOLONG)) /\
  (t <> [SLASH] -> t `prefix_of` s -> exists m', path_make_relative m p (Some q) = Ret (m', 0) /\
     cstr m' p (drop (length t) s) /\ only_block m m' p (length s)) /\
  (forall dir name, s = dir ++ SLASH :: name -> ~ SLASH ∈ name -> Z.of_nat (length s) < 2 ^ 31 - 1 ->
     exists m', path_make_filename m p = Ret (m', 0) /\ cstr m' p name /\ only_block m m' p (length s)).
Proof.
  intros Hs Ht Hp Hq. destruct (path_make_relative_spec m p q s t Hs Ht Hp Hq) as (_ & H1 & H2 & H3 & H4).
  split; [done|]. split; [done|]. split; [done|]. split; [done|].
  intros dir name -> Hn Hl. by apply path_make_filename_spec.
Qed.

(** "/dev/fb" at 100, "/dev" at 200. *)
Definition demo_abs : gmap Z Z := write_bytes (write_bytes ∅ 100 (demo_canonical ++ [0])) 200 (demo_mnt ++ [0]).
Lemma path_relative_filename_correct_witness :
  (exists m', path_make_relative demo_abs 100 (Some 200) = Ret (m', 0) /\ cstr m' 100 [47; 102; 98]) /\
  (exists m', path_make_filename demo_abs 100 = Ret (m', 0) /\ cstr m' 100 [102; 98]).
Proof.
  assert (Hs : cstr demo_abs 100 demo_canonical).
  { split; [|split; [by repeat constructor|cbn; lia]]. apply write_bytes_bytes_at; [apply write_bytes_at|right; cbn; lia]. }
  assert (Ht : cstr demo_abs 200 demo_mnt).
  { split; [|split; [by repeat constructor|cbn; lia]]. apply write_bytes_at. }
  destruct (path_relative_filename_correct _ _ _ _ _ Hs Ht) as (_ & _ & _ & Hrel & Hname); [lia|lia|]. split.
  - destruct Hrel as (m' & Hr & Hc & _); [discriminate|by exists [47; 102; 98]|]. exists m'. split; [exact Hr|exact Hc].
  - destruct (Hname [47; 100; 101; 118] [102; 98] eq_refl) as (m' & Hr & Hc & _);
      [rewrite !elem_of_cons, elem_of_nil; unfold SLASH; lia|cbn; lia|]. exists m'. split; [exact Hr|exact Hc].
Defined.

(** A component that ends in a dot loses it, together with the slash behind
    it; of two ["./"] in a row one stays; [".."] is not resolved. *)
Example dots_merge_components :
  canonical [47; 97; 46; 47; 98] = [47; 97; 98] /\                   (* "/a./b"  -> "/ab" *)
  canonical [47; 97; 46] = [47; 97] /\                               (* "/a."    -> "/a" *)
  canonical [47; 46; 47; 46; 47; 97] = [47; 46; 47; 97] /\           (* "/././a" -> "/./a" *)
  canonical [47; 97; 47; 46; 46; 47; 98] = [47; 97; 47; 46; 98].     (* "/a/../b" -> "/a/.b" *)
Proof. done. Qed.
