(* ===== verification/Teardown.v ===== *)
(** * Destroying a paging structure

    [mm_destroy_paging_struct] of [Paging]: every table below the structure is
    released exactly once, and the frames of its pages are not released at
    all. *)
From stdpp Require Import sorting.
From S2P Require Import Prelude Alloc Kmalloc Falloc Paging.

Section teardown.
Context {H : Type} `{!Allocator H} `{!AlignedAllocator H} `{!AllocatorLaws H} `{!AlignedAllocatorLaws H}.
Context (koff : Z).
Implicit Types (s : mstate H) (va : Z).

(** ** Releasing each of a list of tables once *)

(** [destroy_pts] and [destroy_pds] are one loop: the table of each page in
    turn, released when it is not the last one released. *)
Fixpoint release_loop (f : Z -> mstate H -> outcome Z) (l : list Z) (last : Z) s : outcome (mstate H) :=
  match l with
  | [] => Ret s
  | v :: l => t ← f v s;
      if last =? t then release_loop f l last s else s ← free_table t s; release_loop f l t s
  end.
Lemma destroy_pts_loop d l : forall last s,
  destroy_pts koff d l last s = release_loop (fun v s => pt_from_vaddr_abs koff v d s) l last s.
Proof.
  induction l as [|v l IH]; intros last s; cbn; [done|]. destruct (pt_from_vaddr_abs koff v d s) as [t| |]; cbn; [|done..].
  destruct (last =? t); [apply IH|]. destruct (free_table t s); cbn; auto.
Qed.
Lemma destroy_pds_loop d l : forall last s,
  destroy_pds koff d l last s = release_loop (fun v s => pd_from_vaddr_abs koff v d s) l last s.
Proof.
  induction l as [|v l IH]; intros last s; cbn; [done|]. destruct (pd_from_vaddr_abs koff v d s) as [t| |]; cbn; [|done..].
  destruct (last =? t); [apply IH|]. destruct (free_table t s); cbn; auto.
Qed.

(** The blocks and tables at [F] are gone, nothing else changed. *)
Record removed s s' (F : list Z) : Prop := {
  rm_wf : alloc_wf s'.(heap);
  rm_live : forall b, live s'.(heap) b = if decide (b ∈ F) then None else live s.(heap) b;
  rm_tables : forall a, s'.(tables) !! a = if decide (a ∈ F) then None else s.(tables) !! a;
  rm_frames : s'.(frames) = s.(frames) }.

Lemma removed_refl s : alloc_wf s.(heap) -> removed s s [].
Proof. intros Hwf. split; [done|..]; intros; rewrite ?decide_False by apply not_elem_of_nil; done. Qed.

Lemma removed_ext s s' F G : removed s s' F -> (forall a, a ∈ F <-> a ∈ G) -> removed s s' G.
Proof.
  intros [R1 R2 R3 R4] E. split; [done| | |done]; intros b; rewrite ?R2, ?R3; by rewrite (decide_ext _ _ _ _ (E b)).
Qed.

Lemma removed_trans s1 s2 s3 F G : removed s1 s2 F -> removed s2 s3 G -> removed s1 s3 (F ++ G).
Proof.
  intros R S. split; [apply S| | |by rewrite (rm_frames _ _ _ S), (rm_frames _ _ _ R)];
    intros b; rewrite ?(rm_live _ _ _ S), ?(rm_tables _ _ _ S), ?(rm_live _ _ _ R), ?(rm_tables _ _ _ R);
    destruct (decide (b ∈ G)) as [?|?], (decide (b ∈ F)) as [?|?];
    rewrite ?decide_True by set_solver; rewrite ?decide_False by set_solver; done.
Qed.

Lemma free_table_spec s a : alloc_wf s.(heap) -> live s.(heap) a <> None ->
  exists s', free_table a s = Ret s' /\ removed s s' [a].
Proof.
  intros Hwf Hl. destruct (free_law _ _ Hwf Hl) as (h' & Hf & Hwf' & Hl'). unfold free_table. rewrite Hf, bind_Ret.
  eexists. split; [done|]. split; cbn; [done| | |done].
  - intros b. rewrite Hl'. destruct (decide (b = a)) as [->|Hne]; [by rewrite decide_True by set_solver|by rewrite decide_False by set_solver].
  - intros b. destruct (decide (b ∈ [a])) as [->%list_elem_of_singleton|Hn]; [by rewrite lookup_delete_eq|].
    rewrite lookup_delete_ne; [done|]. intros ->. apply Hn. by left.
Qed.

(** [g] gives each page's table; pages with the same table are consecutive,
    because the tables follow a key of the pages that does not decrease. *)
Lemma release_spec (f : Z -> mstate H -> outcome Z) (g key : Z -> Z) (l : list Z) s :
  alloc_wf s.(heap) ->
  (forall v w, v ∈ l -> w ∈ l -> g v = g w <-> key v = key w) ->
  (forall v, v ∈ l -> g v <> 0 /\ live s.(heap) (g v) <> None) ->
  (forall v s' F, v ∈ l -> removed s s' F -> (forall a, a ∈ F -> a ∈ (g <$> l)) -> f v s' = Ret (g v)) ->
  StronglySorted (fun v w => key v <= key w) l ->
  exists s', release_loop f l 0 s = Ret s' /\ removed s s' (g <$> l).
Proof.
  intros Hwf Hinj Hlive Hf.
  assert (Hgo : forall todo done_ s', l = done_ ++ todo -> removed s s' (g <$> done_) -> StronglySorted (fun v w => key v <= key w) l ->
    exists s'', release_loop f todo (match last done_ with Some v => g v | None => 0 end) s' = Ret s'' /\ removed s s'' (g <$> l)).
  2: { intros Hs. apply (Hgo l []); [done|by apply removed_refl|done]. }
  induction todo as [|v todo IH]; intros done_ s' -> R Hs; cbn [release_loop].
  { exists s'. by rewrite app_nil_r. }
  assert (Hv : v ∈ done_ ++ v :: todo) by set_solver.
  rewrite (Hf v s' (g <$> done_)), bind_Ret; [|done|done|].
  2: { intros a (w & -> & Hw)%list_elem_of_fmap. apply list_elem_of_fmap_2. set_solver. }
  assert (Hlast : forall s'', removed s s'' (g <$> (done_ ++ [v])) ->
    exists s3, release_loop f todo (g v) s'' = Ret s3 /\ removed s s3 (g <$> (done_ ++ v :: todo))).
  { intros s'' R''. destruct (IH (done_ ++ [v]) s'') as (s3 & Hr & R3); [by rewrite <- app_assoc|done|done|].
    rewrite last_snoc in Hr. exists s3. done. }
  assert (Hold : match last done_ with Some w => g w | None => 0 end = g v ->
    removed s s' (g <$> (done_ ++ [v]))).
  { intros E. apply (removed_ext _ _ (g <$> done_)); [done|]. intros a. rewrite fmap_app, elem_of_app. cbn.
    rewrite list_elem_of_singleton. split; [by left|]. intros [?| ->]; [done|].
    destruct (last done_) as [w|] eqn:El; [|by destruct (Hlive v Hv)].
    apply last_Some in El as (d' & ->). rewrite <- E. apply list_elem_of_fmap_2. set_solver. }
  destruct (Z.eqb_spec (match last done_ with Some w => g w | None => 0 end) (g v)) as [E|E].
  { destruct (Hlast s' (Hold E)) as (s3 & Hr & R3). rewrite E. by exists s3. }
  assert (Hnew : g v ∉ g <$> done_).
  { intros (w & Hgw & Hw)%list_elem_of_fmap. apply E. destruct (last done_) as [w'|] eqn:El; [|by apply last_None in El; subst; apply elem_of_nil in Hw].
    apply last_Some in El as (d' & ->). apply (Hinj w' v); [set_solver|done|].
    assert (Hk : key w = key v) by (apply (Hinj w v); [set_solver|done|done]).
    apply StronglySorted_app in Hs as (Hmid & Hs & _).
    assert (key w' <= key v) by (apply (Hmid w' v); set_solver).
    apply elem_of_app in Hw as [Hw|[->|[]%elem_of_nil]%elem_of_cons]; [|lia].
    apply StronglySorted_app in Hs as (Hmid' & _). specialize (Hmid' w w' Hw). set_solver by lia. }
  destruct (free_table_spec s' (g v)) as (s2 & Hfree & R2).
  - apply R.
  - rewrite (rm_live _ _ _ R), decide_False by done. by apply Hlive.
  - rewrite Hfree, bind_Ret. apply Hlast. rewrite fmap_app. by apply (removed_trans s s' s2).
Qed.

(** ** The walk as a key *)

Context (Hkoff : 0 <= koff < 2 ^ 32).

Lemma walk_pd_inv tb d va pd : tables_wf koff tb d -> walk_pd koff tb d va = Some pd ->
  exists l3 e3 l2, tb !! d = Some (Pdpt l3) /\ l3 !! pdpte_idx va = Some e3 /\ base_ok e3.(pd_base) /\
    pd = addr_of koff e3.(pd_base) /\ tb !! pd = Some (Pd l2).
Proof.
  intros Hwf Hw. destruct (tw_top _ _ _ Hwf) as (l3 & Hl3). unfold walk_pd in Hw. rewrite Hl3 in Hw.
  destruct (l3 !! pdpte_idx va) as [e3|] eqn:E3; [|done]. cbn in Hw.
  destruct (Z.eqb_spec (pd_base e3) 0); [done|]. injection Hw as <-.
  destruct (tw_pd _ _ _ Hwf _ _ _ Hl3 E3) as [?|(Hb & l2 & Hl2)]; [done|]. by exists l3, e3, l2.
Qed.

(** The directory of a page is decided by its gibibyte, the table by its two
    mebibytes. *)
Lemma walk_pd_key tb d va va' pd pd' : tables_wf koff tb d -> is_u32 va -> is_u32 va' ->
  walk_pd koff tb d va = Some pd -> walk_pd koff tb d va' = Some pd' ->
  pd = pd' <-> va / 2 ^ 30 = va' / 2 ^ 30.
Proof.
  intros Hwf Hva Hva' H1 H2. destruct (idx_eq va Hva) as (E & _), (idx_eq va' Hva') as (E' & _). split.
  - intros <-. apply walk_pd_inv in H1 as (l3 & e3 & _ & Hl3 & He3 & Hb3 & Hp & _); [|done].
    apply walk_pd_inv in H2 as (m3 & f3 & _ & Hm3 & Hf3 & Hc3 & Hp' & _); [|done].
    rewrite Hp in Hp'. apply (addr_of_inj koff Hkoff) in Hp'; [|done..]. assert (m3 = l3) as -> by congruence.
    assert (pdpte_idx va = pdpte_idx va') as Hi; [|lia].
    eapply (tw_pd_inj _ _ _ Hwf l3 _ _ e3 f3); [done..| |done]. unfold base_ok in Hb3. lia.
  - intros Hk. assert (Hi : pdpte_idx va = pdpte_idx va') by lia. unfold walk_pd in *. rewrite Hi in H1. congruence.
Qed.

Lemma div_mib va va' : 0 <= va -> 0 <= va' ->
  va / 2 ^ 21 = va' / 2 ^ 21 <-> va / 2 ^ 30 = va' / 2 ^ 30 /\ va / 2 ^ 21 mod 512 = va' / 2 ^ 21 mod 512.
Proof.
  intros. assert (Hd : forall z, z / 2 ^ 30 = z / 2 ^ 21 / 512) by (intros z; by rewrite Z.div_div by lia).
  rewrite !Hd. split; [by intros ->|]. intros [E1 E2]. rewrite (Z.div_mod (va / 2 ^ 21) 512), (Z.div_mod (va' / 2 ^ 21) 512) by lia. lia.
Qed.

Lemma walk_pt_key tb d va va' pt pt' : tables_wf koff tb d -> is_u32 va -> is_u32 va' ->
  walk_pt koff tb d va = Some pt -> walk_pt koff tb d va' = Some pt' ->
  pt = pt' <-> va / 2 ^ 21 = va' / 2 ^ 21.
Proof.
  intros Hwf Hva Hva' H1 H2. destruct (idx_eq va Hva) as (E & F & _), (idx_eq va' Hva') as (E' & F' & _).
  rewrite div_mib by (unfold is_u32 in *; lia). split.
  - intros <-. apply (walk_pt_inv koff) in H1 as (l3 & e3 & l2 & e2 & _ & Hl3 & He3 & Hb3 & Hl2 & He2 & Hb2 & Hp & _); [|done].
    apply (walk_pt_inv koff) in H2 as (m3 & f3 & m2 & f2 & _ & Hm3 & Hf3 & Hc3 & Hm2 & Hf2 & Hc2 & Hp' & _); [|done].
    rewrite Hp in Hp'. apply (addr_of_inj koff Hkoff) in Hp'; [|done..].
    destruct (tw_pt_inj _ _ _ Hwf _ _ _ _ _ _ _ _ Hl2 Hm2 He2 Hf2) as [Ha Hj]; [unfold base_ok in Hb2; lia|done|].
    apply (addr_of_inj koff Hkoff) in Ha; [|done..]. assert (m3 = l3) as -> by congruence.
    assert (pdpte_idx va = pdpte_idx va') as Hi; [|lia].
    eapply (tw_pd_inj _ _ _ Hwf l3 _ _ e3 f3); [done..| |done]. unfold base_ok in Hb3. lia.
  - intros [K1 K2]. assert (Hi : pdpte_idx va = pdpte_idx va') by lia. assert (Hj : pde_idx va = pde_idx va') by lia.
    unfold walk_pt, walk_pd in *. rewrite Hi, Hj in H1. congruence.
Qed.

(** ** The three passes *)

Definition pt_of s d va : Z := default 0 (walk_pt koff s.(tables) d va).
Definition pd_of s d va : Z := default 0 (walk_pd koff s.(tables) d va).

(** A structure that owns its tables: every tracked page has one, they are
    blocks of the heap, and so are the top table and the tracked list. *)
Record owns s (ps : PagingStruct) : Prop := {
  ow_wf : ps_wf koff s ps.(data);
  ow_frames : falloc_wf s.(frames);
  ow_tracks : tracks s ps;
  ow_top : ps.(data) <> 0 /\ live s.(heap) ps.(data) <> None;
  ow_pages : forall va, va ∈ ps.(pages) -> is_u32 va /\ exists pd pt,
    walk_pd koff s.(tables) ps.(data) va = Some pd /\ walk_pt koff s.(tables) ps.(data) va = Some pt /\
    live s.(heap) pd <> None /\ live s.(heap) pt <> None }.

(** Frames from 64 on are as they were. *)
Definition same_frames (f f' : fstate) : Prop := forall k, 64 <= k -> taken f' k = taken f k.

Lemma destroy_page_spec s d va pt : ps_wf koff s d -> falloc_wf s.(frames) -> is_u32 va -> walk_pt koff s.(tables) d va = Some pt ->
  exists s', destroy_page koff d va s = Ret s' /\ ps_wf koff s' d /\ falloc_wf s'.(frames) /\ same_frames s.(frames) s'.(frames) /\
    s'.(heap) = s.(heap) /\ (forall va', walk_pt koff s'.(tables) d va' = walk_pt koff s.(tables) d va') /\
    (forall va', walk_pd koff s'.(tables) d va' = walk_pd koff s.(tables) d va') /\
    (forall a, s'.(tables) !! a = None <-> s.(tables) !! a = None).
Proof.
  intros Hps Hf Hva Hw. pose proof (pw_tables _ _ _ Hps) as Hwf. unfold destroy_page.
  destruct (walk_code koff s _ va Hwf Hva) as (_ & _ & ->). rewrite Hw, bind_Ret. cbn [fmap option_fmap option_map deref]. rewrite bind_Ret. cbn [fst snd].
  destruct (walk_pt_inv koff _ _ _ _ Hwf Hw) as (l3 & e3 & l2 & e2 & l1 & Hl3 & He3 & Hb3 & Hl2 & _ & _ & _ & Hl1).
  destruct (pt_entry koff _ _ _ _ va Hwf Hva Hl1) as (e1 & He1). unfold get_pt. rewrite Hl1, bind_Ret, He1. cbn [deref]. rewrite bind_Ret. cbv zeta.
  change (pte_frame_paddr _) with (0 * Falloc.PAGESIZE). destruct (ffree_spec s.(frames) 0 Hf ltac:(lia)) as (f' & Hfr & Hf' & Ht & _).
  cbn [frames set_table]. rewrite Hfr, bind_Ret. eexists. split; [done|].
  assert (Hu : ps_wf koff (set_table s pt (Pt (<[pte_idx va:=pte_set_present false (pte_set_frame_paddr 0 e1)]> l1))) d)
    by (apply ps_wf_update; [done|congruence|by apply pt_wf]).
  split; [by destruct Hu|].
  split; [done|]. split.
  { intros k Hk. cbn [frames set_frames]. rewrite Ht by lia. unfold cleared_by. change (0 / 64) with 0.
    assert (1 <= k / 64) by (apply Z.div_le_lower_bound; lia).
    rewrite (proj2 (Z.eqb_neq (k / 64) 0)), (proj2 (Z.eqb_neq k 0)) by lia. cbn. by rewrite andb_true_r. }
  split; [done|]. split; [intros va'; cbn; by apply pt_walk|]. split.
  - intros va'. cbn. unfold walk_pd. by rewrite lookup_insert_ne by congruence.
  - intros a. cbn. destruct (decide (pt = a)) as [<-|Hne]; [rewrite lookup_insert_eq; split; congruence|by rewrite lookup_insert_ne].
Qed.

Lemma destroy_pages_spec d l : forall s, ps_wf koff s d -> falloc_wf s.(frames) ->
  (forall va, va ∈ l -> is_u32 va /\ walk_pt koff s.(tables) d va <> None) ->
  exists s', destroy_pages koff d l s = Ret s' /\ ps_wf koff s' d /\ falloc_wf s'.(frames) /\ same_frames s.(frames) s'.(frames) /\
    s'.(heap) = s.(heap) /\ (forall va', walk_pt koff s'.(tables) d va' = walk_pt koff s.(tables) d va') /\
    (forall va', walk_pd koff s'.(tables) d va' = walk_pd koff s.(tables) d va') /\
    (forall a, s'.(tables) !! a = None <-> s.(tables) !! a = None).
Proof.
  induction l as [|va l IH]; intros s Hps Hf Hl; cbn [destroy_pages].
  { exists s. split; [done|]. split; [done|]. split; [done|]. split; [by intros ??|]. done. }
  destruct (Hl va ltac:(by left)) as [Hva Hw]. destruct (walk_pt koff s.(tables) d va) as [pt|] eqn:E; [|done].
  destruct (destroy_page_spec s d va pt Hps Hf Hva E) as (s1 & -> & Hps1 & Hf1 & Hs1 & Hh1 & Hw1 & Hp1 & Ht1). rewrite bind_Ret.
  destruct (IH s1 Hps1 Hf1) as (s2 & -> & Hps2 & Hf2 & Hs2 & Hh2 & Hw2 & Hp2 & Ht2).
  { intros va' Hin. rewrite Hw1. apply Hl. by right. }
  exists s2. split; [done|]. split; [done|]. split; [done|]. split; [intros k Hk; by rewrite Hs2, Hs1|].
  split; [congruence|]. split; [intros va'; by rewrite Hw2|]. split; [intros va'; by rewrite Hp2|]. intros a. by rewrite Ht2.
Qed.

(** Reading the walk while page tables disappear, then directories. *)
Lemma pt_read s s' F d va pd pt : tables_wf koff s.(tables) d -> is_u32 va ->
  walk_pd koff s.(tables) d va = Some pd -> walk_pt koff s.(tables) d va = Some pt ->
  removed s s' F -> d ∉ F -> pd ∉ F -> pt_from_vaddr_abs koff va d s' = Ret pt.
Proof.
  intros Hwf Hva Hpd Hpt R Hd Hp. destruct (walk_code koff s d va Hwf Hva) as (_ & Hc & _). rewrite Hpt in Hc. cbn in Hc.
  rewrite <- Hc. destruct (walk_pd_inv _ _ _ _ Hwf Hpd) as (l3 & e3 & l2 & Hl3 & He3 & Hb3 & -> & Hl2).
  assert (pd_ref koff s.(tables) e3) as Hr by (right; eauto).
  unfold pt_from_vaddr_abs, pde_from_vaddr_abs, pd_from_vaddr_abs, get_pdpt.
  rewrite (rm_tables _ _ _ R), decide_False, Hl3, !bind_Ret, He3 by done. cbn [deref]. rewrite !bind_Ret.
  destruct (pdpte_vaddr_spec koff _ _ e3 l2 Hwf Hr) as [-> Hne]. rewrite (proj2 (Z.eqb_neq (pd_base e3) 0)) by (unfold base_ok in Hb3; lia).
  rewrite (proj2 (Z.eqb_neq (addr_of koff (pd_base e3)) 0)) by auto. unfold get_pd.
  by rewrite (rm_tables _ _ _ R), decide_False by done.
Qed.
Lemma pd_read s s' F d va pd : tables_wf koff s.(tables) d -> is_u32 va ->
  walk_pd koff s.(tables) d va = Some pd -> removed s s' F -> d ∉ F -> pd_from_vaddr_abs koff va d s' = Ret pd.
Proof.
  intros Hwf Hva Hpd R Hd. destruct (walk_code koff s d va Hwf Hva) as (Hc & _ & _). rewrite Hpd in Hc. cbn in Hc.
  rewrite <- Hc. unfold pd_from_vaddr_abs, get_pdpt. by rewrite (rm_tables _ _ _ R), decide_False by done.
Qed.

Lemma ascending_key (l : list Z) (n : Z) : 0 < n -> ascending l -> StronglySorted (fun v w => v / n <= w / n) l.
Proof.
  intros Hn. induction 1 as [|x l _ IH Hall]; constructor; [done|]. eapply Forall_impl; [exact Hall|].
  cbn. intros y Hy. apply Z.div_le_mono; lia.
Qed.

(** What a paging structure owns. *)
Definition owned s (ps : PagingStruct) : list Z :=
  (pt_of s ps.(data) <$> ps.(pages)) ++ (pd_of s ps.(data) <$> ps.(pages)) ++ [ps.(data)] ++
  (if ps.(allocated_pages) =? 0 then [] else [ps.(allocated_pages)]).

Lemma destroy_spec s ps : owns s ps ->
  exists s' f, mm_destroy_paging_struct koff ps s = Ret (s', mkPS 0 [] 0 0) /\
    same_frames s.(frames) s'.(frames) /\ falloc_wf s'.(frames) /\ s'.(frames) = f /\ alloc_wf s'.(heap) /\
    (forall b, live s'.(heap) b = if decide (b ∈ owned s ps) then None else live s.(heap) b) /\
    (forall a, a ∉ owned s ps -> s'.(tables) !! a = None <-> s.(tables) !! a = None) /\
    (forall a, a ∈ owned s ps -> s'.(tables) !! a = None).
Proof.
  intros [Hps Hf (Hasc & _ & Htn & Hblk) [Hd0 Hdl] Hpg]. unfold mm_destroy_paging_struct. set (d := ps.(data)) in *. set (l := ps.(pages)) in *.
  destruct (destroy_pages_spec d l s Hps Hf) as (s1 & -> & Hps1 & Hf1 & Hs1 & Hh1 & Hw1 & Hp1 & Ht1).
  { intros va Hva. destruct (Hpg va Hva) as (? & pd & pt & _ & -> & _). done. }
  rewrite bind_Ret. pose proof (pw_tables _ _ _ Hps1) as Hwf1. destruct (tw_top _ _ _ Hwf1) as (ltop & Htop).
  assert (Hpages : forall va, va ∈ l -> is_u32 va /\ walk_pd koff s1.(tables) d va = Some (pd_of s d va) /\
    walk_pt koff s1.(tables) d va = Some (pt_of s d va) /\ live s1.(heap) (pd_of s d va) <> None /\ live s1.(heap) (pt_of s d va) <> None /\
    (exists t, s1.(tables) !! pd_of s d va = Some (Pd t)) /\ (exists t, s1.(tables) !! pt_of s d va = Some (Pt t))).
  { intros va Hva. destruct (Hpg va Hva) as (Hu & pd & pt & Hpd & Hpt & Lpd & Lpt). unfold pd_of, pt_of.
    rewrite Hpd, Hpt, Hw1, Hp1, Hh1. cbn. rewrite <- Hp1 in Hpd. rewrite <- Hw1 in Hpt.
    destruct (walk_pd_inv _ _ _ _ Hwf1 Hpd) as (_ & _ & t & _ & _ & _ & _ & Ht).
    destruct (walk_pt_inv koff _ _ _ _ Hwf1 Hpt) as (_ & _ & _ & _ & t' & _ & _ & _ & _ & _ & _ & _ & Ht').
    rewrite Hp1 in Hpd. rewrite Hw1 in Hpt. eauto 10. }
  assert (Hnz : forall a t, s1.(tables) !! a = Some t -> a <> 0) by (intros a t Ha ->; by rewrite (tw_null _ _ _ Hwf1) in Ha).
  (* the page tables *)
  rewrite destroy_pts_loop.
  destruct (release_spec (fun v s => pt_from_vaddr_abs koff v d s) (pt_of s d) (fun v => v / 2 ^ 21) l s1) as (s2 & -> & R2).
  { apply Hps1. }
  { intros v w Hv Hw. destruct (Hpages v Hv) as (Uv & _ & Wv & _), (Hpages w Hw) as (Uw & _ & Ww & _). by eapply walk_pt_key. }
  { intros v Hv. destruct (Hpages v Hv) as (_ & _ & _ & _ & Lv & _ & t & Ht). split; [by eapply Hnz|done]. }
  { intros v s' F Hv R HF. destruct (Hpages v Hv) as (Uv & Pv & Wv & _ & _ & (t & Ht) & _).
    assert (Hno : forall a t', s1.(tables) !! a = Some t' -> (forall m, t' <> Pt m) -> a ∉ F).
    { intros a t' Ha Hk Hin. apply HF, list_elem_of_fmap in Hin as (w & -> & Hw).
      destruct (Hpages w Hw) as (_ & _ & _ & _ & _ & _ & t2 & Ht2). apply (Hk t2). congruence. }
    eapply pt_read; [done..|by eapply Hno|by eapply Hno]. }
  { by apply ascending_key. }
  rewrite bind_Ret, destroy_pds_loop.
  assert (Hd2 : d ∉ pt_of s d <$> l).
  { intros (w & Ew & Hw)%list_elem_of_fmap. destruct (Hpages w Hw) as (_ & _ & _ & _ & _ & _ & t2 & Ht2). congruence. }
  (* the directories *)
  destruct (release_spec (fun v s => pd_from_vaddr_abs koff v d s) (pd_of s d) (fun v => v / 2 ^ 30) l s2) as (s3 & -> & R3).
  { apply R2. }
  { intros v w Hv Hw. destruct (Hpages v Hv) as (Uv & Wv & _), (Hpages w Hw) as (Uw & Ww & _). by eapply walk_pd_key. }
  { intros v Hv. destruct (Hpages v Hv) as (_ & _ & _ & Lv & _ & (t & Ht) & _). split; [by eapply Hnz|].
    rewrite (rm_live _ _ _ R2), decide_False; [done|]. intros (w & Ew & Hw)%list_elem_of_fmap.
    destruct (Hpages w Hw) as (_ & _ & _ & _ & _ & _ & t2 & Ht2). congruence. }
  { intros v s' F Hv R HF. destruct (Hpages v Hv) as (Uv & Pv & _).
    eapply (pd_read s1 s' ((pt_of s d <$> l) ++ F)); [done..|by eapply removed_trans|].
    intros [?|Hin]%elem_of_app; [done|]. apply HF, list_elem_of_fmap in Hin as (w & Ew & Hw).
    destruct (Hpages w Hw) as (_ & _ & _ & _ & _ & (t2 & Ht2) & _). congruence. }
  { by apply ascending_key. }
  rewrite bind_Ret, (proj2 (Z.eqb_neq d 0)) by done. cbn [negb].
  assert (R13 := removed_trans _ _ _ _ _ R2 R3).
  assert (Hd3 : d ∉ (pt_of s d <$> l) ++ (pd_of s d <$> l)).
  { intros [?|(w & Ew & Hw)%list_elem_of_fmap]%elem_of_app; [done|].
    destruct (Hpages w Hw) as (_ & _ & _ & _ & _ & (t2 & Ht2) & _). congruence. }
  destruct (free_table_spec s3 d) as (s4 & -> & R4); [apply R3|by rewrite (rm_live _ _ _ R13), decide_False, Hh1 by done|].
  rewrite !bind_Ret. cbn [fst snd allocated_pages]. assert (R14 := removed_trans _ _ _ _ _ R13 R4).
  assert (Hfr : s4.(frames) = s1.(frames)) by apply R14. rewrite <- app_assoc in R14.
  unfold pagingstruct_destroy. cbn [allocated_pages data]. unfold owned. fold d. fold l.
  destruct (Z.eqb_spec ps.(allocated_pages) 0) as [E0|E0]; cbn [negb].
  - exists s4, s4.(frames). split; [done|]. rewrite Hfr. split; [done|]. split; [done|]. split; [done|]. split; [apply R14|].
    rewrite app_nil_r. split; [intros b; by rewrite (rm_live _ _ _ R14), Hh1|]. split; intros a Ha; rewrite (rm_tables _ _ _ R14).
    + by rewrite decide_False, Ht1 by done.
    + by rewrite decide_True by done.
  - destruct Hblk as [[? _]|Hblk]; [done|].
    assert (Hout : allocated_pages ps ∉ (pt_of s d <$> l) ++ (pd_of s d <$> l) ++ [d]).
    { rewrite <- Ht1 in Htn. rewrite !elem_of_app, list_elem_of_singleton. intros [(w & Ew & Hw)%list_elem_of_fmap|[(w & Ew & Hw)%list_elem_of_fmap|Ew]].
      - destruct (Hpages w Hw) as (_ & _ & _ & _ & _ & _ & t2 & Ht2). congruence.
      - destruct (Hpages w Hw) as (_ & _ & _ & _ & _ & (t2 & Ht2) & _). congruence.
      - congruence. }
    destruct (free_law s4.(heap) ps.(allocated_pages)) as (h' & -> & Hwf' & Hl'); [apply R14| |].
    { rewrite (rm_live _ _ _ R14), decide_False, Hh1 by done. congruence. }
    rewrite bind_Ret. exists (set_heap s4 h'), s4.(frames). split; [done|]. cbn [set_heap heap frames tables]. rewrite Hfr.
    split; [done|]. split; [done|]. split; [done|]. split; [done|].
    assert (Hmem : forall a, a ∈ (pt_of s d <$> l) ++ (pd_of s d <$> l) ++ [d] ++ [allocated_pages ps] <->
      a ∈ (pt_of s d <$> l) ++ (pd_of s d <$> l) ++ [d] \/ a = allocated_pages ps).
    { intros a. rewrite !app_assoc, elem_of_app, list_elem_of_singleton. done. }
    split; [|split].
    + intros b. rewrite Hl', (decide_ext _ _ _ _ (Hmem b)). destruct (decide (b = allocated_pages ps)) as [->|Hne].
      * by rewrite decide_True by auto.
      * rewrite (rm_live _ _ _ R14), Hh1. destruct (decide (b ∈ _)) as [?|?]; [by rewrite decide_True by auto|by rewrite decide_False by naive_solver].
    + intros a Ha. rewrite Hmem in Ha. rewrite (rm_tables _ _ _ R14), decide_False by auto. apply Ht1.
    + intros a [Ha| ->]%Hmem; rewrite (rm_tables _ _ _ R14); [by rewrite decide_True by done|].
      rewrite decide_False by done. by apply Ht1.
Qed.
End teardown.

(** ** Property *)

(** C12: destroying a paging structure that owns its tables terminates and
    releases every page table and directory its pages are reached through,
    the top-level table and the tracked list, each exactly once, and no other
    block or table; but no frame of a page is released: the entry is cleared
    before its frame is read, so every frame from 64 on that was taken stays
    taken. *)
Theorem teardown_correct koff (s : mstate kstate) ps : 0 <= koff < 2 ^ 32 -> owns koff s ps ->
  exists s', mm_destroy_paging_struct koff ps s = Ret (s', mkPS 0 [] 0 0) /\ alloc_wf s'.(heap) /\
    (forall b, live s'.(heap) b = if decide (b ∈ owned koff s ps) then None else live s.(heap) b) /\
    (forall a, a ∈ owned koff s ps -> s'.(tables) !! a = None) /\
    (forall a, a ∉ owned koff s ps -> s'.(tables) !! a = None <-> s.(tables) !! a = None) /\
    (forall k, 64 <= k -> taken s'.(frames) k = taken s.(frames) k).
Proof.
  intros Hk Ho. destruct (destroy_spec koff Hk s ps Ho) as (s' & f & Hr & Hs & _ & _ & Hwf & Hl & Hout & Hin).
  exists s'. split; [done|]. split; [done|]. split; [done|]. split; [done|]. split; [done|exact Hs].
Qed.

(** The demo heap with a top-level table of its own. *)
Definition demo_top : kstate * Z :=
  match kmalloc_aligned_ sizeof_pdpt PAGESIZE demo_heap_k with Ret r => r | _ => (demo_heap_k, 0) end.
Definition demo_top_ps : PagingStruct := mkPS 0 [] 0 demo_top.2.
Definition demo_top_mm (f : fstate) : mstate kstate := mkM demo_top.1 f {[ demo_top.2 := Pdpt pdpt_init ]}.

Lemma single_owns koff (h : kstate) (f : fstate) p : falloc_wf f -> alloc_wf h -> koff < lowest h -> p <> 0 -> live h p <> None ->
  owns koff (mkM h f {[ p := Pdpt pdpt_init ]}) (mkPS 0 [] 0 p).
Proof.
  intros Hf Hwf Hlo Hp Hlive. split; cbn [heap frames tables data pages]; [|done| | |].
  - split; cbn [heap tables]; [done|done| |by apply single_table_wf].
    intros a ->%single_table_at. by left.
  - split; [constructor|]. split; [done|]. split; [|by left]. cbn [tables allocated_pages]. by rewrite lookup_singleton_ne.
  - done.
  - intros va []%elem_of_nil.
Qed.

(** What an allocation that succeeds gives. *)
Lemma amalloc_some (h : kstate) n e h' p : alloc_wf h -> 0 < n < 2 ^ 32 -> 0 <= e <= 30 ->
  kmalloc_aligned_ n (2 ^ e) h = Ret (h', p) -> p <> 0 -> alloc_wf h' /\ lowest h' = lowest h /\ live h' p <> None.
Proof.
  intros Ha Hn He Hr Hp. destruct (amalloc_law h n e Ha Hn He) as (h1 & q & Hr' & Hwf & Hlo & Hc).
  rewrite Hr in Hr'. injection Hr' as <- <-. destruct Hc as [[? _]|(_ & _ & _ & Hl)]; [done|].
  split; [done|]. split; [done|]. by rewrite Hl, decide_True.
Qed.

Lemma demo_top_eq : kmalloc_aligned_ sizeof_pdpt (2 ^ 12) demo_heap_k = Ret (demo_top.1, demo_top.2).
Proof. vm_compute. reflexivity. Qed.
Lemma demo_top_nonzero : demo_top.2 <> 0.
Proof. vm_compute. discriminate. Qed.

Lemma demo_owns f : falloc_wf f -> owns demo_koff (demo_top_mm f) demo_top_ps.
Proof.
  intros Hf. pose proof (pw_alloc _ _ _ (demo_mm_wf f)) as Ha. pose proof (pw_low _ _ _ (demo_mm_wf f)) as Hlow.
  destruct (amalloc_some demo_heap_k sizeof_pdpt 12 _ _ Ha ltac:(split; reflexivity) ltac:(lia) demo_top_eq demo_top_nonzero) as (Hwf & Hlo & Hl).
  apply single_owns; [exact Hf|exact Hwf|rewrite Hlo; exact Hlow|exact demo_top_nonzero|exact Hl].
Qed.

Lemma teardown_correct_witness : exists f s', falloc_wf f /\
  mm_destroy_paging_struct demo_koff demo_top_ps (demo_top_mm f) = Ret (s', mkPS 0 [] 0 0) /\ live s'.(heap) demo_top.2 = None.
Proof.
  destruct demo_falloc as (f & Hf & _).
  destruct (teardown_correct demo_koff (demo_top_mm f) demo_top_ps ltac:(unfold demo_koff; lia) (demo_owns f Hf))
    as (s' & Hr & _ & Hl & _).
  exists f, s'. split; [exact Hf|]. split; [exact Hr|]. rewrite Hl.
  unfold owned. cbn [pages demo_top_ps data allocated_pages fmap list_fmap app]. rewrite decide_True by by left. reflexivity.
Defined.
