(* ===== verification/Proc.v ===== *)
(** * Processes

    [kernel/proc/proc.c]: descriptors, stacks, the address space and the
    resources of one process, and the switch between two. *)
From S2P Require Import Prelude Alloc Bitwise Gallocator Kmalloc Falloc Paging Teardown Bitmap.

(** ** Data *)

Definition EINVAL : Z := 22.
Definition ENOMEM : Z := 12.
Definition EOVERFLOW : Z := 39.
Definition PROC_NEVER_RAN : Z := 1.
Definition PROC_RUNNING : Z := 2.
Definition PROC_YIELDED : Z := 4.
Definition PROC_KSTACK_SIZE : Z := 4096.
Definition PROC_STACK_SIZE : Z := 8192.
Definition PROC_HIGH_ADDRESS : Z := 0xC0000000.
Definition PAGE_RW : Z := 6.
Definition MIB : Z := 2 ^ 20.
Definition sizeof_PagingStruct : Z := 16.

(** [path], [paging_struct] and [fds] are addresses (0 is null); [fd_table] is
    the elements of the block at [fds], so that [fd_count] is their number. *)
Record Process := mkProc {
  path : Z; pid : Z; paging_struct : Z; proc_dma_heap : Heap; proc_dma_bitmap : Bitmap;
  fds : Z; fd_table : list bool; fd_last_free_idx : Z;
  inst_ptr : Z; stack_top : Z; stack_pagespan : Z; stack_ptr : Z; kstack_top : Z;
  zombie : bool; exit_status : Z; state : Z }.
Definition fd_count (p : Process) : Z := Z.of_nat (length p.(fd_table)).

Definition null_bitmap : Bitmap := mkBM 0 [] 0 0 0.
(** [memset(proc, 0, sizeof(Process))]. *)
Definition zero_process : Process := mkProc 0 0 0 (mkHeap 0 0) null_bitmap 0 [] 0 0 0 0 0 0 false 0 0.

Definition set_path (p : Process) (a : Z) : Process :=
  mkProc a p.(pid) p.(paging_struct) p.(proc_dma_heap) p.(proc_dma_bitmap) p.(fds) p.(fd_table) p.(fd_last_free_idx)
    p.(inst_ptr) p.(stack_top) p.(stack_pagespan) p.(stack_ptr) p.(kstack_top) p.(zombie) p.(exit_status) p.(state).
Definition set_pid (p : Process) (n : Z) : Process :=
  mkProc p.(path) n p.(paging_struct) p.(proc_dma_heap) p.(proc_dma_bitmap) p.(fds) p.(fd_table) p.(fd_last_free_idx)
    p.(inst_ptr) p.(stack_top) p.(stack_pagespan) p.(stack_ptr) p.(kstack_top) p.(zombie) p.(exit_status) p.(state).
Definition set_ps (p : Process) (a : Z) : Process :=
  mkProc p.(path) p.(pid) a p.(proc_dma_heap) p.(proc_dma_bitmap) p.(fds) p.(fd_table) p.(fd_last_free_idx)
    p.(inst_ptr) p.(stack_top) p.(stack_pagespan) p.(stack_ptr) p.(kstack_top) p.(zombie) p.(exit_status) p.(state).
Definition set_fds (p : Process) (a : Z) (l : list bool) (i : Z) : Process :=
  mkProc p.(path) p.(pid) p.(paging_struct) p.(proc_dma_heap) p.(proc_dma_bitmap) a l i
    p.(inst_ptr) p.(stack_top) p.(stack_pagespan) p.(stack_ptr) p.(kstack_top) p.(zombie) p.(exit_status) p.(state).
Definition set_stack (p : Process) (top span sp : Z) : Process :=
  mkProc p.(path) p.(pid) p.(paging_struct) p.(proc_dma_heap) p.(proc_dma_bitmap) p.(fds) p.(fd_table) p.(fd_last_free_idx)
    p.(inst_ptr) top span sp p.(kstack_top) p.(zombie) p.(exit_status) p.(state).
Definition set_kstack (p : Process) (a : Z) : Process :=
  mkProc p.(path) p.(pid) p.(paging_struct) p.(proc_dma_heap) p.(proc_dma_bitmap) p.(fds) p.(fd_table) p.(fd_last_free_idx)
    p.(inst_ptr) p.(stack_top) p.(stack_pagespan) p.(stack_ptr) a p.(zombie) p.(exit_status) p.(state).
Definition set_exit (p : Process) (z : bool) (st : Z) : Process :=
  mkProc p.(path) p.(pid) p.(paging_struct) p.(proc_dma_heap) p.(proc_dma_bitmap) p.(fds) p.(fd_table) p.(fd_last_free_idx)
    p.(inst_ptr) p.(stack_top) p.(stack_pagespan) p.(stack_ptr) p.(kstack_top) z st p.(state).
Definition set_state (p : Process) (st : Z) : Process :=
  mkProc p.(path) p.(pid) p.(paging_struct) p.(proc_dma_heap) p.(proc_dma_bitmap) p.(fds) p.(fd_table) p.(fd_last_free_idx)
    p.(inst_ptr) p.(stack_top) p.(stack_pagespan) p.(stack_ptr) p.(kstack_top) p.(zombie) p.(exit_status) st.

(** What the processor holds: the loaded top-level table, the stack the next
    interrupt uses, and whose code runs. *)
Record cpu := mkCPU { cr3 : Z; esp0 : Z; running : Z }.

Section proc.
(** [koff] is [kimg_map_offset()], [kimg_vaddr] where the image starts. *)
Context {H : Type} `{!Allocator H} `{!AlignedAllocator H} (koff kimg_vaddr : Z).

(** Memory as the processes see it: heap, frames and tables, and the paging
    structures by address ([kernel_ps] is the kernel's own). *)
Record pmem := mkPM { pm_mm : mstate H; pstructs : gmap Z PagingStruct }.
Definition pm_heap (m : pmem) : H := m.(pm_mm).(heap).
Definition set_mm (m : pmem) (s : mstate H) : pmem := mkPM s m.(pstructs).
Definition set_pheap (m : pmem) (h : H) : pmem := set_mm m (set_heap m.(pm_mm) h).
Definition set_pstruct (m : pmem) (a : Z) (ps : PagingStruct) : pmem := mkPM m.(pm_mm) (<[a := ps]> m.(pstructs)).

(** ** Descriptors *)

Definition STEP : Z := 4.
Definition proc_enlarge_fds (p : Process) (m : pmem) : outcome (pmem * Process * Z) :=
  r ← krealloc_ p.(fds) (u32 (fd_count p + STEP)) (pm_heap m);
  if r.2 =? 0 then Ret (set_pheap m r.1, p, - ENOMEM)
  else Ret (set_pheap m r.1, set_fds p r.2 (p.(fd_table) ++ replicate 4 false) p.(fd_last_free_idx), 0).

Definition proc_init (m : pmem) : outcome (pmem * Process * Z) :=
  r ← proc_enlarge_fds zero_process m;
  let '(m, p, st) := r : pmem * Process * Z in
  if st <? 0 then Ret (m, p, - ENOMEM)
  else
    let p := set_state (set_fds p p.(fds) p.(fd_table) 0) PROC_NEVER_RAN in
    Ret (m, mkProc p.(path) p.(pid) p.(paging_struct) (mkHeap (2 * MIB) (2 * MIB / PAGESIZE)) p.(proc_dma_bitmap)
              p.(fds) p.(fd_table) p.(fd_last_free_idx) p.(inst_ptr) p.(stack_top) p.(stack_pagespan) p.(stack_ptr)
              p.(kstack_top) p.(zombie) p.(exit_status) p.(state), 0).

(** The cursor moves over used descriptors; [true] when it came back to where
    it started. *)
Fixpoint next_free (fuel : nat) (l : list bool) (start i : Z) : outcome (Z * bool) :=
  match fuel with
  | O => Undef
  | S fuel =>
      if negb (i <? Z.of_nat (length l)) then Ret (i, false)
      else
        used ← deref (l !! Z.to_nat i);
        if negb used then Ret (i, false)
        else let i := u32 (i + 1) in if i =? start then Ret (i, true) else next_free fuel l start i
  end.

Definition proc_new_fd (p : Process) (m : pmem) : outcome (pmem * Process * Z) :=
  r ← next_free (S (length p.(fd_table))) p.(fd_table) p.(fd_last_free_idx) p.(fd_last_free_idx);
  let '(i, over) := r : Z * bool in
  let p := set_fds p p.(fds) p.(fd_table) i in
  if over then Ret (m, p, - EOVERFLOW)
  else
    r ← (if i =? fd_count p then proc_enlarge_fds p m else Ret (m, p, 0));
    let '(m, p, st) := r : pmem * Process * Z in
    if st <? 0 then Ret (m, p, - ENOMEM)
    else
      _ ← deref (p.(fd_table) !! Z.to_nat i);
      Ret (m, set_fds p p.(fds) (<[Z.to_nat i := true]> p.(fd_table)) (u32 (i + 1)), i32 i).

Definition proc_free_fd (fd : Z) (p : Process) : Process :=
  if u32 fd >=? fd_count p then p
  else set_fds p p.(fds) (<[Z.to_nat (u32 fd) := false]> p.(fd_table)) p.(fd_last_free_idx).

(** ** Stacks *)

Definition proc_create_kernel_stack (p : Process) (m : pmem) : outcome (pmem * Process * Z) :=
  r ← kmalloc_aligned_ PROC_KSTACK_SIZE (2 ^ 2) (pm_heap m);
  if r.2 =? 0 then Ret (set_pheap m r.1, p, - ENOMEM)
  else Ret (set_pheap m r.1, set_kstack p (u32 (r.2 + PROC_KSTACK_SIZE)), 0).

Definition proc_destroy_kernel_stack (p : Process) (m : pmem) : outcome (pmem * Process) :=
  if p.(kstack_top) =? 0 then Ret (m, p)
  else h ← kfree_ (u32 (p.(kstack_top) - PROC_KSTACK_SIZE)) (pm_heap m); Ret (set_pheap m h, set_kstack p 0).

(** The pages below the top, [i] of them mapped already. *)
Fixpoint stack_pages_loop (k : nat) (i : Z) (ps : PagingStruct) (s : mstate H) : outcome (mstate H * PagingStruct * Z) :=
  match k with
  | O => Ret (s, ps, 0)
  | S k =>
      let vaddr := u32 (PROC_HIGH_ADDRESS - PAGESIZE - (i + 1) * PAGESIZE) in
      r ← mm_new_user_page koff vaddr PAGE_RW ps s;
      let '(s, ps, st) := r : mstate H * PagingStruct * Z in
      if st <? 0 then Ret (s, ps, st) else stack_pages_loop k (i + 1) ps s
  end.
Definition proc_create_stack (p : Process) (m : pmem) : outcome (pmem * Process * Z) :=
  let stack_top := PROC_HIGH_ADDRESS - PAGESIZE in
  let stack_pages := PROC_STACK_SIZE / PAGESIZE in
  ps ← deref (m.(pstructs) !! p.(paging_struct));
  r ← stack_pages_loop (Z.to_nat stack_pages) 0 ps m.(pm_mm);
  let '(s, ps, st) := r : mstate H * PagingStruct * Z in
  let m := set_pstruct (set_mm m s) p.(paging_struct) ps in
  if st <? 0 then Ret (m, p, st) else Ret (m, set_stack p stack_top stack_pages stack_top, 0).

(** ** Releasing a process *)

Definition free_path (p : Process) (m : pmem) : outcome (pmem * Process) :=
  if negb (p.(path) =? 0) then h ← kfree_ p.(path) (pm_heap m); Ret (set_pheap m h, set_path p 0) else Ret (m, p).
Definition free_paging (p : Process) (m : pmem) : outcome (pmem * Process) :=
  if negb (p.(paging_struct) =? 0) then
    ps ← deref (m.(pstructs) !! p.(paging_struct));
    r ← mm_destroy_paging_struct koff ps m.(pm_mm);
    h ← kfree_ p.(paging_struct) r.1.(heap);
    Ret (mkPM (set_heap r.1 h) (delete p.(paging_struct) m.(pstructs)), set_ps p 0)
  else Ret (m, p).
Definition free_fds (p : Process) (m : pmem) : outcome (pmem * Process) :=
  if negb (p.(fds) =? 0) then h ← kfree_ p.(fds) (pm_heap m); Ret (set_pheap m h, set_fds p 0 [] 0) else Ret (m, p).
Definition proc_free (p : Process) (m : pmem) : outcome (pmem * Process) :=
  r ← free_path p m;
  r ← free_paging r.2 r.1;
  r ← free_fds r.2 r.1;
  proc_destroy_kernel_stack r.2 r.1.

(** ** The address space *)

(** [load] is [proc_load_from_file], which goes through the file system and the
    program loader. *)
Definition loader : Type := Z -> Process -> pmem -> outcome (pmem * Process * Z).

Definition proc_create_address_space (load : loader) (kernel_ps : Z) (pathname : Z) (p : Process) (m : pmem)
    : outcome (pmem * Process * Z) :=
  r ← kmalloc_ sizeof_PagingStruct (pm_heap m);
  let m := set_pheap m r.1 in
  let p := set_ps p r.2 in
  if r.2 =? 0 then Ret (m, p, - ENOMEM)
  else
    r ← mm_init_paging_struct m.(pm_mm);
    let '(s, ps, st) := r : mstate H * PagingStruct * Z in
    let m := set_pstruct (set_mm m s) p.(paging_struct) ps in
    if st <? 0 then Ret (m, p, st)
    else
      kps ← deref (m.(pstructs) !! kernel_ps);
      r ← mm_map_kernel_into_paging_struct kimg_vaddr kps ps m.(pm_mm);
      r ← load pathname p (set_mm m r.1);
      let '(m, p, st) := r : pmem * Process * Z in
      if st <? 0 then Ret (m, p, st)
      else
        r ← proc_create_stack p m;
        let '(m, p, st) := r : pmem * Process * Z in
        if st <? 0 then Ret (m, p, st) else Ret (m, p, 0).

(** ** Running *)

(** [mm_load_paging_struct_arch]: the register is not written again with the
    value it holds. *)
Definition mm_load_paging_struct_arch (ps : PagingStruct) (c : cpu) : cpu :=
  let new_cr3 := mm_kva2pa koff ps.(data) in
  if new_cr3 =? c.(cr3) then c else mkCPU new_cr3 c.(esp0) c.(running).
Definition task_set_impending_stack_top (sp : Z) (c : cpu) : cpu := mkCPU c.(cr3) sp c.(running).

(** Control passes to the process at [a] in user mode. *)
Definition proc_enter_initial (a : Z) (procs : gmap Z Process) (m : pmem) (c : cpu) : outcome (gmap Z Process * cpu) :=
  p ← deref (procs !! a);
  ps ← deref (m.(pstructs) !! p.(paging_struct));
  let c := task_set_impending_stack_top p.(kstack_top) (mm_load_paging_struct_arch ps c) in
  Ret (<[a := set_state p PROC_RUNNING]> procs, mkCPU c.(cr3) c.(esp0) a).

(** [task_switch] saves the registers on the current kernel stack and resumes
    the next one's. *)
Definition task_switch (next : Z) (c : cpu) : cpu := mkCPU c.(cr3) c.(esp0) next.

Definition proc_switch (next : Z) (procs : gmap Z Process) (m : pmem) (c : cpu) : outcome (gmap Z Process * cpu) :=
  p ← deref (procs !! next);
  _ ← assert_ (negb (p.(state) =? PROC_RUNNING));
  if p.(state) =? PROC_NEVER_RAN then proc_enter_initial next procs m c
  else
    ps ← deref (m.(pstructs) !! p.(paging_struct));
    let c := task_set_impending_stack_top p.(kstack_top) (mm_load_paging_struct_arch ps c) in
    Ret (procs, task_switch next c).
End proc.
Arguments pmem : clear implicits.

(** ** Descriptors *)

Section fds.
Context {H : Type} `{!Allocator H} `{!AllocatorLaws H}.
Implicit Types (m : pmem H) (p : Process).

(** The table is a block of its size, the cursor points into it or behind. *)
Record fds_wf m p : Prop := {
  fw_alloc : alloc_wf (pm_heap m);
  fw_block : live (pm_heap m) p.(fds) = Some (fd_count p);
  fw_cursor : 0 <= p.(fd_last_free_idx) <= fd_count p }.

Lemma fds_small m p : fds_wf m p -> fd_count p < 2 ^ 31.
Proof. intros [Ha Hb _]. destruct (live_law _ _ _ Ha Hb). lia. Qed.

Lemma enlarge_fds_spec m p : alloc_wf (pm_heap m) ->
  (p.(fds) = 0 /\ p.(fd_table) = [] \/ live (pm_heap m) p.(fds) = Some (fd_count p)) ->
  exists m' q st, proc_enlarge_fds p m = Ret (m', q, st) /\ alloc_wf (pm_heap m') /\
    ((st = 0 /\ q.(fd_table) = p.(fd_table) ++ replicate 4 false /\ q.(fd_last_free_idx) = p.(fd_last_free_idx) /\
      live (pm_heap m') q.(fds) = Some (fd_count q) /\ q = set_fds p q.(fds) q.(fd_table) p.(fd_last_free_idx)) \/
     (st = - ENOMEM /\ q = p /\ forall b, live (pm_heap m') b = live (pm_heap m) b)).
Proof.
  intros Ha Hb. unfold proc_enlarge_fds, STEP.
  assert (Hc : 0 <= fd_count p < 2 ^ 31 /\ (p.(fds) = 0 \/ live (pm_heap m) p.(fds) <> None)).
  { unfold fd_count. destruct Hb as [[-> ->]|Hb]; [split; [cbn; lia|by left]|].
    destruct (live_law _ _ _ Ha Hb). unfold fd_count in *. split; [lia|right; congruence]. }
  destruct Hc as [Hc Hp]. rewrite u32_small by (unfold is_u32; lia).
  destruct (realloc_law (pm_heap m) p.(fds) (fd_count p + 4) Ha) as (h' & q & -> & Hwf & Hr); [lia|done|].
  rewrite bind_Ret. cbn [fst snd]. destruct Hr as [[-> Hl]|(Hq & _ & Hl)].
  - eexists _, _, _. split; [reflexivity|]. split; [done|]. right. done.
  - rewrite (proj2 (Z.eqb_neq q 0)) by done. eexists _, _, _. split; [reflexivity|]. split; [done|]. left.
    do 3 (split; [done|]). split; [|done]. cbn. rewrite Hl, decide_True by done. unfold fd_count. cbn [fd_table set_fds].
    rewrite length_app. cbn [length]. f_equal. lia.
Qed.

Lemma next_free_spec l start : forall fuel i, 0 <= start <= i -> i <= Z.of_nat (length l) < 2 ^ 31 ->
  (Z.to_nat (Z.of_nat (length l) - i) < fuel)%nat ->
  exists j, next_free fuel l start i = Ret (j, false) /\ i <= j <= Z.of_nat (length l) /\
    (forall k, i <= k < j -> l !! Z.to_nat k = Some true) /\ (j < Z.of_nat (length l) -> l !! Z.to_nat j = Some false).
Proof.
  induction fuel as [|fuel IH]; intros i Hs Hi Hf; [lia|]. cbn [next_free].
  destruct (Z.ltb_spec i (Z.of_nat (length l))) as [Hlt|Hge]; cbn [negb].
  2: { exists i. split; [done|]. split; [lia|]. split; intros; lia. }
  destruct (lookup_lt_is_Some_2 l (Z.to_nat i)) as (u & Hu); [lia|]. rewrite Hu. cbn [deref]. rewrite bind_Ret.
  destruct u; cbn [negb]; [|exists i; split; [done|]; split; [lia|]; split; [intros; lia|done]].
  rewrite u32_small by (unfold is_u32; lia). cbv zeta. rewrite (proj2 (Z.eqb_neq (i + 1) start)) by lia.
  destruct (IH (i + 1)) as (j & Hj & Hr & Hused & Hfree); [lia|lia|lia|]. exists j. split; [done|]. split; [lia|].
  split; [|done]. intros k Hk. destruct (decide (k = i)) as [->|]; [done|]. apply Hused. lia.
Qed.

(** The first descriptor from the cursor on that is free, or the one behind
    the table. *)
Definition first_free (l : list bool) (c i : Z) : Prop :=
  c <= i <= Z.of_nat (length l) /\ (forall k, c <= k < i -> l !! Z.to_nat k = Some true) /\
  (i < Z.of_nat (length l) -> l !! Z.to_nat i = Some false).

Lemma new_fd_spec m p : fds_wf m p ->
  exists i m' q r, first_free p.(fd_table) p.(fd_last_free_idx) i /\ proc_new_fd p m = Ret (m', q, r) /\ fds_wf m' q /\
    ((r = i /\ i < fd_count p /\ m' = m /\ q = set_fds p p.(fds) (<[Z.to_nat i := true]> p.(fd_table)) (i + 1)) \/
     (r = i /\ i = fd_count p /\ q = set_fds p q.(fds) (p.(fd_table) ++ [true; false; false; false]) (i + 1)) \/
     (r = - ENOMEM /\ i = fd_count p /\ q = set_fds p p.(fds) p.(fd_table) i)).
Proof.
  intros Hwf. pose proof (fds_small _ _ Hwf) as Hsm. pose proof (fw_cursor _ _ Hwf) as Hc. unfold fd_count in *.
  destruct (next_free_spec p.(fd_table) p.(fd_last_free_idx) (S (length p.(fd_table))) p.(fd_last_free_idx)) as (i & Hn & Hi & Hused & Hfree);
    [lia|lia|lia|]. exists i. unfold proc_new_fd. rewrite Hn, bind_Ret. cbv beta iota zeta. unfold fd_count. cbn [fd_table set_fds].
  assert (Hff : first_free p.(fd_table) p.(fd_last_free_idx) i) by done.
  destruct (Z.eqb_spec i (Z.of_nat (length p.(fd_table)))) as [E|E].
  - destruct (enlarge_fds_spec m (set_fds p p.(fds) p.(fd_table) i) (fw_alloc _ _ Hwf)) as (m' & q & st & -> & Ha & Hr).
    { right. apply Hwf. }
    rewrite bind_Ret. destruct Hr as [(-> & Ht & Hcur & Hb & Eq)|(-> & -> & Hl)]; cbn [Z.ltb Z.compare].
    + cbn [fd_table set_fds fd_last_free_idx] in *. rewrite Ht, lookup_app_r by lia.
      replace (Z.to_nat i - length (fd_table p))%nat with 0%nat by lia. cbn [replicate lookup list_lookup deref]. rewrite bind_Ret.
      rewrite insert_app_r_alt by lia. replace (Z.to_nat i - length (fd_table p))%nat with 0%nat by lia. cbn [insert list_insert].
      rewrite u32_small, i32_small by (unfold is_u32, is_i32; lia).
      eexists _, _, _. split; [done|]. split; [reflexivity|]. split.
      * split; [done| |].
        { cbn [fds set_fds]. rewrite Hb. unfold fd_count. cbn [fd_table set_fds]. rewrite Ht, !length_app. done. }
        unfold fd_count. cbn [fd_table set_fds fd_last_free_idx]. rewrite length_app. cbn. lia.
      * right. left. split; [done|]. split; [done|]. rewrite Eq. done.
    + cbn [Z.opp Z.ltb Z.compare ENOMEM]. eexists _, _, _. split; [done|]. split; [reflexivity|]. split.
      * split; [done|cbn; rewrite Hl; apply Hwf|]. unfold fd_count. cbn. lia.
      * right. right. done.
  - rewrite bind_Ret. cbn [Z.ltb Z.compare]. cbn [fd_table set_fds]. rewrite Hfree by lia. cbn [deref]. rewrite bind_Ret.
    rewrite u32_small, i32_small by (unfold is_u32, is_i32; lia).
    eexists _, _, _. split; [done|]. split; [reflexivity|]. split.
    + split; [apply Hwf| |].
      * cbn [fds set_fds]. unfold fd_count. cbn [fd_table set_fds]. rewrite length_insert. apply Hwf.
      * unfold fd_count. cbn. rewrite length_insert. lia.
    + left. split; [done|]. split; [lia|done].
Qed.

Lemma free_fd_spec m p fd : fds_wf m p -> 0 <= fd < 2 ^ 31 ->
  fds_wf m (proc_free_fd fd p) /\ (proc_free_fd fd p).(fd_last_free_idx) = p.(fd_last_free_idx) /\
  forall k, (proc_free_fd fd p).(fd_table) !! k = if (k =? Z.to_nat fd)%nat then (fun _ => false) <$> (p.(fd_table) !! k) else p.(fd_table) !! k.
Proof.
  intros Hwf Hfd. unfold proc_free_fd. rewrite u32_small by (unfold is_u32; lia). rewrite Z.geb_leb.
  destruct (Z.leb_spec (fd_count p) fd) as [Hge|Hlt]; unfold fd_count in *.
  - split; [done|]. split; [done|]. intros k. destruct (Nat.eqb_spec k (Z.to_nat fd)) as [->|]; [|done].
    by rewrite lookup_ge_None_2 by lia.
  - split; [|split; [done|]].
    + destruct Hwf as [A B C]. split; [done|..]; cbn; unfold fd_count in *; cbn; by rewrite length_insert.
    + intros k. cbn. destruct (Nat.eqb_spec k (Z.to_nat fd)) as [->|].
      * rewrite list_lookup_insert_eq by lia. destruct (lookup_lt_is_Some_2 p.(fd_table) (Z.to_nat fd)) as (x & ->); [lia|done].
      * by rewrite list_lookup_insert_ne.
Qed.
(** The other blocks stay, and are not the table's. *)
Lemma new_fd_frame m p m' q r : fds_wf m p -> proc_new_fd p m = Ret (m', q, r) ->
  m' = set_pheap m (pm_heap m') /\ q = set_fds p q.(fds) q.(fd_table) q.(fd_last_free_idx) /\
  forall b, live (pm_heap m) b <> None -> b <> p.(fds) -> live (pm_heap m') b = live (pm_heap m) b /\ b <> q.(fds).
Proof.
  intros Hwf E. pose proof (fds_small _ _ Hwf) as Hsm. unfold proc_new_fd in E. bind_inv.
  destruct r0 as [i over]. cbn beta iota zeta in E. destruct over.
  { injection E as <- <- <-. split; [by destruct m as [[]]|]. done. }
  apply bind_Ret_inv in E as ([[m1 p1] st] & E1 & E). cbn beta iota zeta in E.
  assert (Hm : m1 = set_pheap m (pm_heap m1) /\ p1 = set_fds p p1.(fds) p1.(fd_table) p1.(fd_last_free_idx) /\
    forall b, live (pm_heap m) b <> None -> b <> p.(fds) -> live (pm_heap m1) b = live (pm_heap m) b /\ b <> p1.(fds)).
  { destruct (i =? _).
    - unfold proc_enlarge_fds in E1. unfold fd_count in *. cbn [fds set_fds fd_table] in E1. unfold STEP in E1. rewrite u32_small in E1 by (unfold is_u32; lia).
      destruct (realloc_law (pm_heap m) p.(fds) (Z.of_nat (length p.(fd_table)) + 4) (fw_alloc _ _ Hwf)) as (h & a & Hr & _ & Hc);
        [lia|right; rewrite (fw_block _ _ Hwf); done|]. rewrite Hr, bind_Ret in E1. cbn [fst snd] in E1.
      destruct Hc as [[-> Hl]|(Ha & Hf & Hl)].
      + cbn [Z.eqb] in E1. injection E1 as <- <- <-. split; [done|]. split; [done|]. intros b Hb Hne. split; [apply Hl|done].
      + rewrite (proj2 (Z.eqb_neq a 0)) in E1 by done. injection E1 as <- <- <-. split; [done|]. split; [done|]. intros b Hb Hne.
        assert (Hba : b <> a) by (intros ->; by destruct Hf as [->|?]).
        split; [cbn; rewrite Hl; by rewrite !decide_False|done].
    - injection E1 as <- <- <-. split; [by destruct m as [[]]|]. split; [done|]. done. }
  destruct Hm as (Hm & Hq & Hfr). destruct (st <? 0); [by injection E as <- <- <-|].
  bind_inv. subst. split; [done|]. split; [by rewrite Hq|done].
Qed.
End fds.

(** a new descriptor is the first free one from the cursor on, or the first
    of four new ones when the table is used up from the cursor; exactly it
    becomes used and the cursor moves behind it, so a descriptor freed below
    the cursor is never given out again; when the table cannot grow the
    result is [-ENOMEM] and no descriptor changes.  Freeing clears exactly
    that descriptor, and only within the table. *)
Theorem proc_fds_correct (m : pmem kstate) p fd : fds_wf m p -> 0 <= fd < 2 ^ 31 ->
  (exists i m' q r, first_free p.(fd_table) p.(fd_last_free_idx) i /\ proc_new_fd p m = Ret (m', q, r) /\ fds_wf m' q /\
    ((r = i /\ i < fd_count p /\ m' = m /\ q = set_fds p p.(fds) (<[Z.to_nat i := true]> p.(fd_table)) (i + 1)) \/
     (r = i /\ i = fd_count p /\ q = set_fds p q.(fds) (p.(fd_table) ++ [true; false; false; false]) (i + 1)) \/
     (r = - ENOMEM /\ i = fd_count p /\ q = set_fds p p.(fds) p.(fd_table) i))) /\
  fds_wf m (proc_free_fd fd p) /\ (proc_free_fd fd p).(fd_last_free_idx) = p.(fd_last_free_idx) /\
  (forall k, (proc_free_fd fd p).(fd_table) !! k =
     if (k =? Z.to_nat fd)%nat then (fun _ => false) <$> (p.(fd_table) !! k) else p.(fd_table) !! k).
Proof. intros Hwf Hfd. split; [by apply new_fd_spec|by apply free_fd_spec]. Qed.

(** A fresh process on the demo heap. *)
Definition demo_pmem (f : fstate) : pmem kstate := mkPM (demo_mm f) ∅.
Definition demo_fresh : pmem kstate * Process * Z :=
  match proc_init (demo_pmem falloc_boot) with Ret r => r | _ => (demo_pmem falloc_boot, zero_process, -1) end.

Lemma demo_fresh_wf : fds_wf demo_fresh.1.1 demo_fresh.1.2 /\ demo_fresh.2 = 0.
Proof.
  destruct (enlarge_fds_spec (demo_pmem falloc_boot) zero_process) as (m' & q & st & He & Ha & Hr).
  { exact (pw_alloc _ _ _ (demo_mm_wf falloc_boot)). }
  { left. split; reflexivity. }
  assert (Hst : demo_fresh.2 = 0) by (vm_compute; reflexivity). split; [|exact Hst].
  unfold demo_fresh, proc_init in *. rewrite He, bind_Ret in *.
  destruct Hr as [(-> & Ht & Hcur & Hb & Eq)|(-> & _)]; [|cbn in Hst; discriminate Hst].
  cbn [Z.ltb Z.compare fst snd]. split; [exact Ha|exact Hb|]. unfold fd_count. cbn [fd_table set_state set_fds fd_last_free_idx].
  rewrite Ht. cbn. lia.
Qed.

Lemma proc_fds_correct_witness : exists i m' q r, first_free demo_fresh.1.2.(fd_table) 0 i /\
  proc_new_fd demo_fresh.1.2 demo_fresh.1.1 = Ret (m', q, r) /\ fds_wf m' q.
Proof.
  destruct (proc_fds_correct demo_fresh.1.1 demo_fresh.1.2 3 (proj1 demo_fresh_wf)) as ((i & m' & q & r & Hff & Hr & Hwf & _) & _); [lia|].
  exists i, m', q, r. split; [|split; [exact Hr|exact Hwf]].
  replace 0 with (fd_last_free_idx demo_fresh.1.2) by (vm_compute; reflexivity). exact Hff.
Defined.

(** ** Releasing a process *)

Section release.
Context {H : Type} `{!Allocator H} `{!AlignedAllocator H} `{!AllocatorLaws H} `{!AlignedAllocatorLaws H}.
Context (koff : Z) (Hkoff : 0 <= koff < 2 ^ 32).
Implicit Types (m : pmem H) (p : Process) (s : mstate H).

(** A block that is not null. *)
Definition block (a : Z) : list Z := if a =? 0 then [] else [a].
Definition kstack_block p : Z := if p.(kstack_top) =? 0 then 0 else u32 (p.(kstack_top) - PROC_KSTACK_SIZE).
Definition paging_blocks m p : list Z :=
  if p.(paging_struct) =? 0 then []
  else match m.(pstructs) !! p.(paging_struct) with Some ps => owned koff m.(pm_mm) ps | None => [] end.
(** The blocks of the process itself, and all it holds. *)
Definition own_blocks p : list Z := block p.(path) ++ block p.(paging_struct) ++ block p.(fds) ++ block (kstack_block p).
Definition proc_blocks m p : list Z := own_blocks p ++ paging_blocks m p.

Record proc_owns m p : Prop := {
  po_wf : alloc_wf (pm_heap m);
  po_live : forall a, a ∈ own_blocks p -> live (pm_heap m) a <> None;
  po_paging : p.(paging_struct) <> 0 ->
    exists ps, m.(pstructs) !! p.(paging_struct) = Some ps /\ owns koff m.(pm_mm) ps;
  po_kstack : p.(kstack_top) <> 0 -> kstack_block p <> 0;
  po_nodup : NoDup (own_blocks p);
  po_apart : forall a, a ∈ own_blocks p -> a ∉ paging_blocks m p /\ m.(pm_mm).(tables) !! a = None }.

(** Freed blocks: [F] is gone from the heap, tables and structures that are
    not in [F] stay. *)
Record freed m m' (F : list Z) : Prop := {
  fr_wf : alloc_wf (pm_heap m');
  fr_live : forall b, live (pm_heap m') b = if decide (b ∈ F) then None else live (pm_heap m) b;
  fr_frames : same_frames m.(pm_mm).(frames) m'.(pm_mm).(frames) }.

Lemma freed_refl m : alloc_wf (pm_heap m) -> freed m m [].
Proof. intros Hwf. split; [done| |by intros ??]. intros b. by rewrite decide_False by apply not_elem_of_nil. Qed.
Lemma freed_trans m1 m2 m3 F G : freed m1 m2 F -> freed m2 m3 G -> freed m1 m3 (F ++ G).
Proof.
  intros R S. split; [apply S| |intros k Hk; by rewrite (fr_frames _ _ _ S), (fr_frames _ _ _ R)].
  intros b. rewrite (fr_live _ _ _ S), (fr_live _ _ _ R).
  destruct (decide (b ∈ F ++ G)) as [Hin|Hn]; rewrite elem_of_app in *;
    destruct (decide (b ∈ G)) as [?|?], (decide (b ∈ F)) as [?|?]; naive_solver.
Qed.
Lemma freed_ext m m' F G : freed m m' F -> (forall a, a ∈ F <-> a ∈ G) -> freed m m' G.
Proof. intros [R1 R2 R3] E. split; [done| |done]. intros b. by rewrite R2, (decide_ext _ _ _ _ (E b)). Qed.

(** One [kfree] of a block, if it is there. *)
Lemma free_block m a : alloc_wf (pm_heap m) -> live (pm_heap m) a <> None ->
  exists h, kfree_ a (pm_heap m) = Ret h /\ freed m (set_pheap m h) [a] /\ lowest h = lowest (pm_heap m).
Proof.
  intros Hwf Hl. destruct (free_law _ _ Hwf Hl) as (h & Hf & Hwf' & Hl'). exists h. split; [done|]. split; [|by eapply lowest_kfree].
  split; [done| |by intros ??]. intros b. cbn. rewrite Hl'. apply decide_ext. by rewrite list_elem_of_singleton.
Qed.

(** A structure keeps its tables when another block goes. *)
Lemma owns_free s ps h a : owns koff s ps -> kfree_ a s.(heap) = Ret h -> alloc_wf h ->
  (forall b, live h b = if decide (b ∈ [a]) then None else live s.(heap) b) -> lowest h = lowest s.(heap) ->
  a ∉ owned koff s ps -> s.(tables) !! a = None -> owns koff (set_heap s h) ps.
Proof.
  intros [[Wa Wl Wv Wt] Hf (T1 & T2 & T3 & T4) [D0 D1] Hpg] Hfree Hwf Hl Hlow Hout Hta.
  assert (Hkeep : forall b, b ∈ owned koff s ps -> live h b = live s.(heap) b).
  { intros b Hb. rewrite Hl, decide_False; [done|]. intros ->%list_elem_of_singleton. done. }
  assert (Htb : forall b, s.(tables) !! b <> None -> live h b = live s.(heap) b).
  { intros b Hb. rewrite Hl, decide_False; [done|]. intros ->%list_elem_of_singleton. done. }
  split; cbn [heap frames tables set_heap].
  - split; cbn [heap tables set_heap]; [done|by rewrite Hlow| |done]. intros b Hb. rewrite Htb, Hlow by done. by apply Wv.
  - done.
  - split; [done|]. split; [done|]. split; [done|]. destruct T4 as [?|T4]; [by left|right]. cbn [heap set_heap]. rewrite Hkeep; [done|].
    unfold owned. rewrite !elem_of_app. do 3 right. destruct (Z.eqb_spec ps.(allocated_pages) 0) as [E|E]; [|by left].
    rewrite E in T4. exfalso. by apply (live_not_null _ 0 Wa); [congruence|].
  - split; [done|]. rewrite Hkeep; [done|]. unfold owned. rewrite !elem_of_app, list_elem_of_singleton. auto.
  - intros va Hva. destruct (Hpg va Hva) as (Hu & pd & pt & Hpd & Hpt & Lpd & Lpt). split; [done|]. exists pd, pt.
    do 2 (split; [done|]). split; rewrite Hkeep; try done; unfold owned; rewrite !elem_of_app.
    + right. left. apply list_elem_of_fmap. exists va. split; [|done]. unfold pd_of. by rewrite Hpd.
    + left. apply list_elem_of_fmap. exists va. split; [|done]. unfold pt_of. by rewrite Hpt.
Qed.

Lemma block_nonzero a : a <> 0 -> block a = [a].
Proof. intros Ha. unfold block. by rewrite (proj2 (Z.eqb_neq a 0)). Qed.

Lemma free_path_spec m p : proc_owns m p -> exists m', free_path p m = Ret (m', set_path p 0) /\ freed m m' (block p.(path)) /\
  m'.(pstructs) = m.(pstructs) /\ proc_owns m' (set_path p 0) /\ paging_blocks m' (set_path p 0) = paging_blocks m p.
Proof.
  intros Ho. pose proof Ho as [Wf Hl Hp Hk Hn Ha]. unfold free_path. unfold own_blocks in *.
  destruct (Z.eqb_spec p.(path) 0) as [E|E]; cbn [negb].
  { exists m. assert (set_path p 0 = p) as -> by (destruct p; cbn in *; by rewrite E).
    split; [done|]. rewrite E. split; [by apply freed_refl|]. done. }
  rewrite (block_nonzero _ E) in *.
  destruct (free_block m p.(path) Wf) as (h & Hfree & Hfr & Hlow); [apply Hl; by left|]. rewrite Hfree, bind_Ret.
  exists (set_pheap m h). split; [done|]. split; [done|]. split; [done|]. split; [|done].
  destruct (Ha p.(path)) as [Hap1 Hap2]; [by left|]. cbn [app] in *. apply NoDup_cons in Hn as [Hn1 Hn2].
  split.
  - apply Hfr.
  - intros a Hin. rewrite (fr_live _ _ _ Hfr), decide_False; [apply Hl; by right|]. intros ->%list_elem_of_singleton. done.
  - intros Hps. destruct (Hp Hps) as (ps & Hlk & How). exists ps. split; [done|]. cbn [set_pheap set_mm pm_mm].
    unfold paging_blocks in Hap1. rewrite (proj2 (Z.eqb_neq _ 0)), Hlk in Hap1 by done.
    eapply owns_free; [exact How|exact Hfree|apply Hfr|exact (fr_live _ _ _ Hfr)|exact Hlow|done|done].
  - exact Hk.
  - exact Hn2.
  - intros a Hin. apply Ha. by right.
Qed.

(** The structure and its tables go together. *)
Lemma free_paging_spec m p : proc_owns m p -> p.(path) = 0 ->
  exists m', free_paging koff p m = Ret (m', set_ps p 0) /\ freed m m' (paging_blocks m p ++ block p.(paging_struct)).
Proof.
  intros [Wf Hl Hp Hk Hn Ha] Hpath. unfold free_paging, paging_blocks. unfold own_blocks in *. rewrite Hpath in *. cbn [block Z.eqb app] in *.
  destruct (Z.eqb_spec p.(paging_struct) 0) as [E|E]; cbn [negb].
  { exists m. assert (set_ps p 0 = p) as -> by (destruct p; cbn in *; by rewrite E). rewrite E. split; [done|by apply freed_refl]. }
  destruct (Hp E) as (ps & Hlk & How). rewrite Hlk. cbn [deref]. rewrite bind_Ret, (block_nonzero _ E) in *.
  destruct (Ha p.(paging_struct)) as [Hap _]; [by left|]. unfold paging_blocks in Hap. rewrite (proj2 (Z.eqb_neq _ 0)), Hlk in Hap by done.
  destruct (destroy_spec koff Hkoff _ _ How) as (s' & f & -> & Hfr & _ & _ & Hwf' & Hl' & _). rewrite bind_Ret. cbn [fst].
  set (m1 := set_mm m s'). assert (F1 : freed m m1 (owned koff (pm_mm m) ps)) by (split; done).
  destruct (free_block m1 p.(paging_struct)) as (h & Hf & F2 & _).
  { exact Hwf'. }
  { rewrite (fr_live _ _ _ F1), decide_False by done. apply Hl. by left. }
  change (pm_heap m1) with (heap s') in Hf. rewrite Hf, bind_Ret. eexists. split; [done|].
  assert (F12 := freed_trans _ _ _ _ _ F1 F2). split; [apply F12|apply F12|apply F12].
Qed.

Lemma free_fds_spec m p : alloc_wf (pm_heap m) -> (p.(fds) = 0 \/ live (pm_heap m) p.(fds) <> None) ->
  exists m' q, free_fds p m = Ret (m', q) /\ freed m m' (block p.(fds)) /\ q.(fds) = 0 /\ q.(path) = p.(path) /\
    q.(paging_struct) = p.(paging_struct) /\ q.(kstack_top) = p.(kstack_top) /\ q.(pid) = p.(pid).
Proof.
  intros Wf Hl. unfold free_fds. destruct (Z.eqb_spec p.(fds) 0) as [E|E]; cbn [negb].
  - exists m, p. rewrite E. split; [done|]. split; [by apply freed_refl|done].
  - destruct Hl as [?|Hl]; [done|]. destruct (free_block m p.(fds) Wf Hl) as (h & -> & Hfr & _). rewrite bind_Ret, (block_nonzero _ E).
    eexists _, _. split; [reflexivity|]. split; [done|]. done.
Qed.
Lemma free_kstack_spec m p : alloc_wf (pm_heap m) -> (p.(kstack_top) <> 0 -> kstack_block p <> 0) ->
  (kstack_block p = 0 \/ live (pm_heap m) (kstack_block p) <> None) ->
  exists m' q, proc_destroy_kernel_stack p m = Ret (m', q) /\ freed m m' (block (kstack_block p)) /\ q = set_kstack p 0.
Proof.
  intros Wf Hk Hl. unfold proc_destroy_kernel_stack, kstack_block in *. destruct (Z.eqb_spec p.(kstack_top) 0) as [E|E].
  - exists m, p. split; [done|]. split; [by apply freed_refl|]. destruct p; cbn in *. by rewrite E.
  - destruct Hl as [?|Hl]; [by destruct (Hk E)|]. destruct (free_block m _ Wf Hl) as (h & -> & Hfr & _). rewrite bind_Ret, (block_nonzero _ (Hk E)).
    eexists _, _. split; [reflexivity|]. split; [done|]. done.
Qed.

(** The resources of a process, all of them and only them. *)
Lemma proc_free_spec m p : proc_owns m p ->
  exists m' q, proc_free koff p m = Ret (m', q) /\ freed m m' (proc_blocks m p) /\
    q.(path) = 0 /\ q.(paging_struct) = 0 /\ q.(fds) = 0 /\ q.(kstack_top) = 0 /\ q.(pid) = p.(pid).
Proof.
  intros Ho. unfold proc_free. destruct (free_path_spec m p Ho) as (m1 & -> & F1 & _ & O1 & E1). rewrite bind_Ret. cbn [fst snd].
  destruct (free_paging_spec m1 (set_path p 0) O1 eq_refl) as (m2 & -> & F2). rewrite bind_Ret. cbn [fst snd].
  rewrite E1 in F2. cbn [paging_struct set_path] in F2. pose proof (freed_trans _ _ _ _ _ F1 F2) as F12.
  pose proof Ho as [Wf Hl _ Hk Hn Ha]. unfold own_blocks in *.
  assert (Hstay : forall a, a ∈ block p.(fds) ++ block (kstack_block p) -> live (pm_heap m2) a <> None).
  { intros a Hin. rewrite (fr_live _ _ _ F12), decide_False; [apply Hl; rewrite !elem_of_app in *; tauto|].
    destruct (Ha a) as [Hp _]; [rewrite !elem_of_app in *; tauto|].
    rewrite app_assoc in Hn. apply NoDup_app in Hn as (_ & Hn & _).
    intros Hb. apply (Hn a); [|done]. rewrite !elem_of_app in *. tauto. }
  assert (Hb1 : forall a, a ∈ block a \/ a = 0) by (intros a; unfold block; destruct (Z.eqb_spec a 0); [by right|left; by left]).
  destruct (free_fds_spec m2 (set_ps (set_path p 0) 0)) as (m3 & q & -> & F3 & Q1 & Q2 & Q3 & Q4 & Q5); [apply F2| |].
  { cbn [fds set_ps set_path]. destruct (Hb1 p.(fds)); [right; apply Hstay; rewrite elem_of_app; by left|by left]. }
  rewrite bind_Ret. cbn [fst snd fds set_ps set_path path paging_struct kstack_top pid] in *.
  assert (Hkb : kstack_block q = kstack_block p) by (unfold kstack_block; by rewrite Q4).
  destruct (free_kstack_spec m3 q) as (m4 & q' & -> & F4 & ->); [apply F3|by rewrite Hkb, Q4| |].
  { rewrite Hkb. destruct (Hb1 (kstack_block p)) as [Hin|?]; [right|by left].
    rewrite (fr_live _ _ _ F3), decide_False; [apply Hstay; rewrite elem_of_app; by right|].
    rewrite !app_assoc in Hn. apply NoDup_app in Hn as (_ & Hn & _). intros Hin2. apply (Hn (kstack_block p)); [|done].
    rewrite !elem_of_app. by right. }
  exists m4, (set_kstack q 0). split; [done|]. split; [|done]. rewrite Hkb in F4.
  apply (freed_ext _ _ _ _ (freed_trans _ _ _ _ _ (freed_trans _ _ _ _ _ F12 F3) F4)). intros a.
  unfold proc_blocks, own_blocks. rewrite !elem_of_app. tauto.
Qed.
End release.

(** releasing a process that holds its path, its paging structure with all
    its tables, its descriptor table and its kernel stack terminates, frees
    each of these blocks and no other, clears the pointers, and leaves every
    page frame from 64 on as it was: the frames of the process are never
    given back. *)
Theorem proc_free_correct koff (m : pmem kstate) p : 0 <= koff < 2 ^ 32 -> proc_owns koff m p ->
  exists m' q, proc_free koff p m = Ret (m', q) /\ alloc_wf (pm_heap m') /\
    (forall b, live (pm_heap m') b = if decide (b ∈ proc_blocks koff m p) then None else live (pm_heap m) b) /\
    (q.(path) = 0 /\ q.(paging_struct) = 0 /\ q.(fds) = 0 /\ q.(kstack_top) = 0) /\
    (forall k, 64 <= k -> taken m'.(pm_mm).(frames) k = taken m.(pm_mm).(frames) k).
Proof.
  intros Hk Ho. destruct (proc_free_spec koff Hk m p Ho) as (m' & q & Hr & Hf & Q1 & Q2 & Q3 & Q4 & _).
  exists m', q. split; [done|]. split; [apply Hf|]. split; [apply Hf|]. split; [done|apply Hf].
Qed.

Lemma proc_free_correct_witness : exists m' q, proc_free demo_koff demo_fresh.1.2 demo_fresh.1.1 = Ret (m', q) /\ q.(fds) = 0.
Proof.
  assert (Ho : proc_owns demo_koff demo_fresh.1.1 demo_fresh.1.2).
  { destruct demo_fresh_wf as [[Ha Hb _] _].
    assert (Hown : own_blocks demo_fresh.1.2 = [fds demo_fresh.1.2]) by (vm_compute; reflexivity).
    assert (Hps : paging_struct demo_fresh.1.2 = 0) by (vm_compute; reflexivity).
    assert (Hks : kstack_top demo_fresh.1.2 = 0) by (vm_compute; reflexivity).
    assert (Htb : tables (pm_mm demo_fresh.1.1) = {[ demo_ps.(data) := Pdpt pdpt_init ]}) by (vm_compute; reflexivity).
    assert (Hne : fds demo_fresh.1.2 <> demo_ps.(data)) by (vm_compute; discriminate).
    split.
    - exact Ha.
    - rewrite Hown. intros a ->%list_elem_of_singleton. rewrite Hb. discriminate.
    - intros Hc. destruct (Hc Hps).
    - intros Hc. destruct (Hc Hks).
    - rewrite Hown. apply NoDup_singleton.
    - rewrite Hown. intros a ->%list_elem_of_singleton. unfold paging_blocks. rewrite Hps. split; [apply not_elem_of_nil|].
      rewrite Htb. apply lookup_singleton_ne. intros E. apply Hne. symmetry. exact E. }
  destruct (proc_free_correct demo_koff demo_fresh.1.1 demo_fresh.1.2) as (m' & q & Hr & _ & _ & (_ & _ & Hq & _) & _);
    [unfold demo_koff; lia|exact Ho|]. exists m', q. split; [exact Hr|exact Hq].
Defined.
