(* ===== verification/Procm.v ===== *)
(** * The process manager and its scheduler

    [kernel/proc/procm.c]: the pool of processes, pids, zombies, yielding;
    [drivers/schedulers/ringsched/ringsched.c]: the ring scheduler. *)
From S2P Require Import Prelude Alloc Gallocator Kmalloc Falloc Paging Teardown Bitmap Proc.

Definition ENOENT : Z := 2.
Definition ENOSPC : Z := 28.
Definition sizeof_Process : Z := 84.
Definition ALLOC_STEP : Z := 16.

(** ** The ring scheduler

    A scheduler sees the array of process pointers ([*sched->procs], of
    [*sched->proc_count] elements) and keeps an index of its own. *)

(** [newidx] moves on until it is at a process; the wrap to 0 takes a turn. *)
Fixpoint ring_loop (fuel : nat) (procs : list Z) (newidx : Z) : outcome (Z * Z) :=
  match fuel with
  | O => Undef
  | S fuel =>
      if newidx >=? Z.of_nat (length procs) then ring_loop fuel procs 0
      else
        a ← deref (procs !! Z.to_nat newidx);
        if a =? 0 then ring_loop fuel procs (u32 (newidx + 1)) else Ret (newidx, a)
  end.
(** More turns than two rounds means that there is no process. *)
Definition ringsched_next_proc (procs : list Z) (g_current_proc_idx : Z) : outcome (Z * Z) :=
  ring_loop (S (S (2 * length procs))) procs (u32 (g_current_proc_idx + 1)).
Definition ringsched_current_proc (procs : list Z) (g_current_proc_idx : Z) : outcome Z :=
  deref (procs !! Z.to_nat g_current_proc_idx).
Definition ringsched_reset (g_current_proc_idx : Z) : Z * Z := (0, 0).

Record Scheduler := mkSched {
  sched_name : list Z; priority : Z;
  current_proc : list Z -> Z -> outcome Z; next_proc : list Z -> Z -> outcome (Z * Z); reset : Z -> Z * Z }.
(** "ringscheduler". *)
Definition g_ringsched : Scheduler :=
  mkSched [114; 105; 110; 103; 115; 99; 104; 101; 100; 117; 108; 101; 114] 100
    ringsched_current_proc ringsched_next_proc ringsched_reset.

Section procm.
Context {H : Type} `{!Allocator H} `{!AlignedAllocator H} (koff kimg_vaddr : Z).
(** The address of the kernel's paging structure, the loader, and the address
    of [g_kernel_proc]. *)
Context (kernel_ps : Z) (load : loader (H := H)) (kernel_proc : Z).

(** Processes by address; [g_procs] is the elements of its block, so that
    [g_proc_size] is their number; schedulers by address. *)
Record pmstate := mkPMS {
  pmem_ : pmem H; procs : gmap Z Process;
  g_procs_ptr : Z; g_procs : list Z; g_last_free_proc_idx : Z; g_proc_count : Z;
  g_schedulers_ptr : Z; g_schedulers : list Z; scheds : gmap Z Scheduler; g_active_sched : Z; sched_idx : Z;
  the_cpu : cpu }.
Definition g_proc_size (s : pmstate) : Z := Z.of_nat (length s.(g_procs)).

Definition set_mem (s : pmstate) (m : pmem H) : pmstate :=
  mkPMS m s.(procs) s.(g_procs_ptr) s.(g_procs) s.(g_last_free_proc_idx) s.(g_proc_count) s.(g_schedulers_ptr) s.(g_schedulers)
    s.(scheds) s.(g_active_sched) s.(sched_idx) s.(the_cpu).
Definition set_procs (s : pmstate) (t : gmap Z Process) : pmstate :=
  mkPMS s.(pmem_) t s.(g_procs_ptr) s.(g_procs) s.(g_last_free_proc_idx) s.(g_proc_count) s.(g_schedulers_ptr) s.(g_schedulers)
    s.(scheds) s.(g_active_sched) s.(sched_idx) s.(the_cpu).
Definition set_pool (s : pmstate) (ptr : Z) (l : list Z) (last count : Z) : pmstate :=
  mkPMS s.(pmem_) s.(procs) ptr l last count s.(g_schedulers_ptr) s.(g_schedulers)
    s.(scheds) s.(g_active_sched) s.(sched_idx) s.(the_cpu).
Definition set_scheds (s : pmstate) (ptr : Z) (l : list Z) (active : Z) : pmstate :=
  mkPMS s.(pmem_) s.(procs) s.(g_procs_ptr) s.(g_procs) s.(g_last_free_proc_idx) s.(g_proc_count) ptr l
    s.(scheds) active s.(sched_idx) s.(the_cpu).
Definition set_idx (s : pmstate) (i : Z) : pmstate :=
  mkPMS s.(pmem_) s.(procs) s.(g_procs_ptr) s.(g_procs) s.(g_last_free_proc_idx) s.(g_proc_count) s.(g_schedulers_ptr) s.(g_schedulers)
    s.(scheds) s.(g_active_sched) i s.(the_cpu).
Definition set_cpu (s : pmstate) (t : gmap Z Process) (c : cpu) : pmstate :=
  mkPMS s.(pmem_) t s.(g_procs_ptr) s.(g_procs) s.(g_last_free_proc_idx) s.(g_proc_count) s.(g_schedulers_ptr) s.(g_schedulers)
    s.(scheds) s.(g_active_sched) s.(sched_idx) c.

(** ** The pool *)

(** The pid, or [-EOVERFLOW]. *)
Definition procm_available_pid (s : pmstate) : outcome (pmstate * Z) :=
  r ← next_free (S (length s.(g_procs))) ((fun a => negb (a =? 0)) <$> s.(g_procs)) s.(g_last_free_proc_idx) s.(g_last_free_proc_idx);
  let '(i, over) := r : Z * bool in
  if over then Ret (set_pool s s.(g_procs_ptr) s.(g_procs) i s.(g_proc_count), - EOVERFLOW)
  else Ret (set_pool s s.(g_procs_ptr) s.(g_procs) (u32 (i + 1)) s.(g_proc_count), i32 (i + 1)).

Definition procm_enlarge (s : pmstate) : outcome (pmstate * Z) :=
  r ← krealloc_ s.(g_procs_ptr) (u32 (g_proc_size s * 4 + ALLOC_STEP * 4)) (pm_heap s.(pmem_));
  let s := set_mem s (set_pheap s.(pmem_) r.1) in
  if r.2 =? 0 then Ret (s, - ENOMEM)
  else Ret (set_pool s r.2 (s.(g_procs) ++ replicate (Z.to_nat ALLOC_STEP) 0) s.(g_last_free_proc_idx) s.(g_proc_count), 0).

Definition procm_add_proc_to_pool (a : Z) (s : pmstate) : outcome (pmstate * Z) :=
  p ← deref (s.(procs) !! a);
  let pid_idx := u32 (p.(pid) - 1) in
  _ ← assert_ (pid_idx <=? g_proc_size s);
  r ← (if pid_idx =? g_proc_size s then procm_enlarge s else Ret (s, 0));
  let '(s, st) := r : pmstate * Z in
  if st <? 0 then Ret (s, st)
  else
    _ ← deref (s.(g_procs) !! Z.to_nat pid_idx);
    Ret (set_pool s s.(g_procs_ptr) (<[Z.to_nat pid_idx := a]> s.(g_procs)) s.(g_last_free_proc_idx) (u32 (s.(g_proc_count) + 1)), 0).

Definition procm_kill (a : Z) (s : pmstate) : outcome (pmstate * Z) :=
  p ← deref (s.(procs) !! a);
  let i := u32 (p.(pid) - 1) in
  _ ← deref (s.(g_procs) !! Z.to_nat i);
  let s := set_pool s s.(g_procs_ptr) (<[Z.to_nat i := 0]> s.(g_procs)) i (u32 (s.(g_proc_count) - 1)) in
  r ← proc_free koff p s.(pmem_);
  h ← kfree_ a (pm_heap r.1);
  Ret (set_procs (set_mem s (set_pheap r.1 h)) (delete a s.(procs)), 0).

Definition procm_try_kill_proc (target acting : Z) (s : pmstate) : outcome (pmstate * Z) :=
  if acting =? target then if s.(g_proc_count) =? 1 then Panic else Ret (s, - EINVAL)
  else procm_kill target s.

(** The highest priority, the first one on a tie. *)
Fixpoint best_sched (t : gmap Z Scheduler) (l : list Z) (best : Z) : outcome Z :=
  match l with
  | [] => Ret best
  | a :: l => x ← deref (t !! a); b ← deref (t !! best); best_sched t l (if x.(priority) >? b.(priority) then a else best)
  end.
Definition procm_init (s : pmstate) : outcome (pmstate * Z) :=
  match s.(g_schedulers) with
  | [] => Panic
  | first :: _ =>
      best ← best_sched s.(scheds) s.(g_schedulers) first;
      let s := set_scheds s s.(g_schedulers_ptr) s.(g_schedulers) best in
      r ← kcalloc_ (1 * 4) (pm_heap s.(pmem_));
      if r.2 =? 0 then Panic
      else Ret (set_pool (set_mem s (set_pheap s.(pmem_) r.1)) r.2 [0] 0 s.(g_proc_count), 0)
  end.

(** ** Spawning *)

(** [proc_free(newproc); kfree(newproc);] *)
Definition abandon (a : Z) (p : Process) (m : pmem H) : outcome (pmem H) :=
  r ← proc_free koff p m; h ← kfree_ a (pm_heap r.1); Ret (set_pheap r.1 h).

(** [strdup]: the block has room for the characters only. *)
Definition strdup (text : list Z) (m : pmem H) : outcome (pmem H * Z) :=
  r ← kmalloc_ (Z.of_nat (length text)) (pm_heap m); Ret (set_pheap m r.1, r.2).

(** [text] is the string at [pathname]. *)
Definition procm_spawn_proc (pathname : Z) (text : list Z) (s : pmstate) : outcome (pmstate * Z) :=
  r ← kcalloc_ sizeof_Process (pm_heap s.(pmem_));
  let m := set_pheap s.(pmem_) r.1 in
  let newproc := r.2 in
  if newproc =? 0 then Ret (set_mem s m, - ENOMEM)
  else
    r ← proc_init m;
    let '(m, p, st) := r : pmem H * Process * Z in
    if st <? 0 then h ← kfree_ newproc (pm_heap m); Ret (set_mem s (set_pheap m h), st)
    else
      r ← proc_create_address_space koff kimg_vaddr load kernel_ps pathname p m;
      let '(m, p, st) := r : pmem H * Process * Z in
      if st <? 0 then m ← abandon newproc p m; Ret (set_mem s m, st)
      else
        r ← proc_create_kernel_stack p m;
        let '(m, p, st) := r : pmem H * Process * Z in
        if st <? 0 then m ← abandon newproc p m; Ret (set_mem s m, - ENOMEM)
        else
          r ← strdup text m;
          let '(m, path) := r : pmem H * Z in
          let p := set_path p path in
          if path =? 0 then m ← abandon newproc p m; Ret (set_mem s m, - ENOMEM)
          else
            r ← procm_available_pid (set_mem s m);
            let '(s, pid) := r : pmstate * Z in
            let p := set_pid p pid in
            if pid <=? 0 then m ← abandon newproc p s.(pmem_); Ret (set_mem s m, - ENOSPC)
            else
              r ← procm_add_proc_to_pool newproc (set_procs s (<[newproc := p]> s.(procs)));
              let '(s, st) := r : pmstate * Z in
              if st <? 0 then
                m ← abandon newproc p s.(pmem_); Ret (set_procs (set_mem s m) (delete newproc s.(procs)), st)
              else Ret (s, pid).

Definition procm_spawn_kernel_proc (s : pmstate) : outcome (pmstate * Z) :=
  r ← proc_init s.(pmem_);
  let '(m, p, st) := r : pmem H * Process * Z in
  if st <? 0 then Panic else Ret (set_procs (set_mem s m) (<[kernel_proc := set_ps p kernel_ps]> s.(procs)), 0).
(** ["/bin/init"]. *)
Definition procm_spawn_init (initpath : Z) (s : pmstate) : outcome (pmstate * Z) :=
  r ← procm_spawn_proc initpath [47; 98; 105; 110; 47; 105; 110; 105; 116] s;
  if negb (r.2 =? 1) then Panic else Ret (r.1, 1).

(** ** Schedulers *)

Definition procm_sched_register (sched : Z) (s : pmstate) : outcome (pmstate * Z) :=
  r ← krealloc_ s.(g_schedulers_ptr) (u32 ((Z.of_nat (length s.(g_schedulers)) + 1) * 4)) (pm_heap s.(pmem_));
  let s := set_mem s (set_pheap s.(pmem_) r.1) in
  if r.2 =? 0 then Ret (s, - ENOMEM)
  else Ret (set_scheds s r.2 (s.(g_schedulers) ++ [sched]) s.(g_active_sched), 0).

Fixpoint find_sched (sched : Z) (l : list Z) : option nat :=
  match l with
  | [] => None
  | a :: l => if a =? sched then Some O else S <$> find_sched sched l
  end.
(** The ones behind move down; the block keeps its size. *)
Definition procm_sched_unregister (sched : Z) (s : pmstate) : pmstate * Z :=
  match find_sched sched s.(g_schedulers) with
  | None => (s, - ENOENT)
  | Some i => (set_scheds s s.(g_schedulers_ptr) (delete i s.(g_schedulers)) s.(g_active_sched), 0)
  end.

Definition active_sched (s : pmstate) : outcome Scheduler := deref (s.(scheds) !! s.(g_active_sched)).
Definition procm_sched_current_proc (s : pmstate) : outcome Z :=
  sc ← active_sched s; sc.(current_proc) s.(g_procs) s.(sched_idx).

Definition procm_sched_start (s : pmstate) : outcome pmstate :=
  if g_proc_size s =? 0 then Panic
  else if g_proc_size s >? 1 then Panic
  else
    sc ← active_sched s;
    let r := sc.(reset) s.(sched_idx) in
    let s := set_idx s r.1 in
    if r.2 <? 0 then Panic
    else
      pid1 ← procm_sched_current_proc s;
      r ← proc_enter_initial koff pid1 s.(procs) s.(pmem_) s.(the_cpu);
      Ret (set_cpu s r.1 r.2).

(** ** Yielding *)

Definition procm_mark_dead (st : Z) (a : Z) (s : pmstate) : outcome pmstate :=
  p ← deref (s.(procs) !! a); Ret (set_procs s (<[a := set_exit p true st]> s.(procs))).

(** [while ((next = next_proc())->zombie) procm_try_kill_proc(next, current)]. *)
Fixpoint yield_loop (fuel : nat) (current : Z) (s : pmstate) : outcome (pmstate * Z) :=
  match fuel with
  | O => Undef
  | S fuel =>
      sc ← active_sched s;
      r ← sc.(next_proc) s.(g_procs) s.(sched_idx);
      let s := set_idx s r.1 in
      p ← deref (s.(procs) !! r.2);
      if p.(zombie) then r ← procm_try_kill_proc r.2 current s; yield_loop fuel current r.1
      else Ret (s, r.2)
  end.
Definition procm_sched_yield (s : pmstate) : outcome pmstate :=
  current ← procm_sched_current_proc s;
  p ← deref (s.(procs) !! current);
  let s := set_procs s (<[current := set_state p PROC_YIELDED]> s.(procs)) in
  r ← yield_loop (S (length s.(g_procs))) current s;
  let '(s, next) := r : pmstate * Z in
  r ← proc_switch koff next s.(procs) s.(pmem_) s.(the_cpu);
  Ret (set_cpu s r.1 r.2).

(** [sys_exit]; the [panic] behind the yield is for a zombie that runs again. *)
Definition sys_exit (status : Z) (s : pmstate) : outcome pmstate :=
  current ← procm_sched_current_proc s;
  s ← procm_mark_dead status current s;
  procm_sched_yield s.
End procm.
Arguments pmstate : clear implicits.

(** ** The ring *)

Section ring.
Implicit Types (l : list Z) (c d : Z).

Lemma ring_scan l a : forall n i j fuel, n = Z.to_nat (j - i) -> 0 <= i <= j -> Z.of_nat (length l) < 2 ^ 31 ->
  (forall k, i <= k < j -> l !! Z.to_nat k = Some 0) -> l !! Z.to_nat j = Some a -> a <> 0 -> (n < fuel)%nat ->
  ring_loop fuel l i = Ret (j, a).
Proof.
  induction n as [|n IH]; intros i j [|fuel] Hn Hij Hl Hz Ha Hne Hf; try lia; cbn [ring_loop]; rewrite Z.geb_leb;
    pose proof (lookup_lt_Some _ _ _ Ha); rewrite (proj2 (Z.leb_gt _ _)) by lia.
  - assert (i = j) as -> by lia. rewrite Ha. cbn [deref]. rewrite bind_Ret. by rewrite (proj2 (Z.eqb_neq a 0)).
  - rewrite (Hz i) by lia. cbn [deref]. rewrite bind_Ret. cbn [Z.eqb]. rewrite u32_small by (unfold is_u32; lia).
    apply IH; try done; try lia. intros k Hk. apply Hz. lia.
Qed.

Lemma ring_wrap l a : forall n i j fuel, n = Z.to_nat (Z.of_nat (length l) - i) -> 0 <= i <= Z.of_nat (length l) -> 0 <= j ->
  Z.of_nat (length l) < 2 ^ 31 -> (forall k, i <= k < Z.of_nat (length l) -> l !! Z.to_nat k = Some 0) ->
  (forall k, 0 <= k < j -> l !! Z.to_nat k = Some 0) -> l !! Z.to_nat j = Some a -> a <> 0 -> (n + 1 + Z.to_nat j < fuel)%nat ->
  ring_loop fuel l i = Ret (j, a).
Proof.
  induction n as [|n IH]; intros i j [|fuel] Hn Hi Hj Hl Hz1 Hz2 Ha Hne Hf; try lia; cbn [ring_loop]; rewrite Z.geb_leb.
  - rewrite (proj2 (Z.leb_le _ _)) by lia. apply (ring_scan l a (Z.to_nat j)); try done; lia.
  - rewrite (proj2 (Z.leb_gt _ _)), (Hz1 i) by lia. cbn [deref]. rewrite bind_Ret. cbn [Z.eqb].
    rewrite u32_small by (unfold is_u32; lia). apply IH; try done; try lia. intros k Hk. apply Hz1. lia.
Qed.

(** The next process is the nearest one ahead in the ring; the ring may come
    back to where it started. *)
Lemma ring_next_spec l c d a : let n := Z.of_nat (length l) in 0 <= c < n -> n < 2 ^ 30 -> 1 <= d <= n ->
  (forall k, 1 <= k < d -> l !! Z.to_nat ((c + k) mod n) = Some 0) -> l !! Z.to_nat ((c + d) mod n) = Some a -> a <> 0 ->
  ringsched_next_proc l c = Ret ((c + d) mod n, a).
Proof.
  intros n Hc Hn Hd Hz Ha Hne. unfold ringsched_next_proc. rewrite u32_small by (unfold is_u32; lia).
  destruct (Z.lt_ge_cases (c + d) n) as [Hlt|Hge].
  - rewrite (Z.mod_small (c + d)) in * by lia. apply (ring_scan l a (Z.to_nat (d - 1))); try done; try lia.
    intros k Hk. specialize (Hz (k - c)). rewrite Z.mod_small in Hz by lia. replace (c + (k - c)) with k in Hz by lia. apply Hz. lia.
  - assert (Em : (c + d) mod n = c + d - n) by (symmetry; apply Z.mod_unique_pos with (q := 1); lia). rewrite Em in *.
    eapply ring_wrap; [reflexivity|lia|lia|lia| | |done|done|lia].
    + intros k Hk. specialize (Hz (k - c)). rewrite Z.mod_small in Hz by lia. replace (c + (k - c)) with k in Hz by lia. apply Hz. lia.
    + intros k Hk. specialize (Hz (k + n - c)). replace ((c + (k + n - c)) mod n) with k in Hz; [apply Hz; lia|].
      apply Z.mod_unique_pos with (q := 1); lia.
Qed.

(** Some process is ahead within a round. *)
Lemma ring_nearest l c : let n := Z.of_nat (length l) in 0 <= c < n ->
  forall k, (k <= length l)%nat -> (exists d, 1 <= d <= Z.of_nat k /\ exists a, l !! Z.to_nat ((c + d) mod n) = Some a /\ a <> 0 /\
    forall j, 1 <= j < d -> l !! Z.to_nat ((c + j) mod n) = Some 0) \/
  (forall j, 1 <= j <= Z.of_nat k -> l !! Z.to_nat ((c + j) mod n) = Some 0).
Proof.
  intros n Hc. induction k as [|k IH]; intros Hk; [right; lia|].
  destruct IH as [(d & Hd & a & Ha)|Hz]; [lia|left; exists d; split; [lia|by exists a]|].
  pose proof (Z.mod_pos_bound (c + Z.of_nat (S k)) n ltac:(lia)).
  destruct (lookup_lt_is_Some_2 l (Z.to_nat ((c + Z.of_nat (S k)) mod n))) as (a & Ha); [lia|].
  destruct (decide (a = 0)) as [->|Hne].
  - right. intros j Hj. destruct (decide (j = Z.of_nat (S k))) as [->|]; [done|apply Hz; lia].
  - left. exists (Z.of_nat (S k)). split; [lia|]. exists a. split; [done|]. split; [done|]. intros j Hj. apply Hz. lia.
Qed.

Lemma ring_distance n c i : 0 <= i < n -> exists d, 1 <= d <= n /\ (c + d) mod n = i.
Proof.
  intros Hi. exists ((i - c - 1) mod n + 1). pose proof (Z.mod_pos_bound (i - c - 1) n ltac:(lia)). split; [lia|].
  replace (c + ((i - c - 1) mod n + 1)) with ((i - c - 1) mod n + (c + 1)) by lia.
  rewrite Zplus_mod_idemp_l. replace (i - c - 1 + (c + 1)) with i by lia. by apply Z.mod_small.
Qed.

(** [k] turns of the scheduler. *)
Fixpoint turns (k : nat) l c : outcome Z :=
  match k with O => Ret c | S k => r ← ringsched_next_proc l c; turns k l r.1 end.

(** A process at distance [d] gets its turn within [d] turns. *)
Lemma ring_reaches l i a : let n := Z.of_nat (length l) in n < 2 ^ 30 -> l !! Z.to_nat i = Some a -> a <> 0 -> 0 <= i < n ->
  forall m c d, (Z.to_nat d <= m)%nat -> 0 <= c < n -> 1 <= d <= n -> (c + d) mod n = i ->
  exists k, (1 <= k <= m)%nat /\ turns k l c = Ret i.
Proof.
  intros n Hn Ha Hne Hi. induction m as [|m IH]; intros c d Hm Hc Hd Hid; [lia|].
  destruct (ring_nearest l c Hc (Z.to_nat d)) as [(e & He & b & Hb & Hbne & Hz)|Hz]; [lia| |].
  - pose proof (ring_next_spec l c e b Hc Hn ltac:(lia) Hz Hb Hbne) as Hnext. fold n in Hnext.
    destruct (decide (e = d)) as [->|Hed].
    + exists 1%nat. split; [lia|]. cbn [turns]. rewrite Hnext, bind_Ret. cbn. by rewrite Hid.
    + pose proof (Z.mod_pos_bound (c + e) n ltac:(lia)).
      destruct (IH ((c + e) mod n) (d - e)) as (k & Hk & Ht); [lia|lia|lia| |].
      * rewrite Zplus_mod_idemp_l. by replace (c + e + (d - e)) with (c + d) by lia.
      * exists (S k). split; [lia|]. cbn [turns]. rewrite Hnext, bind_Ret. cbn [fst]. exact Ht.
  - exfalso. specialize (Hz d ltac:(lia)). fold n in Hz. rewrite Hid in Hz. congruence.
Qed.
End ring.

(** C38: in any pool with at least one process, whatever slot the ring is at,
    choosing the next process terminates, and every process gets its turn
    within one turn per slot, so none starves. *)
Theorem ring_fair (l : list Z) c : let n := Z.of_nat (length l) in n < 2 ^ 30 -> 0 <= c < n ->
  (forall i a, l !! i = Some a -> a <> 0 ->
     exists k, (1 <= k <= length l)%nat /\ turns k l c = Ret (Z.of_nat i)) /\
  ((exists i a, l !! i = Some a /\ a <> 0) ->
     exists j a, ringsched_next_proc l c = Ret (j, a) /\ 0 <= j < n /\ l !! Z.to_nat j = Some a /\ a <> 0).
Proof.
  intros n Hn Hc. split.
  - intros i a Ha Hne. pose proof (lookup_lt_Some _ _ _ Ha).
    destruct (ring_distance n c (Z.of_nat i)) as (d & Hd & Hi); [lia|].
    apply (ring_reaches l (Z.of_nat i) a Hn) with (d := d); rewrite ?Nat2Z.id; try done; lia.
  - intros (i & a & Ha & Hne). pose proof (lookup_lt_Some _ _ _ Ha).
    destruct (ring_nearest l c Hc (length l)) as [(d & Hd & b & Hb & Hbne & Hz)|Hz]; [lia| |].
    + exists ((c + d) mod n), b. split; [by apply ring_next_spec|]. split; [apply Z.mod_pos_bound; lia|done].
    + exfalso. destruct (ring_distance n c (Z.of_nat i)) as (d & Hd & Hi); [lia|].
      specialize (Hz d Hd). fold n in Hz. rewrite Hi, Nat2Z.id in Hz. congruence.
Qed.

Lemma ring_fair_witness : exists k, (1 <= k <= 4)%nat /\ turns k [0xC0400000; 0; 0xC0400100; 0] 2 = Ret 0.
Proof.
  destruct (ring_fair [0xC0400000; 0; 0xC0400100; 0] 2) as [Hf _]; [cbn; lia|cbn; lia|].
  exact (Hf 0%nat 0xC0400000 eq_refl ltac:(lia)).
Defined.

(** ** Yielding *)

Section yield.
Context {H : Type} `{!Allocator H} `{!AlignedAllocator H} (koff : Z).
Implicit Types (s : pmstate H) (l : list Z).

Definition occupied l : Z := Z.of_nat (length (filter (fun a => a <> 0) l)).

(** Each slot holds the process of its pid, with a paging structure of its
    own; the counter counts them. *)
Record pool_wf s : Prop := {
  pl_size : 0 < g_proc_size s < 2 ^ 29;
  pl_entry : forall i a, s.(g_procs) !! i = Some a -> a <> 0 -> exists p ps, s.(procs) !! a = Some p /\ p.(pid) = Z.of_nat i + 1 /\
    p.(paging_struct) <> 0 /\ s.(pmem_).(pstructs) !! p.(paging_struct) = Some ps;
  pl_apart : forall i j a b p q, s.(g_procs) !! i = Some a -> s.(g_procs) !! j = Some b -> i <> j ->
    s.(procs) !! a = Some p -> s.(procs) !! b = Some q -> a <> 0 -> b <> 0 -> p.(paging_struct) <> q.(paging_struct);
  pl_count : s.(g_proc_count) = occupied s.(g_procs) }.

(** The ring is at a process, and nobody else runs. *)
Record sched_wf s : Prop := {
  sw_pool : pool_wf s;
  sw_active : s.(scheds) !! s.(g_active_sched) = Some g_ringsched;
  sw_idx : 0 <= s.(sched_idx) < g_proc_size s;
  sw_current : exists cur, s.(g_procs) !! Z.to_nat s.(sched_idx) = Some cur /\ cur <> 0;
  sw_states : forall i a p, s.(g_procs) !! i = Some a -> a <> 0 -> Z.of_nat i <> s.(sched_idx) -> s.(procs) !! a = Some p ->
    p.(state) <> PROC_RUNNING }.

Lemma pool_inj s i j a : pool_wf s -> s.(g_procs) !! i = Some a -> s.(g_procs) !! j = Some a -> a <> 0 -> i = j.
Proof.
  intros Hw Hi Hj Hne. destruct (pl_entry _ Hw _ _ Hi Hne) as (p & _ & Hp & Hpi & _).
  destruct (pl_entry _ Hw _ _ Hj Hne) as (q & _ & Hq & Hqj & _). assert (q = p) as -> by congruence. lia.
Qed.

Lemma occupied_insert0 l i a : l !! i = Some a -> a <> 0 -> occupied (<[i := 0]> l) = occupied l - 1.
Proof.
  intros Hi Hne. pose proof (lookup_lt_Some _ _ _ Hi). unfold occupied.
  rewrite insert_take_drop by done. rewrite <- (take_drop_middle l i a Hi) at 3.
  rewrite !filter_app, !length_app, filter_cons_False by (intros Hc; by apply Hc). rewrite filter_cons_True by done. cbn. lia.
Qed.
Lemma occupied_one l i a : l !! i = Some a -> a <> 0 -> (forall j b, l !! j = Some b -> j <> i -> b = 0) -> occupied l = 1.
Proof.
  intros Hi Hne Hz. unfold occupied. pose proof (lookup_lt_Some _ _ _ Hi). rewrite <- (take_drop_middle l i a Hi).
  assert (Hnil : forall k, (forall j b, k !! j = Some b -> b = 0) -> filter (fun a => a <> 0) k = []).
  { induction k as [|x k IH]; intros Hk; [done|]. rewrite filter_cons_False by (intros Hx; by apply Hx, (Hk 0%nat)).
    apply IH. intros j b Hj. by apply (Hk (S j)). }
  rewrite filter_app, filter_cons_True by done. rewrite !Hnil; [done| |].
  - intros j b Hj. rewrite lookup_drop in Hj. apply (Hz _ _ Hj). lia.
  - intros j b Hj. pose proof (lookup_lt_Some _ _ _ Hj) as Hl. rewrite length_take in Hl. rewrite lookup_take_lt in Hj by lia.
    apply (Hz _ _ Hj). lia.
Qed.

(** Only the structure of the process itself goes. *)
Lemma proc_free_pstructs p m m' q : proc_free koff p m = Ret (m', q) -> p.(paging_struct) <> 0 ->
  m'.(pstructs) = delete p.(paging_struct) m.(pstructs).
Proof.
  intros Hf Hne. unfold proc_free in Hf. bind_inv.
  assert (A1 : r.1.(pstructs) = m.(pstructs) /\ r.2.(paging_struct) = p.(paging_struct)).
  { unfold free_path in E. destruct (negb _); bind_inv; by subst. }
  assert (A2 : r0.1.(pstructs) = delete p.(paging_struct) m.(pstructs)).
  { unfold free_paging in E0. destruct A1 as [A1 A1']. rewrite A1', (proj2 (Z.eqb_neq _ 0)) in E0 by done. cbn [negb] in E0. bind_inv.
    subst. cbn. by rewrite A1. }
  assert (A3 : r1.1.(pstructs) = r0.1.(pstructs)).
  { unfold free_fds in E1. destruct (negb _); bind_inv; by subst. }
  unfold proc_destroy_kernel_stack in Hf. destruct (_ =? 0); bind_inv; simplify_eq; cbn; congruence.
Qed.

Lemma kill_spec s i a s' st : pool_wf s -> s.(g_procs) !! i = Some a -> a <> 0 -> procm_kill koff a s = Ret (s', st) ->
  pool_wf s' /\ s'.(g_procs) = <[i := 0]> s.(g_procs) /\ s'.(procs) = delete a s.(procs) /\ s'.(sched_idx) = s.(sched_idx) /\
  s'.(scheds) = s.(scheds) /\ s'.(g_active_sched) = s.(g_active_sched) /\ s'.(the_cpu) = s.(the_cpu).
Proof.
  intros Hw Hi Hne Hk. pose proof (pl_size _ Hw) as Hsz. pose proof (lookup_lt_Some _ _ _ Hi). unfold g_proc_size in *.
  destruct (pl_entry _ Hw _ _ Hi Hne) as (p & ps & Hp & Hpid & Hps & _). unfold procm_kill in Hk. rewrite Hp in Hk. cbn [deref] in Hk.
  rewrite bind_Ret, Hpid in Hk. replace (Z.of_nat i + 1 - 1) with (Z.of_nat i) in Hk by lia.
  rewrite u32_small, Nat2Z.id, Hi in Hk by (unfold is_u32; lia). cbn [deref] in Hk. rewrite bind_Ret in Hk. bind_inv.
  cbn [pmem_ set_pool] in *. destruct r as [m' q]. apply proc_free_pstructs in E; [|done]. simplify_eq.
  split; [|done]. pose proof (occupied_insert0 _ _ _ Hi Hne) as Hocc. pose proof (pl_count _ Hw) as Hcnt.
  assert (Hocc2 : occupied s.(g_procs) <= Z.of_nat (length s.(g_procs))).
  { unfold occupied. pose proof (length_filter (fun a => a <> 0) s.(g_procs)). lia. }
  assert (Hocc3 : 0 <= occupied (<[i := 0]> s.(g_procs))) by (unfold occupied; lia).
  assert (Hin : forall j b, <[i := 0]> s.(g_procs) !! j = Some b -> b <> 0 -> j <> i /\ s.(g_procs) !! j = Some b /\ b <> a).
  { intros j b Hj Hb. destruct (decide (j = i)) as [->|Hji]; [rewrite list_lookup_insert_eq in Hj by lia; congruence|].
    rewrite list_lookup_insert_ne in Hj by done. split; [done|]. split; [done|]. intros ->. by apply Hji, (pool_inj s j i a). }
  split; cbn [g_procs g_proc_count procs pmem_ pstructs set_pheap set_mm set_procs set_mem set_pool].
  - unfold g_proc_size. cbn. by rewrite length_insert.
  - intros j b Hj Hb. destruct (Hin j b Hj Hb) as (Hji & Hj' & Hba).
    destruct (pl_entry _ Hw _ _ Hj' Hb) as (p' & ps' & Hp' & Hpid' & Hps0 & Hps'). exists p', ps'.
    rewrite lookup_delete_ne by done. do 3 (split; [done|]). cbn. rewrite E, lookup_delete_ne; [done|].
    apply not_eq_sym. by apply (pl_apart _ Hw j i b a p' p).
  - intros j k b c p' q' Hj Hk Hjk Hp' Hq' Hb Hc. destruct (Hin j b Hj Hb) as (_ & Hj' & Hba). destruct (Hin k c Hk Hc) as (_ & Hk' & Hca).
    rewrite lookup_delete_ne in Hp', Hq' by done. by apply (pl_apart _ Hw j k b c).
  - rewrite Hcnt, u32_small by (unfold is_u32; lia). lia.
Qed.

(** ** The reference: who is reaped, who runs *)

(** The slots ahead of the ring, the current one last. *)
Definition ring_order s : list Z := (fun d => (s.(sched_idx) + d) mod g_proc_size s) <$> seqZ 1 (g_proc_size s).
(** Going through the slots: the zombies met, and the first process that is
    not one; none when the current process is a zombie met last. *)
Fixpoint pick (current : Z) s (order : list Z) : list Z * option (Z * Z) :=
  match order with
  | [] => ([], None)
  | i :: order =>
      match s.(g_procs) !! Z.to_nat i with
      | Some a =>
          if a =? 0 then pick current s order
          else match s.(procs) !! a with
               | Some p => if p.(zombie) then if current =? a then ([], None)
                             else (a :: (pick current s order).1, (pick current s order).2)
                           else ([], Some (i, a))
               | None => ([], None)
               end
      | None => ([], None)
      end
  end.
Fixpoint reap (zs : list Z) s : outcome (pmstate H) :=
  match zs with
  | [] => Ret s
  | a :: zs => r ← procm_kill koff a s; reap zs r.1
  end.

Lemma kill_idx a s i : procm_kill koff a (set_idx s i) = (r ← procm_kill koff a s; Ret (set_idx r.1 i, r.2)).
Proof.
  unfold procm_kill. cbn [procs g_procs set_idx g_procs_ptr g_proc_count pmem_ set_pool].
  destruct (s.(procs) !! a) as [p|]; [|done]. cbn [deref]. rewrite !bind_Ret. destruct (s.(g_procs) !! _) as [b|]; [|done]. cbn [deref].
  rewrite !bind_Ret. destruct (proc_free koff p s.(pmem_)) as [r| |]; [|done..]. rewrite !bind_Ret.
  by destruct (kfree_ a (pm_heap r.1)).
Qed.
Lemma reap_idx zs i : forall s, reap zs (set_idx s i) = (s' ← reap zs s; Ret (set_idx s' i)).
Proof.
  induction zs as [|a zs IH]; intros s; cbn [reap]; [done|]. rewrite kill_idx.
  destruct (procm_kill koff a s) as [r| |]; [|done..]. rewrite !bind_Ret. cbn [fst]. apply IH.
Qed.

Lemma pick_ext current s s' order :
  (forall i, i ∈ order -> s'.(g_procs) !! Z.to_nat i = s.(g_procs) !! Z.to_nat i) ->
  (forall i a, i ∈ order -> s.(g_procs) !! Z.to_nat i = Some a -> a <> 0 -> s'.(procs) !! a = s.(procs) !! a) ->
  pick current s' order = pick current s order.
Proof.
  induction order as [|i order IH]; intros Hg Hp; cbn [pick]; [done|]. rewrite Hg by by left.
  destruct (s.(g_procs) !! Z.to_nat i) as [a|] eqn:E; [|done].
  assert (Hgo : pick current s' order = pick current s order).
  { apply IH; [intros; apply Hg; by right|intros j b Hj; apply Hp; by right]. }
  destruct (Z.eqb_spec a 0); [done|]. rewrite (Hp i a) by (done || by left). by rewrite Hgo.
Qed.

(** The loop is the reference: [e] slots behind, all of them empty by now. *)
Lemma yield_loop_spec cur c n : 0 <= c < n -> n < 2 ^ 29 ->
  forall m e e0 s fuel, e + Z.of_nat m = n -> 0 <= e0 <= e -> e0 < n -> pool_wf s -> g_proc_size s = n ->
  s.(scheds) !! s.(g_active_sched) = Some g_ringsched ->
  s.(sched_idx) = (c + e0) mod n -> s.(g_procs) !! Z.to_nat c = Some cur -> cur <> 0 -> (exists p, s.(procs) !! cur = Some p) ->
  (forall k, 1 <= k <= e -> k < n -> s.(g_procs) !! Z.to_nat ((c + k) mod n) = Some 0) -> (0 < m)%nat -> (m < fuel)%nat ->
  let r := pick cur s ((fun d => (c + d) mod n) <$> seqZ (e + 1) (n - e)) in
  yield_loop koff fuel cur s = (s' ← reap r.1 s; match r.2 with Some (i, a) => Ret (set_idx s' i, a) | None => Panic end).
Proof.
  intros Hc Hn. induction m as [|m IH]; intros e e0 s fuel He He0 He0n Hw Hsz Hact Hidx Hcur Hcne Hcp Hz Hm Hf r; [lia|].
  subst r. rewrite seqZ_cons by lia. cbn [fmap list_fmap pick].
  replace (Z.succ (e + 1)) with (e + 1 + 1) by lia. replace (Z.pred (n - e)) with (n - (e + 1)) by lia.
  pose proof (Z.mod_pos_bound (c + (e + 1)) n ltac:(lia)) as Hib. set (i := (c + (e + 1)) mod n) in *.
  unfold g_proc_size in Hsz. destruct (lookup_lt_is_Some_2 s.(g_procs) (Z.to_nat i)) as (a & Ha); [lia|]. rewrite Ha.
  destruct (Z.eqb_spec a 0) as [->|Hane].
  { (* an empty slot *)
    destruct (decide (m = 0%nat)) as [->|Hm0].
    - exfalso. assert (i = c) as E. { unfold i. replace (c + (e + 1)) with (c + 1 * n) by lia. rewrite Z.mod_add by lia. apply Z.mod_small. lia. }
      rewrite E in Ha. congruence.
    - apply (IH (e + 1) e0); try done; try lia. intros k Hk Hkn. destruct (decide (k = e + 1)) as [->|]; [done|apply Hz; lia]. }
  destruct (pl_entry _ Hw _ _ Ha Hane) as (p & ps & Hp & Hpid & Hps & Hpst). rewrite Hp.
  destruct fuel as [|fuel]; [lia|]. cbn [yield_loop]. unfold active_sched. rewrite Hact. cbn [deref]. rewrite bind_Ret. cbn [next_proc g_ringsched].
  pose proof (Z.mod_pos_bound (c + e0) n ltac:(lia)) as Hcb.
  assert (Hnext : ringsched_next_proc s.(g_procs) s.(sched_idx) = Ret (i, a)).
  { replace i with ((s.(sched_idx) + (e + 1 - e0)) mod Z.of_nat (length s.(g_procs))).
    2: { rewrite Hsz, Hidx, Zplus_mod_idemp_l. unfold i. f_equal. lia. }
    apply ring_next_spec; rewrite ?Hsz, ?Hidx; try lia; try done.
    - intros k Hk. rewrite Zplus_mod_idemp_l. replace (c + e0 + k) with (c + (e0 + k)) by lia. apply Hz; lia.
    - rewrite Zplus_mod_idemp_l. by replace (c + e0 + (e + 1 - e0)) with (c + (e + 1)) by lia. }
  rewrite Hnext, bind_Ret. cbn [fst snd procs set_idx]. rewrite Hp. cbn [deref]. rewrite bind_Ret.
  destruct (zombie p) eqn:Ez; [|cbn [fst snd reap]; by rewrite bind_Ret].
  unfold procm_try_kill_proc. cbn [g_proc_count set_idx]. destruct (Z.eqb_spec cur a) as [<-|Hca].
  - (* the current process is the last one *)
    cbn [fst snd reap]. rewrite bind_Ret. assert (Eic : Z.to_nat i = Z.to_nat c) by by apply (pool_inj s _ _ cur).
    rewrite (pl_count _ Hw), (occupied_one _ (Z.to_nat c) cur Hcur Hcne); [done|].
    intros j b Hj Hjc. pose proof (lookup_lt_Some _ _ _ Hj) as Hjl.
    destruct (ring_distance n c (Z.of_nat j)) as (d & Hd & Hdj); [lia|].
    destruct (decide (d <= e)) as [Hde|Hde].
    + specialize (Hz d ltac:(lia)). rewrite Hdj, Nat2Z.id, Hj in Hz. by injection Hz as ->; lia.
    + exfalso. apply Hjc. assert (i = c) as Eic' by lia. assert (e + 1 = n) as En.
      { unfold i in Eic'. destruct (Z.lt_ge_cases (c + (e + 1)) n).
        - rewrite Z.mod_small in Eic' by lia. lia.
        - assert ((c + (e + 1)) mod n = c + (e + 1) - n) by (symmetry; apply Z.mod_unique_pos with (q := 1); lia). lia. }
      assert (d = n) as -> by lia. replace (c + n) with (c + 1 * n) in Hdj by lia. rewrite Z.mod_add, Z.mod_small in Hdj by lia. lia.
  - cbn [fst snd reap]. rewrite kill_idx. destruct (procm_kill koff a s) as [[s1 st]| |] eqn:Ek; [|done..]. rewrite !bind_Ret. cbn [fst snd].
    destruct (kill_spec _ _ _ _ _ Hw Ha Hane Ek) as (Hw1 & Hg1 & Hp1 & Hi1 & Hs1 & Ha1 & _).
    assert (Hic : Z.to_nat i <> Z.to_nat c) by (intros E; rewrite E in Ha; congruence).
    assert (Hm0 : m <> 0%nat).
    { intros ->. apply Hic. f_equal. unfold i. replace (c + (e + 1)) with (c + 1 * n) by lia. rewrite Z.mod_add by lia. apply Z.mod_small. lia. }
    assert (Hpick : pick cur s1 ((fun d => (c + d) mod n) <$> seqZ (e + 1 + 1) (n - (e + 1))) =
                    pick cur s ((fun d => (c + d) mod n) <$> seqZ (e + 1 + 1) (n - (e + 1)))).
    { assert (Hni : forall j, j ∈ (fun d => (c + d) mod n) <$> seqZ (e + 1 + 1) (n - (e + 1)) -> Z.to_nat j <> Z.to_nat i).
      { intros j (d & -> & Hd%elem_of_seqZ)%list_elem_of_fmap E. unfold i in E.
        pose proof (Z.mod_pos_bound (c + d) n ltac:(lia)). pose proof (Z.mod_pos_bound (c + (e + 1)) n ltac:(lia)).
        apply Z2Nat.inj in E; [|lia..]. pose proof (Z.div_mod (c + d) n ltac:(lia)). pose proof (Z.div_mod (c + (e + 1)) n ltac:(lia)).
        assert (d - (e + 1) = n * ((c + d) / n - (c + (e + 1)) / n)) by lia.
        assert (0 < (c + d) / n - (c + (e + 1)) / n < 1) by nia. lia. }
      apply pick_ext; [intros j Hj; rewrite Hg1; apply list_lookup_insert_ne, not_eq_sym; by apply Hni|].
      intros j b Hj Hb Hbne. rewrite Hp1. apply lookup_delete_ne. intros <-. by apply (Hni j Hj), (pool_inj s _ _ a). }
    rewrite <- Hpick. rewrite (IH (e + 1) (e + 1) (set_idx s1 i)); try done; try lia.
    + rewrite (pick_ext cur s1 (set_idx s1 i)) by done. rewrite reap_idx.
      destruct (reap _ s1) as [s2| |]; [|done..]. rewrite !bind_Ret. by destruct (pick cur s1 _).2 as [[? ?]|].
    + by destruct Hw1.
    + unfold g_proc_size. cbn. rewrite Hg1. by rewrite length_insert.
    + cbn. by rewrite Hs1, Ha1.
    + cbn. rewrite Hg1. by rewrite list_lookup_insert_ne.
    + cbn. rewrite Hp1. destruct Hcp as (pc & Hpc). exists pc. by rewrite lookup_delete_ne.
    + cbn. rewrite Hg1. intros k Hk Hkn. destruct (decide (k = e + 1)) as [->|Hke].
      * fold i. apply list_lookup_insert_eq. lia.
      * destruct (decide (Z.to_nat ((c + k) mod n) = Z.to_nat i)) as [->|]; [apply list_lookup_insert_eq; lia|].
        rewrite list_lookup_insert_ne by done. apply Hz; lia.
Qed.

(** ** What yielding does *)

Definition slot s (i : Z) : option Z := s.(g_procs) !! Z.to_nat i.
(** The processes in some slots. *)
Definition entries s (order : list Z) : list Z := filter (fun a => a <> 0) (omap (slot s) order).
Definition is_zombie s (a : Z) : Prop := exists p, s.(procs) !! a = Some p /\ p.(zombie) = true.

Lemma pick_sound cur s order : pool_wf s -> Forall (fun i => 0 <= i < g_proc_size s) order ->
  match pick cur s order with
  | (zs, Some (i, a)) => exists pre post p, order = pre ++ i :: post /\ zs = entries s pre /\ Forall (is_zombie s) zs /\
      slot s i = Some a /\ a <> 0 /\ s.(procs) !! a = Some p /\ p.(zombie) = false
  | (zs, None) => (exists pre i post, order = pre ++ i :: post /\ zs = entries s pre /\ Forall (is_zombie s) zs /\
      slot s i = Some cur /\ cur <> 0 /\ is_zombie s cur) \/ (forall i, i ∈ order -> slot s i <> Some cur \/ cur = 0)
  end.
Proof.
  intros Hw. induction order as [|i order IH]; intros Hr; cbn [pick]; [right; by intros i ?%elem_of_nil|].
  apply Forall_cons in Hr as [Hi Hr]. specialize (IH Hr). unfold g_proc_size in Hi.
  destruct (lookup_lt_is_Some_2 s.(g_procs) (Z.to_nat i)) as (a & Ha); [lia|]. rewrite Ha.
  destruct (Z.eqb_spec a 0) as [->|Hne].
  { assert (He : forall pre, entries s (i :: pre) = entries s pre).
    { intros pre. unfold entries. cbn. unfold slot at 1. rewrite Ha. rewrite filter_cons_False; [done|]. intros Hc. by apply Hc. }
    destruct (pick cur s order) as [zs [[j b]|]].
    - destruct IH as (pre & post & p & -> & -> & Hz & Hj & Hb & Hp). exists (i :: pre), post, p. rewrite He. done.
    - destruct IH as [(pre & j & post & -> & -> & Hz & Hj & Hb)|Hno].
      + left. exists (i :: pre), j, post. rewrite He. done.
      + right. intros j [->|Hj]%elem_of_cons; [|by apply Hno]. unfold slot. rewrite Ha.
        destruct (decide (cur = 0)); [by right|left; congruence]. }
  destruct (pl_entry _ Hw _ _ Ha Hne) as (p & ps & Hp & _). rewrite Hp.
  destruct (zombie p) eqn:Ez.
  2: { exists [], order, p. split; [done|]. split; [done|]. split; [by constructor|]. done. }
  destruct (Z.eqb_spec cur a) as [->|Hca].
  { left. exists [], i, order. split; [done|]. split; [done|]. split; [by constructor|]. split; [done|]. split; [done|]. by exists p. }
  assert (He : forall pre, entries s (i :: pre) = a :: entries s pre).
  { intros pre. unfold entries. cbn. unfold slot at 1. rewrite Ha. by rewrite filter_cons_True. }
  assert (Hza : is_zombie s a) by by exists p.
  destruct (pick cur s order) as [zs [[j b]|]]; cbn [fst snd].
  - destruct IH as (pre & post & q & -> & -> & Hz & Hj). exists (i :: pre), post, q. rewrite He. split; [done|]. split; [done|].
    split; [by constructor|done].
  - destruct IH as [(pre & j & post & -> & -> & Hz & Hj)|Hno].
    + left. exists (i :: pre), j, post. rewrite He. split; [done|]. split; [done|]. split; [by constructor|done].
    + right. intros j [->|Hj]%elem_of_cons; [|by apply Hno]. unfold slot. rewrite Ha. left. congruence.
Qed.

Lemma ring_order_nodup s : 0 < g_proc_size s -> NoDup (ring_order s).
Proof.
  intros Hn. apply NoDup_fmap_2_strong; [|apply NoDup_seqZ].
  intros d d' Hd%elem_of_seqZ Hd'%elem_of_seqZ E. cbv beta in E. set (n := g_proc_size s) in *. set (c := sched_idx s) in *.
  pose proof (Z.div_mod (c + d) n ltac:(lia)). pose proof (Z.div_mod (c + d') n ltac:(lia)).
  destruct (Z.lt_trichotomy ((c + d) / n) ((c + d') / n)) as [Hlt|[Heq|Hlt]]; [nia|rewrite Heq in *; lia|nia].
Qed.

Lemma ring_order_range s : 0 < g_proc_size s -> Forall (fun i => 0 <= i < g_proc_size s) (ring_order s).
Proof. intros Hn. apply Forall_fmap, Forall_forall. intros d _. apply Z.mod_pos_bound. lia. Qed.

Lemma entries_nodup s order : pool_wf s -> NoDup order -> Forall (fun i => 0 <= i < g_proc_size s) order ->
  NoDup (entries s order) /\ (forall a, a ∈ entries s order -> a <> 0 /\ exists i, i ∈ order /\ slot s i = Some a).
Proof.
  intros Hw. induction order as [|i order IH]; intros Hnd Hr; [split; [constructor|intros a []%elem_of_nil]|].
  apply NoDup_cons in Hnd as [Hi Hnd]. apply Forall_cons in Hr as [Hri Hr]. destruct (IH Hnd Hr) as [IH1 IH2].
  unfold entries. cbn. destruct (slot s i) as [a|] eqn:Ea; [|split; [done|]].
  - destruct (decide (a = 0)) as [->|Hne].
    + rewrite filter_cons_False by (intros Hc; by apply Hc). split; [done|]. intros b Hb. destruct (IH2 b Hb) as (? & j & Hj & ?).
      split; [done|]. exists j. split; [by right|done].
    + rewrite filter_cons_True by done. split.
      * apply NoDup_cons. split; [|done]. intros Hin. destruct (IH2 a Hin) as (_ & j & Hj & Ej).
        unfold slot in *. assert (Z.to_nat i = Z.to_nat j) by by apply (pool_inj s _ _ a).
        rewrite Forall_forall in Hr. specialize (Hr _ Hj). apply Hi. replace i with j by lia. done.
      * intros b [->|Hb]%elem_of_cons; [split; [done|exists i; split; [by left|done]]|].
        destruct (IH2 b Hb) as (? & j & Hj & ?). split; [done|]. exists j. split; [by right|done].
  - intros b Hb. destruct (IH2 b Hb) as (? & j & Hj & ?). split; [done|]. exists j. split; [by right|done].
Qed.

Lemma reap_spec zs : forall s s2, pool_wf s -> NoDup zs -> (forall a, a ∈ zs -> a <> 0 /\ exists i, s.(g_procs) !! i = Some a) ->
  reap zs s = Ret s2 ->
  pool_wf s2 /\ (forall i a, s.(g_procs) !! i = Some a -> a ∉ zs -> s2.(g_procs) !! i = Some a) /\
  (forall i a, s2.(g_procs) !! i = Some a -> a <> 0 -> s.(g_procs) !! i = Some a /\ a ∉ zs) /\
  (forall a, a ∉ zs -> s2.(procs) !! a = s.(procs) !! a) /\ g_proc_size s2 = g_proc_size s /\
  s2.(sched_idx) = s.(sched_idx) /\ s2.(scheds) = s.(scheds) /\ s2.(g_active_sched) = s.(g_active_sched) /\ s2.(the_cpu) = s.(the_cpu).
Proof.
  induction zs as [|a zs IH]; intros s s2 Hw Hnd Hz Hr; cbn [reap] in Hr.
  { injection Hr as <-. split; [done|]. split; [done|]. split; [|done]. intros. split; [done|]. apply not_elem_of_nil. }
  apply NoDup_cons in Hnd as [Ha Hnd]. destruct (Hz a) as (Hne & i & Hi); [by left|].
  destruct (procm_kill koff a s) as [[s1 st]| |] eqn:Ek; [|done..]. rewrite bind_Ret in Hr. cbn [fst] in Hr.
  destruct (kill_spec _ _ _ _ _ Hw Hi Hne Ek) as (Hw1 & Hg1 & Hp1 & Hi1 & Hs1 & Ha1 & Hc1).
  pose proof (lookup_lt_Some _ _ _ Hi).
  destruct (IH s1 s2 Hw1 Hnd) as (Hw2 & F1 & F2 & F3 & F4 & F5 & F6 & F7 & F8); [|done|].
  { intros b Hb. destruct (Hz b) as (Hb0 & j & Hj); [by right|]. split; [done|]. exists j. rewrite Hg1, list_lookup_insert_ne; [done|].
    intros ->. congruence. }
  split; [done|]. split; [|split; [|split; [|split; [unfold g_proc_size in *; rewrite F4, Hg1; by rewrite length_insert|by rewrite F5, F6, F7, F8]]]].
  - intros j b Hj Hb. rewrite not_elem_of_cons in Hb. destruct Hb as [Hba Hb]. apply F1; [|done]. rewrite Hg1, list_lookup_insert_ne; [done|].
    intros ->. congruence.
  - intros j b Hj Hb. destruct (F2 j b Hj Hb) as [Hj1 Hbz]. rewrite Hg1 in Hj1. destruct (decide (i = j)) as [<-|Hij].
    + rewrite list_lookup_insert_eq in Hj1 by done. congruence.
    + rewrite list_lookup_insert_ne in Hj1 by done. split; [done|]. apply not_elem_of_cons. split; [|done].
      intros ->. by apply Hij, (pool_inj s i j a).
  - intros b Hb. apply not_elem_of_cons in Hb as [Hba Hb]. rewrite F3, Hp1 by done. by apply lookup_delete_ne.
Qed.

Definition yielded (cur : Z) s : pmstate H :=
  match s.(procs) !! cur with Some p => set_procs s (<[cur := set_state p PROC_YIELDED]> s.(procs)) | None => s end.

Lemma yielded_wf cur s p : pool_wf s -> s.(procs) !! cur = Some p -> pool_wf (yielded cur s) /\
  (forall a, is_zombie (yielded cur s) a <-> is_zombie s a) /\
  (forall a q, (yielded cur s).(procs) !! a = Some q -> exists q', s.(procs) !! a = Some q' /\ q = if decide (a = cur) then set_state q' PROC_YIELDED else q').
Proof.
  intros Hw Hp. unfold yielded. rewrite Hp.
  assert (Hl : forall a q, <[cur := set_state p PROC_YIELDED]> s.(procs) !! a = Some q ->
    exists q', s.(procs) !! a = Some q' /\ q = if decide (a = cur) then set_state q' PROC_YIELDED else q').
  { intros a q [[<- <-]|[Hne Ha]]%lookup_insert_Some; [exists p; by rewrite decide_True|exists q; by rewrite decide_False]. }
  assert (Hl2 : forall a q', s.(procs) !! a = Some q' ->
    <[cur := set_state p PROC_YIELDED]> s.(procs) !! a = Some (if decide (a = cur) then set_state q' PROC_YIELDED else q')).
  { intros a q' Ha. destruct (decide (a = cur)) as [->|Hne]; [rewrite lookup_insert_eq; congruence|by rewrite lookup_insert_ne]. }
  split; [|split; [|exact Hl]].
  - split.
    + apply Hw.
    + intros i a Hi Ha. destruct (pl_entry _ Hw _ _ Hi Ha) as (q & ps & Hq & H1 & H2 & H3). cbn in *.
      eexists _, ps. split; [by apply Hl2|]. by destruct (decide _).
    + intros i j a b q q' Hi Hj Hij (x & Hx & ->)%Hl (y & Hy & ->)%Hl Ha Hb.
      pose proof (pl_apart _ Hw i j a b x y Hi Hj Hij Hx Hy Ha Hb). by destruct (decide _), (decide _).
    + apply Hw.
  - intros a. unfold is_zombie. cbn. split.
    + intros (q & (x & Hx & ->)%Hl & Hz). exists x. split; [done|]. by destruct (decide _).
    + intros (q & Hq & Hz). eexists. split; [by apply Hl2|]. by destruct (decide _).
Qed.

Lemma yield_unfold s cur p : sched_wf s -> slot s s.(sched_idx) = Some cur -> s.(procs) !! cur = Some p -> cur <> 0 ->
  procm_sched_yield koff s =
    (s' ← reap (pick cur (yielded cur s) (ring_order s)).1 (yielded cur s);
     match (pick cur (yielded cur s) (ring_order s)).2 with
     | Some (i, a) => r ← proc_switch koff a s'.(procs) s'.(pmem_) s'.(the_cpu); Ret (set_cpu (set_idx s' i) r.1 r.2)
     | None => Panic
     end).
Proof.
  intros [Hw Hact Hidx _ _] Hcur Hp Hne. destruct (yielded_wf cur s p Hw Hp) as (Hw1 & _).
  unfold procm_sched_yield, procm_sched_current_proc, active_sched. rewrite Hact. cbn [deref]. rewrite bind_Ret.
  cbn [current_proc g_ringsched]. unfold ringsched_current_proc. unfold slot in Hcur. rewrite Hcur. cbn [deref]. rewrite bind_Ret, Hp. cbn [deref].
  rewrite bind_Ret. cbv zeta. unfold yielded in *. rewrite Hp in *. set (s1 := set_procs s _) in *.
  pose proof (pl_size _ Hw) as Hsz. unfold g_proc_size in *.
  pose proof (yield_loop_spec cur s.(sched_idx) (g_proc_size s) Hidx ltac:(apply Hsz) (length s.(g_procs)) 0 0 s1 (S (length s.(g_procs)))) as Hloop.
  cbv zeta in Hloop. rewrite Z.add_0_l, Z.sub_0_r in Hloop. change ((fun d => _) <$> seqZ 1 (g_proc_size s)) with (ring_order s) in Hloop.
  change (g_procs s1) with (g_procs s). rewrite Hloop; clear Hloop; try done; try lia.
  - destruct (reap _ s1) as [s2| |]; [|done..]. rewrite !bind_Ret. destruct (pick cur s1 _).2 as [[i a]|]; [|done].
    rewrite bind_Ret. cbn. done.
  - apply Hw.
  - rewrite Z.add_0_r, Z.mod_small by (unfold g_proc_size; lia). done.
  - exists (set_state p PROC_YIELDED). cbn. by rewrite lookup_insert_eq.
Qed.

(** Changing only what the pool does not look at. *)
Lemma pool_wf_ext s s' : pool_wf s -> s'.(g_procs) = s.(g_procs) -> s'.(g_proc_count) = s.(g_proc_count) ->
  s'.(pmem_).(pstructs) = s.(pmem_).(pstructs) ->
  (forall a q', s'.(procs) !! a = Some q' -> exists q, s.(procs) !! a = Some q /\ q'.(pid) = q.(pid) /\ q'.(paging_struct) = q.(paging_struct)) ->
  (forall a, is_Some (s.(procs) !! a) -> is_Some (s'.(procs) !! a)) -> pool_wf s'.
Proof.
  intros Hw Eg Ec Em Hb Hf. split.
  - unfold g_proc_size. rewrite Eg. apply Hw.
  - intros i a Hi Ha. rewrite Eg in Hi. destruct (pl_entry _ Hw _ _ Hi Ha) as (q & ps & Hq & H1 & H2 & H3).
    destruct (Hf a) as (q' & Hq'); [by exists q|]. destruct (Hb _ _ Hq') as (q2 & Hq2 & E1 & E2). assert (q2 = q) as -> by congruence.
    exists q', ps. rewrite Em, E1, E2. done.
  - intros i j a b p q Hi Hj Hij Hp Hq Ha Hb'. rewrite Eg in Hi, Hj.
    destruct (Hb _ _ Hp) as (p2 & Hp2 & _ & ->), (Hb _ _ Hq) as (q2 & Hq2 & _ & ->). by apply (pl_apart _ Hw i j a b p2 q2).
  - rewrite Ec, Eg. apply Hw.
Qed.

(** [proc_switch] to the process in slot [i], which becomes the ring's. *)
Definition switch_to (i a : Z) s : outcome (pmstate H) :=
  r ← proc_switch koff a s.(procs) s.(pmem_) s.(the_cpu); Ret (set_cpu (set_idx s i) r.1 r.2).

Lemma switch_spec s i a q : pool_wf s -> s.(scheds) !! s.(g_active_sched) = Some g_ringsched -> 0 <= i < g_proc_size s ->
  slot s i = Some a -> a <> 0 -> s.(procs) !! a = Some q ->
  (forall j b x, s.(g_procs) !! j = Some b -> b <> 0 -> s.(procs) !! b = Some x -> x.(state) <> PROC_RUNNING) ->
  exists s' ps, switch_to i a s = Ret s' /\ s.(pmem_).(pstructs) !! q.(paging_struct) = Some ps /\ sched_wf s' /\
    s'.(the_cpu) = mkCPU (mm_kva2pa koff ps.(data)) q.(kstack_top) a /\ s'.(sched_idx) = i /\ s'.(g_procs) = s.(g_procs).
Proof.
  intros Hw Hact Hi Ha Hne Hq Hrun. destruct (pl_entry _ Hw _ _ Ha Hne) as (q' & ps & Hq' & _ & _ & Hps).
  assert (q' = q) as -> by congruence. pose proof (Hrun _ _ _ Ha Hne Hq) as Hst.
  assert (Hcpu : mm_load_paging_struct_arch koff ps s.(the_cpu) =
    mkCPU (mm_kva2pa koff ps.(data)) s.(the_cpu).(esp0) s.(the_cpu).(running)).
  { unfold mm_load_paging_struct_arch. destruct (Z.eqb_spec (mm_kva2pa koff ps.(data)) s.(the_cpu).(cr3)) as [->|]; [by destruct (the_cpu s)|done]. }
  assert (Hwf : forall t, (forall b, b <> a -> t !! b = s.(procs) !! b) ->
    (exists z, t !! a = Some (set_state q z)) ->
    sched_wf (set_cpu (set_idx s i) t (mkCPU (mm_kva2pa koff ps.(data)) q.(kstack_top) a))).
  { intros t Hb (z & Ht). split; cbn.
    - apply (pool_wf_ext s); try done; cbn.
      + intros b x Hx. destruct (decide (b = a)) as [->|Hba]; [exists q; rewrite Ht in Hx; injection Hx as <-; done|].
        rewrite Hb in Hx by done. by exists x.
      + intros b. destruct (decide (b = a)) as [->|Hba]; [by rewrite Ht|by rewrite Hb].
    - done.
    - done.
    - by exists a.
    - intros j b x Hj Hb0 Hji Hx. rewrite Hb in Hx; [by eapply Hrun|]. intros ->.
      assert (j = Z.to_nat i) by by apply (pool_inj s _ _ a). lia. }
  unfold switch_to, proc_switch, proc_enter_initial. rewrite Hq. cbn [deref]. rewrite bind_Ret, (proj2 (Z.eqb_neq _ _) Hst). cbn [negb assert_].
  rewrite bind_Ret. destruct (Z.eqb_spec q.(state) PROC_NEVER_RAN) as [E|E].
  - rewrite bind_Ret, Hps. cbn [deref]. rewrite !bind_Ret, Hcpu. cbn. eexists _, ps. split; [reflexivity|]. split; [done|].
    split; [|done]. apply Hwf; [intros b Hb; by apply lookup_insert_ne, not_eq_sym|]. exists PROC_RUNNING. apply lookup_insert_eq.
  - rewrite Hps. cbn [deref]. rewrite !bind_Ret, Hcpu. cbn. eexists _, ps. split; [reflexivity|]. split; [done|].
    split; [|done]. apply Hwf; [done|]. exists q.(state). rewrite Hq. by destruct q.
Qed.
End yield.

(** C4: yielding goes once around the ring and ends: every zombie between the
    current process and the first one that is not a zombie is reaped, in ring
    order, and that process - possibly the current one again - gets the
    processor, with its own tables and kernel stack loaded; it was not
    running, so the assertion of [proc_switch] holds, and afterwards nobody
    else is.  When every process is a zombie all others are reaped and the
    kernel stops. *)
Theorem yield_correct koff (s : pmstate kstate) cur p :
  sched_wf s -> slot s s.(sched_idx) = Some cur -> s.(procs) !! cur = Some p ->
  (exists pre i post a q, ring_order s = pre ++ i :: post /\ slot s i = Some a /\ a <> 0 /\
     (yielded cur s).(procs) !! a = Some q /\ q.(zombie) = false /\ Forall (is_zombie s) (entries s pre) /\
     procm_sched_yield koff s = (s2 ← reap koff (entries s pre) (yielded cur s); switch_to koff i a s2) /\
     forall s2, reap koff (entries s pre) (yielded cur s) = Ret s2 ->
       exists s3 ps, switch_to koff i a s2 = Ret s3 /\ s2.(pmem_).(pstructs) !! q.(paging_struct) = Some ps /\ sched_wf s3 /\
         s3.(the_cpu) = mkCPU (mm_kva2pa koff ps.(data)) q.(kstack_top) a /\ s3.(sched_idx) = i /\ s3.(g_procs) = s2.(g_procs)) \/
  (exists pre post, ring_order s = pre ++ s.(sched_idx) :: post /\ Forall (is_zombie s) (cur :: entries s pre) /\
     procm_sched_yield koff s = (_ ← reap koff (entries s pre) (yielded cur s); Panic)).
Proof.
  intros Hs Hcur Hp. pose proof Hs as [Hw Hact Hidx (cur' & Hcur' & Hne) Hrun].
  assert (cur' = cur) as -> by (unfold slot in Hcur; congruence).
  destruct (yielded_wf cur s p Hw Hp) as (Hw1 & Hz1 & Hp1). pose proof (pl_size _ Hw) as Hsz.
  pose proof (ring_order_range s ltac:(lia)) as Hrange. pose proof (ring_order_nodup s ltac:(lia)) as Hnd.
  rewrite (yield_unfold koff s cur p Hs Hcur Hp Hne).
  assert (Eg : (yielded cur s).(g_procs) = s.(g_procs)) by (unfold yielded; by rewrite Hp).
  assert (Ee : forall l, entries (yielded cur s) l = entries s l).
  { intros l. unfold entries. f_equal. apply list_omap_ext, Forall2_same_length_lookup_2; [done|]. intros i x y Hx Hy.
    assert (x = y) as -> by congruence. unfold slot. by rewrite Eg. }
  assert (Hfz : forall l, Forall (is_zombie (yielded cur s)) l -> Forall (is_zombie s) l).
  { intros l Hl. eapply Forall_impl; [exact Hl|]. intros b. apply Hz1. }
  assert (Ho : ring_order (yielded cur s) = ring_order s) by (unfold yielded; by rewrite Hp).
  pose proof (pick_sound cur (yielded cur s) (ring_order s) Hw1) as Hpick.
  assert (Hr1 : Forall (fun i => 0 <= i < g_proc_size (yielded cur s)) (ring_order s)) by (unfold yielded; by rewrite Hp).
  specialize (Hpick Hr1). destruct (pick cur (yielded cur s) (ring_order s)) as [zs [[i a]|]]; cbn [fst snd].
  - left. destruct Hpick as (pre & post & q & Hord & -> & Hz & Ha & Hane & Hq & Hqz). rewrite Ee in *.
    exists pre, i, post, a, q. split; [done|]. unfold slot in Ha. rewrite Eg in Ha. split; [done|]. split; [done|]. split; [done|]. split; [done|].
    split; [by apply Hfz|]. split; [done|]. intros s2 Hreap.
    assert (Hpre : NoDup pre /\ Forall (fun i => 0 <= i < g_proc_size (yielded cur s)) pre).
    { rewrite Hord in Hnd, Hr1. apply NoDup_app in Hnd as (? & _). by apply Forall_app in Hr1 as [? _]. }
    destruct (entries_nodup (yielded cur s) pre Hw1) as [Hn1 Hn2]; [apply Hpre|apply Hpre|]. rewrite Ee in Hn1, Hn2.
    destruct (reap_spec koff (entries s pre) (yielded cur s) s2 Hw1 Hn1) as (Hw2 & F1 & F2 & F3 & F4 & F5 & F6 & F7 & F8); [|done|].
    { intros b Hb. destruct (Hn2 b Hb) as (? & j & _ & Hj). split; [done|]. by eexists. }
    assert (Haz : a ∉ entries s pre).
    { intros Hin. rewrite Forall_forall in Hz. destruct (Hz a Hin) as (x & Hx & Hxz). congruence. }
    assert (E2 : (yielded cur s).(sched_idx) = s.(sched_idx) /\ (yielded cur s).(scheds) = s.(scheds) /\ (yielded cur s).(g_active_sched) = s.(g_active_sched)).
    { unfold yielded. by rewrite Hp. }
    destruct E2 as (E2 & E3 & E4).
    apply switch_spec; try done.
    + by rewrite F6, F7, E3, E4.
    + rewrite F4. rewrite Hord in Hr1. by apply Forall_app in Hr1 as [_ [? _]%Forall_cons].
    + apply F1; [by rewrite Eg|done].
    + by rewrite F3.
    + intros j b x Hj Hb Hx. destruct (F2 j b Hj Hb) as [Hj1 Hbz]. rewrite F3 in Hx by done. rewrite Eg in Hj1.
      destruct (Hp1 _ _ Hx) as (x' & Hx' & ->). destruct (decide (b = cur)) as [->|Hbc]; [done|].
      apply (Hrun j b x'); try done. intros Ej. apply Hbc. rewrite <- Ej, Nat2Z.id in Hcur'. congruence.
  - right. destruct Hpick as [(pre & i & post & Hord & -> & Hz & Hi & _ & Hcz)|Hno].
    + exists pre, post. rewrite Ee in *. assert (i = s.(sched_idx)) as ->.
      { rewrite Hord in Hr1. apply Forall_app in Hr1 as [_ [Hri _]%Forall_cons]. unfold slot in Hi. rewrite Eg in Hi.
        assert (Z.to_nat i = Z.to_nat s.(sched_idx)) by by apply (pool_inj s _ _ cur). lia. }
      split; [done|]. split; [by apply Hfz; constructor|done].
    + exfalso. destruct (Hno s.(sched_idx)) as [Hc|?]; [|unfold slot in *; rewrite Eg in *; congruence|done].
      apply list_elem_of_fmap. exists (g_proc_size s). split; [|apply elem_of_seqZ; lia].
      rewrite <- (Z.mul_1_l (g_proc_size s)) at 1. rewrite Z.mod_add, Z.mod_small by lia. done.
Qed.

(** Pid 1 runs, slot 1 is empty, pid 3 never ran. *)
Definition demo_proc (n ps st : Z) : Process := set_state (set_ps (set_pid zero_process n) ps) st.
Definition demo_pool : pmstate kstate :=
  mkPMS (mkPM (demo_mm falloc_boot) {[ 500 := demo_ps; 600 := demo_ps ]})
    {[ 1000 := demo_proc 1 500 PROC_RUNNING; 2000 := demo_proc 3 600 PROC_NEVER_RAN ]}
    300 [1000; 0; 2000] 3 2 400 [700] {[ 700 := g_ringsched ]} 700 0 (mkCPU 0 0 1000).
Lemma demo_pool_entry i a : demo_pool.(g_procs) !! i = Some a -> a <> 0 -> (i = 0%nat /\ a = 1000) \/ (i = 2%nat /\ a = 2000).
Proof. destruct i as [|[|[|i]]]; cbn; intros Hi Ha; [left; by injection Hi as <-|by injection Hi as <-|right; by injection Hi as <-|by destruct i]. Qed.
Lemma demo_procs_1 : demo_pool.(procs) !! 1000 = Some (demo_proc 1 500 PROC_RUNNING).
Proof. reflexivity. Qed.
Lemma demo_procs_2 : demo_pool.(procs) !! 2000 = Some (demo_proc 3 600 PROC_NEVER_RAN).
Proof. reflexivity. Qed.

Lemma demo_pool_wf : sched_wf demo_pool.
Proof.
  split.
  - split.
    + change (0 < 3 < 2 ^ 29). lia.
    + intros i a Hi Ha. destruct (demo_pool_entry i a Hi Ha) as [[-> ->]|[-> ->]]; eexists _, demo_ps.
      * split; [exact demo_procs_1|]. split; [reflexivity|]. split; [discriminate|reflexivity].
      * split; [exact demo_procs_2|]. split; [reflexivity|]. split; [discriminate|reflexivity].
    + intros i j a b p q Hi Hj Hij Hp Hq Ha Hb.
      destruct (demo_pool_entry i a Hi Ha) as [[-> ->]|[-> ->]], (demo_pool_entry j b Hj Hb) as [[-> ->]|[-> ->]]; try (destruct Hij; reflexivity);
        rewrite ?demo_procs_1, ?demo_procs_2 in *; injection Hp as <-; injection Hq as <-; discriminate.
    + reflexivity.
  - reflexivity.
  - change (0 <= 0 < 3). lia.
  - exists 1000. split; [reflexivity|discriminate].
  - intros i a p Hi Ha Hne Hp. destruct (demo_pool_entry i a Hi Ha) as [[-> ->]|[-> ->]]; [destruct Hne; reflexivity|].
    rewrite demo_procs_2 in Hp. injection Hp as <-. discriminate.
Qed.

Lemma demo_no_zombie a : ~ is_zombie demo_pool a.
Proof.
  intros (p & Hp & Hz). cbn [procs demo_pool] in Hp.
  apply lookup_insert_Some in Hp as [[_ <-]|[_ [_ <-]%lookup_singleton_Some]]; discriminate Hz.
Qed.

Lemma yield_correct_witness : exists s3, procm_sched_yield demo_koff demo_pool = Ret s3 /\ sched_wf s3.
Proof.
  destruct (yield_correct demo_koff demo_pool 1000 (demo_proc 1 500 PROC_RUNNING) demo_pool_wf eq_refl demo_procs_1)
    as [(pre & i & post & a & q & _ & _ & _ & _ & _ & Hz & Hy & Hr)|(pre & post & _ & Hz & _)].
  - assert (Hnil : entries demo_pool pre = []).
    { destruct (entries demo_pool pre) as [|b l]; [reflexivity|]. apply Forall_cons in Hz as [Hz _]. destruct (demo_no_zombie b Hz). }
    rewrite Hnil in Hy, Hr. destruct (Hr (yielded 1000 demo_pool) eq_refl) as (s3 & ps & Hs & _ & Hw & _).
    exists s3. split; [|exact Hw]. rewrite Hy. exact Hs.
  - apply Forall_cons in Hz as [Hz _]. destruct (demo_no_zombie 1000 Hz).
Defined.

(** ** Pids *)

Section pids.
Context {H : Type} `{!Allocator H} `{!AlignedAllocator H} `{!AllocatorLaws H}.
Implicit Types (s : pmstate H).

(** The pool is a block of its size and the cursor is in it or behind. *)
Record pids_wf s : Prop := {
  pi_alloc : alloc_wf (pm_heap s.(pmem_));
  pi_block : live (pm_heap s.(pmem_)) s.(g_procs_ptr) = Some (4 * g_proc_size s);
  pi_cursor : 0 <= s.(g_last_free_proc_idx) <= g_proc_size s }.

(** The slots in use. *)
Definition used s : list bool := (fun a => negb (a =? 0)) <$> s.(g_procs).

Lemma pids_small s : pids_wf s -> 0 <= g_proc_size s < 2 ^ 29.
Proof. intros [Ha Hb _]. destruct (live_law _ _ _ Ha Hb). unfold g_proc_size in *. lia. Qed.

Lemma available_pid_spec s : 0 <= g_proc_size s < 2 ^ 30 -> 0 <= s.(g_last_free_proc_idx) <= g_proc_size s ->
  exists i, first_free (used s) s.(g_last_free_proc_idx) i /\ i <= g_proc_size s /\
    procm_available_pid s = Ret (set_pool s s.(g_procs_ptr) s.(g_procs) (i + 1) s.(g_proc_count), i + 1).
Proof.
  intros Hsz Hc. unfold g_proc_size in *. assert (Hl : length (used s) = length s.(g_procs)) by apply length_fmap.
  destruct (next_free_spec (used s) s.(g_last_free_proc_idx) (S (length s.(g_procs))) s.(g_last_free_proc_idx)) as (i & Hn & Hi & Hu & Hf);
    [lia|lia|lia|]. exists i. rewrite Hl in *. split; [unfold first_free; rewrite Hl; split_and!; [lia|lia|exact Hu|exact Hf]|]. split; [lia|].
  unfold procm_available_pid. fold (used s). rewrite Hn, bind_Ret. rewrite u32_small, i32_small by (unfold is_u32, is_i32; lia). done.
Qed.

Lemma add_pool_spec s a p i : pids_wf (set_pool s s.(g_procs_ptr) s.(g_procs) (g_proc_size s) s.(g_proc_count)) ->
  0 <= i <= g_proc_size s -> s.(procs) !! a = Some p -> p.(pid) = i + 1 -> is_u32 (s.(g_proc_count) + 1) ->
  exists s' st, procm_add_proc_to_pool a s = Ret (s', st) /\ s'.(g_last_free_proc_idx) = s.(g_last_free_proc_idx) /\
    s'.(procs) = s.(procs) /\ alloc_wf (pm_heap s'.(pmem_)) /\ live (pm_heap s'.(pmem_)) s'.(g_procs_ptr) = Some (4 * g_proc_size s') /\
    ((st = 0 /\ s'.(g_proc_count) = s.(g_proc_count) + 1 /\
      s'.(g_procs) = <[Z.to_nat i := a]> (s.(g_procs) ++ if i =? g_proc_size s then replicate 16 0 else [])) \/
     (st = - ENOMEM /\ i = g_proc_size s /\ s'.(g_procs) = s.(g_procs) /\ s'.(g_proc_count) = s.(g_proc_count))).
Proof.
  intros Hw Hi Hp Hpid Hcnt. pose proof (pids_small _ Hw) as Hsm. destruct Hw as [Ha Hb _]. unfold g_proc_size in *.
  cbn [g_procs g_procs_ptr set_pool pmem_] in *.
  unfold procm_add_proc_to_pool. rewrite Hp. cbn [deref]. rewrite bind_Ret, Hpid. replace (i + 1 - 1) with i by lia.
  rewrite u32_small by (unfold is_u32; lia). cbv zeta. unfold g_proc_size. rewrite (proj2 (Z.leb_le i _)) by lia. cbn [assert_]. rewrite bind_Ret.
  destruct (Z.eqb_spec i (Z.of_nat (length s.(g_procs)))) as [E|E].
  - unfold procm_enlarge, g_proc_size, ALLOC_STEP. rewrite u32_small by (unfold is_u32; lia).
    destruct (realloc_law (pm_heap s.(pmem_)) s.(g_procs_ptr) (Z.of_nat (length (g_procs s)) * 4 + 16 * 4) Ha) as (h & q & -> & Ha' & Hr);
      [lia|right; congruence|]. rewrite bind_Ret. cbn [fst snd]. destruct Hr as [[-> Hl]|(Hq & _ & Hl)].
    + cbn [Z.eqb]. rewrite bind_Ret. cbn [ENOMEM Z.opp Z.ltb Z.compare].
      eexists _, _. split; [reflexivity|]. split; [done|]. split; [done|]. split; [done|]. split; [cbn; rewrite Hl; exact Hb|]. right. done.
    + rewrite (proj2 (Z.eqb_neq q 0)) by done. rewrite bind_Ret. cbn [Z.ltb Z.compare g_procs set_pool].
      destruct (lookup_lt_is_Some_2 (s.(g_procs) ++ replicate (Z.to_nat 16) 0) (Z.to_nat i)) as (x & Hx); [rewrite length_app, length_replicate; lia|].
      change (g_procs (set_mem s _)) with (g_procs s). rewrite Hx. cbn [deref]. rewrite bind_Ret.
      eexists _, _. split; [reflexivity|]. split; [done|]. split; [done|]. split; [done|]. split.
      * cbn. rewrite Hl, decide_True by done. unfold g_proc_size. cbn. rewrite length_insert, length_app, length_replicate. f_equal. lia.
      * left. split; [done|]. split; [cbn; by rewrite u32_small|done].
  - rewrite bind_Ret. cbn [Z.ltb Z.compare]. destruct (lookup_lt_is_Some_2 s.(g_procs) (Z.to_nat i)) as (x & Hx); [lia|].
    rewrite Hx. cbn [deref]. rewrite bind_Ret. eexists _, _. split; [reflexivity|]. split; [done|]. split; [done|]. split; [done|]. split.
    + cbn. unfold g_proc_size. cbn. by rewrite length_insert.
    + left. split; [done|]. split; [cbn; by rewrite u32_small|]. cbn. by rewrite app_nil_r.
Qed.
End pids.

(** C33: a new process gets the pid of the first free slot from the cursor on,
    or of the first of sixteen new slots when none is left; it takes exactly
    that slot and the counter grows by one, so no pid is shared.  When the
    pool cannot grow the process is refused with [-ENOMEM], but the cursor
    has moved past the end: the next process to be spawned gets a pid two
    beyond the pool and the kernel stops on the assertion. *)
Theorem pid_allocation_correct (s : pmstate kstate) : pids_wf s -> is_u32 (s.(g_proc_count) + 1) ->
  exists i s1, first_free (used s) s.(g_last_free_proc_idx) i /\ procm_available_pid s = Ret (s1, i + 1) /\ s1.(g_procs) = s.(g_procs) /\
    forall a p, p.(pid) = i + 1 -> a <> 0 -> exists s2 st,
      procm_add_proc_to_pool a (set_procs s1 (<[a := p]> s1.(procs))) = Ret (s2, st) /\
      ((st = 0 /\ pids_wf s2 /\ s2.(g_proc_count) = s.(g_proc_count) + 1 /\ s2.(g_procs) !! Z.to_nat i = Some a /\
        (forall j b, Z.of_nat j <> i -> s2.(g_procs) !! j = Some b -> b <> 0 -> s.(g_procs) !! j = Some b)) \/
       (st = - ENOMEM /\ i = g_proc_size s /\ s2.(g_procs) = s.(g_procs) /\
        exists s3, procm_available_pid s2 = Ret (s3, g_proc_size s + 2) /\
          forall b q, q.(pid) = g_proc_size s + 2 -> procm_add_proc_to_pool b (set_procs s3 (<[b := q]> s3.(procs))) = Panic)).
Proof.
  intros Hw Hcnt. pose proof (pids_small _ Hw) as Hsm. destruct Hw as [Ha Hb Hc].
  destruct (available_pid_spec s ltac:(lia) Hc) as (i & Hff & Hi & Hav). exists i. eexists. split; [done|]. split; [exact Hav|]. split; [done|].
  intros a p Hpid Hane. set (s1 := set_procs _ _). destruct Hff as [Hfi Hff].
  destruct (add_pool_spec s1 a p i) as (s2 & st & Hadd & Hcur & _ & Ha2 & Hb2 & Hr); [|change (g_proc_size s1) with (g_proc_size s); lia| |done|done|].
  { split; [exact Ha|exact Hb|]. change (g_proc_size s1) with (g_proc_size s). cbn. change (g_proc_size _) with (g_proc_size s). lia. }
  { cbn. by rewrite lookup_insert_eq. }
  cbn [g_procs g_proc_count g_last_free_proc_idx s1 set_procs set_pool] in *. change (g_proc_size s1) with (g_proc_size s) in *.
  exists s2, st. split; [done|]. destruct Hr as [(-> & Hcnt2 & Hg)|(-> & -> & Hg & Hcnt2)].
  - left. split; [done|]. assert (Hlen : i < g_proc_size s2).
    { unfold g_proc_size in *. rewrite Hg, length_insert, length_app. destruct (Z.eqb_spec i (Z.of_nat (length s.(g_procs)))); cbn; lia. }
    split; [split; [done|done|lia]|]. split; [done|]. unfold g_proc_size in Hlen. rewrite Hg in *. rewrite length_insert in Hlen. split.
    + rewrite list_lookup_insert_eq by lia. done.
    + intros j b Hj Hjb Hb0. rewrite list_lookup_insert_ne in Hjb by lia. apply lookup_app_Some in Hjb as [?|[_ Hjb]]; [done|].
      destruct (i =? g_proc_size s); [|done]. apply lookup_replicate in Hjb as [? _]. done.
  - right. split; [done|]. split; [done|]. split; [done|]. unfold procm_available_pid. rewrite Hg, Hcur. cbn [next_free].
    rewrite length_fmap, (proj2 (Z.ltb_ge _ _)) by (unfold g_proc_size; lia). cbn [negb]. rewrite bind_Ret.
    rewrite u32_small, i32_small by (unfold is_u32, is_i32; lia). eexists. split; [by rewrite <- Z.add_assoc|].
    intros b q Hq. unfold procm_add_proc_to_pool. cbn [procs set_procs]. rewrite lookup_insert_eq. cbn [deref]. rewrite bind_Ret, Hq.
    replace (g_proc_size s + 2 - 1) with (g_proc_size s + 1) by lia. rewrite u32_small by (unfold is_u32; lia). cbv zeta.
    unfold g_proc_size at 2. cbn [g_procs set_procs set_pool]. rewrite (proj2 (Z.leb_gt _ _)); [done|]. unfold g_proc_size in *. cbn. rewrite ?Hg. lia.
Qed.

(** The pool as [procm_init] leaves it: one empty slot. *)
Definition demo_init : pmstate kstate :=
  match procm_init (mkPMS (demo_pmem falloc_boot) ∅ 0 [] 0 0 0 [700] {[ 700 := g_ringsched ]} 0 0 (mkCPU 0 0 0)) with
  | Ret r => r.1 | _ => demo_pool end.
Lemma demo_init_wf : pids_wf demo_init.
Proof.
  destruct (calloc_law demo_heap_k 4 (pw_alloc _ _ _ (demo_mm_wf falloc_boot))) as (h & q & Hr & Ha & Hc); [lia|].
  assert (Hq : g_proc_size demo_init = 1) by (vm_compute; reflexivity).
  unfold demo_init, procm_init in *. cbn [g_schedulers best_sched scheds] in *. 
  change ({[700 := g_ringsched]} !! 700) with (Some g_ringsched) in *. cbn [deref] in *. rewrite !bind_Ret in *.
  cbn [pmem_ set_scheds] in *. change (pm_heap (demo_pmem falloc_boot)) with demo_heap_k in *. change (1 * 4) with 4 in *. rewrite Hr, bind_Ret in *.
  cbn [fst snd] in *. destruct (Z.eqb_spec q 0) as [->|Hne].
  - discriminate Hq.
  - destruct Hc as [[? _]|(_ & _ & Hl)]; [destruct Hne; assumption|]. cbn [fst]. split; [exact Ha| |split; discriminate].
    cbn. rewrite Hl. rewrite decide_True by reflexivity. reflexivity.
Qed.

Lemma pid_allocation_correct_witness : exists i s1, first_free (used demo_init) 0 i /\ procm_available_pid demo_init = Ret (s1, i + 1).
Proof.
  destruct (pid_allocation_correct demo_init demo_init_wf) as (i & s1 & Hf & Hr & _).
  { assert (E : g_proc_count demo_init = 0) by (vm_compute; reflexivity). rewrite E. unfold is_u32. lia. }
  exists i, s1. split; [|exact Hr]. replace 0 with (g_last_free_proc_idx demo_init) by (vm_compute; reflexivity). exact Hf.
Defined.
