(* ===== verification/User.v ===== *)
(** * Accesses to a process' memory

    [arch/x86/user/user32.S]: copies that give [-EFAULT] when the memory of
    the process is not mapped; [kernel/user.c]: duplicating a user string. *)
From S2P Require Import Prelude Alloc CString.

Definition EFAULT : Z := 14.
Definition ENAMETOOLONG : Z := 36.
Definition ENOMEM : Z := 12.

(** ** The copies

    [u] has the bytes that can be read and written; an access anywhere else
    faults, and [user_access_fault_stub] gives [-EFAULT]. *)
Section copies.
Implicit Types (u : gmap Z Z) (l : list Z).

(** [movl (%ebx), %eax]: four bytes are read for the one in [%al]. *)
Definition movl u (a : Z) : option Z :=
  b ← u !! a; _ ← u !! (a + 1); _ ← u !! (a + 2); _ ← u !! (a + 3); Some b.

(** Bytes from [src] while fewer than [maxn], [n] of them left, are copied;
    the last one is overwritten when none of them was the terminator. *)
Fixpoint copy_str_loop (n : nat) u (src : Z) (dest : list Z) : Z * list Z :=
  match n with
  | O => (0, removelast dest ++ [0])
  | S n =>
      match movl u src with
      | None => (- EFAULT, dest)
      | Some b => if b =? 0 then (0, dest ++ [0]) else copy_str_loop n u (src + 1) (dest ++ [b])
      end
  end.
(** The status and the bytes stored from [dest] on. *)
Definition user_copy_str_from u (src maxn : Z) : Z * list Z :=
  if maxn =? 0 then (0, []) else copy_str_loop (Z.to_nat maxn) u src [].

Fixpoint copy_loop (n : nat) u (src : Z) (dest : list Z) : Z * list Z :=
  match n with
  | O => (0, dest)
  | S n => match movl u src with None => (- EFAULT, dest) | Some b => copy_loop n u (src + 1) (dest ++ [b]) end
  end.
Definition user_copy_from u (src n : Z) : Z * list Z := copy_loop (Z.to_nat n) u src [].

(** [src] is readable: it is the kernel's. *)
Fixpoint user_copy_to u (dest : Z) (src : list Z) : gmap Z Z * Z :=
  match src with
  | [] => (u, 0)
  | b :: src => match u !! dest with
                | None => (u, - EFAULT)
                | Some _ => user_copy_to (<[dest := b]> u) (dest + 1) src
                end
  end.

Fixpoint strnlen_user_loop (n : nat) u (str ecx : Z) : Z :=
  match n with
  | O => ecx
  | S n => match movl u str with
           | None => - EFAULT
           | Some b => if b =? 0 then ecx else strnlen_user_loop n u (str + 1) (ecx + 1)
           end
  end.
Definition user_strnlen u (str n : Z) : Z := strnlen_user_loop (Z.to_nat n) u str 0.

(** The C string in a buffer. *)
Fixpoint until_nul l : list Z :=
  match l with [] => [] | b :: l => if b =? 0 then [] else b :: until_nul l end.

(** The heap, an error (0 when none), and the block and its string. *)
Definition user_strndup {H} `{!Allocator H} u (str maxn : Z) (h : H) : outcome (H * Z * (Z * list Z)) :=
  let len := user_strnlen u str maxn in
  if len <? 0 then Ret (h, len, (0, []))
  else if len =? maxn then Ret (h, - ENAMETOOLONG, (0, []))
  else
    r ← kmalloc_ (len + 1) h;
    if r.2 =? 0 then Ret (r.1, - ENOMEM, (0, []))
    else
      let '(st, bytes) := user_copy_from u str (len + 1) in
      if st <? 0 then Ret (r.1, st, (0, [])) else Ret (r.1, 0, (r.2, until_nul bytes)).

(** ** Strings *)

(** A string at [p] with the three bytes the wide reads need behind it. *)
Definition ustr u (p : Z) (s : list Z) : Prop :=
  bytes_at u p (s ++ [0]) /\ Forall (fun b => 0 < b < 256) s /\
  forall i, 0 <= i < 3 -> is_Some (u !! (p + Z.of_nat (length s) + 1 + i)).

Lemma ustr_movl u p s i b : ustr u p s -> (s ++ [0]) !! i = Some b -> movl u (p + Z.of_nat i) = Some b.
Proof.
  intros (Hb & _ & Hx) Hi. pose proof (lookup_lt_Some _ _ _ Hi) as Hlt. rewrite length_app in Hlt. cbn in Hlt.
  assert (Hk : forall k, 0 <= k <= 3 -> is_Some (u !! (p + Z.of_nat i + k))).
  { intros k Hk. destruct (decide (Z.of_nat i + k <= Z.of_nat (length s))).
    - destruct (lookup_lt_is_Some_2 (s ++ [0]) (Z.to_nat (Z.of_nat i + k))) as (x & Hx'); [rewrite length_app; cbn; lia|].
      apply Hb in Hx'. exists x. rewrite <- Hx'. f_equal. lia.
    - destruct (Hx (Z.of_nat i + k - Z.of_nat (length s) - 1)) as (x & Hx'); [lia|]. exists x. rewrite <- Hx'. f_equal. lia. }
  destruct (Hk 1 ltac:(lia)) as (x1 & H1), (Hk 2 ltac:(lia)) as (x2 & H2), (Hk 3 ltac:(lia)) as (x3 & H3).
  unfold movl. by rewrite (Hb _ _ Hi), H1, H2, H3.
Qed.

Lemma until_nul_app l rest : Forall (fun b => 0 < b < 256) l -> until_nul (l ++ 0 :: rest) = l.
Proof. induction 1 as [|b l Hb _ IH]; cbn; [done|]. rewrite (proj2 (Z.eqb_neq b 0)) by lia. by rewrite IH. Qed.

Lemma ustr_tail u p b s : ustr u p (b :: s) -> ustr u (p + 1) s.
Proof.
  intros (Hb & Hf & Hx). apply Forall_cons in Hf as [_ Hf]. split; [|split; [done|]].
  - intros i x Hi. replace (p + 1 + Z.of_nat i) with (p + Z.of_nat (S i)) by lia. by apply Hb.
  - intros i Hi. specialize (Hx i Hi). cbn in Hx. replace (p + 1 + Z.of_nat (length s) + 1 + i) with (p + Z.of_nat (S (length s)) + 1 + i) by lia. done.
Qed.
Lemma ustr_head u p b s : ustr u p (b :: s) -> movl u p = Some b /\ b <> 0.
Proof.
  intros Hu. split; [rewrite <- (Z.add_0_r p); by apply (ustr_movl u p (b :: s) 0)|].
  destruct Hu as (_ & Hf & _). apply Forall_cons in Hf as [? _]. lia.
Qed.
Lemma ustr_nil u p : ustr u p [] -> movl u p = Some 0.
Proof. intros Hu. rewrite <- (Z.add_0_r p). by apply (ustr_movl u p [] 0). Qed.

Lemma copy_str_loop_spec u s : forall n p acc, ustr u p s ->
  copy_str_loop n u p acc =
  if (length s <? n)%nat then (0, acc ++ s ++ [0])
  else (0, removelast (acc ++ take n s) ++ [0]).
Proof.
  induction s as [|b s IH]; intros n p acc Hu; (destruct n as [|n]; cbn [copy_str_loop]; [cbn; by rewrite ?app_nil_r|]).
  - by rewrite (ustr_nil _ _ Hu).
  - destruct (ustr_head _ _ _ _ Hu) as [-> Hb]. rewrite (proj2 (Z.eqb_neq b 0) Hb), (IH n (p + 1)) by exact (ustr_tail _ _ _ _ Hu).
    change (length (b :: s) <? S n)%nat with (length s <? n)%nat. destruct (_ <? _)%nat; by rewrite <- !app_assoc.
Qed.

(** What the kernel gets: the string, cut to one byte less than the room. *)
Lemma copy_str_spec u p s n : ustr u p s -> 0 < n ->
  exists bytes, user_copy_str_from u p n = (0, bytes) /\ until_nul bytes = take (Z.to_nat n - 1) s /\ (length bytes <= Z.to_nat n)%nat.
Proof.
  intros Hu Hn. unfold user_copy_str_from. rewrite (proj2 (Z.eqb_neq n 0)) by lia. rewrite (copy_str_loop_spec u s) by done.
  destruct Hu as (_ & Hf & _). cbn [app]. destruct (length s <? Z.to_nat n)%nat eqn:E.
  - apply Nat.ltb_lt in E. eexists. split; [done|]. rewrite until_nul_app by done. rewrite take_ge by lia. split; [done|]. rewrite length_app. cbn. lia.
  - apply Nat.ltb_ge in E. eexists. split; [done|].
    assert (Hr : removelast (take (Z.to_nat n) s) = take (Z.to_nat n - 1) s).
    { rewrite <- (take_drop (Z.to_nat n - 1) (take (Z.to_nat n) s)), take_take.
      replace (Z.to_nat n - 1)%nat with (Z.to_nat n - 1)%nat by done. rewrite Nat.min_l by lia.
      destruct (lookup_lt_is_Some_2 (take (Z.to_nat n) s) (Z.to_nat n - 1)) as (x & Hx); [rewrite length_take; lia|].
      rewrite (drop_S _ x) by done. rewrite drop_ge by (rewrite length_take; lia). by rewrite removelast_last. }
    rewrite Hr. split; [apply until_nul_app; by apply Forall_take|]. rewrite length_app, length_take. cbn. lia.
Qed.

Lemma strnlen_loop_user_spec u s : forall n p k, ustr u p s -> strnlen_user_loop n u p k = k + Z.of_nat (Nat.min n (length s)).
Proof.
  induction s as [|b s IH]; intros n p k Hu; (destruct n as [|n]; cbn [strnlen_user_loop]; [cbn; lia|]).
  - rewrite (ustr_nil _ _ Hu). cbn. lia.
  - destruct (ustr_head _ _ _ _ Hu) as [-> Hb]. rewrite (proj2 (Z.eqb_neq b 0) Hb), IH by exact (ustr_tail _ _ _ _ Hu). cbn. lia.
Qed.
Lemma copy_loop_spec u s : forall n p acc, ustr u p s -> n = S (length s) -> copy_loop n u p acc = (0, acc ++ s ++ [0]).
Proof.
  induction s as [|b s IH]; intros [|n] p acc Hu Hn; try discriminate; injection Hn as Hn; cbn [copy_loop].
  - rewrite (ustr_nil _ _ Hu). by rewrite Hn.
  - destruct (ustr_head _ _ _ _ Hu) as [-> Hb]. rewrite IH by (exact (ustr_tail _ _ _ _ Hu) || done). by rewrite <- app_assoc.
Qed.

(** A duplicate of a string is a block of its own with the same characters. *)
Lemma strndup_spec {H} `{AllocatorLaws H} u p s n (h : H) : ustr u p s -> alloc_wf h -> 0 < n < 2 ^ 31 ->
  (Z.of_nat (length s) < n -> exists h' st q t, user_strndup u p n h = Ret (h', st, (q, t)) /\ alloc_wf h' /\
     ((st = - ENOMEM /\ forall b, live h' b = live h b) \/
      (st = 0 /\ q <> 0 /\ t = s /\ live h q = None /\
       forall b, live h' b = if decide (b = q) then Some (Z.of_nat (length s) + 1) else live h b))) /\
  (n <= Z.of_nat (length s) -> user_strndup u p n h = Ret (h, - ENAMETOOLONG, (0, []))).
Proof.
  intros Hu Hwf Hn. unfold user_strndup, user_strnlen. rewrite (strnlen_loop_user_spec u s) by done. cbv zeta. rewrite Z.add_0_l.
  rewrite (proj2 (Z.ltb_ge _ 0)) by lia. split; intros Hl.
  - rewrite Nat.min_r by lia. rewrite (proj2 (Z.eqb_neq _ n)) by lia.
    destruct (malloc_law h (Z.of_nat (length s) + 1) Hwf) as (h' & q & -> & Hwf' & Hc); [lia|]. rewrite bind_Ret. cbn [fst snd].
    destruct Hc as [[-> Hl']|(Hq & Hf & Hl')].
    + eexists _, _, _, _. split; [reflexivity|]. split; [done|]. by left.
    + rewrite (proj2 (Z.eqb_neq q 0) Hq). unfold user_copy_from. rewrite (copy_loop_spec u s) by (done || lia). cbn [app Z.ltb Z.compare].
      eexists _, _, _, _. split; [reflexivity|]. split; [done|]. right. split; [done|]. split; [done|]. split; [|done].
      apply until_nul_app. by destruct Hu as (_ & ? & _).
  - rewrite Nat.min_l by lia. rewrite Z2Nat.id by lia. by rewrite Z.eqb_refl.
Qed.

(** A string whose terminator is the last byte that can be read faults. *)
Example wide_read_faults : user_copy_str_from (write_bytes ∅ 100 [104; 105; 0]) 100 512 = (- EFAULT, [])
  /\ user_copy_str_from (write_bytes ∅ 100 [104; 105; 0; 0; 0; 0]) 100 512 = (0, [104; 105; 0]).
Proof. vm_compute. done. Qed.
End copies.
