(* ===== verification/Fs.v ===== *)
(** * File systems and their node caches

    [kernel/fs/fs.c] and [kernel/fs/vnode.c], with the state the virtual file
    system shares: strings, list nodes, cached nodes, mounted file systems,
    descriptors and the tables that find them.  File-system drivers are code
    reached through pointers: the class [Drivers]. *)
From S2P Require Import Prelude Alloc CString LinkedList HashTable Path Paging Falloc Proc User.

Definition ENOENT : Z := 2.
Definition ENOMEM : Z := 12.
Definition PATH_MAX : Z := 512.
Definition VNODE_PENDING_RM : Z := 1.
Definition sizeof_VirtualNode : Z := 48.

(** ** Data *)

Record VirtualNode := mkVN {
  vn_name : Z; vn_n : Z; vn_size : Z; vn_mode : Z; vn_uid : Z; vn_gid : Z; ref_count : Z;
  vn_flags : Z; parent : Z; owner : Z; vn_ops : Z; vn_data : Z }.
Record FileSystem := mkFS {
  mntsrc : Z; mntpoint : Z; args : Z; fs_flags : Z; driver : Z; driver_ctx : Z; vnode_ll : LinkedList }.
Record FileDescriptor := mkFD { fd_fd : Z; fd_pid : Z; fd_flags : Z; fd_off : Z; fd_vnode : Z }.

Definition zero_vnode : VirtualNode := mkVN 0 0 0 0 0 0 0 0 0 0 0 0.
Definition zero_fs : FileSystem := mkFS 0 0 0 0 0 0 (mkLL 0 0).
Definition zero_fd : FileDescriptor := mkFD 0 0 0 0 0.

Definition set_vname (v : VirtualNode) (a : Z) : VirtualNode :=
  mkVN a v.(vn_n) v.(vn_size) v.(vn_mode) v.(vn_uid) v.(vn_gid) v.(ref_count) v.(vn_flags) v.(parent) v.(owner) v.(vn_ops) v.(vn_data).
Definition set_ref (v : VirtualNode) (c : Z) : VirtualNode :=
  mkVN v.(vn_name) v.(vn_n) v.(vn_size) v.(vn_mode) v.(vn_uid) v.(vn_gid) c v.(vn_flags) v.(parent) v.(owner) v.(vn_ops) v.(vn_data).
Definition set_vflags (v : VirtualNode) (f : Z) : VirtualNode :=
  mkVN v.(vn_name) v.(vn_n) v.(vn_size) v.(vn_mode) v.(vn_uid) v.(vn_gid) v.(ref_count) f v.(parent) v.(owner) v.(vn_ops) v.(vn_data).
Definition set_owner_ops (v : VirtualNode) (o ops : Z) : VirtualNode :=
  mkVN v.(vn_name) v.(vn_n) v.(vn_size) v.(vn_mode) v.(vn_uid) v.(vn_gid) v.(ref_count) v.(vn_flags) v.(parent) o ops v.(vn_data).
Definition set_vll (f : FileSystem) (ll : LinkedList) : FileSystem :=
  mkFS f.(mntsrc) f.(mntpoint) f.(args) f.(fs_flags) f.(driver) f.(driver_ctx) ll.
Definition set_names (f : FileSystem) (src mnt a : Z) : FileSystem :=
  mkFS src mnt a f.(fs_flags) f.(driver) f.(driver_ctx) f.(vnode_ll).
Definition set_fsflags (f : FileSystem) (fl : Z) : FileSystem :=
  mkFS f.(mntsrc) f.(mntpoint) f.(args) fl f.(driver) f.(driver_ctx) f.(vnode_ll).
Definition set_driver (f : FileSystem) (d : Z) : FileSystem :=
  mkFS f.(mntsrc) f.(mntpoint) f.(args) f.(fs_flags) d f.(driver_ctx) f.(vnode_ll).
Definition set_ctx (f : FileSystem) (c : Z) : FileSystem :=
  mkFS f.(mntsrc) f.(mntpoint) f.(args) f.(fs_flags) f.(driver) c f.(vnode_ll).

(** ** State

    [D] is what the drivers keep for themselves.  [strs] has the characters
    of the C string in a block, the other maps the object at an address. *)
Section state.
Context {H D : Type} `{!Allocator H}.

Record vstate := mkV {
  vpm : pmem H; umem : gmap Z Z; strs : gmap Z (list Z); lnodes : gmap Z LinkedListNode;
  vnodes : gmap Z VirtualNode; filesystems : gmap Z FileSystem; sysfds : gmap Z FileDescriptor;
  hash_ptr : Z; hash_funcs : list HashingFunction; g_sys_fd_hashtable : HashTable;
  g_filesystems_ll : LinkedList; g_fs_drivers_ptr : Z; g_fs_drivers : list Z; drv : D }.

Definition vheap (s : vstate) : H := pm_heap s.(vpm).
Definition set_vpm (s : vstate) (m : pmem H) : vstate :=
  mkV m s.(umem) s.(strs) s.(lnodes) s.(vnodes) s.(filesystems) s.(sysfds) s.(hash_ptr) s.(hash_funcs)
    s.(g_sys_fd_hashtable) s.(g_filesystems_ll) s.(g_fs_drivers_ptr) s.(g_fs_drivers) s.(drv).
Definition set_vheap (s : vstate) (h : H) : vstate := set_vpm s (set_pheap s.(vpm) h).
Definition set_umem (s : vstate) (u : gmap Z Z) : vstate :=
  mkV s.(vpm) u s.(strs) s.(lnodes) s.(vnodes) s.(filesystems) s.(sysfds) s.(hash_ptr) s.(hash_funcs)
    s.(g_sys_fd_hashtable) s.(g_filesystems_ll) s.(g_fs_drivers_ptr) s.(g_fs_drivers) s.(drv).
Definition set_strs (s : vstate) (t : gmap Z (list Z)) : vstate :=
  mkV s.(vpm) s.(umem) t s.(lnodes) s.(vnodes) s.(filesystems) s.(sysfds) s.(hash_ptr) s.(hash_funcs)
    s.(g_sys_fd_hashtable) s.(g_filesystems_ll) s.(g_fs_drivers_ptr) s.(g_fs_drivers) s.(drv).
Definition set_lnodes (s : vstate) (t : gmap Z LinkedListNode) : vstate :=
  mkV s.(vpm) s.(umem) s.(strs) t s.(vnodes) s.(filesystems) s.(sysfds) s.(hash_ptr) s.(hash_funcs)
    s.(g_sys_fd_hashtable) s.(g_filesystems_ll) s.(g_fs_drivers_ptr) s.(g_fs_drivers) s.(drv).
Definition set_vnodes (s : vstate) (t : gmap Z VirtualNode) : vstate :=
  mkV s.(vpm) s.(umem) s.(strs) s.(lnodes) t s.(filesystems) s.(sysfds) s.(hash_ptr) s.(hash_funcs)
    s.(g_sys_fd_hashtable) s.(g_filesystems_ll) s.(g_fs_drivers_ptr) s.(g_fs_drivers) s.(drv).
Definition set_filesystems (s : vstate) (t : gmap Z FileSystem) : vstate :=
  mkV s.(vpm) s.(umem) s.(strs) s.(lnodes) s.(vnodes) t s.(sysfds) s.(hash_ptr) s.(hash_funcs)
    s.(g_sys_fd_hashtable) s.(g_filesystems_ll) s.(g_fs_drivers_ptr) s.(g_fs_drivers) s.(drv).
Definition set_sysfds (s : vstate) (t : gmap Z FileDescriptor) : vstate :=
  mkV s.(vpm) s.(umem) s.(strs) s.(lnodes) s.(vnodes) s.(filesystems) t s.(hash_ptr) s.(hash_funcs)
    s.(g_sys_fd_hashtable) s.(g_filesystems_ll) s.(g_fs_drivers_ptr) s.(g_fs_drivers) s.(drv).
Definition set_fdt (s : vstate) (fs : list HashingFunction) (ht : HashTable) : vstate :=
  mkV s.(vpm) s.(umem) s.(strs) s.(lnodes) s.(vnodes) s.(filesystems) s.(sysfds) s.(hash_ptr) fs
    ht s.(g_filesystems_ll) s.(g_fs_drivers_ptr) s.(g_fs_drivers) s.(drv).
Definition set_mounts (s : vstate) (ll : LinkedList) : vstate :=
  mkV s.(vpm) s.(umem) s.(strs) s.(lnodes) s.(vnodes) s.(filesystems) s.(sysfds) s.(hash_ptr) s.(hash_funcs)
    s.(g_sys_fd_hashtable) ll s.(g_fs_drivers_ptr) s.(g_fs_drivers) s.(drv).
Definition set_drivers (s : vstate) (p : Z) (l : list Z) : vstate :=
  mkV s.(vpm) s.(umem) s.(strs) s.(lnodes) s.(vnodes) s.(filesystems) s.(sysfds) s.(hash_ptr) s.(hash_funcs)
    s.(g_sys_fd_hashtable) s.(g_filesystems_ll) p l s.(drv).
Definition set_drv (s : vstate) (d : D) : vstate :=
  mkV s.(vpm) s.(umem) s.(strs) s.(lnodes) s.(vnodes) s.(filesystems) s.(sysfds) s.(hash_ptr) s.(hash_funcs)
    s.(g_sys_fd_hashtable) s.(g_filesystems_ll) s.(g_fs_drivers_ptr) s.(g_fs_drivers) d.

(** [*v = x], [*fs = x]. *)
Definition put_vnode (s : vstate) (v : Z) (x : VirtualNode) : vstate := set_vnodes s (<[v := x]> s.(vnodes)).
Definition put_fs (s : vstate) (fs : Z) (x : FileSystem) : vstate := set_filesystems s (<[fs := x]> s.(filesystems)).

Definition free_block (s : vstate) (p : Z) : outcome vstate := h ← kfree_ p (vheap s); Ret (set_vheap s h).
(** [kfree] of a string. *)
Definition free_str (s : vstate) (p : Z) : outcome vstate :=
  s ← free_block s p; Ret (set_strs s (delete p s.(strs))).
(** [strdup]: the block has room for the characters only. *)
Definition strdup (name : list Z) (s : vstate) : outcome (vstate * Z) :=
  r ← kmalloc_ (Z.of_nat (length name)) (vheap s);
  if r.2 =? 0 then Ret (set_vheap s r.1, 0)
  else Ret (set_strs (set_vheap s r.1) (<[r.2 := name]> s.(strs)), r.2).

(** A call of [linkedlist.c] on a list of this state. *)
Definition run_ll {A} (f : llstate H -> outcome (llstate H * LinkedList * A)) (s : vstate) : outcome (vstate * LinkedList * A) :=
  r ← f (mkLS (vheap s) s.(lnodes));
  let '(ls, ll, a) := r : llstate H * LinkedList * A in
  Ret (set_lnodes (set_vheap s ls.(LinkedList.heap)) ls.(nodes), ll, a).

(** [FOR_EACH_ENTRY_IN_LL]: an entry without data is passed over; the body
    says whether the loop stops. *)
Fixpoint ll_iter {A} (body : A -> Z -> outcome (A * bool)) (fuel : nat) (m : gmap Z LinkedListNode) (p : Z) (a : A) : outcome A :=
  match fuel with
  | O => Undef
  | S fuel =>
      if p =? 0 then Ret a
      else
        nd ← deref (m !! p);
        r ← (if nd.(node_data) =? 0 then Ret (a, false) else body a nd.(node_data));
        if r.2 : bool then Ret r.1 else ll_iter body fuel m nd.(next) r.1
  end.
Definition for_each {A} (s : vstate) (ll : LinkedList) (body : A -> Z -> outcome (A * bool)) (a : A) : outcome A :=
  ll_iter body (S (size s.(lnodes))) s.(lnodes) ll.(root) a.
End state.
Arguments vstate : clear implicits.

(** ** Drivers

    What the function pointers of a [FileSystemDriver] and a
    [VirtualNodeOperations] lead to, by the address of the structure; [S] is
    the kernel state.  [mkfile] gives an error or an inode number. *)
Class DriverTables := {
  drv_name : Z -> list Z;
  generic_probe : Z -> bool;
  vnode_ops : Z -> Z }.
Class Drivers (S : Type) := {
  drv_init : Z -> Z -> S -> outcome (S * Z);
  drv_destroy : Z -> Z -> S -> outcome S;
  drv_mkfile : Z -> Z -> list Z -> Z -> Z -> Z -> Z -> S -> outcome (S * (Z * Z));
  drv_rmnode : Z -> Z -> S -> outcome (S * Z);
  op_open : Z -> Z -> Z -> S -> outcome (S * Z);
  op_read : Z -> Z -> Z -> Z -> Z -> S -> outcome (S * Z);
  op_write : Z -> Z -> Z -> Z -> Z -> S -> outcome (S * Z);
  op_ioctl : Z -> Z -> Z -> Z -> S -> outcome (S * Z);
  op_mmap : Z -> option (Z -> Z -> Z -> Z -> Z -> Z -> S -> outcome (S * Z)) }.

(** ** Strings in a buffer of their own

    A local copy of a string is edited in a memory that holds it, and the
    other string the call reads, so the functions of [path.c] and [string.c]
    run on it as they do on the stack. *)
Definition BUF : Z := 16.
Definition scratch (s t : list Z) : gmap Z Z :=
  write_bytes (write_bytes ∅ BUF (s ++ [0])) (BUF + Z.of_nat (length s) + 1) (t ++ [0]).
Definition OTHER (s : list Z) : Z := BUF + Z.of_nat (length s) + 1.

Fixpoint load_bytes (n : nat) (m : gmap Z Z) (p : Z) : outcome (list Z) :=
  match n with
  | O => Ret []
  | S n => b ← load m p; l ← load_bytes n m (p + 1); Ret (b :: l)
  end.
Definition read_str (m : gmap Z Z) (p : Z) : outcome (list Z) :=
  n ← strlen m p; load_bytes (Z.to_nat n) m p.

Definition str_eq (s t : list Z) : outcome bool :=
  r ← strcmp (scratch s t) BUF (OTHER s); Ret (r =? 0).
(** [strstr(s, t) == s]. *)
Definition str_starts (s t : list Z) : outcome bool :=
  r ← strstr (scratch s t) BUF (OTHER s); Ret (r =? BUF).
(** The characters before the last slash, if there is one. *)
Definition str_rslash (s : list Z) : outcome (option (list Z)) :=
  r ← strrchr (scratch s []) BUF SLASH;
  if r =? 0 then Ret None else Ret (Some (take (Z.to_nat (r - BUF)) s)).
Definition str_canonical (s : list Z) : outcome (list Z * Z) :=
  r ← path_make_canonical (scratch s []) BUF; t ← read_str r.1 BUF; Ret (t, r.2).
Definition str_relative (s mnt : list Z) : outcome (list Z * Z) :=
  r ← path_make_relative (scratch s mnt) BUF (Some (OTHER s)); t ← read_str r.1 BUF; Ret (t, r.2).
Definition str_filename (s : list Z) : outcome (list Z * Z) :=
  r ← path_make_filename (scratch s []) BUF; t ← read_str r.1 BUF; Ret (t, r.2).

(** ** [vnode.c] and [fs.c] *)
Section ops.
Context {H D : Type} `{!Allocator H} `{DT : DriverTables} `{!Drivers (vstate H D)}.
Notation vstate := (vstate H D).

Definition vnode_increase_refcount (v : Z) (s : vstate) : outcome vstate :=
  x ← deref (s.(vnodes) !! v); Ret (put_vnode s v (set_ref x (u32 (x.(ref_count) + 1)))).

Definition vnode_decrease_refcount (v : Z) (s : vstate) : outcome vstate :=
  x ← deref (s.(vnodes) !! v);
  _ ← assert_ (0 <? x.(ref_count));
  let x := set_ref x (x.(ref_count) - 1) in
  let s := put_vnode s v x in
  if (x.(ref_count) =? 0) && negb (Z.land x.(vn_flags) VNODE_PENDING_RM =? 0) then
    fs ← deref (s.(filesystems) !! x.(owner));
    r ← drv_rmnode fs.(driver) v s; Ret r.1
  else Ret s.

(** [tmp_path[i] = tmp_path[i - cur_len]], [i] going down. *)
Fixpoint shift_up (fuel : nat) (tmp : list Z) (i cur_len : Z) : outcome (list Z) :=
  match fuel with
  | O => Undef
  | S fuel =>
      if negb (i >=? cur_len) then Ret tmp
      else
        c ← deref (tmp !! Z.to_nat (i - cur_len));
        _ ← deref (tmp !! Z.to_nat i);
        shift_up fuel (<[Z.to_nat i := c]> tmp) (u32 (i - 1)) cur_len
  end.

(** The path of [working_vnode] in front of what [tmp_path] holds; every node
    adds a character at least, so no more than [PATH_MAX] of them fit. *)
Fixpoint path_loop (fuel : nat) (s : vstate) (working_vnode : Z) (tmp : list Z) (running_len : Z) (addslash : bool) : outcome (list Z) :=
  match fuel with
  | O => Undef
  | S fuel =>
      if working_vnode =? 0 then Ret tmp
      else
        x ← deref (s.(vnodes) !! working_vnode);
        nm ← deref (s.(strs) !! x.(vn_name));
        let cur_len := Z.of_nat (length nm) + (if addslash then 1 else 0) in
        if running_len + cur_len >=? PATH_MAX then Ret tmp
        else
          tmp ← shift_up (S (Z.to_nat PATH_MAX)) tmp (u32 (running_len + cur_len - 1)) cur_len;
          let tmp := nm ++ drop (length nm) tmp in
          let tmp := if addslash then <[Z.to_nat (cur_len - 1) := SLASH]> tmp else tmp in
          if x.(parent) =? 0 then Ret tmp
          else
            px ← deref (s.(vnodes) !! x.(parent));
            path_loop fuel s x.(parent) tmp (running_len + cur_len) (negb (px.(parent) =? 0))
  end.
Definition vnode_path (s : vstate) (v : Z) : outcome (list Z) :=
  path_loop (S (Z.to_nat PATH_MAX)) s v (replicate (Z.to_nat PATH_MAX) 0) 0 false.

Definition fs_lookup_vnode_cached_relative (path : list Z) (fs : Z) (s : vstate) : outcome Z :=
  f ← deref (s.(filesystems) !! fs);
  for_each s f.(vnode_ll) (fun hit v =>
    tmp ← vnode_path s v; eq ← str_eq (until_nul tmp) path;
    Ret (if eq : bool then (v, true) else (hit, false))) 0.

Definition fs_new_vnode_cache (name : list Z) (fs : Z) (s : vstate) : outcome (vstate * Z) :=
  r ← kcalloc_ sizeof_VirtualNode (vheap s);
  let s := set_vheap s r.1 in
  let new_vnode := r.2 in
  if new_vnode =? 0 then Ret (s, 0)
  else
    r ← strdup name s;
    let '(s, nm) := r : vstate * Z in
    f ← deref (s.(filesystems) !! fs);
    let s := put_vnode s new_vnode (set_owner_ops (set_vname zero_vnode nm) fs (vnode_ops f.(driver))) in
    if nm =? 0 then s ← free_block s new_vnode; Ret (set_vnodes s (delete new_vnode s.(vnodes)), 0)
    else
      r ← run_ll (fun ls => linkedlist_add new_vnode ls f.(vnode_ll)) s;
      let '(s, ll, st) := r : vstate * LinkedList * Z in
      let s := put_fs s fs (set_vll f ll) in
      if st <? 0 then
        s ← free_str s nm; s ← free_block s new_vnode; Ret (set_vnodes s (delete new_vnode s.(vnodes)), 0)
      else Ret (s, new_vnode).

(** The name is freed and the node after it. *)
Definition free_vnode (v : Z) (s : vstate) : outcome vstate :=
  x ← deref (s.(vnodes) !! v);
  s ← free_str s x.(vn_name); s ← free_block s v;
  Ret (set_vnodes s (delete v s.(vnodes))).

Definition fs_free_cached_vnode (v fs : Z) (s : vstate) : outcome (vstate * Z) :=
  f ← deref (s.(filesystems) !! fs);
  r ← run_ll (fun ls => linkedlist_remove_by_data v ls f.(vnode_ll)) s;
  let '(s, ll, _) := r : vstate * LinkedList * Z in
  s ← free_vnode v (put_fs s fs (set_vll f ll)); Ret (s, 0).

(** [do ... while]: the list has at most as many entries as the store. *)
Fixpoint free_all_loop (fuel : nat) (fs : Z) (s : vstate) : outcome vstate :=
  match fuel with
  | O => Undef
  | S fuel =>
      f ← deref (s.(filesystems) !! fs);
      nd ← deref (s.(lnodes) !! f.(vnode_ll).(root));
      s ← free_vnode nd.(node_data) s;
      r ← run_ll (fun ls => linkedlist_remove_by_position 0 ls f.(vnode_ll)) s;
      let '(s, ll, st) := r : vstate * LinkedList * Z in
      let s := put_fs s fs (set_vll f ll) in
      if st =? 0 then free_all_loop fuel fs s else Ret s
  end.
Definition fs_free_all_cached_vnodes (fs : Z) (s : vstate) : outcome (vstate * Z) :=
  f ← deref (s.(filesystems) !! fs);
  if f.(vnode_ll).(root) =? 0 then Ret (s, 0)
  else s ← free_all_loop (S (size s.(lnodes))) fs s; Ret (s, 0).

(** An error (0 when none) and the node. *)
Definition fs_lookup_vnode (path : list Z) (fs : Z) (s : vstate) : outcome (Z * Z) :=
  r ← str_canonical path;
  let '(tmp, st) := r : list Z * Z in
  if st <? 0 then Ret (st, 0)
  else
    f ← deref (s.(filesystems) !! fs);
    mnt ← deref (s.(strs) !! f.(mntpoint));
    r ← str_relative tmp mnt;
    let '(tmp, st) := r : list Z * Z in
    if st <? 0 then Ret (st, 0)
    else
      v ← fs_lookup_vnode_cached_relative tmp fs s;
      if v =? 0 then Ret (- ENOENT, 0) else Ret (0, v).

Definition fs_get_dir_vnode_for_file (path : list Z) (fs : Z) (s : vstate) : outcome Z :=
  r ← str_rslash path;
  match r with
  | None => Panic
  | Some dir => fs_lookup_vnode_cached_relative (match dir with [] => [SLASH] | _ => dir end) fs s
  end.

Definition fs_ino_to_vnode (ino fs : Z) (s : vstate) : outcome Z :=
  f ← deref (s.(filesystems) !! fs);
  for_each s f.(vnode_ll) (fun hit v =>
    x ← deref (s.(vnodes) !! v); Ret (if x.(vn_n) =? ino then (v, true) else (hit, false))) 0.

Definition fs_mkfile (path : list Z) (mode uid gid fs : Z) (s : vstate) : outcome (vstate * (Z * Z)) :=
  r ← str_canonical path;
  let '(tmp, st) := r : list Z * Z in
  if st <? 0 then Ret (s, (st, 0))
  else
    f ← deref (s.(filesystems) !! fs);
    mnt ← deref (s.(strs) !! f.(mntpoint));
    r ← str_relative tmp mnt;
    let '(tmp, st) := r : list Z * Z in
    if st <? 0 then Ret (s, (st, 0))
    else
      dir ← fs_get_dir_vnode_for_file tmp fs s;
      r ← str_filename tmp;
      let '(tmp, st) := r : list Z * Z in
      if st <? 0 then Ret (s, (st, 0))
      else drv_mkfile f.(driver) dir tmp mode uid gid fs s.
End ops.

(** ** The string calls compute *)

Definition text (s : list Z) : Prop := Forall (fun b => 0 < b < 256) s /\ Z.of_nat (length s) < 2 ^ 20.

Lemma scratch_cstr s t : text s -> text t -> cstr (scratch s t) BUF s /\ cstr (scratch s t) (OTHER s) t.
Proof.
  intros [Hs Ls] [Ht Lt]. unfold OTHER, BUF. split; (split; [|split; [done|lia]]); unfold scratch, BUF.
  - apply write_bytes_bytes_at; [apply write_bytes_at|]. right. rewrite length_app. cbn. lia.
  - apply write_bytes_at.
Qed.

Lemma load_bytes_spec m l : forall p, bytes_at m p l -> load_bytes (length l) m p = Ret l.
Proof.
  induction l as [|b l IH]; intros p Hb; cbn; [done|]. assert (H0 : load m p = Ret b).
  { unfold load. replace p with (p + Z.of_nat 0) by lia. by rewrite (Hb 0%nat b). }
  rewrite H0, bind_Ret, IH; [done|]. intros i c Hi. replace (p + 1 + Z.of_nat i) with (p + Z.of_nat (S i)) by lia. by apply Hb.
Qed.
Lemma read_str_spec m p s : cstr m p s -> read_str m p = Ret s.
Proof.
  intros Hc. unfold read_str. rewrite (strlen_cstr _ _ _ Hc), bind_Ret, Nat2Z.id. apply load_bytes_spec.
  destruct Hc as (Hb & _). intros i b Hi. apply Hb. by apply lookup_app_l_Some.
Qed.

Lemma str_eq_spec s t : text s -> text t -> str_eq s t = Ret (bool_decide (s = t)).
Proof.
  intros Hs Ht. destruct (scratch_cstr s t Hs Ht) as [Cs Ct]. unfold str_eq. rewrite (strcmp_cstr _ _ _ _ _ Cs Ct), bind_Ret. f_equal.
  rewrite Z.eqb_compare. pose proof (strcmp_spec_0 s t) as He. case_bool_decide as Hst.
  - by rewrite (proj2 He Hst).
  - destruct (Z.compare_spec (strcmp_spec s t) 0) as [E|E|E]; [by apply He in E|done|done].
Qed.
Lemma str_starts_spec s t : text s -> text t -> str_starts s t = Ret (bool_decide (t `prefix_of` s)).
Proof.
  intros Hs Ht. destruct (scratch_cstr s t Hs Ht) as [Cs Ct]. unfold str_starts.
  destruct (strstr_cstr _ _ _ _ _ Cs Ct) as (r & -> & Hr). rewrite bind_Ret. f_equal.
  assert (H0 : occurs_at s t 0 <-> t `prefix_of` s).
  { unfold occurs_at. rewrite drop_0. split.
    - intros [<- _]. by exists (drop (length t) s); rewrite take_drop.
    - intros (k & ->). by rewrite take_app_length, length_app; split; [|lia]. }
  destruct Hr as [(i & -> & Ho & Hj)|[-> Hj]]; unfold BUF.
  - destruct i as [|i].
    + rewrite (proj2 (Z.eqb_eq _ _)) by lia. symmetry. by apply bool_decide_eq_true_2, H0.
    + rewrite (proj2 (Z.eqb_neq _ _)) by lia. symmetry. apply bool_decide_eq_false_2. intros Hp. apply (Hj 0%nat); [lia|by apply H0].
  - rewrite (proj2 (Z.eqb_neq _ _)) by lia. symmetry. apply bool_decide_eq_false_2. intros Hp. by apply (Hj 0%nat), H0.
Qed.
Lemma str_canonical_spec s : text s -> str_canonical s = Ret (canonical s, 0).
Proof.
  intros Hs. destruct (scratch_cstr s [] Hs) as [Cs _]; [by split; [constructor|cbn; lia]|]. unfold str_canonical.
  destruct (path_make_canonical_spec _ _ _ Cs) as (m & -> & Cm & _). rewrite bind_Ret. cbn [fst snd]. by rewrite (read_str_spec _ _ _ Cm).
Qed.
(** What is left of [s] on a file system mounted at [mnt], and the status. *)
Definition relative (s mnt : list Z) : list Z * Z :=
  if (length s <? length mnt)%nat then (s, - EINVAL)
  else if bool_decide (mnt = [SLASH]) then (s, 0)
  else if bool_decide (take (length mnt) s = mnt) then (drop (length mnt) s, 0)
  else (s, - ENAMETOOLONG).
Lemma str_relative_spec s t : text s -> text t -> str_relative s t = Ret (relative s t).
Proof.
  intros Hs Ht. destruct (scratch_cstr s t Hs Ht) as [Cs Ct]. unfold str_relative, relative.
  destruct (path_make_relative_spec _ _ _ _ _ Cs Ct) as (_ & H1 & H2 & H3 & H4); [done|unfold OTHER, BUF; lia|].
  destruct (length s <? length t)%nat eqn:E; [apply Nat.ltb_lt in E|apply Nat.ltb_ge in E].
  { rewrite H1 by done. rewrite bind_Ret. cbn [fst snd]. by rewrite (read_str_spec _ _ _ Cs). }
  case_bool_decide as E1.
  { rewrite H2 by done. rewrite bind_Ret. cbn [fst snd]. by rewrite (read_str_spec _ _ _ Cs). }
  case_bool_decide as E2.
  - destruct H4 as (m & -> & Cm & _); [done|exists (drop (length t) s); by rewrite <- E2 at 1; rewrite take_drop|].
    rewrite bind_Ret. cbn [fst snd]. by rewrite (read_str_spec _ _ _ Cm).
  - rewrite H3 by done. rewrite bind_Ret. cbn [fst snd]. by rewrite (read_str_spec _ _ _ Cs).
Qed.
Lemma text_nil : text [].
Proof. by split; [constructor|cbn; lia]. Qed.
Lemma str_filename_spec dir name : text (dir ++ SLASH :: name) -> SLASH ∉ name -> str_filename (dir ++ SLASH :: name) = Ret (name, 0).
Proof.
  intros Hs Hn. destruct (scratch_cstr _ [] Hs text_nil) as [Cs _]. unfold str_filename. destruct Hs as [_ Hl].
  destruct (path_make_filename_spec _ _ _ _ Cs Hn) as (m & -> & Cm & _); [lia|]. rewrite bind_Ret. cbn [fst snd].
  by rewrite (read_str_spec _ _ _ Cm).
Qed.
Lemma str_rslash_none s : text s -> SLASH ∉ s -> str_rslash s = Ret None.
Proof.
  intros Hs Hn. destruct (scratch_cstr _ [] Hs text_nil) as [Cs _]. unfold str_rslash, strrchr. destruct Hs as [_ Hl].
  rewrite (strlen_cstr _ _ _ Cs), bind_Ret. cbv zeta. rewrite Z.min_l by (unfold _SSIZE_MAX_; lia).
  destruct (strrchr_loop_spec _ _ _ SLASH Cs ltac:(by split) (S (length s))) as (r & Hr & Hc); [lia| |].
  { intros j Hj Hjs. apply lookup_lt_Some in Hjs. rewrite length_app in Hjs. cbn in Hjs. lia. }
  replace (Z.to_nat (Z.of_nat (length s) + 1)) with (S (length s)) by lia.
  replace (Z.of_nat (S (length s)) - 1) with (Z.of_nat (length s)) in Hr by lia. rewrite Hr, bind_Ret.
  destruct Hc as [(j & _ & Hj & _)|[-> _]]; [|done]. exfalso. apply lookup_app_Some in Hj as [Hj|[_ Hj]].
  - apply Hn. by apply list_elem_of_lookup_2 in Hj.
  - destruct (j - length s)%nat as [|k]; [discriminate|by destruct k].
Qed.
Lemma str_rslash_some dir name : text (dir ++ SLASH :: name) -> SLASH ∉ name -> str_rslash (dir ++ SLASH :: name) = Ret (Some dir).
Proof.
  intros Hs Hn. destruct (scratch_cstr _ [] Hs text_nil) as [Cs _]. unfold str_rslash, strrchr. destruct Hs as [_ Hl].
  rewrite (strlen_cstr _ _ _ Cs), bind_Ret. cbv zeta. rewrite Z.min_l by (unfold _SSIZE_MAX_; lia). set (s := dir ++ SLASH :: name) in *.
  destruct (strrchr_loop_spec _ _ _ SLASH Cs ltac:(by split) (S (length s))) as (r & Hr & Hc); [lia| |].
  { intros j Hj Hjs. apply lookup_lt_Some in Hjs. rewrite length_app in Hjs. cbn in Hjs. lia. }
  replace (Z.to_nat (Z.of_nat (length s) + 1)) with (S (length s)) by lia.
  replace (Z.of_nat (S (length s)) - 1) with (Z.of_nat (length s)) in Hr by lia. rewrite Hr, bind_Ret.
  assert (Hd : (s ++ [0]) !! length dir = Some SLASH).
  { unfold s. rewrite <- app_assoc. cbn. by rewrite list_lookup_middle. }
  destruct Hc as [(j & -> & Hj & Hlast)|[-> Hno]].
  - assert (j = length dir) as ->.
    { destruct (decide (j < length dir)%nat); [by destruct (Hlast (length dir))|].
      destruct (decide (j = length dir)); [done|]. exfalso. unfold s in Hj. rewrite <- app_assoc in Hj.
      rewrite lookup_app_r in Hj by lia. destruct (j - length dir)%nat as [|k] eqn:E; [lia|]. cbn in Hj.
      apply lookup_app_Some in Hj as [Hj|[_ Hj]]; [by apply list_elem_of_lookup_2 in Hj|].
      destruct (k - length name)%nat as [|?]; [discriminate|done]. }
    rewrite (proj2 (Z.eqb_neq _ 0)) by (unfold BUF; lia). do 2 f_equal. unfold s. replace (Z.to_nat _) with (length dir) by lia.
    by rewrite take_app_length.
  - exfalso. apply Hno. by apply list_elem_of_lookup_2 in Hd.
Qed.

Lemma text_sublist s t : s `sublist_of` t -> text t -> text s.
Proof.
  intros Hs [Hf Hl]. split; [by eapply sublist_Forall|]. apply sublist_length in Hs. lia.
Qed.
Lemma text_canonical s : text s -> text (canonical s).
Proof. apply text_sublist, canonical_sublist. Qed.
Lemma text_take n s : text s -> text (take n s).
Proof. apply text_sublist, sublist_take. Qed.
Lemma text_drop n s : text s -> text (drop n s).
Proof. apply text_sublist, sublist_drop. Qed.
Lemma text_relative s mnt : text s -> text (relative s mnt).1.
Proof. unfold relative. intros. repeat case_match; by try apply text_drop. Qed.

Lemma text_until_nul s : text s -> until_nul s = s.
Proof. intros [Hf _]. induction Hf as [|b s Hb _ IH]; cbn; [done|]. by rewrite (proj2 (Z.eqb_neq b 0)), IH by lia. Qed.

(** ** Paths of cached nodes *)

(** The reference: the names from the root down, a slash between them except
    after the root's. *)
Fixpoint node_path (depth : nat) (vs : gmap Z VirtualNode) (st : gmap Z (list Z)) (v : Z) : option (list Z) :=
  match depth with
  | O => None
  | S depth =>
      x ← vs !! v;
      nm ← st !! x.(vn_name);
      if x.(parent) =? 0 then Some nm
      else
        px ← vs !! x.(parent);
        p ← node_path depth vs st x.(parent);
        Some (p ++ (if px.(parent) =? 0 then [] else [SLASH]) ++ nm)
  end.

Lemma shift_up_spec cur l r : forall fuel, (r < fuel)%nat -> (0 < cur)%nat -> (r + cur <= length l)%nat -> Z.of_nat (length l) < 2 ^ 32 ->
  shift_up fuel l (Z.of_nat (r + cur) - 1) (Z.of_nat cur) = Ret (take cur l ++ take r l ++ drop (r + cur) l).
Proof.
  revert l. induction r as [|r IH]; intros l [|fuel] Hf Hc Hl Hb; [lia| |lia|]; cbn [shift_up]; rewrite Z.geb_leb.
  - rewrite (proj2 (Z.leb_gt _ _)) by lia. cbn [negb]. cbn [Nat.add]. rewrite take_0. by rewrite app_nil_l, take_drop.
  - rewrite (proj2 (Z.leb_le _ _)) by lia. cbn [negb].
    replace (Z.to_nat (Z.of_nat (S r + cur) - 1 - Z.of_nat cur)) with r by lia.
    replace (Z.to_nat (Z.of_nat (S r + cur) - 1)) with (r + cur)%nat by lia.
    destruct (lookup_lt_is_Some_2 l r) as (c & Hr); [lia|]. destruct (lookup_lt_is_Some_2 l (r + cur)) as (c' & Hr'); [lia|].
    rewrite Hr, Hr'. cbn [deref]. rewrite !bind_Ret. rewrite u32_small by (unfold is_u32; lia).
    replace (Z.of_nat (S r + cur) - 1 - 1) with (Z.of_nat (r + cur) - 1) by lia.
    rewrite IH by (rewrite ?length_insert; lia). f_equal.
    rewrite !take_insert_ge by lia. f_equal. rewrite (drop_S (<[_ := c]> l) c) by (apply list_lookup_insert_eq; lia).
    rewrite drop_insert_lt by lia. rewrite (take_S_r l r c) by done. by rewrite <- app_assoc.
Qed.

Section lookup.
Context {H D : Type} `{!Allocator H}.
Implicit Types (s : vstate H D).

Record names_ok s : Prop := {
  nm_text : forall v x, s.(vnodes) !! v = Some x -> exists nm, s.(strs) !! x.(vn_name) = Some nm /\ text nm /\ nm <> [];
  nm_null : s.(vnodes) !! 0 = None }.

Definition pad (l : list Z) : list Z := l ++ replicate (Z.to_nat PATH_MAX - length l) 0.

Lemma path_loop_spec s : names_ok s -> forall fuel depth v q acc (sl : bool),
  node_path depth s.(vnodes) s.(strs) v = Some q ->
  let slash := if sl then [SLASH] else [] in
  Z.of_nat (length (q ++ slash ++ acc)) < PATH_MAX -> (Z.to_nat PATH_MAX - length acc < fuel)%nat ->
  path_loop fuel s v (pad acc) (Z.of_nat (length acc)) sl = Ret (pad (q ++ slash ++ acc)).
Proof.
  intros Hok. induction fuel as [|fuel IH]; intros depth v q acc sl Hq slash Hlen Hf; [lia|]. cbn [path_loop].
  destruct depth as [|depth]; [discriminate|]. cbn [node_path] in Hq. unfold PATH_MAX in Hlen, Hf.
  destruct (Z.eqb_spec v 0) as [->|Hv]; [by rewrite (nm_null _ Hok) in Hq|].
  destruct (s.(vnodes) !! v) as [x|] eqn:Ex; [|discriminate]. cbn [mbind option_bind] in Hq. cbn [deref]. rewrite bind_Ret.
  destruct (nm_text _ Hok v x Ex) as (nm & En & [_ Hnl] & Hne). rewrite En in Hq |- *. cbn [mbind option_bind] in Hq. cbn [deref]. rewrite bind_Ret. cbv zeta.
  set (cur := (length nm + length slash)%nat).
  assert (Hcur : Z.of_nat (length nm) + (if sl then 1 else 0) = Z.of_nat cur) by (unfold cur, slash; destruct sl; cbn; lia).
  rewrite Hcur. assert (Hnm : (0 < length nm)%nat) by by destruct nm; [|cbn; lia].
  assert (Hq' : exists pre, q = pre ++ nm /\ (if x.(parent) =? 0 then pre = [] else
    exists px p, s.(vnodes) !! x.(parent) = Some px /\ node_path depth s.(vnodes) s.(strs) x.(parent) = Some p /\
      pre = p ++ (if px.(parent) =? 0 then [] else [SLASH]))).
  { destruct (x.(parent) =? 0); [exists []; by injection Hq as <-|].
    destruct (s.(vnodes) !! parent x) as [px|]; [|discriminate]. cbn in Hq.
    destruct (node_path depth _ _ _) as [p|]; [|discriminate]. cbn in Hq. injection Hq as <-.
    eexists. split; [by rewrite app_assoc|]. by exists px, p. }
  destruct Hq' as (pre & -> & Hpre). rewrite !length_app in Hlen.
  rewrite Z.geb_leb, (proj2 (Z.leb_gt _ _)) by (unfold PATH_MAX, cur; lia).
  assert (Hpl : length (pad acc) = 512%nat) by (unfold pad, PATH_MAX; rewrite length_app, length_replicate; lia).
  rewrite u32_small by (unfold is_u32, cur; lia).
  replace (Z.of_nat (length acc) + Z.of_nat cur - 1) with (Z.of_nat (length acc + cur) - 1) by lia.
  rewrite shift_up_spec by (unfold PATH_MAX, cur in *; lia). rewrite bind_Ret. cbv zeta.
  assert (Ht : take (length acc) (pad acc) = acc) by (unfold pad; by rewrite take_app_length).
  rewrite Ht. set (tmp := if sl then _ else _).
  assert (Htmp : tmp = pad (nm ++ slash ++ acc)).
  { assert (Hd : drop (length acc + cur) (pad acc) = replicate (512 - length (nm ++ slash ++ acc)) 0).
    { unfold pad. rewrite drop_app_ge by lia. rewrite drop_replicate. f_equal. rewrite !length_app. unfold PATH_MAX, cur. lia. }
    unfold tmp, pad, slash in *. rewrite Hd. unfold cur in *. destruct sl; cbn [length app] in *.
    - rewrite drop_app_le by (rewrite length_take; lia). 
      rewrite insert_app_r_alt by lia. replace (Z.to_nat (Z.of_nat (length nm + 1) - 1) - length nm)%nat with 0%nat by lia.
      destruct (drop (length nm) (take (length nm + 1) (acc ++ replicate (Z.to_nat PATH_MAX - length acc) 0))) as [|c [|? ?]] eqn:Edt;
        pose proof (f_equal length Edt) as Hdl; rewrite length_drop, length_take, Hpl in Hdl; cbn in Hdl; try lia.
      cbn [app insert list_insert]. rewrite <- app_assoc. done.
    - rewrite Nat.add_0_r. rewrite drop_app_ge by (rewrite length_take; lia). rewrite length_take, Hpl.
      replace (length nm - length nm `min` 512)%nat with 0%nat by lia. by rewrite drop_0, <- app_assoc. }
  rewrite Htmp. destruct (x.(parent) =? 0) eqn:Ep; [by subst pre|].
  destruct Hpre as (px & p & Epx & Hnp & ->). rewrite Epx. cbn [deref]. rewrite bind_Ret.
  replace (Z.of_nat (length acc) + Z.of_nat cur) with (Z.of_nat (length (nm ++ slash ++ acc))) by (rewrite !length_app; unfold cur; lia).
  rewrite (IH depth _ p) by (first [done|rewrite ?length_app in *; unfold PATH_MAX in *; destruct (px.(parent) =? 0); cbn in *; lia]).
  f_equal. f_equal. rewrite <- !app_assoc. by destruct (px.(parent) =? 0).
Qed.

Lemma vnode_path_spec s depth v q : names_ok s -> node_path depth s.(vnodes) s.(strs) v = Some q ->
  Z.of_nat (length q) < PATH_MAX -> vnode_path s v = Ret (pad q).
Proof.
  intros Hok Hq Hl. pose proof (path_loop_spec s Hok (S (Z.to_nat PATH_MAX)) depth v q [] false Hq) as Hp.
  cbn [app length] in Hp. rewrite !app_nil_r in Hp. unfold vnode_path. apply Hp; [done|unfold PATH_MAX; lia].
Qed.

Lemma node_path_text s depth : names_ok s -> forall v q, node_path depth s.(vnodes) s.(strs) v = Some q -> Forall (fun b => 0 < b < 256) q.
Proof.
  intros Hok. induction depth as [|depth IH]; intros v q Hq; [discriminate|]. cbn [node_path] in Hq.
  destruct (s.(vnodes) !! v) as [x|] eqn:Ex; [|discriminate]. cbn [mbind option_bind] in Hq.
  destruct (nm_text _ Hok v x Ex) as (nm & En & [Ht _] & _). rewrite En in Hq. cbn [mbind option_bind] in Hq.
  destruct (x.(parent) =? 0); [by injection Hq as <-|].
  destruct (s.(vnodes) !! parent x) as [px|]; [|discriminate]. cbn [mbind option_bind] in Hq.
  destruct (node_path depth _ _ _) as [p|] eqn:Ep; [|discriminate]. cbn [mbind option_bind] in Hq. injection Hq as <-.
  apply Forall_app. split; [by apply (IH _ _ Ep)|]. apply Forall_app. split; [|done].
  destruct (px.(parent) =? 0); repeat constructor; unfold SLASH; lia.
Qed.

(** ** Loops over a list *)

Fixpoint iter {A} (body : A -> Z -> outcome (A * bool)) (ds : list Z) (a : A) : outcome A :=
  match ds with
  | [] => Ret a
  | d :: ds =>
      r ← (if d =? 0 then Ret (a, false) else body a d);
      if r.2 : bool then Ret r.1 else iter body ds r.1
  end.

(** The data of the list, in order. *)
Definition entries_of s (ll : LinkedList) (ds : list Z) : Prop :=
  exists l, seg s.(lnodes) ll.(root) l 0 /\ NoDup l.*1 /\ l.*2 = ds.

Lemma ll_iter_spec {A} (body : A -> Z -> outcome (A * bool)) m l : forall fuel p a, seg m p l 0 -> (length l < fuel)%nat ->
  ll_iter body fuel m p a = iter body l.*2 a.
Proof.
  induction l as [|[b d] l IH]; intros [|fuel] p a Hs Hf; cbn in Hs, Hf; try lia; cbn [ll_iter].
  - by subst p.
  - destruct Hs as (-> & Hb & nx & Hm & Hs). rewrite (proj2 (Z.eqb_neq b 0) Hb), Hm. cbn [deref]. rewrite bind_Ret. cbn [node_data next fmap list_fmap snd iter].
    destruct (if d =? 0 then Ret (a, false) else body a d) as [r| |]; [|done..]. rewrite !bind_Ret. destruct r.2; [done|]. apply IH; [done|lia].
Qed.
(** A loop that stops at the first entry it looks for. *)
Definition first_such (P : Z -> bool) (ds : list Z) : option Z := head (filter (fun d => P d = true) ds).
Lemma iter_find {A} (body : A -> Z -> outcome (A * bool)) (P : Z -> bool) (f : Z -> outcome A) a ds :
  (forall d, d ∈ ds -> d <> 0 /\ body a d = if P d then b ← f d; Ret (b, true) else Ret (a, false)) ->
  iter body ds a = match first_such P ds with Some d => f d | None => Ret a end.
Proof.
  unfold first_such. induction ds as [|d ds IH]; intros Hds; [done|]. cbn [iter]. destruct (Hds d) as [Hd Hb]; [by left|].
  rewrite (proj2 (Z.eqb_neq d 0)), Hb by done. rewrite filter_cons. destruct (P d) eqn:E.
  - rewrite decide_True by done. cbn [head]. by destruct (f d).
  - rewrite decide_False by done. rewrite bind_Ret. cbn [fst snd]. apply IH. intros e He. apply Hds. by right.
Qed.
Lemma first_such_some P ds d : first_such P ds = Some d -> d ∈ ds /\ P d = true.
Proof.
  unfold first_such. intros Hf. assert (d ∈ filter (fun d => P d = true) ds) as He.
  { destruct (filter _ ds); [done|]. injection Hf as ->. by left. }
  apply list_elem_of_filter in He. tauto.
Qed.
Lemma first_such_none P ds : first_such P ds = None -> forall d, d ∈ ds -> P d = false.
Proof.
  unfold first_such. intros Hf d Hd. destruct (P d) eqn:E; [|done]. assert (d ∈ filter (fun d => P d = true) ds) as He by (by apply list_elem_of_filter).
  destruct (filter _ ds); [by apply elem_of_nil in He|done].
Qed.
Lemma for_each_spec {A} s ll ds (body : A -> Z -> outcome (A * bool)) a : entries_of s ll ds -> for_each s ll body a = iter body ds a.
Proof.
  intros (l & Hs & Hn & <-). apply ll_iter_spec; [done|]. pose proof (seg_size _ _ _ _ Hs Hn). lia.
Qed.

(** The first node of the cache at a path. *)
Definition at_path s (path : list Z) (v : Z) : Prop := node_path (Z.to_nat PATH_MAX) s.(vnodes) s.(strs) v = Some path.
#[export] Instance at_path_dec s path v : Decision (at_path s path v) := decide (_ = _).
Definition first_at s (ds : list Z) (path : list Z) : Z := default 0 (head (filter (at_path s path) ds)).

(** Every cached node is reached from a root by a path that fits. *)
Definition cache_ok s (ds : list Z) : Prop :=
  forall v, v ∈ ds -> exists q, node_path (Z.to_nat PATH_MAX) s.(vnodes) s.(strs) v = Some q /\ Z.of_nat (length q) < PATH_MAX.

Lemma cached_spec s fs f ds path : names_ok s -> s.(filesystems) !! fs = Some f -> entries_of s f.(vnode_ll) ds -> cache_ok s ds ->
  text path -> fs_lookup_vnode_cached_relative path fs s = Ret (first_at s ds path).
Proof.
  intros Hok Hf He Hc Ht. unfold fs_lookup_vnode_cached_relative. rewrite Hf. cbn [deref]. rewrite bind_Ret, (for_each_spec s _ ds) by done.
  clear He. unfold first_at. induction ds as [|v ds IH]; [done|]. cbn [iter].
  destruct (Hc v) as (q & Hq & Hl); [by apply elem_of_cons; left|].
  destruct (Z.eqb_spec v 0) as [->|Hv].
  { exfalso. cbn [node_path] in Hq. change (Z.to_nat PATH_MAX) with (S 511) in Hq. cbn [node_path] in Hq. by rewrite (nm_null _ Hok) in Hq. }
  rewrite (vnode_path_spec s _ v q Hok Hq Hl), bind_Ret. unfold pad.
  pose proof (node_path_text s _ Hok v q Hq) as Hb. destruct (Z.to_nat PATH_MAX - length q)%nat as [|k] eqn:Ek; [unfold PATH_MAX in *; lia|].
  cbn [replicate]. rewrite (until_nul_app q _ Hb), str_eq_spec by (first [done | split; [done|unfold PATH_MAX in *; lia]]). rewrite bind_Ret, bind_Ret. cbn [fst snd].
  rewrite filter_cons. case_bool_decide as E.
  - subst path. by rewrite decide_True by done.
  - rewrite decide_False by (unfold at_path; rewrite Hq; congruence). cbn [fst snd]. apply IH. intros w Hw. apply Hc. apply elem_of_cons. by right.
Qed.
End lookup.

(** ** What the operations do *)
Section spec.
Context {H D : Type} `{!Allocator H} `{DT : DriverTables} `{!Drivers (vstate H D)}.
Implicit Types (s : vstate H D).

(** A mounted file system whose cache is well formed. *)
Record fs_ok s (fs : Z) (f : FileSystem) (mnt : list Z) (ds : list Z) : Prop := {
  fo_fs : s.(filesystems) !! fs = Some f;
  fo_mnt : s.(strs) !! f.(mntpoint) = Some mnt;
  fo_text : text mnt;
  fo_list : entries_of s f.(vnode_ll) ds;
  fo_names : names_ok s;
  fo_cache : cache_ok s ds }.

Lemma lookup_spec s fs f mnt ds path : fs_ok s fs f mnt ds -> text path ->
  fs_lookup_vnode path fs s =
  Ret (let '(rel, st) := relative (canonical path) mnt in
       if st <? 0 then (st, 0)
       else let v := first_at s ds rel in if v =? 0 then (- ENOENT, 0) else (0, v)).
Proof.
  intros [Hf Hm Ht Hl Hn Hc] Hp. unfold fs_lookup_vnode. rewrite (str_canonical_spec path Hp), bind_Ret. cbn [Z.ltb Z.compare].
  rewrite Hf. cbn [deref]. rewrite bind_Ret, Hm. cbn [deref]. rewrite bind_Ret.
  rewrite str_relative_spec by (try apply text_canonical; done). rewrite bind_Ret.
  pose proof (text_relative (canonical path) mnt (text_canonical _ Hp)) as Hr.
  destruct (relative (canonical path) mnt) as [rel st]. cbn [fst] in Hr. destruct (st <? 0); [done|].
  rewrite (cached_spec s fs f ds) by done. rewrite bind_Ret. by destruct (_ =? 0).
Qed.

Definition dirname (dir : list Z) : list Z := match dir with [] => [SLASH] | _ => dir end.
Lemma text_dirname dir name : text (dir ++ SLASH :: name) -> text (dirname dir).
Proof.
  intros Ht. destruct dir as [|c dir]; [split; [repeat constructor; unfold SLASH; lia|cbn; lia]|].
  eapply text_sublist, Ht. by apply sublist_inserts_r.
Qed.

Lemma mkfile_spec s fs f mnt ds path mode uid gid : fs_ok s fs f mnt ds -> text path ->
  let '(rel, st) := relative (canonical path) mnt in
  (st < 0 -> fs_mkfile path mode uid gid fs s = Ret (s, (st, 0))) /\
  (st = 0 -> SLASH ∉ rel -> fs_mkfile path mode uid gid fs s = Panic) /\
  (st = 0 -> forall dir name, rel = dir ++ SLASH :: name -> SLASH ∉ name ->
     fs_mkfile path mode uid gid fs s = drv_mkfile f.(driver) (first_at s ds (dirname dir)) name mode uid gid fs s).
Proof.
  intros [Hf Hm Ht Hl Hn Hc] Hp. unfold fs_mkfile. rewrite (str_canonical_spec path Hp), bind_Ret. cbn [Z.ltb Z.compare].
  rewrite Hf. cbn [deref]. rewrite bind_Ret, Hm. cbn [deref]. rewrite bind_Ret.
  rewrite str_relative_spec by (try apply text_canonical; done). rewrite bind_Ret.
  pose proof (text_relative (canonical path) mnt (text_canonical _ Hp)) as Hr.
  destruct (relative (canonical path) mnt) as [rel st]. cbn [fst] in Hr. split; [|split].
  - intros Hst. by rewrite (proj2 (Z.ltb_lt st 0)).
  - intros -> Hno. cbn [Z.ltb Z.compare]. unfold fs_get_dir_vnode_for_file. by rewrite str_rslash_none.
  - intros -> dir name -> Hno. cbn [Z.ltb Z.compare]. unfold fs_get_dir_vnode_for_file. rewrite str_rslash_some by done. rewrite bind_Ret.
    fold (dirname dir). rewrite (cached_spec s fs f ds) by (done || by apply (text_dirname dir name)).
    rewrite bind_Ret, str_filename_spec by done. by rewrite bind_Ret.
Qed.

(** Freeing a cache that is not empty follows the null root of the emptied
    list: removing the last node succeeds, and the loop goes on. *)
Lemma remove_first_status ls ll : root ll <> 0 -> forall r, linkedlist_remove_by_position (H:=H) 0 ls ll = Ret r ->
  r.2 = 0 /\ r.1.1.(nodes) = delete (root ll) ls.(nodes).
Proof.
  intros Hr r. unfold linkedlist_remove_by_position. change (Z.to_nat 0) with O. cbn [position_loop]. rewrite bind_Ret.
  rewrite (proj2 (Z.eqb_neq _ 0) Hr). cbn [negb]. unfold unlink. cbn [Z.eqb negb]. intros E. bind_inv. subst.
  unfold free_node in *. bind_inv. subst. cbn in *. bind_inv. subst. done.
Qed.
Lemma free_vnode_lnodes v s s' : free_vnode v s = Ret s' -> s'.(lnodes) = s.(lnodes) /\ s'.(filesystems) = s.(filesystems).
Proof. unfold free_vnode, free_str, free_block. intros E. bind_inv. by subst. Qed.
Lemma free_all_diverges fs fuel : forall s, s.(lnodes) !! 0 = None -> forall s', free_all_loop fuel fs s <> Ret s'.
Proof.
  induction fuel as [|fuel IH]; intros s H0 s' E; [discriminate|]. cbn [free_all_loop] in E. bind_inv.
  subst r r0. destruct (free_vnode_lnodes _ _ _ E2) as [Hl _]. unfold run_ll in E3.
  apply bind_Ret_inv in E3 as ([[ls ll] st] & E3 & Er2). injection Er2 as <-.
  destruct (Z.eq_dec (root (vnode_ll f)) 0) as [Ez|Hr]; [congruence|].
  destruct (remove_first_status _ _ Hr _ E3) as [Hst Hd]. cbn in Hst, Hd. subst st. cbn [Z.eqb] in E.
  eapply IH; [|exact E]. cbn. rewrite Hd, lookup_delete_None. right. by rewrite Hl.
Qed.
Lemma free_all_cached_never_returns fs f s r : s.(lnodes) !! 0 = None -> s.(filesystems) !! fs = Some f -> f.(vnode_ll).(root) <> 0 ->
  fs_free_all_cached_vnodes fs s <> Ret r.
Proof.
  intros H0 Hf Hr E. unfold fs_free_all_cached_vnodes in E. rewrite Hf in E. cbn [deref] in E. rewrite bind_Ret in E.
  rewrite (proj2 (Z.eqb_neq _ 0) Hr) in E. bind_inv. by eapply free_all_diverges.
Qed.
End spec.
