(* ===== verification/Serialio.v ===== *)
(** * The serial bus

    [drivers/input/serialio]: drivers and devices, each list in the order of
    registration, and the matching that links a device to one driver.  The
    functions of a driver are code reached through pointers: [SerialDrivers]. *)
From S2P Require Import Prelude Alloc Kmalloc LinkedList Fs.

(** ** Data *)
Definition SERIAL_NOMAJ : Z := 0.
Definition SERIAL_NONAME : Z := 0.
Definition EINVAL : Z := 22.
Definition EEXIST : Z := 17.
Definition ENOMEM : Z := 12.
Definition ENOENT : Z := 2.
Definition EBUSY : Z := 16.

Record SerialIODevice := mkSDev { sd_name : Z; sd_maj : Z; sd_min : Z; sd_driver : Z; sd_data : Z }.
Record SerialIODriver := mkSDrv { sv_name : Z; sv_maj : Z; try_link : Z; sv_unlink : Z }.
Definition sizeof_SerialIODevice : Z := 20.
Definition sizeof_SerialIODriver : Z := 16.
Definition set_driver (p : Z) (x : SerialIODevice) : SerialIODevice := mkSDev x.(sd_name) x.(sd_maj) x.(sd_min) p x.(sd_data).

(** What [try_link] and [unlink] of a driver do, by the function's address;
    [X] is what the drivers keep. *)
Class SerialDrivers (X : Type) := {
  run_try_link : Z -> Z -> SerialIODevice -> X -> outcome (X * Z);
  run_unlink : Z -> Z -> SerialIODevice -> X -> outcome (X * Z) }.
(** [serialio.h]: 0 or a negative error number. *)
Class SerialDriversLaws (X : Type) `{!SerialDrivers X} := {
  link_law f d y x : exists x' st, run_try_link f d y x = Ret (x', st) /\ st <= 0;
  unlink_law f d y x : exists x' st, run_unlink f d y x = Ret (x', st) /\ st <= 0 }.

Section ops.
Context {H X : Type} `{!Allocator H} `{!SerialDrivers X}.

(** [s_strs] has the characters of the C string at an address. *)
Record sstate := mkSS {
  s_ll : llstate H; s_strs : gmap Z (list Z); drv_at : gmap Z SerialIODriver; dev_at : gmap Z SerialIODevice;
  g_serial_drvs : LinkedList; g_serial_devs : LinkedList; s_x : X }.
Definition set_sll (l : llstate H) (s : sstate) : sstate := mkSS l s.(s_strs) s.(drv_at) s.(dev_at) s.(g_serial_drvs) s.(g_serial_devs) s.(s_x).
Definition set_sheap (h : H) (s : sstate) : sstate := set_sll (mkLS h s.(s_ll).(nodes)) s.
Definition set_drvs (t : gmap Z SerialIODriver) (s : sstate) : sstate := mkSS s.(s_ll) s.(s_strs) t s.(dev_at) s.(g_serial_drvs) s.(g_serial_devs) s.(s_x).
Definition set_devs (t : gmap Z SerialIODevice) (s : sstate) : sstate := mkSS s.(s_ll) s.(s_strs) s.(drv_at) t s.(g_serial_drvs) s.(g_serial_devs) s.(s_x).
Definition set_gdrvs (l : llstate H) (ll : LinkedList) (s : sstate) : sstate := mkSS l s.(s_strs) s.(drv_at) s.(dev_at) ll s.(g_serial_devs) s.(s_x).
Definition set_gdevs (l : llstate H) (ll : LinkedList) (s : sstate) : sstate := mkSS l s.(s_strs) s.(drv_at) s.(dev_at) s.(g_serial_drvs) ll s.(s_x).
Definition set_sx (x : X) (s : sstate) : sstate := mkSS s.(s_ll) s.(s_strs) s.(drv_at) s.(dev_at) s.(g_serial_drvs) s.(g_serial_devs) x.

(** [FOR_EACH_ENTRY_IN_LL]. *)
Definition each {A} (s : sstate) (ll : LinkedList) (body : A -> Z -> outcome (A * bool)) (a : A) : outcome A :=
  ll_iter body (S (size s.(s_ll).(nodes))) s.(s_ll).(nodes) ll.(root) a.

Definition serialio_new_driver (s : sstate) : outcome (sstate * Z) :=
  r ← kcalloc_ sizeof_SerialIODriver s.(s_ll).(heap);
  let s := set_sheap r.1 s in
  let drv := r.2 in
  if drv =? 0 then Ret (s, 0)
  else
    let s := set_drvs (<[drv := mkSDrv 0 0 0 0]> s.(drv_at)) s in
    q ← linkedlist_add drv s.(s_ll) s.(g_serial_drvs);
    let '(l, ll, st) := q : llstate H * LinkedList * Z in
    let s := set_gdrvs l ll s in
    if st <? 0 then h ← kfree_ drv s.(s_ll).(heap); Ret (set_drvs (delete drv s.(drv_at)) (set_sheap h s), 0)
    else Ret (s, drv).

Definition serialio_alloc_new_dev (s : sstate) : outcome (sstate * Z) :=
  r ← kcalloc_ sizeof_SerialIODevice s.(s_ll).(heap);
  let s := set_sheap r.1 s in
  let dev := r.2 in
  if dev =? 0 then Ret (s, 0)
  else
    let s := set_devs (<[dev := mkSDev 0 0 0 0 0]> s.(dev_at)) s in
    q ← linkedlist_add dev s.(s_ll) s.(g_serial_devs);
    let '(l, ll, st) := q : llstate H * LinkedList * Z in
    let s := set_gdevs l ll s in
    if st <? 0 then h ← kfree_ dev s.(s_ll).(heap); Ret (set_devs (delete dev s.(dev_at)) (set_sheap h s), 0)
    else Ret (s, dev).

Definition names_equal (s : sstate) (a b : Z) : outcome bool := t ← deref (s.(s_strs) !! a); u ← deref (s.(s_strs) !! b); str_eq t u.

Definition serialio_check_match (x : SerialIODevice) (y : SerialIODriver) (s : sstate) : outcome bool :=
  if (x.(sd_maj) =? SERIAL_NOMAJ) && (y.(sv_maj) =? SERIAL_NOMAJ) then
    _ ← assert_ (negb (x.(sd_name) =? 0)); _ ← assert_ (negb (y.(sv_name) =? 0)); names_equal s x.(sd_name) y.(sv_name)
  else if negb (x.(sd_maj) =? 0) && negb (y.(sv_maj) =? 0) then Ret (x.(sd_maj) =? y.(sv_maj))
  else Ret false.

(** [st = drv->try_link(dev); if (st == 0) dev->driver = drv]. *)
Definition link (dev drv : Z) (x : SerialIODevice) (y : SerialIODriver) (s : sstate) : outcome (sstate * Z) :=
  r ← run_try_link y.(try_link) dev x s.(s_x);
  let s := set_sx r.1 s in
  Ret (if r.2 =? 0 then set_devs (<[dev := set_driver drv x]> s.(dev_at)) s else s, r.2).

Definition serialio_try_dev (dev : Z) (s : sstate) : outcome (sstate * Z) :=
  x ← deref (s.(dev_at) !! dev);
  _ ← assert_ (x.(sd_driver) =? 0);
  each s s.(g_serial_drvs) (fun a drv =>
    y ← deref (a.1.(drv_at) !! drv);
    m ← serialio_check_match x y a.1;
    if m : bool then r ← link dev drv x y a.1; Ret (r, true) else Ret (a, false)) (s, 0).

Definition serialio_try_drv (drv : Z) (s : sstate) : outcome (sstate * Z) :=
  y ← deref (s.(drv_at) !! drv);
  each s s.(g_serial_devs) (fun a dev =>
    x ← deref (a.1.(dev_at) !! dev);
    if negb (x.(sd_driver) =? 0) then Ret (a, false)
    else
      m ← serialio_check_match x y a.1;
      if m : bool then r ← link dev drv x y a.1; Ret (r, true) else Ret (a, false)) (s, 0).

Definition serialio_find_drv_by_major (maj : Z) (s : sstate) : outcome Z :=
  each s s.(g_serial_drvs) (fun a drv => y ← deref (s.(drv_at) !! drv); if y.(sv_maj) =? maj then Ret (drv, true) else Ret (a, false)) 0.
Definition serialio_find_drv_by_name (name : Z) (s : sstate) : outcome Z :=
  each s s.(g_serial_drvs) (fun a drv =>
    y ← deref (s.(drv_at) !! drv);
    eq ← (if y.(sv_name) =? 0 then Ret false else names_equal s y.(sv_name) name);
    if eq : bool then Ret (drv, true) else Ret (a, false)) 0.
Definition serialio_is_dev_name_dup (name min : Z) (s : sstate) : outcome bool :=
  each s s.(g_serial_devs) (fun a dev =>
    x ← deref (s.(dev_at) !! dev);
    eq ← (if x.(sd_name) =? 0 then Ret false else names_equal s x.(sd_name) name);
    if eq && (x.(sd_min) =? min) then Ret (true, true) else Ret (a, false)) false.
Definition serialio_is_dev_maj_dup (maj min : Z) (s : sstate) : outcome bool :=
  each s s.(g_serial_devs) (fun a dev =>
    x ← deref (s.(dev_at) !! dev);
    if (x.(sd_maj) =? maj) && (x.(sd_min) =? min) then Ret (true, true) else Ret (a, false)) false.

Definition serialio_unlink_dev (dev : Z) (s : sstate) : outcome (sstate * Z) :=
  x ← deref (s.(dev_at) !! dev);
  _ ← assert_ (negb (x.(sd_driver) =? 0));
  y ← deref (s.(drv_at) !! x.(sd_driver));
  r ← run_unlink y.(sv_unlink) dev x s.(s_x);
  let s := set_sx r.1 s in
  if negb (r.2 =? 0) then Ret (s, r.2) else Ret (set_devs (<[dev := set_driver 0 x]> s.(dev_at)) s, 0).

(** The result is the error and the pointer. *)
Definition serialio_new_drv_from (y : SerialIODriver) (s : sstate) : outcome (sstate * (Z * Z)) :=
  if (y.(sv_maj) =? SERIAL_NOMAJ) && (y.(sv_name) =? SERIAL_NONAME) then Ret (s, (- EINVAL, 0))
  else
    existing ← (if y.(sv_maj) =? SERIAL_NOMAJ then Ret 0 else serialio_find_drv_by_major y.(sv_maj) s);
    if negb (existing =? 0) then Ret (s, (- EEXIST, 0))
    else
      existing ← (if y.(sv_name) =? SERIAL_NONAME then Ret 0 else serialio_find_drv_by_name y.(sv_name) s);
      if negb (existing =? 0) then Ret (s, (- EEXIST, 0))
      else
        r ← serialio_new_driver s;
        let '(s, new_drv) := r : sstate * Z in
        if new_drv =? 0 then Ret (s, (- ENOMEM, 0))
        else
          let s := set_drvs (<[new_drv := y]> s.(drv_at)) s in
          r ← serialio_try_drv new_drv s;
          if negb (r.2 =? 0) then Ret (r.1, (r.2, 0)) else Ret (r.1, (0, new_drv)).

Definition serialio_delete_drv (drv : Z) (s : sstate) : outcome (sstate * Z) :=
  a ← each s s.(g_serial_devs) (fun a dev =>
        x ← deref (a.1.(dev_at) !! dev);
        if negb (x.(sd_driver) =? drv) then Ret (a, false)
        else r ← serialio_unlink_dev dev a.1; if r.2 <? 0 then Ret ((r.1, - EBUSY), true) else Ret ((r.1, 0), false)) (s, 0);
  let '(s, st) := a : sstate * Z in
  if st <? 0 then Ret (s, st)
  else
    q ← linkedlist_remove_by_data drv s.(s_ll) s.(g_serial_drvs);
    let '(l, ll, st) := q : llstate H * LinkedList * Z in
    let s := set_gdrvs l ll s in
    h ← kfree_ drv s.(s_ll).(heap);
    Ret (set_drvs (delete drv s.(drv_at)) (set_sheap h s), 0).
Definition serialio_delete_drv_by_name (name : Z) (s : sstate) : outcome (sstate * Z) :=
  drv ← serialio_find_drv_by_name name s;
  if drv =? 0 then Ret (s, - ENOENT) else serialio_delete_drv drv s.

Definition serialio_new_dev (name maj min data : Z) (s : sstate) : outcome (sstate * (Z * Z)) :=
  if (maj =? SERIAL_NOMAJ) && (name =? SERIAL_NONAME) then Ret (s, (- EINVAL, 0))
  else
    dup ← (if name =? 0 then Ret false else serialio_is_dev_name_dup name min s);
    if dup : bool then Ret (s, (- EEXIST, 0))
    else
      dup ← (if maj =? 0 then Ret false else serialio_is_dev_maj_dup maj min s);
      if dup : bool then Ret (s, (- EEXIST, 0))
      else
        r ← serialio_alloc_new_dev s;
        let '(s, dev) := r : sstate * Z in
        if dev =? 0 then Ret (s, (- ENOMEM, 0))
        else
          let s := set_devs (<[dev := mkSDev name maj min 0 data]> s.(dev_at)) s in
          r ← serialio_try_dev dev s;
          if negb (r.2 =? 0) then Ret (r.1, (r.2, 0)) else Ret (r.1, (0, dev)).

Definition serialio_delete_dev_by_name (name : Z) (s : sstate) : outcome (sstate * Z) :=
  found_dev ← each s s.(g_serial_devs) (fun a dev =>
    x ← deref (s.(dev_at) !! dev);
    eq ← (if x.(sd_name) =? 0 then Ret false else names_equal s x.(sd_name) name);
    if eq : bool then Ret (dev, true) else Ret (a, false)) 0;
  if found_dev =? 0 then Ret (s, - ENOENT)
  else
    x ← deref (s.(dev_at) !! found_dev);
    r ← (if x.(sd_driver) =? 0 then Ret (s, 0) else serialio_unlink_dev found_dev s);
    let '(s, st) := r : sstate * Z in
    if negb (st =? 0) then Ret (s, st)
    else
      q ← linkedlist_remove_by_data found_dev s.(s_ll) s.(g_serial_devs);
      let '(l, ll, st) := q : llstate H * LinkedList * Z in
      let s := set_gdevs l ll s in
      if st <? 0 then Ret (s, - ENOMEM)
      else h ← kfree_ found_dev s.(s_ll).(heap); Ret (set_devs (delete found_dev s.(dev_at)) (set_sheap h s), 0).
End ops.
Arguments sstate : clear implicits.

(** ** Objects in two lists

    The objects of each list are blocks of one size, apart from each other and
    from the nodes. *)
Section blocks.
Context {H : Type} `{!Allocator H} `{!AllocatorLaws H}.
Implicit Types (l : llstate H) (g : LinkedList).

Record blocks_ok (na nb : Z) l ga (das : list Z) gb (dbs : list Z) : Prop := {
  bo_lists : two_lists l ga das gb dbs;
  bo_nodup : NoDup (das ++ dbs);
  bo_fst : forall d, d ∈ das -> l.(nodes) !! d = None /\ live l.(heap) d = Some na;
  bo_snd : forall d, d ∈ dbs -> l.(nodes) !! d = None /\ live l.(heap) d = Some nb }.
(** A block that is in neither list. *)
Definition spare l (das dbs : list Z) (n p : Z) : Prop := (p ∉ das ++ dbs) /\ l.(nodes) !! p = None /\ live l.(heap) p = Some n.

Lemma blocks_swap na nb l ga das gb dbs : blocks_ok na nb l ga das gb dbs -> blocks_ok nb na l gb dbs ga das.
Proof.
  intros [Hl Hn Ha Hb]. split; [by apply two_swap| |done|done]. by rewrite (Permutation_app_comm dbs das).
Qed.
Lemma blocks_wf na nb l ga das gb dbs : blocks_ok na nb l ga das gb dbs -> alloc_wf l.(heap).
Proof. intros [Hl _ _ _]. destruct (two_fst _ _ _ _ _ Hl) as (la & Hr & _). apply Hr. Qed.
Lemma blocks_nonzero na nb l ga das gb dbs d : blocks_ok na nb l ga das gb dbs -> d ∈ das -> d <> 0.
Proof. intros Hb Hd. apply (live_not_null l.(heap)); [by eapply blocks_wf|]. destruct (bo_fst _ _ _ _ _ _ _ Hb d Hd) as [_ ->]. done. Qed.

Lemma blocks_calloc n na nb l ga das gb dbs : blocks_ok na nb l ga das gb dbs -> 0 < n < 2 ^ 32 ->
  exists h p, kcalloc_ n l.(heap) = Ret (h, p) /\ blocks_ok na nb (mkLS h l.(nodes)) ga das gb dbs /\
    (p = 0 \/ p <> 0 /\ spare (mkLS h l.(nodes)) das dbs n p).
Proof.
  intros Hb Hn. pose proof (blocks_wf _ _ _ _ _ _ _ Hb) as Hwf. destruct (calloc_law l.(heap) n Hwf Hn) as (h & p & Hc & Hwf' & Hp).
  exists h, p. split; [done|]. destruct Hb as [Hl Hnd Ha Hb]. destruct (two_fst _ _ _ _ _ Hl) as (la & Hr & _).
  assert (Hk : forall b, live l.(heap) b <> None -> live h b = live l.(heap) b).
  { intros b Hlb. destruct Hp as [[-> Hp]|(Hp0 & Hf & Hp)]; rewrite Hp; [done|]. rewrite decide_False; [done|congruence]. }
  split.
  - split; [apply two_heap; [done|done|] |done| |]; cbn [nodes heap].
    + intros b Hs. apply Hk. by apply (rep_nodes _ _ _ Hr).
    + intros d Hd. destruct (Ha d Hd) as [Hnd' Hld]. split; [done|]. rewrite Hk; [done|congruence].
    + intros d Hd. destruct (Hb d Hd) as [Hnd' Hld]. split; [done|]. rewrite Hk; [done|congruence].
  - destruct Hp as [[-> _]|(Hp0 & Hf & Hp)]; [by left|]. right. split; [done|]. split; [|split]; cbn [nodes heap].
    + intros [Hd|Hd]%elem_of_app; [destruct (Ha p Hd)|destruct (Hb p Hd)]; congruence.
    + destruct (l.(nodes) !! p) eqn:E; [|done]. exfalso. by apply (rep_nodes _ _ _ Hr p).
    + by rewrite Hp, decide_True.
Qed.

Lemma blocks_add na nb l ga das gb dbs n p : blocks_ok na nb l ga das gb dbs -> spare l das dbs n p ->
  exists l' ga' r, linkedlist_add p l ga = Ret (l', ga', r) /\
    ((r = - LinkedList.ENOMEM /\ blocks_ok na nb l' ga' das gb dbs /\ spare l' das dbs n p) \/
     (r = 0 /\ (n = na -> blocks_ok na nb l' ga' (das ++ [p]) gb dbs))).
Proof.
  intros [Hl Hnd Ha Hb] (Hp & Hpn & Hpl). destruct (two_add p _ _ _ _ _ Hl) as (l' & ga' & r & Hr & Hk & Hc). exists l', ga', r. split; [done|].
  assert (Ha' : forall d, d ∈ das -> l'.(nodes) !! d = None /\ live l'.(heap) d = Some na).
  { intros d Hd. destruct (Ha d Hd) as [Hn Hv]. destruct (Hk d Hn) as [-> ->]; [congruence|done]. }
  assert (Hb' : forall d, d ∈ dbs -> l'.(nodes) !! d = None /\ live l'.(heap) d = Some nb).
  { intros d Hd. destruct (Hb d Hd) as [Hn Hv]. destruct (Hk d Hn) as [-> ->]; [congruence|done]. }
  destruct (Hk p Hpn) as [Hpn' Hpl']; [congruence|]. rewrite Hpl in Hpl'. destruct Hc as [[-> Hl']|[-> Hl']]; [right|left; by split; [|split]].
  split; [done|]. intros ->. split; [done| |intros d [Hd| ->%list_elem_of_singleton]%elem_of_app; [by apply Ha'|done]|done].
  rewrite <- app_assoc. cbn [app]. apply NoDup_Permutation_proper with (p :: das ++ dbs); [symmetry; apply Permutation_middle|]. by constructor.
Qed.

Lemma blocks_remove na nb l ga das gb dbs p : blocks_ok na nb l ga das gb dbs -> p ∈ das ->
  exists l' ga' das', linkedlist_remove_by_data p l ga = Ret (l', ga', 0) /\ remove_value p das = Some das' /\ das ≡ₚ p :: das' /\
    blocks_ok na nb l' ga' das' gb dbs /\ spare l' das' dbs na p.
Proof.
  intros [Hl Hnd Ha Hb] Hp. destruct (two_remove p _ _ _ _ _ Hl) as (l' & ga' & r & Hr & Hk & Hc).
  assert (Hv : exists das', remove_value p das = Some das' /\ das ≡ₚ p :: das').
  { clear -Hp. induction das as [|d das IH]; [by apply elem_of_nil in Hp|]. cbn. destruct (Z.eqb_spec d p) as [->|Hn].
    - by exists das.
    - apply elem_of_cons in Hp as [->|Hp]; [done|]. destruct (IH Hp) as (das' & -> & Hpm). exists (d :: das'). split; [done|].
      rewrite Hpm. apply Permutation_swap. }
  destruct Hv as (das' & Hv & Hpm). rewrite Hv in Hc. destruct Hc as [-> Hl']. exists l', ga', das'. split; [done|]. split; [done|]. split; [done|].
  assert (Hsub : forall d, d ∈ das' -> d ∈ das) by (intros d Hd; rewrite Hpm; by right).
  rewrite Hpm in Hnd. cbn in Hnd. apply NoDup_cons in Hnd as [Hpn Hnd]. split; [split; [done|done| |]|].
  - intros d Hd. destruct (Ha d (Hsub d Hd)) as [Hn Hx]. destruct (Hk d Hn) as [-> ->]; [congruence|done].
  - intros d Hd. destruct (Hb d Hd) as [Hn Hx]. destruct (Hk d Hn) as [-> ->]; [congruence|done].
  - split; [done|]. destruct (Ha p Hp) as [Hn Hx]. destruct (Hk p Hn) as [-> ->]; [congruence|done].
Qed.

Lemma blocks_free na nb l ga das gb dbs n p : blocks_ok na nb l ga das gb dbs -> spare l das dbs n p ->
  exists h, kfree_ p l.(heap) = Ret h /\ blocks_ok na nb (mkLS h l.(nodes)) ga das gb dbs /\ live h p = None.
Proof.
  intros Hok (Hp & Hpn & Hpl). pose proof (blocks_wf _ _ _ _ _ _ _ Hok) as Hwf. destruct Hok as [Hl Hnd Ha Hb].
  destruct (free_law l.(heap) p Hwf) as (h & Hf & Hwf' & Hh); [congruence|]. exists h. split; [done|]. split; [|by rewrite Hh, decide_True].
  assert (Hk : forall b, b <> p -> live h b = live l.(heap) b) by (intros b Hbp; by rewrite Hh, decide_False).
  assert (Hin : forall d, d ∈ das ++ dbs -> d <> p) by (intros d Hd ->; done).
  split; [apply two_heap; [done|done|]|done| |]; cbn [nodes heap].
  - intros b [x Hx]. apply Hk. intros ->. congruence.
  - intros d Hd. rewrite Hk by (apply Hin, elem_of_app; by left). by apply Ha.
  - intros d Hd. rewrite Hk by (apply Hin, elem_of_app; by right). by apply Hb.
Qed.
End blocks.

(** ** The registered drivers and devices *)
Section tables.
Implicit Types (strs : gmap Z (list Z)) (x : SerialIODevice) (y : SerialIODriver).

Definition name_ok strs (n : Z) : Prop := n = 0 \/ exists t, strs !! n = Some t /\ text t.
Definition named strs (n m : Z) : Prop := (n <> 0 \/ m <> 0) /\ name_ok strs n.
Definition same_name strs (a b : Z) : bool := bool_decide (a <> 0 /\ b <> 0 /\ strs !! a = strs !! b).
(** By major number if both have one, by name if none has. *)
Definition matches strs x y : bool :=
  if (x.(sd_maj) =? 0) && (y.(sv_maj) =? 0) then same_name strs x.(sd_name) y.(sv_name)
  else negb (x.(sd_maj) =? 0) && negb (y.(sv_maj) =? 0) && (x.(sd_maj) =? y.(sv_maj)).
Definition same_major (a b : Z) : bool := negb (a =? 0) && (b =? a).
Definition same_drv strs y y' : bool := same_major y.(sv_maj) y'.(sv_maj) || same_name strs y'.(sv_name) y.(sv_name).
Definition same_dev strs x x' : bool :=
  (x'.(sd_min) =? x.(sd_min)) && (same_major x.(sd_maj) x'.(sd_maj) || same_name strs x'.(sd_name) x.(sd_name)).

(** What the tables say of the listed objects: all are there and named, no two
    answer to the same number or name, and a link leads to a registered driver
    that matches. *)
Record tables_ok strs (vt : gmap Z SerialIODriver) (dt : gmap Z SerialIODevice) (drvs devs : list Z) : Prop := {
  to_drv : forall d, d ∈ drvs <-> is_Some (vt !! d);
  to_dev : forall d, d ∈ devs <-> is_Some (dt !! d);
  to_vname : forall d y, vt !! d = Some y -> named strs y.(sv_name) y.(sv_maj);
  to_dname : forall d x, dt !! d = Some x -> named strs x.(sd_name) x.(sd_maj);
  to_vuniq : forall d d' y y', d <> d' -> vt !! d = Some y -> vt !! d' = Some y' -> same_drv strs y y' = false;
  to_duniq : forall d d' x x', d <> d' -> dt !! d = Some x -> dt !! d' = Some x' -> same_dev strs x x' = false;
  to_link : forall d x, dt !! d = Some x -> x.(sd_driver) <> 0 -> exists y, vt !! x.(sd_driver) = Some y /\ matches strs x y = true }.

(** The predicates of the searches, on an object's address. *)
Definition on {A} (t : gmap Z A) (p : A -> bool) (d : Z) : bool := match t !! d with Some a => p a | None => false end.

Lemma tables_link strs vt dt drvs devs d x p : tables_ok strs vt dt drvs devs -> dt !! d = Some x ->
  (p = 0 \/ exists y, vt !! p = Some y /\ matches strs x y = true) -> tables_ok strs vt (<[d := set_driver p x]> dt) drvs devs.
Proof.
  intros [Hv Hd Hvn Hdn Hvu Hdu Hl] Hx Hp.
  assert (Hi : forall e z, <[d := set_driver p x]> dt !! e = Some z -> exists z', dt !! e = Some z' /\ z'.(sd_name) = z.(sd_name) /\
      z'.(sd_maj) = z.(sd_maj) /\ z'.(sd_min) = z.(sd_min) /\ (e = d /\ z' = x /\ z = set_driver p x \/ e <> d /\ z' = z)).
  { intros e z [[<- <-]|[Hn He]]%lookup_insert_Some; [exists x|exists z]; repeat (split; [done|]); [by left|right; by split]. }
  split; try done.
  - intros e. rewrite Hd. destruct (decide (e = d)) as [->|Hn]; [rewrite lookup_insert_eq, Hx; split; intros; by eexists|by rewrite lookup_insert_ne].
  - intros e z Hz. destruct (Hi e z Hz) as (z' & Hz' & <- & <- & _). by eapply Hdn.
  - intros e e' z z' Hne Hz Hz'. destruct (Hi e z Hz) as (w & Hw & E1 & E2 & E3 & _), (Hi e' z' Hz') as (w' & Hw' & E1' & E2' & E3' & _).
    unfold same_dev. rewrite <- E1, <- E2, <- E3, <- E1', <- E2', <- E3'. exact (Hdu e e' w w' Hne Hw Hw').
  - intros e z Hz Hz0. destruct (Hi e z Hz) as (z' & Hz' & _ & _ & _ & [(-> & -> & ->)|[_ ->]]); [|by apply Hl in Hz'].
    cbn in Hz0 |- *. destruct Hp as [->|Hp]; [done|exact Hp].
Qed.

Lemma same_name_sym strs a b : same_name strs a b = same_name strs b a.
Proof. unfold same_name. apply bool_decide_ext. intuition congruence. Qed.
Lemma same_major_sym a b : same_major a b = same_major b a.
Proof. unfold same_major. destruct (Z.eqb_spec a 0), (Z.eqb_spec b 0), (Z.eqb_spec a b), (Z.eqb_spec b a); cbn; congruence. Qed.
Lemma same_drv_sym strs y y' : same_drv strs y y' = same_drv strs y' y.
Proof. unfold same_drv. by rewrite same_major_sym, same_name_sym. Qed.
Lemma same_dev_sym strs x x' : same_dev strs x x' = same_dev strs x' x.
Proof. unfold same_dev. by rewrite same_major_sym, same_name_sym, Z.eqb_sym. Qed.

Lemma tables_new_drv strs vt dt drvs devs p y : tables_ok strs vt dt drvs devs -> p ∉ drvs -> named strs y.(sv_name) y.(sv_maj) ->
  (forall d, d ∈ drvs -> on vt (same_drv strs y) d = false) -> tables_ok strs (<[p := y]> vt) dt (drvs ++ [p]) devs.
Proof.
  intros [Hv Hd Hvn Hdn Hvu Hdu Hl] Hp Hy Hn. assert (Hpv : vt !! p = None) by (destruct (vt !! p) eqn:E; [exfalso; apply Hp, Hv; by eexists|done]).
  assert (Hn' : forall d z, vt !! d = Some z -> same_drv strs y z = false).
  { intros d z Hz. specialize (Hn d). unfold on in Hn. rewrite Hz in Hn. apply Hn, Hv. by eexists. }
  split; try done.
  - intros d. rewrite elem_of_app, list_elem_of_singleton, Hv. destruct (decide (d = p)) as [->|Hne]; [rewrite lookup_insert_eq|rewrite lookup_insert_ne by done].
    + split; intros; [by eexists|by right].
    + split; [by intros [?| ->]|by left].
  - intros d z [[<- <-]|[_ Hz]]%lookup_insert_Some; [done|by eapply Hvn].
  - intros d d' z z' Hne [[<- <-]|[? Hz]]%lookup_insert_Some [[<- <-]|[? Hz']]%lookup_insert_Some; [done|by eapply Hn'|rewrite same_drv_sym; by eapply Hn'|exact (Hvu _ _ _ _ Hne Hz Hz')].
  - intros d x Hx Hx0. destruct (Hl d x Hx Hx0) as (z & Hz & Hm). exists z. split; [|done]. rewrite lookup_insert_ne; [done|]. intros ->. congruence.
Qed.
Lemma tables_new_dev strs vt dt drvs devs p x : tables_ok strs vt dt drvs devs -> p ∉ devs -> named strs x.(sd_name) x.(sd_maj) -> x.(sd_driver) = 0 ->
  (forall d, d ∈ devs -> on dt (same_dev strs x) d = false) -> tables_ok strs vt (<[p := x]> dt) drvs (devs ++ [p]).
Proof.
  intros [Hv Hd Hvn Hdn Hvu Hdu Hl] Hp Hx Hx0 Hn.
  assert (Hn' : forall d z, dt !! d = Some z -> same_dev strs x z = false).
  { intros d z Hz. specialize (Hn d). unfold on in Hn. rewrite Hz in Hn. apply Hn, Hd. by eexists. }
  split; try done.
  - intros d. rewrite elem_of_app, list_elem_of_singleton, Hd. destruct (decide (d = p)) as [->|Hne]; [rewrite lookup_insert_eq|rewrite lookup_insert_ne by done].
    + split; intros; [by eexists|by right].
    + split; [by intros [?| ->]|by left].
  - intros d z [[<- <-]|[_ Hz]]%lookup_insert_Some; [done|by eapply Hdn].
  - intros d d' z z' Hne [[<- <-]|[? Hz]]%lookup_insert_Some [[<- <-]|[? Hz']]%lookup_insert_Some; [done|by eapply Hn'|rewrite same_dev_sym; by eapply Hn'|exact (Hdu _ _ _ _ Hne Hz Hz')].
  - intros d z [[<- <-]|[_ Hz]]%lookup_insert_Some Hz0; [done|by eapply Hl].
Qed.

Lemma tables_del_drv strs vt dt drvs drvs' devs p : tables_ok strs vt dt drvs devs -> drvs ≡ₚ p :: drvs' -> p ∉ drvs' ->
  (forall d x, dt !! d = Some x -> x.(sd_driver) <> p \/ p = 0) -> tables_ok strs (delete p vt) dt drvs' devs.
Proof.
  intros [Hv Hd Hvn Hdn Hvu Hdu Hl] Hpm Hp Hf. split; try done.
  - intros d. specialize (Hv d). rewrite Hpm, elem_of_cons in Hv. destruct (decide (d = p)) as [->|Hne].
    + rewrite lookup_delete_eq. split; [done|by intros []].
    + rewrite lookup_delete_ne by done. tauto.
  - intros d y [_ Hy]%lookup_delete_Some. by eapply Hvn.
  - intros d d' y y' Hne [_ Hy]%lookup_delete_Some [_ Hy']%lookup_delete_Some. exact (Hvu _ _ _ _ Hne Hy Hy').
  - intros d x Hx Hx0. destruct (Hl d x Hx Hx0) as (y & Hy & Hm). exists y. split; [|done]. rewrite lookup_delete_ne; [done|].
    destruct (Hf d x Hx) as [?| ->]; congruence.
Qed.
Lemma tables_del_dev strs vt dt drvs devs devs' p : tables_ok strs vt dt drvs devs -> devs ≡ₚ p :: devs' -> p ∉ devs' ->
  tables_ok strs vt (delete p dt) drvs devs'.
Proof.
  intros [Hv Hd Hvn Hdn Hvu Hdu Hl] Hpm Hp. split; try done.
  - intros d. specialize (Hd d). rewrite Hpm, elem_of_cons in Hd. destruct (decide (d = p)) as [->|Hne].
    + rewrite lookup_delete_eq. split; [done|by intros []].
    + rewrite lookup_delete_ne by done. tauto.
  - intros d x [_ Hx]%lookup_delete_Some. by eapply Hdn.
  - intros d d' x x' Hne [_ Hx]%lookup_delete_Some [_ Hx']%lookup_delete_Some. exact (Hdu _ _ _ _ Hne Hx Hx').
  - intros d x [_ Hx]%lookup_delete_Some. by eapply Hl.
Qed.
End tables.

(** ** The operations *)
Section spec.
Context {H X : Type} `{!Allocator H} `{!AllocatorLaws H} `{!SerialDrivers X} `{!SerialDriversLaws X}.
Implicit Types s : sstate H X.

Record serial_ok s (drvs devs : list Z) : Prop := {
  so_blocks : blocks_ok sizeof_SerialIODriver sizeof_SerialIODevice s.(s_ll) s.(g_serial_drvs) drvs s.(g_serial_devs) devs;
  so_tables : tables_ok s.(s_strs) s.(drv_at) s.(dev_at) drvs devs }.

Lemma each_spec {A} s ll ds (body : A -> Z -> outcome (A * bool)) a : list_of s.(s_ll) ll ds -> each s ll body a = iter body ds a.
Proof.
  intros (l & [Hs _ Hnd _ _ _] & <-). apply ll_iter_spec; [done|]. pose proof (seg_size _ _ _ _ Hs Hnd). lia.
Qed.
Lemma each_drvs {A} s drvs devs (body : A -> Z -> outcome (A * bool)) a : serial_ok s drvs devs -> each s s.(g_serial_drvs) body a = iter body drvs a.
Proof. intros [Hb _]. apply each_spec. exact (two_fst _ _ _ _ _ (bo_lists _ _ _ _ _ _ _ Hb)). Qed.
Lemma each_devs {A} s drvs devs (body : A -> Z -> outcome (A * bool)) a : serial_ok s drvs devs -> each s s.(g_serial_devs) body a = iter body devs a.
Proof. intros [Hb _]. apply each_spec. exact (two_fst _ _ _ _ _ (two_swap _ _ _ _ _ (bo_lists _ _ _ _ _ _ _ Hb))). Qed.
Lemma drv_nonzero s drvs devs d : serial_ok s drvs devs -> d ∈ drvs -> d <> 0.
Proof. intros [Hb _]. by apply (blocks_nonzero _ _ _ _ _ _ _ _ Hb). Qed.
Lemma dev_nonzero s drvs devs d : serial_ok s drvs devs -> d ∈ devs -> d <> 0.
Proof. intros [Hb _]. by apply (blocks_nonzero _ _ _ _ _ _ _ _ (blocks_swap _ _ _ _ _ _ _ Hb)). Qed.
Lemma drv_there s drvs devs d : serial_ok s drvs devs -> d ∈ drvs -> exists y, s.(drv_at) !! d = Some y.
Proof. intros [_ Ht] Hd. by apply (to_drv _ _ _ _ _ Ht) in Hd. Qed.
Lemma dev_there s drvs devs d : serial_ok s drvs devs -> d ∈ devs -> exists x, s.(dev_at) !! d = Some x.
Proof. intros [_ Ht] Hd. by apply (to_dev _ _ _ _ _ Ht) in Hd. Qed.

Lemma names_equal_spec s a b : name_ok s.(s_strs) a -> name_ok s.(s_strs) b -> a <> 0 -> b <> 0 -> names_equal s a b = Ret (same_name s.(s_strs) a b).
Proof.
  intros [->|(t & Ht & Tt)] [->|(u & Hu & Tu)] Ha Hb; [done..|]. unfold names_equal, same_name. rewrite Ht, Hu. cbn [deref]. rewrite !bind_Ret, str_eq_spec by done.
  f_equal. apply bool_decide_ext. split; [intros ->; done|]. by intros (_ & _ & [= ->]).
Qed.
(** A name test that may be skipped. *)
Lemma name_test s a b : name_ok s.(s_strs) a -> name_ok s.(s_strs) b -> b <> 0 ->
  (if a =? 0 then Ret false else names_equal s a b) = Ret (same_name s.(s_strs) a b).
Proof.
  intros Ha Hb Hb0. destruct (Z.eqb_spec a 0) as [->|Ha0]; [|by apply names_equal_spec].
  reflexivity.
Qed.
Lemma check_match_spec x y s : named s.(s_strs) x.(sd_name) x.(sd_maj) -> named s.(s_strs) y.(sv_name) y.(sv_maj) ->
  serialio_check_match x y s = Ret (matches s.(s_strs) x y).
Proof.
  intros [Hx Nx] [Hy Ny]. unfold serialio_check_match, matches, SERIAL_NOMAJ.
  destruct (Z.eqb_spec x.(sd_maj) 0) as [Ex|Ex], (Z.eqb_spec y.(sv_maj) 0) as [Ey|Ey]; cbn [andb negb]; try done.
  assert (x.(sd_name) <> 0 /\ y.(sv_name) <> 0) as [Hx0 Hy0] by (split; [destruct Hx|destruct Hy]; congruence).
  rewrite (proj2 (Z.eqb_neq _ 0) Hx0), (proj2 (Z.eqb_neq _ 0) Hy0). cbn [negb assert_]. rewrite !bind_Ret. by apply names_equal_spec.
Qed.

(** *** Searches *)
Lemma by_major_spec s drvs devs maj : serial_ok s drvs devs -> serialio_find_drv_by_major maj s = Ret (default 0 (first_such (on s.(drv_at) (fun y => y.(sv_maj) =? maj)) drvs)).
Proof.
  intros Hok. unfold serialio_find_drv_by_major. rewrite (each_drvs _ _ _ _ _ Hok).
  rewrite (iter_find _ (on s.(drv_at) (fun y => y.(sv_maj) =? maj)) Ret).
  - by destruct (first_such _ _).
  - intros d Hd. split; [by eapply drv_nonzero|]. destruct (drv_there _ _ _ _ Hok Hd) as [y Hy]. unfold on. rewrite Hy. cbn [deref]. by rewrite bind_Ret.
Qed.
Lemma by_drv_name_spec s drvs devs n : serial_ok s drvs devs -> name_ok s.(s_strs) n -> n <> 0 ->
  serialio_find_drv_by_name n s = Ret (default 0 (first_such (on s.(drv_at) (fun y => same_name s.(s_strs) y.(sv_name) n)) drvs)).
Proof.
  intros Hok Hn Hn0. unfold serialio_find_drv_by_name. rewrite (each_drvs _ _ _ _ _ Hok).
  rewrite (iter_find _ (on s.(drv_at) (fun y => same_name s.(s_strs) y.(sv_name) n)) Ret).
  - by destruct (first_such _ _).
  - intros d Hd. split; [by eapply drv_nonzero|]. destruct (drv_there _ _ _ _ Hok Hd) as [y Hy]. unfold on. rewrite Hy. cbn [deref].
    rewrite bind_Ret, name_test, bind_Ret by (first [done | apply (to_vname _ _ _ _ _ (so_tables _ _ _ Hok) d y Hy)]). done.
Qed.
Lemma name_dup_spec s drvs devs n m : serial_ok s drvs devs -> name_ok s.(s_strs) n -> n <> 0 ->
  serialio_is_dev_name_dup n m s = Ret (bool_decide (is_Some (first_such (on s.(dev_at) (fun x => same_name s.(s_strs) x.(sd_name) n && (x.(sd_min) =? m))) devs))).
Proof.
  intros Hok Hn Hn0. unfold serialio_is_dev_name_dup. rewrite (each_devs _ _ _ _ _ Hok).
  rewrite (iter_find _ (on s.(dev_at) (fun x => same_name s.(s_strs) x.(sd_name) n && (x.(sd_min) =? m))) (fun _ => Ret true)).
  - by destruct (first_such _ _).
  - intros d Hd. split; [by eapply dev_nonzero|]. destruct (dev_there _ _ _ _ Hok Hd) as [x Hx]. unfold on. rewrite Hx. cbn [deref].
    rewrite bind_Ret, name_test, bind_Ret by (first [done | apply (to_dname _ _ _ _ _ (so_tables _ _ _ Hok) d x Hx)]). done.
Qed.
Lemma maj_dup_spec s drvs devs n m : serial_ok s drvs devs ->
  serialio_is_dev_maj_dup n m s = Ret (bool_decide (is_Some (first_such (on s.(dev_at) (fun x => (x.(sd_maj) =? n) && (x.(sd_min) =? m))) devs))).
Proof.
  intros Hok. unfold serialio_is_dev_maj_dup. rewrite (each_devs _ _ _ _ _ Hok).
  rewrite (iter_find _ (on s.(dev_at) (fun x => (x.(sd_maj) =? n) && (x.(sd_min) =? m))) (fun _ => Ret true)).
  - by destruct (first_such _ _).
  - intros d Hd. split; [by eapply dev_nonzero|]. destruct (dev_there _ _ _ _ Hok Hd) as [x Hx]. unfold on. rewrite Hx. cbn [deref]. by rewrite bind_Ret.
Qed.

(** *** Linking *)
Lemma ok_tables s drvs devs vt dt x : serial_ok s drvs devs -> tables_ok s.(s_strs) vt dt drvs devs -> serial_ok (set_devs dt (set_drvs vt (set_sx x s))) drvs devs.
Proof. intros [Hb _] Ht. by split. Qed.
Lemma ok_sx s drvs devs x : serial_ok s drvs devs -> serial_ok (set_sx x s) drvs devs.
Proof. intros [Hb Ht]. by split. Qed.

(** [s'] is [s] with device [d] linked to [p] if its driver accepts it. *)
Definition linked_by (d p : Z) x y s s' (st : Z) : Prop := exists x', run_try_link y.(try_link) d x s.(s_x) = Ret (x', st) /\ st <= 0 /\
  s' = if st =? 0 then set_devs (<[d := set_driver p x]> s.(dev_at)) (set_sx x' s) else set_sx x' s.
Lemma link_spec d p x y s : exists s' st, link d p x y s = Ret (s', st) /\ linked_by d p x y s s' st.
Proof.
  destruct (link_law y.(try_link) d x s.(s_x)) as (x' & st & Hr & Hst). unfold link. rewrite Hr, bind_Ret. cbn [fst snd].
  eexists _, st. split; [reflexivity|]. by exists x'.
Qed.
Lemma linked_ok s drvs devs d p x y s' st : serial_ok s drvs devs -> s.(dev_at) !! d = Some x -> s.(drv_at) !! p = Some y -> matches s.(s_strs) x y = true ->
  linked_by d p x y s s' st -> serial_ok s' drvs devs.
Proof.
  intros Hok Hx Hy Hm (x' & _ & _ & ->). destruct (st =? 0); [|by apply ok_sx].
  apply (ok_tables s drvs devs s.(drv_at)); [done|]. apply tables_link; [apply Hok|done|]. right. by exists y.
Qed.

Lemma try_dev_spec s drvs devs d x : serial_ok s drvs devs -> s.(dev_at) !! d = Some x -> x.(sd_driver) = 0 ->
  serialio_try_dev d s = match first_such (on s.(drv_at) (matches s.(s_strs) x)) drvs with
                         | Some p => y ← deref (s.(drv_at) !! p); link d p x y s
                         | None => Ret (s, 0) end.
Proof.
  intros Hok Hx Hx0. unfold serialio_try_dev. rewrite Hx. cbn [deref]. rewrite bind_Ret, Hx0. cbn [Z.eqb assert_]. rewrite bind_Ret, (each_drvs _ _ _ _ _ Hok).
  apply (iter_find _ (on s.(drv_at) (matches s.(s_strs) x))). intros p Hp. split; [by eapply drv_nonzero|].
  destruct (drv_there _ _ _ _ Hok Hp) as [y Hy]. unfold on. cbn [fst snd]. rewrite Hy. cbn [deref]. rewrite !bind_Ret, check_match_spec, bind_Ret; [by destruct (matches _ _ _)| |].
  - by apply (to_dname _ _ _ _ _ (so_tables _ _ _ Hok) d).
  - by apply (to_vname _ _ _ _ _ (so_tables _ _ _ Hok) p).
Qed.
Definition free_and_matching s y (d : Z) : bool := on s.(dev_at) (fun x => (x.(sd_driver) =? 0) && matches s.(s_strs) x y) d.
Lemma try_drv_spec s drvs devs p y : serial_ok s drvs devs -> s.(drv_at) !! p = Some y ->
  serialio_try_drv p s = match first_such (free_and_matching s y) devs with
                         | Some d => x ← deref (s.(dev_at) !! d); link d p x y s
                         | None => Ret (s, 0) end.
Proof.
  intros Hok Hy. unfold serialio_try_drv. rewrite Hy. cbn [deref]. rewrite bind_Ret, (each_devs _ _ _ _ _ Hok).
  apply (iter_find _ (free_and_matching s y)). intros d Hd. split; [by eapply dev_nonzero|].
  destruct (dev_there _ _ _ _ Hok Hd) as [x Hx]. unfold free_and_matching, on. cbn [fst snd]. rewrite Hx. cbn [deref]. rewrite !bind_Ret.
  destruct (x.(sd_driver) =? 0); [|done]. cbn [negb andb]. rewrite check_match_spec, bind_Ret; [by destruct (matches _ _ _)| |].
  - by apply (to_dname _ _ _ _ _ (so_tables _ _ _ Hok) d).
  - by apply (to_vname _ _ _ _ _ (so_tables _ _ _ Hok) p).
Qed.

(** *** Registering *)
Ltac case_such d F := match goal with |- context [first_such ?P ?l] => destruct (first_such P l) as [d|] eqn:F end.
Definition same_tables s s' : Prop := s'.(s_strs) = s.(s_strs) /\ s'.(drv_at) = s.(drv_at) /\ s'.(dev_at) = s.(dev_at) /\ s'.(s_x) = s.(s_x).
Definition drv_taken s drvs y : bool := bool_decide (is_Some (first_such (on s.(drv_at) (same_drv s.(s_strs) y)) drvs)).
Definition dev_taken s devs x : bool := bool_decide (is_Some (first_such (on s.(dev_at) (same_dev s.(s_strs) x)) devs)).

Lemma first_such_ex P ds : is_Some (first_such P ds) <-> exists d, d ∈ ds /\ P d = true.
Proof.
  split.
  - intros [d Hd]. exists d. by apply first_such_some.
  - intros (d & Hd & HP). destruct (first_such P ds) eqn:E; [by eexists|]. by rewrite (first_such_none _ _ E d Hd) in HP.
Qed.
(** Two searches for two reasons are one search for either. *)
Lemma either_taken P1 P2 P ds : (forall d, P d = P1 d || P2 d) ->
  bool_decide (is_Some (first_such P ds)) = bool_decide (is_Some (first_such P1 ds)) || bool_decide (is_Some (first_such P2 ds)).
Proof.
  intros HP. rewrite <- bool_decide_or. apply bool_decide_ext. rewrite !first_such_ex. setoid_rewrite HP. setoid_rewrite orb_true_iff. naive_solver.
Qed.
Lemma none_such ds : first_such (fun _ => false) ds = None.
Proof. destruct (first_such _ ds) eqn:E; [|done]. by apply first_such_some in E as [_ ?]. Qed.
Lemma first_such_ext P Q ds : (forall d, P d = Q d) -> first_such P ds = first_such Q ds.
Proof. intros Hpq. unfold first_such. f_equal. apply list_filter_iff. intros d. by rewrite Hpq. Qed.

Lemma new_driver_spec s drvs devs : serial_ok s drvs devs -> exists s1 p, serialio_new_driver s = Ret (s1, p) /\
  ((p = 0 /\ serial_ok s1 drvs devs /\ same_tables s s1) \/
   (p <> 0 /\ (p ∉ drvs) /\ blocks_ok sizeof_SerialIODriver sizeof_SerialIODevice s1.(s_ll) s1.(g_serial_drvs) (drvs ++ [p]) s1.(g_serial_devs) devs /\
    same_tables (set_drvs (<[p := mkSDrv 0 0 0 0]> s.(drv_at)) s) s1)).
Proof.
  intros [Hb Ht]. unfold serialio_new_driver.
  destruct (blocks_calloc sizeof_SerialIODriver _ _ _ _ _ _ _ Hb) as (h & p & -> & Hb1 & Hp); [by unfold sizeof_SerialIODriver|]. rewrite bind_Ret. cbn [fst snd].
  destruct Hp as [->|[Hp0 Hs]]; [eexists _, 0; split; [reflexivity|]; left; by split|]. rewrite (proj2 (Z.eqb_neq p 0) Hp0).
  cbn [s_ll set_drvs set_sheap set_sll g_serial_drvs]. pose proof Hs as (Hpn & _ & _). destruct (blocks_add _ _ _ _ _ _ _ _ p Hb1 Hs) as (l & g & r & -> & Hc). rewrite bind_Ret.
  assert (Hpv : p ∉ drvs) by (intros Hd; apply Hpn, elem_of_app; by left).
  destruct Hc as [(-> & Hb2 & Hs2)|[-> Hb2]].
  - cbn [Z.opp Z.ltb Z.compare LinkedList.ENOMEM s_ll set_gdrvs]. destruct (blocks_free _ _ _ _ _ _ _ _ _ Hb2 Hs2) as (h2 & -> & Hb3 & _). rewrite bind_Ret.
    eexists _, 0. split; [reflexivity|]. left. split; [done|].
    assert (Hd : delete p (<[p := mkSDrv 0 0 0 0]> s.(drv_at)) = s.(drv_at)).
    { apply delete_insert_id. destruct (s.(drv_at) !! p) eqn:E; [|done]. exfalso. apply Hpv, (to_drv _ _ _ _ _ Ht). by eexists. }
    split; [split; [exact Hb3|]|]; cbn; rewrite Hd; [exact Ht|by split].
  - cbn [Z.ltb Z.compare]. eexists _, p. split; [reflexivity|]. right. split; [done|]. split; [done|]. split; [by apply Hb2|]. by split.
Qed.
Lemma new_device_spec s drvs devs : serial_ok s drvs devs -> exists s1 p, serialio_alloc_new_dev s = Ret (s1, p) /\
  ((p = 0 /\ serial_ok s1 drvs devs /\ same_tables s s1) \/
   (p <> 0 /\ (p ∉ devs) /\ blocks_ok sizeof_SerialIODriver sizeof_SerialIODevice s1.(s_ll) s1.(g_serial_drvs) drvs s1.(g_serial_devs) (devs ++ [p]) /\
    same_tables (set_devs (<[p := mkSDev 0 0 0 0 0]> s.(dev_at)) s) s1)).
Proof.
  intros [Hb%blocks_swap Ht]. unfold serialio_alloc_new_dev.
  destruct (blocks_calloc sizeof_SerialIODevice _ _ _ _ _ _ _ Hb) as (h & p & -> & Hb1 & Hp); [by unfold sizeof_SerialIODevice|]. rewrite bind_Ret. cbn [fst snd].
  destruct Hp as [->|[Hp0 Hs]]; [eexists _, 0; split; [reflexivity|]; left; split; [done|]; split; [split; [by apply blocks_swap|done]|done]|]. rewrite (proj2 (Z.eqb_neq p 0) Hp0).
  cbn [s_ll set_devs set_sheap set_sll g_serial_devs]. pose proof Hs as (Hpn & _ & _). destruct (blocks_add _ _ _ _ _ _ _ _ p Hb1 Hs) as (l & g & r & -> & Hc). rewrite bind_Ret.
  assert (Hpv : p ∉ devs) by (intros Hd; apply Hpn, elem_of_app; by left).
  destruct Hc as [(-> & Hb2 & Hs2)|[-> Hb2]].
  - cbn [Z.opp Z.ltb Z.compare LinkedList.ENOMEM s_ll set_gdevs]. destruct (blocks_free _ _ _ _ _ _ _ _ _ Hb2 Hs2) as (h2 & -> & Hb3 & _). rewrite bind_Ret.
    eexists _, 0. split; [reflexivity|]. left. split; [done|].
    assert (Hd : delete p (<[p := mkSDev 0 0 0 0 0]> s.(dev_at)) = s.(dev_at)).
    { apply delete_insert_id. destruct (s.(dev_at) !! p) eqn:E; [|done]. exfalso. apply Hpv, (to_dev _ _ _ _ _ Ht). by eexists. }
    split; [split; [exact (blocks_swap _ _ _ _ _ _ _ Hb3)|]|]; cbn; rewrite Hd; [exact Ht|by split].
  - cbn [Z.ltb Z.compare]. eexists _, p. split; [reflexivity|]. right. split; [done|]. split; [done|]. split; [by apply blocks_swap, Hb2|]. by split.
Qed.

(** A driver that is new: without memory nothing changes; otherwise it is
    registered behind the others and offered the first device that has no
    driver and matches, whose answer is the result. *)
Definition drv_registered s drvs devs y s' (st v : Z) : Prop :=
  (st = - ENOMEM /\ v = 0 /\ serial_ok s' drvs devs /\ same_tables s s') \/
  (exists s1 p, p <> 0 /\ (p ∉ drvs) /\ same_tables (set_drvs (<[p := y]> s.(drv_at)) s) s1 /\ serial_ok s1 (drvs ++ [p]) devs /\ serial_ok s' (drvs ++ [p]) devs /\
     v = (if st =? 0 then p else 0) /\
     match first_such (free_and_matching s y) devs with
     | Some d => exists x, s.(dev_at) !! d = Some x /\ linked_by d p x y s1 s' st
     | None => s' = s1 /\ st = 0 end).
Lemma new_drv_spec s drvs devs y : serial_ok s drvs devs -> named s.(s_strs) y.(sv_name) y.(sv_maj) ->
  if drv_taken s drvs y then serialio_new_drv_from y s = Ret (s, (- EEXIST, 0))
  else exists s' st v, serialio_new_drv_from y s = Ret (s', (st, v)) /\ drv_registered s drvs devs y s' st v.
Proof.
  intros Hok Hy. pose proof Hy as [Hnm Hno]. unfold serialio_new_drv_from, SERIAL_NOMAJ, SERIAL_NONAME.
  replace ((y.(sv_maj) =? 0) && (y.(sv_name) =? 0)) with false by (symmetry; destruct (Z.eqb_spec y.(sv_maj) 0), (Z.eqb_spec y.(sv_name) 0); tauto).
  assert (Hmaj : exists e, (if y.(sv_maj) =? 0 then Ret 0 else serialio_find_drv_by_major y.(sv_maj) s) = Ret e /\
      negb (e =? 0) = bool_decide (is_Some (first_such (on s.(drv_at) (fun z => same_major y.(sv_maj) z.(sv_maj))) drvs))).
  { unfold same_major. destruct (Z.eqb_spec y.(sv_maj) 0) as [E|E]; cbn [negb andb].
    - exists 0. split; [done|]. rewrite (first_such_ext _ (fun _ => false)), none_such by (intros d; unfold on; by destruct (_ !! d)). done.
    - eexists. split; [by eapply by_major_spec|]. case_such d F; [|done]. apply first_such_some in F as [Hd _].
      change (default 0 (Some d)) with d. rewrite (proj2 (Z.eqb_neq d 0)) by (by eapply drv_nonzero). done. }
  assert (Hname : exists e, (if y.(sv_name) =? 0 then Ret 0 else serialio_find_drv_by_name y.(sv_name) s) = Ret e /\
      negb (e =? 0) = bool_decide (is_Some (first_such (on s.(drv_at) (fun z => same_name s.(s_strs) z.(sv_name) y.(sv_name))) drvs))).
  { destruct (Z.eqb_spec y.(sv_name) 0) as [E|E].
    - exists 0. split; [done|]. rewrite (first_such_ext _ (fun _ => false)), none_such; [done|].
      intros d. unfold on. destruct (_ !! d); [|done]. apply bool_decide_eq_false_2. tauto.
    - eexists. split; [by eapply by_drv_name_spec|]. case_such d F; [|done]. apply first_such_some in F as [Hd _].
      change (default 0 (Some d)) with d. rewrite (proj2 (Z.eqb_neq d 0)) by (by eapply drv_nonzero). done. }
  destruct Hmaj as (e1 & -> & H1), Hname as (e2 & -> & H2). rewrite bind_Ret.
  assert (Ht : drv_taken s drvs y = negb (e1 =? 0) || negb (e2 =? 0)).
  { rewrite H1, H2. apply either_taken. intros d. unfold on. by destruct (_ !! d). }
  rewrite Ht. destruct (negb (e1 =? 0)); [done|]. rewrite bind_Ret. cbn [orb] in Ht |- *. destruct (negb (e2 =? 0)); [done|]. clear H1 H2.
  destruct (new_driver_spec s drvs devs Hok) as (s1 & p & -> & Hc). rewrite bind_Ret. destruct Hc as [(-> & Hok1 & Hst)|(Hp0 & Hpv & Hb & E1 & E2 & E3 & E4)].
  - cbn [Z.eqb]. exists s1, (- ENOMEM), 0. split; [done|]. by left.
  - rewrite (proj2 (Z.eqb_neq p 0) Hp0). set (s2 := set_drvs (<[p := y]> s1.(drv_at)) s1). cbn [s_strs drv_at dev_at s_x set_drvs] in E1, E2, E3, E4.
    assert (Hv2 : s2.(drv_at) = <[p := y]> s.(drv_at)) by (cbn; by rewrite E2, insert_insert_eq).
    assert (Hok2 : serial_ok s2 (drvs ++ [p]) devs).
    { split; [exact Hb|]. rewrite Hv2. cbn [s_strs dev_at s2 set_drvs]. rewrite E1, E3. apply tables_new_drv; [apply Hok|done|done|].
      intros d Hd. unfold drv_taken in Ht. apply bool_decide_eq_false in Ht. destruct (first_such _ drvs) eqn:F; [exfalso; apply Ht; by eexists|].
      by apply (first_such_none _ _ F). }
    assert (Hsame : same_tables (set_drvs (<[p := y]> s.(drv_at)) s) s2) by (split; [exact E1|]; split; [exact Hv2|]; split; [exact E3|exact E4]).
    rewrite (try_drv_spec _ _ _ _ y Hok2) by (by rewrite Hv2, lookup_insert_eq).
    assert (Hf : first_such (free_and_matching s2 y) devs = first_such (free_and_matching s y) devs).
    { apply first_such_ext. intros d. unfold free_and_matching. cbn [dev_at s_strs s2 set_drvs]. by rewrite E1, E3. }
    rewrite Hf. destruct (first_such (free_and_matching s y) devs) as [d|] eqn:F.
    + destruct (first_such_some _ _ _ F) as [Hd HP]. destruct (dev_there _ _ _ _ Hok Hd) as [x Hx]. unfold free_and_matching, on in HP. rewrite Hx in HP. apply andb_prop in HP as [_ HP].
      assert (Hx2 : s2.(dev_at) !! d = Some x) by (cbn; by rewrite E3). rewrite Hx2. cbn [deref]. rewrite bind_Ret.
      destruct (link_spec d p x y s2) as (s3 & st & -> & Hl). rewrite bind_Ret. cbn [fst snd]. exists s3, st, (if st =? 0 then p else 0).
      split; [by destruct (Z.eqb_spec st 0) as [->|]|]. right. exists s2, p. split; [done|]. split; [done|]. split; [done|]. split; [done|].
      split; [eapply linked_ok; [exact Hok2|exact Hx2| | |exact Hl]; [by rewrite Hv2, lookup_insert_eq|cbn; by rewrite E1]|]. split; [done|]. rewrite F. by exists x.
    + rewrite bind_Ret. exists s2, 0, p. split; [done|]. right. exists s2, p. rewrite F. done.
Qed.

Definition dev_registered s drvs devs x s' (st v : Z) : Prop :=
  (st = - ENOMEM /\ v = 0 /\ serial_ok s' drvs devs /\ same_tables s s') \/
  (exists s1 d, d <> 0 /\ (d ∉ devs) /\ same_tables (set_devs (<[d := x]> s.(dev_at)) s) s1 /\ serial_ok s1 drvs (devs ++ [d]) /\ serial_ok s' drvs (devs ++ [d]) /\
     v = (if st =? 0 then d else 0) /\
     match first_such (on s.(drv_at) (matches s.(s_strs) x)) drvs with
     | Some p => exists y, s.(drv_at) !! p = Some y /\ linked_by d p x y s1 s' st
     | None => s' = s1 /\ st = 0 end).
Lemma new_dev_spec s drvs devs name maj min data : let x := mkSDev name maj min 0 data in serial_ok s drvs devs -> named s.(s_strs) name maj ->
  if dev_taken s devs x then serialio_new_dev name maj min data s = Ret (s, (- EEXIST, 0))
  else exists s' st v, serialio_new_dev name maj min data s = Ret (s', (st, v)) /\ dev_registered s drvs devs x s' st v.
Proof.
  intros x Hok Hx. pose proof Hx as [Hnm Hno]. unfold serialio_new_dev, SERIAL_NOMAJ, SERIAL_NONAME.
  replace ((maj =? 0) && (name =? 0)) with false by (symmetry; destruct (Z.eqb_spec maj 0), (Z.eqb_spec name 0); tauto).
  set (Pn := on s.(dev_at) (fun z => same_name s.(s_strs) z.(sd_name) name && (z.(sd_min) =? min))).
  set (Pm := on s.(dev_at) (fun z => same_major maj z.(sd_maj) && (z.(sd_min) =? min))).
  assert (Hname : (if name =? 0 then Ret false else serialio_is_dev_name_dup name min s) = Ret (bool_decide (is_Some (first_such Pn devs)))).
  { destruct (Z.eqb_spec name 0) as [E|E]; [|by eapply name_dup_spec]. rewrite (first_such_ext _ (fun _ => false)), none_such; [done|].
    intros d. unfold Pn, on. destruct (_ !! d); [|done]. unfold same_name. by rewrite bool_decide_eq_false_2 by tauto. }
  assert (Hmaj : (if maj =? 0 then Ret false else serialio_is_dev_maj_dup maj min s) = Ret (bool_decide (is_Some (first_such Pm devs)))).
  { unfold Pm, same_major. destruct (Z.eqb_spec maj 0) as [E|E]; cbn [negb andb]; [|by eapply maj_dup_spec].
    rewrite (first_such_ext _ (fun _ => false)), none_such; [done|]. intros d. unfold on. by destruct (_ !! d). }
  rewrite Hname, bind_Ret. assert (Ht : dev_taken s devs x = bool_decide (is_Some (first_such Pn devs)) || bool_decide (is_Some (first_such Pm devs))).
  { apply either_taken. intros d. unfold Pn, Pm, on, same_dev. destruct (_ !! d) as [z|]; [|done]. cbn [x sd_name sd_maj sd_min].
    destruct (sd_min z =? min), (same_major maj (sd_maj z)), (same_name _ _ _); done. }
  rewrite Ht. destruct (bool_decide (is_Some (first_such Pn devs))); [done|]. cbn [orb] in Ht |- *. rewrite Hmaj, bind_Ret.
  destruct (bool_decide (is_Some (first_such Pm devs))); [done|]. clear Hname Hmaj. clearbody Pn Pm.
  destruct (new_device_spec s drvs devs Hok) as (s1 & d & -> & Hc). rewrite bind_Ret. destruct Hc as [(-> & Hok1 & Hst)|(Hd0 & Hdv & Hb & E1 & E2 & E3 & E4)].
  - cbn [Z.eqb]. exists s1, (- ENOMEM), 0. split; [done|]. by left.
  - rewrite (proj2 (Z.eqb_neq d 0) Hd0). fold x. set (s2 := set_devs (<[d := x]> s1.(dev_at)) s1). cbn [s_strs drv_at dev_at s_x set_devs] in E1, E2, E3, E4.
    assert (Hv2 : s2.(dev_at) = <[d := x]> s.(dev_at)) by (cbn; by rewrite E3, insert_insert_eq).
    assert (Hok2 : serial_ok s2 drvs (devs ++ [d])).
    { split; [exact Hb|]. rewrite Hv2. cbn [s_strs drv_at s2 set_devs]. rewrite E1, E2. apply tables_new_dev; [apply Hok|done|done|done|].
      intros e He. unfold dev_taken in Ht. apply bool_decide_eq_false in Ht. destruct (first_such _ devs) eqn:F; [exfalso; apply Ht; by eexists|].
      by apply (first_such_none _ _ F). }
    assert (Hsame : same_tables (set_devs (<[d := x]> s.(dev_at)) s) s2) by (split; [exact E1|]; split; [exact E2|]; split; [exact Hv2|exact E4]).
    rewrite (try_dev_spec _ _ _ _ x Hok2) by (first [done | by rewrite Hv2, lookup_insert_eq]). cbn [drv_at s_strs s2 set_devs]. rewrite E1, E2.
    case_such p F.
    + destruct (first_such_some _ _ _ F) as [Hp HP]. destruct (drv_there _ _ _ _ Hok Hp) as [y Hy]. unfold on in HP. rewrite Hy in HP.
      rewrite Hy. cbn [deref]. rewrite bind_Ret.
      destruct (link_spec d p x y s2) as (s3 & st & -> & Hl). rewrite bind_Ret. cbn [fst snd]. exists s3, st, (if st =? 0 then d else 0).
      split; [by destruct (Z.eqb_spec st 0) as [->|]|]. right. exists s2, d. split; [done|]. split; [done|]. split; [done|]. split; [done|].
      split; [eapply linked_ok; [exact Hok2|by rewrite Hv2, lookup_insert_eq| | |exact Hl]; [cbn; by rewrite E2|cbn; by rewrite E1]|]. split; [done|]. rewrite F. by exists y.
    + rewrite bind_Ret. exists s2, 0, d. split; [done|]. right. exists s2, d. rewrite F. done.
Qed.

(** *** Taking away *)
Lemma unlink_spec s drvs devs d x : serial_ok s drvs devs -> s.(dev_at) !! d = Some x -> x.(sd_driver) <> 0 ->
  exists x' st y, s.(drv_at) !! x.(sd_driver) = Some y /\ run_unlink y.(sv_unlink) d x s.(s_x) = Ret (x', st) /\ st <= 0 /\
    serialio_unlink_dev d s = Ret (if st =? 0 then set_devs (<[d := set_driver 0 x]> s.(dev_at)) (set_sx x' s) else set_sx x' s, st) /\
    serial_ok (if st =? 0 then set_devs (<[d := set_driver 0 x]> s.(dev_at)) (set_sx x' s) else set_sx x' s) drvs devs.
Proof.
  intros Hok Hx Hp. destruct (to_link _ _ _ _ _ (so_tables _ _ _ Hok) d x Hx Hp) as (y & Hy & _).
  destruct (unlink_law y.(sv_unlink) d x s.(s_x)) as (x' & st & Hr & Hst). exists x', st, y. split; [done|]. split; [done|]. split; [done|]. split.
  - unfold serialio_unlink_dev. rewrite Hx. cbn [deref]. rewrite bind_Ret, (proj2 (Z.eqb_neq _ 0) Hp). cbn [negb assert_]. rewrite bind_Ret, Hy. cbn [deref].
    rewrite bind_Ret, Hr, bind_Ret. cbn [fst snd]. by destruct (Z.eqb_spec st 0) as [->|].
  - destruct (st =? 0); [|by apply ok_sx]. apply (ok_tables s drvs devs s.(drv_at)); [done|]. apply tables_link; [apply Hok|done|by left].
Qed.

(** The devices of [ds] that driver [p] had have none. *)
Definition unlinked (p : Z) (ds : list Z) (t t' : gmap Z SerialIODevice) : Prop :=
  forall d, t' !! d = (fun x => if bool_decide (d ∈ ds /\ x.(sd_driver) = p) then set_driver 0 x else x) <$> t !! d.
Lemma unlinked_nil p t : unlinked p [] t t.
Proof. intros d. destruct (t !! d); [|done]. cbn. rewrite bool_decide_eq_false_2; [done|]. intros [Hd _]. by apply elem_of_nil in Hd. Qed.
Lemma unlinked_skip p d ds t t' : (forall x, t !! d = Some x -> x.(sd_driver) <> p) -> unlinked p ds t t' -> unlinked p (d :: ds) t t'.
Proof.
  intros Hd Hu e. rewrite Hu. destruct (t !! e) as [x|] eqn:E; [|done]. cbn. f_equal.
  rewrite (bool_decide_ext (e ∈ d :: ds /\ _) (e ∈ ds /\ sd_driver x = p)); [done|]. rewrite elem_of_cons.
  split; [intros [[->|?] Hp]; [by destruct (Hd x E)|done]|tauto].
Qed.
Lemma unlinked_step p d x ds t t' : p <> 0 -> t !! d = Some x -> x.(sd_driver) = p -> unlinked p ds (<[d := set_driver 0 x]> t) t' -> unlinked p (d :: ds) t t'.
Proof.
  intros Hp Hx Hxp Hu e. rewrite Hu. destruct (decide (e = d)) as [->|Hne].
  - rewrite lookup_insert_eq, Hx. cbn. rewrite (bool_decide_eq_false_2 (_ /\ 0 = p)) by (intros [_ ?]; congruence).
    rewrite bool_decide_eq_true_2; [done|]. split; [by left|done].
  - rewrite lookup_insert_ne by done. destruct (t !! e) as [z|]; [|done]. cbn. f_equal.
    rewrite (bool_decide_ext (e ∈ d :: ds /\ _) (e ∈ ds /\ sd_driver z = p)); [done|]. rewrite elem_of_cons. intuition congruence.
Qed.

Definition delete_body (p : Z) : sstate H X * Z -> Z -> outcome (sstate H X * Z * bool) := fun a dev =>
  x ← deref (a.1.(dev_at) !! dev);
  if negb (x.(sd_driver) =? p) then Ret (a, false)
  else r ← serialio_unlink_dev dev a.1; if r.2 <? 0 then Ret ((r.1, - EBUSY), true) else Ret ((r.1, 0), false).
Lemma delete_body_eq p s k dev : delete_body p (s, k) dev = (x ← deref (s.(dev_at) !! dev);
  if negb (x.(sd_driver) =? p) then Ret ((s, k), false)
  else r ← serialio_unlink_dev dev s; if r.2 <? 0 then Ret ((r.1, - EBUSY), true) else Ret ((r.1, 0), false)).
Proof. reflexivity. Qed.
Lemma unlink_loop drvs devs p ds : forall s, serial_ok s drvs devs -> p <> 0 -> (forall d, d ∈ ds -> d ∈ devs) -> NoDup ds ->
  exists s' st, iter (delete_body p) ds (s, 0) = Ret (s', st) /\ serial_ok s' drvs devs /\
    s'.(s_ll) = s.(s_ll) /\ s'.(g_serial_drvs) = s.(g_serial_drvs) /\ s'.(s_strs) = s.(s_strs) /\ s'.(drv_at) = s.(drv_at) /\
    ((st = 0 /\ unlinked p ds s.(dev_at) s'.(dev_at)) \/
     (st = - EBUSY /\ exists ds1 d ds2, ds = ds1 ++ d :: ds2 /\ on s.(dev_at) (fun x => x.(sd_driver) =? p) d = true /\ unlinked p ds1 s.(dev_at) s'.(dev_at))).
Proof.
  induction ds as [|d ds IH]; intros s Hok Hp Hin Hnd; cbn [iter].
  - exists s, 0. split; [done|]. split; [done|]. repeat (split; [done|]). left. split; [done|]. apply unlinked_nil.
  - apply NoDup_cons in Hnd as [Hd Hnd]. assert (Hdd : d ∈ devs) by (apply Hin; by left). assert (Hin' : forall e, e ∈ ds -> e ∈ devs) by (intros e He; apply Hin; by right).
    rewrite (proj2 (Z.eqb_neq d 0)) by (by eapply dev_nonzero). destruct (dev_there _ _ _ _ Hok Hdd) as [x Hx].
    rewrite delete_body_eq, Hx. cbn [deref]. rewrite bind_Ret. destruct (Z.eqb_spec x.(sd_driver) p) as [E|E]; cbn [negb].
    + destruct (unlink_spec s drvs devs d x Hok Hx) as (x' & st & y & Hy & Hr & Hst & -> & Hok'); [congruence|]. rewrite bind_Ret. cbn [fst snd].
      destruct (Z.eqb_spec st 0) as [->|Hst0].
      * cbn [Z.ltb Z.compare]. rewrite bind_Ret. cbn [fst snd]. destruct (IH _ Hok' Hp Hin' Hnd) as (s' & st' & Hi & Ho & E1 & E2 & E3 & E4 & Hc).
        exists s', st'. split; [exact Hi|]. split; [done|]. do 4 (split; [done|]). destruct Hc as [[-> Hu]|(-> & ds1 & e & ds2 & -> & He & Hu)]; [left|right]; (split; [done|]).
        -- eapply unlinked_step; [done|exact Hx|done|exact Hu].
        -- exists (d :: ds1), e, ds2. split; [done|]. split; [|by eapply unlinked_step]. unfold on in He |- *. cbn [dev_at set_devs set_sx] in He.
           rewrite lookup_insert_ne in He; [exact He|]. intros <-. apply Hd, elem_of_app. right. by left.
      * rewrite (proj2 (Z.ltb_lt st 0)) by lia. rewrite bind_Ret. cbn [fst snd]. exists (set_sx x' s), (- EBUSY). split; [done|]. split; [done|]. do 4 (split; [done|]).
        right. split; [done|]. exists [], d, ds. split; [done|]. split; [unfold on; rewrite Hx; by apply Z.eqb_eq|apply unlinked_nil].
    + rewrite bind_Ret. cbn [fst snd]. destruct (IH s Hok Hp Hin' Hnd) as (s' & st' & Hi & Ho & E1 & E2 & E3 & E4 & Hc).
      exists s', st'. split; [exact Hi|]. split; [done|]. do 4 (split; [done|]).
      destruct Hc as [[-> Hu]|(-> & ds1 & e & ds2 & -> & He & Hu)]; [left|right]; (split; [done|]).
      -- apply unlinked_skip; [|done]. intros z Hz. congruence.
      -- exists (d :: ds1), e, ds2. split; [done|]. split; [done|]. apply unlinked_skip; [|done]. intros z Hz. congruence.
Qed.

Lemma devs_nodup s drvs devs : serial_ok s drvs devs -> NoDup devs.
Proof. intros [[_ Hn _ _] _]. by apply NoDup_app in Hn as (_ & _ & ?). Qed.
Lemma nodup_cons_perm {A} (l l' : list A) p : NoDup l -> l ≡ₚ p :: l' -> p ∉ l'.
Proof. intros Hn Hp. rewrite Hp in Hn. by apply NoDup_cons in Hn as [? _]. Qed.

Definition drv_deleted s drvs devs p s' (st : Z) : Prop :=
  (st = 0 /\ (exists drvs', remove_value p drvs = Some drvs' /\ serial_ok s' drvs' devs) /\
     s'.(drv_at) = delete p s.(drv_at) /\ unlinked p devs s.(dev_at) s'.(dev_at) /\ live s'.(s_ll).(heap) p = None) \/
  (st = - EBUSY /\ serial_ok s' drvs devs /\ s'.(drv_at) = s.(drv_at) /\
     exists ds1 d ds2, devs = ds1 ++ d :: ds2 /\ on s.(dev_at) (fun x => x.(sd_driver) =? p) d = true /\ unlinked p ds1 s.(dev_at) s'.(dev_at)).
Lemma delete_drv_spec s drvs devs p : serial_ok s drvs devs -> p ∈ drvs ->
  exists s' st, serialio_delete_drv p s = Ret (s', st) /\ drv_deleted s drvs devs p s' st.
Proof.
  intros Hok Hp. assert (Hp0 : p <> 0) by (by eapply drv_nonzero). unfold serialio_delete_drv. rewrite (each_devs _ _ _ _ _ Hok). fold (delete_body p).
  destruct (unlink_loop drvs devs p devs s Hok Hp0 ltac:(done) (devs_nodup _ _ _ Hok)) as (s1 & st & -> & Hok1 & E1 & E2 & E3 & E4 & Hc). rewrite bind_Ret.
  destruct Hc as [[-> Hu]|(-> & Hc)]; [|eexists _, _; split; [reflexivity|]; by right].
  cbn [Z.ltb Z.compare]. pose proof Hok1 as [Hb1 Ht1].
  destruct (blocks_remove _ _ _ _ _ _ _ p Hb1 Hp) as (l & g & drvs' & -> & Hv & Hpm & Hb2 & Hs). rewrite bind_Ret.
  destruct (blocks_free _ _ _ _ _ _ _ _ p Hb2 Hs) as (h & Hf & Hb3 & Hl). cbn [s_ll set_gdrvs]. rewrite Hf, bind_Ret.
  eexists _, 0. split; [reflexivity|]. left. split; [done|]. split.
  - exists drvs'. split; [done|]. split; [exact Hb3|]. cbn [s_strs drv_at dev_at set_drvs set_sheap set_sll set_gdrvs].
    eapply tables_del_drv; [exact Ht1|done| |].
    + eapply nodup_cons_perm; [|exact Hpm]. destruct Hb1 as [_ Hn _ _]. by apply NoDup_app in Hn as (? & _).
    + intros d x Hx. left. intros Hxp. rewrite Hu in Hx. destruct (s.(dev_at) !! d) as [z|] eqn:Ez; [|done]. cbn in Hx. injection Hx as <-.
      case_bool_decide as Hz; [cbn in Hxp; congruence|]. apply Hz. split; [|done]. apply (to_dev _ _ _ _ _ (so_tables _ _ _ Hok)). by eexists.
  - cbn. by rewrite E4.
Qed.

Definition dev_deleted s drvs devs d s' (st : Z) : Prop :=
  (st = 0 /\ (exists devs', remove_value d devs = Some devs' /\ serial_ok s' drvs devs') /\ s'.(dev_at) = delete d s.(dev_at) /\ live s'.(s_ll).(heap) d = None) \/
  (st < 0 /\ on s.(dev_at) (fun x => negb (x.(sd_driver) =? 0)) d = true /\ exists x', s' = set_sx x' s).
Lemma delete_dev_spec s drvs devs n : serial_ok s drvs devs -> name_ok s.(s_strs) n -> n <> 0 ->
  match first_such (on s.(dev_at) (fun x => same_name s.(s_strs) x.(sd_name) n)) devs with
  | Some d => exists s' st, serialio_delete_dev_by_name n s = Ret (s', st) /\ dev_deleted s drvs devs d s' st
  | None => serialio_delete_dev_by_name n s = Ret (s, - ENOENT) end.
Proof.
  intros Hok Hn Hn0. unfold serialio_delete_dev_by_name. rewrite (each_devs _ _ _ _ _ Hok).
  rewrite (iter_find _ (on s.(dev_at) (fun x => same_name s.(s_strs) x.(sd_name) n)) Ret).
  2:{ intros d Hd. split; [by eapply dev_nonzero|]. destruct (dev_there _ _ _ _ Hok Hd) as [x Hx]. unfold on. rewrite Hx. cbn [deref].
      rewrite bind_Ret, name_test, bind_Ret by (first [done | apply (to_dname _ _ _ _ _ (so_tables _ _ _ Hok) d x Hx)]). done. }
  case_such d F; rewrite bind_Ret; [|done]. destruct (first_such_some _ _ _ F) as [Hd _]. rewrite (proj2 (Z.eqb_neq d 0)) by (by eapply dev_nonzero).
  destruct (dev_there _ _ _ _ Hok Hd) as [x Hx]. rewrite Hx. cbn [deref]. rewrite bind_Ret.
  (* the device once it has no driver *)
  assert (Hgone : forall s1, serial_ok s1 drvs devs -> delete d s1.(dev_at) = delete d s.(dev_at) ->
    exists s' st, (q ← linkedlist_remove_by_data d s1.(s_ll) s1.(g_serial_devs);
      let '(l, ll, st) := q : llstate H * LinkedList * Z in
      let s := set_gdevs l ll s1 in
      if st <? 0 then Ret (s, - ENOMEM) else h ← kfree_ d s.(s_ll).(heap); Ret (set_devs (delete d s.(dev_at)) (set_sheap h s), 0)) = Ret (s', st) /\
      dev_deleted s drvs devs d s' st).
  { intros s1 [Hb1 Ht1] He. apply blocks_swap in Hb1. destruct (blocks_remove _ _ _ _ _ _ _ d Hb1 Hd) as (l & g & devs' & -> & Hv & Hpm & Hb2 & Hs). rewrite bind_Ret.
    cbn [Z.ltb Z.compare]. destruct (blocks_free _ _ _ _ _ _ _ _ d Hb2 Hs) as (h & Hf & Hb3 & Hl). cbn [s_ll set_gdevs]. rewrite Hf, bind_Ret.
    eexists _, 0. split; [reflexivity|]. left. split; [done|]. split; [|by split]. exists devs'. split; [done|]. split; [exact (blocks_swap _ _ _ _ _ _ _ Hb3)|].
    cbn [s_strs drv_at dev_at set_devs set_sheap set_sll set_gdevs]. eapply tables_del_dev; [exact Ht1|done|]. eapply nodup_cons_perm; [|exact Hpm]. by eapply devs_nodup. }
  destruct (Z.eqb_spec x.(sd_driver) 0) as [E|E]; [rewrite bind_Ret; by apply Hgone|].
  destruct (unlink_spec s drvs devs d x Hok Hx E) as (x' & st & y & Hy & Hr & Hst & -> & Hok'). rewrite bind_Ret.
  destruct (Z.eqb_spec st 0) as [->|Hst0].
  - apply Hgone; [done|]. cbn. apply delete_insert_eq.
  - cbn [negb]. eexists _, st. split; [reflexivity|]. right. split; [lia|]. split; [|by eexists]. unfold on. rewrite Hx. by rewrite (proj2 (Z.eqb_neq _ 0) E).
Qed.

(** C24: The serial bus keeps its matching.  In every state reached, all registered
    drivers and devices are blocks of their own, no two drivers share a major
    number or a name, no two devices a number or name together with a minor,
    and a device's link leads to a registered driver it matches.  Registering
    refuses what has neither number nor name ([-EINVAL]) or is there already
    ([-EEXIST]); a new driver is offered the first free device that matches,
    a new device the first driver that matches, and only an accepting answer
    links them; a refusal is the result, but the object stays registered.
    Deleting a driver unlinks every device it has first, and gives up with
    [-EBUSY] at the first that will not go, the ones before it staying
    unlinked; deleting a device unlinks it; both free the block. *)
Theorem serialio_correct s drvs devs : serial_ok s drvs devs ->
  (forall y, y.(sv_maj) = 0 -> y.(sv_name) = 0 -> serialio_new_drv_from y s = Ret (s, (- EINVAL, 0))) /\
  (forall y, named s.(s_strs) y.(sv_name) y.(sv_maj) ->
     if drv_taken s drvs y then serialio_new_drv_from y s = Ret (s, (- EEXIST, 0))
     else exists s' st v, serialio_new_drv_from y s = Ret (s', (st, v)) /\ drv_registered s drvs devs y s' st v) /\
  (forall name maj min data, named s.(s_strs) name maj -> let x := mkSDev name maj min 0 data in
     if dev_taken s devs x then serialio_new_dev name maj min data s = Ret (s, (- EEXIST, 0))
     else exists s' st v, serialio_new_dev name maj min data s = Ret (s', (st, v)) /\ dev_registered s drvs devs x s' st v) /\
  (forall n, name_ok s.(s_strs) n -> n <> 0 ->
     match first_such (on s.(drv_at) (fun y => same_name s.(s_strs) y.(sv_name) n)) drvs with
     | Some p => exists s' st, serialio_delete_drv_by_name n s = Ret (s', st) /\ drv_deleted s drvs devs p s' st
     | None => serialio_delete_drv_by_name n s = Ret (s, - ENOENT) end) /\
  (forall n, name_ok s.(s_strs) n -> n <> 0 ->
     match first_such (on s.(dev_at) (fun x => same_name s.(s_strs) x.(sd_name) n)) devs with
     | Some d => exists s' st, serialio_delete_dev_by_name n s = Ret (s', st) /\ dev_deleted s drvs devs d s' st
     | None => serialio_delete_dev_by_name n s = Ret (s, - ENOENT) end).
Proof.
  intros Hok. split; [|split; [|split; [|split]]].
  - intros y Hm Hn. unfold serialio_new_drv_from. by rewrite Hm, Hn.
  - intros y Hy. by apply new_drv_spec.
  - intros name maj min data Hn. by apply new_dev_spec.
  - intros n Hn Hn0. unfold serialio_delete_drv_by_name. rewrite (by_drv_name_spec _ _ _ _ Hok Hn Hn0), bind_Ret. case_such p F; [|done].
    change (default 0 (Some p)) with p. apply first_such_some in F as [Hp _]. rewrite (proj2 (Z.eqb_neq p 0)) by (by eapply drv_nonzero). by apply delete_drv_spec.
  - intros n Hn Hn0. by apply (delete_dev_spec s drvs devs).
Qed.
End spec.

(** ** On an example

    A driver that keeps the devices it was given. *)
#[export] Instance listing_drivers : SerialDrivers (list Z) := {|
  run_try_link f d y x := Ret (d :: x, if f =? 1 then 0 else -5);
  run_unlink f d y x := Ret (filter (fun e => e <> d) x, 0) |}.
#[export] Instance listing_laws : SerialDriversLaws (list Z).
Proof. split; intros; (eexists _, _; split; [reflexivity|]); [by destruct (f =? 1)|done]. Qed.

Definition PS2KBD : list Z := [112; 115; 50; 107; 98; 100].
Definition demo_bus : sstate kstate (list Z) := mkSS (mkLS demo_k ∅) {[500 := PS2KBD; 600 := PS2KBD]} ∅ ∅ (mkLL 0 0) (mkLL 0 0) [].
Lemma demo_bus_ok : serial_ok demo_bus [] [].
Proof.
  split.
  - split; cbn; [|by apply NoDup_nil|intros d Hd; by apply elem_of_nil in Hd..]. split. exists [], [].
    destruct empty_list_of as (l & Hr & Hl). destruct l; [|done]. repeat (split; [done|]). intros a Ha; by apply elem_of_nil in Ha.
  - split; cbn; intros d; try (by rewrite lookup_empty).
    + rewrite lookup_empty. split; [intros Hd; by apply elem_of_nil in Hd|by intros []].
    + rewrite lookup_empty. split; [intros Hd; by apply elem_of_nil in Hd|by intros []].
Qed.
Definition demo_driver : SerialIODriver := mkSDrv 500 0 1 2.
Lemma serialio_correct_witness :
  (exists s' st v, serialio_new_drv_from demo_driver demo_bus = Ret (s', (st, v)) /\ drv_registered demo_bus [] [] demo_driver s' st v) /\
  (r ← serialio_new_drv_from demo_driver demo_bus; q ← serialio_new_dev 600 0 1 77 r.1; d ← deref (q.1.(dev_at) !! q.2.2);
   z ← serialio_delete_drv_by_name 500 q.1; e ← deref (z.1.(dev_at) !! q.2.2);
   Ret (q.2.1, bool_decide (d.(sd_driver) = r.2.2), z.2, e.(sd_driver))) = Ret (0, true, 0, 0).
Proof.
  split; [|vm_compute; reflexivity]. destruct (serialio_correct demo_bus [] [] demo_bus_ok) as (_ & Hv & _).
  assert (Hn : named demo_bus.(s_strs) demo_driver.(sv_name) demo_driver.(sv_maj)).
  { split; [by left|]. right. exists PS2KBD. split; [reflexivity|]. split; [|done]. repeat constructor. }
  specialize (Hv demo_driver Hn). exact Hv.
Defined.

(** Two devices of one kind are there before their driver: only the first gets it. *)
Definition device_names : sstate kstate (list Z) := mkSS (mkLS demo_k ∅) {[500 := PS2KBD]} ∅ ∅ (mkLL 0 0) (mkLL 0 0) [].
Example one_device_linked :
  (a ← serialio_new_dev 500 0 1 0 device_names; b ← serialio_new_dev 500 0 2 0 a.1; r ← serialio_new_drv_from demo_driver b.1;
   x ← deref (r.1.(dev_at) !! a.2.2); y ← deref (r.1.(dev_at) !! b.2.2); Ret (negb (x.(sd_driver) =? 0), y.(sd_driver))) = Ret (true, 0).
Proof. vm_compute. reflexivity. Qed.
(** A driver whose device refuses is reported as an error, yet it is registered:
    trying again gives [-EEXIST]. *)
Example refused_but_registered :
  (a ← serialio_new_dev 500 0 1 0 device_names; r ← serialio_new_drv_from (mkSDrv 500 0 9 2) a.1; q ← serialio_new_drv_from (mkSDrv 500 0 1 2) r.1; Ret (r.2.1, q.2.1))
  = Ret (-5, - EEXIST).
Proof. vm_compute. reflexivity. Qed.
