(* ===== verification/Interrupts.v ===== *)
(** * Interrupts

    [arch/x86/int/]: the two 8259 controllers, the descriptor table with the
    entry stubs, the exception handlers, and the CMOS registers
    ([arch/x86/cmos.c]) with the NMI mask.  The hardware behind the ports is
    the parameter [Bus]. *)
From S2P Require Import Prelude.

(** ** Ports ([x86/portio.h])

    [bus_in]/[bus_out] take the width of the access in bytes. *)
Class Bus (W : Type) := {
  bus_in : Z -> Z -> W -> Z * W;
  bus_out : Z -> Z -> Z -> W -> W }.

Section ports.
Context {W : Type} `{!Bus W}.
Definition port_outb (value port : Z) (w : W) : W := bus_out 1 (u16 port) (u8 value) w.
Definition port_inb (port : Z) (w : W) : Z * W := let r := bus_in 1 (u16 port) w in (u8 r.1, r.2).
Definition port_outw (value port : Z) (w : W) : W := bus_out 2 (u16 port) (u16 value) w.
Definition port_inw (port : Z) (w : W) : Z * W := let r := bus_in 2 (u16 port) w in (u16 r.1, r.2).
Definition port_outl (value port : Z) (w : W) : W := bus_out 4 (u16 port) (u32 value) w.
Definition port_inl (port : Z) (w : W) : Z * W := let r := bus_in 4 (u16 port) w in (u32 r.1, r.2).
End ports.

(** ** The 8259 ([pic.c]) *)
Definition PIC_MASTER_PORT_COMMAND : Z := 0x20.
Definition PIC_MASTER_PORT_DATA : Z := 0x21.
Definition PIC_SLAVE_PORT_COMMAND : Z := 0xA0.
Definition PIC_SLAVE_PORT_DATA : Z := 0xA1.
Definition PIC_OWC3_READ_IRR : Z := 0xA.
Definition PIC_OWC3_READ_ISR : Z := 0xB.
Definition PIC_ICW1_ICW4_NEEDED : Z := Z.shiftl 1 0.
Definition PIC_ICW1_INIT : Z := Z.shiftl 1 4.
Definition PIC_ICW4_8086 : Z := Z.shiftl 1 0.

Section pic.
Context {W : Type} `{!Bus W}.
Implicit Types w : W.

(** Between the [cli] and the [sti] of the code. *)
Definition pic8259_remap (master_offset slave_offset : Z) w : W :=
  let '(master_mask, w) := port_inb PIC_MASTER_PORT_DATA w in
  let '(slave_mask, w) := port_inb PIC_SLAVE_PORT_DATA w in
  let w := port_outb (Z.lor PIC_ICW1_INIT PIC_ICW1_ICW4_NEEDED) PIC_MASTER_PORT_COMMAND w in
  let w := port_outb (Z.lor PIC_ICW1_INIT PIC_ICW1_ICW4_NEEDED) PIC_SLAVE_PORT_COMMAND w in
  let w := port_outb master_offset PIC_MASTER_PORT_DATA w in
  let w := port_outb slave_offset PIC_SLAVE_PORT_DATA w in
  let w := port_outb 4 PIC_MASTER_PORT_DATA w in
  let w := port_outb 2 PIC_SLAVE_PORT_DATA w in
  let w := port_outb PIC_ICW4_8086 PIC_MASTER_PORT_DATA w in
  let w := port_outb PIC_ICW4_8086 PIC_SLAVE_PORT_DATA w in
  let w := port_outb master_mask PIC_MASTER_PORT_DATA w in
  port_outb slave_mask PIC_SLAVE_PORT_DATA w.

(** The controller of a line and the line there. *)
Definition irq_port (irqline : Z) : Z * Z :=
  if 8 <=? irqline then (PIC_SLAVE_PORT_DATA, u8 (irqline - 8)) else (PIC_MASTER_PORT_DATA, irqline).
Definition pic8259_mask_irq_line (irqline : Z) w : W :=
  let '(port, irqline) := irq_port irqline in
  let '(mask, w) := port_inb port w in
  port_outb (Z.lor mask (Z.shiftl 1 irqline)) port w.
Definition pic8259_unmask_irq_line (irqline : Z) w : W :=
  let '(port, irqline) := irq_port irqline in
  let '(mask, w) := port_inb port w in
  port_outb (Z.land mask (Z.lnot (Z.shiftl 1 irqline))) port w.

Definition pic8259_set_mask (mask pic : Z) w : W :=
  if pic =? 0 then port_outb mask PIC_MASTER_PORT_DATA w else port_outb mask PIC_SLAVE_PORT_DATA w.
Definition pic8259_get_isr (pic : Z) w : Z * W :=
  if pic =? 0 then port_inb PIC_MASTER_PORT_COMMAND (port_outb PIC_OWC3_READ_ISR PIC_MASTER_PORT_COMMAND w)
  else port_inb PIC_SLAVE_PORT_COMMAND (port_outb PIC_OWC3_READ_ISR PIC_SLAVE_PORT_COMMAND w).
Definition pic8259_get_irr (pic : Z) w : Z * W :=
  if pic =? 0 then port_inb PIC_MASTER_PORT_COMMAND (port_outb PIC_OWC3_READ_IRR PIC_MASTER_PORT_COMMAND w)
  else port_inb PIC_SLAVE_PORT_COMMAND (port_outb PIC_OWC3_READ_IRR PIC_SLAVE_PORT_COMMAND w).
Definition pic8259_signal_eoi (pic : Z) w : W :=
  if pic =? 0 then port_outb 0x20 PIC_MASTER_PORT_COMMAND w
  else port_outb 0x20 PIC_SLAVE_PORT_COMMAND (port_outb 0x20 PIC_MASTER_PORT_COMMAND w).
Definition pic8259_disable (pic : Z) w : W :=
  if pic =? 0 then port_outb 0xFF PIC_MASTER_PORT_DATA w else port_outb 0xFF PIC_SLAVE_PORT_DATA w.
Definition pic8259_get_pics_count : Z := 2.
Definition pic8259_get_mask w : Z * W :=
  let '(mask, w) := port_inb PIC_SLAVE_PORT_DATA w in
  let mask := u16 (Z.shiftl mask 8) in
  let '(m, w) := port_inb PIC_MASTER_PORT_DATA w in
  (Z.lor mask m, w).

(** [interrupts_irq_done] of [interrupts.c]. *)
Definition interrupts_irq_done w : W :=
  let '(isr, w) := pic8259_get_isr 1 w in
  let w := if negb (isr =? 0) then pic8259_signal_eoi 1 w else w in
  pic8259_signal_eoi 0 w.

Definition idt_is_irq_spurious w : bool * W :=
  let '(isr1, w) := pic8259_get_isr 0 w in
  let '(isr2, w) := pic8259_get_isr 1 w in
  ((isr1 =? 0) && (isr2 =? 0), w).
End pic.

(** ** CMOS ([cmos.c]) *)
Definition CMOS_PORT_REG : Z := 0x70.
Definition CMOS_PORT_DATA : Z := 0x71.
Inductive NMIState := NMIENABLED | NMIDISABLED | NMIKEEP.

Section cmos.
Context {W : Type} `{!Bus W}.
Record cmos := mkCmos { g_nmienabled : Z; cmos_hw : W }.

Definition cmos_disable_nmi (s : cmos) : cmos :=
  mkCmos 0 (port_inb CMOS_PORT_DATA (port_outb 0x8D CMOS_PORT_REG s.(cmos_hw))).2.
Definition cmos_enable_nmi (s : cmos) : cmos :=
  mkCmos 1 (port_inb CMOS_PORT_DATA (port_outb 0x0D CMOS_PORT_REG s.(cmos_hw))).2.
Definition cmos_restore_nmi (nmistate : NMIState) (s : cmos) : cmos :=
  match nmistate with
  | NMIDISABLED => s
  | NMIENABLED => cmos_enable_nmi s
  | NMIKEEP => if negb (s.(g_nmienabled) =? 0) then cmos_enable_nmi s else s
  end.
Definition cmos_port_inb (port : Z) (nmistate : NMIState) (s : cmos) : Z * cmos :=
  let w := port_outb (Z.lor port 0x80) CMOS_PORT_REG s.(cmos_hw) in
  let '(ret, w) := port_inb CMOS_PORT_DATA w in
  (ret, cmos_restore_nmi nmistate (mkCmos s.(g_nmienabled) w)).
Definition cmos_port_outb (value port : Z) (nmistate : NMIState) (s : cmos) : cmos :=
  let w := port_outb (Z.lor port 0x80) CMOS_PORT_REG s.(cmos_hw) in
  cmos_restore_nmi nmistate (mkCmos s.(g_nmienabled) (port_outb value CMOS_PORT_DATA w)).
End cmos.
Arguments cmos : clear implicits.

(** ** The descriptor table ([idt.c]) *)
Record IDTEntry := mkIDT {
  base_0_15 : Z; selector : Z; unused : Z; gate_type : Z; privilege : Z; present : bool; base_16_31 : Z }.
Definition zero_gate : IDTEntry := mkIDT 0 0 0 0 0 false 0.

Definition GDT_KERNEL_CS : Z := 0x8.
Definition IDT_INT32_GATE : Z := 14.
Definition IDT_TRAP32_GATE : Z := 15.
Definition IDT_PRIVL0 : Z := Z.shiftl 0 5.
Definition IDT_PRIVL3 : Z := Z.shiftl 3 5.
Definition IDT_INT_PRESENT : Z := Z.shiftl 1 7.

Definition idt_encode_entry (base selector flags : Z) (entry : IDTEntry) : IDTEntry :=
  mkIDT (Z.land base 0xFFFF) selector 0 (Z.land flags 31) (Z.shiftr (Z.land flags (Z.shiftl 3 5)) 5)
    (negb (Z.land flags (Z.shiftl 1 7) =? 0)) (Z.shiftr (Z.land base 0xFFFF0000) 16).
Definition idt_encode_absent (base : Z) (entry : IDTEntry) : IDTEntry :=
  mkIDT (Z.land base 0xFFFF) entry.(selector) 0 entry.(gate_type) entry.(privilege) false (Z.shiftr (Z.land base 0xFFFF0000) 16).
Definition idt_encode_flags (selector flags : Z) (entry : IDTEntry) : IDTEntry :=
  mkIDT entry.(base_0_15) selector entry.(unused) (Z.land flags 31) (Z.shiftr (Z.land flags (Z.shiftl 3 5)) 5)
    (negb (Z.land flags (Z.shiftl 1 7) =? 0)) entry.(base_16_31).

(** The handlers of [idt.c] and [exceptions.c]; [Driver a] is a driver's
    function at [a]. *)
Inductive x86isr :=
| stub_trap | stub_irq
| divbyzero_isr | debug_isr | breakpoint_isr | overflow_isr | boundrange_exceeded_isr | invalid_opcode_isr
| fpu_not_available_isr | double_fault_isr | invalid_tss_isr | segment_absent_isr | stack_seg_fault
| general_prot_fault_isr | pagefault_isr | x87floating_point_err_isr | alignment_check_isr | machine_check_isr
| simdfloating_point_err_isr | virt_err_isr | control_prot_isr | hypervisor_injection_exception_isr
| vmm_comm_exception_isr | security_err_isr
| Driver (a : Z).

(** The part of the frame a handler reads. *)
Record InterruptFrame := mkFrame { f_code : Z; xip : Z; xcs : Z; xflags : Z }.

Definition TRAP_DIV_ERR : Z := 0x0.
Definition TRAP_DEBUG : Z := 0x1.
Definition TRAP_BREAKPOINT : Z := 0x3.
Definition TRAP_OVERFLOW : Z := 0x4.
Definition TRAP_BOUND_EXCEEDED : Z := 0x5.
Definition TRAP_INVALID_OPCODE : Z := 0x6.
Definition TRAP_FPU_NOT_AVAIL : Z := 0x7.
Definition TRAP_DOUBLEFAULT : Z := 0x8.
Definition TRAP_INVALID_TSS : Z := 0xA.
Definition TRAP_ABSENT_SEGMENT : Z := 0xB.
Definition TRAP_SSFAULT : Z := 0xC.
Definition TRAP_GPF : Z := 0xD.
Definition TRAP_PAGEFAULT : Z := 0xE.
Definition TRAP_X87_FP_EXCEPTION : Z := 0x10.
Definition TRAP_ALIGNMENT_CHECK : Z := 0x11.
Definition TRAP_MACHINE_CHECK : Z := 0x12.
Definition TRAP_SIMD_FP_EXCEPTION : Z := 0x13.
Definition TRAP_VIRT_EXCEPTION : Z := 0x14.
Definition TRAP_CONTROL_PROTECTION_EXCEPTION : Z := 0x15.
Definition TRAP_HYPERVISOR_EXCEPTION : Z := 0x1C.
Definition TRAP_VMM_COMM_EXCEPTION : Z := 0x1D.
Definition TRAP_SECURITY_EXCEPTION : Z := 0x1E.
Definition IRQ_PIT : Z := 0x20.
Definition IRQ_PS2KBD : Z := 0x21.
Definition IRQ_ATA1 : Z := 0x2E.
Definition IRQ_ATA2 : Z := 0x2F.

(** [exceptions_set_up_common_handlers], in its order. *)
Definition common_handlers : list (Z * x86isr) :=
  [(TRAP_DIV_ERR, divbyzero_isr); (TRAP_DEBUG, debug_isr); (TRAP_BREAKPOINT, breakpoint_isr); (TRAP_OVERFLOW, overflow_isr);
   (TRAP_BOUND_EXCEEDED, boundrange_exceeded_isr); (TRAP_INVALID_OPCODE, invalid_opcode_isr);
   (TRAP_FPU_NOT_AVAIL, fpu_not_available_isr); (TRAP_DOUBLEFAULT, double_fault_isr); (TRAP_INVALID_TSS, invalid_tss_isr);
   (TRAP_ABSENT_SEGMENT, segment_absent_isr); (TRAP_SSFAULT, stack_seg_fault); (TRAP_GPF, general_prot_fault_isr);
   (TRAP_PAGEFAULT, pagefault_isr); (TRAP_X87_FP_EXCEPTION, x87floating_point_err_isr);
   (TRAP_ALIGNMENT_CHECK, alignment_check_isr); (TRAP_MACHINE_CHECK, machine_check_isr);
   (TRAP_SIMD_FP_EXCEPTION, simdfloating_point_err_isr); (TRAP_VIRT_EXCEPTION, virt_err_isr);
   (TRAP_CONTROL_PROTECTION_EXCEPTION, control_prot_isr); (TRAP_HYPERVISOR_EXCEPTION, hypervisor_injection_exception_isr);
   (TRAP_VMM_COMM_EXCEPTION, vmm_comm_exception_isr); (TRAP_SECURITY_EXCEPTION, security_err_isr)].

(** [INT_ENTRY_CODE] and [INT_ENTRY_MAYBE_SPURIOUS]; every other stub is an
    [INT_ENTRY]. *)
Definition entry_code : list Z := [8; 10; 11; 12; 13; 14; 17; 30].
Definition entry_maybe_spurious : list Z := [39; 47].

Section idt.
Context {W : Type} `{!Bus W}.

(** [i_if] is the processor's interrupt flag, [i_idtr] what [lidt] loaded. *)
Record intr := mkIntr { i_hw : W; g_isrs : gmap Z x86isr; g_idt : gmap Z IDTEntry; i_idtr : option Z; i_if : bool }.

Definition gate (s : intr) (n : Z) : IDTEntry := default zero_gate (s.(g_idt) !! n).
Definition set_hw (s : intr) (w : W) : intr := mkIntr w s.(g_isrs) s.(g_idt) s.(i_idtr) s.(i_if).
Definition set_isr (n : Z) (cb : x86isr) (s : intr) : intr := mkIntr s.(i_hw) (<[n := cb]> s.(g_isrs)) s.(g_idt) s.(i_idtr) s.(i_if).
Definition set_gate (n : Z) (f : IDTEntry -> IDTEntry) (s : intr) : intr :=
  mkIntr s.(i_hw) s.(g_isrs) (<[n := f (gate s n)]> s.(g_idt)) s.(i_idtr) s.(i_if).
Definition set_if (b : bool) (s : intr) : intr := mkIntr s.(i_hw) s.(g_isrs) s.(g_idt) s.(i_idtr) b.

Definition idt_register_trap_isr (n ring : Z) (cb : x86isr) (s : intr) : intr * Z :=
  let flags := Z.lor IDT_TRAP32_GATE IDT_INT_PRESENT in
  match (if ring =? 0 then Some (Z.lor flags IDT_PRIVL0) else if ring =? 3 then Some (Z.lor flags IDT_PRIVL3) else None) with
  | Some flags => (set_gate n (idt_encode_flags GDT_KERNEL_CS flags) (set_isr n cb s), 0)
  | None => (s, -1)
  end.
Definition idt_register_irq_isr (n : Z) (cb : x86isr) (s : intr) : intr * Z :=
  let flags := Z.lor (Z.lor IDT_INT32_GATE IDT_INT_PRESENT) IDT_PRIVL0 in
  (set_gate n (idt_encode_flags GDT_KERNEL_CS flags) (set_isr n cb s), 0).
(** [interrupts.c]: the kernel's handlers take no frame. *)
Definition interrupts_disable_irqs (s : intr) : intr := set_if false s.
Definition interrupts_enable_irqs (s : intr) : intr := set_if true s.
Definition interrupts_reqister_irq_isr (n isr : Z) (s : intr) : intr * Z := idt_register_irq_isr n (Driver isr) s.
Definition interrupts_reqister_trap_isr (n ring isr : Z) (s : intr) : intr * Z := idt_register_trap_isr n ring (Driver isr) s.

Definition exceptions_set_up_common_handlers (s : intr) : intr :=
  foldl (fun s '(n, cb) => (idt_register_trap_isr n 0 cb s).1) s common_handlers.

(** The addresses the linker gives the stubs. *)
Context (int_ : Z -> Z).

Definition g_isr_offset : Z := 32.
Definition idt_fill (s : intr) : intr :=
  let s := foldl (fun s i => set_isr i stub_trap s) s (seqZ 0 32) in
  let s := foldl (fun s i => set_isr i stub_irq s) s (seqZ 32 16) in
  let s := foldl (fun s i => set_gate i (idt_encode_absent (int_ i)) s) s (seqZ 0 32) in
  let flags := Z.lor (Z.lor IDT_INT32_GATE IDT_PRIVL0) IDT_INT_PRESENT in
  let s := foldl (fun s i => set_gate i (idt_encode_entry (int_ i) GDT_KERNEL_CS flags) s) s (seqZ 32 16) in
  foldl (fun s i => set_gate i (idt_encode_absent (int_ i)) s) s (seqZ 48 208).
(** [lidt] of the whole table. *)
Definition idt_load (s : intr) : intr := mkIntr s.(i_hw) s.(g_isrs) s.(g_idt) (Some (256 * 8 - 1)) s.(i_if).
Definition idt_init (s : intr) : intr :=
  let s := idt_fill s in
  let s := set_if true (set_hw s (pic8259_remap g_isr_offset (g_isr_offset + 8) s.(i_hw))) in
  let s := exceptions_set_up_common_handlers (idt_load s) in
  let s := set_hw s (pic8259_set_mask 0 1 (pic8259_set_mask 0 0 s.(i_hw))) in
  interrupts_enable_irqs s.

(** A driver's handler, by its address. *)
Context (driver_isr : Z -> intr -> outcome intr).

(** The bodies of the handlers; log lines are left out. *)
Definition run_isr (i : x86isr) (frame : InterruptFrame) (s : intr) : outcome intr :=
  match i with
  | stub_trap | debug_isr | breakpoint_isr | overflow_isr | control_prot_isr
  | hypervisor_injection_exception_isr | vmm_comm_exception_isr => Ret s
  | stub_irq => Ret (set_hw s (interrupts_irq_done s.(i_hw)))
  | Driver a => driver_isr a s
  | _ => Panic
  end.

(** The stub [int##id] on the stack the processor leaves: its frame, and what
    [iret] takes when the handler is done. *)
Definition stub_frame (id : Z) (stack : list Z) : outcome InterruptFrame :=
  match (if bool_decide (id ∈ entry_code) then stack else 0 :: stack) with
  | code :: ip :: cs :: flags :: _ => Ret (mkFrame code ip cs flags)
  | _ => Undef
  end.
Definition int_stub (id : Z) (stack : list Z) (s : intr) : outcome (intr * (Z * Z * Z)) :=
  frame ← stub_frame id stack;
  let '(skip, w) := if bool_decide (id ∈ entry_maybe_spurious) then idt_is_irq_spurious s.(i_hw) else (false, s.(i_hw)) in
  let s := set_hw s w in
  s ← (if skip : bool then Ret s else i ← deref (s.(g_isrs) !! id); run_isr i frame s);
  Ret (s, (frame.(xip), frame.(xcs), frame.(xflags))).

Definition gate_base (g : IDTEntry) : Z := Z.lor g.(base_0_15) (Z.shiftl g.(base_16_31) 16).
(** The processor at a present gate: it runs the stub its base names. *)
Definition interrupt (n : Z) (stack : list Z) (s : intr) : outcome (intr * (Z * Z * Z)) :=
  if (gate s n).(present) && (gate_base (gate s n) =? int_ n) then int_stub n stack s else Undef.
End idt.
Arguments intr : clear implicits.

(** ** The table *)
Section idt_facts.
Context {W : Type} `{!Bus W} (int_ : Z -> Z).
Implicit Types s : intr W.

Lemma gate_base_encode a sel p t b k : is_u32 a -> gate_base (mkIDT (Z.land a 0xFFFF) sel k t p b (Z.shiftr (Z.land a 0xFFFF0000) 16)) = a.
Proof.
  intros Ha. unfold gate_base. cbn [base_0_15 base_16_31]. apply Z.bits_inj'. intros i Hi.
  rewrite Z.lor_spec, Z.land_spec, Z.shiftl_spec by done.
  change 0xFFFF with (Z.ones 16). change 0xFFFF0000 with (Z.shiftl (Z.ones 16) 16).
  rewrite Z.testbit_ones_nonneg by lia. destruct (Z.ltb_spec i 16) as [Hl|Hl].
  - rewrite (Z.testbit_neg_r _ (i - 16)) by lia. by rewrite andb_true_r, orb_false_r.
  - rewrite Z.shiftr_spec, Z.land_spec, Z.shiftl_spec by lia. replace (i - 16 + 16) with i by lia.
    rewrite andb_false_r, orb_false_l. destruct (Z.ltb_spec i 32) as [Hh|Hh].
    + rewrite Z.testbit_ones_nonneg by lia. rewrite (proj2 (Z.ltb_lt _ _)) by lia. by rewrite andb_true_r.
    + symmetry. by rewrite (testbit_above a 32) by (first [apply Ha|lia]).
Qed.

Lemma gate_set n f s m : gate (set_gate n f s) m = if decide (m = n) then f (gate s n) else gate s m.
Proof.
  unfold set_gate, gate at 1. cbn [g_idt]. destruct (decide (m = n)) as [->|Hn].
  - by rewrite lookup_insert_eq.
  - by rewrite lookup_insert_ne.
Qed.
Lemma isr_set n cb s m : (set_isr n cb s).(g_isrs) !! m = if decide (m = n) then Some cb else s.(g_isrs) !! m.
Proof.
  cbn. destruct (decide (m = n)) as [->|Hn]; [by rewrite lookup_insert_eq|by rewrite lookup_insert_ne].
Qed.

(** The loops of [idt_init]: one gate, or one handler, per index. *)
Lemma set_gates (f : Z -> IDTEntry -> IDTEntry) k : forall a s m,
  let s' := foldl (fun s i => set_gate i (f i) s) s (seqZ a (Z.of_nat k)) in
  gate s' m = (if decide (a <= m < a + Z.of_nat k) then f m (gate s m) else gate s m) /\
  s'.(g_isrs) = s.(g_isrs).
Proof.
  induction k as [|k IH]; intros a s m; cbn zeta.
  - rewrite decide_False, seqZ_nil by lia. done.
  - rewrite seqZ_cons by lia. replace (Z.pred (Z.of_nat (S k))) with (Z.of_nat k) by lia. cbn [foldl].
    destruct (IH (Z.succ a) (set_gate a (f a) s) m) as [-> ->]. split; [|done]. rewrite gate_set.
    destruct (decide (m = a)) as [->|]; [rewrite decide_False, decide_True by lia; done|].
    destruct (decide (Z.succ a <= m < Z.succ a + Z.of_nat k)); [rewrite decide_True by lia|rewrite decide_False by lia]; done.
Qed.
Lemma set_isrs cb k : forall a s m,
  let s' := foldl (fun s i => set_isr i cb s) s (seqZ a (Z.of_nat k)) in
  s'.(g_isrs) !! m = (if decide (a <= m < a + Z.of_nat k) then Some cb else s.(g_isrs) !! m) /\ s'.(g_idt) = s.(g_idt).
Proof.
  induction k as [|k IH]; intros a s m; cbn zeta.
  - rewrite decide_False, seqZ_nil by lia. done.
  - rewrite seqZ_cons by lia. replace (Z.pred (Z.of_nat (S k))) with (Z.of_nat k) by lia. cbn [foldl].
    destruct (IH (Z.succ a) (set_isr a cb s) m) as [-> ->]. split; [|done]. rewrite isr_set.
    destruct (decide (m = a)) as [->|]; [rewrite decide_False, decide_True by lia; done|].
    destruct (decide (Z.succ a <= m < Z.succ a + Z.of_nat k)); [rewrite decide_True by lia|rewrite decide_False by lia]; done.
Qed.

(** What [idt_init] sets up for a vector. *)
Definition common_handler (n : Z) : option x86isr := snd <$> head (filter (fun x => x.1 = n) common_handlers).
Definition first_isr (n : Z) : option x86isr :=
  match common_handler n with
  | Some h => Some h
  | None => if n <? 32 then Some stub_trap else if n <? 48 then Some stub_irq else None
  end.
Definition first_present (n : Z) : bool := bool_decide (is_Some (common_handler n)) || ((32 <=? n) && (n <? 48)).
Definition first_gate s (n : Z) : IDTEntry :=
  if (n <? 32) && bool_decide (is_Some (common_handler n)) then
    idt_encode_flags GDT_KERNEL_CS (Z.lor IDT_TRAP32_GATE IDT_INT_PRESENT) (idt_encode_absent (int_ n) (gate s n))
  else if (32 <=? n) && (n <? 48) then idt_encode_entry (int_ n) GDT_KERNEL_CS (Z.lor IDT_INT32_GATE IDT_INT_PRESENT) (gate s n)
  else idt_encode_absent (int_ n) (gate s n).

Lemma handlers_fold l s n : NoDup l.*1 ->
  let s' := foldl (fun s '(n, cb) => (idt_register_trap_isr n 0 cb s).1) s l in
  gate s' n = (if decide (n ∈ l.*1) then idt_encode_flags GDT_KERNEL_CS (Z.lor IDT_TRAP32_GATE IDT_INT_PRESENT) (gate s n) else gate s n) /\
  s'.(g_isrs) !! n = match snd <$> head (filter (fun x => x.1 = n) l) with Some h => Some h | None => s.(g_isrs) !! n end.
Proof.
  revert s. induction l as [|[a h] l IH]; intros s Hnd; cbn [foldl].
  - rewrite decide_False by (apply not_elem_of_nil). done.
  - apply NoDup_cons in Hnd as [Ha Hnd]. change (a ∉ l.*1) in Ha. change (NoDup l.*1) in Hnd. destruct (IH (idt_register_trap_isr a 0 h s).1 Hnd) as [-> ->].
    unfold idt_register_trap_isr. cbn [Z.eqb fst]. rewrite gate_set. unfold set_gate at 1. cbn [g_isrs]. rewrite isr_set.
    rewrite filter_cons. cbn [fst]. destruct (decide (n = a)) as [->|Hn].
    + rewrite (decide_True (P := a = a)) by done. rewrite (decide_False (P := a ∈ l.*1)), decide_True by (first [done | cbn; apply elem_of_cons; by left]). split; [done|].
      cbn.
      destruct (head (filter (fun x => x.1 = a) l)) as [[b h']|] eqn:E; [|done]. exfalso. apply Ha.
      apply head_Some_elem_of in E. apply list_elem_of_filter in E as [Hb E]. cbn in Hb. subst b. apply list_elem_of_fmap. by exists (a, h').
    + split; [|by rewrite (decide_False (P := a = n)) by congruence].
      destruct (decide (n ∈ l.*1)) as [Hi|Hi].
      * rewrite decide_True by (cbn; apply elem_of_cons; by right). done.
      * rewrite decide_False; [done|]. cbn. intros [|]%elem_of_cons; done.
Qed.

Lemma common_handlers_nodup : NoDup common_handlers.*1.
Proof. apply (bool_decide_unpack (NoDup common_handlers.*1)). by vm_compute. Qed.

Lemma common_handler_in n : bool_decide (is_Some (common_handler n)) = bool_decide (n ∈ common_handlers.*1).
Proof.
  apply bool_decide_ext. unfold common_handler. rewrite fmap_is_Some, head_is_Some. split.
  - intros H. destruct (filter _ common_handlers) as [|[a h] l] eqn:E; [done|]. clear H.
    assert (Hi : (a, h) ∈ filter (fun x => x.1 = n) common_handlers) by (rewrite E; apply elem_of_cons; by left).
    apply list_elem_of_filter in Hi as [Ha Hi]. cbn in Ha. subst a. apply list_elem_of_fmap. by exists (n, h).
  - intros ([a h] & -> & Hi)%list_elem_of_fmap. apply (elem_of_not_nil (a, h)). by apply list_elem_of_filter.
Qed.

Lemma gates_loop f a k s m : 0 <= k ->
  gate (foldl (fun s i => set_gate i (f i) s) s (seqZ a k)) m = if decide (a <= m < a + k) then f m (gate s m) else gate s m.
Proof. intros Hk. rewrite <- (Z2Nat.id k Hk). apply set_gates. Qed.
Lemma gates_loop_isrs f a k s : 0 <= k -> (foldl (fun s i => set_gate i (f i) s) s (seqZ a k)).(g_isrs) = s.(g_isrs).
Proof. intros Hk. rewrite <- (Z2Nat.id k Hk). apply (set_gates f (Z.to_nat k) a s 0). Qed.
Lemma isrs_loop cb a k s m : 0 <= k ->
  (foldl (fun s i => set_isr i cb s) s (seqZ a k)).(g_isrs) !! m = if decide (a <= m < a + k) then Some cb else s.(g_isrs) !! m.
Proof. intros Hk. rewrite <- (Z2Nat.id k Hk). apply set_isrs. Qed.
Lemma isrs_loop_gate cb a k s m : 0 <= k -> gate (foldl (fun s i => set_isr i cb s) s (seqZ a k)) m = gate s m.
Proof. intros Hk. rewrite <- (Z2Nat.id k Hk). unfold gate. by destruct (set_isrs cb (Z.to_nat k) a s 0) as [_ ->]. Qed.
Lemma handlers_gate s n : gate (exceptions_set_up_common_handlers s) n =
  if decide (n ∈ common_handlers.*1) then idt_encode_flags GDT_KERNEL_CS (Z.lor IDT_TRAP32_GATE IDT_INT_PRESENT) (gate s n) else gate s n.
Proof. apply (handlers_fold common_handlers s n common_handlers_nodup). Qed.
Lemma handlers_isr s n : (exceptions_set_up_common_handlers s).(g_isrs) !! n =
  match common_handler n with Some h => Some h | None => s.(g_isrs) !! n end.
Proof. apply (handlers_fold common_handlers s n common_handlers_nodup). Qed.

(** What is not the table. *)
Lemma gate_hw s w n : gate (set_hw s w) n = gate s n.
Proof. done. Qed.
Lemma gate_if s b n : gate (set_if b s) n = gate s n.
Proof. done. Qed.
Lemma gate_load s n : gate (idt_load s) n = gate s n.
Proof. done. Qed.
Lemma isrs_hw s w : (set_hw s w).(g_isrs) = s.(g_isrs).
Proof. done. Qed.
Lemma isrs_if s b : (set_if b s).(g_isrs) = s.(g_isrs).
Proof. done. Qed.
Lemma isrs_load s : (idt_load s).(g_isrs) = s.(g_isrs).
Proof. done. Qed.

Lemma common_handler_range n : is_Some (common_handler n) -> 0 <= n < 32.
Proof.
  intros H. apply (bool_decide_eq_true_2 _) in H. rewrite common_handler_in in H. apply bool_decide_eq_true in H.
  assert (Hall : Forall (fun x => 0 <= x < 32) common_handlers.*1) by (apply (bool_decide_unpack (Forall _ _)); by vm_compute).
  rewrite Forall_forall in Hall. by apply Hall.
Qed.

Lemma idt_fill_gate s n : 0 <= n < 256 -> gate (idt_fill int_ s) n =
  if (32 <=? n) && (n <? 48) then idt_encode_entry (int_ n) GDT_KERNEL_CS (Z.lor IDT_INT32_GATE IDT_INT_PRESENT) (gate s n)
  else idt_encode_absent (int_ n) (gate s n).
Proof.
  intros Hn. unfold idt_fill. cbv zeta. rewrite !gates_loop, !isrs_loop_gate by lia.
  destruct (Z_lt_le_dec n 32) as [H1|H1]; [|destruct (Z_lt_le_dec n 48) as [H2|H2]].
  - rewrite (decide_False (P := 48 <= n < 48 + 208)), (decide_False (P := 32 <= n < 32 + 16)), (decide_True (P := 0 <= n < 0 + 32)) by lia.
    by rewrite (proj2 (Z.leb_gt 32 n)) by lia.
  - rewrite (decide_False (P := 48 <= n < 48 + 208)), (decide_True (P := 32 <= n < 32 + 16)), (decide_False (P := 0 <= n < 0 + 32)) by lia.
    by rewrite (proj2 (Z.leb_le 32 n)), (proj2 (Z.ltb_lt n 48)) by lia.
  - rewrite (decide_True (P := 48 <= n < 48 + 208)), (decide_False (P := 32 <= n < 32 + 16)), (decide_False (P := 0 <= n < 0 + 32)) by lia.
    by rewrite (proj2 (Z.leb_le 32 n)), (proj2 (Z.ltb_ge n 48)) by lia.
Qed.
Lemma idt_fill_isr s n : 0 <= n -> (idt_fill int_ s).(g_isrs) !! n =
  if n <? 32 then Some stub_trap else if n <? 48 then Some stub_irq else s.(g_isrs) !! n.
Proof.
  intros Hn. unfold idt_fill. cbv zeta. rewrite !gates_loop_isrs, !isrs_loop by lia.
  destruct (Z.ltb_spec n 32); [rewrite (decide_False (P := 32 <= n < 32 + 16)), (decide_True (P := 0 <= n < 0 + 32)) by lia; done|].
  destruct (Z.ltb_spec n 48); [rewrite (decide_True (P := 32 <= n < 32 + 16)) by lia; done|].
  by rewrite (decide_False (P := 32 <= n < 32 + 16)), (decide_False (P := 0 <= n < 0 + 32)) by lia.
Qed.

Lemma idt_init_spec s n : 0 <= n < 256 ->
  gate (idt_init int_ s) n = first_gate s n /\
  (idt_init int_ s).(g_isrs) !! n = match first_isr n with Some h => Some h | None => s.(g_isrs) !! n end.
Proof.
  intros Hn. pose proof (idt_fill_gate s n Hn) as Hg. pose proof (idt_fill_isr s n ltac:(lia)) as Hi.
  unfold idt_init. generalize dependent (idt_fill int_ s). intros t Hg Hi. cbv zeta. split.
  - unfold interrupts_enable_irqs. rewrite gate_if, gate_hw, handlers_gate, gate_load, gate_if, gate_hw, Hg. unfold first_gate. rewrite common_handler_in.
    case_bool_decide as Hc; [rewrite decide_True by done|by rewrite decide_False, andb_false_r by done].
    assert (Hr : is_Some (common_handler n)) by (rewrite <- (bool_decide_eq_true (is_Some (common_handler n))), common_handler_in; by apply bool_decide_eq_true).
    apply common_handler_range in Hr. by rewrite (proj2 (Z.ltb_lt n 32)), (proj2 (Z.leb_gt 32 n)) by lia.
  - unfold interrupts_enable_irqs. rewrite isrs_if, isrs_hw, handlers_isr, isrs_load, isrs_if, isrs_hw, Hi. unfold first_isr.
    destruct (common_handler n) as [h|]; [done|]. by destruct (n <? 32), (n <? 48).
Qed.

(** Every gate names its own stub, and a present one has a handler. *)
Definition idt_wf s : Prop := forall n, 0 <= n < 256 ->
  gate_base (gate s n) = int_ n /\ ((gate s n).(present) = true -> is_Some (s.(g_isrs) !! n)).

Context (Hint : forall n, is_u32 (int_ n)).

Lemma first_gate_spec s n : let g := first_gate s n in gate_base g = int_ n /\ g.(present) = first_present n /\
  (first_present n = true -> g.(selector) = GDT_KERNEL_CS /\ g.(privilege) = 0 /\ g.(gate_type) = if n <? 32 then IDT_TRAP32_GATE else IDT_INT32_GATE).
Proof.
  assert (Hb : forall sel p t b k, gate_base (mkIDT (Z.land (int_ n) 0xFFFF) sel k t p b (Z.shiftr (Z.land (int_ n) 0xFFFF0000) 16)) = int_ n)
    by (intros; apply gate_base_encode, Hint).
  pose proof (common_handler_range n) as Hr. unfold first_gate, first_present.
  destruct (bool_decide (is_Some (common_handler n))) eqn:E.
  - apply bool_decide_eq_true, Hr in E. rewrite (proj2 (Z.ltb_lt n 32)) by lia. cbn. split; [apply Hb|done].
  - rewrite andb_false_r, orb_false_l. destruct ((32 <=? n) && (n <? 48)) eqn:E'.
    + reflect_bools. rewrite (proj2 (Z.ltb_ge n 32)) by lia. split; [apply Hb|done].
    + split; [apply Hb|done].
Qed.

Lemma first_isr_some n : first_present n = true -> is_Some (first_isr n).
Proof.
  unfold first_present, first_isr. destruct (common_handler n); [done|]. rewrite bool_decide_false by (by intros [? ?]). cbn.
  intros H. reflect_bools. rewrite (proj2 (Z.ltb_ge n 32)), (proj2 (Z.ltb_lt n 48)) by lia. done.
Qed.

Lemma idt_init_wf s : idt_wf (idt_init int_ s).
Proof.
  intros n Hn. destruct (idt_init_spec s n Hn) as [-> ->]. destruct (first_gate_spec s n) as (Hb & Hp & _). split; [done|].
  rewrite Hp. intros H. destruct (first_isr_some n H) as [h ->]. done.
Qed.

(** Registering: the gate opens and the handler is set; other vectors keep theirs. *)
Lemma register_wf s n cb fl : idt_wf s -> 0 <= n < 256 ->
  let s' := set_gate n (idt_encode_flags GDT_KERNEL_CS fl) (set_isr n cb s) in
  idt_wf s' /\ s'.(g_isrs) !! n = Some cb /\ forall m, m <> n -> gate s' m = gate s m /\ s'.(g_isrs) !! m = s.(g_isrs) !! m.
Proof.
  intros Hwf Hn s'. assert (Hi : forall m, s'.(g_isrs) !! m = if decide (m = n) then Some cb else s.(g_isrs) !! m) by (intros m; apply isr_set).
  assert (Hg : forall m, gate s' m = if decide (m = n) then idt_encode_flags GDT_KERNEL_CS fl (gate s n) else gate s m) by (intros m; unfold s'; rewrite gate_set; done).
  split; [|split].
  - intros m Hm. rewrite Hi, Hg. destruct (decide (m = n)) as [->|]; [|by apply Hwf]. split; [|done]. apply (Hwf n Hn).
  - rewrite Hi. by rewrite decide_True.
  - intros m Hm. by rewrite Hi, Hg, !decide_False.
Qed.
End idt_facts.

(** What the processor pushes: an error code for these vectors only. *)
Definition cpu_code : list Z := [8; 10; 11; 12; 13; 14; 17; 21; 29; 30].
Definition cpu_stack (n code ip cs fl : Z) : list Z := if bool_decide (n ∈ cpu_code) then [code; ip; cs; fl] else [ip; cs; fl].

Section delivery.
Context {W : Type} `{!Bus W} (int_ : Z -> Z) (driver_isr : Z -> intr W -> outcome (intr W)).
Implicit Types s : intr W.

Lemma stub_frame_cpu n code ip cs fl : n <> 21 -> n <> 29 ->
  stub_frame n (cpu_stack n code ip cs fl) = Ret (mkFrame (if bool_decide (n ∈ cpu_code) then code else 0) ip cs fl).
Proof.
  intros H1 H2. unfold stub_frame, cpu_stack.
  assert (He : bool_decide (n ∈ entry_code) = bool_decide (n ∈ cpu_code)).
  { apply bool_decide_ext. unfold entry_code, cpu_code. rewrite !elem_of_cons, elem_of_nil. intuition lia. }
  rewrite He. by destruct (bool_decide (n ∈ cpu_code)).
Qed.

Lemma interrupt_present s n stack : idt_wf int_ s -> 0 <= n < 256 -> (gate s n).(present) = true ->
  interrupt int_ driver_isr n stack s = int_stub driver_isr n stack s.
Proof. intros Hwf Hn Hp. unfold interrupt. destruct (Hwf n Hn) as [-> _]. by rewrite Hp, Z.eqb_refl. Qed.

Lemma set_hw_same s : set_hw s s.(i_hw) = s.
Proof. by destruct s. Qed.

(** A stub that does not ask the controllers. *)
Lemma int_stub_run s n stack frame i : n ∉ entry_maybe_spurious -> stub_frame n stack = Ret frame -> s.(g_isrs) !! n = Some i ->
  int_stub driver_isr n stack s = (s ← run_isr driver_isr i frame s; Ret (s, (frame.(xip), frame.(xcs), frame.(xflags)))).
Proof. intros Hn Hf Hi. unfold int_stub. rewrite Hf, bind_Ret, bool_decide_false by done. cbn beta iota. by rewrite set_hw_same, Hi. Qed.

Lemma int_stub_spurious s n code ip cs fl : n ∈ entry_maybe_spurious -> (idt_is_irq_spurious s.(i_hw)).1 = true ->
  int_stub driver_isr n (cpu_stack n code ip cs fl) s = Ret (set_hw s (idt_is_irq_spurious s.(i_hw)).2, (ip, cs, fl)).
Proof.
  intros Hn Hs. assert (Hn' : n = 39 \/ n = 47) by (unfold entry_maybe_spurious in Hn; rewrite !elem_of_cons, elem_of_nil in Hn; intuition).
  unfold int_stub. rewrite stub_frame_cpu, bind_Ret, (bool_decide_true (n ∈ entry_maybe_spurious)) by (first [done | lia]).
  destruct (idt_is_irq_spurious s.(i_hw)) as [b w]. cbn in Hs. subst b. done.
Qed.

End delivery.

(** ** A bus of latches: a port gives back what was last written to it *)
#[export] Instance latches : Bus (gmap Z Z) := {| bus_in _ p w := (default 0 (w !! p), w); bus_out _ p v w := <[p := v]> w |}.
Definition demo_int (n : Z) : Z := 0xC0100000 + 32 * (n mod 256).
Definition demo_intr : intr (gmap Z Z) := mkIntr ∅ ∅ ∅ None false.
Definition demo_isr (a : Z) (s : intr (gmap Z Z)) : outcome (intr (gmap Z Z)) := Ret (set_hw s (interrupts_irq_done (<[0x60 := a]> s.(i_hw)))).

