(* ===== verification/Pci.v ===== *)
(** * The PCI bus

    [drivers/buses/pci]: the configuration space through the two ports of
    [pci_x86.c], the devices found by walking it, and the drivers offered
    them. *)
From Stdlib Require Import Strings.String.
From S2P Require Import Prelude Alloc Kmalloc LinkedList Fs Interrupts.

(** ** Data ([pci.h]) *)
Definition ENOMEM : Z := 12.
Definition EINVAL : Z := 22.
Definition ENODEV : Z := 19.
Definition PCI_UNCLASSIFIED : Z := 0.
Definition PCI_MASS_STORAGE_CONTROLLER : Z := 1.
Definition PCI_NETWORK_CONTROLLER : Z := 2.
Definition PCI_DISPLAY_CONTROLLER : Z := 3.
Definition PCI_MULTIMEDIA_CONTROLLER : Z := 4.
Definition PCI_MEMORY_CONTROLLER : Z := 5.
Definition PCI_BRIDGE : Z := 6.
Definition PCI_COMMUNICATION_CONTROLLER : Z := 7.
Definition PCI_GENERIC_SYSTEM_PERIPHERAL : Z := 8.
Definition PCI_INPUT_DEVICE_CONTROLLER : Z := 9.
Definition PCI_DOCKING_STATION : Z := 10.
Definition PCI_PROCESSOR : Z := 11.
Definition PCI_SERIAL_BUS_CONTROLLER : Z := 12.
Definition PCI_WIRELESS_CONTROLLER : Z := 13.
Definition PCI_INTELLIGENT_CONTROLLER : Z := 14.
Definition PCI_SATELLITE_COMMUNICATION_CONTROLLER : Z := 15.
Definition PCI_ENCRYPTION_CONTROLLER : Z := 16.
Definition PCI_SIGNAL_PROCESSING_CONTROLLER : Z := 17.
Definition PCI_PROCESSING_ACCELERATOR : Z := 18.
Definition PCI_NON_ESSENTIAL_INSTRUMENTATION : Z := 19.
Definition PCI_COPROCESSOR : Z := 0x40.
Definition PCI_VENDOR_SPECIFIC : Z := 0xFF.

(** [switch]: the first case with the value, or the default. *)
Fixpoint switch {A} (z : Z) (cases : list (Z * A)) (other : A) : A :=
  match cases with [] => other | (v, a) :: cases => if z =? v then a else switch z cases other end.
Definition pci_class_to_string (class subclass : Z) : string :=
  (switch class [
    (PCI_MASS_STORAGE_CONTROLLER, switch subclass [(0, "SCSI Bus controller"); (1, "IDE controller"); (2, "Floppy Disk controller");
      (3, "IPI Bus controller"); (4, "RAID controller"); (5, "ATA controller"); (6, "SATA controller"); (7, "Serial Attached SCSI controller");
      (8, "NVM controller"); (0x80, "Generic mass storage controller")] "Unknown mass storage controller");
    (PCI_NETWORK_CONTROLLER, switch subclass [(0, "Ethernet controller"); (1, "Token Ring controller"); (2, "FDDI controller"); (3, "ATM controller");
      (4, "ISDN controller"); (5, "WorldFip controller"); (6, "PICMG controller"); (7, "Infiniband controller"); (8, "Fabric controller");
      (0x80, "Generic network controller")] "Unknown network controller");
    (PCI_DISPLAY_CONTROLLER, switch subclass [(0, "VGA Compatible controller"); (1, "XGA Compatible controller"); (2, "3D controller");
      (0x80, "Generic display controller")] "Unknown display controller");
    (PCI_MULTIMEDIA_CONTROLLER, switch subclass [(0, "Multimedia video controller"); (1, "Multimedia audio controller");
      (2, "Computer telephony controller"); (3, "Audio device"); (0x80, "Generic multimedia controller")] "Unknown multimedia controller");
    (PCI_MEMORY_CONTROLLER, switch subclass [(0, "RAM memory"); (1, "FLASH memory"); (2, "CXL memory controller");
      (0x80, "Generic memory controller")] "Unknown memory controller");
    (PCI_BRIDGE, switch subclass [(0, "Host bridge"); (1, "ISA bridge"); (2, "EISA bridge"); (3, "MicroChanngel bridge"); (4, "PCI bridge");
      (5, "PCMCIA bridge"); (6, "NuBus bridge"); (7, "CardBus bridge"); (8, "RACEway bridge"); (9, "Semi transparent PCI-to-PCI bridge");
      (0xA, "Infiniband to PCI host bridge"); (0x80, "Generic bridge")] "Unknown bridge");
    (PCI_COMMUNICATION_CONTROLLER, switch subclass [(0, "Serial controller"); (1, "Parallel controller"); (2, "Multiport serial controller");
      (3, "Modem"); (4, "GPIB controller"); (5, "Smart Card controller"); (0x80, "Generic communication device")] "Unknown communication device");
    (PCI_GENERIC_SYSTEM_PERIPHERAL, switch subclass [(0, "PIC"); (1, "DMA controller"); (2, "Timer"); (3, "RTC"); (4, "PCI hot-plug controller");
      (5, "SD host controller"); (6, "IOMMU"); (0x80, "Generic system peripheral"); (0x90, "Timing card")] "Unknown system peripheral");
    (PCI_INPUT_DEVICE_CONTROLLER, switch subclass [(0, "Keyboard controller"); (1, "Digitizer pen"); (2, "Mouse controller");
      (3, "Scanner controller"); (4, "Gameport controller"); (0x80, "Generic input device controller")] "Unknown input device controller");
    (PCI_DOCKING_STATION, switch subclass [(0, "Generic docking station"); (0x80, "Generic docking station")] "Unknown docking station");
    (PCI_PROCESSOR, switch subclass [(0, "i386"); (1, "i486"); (2, "Pentium"); (0x10, "Alpha"); (0x20, "PPC"); (0x30, "MIPS");
      (0x40, "Co-processor")] "Unknown processor");
    (PCI_SERIAL_BUS_CONTROLLER, switch subclass [(0, "FireWire"); (1, "ACCESS bus"); (2, "SSA"); (3, "USB controller"); (4, "Fibre channel");
      (5, "SMBus"); (6, "InfiniBand"); (7, "IPMI interface"); (8, "SERCOS interface"); (9, "CANBUS");
      (0x80, "Generic serial bus controller")] "Unknown serial bus controller");
    (PCI_WIRELESS_CONTROLLER, switch subclass [(0, "IRDA controller"); (1, "Consumer IR controller"); (0x10, "RF controller");
      (0x11, "Bluetooth controller"); (0x12, "Broadband controller"); (0x20, "802.1a controller"); (0x21, "802.1b controller");
      (0x80, "Generic wireless controller")] "Unknown wireless controller");
    (PCI_INTELLIGENT_CONTROLLER, switch subclass [(0, "I2O")] "Unknown intelligent controller");
    (PCI_SATELLITE_COMMUNICATION_CONTROLLER, switch subclass [(1, "Satellite TV controller"); (2, "Satellite audio controller");
      (3, "Satellite voice controller"); (4, "Satellite data controller")] "Unknown satellite controller");
    (PCI_ENCRYPTION_CONTROLLER, switch subclass [(0, "Network & computing encryption device"); (1, "Entertainment encryption device");
      (0x80, "Generic encryption controller")] "Unknown encryption controller");
    (PCI_SIGNAL_PROCESSING_CONTROLLER, switch subclass [(0, "DPIO module"); (1, "Performance counters"); (0x10, "Communication synchronizer");
      (0x20, "Signal processing management"); (0x80, "Generic signal processing controller")] "Unknown signal processing controller");
    (PCI_PROCESSING_ACCELERATOR, "Generic processing accelerator");
    (PCI_NON_ESSENTIAL_INSTRUMENTATION, "Generic non-essential instrumentation");
    (PCI_COPROCESSOR, "Generic coprocessor");
    (PCI_VENDOR_SPECIFIC, "Vendor specific")] "???")%string.

Record PCIDevice := mkPci {
  bus : Z; dev : Z; func : Z; vendor_id : Z; device_id : Z; pci_class : Z; subclass : Z; revision_id : Z; progif : Z; header_type : Z; pci_driver : Z }.
Record PCIDeviceDriver := mkPDrv { pdrv_name : Z; pdrv_class : Z; pdrv_subclass : Z; probe : Z }.
Definition sizeof_PCIDevice : Z := 20.
Definition set_pci_driver (p : Z) (x : PCIDevice) : PCIDevice :=
  mkPci x.(bus) x.(dev) x.(func) x.(vendor_id) x.(device_id) x.(pci_class) x.(subclass) x.(revision_id) x.(progif) x.(header_type) p.

(** [driver->probe(dev)], by the function's address. *)
Class PciProbes (X : Type) := run_probe : Z -> Z -> PCIDevice -> X -> outcome (X * Z).

(** ** The configuration space ([pci_x86.c]) *)
Definition PCI_CONFIG_ADDRESS : Z := 0xCF8.
Definition PCI_CONFIG_DATA : Z := 0xCFC.
(** The union [PCIDeviceRegister]: offset, 3 bits of function, 5 of device, bus, 7 reserved, enabled. *)
Definition PCIDeviceRegister (bus dev func offset : Z) : Z :=
  u8 offset + func mod 2 ^ 3 * 2 ^ 8 + dev mod 2 ^ 5 * 2 ^ 11 + u8 bus * 2 ^ 16 + 1 * 2 ^ 31.
Section config.
Context {X : Type} `{!Bus X}.
Definition pci_read_4bytes (bus dev func offset : Z) (x : X) : Z * X :=
  if negb (Z.land offset 3 =? 0) then (0, x)
  else port_inl PCI_CONFIG_DATA (port_outl (PCIDeviceRegister bus dev func offset) PCI_CONFIG_ADDRESS x).
Definition pci_read_vendor_id (bus dev func : Z) (x : X) : Z * X := let r := pci_read_4bytes bus dev func 0 x in (Z.land r.1 0xFFFF, r.2).
Definition pci_read_header_type (bus dev func : Z) (x : X) : Z * X :=
  let r := pci_read_4bytes bus dev func 0xC x in (Z.land (Z.shiftr r.1 16) 0xFF, r.2).
Definition pci_device_is_multifunction (bus dev : Z) (x : X) : bool * X :=
  let r := pci_read_header_type bus dev 0 x in (negb (Z.land r.1 (Z.shiftl 1 7) =? 0), r.2).
Definition pci_device_is_host_bridge (bus dev func : Z) (x : X) : bool * X :=
  let r := pci_read_4bytes bus dev func 8 x in
  let class := Z.land (Z.shiftr r.1 24) 0xFF in
  let subclass := Z.land (Z.shiftr r.1 16) 0xFF in
  ((class =? PCI_BRIDGE) && (subclass =? 0), r.2).
End config.

(** ** Devices and drivers ([pci.c]) *)
Section ops.
Context {H X : Type} `{!Allocator H} `{!Bus X} `{!PciProbes X}.
(** What a block that [kmalloc] gives holds where a [PCIDevice] has its driver. *)
Context (left_over : Z -> Z).

(** [p_log] is the failures reported at the level [ERR]. *)
Record pstate := mkPS {
  p_ll : llstate H; pcidev_at : gmap Z PCIDevice; pcidrv_at : gmap Z PCIDeviceDriver;
  g_pci_devs : LinkedList; g_pci_dev_drivers : LinkedList; p_log : list (Z * Z * Z * Z); p_x : X }.
Definition set_pheap (h : H) (s : pstate) : pstate := mkPS (mkLS h s.(p_ll).(nodes)) s.(pcidev_at) s.(pcidrv_at) s.(g_pci_devs) s.(g_pci_dev_drivers) s.(p_log) s.(p_x).
Definition set_pdevs (t : gmap Z PCIDevice) (s : pstate) : pstate := mkPS s.(p_ll) t s.(pcidrv_at) s.(g_pci_devs) s.(g_pci_dev_drivers) s.(p_log) s.(p_x).
Definition set_gdevs (l : llstate H) (g : LinkedList) (s : pstate) : pstate := mkPS l s.(pcidev_at) s.(pcidrv_at) g s.(g_pci_dev_drivers) s.(p_log) s.(p_x).
Definition set_gdrvs (l : llstate H) (g : LinkedList) (s : pstate) : pstate := mkPS l s.(pcidev_at) s.(pcidrv_at) s.(g_pci_devs) g s.(p_log) s.(p_x).
Definition set_px (x : X) (s : pstate) : pstate := mkPS s.(p_ll) s.(pcidev_at) s.(pcidrv_at) s.(g_pci_devs) s.(g_pci_dev_drivers) s.(p_log) x.
Definition klog_err (e : Z * Z * Z * Z) (s : pstate) : pstate := mkPS s.(p_ll) s.(pcidev_at) s.(pcidrv_at) s.(g_pci_devs) s.(g_pci_dev_drivers) (s.(p_log) ++ [e]) s.(p_x).
Definition on_x {A} (f : X -> A * X) (s : pstate) : A * pstate := let r := f s.(p_x) in (r.1, set_px r.2 s).

Definition pci_register_device (bus dev func : Z) (s : pstate) : outcome (pstate * Z) :=
  r ← kmalloc_ sizeof_PCIDevice s.(p_ll).(heap);
  let s := set_pheap r.1 s in
  let device := r.2 in
  if device =? 0 then Ret (s, - ENOMEM)
  else
    q ← linkedlist_add device s.(p_ll) s.(g_pci_devs);
    let '(l, g, st) := q : llstate H * LinkedList * Z in
    let s := set_gdevs l g s in
    if st <? 0 then h ← kfree_ device s.(p_ll).(heap); Ret (set_pheap h s, - ENOMEM)
    else
      let '(t0, s) := on_x (pci_read_4bytes bus dev func 0) s in
      let '(t8, s) := on_x (pci_read_4bytes bus dev func 8) s in
      let '(tC, s) := on_x (pci_read_4bytes bus dev func 0xC) s in
      let x := mkPci bus dev func (Z.land t0 0xFFFF) (Z.land (Z.shiftr t0 16) 0xFFFF) (Z.land (Z.shiftr t8 24) 0xFF) (Z.land (Z.shiftr t8 16) 0xFF)
                 (Z.land t8 0xFF) (Z.land (Z.shiftr t8 8) 0xFF) (Z.land (Z.shiftr tC 16) 0xFF) (left_over device) in
      Ret (set_pdevs (<[device := x]> s.(pcidev_at)) s, 0).

(** [for (func; func < 8; ++func)], [n] functions to go. *)
Fixpoint for_funcs (enumerate_bus : Z -> pstate -> outcome pstate) (n : nat) (bus dev func : Z) (s : pstate) : outcome pstate :=
  match n with
  | O => Ret s
  | S n =>
      let '(v, s) := on_x (pci_read_vendor_id bus dev func) s in
      s ← (if v =? 0xFFFF then Ret s
           else
             r ← pci_register_device bus dev func s;
             let '(s, st) := r : pstate * Z in
             let s := if st =? 0 then s else klog_err (bus, dev, func, st) s in
             let '(bridge, s) := on_x (pci_device_is_host_bridge bus dev func) s in
             if bridge then enumerate_bus func s else Ret s);
      for_funcs enumerate_bus n bus dev (func + 1) s
  end.
(** [for (dev; dev < 32; ++dev)], [n] devices to go. *)
Fixpoint for_devs (enumerate_bus : Z -> pstate -> outcome pstate) (n : nat) (bus dev : Z) (s : pstate) : outcome pstate :=
  match n with
  | O => Ret s
  | S n =>
      let '(v, s) := on_x (pci_read_vendor_id bus dev 0) s in
      if v =? 0xFFFF then for_devs enumerate_bus n bus (dev + 1) s
      else
        r ← pci_register_device bus dev 0 s;
        let '(s, st) := r : pstate * Z in
        if negb (st =? 0) then Ret (klog_err (bus, dev, 0, st) s)
        else
          let '(multi, s) := on_x (pci_device_is_multifunction bus dev) s in
          s ← (if multi then for_funcs enumerate_bus 7 bus dev 1 s else Ret s);
          for_devs enumerate_bus n bus (dev + 1) s
  end.
(** The depth of the recursion is the fuel. *)
Fixpoint pci_enumerate_bus (fuel : nat) (bus : Z) (s : pstate) : outcome pstate :=
  match fuel with O => Undef | S fuel => for_devs (pci_enumerate_bus fuel) 32 bus 0 s end.
Definition pci_enumerate_devices (fuel : nat) (s : pstate) : outcome (pstate * Z) :=
  let '(v, s) := on_x (pci_read_vendor_id 0 0 0) s in
  if v =? 0xFFFF then Ret (s, - ENODEV) else s ← pci_enumerate_bus fuel 0 s; Ret (s, 0).
Definition pci_main : nat -> pstate -> outcome (pstate * Z) := pci_enumerate_devices.

(** The body of the loop over the devices: [dev] is probed if it is free and of
    the driver's class.  The [break] behind a probe that succeeds leaves the
    inner loop of the macro only. *)
Definition probe_body (driver : Z) (s : pstate) (dev : Z) : outcome (pstate * bool) :=
  x ← deref (s.(pcidev_at) !! dev);
  y ← deref (s.(pcidrv_at) !! driver);
  if (x.(pci_class) =? y.(pdrv_class)) && (x.(subclass) =? y.(pdrv_subclass)) && (x.(pci_driver) =? 0) then
    r ← run_probe y.(probe) dev x s.(p_x);
    let s := set_px r.1 s in
    Ret (if r.2 =? 0 then set_pdevs (<[dev := set_pci_driver driver x]> s.(pcidev_at)) s else s, false)
  else Ret (s, false).
Definition pci_register_device_driver (driver : Z) (s : pstate) : outcome (pstate * Z) :=
  q ← linkedlist_add driver s.(p_ll) s.(g_pci_dev_drivers);
  let '(l, g, st) := q : llstate H * LinkedList * Z in
  let s := set_gdrvs l g s in
  if st <? 0 then Ret (s, - ENOMEM)
  else s ← ll_iter (probe_body driver) (S (size s.(p_ll).(nodes))) s.(p_ll).(nodes) s.(g_pci_devs).(root) s; Ret (s, 0).
Definition leave_body (driver : Z) (s : pstate) (dev : Z) : outcome (pstate * bool) :=
  x ← deref (s.(pcidev_at) !! dev);
  Ret (if x.(pci_driver) =? driver then set_pdevs (<[dev := set_pci_driver 0 x]> s.(pcidev_at)) s else s, false).
Definition pci_unregister_device_driver (driver : Z) (s : pstate) : outcome (pstate * Z) :=
  s ← ll_iter (leave_body driver) (S (size s.(p_ll).(nodes))) s.(p_ll).(nodes) s.(g_pci_devs).(root) s;
  q ← linkedlist_remove_by_data driver s.(p_ll) s.(g_pci_dev_drivers);
  let '(l, g, st) := q : llstate H * LinkedList * Z in Ret (set_gdrvs l g s, st).

Definition pci_read_bar4 (d : Z) (s : pstate) : outcome (Z * pstate) :=
  x ← deref (s.(pcidev_at) !! d);
  if negb (x.(header_type) =? 0) then Ret (u32 (- EINVAL), s)
  else Ret (on_x (pci_read_4bytes x.(bus) x.(dev) x.(func) 0x20) s).
End ops.
Arguments pstate : clear implicits.

(** ** What the bus holds

    [cfg bus dev func offset] is the four bytes of the configuration space at
    an aligned offset; reading one does not change another. *)
Class PciConfig {X : Type} `{!Bus X} (cfg : Z -> Z -> Z -> Z -> Z) : Prop :=
  config_law x b d f o : 0 <= b < 256 -> 0 <= d < 32 -> 0 <= f < 8 -> 0 <= o < 256 -> Z.land o 3 = 0 ->
    (port_inl PCI_CONFIG_DATA (port_outl (PCIDeviceRegister b d f o) PCI_CONFIG_ADDRESS x)).1 = cfg b d f o.
Arguments PciConfig {X _} _.
Section bus.
Context (cfg : Z -> Z -> Z -> Z -> Z).
Definition absent (b d f : Z) : bool := Z.land (cfg b d f 0) 0xFFFF =? 0xFFFF.
Definition multi (b d : Z) : bool := negb (Z.land (Z.land (Z.shiftr (cfg b d 0 0xC) 16) 0xFF) (Z.shiftl 1 7) =? 0).
Definition bridge (b d f : Z) : bool :=
  (Z.land (Z.shiftr (cfg b d f 8) 24) 0xFF =? PCI_BRIDGE) && (Z.land (Z.shiftr (cfg b d f 8) 16) 0xFF =? 0).
(** The function [a] as its configuration space describes it. *)
Definition described (a : Z * Z * Z) (drv : Z) : PCIDevice :=
  let '(b, d, f) := a in
  mkPci b d f (Z.land (cfg b d f 0) 0xFFFF) (Z.land (Z.shiftr (cfg b d f 0) 16) 0xFFFF) (Z.land (Z.shiftr (cfg b d f 8) 24) 0xFF)
    (Z.land (Z.shiftr (cfg b d f 8) 16) 0xFF) (Z.land (cfg b d f 8) 0xFF) (Z.land (Z.shiftr (cfg b d f 8) 8) 0xFF) (Z.land (Z.shiftr (cfg b d f 0xC) 16) 0xFF) drv.

(** The functions present on a bus, each host bridge that is not function 0
    followed by the bus of its function's number; [None] if they nest deeper
    than the fuel. *)
Fixpoint all_of {A} (f : Z -> option (list A)) (n : nat) (i : Z) : option (list A) :=
  match n with O => Some [] | S n => l ← f i; l' ← all_of f n (i + 1); Some (l ++ l') end.
Definition of_func (scan : Z -> option (list (Z * Z * Z))) (b d f : Z) : option (list (Z * Z * Z)) :=
  if absent b d f then Some [] else l ← (if bridge b d f then scan f else Some []); Some ((b, d, f) :: l).
Definition of_dev (scan : Z -> option (list (Z * Z * Z))) (b d : Z) : option (list (Z * Z * Z)) :=
  if absent b d 0 then Some [] else l ← (if multi b d then all_of (of_func scan b d) 7 1 else Some []); Some ((b, d, 0) :: l).
Fixpoint scan (fuel : nat) (b : Z) : option (list (Z * Z * Z)) :=
  match fuel with O => None | S fuel => all_of (of_dev (scan fuel) b) 32 0 end.
End bus.

(** ** The walk *)
Section walk.
Context {H X : Type} `{!Allocator H} `{!AllocatorLaws H} `{!Bus X} `{!PciProbes X} (left_over : Z -> Z) (cfg : Z -> Z -> Z -> Z -> Z) `{!PciConfig (X := X) cfg}.
Implicit Types s : pstate H X.

(** The devices and the drivers are listed; each device is a block of its own. *)
Record pci_ok s (devs drvs : list Z) : Prop := {
  po_lists : two_lists s.(p_ll) s.(g_pci_devs) devs s.(g_pci_dev_drivers) drvs;
  po_nodup : NoDup devs;
  po_block : forall d, d ∈ devs -> s.(p_ll).(nodes) !! d = None /\ live s.(p_ll).(heap) d = Some sizeof_PCIDevice;
  po_there : forall d, d ∈ devs <-> is_Some (s.(pcidev_at) !! d) }.
Lemma pci_wf s devs drvs : pci_ok s devs drvs -> alloc_wf s.(p_ll).(heap).
Proof. intros Hok. destruct (two_fst _ _ _ _ _ (po_lists _ _ _ Hok)) as (l & Hr & _). apply Hr. Qed.
Lemma pci_px x s devs drvs : pci_ok s devs drvs -> pci_ok (set_px x s) devs drvs.
Proof. by intros []. Qed.
Lemma pci_log e s devs drvs : pci_ok s devs drvs -> pci_ok (klog_err e s) devs drvs.
Proof. by intros []. Qed.

(** What a part of the walk does: some of the functions [l] it comes to are
    registered behind the others, all of them unless a failure is reported. *)
Definition walked s s' devs drvs (l : list (Z * Z * Z)) : Prop := exists ps l' errs,
  pci_ok s' (devs ++ ps) drvs /\ s'.(pcidrv_at) = s.(pcidrv_at) /\ s'.(p_log) = s.(p_log) ++ errs /\
  l' `sublist_of` l /\ (errs = [] -> l' = l) /\
  (forall d, d ∈ devs -> s'.(pcidev_at) !! d = s.(pcidev_at) !! d) /\
  Forall2 (fun p a => p <> 0 /\ (p ∉ devs) /\ s'.(pcidev_at) !! p = Some (described cfg a (left_over p))) ps l'.
Lemma walked_none s devs drvs x : pci_ok s devs drvs -> walked s (set_px x s) devs drvs [].
Proof. intros Hok. exists [], [], []. rewrite !app_nil_r. split; [by apply pci_px|]. by repeat (split; [done|]). Qed.
Lemma walked_trans (R : pstate H X -> Prop) s s1 devs drvs l1 l2 : walked s s1 devs drvs l1 ->
  (forall devs1, pci_ok s1 devs1 drvs -> exists s2, R s2 /\ walked s1 s2 devs1 drvs l2) -> exists s2, R s2 /\ walked s s2 devs drvs (l1 ++ l2).
Proof.
  intros (ps1 & l1' & e1 & Hok1 & Ed1 & El1 & Hs1 & He1 & Hk1 & HF1) H2.
  destruct (H2 _ Hok1) as (s2 & HR & ps2 & l2' & e2 & Hok2 & Ed2 & El2 & Hs2 & He2 & Hk2 & HF2). exists s2. split; [done|].
  exists (ps1 ++ ps2), (l1' ++ l2'), (e1 ++ e2). rewrite app_assoc. split; [done|]. split; [congruence|]. split; [by rewrite El2, El1, app_assoc|].
  split; [by apply sublist_app|]. split; [intros [-> ->]%app_nil; by rewrite He1, He2|].
  split; [intros d Hd; rewrite Hk2 by (apply elem_of_app; by left); by apply Hk1|]. apply Forall2_app.
  - apply Forall2_same_length_lookup in HF1 as [Hl HF1]. apply Forall2_same_length_lookup. split; [done|].
    intros i p a Hp Ha. destruct (HF1 i p a Hp Ha) as (P1 & P2 & P3). split; [done|]. split; [done|]. rewrite Hk2; [done|]. apply elem_of_app. right. by eapply list_elem_of_lookup_2.
  - eapply Forall2_impl; [exact HF2|]. intros p a (P1 & P2 & P3). split; [done|]. split; [|done]. intros Hd. apply P2, elem_of_app. by left.
Qed.

Definition pci_address (b d f : Z) : Prop := 0 <= b < 256 /\ 0 <= d < 32 /\ 0 <= f < 8.
Lemma read_val b d f o (x : X) : pci_address b d f -> 0 <= o < 256 -> Z.land o 3 = 0 -> (pci_read_4bytes b d f o x).1 = cfg b d f o.
Proof. intros (Hb & Hd & Hf) Ho Ha. unfold pci_read_4bytes. rewrite Ha. cbn [Z.eqb negb]. by apply config_law. Qed.
Lemma pci_read_spec b d f o s : pci_address b d f -> 0 <= o < 256 -> Z.land o 3 = 0 -> exists x, on_x (pci_read_4bytes b d f o) s = (cfg b d f o, set_px x s).
Proof. intros. eexists. unfold on_x. by rewrite read_val. Qed.
Lemma set_px_px x y s : set_px x (set_px y s) = set_px x s.
Proof. done. Qed.
Lemma vendor_spec b d f s : pci_address b d f -> exists x, on_x (pci_read_vendor_id b d f) s = (Z.land (cfg b d f 0) 0xFFFF, set_px x s).
Proof. intros. eexists. unfold on_x, pci_read_vendor_id. cbn [fst snd]. by rewrite read_val. Qed.
Lemma bridge_spec b d f s : pci_address b d f -> exists x, on_x (pci_device_is_host_bridge b d f) s = (bridge cfg b d f, set_px x s).
Proof. intros. eexists. unfold on_x, pci_device_is_host_bridge. cbn [fst snd]. by rewrite read_val. Qed.
Lemma multi_spec b d s : pci_address b d 0 -> exists x, on_x (pci_device_is_multifunction b d) s = (multi cfg b d, set_px x s).
Proof. intros. eexists. unfold on_x, pci_device_is_multifunction, pci_read_header_type. cbn [fst snd]. by rewrite read_val. Qed.

(** Registering a function: a block and a list node, or nothing at all. *)
Lemma register_spec s devs drvs b d f : pci_ok s devs drvs -> pci_address b d f ->
  exists s' st, pci_register_device left_over b d f s = Ret (s', st) /\ s'.(pcidrv_at) = s.(pcidrv_at) /\ s'.(p_log) = s.(p_log) /\
    ((st = - ENOMEM /\ pci_ok s' devs drvs /\ s'.(pcidev_at) = s.(pcidev_at)) \/
     (st = 0 /\ exists p, p <> 0 /\ (p ∉ devs) /\ pci_ok s' (devs ++ [p]) drvs /\ s'.(pcidev_at) = <[p := described cfg (b, d, f) (left_over p)]> s.(pcidev_at))).
Proof.
  intros Hok Ha. pose proof (pci_wf _ _ _ Hok) as Hwf. destruct Hok as [Hl Hnd Hb Ht]. unfold pci_register_device.
  destruct (malloc_law s.(p_ll).(heap) sizeof_PCIDevice Hwf ltac:(done)) as (h & p & -> & Hwf' & Hp). rewrite bind_Ret. cbn [fst snd].
  assert (Hk : forall b, live s.(p_ll).(heap) b <> None -> live h b = live s.(p_ll).(heap) b).
  { intros c Hlb. destruct Hp as [[-> Hp]|(Hp0 & Hf & Hp)]; rewrite Hp; [done|]. rewrite decide_False; [done|congruence]. }
  destruct (two_fst _ _ _ _ _ Hl) as (la & Hr & _). set (s1 := set_pheap h s).
  assert (Hl1 : two_lists s1.(p_ll) s1.(g_pci_devs) devs s1.(g_pci_dev_drivers) drvs).
  { apply two_heap; [done|done|]. intros c Hs. apply Hk. by apply (rep_nodes _ _ _ Hr). }
  assert (Hb1 : forall d, d ∈ devs -> s1.(p_ll).(nodes) !! d = None /\ live s1.(p_ll).(heap) d = Some sizeof_PCIDevice).
  { intros c Hc. destruct (Hb c Hc) as [Hn Hlc]. split; [done|]. cbn. rewrite Hk; congruence. }
  destruct Hp as [[-> _]|(Hp0 & Hfree & Hp)]; [exists s1, (- ENOMEM); split; [done|]; split; [done|]; split; [done|]; left; split; [done|]; split; [|done]; by split|].
  rewrite (proj2 (Z.eqb_neq p 0) Hp0).
  assert (Hpn : s1.(p_ll).(nodes) !! p = None) by (destruct (s1.(p_ll).(nodes) !! p) eqn:E; [exfalso; by apply (rep_nodes _ _ _ Hr p)|done]).
  assert (Hpl : live s1.(p_ll).(heap) p = Some sizeof_PCIDevice) by (cbn; by rewrite Hp, decide_True).
  assert (Hpd : p ∉ devs) by (intros Hc; destruct (Hb p Hc); congruence).
  destruct (two_add p _ _ _ _ _ Hl1) as (l & g & r & -> & Hkeep & Hc). rewrite bind_Ret. destruct (Hkeep p Hpn) as [Hpn2 Hpl2]; [congruence|]. rewrite Hpl in Hpl2.
  assert (Hb2 : forall d, d ∈ devs -> l.(nodes) !! d = None /\ live l.(heap) d = Some sizeof_PCIDevice).
  { intros c Hd. destruct (Hb1 c Hd) as [Hn Hlc]. destruct (Hkeep c Hn) as [-> ->]; [congruence|done]. }
  destruct Hc as [[-> Hl2]|[-> Hl2]]; cbn [Z.opp Z.ltb Z.compare LinkedList.ENOMEM].
  - change (set_gdevs l g s1) with (mkPS l s.(pcidev_at) s.(pcidrv_at) g s.(g_pci_dev_drivers) s.(p_log) s.(p_x)). set (s2 := mkPS l _ _ _ _ _ _).
    destruct (pci_read_spec b d f 0 s2 Ha) as (x0 & ->); [lia|done|]. destruct (pci_read_spec b d f 8 (set_px x0 s2) Ha) as (x8 & ->); [lia|done|].
    rewrite set_px_px. destruct (pci_read_spec b d f 0xC (set_px x8 s2) Ha) as (xC & ->); [lia|done|]. rewrite set_px_px.
    eexists _, 0. split; [reflexivity|]. split; [done|]. split; [done|]. right. split; [done|]. exists p. split; [done|]. split; [done|]. split; [|done].
    split; [exact Hl2| | |].
    + apply NoDup_app. split; [done|]. split; [intros c Hc ->%list_elem_of_singleton; done|apply NoDup_singleton].
    + cbn [p_ll set_pdevs set_px s2]. intros c [Hc| ->%list_elem_of_singleton]%elem_of_app; [by apply Hb2|done].
    + cbn [pcidev_at set_pdevs set_px s2]. intros c. rewrite elem_of_app, list_elem_of_singleton, Ht. destruct (decide (c = p)) as [->|Hne]; [rewrite lookup_insert_eq|rewrite lookup_insert_ne by done].
      * split; intros; [by eexists|by right].
      * split; [by intros [?| ->]|by left].
  - destruct (two_fst _ _ _ _ _ Hl2) as (l2 & Hr2 & _). destruct (free_law l.(heap) p) as (h2 & Hf & Hwf2 & Hh2); [apply Hr2|congruence|]. cbn [p_ll set_gdevs]. rewrite Hf, bind_Ret.
    eexists _, (- ENOMEM). split; [reflexivity|]. split; [done|]. split; [done|]. left. split; [done|]. split; [|done]. split; [|done| |exact Ht].
    + apply two_heap; [done|done|]. intros c Hs. rewrite Hh2. rewrite decide_False; [done|]. intros ->. cbn in Hs. rewrite Hpn2 in Hs. by destruct Hs.
    + intros c Hc. cbn. destruct (Hb2 c Hc) as [Hn Hlc]. split; [done|]. rewrite Hh2. rewrite decide_False; [done|]. by intros ->.
Qed.

Lemma register_walked s devs drvs b d f : pci_ok s devs drvs -> pci_address b d f -> exists s' st, pci_register_device left_over b d f s = Ret (s', st) /\
  walked s (if st =? 0 then s' else klog_err (b, d, f, st) s') devs drvs [(b, d, f)].
Proof.
  intros Hok Ha. destruct (register_spec s devs drvs b d f Hok Ha) as (s' & st & E & Ed & El & Hc). exists s', st. split; [done|].
  destruct Hc as [(-> & Hok' & Et)|(-> & p & Hp0 & Hpd & Hok' & Et)].
  - exists [], [], [(b, d, f, - ENOMEM)]. rewrite app_nil_r. change (- ENOMEM =? 0) with false. cbn iota.
    split; [by apply pci_log|]. split; [done|]. split; [by cbn; rewrite El|].
    split; [apply sublist_nil_l|]. split; [done|]. split; [by cbn; rewrite Et|]. constructor.
  - exists [p], [(b, d, f)], []. rewrite app_nil_r. cbn [Z.eqb]. split; [done|]. split; [done|]. split; [done|]. split; [done|]. split; [done|]. split.
    + intros c Hc. rewrite Et, lookup_insert_ne; [done|]. by intros ->.
    + constructor; [|constructor]. rewrite Et, lookup_insert_eq. done.
Qed.
Lemma walked_px x s s' devs drvs l : walked (set_px x s) s' devs drvs l -> walked s s' devs drvs l.
Proof. done. Qed.
(** A step that only reads, after a walk. *)
Lemma walked_read x s s1 devs drvs l : walked s s1 devs drvs l -> walked s (set_px x s1) devs drvs l.
Proof. intros (ps & l' & errs & Hok & Hr). exists ps, l', errs. split; [by apply pci_px|exact Hr]. Qed.
(** A step after which an error may end the walk early. *)
Lemma walked_stop s s1 devs drvs a l : walked s s1 devs drvs [a] -> (exists e, s1.(p_log) = s.(p_log) ++ [e]) -> walked s s1 devs drvs (a :: l).
Proof.
  intros (ps & l' & errs & Hok & Hd & Hl & Hsub & He & Hr) [e Hlog]. exists ps, l', errs. split; [done|]. split; [done|]. split; [done|].
  split; [etransitivity; [exact Hsub|]; apply sublist_skip; apply sublist_nil_l|]. split; [|done]. intros ->. rewrite app_nil_r in Hl. rewrite Hl in Hlog.
  apply (f_equal length) in Hlog. rewrite length_app in Hlog. cbn in Hlog. lia.
Qed.

Definition walks (rec : Z -> pstate H X -> outcome (pstate H X)) (scan : Z -> option (list (Z * Z * Z))) : Prop :=
  forall b l s devs drvs, 0 <= b < 256 -> scan b = Some l -> pci_ok s devs drvs -> exists s', rec b s = Ret s' /\ walked s s' devs drvs l.
Lemma for_funcs_spec rec scan b d : walks rec scan -> 0 <= b < 256 -> 0 <= d < 32 -> forall n f l s devs drvs,
  0 <= f -> f + Z.of_nat n <= 8 -> all_of (of_func cfg scan b d) n f = Some l -> pci_ok s devs drvs ->
  exists s', for_funcs left_over rec n b d f s = Ret s' /\ walked s s' devs drvs l.
Proof.
  intros Hrec Hb Hd. induction n as [|n IH]; intros f l s devs drvs Hf Hn Hl Hok; cbn [for_funcs all_of] in *.
  - injection Hl as <-. exists s. split; [done|]. apply (walked_none s devs drvs s.(p_x)) in Hok. by destruct s.
  - apply bind_Some in Hl as (l1 & E1 & Hl). apply bind_Some in Hl as (l2 & E2 & Hl). injection Hl as <-.
    assert (Ha : pci_address b d f) by (unfold pci_address; lia). destruct (vendor_spec b d f s Ha) as (x & ->). unfold of_func, absent in E1.
    destruct (_ =? 65535).
    { injection E1 as <-. rewrite bind_Ret. cbn [app]. apply (walked_trans _ s (set_px x s) devs drvs [] l2); [by apply walked_none|].
      intros devs1 Hok1. apply IH; [lia|lia|done|done]. }
    apply bind_Some in E1 as (l3 & E3 & [= <-]). destruct (register_walked (set_px x s) devs drvs b d f) as (s1 & st & -> & Hw); [by apply pci_px|done|].
    rewrite bind_Ret. set (s2 := if st =? 0 then _ else _) in *. destruct (bridge_spec b d f s2 Ha) as (y & ->). apply walked_px, (walked_read y) in Hw.
    rewrite <- app_comm_cons. change ((b, d, f) :: l3 ++ l2) with ([(b, d, f)] ++ l3 ++ l2). apply (walked_trans _ _ _ _ _ _ _ Hw). clear devs Hok Hw. intros devs Hok.
    destruct (bridge cfg b d f).
    + destruct (Hrec f l3 (set_px y s2) devs drvs ltac:(lia) E3 Hok) as (s3 & -> & Hw3). rewrite bind_Ret. apply (walked_trans _ _ _ _ _ _ _ Hw3).
      intros devs1 Hok1. apply IH; [lia|lia|done|done].
    + injection E3 as <-. rewrite bind_Ret. apply IH; [lia|lia|done|done].
Qed.
Lemma for_devs_spec rec scan b : walks rec scan -> 0 <= b < 256 -> forall n d l s devs drvs,
  0 <= d -> d + Z.of_nat n <= 32 -> all_of (of_dev cfg scan b) n d = Some l -> pci_ok s devs drvs ->
  exists s', for_devs left_over rec n b d s = Ret s' /\ walked s s' devs drvs l.
Proof.
  intros Hrec Hb. induction n as [|n IH]; intros d l s devs drvs Hd Hn Hl Hok; cbn [for_devs all_of] in *.
  - injection Hl as <-. exists s. split; [done|]. apply (walked_none s devs drvs s.(p_x)) in Hok. by destruct s.
  - apply bind_Some in Hl as (l1 & E1 & Hl). apply bind_Some in Hl as (l2 & E2 & Hl). injection Hl as <-.
    assert (Ha : pci_address b d 0) by (unfold pci_address; lia). destruct (vendor_spec b d 0 s Ha) as (x & ->). unfold of_dev, absent in E1.
    destruct (_ =? 65535).
    { injection E1 as <-. cbn [app]. apply (walked_trans _ s (set_px x s) devs drvs [] l2); [by apply walked_none|].
      intros devs1 Hok1. apply IH; [lia|lia|done|done]. }
    apply bind_Some in E1 as (l3 & E3 & [= <-]).
    destruct (register_spec (set_px x s) devs drvs b d 0) as (s1 & st & E & Edrv & Elog & Hc); [by apply pci_px|done|].
    destruct (register_walked (set_px x s) devs drvs b d 0) as (s1' & st' & E' & Hw); [by apply pci_px|done|]. rewrite E in E'. injection E' as <- <-.
    rewrite E, bind_Ret. apply walked_px in Hw. rewrite <- app_comm_cons. destruct (st =? 0) eqn:Est; cbn [negb].
    + destruct (multi_spec b d s1 Ha) as (y & ->). apply (walked_read y) in Hw. change ((b, d, 0) :: l3 ++ l2) with ([(b, d, 0)] ++ l3 ++ l2).
      apply (walked_trans _ _ _ _ _ _ _ Hw). clear devs Hok Hw Hc E. intros devs Hok. destruct (multi cfg b d).
      * destruct (for_funcs_spec rec scan b d Hrec Hb ltac:(lia) 7 1 l3 (set_px y s1) devs drvs ltac:(lia) ltac:(lia) E3 Hok) as (s3 & -> & Hw3).
        rewrite bind_Ret. apply (walked_trans _ _ _ _ _ _ _ Hw3). intros devs1 Hok1. apply IH; [lia|lia|done|done].
      * injection E3 as <-. rewrite bind_Ret. apply IH; [lia|lia|done|done].
    + eexists. split; [reflexivity|]. apply walked_stop; [done|]. exists (b, d, 0, st). cbn. by rewrite Elog.
Qed.
Lemma enumerate_spec fuel : walks (pci_enumerate_bus left_over fuel) (scan cfg fuel).
Proof.
  induction fuel as [|fuel IH]; intros b l s devs drvs Hb Hl Hok; [done|]. cbn [pci_enumerate_bus scan] in *.
  by apply (for_devs_spec _ _ _ IH Hb 32 0 l).
Qed.

(** ** Drivers *)
(** The devices offered to a driver, in order: those of its class that have no
    driver; the ones whose probe answers 0 become the driver's. *)
Definition offered (y : PCIDeviceDriver) (x : PCIDevice) : bool :=
  (x.(pci_class) =? y.(pdrv_class)) && (x.(subclass) =? y.(pdrv_subclass)) && (x.(pci_driver) =? 0).
Inductive probed (p : Z) (y : PCIDeviceDriver) : list Z -> gmap Z PCIDevice -> X -> gmap Z PCIDevice -> X -> Prop :=
| probed_end t x : probed p y [] t x t x
| probed_skip d ds t x t' x' v : t !! d = Some v -> offered y v = false -> probed p y ds t x t' x' -> probed p y (d :: ds) t x t' x'
| probed_refused d ds t x x1 st t' x' v : t !! d = Some v -> offered y v = true -> run_probe y.(probe) d v x = Ret (x1, st) -> st <> 0 ->
    probed p y ds t x1 t' x' -> probed p y (d :: ds) t x t' x'
| probed_taken d ds t x x1 t' x' v : t !! d = Some v -> offered y v = true -> run_probe y.(probe) d v x = Ret (x1, 0) ->
    probed p y ds (<[d := set_pci_driver p v]> t) x1 t' x' -> probed p y (d :: ds) t x t' x'.
(** The devices a driver leaves. *)
Definition left_by (p : Z) (v : PCIDevice) : PCIDevice := if v.(pci_driver) =? p then set_pci_driver 0 v else v.

Lemma probed_step p y d ds t x t' x' : probed p y ds t x t' x' -> forall v', t' !! d = Some v' -> exists v, t !! d = Some v /\
  (v' = v \/ offered y v = true /\ v' = set_pci_driver p v /\ d ∈ ds).
Proof.
  induction 1 as [t x|e ds t x t' x' v Hv Ho Hp IH|e ds t x x1 st t' x' v Hv Ho Hr Hst Hp IH|e ds t x x1 t' x' v Hv Ho Hr Hp IH]; intros v' Hv'.
  - exists v'. split; [done|]. by left.
  - destruct (IH v' Hv') as (w & Hw & [->|(H1 & -> & H2)]); exists w; (split; [done|]); [by left|right; split; [done|]; split; [done|by right]].
  - destruct (IH v' Hv') as (w & Hw & [->|(H1 & -> & H2)]); exists w; (split; [done|]); [by left|right; split; [done|]; split; [done|by right]].
  - destruct (IH v' Hv') as (w & Hw & Hc). apply lookup_insert_Some in Hw as [[<- <-]|[Hne Hw]].
    + exists v. split; [done|]. right. split; [done|]. split; [|left]. destruct Hc as [->|(_ & -> & _)]; done.
    + exists w. split; [done|]. destruct Hc as [->|(H1 & -> & H2)]; [by left|right; split; [done|]; split; [done|by right]].
Qed.
Lemma probed_dom p y ds t x t' x' : probed p y ds t x t' x' -> forall d, is_Some (t' !! d) <-> is_Some (t !! d).
Proof.
  induction 1 as [t x|e ds t x t' x' v Hv Ho Hp IH|e ds t x x1 st t' x' v Hv Ho Hr Hst Hp IH|e ds t x x1 t' x' v Hv Ho Hr Hp IH]; intros d; [done|apply IH|apply IH|].
  rewrite IH. destruct (decide (d = e)) as [->|Hne]; [rewrite lookup_insert_eq, Hv; split; by eexists|by rewrite lookup_insert_ne].
Qed.

Context (probe_law : forall f d v x, exists x' st, run_probe f d v x = Ret (x', st)).
Lemma devs_nonzero s devs drvs d : pci_ok s devs drvs -> d ∈ devs -> d <> 0.
Proof. intros Hok Hd. apply (live_not_null s.(p_ll).(heap)); [by eapply pci_wf|]. destruct (po_block _ _ _ Hok d Hd) as [_ ->]. done. Qed.
Lemma each_dev {A} s devs drvs (body : A -> Z -> outcome (A * bool)) a : two_lists s.(p_ll) s.(g_pci_devs) devs s.(g_pci_dev_drivers) drvs ->
  ll_iter body (S (size s.(p_ll).(nodes))) s.(p_ll).(nodes) s.(g_pci_devs).(root) a = iter body devs a.
Proof.
  intros Hl. destruct (two_fst _ _ _ _ _ Hl) as (l & [Hs _ Hnd _ _ _] & <-). apply ll_iter_spec; [done|]. pose proof (seg_size _ _ _ _ Hs Hnd). lia.
Qed.
Lemma probe_iter p y ds : forall s, s.(pcidrv_at) !! p = Some y -> (forall d, d ∈ ds -> d <> 0 /\ is_Some (s.(pcidev_at) !! d)) ->
  exists t x, iter (probe_body p) ds s = Ret (set_pdevs t (set_px x s)) /\ probed p y ds s.(pcidev_at) s.(p_x) t x.
Proof.
  induction ds as [|d ds IH]; intros s Hy Hds; cbn [iter].
  - exists s.(pcidev_at), s.(p_x). split; [by destruct s|constructor].
  - destruct (Hds d) as [Hd0 [v Hv]]; [by left|]. rewrite (proj2 (Z.eqb_neq d 0) Hd0).
    assert (Hstep : exists s1, probe_body p s d = Ret (s1, false) /\ s1 = set_pdevs s1.(pcidev_at) (set_px s1.(p_x) s) /\ (forall e, is_Some (s.(pcidev_at) !! e) -> is_Some (s1.(pcidev_at) !! e)) /\
      forall t x, probed p y ds s1.(pcidev_at) s1.(p_x) t x -> probed p y (d :: ds) s.(pcidev_at) s.(p_x) t x).
    { unfold probe_body. rewrite Hv, Hy. cbn [deref]. rewrite !bind_Ret. fold (offered y v). destruct (offered y v) eqn:Ho.
      - destruct (probe_law y.(probe) d v s.(p_x)) as (x1 & st & Hr). rewrite Hr, bind_Ret. cbn [fst snd]. destruct (Z.eqb_spec st 0) as [->|Hst].
        + eexists. split; [reflexivity|]. split; [done|]. split; [cbn; intros e He; rewrite lookup_insert_is_Some'; by right|]. intros t x Hp. by eapply probed_taken.
        + eexists. split; [reflexivity|]. split; [by destruct s|]. split; [done|]. intros t x Hp. by eapply probed_refused.
      - exists s. split; [done|]. split; [by destruct s|]. split; [done|]. intros t x Hp. by eapply probed_skip. }
    destruct Hstep as (s1 & -> & E1 & Hdom & Hp). rewrite bind_Ret. cbn [fst snd].
    destruct (IH s1) as (t & x & -> & Hpr); [by rewrite E1|intros e He; destruct (Hds e) as [? ?]; [by right|]; split; [done|by apply Hdom]|].
    exists t, x. split; [|by apply Hp]. by rewrite E1.
Qed.
Lemma leave_iter p ds : forall s, NoDup ds -> (forall d, d ∈ ds -> d <> 0 /\ is_Some (s.(pcidev_at) !! d)) ->
  exists t, iter (leave_body p) ds s = Ret (set_pdevs t s) /\ forall d, t !! d = if decide (d ∈ ds) then left_by p <$> s.(pcidev_at) !! d else s.(pcidev_at) !! d.
Proof.
  induction ds as [|d ds IH]; intros s Hnd Hds; cbn [iter].
  - exists s.(pcidev_at). split; [by destruct s|]. intros d. rewrite decide_False; [done|]. apply not_elem_of_nil.
  - destruct (Hds d) as [Hd0 [v Hv]]; [by left|]. apply NoDup_cons in Hnd as [Hdn Hnd]. rewrite (proj2 (Z.eqb_neq d 0) Hd0).
    set (s1 := set_pdevs (<[d := left_by p v]> s.(pcidev_at)) s).
    assert (Hstep : leave_body p s d = Ret (s1, false)).
    { unfold leave_body, s1, left_by. rewrite Hv. cbn [deref]. rewrite bind_Ret. destruct (_ =? p); [done|]. rewrite insert_id by done. by destruct s. }
    rewrite Hstep, bind_Ret. cbn [fst snd].
    destruct (IH s1) as (t & -> & Ht); [done|intros e He; destruct (Hds e) as [? ?]; [by right|]; split; [done|]; cbn; rewrite lookup_insert_is_Some'; by right|].
    exists t. split; [done|]. intros e. rewrite Ht. cbn [pcidev_at s1 set_pdevs]. destruct (decide (e = d)) as [->|Hne].
    + rewrite decide_False by done. rewrite decide_True by left. by rewrite lookup_insert_eq, Hv.
    + rewrite lookup_insert_ne by done. destruct (decide (e ∈ ds)) as [Hi|Hi]; [by rewrite decide_True by by right|]. rewrite decide_False; [done|]. by intros [?|?]%elem_of_cons.
Qed.

Lemma register_driver_spec s devs drvs p y : pci_ok s devs drvs -> s.(pcidrv_at) !! p = Some y ->
  exists s' st, pci_register_device_driver p s = Ret (s', st) /\ s'.(pcidrv_at) = s.(pcidrv_at) /\
    ((st = - ENOMEM /\ pci_ok s' devs drvs /\ s'.(pcidev_at) = s.(pcidev_at) /\ s'.(p_x) = s.(p_x)) \/
     (st = 0 /\ pci_ok s' devs (drvs ++ [p]) /\ probed p y devs s.(pcidev_at) s.(p_x) s'.(pcidev_at) s'.(p_x))).
Proof.
  intros [Hl Hnd Hb Ht] Hy. unfold pci_register_device_driver.
  destruct (two_add p _ _ _ _ _ (two_swap _ _ _ _ _ Hl)) as (l & g & r & -> & Hk & Hc). rewrite bind_Ret.
  assert (Hb' : forall d, d ∈ devs -> l.(nodes) !! d = None /\ live l.(heap) d = Some sizeof_PCIDevice).
  { intros d Hd. destruct (Hb d Hd) as [Hn Hlv]. destruct (Hk d Hn) as [-> ->]; [congruence|done]. }
  destruct Hc as [[-> Hl']|[-> Hl']]; cbn [Z.opp Z.ltb Z.compare LinkedList.ENOMEM].
  - set (s1 := set_gdrvs l g s). assert (Hok1 : pci_ok s1 devs (drvs ++ [p])) by (split; [by apply two_swap|done|done|done]).
    rewrite (each_dev _ _ _ _ _ (po_lists _ _ _ Hok1)). destruct (probe_iter p y devs s1) as (t & x & -> & Hp); [done|intros d Hd; split; [by eapply devs_nonzero|by apply Ht]|].
    rewrite bind_Ret. eexists _, 0. split; [reflexivity|]. split; [done|]. right. split; [done|]. split; [|exact Hp].
    split; [apply (po_lists _ _ _ Hok1)|done|done|]. intros d. cbn [pcidev_at set_pdevs]. rewrite (probed_dom _ _ _ _ _ _ _ Hp). apply Ht.
  - eexists _, (- ENOMEM). split; [reflexivity|]. split; [done|]. left. split; [done|]. split; [|done]. split; [by apply two_swap|done|done|done].
Qed.
Lemma unregister_driver_spec s devs drvs p : pci_ok s devs drvs ->
  exists s' st, pci_unregister_device_driver p s = Ret (s', st) /\ s'.(p_x) = s.(p_x) /\
    (forall d, s'.(pcidev_at) !! d = left_by p <$> s.(pcidev_at) !! d) /\
    match remove_value p drvs with Some drvs' => st = 0 /\ pci_ok s' devs drvs' | None => st = - ENOENT /\ pci_ok s' devs drvs end.
Proof.
  intros Hok. pose proof Hok as [Hl Hnd Hb Ht]. unfold pci_unregister_device_driver.
  rewrite (each_dev _ _ _ _ _ Hl). destruct (leave_iter p devs s Hnd) as (t & -> & Htt); [intros d Hd; split; [by eapply devs_nonzero|by apply Ht]|].
  rewrite bind_Ret. destruct (two_remove p _ _ _ _ _ (two_swap _ _ _ _ _ Hl)) as (l & g & r & Er & Hk & Hc). cbn [p_ll g_pci_dev_drivers set_pdevs]. rewrite Er, bind_Ret.
  assert (Htab : forall d, t !! d = left_by p <$> s.(pcidev_at) !! d).
  { intros d. rewrite Htt. destruct (decide (d ∈ devs)) as [Hi|Hi]; [done|]. destruct (s.(pcidev_at) !! d) eqn:E; [|done]. exfalso. apply Hi, Ht. by eexists. }
  assert (Hb' : forall d, d ∈ devs -> l.(nodes) !! d = None /\ live l.(heap) d = Some sizeof_PCIDevice).
  { intros d Hd. destruct (Hb d Hd) as [Hn Hlv]. destruct (Hk d Hn) as [-> ->]; [congruence|done]. }
  assert (Ht' : forall d, d ∈ devs <-> is_Some (t !! d)) by (intros d; by rewrite Htab, fmap_is_Some).
  eexists _, r. split; [reflexivity|]. split; [done|]. split; [exact Htab|]. destruct (remove_value p drvs) as [drvs'|].
  - destruct Hc as [-> Hl']. split; [done|]. split; [by apply two_swap|done|done|done].
  - destruct Hc as (-> & -> & ->). split; [done|]. split; [done|done|done|done].
Qed.
End walk.


(** A driver and its devices.  A driver that cannot be listed is refused
    with [-ENOMEM] and nothing else changes.  Otherwise every device of its
    class without a driver is probed, in the order of the list, and is the
    driver's if its probe answers 0; a device changes in no other way.
    Unregistering the driver then succeeds, restores the list, and leaves every
    device as it was, so that none is linked to it. *)
Theorem pci_driver_roundtrip {H X} `{!Allocator H} `{!AllocatorLaws H} `{!PciProbes X} (s : pstate H X) devs drvs p y :
  (forall f d v x, exists x' st, run_probe f d v x = Ret (x', st)) ->
  pci_ok s devs drvs -> s.(pcidrv_at) !! p = Some y -> p ∉ drvs -> p <> 0 -> (forall d v, s.(pcidev_at) !! d = Some v -> v.(pci_driver) <> p) ->
  exists s' st, pci_register_device_driver p s = Ret (s', st) /\
    ((st = - ENOMEM /\ pci_ok s' devs drvs /\ s'.(pcidev_at) = s.(pcidev_at)) \/
     (st = 0 /\ pci_ok s' devs (drvs ++ [p]) /\ probed p y devs s.(pcidev_at) s.(p_x) s'.(pcidev_at) s'.(p_x) /\
      (forall d v', s'.(pcidev_at) !! d = Some v' -> exists v, s.(pcidev_at) !! d = Some v /\ (v' = v \/ offered y v = true /\ v' = set_pci_driver p v)) /\
      exists s'', pci_unregister_device_driver p s' = Ret (s'', 0) /\ pci_ok s'' devs drvs /\ s''.(pcidev_at) = s.(pcidev_at))).
Proof.
  intros Hlaw Hok Hy Hp Hp0 Hfree. destruct (register_driver_spec Hlaw s devs drvs p y Hok Hy) as (s' & st & -> & _ & Hc). exists s', st. split; [done|].
  destruct Hc as [(-> & Hok' & Et & _)|(-> & Hok' & Hpr)]; [by left|right]. split; [done|]. split; [done|]. split; [done|].
  assert (Hstep : forall d v', s'.(pcidev_at) !! d = Some v' -> exists v, s.(pcidev_at) !! d = Some v /\ (v' = v \/ offered y v = true /\ v' = set_pci_driver p v)).
  { intros d v' Hv'. destruct (probed_step _ _ d _ _ _ _ _ Hpr v' Hv') as (v & Hv & [->|(H1 & -> & _)]); exists v; (split; [done|]); tauto. }
  split; [exact Hstep|]. destruct (unregister_driver_spec s' devs (drvs ++ [p]) p Hok') as (s'' & st & -> & _ & Ht & Hc).
  rewrite remove_value_snoc in Hc by done. destruct Hc as [-> Hok'']. exists s''. split; [done|]. split; [done|]. apply map_eq. intros d. rewrite Ht.
  destruct (s'.(pcidev_at) !! d) as [v'|] eqn:E.
  - destruct (Hstep d v' E) as (v & Hv & Hc). rewrite Hv. cbn. f_equal. pose proof (Hfree d v Hv). unfold left_by. destruct Hc as [->|(Ho & ->)].
    + by rewrite (proj2 (Z.eqb_neq _ _)).
    + cbn. rewrite Z.eqb_refl. unfold offered in Ho. apply andb_prop in Ho as [_ Ho%Z.eqb_eq]. destruct v. cbn in *. by subst.
  - destruct (s.(pcidev_at) !! d) eqn:E'; [|done]. exfalso. assert (is_Some (s'.(pcidev_at) !! d)) as [? ?]; [|congruence]. eapply probed_dom; [exact Hpr|by eexists].
Qed.

(** ** A machine with a host bridge at 00:00.0 and an IDE controller at 00:01.1

    The bus keeps the last address; every probe succeeds. *)
Definition demo_cfg (b d f o : Z) : Z :=
  if negb (b =? 0) then 0xFFFFFFFF
  else if (d =? 0) && (f =? 0) then (if o =? 0 then 0x12378086 else if o =? 8 then 0x06000002 else 0)
  else if (d =? 1) && (f =? 0) then (if o =? 0 then 0x70008086 else if o =? 8 then 0x06010000 else if o =? 0xC then 0x00800000 else 0)
  else if (d =? 1) && (f =? 1) then (if o =? 0 then 0x70108086 else if o =? 8 then 0x01018000 else 0)
  else 0xFFFFFFFF.
#[export] Instance pci_demo_bus : Bus Z := {|
  bus_in _ p x := (if p =? PCI_CONFIG_DATA then demo_cfg (x / 2 ^ 16 mod 2 ^ 8) (x / 2 ^ 11 mod 2 ^ 5) (x / 2 ^ 8 mod 2 ^ 3) (x mod 2 ^ 8) else 0, x);
  bus_out _ p v x := if p =? PCI_CONFIG_ADDRESS then v else x |}.
#[export] Instance pci_demo_probes : PciProbes Z := fun _ _ _ x => Ret (x, 0).
Lemma demo_cfg_u32 b d f o : u32 (demo_cfg b d f o) = demo_cfg b d f o.
Proof. unfold demo_cfg. by repeat case_cond. Qed.
Lemma demo_config : PciConfig (X := Z) demo_cfg.
Proof.
  intros x b d f o Hb Hd Hf Ho _. unfold port_inl, port_outl. cbn [bus_in bus_out pci_demo_bus]. change (u16 PCI_CONFIG_DATA =? PCI_CONFIG_DATA) with true.
  change (u16 PCI_CONFIG_ADDRESS =? PCI_CONFIG_ADDRESS) with true. cbn [fst]. rewrite demo_cfg_u32.
  assert (E : PCIDeviceRegister b d f o = o + f * 256 + d * 2048 + b * 65536 + 2147483648).
  { unfold PCIDeviceRegister, u8. change (2 ^ 8) with 256. change (2 ^ 5) with 32. change (2 ^ 3) with 8. rewrite !Z.mod_small by lia.
    change (2 ^ 31) with 2147483648. change (2 ^ 16) with 65536. change (2 ^ 11) with 2048. lia. }
  rewrite E, u32_small by (unfold is_u32; lia). change (2 ^ 8) with 256. change (2 ^ 16) with 65536. change (2 ^ 11) with 2048. change (2 ^ 5) with 32. change (2 ^ 3) with 8.
  f_equal; symmetry; Z.div_mod_to_equations; lia.
Qed.
Definition nothing_left : Z -> Z := fun _ => 0.
Definition ide_driver : PCIDeviceDriver := mkPDrv 0 PCI_MASS_STORAGE_CONTROLLER 1 7.
Definition demo_pci : pstate kstate Z := mkPS (mkLS demo_k ∅) ∅ {[900 := ide_driver]} (mkLL 0 0) (mkLL 0 0) [] 0.
Lemma demo_pci_ok : pci_ok demo_pci [] [].
Proof.
  split; [|constructor|by intros d ?%elem_of_nil|intros d; cbn; rewrite lookup_empty; split; [by intros ?%elem_of_nil|by intros []]].
  split. destruct empty_list_of as (l & Hr & Hl). exists l, l. destruct l; [|done]. repeat (split; [done|]). intros a Ha; by apply elem_of_nil in Ha.
Qed.

(** The three functions that are found, and the IDE driver's device. *)
Definition found_pci : pstate kstate Z := match pci_main nothing_left 2 demo_pci with Ret r => r.1 | _ => demo_pci end.
Definition summary (s : pstate kstate Z) : list (Z * Z * Z * string * Z) :=
  (fun r : Z * PCIDevice => (r.2.(bus), r.2.(dev), r.2.(func), pci_class_to_string r.2.(pci_class) r.2.(subclass), r.2.(pci_driver))) <$> map_to_list s.(pcidev_at).
Example three_found : summary found_pci = [(0, 1, 0, "ISA bridge"%string, 0); (0, 1, 1, "IDE controller"%string, 0); (0, 0, 0, "Host bridge"%string, 0)].
Proof. vm_compute. reflexivity. Qed.
Example ide_gets_its_device : match pci_register_device_driver 900 found_pci with
  | Ret (s, st) => st = 0 /\ summary s = [(0, 1, 0, "ISA bridge"%string, 0); (0, 1, 1, "IDE controller"%string, 900); (0, 0, 0, "Host bridge"%string, 0)]
  | _ => False end.
Proof. vm_compute. split; reflexivity. Qed.
(** With another word left in the blocks the device seems to have a driver. *)
Example left_over_word_hides_it :
  match pci_main (fun _ => 1) 2 demo_pci with
  | Ret (s, _) => match pci_register_device_driver 900 s with
                  | Ret (s', st) => st = 0 /\ summary s' = summary s
                  | _ => False end
  | _ => False end.
Proof. vm_compute. split; reflexivity. Qed.

Lemma found_pci_ok : exists devs, pci_ok found_pci devs [] /\ forall d v, found_pci.(pcidev_at) !! d = Some v -> v.(pci_driver) <> 900.
Proof.
  destruct (pci_enumerate_bus nothing_left 2 0 demo_pci) as [s| |] eqn:E; [|exfalso; vm_compute in E; discriminate E..].
  destruct (enumerate_spec (H := kstate) (X := Z) (PciConfig0 := demo_config) nothing_left demo_cfg 2 0 [(0, 0, 0); (0, 1, 0); (0, 1, 1)] demo_pci [] [] ltac:(lia) ltac:(vm_compute; reflexivity) demo_pci_ok)
    as (s' & E' & ps & l' & errs & Hok & _ & _ & _ & _ & _ & HF). rewrite E in E'. injection E' as ->.
  assert (Ef : found_pci = set_px found_pci.(p_x) s') by (vm_compute in E; injection E as <-; vm_compute; reflexivity).
  exists ps. rewrite Ef. split; [by apply pci_px|]. intros d v Hv. cbn in Hv. assert (Hd : d ∈ ps) by (apply (po_there _ _ _ Hok); by eexists).
  apply list_elem_of_lookup in Hd as [i Hi]. apply Forall2_same_length_lookup in HF as [Hlen HF]. destruct (lookup_lt_is_Some_2 l' i) as [a Ha]; [rewrite <- Hlen; by eapply lookup_lt_Some|].
  destruct (HF i d a Hi Ha) as (_ & _ & Hv'). rewrite Hv in Hv'. injection Hv' as ->. by destruct a as [[? ?] ?].
Qed.
Lemma pci_driver_roundtrip_witness : exists devs s' st, pci_ok found_pci devs [] /\ pci_register_device_driver 900 found_pci = Ret (s', st) /\
  (st = 0 -> exists s'', pci_unregister_device_driver 900 s' = Ret (s'', 0) /\ s''.(pcidev_at) = found_pci.(pcidev_at)).
Proof.
  destruct found_pci_ok as (devs & Hok & Hfree).
  destruct (pci_driver_roundtrip found_pci devs [] 900 ide_driver ltac:(intros; by eexists _, _) Hok ltac:(vm_compute; reflexivity) ltac:(by intros ?%elem_of_nil) ltac:(lia) Hfree) as (s' & st & E & Hc).
  exists devs, s', st. split; [exact Hok|]. split; [exact E|]. intros ->. destruct Hc as [[Hst _]|(_ & _ & _ & _ & s'' & E2 & _ & Ht)]; [discriminate Hst|]. exists s''. split; [exact E2|exact Ht].
Defined.
