(* ===== verification/Time.v ===== *)
(** * Time

    [kernel/time/] (the time sources and the timers), the waiting half of
    [kernel/kstdlib/time.c], and the only time source, the programmable
    interval timer ([drivers/timers/pit]).  Floating point is evaluated in
    [long double], as the x87 does. *)
From Stdlib Require Import Floats.SpecFloat.
From S2P Require Import Prelude Alloc Kmalloc LinkedList Fs Printf Interrupts.

(** ** Data *)
Record timespec := mkTS { tv_sec : Z; tv_nsec : Z }.
Record TimeSource := mkSrc { ts_name : list Z; ts_priority : Z }.
(** [t_now] is the source whose [now] the timer calls; 0 is [timer_stub_now]. *)
Record Timer := mkTimer { starting_ts : timespec; t_now : Z }.
Definition TIMER_DORMANT : Timer := mkTimer (mkTS 0 0) 0.

(** The function pointers of the [TimeSource] at an address; [X] is the
    drivers' state. *)
Class TimeSources (X : Type) := {
  ts_init : Z -> X -> outcome (X * Z);
  ts_destroy : Z -> X -> outcome X;
  ts_now : Z -> X -> timespec }.

Section timekeep.
Context {H X : Type} `{!Allocator H} `{!TimeSources X}.

Record tkstate := mkTK {
  tk_ll : llstate H; timesources : gmap Z TimeSource; g_timesources : LinkedList; g_best_timesource : Z;
  g_uptime_timer : Timer; tk_x : X }.
Definition set_list (s : tkstate) (l : llstate H) (ll : LinkedList) : tkstate :=
  mkTK l s.(timesources) ll s.(g_best_timesource) s.(g_uptime_timer) s.(tk_x).
Definition set_x (s : tkstate) (x : X) : tkstate :=
  mkTK s.(tk_ll) s.(timesources) s.(g_timesources) s.(g_best_timesource) s.(g_uptime_timer) x.
Definition set_best (s : tkstate) (b : Z) (t : Timer) : tkstate :=
  mkTK s.(tk_ll) s.(timesources) s.(g_timesources) b t s.(tk_x).

(** *** [timer.c] *)
Definition timer_stub_now : timespec := mkTS 0 0.
(** [t->now()]. *)
Definition call_now (a : Z) (s : tkstate) : timespec := if a =? 0 then timer_stub_now else ts_now a s.(tk_x).
Definition timer_start (s : tkstate) : outcome Timer :=
  _ ← deref (s.(timesources) !! s.(g_best_timesource));
  Ret (mkTimer (call_now s.(g_best_timesource) s) s.(g_best_timesource)).
Definition elapsed (now start : timespec) : timespec :=
  let sec := now.(tv_sec) - start.(tv_sec) in
  let nsecdiff := now.(tv_nsec) - start.(tv_nsec) in
  if nsecdiff <? 0 then mkTS (sec - 1) (i32 (1000000000 + nsecdiff)) else mkTS sec (i32 nsecdiff).
Definition timer_elapsed (t : Timer) (s : tkstate) : timespec := elapsed (call_now t.(t_now) s) t.(starting_ts).

(** *** [timekeep.c] *)
Definition timekeep_register_timesource (ts : Z) (s : tkstate) : outcome (tkstate * Z) :=
  r ← linkedlist_add ts s.(tk_ll) s.(g_timesources);
  let '(l, ll, st) := r : llstate H * LinkedList * Z in
  let s := set_list s l ll in
  if st <? 0 then Ret (s, st)
  else
    r ← ts_init ts s.(tk_x);
    let s := set_x s r.1 in
    if r.2 <? 0 then
      q ← linkedlist_remove_by_data ts s.(tk_ll) s.(g_timesources);
      let '(l, ll, _) := q : llstate H * LinkedList * Z in Ret (set_list s l ll, r.2)
    else Ret (s, 0).

Definition timekeep_unregister_timesource (ts : Z) (s : tkstate) : outcome (tkstate * Z) :=
  x ← ts_destroy ts s.(tk_x);
  let s := set_x s x in
  r ← linkedlist_remove_by_data ts s.(tk_ll) s.(g_timesources);
  let '(l, ll, st) := r : llstate H * LinkedList * Z in Ret (set_list s l ll, st).

(** One pass of the search: the best so far and the count. *)
Definition better_source (srcs : gmap Z TimeSource) (a : Z * Z) (ts : Z) : outcome ((Z * Z) * bool) :=
  x ← deref (srcs !! ts);
  better ← (if a.1 =? 0 then Ret true else b ← deref (srcs !! a.1); Ret (b.(ts_priority) <? x.(ts_priority)));
  Ret ((if better : bool then ts else a.1, a.2 + 1), false).
Definition timekeep_init (s : tkstate) : outcome (tkstate * Z) :=
  r ← ll_iter (better_source s.(timesources)) (S (size s.(tk_ll).(nodes))) s.(tk_ll).(nodes) s.(g_timesources).(root) (s.(g_best_timesource), 0);
  if r.2 =? 0 then Panic
  else
    let s := set_best s r.1 s.(g_uptime_timer) in
    t ← timer_start s;
    Ret (set_best s r.1 t, 0).

Definition timekeep_uptime (s : tkstate) : timespec := timer_elapsed s.(g_uptime_timer) s.
Definition timekeep_get_best_timesource (s : tkstate) : Z := s.(g_best_timesource).

(** *** In seconds and milliseconds: the result is rounded to a [double] *)
Definition ld_add (x y : spec_float) : spec_float := SFadd 64 16384 x y.
Definition ld_div (x y : spec_float) : spec_float := SFdiv 64 16384 x y.
Definition to_double (x : spec_float) : spec_float :=
  match x with S754_finite s m e => binary_normalize 53 1024 (if s then Z.neg m else Z.pos m) e s | _ => x end.
Definition seconds (ts : timespec) : spec_float :=
  ld_add (ld_of ts.(tv_sec) 0) (ld_div (ld_of ts.(tv_nsec) 0) (ld_of 1000000000 0)).
Definition timer_elapsed_sec (t : Timer) (s : tkstate) : spec_float := to_double (seconds (timer_elapsed t s)).
Definition timer_elapsed_ms (t : Timer) (s : tkstate) : spec_float :=
  let ts := timer_elapsed t s in
  to_double (ld_add (ld_of (ts.(tv_sec) * 1000) 0) (ld_div (ld_of ts.(tv_nsec) 0) (ld_of 1000000 0))).

(** *** Waiting ([kstdlib/time.c])

    [irqs k] is what the interrupts of the [k]th turn do. *)
Definition NANOSLEEP_SECS_OVERHEAD : spec_float := ld_of_double 0x3F8EB851EB851EB8.
Fixpoint nanosleep_loop (fuel : nat) (irqs : nat -> X -> X) (k : nat) (t : Timer) (secs : spec_float) (s : tkstate) : outcome tkstate :=
  match fuel with
  | O => Undef
  | S fuel => if SFltb (timer_elapsed_sec t s) secs then nanosleep_loop fuel irqs (S k) t secs (set_x s (irqs k s.(tk_x))) else Ret s
  end.
Definition nanosleep (fuel : nat) (irqs : nat -> X -> X) (rqtp : timespec) (s : tkstate) : outcome (tkstate * timespec * Z) :=
  let secs := to_double (SFsub 64 16384 (seconds rqtp) NANOSLEEP_SECS_OVERHEAD) in
  t ← timer_start s;
  s ← nanosleep_loop fuel irqs 0 t secs s;
  Ret (s, mkTS 0 0, 0).
(** [ms * 1000000] is a [size_t]; the difference is taken in 64 bits and kept in 32. *)
Definition sleep_ms_spec (ms : Z) : timespec :=
  let sec := u32 ms / 1000 in
  mkTS sec (i32 (u32 (u32 ms * 1000000) - sec * 1000000000)).
Definition sleep_ms (fuel : nat) (irqs : nat -> X -> X) (ms : Z) (s : tkstate) : outcome (tkstate * timespec * Z) :=
  nanosleep fuel irqs (sleep_ms_spec ms) s.
End timekeep.
Arguments tkstate : clear implicits.

(** ** The interval timer ([pit.c]) *)
Definition PIT_BASE_FREQ_HZ : Z := 1193181.
Definition PIT_CHANNEL0_PORT : Z := 0x40.
Definition PIT_COMMAND_PORT : Z := 0x43.
Definition PIT_CHANNEL0 : Z := Z.shiftl 0 6.
Definition PIT_ACCESS_LOHI : Z := Z.shiftl 3 4.
Definition PIT_OPMODE_SQUARE_WAVE_GEN : Z := Z.shiftl 3 1.
Definition PIT_MODE_BIN : Z := 0.

(** A conversion to [int32_t]. *)
Definition ld_int32 (x : spec_float) : outcome Z :=
  z ← ld_trunc x; if (- 2 ^ 31 <=? z) && (z <? 2 ^ 31) then Ret z else Undef.

Section pit.
Context {W : Type} `{!Bus W} (pit_isr_addr : Z).

Record pit := mkPit { g_periodic_int_timespec : timespec; g_freq : Z; pit_intr : intr W }.

(** [1.f / g_freq * 1000000000]. *)
Definition pit_step (freq : Z) : spec_float := ld_mul (ld_div (ld_of 1 0) (ld_of freq 0)) (ld_of 1000000000 0).
Fixpoint carry_loop (fuel : nat) (ts : timespec) : outcome timespec :=
  match fuel with
  | O => Undef
  | S fuel => if 1000000000 <=? ts.(tv_nsec) then carry_loop fuel (mkTS (ts.(tv_sec) + 1) (ts.(tv_nsec) - 1000000000)) else Ret ts
  end.
(** An [int32_t] holds less than three seconds of nanoseconds. *)
Definition pit_isr (s : pit) : outcome pit :=
  nsec ← ld_int32 (ld_add (ld_of s.(g_periodic_int_timespec).(tv_nsec) 0) (pit_step s.(g_freq)));
  ts ← carry_loop 4 (mkTS s.(g_periodic_int_timespec).(tv_sec) nsec);
  Ret (mkPit ts s.(g_freq) (set_hw s.(pit_intr) (interrupts_irq_done s.(pit_intr).(i_hw)))).

Definition pit_enable_periodic_int (s : pit) : pit :=
  let freq := 4096 in
  let freqdiv := u16 (PIT_BASE_FREQ_HZ / freq) in
  let i := interrupts_disable_irqs s.(pit_intr) in
  let i := (interrupts_reqister_irq_isr IRQ_PIT pit_isr_addr i).1 in
  let w := port_outb (Z.lor (Z.lor (Z.lor PIT_MODE_BIN PIT_OPMODE_SQUARE_WAVE_GEN) PIT_ACCESS_LOHI) PIT_CHANNEL0) PIT_COMMAND_PORT i.(i_hw) in
  let w := port_outb freqdiv PIT_CHANNEL0_PORT w in
  let w := port_outb (Z.shiftr freqdiv 8) PIT_CHANNEL0_PORT w in
  mkPit s.(g_periodic_int_timespec) freq (interrupts_enable_irqs (set_hw i w)).
Definition pit_init (s : pit) : pit * Z := (pit_enable_periodic_int s, 0).
Definition pit_destroy (s : pit) : pit * Z := (s, 0).
Definition pit_now (s : pit) : timespec := s.(g_periodic_int_timespec).

(** The source the module registers. *)
Definition g_pit_timesource : TimeSource := mkSrc [112; 105; 116] 100.
#[export] Instance pit_sources : TimeSources pit := {|
  ts_init _ s := Ret (pit_init s); ts_destroy _ s := Ret (pit_destroy s).1; ts_now _ s := pit_now s |}.
End pit.
Arguments pit : clear implicits.

(** ** Exact [long double] arithmetic

    A value of up to 64 bits times a power of two is its own rounding. *)
Section exact.
Lemma digits_log2 p : Z.pos (digits2_pos p) = Z.log2 (Z.pos p) + 1.
Proof.
  induction p as [p IH|p IH|]; cbn [digits2_pos]; [| |done]; rewrite Pos2Z.inj_succ, IH.
  - rewrite Pos2Z.inj_xI, Z.log2_succ_double by lia. lia.
  - rewrite Pos2Z.inj_xO, Z.log2_double by lia. lia.
Qed.

Lemma iter_xO p k : Z.pos (Pos.iter xO p k) = Z.pos p * 2 ^ Z.pos k.
Proof.
  induction k as [|k IH] using Pos.peano_ind; [cbn; lia|].
  rewrite Pos.iter_succ, Pos2Z.inj_xO, IH, Pos2Z.inj_succ, Z.pow_succ_r by lia. lia.
Qed.

Lemma iter_inner {A} (f : A -> A) k x : Nat.iter (S k) f x = Nat.iter k f (f x).
Proof. induction k as [|k IH]; [done|]. by change (f (Nat.iter (S k) f x) = f (Nat.iter k f (f x))); rewrite IH. Qed.

Lemma iter_pos_nat {A} (f : A -> A) n : forall x, SpecFloat.iter_pos f n x = Nat.iter (Pos.to_nat n) f x.
Proof.
  assert (Ha : forall j k x, Nat.iter j f (Nat.iter k f x) = Nat.iter (j + k) f x) by (intros; symmetry; apply Nat.iter_add).
  induction n as [n IH|n IH|]; intros x; [| |done].
  - change (SpecFloat.iter_pos f n (SpecFloat.iter_pos f n (f x)) = Nat.iter (Pos.to_nat n~1) f x). rewrite !IH, Ha, <- iter_inner. f_equal. lia.
  - change (SpecFloat.iter_pos f n (SpecFloat.iter_pos f n x) = Nat.iter (Pos.to_nat n~0) f x). rewrite !IH, Ha. f_equal. lia.
Qed.

(** Shifting out zeros is exact. *)
Lemma shr_zeros k : forall m, 0 < m ->
  Nat.iter k shr_1 {| shr_m := m * 2 ^ Z.of_nat k; shr_r := false; shr_s := false |} = {| shr_m := m; shr_r := false; shr_s := false |}.
Proof.
  induction k as [|k IH]; intros m Hm; [by rewrite Z.pow_0_r, Z.mul_1_r|].
  rewrite <- (IH m Hm), iter_inner. f_equal. rewrite Nat2Z.inj_succ, Z.pow_succ_r by lia.
  replace (m * (2 * 2 ^ Z.of_nat k)) with (2 * (m * 2 ^ Z.of_nat k)) by lia.
  destruct (m * 2 ^ Z.of_nat k) as [|p|p] eqn:E; [|done|]; pose proof (Z.pow_pos_nonneg 2 (Z.of_nat k)); nia.
Qed.

Definition width (q : Z) : Z := Z.log2 q + 1.
(** The 64 bits of [q] and where they stand. *)
Definition ld_exact (q e : Z) : spec_float := S754_finite false (Z.to_pos (q * 2 ^ (64 - width q))) (e + width q - 64).

Lemma width_pow q k : 0 < q -> 0 <= k -> width (q * 2 ^ k) = width q + k.
Proof. intros. unfold width. rewrite Z.log2_mul_pow2 by lia. lia. Qed.
Lemma width_pos q : 0 < q -> 0 < width q.
Proof. intros. unfold width. pose proof (Z.log2_nonneg q). lia. Qed.
Lemma width_le q k : 0 < q < 2 ^ k -> width q <= k.
Proof. intros [H1 H2]. apply Z.log2_lt_pow2 in H2; unfold width; lia. Qed.

(** In any precision: the bits of [q] and where they stand. *)
Definition fl_exact (prec q e : Z) : spec_float := S754_finite false (Z.to_pos (q * 2 ^ (prec - width q))) (e + width q - prec).
Section any_precision.
Context (prec emax : Z).
Hypothesis Hprec : 0 < prec <= 64.
Hypothesis Hemax : 1000 < emax.

Lemma fexp_normal n : - 900 < n -> fexp prec emax n = n - prec.
Proof. intros. unfold fexp, emin. lia. Qed.

(** The rounding of a mantissa whose top bits hold everything. *)
Lemma round_exact q j e : 0 < q -> width q <= prec -> prec - width q <= j -> - 500 < e < 500 -> j < 400 ->
  binary_round_aux prec emax false (q * 2 ^ j) e loc_Exact = fl_exact prec q (e + j).
Proof.
  intros Hq Hw Hj He Hj'. pose proof (width_pos q Hq). unfold binary_round_aux.
  set (M := q * 2 ^ (prec - width q)). assert (HM : 0 < M) by (unfold M; pose proof (Z.pow_pos_nonneg 2 (prec - width q)); nia).
  assert (HwM : width M = prec) by (unfold M; rewrite width_pow by lia; lia).
  assert (Hdig : forall z, 0 < z -> Zdigits2 z = width z) by (intros [|p|p] ?; [lia|apply digits_log2|lia]).
  assert (Hzero : forall E, - 600 < E < 1100 -> shr_fexp prec emax M E loc_Exact = ({| shr_m := M; shr_r := false; shr_s := false |}, E)).
  { intros E HE. unfold shr_fexp. rewrite Hdig, fexp_normal, HwM by lia. replace (prec + E - prec - E) with 0 by lia. done. }
  assert (Hfirst : shr_fexp prec emax (q * 2 ^ j) e loc_Exact = ({| shr_m := M; shr_r := false; shr_s := false |}, e + j + width q - prec)).
  { assert (Hsplit : q * 2 ^ j = M * 2 ^ (j + width q - prec)).
    { unfold M. rewrite <- Z.mul_assoc, <- Z.pow_add_r by lia. do 2 f_equal. lia. }
    assert (Hwj : width (q * 2 ^ j) = width q + j) by (apply width_pow; lia).
    unfold shr_fexp. rewrite Hdig by (pose proof (Z.pow_pos_nonneg 2 j); nia). rewrite fexp_normal, Hwj, Hsplit by lia.
    replace (width q + j + e - prec - e) with (j + width q - prec) by lia.
    destruct (j + width q - prec) as [|n|n] eqn:E; [|cbn [shr shr_record_of_loc]|lia].
    - rewrite Z.pow_0_r, Z.mul_1_r. cbn. f_equal. lia.
    - rewrite iter_pos_nat. rewrite <- (positive_nat_Z n). rewrite shr_zeros by done. f_equal. rewrite positive_nat_Z. lia. }
  rewrite Hfirst. cbn [loc_of_shr_record shr_m round_nearest_even]. rewrite Hzero by lia. cbn [shr_m].
  unfold fl_exact. fold M. destruct M as [|p|p]; [lia| |lia]. cbn [Z.to_pos]. rewrite (proj2 (Z.leb_le _ _)) by lia. f_equal.
Qed.

Lemma normalize_shifted q j e : 0 < q -> width q <= prec -> 0 <= j < 300 -> - 400 < e < 400 ->
  binary_normalize prec emax (q * 2 ^ j) e false = fl_exact prec q (e + j).
Proof.
  intros Hq Hw Hj He. pose proof (width_pos q Hq). pose proof (Z.pow_pos_nonneg 2 j ltac:(lia) ltac:(lia)) as Hp.
  unfold binary_normalize. destruct (q * 2 ^ j) as [|p|p] eqn:E; [nia| |nia]. unfold binary_round.
  rewrite digits_log2, <- E. fold (width (q * 2 ^ j)). rewrite width_pow, fexp_normal by lia. unfold shl_align.
  replace (width q + j + e - prec - e) with (width q + j - prec) by lia. destruct (width q + j - prec) as [|n|n] eqn:En.
  - rewrite <- E. apply round_exact; lia.
  - rewrite <- E. apply round_exact; lia.
  - rewrite iter_xO, <- E, <- Z.mul_assoc, <- Z.pow_add_r by lia. rewrite round_exact by lia. f_equal. lia.
Qed.
End any_precision.

Lemma ld_of_shifted q j e : 0 < q -> width q <= 64 -> 0 <= j < 300 -> - 400 < e < 400 -> ld_of (q * 2 ^ j) e = ld_exact q (e + j).
Proof. by apply normalize_shifted. Qed.
Lemma ld_of_exact q e : 0 < q -> width q <= 64 -> - 400 < e < 400 -> ld_of q e = ld_exact q e.
Proof. intros. rewrite <- (Z.mul_1_r q) at 1. change 1 with (2 ^ 0). rewrite ld_of_shifted by lia. f_equal. lia. Qed.
(** An integer as a [double]. *)
Definition double_of (z : Z) : spec_float := binary_normalize 53 1024 z 0 false.
Lemma double_of_exact q : 0 < q < 2 ^ 53 -> double_of q = fl_exact 53 q 0.
Proof.
  intros Hq. unfold double_of. rewrite <- (Z.mul_1_r q) at 1. change 1 with (2 ^ 0). rewrite normalize_shifted by (try lia; by apply width_le). f_equal.
Qed.

Lemma shl_align_val m ex ez : ez <= ex -> Z.pos (shl_align m ex ez).1 = Z.pos m * 2 ^ (ex - ez).
Proof.
  intros H. unfold shl_align. destruct (ez - ex) as [|n|n] eqn:E; [|lia|]; cbn [fst].
  - replace (ex - ez) with 0 by lia. lia.
  - rewrite iter_xO. do 2 f_equal. lia.
Qed.

(** The sum of two exact values whose sum is exact. *)
Lemma ld_add_exact a ea b eb s em : 0 < a -> 0 < b -> width a <= 64 -> width b <= 64 -> width s <= 64 ->
  em = Z.min ea eb -> s = a * 2 ^ (ea - em) + b * 2 ^ (eb - em) -> - 200 < em -> ea < 200 -> eb < 200 ->
  ld_add (ld_exact a ea) (ld_exact b eb) = ld_exact s em.
Proof.
  intros Ha Hb Hwa Hwb Hws Hem Hs H1 H2 H3. pose proof (width_pos a Ha). pose proof (width_pos b Hb).
  assert (Hs0 : 0 < s) by (pose proof (Z.pow_pos_nonneg 2 (ea - em)); pose proof (Z.pow_pos_nonneg 2 (eb - em)); nia).
  unfold ld_add, ld_exact at 1 2. cbn [SFadd]. remember (Z.min (ea + width a - 64) (eb + width b - 64)) as ez eqn:Eez. cbn [cond_Zopp]. rewrite !shl_align_val by lia.
  assert (Hpa : 0 < a * 2 ^ (64 - width a)) by (pose proof (Z.pow_pos_nonneg 2 (64 - width a)); nia).
  assert (Hpb : 0 < b * 2 ^ (64 - width b)) by (pose proof (Z.pow_pos_nonneg 2 (64 - width b)); nia).
  rewrite !Z2Pos.id by done.
  replace (a * 2 ^ (64 - width a) * 2 ^ (ea + width a - 64 - ez) + b * 2 ^ (64 - width b) * 2 ^ (eb + width b - 64 - ez))
    with (s * 2 ^ (em - ez)).
  2:{ rewrite Hs, Z.mul_add_distr_r, <- !Z.mul_assoc, <- !Z.pow_add_r by lia. f_equal; do 2 f_equal; lia. }
  fold (ld_of (s * 2 ^ (em - ez)) ez). rewrite ld_of_shifted by lia. f_equal. lia.
Qed.

(** Back to an integer: the fraction is cut off. *)
Lemma ld_trunc_exact q k : 0 < q < 2 ^ 62 -> 0 <= k < 200 -> ld_trunc (ld_exact q (- k)) = Ret (q / 2 ^ k).
Proof.
  intros Hq Hk. assert (Hw : width q <= 62) by (by apply width_le). pose proof (width_pos q ltac:(lia)).
  unfold ld_exact, ld_trunc. rewrite (proj2 (Z.leb_gt 0 _)) by lia.
  rewrite Z2Pos.id by (pose proof (Z.pow_pos_nonneg 2 (64 - width q)); nia).
  replace (- (- k + width q - 64)) with (k + (64 - width q)) by lia. rewrite Z.pow_add_r, Z.div_mul_cancel_r by (try lia; apply Z.pow_nonzero; lia).
  pose proof (Z.pow_pos_nonneg 2 k ltac:(lia) ltac:(lia)). assert (0 <= q / 2 ^ k <= q) by (split; [apply Z.div_pos; lia|apply Z.div_le_upper_bound; nia]).
  cbv zeta. by rewrite (proj2 (Z.leb_le _ _)), (proj2 (Z.ltb_lt _ _)) by lia.
Qed.
End exact.

(** ** Ticks and timers *)
Definition nanos (ts : timespec) : Z := ts.(tv_sec) * 1000000000 + ts.(tv_nsec).
Definition normal (ts : timespec) : Prop := 0 <= ts.(tv_nsec) < 1000000000.

Lemma elapsed_nanos now start : normal now -> normal start ->
  normal (elapsed now start) /\ nanos (elapsed now start) = nanos now - nanos start.
Proof.
  unfold normal, elapsed, nanos. intros Hn Hs. case_cond; cbn [tv_sec tv_nsec]; rewrite i32_small by (unfold is_i32; lia); lia.
Qed.

(** What a tick adds: 244140.625 ns, the fraction cut off every time. *)
Definition PIT_TICK : Z := 244140.
Lemma pit_step_4096 : pit_step 4096 = ld_exact 1953125 (-3).
Proof. by vm_compute. Qed.

Lemma pit_nsec ns : 0 <= ns < 1000000000 -> ld_int32 (ld_add (ld_of ns 0) (pit_step 4096)) = Ret (ns + PIT_TICK).
Proof.
  intros Hns. rewrite pit_step_4096. unfold ld_int32.
  assert (Hsum : ld_trunc (ld_add (ld_of ns 0) (ld_exact 1953125 (-3))) = Ret (ns + PIT_TICK)).
  { destruct (Z.eq_dec ns 0) as [->|]; [by vm_compute|].
    assert (Hw : width ns <= 30) by (apply width_le; lia).
    rewrite ld_of_exact by lia. rewrite (ld_add_exact ns 0 1953125 (-3) (ns * 8 + 1953125) (-3)) by first [lia | apply width_le; lia | (replace (0 - -3) with 3 by lia; replace (-3 - -3) with 0 by lia; lia)].
    rewrite (ld_trunc_exact _ 3) by lia. f_equal. change (2 ^ 3) with 8. rewrite (Z.add_comm (ns * 8)), Z.div_add by lia. change (1953125 / 8) with PIT_TICK. lia. }
  rewrite Hsum, bind_Ret. unfold PIT_TICK. by rewrite (proj2 (Z.leb_le _ _)), (proj2 (Z.ltb_lt _ _)) by lia.
Qed.

Section ticks.
Context {W : Type} `{!Bus W}.
Implicit Types s : pit W.

Fixpoint pit_ticks (k : nat) s : outcome (pit W) :=
  match k with O => Ret s | S k => s ← pit_isr s; pit_ticks k s end.

Lemma pit_isr_spec s : normal (pit_now s) -> s.(g_freq) = 4096 -> exists s', pit_isr s = Ret s' /\
  normal (pit_now s') /\ nanos (pit_now s') = nanos (pit_now s) + PIT_TICK /\ s'.(g_freq) = 4096.
Proof.
  destruct s as [[sec nsec] freq i]. unfold normal, nanos, pit_now, pit_isr. cbn [g_periodic_int_timespec g_freq tv_sec tv_nsec].
  intros Hn ->. rewrite pit_nsec, bind_Ret by done. cbn [carry_loop tv_nsec tv_sec]. unfold PIT_TICK.
  case_cond; [rewrite (proj2 (Z.leb_gt _ _)) by lia|]; rewrite bind_Ret; (eexists; split; [reflexivity|]); cbn; lia.
Qed.

Lemma pit_ticks_spec k : forall s, normal (pit_now s) -> s.(g_freq) = 4096 -> exists s', pit_ticks k s = Ret s' /\
  normal (pit_now s') /\ nanos (pit_now s') = nanos (pit_now s) + PIT_TICK * Z.of_nat k /\ s'.(g_freq) = 4096.
Proof.
  induction k as [|k IH]; intros s Hn Hf; cbn [pit_ticks].
  - exists s. split; [done|]. split; [done|]. split; [lia|done].
  - destruct (pit_isr_spec s Hn Hf) as (s1 & -> & Hn1 & Ht & Hf1). rewrite bind_Ret.
    destruct (IH s1 Hn1 Hf1) as (s' & -> & Hn' & Ht' & Hf'). exists s'. split; [done|]. split; [done|]. split; [lia|done].
Qed.

(** A timer started on the interval timer reads, [k] interrupts later,
    [k] times 244140 ns in seconds and nanoseconds below a second; until
    [timekeep_init] the uptime is 0.  The interrupts come every 291 periods of
    1193181 Hz, so the clock is slow by 0.625 ns a tick and fast by the
    divisor's remainder.  [sleep_ms] asks for the right time even where its
    product overflows. *)
Theorem clock_correct {H} (s : tkstate H (pit W)) (src : TimeSource) k a :
  s.(timesources) !! s.(g_best_timesource) = Some src -> s.(g_best_timesource) <> 0 -> normal (pit_now s.(tk_x)) ->
  (exists t x', timer_start (TimeSources0 := pit_sources a) s = Ret t /\
     pit_ticks k (pit_init a s.(tk_x)).1 = Ret x' /\
     let e := timer_elapsed (TimeSources0 := pit_sources a) t (set_x s x') in
     normal e /\ nanos e = PIT_TICK * Z.of_nat k) /\
  (s.(g_uptime_timer) = TIMER_DORMANT -> timekeep_uptime (TimeSources0 := pit_sources a) s = mkTS 0 0) /\
  (forall ms, is_u32 ms -> normal (sleep_ms_spec ms) /\ nanos (sleep_ms_spec ms) = ms * 1000000).
Proof.
  intros Hsrc Hb Hn. split; [|split].
  - unfold timer_start. rewrite Hsrc. cbn [deref]. rewrite bind_Ret.
    destruct (pit_ticks_spec k (pit_init a s.(tk_x)).1 Hn eq_refl) as (x' & Hx & Hn' & Ht & _).
    eexists _, x'. split; [done|]. split; [done|]. cbn zeta. unfold timer_elapsed, call_now. cbn [t_now starting_ts set_x tk_x].
    rewrite (proj2 (Z.eqb_neq _ _) Hb). cbn [ts_now pit_sources]. destruct (elapsed_nanos (pit_now x') (pit_now s.(tk_x)) Hn' Hn) as [He ->].
    split; [done|]. rewrite Ht. cbn [pit_init pit_enable_periodic_int fst pit_now g_periodic_int_timespec]. unfold pit_now. lia.
  - intros Hd. unfold timekeep_uptime, timer_elapsed, call_now. by rewrite Hd.
  - intros ms Hms. unfold sleep_ms_spec, normal, nanos. cbn [tv_sec tv_nsec]. rewrite (u32_small ms) by done. unfold is_u32 in Hms.
    pose proof (Z.div_mod ms 1000 ltac:(lia)). pose proof (Z.mod_pos_bound ms 1000 ltac:(lia)).
    assert (Hi : i32 (u32 (ms * 1000000) - ms / 1000 * 1000000000) = ms mod 1000 * 1000000).
    { unfold i32, u32. rewrite <- (Z.add_opp_r _ (ms / 1000 * _)), <- Z.add_assoc, Z.add_mod_idemp_l by lia.
      replace (ms * 1000000 + (- (ms / 1000 * 1000000000) + 2 ^ 31)) with (ms mod 1000 * 1000000 + 2 ^ 31) by lia.
      rewrite Z.mod_small by lia. lia. }
    rewrite Hi. lia.
Qed.
End ticks.

(** ** The best source *)
Section best.
Context {H X : Type} `{!Allocator H} `{!AllocatorLaws H} `{!TimeSources X}.
Implicit Types s : tkstate H X.

Definition prio (srcs : gmap Z TimeSource) (d : Z) : Z := from_option ts_priority 0 (srcs !! d).
Definition best_of (srcs : gmap Z TimeSource) (b : Z) (ds : list Z) : Z :=
  foldl (fun b d => if prio srcs b <? prio srcs d then d else b) b ds.

Lemma better_source_spec srcs b c d : is_Some (srcs !! d) -> b = 0 \/ is_Some (srcs !! b) ->
  better_source srcs (b, c) d = Ret ((if (b =? 0) || (prio srcs b <? prio srcs d) then d else b, c + 1), false).
Proof.
  intros [x Hx] Hb. unfold better_source, prio. rewrite Hx. cbn [deref fst snd from_option option_map]. rewrite bind_Ret.
  destruct (Z.eqb_spec b 0) as [->|Hb0]; [done|]. destruct Hb as [?|[y Hy]]; [done|]. by rewrite Hy.
Qed.

Lemma best_search_spec srcs ds : forall b c, b <> 0 -> is_Some (srcs !! b) -> Forall (fun d => d <> 0 /\ is_Some (srcs !! d)) ds ->
  iter (better_source srcs) ds (b, c) = Ret (best_of srcs b ds, c + Z.of_nat (length ds)).
Proof.
  induction ds as [|d ds IH]; intros b c Hb Hs Hds; cbn [iter best_of foldl length].
  - do 2 f_equal. lia.
  - apply Forall_cons in Hds as [[Hd Hx] Hds]. rewrite (proj2 (Z.eqb_neq d 0) Hd), better_source_spec, bind_Ret, (proj2 (Z.eqb_neq b 0) Hb) by auto.
    cbn [fst snd orb]. fold (best_of srcs (if prio srcs b <? prio srcs d then d else b) ds).
    rewrite IH by (by destruct (prio srcs b <? prio srcs d)). do 2 f_equal. lia.
Qed.

(** The first of the highest priority. *)
Lemma best_of_spec srcs b ds : exists l1 l2, b :: ds = l1 ++ best_of srcs b ds :: l2 /\
  Forall (fun d => prio srcs d < prio srcs (best_of srcs b ds)) l1 /\ Forall (fun d => prio srcs d <= prio srcs (best_of srcs b ds)) l2.
Proof.
  induction ds as [|d ds IH] using rev_ind; [by exists [], []|]. destruct IH as (l1 & l2 & He & H1 & H2).
  unfold best_of. rewrite foldl_snoc. fold (best_of srcs b ds). destruct (Z.ltb_spec (prio srcs (best_of srcs b ds)) (prio srcs d)) as [Hl|Hl].
  - exists (b :: ds), []. split; [done|]. split; [|done]. rewrite He. apply Forall_app. split.
    + eapply Forall_impl; [exact H1|]. cbn. lia.
    + constructor; [done|]. eapply Forall_impl; [exact H2|]. cbn. lia.
  - exists l1, (l2 ++ [d]). split; [by rewrite app_comm_cons, He, <- app_assoc|]. split; [done|]. apply Forall_app. split; [done|]. by constructor.
Qed.

(** Registering a source puts it at the end of the list; without memory its
    [init] is not called, and if its [init] fails it is taken off again.
    Unregistering calls [destroy] even for a source that is not there, and
    leaves the best source as it is, the removed one included.
    [timekeep_init] takes the first of the highest priority and starts the
    uptime on it, and panics when there is none. *)
Theorem timekeep_correct s ds : list_of s.(tk_ll) s.(g_timesources) ds ->
  (forall ts x' st, ts ∉ ds -> ts_init ts s.(tk_x) = Ret (x', st) ->
     exists l ll r, let s' := set_list s l ll in
       (timekeep_register_timesource ts s = Ret (s', r) /\ r = - LinkedList.ENOMEM /\ list_of l ll ds) \/
       (timekeep_register_timesource ts s = Ret (set_x s' x', r) /\ st < 0 /\ r = st /\ list_of l ll ds) \/
       (timekeep_register_timesource ts s = Ret (set_x s' x', r) /\ 0 <= st /\ r = 0 /\ list_of l ll (ds ++ [ts]))) /\
  (forall ts x', ts_destroy ts s.(tk_x) = Ret x' ->
     exists l ll r, timekeep_unregister_timesource ts s = Ret (set_list (set_x s x') l ll, r) /\
       match remove_value ts ds with Some ds' => r = 0 /\ list_of l ll ds' | None => r = - LinkedList.ENOENT /\ list_of l ll ds end) /\
  (s.(g_best_timesource) = 0 -> Forall (fun d => d <> 0 /\ is_Some (s.(timesources) !! d)) ds ->
     (ds = [] -> timekeep_init s = Panic) /\
     (ds <> [] -> exists l1 b l2, ds = l1 ++ b :: l2 /\
        Forall (fun d => prio s.(timesources) d < prio s.(timesources) b) l1 /\
        Forall (fun d => prio s.(timesources) d <= prio s.(timesources) b) l2 /\
        timekeep_init s = Ret (set_best s b (mkTimer (ts_now b s.(tk_x)) b), 0))).
Proof.
  intros Hl. split; [|split].
  - intros ts x' st Hts Hi. unfold timekeep_register_timesource.
    destruct (add_list _ _ ds ts Hl) as (l & ll & r & -> & [[-> Hl']|[-> Hl']]); rewrite bind_Ret; [|exists l, ll, (- LinkedList.ENOMEM); by left].
    + cbn [Z.ltb Z.compare]. cbn [tk_x set_list]. rewrite Hi, bind_Ret. cbn [fst snd]. destruct (Z.ltb_spec st 0) as [Hst|Hst].
      * cbn [tk_ll g_timesources set_x set_list]. destruct (remove_list _ _ _ ts Hl') as (l2 & ll2 & r2 & -> & Hm).
        rewrite remove_value_snoc in Hm by done. destruct Hm as [_ Hm]. rewrite bind_Ret. exists l2, ll2, st. right. left. by split.
      * exists l, ll, 0. right. right. by split.
  - intros ts x' Hd. unfold timekeep_unregister_timesource. rewrite Hd, bind_Ret. cbn [tk_ll g_timesources set_x].
    destruct (remove_list _ _ ds ts Hl) as (l & ll & r & -> & Hm). rewrite bind_Ret. exists l, ll, r. split; [done|].
    destruct (remove_value ts ds); [done|]. by destruct Hm as (-> & -> & ->).
  - intros Hb Hds. unfold timekeep_init. destruct Hl as (nodes & [Hs _ Hnd _ _ _] & <-).
    rewrite (ll_iter_spec _ _ nodes) by (first [done | pose proof (seg_size _ _ _ _ Hs Hnd); lia]). rewrite Hb.
    destruct (nodes.*2) as [|d ds] eqn:E; split; intros He; try done.
    + clear He. apply Forall_cons in Hds as [[Hd Hx] Hds]. cbn [iter]. rewrite (proj2 (Z.eqb_neq d 0) Hd), better_source_spec, bind_Ret by auto.
      cbn [fst snd Z.eqb orb].
      rewrite best_search_spec, bind_Ret by done. cbn [fst snd]. rewrite (proj2 (Z.eqb_neq _ 0)) by lia.
      destruct (best_of_spec s.(timesources) d ds) as (l1 & l2 & He & H1 & H2).
      exists l1, (best_of s.(timesources) d ds), l2. split; [done|]. split; [done|]. split; [done|].
      assert (Hall : Forall (fun d => d <> 0 /\ is_Some (s.(timesources) !! d)) (d :: ds)) by (by constructor).
      rewrite He in Hall. apply Forall_app in Hall as [_ [[Hb0 [src Hsrc]] _]%Forall_cons].
      unfold timer_start, set_best. cbn [timesources g_best_timesource]. rewrite Hsrc. cbn [deref]. rewrite !bind_Ret.
      unfold call_now. cbn [tk_x]. by rewrite (proj2 (Z.eqb_neq _ 0) Hb0).
Qed.
End best.

(** A machine with the interval timer registered at address 5. *)
Definition demo_tk (best : Z) : tkstate kstate (pit (gmap Z Z)) :=
  mkTK (mkLS demo_k ∅) {[5 := g_pit_timesource]} (mkLL 0 0) best TIMER_DORMANT (mkPit (mkTS 3 999900000) 0 demo_intr).

Lemma clock_correct_witness : exists t x', timer_start (TimeSources0 := pit_sources 77) (demo_tk 5) = Ret t /\
  pit_ticks 4096 (pit_init 77 (demo_tk 5).(tk_x)).1 = Ret x' /\
  nanos (timer_elapsed (TimeSources0 := pit_sources 77) t (set_x (demo_tk 5) x')) = 999997440 /\ sleep_ms_spec 5003 = mkTS 5 3000000.
Proof.
  destruct (clock_correct (demo_tk 5) g_pit_timesource 4096 77) as ((t & x' & Ht & Hx & _ & Hn) & _); [done|done|by split|].
  exists t, x'. split; [done|]. split; [done|]. split; [rewrite Hn; by vm_compute|by vm_compute].
Defined.

Lemma timekeep_correct_witness : timekeep_init (TimeSources0 := pit_sources 77) (demo_tk 0) = Panic /\
  exists l ll r, timekeep_unregister_timesource (TimeSources0 := pit_sources 77) 5 (demo_tk 0) = Ret (set_list (demo_tk 0) l ll, r) /\ r = - LinkedList.ENOENT.
Proof.
  destruct (timekeep_correct (TimeSources0 := pit_sources 77) (demo_tk 0) [] empty_list_of) as (_ & Hu & Hi). split.
  - by apply (Hi eq_refl (Forall_nil_2 _)).
  - destruct (Hu 5 _ eq_refl) as (l & ll & r & Hr & Hm & _). exists l, ll, r. split; [exact Hr|exact Hm].
Defined.

(** 99.9 ms as a [double]. *)
Example elapsed_ms_example : timer_elapsed_ms (TimeSources0 := pit_sources 77) (mkTimer (mkTS 3 900000000) 5)
    (set_x (demo_tk 5) (mkPit (mkTS 3 999900000) 4096 demo_intr)) = to_double (ld_div (ld_of 999 0) (ld_of 10 0)).
Proof. by vm_compute. Qed.

(** [NANOSLEEP_SECS_OVERHEAD]: asked for 14 ms, it does not wait for one tick. *)
Example short_sleep irqs : sleep_ms (TimeSources0 := pit_sources 77) 1 irqs 14 (demo_tk 5) = Ret (demo_tk 5, mkTS 0 0, 0).
Proof. by vm_compute. Qed.
