(* ===== verification/Ps2io.v ===== *)
(** * The PS/2 controller

    [drivers/buses/ps2io]: bytes to and from the controller with a bounded
    number of tries ([ps2io_x86.c]), its configuration, the reset and the
    identification of the first device, which is announced on the serial
    bus. *)
From Stdlib Require Import Floats.SpecFloat.
From S2P Require Import Prelude Alloc Kmalloc LinkedList Fs Printf Interrupts Time Serialio.

(** ** Data *)
Definition PS2_DATA : Z := 0x60.
Definition PS2_STATUS : Z := 0x64.
Definition PS2_CMD : Z := 0x64.
Definition MAX_TRY_COUNT : Z := 5.
Definition ETIMEDOUT : Z := 40.
Definition EINVAL : Z := 22.
Definition ENODEV : Z := 19.
(** [ERR_OR(u8)]: the member that is not named is zero. *)
Record err_or := mkErrOr { error : Z; value : Z }.
Definition ERR (e : Z) : err_or := mkErrOr e 0.
Definition VALUE (v : Z) : err_or := mkErrOr 0 v.
(** The duration of [dev_timeout], in milliseconds. *)
Definition dev_timeout_dur_ms : Z := 50.
(** What [TODO_FATAL] and a failed [ASSERT] come to. *)
Definition TODO_FATAL {A} : outcome A := Panic.

Section ops.
Context {H X Y : Type} `{!Allocator H} `{!Bus X} `{!TimeSources X} `{!SerialDrivers Y}.

(** The machine: its clock and ports, the flag of [ps2io.c], the timer of the
    timeout, the serial bus. *)
Record ps2 := mkPs2 { ps_tk : tkstate unit X; g_ps2_controller_dual : bool; g_dev_timeout : Timer; ps_serial : sstate H Y }.
Definition px (w : ps2) : X := w.(ps_tk).(tk_x).
Definition put_px (x : X) (w : ps2) : ps2 := mkPs2 (set_x w.(ps_tk) x) w.(g_ps2_controller_dual) w.(g_dev_timeout) w.(ps_serial).
Definition set_dual (b : bool) (w : ps2) : ps2 := mkPs2 w.(ps_tk) b w.(g_dev_timeout) w.(ps_serial).
Definition set_timer (t : Timer) (w : ps2) : ps2 := mkPs2 w.(ps_tk) w.(g_ps2_controller_dual) t w.(ps_serial).
Definition set_serial (s : sstate H Y) (w : ps2) : ps2 := mkPs2 w.(ps_tk) w.(g_ps2_controller_dual) w.(g_dev_timeout) s.
Definition outb (v p : Z) (w : ps2) : ps2 := put_px (port_outb v p (px w)) w.
Definition inb (p : Z) (w : ps2) : Z * ps2 := let r := port_inb p (px w) in (r.1, put_px r.2 w).

(** *** [ps2io_x86.c] *)
(** [while (waiting(port_inb(PS2_STATUS))) if (tries++ > MAX_TRY_COUNT) return false]. *)
Fixpoint try_loop (fuel : nat) (waiting : Z -> bool) (tries : Z) (w : ps2) : outcome (bool * ps2) :=
  match fuel with
  | O => Undef
  | S fuel =>
      let '(st, w) := inb PS2_STATUS w in
      if waiting st then (if tries >? MAX_TRY_COUNT then Ret (false, w) else try_loop fuel waiting (u8 (tries + 1)) w)
      else Ret (true, w)
  end.
Definition TRY_FUEL : nat := 8.
Definition input_full (st : Z) : bool := negb (Z.land st (Z.shiftl 1 1) =? 0).
Definition output_empty (st : Z) : bool := Z.land st (Z.shiftl 1 0) =? 0.
Definition ps2io_write_byte (data port : Z) (w : ps2) : outcome (ps2 * Z) :=
  r ← try_loop TRY_FUEL input_full 0 w;
  let '(ready, w) := r : bool * ps2 in
  if ready then Ret (outb data port w, 0) else Ret (w, - ETIMEDOUT).
Definition ps2io_read_data_byte (w : ps2) : outcome (ps2 * err_or) :=
  r ← try_loop TRY_FUEL output_empty 0 w;
  let '(ready, w) := r : bool * ps2 in
  if ready then let '(v, w) := inb PS2_DATA w in Ret (w, VALUE v) else Ret (w, ERR (- ETIMEDOUT)).
Definition ps2io_read_data_byte_nochk (w : ps2) : Z * ps2 := inb PS2_DATA w.

(** *** [ps2io.c] *)
Definition ps2io_disable_and_flush_devices (w : ps2) : outcome (ps2 * Z) :=
  r ← ps2io_write_byte 0xAD PS2_CMD w;
  let '(w, st) := r : ps2 * Z in
  if st <? 0 then Ret (w, st)
  else
    r ← ps2io_write_byte 0xA7 PS2_CMD w;
    let '(w, st) := r : ps2 * Z in
    if st <? 0 then Ret (w, st) else let '(_, w) := ps2io_read_data_byte_nochk w in Ret (w, 0).
Definition ps2io_read_config_byte (w : ps2) : outcome (ps2 * err_or) :=
  r ← ps2io_write_byte 0x20 PS2_CMD w;
  let '(w, st) := r : ps2 * Z in
  if st <? 0 then Ret (w, ERR st) else ps2io_read_data_byte w.
Definition ps2io_write_config_byte (config : Z) (w : ps2) : outcome (ps2 * Z) :=
  r ← ps2io_write_byte 0x60 PS2_CMD w;
  let '(w, st) := r : ps2 * Z in
  if st <? 0 then Ret (w, st) else ps2io_write_byte config PS2_DATA w.
Definition ps2io_perform_self_test (w : ps2) : outcome (ps2 * Z) :=
  r ← ps2io_write_byte 0xAA PS2_CMD w;
  let '(w, st) := r : ps2 * Z in
  if st <? 0 then Ret (w, st)
  else
    r ← ps2io_read_data_byte w;
    let '(w, res) := r : ps2 * err_or in
    if negb (res.(error) =? 0) then Ret (w, res.(error))
    else if negb (res.(value) =? 0x55) then Ret (w, - EINVAL) else Ret (w, 0).
Definition ps2io_test_port (portn : Z) (w : ps2) : outcome (ps2 * Z) :=
  if portn >? 1 then TODO_FATAL
  else
    r ← ps2io_write_byte 0xAB PS2_CMD w;
    let '(w, st) := r : ps2 * Z in
    if st <? 0 then Ret (w, st)
    else
      r ← ps2io_read_data_byte w;
      let '(w, dev_res) := r : ps2 * err_or in
      if negb (dev_res.(error) =? 0) then Ret (w, dev_res.(error))
      else if dev_res.(value) >? 0 then Ret (w, - EINVAL) else Ret (w, 0).
Definition ps2io_set_interrupts (state : bool) (portn : Z) (w : ps2) : outcome (ps2 * Z) :=
  _ ← assert_ ((portn =? 1) || (portn =? 2));
  r ← ps2io_read_config_byte w;
  let '(w, config_res) := r : ps2 * err_or in
  if negb (config_res.(error) =? 0) then Ret (w, config_res.(error))
  else
    let bit := Z.shiftl 1 (portn - 1) in
    ps2io_write_config_byte (if state then u8 (Z.lor config_res.(value) bit) else u8 (Z.land config_res.(value) (Z.lnot bit))) w.
Definition ps2io_set_scanning (state : bool) (portn : Z) (w : ps2) : outcome (ps2 * Z) :=
  if portn >? 1 then TODO_FATAL
  else
    r ← ps2io_write_byte (if state then 0xF4 else 0xF5) PS2_DATA w;
    let '(w, st) := r : ps2 * Z in
    if st <? 0 then Ret (w, st)
    else let '(st, w) := ps2io_read_data_byte_nochk w in Ret (w, if st =? 0xFA then 1 else 0).

(** [TIMEOUT_START] and [TIMEOUT_DONE]. *)
Definition timeout_start (w : ps2) : outcome ps2 := t ← timer_start w.(ps_tk); Ret (set_timer t w).
Definition timeout_done (w : ps2) : bool := SFltb (double_of dev_timeout_dur_ms) (timer_elapsed_ms w.(g_dev_timeout) w.(ps_tk)).

(** The result is an early return, or nothing at the [break]. *)
Fixpoint reset_loop (fuel : nat) (ack : bool) (w : ps2) : outcome (ps2 * option Z) :=
  match fuel with
  | O => Undef
  | S fuel =>
      if timeout_done w then Ret (w, Some (- ETIMEDOUT))
      else
        r ← ps2io_read_data_byte w;
        let '(w, data_res) := r : ps2 * err_or in
        let v := data_res.(value) in
        if negb ack && (v =? 0xFA) then reset_loop fuel true w
        else if ack then
          if (v =? 0xFC) || (v =? 0xFD) then Ret (w, Some (- EINVAL))
          else if v =? 0xFE then reset_loop fuel ack w
          else if v =? 0xAA then Ret (w, None)
          else reset_loop fuel ack w
        else reset_loop fuel ack w
  end.
Definition ps2io_reset_device (fuel : nat) (portn : Z) (w : ps2) : outcome (ps2 * Z) :=
  if portn >? 1 then TODO_FATAL
  else
    r ← ps2io_write_byte 0xFF PS2_DATA w;
    let '(w, st) := r : ps2 * Z in
    if st <? 0 then Ret (w, st)
    else
      w ← timeout_start w;
      r ← reset_loop fuel false w;
      let '(w, early) := r : ps2 * option Z in
      match early with Some st => Ret (w, st) | None => ps2io_set_scanning false 1 w end.

(** [d0], [d1]: the elements of [ident_data]. *)
Fixpoint identify_loop (fuel : nat) (ack : bool) (d0 d1 cursor prev_data : Z) (w : ps2) : outcome (ps2 * (Z * Z)) :=
  match fuel with
  | O => Undef
  | S fuel =>
      if timeout_done w then Ret (w, (d0, d1))
      else
        let '(data, w) := ps2io_read_data_byte_nochk w in
        if data =? 0xFA then identify_loop fuel true d0 d1 cursor prev_data w
        else if ack then
          if cursor >=? 2 then Ret (w, (d0, d1))
          else if negb (data =? prev_data) then
            identify_loop fuel ack (if cursor =? 0 then data else d0) (if cursor =? 1 then data else d1) (cursor + 1) data w
          else identify_loop fuel ack d0 d1 cursor data w
        else identify_loop fuel ack d0 d1 cursor prev_data w
  end.
(** [ps2kbd] is where the name is.  [dev_res] has no value at first: for a
    device that is no keyboard the result is indeterminate. *)
Definition ps2io_identify_device (fuel : nat) (ps2kbd : Z) (portn : Z) (w : ps2) : outcome (ps2 * Z) :=
  if portn >? 1 then TODO_FATAL
  else
    r ← ps2io_write_byte 0xF2 PS2_DATA w;
    w ← timeout_start r.1;
    r ← identify_loop fuel false 0xFF 0 0 0 w;
    let '(w, (d0, d1)) := r : ps2 * (Z * Z) in
    if d0 =? 0xFF then Ret (w, - ETIMEDOUT)
    else if d0 =? 0xAB then
      if (d1 =? 0x83) || (d1 =? 0xC1) then
        r ← serialio_new_dev ps2kbd SERIAL_NOMAJ 1 0 w.(ps_serial);
        Ret (set_serial r.1 w, r.2.1)
      else Ret (w, - ENODEV)
    else Undef.

Definition clear_bit (v bit : Z) : Z := u8 (Z.land v (Z.lnot (Z.shiftl 1 bit))).
Definition ps2io_init_controller (fuel : nat) (w : ps2) : outcome (ps2 * Z) :=
  r ← ps2io_disable_and_flush_devices w;
  let '(w, st) := r : ps2 * Z in
  if st <? 0 then Ret (w, st)
  else
    r ← ps2io_read_config_byte w;
    let '(w, config_res) := r : ps2 * err_or in
    if negb (config_res.(error) =? 0) then Ret (w, config_res.(error))
    else
      let w := set_dual (negb (Z.land config_res.(value) (Z.shiftl 1 5) =? 0)) w in
      let config := clear_bit (clear_bit (clear_bit config_res.(value) 0) 1) 6 in
      r ← ps2io_write_config_byte config w;
      r ← ps2io_perform_self_test r.1;
      let '(w, st) := r : ps2 * Z in
      if st <? 0 then Ret (w, st)
      else
        r ← ps2io_disable_and_flush_devices w;
        r ← ps2io_write_config_byte config r.1;
        r ← ps2io_test_port 1 r.1;
        let '(w, st) := r : ps2 * Z in
        if st <? 0 then Ret (w, st)
        else
          r ← ps2io_write_byte 0xAE PS2_CMD w;
          let '(w, st) := r : ps2 * Z in
          if st <? 0 then Ret (w, st)
          else
            r ← ps2io_set_scanning false 1 w;
            let '(w, st) := r : ps2 * Z in
            if st <? 0 then Ret (w, st) else ps2io_reset_device fuel 1 w.
Definition ps2io_main (fuel : nat) (ps2kbd : Z) (w : ps2) : outcome (ps2 * Z) :=
  r ← ps2io_init_controller fuel w;
  let '(w, st) := r : ps2 * Z in
  if st <? 0 then Ret (w, st) else r ← ps2io_identify_device fuel ps2kbd 1 w; Ret (r.1, 0).
Definition ps2io_exit (w : ps2) : ps2 * Z := (w, 0).
End ops.
Arguments ps2 : clear implicits.

(** ** Tries *)
Section tries.
Context {H X Y : Type} `{!Bus X}.
Implicit Types w : ps2 H X Y.
Definition polled (k : nat) (x : X) : X := Nat.iter k (fun x => (port_inb PS2_STATUS x).2) x.
Definition status_at (k : nat) (x : X) : Z := (port_inb PS2_STATUS (polled k x)).1.
(** The first of the next [n] statuses, from the [k]th on, that is not waiting. *)
Definition ready_at (waiting : Z -> bool) (k n : nat) (x : X) : option nat := head (filter (fun i => waiting (status_at i x) = false) (seq k n)).

Lemma put_px_id w : put_px (px w) w = w.
Proof. by destruct w as [[] ? ? ?]. Qed.
Lemma try_loop_spec waiting x w n : forall k, (0 < n)%nat -> (k + n = 7)%nat ->
  try_loop (S n) waiting (Z.of_nat k) (put_px (polled k x) w) =
  match ready_at waiting k n x with Some i => Ret (true, put_px (polled (S i) x) w) | None => Ret (false, put_px (polled 7 x) w) end.
Proof.
  induction n as [|n IH]; intros k Hn Hk; [lia|]. unfold ready_at. rewrite <- cons_seq, filter_cons. cbn [try_loop]. unfold inb. fold (status_at k x).
  change (px (put_px (polled k x) w)) with (polled k x). change ((port_inb PS2_STATUS (polled k x)).1) with (status_at k x).
  change ((port_inb PS2_STATUS (polled k x)).2) with (polled (S k) x). destruct (waiting (status_at k x)) eqn:E.
  - rewrite decide_False by done. destruct (Z.of_nat k >? MAX_TRY_COUNT) eqn:Et; unfold MAX_TRY_COUNT in Et.
    + assert (k = 6%nat /\ n = 0%nat) as [-> ->] by lia. done.
    + replace (u8 (Z.of_nat k + 1)) with (Z.of_nat (S k)) by (rewrite u8_small by (unfold is_u8; lia); lia).
      change (put_px (polled (S k) x) (put_px (polled k x) w)) with (put_px (polled (S k) x) w). apply (IH (S k)); lia.
  - rewrite decide_True by done. done.
Qed.

(** A byte is sent, or received, after at most seven looks at the status.
    [ps2io_write_byte] sends it as soon as the controller's input buffer is
    seen empty and returns 0; if it is full at each of seven looks the result
    is [-ETIMEDOUT] and nothing is sent.  [ps2io_read_data_byte] takes a byte
    as soon as the output buffer is seen full, or fails the same way. *)
Theorem ps2io_tries_correct w data port :
  ps2io_write_byte data port w =
    match ready_at input_full 0 7 (px w) with
    | Some k => Ret (put_px (port_outb data port (polled (S k) (px w))) w, 0)
    | None => Ret (put_px (polled 7 (px w)) w, - ETIMEDOUT)
    end /\
  ps2io_read_data_byte w =
    match ready_at output_empty 0 7 (px w) with
    | Some k => let r := port_inb PS2_DATA (polled (S k) (px w)) in Ret (put_px r.2 w, VALUE r.1)
    | None => Ret (put_px (polled 7 (px w)) w, ERR (- ETIMEDOUT))
    end.
Proof.
  unfold ps2io_write_byte, ps2io_read_data_byte, TRY_FUEL. pose proof (try_loop_spec input_full (px w) w 7 0) as H1. pose proof (try_loop_spec output_empty (px w) w 7 0) as H2.
  change (polled 0 (px w)) with (px w) in *. rewrite put_px_id in H1, H2. change (Z.of_nat 0) with 0 in *. rewrite H1, H2 by lia.
  clear H1 H2. split; (destruct (ready_at _ 0 7 _); rewrite bind_Ret; reflexivity).
Qed.
End tries.

(** ** The configuration byte *)
(** A controller that is ready, as the 8042 is described: [cview] is its
    configuration, the byte waiting in its output buffer, and whether the next
    byte of data is a configuration. *)
Class Controller {X : Type} `{!Bus X} (cview : X -> Z * option Z * bool) : Prop := {
  law_config x : is_u8 (cview x).1.1;
  law_status x : let r := port_inb PS2_STATUS x in
    input_full r.1 = false /\ output_empty r.1 = bool_decide ((cview x).1.2 = None) /\ cview r.2 = cview x;
  law_ask x : cview (port_outb 0x20 PS2_CMD x) = ((cview x).1.1, Some (cview x).1.1, false);
  law_give x : cview (port_outb 0x60 PS2_CMD x) = ((cview x).1, true);
  law_data x v : (cview x).2 = true -> cview (port_outb v PS2_DATA x) = (u8 v, (cview x).1.2, false);
  law_take x v : (cview x).1.2 = Some v -> let r := port_inb PS2_DATA x in r.1 = v /\ cview r.2 = ((cview x).1.1, None, (cview x).2) }.
Section config.
Context {H X Y : Type} `{!Bus X} (cview : X -> Z * option Z * bool) `{!Controller cview}.
Implicit Types w : ps2 H X Y.
Lemma try_ready (waiting : Z -> bool) w : waiting (port_inb PS2_STATUS (px w)).1 = false ->
  try_loop TRY_FUEL waiting 0 w = Ret (true, put_px (port_inb PS2_STATUS (px w)).2 w).
Proof. intros Hw. unfold TRY_FUEL. cbn [try_loop]. unfold inb. by rewrite Hw. Qed.
(** A byte reaches the controller at once. *)
Lemma write_ready data port w : exists x, ps2io_write_byte data port w = Ret (put_px (port_outb data port x) w, 0) /\ cview x = cview (px w).
Proof.
  destruct (law_status (px w)) as (H1 & _ & H3). unfold ps2io_write_byte. rewrite try_ready by done. rewrite bind_Ret. by eexists.
Qed.
Lemma read_ready w v : (cview (px w)).1.2 = Some v ->
  exists x, ps2io_read_data_byte w = Ret (put_px x w, VALUE v) /\ cview x = ((cview (px w)).1.1, None, (cview (px w)).2).
Proof.
  intros Hv. destruct (law_status (px w)) as (_ & H2 & H3). unfold ps2io_read_data_byte. rewrite try_ready by (by rewrite H2, Hv). rewrite bind_Ret.
  set (x := (port_inb PS2_STATUS (px w)).2) in *. destruct (law_take x v) as [E1 E2]; [by rewrite H3|]. unfold inb. change (px (put_px x w)) with x.
  rewrite E1. eexists. split; [reflexivity|]. by rewrite E2, H3.
Qed.
Lemma config_spec w : exists x, ps2io_read_config_byte w = Ret (put_px x w, VALUE (cview (px w)).1.1) /\ (cview x).1.1 = (cview (px w)).1.1.
Proof.
  unfold ps2io_read_config_byte. destruct (write_ready 0x20 PS2_CMD w) as (x & -> & Ex). rewrite bind_Ret. cbn [Z.ltb Z.compare].
  set (w1 := put_px _ w). assert (E1 : cview (px w1) = ((cview (px w)).1.1, Some (cview (px w)).1.1, false)) by (rewrite <- Ex; apply law_ask).
  destruct (read_ready w1 (cview (px w)).1.1) as (y & -> & Ey); [by rewrite E1|]. exists y. split; [done|]. by rewrite Ey, E1.
Qed.
Lemma write_config_spec c w : exists x, ps2io_write_config_byte c w = Ret (put_px x w, 0) /\ (cview x).1.1 = u8 c.
Proof.
  unfold ps2io_write_config_byte. destruct (write_ready 0x60 PS2_CMD w) as (x & -> & Ex). rewrite bind_Ret. cbn [Z.ltb Z.compare].
  set (w1 := put_px _ w). assert (E1 : cview (px w1) = ((cview (px w)).1, true)) by (rewrite <- Ex; apply law_give).
  destruct (write_ready c PS2_DATA w1) as (y & -> & Ey). eexists. split; [reflexivity|]. rewrite law_data; [done|]. by rewrite Ey, E1.
Qed.

(** Switching the interrupts of a port.  With a controller that is ready,
    [ps2io_set_interrupts] returns 0 and sets the port's bit of the
    configuration byte to the state asked for; every other bit stays.  A port
    that is neither the first nor the second is a failed assertion. *)
Theorem ps2io_interrupts_correct state portn w :
  if (portn =? 1) || (portn =? 2) then
    exists w', ps2io_set_interrupts state portn w = Ret (w', 0) /\
      forall i, 0 <= i -> Z.testbit (cview (px w')).1.1 i = if i =? portn - 1 then state else Z.testbit (cview (px w)).1.1 i
  else ps2io_set_interrupts state portn w = Panic.
Proof.
  unfold ps2io_set_interrupts. destruct ((portn =? 1) || (portn =? 2)) eqn:Ep; [|done]. cbn [assert_]. rewrite bind_Ret.
  destruct (config_spec w) as (x & -> & Ex). rewrite bind_Ret. cbn [error value VALUE Z.eqb negb].
  set (c := (cview (px w)).1.1) in *. pose proof (law_config (px w)) as Hc. fold c in Hc.
  assert (Hp : 0 <= portn - 1 < 8) by (apply orb_prop in Ep as [E%Z.eqb_eq|E%Z.eqb_eq]; lia).
  destruct (write_config_spec (if state then u8 (Z.lor c (Z.shiftl 1 (portn - 1))) else u8 (Z.land c (Z.lnot (Z.shiftl 1 (portn - 1))))) (put_px x w)) as (y & -> & Ey).
  eexists. split; [reflexivity|]. intros i Hi. change (px (put_px y (put_px x w))) with y. rewrite Ey, Z.shiftl_1_l.
  assert (Hu : forall z, Z.testbit (u8 z) i = (i <? 8) && Z.testbit z i) by (intros; unfold u8; rewrite testbit_mod by lia; by destruct (i <? 8)).
  assert (Hcb : 8 <= i -> Z.testbit c i = false) by (intros; apply (testbit_above c 8 i); [exact Hc|done]).
  destruct state; rewrite !Hu, ?Z.lor_spec, ?Z.land_spec, ?Z.lnot_spec, testbit_pow2 by lia.
  - destruct (Z.ltb_spec i 8), (Z.eqb_spec i (portn - 1)), (Z.eqb_spec (portn - 1) i); try lia; cbn; rewrite ?orb_true_r, ?orb_false_r; try done; by rewrite Hcb.
  - destruct (Z.ltb_spec i 8), (Z.eqb_spec i (portn - 1)), (Z.eqb_spec (portn - 1) i); try lia; cbn; rewrite ?andb_true_r, ?andb_false_r; try done; by rewrite Hcb.
Qed.
End config.

(** ** A controller whose first port's interrupts are on *)
#[export] Instance demo_8042 : Bus (Z * option Z * bool) := {|
  bus_in _ p x := if p =? PS2_STATUS then (if decide (x.1.2 = None) then 0 else 1, x)
                  else if p =? PS2_DATA then match x.1.2 with Some v => (v, (x.1.1, None, x.2)) | None => (0, x) end else (0, x);
  bus_out _ p v x := if p =? PS2_CMD then (if v =? 0x20 then (x.1.1, Some x.1.1, false) else if v =? 0x60 then (x.1, true) else x)
                     else if (p =? PS2_DATA) && x.2 then (v, x.1.2, false) else x |}.
Definition demo_view (x : Z * option Z * bool) : Z * option Z * bool := (u8 x.1.1, u8 <$> x.1.2, x.2).
Lemma demo_controller : Controller demo_view.
Proof.
  split.
  - intros x. apply u8_range.
  - intros [[c o] e]. by destruct o.
  - done.
  - done.
  - intros [[c o] e] v He. cbn in He. subst e. unfold demo_view. cbn. do 2 f_equal. apply (u8_small (u8 v)), u8_range.
  - intros [[c o] e] v Ho. cbn in Ho. destruct o as [o|]; [|done]. injection Ho as <-. done.
Qed.
Definition demo_ps2 : ps2 unit (Z * option Z * bool) unit :=
  mkPs2 (mkTK (mkLS tt ∅) ∅ (mkLL 0 0) 0 TIMER_DORMANT (0x45, None, false)) false TIMER_DORMANT (mkSS (mkLS tt ∅) ∅ ∅ ∅ (mkLL 0 0) (mkLL 0 0) tt).
Lemma ps2io_interrupts_correct_witness : exists w', ps2io_set_interrupts false 1 demo_ps2 = Ret (w', 0) /\
  Z.testbit (demo_view (px w')).1.1 0 = false /\ Z.testbit (demo_view (px w')).1.1 6 = true.
Proof.
  destruct (ps2io_interrupts_correct (Controller0 := demo_controller) demo_view false 1 demo_ps2) as (w' & E & Hb). exists w'. split; [exact E|].
  rewrite !Hb by lia. split; vm_compute; reflexivity.
Defined.
Example interrupts_off : match ps2io_set_interrupts false 1 demo_ps2 with Ret (w, st) => st = 0 /\ px w = (0x44, None, false) | _ => False end.
Proof. vm_compute. split; reflexivity. Qed.
(** A controller that never has a byte: the answer to the self test is missed
    after seven tries. *)
Example self_test_times_out : match ps2io_perform_self_test demo_ps2 with Ret (_, st) => st = - ETIMEDOUT | _ => False end.
Proof. vm_compute. reflexivity. Qed.
