(* ===== verification/Kbd.v ===== *)
(** * The PS/2 keyboard

    [drivers/input/ps2kbd]: the scan codes (set 2) the interrupt handler turns
    into events, the ring that keeps the last 64, and the device node that
    reads them. *)
From S2P Require Import Prelude Alloc Kmalloc LinkedList HashTable Path Paging Falloc Proc User Fs Printf Interrupts Time.

(** ** Key codes ([input/user@kbd.h]) *)
Definition KBD_KEY_PRESS : Z := 1.
Definition KBD_KEY_RELEASE : Z := 2.
Definition KBD_KEY_REPEAT : Z := 3.
Definition KEY_ESC : Z := 0x1.
Definition KEY_F1 : Z := 0x2.
Definition KEY_F2 : Z := 0x3.
Definition KEY_F3 : Z := 0x4.
Definition KEY_F4 : Z := 0x5.
Definition KEY_F5 : Z := 0x6.
Definition KEY_F6 : Z := 0x7.
Definition KEY_F7 : Z := 0x8.
Definition KEY_F8 : Z := 0x9.
Definition KEY_F9 : Z := 0xA.
Definition KEY_F10 : Z := 0xB.
Definition KEY_F11 : Z := 0xC.
Definition KEY_F12 : Z := 0xD.
Definition KEY_SS : Z := 0xE.
Definition KEY_DEL : Z := 0xF.
Definition KEY_BACKTICK : Z := 0x10.
Definition KEY_1 : Z := 0x11.
Definition KEY_2 : Z := 0x12.
Definition KEY_3 : Z := 0x13.
Definition KEY_4 : Z := 0x14.
Definition KEY_5 : Z := 0x15.
Definition KEY_6 : Z := 0x16.
Definition KEY_7 : Z := 0x17.
Definition KEY_8 : Z := 0x18.
Definition KEY_9 : Z := 0x19.
Definition KEY_0 : Z := 0x1A.
Definition KEY_MINUS : Z := 0x1B.
Definition KEY_EQUAL : Z := 0x1C.
Definition KEY_BACKSPACE : Z := 0x1D.
Definition KEY_PAGEUP : Z := 0x1E.
Definition KEY_TAB : Z := 0x1F.
Definition KEY_Q : Z := 0x20.
Definition KEY_W : Z := 0x21.
Definition KEY_E : Z := 0x22.
Definition KEY_R : Z := 0x23.
Definition KEY_T : Z := 0x24.
Definition KEY_Y : Z := 0x25.
Definition KEY_U : Z := 0x26.
Definition KEY_I : Z := 0x27.
Definition KEY_O : Z := 0x28.
Definition KEY_P : Z := 0x29.
Definition KEY_OPEN_SQ_BRACKET : Z := 0x2A.
Definition KEY_CLOSE_SQ_BRACKET : Z := 0x2B.
Definition KEY_BACKSLASH : Z := 0x2C.
Definition KEY_PAGEDOWN : Z := 0x2D.
Definition KEY_CAPSLOCK : Z := 0x2E.
Definition KEY_A : Z := 0x2F.
Definition KEY_S : Z := 0x30.
Definition KEY_D : Z := 0x31.
Definition KEY_F : Z := 0x32.
Definition KEY_G : Z := 0x33.
Definition KEY_H : Z := 0x34.
Definition KEY_J : Z := 0x35.
Definition KEY_K : Z := 0x36.
Definition KEY_L : Z := 0x37.
Definition KEY_SEMI_COLON : Z := 0x38.
Definition KEY_SINGLE_QUOTE : Z := 0x39.
Definition KEY_RETURN : Z := 0x3A.
Definition KEY_HOME : Z := 0x3B.
Definition KEY_LEFT_SHIFT : Z := 0x3C.
Definition KEY_Z : Z := 0x3D.
Definition KEY_X : Z := 0x3E.
Definition KEY_C : Z := 0x3F.
Definition KEY_V : Z := 0x40.
Definition KEY_B : Z := 0x41.
Definition KEY_N : Z := 0x42.
Definition KEY_M : Z := 0x43.
Definition KEY_COMMA : Z := 0x44.
Definition KEY_DOT : Z := 0x45.
Definition KEY_SLASH : Z := 0x46.
Definition KEY_RIGHT_SHIFT : Z := 0x47.
Definition KEY_UP_ARROW : Z := 0x48.
Definition KEY_END : Z := 0x49.
Definition KEY_LEFT_CTRL : Z := 0x4A.
Definition KEY_LEFT_COMMAND : Z := 0x4B.
Definition KEY_LEFT_ALT : Z := 0x4C.
Definition KEY_SPACE : Z := 0x4D.
Definition KEY_RIGHT_ALT : Z := 0x4E.
Definition KEY_RIGHT_CTRL : Z := 0x4F.
Definition KEY_LEFT_ARROW : Z := 0x50.
Definition KEY_DOWN_ARROW : Z := 0x51.
Definition KEY_RIGHT_ARROW : Z := 0x52.
Definition KEY_RIGHT_COMMAND : Z := 0x53.
Definition KEY_SCROLL_LOCK : Z := 0x54.
Definition KEY_NUM_LOCK : Z := 0x55.
Definition KEY_NUM_ASTERISK : Z := 0x56.
Definition KEY_NUM_MINUS : Z := 0x57.
Definition KEY_NUM_7 : Z := 0x58.
Definition KEY_NUM_8 : Z := 0x59.
Definition KEY_NUM_9 : Z := 0x5A.
Definition KEY_NUM_PLUS : Z := 0x5B.
Definition KEY_NUM_4 : Z := 0x5C.
Definition KEY_NUM_5 : Z := 0x5D.
Definition KEY_NUM_6 : Z := 0x5E.
Definition KEY_NUM_1 : Z := 0x5F.
Definition KEY_NUM_2 : Z := 0x60.
Definition KEY_NUM_3 : Z := 0x61.
Definition KEY_NUM_0 : Z := 0x62.
Definition KEY_NUM_DOT : Z := 0x63.
Definition KEY_NUM_SLASH : Z := 0x64.
Definition KEY_NUM_RETURN : Z := 0x65.
Definition KEY_BREAK : Z := 0x66.

(** ** The tables

    The C arrays end with their largest index; an entry that is not named is 0. *)
Definition keycodes : list (Z * Z) :=
  [(0x76, KEY_ESC); (0x05, KEY_F1); (0x06, KEY_F2); (0x04, KEY_F3); (0x0C, KEY_F4); (0x03, KEY_F5); (0x0B, KEY_F6);
   (0x83, KEY_F7); (0x0A, KEY_F8); (0x01, KEY_F9); (0x09, KEY_F10); (0x78, KEY_F11); (0x07, KEY_F12);
   (0x0E, KEY_BACKTICK); (0x16, KEY_1); (0x1E, KEY_2); (0x26, KEY_3); (0x25, KEY_4); (0x2E, KEY_5); (0x36, KEY_6);
   (0x3D, KEY_7); (0x3E, KEY_8); (0x46, KEY_9); (0x45, KEY_0); (0x4E, KEY_MINUS); (0x55, KEY_EQUAL);
   (0x66, KEY_BACKSPACE); (0x0D, KEY_TAB); (0x15, KEY_Q); (0x1D, KEY_W); (0x24, KEY_E); (0x2D, KEY_R); (0x2C, KEY_T);
   (0x35, KEY_Y); (0x3C, KEY_U); (0x43, KEY_I); (0x44, KEY_O); (0x4D, KEY_P); (0x54, KEY_OPEN_SQ_BRACKET);
   (0x5B, KEY_CLOSE_SQ_BRACKET); (0x5D, KEY_BACKSLASH); (0x58, KEY_CAPSLOCK); (0x1C, KEY_A); (0x1B, KEY_S);
   (0x23, KEY_D); (0x2B, KEY_F); (0x34, KEY_G); (0x33, KEY_H); (0x3B, KEY_J); (0x42, KEY_K); (0x4B, KEY_L);
   (0x4C, KEY_SEMI_COLON); (0x52, KEY_SINGLE_QUOTE); (0x5A, KEY_RETURN); (0x12, KEY_LEFT_SHIFT); (0x1A, KEY_Z);
   (0x22, KEY_X); (0x21, KEY_C); (0x2A, KEY_V); (0x32, KEY_B); (0x31, KEY_N); (0x3A, KEY_M); (0x41, KEY_COMMA);
   (0x49, KEY_DOT); (0x4A, KEY_SLASH); (0x59, KEY_RIGHT_SHIFT); (0x14, KEY_LEFT_CTRL); (0x11, KEY_LEFT_ALT);
   (0x29, KEY_SPACE); (0x7E, KEY_SCROLL_LOCK); (0x77, KEY_NUM_LOCK); (0x7C, KEY_NUM_ASTERISK); (0x7B, KEY_NUM_MINUS);
   (0x6C, KEY_NUM_7); (0x75, KEY_NUM_8); (0x7D, KEY_NUM_9); (0x79, KEY_NUM_PLUS); (0x6B, KEY_NUM_4);
   (0x73, KEY_NUM_5); (0x74, KEY_NUM_6); (0x69, KEY_NUM_1); (0x72, KEY_NUM_2); (0x7A, KEY_NUM_3); (0x70, KEY_NUM_0);
   (0x71, KEY_NUM_DOT)].
Definition special_keycodes : list (Z * Z) :=
  [(0x1F, KEY_LEFT_COMMAND); (0x11, KEY_RIGHT_ALT); (0x27, KEY_RIGHT_COMMAND); (0x2F, 0xFF); (0x14, KEY_RIGHT_CTRL);
   (0x70, 0xFF); (0x6C, KEY_HOME); (0x7D, KEY_PAGEUP); (0x71, KEY_DEL); (0x69, KEY_END); (0x7A, KEY_PAGEDOWN);
   (0x75, KEY_UP_ARROW); (0x6B, KEY_LEFT_ARROW); (0x72, KEY_DOWN_ARROW); (0x74, KEY_RIGHT_ARROW);
   (0x4A, KEY_NUM_SLASH); (0x5A, KEY_NUM_RETURN)].

Definition array_size (t : list (Z * Z)) : Z := foldr Z.max 0 t.*1 + 1.
Definition array_at (t : list (Z * Z)) (i : Z) : outcome Z :=
  if i <? array_size t then Ret (default 0 (snd <$> head (filter (fun x => x.1 = i) t))) else Undef.
Definition g_keycode_map (i : Z) : outcome Z := array_at keycodes i.
Definition g_special_keycode_map (i : Z) : outcome Z := array_at special_keycodes i.

(** ** Events *)
Definition CACHED_EVENT_COUNT : Z := 64.

Record InputEvent := mkEv { ev_time : timespec; action : Z; value : Z }.
Definition zero_event : InputEvent := mkEv (mkTS 0 0) 0 0.
Record LastReadInfo := mkLR { lr_idx : Z; lr_time : timespec }.
Definition sizeof_InputEvent : Z := 20.
Definition sizeof_LastReadInfo : Z := 16.

(** [TIMESPEC_IS_FIRST_BIGGER]: in whole milliseconds. *)
Definition ms_of (t : timespec) : Z := t.(tv_sec) * 1000 + Z.quot t.(tv_nsec) 1000000.
Definition first_bigger (a b : timespec) : bool := ms_of b <? ms_of a.

(** The statics of the driver. *)
Record kbd := mkKbd {
  g_special_key : bool; g_release_modif : bool; g_ongoing_sequence : bool; g_sequence_count : Z;
  g_cached_events : list InputEvent; g_cached_event_idx : Z }.
Definition kbd_init : kbd := mkKbd false false false 0 (replicate 64 zero_event) 0.
Definition set_flags (k : kbd) (special release : bool) : kbd :=
  mkKbd special release k.(g_ongoing_sequence) k.(g_sequence_count) k.(g_cached_events) k.(g_cached_event_idx).
Definition set_seq (k : kbd) (ongoing : bool) (count : Z) : kbd :=
  mkKbd k.(g_special_key) k.(g_release_modif) ongoing count k.(g_cached_events) k.(g_cached_event_idx).
Definition set_cache (k : kbd) (evs : list InputEvent) (idx : Z) : kbd :=
  mkKbd k.(g_special_key) k.(g_release_modif) k.(g_ongoing_sequence) k.(g_sequence_count) evs idx.

Definition ps2kbd_cache_event (ev : InputEvent) (k : kbd) : kbd :=
  let idx := if CACHED_EVENT_COUNT <=? k.(g_cached_event_idx) then 0 else k.(g_cached_event_idx) in
  set_cache k (<[Z.to_nat idx := ev]> k.(g_cached_events)) (idx + 1).

Definition event_at (evs : list InputEvent) (i : Z) : InputEvent := default zero_event (evs !! Z.to_nat i).
(** [n] slots from [i] on. *)
Fixpoint later_loop (n : nat) (i : Z) (evs : list InputEvent) (ts : timespec) : option Z :=
  match n with
  | O => None
  | S n => if first_bigger (event_at evs i).(ev_time) ts then Some i else later_loop n (i + 1) evs ts
  end.
Definition ps2kbd_earliest_event (ts : timespec) (idx : Z) (k : kbd) : option Z :=
  match later_loop (Z.to_nat (CACHED_EVENT_COUNT - idx)) idx k.(g_cached_events) ts with
  | Some i => Some i
  | None => later_loop (Z.to_nat idx) 0 k.(g_cached_events) ts
  end.

(** ** The interrupt handler: the byte read and the uptime at that moment *)
Definition kbd_sequence (data : Z) (now : timespec) (k : kbd) : kbd :=
  let count := u8 (k.(g_sequence_count) + 1) in
  let k := set_seq k true count in
  if count =? 8 then
    let k := set_seq k false 0 in
    if data =? 0x77 then
      ps2kbd_cache_event (mkEv now KBD_KEY_RELEASE KEY_BREAK) (ps2kbd_cache_event (mkEv now KBD_KEY_PRESS KEY_BREAK) k)
    else k
  else if (count =? 6) && (data =? 0x12) then
    ps2kbd_cache_event (mkEv now KBD_KEY_RELEASE KEY_SS) (set_flags (set_seq k false 0) false false)
  else if (count =? 4) && (data =? 0x7C) then
    ps2kbd_cache_event (mkEv now KBD_KEY_PRESS KEY_SS) (set_flags (set_seq k false 0) false k.(g_release_modif))
  else k.

Definition kbd_key (data : Z) (now : timespec) (k : kbd) : outcome kbd :=
  v ← (if k.(g_special_key) then g_special_keycode_map data else g_keycode_map data);
  let ev := mkEv now (if k.(g_release_modif) then KBD_KEY_RELEASE else KBD_KEY_PRESS) v in
  Ret (set_flags (ps2kbd_cache_event ev k) false false).

(** [case 0x12] falls through to [case 0x7C], and that to [default]. *)
Definition kbd_isr (data : Z) (now : timespec) (k : kbd) : outcome kbd :=
  if k.(g_ongoing_sequence) then Ret (kbd_sequence data now k)
  else if data =? 0xE1 then Ret (set_seq k true 1)
  else if data =? 0xE0 then Ret (set_flags k true k.(g_release_modif))
  else if data =? 0xF0 then Ret (set_flags k k.(g_special_key) true)
  else if (data =? 0x12) && k.(g_special_key) then Ret (set_seq k true 2)
  else if ((data =? 0x12) || (data =? 0x7C)) && k.(g_special_key) && k.(g_release_modif) then Ret (set_seq k true 3)
  else kbd_key data now k.

(** A run of interrupts. *)
Fixpoint kbd_run (input : list (Z * timespec)) (k : kbd) : outcome kbd :=
  match input with
  | [] => Ret k
  | (data, now) :: input => k ← kbd_isr data now k; kbd_run input k
  end.

(** ** The device node

    Its state in the virtual file system: [infos] has the [LastReadInfo] a
    node's data points at. *)
Record kbdstate := mkKS { ks_kbd : kbd; infos : gmap Z LastReadInfo }.

Section node.
Context {H : Type} `{!Allocator H} (pad : list Z).
Local Notation vstate := (vstate H kbdstate).

Definition set_vdata (v : VirtualNode) (d : Z) : VirtualNode :=
  mkVN v.(vn_name) v.(vn_n) v.(vn_size) v.(vn_mode) v.(vn_uid) v.(vn_gid) v.(ref_count) v.(vn_flags) v.(parent) v.(owner) v.(vn_ops) d.
Definition put_info (a : Z) (i : LastReadInfo) (s : vstate) : vstate := set_drv s (mkKS s.(drv).(ks_kbd) (<[a := i]> s.(drv).(infos))).
Definition put_kbd (k : kbd) (s : vstate) : vstate := set_drv s (mkKS k s.(drv).(infos)).

(** [now] is the uptime. *)
Definition ps2kbd_vnode_open (v : Z) (now : timespec) (s : vstate) : outcome (vstate * Z) :=
  x ← deref (s.(vnodes) !! v);
  r ← kmalloc_ sizeof_LastReadInfo (vheap s);
  let s := put_vnode (set_vheap s r.1) v (set_vdata x r.2) in
  if r.2 =? 0 then Ret (s, - ENOMEM) else Ret (put_info r.2 (mkLR 0 now) s, 0).

(** The bytes of an event; [pad] are the three between [action] and [value]. *)
Fixpoint le_bytes (n : nat) (z : Z) : list Z := match n with O => [] | S n => z mod 256 :: le_bytes n (z / 256) end.
Definition event_bytes (ev : InputEvent) : list Z :=
  le_bytes 8 ev.(ev_time).(tv_sec) ++ le_bytes 4 ev.(ev_time).(tv_nsec) ++ [ev.(action) mod 256] ++ pad ++ le_bytes 4 ev.(value).

(** [bursts] is what the keyboard sends while the reader has yielded; without
    an event and without more to come it waits for ever. *)
Fixpoint read_loop (fuel : nat) (entries : Z) (info buf : Z) (bursts : list (list (Z * timespec))) (s : vstate) : outcome vstate :=
  match fuel with
  | O => Undef
  | S fuel =>
      if entries =? 0 then Ret s
      else
        i ← deref (s.(drv).(infos) !! info);
        match ps2kbd_earliest_event i.(lr_time) i.(lr_idx) s.(drv).(ks_kbd) with
        | None => match bursts with
                  | [] => Undef
                  | b :: bursts => k ← kbd_run b s.(drv).(ks_kbd); read_loop fuel entries info buf bursts (put_kbd k s)
                  end
        | Some idx =>
            let ev := event_at s.(drv).(ks_kbd).(g_cached_events) idx in
            let s := put_info info (mkLR idx ev.(ev_time)) s in
            read_loop fuel (entries - 1) info buf bursts (set_umem s (user_copy_to s.(umem) buf (event_bytes ev)).1)
        end
  end.
Definition ps2kbd_vnode_read (v buf n off : Z) (bursts : list (list (Z * timespec))) (s : vstate) : outcome (vstate * Z) :=
  if negb (n mod sizeof_InputEvent =? 0) then Ret (s, - 22)
  else
    let entries := n / sizeof_InputEvent in
    x ← deref (s.(vnodes) !! v);
    s ← read_loop (S (Z.to_nat entries + length bursts)) entries x.(vn_data) buf bursts s;
    Ret (s, n).
Definition ps2kbd_vnode_write (v buf n off : Z) (s : vstate) : outcome (vstate * Z) := Ret (s, - 22).
Definition ps2kbd_vnode_ioctl (v req data : Z) (s : vstate) : outcome (vstate * Z) := Ret (s, - 22).
Definition ps2kbd_vnode_mmap (v addr len prot flags off : Z) (s : vstate) : outcome (vstate * Z) := Ret (s, 0).
End node.

(** ** What a keyboard sends, and what it means

    Scan code set 2; [0xE0] and [0xF0] stand in front of the extended codes
    and of releases. *)
Inductive stroke :=
| Make (c : Z) | Break (c : Z) | XMake (c : Z) | XBreak (c : Z) | PrintPress | PrintRelease | Pause.

Definition codes (s : stroke) : list Z :=
  match s with
  | Make c => [c]
  | Break c => [0xF0; c]
  | XMake c => [0xE0; c]
  | XBreak c => [0xE0; 0xF0; c]
  | PrintPress => [0xE0; 0x12; 0xE0; 0x7C]
  | PrintRelease => [0xE0; 0xF0; 0x7C; 0xE0; 0xF0; 0x12]
  | Pause => [0xE1; 0x14; 0x77; 0xE1; 0xF0; 0x14; 0xF0; 0x77]
  end.
Definition key_of (t : list (Z * Z)) (c : Z) : Z := default 0 (snd <$> head (filter (fun x => x.1 = c) t)).
Definition events (now : timespec) (s : stroke) : list InputEvent :=
  match s with
  | Make c => [mkEv now KBD_KEY_PRESS (key_of keycodes c)]
  | Break c => [mkEv now KBD_KEY_RELEASE (key_of keycodes c)]
  | XMake c => [mkEv now KBD_KEY_PRESS (key_of special_keycodes c)]
  | XBreak c => [mkEv now KBD_KEY_RELEASE (key_of special_keycodes c)]
  | PrintPress => [mkEv now KBD_KEY_PRESS KEY_SS]
  | PrintRelease => [mkEv now KBD_KEY_RELEASE KEY_SS]
  | Pause => [mkEv now KBD_KEY_PRESS KEY_BREAK; mkEv now KBD_KEY_RELEASE KEY_BREAK]
  end.
(** Codes the tables have room for; [0xE0 0x12] and a released [0xE0 0x7C]
    begin print screen. *)
Definition stroke_ok (s : stroke) : Prop :=
  match s with
  | Make c | Break c => 0 <= c <= 0x83
  | XMake c => 0 <= c <= 0x7D /\ c <> 0x12
  | XBreak c => 0 <= c <= 0x7D /\ c <> 0x12 /\ c <> 0x7C
  | _ => True
  end.
Definition idle (k : kbd) : Prop :=
  k.(g_special_key) = false /\ k.(g_release_modif) = false /\ k.(g_ongoing_sequence) = false /\ k.(g_sequence_count) = 0.
Definition cached (evs : list InputEvent) (k : kbd) : kbd := foldl (fun k ev => ps2kbd_cache_event ev k) k evs.
(** A stroke with the uptime at each of its bytes; its events have the last. *)
Definition timed (x : stroke * list timespec) : list (Z * timespec) := zip (codes x.1) x.2.
Definition timed_ok (x : stroke * list timespec) : Prop := stroke_ok x.1 /\ length x.2 = length (codes x.1).
Definition timed_events (x : stroke * list timespec) : list InputEvent := events (default (mkTS 0 0) (last x.2)) x.1.

Section decode.
Implicit Types k : kbd.

Lemma table_sizes : array_size keycodes = 0x84 /\ array_size special_keycodes = 0x7E.
Proof. by vm_compute. Qed.
#[local] Opaque keycodes special_keycodes.
Lemma array_at_ok t c : c < array_size t -> array_at t c = Ret (key_of t c).
Proof. intros Hc. unfold array_at. by rewrite (proj2 (Z.ltb_lt _ _)). Qed.

Lemma cached_idle evs k : idle k -> idle (cached evs k).
Proof. revert k. induction evs as [|ev evs IH]; intros k Hk; [done|]. apply IH. exact Hk. Qed.

Lemma kbd_run_app l1 l2 k : kbd_run (l1 ++ l2) k = (k ← kbd_run l1 k; kbd_run l2 k).
Proof.
  revert k. induction l1 as [|[d t] l1 IH]; intros k; [done|]. cbn [app kbd_run]. destruct (kbd_isr d t k); [|done..]. rewrite !bind_Ret. apply IH.
Qed.

(** A key's own code, behind its prefixes. *)
Lemma kbd_isr_key c now k : k.(g_ongoing_sequence) = false -> c <> 0xE1 -> c <> 0xE0 -> c <> 0xF0 ->
  (k.(g_special_key) = true -> c <> 0x12 /\ (k.(g_release_modif) = true -> c <> 0x7C)) -> kbd_isr c now k = kbd_key c now k.
Proof.
  intros Ho H1 H2 H3 Hs. unfold kbd_isr. rewrite Ho, (proj2 (Z.eqb_neq c 0xE1)), (proj2 (Z.eqb_neq c 0xE0)), (proj2 (Z.eqb_neq c 0xF0)) by done.
  destruct (g_special_key k); [|by rewrite !andb_false_r]. destruct (Hs eq_refl) as [H12 H7C]. rewrite (proj2 (Z.eqb_neq c 0x12)) by done.
  destruct (g_release_modif k); [|by rewrite !andb_false_r]. by rewrite (proj2 (Z.eqb_neq c 0x7C)) by auto.
Qed.

Lemma kbd_isr_code (sp rel : bool) c now evs idx : 0 <= c -> c <= (if sp then 0x7D else 0x83) ->
  (sp = true -> c <> 0x12 /\ (rel = true -> c <> 0x7C)) ->
  kbd_isr c now (mkKbd sp rel false 0 evs idx) =
  Ret (ps2kbd_cache_event (mkEv now (if rel then KBD_KEY_RELEASE else KBD_KEY_PRESS) (key_of (if sp then special_keycodes else keycodes) c))
        (mkKbd false false false 0 evs idx)).
Proof.
  intros H0 Hc Hs. destruct table_sizes as [T1 T2]. rewrite (kbd_isr_key c now (mkKbd sp rel false 0 evs idx)); [|reflexivity|destruct sp; lia|destruct sp; lia|destruct sp; lia|exact Hs]. unfold kbd_key. cbn [g_special_key g_release_modif].
  unfold g_keycode_map, g_special_keycode_map. destruct sp; rewrite array_at_ok, bind_Ret by (first [rewrite T1 | rewrite T2]; lia);
    generalize (key_of special_keycodes c) (key_of keycodes c); reflexivity.
Qed.
Lemma kbd_isr_E0 (rel : bool) now evs idx : kbd_isr 0xE0 now (mkKbd false rel false 0 evs idx) = Ret (mkKbd true rel false 0 evs idx).
Proof. done. Qed.
Lemma kbd_isr_F0 (sp : bool) now evs idx : kbd_isr 0xF0 now (mkKbd sp false false 0 evs idx) = Ret (mkKbd sp true false 0 evs idx).
Proof. done. Qed.

Lemma stroke_spec x k : timed_ok x -> idle k -> kbd_run (timed x) k = Ret (cached (timed_events x) k).
Proof.
  destruct x as [s ts], k as [sp rel on cnt evs idx], table_sizes as [T1 T2]. unfold idle, timed, timed_events. intros [Hs Hl] (H1 & H2 & H3 & H4).
  cbn [fst snd g_special_key g_release_modif g_ongoing_sequence g_sequence_count] in *. subst.
  destruct s; cbn [codes length stroke_ok] in Hs, Hl; repeat (destruct ts as [|? ts]; try discriminate Hl);
    cbn [codes zip zip_with kbd_run last default events]; unfold cached; cbn [foldl].
  - rewrite (kbd_isr_code false false) by (first [lia | discriminate]). by rewrite bind_Ret.
  - rewrite kbd_isr_F0, bind_Ret, (kbd_isr_code false true) by (first [lia | discriminate]). by rewrite bind_Ret.
  - rewrite kbd_isr_E0, bind_Ret, (kbd_isr_code true false) by (first [lia | intros _; split; [lia | discriminate]]). by rewrite bind_Ret.
  - rewrite kbd_isr_E0, bind_Ret, kbd_isr_F0, bind_Ret, (kbd_isr_code true true) by (first [lia | intros _; split; lia]). by rewrite bind_Ret.
  - reflexivity.
  - reflexivity.
  - reflexivity.
Qed.

End decode.

(** ** The ring

    [age c i] is the place of slot [i] in the order of writing when the next
    write goes to [c]; later slots are not older. *)
Definition age (c i : Z) : Z := if i <? c then i + 64 - c else i - c.
Definition slot_ms (evs : list InputEvent) (i : Z) : Z := ms_of (event_at evs i).(ev_time).
Definition ring_ok (k : kbd) : Prop :=
  length k.(g_cached_events) = 64%nat /\ 0 <= k.(g_cached_event_idx) <= 64 /\
  forall i j, 0 <= i < 64 -> 0 <= j < 64 -> age k.(g_cached_event_idx) i <= age k.(g_cached_event_idx) j ->
    slot_ms k.(g_cached_events) i <= slot_ms k.(g_cached_events) j.
(** The oldest event that is later than [t]. *)
Definition next_event (k : kbd) (t : timespec) (i : Z) : Prop :=
  0 <= i < 64 /\ ms_of t < slot_ms k.(g_cached_events) i /\
  forall j, 0 <= j < 64 -> ms_of t < slot_ms k.(g_cached_events) j -> age k.(g_cached_event_idx) i <= age k.(g_cached_event_idx) j.

(** Compare ages slot by slot. *)
Ltac age_cases := unfold age in *; repeat match goal with
  | |- context [?a <? ?b] => destruct (Z.ltb_spec a b)
  | H : context [?a <? ?b] |- _ => destruct (Z.ltb_spec a b)
  end; lia.

Section ring.
Implicit Types k : kbd.

Lemma later_loop_spec evs t : forall n i,
  match later_loop n i evs t with
  | Some j => i <= j < i + Z.of_nat n /\ ms_of t < slot_ms evs j /\ forall x, i <= x < j -> slot_ms evs x <= ms_of t
  | None => forall x, i <= x < i + Z.of_nat n -> slot_ms evs x <= ms_of t
  end.
Proof.
  induction n as [|n IH]; intros i; cbn [later_loop]; [intros; lia|]. unfold first_bigger. fold (slot_ms evs i).
  destruct (Z.ltb_spec (ms_of t) (slot_ms evs i)) as [Hl|Hl]; [split; [lia|]; split; [done|]; intros; lia|].
  specialize (IH (i + 1)). destruct (later_loop n (i + 1) evs t) as [j|].
  - destruct IH as (H1 & H2 & H3). split; [lia|]. split; [done|]. intros x Hx. destruct (Z.eq_dec x i) as [->|]; [done|]. apply H3. lia.
  - intros x Hx. destruct (Z.eq_dec x i) as [->|]; [done|]. apply IH. lia.
Qed.

Lemma earliest_spec k t idx : ring_ok k -> 0 <= idx < 64 -> slot_ms k.(g_cached_events) idx <= ms_of t ->
  match ps2kbd_earliest_event t idx k with
  | Some i => next_event k t i
  | None => forall j, 0 <= j < 64 -> slot_ms k.(g_cached_events) j <= ms_of t
  end.
Proof.
  intros (Hl & Hc & Hord) Hidx Ht. unfold ps2kbd_earliest_event, CACHED_EVENT_COUNT, next_event.
  set (c := g_cached_event_idx k) in *. set (evs := g_cached_events k) in *.
  assert (Hlate : forall j, 0 <= j < 64 -> ms_of t < slot_ms evs j -> age c idx < age c j).
  { intros j Hj Hms. destruct (Z_lt_le_dec (age c idx) (age c j)) as [|Hle]; [done|]. specialize (Hord j idx Hj Hidx Hle). lia. }
  pose proof (later_loop_spec evs t (Z.to_nat (64 - idx)) idx) as H1. destruct (later_loop (Z.to_nat (64 - idx)) idx evs t) as [i|].
  - destruct H1 as (Hi & Hms & Hbefore). split; [lia|]. split; [done|]. intros j Hj Hj'.
    pose proof (Hlate i ltac:(lia) Hms). pose proof (Hlate j Hj Hj').
    assert (~ idx <= j < i) by (intros Hx; specialize (Hbefore j Hx); lia).
    age_cases.
  - pose proof (later_loop_spec evs t (Z.to_nat idx) 0) as H2. destruct (later_loop (Z.to_nat idx) 0 evs t) as [i|].
    + destruct H2 as (Hi & Hms & Hbefore). split; [lia|]. split; [done|]. intros j Hj Hj'.
      pose proof (Hlate i ltac:(lia) Hms). pose proof (Hlate j Hj Hj').
      assert (~ idx <= j < 64) by (intros Hx; specialize (H1 j ltac:(lia)); lia).
      assert (~ 0 <= j < i) by (intros Hx; specialize (Hbefore j Hx); lia).
      age_cases.
    + intros j Hj. destruct (Z_lt_le_dec j idx); [apply H2|apply H1]; lia.
Qed.

(** Caching an event that is not older keeps the order. *)
Lemma cache_ring ev k : ring_ok k -> (forall i, 0 <= i < 64 -> slot_ms k.(g_cached_events) i <= ms_of ev.(ev_time)) -> ring_ok (ps2kbd_cache_event ev k).
Proof.
  intros (Hl & Hc & Hord) Hnew. unfold ps2kbd_cache_event, CACHED_EVENT_COUNT, ring_ok, set_cache. cbn [g_cached_events g_cached_event_idx].
  set (c := if 64 <=? g_cached_event_idx k then 0 else g_cached_event_idx k).
  assert (Hc' : 0 <= c < 64 /\ forall i, 0 <= i < 64 -> age (g_cached_event_idx k) i = age c i).
  { unfold c. case_cond; [|split; [lia|done]]. split; [lia|]. intros i Hi. age_cases. }
  destruct Hc' as [Hc' Hage].
  assert (Hslot : forall i, 0 <= i < 64 -> slot_ms (<[Z.to_nat c := ev]> (g_cached_events k)) i = if decide (i = c) then ms_of ev.(ev_time) else slot_ms (g_cached_events k) i).
  { intros i Hi. unfold slot_ms, event_at. destruct (decide (i = c)) as [->|Hn].
    - by rewrite list_lookup_insert_eq by lia.
    - by rewrite list_lookup_insert_ne by lia. }
  split; [by rewrite length_insert|]. split; [lia|]. intros i j Hi Hj Hij. rewrite !Hslot by done.
  destruct (decide (i = c)) as [->|Hic], (decide (j = c)) as [->|Hjc]; [lia| | |].
  - exfalso. age_cases.
  - by apply Hnew.
  - apply Hord; [done..|]. rewrite !Hage by done. age_cases.
Qed.

Lemma init_ring : ring_ok kbd_init.
Proof.
  split; [done|]. split; [cbn; lia|]. intros i j Hi Hj _. unfold slot_ms, event_at. cbn [kbd_init g_cached_events].
  rewrite !lookup_replicate_2 by lia. cbn. lia.
Qed.
End ring.

(** What a reader at [t] gets, one event after the other. *)
Inductive deliveries (k : kbd) : timespec -> list Z -> Prop :=
| deliver_none t : deliveries k t []
| deliver_next t i js : next_event k t i -> deliveries k (event_at k.(g_cached_events) i).(ev_time) js -> deliveries k t (i :: js).
Definition reader_ok (k : kbd) (r : LastReadInfo) : Prop := 0 <= r.(lr_idx) < 64 /\ slot_ms k.(g_cached_events) r.(lr_idx) <= ms_of r.(lr_time).

Section copies.
Lemma copy_insert_below u l : forall d x y, x < d -> user_copy_to (<[x := y]> u) d l = (<[x := y]> (user_copy_to u d l).1, (user_copy_to u d l).2).
Proof.
  revert u. induction l as [|b l IH]; intros u d x y Hx; [done|]. cbn [user_copy_to]. rewrite lookup_insert_ne by lia.
  destruct (u !! d); [|done]. rewrite insert_insert_ne by lia. apply IH. lia.
Qed.
Lemma copy_keeps_below u l : forall d x, x < d -> (user_copy_to u d l).1 !! x = u !! x.
Proof.
  revert u. induction l as [|b l IH]; intros u d x Hx; [done|]. cbn [user_copy_to]. destruct (u !! d); [|done].
  rewrite IH by lia. by rewrite lookup_insert_ne by lia.
Qed.
(** A second copy of the same length hides the first, faults included. *)
Lemma copy_twice l1 : forall l2 u d, length l1 = length l2 -> (user_copy_to (user_copy_to u d l1).1 d l2).1 = (user_copy_to u d l2).1.
Proof.
  induction l1 as [|a l1 IH]; intros [|b l2] u d Hl; [done|done|done|]. injection Hl as Hl. cbn [user_copy_to].
  destruct (u !! d) as [x|] eqn:E; cbn [fst]; [|by rewrite E].
  rewrite copy_keeps_below, lookup_insert_eq by lia. rewrite !copy_insert_below by lia. cbn [fst]. rewrite copy_insert_below by lia.
  cbn [fst]. by rewrite insert_insert_eq, IH.
Qed.
End copies.

Section reading.
Context {H : Type} `{!Allocator H} (pad : list Z) (Hpad : length pad = 3%nat).
Implicit Types s : vstate H kbdstate.

Lemma event_bytes_length ev : length (event_bytes pad ev) = 20%nat.
Proof. unfold event_bytes. rewrite !length_app, Hpad. done. Qed.

Lemma next_event_unique k t i j : 0 <= k.(g_cached_event_idx) <= 64 -> next_event k t i -> next_event k t j -> i = j.
Proof.
  intros Hc (Hi & Hti & Hmi) (Hj & Htj & Hmj). specialize (Hmi j Hj Htj). specialize (Hmj i Hi Hti). age_cases.
Qed.
Lemma earliest_next k r i : ring_ok k -> reader_ok k r -> next_event k r.(lr_time) i -> ps2kbd_earliest_event r.(lr_time) r.(lr_idx) k = Some i.
Proof.
  intros Hr [Hi Ht] Hn. pose proof (earliest_spec k _ _ Hr Hi Ht) as He. destruct (ps2kbd_earliest_event _ _ k) as [j|].
  - f_equal. eapply next_event_unique; [apply Hr|exact He|exact Hn].
  - destruct Hn as (Hi' & Hms & _). specialize (He i Hi'). lia.
Qed.

Definition delivered (info i buf : Z) s : vstate H kbdstate :=
  let ev := event_at s.(drv).(ks_kbd).(g_cached_events) i in
  set_umem (put_info info (mkLR i ev.(ev_time)) s) (user_copy_to s.(umem) buf (event_bytes pad ev)).1.

Lemma kbd_read_loop_spec info buf bursts js : forall fuel s r i, ring_ok s.(drv).(ks_kbd) -> reader_ok s.(drv).(ks_kbd) r -> s.(drv).(infos) !! info = Some r ->
  deliveries s.(drv).(ks_kbd) r.(lr_time) js -> last js = Some i -> (length js < fuel)%nat ->
  read_loop pad fuel (Z.of_nat (length js)) info buf bursts s = Ret (delivered info i buf s).
Proof.
  induction js as [|j js IH]; intros fuel s r i Hring Hrd Hinfo Hd Hlast Hf; [done|]. destruct fuel as [|fuel]; [cbn in Hf; lia|].
  inversion Hd as [|? ? ? Hn Hd']. subst. cbn [read_loop length]. rewrite (proj2 (Z.eqb_neq _ 0)) by lia. rewrite Hinfo. cbn [deref]. rewrite bind_Ret.
  rewrite (earliest_next _ r j) by done. cbv zeta.
  change (read_loop pad fuel (Z.of_nat (S (length js)) - 1) info buf bursts (delivered info j buf s) = Ret (delivered info i buf s)). replace (Z.of_nat (S (length js)) - 1) with (Z.of_nat (length js)) by lia.
  destruct js as [|j' js]; [cbn in Hlast; injection Hlast as ->; destruct fuel; [cbn in Hf; lia|]; reflexivity|].
  rewrite (IH fuel (delivered info j buf s) (mkLR j (event_at s.(drv).(ks_kbd).(g_cached_events) j).(ev_time)) i); [|done| |by cbn; rewrite lookup_insert_eq|done|done|cbn in *; lia].
  - f_equal. unfold delivered, put_info, set_umem, set_drv. cbn [drv ks_kbd infos umem vpm strs lnodes vnodes filesystems sysfds hash_ptr hash_funcs g_sys_fd_hashtable g_filesystems_ll g_fs_drivers_ptr g_fs_drivers].
    f_equal; [|f_equal; apply insert_insert_eq]. apply copy_twice. by rewrite !event_bytes_length.
  - split; [apply Hn|]. cbn [lr_idx lr_time drv delivered put_info set_umem set_drv ks_kbd]. unfold slot_ms. lia.
Qed.

(** A reader takes the cached events in the order they were written, each
    the oldest in a later millisecond than the one before, so a second event of
    the same millisecond is never delivered; a length that is no whole number
    of events is refused.  Every event is copied to the start of the buffer:
    of a longer read only the last one is left.  Without one the reader yields,
    and what comes meanwhile is seen. *)
Theorem kbd_read_correct v buf n off bursts s x r : s.(vnodes) !! v = Some x -> s.(drv).(infos) !! x.(vn_data) = Some r -> 0 <= n ->
  ring_ok s.(drv).(ks_kbd) -> reader_ok s.(drv).(ks_kbd) r ->
  (n mod sizeof_InputEvent <> 0 -> ps2kbd_vnode_read pad v buf n off bursts s = Ret (s, - 22)) /\
  (forall js i, deliveries s.(drv).(ks_kbd) r.(lr_time) js -> last js = Some i -> n = sizeof_InputEvent * Z.of_nat (length js) ->
     ps2kbd_vnode_read pad v buf n off bursts s = Ret (delivered x.(vn_data) i buf s, n)) /\
  (forall b k', bursts = b :: tail bursts -> 0 < n -> n mod sizeof_InputEvent = 0 ->
     (forall j, 0 <= j < 64 -> slot_ms s.(drv).(ks_kbd).(g_cached_events) j <= ms_of r.(lr_time)) -> kbd_run b s.(drv).(ks_kbd) = Ret k' ->
     ps2kbd_vnode_read pad v buf n off bursts s = ps2kbd_vnode_read pad v buf n off (tail bursts) (put_kbd k' s)).
Proof.
  intros Hv Hinfo Hn Hring Hrd. unfold ps2kbd_vnode_read, sizeof_InputEvent. split; [|split].
  - intros Hm. by rewrite (proj2 (Z.eqb_neq _ 0)).
  - intros js i Hd Hlast ->. rewrite Z.mul_comm, Z.mod_mul by lia. cbn [Z.eqb negb]. rewrite Hv. cbn [deref]. rewrite bind_Ret, Z.div_mul by lia.
    rewrite (kbd_read_loop_spec _ _ _ js _ s r i) by (first [done | lia]). by rewrite bind_Ret.
  - intros b k' -> Hn0 Hm Hnone Hrun. rewrite Hm. cbn [Z.eqb negb]. rewrite Hv. cbn [put_kbd set_drv vnodes tail]. rewrite Hv. cbn [deref]. rewrite !bind_Ret.
    assert (0 < n / 20) by (apply Z.div_str_pos; split; [lia|]; apply Z.divide_pos_le; [lia|]; by apply Z.mod_divide).
    replace (Z.to_nat (n / 20) + length (b :: tail bursts))%nat with (S (Z.to_nat (n / 20) + length (tail bursts))) by (cbn; lia).
    cbn [read_loop]. rewrite (proj2 (Z.eqb_neq _ 0)) by lia. rewrite Hinfo. cbn [deref]. rewrite bind_Ret.
    pose proof (earliest_spec _ r.(lr_time) r.(lr_idx) Hring (proj1 Hrd) (proj2 Hrd)) as He.
    destruct (ps2kbd_earliest_event _ _ _) as [j|]; [destruct He as (Hj & Hms & _); specialize (Hnone j Hj); lia|].
    by rewrite Hrun, bind_Ret.
Qed.
End reading.

(** ** Concrete keyboards *)
Definition demo_time (ms : Z) : timespec := mkTS (ms / 1000) (ms mod 1000 * 1000000).
Definition demo_strokes : list (stroke * list timespec) :=
  [(Make 0x1C, [demo_time 10]); (Break 0x1C, [demo_time 90; demo_time 91]); (XMake 0x75, [demo_time 200; demo_time 201]);
   (PrintPress, replicate 4 (demo_time 300)); (PrintRelease, replicate 6 (demo_time 400)); (Pause, replicate 8 (demo_time 1500))].


(** Bytes behind the tables, such as the answer to a command or the result of
    the self test, are looked up outside them. *)
Example answer_out_of_bounds now : kbd_isr 0xFA now kbd_init = Undef /\ kbd_isr 0xAA now kbd_init = Undef.
Proof. split; by vm_compute. Qed.
(** With the shift a keyboard puts around the arrows when Num Lock is on, the
    arrow is taken for print screen and lost. *)
Example fake_shift_lost now : kbd_run (zip [0xE0; 0x12; 0xE0; 0x75] (replicate 4 now)) kbd_init = Ret (set_seq (set_flags kbd_init true false) true 4).
Proof. by vm_compute. Qed.

Definition pressed : kbd := cached (concat (timed_events <$> demo_strokes)) kbd_init.
Definition demo_reader : vstate kstate kbdstate :=
  mkV (demo_pmem falloc_boot) (CString.write_bytes ∅ 4096 (replicate 64 0)) ∅ ∅ {[9 := set_vdata zero_vnode 0xD0000000]} ∅ ∅ 0 [] (mkHT 0 [] 0 0 0 0)
    (mkLL 0 0) 0 [] (mkKS pressed {[0xD0000000 := mkLR 63 (demo_time 5)]}).

Lemma kbd_read_correct_witness :
  (exists s', ps2kbd_vnode_read [0; 0; 0] 9 4096 60 0 [] demo_reader = Ret (s', 60) /\
     (s'.(umem) !! 4096, s'.(umem) !! 4112, s'.(umem) !! 4116) = (Some 0, Some KEY_UP_ARROW, Some 0)) /\
  ps2kbd_vnode_read [0; 0; 0] 9 4096 30 0 [] demo_reader = Ret (demo_reader, - 22).
Proof.
  assert (Hring : ring_ok pressed).
  { split; [done|]. split; [by vm_compute|].
    assert (Hall : forall i j, 0 <= i < 64 -> 0 <= j < 64 -> age 7 i <= age 7 j -> slot_ms pressed.(g_cached_events) i <= slot_ms pressed.(g_cached_events) j); [|done].
    assert (Hb : forallb (fun i => forallb (fun j => (age 7 j <? age 7 i) || (slot_ms pressed.(g_cached_events) i <=? slot_ms pressed.(g_cached_events) j)) (seqZ 0 64)) (seqZ 0 64) = true) by (by vm_compute).
    intros i j Hi Hj Hij. rewrite forallb_forall in Hb. specialize (Hb i). rewrite <- list_elem_of_In, elem_of_seqZ in Hb. specialize (Hb Hi).
    rewrite forallb_forall in Hb. specialize (Hb j). rewrite <- list_elem_of_In, elem_of_seqZ in Hb. specialize (Hb Hj). apply orb_true_iff in Hb as [Hb|Hb]; reflect_bools; lia. }
  assert (Hnext : forall t i, 0 <= i < 64 -> ms_of t < slot_ms pressed.(g_cached_events) i ->
    forallb (fun j => (slot_ms pressed.(g_cached_events) j <=? ms_of t) || (age 7 i <=? age 7 j)) (seqZ 0 64) = true -> next_event pressed t i).
  { intros t i Hi Hms Hb. split; [done|]. split; [done|]. intros j Hj Hms'. rewrite forallb_forall in Hb. specialize (Hb j).
    rewrite <- list_elem_of_In, elem_of_seqZ in Hb. specialize (Hb Hj). change (g_cached_event_idx pressed) with 7. apply orb_true_iff in Hb as [Hb|Hb]; reflect_bools; lia. }
  destruct (kbd_read_correct [0; 0; 0] eq_refl 9 4096 60 0 [] demo_reader (set_vdata zero_vnode 0xD0000000) (mkLR 63 (demo_time 5))) as (_ & Hread & _);
    [by vm_compute|by vm_compute|lia|exact Hring|by split; vm_compute|].
  destruct (kbd_read_correct [0; 0; 0] eq_refl 9 4096 30 0 [] demo_reader (set_vdata zero_vnode 0xD0000000) (mkLR 63 (demo_time 5))) as (Hbad & _);
    [by vm_compute|by vm_compute|lia|exact Hring|by split; vm_compute|].
  split; [|by apply Hbad].
  eexists. split; [apply (Hread [0; 1; 2] 2); [|done|done]|by vm_compute].
  repeat (apply deliver_next; [apply Hnext; [lia|by vm_compute|by vm_compute]|]). apply deliver_none.
Defined.
