(* ===== verification/Kstdio.v ===== *)
(** * Kernel output

    [kernel/kstdio.c]: the sinks characters go to, raw ones first, terminals
    through a small ANSI parser; [kernel/klog.c]: levels, time stamps and
    colours on top of [vsnprintf]. *)
From Stdlib Require Import Floats.SpecFloat.
From S2P Require Import Prelude CString KStdlib LinkedList Fs Printf Interrupts Time.
Import Conv.

Definition EINVAL : Z := 22.
Definition ENOMEM : Z := 12.
Definition ENOENT : Z := 2.

(** ** Sinks *)
Definition KOUTPUT_TERMINAL : Z := 1.
Definition KOUTPUT_RAW : Z := 2.
Inductive KOutputColor :=
| KOUTPUT_BLACK | KOUTPUT_RED | KOUTPUT_GREEN | KOUTPUT_YELLOW | KOUTPUT_BLUE | KOUTPUT_MAGENTA | KOUTPUT_CYAN | KOUTPUT_WHITE.

(** [Y] is what [ctx] leads to; a colour is [None] when it was copied from a
    variable that was never set.  The booleans tell which function pointers
    are there. *)
Record KOutputSink (Y : Type) := mkSink {
  sk_name : Z; sk_type : Z; sk_init : bool; sk_destroy : bool; sk_output_char : bool; sk_newline : bool;
  fgcolor : option KOutputColor; bgcolor : option KOutputColor; sk_ctx : Y }.
Arguments mkSink {Y}.
Arguments sk_name {Y}.
Arguments sk_type {Y}.
Arguments sk_init {Y}.
Arguments sk_destroy {Y}.
Arguments sk_output_char {Y}.
Arguments sk_newline {Y}.
Arguments fgcolor {Y}.
Arguments bgcolor {Y}.
Arguments sk_ctx {Y}.

(** The functions of the sink at an address. *)
Class Sinks (Y : Type) := {
  run_init : Z -> KOutputSink Y -> KOutputSink Y * Z;
  run_destroy : Z -> KOutputSink Y -> KOutputSink Y * Z;
  output_char : Z -> Z -> KOutputSink Y -> KOutputSink Y;
  newline : Z -> KOutputSink Y -> KOutputSink Y }.

Definition SINKS_CAPACITY : Z := 4.
Definition ESC : Z := 0x1B.

Section kstdio.
Context {Y : Type} `{!Sinks Y}.

(** [g_sinks] has the first [g_sink_count] entries of the array. *)
Record kout := mkOut { sinks : gmap Z (KOutputSink Y); g_sinks : list Z }.
Definition g_sink_count (s : kout) : Z := Z.of_nat (length s.(g_sinks)).
Definition put_sink (a : Z) (x : KOutputSink Y) (s : kout) : kout := mkOut (<[a := x]> s.(sinks)) s.(g_sinks).
Definition set_color (fg bg : option KOutputColor) (x : KOutputSink Y) : KOutputSink Y :=
  mkSink x.(sk_name) x.(sk_type) x.(sk_init) x.(sk_destroy) x.(sk_output_char) x.(sk_newline) fg bg x.(sk_ctx).

Definition kstdio_validate_sink (x : KOutputSink Y) : Z :=
  if (x.(sk_name) =? 0) || negb x.(sk_init) || negb x.(sk_destroy) || negb x.(sk_output_char) then - EINVAL
  else if x.(sk_type) =? KOUTPUT_TERMINAL then (if x.(sk_newline) then 0 else - EINVAL)
  else if x.(sk_type) =? KOUTPUT_RAW then 0
  else - EINVAL.

(** [i], [next_mode], [next_fg], [nn] and the colour so far; [str] is what is
    left.  A [char] is signed. *)
Definition int_ (z : Z) : outcome Z := if (- 2 ^ 31 <=? z) && (z <? 2 ^ 31) then Ret z else Undef.
Definition color_of (nn : Z) (fg : option KOutputColor) : option KOutputColor :=
  if nn =? 31 then Some KOUTPUT_RED else if nn =? 33 then Some KOUTPUT_YELLOW
  else if nn =? 39 then Some KOUTPUT_WHITE else if nn =? 36 then Some KOUTPUT_CYAN else fg.
Fixpoint ansi_loop (str : list Z) (i : Z) (next_mode next_fg : bool) (nn : Z) (fg : option KOutputColor) : outcome (Z * option KOutputColor) :=
  match str with
  | [] => Ret (0, fg)
  | c :: str =>
      if c =? 91 then ansi_loop str (i + 1) true next_fg nn fg
      else if c =? 59 then
        if next_mode then ansi_loop str (i + 1) false true 0 fg
        else if next_fg then ansi_loop str (i + 1) next_mode false 0 (color_of nn fg)
        else ansi_loop str (i + 1) next_mode next_fg nn fg
      else if c =? 109 then Ret (i, fg)
      else
        n ← int_ (nn * 10); n ← int_ (n + (i8 c - 48)); ansi_loop str (i + 1) next_mode next_fg n fg
  end.
(** The length of the sequence behind [ESC], 0 without an end, and the
    foreground; the background is not set. *)
Definition kstdio_parse_ansi_sequence (str : list Z) : outcome (Z * option KOutputColor) := ansi_loop (tail str) 1 false false 0 None.

Definition kstdio_register_sink (a : Z) (s : kout) : outcome (kout * Z) :=
  x ← deref (s.(sinks) !! a);
  if kstdio_validate_sink x <? 0 then Ret (s, - EINVAL)
  else if g_sink_count s >=? SINKS_CAPACITY then Ret (s, - ENOMEM)
  else
    let r := run_init a x in
    let s := put_sink a r.1 s in
    if r.2 <? 0 then Ret (s, r.2) else Ret (mkOut s.(sinks) (s.(g_sinks) ++ [a]), 0).

Fixpoint sink_index (l : list Z) (a : Z) (i : nat) : option nat :=
  match l with [] => None | b :: l => if b =? a then Some i else sink_index l a (S i) end.
(** The entries behind [idx] move down. *)
Fixpoint shift_down (l : list Z) (i n : nat) : list Z :=
  match n with O => l | S n => shift_down (<[i := nth (S i) l 0]> l) (S i) n end.
Definition kstdio_unregister_sink (a : Z) (s : kout) : outcome (kout * Z) :=
  x ← deref (s.(sinks) !! a);
  let r := run_destroy a x in
  let s := put_sink a r.1 s in
  if r.2 <? 0 then Ret (s, r.2)
  else
    match sink_index s.(g_sinks) a 0 with
    | None => Ret (s, - ENOENT)
    | Some idx =>
        let n := length s.(g_sinks) in
        Ret (mkOut s.(sinks) (take (n - 1) (shift_down s.(g_sinks) idx (n - 1 - idx))), 0)
    end.

(** [FOR_EACH_SINK_OF_TYPE]. *)
Fixpoint each_sink (type : Z) (f : Z -> KOutputSink Y -> KOutputSink Y) (l : list Z) (s : kout) : outcome kout :=
  match l with
  | [] => Ret s
  | a :: l =>
      x ← deref (s.(sinks) !! a);
      each_sink type f l (if x.(sk_type) =? type then put_sink a (f a x) s else s)
  end.
Definition for_each_sink (type : Z) (f : Z -> KOutputSink Y -> KOutputSink Y) (s : kout) : outcome kout := each_sink type f s.(g_sinks) s.

Fixpoint kstdio_write_raw (buf : list Z) (s : kout) : outcome kout :=
  match buf with
  | [] => Ret s
  | c :: buf => s ← for_each_sink KOUTPUT_RAW (fun a => output_char a c) s; kstdio_write_raw buf s
  end.

Fixpoint spaces (k : nat) (s : kout) : outcome kout :=
  match k with O => Ret s | S k => s ← for_each_sink KOUTPUT_TERMINAL (fun a => output_char a 32) s; spaces k s end.
(** One turn of [kstdio_write]: the state and how many characters it took. *)
Definition write_step (buf : list Z) (s : kout) : outcome (kout * Z) :=
  match buf with
  | [] => Ret (s, 0)
  | c :: _ =>
      if c =? ESC then
        r ← kstdio_parse_ansi_sequence buf;
        s ← for_each_sink KOUTPUT_TERMINAL (fun _ => set_color r.2 None) s;
        Ret (s, 1 + r.1)
      else
        s ← (if c =? 10 then for_each_sink KOUTPUT_TERMINAL newline s
             else if c =? 9 then spaces 4 s
             else for_each_sink KOUTPUT_TERMINAL (fun a => output_char a c) s);
        Ret (s, 1)
  end.
Fixpoint write_loop (fuel : nat) (buf : list Z) (s : kout) : outcome kout :=
  match fuel with
  | O => Undef
  | S fuel =>
      match buf with
      | [] => Ret s
      | _ => r ← write_step buf s; write_loop fuel (drop (Z.to_nat r.2) buf) r.1
      end
  end.
Definition kstdio_write (buf : list Z) (s : kout) : outcome (kout * Z) :=
  s ← kstdio_write_raw buf s;
  s ← write_loop (S (length buf)) buf s;
  Ret (s, Z.of_nat (length buf)).
End kstdio.
Arguments kout : clear implicits.

(** ** The log ([klog.c]) *)
Definition QUIET : Z := 0.
Definition FATAL : Z := 1.
Definition ERR : Z := 2.
Definition WARN : Z := 3.
Definition INFO : Z := 4.
Definition DEBUG : Z := 5.
Definition KLOG_ENUM_END : Z := 6.
Definition KPRINTF_MAX_BUF_SIZE : Z := 256.

(** The two words of a [double] passed to [printf]. *)
Definition double_words (x : spec_float) : list Z :=
  let sign (s : bool) := if s then 2 ^ 63 else 0 in
  let w := match x with
    | S754_zero s => sign s
    | S754_infinity s => sign s + 2047 * 2 ^ 52
    | S754_nan => 2047 * 2 ^ 52 + 2 ^ 51
    | S754_finite s m e => sign s + (if 2 ^ 52 <=? Z.pos m then (e + 1075) * 2 ^ 52 + (Z.pos m - 2 ^ 52) else Z.pos m)
    end in
  [u32 w; u32 (w / 2 ^ 32)].

Section klog.
Context {Y : Type} `{!Sinks Y}.
(** The stack buffers of [kvprintf] and [vsnprintf], where the compiler puts a
    literal, and [CONFIG_KLOG_COLOR]. *)
Context (kbuf tmpbuf : Z) (literal : list Z -> Z) (color : bool).

Record klog_t := mkKlog { k_mem : gmap Z Z; k_out : kout Y; g_loglvl : Z; g_show_ts : bool }.

Definition klog_set_max_level (lvl : Z) (s : klog_t) : klog_t * Z :=
  let lvl := if lvl >=? KLOG_ENUM_END then KLOG_ENUM_END - 1 else lvl in
  (mkKlog s.(k_mem) s.(k_out) lvl s.(g_show_ts), lvl).
Definition klog_init (level : Z) (s : klog_t) : klog_t * Z := ((klog_set_max_level level s).1, 0).
Definition klog_set_show_ts (show : bool) (s : klog_t) : klog_t := mkKlog s.(k_mem) s.(k_out) s.(g_loglvl) show.

Definition kvprintf (fmt : Z) (args : list Z) (s : klog_t) : outcome (klog_t * Z) :=
  let m := write_bytes s.(k_mem) kbuf (replicate (Z.to_nat KPRINTF_MAX_BUF_SIZE) 0) in
  r ← vsnprintf tmpbuf m kbuf KPRINTF_MAX_BUF_SIZE fmt args;
  t ← read_str r.1 kbuf;
  w ← kstdio_write t s.(k_out);
  Ret (mkKlog r.1 w.1 s.(g_loglvl) s.(g_show_ts), w.2).

Definition g_klog_lvl_colors (lvl : Z) : list Z :=
  if lvl =? FATAL then [ESC; 91; 49; 59; 51; 49; 59; 52; 57; 109]
  else if lvl =? ERR then [ESC; 91; 48; 59; 51; 49; 59; 52; 57; 109]
  else if lvl =? WARN then [ESC; 91; 48; 59; 51; 51; 59; 52; 57; 109]
  else if lvl =? INFO then [ESC; 91; 48; 59; 51; 57; 59; 52; 57; 109]
  else if lvl =? DEBUG then [ESC; 91; 48; 59; 51; 54; 59; 52; 57; 109]
  else [].
Definition g_klog_clear_color : list Z := [ESC; 91; 48; 109].
Definition g_klog_ts_color : list Z := [ESC; 91; 48; 59; 51; 55; 59; 52; 57; 109].
Definition kprintf_str (t : list Z) (s : klog_t) : outcome (klog_t * Z) := kvprintf (literal [37; 115]) [literal t] s.
Definition TS_FMT : list Z := [37; 49; 52; 46; 53; 102; 58; 32].

(** [ts] is the uptime. *)
Definition kvlog (ts : timespec) (lvl fmt : Z) (args : list Z) (s : klog_t) : outcome (klog_t * Z) :=
  if lvl >? s.(g_loglvl) then Ret (s, 0)
  else
    s ← (if s.(g_show_ts) then
           s ← (if color then r ← kprintf_str g_klog_ts_color s; Ret r.1 else Ret s);
           r ← kvprintf (literal TS_FMT) (double_words (to_double (seconds ts))) s; Ret r.1
         else Ret s);
    s ← (if color then r ← kprintf_str (g_klog_lvl_colors lvl) s; Ret r.1 else Ret s);
    r ← kvprintf fmt args s;
    s ← (if color then q ← kprintf_str g_klog_clear_color r.1; Ret q.1 else Ret r.1);
    Ret (s, r.2).
Definition kvlogln (ts : timespec) (lvl fmt : Z) (args : list Z) (s : klog_t) : outcome (klog_t * Z) :=
  r ← kvlog ts lvl fmt args s;
  q ← kvprintf (literal [10]) [] r.1;
  Ret (q.1, u32 (r.2 + q.2)).
End klog.
Arguments klog_t : clear implicits.

(** ** What each sink sees *)
Inductive tevent := EChar (c : Z) | ENewline | EColor (fg : option KOutputColor).

(** The parser's reading of a text. *)
Inductive renders : list Z -> list tevent -> Prop :=
| renders_nil : renders [] []
| renders_char c buf es : c <> ESC -> c <> 10 -> c <> 9 -> renders buf es -> renders (c :: buf) (EChar c :: es)
| renders_newline buf es : renders buf es -> renders (10 :: buf) (ENewline :: es)
| renders_tab buf es : renders buf es -> renders (9 :: buf) (replicate 4 (EChar 32) ++ es)
| renders_esc buf k fg es : kstdio_parse_ansi_sequence (ESC :: buf) = Ret (k, fg) -> renders (drop (Z.to_nat k) buf) es ->
    renders (ESC :: buf) (EColor fg :: es).

(** The functions of a sink change neither its type nor what is there. *)
Class SinksLaws (Y : Type) `{!Sinks Y} := {
  char_type a c x : (output_char a c x).(sk_type) = x.(sk_type);
  newline_type a x : (newline a x).(sk_type) = x.(sk_type) }.

Section views.
Context {Y : Type} `{!Sinks Y} `{!SinksLaws Y}.
Implicit Types s : kout Y.

Definition apply_event (a : Z) (e : tevent) (x : KOutputSink Y) : KOutputSink Y :=
  match e with EChar c => output_char a c x | ENewline => newline a x | EColor fg => set_color fg None x end.
Definition sinks_ok s : Prop := NoDup s.(g_sinks) /\ forall a, a ∈ s.(g_sinks) -> is_Some (s.(sinks) !! a).
(** [f] happened to the registered sinks of one type, and nothing else. *)
Definition happened (type : Z) (f : Z -> KOutputSink Y -> KOutputSink Y) s s' : Prop :=
  s'.(g_sinks) = s.(g_sinks) /\
  forall a, s'.(sinks) !! a = (fun x => if bool_decide (a ∈ s.(g_sinks)) && (x.(sk_type) =? type) then f a x else x) <$> s.(sinks) !! a.

Lemma happened_ok type f s s' : happened type f s s' -> sinks_ok s -> sinks_ok s'.
Proof. intros [Hg Hs] [Hn Hi]. split; [by rewrite Hg|]. intros a Ha. rewrite Hs, fmap_is_Some. apply Hi. by rewrite <- Hg. Qed.

Lemma happened_trans type f g s1 s2 s3 : (forall a x, (f a x).(sk_type) = x.(sk_type)) -> happened type f s1 s2 -> happened type g s2 s3 ->
  happened type (fun a x => g a (f a x)) s1 s3.
Proof.
  intros Ht [Hg Hs] [Hg' Hs']. split; [by rewrite Hg'|]. intros a. rewrite Hs', Hs, Hg. destruct (s1.(sinks) !! a) as [x|]; [|done]. cbn. f_equal.
  destruct (bool_decide (a ∈ s1.(g_sinks))); [|done]. cbn. destruct (sk_type x =? type) eqn:E; [by rewrite Ht, E|by rewrite E].
Qed.
Lemma happened_nothing type s : happened type (fun _ x => x) s s.
Proof. split; [done|]. intros a. destruct (s.(sinks) !! a); [|done]. cbn. by destruct (_ && _). Qed.

Lemma each_sink_spec type f l : forall s, NoDup l -> (forall a, a ∈ l -> is_Some (s.(sinks) !! a)) ->
  exists s', each_sink type f l s = Ret s' /\ s'.(g_sinks) = s.(g_sinks) /\
    forall a, s'.(sinks) !! a = (fun x => if bool_decide (a ∈ l) && (x.(sk_type) =? type) then f a x else x) <$> s.(sinks) !! a.
Proof.
  induction l as [|b l IH]; intros s Hnd Hl; cbn [each_sink].
  - exists s. split; [done|]. split; [done|]. intros a. rewrite bool_decide_false by apply not_elem_of_nil. by destruct (s.(sinks) !! a).
  - apply NoDup_cons in Hnd as [Hb Hnd]. destruct (Hl b) as [x Hx]; [apply elem_of_cons; by left|]. rewrite Hx. cbn [deref]. rewrite bind_Ret.
    set (s1 := if sk_type x =? type then put_sink b (f b x) s else s).
    assert (Hs1 : s1.(g_sinks) = s.(g_sinks) /\ forall a, s1.(sinks) !! a = (fun x => if bool_decide (a = b) && (x.(sk_type) =? type) then f b x else x) <$> s.(sinks) !! a).
    { unfold s1. destruct (sk_type x =? type) eqn:E; (split; [done|]); intros a.
      - unfold put_sink. cbn [sinks]. destruct (decide (a = b)) as [->|Hn].
        + rewrite lookup_insert_eq, Hx, bool_decide_true by done. cbn. by rewrite E.
        + rewrite lookup_insert_ne, bool_decide_false by done. by destruct (s.(sinks) !! a).
      - destruct (decide (a = b)) as [->|Hn]; [rewrite Hx; cbn; by rewrite E, andb_false_r|]. rewrite bool_decide_false by done. by destruct (s.(sinks) !! a). }
    destruct Hs1 as [Hg1 Hs1]. destruct (IH s1 Hnd) as (s' & Hr & Hg & Hs).
    { intros a Ha. rewrite Hs1, fmap_is_Some. apply Hl. apply elem_of_cons. by right. }
    exists s'. split; [done|]. split; [congruence|]. intros a. rewrite Hs, Hs1. destruct (s.(sinks) !! a) as [y|]; [|done]. cbn. f_equal.
    destruct (decide (a = b)) as [->|Hn].
    + rewrite (bool_decide_true (b = b)), (bool_decide_false (b ∈ l)), (bool_decide_true (b ∈ b :: l)) by (first [done | apply elem_of_cons; by left]). done.
    + rewrite (bool_decide_false (a = b)), (bool_decide_ext (a ∈ b :: l) (a ∈ l)) by (first [done | rewrite elem_of_cons; tauto]). done.
Qed.
Lemma for_each_happened type f s : sinks_ok s -> exists s', for_each_sink type f s = Ret s' /\ happened type f s s'.
Proof. intros [Hn Hi]. destruct (each_sink_spec type f s.(g_sinks) s Hn Hi) as (s' & Hr & H). by exists s'. Qed.

Lemma write_raw_spec buf : forall s, sinks_ok s -> exists s', kstdio_write_raw buf s = Ret s' /\
  happened KOUTPUT_RAW (fun a x => foldl (fun x c => output_char a c x) x buf) s s'.
Proof.
  induction buf as [|c buf IH]; intros s Hok; cbn [kstdio_write_raw foldl]; [exists s; split; [done|]; apply happened_nothing|].
  destruct (for_each_happened KOUTPUT_RAW (fun a => output_char a c) s Hok) as (s1 & -> & H1). rewrite bind_Ret.
  destruct (IH s1 (happened_ok _ _ _ _ H1 Hok)) as (s' & -> & H'). exists s'. split; [done|].
  refine (happened_trans _ _ _ _ _ _ _ H1 H'). intros. apply char_type.
Qed.

Lemma apply_event_type a e x : (apply_event a e x).(sk_type) = x.(sk_type).
Proof. destruct e; [apply char_type|apply newline_type|done]. Qed.
Lemma apply_events_type a es : forall x, (foldl (fun x e => apply_event a e x) x es).(sk_type) = x.(sk_type).
Proof. induction es as [|e es IH]; intros x; [done|]. cbn. by rewrite IH, apply_event_type. Qed.
Lemma spaces_spec k : forall s, sinks_ok s -> exists s', spaces k s = Ret s' /\
  happened KOUTPUT_TERMINAL (fun a x => foldl (fun x e => apply_event a e x) x (replicate k (EChar 32))) s s'.
Proof.
  induction k as [|k IH]; intros s Hok; cbn [spaces replicate foldl]; [exists s; split; [done|]; apply happened_nothing|].
  destruct (for_each_happened KOUTPUT_TERMINAL (fun a => output_char a 32) s Hok) as (s1 & -> & H1). rewrite bind_Ret.
  destruct (IH s1 (happened_ok _ _ _ _ H1 Hok)) as (s' & -> & H'). exists s'. split; [done|].
  refine (happened_trans _ _ _ _ _ _ _ H1 H'). intros. apply char_type.
Qed.

Lemma ansi_loop_nonneg l k fg : forall i nm nf nn f, 0 <= i -> ansi_loop l i nm nf nn f = Ret (k, fg) -> 0 <= k.
Proof.
  induction l as [|c l IH]; intros i nm nf nn f Hi; cbn [ansi_loop]; [by intros [= <- <-]|].
  case_cond; [apply IH; lia|]. case_cond; [destruct nm; [apply IH; lia|]; destruct nf; apply IH; lia|]. case_cond; [by intros [= <- <-]|].
  intros H. bind_inv. eapply IH; [|exact H]. lia.
Qed.
Lemma ansi_nonneg str k fg : kstdio_parse_ansi_sequence str = Ret (k, fg) -> 0 <= k.
Proof. apply ansi_loop_nonneg. lia. Qed.

(** One turn, and what is left. *)
Lemma write_step_spec c buf es s : renders (c :: buf) es -> sinks_ok s -> exists s' k e1 e2, write_step (c :: buf) s = Ret (s', 1 + k) /\
  0 <= k /\ es = e1 ++ e2 /\ renders (drop (Z.to_nat k) buf) e2 /\ happened KOUTPUT_TERMINAL (fun a x => foldl (fun x e => apply_event a e x) x e1) s s'.
Proof.
  intros Hr Hok. unfold write_step. inversion Hr as [|? ? es' H1 H2 H3 Hr'|? es' Hr'|? es' Hr'|? k fg es' Hp Hr']; subst.
  - rewrite (proj2 (Z.eqb_neq _ ESC)), (proj2 (Z.eqb_neq _ 10)), (proj2 (Z.eqb_neq _ 9)) by done.
    destruct (for_each_happened KOUTPUT_TERMINAL (fun a => output_char a c) s Hok) as (s1 & -> & Hh). rewrite bind_Ret.
    exists s1, 0, [EChar c], es'. split; [done|]. split; [lia|]. by rewrite drop_0.
  - destruct (for_each_happened KOUTPUT_TERMINAL newline s Hok) as (s1 & Hs & Hh). exists s1, 0, [ENewline], es'.
    cbn [Z.eqb Pos.eqb ESC]. rewrite Hs, bind_Ret. split; [done|]. split; [lia|]. by rewrite drop_0.
  - destruct (spaces_spec 4 s Hok) as (s1 & Hs & Hh). exists s1, 0, (replicate 4 (EChar 32)), es'.
    cbn [Z.eqb Pos.eqb ESC]. rewrite Hs, bind_Ret. split; [done|]. split; [lia|]. by rewrite drop_0.
  - change (ESC =? ESC) with true. rewrite Hp, bind_Ret. cbn [fst snd].
    destruct (for_each_happened KOUTPUT_TERMINAL (fun _ => set_color fg None) s Hok) as (s1 & -> & Hh). rewrite bind_Ret.
    exists s1, k, [EColor fg], es'. split; [done|]. split; [by eapply ansi_nonneg|]. done.
Qed.
Lemma write_loop_spec fuel : forall buf es s, renders buf es -> sinks_ok s -> (length buf < fuel)%nat ->
  exists s', write_loop fuel buf s = Ret s' /\ happened KOUTPUT_TERMINAL (fun a x => foldl (fun x e => apply_event a e x) x es) s s'.
Proof.
  induction fuel as [|fuel IH]; intros buf es s Hr Hok Hf; [lia|]. cbn [write_loop]. destruct buf as [|c buf].
  - inversion Hr. subst. exists s. split; [done|]. apply happened_nothing.
  - destruct (write_step_spec c buf es s Hr Hok) as (s1 & k & e1 & e2 & -> & Hk & -> & Hr' & H1). rewrite bind_Ret. cbn [fst snd].
    replace (Z.to_nat (1 + k)) with (S (Z.to_nat k)) by lia. cbn [drop].
    destruct (IH _ e2 s1 Hr' (happened_ok _ _ _ _ H1 Hok)) as (s' & -> & H'); [rewrite length_drop; cbn in Hf; lia|].
    exists s'. split; [done|]. pose proof (happened_trans _ _ _ _ _ _ (fun a x => apply_events_type a e1 x) H1 H') as [Hg Hs].
    split; [done|]. intros a. rewrite Hs. destruct (s.(sinks) !! a); [|done]. cbn. by rewrite foldl_app.
Qed.

Lemma chars_type a buf : forall x, (foldl (fun x c => output_char a c x) x buf).(sk_type) = x.(sk_type).
Proof. induction buf as [|c buf IH]; intros x; [done|]. cbn. by rewrite IH, char_type. Qed.

(** What a sink has seen of a text. *)
Definition seen (a : Z) (buf : list Z) (es : list tevent) (x : KOutputSink Y) : KOutputSink Y :=
  if x.(sk_type) =? KOUTPUT_RAW then foldl (fun x c => output_char a c x) x buf
  else if x.(sk_type) =? KOUTPUT_TERMINAL then foldl (fun x e => apply_event a e x) x es
  else x.

Lemma kstdio_write_spec s buf es : sinks_ok s -> renders buf es -> exists s', kstdio_write buf s = Ret (s', Z.of_nat (length buf)) /\
  s'.(g_sinks) = s.(g_sinks) /\ sinks_ok s' /\
  forall a, s'.(sinks) !! a = (fun x => if bool_decide (a ∈ s.(g_sinks)) then seen a buf es x else x) <$> s.(sinks) !! a.
Proof.
  intros Hok Hr. unfold kstdio_write. destruct (write_raw_spec buf s Hok) as (s1 & -> & H1). rewrite bind_Ret.
  pose proof (happened_ok _ _ _ _ H1 Hok) as Hok1. destruct (write_loop_spec (S (length buf)) buf es s1 Hr Hok1) as (s2 & -> & H2); [lia|]. rewrite bind_Ret.
  exists s2. split; [done|]. destruct H1 as [Hg1 Hs1]. pose proof (happened_ok _ _ _ _ H2 Hok1) as Hok2. destruct H2 as [Hg2 Hs2].
  split; [congruence|]. split; [done|]. intros a. rewrite Hs2, Hs1, Hg1. destruct (s.(sinks) !! a) as [x|]; [|done]. cbn. f_equal.
  destruct (bool_decide (a ∈ s.(g_sinks))); [|done]. cbn. unfold seen. destruct (Z.eqb_spec x.(sk_type) KOUTPUT_RAW) as [Hx|Hx].
  - by rewrite chars_type, Hx.
  - done.
Qed.

Lemma ansi_digits ds : forall rest i nm nf nn fg, Forall (is_digit 10) ds -> 0 <= nn -> value_msd 10 nn ds < 2 ^ 31 ->
  ansi_loop ((digit_char <$> ds) ++ rest) i nm nf nn fg = ansi_loop rest (i + Z.of_nat (length ds)) nm nf (value_msd 10 nn ds) fg.
Proof.
  induction ds as [|d ds IH]; intros rest i nm nf nn fg Hd Hn Hv; cbn [fmap list_fmap app length]; [by rewrite Z.add_0_r|].
  apply Forall_cons in Hd as [Hd0 Hd]. destruct (dec_char d Hd0) as [E _]. destruct Hd0 as [H0 H1].
  change (value_msd 10 nn (d :: ds)) with (value_msd 10 (nn * 10 + d) ds) in *.
  pose proof (value_msd_le 0 ds (nn * 10 + d) ltac:(lia) ltac:(lia) Hd). cbn [ansi_loop]. rewrite E.
  rewrite (proj2 (Z.eqb_neq _ 91)), (proj2 (Z.eqb_neq _ 59)), (proj2 (Z.eqb_neq _ 109)) by lia.
  assert (Hi : i8 (d + 48) = d + 48) by (unfold i8; rewrite Z.mod_small; lia).
  unfold int_. rewrite (proj2 (Z.leb_le _ (nn * 10))), (proj2 (Z.ltb_lt (nn * 10) _)) by lia. cbn [andb]. rewrite bind_Ret, Hi.
  replace (nn * 10 + (d + 48 - 48)) with (nn * 10 + d) by lia.
  rewrite (proj2 (Z.leb_le _ (nn * 10 + d))), (proj2 (Z.ltb_lt (nn * 10 + d) _)) by lia. cbn [andb]. rewrite bind_Ret, IH by (first [done | lia]). f_equal. lia.
Qed.

Definition sgr (m f b : Z) : list Z := 91 :: utext 10 m ++ 59 :: utext 10 f ++ 59 :: utext 10 b.
Lemma ansi_sgr m f b rest : 0 <= m < 2 ^ 31 -> 0 <= f < 2 ^ 31 -> 0 <= b < 2 ^ 31 ->
  kstdio_parse_ansi_sequence (ESC :: sgr m f b ++ 109 :: rest) = Ret (Z.of_nat (length (sgr m f b)) + 1, color_of f None).
Proof.
  intros Hm Hf Hb. unfold kstdio_parse_ansi_sequence, sgr. cbn [tail app ansi_loop Z.eqb Pos.eqb].
  destruct (utext_value m ltac:(lia)) as (dm & -> & Hdm & Hvm & _). destruct (utext_value f ltac:(lia)) as (df & -> & Hdf & Hvf & _).
  destruct (utext_value b ltac:(lia)) as (db & -> & Hdb & Hvb & _). rewrite <- app_assoc, ansi_digits by (first [done | lia]).
  cbn [app ansi_loop Z.eqb Pos.eqb]. rewrite <- app_assoc, ansi_digits by (first [done | lia]). cbn [app ansi_loop Z.eqb Pos.eqb].
  rewrite ansi_digits by (first [done | lia]). cbn [ansi_loop Z.eqb Pos.eqb]. rewrite Hvf. f_equal. f_equal.
  cbn [length]. rewrite !length_app. cbn [length]. rewrite !length_app. cbn [length]. rewrite !length_fmap. lia.
Qed.
Lemma ansi_mode m rest : 0 <= m < 2 ^ 31 -> kstdio_parse_ansi_sequence (ESC :: 91 :: utext 10 m ++ 109 :: rest) = Ret (Z.of_nat (length (utext 10 m)) + 2, None).
Proof.
  intros Hm. unfold kstdio_parse_ansi_sequence. cbn [tail ansi_loop Z.eqb Pos.eqb].
  destruct (utext_value m ltac:(lia)) as (dm & -> & Hdm & Hvm & _). rewrite ansi_digits by (first [done | lia]).
  cbn [ansi_loop Z.eqb Pos.eqb]. rewrite length_fmap. do 2 f_equal. lia.
Qed.

(** C32: Writing a text gives every registered raw sink exactly its bytes, in
    order, and every registered terminal exactly its events: characters, line
    breaks, four spaces for a tab, and a colour for each escape sequence; no
    other sink changes.  A sequence of mode, foreground and background is taken
    whole and sets the foreground of the four colours it knows; any other
    colour, a sequence with a mode only, and the background leave the terminal
    a colour that was never set. *)
Theorem kstdio_write_correct s buf es : sinks_ok s -> renders buf es ->
  (exists s', kstdio_write buf s = Ret (s', Z.of_nat (length buf)) /\ s'.(g_sinks) = s.(g_sinks) /\ sinks_ok s' /\
     forall a, s'.(sinks) !! a = (fun x => if bool_decide (a ∈ s.(g_sinks)) then seen a buf es x else x) <$> s.(sinks) !! a) /\
  (forall m f b rest, 0 <= m < 2 ^ 31 -> 0 <= f < 2 ^ 31 -> 0 <= b < 2 ^ 31 -> renders rest es ->
     renders (ESC :: sgr m f b ++ 109 :: rest) (EColor (color_of f None) :: es)) /\
  (forall m rest, 0 <= m < 2 ^ 31 -> renders rest es -> renders (ESC :: 91 :: utext 10 m ++ 109 :: rest) (EColor None :: es)).
Proof.
  intros Hok Hr. split; [by apply kstdio_write_spec|]. split.
  - intros m f b rest Hm Hf Hb Hr'. eapply renders_esc; [by apply ansi_sgr|].
    replace (Z.to_nat (Z.of_nat (length (sgr m f b)) + 1)) with (length (sgr m f b) + 1)%nat by lia. by rewrite drop_app_add.
  - intros m rest Hm Hr'. eapply renders_esc; [by apply ansi_mode|].
    replace (Z.to_nat (Z.of_nat (length (utext 10 m)) + 2)) with (S (length (utext 10 m) + 1))%nat by lia. cbn [drop]. by rewrite drop_app_add.
Qed.
End views.

(** ** The log *)
Section logging.
Context {Y : Type} `{!Sinks Y} `{!SinksLaws Y} (kbuf tmpbuf : Z) (literal : list Z -> Z).
Context (H1 : 0 <= tmpbuf) (H2 : tmpbuf + 50 < 2 ^ 32) (H3 : 0 <= kbuf) (H4 : kbuf + 512 < 2 ^ 32) (H5 : disjoint kbuf 512 tmpbuf 50).
Implicit Types s : klog_t Y.

(** The memory when [vsnprintf] is called. *)
Definition kmem (s : klog_t Y) : gmap Z Z := write_bytes s.(k_mem) kbuf (replicate (Z.to_nat KPRINTF_MAX_BUF_SIZE) 0).
(** A format and arguments that print [text] in the 255 characters there are. *)
Definition printable (s : klog_t Y) (fmt : Z) (its : list item) (text : list Z) : Prop :=
  mapped (kmem s) kbuf 512 /\ cstr (kmem s) fmt (concat (item_text <$> its)) /\
  clear_of tmpbuf kbuf 256 fmt (Z.of_nat (length (concat (item_text <$> its))) + 1) /\ Forall (item_ok tmpbuf kbuf 256 (kmem s)) its /\
  concat (item_out <$> its) = text /\ Z.of_nat (length text) <= 255.

Lemma kvprintf_spec s fmt its rest text es : printable s fmt its text -> sinks_ok s.(k_out) -> renders text es ->
  exists s', kvprintf kbuf tmpbuf fmt (concat (item_words <$> its) ++ rest) s = Ret (s', Z.of_nat (length text)) /\
    s'.(k_out).(g_sinks) = s.(k_out).(g_sinks) /\ s'.(g_loglvl) = s.(g_loglvl) /\
    forall a, s'.(k_out).(sinks) !! a = (fun x => if bool_decide (a ∈ s.(k_out).(g_sinks)) then seen a text es x else x) <$> s.(k_out).(sinks) !! a.
Proof.
  intros (Hm & Hf & Hc & Hi & <- & Hl) Hok Hr. unfold kvprintf. fold (kmem s). unfold KPRINTF_MAX_BUF_SIZE.
  destruct (vsnprintf_spec tmpbuf kbuf 256 fmt its rest (kmem s)) as (m' & -> & Ho & _ & Hfit); [done|done|lia|done|lia|done..|].
  rewrite bind_Ret. cbn [fst]. rewrite Hfit in Ho by lia. cbn [fst] in Ho. rewrite (read_str_spec _ _ _ Ho), bind_Ret.
  destruct (kstdio_write_spec s.(k_out) _ es Hok Hr) as (o & -> & Hg & _ & Hs). rewrite bind_Ret. eexists. split; [done|]. done.
Qed.

(** A message above the set level is dropped, but the line break of [klogln]
    is printed all the same.  One at or below it reaches every registered
    sink as [vsnprintf] makes it, whole, and the characters written are
    counted; [klog_set_max_level] takes no level that is not one. *)
Theorem klog_correct s ts lvl fmt :
  (forall color args, s.(g_loglvl) < lvl -> kvlog kbuf tmpbuf literal color ts lvl fmt args s = Ret (s, 0) /\
     (printable s (literal [10]) [Lit 10] [10] -> sinks_ok s.(k_out) ->
        exists s', kvlogln kbuf tmpbuf literal color ts lvl fmt args s = Ret (s', 1) /\
          forall a x, a ∈ s.(k_out).(g_sinks) -> s.(k_out).(sinks) !! a = Some x -> s'.(k_out).(sinks) !! a = Some (seen a [10] [ENewline] x))) /\
  (forall its rest text es, lvl <= s.(g_loglvl) -> s.(g_show_ts) = false -> printable s fmt its text -> sinks_ok s.(k_out) -> renders text es ->
     exists s', kvlog kbuf tmpbuf literal false ts lvl fmt (concat (item_words <$> its) ++ rest) s = Ret (s', Z.of_nat (length text)) /\
       forall a, s'.(k_out).(sinks) !! a = (fun x => if bool_decide (a ∈ s.(k_out).(g_sinks)) then seen a text es x else x) <$> s.(k_out).(sinks) !! a) /\
  (forall l, 0 <= l -> (klog_set_max_level l s).1.(g_loglvl) = Z.min l DEBUG).
Proof.
  split; [|split].
  - intros color args Hl. assert (Hv : kvlog kbuf tmpbuf literal color ts lvl fmt args s = Ret (s, 0)) by (unfold kvlog; by rewrite Z.gtb_ltb, (proj2 (Z.ltb_lt _ _))).
    split; [done|]. intros Hp Hok. unfold kvlogln. rewrite Hv, bind_Ret. cbn [fst snd].
    destruct (kvprintf_spec s (literal [10]) [Lit 10] [] [10] [ENewline] Hp Hok) as (s' & Hr & _ & _ & Hs); [repeat constructor|].
    cbn in Hr. rewrite Hr, bind_Ret. exists s'. split; [done|]. intros a x Ha Hx. rewrite Hs, Hx, bool_decide_true by done. done.
  - intros its rest text es Hl Hts Hp Hok Hr. unfold kvlog. rewrite Z.gtb_ltb, (proj2 (Z.ltb_ge _ _)), Hts, !bind_Ret by done.
    destruct (kvprintf_spec s fmt its rest text es Hp Hok Hr) as (s' & -> & _ & _ & Hs). rewrite !bind_Ret. by exists s'.
  - intros l Hl. unfold klog_set_max_level, KLOG_ENUM_END, DEBUG. rewrite Z.geb_leb. cbn [fst g_loglvl]. case_cond; lia.
Qed.
End logging.

(** ** Sinks that remember *)
#[export] Instance trace_sinks : Sinks (list tevent) := {|
  run_init _ x := (x, 0); run_destroy _ x := (x, 0);
  output_char _ c x := mkSink x.(sk_name) x.(sk_type) x.(sk_init) x.(sk_destroy) x.(sk_output_char) x.(sk_newline) x.(fgcolor) x.(bgcolor) (x.(sk_ctx) ++ [EChar c]);
  newline _ x := mkSink x.(sk_name) x.(sk_type) x.(sk_init) x.(sk_destroy) x.(sk_output_char) x.(sk_newline) x.(fgcolor) x.(bgcolor) (x.(sk_ctx) ++ [ENewline]) |}.
#[export] Instance trace_laws : SinksLaws (list tevent).
Proof. split; done. Qed.
Definition demo_sink (type : Z) : KOutputSink (list tevent) := mkSink 900 type true true true true (Some KOUTPUT_WHITE) (Some KOUTPUT_BLACK) [].
Definition demo_out_state : kout (list tevent) := mkOut (<[1 := demo_sink KOUTPUT_RAW]> {[ 2 := demo_sink KOUTPUT_TERMINAL ]}) [2; 1].
Lemma demo_sinks_ok : sinks_ok demo_out_state.
Proof.
  split; [apply (bool_decide_unpack (NoDup _)); by vm_compute|]. intros a Ha. cbn in Ha. rewrite !elem_of_cons, elem_of_nil in Ha.
  destruct Ha as [-> | [-> | []]]; by eexists.
Qed.

(** Red, a letter, a tab and a line break. *)
Definition demo_text_out : list Z := ESC :: sgr 0 31 49 ++ 109 :: [65; 9; 10].
Lemma kstdio_write_correct_witness : exists s', kstdio_write demo_text_out demo_out_state = Ret (s', 13) /\
  (sk_ctx <$> s'.(sinks) !! 1) = Some (EChar <$> demo_text_out) /\
  (fun x => (x.(fgcolor), x.(bgcolor), x.(sk_ctx))) <$> s'.(sinks) !! 2 =
    Some (Some KOUTPUT_RED, None, [EChar 65; EChar 32; EChar 32; EChar 32; EChar 32; ENewline]).
Proof.
  assert (Hr : renders [65; 9; 10] (EChar 65 :: replicate 4 (EChar 32) ++ [ENewline])) by (apply renders_char; [done..|]; apply renders_tab, renders_newline, renders_nil).
  destruct (kstdio_write_correct demo_out_state _ _ demo_sinks_ok Hr) as (_ & Hs & _).
  destruct (kstdio_write_correct demo_out_state demo_text_out _ demo_sinks_ok (Hs 0 31 49 [65; 9; 10] ltac:(lia) ltac:(lia) ltac:(lia) Hr)) as ((s' & Hw & _ & _ & Hv) & _).
  assert (E : Z.of_nat (length demo_text_out) = 13) by (by vm_compute). rewrite E in Hw.
  exists s'. split; [exact Hw|]. rewrite !Hv. clear. split; vm_compute; reflexivity.
Defined.

(** ["x=%d"] with 42, and a line break at 120. *)
Definition demo_klog (lvl : Z) : klog_t (list tevent) :=
  mkKlog (write_bytes (write_bytes (write_bytes (write_bytes ∅ 4000 (replicate 50 7)) 100 [120; 61; 37; 100; 0]) 120 [10; 0]) 1000 (replicate 512 9)) demo_out_state lvl false.
Definition demo_log_items : list item := [Lit 120; Lit 61; Dir [] 0 None PRINTF_LEN_NONE 100 (ASigned 42)].
Lemma demo_klog_mapped lvl : mapped (kmem 1000 (demo_klog lvl)) 1000 512.
Proof. apply mapped_check; by vm_compute. Qed.
Lemma demo_printable lvl : printable 1000 4000 (demo_klog lvl) 100 demo_log_items [120; 61; 52; 50] /\
  printable 1000 4000 (demo_klog lvl) 120 [Lit 10] [10].
Proof.
  split; (split; [apply demo_klog_mapped|]); (split; [apply cstr_check; (by vm_compute) || (cbn; lia)|]);
    (split; [unfold clear_of, disjoint; cbn; lia|]); (split; [|split; [by vm_compute|cbn; lia]]).
  - repeat apply Forall_cons_2; try apply Forall_nil_2; try (unfold item_ok, char_ok; lia).
    split; [|split; [|discriminate]].
    + split; [constructor|lia|discriminate|unfold conv_char; set_solver].
    + split; [by left|]. split; vm_compute; [split; [discriminate|reflexivity]|discriminate].
  - repeat apply Forall_cons_2; try apply Forall_nil_2. unfold item_ok, char_ok. lia.
Qed.
Lemma klog_correct_witness :
  (exists s', kvlog 1000 4000 (fun _ => 120) false (mkTS 0 0) WARN 100 [42] (demo_klog INFO) = Ret (s', 4) /\
     (sk_ctx <$> s'.(k_out).(sinks) !! 2) = Some (EChar <$> [120; 61; 52; 50])) /\
  (exists s', kvlogln 1000 4000 (fun _ => 120) false (mkTS 0 0) DEBUG 100 [42] (demo_klog INFO) = Ret (s', 1) /\
     (sk_ctx <$> s'.(k_out).(sinks) !! 2) = Some [ENewline]).
Proof.
  destruct (demo_printable INFO) as [Hp Hp'].
  destruct (klog_correct 1000 4000 (fun _ => 120) ltac:(lia) ltac:(lia) ltac:(lia) ltac:(lia) ltac:(unfold disjoint; lia) (demo_klog INFO) (mkTS 0 0) WARN 100) as (_ & Hw & _).
  destruct (klog_correct 1000 4000 (fun _ => 120) ltac:(lia) ltac:(lia) ltac:(lia) ltac:(lia) ltac:(unfold disjoint; lia) (demo_klog INFO) (mkTS 0 0) DEBUG 100) as (Hd & _ & _).
  split.
  - destruct (Hw demo_log_items [] [120; 61; 52; 50] (EChar <$> [120; 61; 52; 50]) ltac:(cbn; unfold WARN, INFO; lia) eq_refl Hp demo_sinks_ok) as (s' & Hr & Hv).
    + repeat (apply renders_char; [done..|]). apply renders_nil.
    + exists s'. split; [exact Hr|]. rewrite Hv. clear. vm_compute. reflexivity.
  - destruct (Hd false [42] ltac:(cbn; unfold DEBUG, INFO; lia)) as (_ & Hn). destruct (Hn Hp' demo_sinks_ok) as (s' & Hr & Hv).
    exists s'. split; [exact Hr|]. rewrite (Hv 2 (demo_sink KOUTPUT_TERMINAL)) by (first [vm_compute; reflexivity | apply elem_of_cons; by left]). clear. vm_compute. reflexivity.
Defined.

(** The time stamp: 3.25 s in a field of fourteen. *)
Definition stamped : klog_t (list tevent) := klog_set_show_ts true (demo_klog INFO).
Example time_stamp : match kvlog 1000 4000 (fun t => if decide (t = TS_FMT) then 140 else 120) false (mkTS 3 250000000) INFO 120 []
      (mkKlog (write_bytes stamped.(k_mem) 140 (TS_FMT ++ [0])) demo_out_state INFO true) with
  | Ret (s', _) => (sk_ctx <$> s'.(k_out).(sinks) !! 1) = Some (EChar <$> (replicate 7 32 ++ [51; 46; 50; 53; 48; 48; 48; 58; 32; 10]))
  | _ => False
  end.
Proof. by vm_compute. Qed.
