(* ===== verification/Vga.v ===== *)
(** * The text screen and the serial line

    [drivers/sinks/vgasink]: 25 rows of 80 cells, with the cursor of the sink;
    [drivers/sinks/rs232_sink] and [arch/x86/serial.c].  The screen is shown to
    be the window on the end of an endless paper. *)
From S2P Require Import Prelude Interrupts Kstdio.

(** ** Data *)
Definition VGA_CURS_START_REG : Z := 0x0A.
Definition VGA_MISC_PORT_R : Z := 0x3CC.
Definition VGA_MISC_PORT_W : Z := 0x3C2.
Definition VGA_IDX_REG_3 : Z := 0x3D4.
Definition VGA_COLOR_BLACK : Z := 0x0.
Definition VGA_COLOR_WHITE : Z := 0xF.

(** [vg_buf] is the memory at [buf_vaddr]: [width * height] words. *)
Record VGATextRenderingContext := mkVga {
  vg_fg : Z; vg_bg : Z; vg_width : Z; vg_height : Z; current_row : Z; current_col : Z; vg_buf : list Z }.
Definition set_buf (c : VGATextRenderingContext) (b : list Z) : VGATextRenderingContext :=
  mkVga c.(vg_fg) c.(vg_bg) c.(vg_width) c.(vg_height) c.(current_row) c.(current_col) b.
Definition set_cursor (c : VGATextRenderingContext) (row col : Z) : VGATextRenderingContext :=
  mkVga c.(vg_fg) c.(vg_bg) c.(vg_width) c.(vg_height) row col c.(vg_buf).

(** ** [vgasink.c] *)
Definition cell (b : list Z) (i : Z) : Z := nth (Z.to_nat i) b 0.
Definition put_cell (i x : Z) (b : list Z) : list Z := <[Z.to_nat i := x]> b.

Definition vgasink_clear_char_at (row col : Z) (c : VGATextRenderingContext) : VGATextRenderingContext :=
  if (row >=? c.(vg_height)) || (col >=? c.(vg_width)) then c
  else set_buf c (put_cell (c.(vg_width) * row + col) 0 c.(vg_buf)).
Definition vgasink_clear_row (row : Z) (c : VGATextRenderingContext) : VGATextRenderingContext :=
  if row >=? c.(vg_height) then c
  else foldl (fun c i => vgasink_clear_char_at row i c) c (seqZ 0 c.(vg_width)).
Definition vgasink_clear_screen (c : VGATextRenderingContext) : VGATextRenderingContext :=
  foldl (fun c i => set_buf c (put_cell i 0 c.(vg_buf))) c (seqZ 0 (c.(vg_height) * c.(vg_width))).

Definition copy_row (i : Z) (c : VGATextRenderingContext) : VGATextRenderingContext :=
  foldl (fun c k => set_buf c (put_cell (c.(vg_width) * (i - 1) + k) (cell c.(vg_buf) (c.(vg_width) * i + k)) c.(vg_buf)))
    c (seqZ 0 c.(vg_width)).
Fixpoint vgasink_scroll (lines : nat) (c : VGATextRenderingContext) : VGATextRenderingContext :=
  match lines with
  | O => c
  | S lines =>
      let c := foldl (fun c i => copy_row i c) c (seqZ 1 (c.(vg_height) - 1)) in
      vgasink_scroll lines (vgasink_clear_row (c.(vg_height) - 1) c)
  end.

Definition vgasink_newline (c : VGATextRenderingContext) : VGATextRenderingContext :=
  let c := set_cursor c (u8 (c.(current_row) + 1)) 0 in
  if c.(current_row) >=? c.(vg_height) then
    let c := vgasink_scroll 1 c in set_cursor c (u8 (c.(current_row) - 1)) c.(current_col)
  else c.

(** The word of a character: a [char] is signed, so one above 127 sets the
    whole attribute. *)
Definition vga_word (ch : Z) (c : VGATextRenderingContext) : Z :=
  u16 (Z.lor (Z.lor (i8 ch) (Z.shiftl c.(vg_fg) 8)) (Z.shiftl c.(vg_bg) 12)).
Definition vgasink_print_char (ch : Z) (c : VGATextRenderingContext) : VGATextRenderingContext :=
  if (c.(current_col) >=? c.(vg_width)) || (c.(current_row) >=? c.(vg_height)) then c
  else
    let c := set_buf c (put_cell (c.(vg_width) * c.(current_row) + c.(current_col)) (vga_word ch c) c.(vg_buf)) in
    let c := set_cursor c c.(current_row) (u8 (c.(current_col) + 1)) in
    if c.(current_col) >=? c.(vg_width) then vgasink_newline c else c.

Section init.
Context {W : Type} `{!Bus W}.
Definition vgasink_disable_cursor (w : W) : W :=
  let w := port_outb VGA_CURS_START_REG VGA_IDX_REG_3 w in
  let '(state, w) := port_inb (VGA_IDX_REG_3 + 1) w in
  port_outb (Z.lor state (Z.shiftl 1 5)) (VGA_IDX_REG_3 + 1) w.
(** [buf] is what the screen's memory holds. *)
Definition vgasink_init (buf : list Z) (w : W) : VGATextRenderingContext * W * Z :=
  let '(state, w) := port_inb VGA_MISC_PORT_R w in
  let w := port_outb (Z.lor state (Z.shiftl 1 0)) VGA_MISC_PORT_W w in
  let c := mkVga VGA_COLOR_WHITE VGA_COLOR_BLACK 80 25 0 0 buf in
  let w := vgasink_disable_cursor w in
  (vgasink_clear_screen c, w, 0).

(** *** [serial.c] *)
Definition COM1 : Z := 0x3F8.
Definition FIFO_ENABLE : Z := 1.
Definition FIFO_CLEAR_RECEIVE : Z := Z.shiftl 1 1.
Definition FIFO_CLEAR_TRANSMIT : Z := Z.shiftl 1 2.
Definition FIFO_INT_TRIGG_LVL_14B : Z := Z.shiftl 3 6.
Definition LINECTRL_DLAB : Z := Z.shiftl 1 7.
Definition MODEMCTRL_DATA_RDY : Z := 1.
Definition MODEMCTRL_REQ_SEND : Z := Z.shiftl 1 1.
Definition MODEMCTRL_OUT1 : Z := Z.shiftl 1 2.
Definition MODEMCTRL_OUT2 : Z := Z.shiftl 1 3.
Definition MODEMCTRL_LOOPBACK : Z := Z.shiftl 1 4.
Definition SERIAL_BAUD_9600 : Z := 12.
Definition SERIAL_DATA_BITS_8 : Z := 3.
Definition SERIAL_STOP_BITS_1 : Z := 0.
Definition SERIAL_STOP_BITS_2 : Z := 4.
Definition SERIAL_PARITY_NONE : Z := 0.
Record SerialPort := mkSerial { sp_port : Z; baudrate : Z; databits : Z; stopbits : Z; parity : Z }.

Definition serial_config_port (config : SerialPort) (w : W) : bool * W :=
  let port := config.(sp_port) in
  let w := port_outb 0 (port + 1) w in
  let w := port_outb LINECTRL_DLAB (port + 3) w in
  let w := port_outb (Z.land config.(baudrate) 0xFF) port w in
  let w := port_outb (Z.shiftr config.(baudrate) 8) (port + 1) w in
  let w := port_outb (Z.lor (Z.lor config.(databits) (Z.shiftl config.(stopbits) 2)) (Z.shiftl config.(parity) 3)) (port + 3) w in
  let w := port_outb (Z.lor (Z.lor (Z.lor FIFO_ENABLE FIFO_CLEAR_RECEIVE) FIFO_CLEAR_TRANSMIT) FIFO_INT_TRIGG_LVL_14B) (port + 2) w in
  let w := port_outb (Z.lor (Z.lor (Z.lor MODEMCTRL_REQ_SEND MODEMCTRL_OUT1) MODEMCTRL_OUT2) MODEMCTRL_LOOPBACK) (port + 4) w in
  let w := port_outb 0x69 port w in
  let '(b, w) := port_inb port w in
  if negb (b =? 0x69) then (false, w)
  else (true, port_outb (Z.lor (Z.lor (Z.lor MODEMCTRL_DATA_RDY MODEMCTRL_REQ_SEND) MODEMCTRL_OUT1) MODEMCTRL_OUT2) (port + 4) w).
Definition serial_write (byte port : Z) (w : W) : W := port_outb byte port w.

(** The serial sink. *)
Definition serialsink_init (w : W) : Z * W :=
  let serial_port := mkSerial COM1 SERIAL_BAUD_9600 SERIAL_DATA_BITS_8 SERIAL_STOP_BITS_1 SERIAL_PARITY_NONE in
  let '(ok, w) := serial_config_port serial_port w in (if ok then 0 else -1, w).
Definition serialsink_output_char (c : Z) (w : W) : W := serial_write c COM1 w.
End init.

(** The constants of [serial.h] are bit patterns of the line control register
    already, and are shifted again: two stop bits set the parity's bit 4. *)
Example stop_bits_shifted : (serial_config_port (mkSerial COM1 12 3 SERIAL_STOP_BITS_2 SERIAL_PARITY_NONE) (∅ : gmap Z Z)).2 !! (COM1 + 3) = Some 0x13.
Proof. vm_compute. reflexivity. Qed.

(** ** The paper

    Lines of at most 80 cells, the last one being written. *)
Definition VGA_W : nat := 80.
Definition VGA_H : nat := 25.
Definition paper := list (list Z).

Definition paper_char (x : Z) (p : paper) : paper :=
  match last p with
  | Some l => let l := l ++ [x] in
              removelast p ++ [l] ++ (if (VGA_W <=? length l)%nat then [[]] else [])
  | None => p
  end.
Definition paper_newline (p : paper) : paper := p ++ [[]].
(** The end of the paper that is in view, and its lines as they look. *)
Definition in_view (p : paper) : paper := drop (length p - VGA_H) p.
Definition blank_to (n : nat) (l : list Z) : list Z := l ++ replicate (n - length l) 0.
Definition picture (p : paper) : list Z := blank_to (VGA_W * VGA_H) (concat (blank_to VGA_W <$> in_view p)).

(** The screen shows the paper, with the cursor behind its last cell. *)
Record shows (c : VGATextRenderingContext) (p : paper) : Prop := {
  sh_size : c.(vg_width) = 80 /\ c.(vg_height) = 25;
  sh_lines : p <> [] /\ Forall (fun l => (length l <= VGA_W)%nat) p;
  sh_last : exists l, last p = Some l /\ (length l < VGA_W)%nat /\ c.(current_col) = Z.of_nat (length l);
  sh_row : c.(current_row) = Z.of_nat (length (in_view p)) - 1;
  sh_buf : c.(vg_buf) = picture p }.

(** ** The loops *)
Section loops.
Implicit Types (c : VGATextRenderingContext) (b : list Z).

Lemma put_cell_length i x b : length (put_cell i x b) = length b.
Proof. apply length_insert. Qed.
Lemma cell_put i x b j : 0 <= i < Z.of_nat (length b) -> 0 <= j -> cell (put_cell i x b) j = if decide (j = i) then x else cell b j.
Proof.
  intros Hi Hj. unfold cell, put_cell. rewrite !nth_lookup. destruct (decide (j = i)) as [->|Hn].
  - by rewrite list_lookup_insert_eq by lia.
  - by rewrite list_lookup_insert_ne by lia.
Qed.
Lemma cell_ext b b' : length b = length b' -> (forall j, 0 <= j < Z.of_nat (length b) -> cell b j = cell b' j) -> b = b'.
Proof.
  intros Hl Hc. apply (nth_ext b b' 0 0 Hl). intros n Hn. specialize (Hc (Z.of_nat n) ltac:(lia)). unfold cell in Hc. by rewrite Nat2Z.id in Hc.
Qed.
Lemma cell_app_r b b' j : Z.of_nat (length b) <= j -> cell (b ++ b') j = cell b' (j - Z.of_nat (length b)).
Proof. intros Hj. unfold cell. rewrite app_nth2 by lia. f_equal. lia. Qed.
Lemma cell_app_l b b' j : 0 <= j < Z.of_nat (length b) -> cell (b ++ b') j = cell b j.
Proof. intros Hj. unfold cell. apply app_nth1. lia. Qed.
Lemma cell_zeros n j : cell (replicate n 0) j = 0.
Proof. unfold cell. rewrite nth_lookup. destruct (_ !! _) as [x|] eqn:E; [|done]. by apply lookup_replicate in E as [-> _]. Qed.
Lemma cell_drop n b j : 0 <= j -> cell (drop n b) j = cell b (j + Z.of_nat n).
Proof. intros Hj. unfold cell. rewrite !nth_lookup, lookup_drop. f_equal. f_equal. lia. Qed.

(** Only the cells change. *)
Definition same_but_cells c c' (g : Z -> Z) : Prop :=
  c' = set_buf c c'.(vg_buf) /\ length c'.(vg_buf) = length c.(vg_buf) /\ forall j, 0 <= j < Z.of_nat (length c.(vg_buf)) -> cell c'.(vg_buf) j = g j.
Definition sized c : Prop := c.(vg_width) = 80 /\ c.(vg_height) = 25 /\ length c.(vg_buf) = 2000%nat.

Lemma same_refl c : same_but_cells c c (cell c.(vg_buf)).
Proof. split; [by destruct c|]. by split. Qed.
Lemma same_sized c c' g : same_but_cells c c' g -> sized c -> sized c'.
Proof. intros (-> & Hl & _) (Hw & Hh & Hb). split; [done|]. split; [done|]. cbn in *. congruence. Qed.
Lemma same_put c c' g i x h : same_but_cells c c' g -> 0 <= i < Z.of_nat (length c.(vg_buf)) ->
  (forall j, 0 <= j < Z.of_nat (length c.(vg_buf)) -> h j = if decide (j = i) then x else g j) -> same_but_cells c (set_buf c' (put_cell i x c'.(vg_buf))) h.
Proof.
  intros (He & Hl & Hc) Hi Hh. split; [|split].
  - rewrite He. by destruct c, c'.
  - cbn [vg_buf set_buf]. by rewrite put_cell_length.
  - intros j Hj. cbn [vg_buf set_buf]. rewrite cell_put by lia. rewrite Hh by done. case_decide; [done|]. by apply Hc.
Qed.

Lemma copy_row_spec c i : sized c -> 1 <= i < 25 ->
  same_but_cells c (copy_row i c) (fun j => if decide (80 * (i - 1) <= j < 80 * i) then cell c.(vg_buf) (j + 80) else cell c.(vg_buf) j).
Proof.
  intros (Hw & Hh & Hb) Hi. unfold copy_row. rewrite Hw. change 80 with (Z.of_nat 80) at 4.
  assert (Hn : forall n, (n <= 80)%nat -> same_but_cells c
      (foldl (fun c k => set_buf c (put_cell (c.(vg_width) * (i - 1) + k) (cell c.(vg_buf) (c.(vg_width) * i + k)) c.(vg_buf))) c (seqZ 0 (Z.of_nat n)))
      (fun j => if decide (80 * (i - 1) <= j < 80 * (i - 1) + Z.of_nat n) then cell c.(vg_buf) (j + 80) else cell c.(vg_buf) j)).
  { induction n as [|n IH]; intros Hn.
    - destruct (same_refl c) as (H1 & H2 & H3). split; [done|]. split; [done|]. intros j Hj. rewrite decide_False by lia. done.
    - rewrite seqZ_S, foldl_snoc. specialize (IH ltac:(lia)). set (c' := foldl _ _ _) in *.
      assert (Hw' : c'.(vg_width) = 80) by (destruct IH as (-> & _); done).
      apply (same_put c c' _ _ _ _ IH); rewrite Hw'; [lia|]. intros j Hj. destruct IH as (_ & _ & IH). rewrite IH by lia.
      rewrite (decide_False (P := 80 * (i - 1) <= 80 * i + (0 + Z.of_nat n) < _)) by lia.
      destruct (decide (j = 80 * (i - 1) + (0 + Z.of_nat n))) as [->|].
      + rewrite decide_True by lia. f_equal. lia.
      + destruct (decide (80 * (i - 1) <= j < 80 * (i - 1) + Z.of_nat n)); [rewrite decide_True by lia|rewrite decide_False by lia]; done. }
  specialize (Hn 80%nat ltac:(lia)). destruct Hn as (H1 & H2 & H3). split; [exact H1|]. split; [exact H2|].
  intros j Hj. rewrite H3 by done. apply decide_ext. lia.
Qed.

Lemma copy_rows_spec c : sized c ->
  same_but_cells c (foldl (fun c i => copy_row i c) c (seqZ 1 24)) (fun j => if decide (j < 1920) then cell c.(vg_buf) (j + 80) else cell c.(vg_buf) j).
Proof.
  intros Hs. assert (Hn : forall n, (n <= 24)%nat -> same_but_cells c (foldl (fun c i => copy_row i c) c (seqZ 1 (Z.of_nat n)))
      (fun j => if decide (j < 80 * Z.of_nat n) then cell c.(vg_buf) (j + 80) else cell c.(vg_buf) j)).
  { induction n as [|n IH]; intros Hn.
    - destruct (same_refl c) as (H1 & H2 & H3). split; [done|]. split; [done|]. intros j Hj. rewrite decide_False by lia. done.
    - rewrite seqZ_S, foldl_snoc. specialize (IH ltac:(lia)). set (c' := foldl _ _ _) in *.
      destruct (copy_row_spec c' (1 + Z.of_nat n) (same_sized _ _ _ IH Hs) ltac:(lia)) as (H1 & H2 & H3).
      destruct IH as (I1 & I2 & I3). split; [rewrite H1, I1; by destruct c|]. split; [congruence|]. intros j Hj. destruct Hs as (_ & _ & Hb).
      rewrite H3 by lia. destruct (decide (80 * (1 + Z.of_nat n - 1) <= j < 80 * (1 + Z.of_nat n))) as [Hd|Hd].
      + rewrite I3 by lia. rewrite decide_False, decide_True by lia. done.
      + rewrite I3 by lia. destruct (decide (j < 80 * Z.of_nat n)); [rewrite decide_True by lia|rewrite decide_False by lia]; done. }
  apply (Hn 24%nat). lia.
Qed.

(** Clearing runs of cells. *)
Lemma clear_screen_spec c : c.(vg_width) = 80 -> c.(vg_height) = 25 -> length c.(vg_buf) = 2000%nat -> (vgasink_clear_screen c) = set_buf c (replicate 2000 0).
Proof.
  intros Hw Hh Hb. unfold vgasink_clear_screen. rewrite Hw, Hh. change (25 * 80) with (Z.of_nat 2000).
  assert (Hn : forall n, (n <= 2000)%nat -> same_but_cells c (foldl (fun c i => set_buf c (put_cell i 0 c.(vg_buf))) c (seqZ 0 (Z.of_nat n)))
      (fun j => if decide (j < Z.of_nat n) then 0 else cell c.(vg_buf) j)).
  { induction n as [|n IH]; intros Hn.
    - destruct (same_refl c) as (H1 & H2 & H3). split; [done|]. split; [done|]. intros j Hj. rewrite decide_False by lia. done.
    - rewrite seqZ_S, foldl_snoc. specialize (IH ltac:(lia)). eapply same_put; [exact IH|lia|]. intros j Hj. cbn beta.
      destruct (decide (j = 0 + Z.of_nat n)); [rewrite decide_True by lia; done|].
      destruct (decide (j < Z.of_nat n)); [rewrite decide_True by lia|rewrite decide_False by lia]; done. }
  destruct (Hn 2000%nat ltac:(lia)) as (E & Hl & Hc). rewrite E. f_equal. clear E. apply cell_ext; [by rewrite Hl, Hb, length_replicate|].
  intros j Hj. rewrite Hl in Hj. rewrite Hc, cell_zeros by done. rewrite decide_True by lia. done.
Qed.
Lemma clear_row_spec c row : sized c -> 0 <= row < 25 ->
  same_but_cells c (vgasink_clear_row row c) (fun j => if decide (80 * row <= j < 80 * row + 80) then 0 else cell c.(vg_buf) j).
Proof.
  intros Hs Hr. pose proof Hs as (Hw & Hh & Hb). unfold vgasink_clear_row. rewrite Hh, Hw, Z.geb_leb, (proj2 (Z.leb_gt _ _)) by lia.
  assert (Hn : forall n, (n <= 80)%nat -> same_but_cells c (foldl (fun c i => vgasink_clear_char_at row i c) c (seqZ 0 (Z.of_nat n)))
      (fun j => if decide (80 * row <= j < 80 * row + Z.of_nat n) then 0 else cell c.(vg_buf) j)).
  { induction n as [|n IH]; intros Hn.
    - destruct (same_refl c) as (H1 & H2 & H3). split; [done|]. split; [done|]. intros j Hj. rewrite decide_False by lia. done.
    - rewrite seqZ_S, foldl_snoc. specialize (IH ltac:(lia)). set (c' := foldl _ _ _) in *. destruct (same_sized _ _ _ IH Hs) as (Hw' & Hh' & _).
      unfold vgasink_clear_char_at. rewrite Hw', Hh', !Z.geb_leb, (proj2 (Z.leb_gt 25 row)), (proj2 (Z.leb_gt 80 _)) by lia. cbn [orb].
      eapply same_put; [exact IH|lia|]. intros j Hj. cbn beta.
      destruct (decide (j = 80 * row + (0 + Z.of_nat n))); [rewrite decide_True by lia; done|].
      destruct (decide (80 * row <= j < 80 * row + Z.of_nat n)); [rewrite decide_True by lia|rewrite decide_False by lia]; done. }
  apply (Hn 80%nat). lia.
Qed.

Lemma scroll_spec c : sized c -> vgasink_scroll 1 c = set_buf c (drop 80 c.(vg_buf) ++ replicate 80 0).
Proof.
  intros Hs. pose proof Hs as (Hw & Hh & Hb). cbn [vgasink_scroll]. rewrite Hh. change (25 - 1) with 24.
  pose proof (copy_rows_spec c Hs) as Hr. set (c1 := foldl _ _ _) in *. pose proof (same_sized _ _ _ Hr Hs) as Hs1. destruct Hs1 as (Hw1 & Hh1 & Hb1).
  rewrite Hh1. change (25 - 1) with 24. pose proof (clear_row_spec c1 24 ltac:(done) ltac:(lia)) as Hc. set (c2 := vgasink_clear_row 24 c1) in *.
  destruct Hr as (R1 & R2 & R3), Hc as (C1 & C2 & C3). rewrite C1. clearbody c2. rewrite R1. clearbody c1. clear R1 C1. destruct c as [? ? ? ? ? ? b]. unfold set_buf.
  cbn [vg_buf vg_width vg_height vg_fg vg_bg current_row current_col set_buf] in *. f_equal.
  apply cell_ext; [rewrite length_app, length_drop, length_replicate; lia|]. intros j Hj. rewrite C3 by lia.
  assert (Hd : length (drop 80 b) = 1920%nat) by (rewrite length_drop; lia). destruct (Z_lt_le_dec j 1920) as [Hl|Hl].
  - rewrite decide_False, R3, decide_True, cell_app_l, cell_drop by lia. done.
  - rewrite decide_True, cell_app_r, cell_zeros by lia. done.
Qed.
End loops.

(** ** The picture *)
Definition rows (f : list (list Z)) : list Z := concat (blank_to VGA_W <$> f).
(** The lines in view above the one being written. *)
Definition front (p : paper) : paper := drop (length p - 24) p.
Definition short (p : paper) : Prop := Forall (fun l => (length l <= VGA_W)%nat) p.

Section picture.
Implicit Types (p f : paper) (l : list Z).

Lemma in_view_snoc p l : in_view (p ++ [l]) = front p ++ [l].
Proof. unfold in_view, front, VGA_H. rewrite length_app. cbn [length]. rewrite drop_app_le by lia. do 2 f_equal. lia. Qed.
Lemma front_length p : length (front p) = (length p `min` 24)%nat.
Proof. unfold front. rewrite length_drop. lia. Qed.
Lemma front_snoc p l : front (p ++ [l]) = (if (length p <? 24)%nat then front p else drop 1 (front p)) ++ [l].
Proof.
  unfold front. rewrite length_app. cbn [length]. rewrite drop_app_le by lia. f_equal. destruct (length p <? 24)%nat eqn:E.
  - apply Nat.ltb_lt in E. f_equal. lia.
  - apply Nat.ltb_ge in E. rewrite drop_drop. f_equal. lia.
Qed.
Lemma front_short p : short p -> short (front p).
Proof. apply Forall_drop. Qed.
Lemma blank_to_length n l : (length l <= n)%nat -> length (blank_to n l) = n.
Proof. intros H. unfold blank_to. rewrite length_app, length_replicate. lia. Qed.
Lemma rows_length f : short f -> length (rows f) = (80 * length f)%nat.
Proof.
  induction 1 as [|l f Hl _ IH]; [done|]. change (rows (l :: f)) with (blank_to VGA_W l ++ rows f).
  rewrite length_app, blank_to_length, IH by done. cbn [length]. unfold VGA_W. lia.
Qed.
Lemma rows_snoc f l : rows (f ++ [l]) = rows f ++ blank_to VGA_W l.
Proof. unfold rows. rewrite fmap_app, concat_app. f_equal. apply app_nil_r. Qed.
Lemma picture_snoc p l : short p -> (length l <= VGA_W)%nat ->
  picture (p ++ [l]) = rows (front p) ++ l ++ replicate (2000 - 80 * length (front p) - length l) 0.
Proof.
  intros Hp Hl. pose proof (front_length p) as Hf. unfold picture. rewrite in_view_snoc. fold (rows (front p ++ [l])). rewrite rows_snoc.
  unfold blank_to at 1. rewrite length_app, rows_length, blank_to_length by (try apply front_short; done). unfold blank_to, VGA_W, VGA_H in *.
  rewrite <- !app_assoc, <- replicate_add. do 3 f_equal. lia.
Qed.

(** [shows] without the cursor's column. *)
Definition draws (c : VGATextRenderingContext) p l : Prop :=
  c.(vg_width) = 80 /\ c.(vg_height) = 25 /\ short p /\ (length l <= VGA_W)%nat /\ c.(current_row) = Z.of_nat (length (front p)) /\
  c.(vg_buf) = rows (front p) ++ l ++ replicate (2000 - 80 * length (front p) - length l) 0.
Lemma shows_snoc c p l : shows c (p ++ [l]) <-> draws c p l /\ (length l < VGA_W)%nat /\ c.(current_col) = Z.of_nat (length l).
Proof.
  split.
  - intros [[Hw Hh] [_ Hp] (l' & Hl & Hs & Hc) Hr Hb]. rewrite last_snoc in Hl. injection Hl as <-. apply Forall_app in Hp as [Hp Hl].
    rewrite in_view_snoc, length_app in Hr. cbn [length] in Hr. rewrite picture_snoc in Hb by (try done; lia).
    split; [|done]. repeat (split; [done || lia|]). done.
  - intros [(Hw & Hh & Hp & Hl & Hr & Hb) [Hs Hc]]. split; [done| |by exists l; rewrite last_snoc| |by rewrite picture_snoc].
    + split; [by destruct p|]. apply Forall_app. split; [done|]. by apply Forall_singleton.
    + rewrite in_view_snoc, length_app. cbn [length]. lia.
Qed.

Lemma newline_draws c p l : draws c p l -> shows (vgasink_newline c) ((p ++ [l]) ++ [[]]).
Proof.
  intros (Hw & Hh & Hp & Hl & Hr & Hb). pose proof (front_length p) as Hf. pose proof (front_snoc p l) as Hs.
  assert (Hsz : length (c.(vg_buf)) = 2000%nat) by (unfold VGA_W in *; rewrite Hb, !length_app, length_replicate, rows_length by (by apply front_short); lia).
  assert (Hp' : short (p ++ [l])) by (apply Forall_app; split; [done|by apply Forall_singleton]).
  apply shows_snoc. unfold vgasink_newline, u8. rewrite Hr, Z.mod_small by lia. cbn [vg_height current_row set_cursor]. rewrite Hh, Z.geb_leb.
  destruct (length p <? 24)%nat eqn:E.
  - apply Nat.ltb_lt in E. rewrite (proj2 (Z.leb_gt _ _)) by lia. split; [|split; [cbn; unfold VGA_W; lia|done]].
    split; [done|]. split; [done|]. split; [done|]. split; [cbn; lia|]. cbn [set_cursor vg_buf current_row]. rewrite Hs, length_app. cbn [length].
    split; [lia|]. rewrite Hb, rows_snoc, <- !app_assoc. unfold blank_to, VGA_W in *. rewrite <- !app_assoc. do 2 f_equal. cbn [app].
    rewrite <- replicate_add. f_equal. lia.
  - apply Nat.ltb_ge in E. rewrite (proj2 (Z.leb_le _ _)) by lia. rewrite scroll_spec by (split; [done|]; by split).
    cbn [set_cursor set_buf vg_buf current_row current_col vg_width vg_height]. split; [|split; [cbn; unfold VGA_W; lia|done]].
    destruct (front p) as [|f0 f] eqn:Ef; [cbn in Hf; lia|]. cbn [length drop] in *.
    pose proof (front_short p Hp) as Hfs. rewrite Ef in Hfs. apply Forall_cons in Hfs as [Hf0 Hfs].
    split; [done|]. split; [done|]. split; [done|]. split; [cbn; lia|]. cbn [set_cursor set_buf vg_buf current_row]. rewrite Hs, length_app. cbn [length].
    change (drop 0 f) with f. rewrite Z.mod_small by lia. split; [lia|]. rewrite Hb, rows_snoc. change (rows (f0 :: f)) with (blank_to VGA_W f0 ++ rows f).
    rewrite <- app_assoc, drop_app_length' by (symmetry; by apply (blank_to_length VGA_W)). unfold blank_to, VGA_W in *. rewrite <- !app_assoc. do 2 f_equal. cbn [app length].
    rewrite <- !replicate_add. f_equal. lia.
Qed.
Lemma newline_shows c p : shows c p -> shows (vgasink_newline c) (paper_newline p).
Proof.
  intros Hs. destruct p as [|l p] using rev_ind; [by destruct Hs as [_ [? _]]|]. apply newline_draws. by apply shows_snoc in Hs as [? _].
Qed.

Lemma print_shows c p ch : shows c p -> shows (vgasink_print_char ch c) (paper_char (vga_word ch c) p).
Proof.
  intros Hs. destruct p as [|l p _] using rev_ind; [by destruct Hs as [_ [? _]]|]. apply shows_snoc in Hs as [(Hw & Hh & Hp & _ & Hr & Hb) [Hl Hc]].
  pose proof (front_length p) as Hf. unfold paper_char. rewrite last_snoc, removelast_last.
  unfold vgasink_print_char. rewrite Hw, Hh, Hc, Hr, !Z.geb_leb, !(proj2 (Z.leb_gt _ _)) by (unfold VGA_W in *; lia). cbn [orb].
  set (c1 := set_cursor _ _ _).
  assert (Hd : draws c1 p (l ++ [vga_word ch c])).
  { unfold VGA_W in *. assert (Hlen : length (l ++ [vga_word ch c]) = S (length l)) by (rewrite length_app; cbn [length]; lia).
    split; [done|]. split; [done|]. split; [done|]. unfold VGA_W. rewrite Hlen. split; [lia|]. split; [exact Hr|].
    cbn [c1 set_cursor set_buf vg_buf]. rewrite Hb. unfold put_cell. rewrite app_assoc, insert_app_r_alt by (rewrite length_app, rows_length by (by apply front_short); lia).
    rewrite <- !app_assoc. do 2 f_equal. rewrite length_app, rows_length by (by apply front_short).
    replace (_ - _)%nat with 0%nat by lia. destruct (2000 - 80 * length (front p) - length l)%nat as [|n] eqn:En; [lia|].
    cbn [replicate app]. change (<[0%nat:=vga_word ch c]> (0 :: replicate n 0)) with (vga_word ch c :: replicate n 0). do 2 f_equal. lia. }
  assert (Hcol : c1.(current_col) = Z.of_nat (length l) + 1) by (cbn; unfold u8; rewrite Hc; unfold VGA_W in Hl; rewrite Z.mod_small; lia).
  assert (Hlen : length (l ++ [vga_word ch c]) = S (length l)) by (rewrite length_app; cbn [length]; lia). rewrite Hcol, Hlen.
  change (vg_width c1) with c.(vg_width). rewrite Hw. unfold VGA_W in *. destruct (80 <=? S (length l))%nat eqn:E.
  - apply Nat.leb_le in E. rewrite (proj2 (Z.leb_le _ _)) by lia. apply newline_draws in Hd. by rewrite <- app_assoc in Hd.
  - apply Nat.leb_gt in E. rewrite (proj2 (Z.leb_gt _ _)) by lia. apply shows_snoc. split; [done|]. rewrite Hlen, Hcol. unfold VGA_W. lia.
Qed.
End picture.

(** ** A stream of output

    What a console asks of its sink: a character, or a new line. *)
Definition vga_event (c : VGATextRenderingContext) (e : option Z) : VGATextRenderingContext :=
  match e with Some ch => vgasink_print_char ch c | None => vgasink_newline c end.
Definition paper_event (fg bg : Z) (p : paper) (e : option Z) : paper :=
  match e with
  | Some ch => paper_char (u16 (Z.lor (Z.lor (i8 ch) (Z.shiftl fg 8)) (Z.shiftl bg 12))) p
  | None => paper_newline p
  end.

Lemma set_buf_colours c b : (set_buf c b).(vg_fg) = c.(vg_fg) /\ (set_buf c b).(vg_bg) = c.(vg_bg).
Proof. done. Qed.
Lemma shows_sized c p : shows c p -> sized c.
Proof.
  intros [[Hw Hh] [Hn Hp] _ _ Hb]. split; [done|]. split; [done|]. rewrite Hb. destruct p as [|l p _] using rev_ind; [done|].
  apply Forall_app in Hp as [Hp Hl]. apply Forall_cons in Hl as [Hl _]. rewrite (picture_snoc p l Hp Hl), !length_app, length_replicate, (rows_length _ (front_short p Hp)).
  pose proof (front_length p). unfold VGA_W in *. lia.
Qed.
Lemma shows_length c p : shows c p -> length c.(vg_buf) = 2000%nat.
Proof. intros Hs. apply (shows_sized c p Hs). Qed.
Lemma newline_sized_colours c : sized c -> (vgasink_newline c).(vg_fg) = c.(vg_fg) /\ (vgasink_newline c).(vg_bg) = c.(vg_bg).
Proof. intros Hs. unfold vgasink_newline. cbv zeta. case_match; [|done]. by rewrite scroll_spec. Qed.
Lemma newline_colours c p : shows c p -> (vgasink_newline c).(vg_fg) = c.(vg_fg) /\ (vgasink_newline c).(vg_bg) = c.(vg_bg).
Proof. intros Hs. apply newline_sized_colours. by eapply shows_sized. Qed.
Lemma print_colours c p ch : shows c p -> (vgasink_print_char ch c).(vg_fg) = c.(vg_fg) /\ (vgasink_print_char ch c).(vg_bg) = c.(vg_bg).
Proof.
  intros Hs. unfold vgasink_print_char. destruct (_ || _); [done|]. set (c1 := set_cursor (set_buf _ _) _ _). case_match; [|done]. refine (newline_sized_colours c1 _).
  destruct (shows_sized c p Hs) as (Hw & Hh & Hb). split; [done|]. split; [done|]. cbn [c1 set_cursor set_buf vg_buf]. by rewrite put_cell_length.
Qed.
(** A character is signed: the bytes from 128 on spill into the colours. *)
Lemma white_word ch c : c.(vg_fg) = 15 -> c.(vg_bg) = 0 -> vga_word ch c = if 128 <=? u8 ch then 0xFF00 + u8 ch else 0x0F00 + u8 ch.
Proof.
  intros Hf Hb. unfold vga_word. rewrite Hf, Hb. assert (Hi : i8 ch = i8 (u8 ch)) by (unfold i8, u8; f_equal; symmetry; apply Zplus_mod_idemp_l).
  rewrite Hi. assert (Hr : 0 <= u8 ch < 256) by (apply Z.mod_pos_bound; lia).
  assert (Ht : forallb (fun b => u16 (Z.lor (Z.lor (i8 b) (Z.shiftl 15 8)) (Z.shiftl 0 12)) =? if 128 <=? b then 0xFF00 + b else 0x0F00 + b) (seqZ 0 256) = true)
    by (vm_compute; reflexivity).
  rewrite forallb_forall in Ht. apply Z.eqb_eq. apply (Ht (u8 ch)). apply list_elem_of_In, elem_of_seqZ. lia.
Qed.

Lemma events_show es : forall c p, shows c p ->
  let c' := foldl vga_event c es in
  shows c' (foldl (paper_event c.(vg_fg) c.(vg_bg)) p es) /\ c'.(vg_fg) = c.(vg_fg) /\ c'.(vg_bg) = c.(vg_bg).
Proof.
  induction es as [|e es IH]; intros c p Hs; [done|]. cbn [foldl].
  assert (He : shows (vga_event c e) (paper_event c.(vg_fg) c.(vg_bg) p e) /\
      (vga_event c e).(vg_fg) = c.(vg_fg) /\ (vga_event c e).(vg_bg) = c.(vg_bg)).
  { destruct e as [ch|]; cbn [vga_event paper_event].
    - split; [by apply print_shows|]. by apply (print_colours c p).
    - split; [by apply newline_shows|]. by apply (newline_colours c p). }
  destruct He as (He & Hf & Hb). specialize (IH _ _ He). cbv zeta in IH. rewrite Hf, Hb in IH. exact IH.
Qed.

(** C18: The VGA sink is a window on the end of an endless paper.  Setting it up,
    whatever the screen's memory held, shows an empty sheet; from then on, after
    any sequence of characters and new lines, of any length, the 2000 cells of
    the screen are the last 25 lines of the paper those events write (the
    older lines have scrolled away, what is not written is blank) and the cursor
    stands behind the last character: full lines wrap, a line that would fall off
    the screen scrolls it, no cell outside the screen is touched, and no
    character is lost.  A character below 128 appears white on black; the
    sign of a higher one overwrites the colours. *)
Theorem vga_shows_paper :
  (forall (W : Type) (B : Bus W) buf w, length buf = 2000%nat ->
     let '(c, _, st) := vgasink_init buf w in st = 0 /\ shows c [[]] /\ c.(vg_fg) = 15 /\ c.(vg_bg) = 0) /\
  (forall c p es, shows c p ->
     let c' := foldl vga_event c es in shows c' (foldl (paper_event c.(vg_fg) c.(vg_bg)) p es) /\ length c'.(vg_buf) = 2000%nat) /\
  (forall ch c, c.(vg_fg) = 15 -> c.(vg_bg) = 0 -> vga_word ch c = if 128 <=? u8 ch then 0xFF00 + u8 ch else 0x0F00 + u8 ch).
Proof.
  split; [|split].
  - intros W B buf w Hb. unfold vgasink_init. destruct (port_inb VGA_MISC_PORT_R w) as [state w1]. split; [done|].
    rewrite clear_screen_spec by done. split; [|done]. apply (shows_snoc _ [] []). split; [|cbn; unfold VGA_W; lia]. split; [done|]. split; [done|]. split; [constructor|].
    split; [cbn; unfold VGA_W; lia|]. split; reflexivity.
  - intros c p es Hs. destruct (events_show es c p Hs) as [Hc _]. split; [exact Hc|]. by apply (shows_length _ (foldl (paper_event c.(vg_fg) c.(vg_bg)) p es)).
  - intros ch c Hf Hb. by apply white_word.
Qed.

(** ** On an example *)
Definition demo_screen : VGATextRenderingContext := mkVga 15 0 80 25 0 0 (replicate 2000 0).
(** "A", 24 new lines, 81 times "b": the "A" scrolls away and the last "b" wraps. *)
Definition demo_events : list (option Z) := [Some 65] ++ replicate 24 None ++ replicate 81 (Some 98).
Lemma vga_shows_paper_witness :
  shows demo_screen [[]] /\
  shows (foldl vga_event demo_screen demo_events) (foldl (paper_event 15 0) [[]] demo_events) /\
  (cell (foldl vga_event demo_screen demo_events).(vg_buf) 0, cell (foldl vga_event demo_screen demo_events).(vg_buf) 1920,
   (foldl vga_event demo_screen demo_events).(current_row), (foldl vga_event demo_screen demo_events).(current_col)) = (0, 0x0F62, 24, 1).
Proof.
  assert (Hs : shows demo_screen [[]]).
  { apply (shows_snoc _ [] []). split; [|cbn; unfold VGA_W; lia]. split; [reflexivity|]. split; [reflexivity|]. split; [constructor|].
    split; [cbn; unfold VGA_W; lia|]. split; reflexivity. }
  split; [exact Hs|]. destruct vga_shows_paper as (_ & Hv & _). split; [exact (proj1 (Hv demo_screen [[]] demo_events Hs))|].
  vm_compute. reflexivity.
Defined.
