(* ===== verification/Storage.v ===== *)
(** * Block devices and partitions

    [kernel/storage/] and [kernel/utils/uuid.c]: the drivers and their block
    devices, the master boot record, the partitions made from it and the
    devices that can be mounted.  The state is the virtual file system's, the
    devices being what its drivers keep. *)
From S2P Require Import Prelude Alloc CString KStdlib Kmalloc LinkedList HashTable Path Paging Falloc Proc User Fs Printf.

Definition EINVAL : Z := 22.

(** ** Data

    The [read] and [write] of a [BlockDevice] are code of its driver; those of
    a [MountableBlockDevice] are [partition_generic_read] and
    [partition_generic_write] once they are set. *)
Record BlockDevice := mkBD { bd_name : Z; bd_type : Z; bd_sectorsize : Z; bd_uuid : Z; bd_sector_count : Z; extra : Z }.
Record MountableBlockDevice := mkMB {
  suffix : Z; offset : Z; mb_uuid : Z; mb_sector_count : Z; mb_sectorsize : Z; mb_rw : bool; mb_parent : Z }.
Record Partition := mkPart { lba : Z; sector_count : Z; pt_suffix : Z; pt_uuid : Z }.
Record PartitionTable := mkPT { pt_type : list Z; pt_partitions : Z; partition_count : Z; pt_array : list Partition }.
Record MBRPartition := mkMP {
  drive_attrs : Z; chs_head_start : Z; chs_start_sector : Z; chs_start_cylinder : Z; system_id : Z;
  chs_ending_head : Z; chs_ending_sector : Z; chs_ending_cylinder : Z; lba_start : Z; mp_sector_count : Z }.
Record MBR := mkMBR { bootstrap : list Z; uid : Z; reserved : Z; partitions : list MBRPartition; signature : Z }.

Definition zero_part : Partition := mkPart 0 0 0 0.
Definition sizeof_Partition : Z := 24.
Definition sizeof_BlockDevice : Z := 36.
Definition sizeof_MountableBlockDevice : Z := 40.
Definition sizeof_MBR : nat := 512.
Definition UUID_LENGTH : Z := 36.
(** ["%08X-%04X-%04X-%04X-%012X"], ["UUID="], ["mbr"]. *)
Definition UUID_FMT : list Z :=
  [37; 48; 56; 88; 45; 37; 48; 52; 88; 45; 37; 48; 52; 88; 45; 37; 48; 52; 88; 45; 37; 48; 49; 50; 88].
Definition UUID_EQ : list Z := [85; 85; 73; 68; 61].
Definition MBR_NAME : list Z := [109; 98; 114].

(** The structures as bytes: a packed structure's fields in order, the lower
    bits of a word first. *)
Definition le (l : list Z) : Z := foldr (fun b acc => b + 256 * acc) 0 l.
Definition field (off n : nat) (l : list Z) : Z := le (take n (drop off l)).
Definition mbr_partition (l : list Z) : MBRPartition :=
  mkMP (field 0 1 l) (field 1 1 l) (field 2 2 l mod 2 ^ 6) (field 2 2 l / 2 ^ 6) (field 4 1 l)
    (field 5 1 l) (field 6 2 l mod 2 ^ 6) (field 6 2 l / 2 ^ 6) (field 8 4 l) (field 12 4 l).
Definition mbr_of (l : list Z) : MBR :=
  mkMBR (take 440 l) (field 440 4 l) (field 444 2 l)
    ((fun i => mbr_partition (take 16 (drop (446 + 16 * i) l))) <$> seq 0 4) (field 510 2 l).

(** ** State *)
Record BlockDeviceDriver := mkBDD { blkdevs : LinkedList }.
Record storage (W : Type) := mkST {
  blkdev_at : gmap Z BlockDevice; mblkdev_at : gmap Z MountableBlockDevice; blkdrv_at : gmap Z BlockDeviceDriver;
  g_blkdev_drivers : LinkedList; g_mountable_blkdevs : LinkedList; hw : W }.
Arguments mkST {W} _ _ _ _ _ _.
Arguments blkdev_at {W} _.
Arguments mblkdev_at {W} _.
Arguments blkdrv_at {W} _.
Arguments g_blkdev_drivers {W} _.
Arguments g_mountable_blkdevs {W} _.
Arguments hw {W} _.

Section setters.
Context {W : Type}.
Implicit Types (d : storage W).
Definition set_blkdevs d (t : gmap Z BlockDevice) := mkST t d.(mblkdev_at) d.(blkdrv_at) d.(g_blkdev_drivers) d.(g_mountable_blkdevs) d.(hw).
Definition set_mblkdevs d (t : gmap Z MountableBlockDevice) := mkST d.(blkdev_at) t d.(blkdrv_at) d.(g_blkdev_drivers) d.(g_mountable_blkdevs) d.(hw).
Definition set_blkdrvs d (t : gmap Z BlockDeviceDriver) := mkST d.(blkdev_at) d.(mblkdev_at) t d.(g_blkdev_drivers) d.(g_mountable_blkdevs) d.(hw).
Definition set_gdrivers d (ll : LinkedList) := mkST d.(blkdev_at) d.(mblkdev_at) d.(blkdrv_at) ll d.(g_mountable_blkdevs) d.(hw).
Definition set_gmount d (ll : LinkedList) := mkST d.(blkdev_at) d.(mblkdev_at) d.(blkdrv_at) d.(g_blkdev_drivers) ll d.(hw).
Definition set_hw d (w : W) := mkST d.(blkdev_at) d.(mblkdev_at) d.(blkdrv_at) d.(g_blkdev_drivers) d.(g_mountable_blkdevs) w.
End setters.

(** What the pointers of a device's driver lead to: a read gives its status
    and the bytes it left in the buffer. *)
Class BlockDevices (W : Type) := {
  dev_read : Z -> BlockDevice -> Z -> Z -> W -> outcome (W * (Z * list Z));
  dev_write : Z -> BlockDevice -> Z -> Z -> list Z -> W -> outcome (W * Z) }.
Class BlockDrivers (S : Type) := {
  blkdrv_init : Z -> option (S -> outcome (S * Z));
  blkdrv_destroy : Z -> option (S -> outcome (S * Z)) }.

(** ** [uuid.c] *)
Section uuid.
(** Where [vsnprintf] has its buffer and where the format string is. *)
Context (tmpbuf fmt : Z).
Definition uuid_format (m : gmap Z Z) (a b c d e dest : Z) : outcome (gmap Z Z * Z) :=
  if dest =? 0 then Ret (m, - EINVAL)
  else snprintf tmpbuf m dest (UUID_LENGTH + 1) fmt [a; b; c; d; u32 e; u32 (e / 2 ^ 32)].
End uuid.

Definition uuid_gen (m : gmap Z Z) (dest : Z) : outcome (gmap Z Z * Z) := Panic.

(** A string written to a buffer of its own.  The memory behind the buffer is
    there; [uuid_text_spec] shows it is not used. *)
Definition uuid_mem : gmap Z Z :=
  write_bytes (write_bytes (write_bytes ∅ 1000 (replicate 50 0)) 100 (UUID_FMT ++ [0])) 500 (replicate 74 0).
Definition uuid_text (a b c d e : Z) : outcome (list Z) :=
  r ← uuid_format 1000 100 uuid_mem a b c d e 500; read_str r.1 500.

(** ** [mbr.c] *)
Definition mbr_validate (mbr : MBR) : Z :=
  if negb (mbr.(signature) =? 0xAA55) then - EINVAL
  else if negb (mbr.(reserved) =? 0) && negb (mbr.(signature) =? 0x5A5A) then - EINVAL
  else 0.

Definition mbr_uuid_for_disk (mbr : MBR) : outcome (list Z) := uuid_text mbr.(uid) 0 0 0 0.

Definition boot (mbr : MBR) (i : nat) : Z := nth i mbr.(bootstrap) 0.
(** The checksum is the entry's first two bytes as a word. *)
Definition mbr_uuid_for_part (mbr : MBR) (part_idx : Z) : outcome (Z + list Z) :=
  if part_idx >=? 4 then Ret (inl (- EINVAL))
  else
    p ← deref (mbr.(partitions) !! Z.to_nat part_idx);
    let partchecksum := p.(drive_attrs) + 256 * p.(chs_head_start) in
    let c := Z.lxor (Z.lxor (Z.lxor (boot mbr 0) (boot mbr 1)) (boot mbr 2)) (boot mbr 3) in
    let d := Z.lxor (Z.lxor (Z.lxor (boot mbr 4) (boot mbr 5)) (boot mbr 6)) (boot mbr 7) in
    t ← uuid_text mbr.(uid) partchecksum c d (part_idx + 1);
    Ret (inr t).

(** [dig_count]: a word has ten digits at most. *)
Fixpoint dig_loop (fuel : nat) (tmpn dig_count : Z) : Z :=
  match fuel with
  | O => dig_count
  | S fuel => if tmpn =? 0 then dig_count else dig_loop fuel (tmpn / 10) (dig_count + 1)
  end.
Definition dig_count (n : Z) : Z := dig_loop 10 n 0.
(** The block of [partition_generate_suffix] and what is written to it; one
    byte behind it is there, as [partition 0] writes it. *)
Definition suffix_text (n : Z) : outcome (list Z) :=
  m ← store (write_bytes ∅ BUF (replicate (Z.to_nat (dig_count n + 3)) 0)) BUF 112;
  r ← Conv.itoa m (i32 n) (BUF + 1) 10;
  read_str r.1 BUF.

Section ops.
Context {H W : Type} `{!Allocator H} `{!BlockDevices W}.
Notation vstate := (vstate H (storage W)).

Definition up (f : storage W -> storage W) (s : vstate) : vstate := set_drv s (f s.(drv)).
(** A string in a block whose room is taken. *)
Definition put_str (p : Z) (t : list Z) (s : vstate) : vstate := set_strs s (<[p := t]> s.(strs)).

Definition read_dev (dev l n : Z) (s : vstate) : outcome (vstate * (Z * list Z)) :=
  x ← deref (s.(drv).(blkdev_at) !! dev);
  r ← dev_read dev x l n s.(drv).(hw);
  Ret (up (fun d => set_hw d r.1) s, r.2).
Definition write_dev (dev l n : Z) (src : list Z) (s : vstate) : outcome (vstate * Z) :=
  x ← deref (s.(drv).(blkdev_at) !! dev);
  r ← dev_write dev x l n src s.(drv).(hw);
  Ret (up (fun d => set_hw d r.1) s, r.2).

(** Bytes read into [size] bytes that must be filled up to [need]. *)
Definition filled (bytes : list Z) (size : Z) (need : nat) : outcome unit :=
  if (Z.of_nat (length bytes) <=? size) && (need <=? length bytes)%nat then Ret tt else Undef.

Definition mbr_read (dev : Z) (s : vstate) : outcome (vstate * (Z * option MBR)) :=
  x ← deref (s.(drv).(blkdev_at) !! dev);
  if x.(bd_sectorsize) >? 512 then
    r ← kmalloc_ x.(bd_sectorsize) (vheap s);
    let s := set_vheap s r.1 in
    let buf := r.2 in
    if buf =? 0 then Ret (s, (- ENOMEM, None))
    else
      r ← read_dev dev 0 1 s;
      let '(s, (st, bytes)) := r : vstate * (Z * list Z) in
      if st <? 0 then s ← free_block s buf; Ret (s, (st, None))
      else
        _ ← filled bytes x.(bd_sectorsize) sizeof_MBR;
        s ← free_block s buf;
        Ret (s, (0, Some (mbr_of (take sizeof_MBR bytes))))
  else
    r ← read_dev dev 0 1 s;
    let '(s, (st, bytes)) := r : vstate * (Z * list Z) in
    if st <? 0 then Ret (s, (st, None))
    else _ ← filled bytes 512 sizeof_MBR; Ret (s, (0, Some (mbr_of bytes))).

(** ** [partition.c] *)
Definition partition_generate_suffix (n : Z) (s : vstate) : outcome (vstate * Z) :=
  r ← kcalloc_ (dig_count n + 2) (vheap s);
  let s := set_vheap s r.1 in
  if r.2 =? 0 then Ret (s, 0) else t ← suffix_text n; Ret (put_str r.2 t s, r.2).

Fixpoint destroy_parts (n : nat) (i : Z) (l : list Partition) (s : vstate) : outcome vstate :=
  match n with
  | O => Ret s
  | S n =>
      p ← deref (l !! Z.to_nat i);
      s ← (if p.(pt_suffix) =? 0 then Ret s else free_str s p.(pt_suffix));
      s ← (if p.(pt_uuid) =? 0 then Ret s else free_str s p.(pt_uuid));
      destroy_parts n (i + 1) l s
  end.
Definition partitiontable_destroy (pt : PartitionTable) (s : vstate) : outcome (vstate * Z) :=
  s ← destroy_parts (Z.to_nat pt.(partition_count)) 0 pt.(pt_array) s;
  s ← (if pt.(pt_partitions) =? 0 then Ret s else free_block s pt.(pt_partitions));
  Ret (s, 0).

Definition allocated (p : MBRPartition) : bool := negb (p.(lba_start) =? 0) && negb (p.(mp_sector_count) =? 0).
(** The slots that count as partitions. *)
Definition alloc_slots (l : list MBRPartition) : list MBRPartition := filter (fun p => allocated p = true) l.
Definition set_array (pt : PartitionTable) (l : list Partition) : PartitionTable :=
  mkPT pt.(pt_type) pt.(pt_partitions) pt.(partition_count) l.

(** The slots of the record from here on; [idx] is the next element. *)
Fixpoint fill_parts (mbr : MBR) (slots : list MBRPartition) (idx : Z) (pt : PartitionTable) (s : vstate) : outcome (vstate * (PartitionTable * Z)) :=
  match slots with
  | [] => Ret (s, (pt, 0))
  | mp :: slots =>
      if negb (allocated mp) then fill_parts mbr slots idx pt s
      else
        part ← deref (pt.(pt_array) !! Z.to_nat idx);
        r ← partition_generate_suffix idx s;
        let '(s, sfx) := r : vstate * Z in
        let pt := set_array pt (<[Z.to_nat idx := mkPart part.(lba) part.(sector_count) sfx part.(pt_uuid)]> pt.(pt_array)) in
        if sfx =? 0 then r ← partitiontable_destroy pt s; Ret (r.1, (pt, - ENOMEM))
        else
          r ← kmalloc_ (UUID_LENGTH + 1) (vheap s);
          let s := set_vheap s r.1 in
          let u := r.2 in
          let pt := set_array pt (<[Z.to_nat idx := mkPart part.(lba) part.(sector_count) sfx u]> pt.(pt_array)) in
          if u =? 0 then r ← partitiontable_destroy pt s; Ret (r.1, (pt, - ENOMEM))
          else
            t ← mbr_uuid_for_part mbr idx;
            let s := match t with inr t => put_str u t s | inl _ => s end in
            let pt := set_array pt (<[Z.to_nat idx := mkPart mp.(lba_start) mp.(mp_sector_count) sfx u]> pt.(pt_array)) in
            fill_parts mbr slots (idx + 1) pt s
  end.

Definition partitiontable_try_create_mbr (dev : Z) (pt : PartitionTable) (s : vstate) : outcome (vstate * (PartitionTable * Z)) :=
  r ← mbr_read dev s;
  let '(s, (st, mbr)) := r : vstate * (Z * option MBR) in
  if st <? 0 then Ret (s, (pt, st))
  else
    mbr ← deref mbr;
    let st := mbr_validate mbr in
    if st <? 0 then Ret (s, (pt, st))
    else
      let count := Z.of_nat (length (alloc_slots mbr.(partitions))) in
      let pt := mkPT MBR_NAME pt.(pt_partitions) count pt.(pt_array) in
      if count =? 0 then Ret (s, (pt, 0))
      else
        r ← kcalloc_ (sizeof_Partition * count) (vheap s);
        let s := set_vheap s r.1 in
        if r.2 =? 0 then Ret (s, (mkPT MBR_NAME 0 count [], - ENOMEM))
        else fill_parts mbr mbr.(partitions) 0 (mkPT MBR_NAME r.2 count (replicate (Z.to_nat count) zero_part)) s.
Definition partitiontable_create (dev : Z) (pt : PartitionTable) (s : vstate) := partitiontable_try_create_mbr dev pt s.

Definition partition_generic_read (x : MountableBlockDevice) (l n : Z) (s : vstate) : outcome (vstate * (Z * list Z)) :=
  read_dev x.(mb_parent) (u64 (x.(offset) + l)) n s.
Definition partition_generic_write (x : MountableBlockDevice) (l n : Z) (src : list Z) (s : vstate) : outcome (vstate * Z) :=
  write_dev x.(mb_parent) (u64 (x.(offset) + l)) n src s.
(** [part->read(part, lba, n, buf)]. *)
Definition part_read (part l n : Z) (s : vstate) : outcome (vstate * (Z * list Z)) :=
  x ← deref (s.(drv).(mblkdev_at) !! part);
  if x.(mb_rw) : bool then partition_generic_read x l n s else Undef.

(** ** [blkdev_drv.c] *)
Definition blkdevdrv_new_blkdev (d : Z) (s : vstate) : outcome (vstate * Z) :=
  r ← kcalloc_ sizeof_BlockDevice (vheap s);
  let s := set_vheap s r.1 in
  let dev := r.2 in
  if dev =? 0 then Ret (s, 0)
  else
    x ← deref (s.(drv).(blkdrv_at) !! d);
    r ← run_ll (fun ls => linkedlist_add dev ls x.(blkdevs)) (up (fun t => set_blkdevs t (<[dev := mkBD 0 0 0 0 0 0]> t.(blkdev_at))) s);
    let '(s, ll, st) := r : vstate * LinkedList * Z in
    let s := up (fun t => set_blkdrvs t (<[d := mkBDD ll]> t.(blkdrv_at))) s in
    if st <? 0 then s ← free_block s dev; Ret (up (fun t => set_blkdevs t (delete dev t.(blkdev_at))) s, 0)
    else Ret (s, dev).

Definition blkdevdrv_free_blkdev (dev d : Z) (s : vstate) : outcome (vstate * Z) :=
  s ← free_block s dev;
  let s := up (fun t => set_blkdevs t (delete dev t.(blkdev_at))) s in
  x ← deref (s.(drv).(blkdrv_at) !! d);
  r ← run_ll (fun ls => linkedlist_remove_by_data dev ls x.(blkdevs)) s;
  let '(s, ll, st) := r : vstate * LinkedList * Z in
  Ret (up (fun t => set_blkdrvs t (<[d := mkBDD ll]> t.(blkdrv_at))) s, st).

(** ** [blkdevm.c] *)
Definition blkdevm_new_mountable_blkdev (s : vstate) : outcome (vstate * Z) :=
  r ← kcalloc_ sizeof_MountableBlockDevice (vheap s);
  let s := set_vheap s r.1 in
  let mb := r.2 in
  if mb =? 0 then Ret (s, 0)
  else
    r ← run_ll (fun ls => linkedlist_add mb ls s.(drv).(g_mountable_blkdevs)) s;
    let '(s, ll, st) := r : vstate * LinkedList * Z in
    let s := up (fun t => set_gmount t ll) s in
    if st <? 0 then s ← free_block s mb; Ret (s, 0)
    else Ret (up (fun t => set_mblkdevs t (<[mb := mkMB 0 0 0 0 0 false 0]> t.(mblkdev_at))) s, mb).

Definition blkdevm_free_mountable_blkdev (mb : Z) (s : vstate) : outcome vstate :=
  r ← run_ll (fun ls => linkedlist_remove_by_data mb ls s.(drv).(g_mountable_blkdevs)) s;
  let '(s, ll, _) := r : vstate * LinkedList * Z in
  s ← free_block (up (fun t => set_gmount t ll) s) mb;
  Ret (up (fun t => set_mblkdevs t (delete mb t.(mblkdev_at))) s).

(** The list changes below the loop: the node is read again for its [next]. *)
Fixpoint children_loop (fuel : nat) (dev p : Z) (s : vstate) : outcome vstate :=
  match fuel with
  | O => Undef
  | S fuel =>
      if p =? 0 then Ret s
      else
        nd ← deref (s.(lnodes) !! p);
        s ← (if nd.(node_data) =? 0 then Ret s
             else
               x ← deref (s.(drv).(mblkdev_at) !! nd.(node_data));
               if x.(mb_parent) =? dev then
                 s ← free_str s x.(suffix); blkdevm_free_mountable_blkdev nd.(node_data) s
               else Ret s);
        nd ← deref (s.(lnodes) !! p);
        children_loop fuel dev nd.(next) s
  end.
Definition blkdevm_free_blkdev_children (dev : Z) (s : vstate) : outcome vstate :=
  children_loop (S (size s.(lnodes))) dev s.(drv).(g_mountable_blkdevs).(root) s.
End ops.

Section manager.
Context {H W : Type} `{!Allocator H} `{!BlockDevices W} `{!BlockDrivers (vstate H (storage W))}.
Notation vstate := (vstate H (storage W)).

Definition blkdevm_register_blkdev_driver (d : Z) (s : vstate) : outcome (vstate * Z) :=
  r ← run_ll (fun ls => linkedlist_add d ls s.(drv).(g_blkdev_drivers)) s;
  let '(s, ll, st) := r : vstate * LinkedList * Z in
  let s := up (fun t => set_gdrivers t ll) s in
  if st <? 0 then Ret (s, st)
  else
    match blkdrv_init d with
    | None => Ret (s, 0)
    | Some init =>
        r ← init s;
        let '(s, st) := r : vstate * Z in
        if st <? 0 then
          r ← run_ll (fun ls => linkedlist_remove_by_data d ls s.(drv).(g_blkdev_drivers)) s;
          let '(s, ll, _) := r : vstate * LinkedList * Z in
          Ret (up (fun t => set_gdrivers t ll) s, st)
        else Ret (s, 0)
    end.

Definition blkdevm_unregister_blkdev_driver (d : Z) (s : vstate) : outcome (vstate * Z) :=
  r ← run_ll (fun ls => linkedlist_remove_by_data d ls s.(drv).(g_blkdev_drivers)) s;
  let '(s, ll, st) := r : vstate * LinkedList * Z in
  let s := up (fun t => set_gdrivers t ll) s in
  if st <? 0 then Ret (s, st)
  else match blkdrv_destroy d with None => Ret (s, 0) | Some destroy => destroy s end.

(** The partitions from the [i]th on. *)
Fixpoint enumerate_loop (n : nat) (i dev : Z) (pt : PartitionTable) (s : vstate) : outcome (vstate * Z) :=
  match n with
  | O => r ← partitiontable_destroy pt s; Ret (r.1, 0)
  | S n =>
      part ← deref (pt.(pt_array) !! Z.to_nat i);
      x ← deref (s.(drv).(blkdev_at) !! dev);
      sfx ← deref (s.(strs) !! part.(pt_suffix));
      r ← strdup sfx s;
      let '(s, copy) := r : vstate * Z in
      if copy =? 0 then r ← partitiontable_destroy pt s; Ret (r.1, - ENOMEM)
      else
        r ← blkdevm_new_mountable_blkdev s;
        let '(s, new) := r : vstate * Z in
        if new =? 0 then
          s ← free_str s copy; r ← partitiontable_destroy pt s; Ret (r.1, - ENOMEM)
        else
          let mb := mkMB copy part.(lba) 0 part.(sector_count) x.(bd_sectorsize) true dev in
          enumerate_loop n (i + 1) dev pt (up (fun t => set_mblkdevs t (<[new := mb]> t.(mblkdev_at))) s)
  end.
Definition blkdevm_enumerate_partitions (dev : Z) (s : vstate) : outcome (vstate * Z) :=
  r ← partitiontable_create dev (mkPT [] 0 0 []) s;
  let '(s, (pt, st)) := r : vstate * (PartitionTable * Z) in
  if st <? 0 then Ret (s, st)
  else
    s ← blkdevm_free_blkdev_children dev s;
    enumerate_loop (Z.to_nat pt.(partition_count)) 0 dev pt s.

(** The first device of a driver, and of the drivers in order, that [hit]
    accepts. *)
Definition find_blkdev (s : vstate) (hit : BlockDevice -> outcome bool) : outcome Z :=
  for_each s s.(drv).(g_blkdev_drivers) (fun found d =>
    x ← deref (s.(drv).(blkdrv_at) !! d);
    r ← for_each s x.(blkdevs) (fun found dev =>
          b ← deref (s.(drv).(blkdev_at) !! dev);
          eq ← hit b;
          Ret (if eq : bool then (dev, true) else (found, false))) found;
    Ret (r, negb (r =? 0))) 0.
Definition blkdevm_find_raw_blkdev_by_name (name : list Z) (s : vstate) : outcome Z :=
  find_blkdev s (fun b =>
    if b.(bd_name) =? 0 then Ret false else n ← deref (s.(strs) !! b.(bd_name)); str_eq n name).
(** The string behind the prefix, if the pointer is still in the string. *)
Definition blkdevm_find_raw_blkdev_by_uuid (uuid : option (list Z)) (s : vstate) : outcome Z :=
  find_blkdev s (fun b =>
    if b.(bd_uuid) =? 0 then Ret false else n ← deref (s.(strs) !! b.(bd_uuid)); u ← deref uuid; str_eq n u).
(** [id + sizeof("UUID=")]: one character past the prefix. *)
Definition raw_uuid (id : list Z) : option (list Z) :=
  if (length UUID_EQ <? length id)%nat then Some (drop (S (length UUID_EQ)) id) else None.
Definition blkdevm_find_raw_blkdev (id : list Z) (s : vstate) : outcome Z :=
  starts ← str_starts id UUID_EQ;
  if starts : bool then blkdevm_find_raw_blkdev_by_uuid (raw_uuid id) s
  else blkdevm_find_raw_blkdev_by_name id s.

Definition blkdevm_find_mountable_blkdev_by_uuid (uuid : option (list Z)) (s : vstate) : outcome Z :=
  for_each s s.(drv).(g_mountable_blkdevs) (fun found mb =>
    x ← deref (s.(drv).(mblkdev_at) !! mb);
    n ← deref (s.(strs) !! x.(mb_uuid));
    u ← deref uuid;
    eq ← str_eq n u;
    Ret (if eq : bool then (mb, true) else (found, false))) 0.

Definition MAX_BLKDEV_NAME_LEN : Z := 128.
(** The buffer on the stack, and behind it the parent's name, the suffix and
    the name looked for. *)
Definition PARENT : Z := 1000.
Definition SUFFIX (parent : list Z) : Z := PARENT + Z.of_nat (length parent) + 1.
Definition NAME (parent sfx : list Z) : Z := SUFFIX parent + Z.of_nat (length sfx) + 1.
Definition name_mem (buf parent sfx name : list Z) : gmap Z Z :=
  write_bytes (write_bytes (write_bytes (write_bytes ∅ BUF buf) PARENT (parent ++ [0])) (SUFFIX parent) (sfx ++ [0]))
    (NAME parent sfx) (name ++ [0]).
(** The name of a device put together in the buffer, and the buffer after. *)
Definition full_name_is (buf parent sfx name : list Z) : outcome (bool * list Z) :=
  let m := name_mem buf parent sfx name in
  size ← strlen m PARENT;
  r ← strncpy m BUF PARENT MAX_BLKDEV_NAME_LEN;
  r ← strncat r.1 BUF (SUFFIX parent) (MAX_BLKDEV_NAME_LEN - size);
  c ← strcmp r.1 BUF (NAME parent sfx);
  buf ← load_bytes (length buf) r.1 BUF;
  Ret (c =? 0, buf).
(** [stack] is what the buffer holds at first. *)
Definition blkdevm_find_mountable_blkdev_by_name (stack name : list Z) (s : vstate) : outcome Z :=
  r ← for_each s s.(drv).(g_mountable_blkdevs) (fun a mb =>
    x ← deref (s.(drv).(mblkdev_at) !! mb);
    b ← deref (s.(drv).(blkdev_at) !! x.(mb_parent));
    pn ← deref (s.(strs) !! b.(bd_name));
    size ← strlen (scratch pn []) BUF;
    if size >? MAX_BLKDEV_NAME_LEN then Ret (a, false)
    else
      sfx ← deref (s.(strs) !! x.(suffix));
      r ← full_name_is a.2 pn sfx name;
      Ret (if r.1 : bool then ((mb, r.2), true) else ((a.1, r.2), false))) (0, stack);
  Ret r.1.
Definition blkdevm_find_mountable_blkdev (stack id : list Z) (s : vstate) : outcome Z :=
  starts ← str_starts id UUID_EQ;
  if starts : bool then blkdevm_find_mountable_blkdev_by_uuid (raw_uuid id) s
  else blkdevm_find_mountable_blkdev_by_name stack id s.
End manager.

(** ** What the strings are *)

(** A number in at least [w] hexadecimal digits. *)
Definition hex (w v : Z) : list Z := padded true w (utext 16 v).
Definition uuid_chars (a b c d e : Z) : list Z :=
  hex 8 a ++ [45] ++ hex 4 b ++ [45] ++ hex 4 c ++ [45] ++ hex 4 d ++ [45] ++ hex 12 (u32 e).

Lemma lsd_bound base j : 2 <= base -> forall k n, 0 <= n < base ^ Z.of_nat j -> (length (lsd k n base) <= j)%nat.
Proof.
  intros Hb. induction j as [|j IH]; intros [|k] n Hn; cbn [lsd length]; try lia.
  - rewrite (proj2 (Z.eqb_eq n 0)) by (change (base ^ Z.of_nat 0) with 1 in Hn; lia). cbn. lia.
  - case_match; cbn [length]; [lia|]. apply le_n_S, IH. split; [apply Z.div_pos; lia|]. apply Z.div_lt_upper_bound; [lia|].
    replace (Z.of_nat (S j)) with (Z.succ (Z.of_nat j)) in Hn by lia. rewrite Z.pow_succ_r in Hn by lia. lia.
Qed.
Lemma hex_width w v : 1 <= w <= 21 -> 0 <= v < 16 ^ w -> Z.of_nat (length (hex w v)) = w.
Proof.
  intros Hw Hv. unfold hex, padded. rewrite length_app, length_replicate, Z.min_l by lia.
  assert ((length (utext 16 v) <= Z.to_nat w)%nat); [|lia]. unfold utext. case_match; [cbn; lia|].
  unfold magnitude. rewrite length_fmap, length_rev. apply lsd_bound; [lia|]. by rewrite Z2Nat.id by lia.
Qed.
Lemma uuid_length a b c d e : is_u32 a -> 0 <= b < 2 ^ 16 -> 0 <= c < 2 ^ 16 -> 0 <= d < 2 ^ 16 ->
  Z.of_nat (length (uuid_chars a b c d e)) = UUID_LENGTH.
Proof.
  intros Ha Hb Hc Hd. pose proof (u32_range e) as He. unfold is_u32, uuid_chars in *. rewrite !length_app, !Nat2Z.inj_add, !hex_width; cbn [length]; unfold UUID_LENGTH; lia.
Qed.

Definition uuid_items (a b c d e : Z) : list item :=
  let x w v := Dir [48] w None PRINTF_LEN_NONE 88 (AHex v) in
  [x 8 a; Lit 45; x 4 b; Lit 45; x 4 c; Lit 45; x 4 d; Lit 45; x 12 (u32 e)].
Lemma uuid_mem_ok : mapped uuid_mem 500 74 /\ cstr uuid_mem 100 UUID_FMT.
Proof. split; [apply mapped_check; by vm_compute|]. apply cstr_check; (by vm_compute) || (cbn; lia). Qed.
Lemma uuid_item_ok m w v : 1 <= w < 2 ^ 16 -> is_u32 v -> item_ok 1000 500 37 m (Dir [48] w None PRINTF_LEN_NONE 88 (AHex v)).
Proof.
  intros Hw Hv. split; [|split; [|discriminate]].
  - split; [repeat constructor; unfold flag_char; set_solver|lia|discriminate|unfold conv_char; set_solver].
  - split; [by right|]. exact Hv.
Qed.
Lemma uuid_text_spec a b c d e : is_u32 a -> 0 <= b < 2 ^ 16 -> 0 <= c < 2 ^ 16 -> 0 <= d < 2 ^ 16 ->
  uuid_text a b c d e = Ret (uuid_chars a b c d e).
Proof.
  intros Ha Hb Hc Hd. destruct uuid_mem_ok as [Hm Hf]. pose proof (uuid_length a b c d e Ha Hb Hc Hd) as Hl.
  pose proof (vsnprintf_spec 1000 500 37 100 (uuid_items a b c d e) [u32 (e / 2 ^ 32)] uuid_mem ltac:(lia) ltac:(lia) ltac:(lia) ltac:(lia) ltac:(lia)
    ltac:(unfold disjoint; lia) Hm) as T. cbv zeta in T.
  assert (Et : concat (item_text <$> uuid_items a b c d e) = UUID_FMT) by (by vm_compute).
  assert (Eo : concat (item_out <$> uuid_items a b c d e) = uuid_chars a b c d e)
    by (unfold uuid_items; cbn [fmap list_fmap concat item_out item_full]; rewrite app_nil_r; reflexivity).
  rewrite Et, Eo in T. clear Et Eo. pose proof (u32_range e). assert (Hw : forall v, 0 <= v < 2 ^ 16 -> u32 v = v) by (intros; apply u32_small; unfold is_u32; lia).
  assert (Ew : concat (item_words <$> uuid_items a b c d e) = [a; b; c; d; u32 e]).
  { unfold uuid_items. cbn [fmap list_fmap item_words concat app]. unfold int_words. rewrite !decide_False by done. cbn [app].
    by rewrite (u32_small a), (Hw b), (Hw c), (Hw d), u32_idemp by done. }
  rewrite Ew in T. destruct T as (m' & Hr & Ho & _ & Hfit).
  - exact Hf.
  - unfold clear_of, disjoint. cbn. lia.
  - unfold uuid_items. unfold is_u32 in *. repeat apply Forall_cons_2; try apply Forall_nil_2;
      first [apply uuid_item_ok; unfold is_u32; lia | unfold item_ok, char_ok; lia].
  - rewrite Hfit in * by (rewrite Hl; unfold UUID_LENGTH; lia). cbn [fst snd app] in *. unfold uuid_text, uuid_format, snprintf. cbn [Z.eqb].
    change (UUID_LENGTH + 1) with 37. rewrite Hr, bind_Ret. by apply read_str_spec.
Qed.

Lemma suffix_text_spec i : 0 <= i < 4 -> suffix_text i = Ret [112; 48 + i].
Proof. intros Hi. assert (i = 0 \/ i = 1 \/ i = 2 \/ i = 3) as [->|[->|[->| ->]]] by lia; by vm_compute. Qed.

(** ** The name of a device that can be mounted *)

Lemma strncpy_pad m dest src s n : cstr m src s -> (length s <= n)%nat -> mapped m dest (Z.of_nat n) ->
  disjoint dest (Z.of_nat n) src (Z.of_nat (length s) + 1) ->
  strncpy m dest src (Z.of_nat n) = Ret (write_bytes m dest (s ++ replicate (n - length s) 0), dest).
Proof.
  intros Hs Hl Hm Hd. unfold strncpy. rewrite Nat2Z.id. pose proof Hs as (Hb & Hf & _). unfold disjoint in Hd.
  assert (Hloop : forall k i, (length s <= i + k)%nat -> (i <= length s)%nat ->
    strncpy_copy k (write_bytes m dest (take i s)) dest src (Z.of_nat i) = Ret (write_bytes m dest s, Z.of_nat (length s))).
  { induction k as [|k IH]; intros i Hi Hil; cbn [strncpy_copy].
    - replace i with (length s) by lia. by rewrite take_ge by lia.
    - assert (Hlen : length (take i s) = i) by (rewrite length_take; lia).
      destruct (lookup_lt_is_Some_2 (s ++ [0]) i) as [c Hc]; [rewrite length_app; cbn; lia|].
      unfold load. rewrite write_bytes_outside by (rewrite Hlen; lia). rewrite (Hb _ _ Hc). cbn [deref]. rewrite bind_Ret.
      destruct (decide (i = length s)) as [->|Hne].
      + rewrite list_lookup_middle in Hc by done. injection Hc as <-. cbn. by rewrite take_ge by lia.
      + rewrite lookup_app_l in Hc by lia. pose proof (proj1 (Forall_lookup _ _) Hf _ _ Hc) as Hc0. cbn in Hc0.
        rewrite (proj2 (Z.eqb_neq c 0)) by lia. cbn [negb].
        rewrite (store_mapped _ dest (Z.of_nat n)); [|by apply write_bytes_mapped|lia|unfold is_byte; lia].
        rewrite bind_Ret. replace (Z.of_nat i + 1) with (Z.of_nat (S i)) by lia. rewrite <- (IH (S i)) by lia.
        by rewrite (take_S_r _ _ _ Hc), write_bytes_snoc, Hlen. }
  specialize (Hloop n 0%nat ltac:(lia) ltac:(lia)). rewrite take_0 in Hloop. cbn [write_bytes] in Hloop. change (Z.of_nat 0) with 0 in Hloop.
  rewrite Hloop, bind_Ret. rewrite (memset_loop_spec _ dest (Z.of_nat n)) by (by apply write_bytes_mapped || lia).
  rewrite bind_Ret. rewrite write_bytes_app. do 3 f_equal. change (u8 0) with 0. f_equal. lia.
Qed.

(** Names that fit the buffer. *)
Definition short_names (parent sfx name : list Z) : Prop :=
  text parent /\ text sfx /\ text name /\ (length parent < 128)%nat /\ (length parent + length sfx <= 128)%nat.
Lemma name_mem_ok buf parent sfx name : length buf = 129%nat -> short_names parent sfx name ->
  let m := name_mem buf parent sfx name in
  mapped m BUF 129 /\ cstr m PARENT parent /\ cstr m (SUFFIX parent) sfx /\ cstr m (NAME parent sfx) name.
Proof.
  intros Hb ([Hp Hpl] & [Hs Hsl] & [Hn Hnl] & H1 & H2) m. unfold m, name_mem, NAME, SUFFIX, PARENT, BUF. clear m. split; [|split; [|split]].
  - do 3 apply write_bytes_mapped. replace 129 with (Z.of_nat (length buf)) by lia. apply bytes_at_mapped, write_bytes_at.
  - split; [|split; [done|lia]]. repeat (apply write_bytes_bytes_at; [|unfold disjoint; rewrite ?length_app; cbn; lia]). apply write_bytes_at.
  - split; [|split; [done|lia]]. repeat (apply write_bytes_bytes_at; [|unfold disjoint; rewrite ?length_app; cbn; lia]). apply write_bytes_at.
  - split; [|split; [done|lia]]. apply write_bytes_at.
Qed.
Lemma full_name_spec buf parent sfx name : length buf = 129%nat -> short_names parent sfx name ->
  exists buf', length buf' = 129%nat /\ full_name_is buf parent sfx name = Ret (bool_decide (parent ++ sfx = name), buf').
Proof.
  intros Hb Hok. pose proof (name_mem_ok buf parent sfx name Hb Hok) as (Hm & Hp & Hs & Hn). destruct Hok as ([Fp Hpl] & [Fs Hsl] & [Fn Hnl] & H1 & H2).
  unfold full_name_is. set (m := name_mem buf parent sfx name) in *. rewrite (strlen_cstr m PARENT parent Hp), bind_Ret.
  assert (Hm1 : mapped m BUF (Z.of_nat 128)) by (intros a Ha; apply Hm; lia).
  change MAX_BLKDEV_NAME_LEN with (Z.of_nat 128). rewrite (strncpy_pad m BUF PARENT parent 128) by (done || lia || (unfold disjoint, BUF, PARENT; lia)).
  rewrite bind_Ret. cbn [fst]. set (m1 := write_bytes m BUF (parent ++ replicate (128 - length parent) 0)).
  assert (Hl1 : length (parent ++ replicate (128 - length parent) 0) = 128%nat) by (rewrite length_app, length_replicate; lia).
  assert (Hc1 : cstr m1 BUF parent).
  { unfold m1. replace (128 - length parent)%nat with (S (127 - length parent)) by lia. cbn [replicate]. apply cstr_write; [done|unfold BUF; lia..]. }
  assert (Hs1 : cstr m1 (SUFFIX parent) sfx) by (apply cstr_write_bytes; [done|rewrite Hl1; unfold disjoint, BUF, SUFFIX, PARENT; lia]).
  assert (Hn1 : cstr m1 (NAME parent sfx) name) by (apply cstr_write_bytes; [done|rewrite Hl1; unfold disjoint, BUF, NAME, SUFFIX, PARENT; lia]).
  assert (Hm2 : mapped m1 BUF 129) by by apply write_bytes_mapped.
  rewrite (strncat_cstr m1 BUF (SUFFIX parent) parent sfx); [|lia|done|done|intros a Ha; apply Hm2; lia|unfold disjoint, BUF, SUFFIX, PARENT; lia].
  rewrite bind_Ret. cbn [fst]. rewrite Z.min_r by lia. rewrite Nat2Z.id, firstn_all.
  set (m2 := write_bytes m1 (BUF + Z.of_nat (length parent)) (sfx ++ [0])).
  assert (Hc2 : cstr m2 BUF (parent ++ sfx)).
  { split; [|split; [by apply Forall_app_2|rewrite length_app; unfold BUF; lia]]. rewrite <- app_assoc. apply bytes_at_app. split; [|apply write_bytes_at].
    apply write_bytes_bytes_at; [|unfold disjoint; lia]. destruct Hc1 as (Hc1 & _). by apply bytes_at_app in Hc1 as [? _]. }
  assert (Hn2 : cstr m2 (NAME parent sfx) name) by (apply cstr_write_bytes; [done|rewrite length_app; cbn; unfold disjoint, BUF, NAME, SUFFIX, PARENT; lia]).
  rewrite (strcmp_cstr m2 _ _ _ _ Hc2 Hn2), bind_Ret.
  assert (Hm3 : mapped m2 BUF 129) by by apply write_bytes_mapped.
  assert (Hld : forall n p, mapped m2 p (Z.of_nat n) -> exists l, length l = n /\ load_bytes n m2 p = Ret l).
  { clear. induction n as [|n IH]; intros p Hp; [by exists []|]. cbn [load_bytes]. destruct (Hp p ltac:(lia)) as (c & Hc).
    destruct (IH (p + 1)) as (l & Hl & ->); [intros a Ha; apply Hp; lia|]. exists (c :: l). unfold load. rewrite Hc. cbn. by rewrite Hl. }
  destruct (Hld (length buf) BUF) as (l & Hl & ->); [by rewrite Hb|]. exists l. split; [congruence|]. rewrite bind_Ret. do 2 f_equal.
  pose proof (strcmp_spec_0 (parent ++ sfx) name) as He. case_bool_decide as E; [by rewrite (proj2 He E)|]. apply Z.eqb_neq. tauto.
Qed.

Section find.
Context {H W : Type} `{!Allocator H} `{!BlockDevices W} `{!BlockDrivers (vstate H (storage W))}.
Implicit Types (s : vstate H (storage W)) (ds : list Z).

(** What the user calls a device that can be mounted. *)
Definition full_name s (mb : Z) : option (list Z) :=
  x ← s.(drv).(mblkdev_at) !! mb; b ← s.(drv).(blkdev_at) !! x.(mb_parent);
  pn ← s.(strs) !! b.(bd_name); sfx ← s.(strs) !! x.(suffix); Some (pn ++ sfx).
#[export] Instance named_dec s (name : list Z) (mb : Z) : Decision (full_name s mb = Some name) := decide _.
Record mountable_ok s (name : list Z) (mb : Z) : Prop := {
  mo_null : mb <> 0;
  mo_names : exists x b pn sfx, s.(drv).(mblkdev_at) !! mb = Some x /\ s.(drv).(blkdev_at) !! x.(mb_parent) = Some b /\
    s.(strs) !! b.(bd_name) = Some pn /\ s.(strs) !! x.(suffix) = Some sfx /\ short_names pn sfx name }.

Lemma by_name_spec s ds stack name : entries_of s s.(drv).(g_mountable_blkdevs) ds -> Forall (mountable_ok s name) ds ->
  length stack = 129%nat ->
  blkdevm_find_mountable_blkdev_by_name stack name s = Ret (default 0 (head (filter (fun mb => full_name s mb = Some name) ds))).
Proof.
  intros He Hok Hst. unfold blkdevm_find_mountable_blkdev_by_name. rewrite (for_each_spec s _ ds) by done. clear He.
  revert stack Hst. induction Hok as [|mb ds [Hz (x & b & pn & sfx & Hx & Hb & Hp & Hs & Hn)] _ IH]; intros stack Hst; [done|]. cbn [iter].
  rewrite (proj2 (Z.eqb_neq mb 0) Hz), Hx. cbn [deref]. rewrite bind_Ret, Hb. cbn [deref]. rewrite bind_Ret, Hp. cbn [deref]. rewrite bind_Ret.
  destruct (scratch_cstr pn []) as [Hc _]; [apply Hn|apply text_nil|]. rewrite (strlen_cstr _ _ _ Hc), bind_Ret.
  pose proof Hn as (_ & _ & _ & Hl & _). rewrite Z.gtb_ltb, (proj2 (Z.ltb_ge _ _)) by (unfold MAX_BLKDEV_NAME_LEN; lia). rewrite Hs. cbn [deref]. rewrite bind_Ret. cbn [snd].
  destruct (full_name_spec stack pn sfx name Hst Hn) as (buf & Hbuf & ->). rewrite bind_Ret. cbn [fst snd].
  rewrite filter_cons. assert (Hf : full_name s mb = Some (pn ++ sfx)) by (unfold full_name; rewrite Hx; cbn; rewrite Hb; cbn; rewrite Hp; cbn; by rewrite Hs).
  case_bool_decide as E.
  - rewrite decide_True by congruence. by rewrite bind_Ret.
  - rewrite decide_False by congruence. rewrite bind_Ret. cbn [fst snd]. by apply IH.
Qed.

Lemma by_uuid_null s ds mb x uuid : entries_of s s.(drv).(g_mountable_blkdevs) (mb :: ds) -> mb <> 0 ->
  s.(drv).(mblkdev_at) !! mb = Some x -> x.(mb_uuid) = 0 -> s.(strs) !! 0 = None ->
  blkdevm_find_mountable_blkdev_by_uuid uuid s = Undef.
Proof.
  intros He Hz Hx Hu H0. unfold blkdevm_find_mountable_blkdev_by_uuid. rewrite (for_each_spec s _ (mb :: ds)) by done. cbn [iter].
  rewrite (proj2 (Z.eqb_neq mb 0) Hz), Hx. cbn [deref]. by rewrite bind_Ret, Hu, H0.
Qed.
End find.

(** ** The partition table *)

Section table.
Context {H W : Type} `{AllocatorLaws H} `{!BlockDevices W}.
Implicit Types (s : vstate H (storage W)) (h : H) (t : gmap Z (list Z)) (l : list Partition) (bs : list Z).

(** The state with another heap and other strings. *)
Definition at_ s h t : vstate H (storage W) := set_strs (set_vheap s h) t.
(** The heap once the blocks are given back. *)
Definition without h bs h' : Prop := alloc_wf h' /\ forall b, live h' b = if decide (b ∈ bs) then None else live h b.

Lemma free_str_at s h t p : alloc_wf h -> live h p <> None -> exists h', free_str (at_ s h t) p = Ret (at_ s h' (delete p t)) /\ without h [p] h'.
Proof.
  intros Hwf Hl. destruct (free_law h p Hwf Hl) as (h' & E & Hwf' & Hl'). exists h'. unfold free_str, free_block.
  change (vheap (at_ s h t)) with h. rewrite E, bind_Ret, bind_Ret. split; [done|]. split; [done|]. intros b. rewrite Hl'.
  destruct (decide (b = p)) as [->|Hne]; [by rewrite decide_True by set_solver|by rewrite decide_False by set_solver].
Qed.

Definition part_blocks (p : Partition) : list Z := filter (fun a => a <> 0) [p.(pt_suffix); p.(pt_uuid)].
Definition blocks_of l : list Z := concat (part_blocks <$> l).
Lemma without_trans h bs1 h1 bs2 h2 : without h bs1 h1 -> without h1 bs2 h2 -> without h (bs1 ++ bs2) h2.
Proof.
  intros [_ L1] [Hwf L2]. split; [done|]. intros b. rewrite L2, L1.
  destruct (decide (b ∈ bs2)); [by rewrite decide_True by set_solver|]. destruct (decide (b ∈ bs1)); [by rewrite decide_True by set_solver|by rewrite decide_False by set_solver].
Qed.
Lemma without_nil h : alloc_wf h -> without h [] h.
Proof. intros Hwf. split; [done|]. intros b. by rewrite decide_False by set_solver. Qed.

(** A string that may be null. *)
Lemma free_opt s h t p : alloc_wf h -> (p <> 0 -> live h p <> None) ->
  exists h' t', (if p =? 0 then Ret (at_ s h t) else free_str (at_ s h t) p) = Ret (at_ s h' t') /\
    without h (filter (fun a => a <> 0) [p]) h' /\ forall q, q <> p -> t' !! q = t !! q.
Proof.
  intros Hwf Hl. rewrite filter_cons, filter_nil. destruct (Z.eqb_spec p 0) as [->|Hp].
  - exists h, t. rewrite decide_False by auto. split; [done|]. split; [by apply without_nil|done].
  - destruct (free_str_at s h t p Hwf (Hl Hp)) as (h' & -> & Hw). exists h', (delete p t). rewrite decide_True by done. split; [done|]. split; [done|].
    intros q Hq. by rewrite lookup_delete_ne by done.
Qed.

Lemma parts_destroy_spec l2 : forall l1 s h t, alloc_wf h -> NoDup (blocks_of l2) -> (forall b, b ∈ blocks_of l2 -> live h b <> None) ->
  exists h' t', destroy_parts (length l2) (Z.of_nat (length l1)) (l1 ++ l2) (at_ s h t) = Ret (at_ s h' t') /\
    without h (blocks_of l2) h' /\ forall q, q <> 0 -> q ∉ blocks_of l2 -> t' !! q = t !! q.
Proof.
  induction l2 as [|p l2 IH]; intros l1 s h t Hwf Hnd Hl; cbn [destroy_parts length].
  - exists h, t. split; [done|]. split; [by apply without_nil|done].
  - rewrite Nat2Z.id, list_lookup_middle by done. cbn [deref]. rewrite bind_Ret. unfold blocks_of in *. cbn [fmap list_fmap concat] in *. fold (blocks_of l2) in *.
    assert (Hbs : part_blocks p = filter (fun a => a <> 0) [pt_suffix p] ++ filter (fun a => a <> 0) [pt_uuid p]) by (unfold part_blocks; by rewrite <- filter_app).
    rewrite Hbs in *. set (b1 := filter _ [pt_suffix p]) in *. set (b2 := filter _ [pt_uuid p]) in *.
    assert (L1 : forall b, b ∈ b1 <-> b = pt_suffix p /\ b <> 0) by (intros b; unfold b1; rewrite list_elem_of_filter; set_solver).
    assert (L2 : forall b, b ∈ b2 <-> b = pt_uuid p /\ b <> 0) by (intros b; unfold b2; rewrite list_elem_of_filter; set_solver).
    rewrite <- app_assoc in *. apply NoDup_app in Hnd as (_ & Hd1 & Hnd). apply NoDup_app in Hnd as (_ & Hd2 & Hnd).
    destruct (free_opt s h t (pt_suffix p) Hwf) as (h1 & t1 & -> & Hw1 & Ht1); [intros Hz; apply Hl; set_solver|]. rewrite bind_Ret. fold b1 in Hw1.
    destruct (free_opt s h1 t1 (pt_uuid p)) as (h2 & t2 & -> & Hw2 & Ht2); [apply Hw1| |].
    { intros Hz. rewrite (proj2 Hw1), decide_False by (intros Hi; apply (Hd1 _ Hi); set_solver). apply Hl. set_solver. }
    rewrite bind_Ret. fold b2 in Hw2. replace (Z.of_nat (length l1) + 1) with (Z.of_nat (length (l1 ++ [p]))) by (rewrite length_app; cbn; lia).
    replace (l1 ++ p :: l2) with ((l1 ++ [p]) ++ l2) by by rewrite <- app_assoc. pose proof (without_trans _ _ _ _ _ Hw1 Hw2) as Hw.
    destruct (IH (l1 ++ [p]) s h2 t2) as (h3 & t3 & -> & Hw3 & Ht3); [apply Hw2|done| |].
    { intros b Hb. rewrite (proj2 Hw), decide_False; [apply Hl; set_solver|]. intros [Hi|Hi]%elem_of_app; [apply (Hd1 _ Hi); set_solver|by apply (Hd2 _ Hi)]. }
    exists h3, t3. split; [done|]. split; [rewrite app_assoc; by eapply without_trans|]. intros q Hq Hn.
    rewrite Ht3 by (done || set_solver). rewrite Ht2 by (intros ->; apply Hn; set_solver). apply Ht1. intros ->. apply Hn. set_solver.
Qed.

(** A table whose blocks are all live gives each of them back once. *)
Lemma table_destroy_spec s h t pt : alloc_wf h -> partition_count pt = Z.of_nat (length (pt_array pt)) -> pt_partitions pt <> 0 ->
  NoDup (pt_partitions pt :: blocks_of (pt_array pt)) -> (forall b, b ∈ pt_partitions pt :: blocks_of (pt_array pt) -> live h b <> None) ->
  exists h' t', partitiontable_destroy pt (at_ s h t) = Ret (at_ s h' t', 0) /\
    without h (pt_partitions pt :: blocks_of (pt_array pt)) h' /\ forall q, q <> 0 -> q ∉ blocks_of (pt_array pt) -> t' !! q = t !! q.
Proof.
  intros Hwf Hc Hp Hnd Hl. unfold partitiontable_destroy. rewrite Hc, Nat2Z.id. apply NoDup_cons in Hnd as [Hnp Hnd].
  destruct (parts_destroy_spec (pt_array pt) [] s h t Hwf Hnd) as (h1 & t1 & E & Hw1 & Ht1); [intros b Hb; apply Hl; set_solver|].
  cbn [length app] in E. change (Z.of_nat 0) with 0 in E. rewrite E, bind_Ret. rewrite (proj2 (Z.eqb_neq _ 0) Hp).
  destruct (free_law h1 (pt_partitions pt)) as (h2 & E2 & Hwf2 & Hl2); [apply Hw1|rewrite (proj2 Hw1), decide_False by done; apply Hl; set_solver|].
  unfold free_block. change (vheap (at_ s h1 t1)) with h1. rewrite E2, !bind_Ret. exists h2, t1. split; [done|]. split; [|done]. split; [done|].
  intros b. rewrite Hl2, (proj2 Hw1). destruct (decide (b = pt_partitions pt)) as [->|Hne]; [by rewrite decide_True by set_solver|].
  destruct (decide (b ∈ blocks_of _)); [by rewrite decide_True by set_solver|by rewrite decide_False by set_solver].
Qed.

(** Blocks a call has taken since [h0], and nothing else. *)
Section owned.
Variable h0 : H.
Record owned h bs : Prop := {
  ow_wf : alloc_wf h; ow_nd : NoDup bs;
  ow_in : forall b, b ∈ bs -> b <> 0 /\ live h b <> None /\ live h0 b = None;
  ow_out : forall b, b ∉ bs -> live h b = live h0 b }.
Lemma owned_nil : alloc_wf h0 -> owned h0 [].
Proof. intros Hwf. split; [done|constructor|set_solver|done]. Qed.
Lemma owned_without h bs h' : owned h bs -> without h bs h' -> owned h' [].
Proof.
  intros [Hwf Hnd Hin Hout] [Hwf' Hl]. split; [done|constructor|set_solver|]. intros b _. rewrite Hl. destruct (decide (b ∈ bs)) as [Hb|Hb]; [|by apply Hout].
  by destruct (Hin b Hb) as (_ & _ & ->).
Qed.
Lemma owned_same h bs h' : owned h bs -> alloc_wf h' -> (forall b, live h' b = live h b) -> owned h' bs.
Proof. intros [Hwf Hnd Hin Hout] Hwf' Hl. split; try done; intros b Hb; rewrite Hl; auto. Qed.
Lemma owned_more h bs h' p n : owned h bs -> alloc_wf h' -> p <> 0 -> live h p = None ->
  (forall b, live h' b = if decide (b = p) then Some n else live h b) -> owned h' (p :: bs).
Proof.
  intros [Hwf Hnd Hin Hout] Hwf' Hp Hf Hl. assert (Hnp : p ∉ bs) by (intros Hi; by destruct (Hin p Hi) as (_ & ? & _)).
  split; [done|by constructor| |].
  - intros b [->|Hb]%elem_of_cons; rewrite Hl; [rewrite decide_True by done; by rewrite <- Hout|]. rewrite decide_False by set_solver. by apply Hin.
  - intros b Hb. rewrite Hl, decide_False by set_solver. apply Hout. set_solver.
Qed.
Lemma owned_perm h bs bs' : owned h bs -> bs ≡ₚ bs' -> owned h bs'.
Proof.
  intros [Hwf Hnd Hin Hout] Hp. split; [done|by rewrite <- Hp| |].
  - intros b. rewrite <- Hp. apply Hin.
  - intros b. rewrite <- Hp. apply Hout.
Qed.
Lemma free_head h b bs : owned h (b :: bs) -> exists h', kfree_ b h = Ret h' /\ owned h' bs.
Proof.
  intros [Hwf Hnd Hin Hout]. apply NoDup_cons in Hnd as [Hnb Hnd]. destruct (Hin b) as (_ & Hl & Hb); [set_solver|].
  destruct (free_law h b Hwf Hl) as (h' & E & Hwf' & Hl'). exists h'. split; [done|]. split; [done|done| |].
  - intros c Hc. rewrite Hl', decide_False by (intros ->; done). apply Hin. set_solver.
  - intros c Hc. rewrite Hl'. destruct (decide (c = b)) as [->|Hne]; [done|]. apply Hout. set_solver.
Qed.
(** Strings of blocks that were live before. *)
Definition old_strs t0 t : Prop := forall q, live h0 q <> None -> t !! q = t0 !! q.
End owned.

Lemma blocks_of_app l1 l2 : blocks_of (l1 ++ l2) = blocks_of l1 ++ blocks_of l2.
Proof. unfold blocks_of. by rewrite fmap_app, concat_app. Qed.
Lemma blocks_of_zero n : blocks_of (replicate n zero_part) = [].
Proof. induction n as [|n IH]; [done|]. cbn [replicate]. unfold blocks_of in *. cbn [fmap list_fmap concat]. by rewrite IH. Qed.
Lemma part_blocks_full a c sfx u : sfx <> 0 -> u <> 0 -> part_blocks (mkPart a c sfx u) = [sfx; u].
Proof. intros ? ?. unfold part_blocks. cbn [pt_suffix pt_uuid]. by rewrite !filter_cons, !decide_True. Qed.
Lemma part_blocks_half a c sfx : sfx <> 0 -> part_blocks (mkPart a c sfx 0) = [sfx].
Proof. intros ?. unfold part_blocks. cbn [pt_suffix pt_uuid]. rewrite !filter_cons, decide_True by done. by rewrite decide_False by auto. Qed.

(** ** What the record says *)
Record mbr_ok (mbr : MBR) : Prop := {
  mk_uid : is_u32 mbr.(uid);
  mk_boot : Forall is_byte mbr.(bootstrap);
  mk_parts : length mbr.(partitions) = 4%nat;
  mk_entry : Forall (fun p => is_byte p.(drive_attrs) /\ is_byte p.(chs_head_start)) mbr.(partitions) }.
Definition slot_uuid (mbr : MBR) (j : nat) : list Z :=
  match mbr.(partitions) !! j with
  | Some p => uuid_chars mbr.(uid) (p.(drive_attrs) + 256 * p.(chs_head_start))
      (Z.lxor (Z.lxor (Z.lxor (boot mbr 0) (boot mbr 1)) (boot mbr 2)) (boot mbr 3))
      (Z.lxor (Z.lxor (Z.lxor (boot mbr 4) (boot mbr 5)) (boot mbr 6)) (boot mbr 7)) (Z.of_nat j + 1)
  | None => []
  end.
Lemma lxor_lt a b n : 0 <= n -> 0 <= a < 2 ^ n -> 0 <= b < 2 ^ n -> 0 <= Z.lxor a b < 2 ^ n.
Proof.
  intros Hn Ha Hb. split; [apply Z.lxor_nonneg; lia|]. destruct (decide (Z.lxor a b = 0)) as [->|Hz]; [lia|].
  assert (0 <= Z.lxor a b) by (apply Z.lxor_nonneg; lia). apply Z.log2_lt_cancel. rewrite Z.log2_pow2 by lia.
  pose proof (Z.log2_lxor a b ltac:(lia) ltac:(lia)). assert (Hlg : forall z, 0 <= z < 2 ^ n -> z <> 0 -> Z.log2 z < n) by (intros; apply Z.log2_lt_pow2; lia).
  destruct (decide (a = 0)) as [->|]; [rewrite Z.lxor_0_l in *; by apply Hlg|]. destruct (decide (b = 0)) as [->|]; [rewrite Z.lxor_0_r in *; by apply Hlg|].
  pose proof (Hlg a). pose proof (Hlg b). lia.
Qed.
Lemma boot_byte mbr i : mbr_ok mbr -> 0 <= boot mbr i < 2 ^ 8.
Proof. intros [_ Hb _ _]. unfold boot. destruct (nth_in_or_default i (bootstrap mbr) 0) as [Hi| ->]; [|lia]. apply list_elem_of_In in Hi.
  rewrite Forall_forall in Hb. exact (Hb _ Hi). Qed.
Lemma uuid_for_part_spec mbr j : mbr_ok mbr -> (j < 4)%nat -> mbr_uuid_for_part mbr (Z.of_nat j) = Ret (inr (slot_uuid mbr j)).
Proof.
  intros Hm Hj. unfold mbr_uuid_for_part, slot_uuid. rewrite Z.geb_leb, (proj2 (Z.leb_gt 4 _)) by lia. rewrite Nat2Z.id.
  destruct (lookup_lt_is_Some_2 (partitions mbr) j) as [p Hp]; [by rewrite (mk_parts _ Hm)|]. rewrite Hp. cbn [deref]. rewrite bind_Ret.
  pose proof (proj1 (Forall_lookup _ _) (mk_entry _ Hm) _ _ Hp) as [B1 B2]. unfold is_byte in *.
  assert (Hx : forall a b c d, 0 <= Z.lxor (Z.lxor (Z.lxor (boot mbr a) (boot mbr b)) (boot mbr c)) (boot mbr d) < 2 ^ 8)
    by (intros; repeat apply lxor_lt; try lia; by apply boot_byte).
  pose proof (Hx 0 1 2 3)%nat. pose proof (Hx 4 5 6 7)%nat. rewrite uuid_text_spec by (first [apply Hm | lia]). by rewrite bind_Ret.
Qed.

(** An entry of the table made from a slot: the numbers are the slot's; the
    name is the entry's position, and so is the slot the UUID is made from. *)
Record entry_ok (mbr : MBR) t (j : nat) (mp : MBRPartition) (p : Partition) : Prop := {
  en_lba : p.(lba) = mp.(lba_start); en_count : p.(sector_count) = mp.(mp_sector_count);
  en_sfx : p.(pt_suffix) <> 0; en_uuid : p.(pt_uuid) <> 0;
  en_name : t !! p.(pt_suffix) = Some [112; 48 + Z.of_nat j];
  en_id : t !! p.(pt_uuid) = Some (slot_uuid mbr j) }.
Record filling (h0 : H) t0 (mbr : MBR) (tbl : Z) (dn : list Partition) (sl : list MBRPartition) h t : Prop := {
  fi_own : owned h0 h (tbl :: blocks_of dn);
  fi_strs : old_strs h0 t0 t;
  fi_len : length dn = length sl;
  fi_parts : forall j mp, sl !! j = Some mp -> exists p, dn !! j = Some p /\ entry_ok mbr t j mp p }.

Lemma old_put h0 h bs t0 t p x : owned h0 h bs -> p ∉ bs -> live h p = None -> old_strs h0 t0 t -> old_strs h0 t0 (<[p := x]> t).
Proof. intros Ho Hp Hf Ht q Hq. rewrite lookup_insert_ne; [by apply Ht|]. intros <-. apply Hq. by rewrite <- (ow_out _ _ _ Ho). Qed.
Lemma entry_in dn j p mbr t mp : dn !! j = Some p -> entry_ok mbr t j mp p -> p.(pt_suffix) ∈ blocks_of dn /\ p.(pt_uuid) ∈ blocks_of dn.
Proof.
  intros Hp [_ _ Hs Hu _ _]. assert (Hi : forall a, a ∈ part_blocks p -> a ∈ blocks_of dn).
  { intros a Ha. unfold blocks_of. apply list_elem_of_In, in_concat. exists (part_blocks p). split; [|by apply list_elem_of_In].
    apply list_elem_of_In, list_elem_of_fmap. exists p. split; [done|by eapply list_elem_of_lookup_2]. }
  split; apply Hi; unfold part_blocks; rewrite list_elem_of_filter; set_solver.
Qed.
Lemma entry_put mbr t j mp p a x : entry_ok mbr t j mp p -> a <> p.(pt_suffix) -> a <> p.(pt_uuid) -> entry_ok mbr (<[a := x]> t) j mp p.
Proof. intros [? ? ? ? Hs Hu] H2 H3. split; try done; by rewrite lookup_insert_ne. Qed.

(** Giving a table that is partly filled back. *)
Lemma give_back h0 t0 s h t pt : owned h0 h (pt_partitions pt :: blocks_of (pt_array pt)) -> old_strs h0 t0 t ->
  partition_count pt = Z.of_nat (length (pt_array pt)) ->
  exists h' t', partitiontable_destroy pt (at_ s h t) = Ret (at_ s h' t', 0) /\ owned h0 h' [] /\ old_strs h0 t0 t'.
Proof.
  intros Ho Ht Hc. destruct (table_destroy_spec s h t pt) as (h' & t' & E & Hw & Ht'); [apply Ho|done| |apply Ho| |].
  - apply (ow_in _ _ _ Ho). set_solver.
  - intros b Hb. by apply (ow_in _ _ _ Ho).
  - exists h', t'. split; [done|]. split; [by eapply owned_without|]. intros q Hq. destruct (decide (q ∈ pt_partitions pt :: blocks_of (pt_array pt))) as [Hi|Hn].
    + destruct (ow_in _ _ _ Ho q Hi) as (_ & _ & ?). done.
    + destruct (decide (q = 0)) as [->|Hq0]; [|rewrite Ht' by (done || set_solver); by apply Ht].
      exfalso. destruct (live h 0) as [n|] eqn:E0; [pose proof (live_law h 0 n (ow_wf _ _ _ Ho) E0); lia|]. apply Hq. by rewrite <- (ow_out _ _ _ Ho).
Qed.

Lemma dig_small i : 0 <= i < 4 -> 0 < dig_count i + 2 < 2 ^ 32.
Proof. intros Hi. assert (i = 0 \/ i = 1 \/ i = 2 \/ i = 3) as [->|[->|[->| ->]]] by lia; by vm_compute. Qed.
Lemma suffix_at s h t i : 0 <= i < 4 -> alloc_wf h -> exists h' p, partition_generate_suffix i (at_ s h t) =
    Ret (at_ s h' (if p =? 0 then t else <[p := [112; 48 + i]]> t), p) /\ alloc_wf h' /\
  ((p = 0 /\ forall b, live h' b = live h b) \/
   (p <> 0 /\ live h p = None /\ forall b, live h' b = if decide (b = p) then Some (dig_count i + 2) else live h b)).
Proof.
  intros Hi Hwf. unfold partition_generate_suffix. change (vheap (at_ s h t)) with h.
  destruct (calloc_law h (dig_count i + 2) Hwf (dig_small i Hi)) as (h' & p & -> & Hwf' & Hc). exists h', p. rewrite bind_Ret. cbn [fst snd].
  split; [|done]. destruct (Z.eqb_spec p 0) as [->|_]; [done|]. by rewrite suffix_text_spec, bind_Ret.
Qed.

(** One slot: its name and the block of its UUID. *)
Definition filled_table (tbl count : Z) (dn : list Partition) (k : nat) (p : Partition) : PartitionTable :=
  mkPT MBR_NAME tbl count (dn ++ p :: replicate k zero_part).
Lemma blocks_filled tbl count dn k p : blocks_of (pt_array (filled_table tbl count dn k p)) = blocks_of dn ++ part_blocks p.
Proof. cbn [filled_table pt_array]. rewrite blocks_of_app. unfold blocks_of at 2. cbn [fmap list_fmap concat]. fold (blocks_of (replicate k zero_part)). by rewrite blocks_of_zero, app_nil_r. Qed.

Lemma parts_fill_spec h0 t0 mbr tbl count : mbr_ok mbr -> forall slots sl dn s h t,
  filling h0 t0 mbr tbl dn sl h t -> (length sl + length (alloc_slots slots) <= 4)%nat ->
  count = Z.of_nat (length dn + length (alloc_slots slots)) ->
  exists h' t' pt' st,
    fill_parts mbr slots (Z.of_nat (length dn)) (mkPT MBR_NAME tbl count (dn ++ replicate (length (alloc_slots slots)) zero_part)) (at_ s h t) =
      Ret (at_ s h' t', (pt', st)) /\
    ((st = - ENOMEM /\ owned h0 h' [] /\ old_strs h0 t0 t') \/
     (st = 0 /\ exists dn', pt' = mkPT MBR_NAME tbl count dn' /\ filling h0 t0 mbr tbl dn' (sl ++ alloc_slots slots) h' t')).
Proof.
  intros Hm. induction slots as [|mp slots IH]; intros sl dn s h t Hf Hl Hc; cbn [fill_parts].
  - exists h, t, (mkPT MBR_NAME tbl count dn), 0. unfold alloc_slots. rewrite filter_nil. cbn [length replicate]. rewrite !app_nil_r. split; [done|].
    right. split; [done|]. by exists dn.
  - assert (Ef : alloc_slots (mp :: slots) = if allocated mp then mp :: alloc_slots slots else alloc_slots slots)
      by (unfold alloc_slots; rewrite filter_cons; by destruct (allocated mp)).
    rewrite Ef in *. clear Ef. destruct (allocated mp) eqn:Ea; cbn [negb]; [|by apply IH].
    cbn [length replicate] in *. set (k := length (alloc_slots slots)) in *.
    pose proof Hf as [Ho Ht Hld Hp]. cbn [pt_array]. rewrite Nat2Z.id, list_lookup_middle by done. cbn [deref]. rewrite bind_Ret.
    assert (Hdn : (length dn < 4)%nat) by lia.
    destruct (suffix_at s h t (Z.of_nat (length dn))) as (h1 & sfx & -> & Hwf1 & Hc1); [lia|apply Ho|]. rewrite bind_Ret. cbv beta iota.
    unfold set_array. cbn [pt_type pt_partitions partition_count pt_array lba sector_count zero_part pt_uuid]. rewrite insert_app_r_alt, Nat.sub_diag by lia. cbn [insert list_insert].
    destruct Hc1 as [[-> Hl1]|(Hs & Hfr & Hl1)].
    { cbn [Z.eqb]. pose proof (blocks_filled tbl count dn k (mkPart 0 0 0 0)) as Hb. fold (filled_table tbl count dn k (mkPart 0 0 0 0)).
      destruct (give_back h0 t0 s h1 t (filled_table tbl count dn k (mkPart 0 0 0 0))) as (h2 & t2 & -> & Ho2 & Ht2).
      - rewrite Hb, app_nil_r. by eapply owned_same.
      - done.
      - cbn [filled_table partition_count pt_array]. rewrite length_app. cbn [length]. rewrite length_replicate. lia.
      - rewrite bind_Ret. eexists _, _, _, _. split; [done|]. by left. }
    rewrite (proj2 (Z.eqb_neq sfx 0) Hs). pose proof (owned_more h0 _ _ _ _ _ Ho Hwf1 Hs Hfr Hl1) as Ho1.
    assert (Hns : sfx ∉ tbl :: blocks_of dn) by (pose proof (ow_nd _ _ _ Ho1) as Hnd; by apply NoDup_cons in Hnd as [? _]).
    pose proof (old_put h0 h _ t0 t sfx [112; 48 + Z.of_nat (length dn)] Ho Hns Hfr Ht) as Ht1. set (t1 := <[sfx := _]> t) in *.
    change (vheap (at_ s h1 t1)) with h1. destruct (malloc_law h1 (UUID_LENGTH + 1)) as (h2 & u & -> & Hwf2 & Hc2); [done|unfold UUID_LENGTH; lia|].
    rewrite bind_Ret. cbn [fst snd]. change (set_vheap (at_ s h1 t1) h2) with (at_ s h2 t1). rewrite insert_app_r_alt, Nat.sub_diag by lia. cbn [insert list_insert].
    destruct Hc2 as [[-> Hl2]|(Hu & Hfr2 & Hl2)].
    { cbn [Z.eqb]. pose proof (blocks_filled tbl count dn k (mkPart 0 0 sfx 0)) as Hb. fold (filled_table tbl count dn k (mkPart 0 0 sfx 0)).
      rewrite part_blocks_half in Hb by done.
      destruct (give_back h0 t0 s h2 t1 (filled_table tbl count dn k (mkPart 0 0 sfx 0))) as (h3 & t3 & -> & Ho3 & Ht3).
      - rewrite Hb. eapply owned_perm; [eapply owned_same; [exact Ho1|done..]|]. cbn [filled_table pt_partitions]. by rewrite (Permutation_app_comm (blocks_of dn)), Permutation_swap.
      - done.
      - cbn [filled_table partition_count pt_array]. rewrite length_app. cbn [length]. rewrite length_replicate. lia.
      - rewrite bind_Ret. eexists _, _, _, _. split; [done|]. by left. }
    rewrite (proj2 (Z.eqb_neq u 0) Hu). pose proof (owned_more h0 _ _ _ _ _ Ho1 Hwf2 Hu Hfr2 Hl2) as Ho2.
    assert (Hnu : u ∉ sfx :: tbl :: blocks_of dn) by (pose proof (ow_nd _ _ _ Ho2) as Hnd; by apply NoDup_cons in Hnd as [? _]).
    rewrite (uuid_for_part_spec mbr (length dn) Hm Hdn), bind_Ret. cbv beta iota.
    pose proof (old_put h0 h1 _ t0 t1 u (slot_uuid mbr (length dn)) Ho1 Hnu Hfr2 Ht1) as Ht2. set (t2 := <[u := _]> t1) in *.
    rewrite insert_app_r_alt, Nat.sub_diag by lia. cbn [insert list_insert].
    change (put_str u (slot_uuid mbr (length dn)) (at_ s h2 t1)) with (at_ s h2 t2).
    set (part := mkPart (lba_start mp) (mp_sector_count mp) sfx u).
    replace (Z.of_nat (length dn) + 1) with (Z.of_nat (length (dn ++ [part]))) by (rewrite length_app; cbn; lia).
    replace (dn ++ part :: replicate k zero_part) with ((dn ++ [part]) ++ replicate k zero_part) by by rewrite <- app_assoc.
    replace (sl ++ mp :: alloc_slots slots) with ((sl ++ [mp]) ++ alloc_slots slots) by by rewrite <- app_assoc.
    apply IH; [|rewrite length_app; cbn [length]; lia|rewrite length_app; cbn [length]; lia]. split.
    + rewrite blocks_of_app. unfold blocks_of at 2. cbn [fmap list_fmap concat]. unfold part. rewrite part_blocks_full by done. cbn [app].
      eapply owned_perm; [exact Ho2|]. rewrite (Permutation_app_comm (blocks_of dn)). exact (Permutation_app_tail _ (Permutation_rev [u; sfx; tbl])).
    + done.
    + rewrite !length_app. cbn. lia.
    + intros j mp' Hj. destruct (decide (j = length sl)) as [->|Hne].
      * rewrite list_lookup_middle in Hj by done. injection Hj as <-. exists part. rewrite <- Hld at 1. rewrite list_lookup_middle by done. split; [done|].
        rewrite <- Hld. split; try done; cbn [part pt_suffix pt_uuid]; unfold t2, t1; [|by rewrite lookup_insert_eq].
        rewrite lookup_insert_ne by set_solver. by rewrite lookup_insert_eq.
      * pose proof (lookup_lt_Some _ _ _ Hj) as Hlt. rewrite length_app in Hlt. cbn in Hlt. rewrite lookup_app_l in Hj by lia. destruct (Hp j mp' Hj) as (p & Hpj & He).
        exists p. rewrite lookup_app_l by lia. split; [done|]. destruct (entry_in dn j p mbr t mp' Hpj He) as [I1 I2].
        unfold t2, t1. apply entry_put; [apply entry_put; [done|set_solver..]|set_solver..].
Qed.

(** What a sector of bytes decodes to is a record. *)
Lemma le_bound (l : list Z) : Forall is_byte l -> 0 <= le l < 256 ^ Z.of_nat (length l).
Proof.
  induction 1 as [|b l Hb _ IH]; [cbn; lia|]. unfold is_byte in Hb. change (le (b :: l)) with (b + 256 * le l).
  cbn [length]. rewrite Nat2Z.inj_succ, Z.pow_succ_r by lia. lia.
Qed.
Lemma field_bound off n (l : list Z) : Forall is_byte l -> 0 <= field off n l < 256 ^ Z.of_nat n.
Proof.
  intros Hl. unfold field. assert (Hf : Forall is_byte (take n (drop off l))) by by apply Forall_take, Forall_drop.
  pose proof (le_bound _ Hf) as Hb. rewrite length_take in Hb.
  assert (256 ^ Z.of_nat (Nat.min n (length (drop off l))) <= 256 ^ Z.of_nat n) by (apply Z.pow_le_mono_r; lia). lia.
Qed.
Lemma mbr_of_ok (l : list Z) : Forall is_byte l -> mbr_ok (mbr_of l).
Proof.
  intros Hl. split.
  - apply (field_bound 440 4 l Hl).
  - by apply Forall_take.
  - done.
  - cbn [mbr_of partitions]. apply Forall_fmap, Forall_true. intros i. cbn [compose mbr_partition drive_attrs chs_head_start].
    assert (Hf : Forall is_byte (take 16 (drop (446 + 16 * i) l))) by by apply Forall_take, Forall_drop.
    split; [apply (field_bound 0 1 _ Hf)|apply (field_bound 1 1 _ Hf)].
Qed.

Definition in_state (w : W) s : vstate H (storage W) := up (fun d => set_hw d w) s.
(** What the device gives for its first sector. *)
Record first_sector s (dev : Z) (x : BlockDevice) (w : W) (st : Z) (bytes : list Z) : Prop := {
  fs_dev : s.(drv).(blkdev_at) !! dev = Some x;
  fs_size : 512 <= x.(bd_sectorsize) < 2 ^ 16;
  fs_read : dev_read dev x 0 1 s.(drv).(hw) = Ret (w, (st, bytes));
  fs_bytes : 0 <= st -> Z.of_nat (length bytes) = x.(bd_sectorsize) /\ Forall is_byte bytes }.

Lemma mbr_read_spec s dev x w st bytes : alloc_wf (vheap s) -> first_sector s dev x w st bytes ->
  exists h' w' st' mo, mbr_read dev s = Ret (in_state w' (set_vheap s h'), (st', mo)) /\ owned (vheap s) h' [] /\
    ((st' = - ENOMEM /\ mo = None) \/ (st < 0 /\ st' = st /\ mo = None /\ w' = w) \/
     (0 <= st /\ st' = 0 /\ mo = Some (mbr_of (take 512 bytes)) /\ w' = w)).
Proof.
  intros Hwf [Hx Hsz Hr Hb]. unfold mbr_read. rewrite Hx. cbn [deref]. rewrite bind_Ret. rewrite Z.gtb_ltb.
  pose proof (owned_nil (vheap s) Hwf) as Ho.
  assert (Hrd : forall h, read_dev dev 0 1 (set_vheap s h) = Ret (in_state w (set_vheap s h), (st, bytes))).
  { intros h. unfold read_dev. change (drv (set_vheap s h)) with (drv s). rewrite Hx. cbn [deref]. by rewrite bind_Ret, Hr, bind_Ret. }
  destruct (Z.ltb_spec 512 (bd_sectorsize x)) as [Hgt|Hle].
  - destruct (malloc_law (vheap s) (bd_sectorsize x) Hwf) as (h1 & p & -> & Hwf1 & Hc); [lia|]. rewrite bind_Ret. cbn [fst snd].
    destruct Hc as [[-> Hl]|(Hp & Hfr & Hl)].
    { exists h1, s.(drv).(hw), (- ENOMEM), None. split; [by destruct s as [? ? ? ? ? ? ? ? ? ? ? ? ? []]|]. split; [by eapply owned_same|by left]. }
    rewrite (proj2 (Z.eqb_neq p 0) Hp), Hrd, bind_Ret. cbv beta iota. pose proof (owned_more _ _ _ _ _ _ Ho Hwf1 Hp Hfr Hl) as Ho1.
    destruct (free_head _ _ _ _ Ho1) as (h2 & E2 & Ho2).
    assert (Hfb : free_block (in_state w (set_vheap s h1)) p = Ret (in_state w (set_vheap s h2))).
    { unfold free_block. change (vheap (in_state w (set_vheap s h1))) with h1. by rewrite E2, bind_Ret. }
    destruct (Z.ltb_spec st 0) as [Hs|Hs]; [rewrite Hfb, bind_Ret; exists h2, w, st, None; split; [done|]; split; [done|]; right; by left|].
    destruct (Hb Hs) as [Hlb Hbb]. unfold filled. rewrite (proj2 (Z.leb_le _ _)) by lia. cbn [andb]. change sizeof_MBR with 512%nat.
    rewrite (proj2 (Nat.leb_le _ _)) by lia. rewrite bind_Ret, Hfb, bind_Ret. exists h2, w, 0, (Some (mbr_of (take 512 bytes))). split; [done|]. split; [done|]. by right; right.
  - specialize (Hrd (vheap s)). assert (Es : set_vheap s (vheap s) = s) by (destruct s as [[[]]]; reflexivity). rewrite Es in Hrd. rewrite Hrd, bind_Ret. cbv beta iota.
    destruct (Z.ltb_spec st 0) as [Hs|Hs]; [exists (vheap s), w, st, None; rewrite Es; split; [done|]; split; [done|]; right; by left|].
    destruct (Hb Hs) as [Hlb Hbb]. unfold filled. rewrite (proj2 (Z.leb_le _ _)) by lia. cbn [andb]. change sizeof_MBR with 512%nat.
    rewrite (proj2 (Nat.leb_le _ _)) by lia. rewrite bind_Ret. exists (vheap s), w, 0, (Some (mbr_of (take 512 bytes))). rewrite Es.
    split; [by rewrite take_ge by lia|]. split; [done|]. by right; right.
Qed.
End table.

(** ** Properties *)


(** A disk whose second slot alone is allocated: 100000 sectors from 2048. *)
Definition demo_slot : list Z := [128; 1; 2; 0; 12; 3; 4; 0; 0; 8; 0; 0; 160; 134; 1; 0].
Definition demo_sector : list Z :=
  replicate 440 7 ++ [0xEF; 0xBE; 0xAD; 0xDE] ++ [0; 0] ++ replicate 16 0 ++ demo_slot ++ replicate 32 0 ++ [0x55; 0xAA].
(** The sectors of the disks. *)
Definition demo_disk : BlockDevices (Z -> list Z) := {|
  dev_read _ _ l n w := Ret (w, (0, concat ((fun i => w (l + Z.of_nat i)) <$> seq 0 (Z.to_nat n))));
  dev_write _ _ _ _ _ w := Ret (w, -1) |}.
#[local] Existing Instance demo_disk.
Definition demo_bd : BlockDevice := mkBD 1 0 512 0 200000 0.
(** ["hda"] with one partition ["p0"] registered. *)
Definition demo_mb : MountableBlockDevice := mkMB 2 2048 0 100000 512 true 51.
Definition demo_storage : storage (Z -> list Z) :=
  mkST {[ 51 := demo_bd ]} {[ 61 := demo_mb ]} ∅ (mkLL 0 0) (mkLL 71 71)
    (fun l => if l =? 0 then demo_sector else replicate 512 (l mod 256)).
Definition demo_st : vstate kstate (storage (Z -> list Z)) :=
  mkV (demo_pmem falloc_boot) ∅ (<[1 := [104; 100; 97]]> {[ 2 := [112; 48] ]}) {[ 71 := mkNode 61 0 ]} ∅ ∅ ∅ 0 [] (mkHT 0 [] 0 0 0 0)
    (mkLL 0 0) 0 [] demo_storage.


(** a device that can be mounted is found by its disk's name and its own
    behind it, the first one in the order they were made (null when there is
    none), and reads and writes go to the disk behind its offset.  An
    identifier that starts with ["UUID="] is undefined as soon as there is a
    device: no device that can be mounted is ever given a UUID. *)
Theorem find_mountable_correct {H W} `{!Allocator H} `{!BlockDevices W} `{!BlockDrivers (vstate H (storage W))}
    (s : vstate H (storage W)) ds stack id :
  entries_of s s.(drv).(g_mountable_blkdevs) ds -> Forall (mountable_ok s id) ds -> length stack = 129%nat -> text id ->
  (~ UUID_EQ `prefix_of` id ->
     blkdevm_find_mountable_blkdev stack id s = Ret (default 0 (head (filter (fun mb => full_name s mb = Some id) ds)))) /\
  (UUID_EQ `prefix_of` id -> forall mb ds' x, ds = mb :: ds' -> s.(drv).(mblkdev_at) !! mb = Some x -> x.(mb_uuid) = 0 ->
     s.(strs) !! 0 = None -> blkdevm_find_mountable_blkdev stack id s = Undef) /\
  (forall mb x l n, s.(drv).(mblkdev_at) !! mb = Some x -> x.(mb_rw) = true ->
     part_read mb l n s = read_dev x.(mb_parent) (u64 (x.(offset) + l)) n s).
Proof.
  intros He Hok Hst Hid. assert (Hu : text UUID_EQ) by (split; [repeat constructor; lia|cbn; lia]).
  unfold blkdevm_find_mountable_blkdev. rewrite (str_starts_spec id UUID_EQ Hid Hu), bind_Ret. split; [|split].
  - intros Hn. rewrite bool_decide_eq_false_2 by done. by apply by_name_spec.
  - intros Hp mb ds' x -> Hx Hux H0. rewrite bool_decide_eq_true_2 by done. eapply by_uuid_null; try done.
    apply Forall_cons in Hok as [[Hz _] _]. exact Hz.
  - intros mb x l n Hx Hrw. unfold part_read. rewrite Hx. cbn [deref]. by rewrite bind_Ret, Hrw.
Qed.

Definition no_blkdrv : BlockDrivers (vstate kstate (storage (Z -> list Z))) := {| blkdrv_init _ := None; blkdrv_destroy _ := None |}.
#[local] Existing Instance no_blkdrv.
Lemma find_mountable_correct_witness :
  blkdevm_find_mountable_blkdev (replicate 129 7) [104; 100; 97; 112; 48] demo_st = Ret 61 /\
  part_read 61 3 1 demo_st = read_dev 51 2051 1 demo_st.
Proof.
  destruct (find_mountable_correct demo_st [61] (replicate 129 7) [104; 100; 97; 112; 48]) as (H1 & _ & H3).
  - exists [(71, 61)]. split; [|split; [apply NoDup_singleton|reflexivity]]. split; [reflexivity|]. split; [discriminate|]. exists 0. split; reflexivity.
  - apply Forall_singleton. split; [discriminate|]. exists demo_mb, demo_bd, [104; 100; 97], [112; 48].
    repeat (split; [reflexivity|]). repeat split; try (repeat constructor; lia); cbn; lia.
  - reflexivity.
  - split; [repeat constructor; lia|cbn; lia].
  - split; [rewrite H1; [vm_compute; reflexivity|]|exact (H3 61 demo_mb 3 1 eq_refl eq_refl)].
    intros E. apply (bool_decide_eq_true_2 _) in E. vm_compute in E. discriminate E.
Defined.

(** The block of the first partition's name is a byte short: the name takes
    two characters and a terminator.  A UUID of a partition is made from the
    slot at the partition's position, not from its own. *)
Example suffix_block_short : dig_count 0 + 2 = 2 /\ suffix_text 0 = Ret [112; 48].
Proof. by vm_compute. Qed.
Example uuid_of_other_slot : let mbr := mbr_of demo_sector in
  alloc_slots mbr.(partitions) = [mbr_partition demo_slot] /\ slot_uuid mbr 0 <> slot_uuid mbr 1 /\
  mbr_uuid_for_part mbr 0 = Ret (inr (slot_uuid mbr 0)).
Proof. vm_compute. split; [done|]. split; done. Qed.
