(* ===== verification/Ata.v ===== *)
(** * ATA drives by programmed input and output

    [drivers/storage/ata/atapio.c]: commands, waiting, sectors word
    by word through the data port.  The drive behind the ports is a parameter
    with the behaviour the ATA standard gives it ([PioDrive]). *)
From Stdlib Require Import Floats.SpecFloat.
From S2P Require Import Prelude Alloc CString Kmalloc LinkedList Fs Printf Interrupts Time Storage.

(** ** Data ([ata.h]) *)
Definition EINVAL : Z := 22.
Definition ATA_STATUS_ERR : Z := Z.shiftl 1 0.
Definition ATA_STATUS_DRQ : Z := Z.shiftl 1 3.
Definition ATA_STATUS_DF : Z := Z.shiftl 1 5.
Definition ATA_STATUS_BSY : Z := Z.shiftl 1 7.
Definition ATA_REG_DATA (x : Z) : Z := x.
Definition ATA_REG_ERR (x : Z) : Z := x + 1.
Definition ATA_REG_SECTOR (x : Z) : Z := x + 2.
Definition ATA_REG_LBA_LO (x : Z) : Z := x + 3.
Definition ATA_REG_LBA_MID (x : Z) : Z := x + 4.
Definition ATA_REG_LBA_HI (x : Z) : Z := x + 5.
Definition ATA_REG_DRIVE_SEL (x : Z) : Z := x + 6.
Definition ATA_REG_STATUS (x : Z) : Z := x + 7.
Definition ATA_REG_COMMAND (x : Z) : Z := x + 7.
Definition ATA_TYPE_UNKNOWN : Z := 0.
Definition ATA_TYPE_CHS : Z := 1.
Definition ATA_TYPE_LBA28 : Z := 2.
Definition ATA_TYPE_LBA48 : Z := 3.
Record AtaStorageDevice := mkAta { portio : Z; portctl : Z; master : bool; ata_type : Z; dma : bool; controller : Z }.

Definition ATA_READ_TIMEOUT_MS : Z := 200.
Definition ATA_WRITE_TIMEOUT_MS : Z := 200.
Definition ATA_FLUSH_SECTORS_TIMEOUT_MS : Z := 200.

(** [min] of [math.c], on [double]. *)
Definition fmin (x y : spec_float) : spec_float := if SFltb y x then y else x.

Section atapio.
Context {X : Type} `{!Bus X} `{!TimeSources X}.

(** The machine behind the driver: its clock, and the drives' descriptions. *)
Record ataw := mkAW { aw_tk : tkstate unit X; ata_at : gmap Z AtaStorageDevice }.
Definition aw_x (w : ataw) : X := w.(aw_tk).(tk_x).
Definition put_x (x : X) (w : ataw) : ataw := mkAW (set_x w.(aw_tk) x) w.(ata_at).
Definition outb (v p : Z) (w : ataw) : ataw := put_x (port_outb v p (aw_x w)) w.
Definition outw (v p : Z) (w : ataw) : ataw := put_x (port_outw v p (aw_x w)) w.
Definition inb (p : Z) (w : ataw) : Z * ataw := let r := port_inb p (aw_x w) in (r.1, put_x r.2 w).
Definition inw (p : Z) (w : ataw) : Z * ataw := let r := port_inw p (aw_x w) in (r.1, put_x r.2 w).

(** How often a drive is asked before the fuel is out, and what the interrupts
    do while the code sleeps. *)
Context (fuel : nat) (irqs : nat -> X -> X).
Definition sleep_400 (w : ataw) : outcome ataw :=
  r ← nanosleep fuel irqs (mkTS 0 400) w.(aw_tk); Ret (mkAW r.1.1 w.(ata_at)).

(** *** [atapio.c] *)
Definition atapio_internal_sectors (sectors : Z) : Z := if sectors >=? 256 then 0 else u16 sectors.
(** [!atadev->master << 4]. *)
Definition slave_bit (a : AtaStorageDevice) : Z := Z.shiftl (if a.(master) then 0 else 1) 4.

(** The commands return their [sectors] or [-EINVAL], as a [bool]. *)
Definition send_cmd (cmd48 cmd28 lba sectors : Z) (dev : BlockDevice) (w : ataw) : outcome (ataw * bool) :=
  a ← deref (w.(ata_at) !! dev.(extra));
  let p := a.(portio) in
  if a.(ata_type) =? ATA_TYPE_LBA48 then
    let w := outb (Z.lor 0x40 (slave_bit a)) (ATA_REG_DRIVE_SEL p) w in
    let w := outb (Z.shiftr sectors 8) (ATA_REG_SECTOR p) w in
    let w := outb (Z.shiftr lba 24) (ATA_REG_LBA_LO p) w in
    let w := outb (Z.shiftr lba 32) (ATA_REG_LBA_MID p) w in
    let w := outb (Z.shiftr lba 40) (ATA_REG_LBA_HI p) w in
    let w := outb sectors (ATA_REG_SECTOR p) w in
    let w := outb lba (ATA_REG_LBA_LO p) w in
    let w := outb (Z.shiftr lba 8) (ATA_REG_LBA_MID p) w in
    let w := outb (Z.shiftr lba 16) (ATA_REG_LBA_HI p) w in
    Ret (outb cmd48 (ATA_REG_COMMAND p) w, negb (sectors =? 0))
  else if a.(ata_type) =? ATA_TYPE_LBA28 then
    let w := outb (Z.lor (Z.lor 0xE0 (slave_bit a)) (Z.land (Z.shiftr lba 24) 0x0F)) (ATA_REG_DRIVE_SEL p) w in
    let w := outb sectors (ATA_REG_SECTOR p) w in
    let w := outb lba (ATA_REG_LBA_LO p) w in
    let w := outb (Z.shiftr lba 8) (ATA_REG_LBA_MID p) w in
    let w := outb (Z.shiftr lba 16) (ATA_REG_LBA_HI p) w in
    Ret (outb cmd28 (ATA_REG_COMMAND p) w, negb (sectors =? 0))
  else if a.(ata_type) =? ATA_TYPE_CHS then Panic
  else Ret (w, true).
Definition atapio_send_read_cmd : Z -> Z -> BlockDevice -> ataw -> outcome (ataw * bool) := send_cmd 0x24 0x20.
Definition atapio_send_write_cmd : Z -> Z -> BlockDevice -> ataw -> outcome (ataw * bool) := send_cmd 0x34 0x30.

Definition set_bit (status bit : Z) : bool := negb (Z.land status bit =? 0).
(** [timer_elapsed_ms(&t) > timeout_ms]. *)
Definition timed_out (t : Timer) (timeout_ms : Z) (w : ataw) : bool := SFltb (double_of timeout_ms) (timer_elapsed_ms t w.(aw_tk)).

Fixpoint flush_loop (fuel : nat) (t : Timer) (timeout_ms p : Z) (w : ataw) : outcome (ataw * bool) :=
  match fuel with
  | O => Undef
  | S fuel =>
      let '(status, w) := inb (ATA_REG_STATUS p) w in
      if set_bit status ATA_STATUS_BSY then (if timed_out t timeout_ms w then Ret (w, false) else flush_loop fuel t timeout_ms p w)
      else Ret (w, true)
  end.
Definition atapio_flush_sectors (timeout_ms : Z) (dev : BlockDevice) (w : ataw) : outcome (ataw * bool) :=
  a ← deref (w.(ata_at) !! dev.(extra));
  let w := outb 0xE7 (ATA_REG_COMMAND a.(portio)) w in
  t ← timer_start w.(aw_tk);
  flush_loop fuel t timeout_ms a.(portio) w.

Fixpoint ready_loop (fuel : nat) (t : Timer) (timeout_ms p : Z) (w : ataw) : outcome (ataw * bool) :=
  match fuel with
  | O => Undef
  | S fuel =>
      if timed_out t timeout_ms w then Ret (w, false)
      else
        let '(status, w) := inb (ATA_REG_STATUS p) w in
        if negb (set_bit status ATA_STATUS_BSY) && set_bit status ATA_STATUS_DRQ then Ret (w, true)
        else if set_bit status ATA_STATUS_ERR || set_bit status ATA_STATUS_DF then
          let '(error, w) := inb (ATA_REG_ERR p) w in Ret (w, false)
        else ready_loop fuel t timeout_ms p w
  end.
Definition atapio_wait_for_ready (timeout_ms : Z) (dev : BlockDevice) (w : ataw) : outcome (ataw * bool) :=
  a ← deref (w.(ata_at) !! dev.(extra));
  t ← timer_start w.(aw_tk);
  ready_loop fuel t timeout_ms a.(portio) w.

Definition atapio_is_valid_range (lba sectors : Z) (dev : BlockDevice) : bool :=
  if (dev.(bd_sector_count) <? lba) || (sectors =? 0) then false else sectors <=? dev.(bd_sector_count) - lba.

(** [int st = ...] of a [bool]. *)
Definition as_int (b : bool) : Z := if b then 1 else 0.
Definition working_sectors (sectors : Z) : outcome Z := z ← ld_trunc (fmin (double_of sectors) (double_of 256)); Ret z.

(** The 256 words of a sector, from the [i]th on. *)
Fixpoint read_words (n : nat) (i p dest : Z) (m : gmap Z Z) (w : ataw) : outcome (gmap Z Z * ataw) :=
  match n with
  | O => Ret (m, w)
  | S n =>
      let '(v, w) := inw (ATA_REG_DATA p) w in
      m ← store m (dest + i * 2) (u8 v);
      m ← store m (dest + (i * 2 + 1)) (u8 (Z.land (Z.shiftr v 8) 0xFF));
      read_words n (i + 1) p dest m w
  end.
(** The sectors of one command; a status below 0 is an early return. *)
Fixpoint read_sectors (n : nat) (sector : Z) (a : AtaStorageDevice) (dev : BlockDevice) (dest : Z) (m : gmap Z Z) (w : ataw) : outcome (gmap Z Z * ataw * Z) :=
  match n with
  | O => Ret (m, w, 0)
  | S n =>
      w ← (if sector =? 0 then Ret w else sleep_400 w);
      r ← atapio_wait_for_ready ATA_READ_TIMEOUT_MS dev w;
      let '(w, ok) := r : ataw * bool in
      let st := as_int ok in
      if st <? 0 then Ret (m, w, st)
      else
        r ← read_words 256 0 a.(portio) dest m w;
        let '(m, w) := r : gmap Z Z * ataw in
        read_sectors n (sector + 1) a dev dest m w
  end.
Fixpoint read_loop (k : nat) (lba sectors : Z) (a : AtaStorageDevice) (dev : BlockDevice) (dest : Z) (m : gmap Z Z) (w : ataw) : outcome (gmap Z Z * ataw * Z) :=
  match k with
  | O => Undef
  | S k =>
      if sectors =? 0 then Ret (m, w, sectors)
      else
        z ← working_sectors sectors;
        let workingsectors := u16 z in
        r ← atapio_send_read_cmd lba (atapio_internal_sectors workingsectors) dev w;
        let '(w, ok) := r : ataw * bool in
        let st := as_int ok in
        if st <? 0 then Ret (m, w, st)
        else
          r ← read_sectors (Z.to_nat workingsectors) 0 a dev dest m w;
          let '(m, w, st) := r : gmap Z Z * ataw * Z in
          if st <? 0 then Ret (m, w, st)
          else read_loop k (u64 (lba + workingsectors)) (u64 (sectors - workingsectors)) a dev dest m w
  end.
Definition atapio_read (dev : BlockDevice) (lba sectors dest : Z) (m : gmap Z Z) (w : ataw) : outcome (gmap Z Z * ataw * Z) :=
  if negb (atapio_is_valid_range lba sectors dev) then Ret (m, w, - EINVAL)
  else a ← deref (w.(ata_at) !! dev.(extra)); read_loop (S (Z.to_nat sectors)) lba sectors a dev dest m w.

Fixpoint write_words (n : nat) (i p src : Z) (m : gmap Z Z) (w : ataw) : outcome ataw :=
  match n with
  | O => Ret w
  | S n =>
      hi ← load m (src + (i * 2 + 1));
      lo ← load m (src + i * 2);
      w ← sleep_400 (outw (Z.lor (u16 (Z.shiftl hi 8)) lo) (ATA_REG_DATA p) w);
      write_words n (i + 1) p src m w
  end.
Fixpoint write_sectors (n : nat) (sector : Z) (a : AtaStorageDevice) (dev : BlockDevice) (src : Z) (m : gmap Z Z) (w : ataw) : outcome (ataw * Z) :=
  match n with
  | O => Ret (w, 0)
  | S n =>
      w ← (if sector =? 0 then Ret w else sleep_400 w);
      r ← atapio_wait_for_ready ATA_READ_TIMEOUT_MS dev w;
      let '(w, ok) := r : ataw * bool in
      let st := as_int ok in
      if st <? 0 then Ret (w, st)
      else w ← write_words 256 0 a.(portio) src m w; write_sectors n (sector + 1) a dev src m w
  end.
Fixpoint write_loop (k : nat) (lba sectors : Z) (a : AtaStorageDevice) (dev : BlockDevice) (src : Z) (m : gmap Z Z) (w : ataw) : outcome (ataw * Z) :=
  match k with
  | O => Undef
  | S k =>
      if sectors =? 0 then Ret (w, sectors)
      else
        workingsectors ← working_sectors sectors;
        r ← atapio_send_write_cmd lba (atapio_internal_sectors workingsectors) dev w;
        let '(w, ok) := r : ataw * bool in
        let st := as_int ok in
        if st <? 0 then Ret (w, st)
        else
          r ← write_sectors (Z.to_nat workingsectors) 0 a dev src m w;
          let '(w, st) := r : ataw * Z in
          if st <? 0 then Ret (w, st)
          else
            r ← atapio_flush_sectors ATA_FLUSH_SECTORS_TIMEOUT_MS dev w;
            let '(w, ok) := r : ataw * bool in
            let st := as_int ok in
            if st <? 0 then Ret (w, st)
            else write_loop k (u64 (lba + workingsectors)) (u64 (sectors - workingsectors)) a dev src m w
  end.
Definition atapio_write (dev : BlockDevice) (lba sectors src : Z) (m : gmap Z Z) (w : ataw) : outcome (ataw * Z) :=
  if negb (atapio_is_valid_range lba sectors dev) then Ret (w, - EINVAL)
  else a ← deref (w.(ata_at) !! dev.(extra)); write_loop (S (Z.to_nat sectors)) lba sectors a dev src m w.
End atapio.
Arguments ataw : clear implicits.

(** ** Integers as doubles *)
Lemma double_ltb a b : 0 < a < 2 ^ 53 -> 0 < b < 2 ^ 53 -> SFltb (double_of a) (double_of b) = (a <? b).
Proof.
  intros Ha Hb. rewrite !double_of_exact by lia. unfold fl_exact, SFltb, SFcompare.
  pose proof (width_le a 53 Ha). pose proof (width_le b 53 Hb). pose proof (width_pos a ltac:(lia)). pose proof (width_pos b ltac:(lia)).
  pose proof (Z.pow_pos_nonneg 2 (53 - width a) ltac:(lia) ltac:(lia)). pose proof (Z.pow_pos_nonneg 2 (53 - width b) ltac:(lia) ltac:(lia)).
  assert (Hlt : forall x y, 0 < x -> 0 < y -> width x < width y -> x < y).
  { intros x y Hx Hy. unfold width. intros. apply Z.log2_lt_cancel. lia. }
  destruct (Z.compare_spec (0 + width a - 53) (0 + width b - 53)) as [E|E|E].
  - assert (Ew : width a = width b) by lia. rewrite Ew in *. rewrite <- Z2Pos.inj_compare by nia.
    rewrite <- Zmult_compare_compat_r by lia. unfold Z.ltb. by destruct (a ?= b).
  - symmetry. apply Z.ltb_lt, Hlt; lia.
  - symmetry. apply Z.ltb_ge. pose proof (Hlt b a). lia.
Qed.
Lemma double_trunc q : 0 < q < 2 ^ 53 -> ld_trunc (double_of q) = Ret q.
Proof.
  intros Hq. rewrite double_of_exact by done. pose proof (width_le q 53 Hq). pose proof (width_pos q ltac:(lia)).
  pose proof (Z.pow_pos_nonneg 2 (53 - width q) ltac:(lia) ltac:(lia)).
  unfold fl_exact, ld_trunc. rewrite Z2Pos.id by nia.
  assert (E : (if 0 <=? 0 + width q - 53 then q * 2 ^ (53 - width q) * 2 ^ (0 + width q - 53) else q * 2 ^ (53 - width q) / 2 ^ (- (0 + width q - 53))) = q).
  { destruct (0 <=? 0 + width q - 53) eqn:Hc; [replace (53 - width q) with 0 by lia; replace (0 + width q - 53) with 0 by lia; lia|].
    replace (- (0 + width q - 53)) with (53 - width q) by lia. by rewrite Z.div_mul by lia. }
  rewrite E. cbv zeta. by rewrite (proj2 (Z.leb_le _ _)), (proj2 (Z.ltb_lt _ _)) by lia.
Qed.
Lemma working_sectors_spec s : 0 < s < 2 ^ 53 -> working_sectors s = Ret (Z.min s 256).
Proof.
  intros Hs. unfold working_sectors, fmin. rewrite double_ltb by lia. case_cond; rewrite double_trunc by lia; cbn; f_equal; lia.
Qed.

(** ** A drive as the standard describes it

    What it stores, and what it is doing: handing over or taking the sectors
    [at_], [at_ + 1], ..., or writing back, with [busy] more polls before the
    status shows it ready. *)
Notation disk := (gmap Z (list Z)).
Inductive phase :=
| idle
| data_in (at_ : Z) (left busy : nat) (ws : list Z)
| data_out (at_ : Z) (left busy : nat) (got : list Z)
| flushing (busy : nat).
Definition busy_of (ph : phase) : nat :=
  match ph with idle => 0 | data_in _ _ b _ => b | data_out _ _ b _ => b | flushing b => b end.
Definition set_busy (b : nat) (ph : phase) : phase :=
  match ph with idle => idle | data_in l n _ ws => data_in l n b ws | data_out l n _ got => data_out l n b got | flushing _ => flushing b end.
Definition transfers (ph : phase) : Prop := match ph with data_in _ _ _ _ | data_out _ _ _ _ => True | _ => False end.
Definition sector_ok (ws : list Z) : Prop := length ws = 256%nat /\ Forall (fun v => 0 <= v < 2 ^ 16) ws.
Definition disk_ok (cap : Z) (d : disk) : Prop := forall l, 0 <= l < cap -> sector_ok (d !!! l).
(** A count of 0 in the sector register is the largest one. *)
Definition count_of (max c : Z) : nat := Z.to_nat (if c =? 0 then max else c).

(** The phase a transfer of [n] sectors from [l] is in before its first word. *)
Inductive before (B : nat) (d : disk) (l : Z) : bool -> nat -> phase -> Prop :=
| before_none wr : before B d l wr 0 idle
| before_in n b : (b <= B)%nat -> before B d l false (S n) (data_in l (S n) b (d !!! l))
| before_out n b : (b <= B)%nat -> before B d l true (S n) (data_out l (S n) b []).

Definition late {X} `{!TimeSources X} (src : Z) (x0 x : X) : bool :=
  let ts := elapsed (ts_now src x) (ts_now src x0) in
  SFltb (double_of 200) (to_double (ld_add (ld_of (ts.(tv_sec) * 1000) 0) (ld_div (ld_of ts.(tv_nsec) 0) (ld_of 1000000 0)))).
Definition poll {X} `{!Bus X} (p : Z) (k : nat) (x : X) : X := Nat.iter k (fun x => (port_inb (ATA_REG_STATUS p) x).2) x.

(** [B] bounds the polls a drive is busy for; [cap] is the number of its
    sectors; [src] is the clock. *)
Class PioDrive {X : Type} `{!Bus X} `{!TimeSources X} (a : AtaStorageDevice) (cap : Z) (B : nat) (src : Z) (dview : X -> disk * phase) : Prop := {
  (** The commands: the registers name the drive, the sector and the count. *)
  law_cmd28 x d (wr : bool) sel cnt lo mid hi : dview x = (d, idle) -> a.(ata_type) = ATA_TYPE_LBA28 ->
    Z.land sel 0xF0 = Z.lor 0xE0 (slave_bit a) ->
    let l := Z.land sel 0x0F * 2 ^ 24 + u8 hi * 2 ^ 16 + u8 mid * 2 ^ 8 + u8 lo in
    let n := count_of 256 (u8 cnt) in
    l + Z.of_nat n <= cap ->
    let p := a.(portio) in
    let x' := port_outb (if wr then 0x30 else 0x20) (ATA_REG_COMMAND p) (port_outb hi (ATA_REG_LBA_HI p) (port_outb mid (ATA_REG_LBA_MID p)
                (port_outb lo (ATA_REG_LBA_LO p) (port_outb cnt (ATA_REG_SECTOR p) (port_outb sel (ATA_REG_DRIVE_SEL p) x))))) in
    (dview x').1 = d /\ before B d l wr n (dview x').2;
  law_cmd48 x d (wr : bool) sel cnt1 lo1 mid1 hi1 cnt lo mid hi : dview x = (d, idle) -> a.(ata_type) = ATA_TYPE_LBA48 ->
    sel = Z.lor 0x40 (slave_bit a) ->
    let l := u8 hi1 * 2 ^ 40 + u8 mid1 * 2 ^ 32 + u8 lo1 * 2 ^ 24 + u8 hi * 2 ^ 16 + u8 mid * 2 ^ 8 + u8 lo in
    let n := count_of 65536 (u8 cnt1 * 2 ^ 8 + u8 cnt) in
    l + Z.of_nat n <= cap ->
    let p := a.(portio) in
    let x' := port_outb (if wr then 0x34 else 0x24) (ATA_REG_COMMAND p) (port_outb hi (ATA_REG_LBA_HI p) (port_outb mid (ATA_REG_LBA_MID p)
                (port_outb lo (ATA_REG_LBA_LO p) (port_outb cnt (ATA_REG_SECTOR p)
                (port_outb hi1 (ATA_REG_LBA_HI p) (port_outb mid1 (ATA_REG_LBA_MID p) (port_outb lo1 (ATA_REG_LBA_LO p)
                (port_outb cnt1 (ATA_REG_SECTOR p) (port_outb sel (ATA_REG_DRIVE_SEL p) x))))))))) in
    (dview x').1 = d /\ before B d l wr n (dview x').2;
  law_flush x d : dview x = (d, idle) ->
    exists b, (b <= B)%nat /\ dview (port_outb 0xE7 (ATA_REG_COMMAND a.(portio)) x) = (d, flushing b);
  (** The status. *)
  law_busy x d ph b : dview x = (d, ph) -> busy_of ph = S b -> let r := port_inb (ATA_REG_STATUS a.(portio)) x in
    set_bit r.1 ATA_STATUS_BSY = true /\ set_bit r.1 ATA_STATUS_ERR || set_bit r.1 ATA_STATUS_DF = false /\ dview r.2 = (d, set_busy b ph);
  law_ready x d ph : dview x = (d, ph) -> busy_of ph = 0%nat -> transfers ph -> let r := port_inb (ATA_REG_STATUS a.(portio)) x in
    set_bit r.1 ATA_STATUS_BSY = false /\ set_bit r.1 ATA_STATUS_DRQ = true /\ dview r.2 = (d, ph);
  law_flushed x d : dview x = (d, flushing 0) -> let r := port_inb (ATA_REG_STATUS a.(portio)) x in
    set_bit r.1 ATA_STATUS_BSY = false /\ dview r.2 = (d, idle);
  (** It is ready before 200 ms have passed. *)
  law_prompt x k : (k <= busy_of (dview x).2)%nat -> late src x (poll a.(portio) k x) = false;
  (** The data port: one word at a time, then the next sector or the end. *)
  law_in x d l n v ws : dview x = (d, data_in l (S n) 0 (v :: ws)) -> 0 <= v < 2 ^ 16 -> let r := port_inw (ATA_REG_DATA a.(portio)) x in
    r.1 = v /\ (dview r.2).1 = d /\
    if decide (ws = []) then before B d (l + 1) false n (dview r.2).2 else (dview r.2).2 = data_in l (S n) 0 ws;
  law_out x d l n got v : dview x = (d, data_out l (S n) 0 got) -> 0 <= v < 2 ^ 16 -> (length got < 256)%nat ->
    let x' := port_outw v (ATA_REG_DATA a.(portio)) x in
    if decide (length got = 255%nat) then
      (dview x').1 = <[l := got ++ [v]]> d /\ before B (<[l := got ++ [v]]> d) (l + 1) true n (dview x').2
    else dview x' = (d, data_out l (S n) 0 (got ++ [v])) }.

(** The bytes of a sector: the low byte of each word first. *)
Definition word_bytes (v : Z) : list Z := [u8 v; u8 (Z.land (Z.shiftr v 8) 0xFF)].
Definition sector_bytes (ws : list Z) : list Z := concat (map word_bytes ws).
Definition word_of (lo hi : Z) : Z := Z.lor (u16 (Z.shiftl hi 8)) lo.
Fixpoint sector_words (n : nat) (bs : list Z) : list Z :=
  match n, bs with S n, lo :: hi :: bs => word_of lo hi :: sector_words n bs | _, _ => [] end.
(** The sectors [l], ..., [l + n - 1] all hold [ws]. *)
Fixpoint fill (l : Z) (n : nat) (ws : list Z) (d : disk) : disk :=
  match n with O => d | S n => fill (l + 1) n ws (<[l := ws]> d) end.

Lemma length_sector_bytes ws : length (sector_bytes ws) = (2 * length ws)%nat.
Proof. unfold sector_bytes. induction ws as [|v ws IH]; [done|]. cbn [map concat]. rewrite length_app, IH. cbn. lia. Qed.
Lemma sector_bytes_range ws : Forall is_byte (sector_bytes ws).
Proof. unfold sector_bytes. induction ws as [|v ws IH]; [constructor|]. cbn [map concat word_bytes app].
  constructor; [apply u8_range|]. constructor; [apply u8_range|done].
Qed.
Lemma word_of_spec lo hi : is_byte lo -> is_byte hi -> word_of lo hi = hi * 256 + lo.
Proof.
  unfold is_byte, word_of. intros Hl Hh. rewrite Z.shiftl_mul_pow2 by lia. unfold u16. rewrite Z.mod_small by lia.
  rewrite <- Z.shiftl_mul_pow2, lor_shiftl_add by lia. lia.
Qed.
Lemma word_bytes_of lo hi : is_byte lo -> is_byte hi -> word_bytes (word_of lo hi) = [lo; hi].
Proof.
  intros Hl Hh. rewrite word_of_spec by done. unfold is_byte, word_bytes in *. rewrite Z.shiftr_div_pow2 by lia. change 0xFF with (Z.ones 8).
  rewrite Z.land_ones by lia. unfold u8.
  change (2 ^ 8) with 256. rewrite (Z.add_comm (hi * 256)), Z.mod_add, Z.div_add by lia.
  rewrite (Z.mod_small lo), (Z.div_small lo), !Z.mod_small by (rewrite ?Z.mod_small; lia). done.
Qed.
Lemma sector_words_spec n : forall bs, length bs = (2 * n)%nat -> Forall is_byte bs ->
  length (sector_words n bs) = n /\ Forall (fun v => 0 <= v < 2 ^ 16) (sector_words n bs) /\ sector_bytes (sector_words n bs) = bs.
Proof.
  induction n as [|n IH]; intros bs Hl Hb; [by destruct bs|]. destruct bs as [|lo [|hi bs]]; [cbn in Hl; lia|cbn in Hl; lia|].
  apply Forall_cons in Hb as [Hlo Hb]. apply Forall_cons in Hb as [Hhi Hb]. destruct (IH bs) as (H1 & H2 & H3); [cbn in Hl; lia|done|].
  cbn [sector_words]. split; [cbn; lia|]. split.
  - constructor; [|done]. rewrite word_of_spec by done. unfold is_byte in *. lia.
  - unfold sector_bytes in *. cbn [map concat]. by rewrite word_bytes_of, H3.
Qed.
Lemma fill_lookup n : forall l ws d i, fill l n ws d !!! i = if decide (l <= i < l + Z.of_nat n) then ws else d !!! i.
Proof.
  induction n as [|n IH]; intros l ws d i; cbn [fill]; [rewrite decide_False by lia; done|]. rewrite IH.
  destruct (decide (i = l)) as [->|Hne]; [rewrite decide_False, decide_True by lia; by rewrite lookup_total_insert_eq|].
  rewrite lookup_total_insert_ne by done. destruct (decide (l + 1 <= i < _)); [by rewrite decide_True by lia|by rewrite decide_False by lia].
Qed.

(** ** The code on such a drive *)
Section drive.
Context {X : Type} `{!Bus X} `{!TimeSources X} (fuel : nat) (irqs : nat -> X -> X).
Context (a : AtaStorageDevice) (cap : Z) (B : nat) (src : Z) (dview : X -> disk * phase) `{!PioDrive a cap B src dview}.
Notation ataw := (ataw X).

(** The machine has a clock and knows the drive. *)
Definition wired (dev : BlockDevice) (w : ataw) : Prop :=
  w.(ata_at) !! dev.(extra) = Some a /\ w.(aw_tk).(g_best_timesource) = src /\ src <> 0 /\ is_Some (w.(aw_tk).(timesources) !! src).
Lemma put_x_id (w : ataw) : put_x (aw_x w) w = w.
Proof. by destruct w as [[] ?]. Qed.
Lemma wired_put dev x w : wired dev w -> wired dev (put_x x w).
Proof. by destruct w as [[] ?]. Qed.
Lemma start_wired dev w : wired dev w -> timer_start w.(aw_tk) = Ret (mkTimer (ts_now src (aw_x w)) src).
Proof. intros (_ & <- & H0 & (s & Hs)). unfold timer_start, call_now. rewrite Hs. cbn. by rewrite (proj2 (Z.eqb_neq _ _) H0). Qed.
Lemma timed_out_late x0 x w : src <> 0 -> timed_out (mkTimer (ts_now src x0) src) 200 (put_x x w) = late src x0 x.
Proof. intros H0. unfold timed_out, timer_elapsed_ms, timer_elapsed, call_now. cbn [t_now starting_ts]. by rewrite (proj2 (Z.eqb_neq _ _) H0). Qed.

(** A sleep of 400 ns is over at once: it is shorter than the overhead. *)
Lemma sleep_400_spec dev w : wired dev w -> (0 < fuel)%nat -> sleep_400 fuel irqs w = Ret w.
Proof.
  intros Hw Hf. unfold sleep_400, nanosleep. rewrite (start_wired dev) by done. cbn [mbind outcome_bind].
  destruct fuel as [|f]; [lia|]. cbn [nanosleep_loop]. unfold timer_elapsed_sec, timer_elapsed, call_now. cbn [t_now starting_ts].
  destruct Hw as (_ & _ & H0 & _). rewrite (proj2 (Z.eqb_neq _ _) H0). unfold aw_x, elapsed. rewrite !Z.sub_diag. change (0 <? 0) with false. cbn iota.
  replace (SFltb _ _) with false by (symmetry; vm_compute; reflexivity). cbn. by destruct w.
Qed.

Definition with_view (w w' : ataw) (d : disk) (ph : phase) : Prop := exists x', w' = put_x x' w /\ dview x' = (d, ph).
Lemma with_view_trans w w1 w2 d1 ph1 d ph : with_view w w1 d1 ph1 -> with_view w1 w2 d ph -> with_view w w2 d ph.
Proof. intros (x1 & -> & _) (x2 & -> & H2). by exists x2. Qed.
Lemma with_view_wired dev w w' d ph : with_view w w' d ph -> wired dev w -> wired dev w' /\ dview (aw_x w') = (d, ph).
Proof. intros (x' & -> & H) Hw. split; [by apply wired_put|done]. Qed.

Lemma poll_S k (x : X) : (port_inb (ATA_REG_STATUS a.(portio)) (poll a.(portio) k x)).2 = poll a.(portio) (S k) x.
Proof. done. Qed.
Lemma set_busy_of b ph : busy_of (set_busy b ph) = match ph with idle => 0%nat | _ => b end.
Proof. by destruct ph. Qed.
Lemma set_busy_id ph b : busy_of ph = b -> set_busy b ph = ph.
Proof. by destruct ph; cbn; intros <-. Qed.

(** Polling a busy drive: it gets ready in time. *)
Lemma ready_loop_spec dev w x0 d ph : wired dev w -> transfers ph -> (busy_of (dview x0).2 = busy_of ph)%nat ->
  forall b k f, (b < f)%nat -> (k + b = busy_of ph)%nat -> dview (poll a.(portio) k x0) = (d, set_busy b ph) ->
  exists w', ready_loop f (mkTimer (ts_now src x0) src) 200 a.(portio) (put_x (poll a.(portio) k x0) w) = Ret (w', true) /\ with_view w w' d (set_busy 0 ph).
Proof.
  intros Hw Ht H0. assert (Hsrc : src <> 0) by apply Hw. assert (Hb : forall b, busy_of (set_busy b ph) = b) by (intros; by destruct ph).
  induction b as [|b IH]; intros k f Hf Hk Hv; (destruct f as [|f]; [lia|]); cbn [ready_loop].
  all: rewrite timed_out_late, law_prompt by (done || lia); unfold inb; cbn [aw_x put_x aw_tk tk_x set_x].
  - destruct (law_ready _ _ _ Hv (Hb _) ltac:(by destruct ph)) as (-> & -> & H). cbn [negb andb]. eexists. split; [done|]. by eexists.
  - destruct (law_busy _ _ _ _ Hv (Hb _)) as (-> & -> & H). cbn [negb andb].
    apply (IH (S k) f); [lia|lia|]. rewrite <- poll_S. etransitivity; [exact H|]. f_equal. by destruct ph.
Qed.
Lemma wait_spec dev w d ph : wired dev w -> dview (aw_x w) = (d, ph) -> transfers ph -> (busy_of ph <= B < fuel)%nat ->
  exists w', atapio_wait_for_ready fuel 200 dev w = Ret (w', true) /\ with_view w w' d (set_busy 0 ph).
Proof.
  intros Hw Hv Ht Hb. unfold atapio_wait_for_ready. destruct (Hw) as (-> & _). cbn [deref mbind outcome_bind]. rewrite (start_wired dev) by done. cbn [mbind outcome_bind].
  destruct (ready_loop_spec dev w (aw_x w) d ph Hw Ht ltac:(by rewrite Hv) (busy_of ph) 0 fuel) as (w' & E & H); [lia|lia|cbn; rewrite Hv; f_equal; symmetry; by apply set_busy_id|].
  change (poll a.(portio) 0 (aw_x w)) with (aw_x w) in E. rewrite put_x_id in E. by exists w'.
Qed.
Lemma flush_spec dev w d : wired dev w -> dview (aw_x w) = (d, idle) -> (B < fuel)%nat ->
  exists w', atapio_flush_sectors fuel 200 dev w = Ret (w', true) /\ with_view w w' d idle.
Proof.
  intros Hw Hv Hf. unfold atapio_flush_sectors. destruct (Hw) as (Ha & _). rewrite Ha. cbn [deref mbind outcome_bind].
  destruct (law_flush _ _ Hv) as (b0 & Hb0 & H0). set (w1 := outb _ _ w). set (x0 := port_outb _ _ _) in H0.
  assert (Hw1 : wired dev w1) by by apply wired_put. rewrite (start_wired dev) by done. cbn [mbind outcome_bind]. change (aw_x w1) with x0.
  assert (Hsrc : src <> 0) by apply Hw.
  assert (Hl : forall b k f, (b < f)%nat -> (k + b = b0)%nat -> dview (poll a.(portio) k x0) = (d, flushing b) ->
    exists w', flush_loop f (mkTimer (ts_now src x0) src) 200 a.(portio) (put_x (poll a.(portio) k x0) w) = Ret (w', true) /\ with_view w w' d idle).
  { induction b as [|b IH]; intros k f Hbf Hk Hv'; (destruct f as [|f]; [lia|]); cbn [flush_loop]; unfold inb; cbn [aw_x put_x aw_tk tk_x set_x].
    - destruct (law_flushed _ _ Hv') as (-> & H). eexists. split; [done|]. by eexists.
    - destruct (law_busy _ _ _ b Hv' eq_refl) as (-> & _ & H). rewrite poll_S in H |- *. fold (put_x (poll a.(portio) (S k) x0) w).
      change (put_x (poll a.(portio) (S k) x0) (put_x (poll a.(portio) k x0) w)) with (put_x (poll a.(portio) (S k) x0) w).
      rewrite timed_out_late, law_prompt by (done || (rewrite H0; cbn; lia)). apply IH; [lia|lia|done]. }
  change w1 with (put_x (poll a.(portio) 0 x0) w). apply (Hl b0); [lia|lia|done].
Qed.

(** *** Reading *)
Lemma store_word m dest v i : mapped m dest 512 -> 0 <= i < 256 -> exists m', store m (dest + i * 2) (u8 v) = Ret m' /\
  store m' (dest + (i * 2 + 1)) (u8 (Z.land (Z.shiftr v 8) 0xFF)) = Ret (write_bytes m (dest + i * 2) (word_bytes v)).
Proof.
  intros Hm Hi. eexists. split; [apply (store_mapped _ dest 512); [done|lia|apply u8_range]|].
  rewrite (store_mapped _ dest 512); [|apply (write_bytes_mapped m (dest + i * 2) [u8 v]); done|lia|apply u8_range].
  cbn [word_bytes write_bytes]. do 2 f_equal; lia.
Qed.
(** The words left of a sector, and what the drive does after the last. *)
Lemma read_words_spec dev dest d l k ws : forall i m w, wired dev w -> dview (aw_x w) = (d, data_in l (S k) 0 ws) -> ws <> [] -> Forall (fun v => 0 <= v < 2 ^ 16) ws ->
  mapped m dest 512 -> 0 <= i -> i + Z.of_nat (length ws) = 256 ->
  exists w' ph, read_words (length ws) i a.(portio) dest m w = Ret (write_bytes m (dest + i * 2) (sector_bytes ws), w') /\
    with_view w w' d ph /\ before B d (l + 1) false k ph.
Proof.
  induction ws as [|v ws IH]; intros i m w Hw Hv Hne Hr Hm Hi Hl; [done|]. apply Forall_cons in Hr as [Hv0 Hr]. cbn [length read_words] in *. unfold inw.
  destruct (law_in _ _ _ _ _ _ Hv Hv0) as (Ev & Ed & Hnext). rewrite Ev. destruct (store_word m dest v i) as (m1 & -> & E2); [done|lia|].
  cbn [mbind outcome_bind]. rewrite E2. cbn [mbind outcome_bind].
  set (x1 := (port_inw _ _).2) in *. set (m2 := write_bytes m _ _).
  assert (Em : forall l, write_bytes m2 (dest + (i + 1) * 2) l = write_bytes m (dest + i * 2) (word_bytes v ++ l)).
  { intros. rewrite write_bytes_app. unfold m2. f_equal. cbn [length word_bytes]. lia. }
  destruct (decide (ws = [])) as [->|Hws].
  - destruct (dview x1) as [d1 ph] eqn:E. cbn in Ed, Hnext. subst d1. exists (put_x x1 w), ph. split; [|split; [by exists x1|done]].
    by cbn [length read_words sector_bytes map concat app].
  - destruct (IH (i + 1) m2 (put_x x1 w)) as (w' & ph & E & (x' & -> & Hx') & Hb); [by apply wired_put|change (aw_x (put_x x1 w)) with x1; rewrite (surjective_pairing (dview x1)); f_equal; done|done|done|by apply write_bytes_mapped|lia|lia|].
    exists (put_x x' w), ph. rewrite E, Em. split; [done|]. split; [by exists x'|done].
Qed.

Lemma sector_length l d : disk_ok cap d -> 0 <= l < cap -> length (d !!! l) = 256%nat /\ length (sector_bytes (d !!! l)) = 512%nat.
Proof. intros Hd Hl. destruct (Hd l Hl) as [H _]. rewrite length_sector_bytes, H. done. Qed.
(** Every sector lands on the same 512 bytes. *)
Lemma write_bytes_over m p l1 l2 : length l1 = length l2 -> write_bytes (write_bytes m p l1) p l2 = write_bytes m p l2.
Proof. intros H. apply map_eq. intros i. rewrite !write_bytes_lookup, H. by destruct (decide _). Qed.

Lemma read_sectors_spec dev dest n : forall sector d l ph m w, wired dev w -> dview (aw_x w) = (d, ph) -> before B d l false n ph ->
  disk_ok cap d -> mapped m dest 512 -> 0 <= l -> l + Z.of_nat n <= cap -> (B < fuel)%nat ->
  exists w', read_sectors fuel irqs n sector a dev dest m w =
    Ret ((if decide (n = 0%nat) then m else write_bytes m dest (sector_bytes (d !!! (l + Z.of_nat n - 1)))), w', 0) /\ with_view w w' d idle.
Proof.
  induction n as [|n IH]; intros sector d l ph m w Hw Hv Hph Hd Hm Hl Hc Hf; cbn [read_sectors].
  { inversion Hph; subst. exists w. split; [done|]. exists (aw_x w). by rewrite put_x_id. }
  replace (if sector =? 0 then Ret w else sleep_400 fuel irqs w) with (Ret w) by (rewrite (sleep_400_spec dev) by (done || lia); by destruct (sector =? 0)).
  cbn [mbind outcome_bind]. inversion Hph as [|? b Hb|]; subst. change ATA_READ_TIMEOUT_MS with 200.
  destruct (wait_spec dev w d _ Hw Hv I ltac:(cbn; lia)) as (w1 & -> & H1). cbn [mbind outcome_bind as_int set_busy] in *. change (1 <? 0) with false. cbn iota.
  destruct (with_view_wired dev _ _ _ _ H1 Hw) as [Hw1 Hv1]. destruct (sector_length l _ Hd) as [L1 L2]; [lia|].
  destruct (read_words_spec dev dest d l n (d !!! l) 0 m w1) as (w2 & ph2 & E2 & H2 & Hb2); [done|done|by intros E0; rewrite E0 in L1|apply (Hd l); lia|done|lia|rewrite L1; lia|].
  rewrite L1 in E2. rewrite E2. cbn [mbind outcome_bind]. rewrite Z.add_0_r.
  destruct (with_view_wired dev _ _ _ _ H2 Hw1) as [Hw2 Hv2].
  destruct (IH (sector + 1) d (l + 1) ph2 (write_bytes m dest (sector_bytes (d !!! l))) w2) as (w3 & -> & H3); [done|done|done|done|by apply write_bytes_mapped|lia|lia|lia|].
  exists w3. split; [|eapply with_view_trans; [exact H1|]; eapply with_view_trans; eassumption].
  rewrite (decide_False (P := S n = 0%nat)) by lia. destruct (decide (n = 0%nat)) as [->|Hn]; [do 5 f_equal; f_equal; lia|].
  rewrite write_bytes_over by (destruct (sector_length (l + 1 + Z.of_nat n - 1) _ Hd); [lia|congruence]). do 6 f_equal. lia.
Qed.

(** *** Commands *)
Definition addressable (n : Z) : Prop :=
  a.(ata_type) = ATA_TYPE_LBA28 /\ cap <= 2 ^ 28 \/ a.(ata_type) = ATA_TYPE_LBA48 /\ cap <= 2 ^ 48 /\ n < 256.
Lemma u8_shiftr z k : 0 <= k -> u8 (Z.shiftr z k) = z / 2 ^ k mod 2 ^ 8.
Proof. intros. unfold u8. by rewrite Z.shiftr_div_pow2. Qed.
Lemma select28 h : 0 <= h < 16 -> let sel := Z.lor (Z.lor 0xE0 (slave_bit a)) (Z.land h 0x0F) in
  Z.land sel 0xF0 = Z.lor 0xE0 (slave_bit a) /\ Z.land sel 0x0F = h.
Proof.
  intros Hh. unfold slave_bit.
  assert (F : @forallb Z (fun h => @forallb Z (fun s => (Z.land (Z.lor (Z.lor 0xE0 (Z.shiftl s 4)) (Z.land h 0x0F)) 0xF0 =? Z.lor 0xE0 (Z.shiftl s 4))
    && (Z.land (Z.lor (Z.lor 0xE0 (Z.shiftl s 4)) (Z.land h 0x0F)) 0x0F =? h)) [0; 1]) (seqZ 0 16) = true) by (vm_compute; reflexivity).
  rewrite forallb_forall in F. specialize (F h). rewrite <- list_elem_of_In, elem_of_seqZ, forallb_forall in F. specialize (F Hh (if master a then 0 else 1)).
  apply andb_prop in F as [F1 F2]; [|destruct (master a); cbn; tauto]. split; by apply Z.eqb_eq.
Qed.
Lemma internal_count n : 0 < n <= 256 -> count_of 256 (u8 (atapio_internal_sectors n)) = Z.to_nat n.
Proof.
  intros Hn. unfold atapio_internal_sectors. destruct (n >=? 256) eqn:E; [assert (n = 256) as -> by lia; done|].
  unfold u16. rewrite Z.mod_small, u8_small by (unfold is_u8; lia). unfold count_of. by rewrite (proj2 (Z.eqb_neq _ _)) by lia.
Qed.
Lemma send_cmd_spec (wr : bool) lba n dev w d : wired dev w -> dview (aw_x w) = (d, idle) -> addressable n -> 0 <= lba -> 0 < n <= 256 -> lba + n <= cap ->
  exists w' ok ph, send_cmd (if wr then 0x34 else 0x24) (if wr then 0x30 else 0x20) lba (atapio_internal_sectors n) dev w = Ret (w', ok) /\
    with_view w w' d ph /\ before B d lba wr (Z.to_nat n) ph.
Proof.
  intros Hw Hv Had Hl Hn Hc. unfold send_cmd. destruct (Hw) as (Ha & _). rewrite Ha. cbn [deref mbind outcome_bind].
  destruct Had as [[Et Hcap]|(Et & Hcap & Hn8)]; rewrite Et; cbn [Z.eqb ATA_TYPE_LBA48 ATA_TYPE_LBA28 Pos.eqb].
  - destruct (select28 (Z.shiftr lba 24)) as [S1 S2]; [rewrite Z.shiftr_div_pow2 by lia; split; [apply Z.div_pos; lia|apply Z.div_lt_upper_bound; lia]|].
    set (sel := Z.lor _ (Z.land (Z.shiftr lba 24) 15)) in *.
    assert (El : Z.land sel 0x0F * 2 ^ 24 + u8 (Z.shiftr lba 16) * 2 ^ 16 + u8 (Z.shiftr lba 8) * 2 ^ 8 + u8 lba = lba).
    { rewrite S2, !u8_shiftr, Z.shiftr_div_pow2 by lia. unfold u8. change (2 ^ 24) with 16777216. change (2 ^ 16) with 65536. change (2 ^ 8) with 256. Z.div_mod_to_equations. lia. }
    pose proof (law_cmd28 (aw_x w) d wr sel (atapio_internal_sectors n) lba (Z.shiftr lba 8) (Z.shiftr lba 16) Hv Et S1) as L. cbv zeta in L.
    rewrite El, internal_count in L by lia. destruct L as [L1 L2]; [lia|].
    eexists _, _, _. split; [reflexivity|]. split; [|exact L2]. eexists. split; [reflexivity|]. rewrite <- L1. apply surjective_pairing.
  - assert (Ei : atapio_internal_sectors n = n) by (unfold atapio_internal_sectors; destruct (n >=? 256) eqn:E; [lia|unfold u16; apply Z.mod_small; lia]).
    rewrite Ei.
    assert (El : u8 (Z.shiftr lba 40) * 2 ^ 40 + u8 (Z.shiftr lba 32) * 2 ^ 32 + u8 (Z.shiftr lba 24) * 2 ^ 24 + u8 (Z.shiftr lba 16) * 2 ^ 16 + u8 (Z.shiftr lba 8) * 2 ^ 8 + u8 lba = lba).
    { rewrite !u8_shiftr by lia. unfold u8. change (2 ^ 40) with 1099511627776. change (2 ^ 32) with 4294967296. change (2 ^ 24) with 16777216. change (2 ^ 16) with 65536. change (2 ^ 8) with 256.
      Z.div_mod_to_equations. lia. }
    assert (En : count_of 65536 (u8 (Z.shiftr n 8) * 2 ^ 8 + u8 n) = Z.to_nat n).
    { rewrite u8_shiftr, u8_small by (unfold is_u8; lia). change (2 ^ 8) with 256. rewrite Z.div_small, Z.mod_small by lia. unfold count_of. by rewrite (proj2 (Z.eqb_neq _ _)) by lia. }
    pose proof (law_cmd48 (aw_x w) d wr (Z.lor 0x40 (slave_bit a)) (Z.shiftr n 8) (Z.shiftr lba 24) (Z.shiftr lba 32) (Z.shiftr lba 40) n lba (Z.shiftr lba 8) (Z.shiftr lba 16) Hv Et eq_refl) as L. cbv zeta in L.
    rewrite El, En in L. destruct L as [L1 L2]; [lia|].
    eexists _, _, _. split; [reflexivity|]. split; [|exact L2]. eexists. split; [reflexivity|]. rewrite <- L1. apply surjective_pairing.
Qed.

Lemma as_int_nonneg ok : (as_int ok <? 0) = false.
Proof. by destruct ok. Qed.
Lemma ata_read_loop_spec dev dest d k : forall lba n m w, wired dev w -> dview (aw_x w) = (d, idle) -> addressable n -> disk_ok cap d -> mapped m dest 512 ->
  0 <= lba -> 0 <= n < Z.of_nat k -> lba + n <= cap -> cap <= 2 ^ 48 -> (B < fuel)%nat ->
  exists w', read_loop fuel irqs k lba n a dev dest m w =
    Ret ((if decide (n = 0) then m else write_bytes m dest (sector_bytes (d !!! (lba + n - 1)))), w', 0) /\ with_view w w' d idle.
Proof.
  induction k as [|k IH]; intros lba n m w Hw Hv Had Hd Hm Hl Hn Hc Hcap Hf; [lia|]. cbn [read_loop].
  destruct (decide (n = 0)) as [->|H0]; [exists w; split; [done|]; exists (aw_x w); by rewrite put_x_id|].
  rewrite (proj2 (Z.eqb_neq _ _)) by done. rewrite working_sectors_spec by lia. cbn [mbind outcome_bind].
  set (ws := Z.min n 256). replace (u16 ws) with ws by (symmetry; apply Z.mod_small; lia).
  assert (Haw : addressable ws) by (destruct Had as [?|(? & ? & ?)]; [by left|right; repeat split; (done || lia)]).
  destruct (send_cmd_spec false lba ws dev w d) as (w1 & ok & ph & E1 & H1 & Hb1); [done|done|done|lia|lia|lia|].
  unfold atapio_send_read_cmd. rewrite E1. cbn [mbind outcome_bind]. rewrite as_int_nonneg.
  destruct (with_view_wired dev _ _ _ _ H1 Hw) as [Hw1 Hv1].
  destruct (read_sectors_spec dev dest (Z.to_nat ws) 0 d lba ph m w1) as (w2 & -> & H2); [done|done|done|done|done|lia|lia|lia|].
  cbn [mbind outcome_bind]. change (0 <? 0) with false. cbn iota. rewrite (decide_False (P := Z.to_nat ws = 0%nat)) by lia.
  destruct (with_view_wired dev _ _ _ _ H2 Hw1) as [Hw2 Hv2].
  rewrite (u64_small (lba + ws)), (u64_small (n - ws)) by (unfold is_u64; lia).
  destruct (IH (lba + ws) (n - ws) (write_bytes m dest (sector_bytes (d !!! (lba + Z.of_nat (Z.to_nat ws) - 1)))) w2) as (w3 & -> & H3);
    [done|done|destruct Had as [?|(? & ? & ?)]; [by left|right; repeat split; (done || lia)]|done|by apply write_bytes_mapped|lia|lia|lia|lia|lia|].
  exists w3. split; [|eapply with_view_trans; [exact H1|]; eapply with_view_trans; eassumption].
  destruct (decide (n - ws = 0)); [do 6 f_equal; lia|]. rewrite write_bytes_over; [do 6 f_equal; lia|].
  destruct (sector_length (lba + Z.of_nat (Z.to_nat ws) - 1) _ Hd) as [_ ->]; [lia|]. by destruct (sector_length (lba + ws + (n - ws) - 1) _ Hd) as [_ ->]; [lia|].
Qed.

(** *** Writing *)
Lemma sector_words_lookup n : forall i bs lo hi, (i < n)%nat -> bs !! (2 * i)%nat = Some lo -> bs !! (2 * i + 1)%nat = Some hi ->
  sector_words n bs !! i = Some (word_of lo hi).
Proof.
  induction n as [|n IH]; intros i bs lo hi Hi H1 H2; [lia|]. destruct bs as [|b0 [|b1 bs]]; [done|destruct i; done|]. cbn [sector_words].
  destruct i as [|i]; [cbn in *; congruence|]. cbn [lookup list_lookup]. replace (2 * S i)%nat with (S (S (2 * i))) in H1 by lia.
  replace (2 * S i + 1)%nat with (S (S (2 * i + 1))) in H2 by lia. apply IH; [lia|done|done].
Qed.
Context (bs : list Z) (m : gmap Z Z) (from : Z) (Hbs : length bs = 512%nat) (Hbytes : Forall is_byte bs) (Hfrom : bytes_at m from bs).
Notation words := (sector_words 256 bs).
Lemma words_ok : sector_ok words.
Proof. destruct (sector_words_spec 256 bs) as (? & ? & _); done. Qed.
Lemma write_words_spec dev d l k n : forall i w, wired dev w -> (n + i = 256)%nat -> (0 < n)%nat -> (0 < fuel)%nat ->
  dview (aw_x w) = (d, data_out l (S k) 0 (take i words)) ->
  exists w' ph, write_words fuel irqs n (Z.of_nat i) a.(portio) from m w = Ret w' /\
    with_view w w' (<[l := words]> d) ph /\ before B (<[l := words]> d) (l + 1) true k ph.
Proof.
  destruct words_ok as [Hlw Hrw].
  induction n as [|n IH]; intros i w Hw Hi Hn Hf Hv; [lia|]. cbn [write_words].
  destruct (lookup_lt_is_Some_2 bs (2 * i) ltac:(lia)) as [lo Elo]. destruct (lookup_lt_is_Some_2 bs (2 * i + 1) ltac:(lia)) as [hi Ehi].
  replace (from + (Z.of_nat i * 2 + 1)) with (from + Z.of_nat (2 * i + 1)) by lia. replace (from + Z.of_nat i * 2) with (from + Z.of_nat (2 * i)) by lia.
  assert (Hload : forall j b, bs !! j = Some b -> load m (from + Z.of_nat j) = Ret b) by (intros j b Hj; eapply load_bytes_at; [done|lia|by rewrite Nat2Z.id]).
  rewrite (Hload _ _ Elo), (Hload _ _ Ehi). cbn [mbind outcome_bind].
  pose proof (sector_words_lookup 256 i bs lo hi ltac:(lia) Elo Ehi) as Ew. fold (word_of lo hi). pose proof (proj1 (Forall_lookup _ _) Hrw i _ Ew) as Hr. cbv beta in Hr.
  unfold outw. pose proof (law_out _ _ _ _ _ _ Hv Hr) as L. rewrite length_take, Hlw in L. cbv zeta in L. set (x1 := port_outw _ _ _) in *.
  rewrite (sleep_400_spec dev) by (done || by apply wired_put). cbn [mbind outcome_bind]. rewrite <- take_S_r in L by done.
  destruct (decide (n = 0%nat)) as [->|Hn0].
  - assert (i = 255%nat) as -> by lia. rewrite decide_True in L by lia. destruct L as [L1 L2]; [lia|]. rewrite firstn_all2 in L1, L2 by lia.
    eexists _, _. split; [reflexivity|]. split; [|exact L2]. exists x1. split; [done|]. rewrite <- L1. apply surjective_pairing.
  - rewrite decide_False in L by lia. replace (Z.of_nat i + 1) with (Z.of_nat (S i)) by lia.
    destruct (IH (S i) (put_x x1 w)) as (w' & ph & E & (x' & -> & Hx') & Hb); [by apply wired_put|lia|lia|done|apply L; lia|].
    exists (put_x x' w), ph. split; [exact E|]. split; [by exists x'|done].
Qed.
Lemma write_sectors_spec dev n : forall sector d l ph w, wired dev w -> dview (aw_x w) = (d, ph) -> before B d l true n ph -> (B < fuel)%nat ->
  exists w', write_sectors fuel irqs n sector a dev from m w = Ret (w', 0) /\ with_view w w' (fill l n words d) idle.
Proof.
  induction n as [|n IH]; intros sector d l ph w Hw Hv Hph Hf; cbn [write_sectors fill].
  { inversion Hph; subst. exists w. split; [done|]. exists (aw_x w). by rewrite put_x_id. }
  replace (if sector =? 0 then Ret w else sleep_400 fuel irqs w) with (Ret w) by (rewrite (sleep_400_spec dev) by (done || lia); by destruct (sector =? 0)).
  cbn [mbind outcome_bind]. inversion Hph as [| |? b Hb]; subst. change ATA_READ_TIMEOUT_MS with 200.
  destruct (wait_spec dev w d _ Hw Hv I ltac:(cbn; lia)) as (w1 & -> & H1). cbn [mbind outcome_bind as_int set_busy] in *. change (1 <? 0) with false. cbn iota.
  destruct (with_view_wired dev _ _ _ _ H1 Hw) as [Hw1 Hv1].
  destruct (write_words_spec dev d l n 256 0 w1) as (w2 & ph2 & E2 & H2 & Hb2); [done|lia|lia|lia|done|].
  change (Z.of_nat 0) with 0 in E2. rewrite E2. cbn [mbind outcome_bind]. destruct (with_view_wired dev _ _ _ _ H2 Hw1) as [Hw2 Hv2].
  destruct (IH (sector + 1) (<[l := words]> d) (l + 1) ph2 w2) as (w3 & -> & H3); [done|done|done|lia|].
  exists w3. split; [done|]. eapply with_view_trans; [exact H1|]; eapply with_view_trans; eassumption.
Qed.
Lemma fill_app n1 : forall l n2 ws d, fill (l + Z.of_nat n1) n2 ws (fill l n1 ws d) = fill l (n1 + n2) ws d.
Proof.
  induction n1 as [|n1 IH]; intros l n2 ws d; cbn [fill Nat.add]; [f_equal; lia|]. rewrite <- IH. f_equal. lia.
Qed.
Lemma ata_write_loop_spec dev k : forall d lba n w, wired dev w -> dview (aw_x w) = (d, idle) -> addressable n ->
  0 <= lba -> 0 <= n < Z.of_nat k -> lba + n <= cap -> cap <= 2 ^ 48 -> (B < fuel)%nat ->
  exists w', write_loop fuel irqs k lba n a dev from m w = Ret (w', 0) /\ with_view w w' (fill lba (Z.to_nat n) words d) idle.
Proof.
  induction k as [|k IH]; intros d lba n w Hw Hv Had Hl Hn Hc Hcap Hf; [lia|]. cbn [write_loop].
  destruct (decide (n = 0)) as [->|H0]; [exists w; split; [done|]; exists (aw_x w); by rewrite put_x_id|].
  rewrite (proj2 (Z.eqb_neq _ _)) by done. rewrite working_sectors_spec by lia. cbn [mbind outcome_bind].
  set (ws := Z.min n 256).
  assert (Haw : addressable ws) by (destruct Had as [?|(? & ? & ?)]; [by left|right; repeat split; (done || lia)]).
  destruct (send_cmd_spec true lba ws dev w d) as (w1 & ok & ph & E1 & H1 & Hb1); [done|done|done|lia|lia|lia|].
  unfold atapio_send_write_cmd. rewrite E1. cbn [mbind outcome_bind]. rewrite as_int_nonneg.
  destruct (with_view_wired dev _ _ _ _ H1 Hw) as [Hw1 Hv1].
  destruct (write_sectors_spec dev (Z.to_nat ws) 0 d lba ph w1) as (w2 & -> & H2); [done|done|done|lia|].
  cbn [mbind outcome_bind]. change (0 <? 0) with false. cbn iota. destruct (with_view_wired dev _ _ _ _ H2 Hw1) as [Hw2 Hv2].
  destruct (flush_spec dev w2 _ Hw2 Hv2 Hf) as (w3 & E3 & H3). change ATA_FLUSH_SECTORS_TIMEOUT_MS with 200. rewrite E3. cbn [mbind outcome_bind].
  rewrite as_int_nonneg. destruct (with_view_wired dev _ _ _ _ H3 Hw2) as [Hw3 Hv3].
  rewrite (u64_small (lba + ws)), (u64_small (n - ws)) by (unfold is_u64; lia).
  destruct (IH (fill lba (Z.to_nat ws) words d) (lba + ws) (n - ws) w3) as (w4 & -> & H4);
    [done|done|destruct Had as [?|(? & ? & ?)]; [by left|right; repeat split; (done || lia)]|lia|lia|lia|lia|lia|].
  exists w4. split; [done|]. replace (lba + ws) with (lba + Z.of_nat (Z.to_nat ws)) in H4 by lia. rewrite fill_app in H4.
  replace (Z.to_nat ws + Z.to_nat (n - ws))%nat with (Z.to_nat n) in H4 by lia.
  eapply with_view_trans; [exact H1|]. eapply with_view_trans; [exact H2|]. eapply with_view_trans; eassumption.
Qed.
End drive.
Arguments PioDrive {X _ _} _ _ _ _ _.

Lemma valid_range_iff lba n dev : 0 <= lba -> 0 <= n -> atapio_is_valid_range lba n dev = true <-> 0 < n /\ lba + n <= dev.(bd_sector_count).
Proof. intros. unfold atapio_is_valid_range. destruct (dev.(bd_sector_count) <? lba) eqn:E1; cbn [orb]; [reflect_bools; lia|]. destruct (n =? 0) eqn:E2; reflect_bools; [lia|]. rewrite Z.leb_le. lia. Qed.



(** ** A drive of two sectors, at [0x1F0] with 28-bit addresses

    Its clock never moves, and it is busy for one poll before each sector and
    while it writes back. *)
Record pio := mkPio { io_disk : disk; io_ph : phase; io_regs : gmap Z Z }.
Definition pio_start (wr : bool) (l : Z) (n : nat) (d : disk) : phase :=
  match n with O => idle | S _ => if wr then data_out l n 1 [] else data_in l n 1 (d !!! l) end.
Definition pio_command (v : Z) (x : pio) : pio :=
  let r := x.(io_regs) in
  let l := Z.land (r !!! 0x1F6) 0x0F * 2 ^ 24 + r !!! 0x1F5 * 2 ^ 16 + r !!! 0x1F4 * 2 ^ 8 + r !!! 0x1F3 in
  let n := count_of 256 (r !!! 0x1F2) in
  let ph := match x.(io_ph) with
    | idle => if v =? 0xE7 then flushing 1 else if v =? 0x20 then pio_start false l n x.(io_disk) else if v =? 0x30 then pio_start true l n x.(io_disk) else idle
    | ph => ph end in
  mkPio x.(io_disk) ph r.
Definition pio_status (x : pio) : Z * pio :=
  match x.(io_ph) with
  | idle => (0x40, x)
  | flushing 0 => (0x40, mkPio x.(io_disk) idle x.(io_regs))
  | ph => match busy_of ph with O => (0x48, x) | S b => (0x80, mkPio x.(io_disk) (set_busy b ph) x.(io_regs)) end
  end.
Definition pio_give (x : pio) : Z * pio :=
  match x.(io_ph) with
  | data_in l (S n) 0 (v :: ws) =>
      (u16 v, mkPio x.(io_disk) (if decide (ws = []) then pio_start false (l + 1) n x.(io_disk) else data_in l (S n) 0 ws) x.(io_regs))
  | _ => (0, x)
  end.
Definition pio_take (v : Z) (x : pio) : pio :=
  match x.(io_ph) with
  | data_out l (S n) 0 got =>
      if decide (length got = 255%nat) then let d := <[l := got ++ [v]]> x.(io_disk) in mkPio d (pio_start true (l + 1) n d) x.(io_regs)
      else mkPio x.(io_disk) (data_out l (S n) 0 (got ++ [v])) x.(io_regs)
  | _ => x
  end.
#[export] Instance pio_bus : Bus pio := {|
  bus_in _ p x := if p =? 0x1F0 then pio_give x else if p =? 0x1F7 then pio_status x else (0, x);
  bus_out _ p v x := if p =? 0x1F0 then pio_take v x else if p =? 0x1F7 then pio_command v x else mkPio x.(io_disk) x.(io_ph) (<[p := v]> x.(io_regs)) |}.
#[export] Instance pio_clock : TimeSources pio := {|
  ts_init _ x := Ret (x, 0); ts_destroy _ x := Ret x; ts_now _ _ := mkTS 0 0 |}.
Definition pio_view (x : pio) : disk * phase := (x.(io_disk), x.(io_ph)).
Definition demo_ata : AtaStorageDevice := mkAta 0x1F0 0x3F6 true ATA_TYPE_LBA28 false 0.

Lemma pio_start_before wr l n d : before 1 d l wr n (pio_start wr l n d).
Proof. destruct n as [|n]; [constructor|]. destruct wr; cbn; by constructor. Qed.
Lemma pio_drive : PioDrive demo_ata 2 1 1 pio_view.
Proof.
  split.
  - intros [dk ph rg] d wr sel cnt lo mid hi E _ Hsel. injection E as <- ->. intros l n Hle p x'.
    assert (E : x' = pio_command (if wr then 0x30 else 0x20) (mkPio dk idle (<[0x1F5 := u8 hi]> (<[0x1F4 := u8 mid]> (<[0x1F3 := u8 lo]> (<[0x1F2 := u8 cnt]> (<[0x1F6 := u8 sel]> rg))))))).
    { by destruct wr. }
    assert (E2 : x' = mkPio dk (pio_start wr l n dk) (<[0x1F5 := u8 hi]> (<[0x1F4 := u8 mid]> (<[0x1F3 := u8 lo]> (<[0x1F2 := u8 cnt]> (<[0x1F6 := u8 sel]> rg)))))).
    { rewrite E. unfold pio_command. cbn [io_regs io_ph io_disk].
      repeat (rewrite lookup_total_insert_eq || rewrite lookup_total_insert_ne by done).
      replace (Z.land (u8 sel) 0x0F) with (Z.land sel 0x0F) by (unfold u8; change 0x0F with (Z.ones 4); rewrite !Z.land_ones by lia; symmetry; apply (Z.mod_mod_divide sel (2 ^ 8) (2 ^ 4)); by exists (2 ^ 4)).
      by destruct wr. }
    rewrite E2. split; [done|apply pio_start_before].
  - done.
  - intros [dk ph rg] d E. injection E as <- ->. by exists 1%nat.
  - intros [dk ph rg] d ph' b E Hb. injection E as <- ->. destruct ph' as [|l n b' ws|l n b' got|b']; cbn in Hb; subst; try done; repeat split.
  - intros [dk ph rg] d ph' E Hb Ht. injection E as <- ->. destruct ph' as [|l n b' ws|l n b' got|b']; cbn in Hb; subst; try done; repeat split.
  - intros [dk ph rg] d E. by injection E as <- ->.
  - intros x k _. vm_compute. reflexivity.
  - intros [dk ph rg] d l n v ws E Hv. injection E as <- ->. intros r.
    assert (Er : r = (u16 (u16 v), mkPio dk (if decide (ws = []) then pio_start false (l + 1) n dk else data_in l (S n) 0 ws) rg)) by done.
    rewrite Er. cbn [fst snd pio_view io_disk io_ph]. unfold u16. rewrite !Z.mod_small by (rewrite ?Z.mod_small; lia).
    split; [done|]. split; [done|]. destruct (decide (ws = [])); [apply pio_start_before|done].
  - intros [dk ph rg] d l n got v E Hv Hg. injection E as <- ->. intros x'. assert (Ex : x' = pio_take (u16 v) (mkPio dk (data_out l (S n) 0 got) rg)) by done.
    rewrite Ex. unfold u16. rewrite Z.mod_small by lia. unfold pio_take, pio_view. cbn [io_ph io_disk io_regs].
    destruct (decide (length got = 255%nat)); cbn; [split; [done|apply pio_start_before]|done].
Qed.

Definition demo_disk : disk := <[1 := replicate 256 0x0201]> (<[0 := replicate 256 7]> ∅).
Definition demo_dev : BlockDevice := mkBD 0 0 512 0 2 5.
Definition demo_aw : ataw pio :=
  mkAW (mkTK (mkLS tt ∅) {[1 := mkSrc [] 0]} (mkLL 0 0) 1 TIMER_DORMANT (mkPio demo_disk idle ∅)) {[5 := demo_ata]}.
Definition demo_bytes : list Z := concat (replicate 256 [9; 3]).
Definition demo_mem : gmap Z Z := write_bytes ∅ 1000 demo_bytes.
Definition never : nat -> pio -> pio := fun _ x => x.
Lemma demo_wired : wired demo_ata 1 demo_dev demo_aw.
Proof. repeat split; try done; by eexists. Qed.
Lemma demo_disk_ok : disk_ok 2 demo_disk.
Proof.
  intros l Hl. assert (l = 0 \/ l = 1) as [-> | ->] by lia; unfold demo_disk.
  - rewrite lookup_total_insert_ne, lookup_total_insert_eq by done. split; [done|]. by apply Forall_replicate.
  - rewrite lookup_total_insert_eq. split; [done|]. by apply Forall_replicate.
Qed.
Lemma demo_mem_at : bytes_at demo_mem 1000 demo_bytes.
Proof. apply write_bytes_at. Qed.
Lemma demo_mem_mapped : mapped demo_mem 1000 512.
Proof. apply (bytes_at_mapped _ _ _ demo_mem_at). Qed.

Lemma demo_bytes_range : Forall is_byte demo_bytes.
Proof. apply Forall_concat, Forall_replicate. by repeat constructor. Qed.

