(* ===== verification/Ide.v ===== *)
(** * IDE controllers

    [drivers/storage/ata/ide.c]: the search for drives on the two buses of a
    controller, the 256 words a drive says of itself, and the block device made
    of them, whose reads and writes are those of [atapio.c]. *)
From Stdlib Require Import Strings.String.
From S2P Require Import Prelude Bitwise Alloc CString Kmalloc LinkedList HashTable Falloc Paging Proc Fs Printf Interrupts Time Storage Ata.

(** ** Data *)
Definition ENODEV : Z := 19.
Definition ENOMEM : Z := 12.
Definition EIO : Z := 5.
Definition ETIMEDOUT : Z := 40.
Definition ATA_CMD_IDENT : Z := 0xEC.
Definition sizeof_AtaStorageDevice : Z := 12.
(** The literals ["hda"] and ["pata"]. *)
Definition HDA : list Z := [104; 100; 97].
Definition PATA : list Z := [112; 97; 116; 97].

Definition ATA_ERR_AMNF : Z := Z.shiftl 1 0.
Definition ATA_ERR_TKZNF : Z := Z.shiftl 1 1.
Definition ATA_ERR_ABRT : Z := Z.shiftl 1 2.
Definition ATA_ERR_MCR : Z := Z.shiftl 1 3.
Definition ATA_ERR_IDNF : Z := Z.shiftl 1 4.
Definition ATA_ERR_MC : Z := Z.shiftl 1 5.
Definition ATA_ERR_UNC : Z := Z.shiftl 1 6.
Definition ATA_ERR_BBK : Z := Z.shiftl 1 7.
Definition ata_error_to_str (error : Z) : string :=
  (if (error =? ATA_ERR_AMNF)%Z then "Address mark not found"
   else if (error =? ATA_ERR_TKZNF)%Z then "Track zero not found"
   else if (error =? ATA_ERR_ABRT)%Z then "Aborted command"
   else if (error =? ATA_ERR_MCR)%Z then "Media change request"
   else if (error =? ATA_ERR_IDNF)%Z then "ID not found"
   else if (error =? ATA_ERR_MC)%Z then "Media changed"
   else if (error =? ATA_ERR_UNC)%Z then "Uncorrectable data error"
   else if (error =? ATA_ERR_BBK)%Z then "Bad block detected"
   else "Unknown error")%string.

(** [interrupts_reqister_irq_isr], on the table [X] has (Interrupts.v). *)
Class IrqTable (X : Type) := reqister_irq_isr : Z -> Z -> X -> X.

Section ide.
Context {H X : Type} `{!Allocator H} `{!Bus X} `{!TimeSources X} `{!IrqTable X}.
(** The polls and turns there is fuel for, the interrupts while the code
    sleeps, and where the literal ["pata"] is. *)
Context (fuel : nat) (irqs : nat -> X -> X) (pata : Z).

(** [dev->read] and [dev->write] of the devices made here: the buffer is
    memory of its own, of which a read fills 512 bytes. *)
Definition sector_buffer : gmap Z Z := write_bytes ∅ BUF (replicate 512 0).
#[export] Instance ata_devices : BlockDevices (ataw X) := {|
  dev_read _ x lba n w :=
    r ← atapio_read fuel irqs x lba n BUF sector_buffer w;
    let '(m, w, st) := r : gmap Z Z * ataw X * Z in
    bytes ← load_bytes 512 m BUF; Ret (w, (st, bytes));
  dev_write _ x lba n src w := atapio_write fuel irqs x lba n BUF (write_bytes ∅ BUF src) w |}.

Notation vstate := (vstate H (storage (ataw X))).
Definition machine (s : vstate) : ataw X := s.(drv).(hw).
Definition put_machine (w : ataw X) (s : vstate) : vstate := up (fun d => set_hw d w) s.
Definition outb (v p : Z) (s : vstate) : vstate := put_machine (Ata.outb v p (machine s)) s.
Definition outw (v p : Z) (s : vstate) : vstate := put_machine (Ata.outw v p (machine s)) s.
Definition inb (p : Z) (s : vstate) : Z * vstate := let r := Ata.inb p (machine s) in (r.1, put_machine r.2 s).
Definition get_dev (dev : Z) (s : vstate) : outcome BlockDevice := deref (s.(drv).(blkdev_at) !! dev).
Definition put_dev (dev : Z) (x : BlockDevice) (s : vstate) : vstate := up (fun d => set_blkdevs d (<[dev := x]> d.(blkdev_at))) s.
Definition put_ata (p : Z) (a : AtaStorageDevice) (s : vstate) : vstate := put_machine (mkAW (machine s).(aw_tk) (<[p := a]> (machine s).(ata_at))) s.

(** [blkdev->name[2] >= suffix], as [char]s. *)
Definition suffix_of (d : Z) (s : vstate) : outcome Z :=
  v ← deref (s.(drv).(blkdrv_at) !! d);
  for_each s v.(blkdevs) (fun suffix dev =>
    x ← get_dev dev s;
    if (x.(bd_type) =? 0) || (x.(bd_name) =? 0) then Ret (suffix, false)
    else
      ty ← deref (s.(strs) !! x.(bd_type));
      eq ← str_eq ty PATA;
      if eq : bool then
        n ← deref (s.(strs) !! x.(bd_name));
        c ← deref ((n ++ [0]) !! 2%nat);
        Ret (if i8 c >=? suffix then i8 (i8 c + 1) else suffix, false)
      else Ret (suffix, false)) 97.
Definition ide_generate_drive_name (dev d : Z) (s : vstate) : outcome (vstate * bool) :=
  suffix ← suffix_of d s;
  if suffix >? 122 then Ret (s, false)
  else
    r ← kmalloc_ 4 (vheap s);
    let s := set_vheap s r.1 in
    x ← get_dev dev s;
    let s := put_dev dev (mkBD r.2 x.(bd_type) x.(bd_sectorsize) x.(bd_uuid) x.(bd_sector_count) x.(extra)) s in
    if r.2 =? 0 then Ret (s, false) else Ret (put_str r.2 (<[2%nat := suffix]> HDA) s, true).

Definition ide_new_blkdev (d : Z) (s : vstate) : outcome (vstate * Z) :=
  r ← blkdevdrv_new_blkdev d s;
  let '(s, dev) := r : vstate * Z in
  if dev =? 0 then Ret (s, 0)
  else
    r ← kcalloc_ sizeof_AtaStorageDevice (vheap s);
    let s := set_vheap s r.1 in
    x ← get_dev dev s;
    let s := put_dev dev (mkBD x.(bd_name) x.(bd_type) x.(bd_sectorsize) x.(bd_uuid) x.(bd_sector_count) r.2) s in
    if r.2 =? 0 then r ← blkdevdrv_free_blkdev dev d s; Ret (r.1, 0)
    else Ret (put_ata r.2 (mkAta 0 0 false ATA_TYPE_UNKNOWN false 0) s, dev).
Definition ide_free_blkdev (dev d : Z) (s : vstate) : outcome (vstate * Z) :=
  x ← get_dev dev s;
  s ← free_block s x.(extra);
  s ← (if x.(bd_name) =? 0 then Ret s else free_str s x.(bd_name));
  r ← blkdevdrv_free_blkdev dev d s;
  Ret (r.1, 0).

Definition ide_select_drive (master : bool) (bus_io : Z) (s : vstate) : outcome vstate :=
  let s := outb (if master then 0xA0 else 0xB0) (ATA_REG_DRIVE_SEL bus_io) s in
  r ← sleep_ms fuel irqs 1 (machine s).(aw_tk);
  Ret (put_machine (mkAW r.1.1 (machine s).(ata_at)) s).

(** [while (true)] until the error or the data request bit; the result is 0 or
    the early return. *)
Fixpoint drq_loop (fuel : nat) (t : Timer) (p : Z) (w : ataw X) : outcome (ataw X * Z) :=
  match fuel with
  | O => Undef
  | S fuel =>
      if timed_out t 200 w then Ret (w, - ETIMEDOUT)
      else
        let '(status, w) := Ata.inb (ATA_REG_STATUS p) w in
        if set_bit status ATA_STATUS_ERR then let '(err, w) := Ata.inb (ATA_REG_ERR p) w in Ret (w, - EIO)
        else if set_bit status ATA_STATUS_DRQ then Ret (w, 0)
        else drq_loop fuel t p w
  end.

(** [port_inw(...) << 16], an [int]. *)
Definition high_word (v : Z) : Z := i32 (Z.shiftl v 16).
(** What the words say: the sectors, the type and whether it has DMA. *)
Record identity := mkId { id_sectors : Z; id_type : Z; id_dma : bool }.
Fixpoint ident_loop (fuel : nat) (i p : Z) (d : identity) (w : ataw X) : outcome (identity * ataw X) :=
  match fuel with
  | O => Undef
  | S fuel =>
      if negb (i <? 256) then Ret (d, w)
      else
        let '(val, w) := inw (ATA_REG_DATA p) w in
        if i =? 60 then
          let '(hi, w) := inw (ATA_REG_DATA p) w in
          ident_loop fuel (u16 (i + 1 + 1)) p (mkId (u64 (Z.lor val (high_word hi))) d.(id_type) d.(id_dma)) w
        else if i =? 83 then
          ident_loop fuel (u16 (i + 1)) p (mkId d.(id_sectors) (if negb (Z.land val (Z.shiftl 1 10) =? 0) then ATA_TYPE_LBA48 else d.(id_type)) d.(id_dma)) w
        else if i =? 88 then
          ident_loop fuel (u16 (i + 1)) p (mkId d.(id_sectors) d.(id_type) (negb (Z.shiftr val 8 =? 0))) w
        else if (i =? 100) && (d.(id_type) =? ATA_TYPE_LBA48) then
          let '(hi, w) := inw (ATA_REG_DATA p) w in
          let tmp := u32 (Z.lor val (high_word hi)) in
          let '(v2, w) := inw (ATA_REG_DATA p) w in
          let '(v3, w) := inw (ATA_REG_DATA p) w in
          let sc := u64 (Z.lor v2 (high_word v3)) in
          ident_loop fuel (u16 (i + 3 + 1)) p (mkId (Z.lor (u64 (Z.shiftl sc 32)) tmp) d.(id_type) d.(id_dma)) w
        else ident_loop fuel (u16 (i + 1)) p d w
  end.
Fixpoint drain (n : nat) (p : Z) (w : ataw X) : ataw X := match n with O => w | S n => drain n p (inw (ATA_REG_DATA p) w).2 end.

(** Where the drive's registers say what kind it is. *)
Definition not_pata (a b : Z) : bool :=
  (a =? 0x14) && (b =? 0xEB) || (a =? 0x69) && (b =? 0x96) || (a =? 0x3c) && (b =? 0xc3).
Definition ide_identify_drive (bus_io bus_ctl pcidev : Z) (master : bool) (d : Z) (s : vstate) : outcome (vstate * Z) :=
  s ← ide_select_drive master bus_io s;
  let '(status, s) := inb (ATA_REG_STATUS bus_io) s in
  if status =? 0 then Ret (s, - ENODEV)
  else
    let s := outw 0 (ATA_REG_SECTOR bus_io) s in
    let s := outw 0 (ATA_REG_LBA_LO bus_io) s in
    let s := outw 0 (ATA_REG_LBA_MID bus_io) s in
    let s := outw 0 (ATA_REG_LBA_HI bus_io) s in
    let s := outb ATA_CMD_IDENT (ATA_REG_COMMAND bus_io) s in
    let '(status, s) := inb (ATA_REG_STATUS bus_io) s in
    if status =? 0 then Ret (s, - ENODEV)
    else
      let '(a, s) := inb (ATA_REG_LBA_MID bus_io) s in
      let '(b, s) := inb (ATA_REG_LBA_HI bus_io) s in
      if not_pata a b then Ret (s, - EINVAL)
      else
        t ← timer_start (machine s).(aw_tk);
        r ← flush_loop fuel t 200 bus_io (machine s);
        let s := put_machine r.1 s in
        if negb r.2 then Ret (s, - ETIMEDOUT)
        else
          let '(lbamid, s) := inb (ATA_REG_LBA_MID bus_io) s in
          let '(lbahi, s) := inb (ATA_REG_LBA_HI bus_io) s in
          if negb (lbamid =? 0) || negb (lbahi =? 0) then Ret (s, - EINVAL)
          else
            t ← timer_start (machine s).(aw_tk);
            r ← drq_loop fuel t bus_io (machine s);
            let s := put_machine r.1 s in
            if r.2 <? 0 then Ret (s, r.2)
            else
              r ← ide_new_blkdev d s;
              let '(s, dev) := r : vstate * Z in
              if dev =? 0 then Ret (put_machine (drain 256 bus_io (machine s)) s, - ENOMEM)
              else
                r ← ide_generate_drive_name dev d s;
                let '(s, named) := r : vstate * bool in
                if negb named then
                  r ← ide_free_blkdev dev d s;
                  let s := r.1 in Ret (put_machine (drain 256 bus_io (machine s)) s, - ENOMEM)
                else
                  x ← get_dev dev s;
                  r ← ident_loop 257 0 bus_io (mkId 0 ATA_TYPE_UNKNOWN false) (machine s);
                  let '(id, w) := r : identity * ataw X in
                  let ty := if id.(id_type) =? ATA_TYPE_UNKNOWN then ATA_TYPE_LBA28 else id.(id_type) in
                  let s := put_dev dev (mkBD x.(bd_name) pata 512 x.(bd_uuid) id.(id_sectors) x.(extra)) (put_machine w s) in
                  let s := put_ata x.(extra) (mkAta bus_io bus_ctl master ty id.(id_dma) pcidev) s in
                  r ← blkdevm_enumerate_partitions dev s;
                  Ret (r.1, 1).
Definition ide_enumerate_bus (bus_io bus_ctl dev d : Z) (s : vstate) : outcome (vstate * Z) :=
  r ← ide_identify_drive bus_io bus_ctl dev true d s;
  r ← ide_identify_drive bus_io bus_ctl dev false d r.1;
  Ret (r.1, 0).
(** [d] is [g_ata_driver]; the two service routines are at [isr1] and [isr2].
    Neither of the controller's mode bits changes anything. *)
Definition ide_probe_pci_device (isr1 isr2 dev d : Z) (s : vstate) : outcome (vstate * Z) :=
  let on_irq n isr s := put_machine (put_x (reqister_irq_isr n isr (aw_x (machine s))) (machine s)) s in
  let s := on_irq IRQ_ATA2 isr2 (on_irq IRQ_ATA1 isr1 s) in
  r ← ide_enumerate_bus 0x1F0 0x3F6 dev d s;
  r ← ide_enumerate_bus 0x170 0x376 dev d r.1;
  Ret (r.1, 0).
End ide.

(** ** What a drive says of itself *)
Section identity.
Context {X : Type} `{!Bus X}.
Implicit Types (x : X) (w : ataw X).
(** The data port hands over [ws] from [x] to [x']. *)
Fixpoint feed (p : Z) (ws : list Z) x x' : Prop :=
  match ws with
  | [] => x' = x
  | v :: ws => (port_inw (ATA_REG_DATA p) x).1 = v /\ feed p ws (port_inw (ATA_REG_DATA p) x).2 x'
  end.
Definition word (ws : list Z) (i : nat) : Z := nth i ws 0.
Definition lba48 (ws : list Z) : bool := Z.testbit (word ws 83) 10.
(** The sectors: words 100 to 103 of a drive with 48-bit addresses, words 60
    and 61, as a signed number of 32 bits, of any other. *)
Definition identity_of (ws : list Z) : identity :=
  mkId (if lba48 ws then word ws 100 + word ws 101 * 2 ^ 16 + word ws 102 * 2 ^ 32 + word ws 103 * 2 ^ 48
        else u64 (i32 (word ws 60 + word ws 61 * 2 ^ 16)))
       (if lba48 ws then ATA_TYPE_LBA48 else ATA_TYPE_UNKNOWN) (256 <=? word ws 88).

(** A word taken. *)
Lemma feed_one p ws x x' w k : feed p (drop k ws) x x' -> (k < length ws)%nat ->
  exists x1, inw (ATA_REG_DATA p) (put_x x w) = (word ws k, put_x x1 w) /\ feed p (drop (S k) ws) x1 x'.
Proof.
  intros Hf Hk. destruct (lookup_lt_is_Some_2 ws k Hk) as [v Hv]. rewrite (drop_S _ _ _ Hv) in Hf. destruct Hf as [Ev Hf].
  exists (port_inw (ATA_REG_DATA p) x).2. split; [|done]. unfold inw, word. rewrite (nth_lookup_Some _ _ 0 _ Hv), <- Ev. done.
Qed.
Definition plain (d : identity) (i : nat) : Prop := i <> 60%nat /\ i <> 83%nat /\ i <> 88%nat /\ (i <> 100%nat \/ d.(id_type) <> ATA_TYPE_LBA48).
Lemma ident_skip p ws x' w d f n : forall k e x, e = (k + n)%nat -> feed p (drop k ws) x x' -> (e <= length ws)%nat -> (length ws <= 256)%nat ->
  (forall i, (k <= i < e)%nat -> plain d i) ->
  exists x1, feed p (drop e ws) x1 x' /\ ident_loop (n + f) (Z.of_nat k) p d (put_x x w) = ident_loop f (Z.of_nat e) p d (put_x x1 w).
Proof.
  induction n as [|n IH]; intros k e x He Hf Hk Hl Hp; [exists x; by rewrite He, Nat.add_0_r in *|]. cbn [Nat.add ident_loop].
  rewrite (proj2 (Z.ltb_lt _ 256)) by lia. cbn [negb]. destruct (feed_one p ws x x' w k Hf) as (x1 & -> & Hf1); [lia|].
  destruct (Hp k ltac:(lia)) as (P1 & P2 & P3 & P4). rewrite (proj2 (Z.eqb_neq _ 60)), (proj2 (Z.eqb_neq _ 83)), (proj2 (Z.eqb_neq _ 88)) by lia.
  replace ((Z.of_nat k =? 100) && (d.(id_type) =? ATA_TYPE_LBA48)) with false by (symmetry; apply andb_false_iff; rewrite !Z.eqb_neq; destruct P4; [left; lia|by right]).
  replace (u16 (Z.of_nat k + 1)) with (Z.of_nat (S k)) by (unfold u16; rewrite Z.mod_small by lia; lia).
  destruct (IH (S k) e x1 ltac:(lia) Hf1 Hk Hl) as (x2 & Hf2 & ->); [intros i Hi; apply Hp; lia|]. by exists x2.
Qed.

(** Two words as a number. *)
Lemma high_word_lor lo hi : 0 <= lo < 2 ^ 16 -> 0 <= hi < 2 ^ 16 -> Z.lor lo (high_word hi) = i32 (lo + hi * 2 ^ 16).
Proof.
  intros Hlo Hhi. unfold high_word. rewrite Z.shiftl_mul_pow2 by lia.
  assert (E : exists k, i32 (hi * 2 ^ 16) = k * 2 ^ 16 /\ i32 (lo + hi * 2 ^ 16) = k * 2 ^ 16 + lo).
  { destruct (Z.lt_ge_cases hi (2 ^ 15)) as [Hs|Hs].
    - exists hi. rewrite !i32_small by (unfold is_i32; lia). lia.
    - exists (hi - 2 ^ 16). assert (Hi : forall z, 2 ^ 31 <= z < 2 ^ 32 -> i32 z = z - 2 ^ 32).
      { intros z Hz. unfold i32. replace (z + 2 ^ 31) with (z - 2 ^ 31 + 1 * 2 ^ 32) by lia. rewrite Z.mod_add, Z.mod_small by lia. lia. }
      rewrite !Hi by lia. lia. }
  destruct E as (k & -> & ->). rewrite <- Z.shiftl_mul_pow2 by lia. rewrite Z.lor_comm, lor_shiftl_add by lia. rewrite Z.shiftl_mul_pow2; lia.
Qed.
(** Four words as a number. *)
Lemma four_words v0 v1 v2 v3 : 0 <= v0 < 2 ^ 16 -> 0 <= v1 < 2 ^ 16 -> 0 <= v2 < 2 ^ 16 -> 0 <= v3 < 2 ^ 16 ->
  Z.lor (u64 (Z.shiftl (u64 (Z.lor v2 (high_word v3))) 32)) (u32 (Z.lor v0 (high_word v1))) = v0 + v1 * 2 ^ 16 + v2 * 2 ^ 32 + v3 * 2 ^ 48.
Proof.
  intros H0 H1 H2 H3. rewrite !high_word_lor by done. rewrite Bits.u32_i32, u32_small by (unfold is_u32; lia).
  assert (E : u64 (Z.shiftl (u64 (i32 (v2 + v3 * 2 ^ 16))) 32) = Z.shiftl (v2 + v3 * 2 ^ 16) 32).
  { rewrite !Z.shiftl_mul_pow2 by lia. unfold u64. rewrite Z.mul_mod_idemp_l by lia. set (vv := v2 + v3 * 2 ^ 16). assert (Hv : 0 <= vv < 2 ^ 32) by (unfold vv; lia).
    assert (Ei : exists k, i32 vv = vv + k * 2 ^ 32) by (unfold i32; exists (- ((vv + 2 ^ 31) / 2 ^ 32)); pose proof (Z.div_mod (vv + 2 ^ 31) (2 ^ 32)); lia).
    destruct Ei as (k & ->). rewrite Z.mul_add_distr_r. replace (k * 2 ^ 32 * 2 ^ 32) with (k * 2 ^ 64) by lia. rewrite Z.mod_add by lia. apply Z.mod_small. lia. }
  rewrite E, lor_shiftl_add by lia. lia.
Qed.
Lemma words_range p ws x x' k : feed p ws x x' -> 0 <= word ws k < 2 ^ 16.
Proof.
  revert k x. induction ws as [|v ws IH]; intros k x Hf; unfold word; [destruct k; cbn; lia|]. destruct Hf as [Ev Hf]. destruct k as [|k]; [|by apply (IH k _ Hf)].
  cbn. rewrite <- Ev. unfold port_inw. cbn [fst]. apply Z.mod_pos_bound. lia.
Qed.
Lemma bit_10 v : negb (Z.land v (Z.shiftl 1 10) =? 0) = Z.testbit v 10.
Proof.
  rewrite Z.shiftl_1_l. destruct (Z.testbit v 10) eqn:E.
  - apply negb_true_iff, Z.eqb_neq. intros H0. apply (f_equal (fun z => Z.testbit z 10)) in H0. rewrite Z.land_spec, E in H0. discriminate H0.
  - apply negb_false_iff, Z.eqb_eq, Z.bits_inj'. intros i Hi. rewrite Z.land_spec, testbit_pow2, Z.bits_0 by lia. destruct (Z.eqb_spec 10 i) as [<-|]; [by rewrite E|apply andb_false_r].
Qed.
(** The words that are looked at, each with the rest of the loop behind it. *)
Lemma ident_60 p ws x x' w d f : length ws = 256%nat -> feed p (drop 60 ws) x x' -> exists x1, feed p (drop 62 ws) x1 x' /\
  ident_loop (S f) (Z.of_nat 60) p d (put_x x w) = ident_loop f (Z.of_nat 62) p (mkId (u64 (Z.lor (word ws 60) (high_word (word ws 61)))) d.(id_type) d.(id_dma)) (put_x x1 w).
Proof.
  intros Hl Hf. destruct (feed_one p ws _ x' w 60 Hf ltac:(lia)) as (x2 & E2 & Hf2). destruct (feed_one p ws _ x' w 61 Hf2 ltac:(lia)) as (x3 & E3 & Hf3).
  exists x3. split; [done|]. cbn [ident_loop]. rewrite E2. cbv beta iota. rewrite E3. reflexivity.
Qed.
Lemma ident_83 p ws x x' w d f : length ws = 256%nat -> feed p (drop 83 ws) x x' -> exists x1, feed p (drop 84 ws) x1 x' /\
  ident_loop (S f) (Z.of_nat 83) p d (put_x x w) = ident_loop f (Z.of_nat 84) p (mkId d.(id_sectors) (if lba48 ws then ATA_TYPE_LBA48 else d.(id_type)) d.(id_dma)) (put_x x1 w).
Proof.
  intros Hl Hf. destruct (feed_one p ws _ x' w 83 Hf ltac:(lia)) as (x2 & E2 & Hf2). exists x2. split; [done|]. unfold lba48. rewrite <- bit_10. cbn [ident_loop]. rewrite E2. reflexivity.
Qed.
Lemma ident_88 p ws x x' w d f : length ws = 256%nat -> feed p (drop 88 ws) x x' -> exists x1, feed p (drop 89 ws) x1 x' /\
  ident_loop (S f) (Z.of_nat 88) p d (put_x x w) = ident_loop f (Z.of_nat 89) p (mkId d.(id_sectors) d.(id_type) (256 <=? word ws 88)) (put_x x1 w).
Proof.
  intros Hl Hf. pose proof (words_range p _ _ _ 0 Hf) as Hr. destruct (feed_one p ws _ x' w 88 Hf ltac:(lia)) as (x2 & E2 & Hf2). exists x2. split; [done|].
  assert (Ew : word (drop 88 ws) 0 = word ws 88) by (unfold word; rewrite !nth_lookup, lookup_drop; done). rewrite Ew in Hr.
  assert (Hdma : (256 <=? word ws 88) = negb (Z.shiftr (word ws 88) 8 =? 0)).
  { rewrite Z.shiftr_div_pow2 by lia. change (2 ^ 8) with 256. destruct (Z.leb_spec 256 (word ws 88)).
    - symmetry. apply negb_true_iff, Z.eqb_neq. pose proof (Z.div_str_pos (word ws 88) 256). lia.
    - rewrite Z.div_small by lia. done. }
  rewrite Hdma. cbn [ident_loop]. rewrite E2. reflexivity.
Qed.
Lemma ident_100 p ws x x' w d f : length ws = 256%nat -> feed p (drop 100 ws) x x' -> d.(id_type) = ATA_TYPE_LBA48 ->
  (forall k, 0 <= word ws k < 2 ^ 16) -> exists x1, feed p (drop 104 ws) x1 x' /\
  ident_loop (S f) (Z.of_nat 100) p d (put_x x w) =
    ident_loop f (Z.of_nat 104) p (mkId (word ws 100 + word ws 101 * 2 ^ 16 + word ws 102 * 2 ^ 32 + word ws 103 * 2 ^ 48) d.(id_type) d.(id_dma)) (put_x x1 w).
Proof.
  intros Hl Hf Ht Hr. destruct (feed_one p ws _ x' w 100 Hf ltac:(lia)) as (x9 & E9 & Hf9). destruct (feed_one p ws _ x' w 101 Hf9 ltac:(lia)) as (x10 & E10 & Hf10).
  destruct (feed_one p ws _ x' w 102 Hf10 ltac:(lia)) as (x11 & E11 & Hf11). destruct (feed_one p ws _ x' w 103 Hf11 ltac:(lia)) as (x12 & E12 & Hf12).
  exists x12. split; [done|]. rewrite <- four_words by done. cbn [ident_loop]. rewrite E9, Ht. cbv beta iota. rewrite E10. cbv beta iota. rewrite E11. cbv beta iota. rewrite E12. reflexivity.
Qed.

(** A drive's description is read as the standard defines it.  Whatever
    256 words the data port hands over, all are taken, no more and no less; a
    drive whose word 83 says so has 48-bit addresses and its sectors are words
    100 to 103; any other drive's are words 60 and 61, taken as a signed
    number; word 88 says whether it has DMA. *)
Theorem ide_identity_correct p ws x x' w : length ws = 256%nat -> feed p ws x x' ->
  ident_loop 257 0 p (mkId 0 ATA_TYPE_UNKNOWN false) (put_x x w) = Ret (identity_of ws, put_x x' w).
Proof.
  intros Hl Hf. assert (Hr : forall k, 0 <= word ws k < 2 ^ 16) by (intros; by eapply words_range). set (d0 := mkId 0 ATA_TYPE_UNKNOWN false).
  assert (Hp0 : forall d i, d.(id_type) <> ATA_TYPE_LBA48 -> i <> 60%nat -> i <> 83%nat -> i <> 88%nat -> plain d i) by (intros; repeat split; try done; by right).
  assert (Hp1 : forall d i, i <> 60%nat -> i <> 83%nat -> i <> 88%nat -> i <> 100%nat -> plain d i) by (intros; repeat split; try done; by left).
  replace 257%nat with (60 + S (21 + S (4 + S (11 + 158))))%nat by done. replace 0 with (Z.of_nat 0) at 1 by done.
  destruct (ident_skip p ws x' w d0 (S (21 + S (4 + S (11 + 158)))) 60 0 60 x eq_refl Hf ltac:(lia) ltac:(lia)) as (x1 & Hf1 & ->); [intros; apply Hp1; lia|].
  destruct (ident_60 p ws x1 x' w d0 (21 + S (4 + S (11 + 158))) Hl Hf1) as (x2 & Hf2 & ->). set (d1 := mkId _ _ _).
  destruct (ident_skip p ws x' w d1 (S (4 + S (11 + 158))) 21 62 83 x2 eq_refl Hf2 ltac:(lia) ltac:(lia)) as (x3 & Hf3 & ->); [intros; apply Hp1; lia|].
  destruct (ident_83 p ws x3 x' w d1 (4 + S (11 + 158)) Hl Hf3) as (x4 & Hf4 & ->). set (d2 := mkId _ _ _).
  destruct (ident_skip p ws x' w d2 (S (11 + 158)) 4 84 88 x4 eq_refl Hf4 ltac:(lia) ltac:(lia)) as (x5 & Hf5 & ->); [intros; apply Hp1; lia|].
  destruct (ident_88 p ws x5 x' w d2 (11 + 158) Hl Hf5) as (x6 & Hf6 & ->). set (d3 := mkId _ _ _).
  destruct (ident_skip p ws x' w d3 158 11 89 100 x6 eq_refl Hf6 ltac:(lia) ltac:(lia)) as (x7 & Hf7 & ->); [intros; apply Hp1; lia|].
  unfold identity_of. destruct (lba48 ws) eqn:E48.
  - replace 158%nat with (S (152 + S 4)) by done. destruct (ident_100 p ws x7 x' w d3 (152 + S 4) Hl Hf7 eq_refl Hr) as (x8 & Hf8 & ->). set (d4 := mkId _ _ _).
    destruct (ident_skip p ws x' w d4 (S 4) 152 104 256 x8 eq_refl Hf8 ltac:(lia) ltac:(lia)) as (x9 & Hf9 & ->); [intros; apply Hp1; lia|].
    rewrite drop_ge in Hf9 by lia. cbn in Hf9. subst x9. done.
  - replace 158%nat with (156 + S 1)%nat by done. destruct (ident_skip p ws x' w d3 (S 1) 156 100 256 x7 eq_refl Hf7 ltac:(lia) ltac:(lia)) as (x8 & Hf8 & ->); [intros; apply Hp0; (done || lia)|].
    rewrite drop_ge in Hf8 by lia. cbn in Hf8. subst x8. rewrite <- high_word_lor by done. done.
Qed.
End identity.

(** ** Sectors as the storage layer reads them *)
Section sectors.
Context {H X : Type} `{!Allocator H} `{!Bus X} `{!TimeSources X} (fuel : nat) (irqs : nat -> X -> X).
Context (a : AtaStorageDevice) (cap : Z) (B : nat) (src : Z) (dview : X -> disk * phase) `{!PioDrive a cap B src dview}.
End sectors.

(** ** A drive with 48-bit addresses, and the drive of two sectors *)
#[export] Instance stream_bus : Bus (list Z) := {|
  bus_in _ _ x := match x with [] => (0, []) | v :: x => (v, x) end;
  bus_out _ _ _ x := x |}.
Lemma stream_feed p ws rest : Forall (fun v => 0 <= v < 2 ^ 16) ws -> feed p ws (ws ++ rest) rest.
Proof.
  induction 1 as [|v ws Hv _ IH]; [done|]. cbn. split; [by apply Z.mod_small|exact IH].
Qed.
Definition demo_words : list Z :=
  (fun i => if i =? 60 then 0xFFFF else if i =? 61 then 0x0FFF else if i =? 83 then 0x7500 else if i =? 88 then 0x203F
            else if i =? 100 then 0x5678 else if i =? 101 then 0x1234 else if i =? 102 then 1 else 0) <$> seqZ 0 256.
Lemma demo_words_range : Forall (fun v => 0 <= v < 2 ^ 16) demo_words.
Proof. apply Forall_fmap, Forall_forall. intros i _. cbn. repeat case_cond; lia. Qed.
Definition stream (x : list Z) : ataw (list Z) := mkAW (mkTK (mkLS tt ∅) ∅ (mkLL 0 0) 0 TIMER_DORMANT x) ∅.
Lemma ide_identity_correct_witness :
  ident_loop 257 0 0x1F0 (mkId 0 ATA_TYPE_UNKNOWN false) (stream (demo_words ++ [7])) = Ret (mkId 0x112345678 ATA_TYPE_LBA48 true, stream [7]).
Proof.
  exact (ide_identity_correct 0x1F0 demo_words (demo_words ++ [7]) [7] (stream []) eq_refl (stream_feed 0x1F0 demo_words [7] demo_words_range)).
Defined.
Definition ide_st : vstate kstate (storage (ataw pio)) :=
  let w := mkAW (mkTK (mkLS tt ∅) {[1 := mkSrc [] 0]} (mkLL 0 0) 1 TIMER_DORMANT (mkPio Ata.demo_disk idle ∅)) {[5 := demo_ata]} in
  mkV (demo_pmem falloc_boot) ∅ ∅ ∅ ∅ ∅ ∅ 0 [] (mkHT 0 [] 0 0 0 0) (mkLL 0 0) 0 [] (mkST {[50 := demo_dev]} ∅ ∅ (mkLL 0 0) (mkLL 0 0) w).

