(* ===== verification/Boot.v ===== *)
(** * What the boot loader hands over

    [drivers/core/multiboot]: the header that asks for it and the structure
    that comes back, in memory the kernel sees [koff] above its physical
    address; [kernel/kboot.c]: the kernel's copy of it, a frame buffer and the
    map of usable memory, an array of 16 regions in the image. *)
From Stdlib Require Import Sorted.
From S2P Require Import Prelude Alloc CString Kmalloc Fs Storage MRegMap.

(** ** Data ([multiboot.h], [kboot.h], [mregmap.h]) *)
Definition MULTIBOOT_HEADER_MAGIC : Z := 0x1BADB002.
Definition MULTIBOOT_BOOTLOADER_MAGIC : Z := 0x2BADB002.
Definition MULTIBOOT_FLAG_MOD_PAGE_ALIGN : Z := 1.
Definition MULTIBOOT_FLAG_MEM_INFO : Z := 2.
Definition MULTIBOOT_FLAG_VIDEO : Z := 4.
Definition MULTIBOOT_MMAP_TYPE_AVAILABLE : Z := 1.
Definition MEM_REGION_RWX : Z := 7.
Definition SYS_MEMORY_REGIONS_MAX : Z := 16.

Definition FLAGS : Z := Z.lor (Z.lor MULTIBOOT_FLAG_MOD_PAGE_ALIGN MULTIBOOT_FLAG_MEM_INFO) MULTIBOOT_FLAG_VIDEO.
Definition CHECKSUM : Z := - (MULTIBOOT_HEADER_MAGIC + FLAGS).
(** The 12 [long]s at the start of the image. *)
Definition mbootconfig : list Z := [MULTIBOOT_HEADER_MAGIC; FLAGS; CHECKSUM; 0; 0; 0; 0; 0; 0; 800; 600; 32].

(** A field of a packed structure: [n] bytes, little-endian. *)
Definition load_le (n : nat) (m : gmap Z Z) (a : Z) : outcome Z := l ← load_bytes n m a; Ret (le l).
(** The members of [MultibootMBI] and [MultibootMMAP] that are read. *)
Definition mbi_mmap_length m mbi := load_le 4 m (mbi + 44).
Definition mbi_mmap_base m mbi := load_le 4 m (mbi + 48).
Definition fb_base m mbi := load_le 8 m (mbi + 88).
Definition fb_w m mbi := load_le 4 m (mbi + 100).
Definition fb_h m mbi := load_le 4 m (mbi + 104).
Definition fb_depth m mbi := load_le 1 m (mbi + 108).
Definition fb_type m mbi := load_le 1 m (mbi + 109).
Definition mmap_size m e := load_le 4 m e.
Definition mmap_start m e := load_le 8 m (e + 4).
Definition mmap_len m e := load_le 8 m (e + 12).
Definition mmap_type m e := load_le 4 m (e + 20).

Record FbInfo := mkFbInfo { has_fb : bool; fb_pa : Z; fb_width : Z; fb_height : Z; fb_bpp : Z }.
Record KernelBootInfo := mkKBI { kfb : FbInfo; mregmap : MemoryRegionMap }.
(** [___kboot_info] and [g_sys_mregs] as linked. *)
Definition g_sys_mregmap (addr : Z) : MemoryRegionMap := mkMap addr (replicate 16 zero_region) 0 SYS_MEMORY_REGIONS_MAX.
Definition kboot_info (addr : Z) : KernelBootInfo := mkKBI (mkFbInfo false 0 0 0 0) (g_sys_mregmap addr).

(** ** Operations *)
Section ops.
Context {H : Type} `{!Allocator H} (koff : Z).
Implicit Types (m : gmap Z Z) (s : MRegMap.mstate H).

(** The fuel of [mregmap_add_reg]: twice the array. *)
Definition add_fuel s : nat := S (2 * Z.to_nat s.2.(regions_capacity)).

(** The loop at the entry [mmap]. *)
Fixpoint mmap_loop (fuel : nat) m (mbi mmap : Z) s : outcome (MRegMap.mstate H) :=
  match fuel with
  | O => Undef
  | S fuel =>
      base ← mbi_mmap_base m mbi; len ← mbi_mmap_length m mbi;
      if negb (mmap <? u32 (base + koff + len)) then Ret s
      else if s.2.(regions_capacity) <=? s.2.(regions_size) then Panic
      else
        ty ← mmap_type m mmap;
        s ← (if negb (ty =? MULTIBOOT_MMAP_TYPE_AVAILABLE) then Ret s
             else
               b ← mmap_start m mmap; l ← mmap_len m mmap;
               r ← mregmap_add_reg (add_fuel s) (mkRegion b l MEM_REGION_RWX) s; Ret r.1);
        sz ← mmap_size m mmap; mmap_loop fuel m mbi (u32 (mmap + sz + 4)) s
  end.

Definition parse_fb m (mbi : Z) (fb : FbInfo) : outcome FbInfo :=
  ty ← fb_type m mbi;
  if ty =? 1 then
    b ← fb_base m mbi; w ← fb_w m mbi; h ← fb_h m mbi; d ← fb_depth m mbi;
    Ret (mkFbInfo true (u32 b) w h d)
  else Ret fb.

(** [magic] and [struct_pa] are what the entry code stored. *)
Definition multiboot_parse_info m (magic struct_pa : Z) (h : H) (k : KernelBootInfo) : outcome (H * KernelBootInfo * Z) :=
  if negb (magic =? MULTIBOOT_BOOTLOADER_MAGIC) then Ret (h, k, -1)
  else
    let mbi := u32 (struct_pa + koff) in
    fb ← parse_fb m mbi k.(kfb);
    base ← mbi_mmap_base m mbi; len ← mbi_mmap_length m mbi;
    s ← mmap_loop (S (Z.to_nat len)) m mbi (u32 (base + koff)) (h, k.(mregmap));
    Ret (s.1, mkKBI fb s.2, 0).
Definition kbootinfo_parse m (magic struct_pa : Z) (h : H) (k : KernelBootInfo) : outcome (H * KernelBootInfo) :=
  r ← multiboot_parse_info m magic struct_pa h k; if r.2 =? 0 then Ret r.1 else Panic.
End ops.

(** ** What the boot loader promises

    The entries [(size, base, length, type)] from [a] to [e]. *)
Record entry := mkEntry { e_size : Z; e_base : Z; e_len : Z; e_type : Z }.
Fixpoint laid_out (m : gmap Z Z) (a : Z) (l : list entry) (e : Z) : Prop :=
  match l with
  | [] => a = e
  | x :: l =>
      mmap_size m a = Ret x.(e_size) /\ mmap_start m a = Ret x.(e_base) /\ mmap_len m a = Ret x.(e_len) /\
      mmap_type m a = Ret x.(e_type) /\ 0 <= x.(e_size) /\ a + x.(e_size) + 4 <= e /\
      laid_out m (a + x.(e_size) + 4) l e
  end.
Definition available (x : entry) : Prop := x.(e_type) = MULTIBOOT_MMAP_TYPE_AVAILABLE.
#[export] Instance available_dec x : Decision (available x).
Proof. unfold available. apply _. Defined.
Definition region_of (x : entry) : MemoryRegion := mkRegion x.(e_base) x.(e_len) MEM_REGION_RWX.
(** The regions of the entries that can be used. *)
Definition usable (l : list entry) : list MemoryRegion := region_of <$> filter available l.
Definition apart (r t : MemoryRegion) : Prop :=
  r.(start) + r.(MRegMap.size) <= t.(start) \/ t.(start) + t.(MRegMap.size) <= r.(start).
Definition all_apart (l : list MemoryRegion) : Prop :=
  forall i j r t, l !! i = Some r -> l !! j = Some t -> i <> j -> apart r t.

Lemma laid_out_length m l : forall a e, laid_out m a l e -> a + Z.of_nat (length l) <= e.
Proof.
  induction l as [|x l IH]; intros a e; cbn [laid_out length]; [lia|].
  intros (_ & _ & _ & _ & ? & ? & Hl). apply IH in Hl. lia.
Qed.

Lemma trim_apart r t : region_ok r -> region_ok t -> apart r t -> trim r t = t /\ trimmable r t.
Proof.
  intros (R1 & R2 & R3) (T1 & T2 & T3) Ha. unfold apart in Ha. split; [|split; lia].
  unfold trim. destruct (Z.ltb_spec t.(start) r.(start)); destruct t as [ts tz tp]; cbn [start MRegMap.size perms] in *;
    cbv zeta; f_equal; lia.
Qed.

Lemma all_apart_cons r l : all_apart (r :: l) -> (forall t, t ∈ l -> apart r t) /\ all_apart l.
Proof.
  intros Ha. split.
  - intros t [i Hi]%list_elem_of_lookup_1. by apply (Ha 0%nat (S i)).
  - intros i j x y Hi Hj Hne. apply (Ha (S i) (S j)); [done|done|lia].
Qed.

Lemma all_apart_snoc r l : (forall t, t ∈ l -> apart r t) -> all_apart l -> all_apart (r :: l).
Proof.
  intros Hr Ha i j x y Hi Hj Hne.
  destruct i as [|i], j as [|j]; cbn in Hi, Hj; [done| | |apply (Ha i j); [done|done|congruence]].
  - injection Hi as <-. apply Hr. by eapply list_elem_of_lookup_2.
  - injection Hj as <-. destruct (Hr x) as [?|?]; [by eapply list_elem_of_lookup_2|by right|by left].
Qed.

Lemma all_apart_perm l l' : l ≡ₚ l' -> all_apart l -> all_apart l'.
Proof.
  intros Hp Ha i j r t Hi Hj Hne. symmetry in Hp. apply Permutation_inj in Hp as (_ & f & Hf & Hl).
  apply (Ha (f i) (f j)); [by rewrite <- Hl|by rewrite <- Hl|]. by intros ?%Hf.
Qed.

(** ** The loop over the entries *)
Section spec.
Context {H : Type} `{!Allocator H} (koff : Z).

(** A map that has room for [n] regions and holds [l]. *)
Definition holds (n : nat) (l : list MemoryRegion) (mp : MemoryRegionMap) : Prop :=
  map_ok mp /\ mp.(regions_capacity) = Z.of_nat n /\ mp.(regions_size) = Z.of_nat (length l) /\ active mp ≡ₚ l.

Lemma add_holds n l r (h : H) mp : holds n l mp -> region_ok r -> Forall region_ok l -> (forall t, t ∈ l -> apart r t) -> (length l < n)%nat ->
  exists mp', mregmap_add_reg (add_fuel (h, mp)) r (h, mp) = Ret ((h, mp'), true) /\ holds n (r :: l) mp' /\ StronglySorted start_le (active mp').
Proof.
  intros (Hok & Hc & Hsz & Hp) Hr Hl Ha Hn. rewrite Forall_forall in Hl.
  assert (Htrim : forall t, t ∈ active mp -> trim r t = t /\ trimmable r t).
  { intros t Ht. rewrite Hp in Ht. apply trim_apart; auto. }
  destruct (add_reg_spec (add_fuel (h, mp)) r h mp Hok Hr) as (mp' & E & Hs' & (Hc' & Hlen) & Hp' & Hsort).
  - apply Forall_forall. intros t Ht. by apply Htrim.
  - unfold add_fuel. cbn [snd]. lia.
  - lia.
  - assert (Et : trim r <$> active mp = active mp).
    { rewrite <- (map_id (active mp)) at 2. apply list_fmap_ext. intros i t Ht. apply Htrim. by eapply list_elem_of_lookup_2. }
    rewrite Et, Hp in Hp'. exists mp'. split; [done|]. split; [|done]. destruct Hok as (O1 & O2 & O3 & O4).
    split; [|split; [lia|split; [cbn; lia|done]]]. split; [lia|]. split; [lia|]. split; [rewrite Hc', Hlen; done|].
    rewrite Hp'. constructor; [done|]. by apply Forall_forall.
Qed.

(** The panic: an entry of any type once the array is full. *)
Definition too_many (n : nat) (l : list entry) : Prop := exists pre x post, l = pre ++ x :: post /\ (n <= length (usable pre))%nat.

Definition loop_result (n : nat) (acc : list MemoryRegion) (l : list entry) (h : H) (o : outcome (MRegMap.mstate H)) : Prop :=
  (o = Panic /\ exists pre x post, l = pre ++ x :: post /\ (n <= length acc + length (usable pre))%nat) \/
  (exists mp, o = Ret (h, mp) /\ holds n (usable l ++ acc) mp /\ StronglySorted start_le (active mp) /\
     forall pre x post, l = pre ++ x :: post -> (length acc + length (usable pre) < n)%nat).

Lemma usable_cons x l : usable (x :: l) = if decide (available x) then region_of x :: usable l else usable l.
Proof. unfold usable. rewrite filter_cons. by destruct (decide (available x)). Qed.

Lemma loop_result_cons n acc x l h o acc' :
  (length acc < n)%nat -> acc' ≡ₚ (if decide (available x) then region_of x :: acc else acc) ->
  loop_result n acc' l h o -> loop_result n acc (x :: l) h o.
Proof.
  intros Hn Hacc. assert (Hlen : forall pre, (length acc' + length (usable pre) = length acc + length (usable (x :: pre)))%nat).
  { intros pre. rewrite usable_cons, Hacc. destruct (decide (available x)); cbn; lia. }
  intros [(-> & pre & y & post & -> & Hy)|(mp & -> & Hh & Hs & Hy)].
  - left. split; [done|]. exists (x :: pre), y, post. split; [done|]. rewrite <- Hlen. exact Hy.
  - right. exists mp. split; [done|]. split; [|split; [done|]].
    + destruct Hh as (HO & HC & HS & HP). assert (Hperm : usable l ++ acc' ≡ₚ usable (x :: l) ++ acc).
      { rewrite usable_cons, Hacc. destruct (decide (available x)); cbn; [|done]. by rewrite Permutation_middle. }
      split; [done|]. split; [done|]. split; [by rewrite HS, Hperm|by rewrite HP].
    + intros [|z pre] y post E; cbn in E; injection E as -> ->; [cbn; lia|]. rewrite <- Hlen. by eapply Hy.
Qed.

Lemma mmap_loop_spec m mbi base len e n h :
  mbi_mmap_base m mbi = Ret base -> mbi_mmap_length m mbi = Ret len -> u32 (base + koff + len) = e ->
  forall l fuel a acc mp, laid_out m a l e -> 0 <= a -> (length l < fuel)%nat -> holds n acc mp -> StronglySorted start_le (active mp) ->
  Forall region_ok (usable l ++ acc) -> all_apart (usable l ++ acc) ->
  loop_result n acc l h (mmap_loop koff fuel m mbi a (h, mp)).
Proof.
  intros Hb Hl He. pose proof (u32_range (base + koff + len)) as Hr. rewrite He in Hr. unfold is_u32 in Hr.
  intros l. induction l as [|x l IH]; intros [|fuel] a acc mp Hlay Ha Hf Hh Hs Hok Hap; cbn [length] in Hf; try lia;
    cbn [mmap_loop]; rewrite Hb, bind_Ret, Hl, bind_Ret, He.
  - cbn in Hlay. rewrite (proj2 (Z.ltb_ge _ _)) by lia. cbn [negb]. right. exists mp. split; [done|]. split; [done|]. split; [done|].
    intros [|] ? ? E; done.
  - cbn [laid_out] in Hlay. destruct Hlay as (E1 & E2 & E3 & E4 & Hsz & Hle & Hlay).
    rewrite (proj2 (Z.ltb_lt _ _)) by lia. cbn [negb snd fst]. pose proof Hh as (_ & HC & HS & _).
    rewrite HC, HS. destruct (Z.leb_spec (Z.of_nat n) (Z.of_nat (length acc))) as [Hge|Hlt].
    { left. split; [done|]. exists [], x, l. split; [done|]. cbn. lia. }
    rewrite E4, bind_Ret. rewrite usable_cons in Hok, Hap. unfold available in *.
    destruct (Z.eqb_spec x.(e_type) MULTIBOOT_MMAP_TYPE_AVAILABLE) as [Ht|Ht]; cbn [negb].
    + rewrite decide_True in Hok, Hap by done. cbn [app] in Hok, Hap. apply Forall_cons in Hok as [Hreg Hok].
      apply all_apart_cons in Hap as [Hap1 Hap].
      destruct (add_holds n acc (region_of x) h mp Hh Hreg) as (mp' & E & Hh' & Hs'); [by apply Forall_app in Hok as [_ ?]| |lia|].
      { intros t Ht'. apply Hap1, elem_of_app. by right. }
      rewrite E2, bind_Ret, E3, bind_Ret. fold (region_of x). rewrite E, !bind_Ret. cbn [fst]. rewrite E1, bind_Ret, u32_small by (unfold is_u32; lia).
      apply (loop_result_cons n acc x l h _ (region_of x :: acc)); [lia|unfold available; by rewrite decide_True|].
      apply IH; try done; try lia.
      * rewrite <- Permutation_middle. by constructor.
      * eapply all_apart_perm; [apply Permutation_middle|]. by apply all_apart_snoc.
    + rewrite decide_False in Hok, Hap by done. rewrite bind_Ret, E1, bind_Ret, u32_small by (unfold is_u32; lia).
      apply (loop_result_cons n acc x l h _ acc); [lia|unfold available; by rewrite decide_False|].
      apply IH; try done; lia.
Qed.

Lemma start_holds addr : holds 16 [] (g_sys_mregmap addr).
Proof. unfold g_sys_mregmap, SYS_MEMORY_REGIONS_MAX. split; [|done]. split; [cbn; lia|]. split; [cbn; lia|]. split; [cbn; lia|]. by apply Forall_nil. Qed.
End spec.

Lemma parse_fb_spec m mbi ty b w ht d fb :
  fb_type m mbi = Ret ty -> fb_base m mbi = Ret b -> fb_w m mbi = Ret w -> fb_h m mbi = Ret ht -> fb_depth m mbi = Ret d ->
  parse_fb m mbi fb = Ret (if ty =? 1 then mkFbInfo true (u32 b) w ht d else fb).
Proof. intros E1 E2 E3 E4 E5. unfold parse_fb. rewrite E1, bind_Ret, E2, E3, E4, E5. by destruct (ty =? 1). Qed.

(** C29: [kbootinfo_parse] panics without the boot loader's magic.  With it,
    and entries whose usable regions are apart, the kernel's map holds exactly
    the usable regions, sorted, and the frame buffer is the one described, its
    address cut to 32 bits; it panics instead exactly when some entry, usable
    or not, comes after 16 usable ones.  The three first words of the header
    sum to 0, as the boot loader demands. *)
Theorem kbootinfo_correct `{!Allocator H} koff m magic struct_pa addr (h : H) mbi base len l ty b w ht d :
  mbi = u32 (struct_pa + koff) ->
  mbi_mmap_base m mbi = Ret base -> mbi_mmap_length m mbi = Ret len -> is_u32 len ->
  laid_out m (u32 (base + koff)) l (u32 (base + koff + len)) -> Forall region_ok (usable l) -> all_apart (usable l) ->
  fb_type m mbi = Ret ty -> fb_base m mbi = Ret b -> fb_w m mbi = Ret w -> fb_h m mbi = Ret ht -> fb_depth m mbi = Ret d ->
  (magic <> MULTIBOOT_BOOTLOADER_MAGIC -> kbootinfo_parse koff m magic struct_pa h (kboot_info addr) = Panic) /\
  (magic = MULTIBOOT_BOOTLOADER_MAGIC ->
   (kbootinfo_parse koff m magic struct_pa h (kboot_info addr) = Panic /\ too_many 16 l) \/
   (exists mp, kbootinfo_parse koff m magic struct_pa h (kboot_info addr) =
      Ret (h, mkKBI (if ty =? 1 then mkFbInfo true (u32 b) w ht d else mkFbInfo false 0 0 0 0) mp) /\
      active mp ≡ₚ usable l /\ StronglySorted start_le (active mp) /\ ~ too_many 16 l)) /\
  u32 (foldr Z.add 0 (take 3 mbootconfig)) = 0.
Proof.
  intros -> Hb Hl Hlen Hlay Hok Hap Ht H1 H2 H3 H4. split; [|split; [|done]]; unfold kbootinfo_parse, multiboot_parse_info.
  - intros Hm. rewrite (proj2 (Z.eqb_neq _ _)) by done. done.
  - intros ->. rewrite Z.eqb_refl. cbn [negb].
    rewrite (parse_fb_spec m _ ty b w ht d), bind_Ret, Hb, bind_Ret, Hl, bind_Ret by done.
    change (mregmap (kboot_info addr)) with (g_sys_mregmap addr). pose proof (laid_out_length _ _ _ _ Hlay) as Hn.
    pose proof (mmap_loop_spec koff m _ base len _ 16 h Hb Hl eq_refl l (S (Z.to_nat len)) (u32 (base + koff)) [] (g_sys_mregmap addr)) as Hloop.
    pose proof (u32_range (base + koff)) as Ra. pose proof (u32_range (base + koff + len)) as Re. unfold is_u32, u32 in Ra, Re, Hn, Hlen.
    assert (Hlength : Z.of_nat (length l) <= len).
    { pose proof (Z.mod_eq (base + koff) (2 ^ 32)) as M1. pose proof (Z.mod_eq (base + koff + len) (2 ^ 32)) as M2. lia. }
    destruct Hloop as [(-> & Hmany)|(mp & -> & Hh & Hs & Hfew)]; try done; try lia.
    + apply u32_range.
    + constructor.
    + by rewrite app_nil_r.
    + by rewrite app_nil_r.
    + left. split; [done|]. exact Hmany.
    + right. exists mp. split; [done|]. destruct Hh as (_ & _ & _ & Hp). rewrite app_nil_r in Hp. split; [done|]. split; [done|].
      intros (pre & x & post & E & Hx). specialize (Hfew pre x post E). cbn in Hfew. lia.
Qed.

(** A machine with 639 KiB and 127 MiB of usable memory around a reserved
    range; the structure is at physical address 0x1000, its entries at 0x1100. *)
Definition w32 (z : Z) : list Z := [z mod 256; z / 256 mod 256; z / 65536 mod 256; z / 16777216].
Definition w64 (z : Z) : list Z := w32 (z mod 2 ^ 32) ++ w32 (z / 2 ^ 32).
Definition entry_bytes (x : entry) : list Z := w32 x.(e_size) ++ w64 x.(e_base) ++ w64 x.(e_len) ++ w32 x.(e_type).
Definition demo_entries : list entry :=
  [mkEntry 20 0 0x9FC00 1; mkEntry 20 0x9FC00 0x60400 2; mkEntry 20 0x100000 0x7F00000 1].
Definition demo_mbi : list Z :=
  replicate 44 0 ++ w32 72 ++ w32 0x1100 ++ replicate 36 0 ++ w64 0xFD000000 ++ w32 3200 ++ w32 800 ++ w32 600 ++ [32; 1] ++ replicate 10 0.
Definition demo_mem : gmap Z Z :=
  write_bytes (write_bytes ∅ 0xC0001000 demo_mbi) 0xC0001100 (demo_entries ≫= entry_bytes).

Lemma demo_usable : usable demo_entries = [mkRegion 0 0x9FC00 7; mkRegion 0x100000 0x7F00000 7].
Proof. reflexivity. Qed.

Lemma kbootinfo_correct_witness : exists mp,
  kbootinfo_parse 0xC0000000 demo_mem MULTIBOOT_BOOTLOADER_MAGIC 0x1000 demo_k (kboot_info 0xC0300000) =
    Ret (demo_k, mkKBI (mkFbInfo true 0xFD000000 800 600 32) mp) /\
  active mp ≡ₚ [mkRegion 0 0x9FC00 7; mkRegion 0x100000 0x7F00000 7].
Proof.
  destruct (kbootinfo_correct 0xC0000000 demo_mem MULTIBOOT_BOOTLOADER_MAGIC 0x1000 0xC0300000 demo_k 0xC0001000
    0x1100 72 demo_entries 1 0xFD000000 800 600 32) as (_ & A & _).
  - reflexivity.
  - by vm_compute.
  - by vm_compute.
  - unfold is_u32. lia.
  - repeat split; try (by vm_compute); vm_compute; discriminate.
  - rewrite demo_usable. repeat constructor; cbn; lia.
  - rewrite demo_usable. intros [|[|i]] [|[|j]] r t Hi Hj Hne; cbn in Hi, Hj; simplify_eq; (by left; cbn; lia) || (by right; cbn; lia) || done.
  - by vm_compute.
  - by vm_compute.
  - by vm_compute.
  - by vm_compute.
  - by vm_compute.
  - destruct (A eq_refl) as [[_ (pre & x & post & E & Hx)]|(mp & E & Hp & _)].
    + exfalso. assert (Hlen : (length (usable demo_entries) <= 2)%nat) by (by vm_compute).
      rewrite E in Hlen. unfold usable in *. rewrite filter_app, length_fmap, length_app in Hlen. rewrite length_fmap in Hx. lia.
    + exists mp. split; [exact E|exact Hp].
Defined.
