(* ===== verification/Vfs.v ===== *)
(** * The virtual file system

    [kernel/fs/vfs_fdt.c]: the table from a process' descriptor numbers to
    the open files; [kernel/fs/vfs.c]: mounting, drivers, and the file
    operations a process asks for. *)
From S2P Require Import Prelude Alloc CString LinkedList HashTable Path Paging Falloc Proc User Fs Procm.

Definition EBADF : Z := 9.
Definition EBUSY : Z := 16.
Definition EEXIST : Z := 17.
Definition EISDIR : Z := 21.
Definition ENOENT : Z := 2.
Definition ENOMEM : Z := 12.
Definition EINVAL : Z := 22.
Definition EOVERFLOW : Z := 39.
Definition O_RDONLY : Z := 1.
Definition O_WRONLY : Z := 2.
Definition O_CREAT : Z := 8.
Definition O_APPEND : Z := 0x80.
Definition SEEK_SET : Z := 1.
Definition SEEK_CUR : Z := 2.
Definition SEEK_END : Z := 3.
Definition S_IFDIR : Z := 0x4000.
Definition VFS_TYPE_MAX : Z := 32.
Definition sizeof_FileDescriptor : Z := 20.
Definition sizeof_FileSystem : Z := 32.

(** [flags & bit]. *)
Definition has (flags bit : Z) : bool := negb (Z.land flags bit =? 0).

Section ops.
Context {H D : Type} `{!Allocator H} `{!AlignedAllocator H} `{DT : DriverTables} `{!Drivers (vstate H D)}.
Notation vstate := (vstate H D).

(** ** [vfs_fdt.c] *)

Definition vfs_fdt_combo_to_hashkey (procfd pid : Z) : Z :=
  Z.lor (u64 (Z.shiftl (u64 procfd) 32)) (u32 pid).

(** The registry of hash functions as the table sees it, and back. *)
Definition hs (s : vstate) : hstate H := mkHS (vheap s) s.(hash_ptr) s.(hash_funcs).
Definition put_hs (s : vstate) (h : hstate H) (ht : HashTable) : vstate :=
  set_fdt (set_vheap s h.(HashTable.heap)) h.(funcs) ht.

Definition vfs_fdt_init (s : vstate) : outcome (vstate * Z) :=
  r ← hashtable_init (hs s);
  let '(h, ht, st) := r : hstate H * HashTable * Z in Ret (put_hs s h ht, st).

Definition vfs_fdt_new_sysfd (procfd pid : Z) (s : vstate) : outcome (vstate * Z) :=
  r ← kcalloc_ sizeof_FileDescriptor (vheap s);
  let s := set_vheap s r.1 in
  let sysfd := r.2 in
  if sysfd =? 0 then Ret (s, 0)
  else
    r ← hashtable_insert (vfs_fdt_combo_to_hashkey procfd pid) sysfd (hs s) s.(g_sys_fd_hashtable);
    let '(h, ht, st) := r : hstate H * HashTable * Z in
    let s := put_hs s h ht in
    if st <? 0 then s ← free_block s sysfd; Ret (s, 0)
    else Ret (set_sysfds s (<[sysfd := mkFD procfd pid 0 0 0]> s.(sysfds)), sysfd).

Definition vfs_fdt_get_sysfd (procfd pid : Z) (s : vstate) : outcome Z :=
  r ← hashtable_find (vfs_fdt_combo_to_hashkey procfd pid) (hs s) s.(g_sys_fd_hashtable);
  Ret (if negb (r.1 =? 0) then 0 else r.2).

Definition vfs_fdt_free_sysfd (sysfd : Z) (s : vstate) : outcome vstate :=
  d ← deref (s.(sysfds) !! sysfd);
  r ← hashtable_remove (vfs_fdt_combo_to_hashkey d.(fd_fd) d.(fd_pid)) (hs s) s.(g_sys_fd_hashtable);
  let '(h, ht, _) := r : hstate H * HashTable * Z in
  s ← free_block (put_hs s h ht) sysfd;
  Ret (set_sysfds s (delete sysfd s.(sysfds))).

(** ** Mounts *)

(** [out_err]: what was set is freed. *)
Definition new_fs_out_err (newfs st : Z) (s : vstate) : outcome (vstate * (Z * Z)) :=
  f ← deref (s.(filesystems) !! newfs);
  s ← (if f.(mntsrc) =? 0 then Ret s else free_str s f.(mntsrc));
  s ← (if f.(mntpoint) =? 0 then Ret s else free_str s f.(mntpoint));
  s ← (if f.(args) =? 0 then Ret s else free_str s f.(args));
  s ← free_block s newfs;
  Ret (set_filesystems s (delete newfs s.(filesystems)), (st, 0)).

(** [user_strndup] into the state: an error, and the block. *)
Definition dup_user (p maxn : Z) (s : vstate) : outcome (vstate * (Z * Z)) :=
  r ← user_strndup s.(umem) p maxn (vheap s);
  let '(h, st, (q, t)) := r : H * Z * (Z * list Z) in
  let s := set_vheap s h in
  Ret (if st =? 0 then set_strs s (<[q := t]> s.(strs)) else s, (st, q)).

Definition vfs_new_fs (src dest arg : Z) (s : vstate) : outcome (vstate * (Z * Z)) :=
  r ← kcalloc_ sizeof_FileSystem (vheap s);
  let s := set_vheap s r.1 in
  let newfs := r.2 in
  if newfs =? 0 then Ret (s, (- ENOMEM, 0))
  else
    let f := zero_fs in
    r ← dup_user src PATH_MAX s;
    let '(s, (st, q)) := r : vstate * (Z * Z) in
    if negb (st =? 0) then new_fs_out_err newfs st (put_fs s newfs f)
    else
      let f := set_names f q 0 0 in
      r ← dup_user dest PATH_MAX s;
      let '(s, (st, q)) := r : vstate * (Z * Z) in
      if negb (st =? 0) then new_fs_out_err newfs st (put_fs s newfs f)
      else
        let f := set_names f f.(mntsrc) q 0 in
        r ← (if arg =? 0 then Ret (s, (0, 0)) else dup_user arg PATH_MAX s);
        let '(s, (st, q)) := r : vstate * (Z * Z) in
        if negb (st =? 0) then new_fs_out_err newfs st (put_fs s newfs f)
        else
          let s := put_fs s newfs (set_names f f.(mntsrc) f.(mntpoint) q) in
          r ← run_ll (fun ls => linkedlist_add newfs ls s.(g_filesystems_ll)) s;
          let '(s, ll, st) := r : vstate * LinkedList * Z in
          let s := set_mounts s ll in
          if st <? 0 then new_fs_out_err newfs (- ENOMEM) s else Ret (s, (0, newfs)).

Definition vfs_free_fs (fs : Z) (s : vstate) : outcome (vstate * Z) :=
  r ← run_ll (fun ls => linkedlist_remove_by_data fs ls s.(g_filesystems_ll)) s;
  let '(s, ll, st) := r : vstate * LinkedList * Z in
  let s := set_mounts s ll in
  if st =? 0 then
    f ← deref (s.(filesystems) !! fs);
    s ← free_str s f.(mntsrc);
    s ← free_str s f.(mntpoint);
    s ← (if f.(args) =? 0 then Ret s else free_str s f.(args));
    s ← free_block s fs;
    Ret (set_filesystems s (delete fs s.(filesystems)), 0)
  else Ret (s, 0).

Definition vfs_topmost_fs_for_path (path : list Z) (s : vstate) : outcome Z :=
  hit ← for_each s s.(g_filesystems_ll) (fun fs_hit fs =>
    f ← deref (s.(filesystems) !! fs);
    mnt ← deref (s.(strs) !! f.(mntpoint));
    starts ← str_starts path mnt;
    if negb starts then Ret (fs_hit, false)
    else if fs_hit =? 0 then Ret (fs, false)
    else
      g ← deref (s.(filesystems) !! fs_hit);
      cur ← deref (s.(strs) !! g.(mntpoint));
      Ret (if (length cur <=? length mnt)%nat then fs else fs_hit, false)) 0;
  _ ← assert_ (negb (hit =? 0));
  Ret hit.

(** [p && strcmp(p, text) == 0]. *)
Definition named (p : Z) (text : list Z) (s : vstate) : outcome bool :=
  if p =? 0 then Ret false else t ← deref (s.(strs) !! p); str_eq t text.
Definition vfs_find_fs_by_src_or_dest (src_or_dest : list Z) (s : vstate) : outcome Z :=
  for_each s s.(g_filesystems_ll) (fun hit fs =>
    f ← deref (s.(filesystems) !! fs);
    src ← named f.(mntsrc) src_or_dest s;
    r ← (if src : bool then Ret true else named f.(mntpoint) src_or_dest s);
    Ret (if r : bool then (fs, true) else (hit, false))) 0.

(** The drivers from [ds] on are probed, the last status was [st]. *)
Fixpoint probe_loop (ds : list Z) (fs : Z) (safe_type : option (list Z)) (st : Z) (s : vstate) : outcome (vstate * Z) :=
  match ds with
  | [] => Ret (s, st)
  | d :: ds =>
      f ← deref (s.(filesystems) !! fs);
      let s := put_fs s fs (set_driver f d) in
      match safe_type with
      | Some t =>
          eq ← str_eq (drv_name d) t;
          if eq : bool then drv_init d fs s else probe_loop ds fs safe_type (- ENOENT) s
      | None =>
          r ← (if generic_probe d then drv_init d fs s else Ret (s, - ENOENT));
          if (r.2 =? 0) || negb (r.2 =? - ENOENT) then Ret r else probe_loop ds fs safe_type (- ENOENT) r.1
      end
  end.

Definition vfs_mount (src dest type arg flags : Z) (s : vstate) : outcome (vstate * Z) :=
  r ← vfs_new_fs src dest arg s;
  let '(s, (err, fs)) := r : vstate * (Z * Z) in
  if negb (err =? 0) then Ret (s, err)
  else
    f ← deref (s.(filesystems) !! fs);
    let s := put_fs s fs (set_fsflags f flags) in
    r ← (if type =? 0 then Ret (s, (0, 0)) else dup_user type VFS_TYPE_MAX s);
    let '(s, (err, safe_type)) := r : vstate * (Z * Z) in
    if negb (err =? 0) then r ← vfs_free_fs fs s; Ret (r.1, err)
    else
      t ← (if safe_type =? 0 then Ret None else t ← deref (s.(strs) !! safe_type); Ret (Some t));
      r ← probe_loop s.(g_fs_drivers) fs t (- ENOENT) s;
      let '(s, st) := r : vstate * Z in
      r ← (if st <? 0 then vfs_free_fs fs s else Ret (s, 0));
      s ← (if safe_type =? 0 then Ret r.1 else free_str r.1 safe_type);
      Ret (s, st).

(** A null [src_or_dest] is [None]. *)
Definition vfs_unmount (src_or_dest : option (list Z)) (s : vstate) : outcome (vstate * Z) :=
  match src_or_dest with
  | None => Ret (s, - EINVAL)
  | Some t =>
      fs ← vfs_find_fs_by_src_or_dest t s;
      if fs =? 0 then Ret (s, - ENOENT)
      else
        f ← deref (s.(filesystems) !! fs);
        s ← drv_destroy f.(driver) fs s;
        r ← vfs_free_fs fs s; Ret (r.1, 0)
  end.

(** The root and device file systems; [str] has the addresses of the constant
    strings ["hdap0"], ["/"], ["devfs"] and ["/dev"]. *)
Definition vfs_init (hdap0 root_ devfs dev : Z) (s : vstate) : outcome (vstate * Z) :=
  r ← vfs_fdt_init s;
  _ ← assert_ (negb (r.2 <? 0));
  let s := set_mounts r.1 (linkedlist_init (mkLS (vheap r.1) r.1.(lnodes))).1 in
  r ← vfs_mount hdap0 root_ 0 0 0 s;
  _ ← assert_ (negb (r.2 <? 0));
  r ← vfs_mount devfs dev devfs 0 0 r.1;
  Ret (r.1, 0).

(** ** Drivers *)

(** Room for one more driver: false when there is none. *)
Definition vfs_new_fs_driver (s : vstate) : outcome (vstate * bool) :=
  r ← krealloc_ s.(g_fs_drivers_ptr) (u32 ((Z.of_nat (length s.(g_fs_drivers)) + 1) * 4)) (vheap s);
  let s := set_vheap s r.1 in
  if r.2 =? 0 then Ret (s, false) else Ret (set_drivers s r.2 (s.(g_fs_drivers) ++ [0]), true).

Fixpoint name_taken (nm : list Z) (ds : list Z) : outcome bool :=
  match ds with
  | [] => Ret false
  | d :: ds => eq ← str_eq (drv_name d) nm; if eq : bool then Ret true else name_taken nm ds
  end.
Definition vfs_register_fs_driver (d : Z) (s : vstate) : outcome (vstate * Z) :=
  taken ← name_taken (drv_name d) s.(g_fs_drivers);
  if taken : bool then Ret (s, - EEXIST)
  else
    r ← vfs_new_fs_driver s;
    if negb r.2 then Ret (r.1, - ENOMEM)
    else Ret (set_drivers r.1 r.1.(g_fs_drivers_ptr) (<[length s.(g_fs_drivers) := d]> r.1.(g_fs_drivers)), 0).

Definition vfs_unregister_fs_driver (d : Z) (s : vstate) : outcome (vstate * Z) :=
  match list_find (fun x => x = d) s.(g_fs_drivers) with
  | None => Ret (s, - ENOENT)
  | Some (i, _) =>
      used ← for_each s s.(g_filesystems_ll) (fun u fs =>
        f ← deref (s.(filesystems) !! fs);
        Ret (if f.(driver) =? d then (true, true) else (u, false))) false;
      if used : bool then Ret (s, - EBUSY)
      else Ret (set_drivers s s.(g_fs_drivers_ptr) (removelast (shift_down i s.(g_fs_drivers))), 0)
  end.

(** ** File operations *)

(** A user path in the kernel: an error, or the string. *)
Definition safe_path (path : Z) (s : vstate) : Z * list Z :=
  let '(st, bytes) := user_copy_str_from s.(umem) path PATH_MAX in (st, until_nul bytes).
Definition absolute (p : list Z) : bool := bool_decide (head p = Some SLASH).

Definition vfs_rmfile (path : Z) (s : vstate) : outcome (vstate * Z) :=
  let '(st, p) := safe_path path s in
  if st <? 0 then Ret (s, st)
  else if negb (absolute p) then Ret (s, - EINVAL)
  else
    fs ← vfs_topmost_fs_for_path p s;
    r ← fs_lookup_vnode p fs s;
    if negb (r.1 =? 0) then Ret (s, r.1)
    else
      let v := r.2 in
      x ← deref (s.(vnodes) !! v);
      if has x.(vn_mode) S_IFDIR then Ret (s, - EISDIR)
      else
        let x := set_vflags x (Z.lor x.(vn_flags) VNODE_PENDING_RM) in
        let s := put_vnode s v x in
        if x.(ref_count) =? 0 then f ← deref (s.(filesystems) !! x.(owner)); drv_rmnode f.(driver) v s
        else Ret (s, 0).

(** Open the node [v] for the process. *)
Definition open_node (v flags : Z) (p : Process) (s : vstate) : outcome (vstate * Process * Z) :=
  r ← proc_new_fd p s.(vpm);
  let '(m, p, procfd) := r : pmem H * Process * Z in
  let s := set_vpm s m in
  if procfd <? 0 then Ret (s, p, procfd)
  else
    r ← vfs_fdt_new_sysfd procfd p.(pid) s;
    let '(s, sysfd) := r : vstate * Z in
    if sysfd =? 0 then Ret (s, proc_free_fd procfd p, - ENOMEM)
    else
      x ← deref (s.(vnodes) !! v);
      r ← op_open x.(vn_ops) v flags s;
      let '(s, st) := r : vstate * Z in
      if st <? 0 then s ← vfs_fdt_free_sysfd sysfd s; Ret (s, proc_free_fd procfd p, st)
      else
        d ← deref (s.(sysfds) !! sysfd);
        let s := set_sysfds s (<[sysfd := mkFD d.(fd_fd) d.(fd_pid) flags d.(fd_off) v]> s.(sysfds)) in
        s ← vnode_increase_refcount v s;
        Ret (s, p, procfd).

Definition vfs_open (path flags mode : Z) (p : Process) (s : vstate) : outcome (vstate * Process * Z) :=
  let '(st, t) := safe_path path s in
  if st <? 0 then Ret (s, p, st)
  else if negb (absolute t) then Ret (s, p, - EINVAL)
  else
    fs ← vfs_topmost_fs_for_path t s;
    r ← fs_lookup_vnode t fs s;
    let '(err, v) := r : Z * Z in
    if err =? - ENOENT then
      if has flags O_CREAT then
        r ← fs_mkfile t mode 0 0 fs s;
        let '(s, (err, _)) := r : vstate * (Z * Z) in
        if err <? 0 then Ret (s, p, err)
        else
          r ← fs_lookup_vnode t fs s;
          _ ← assert_ (negb (r.2 =? 0));
          Ret (s, p, - ENOENT)
      else Ret (s, p, - ENOENT)
    else if err <? 0 then Ret (s, p, err)
    else open_node v flags p s.

(** The open file behind a descriptor: its address and itself. *)
Definition sysfd_at (a : Z) (s : vstate) : outcome (FileDescriptor * VirtualNode) :=
  d ← deref (s.(sysfds) !! a); x ← deref (s.(vnodes) !! d.(fd_vnode)); Ret (d, x).
Definition set_off (d : FileDescriptor) (o : Z) : FileDescriptor := mkFD d.(fd_fd) d.(fd_pid) d.(fd_flags) o d.(fd_vnode).

(** [sysfd->off += n]: an overflow of the signed offset is undefined. *)
Definition add_off (a n : Z) (s : vstate) : outcome vstate :=
  d ← deref (s.(sysfds) !! a);
  if bool_decide (- 2 ^ 31 <= d.(fd_off) + n < 2 ^ 31)
  then Ret (set_sysfds s (<[a := set_off d (d.(fd_off) + n)]> s.(sysfds))) else Undef.

Definition vfs_read (fd buf n : Z) (p : Process) (s : vstate) : outcome (vstate * Z) :=
  if fd <? 0 then Ret (s, - EINVAL)
  else
    a ← vfs_fdt_get_sysfd fd p.(pid) s;
    if a =? 0 then Ret (s, - EBADF)
    else
      r ← sysfd_at a s;
      let '(d, x) := r : FileDescriptor * VirtualNode in
      if has x.(vn_mode) S_IFDIR then Ret (s, - EISDIR)
      else if negb (has d.(fd_flags) O_RDONLY) then Ret (s, - EBADF)
      else if n =? 0 then Ret (s, 0)
      else
        r ← op_read x.(vn_ops) d.(fd_vnode) buf n d.(fd_off) s;
        let '(s, rd) := r : vstate * Z in
        if rd <? 0 then Ret (s, rd) else s ← add_off a rd s; Ret (s, rd).

Definition vfs_ioctl (fd req data : Z) (p : Process) (s : vstate) : outcome (vstate * Z) :=
  if fd <? 0 then Ret (s, - EINVAL)
  else
    a ← vfs_fdt_get_sysfd fd p.(pid) s;
    if a =? 0 then Ret (s, - EBADF)
    else r ← sysfd_at a s; op_ioctl r.2.(vn_ops) r.1.(fd_vnode) req data s.

Definition vfs_write (fd buf n : Z) (p : Process) (s : vstate) : outcome (vstate * Z) :=
  if fd <? 0 then Ret (s, - EINVAL)
  else
    a ← vfs_fdt_get_sysfd fd p.(pid) s;
    if a =? 0 then Ret (s, - EBADF)
    else
      r ← sysfd_at a s;
      let '(d, x) := r : FileDescriptor * VirtualNode in
      if has x.(vn_mode) S_IFDIR then Ret (s, - EISDIR)
      else if negb (has d.(fd_flags) O_WRONLY) then Ret (s, - EBADF)
      else if has d.(fd_flags) O_APPEND then Panic
      else if n =? 0 then Ret (s, 0)
      else
        r ← op_write x.(vn_ops) d.(fd_vnode) buf n d.(fd_off) s;
        let '(s, wr) := r : vstate * Z in
        if wr <? 0 then Ret (s, wr) else s ← add_off a wr s; Ret (s, wr).

(** The offset asked for: a new one, or the error.  In [SEEK_END] the size is
    unsigned and the sum is converted. *)
Definition seek_target (d : FileDescriptor) (size off whence : Z) : outcome (Z + Z) :=
  if whence =? SEEK_SET then Ret (if off <? 0 then inl (- EINVAL) else inr off)
  else if whence =? SEEK_CUR then
    if bool_decide (- 2 ^ 31 <= d.(fd_off) + off < 2 ^ 31) then
      let res := d.(fd_off) + off in
      Ret (if res <? 0 then inl (if off <? 0 then - EINVAL else - EOVERFLOW) else inr res)
    else Undef
  else if whence =? SEEK_END then
    let res := i32 (u32 (size + u32 off)) in
    Ret (if res <? 0 then inl (if off <? 0 then - EINVAL else - EOVERFLOW) else inr res)
  else Ret (inl (- EINVAL)).
Definition vfs_lseek (fd off whence : Z) (p : Process) (s : vstate) : outcome (vstate * Z) :=
  if fd <? 0 then Ret (s, - EINVAL)
  else
    a ← vfs_fdt_get_sysfd fd p.(pid) s;
    if a =? 0 then Ret (s, - EBADF)
    else
      r ← sysfd_at a s;
      t ← seek_target r.1 r.2.(vn_size) off whence;
      match t with
      | inl e => Ret (s, e)
      | inr o => Ret (set_sysfds s (<[a := set_off r.1 o]> s.(sysfds)), o)
      end.

Definition vfs_close (fd : Z) (p : Process) (s : vstate) : outcome (vstate * Process * Z) :=
  if fd <? 0 then Ret (s, p, - EINVAL)
  else
    a ← vfs_fdt_get_sysfd fd p.(pid) s;
    if a =? 0 then Ret (s, p, - ENOENT)
    else
      d ← deref (s.(sysfds) !! a);
      s ← vnode_decrease_refcount d.(fd_vnode) s;
      s ← vfs_fdt_free_sysfd a s;
      Ret (s, proc_free_fd fd p, 0).

Definition vfs_mmap (addr len prot flags fd off : Z) (p : Process) (s : vstate) : outcome (vstate * Z) :=
  a ← vfs_fdt_get_sysfd fd p.(pid) s;
  if a =? 0 then Ret (s, EBADF)
  else
    r ← sysfd_at a s;
    match op_mmap r.2.(vn_ops) with
    | None => Panic
    | Some f => f r.1.(fd_vnode) addr len prot flags off s
    end.

(** ** System calls: the same for the current process *)

Definition on_current {A} (f : Process -> vstate -> outcome (vstate * Process * A)) (k : pmstate H) (s : vstate)
    : outcome (pmstate H * vstate * A) :=
  a ← procm_sched_current_proc k;
  p ← deref (k.(procs) !! a);
  r ← f p (set_vpm s k.(pmem_));
  let '(s, p, st) := r : vstate * Process * A in
  Ret (set_procs (set_mem k s.(vpm)) (<[a := p]> k.(procs)), s, st).
(** An operation that leaves the process as it is. *)
Definition keeping {A} (f : Process -> vstate -> outcome (vstate * A)) (p : Process) (s : vstate) : outcome (vstate * Process * A) :=
  r ← f p s; Ret (r.1, p, r.2).
Definition sys_open (path flags mode : Z) := on_current (vfs_open path flags mode).
Definition sys_read (fd buf n : Z) := on_current (keeping (vfs_read fd buf n)).
Definition sys_ioctl (fd req data : Z) := on_current (keeping (vfs_ioctl fd req data)).
Definition sys_write (fd buf n : Z) := on_current (keeping (vfs_write fd buf n)).
Definition sys_mmap (addr len prot flags fd off : Z) := on_current (keeping (vfs_mmap addr len prot flags fd off)).
End ops.

(** ** The descriptor table *)
Section fdt.
Context {H D : Type} `{!Allocator H} `{!AllocatorLaws H} `{DT : DriverTables} `{!Drivers (vstate H D)}.
Implicit Types (s : vstate H D) (m : gmap Z Z).

Definition is_fd (fd : Z) : Prop := 0 <= fd < 2 ^ 31.
Notation key := vfs_fdt_combo_to_hashkey.

Lemma key_value fd n : is_fd fd -> key fd n = fd * 2 ^ 32 + u32 n.
Proof.
  intros Hfd. unfold is_fd, vfs_fdt_combo_to_hashkey in *. rewrite (u64_small fd) by (unfold is_u64; lia).
  rewrite (u64_small (Z.shiftl _ _)) by (unfold is_u64; rewrite Z.shiftl_mul_pow2 by lia; lia).
  apply lor_shiftl_add; [lia|apply u32_range].
Qed.
Lemma key_u64 fd n : is_fd fd -> is_u64 (key fd n).
Proof. intros Hfd. rewrite key_value by done. pose proof (u32_range n). unfold is_fd, is_u32, is_u64 in *. lia. Qed.
Lemma key_inj fd n fd' n' : is_fd fd -> is_fd fd' -> is_i32 n -> is_i32 n' -> key fd n = key fd' n' -> fd = fd' /\ n = n'.
Proof.
  intros Hfd Hfd' Hn Hn'. rewrite !key_value by done. pose proof (u32_range n) as R. pose proof (u32_range n') as R'.
  unfold is_fd, is_u32, is_i32 in *. intros E. assert (fd = fd') as -> by lia. split; [done|].
  assert (Eu : u32 n = u32 n') by lia. apply (f_equal i32) in Eu. rewrite !i32_u32 in Eu. by rewrite !i32_small in Eu.
Qed.

(** [m] has the open files by key; each is a block of its own. *)
Record fdt_ok (f : HashingFunction) s m : Prop := {
  ft_rep : ht_rep f (hs s) s.(g_sys_fd_hashtable) m;
  ft_file : forall k a, m !! k = Some a -> exists d, s.(sysfds) !! a = Some d /\
    k = key d.(fd_fd) d.(fd_pid) /\ is_fd d.(fd_fd) /\ is_i32 d.(fd_pid) /\
    live (vheap s) a = Some sizeof_FileDescriptor /\ a ∉ ht_blocks (hs s) s.(g_sys_fd_hashtable);
  ft_all : forall a, is_Some (s.(sysfds) !! a) -> exists k, m !! k = Some a }.

(** The open file of a descriptor. *)
Definition file_of s m (fd n : Z) : option FileDescriptor := a ← m !! key fd n; s.(sysfds) !! a.

(** Only the table, its files and their blocks changed. *)
Record fdt_step s s' (a : Z) : Prop := {
  fs_same : s' = set_sysfds (set_fdt (set_vheap s (vheap s')) s.(hash_funcs) s'.(g_sys_fd_hashtable)) s'.(sysfds);
  fs_other : forall b, b <> a -> live (vheap s) b <> None -> b ∉ ht_blocks (hs s) s.(g_sys_fd_hashtable) ->
    live (vheap s') b = live (vheap s) b /\ b ∉ ht_blocks (hs s') s'.(g_sys_fd_hashtable) }.

Lemma file_block f s m k a : fdt_ok f s m -> m !! k = Some a -> a <> 0.
Proof.
  intros Ho Ha. destruct (ft_file _ _ _ Ho k a Ha) as (d & _ & _ & _ & _ & Hl & _).
  apply (live_not_null (vheap s)); [apply (rep_wf _ _ _ _ (ft_rep _ _ _ Ho))|congruence].
Qed.
Lemma file_key f s m k k' a : fdt_ok f s m -> m !! k = Some a -> m !! k' = Some a -> k = k'.
Proof.
  intros Ho Ha Ha'. destruct (ft_file _ _ _ Ho k a Ha) as (d & Hd & -> & _), (ft_file _ _ _ Ho k' a Ha') as (d' & Hd' & -> & _). congruence.
Qed.
Lemma table_blocks f s m b : fdt_ok f s m -> b ∈ ht_blocks (hs s) s.(g_sys_fd_hashtable) -> b = 0 \/ live (vheap s) b <> None.
Proof.
  intros [R _ _]. exact (ht_blocks_live f (hs s) _ m b R).
Qed.

(** Allocating or freeing another block keeps the table. *)
Lemma fdt_heap f s m h : fdt_ok f s m -> alloc_wf h ->
  (forall b, b ∈ ht_blocks (hs s) s.(g_sys_fd_hashtable) \/ (exists k, m !! k = Some b) -> live h b = live (vheap s) b) ->
  fdt_ok f (set_vheap s h) m.
Proof.
  intros [R F A] Hwf Hl. split; [..|exact A].
  - apply (ht_frame f (hs s)); [done|done|]. intros b Hb. apply Hl. by left.
  - intros k a Ha. destruct (F k a Ha) as (d & H1 & H2 & H3 & H4 & H5 & H6). exists d.
    do 4 (split; [done|]). split; [|done]. rewrite <- H5. apply Hl. right. by exists k.
Qed.

Lemma get_spec f s m fd n : fdt_ok f s m -> is_fd fd -> vfs_fdt_get_sysfd fd n s = Ret (default 0 (m !! key fd n)).
Proof.
  intros Ho Hfd. unfold vfs_fdt_get_sysfd. rewrite (find_spec f (hs s) _ m) by (apply Ho || by apply key_u64).
  rewrite bind_Ret. by destruct (m !! key fd n).
Qed.

Lemma new_sysfd_spec f s m fd n : fdt_ok f s m -> is_fd fd -> is_i32 n -> m !! key fd n = None ->
  exists s' a, vfs_fdt_new_sysfd fd n s = Ret (s', a) /\ fdt_step s s' 0 /\
    ((a = 0 /\ fdt_ok f s' m /\ s'.(sysfds) = s.(sysfds)) \/
     (a <> 0 /\ live (vheap s) a = None /\ fdt_ok f s' (<[key fd n := a]> m) /\
      s'.(sysfds) = <[a := mkFD fd n 0 0 0]> s.(sysfds) /\ live (vheap s') a = Some sizeof_FileDescriptor)).
Proof.
  intros Ho Hfd Hn Hnew. pose proof (ft_rep _ _ _ Ho) as R. pose proof (rep_wf _ _ _ _ R) as Hwf. cbn in Hwf.
  unfold vfs_fdt_new_sysfd. destruct (calloc_law (vheap s) sizeof_FileDescriptor Hwf) as (h & a & -> & Hwf1 & Hc); [unfold sizeof_FileDescriptor; lia|].
  rewrite bind_Ret. cbn [fst snd]. destruct Hc as [[-> Hl]|(Ha & Hfresh & Hl)].
  { eexists _, _. split; [reflexivity|]. split; [split; [by destruct s|by intros b _ _ ?]|]. left. split; [done|]. split; [|done]. by apply fdt_heap. }
  rewrite (proj2 (Z.eqb_neq a 0) Ha).
  assert (Hin : forall b, live (vheap s) b <> None -> live h b = live (vheap s) b).
  { intros b Hb. rewrite Hl, decide_False; [done|]. by intros ->. }
  assert (Ho1 : fdt_ok f (set_vheap s h) m).
  { apply fdt_heap; [done|done|]. intros b [Hb|[k Hk]].
    - destruct (table_blocks _ _ _ _ Ho Hb) as [->|Hb']; [|by apply Hin]. by rewrite Hl, decide_False.
    - destruct (ft_file _ _ _ Ho k b Hk) as (d & _ & _ & _ & _ & Hb & _). apply Hin. congruence. }
  assert (Hout : a ∉ ht_blocks (hs (set_vheap s h)) s.(g_sys_fd_hashtable)).
  { intros Hb. destruct (table_blocks f s m a Ho Hb); [done|congruence]. }
  pose proof (key_u64 fd n Hfd) as Hk.
  destruct (insert_spec f _ _ m (key fd n) a (ft_rep _ _ _ Ho1) Hk) as (h2 & ht & st & Hins & _ & Hr).
  pose proof (insert_frame f _ _ m _ _ _ _ _ (ft_rep _ _ _ Ho1) Hk Hins) as [Hfn Hgp Hfr].
  change (g_sys_fd_hashtable (set_vheap s h)) with (g_sys_fd_hashtable s) in *. rewrite Hins, bind_Ret. cbn beta iota.
  assert (Hla : live h a = Some sizeof_FileDescriptor) by (rewrite Hl; by rewrite decide_True).
  assert (Hlive1 : forall b, live (vheap s) b <> None -> live h b <> None) by (intros b Hb; by rewrite Hin).
  assert (Hhs : hs (put_hs (set_vheap s h) h2 ht) = h2) by (unfold hs, put_hs; destruct h2 as [x y z]; cbn in *; by rewrite Hgp).
  destruct (Hfr a ltac:(cbn; congruence) Hout) as [Hla2 Hout2]. cbn in Hla2. rewrite Hla in Hla2.
  assert (Hstep : forall b, live (vheap s) b <> None -> b ∉ ht_blocks (hs s) s.(g_sys_fd_hashtable) ->
    live (HashTable.heap h2) b = live (vheap s) b /\ b ∉ ht_blocks h2 ht).
  { intros b Hb Hno. destruct (Hfr b (Hlive1 b Hb) Hno) as [E1 E2]. split; [|done]. cbn in E1. rewrite E1. by apply Hin. }
  assert (Hold : forall k b, m !! k = Some b -> b <> a).
  { intros k b Hb ->. destruct (ft_file _ _ _ Ho k a Hb) as (d & _ & _ & _ & _ & Hlb & _). congruence. }
  destruct Hr as [[-> R2]|(-> & -> & R2)]; cbn [Z.ltb Z.compare Z.opp HashTable.ENOMEM].
  - eexists _, _. split; [reflexivity|]. split.
    { split; [cbn; unfold put_hs; cbn; by rewrite Hfn|]. intros b _ Hb Hno. cbn -[ht_blocks]. unfold hs. cbn -[ht_blocks].
      change (mkHS _ _ _) with (hs (put_hs (set_vheap s h) h2 ht)). rewrite Hhs. by apply Hstep. }
    right. split; [done|]. split; [done|]. split; [|split; [done|done]]. split.
    + change (hs (set_sysfds _ _)) with (hs (put_hs (set_vheap s h) h2 ht)). by rewrite Hhs.
    + change (hs (set_sysfds _ _)) with (hs (put_hs (set_vheap s h) h2 ht)). rewrite Hhs. cbn -[ht_blocks].
      intros k b [[<- <-]|[Hne Hb]]%lookup_insert_Some.
      * exists (mkFD fd n 0 0 0). split; [by rewrite lookup_insert_eq|]. done.
      * destruct (ft_file _ _ _ Ho k b Hb) as (d & H1 & H2 & H3 & H4 & H5 & H6). exists d.
        split; [rewrite lookup_insert_ne; [done|]; intros ->; by destruct (Hold k b Hb)|]. do 3 (split; [done|]).
        destruct (Hstep b) as [E1 E2]; [congruence|done|]. by rewrite E1.
    + cbn. intros b [<-|[Hne Hb]]%lookup_insert_is_Some; [exists (key fd n); by rewrite lookup_insert_eq|].
      destruct (ft_all _ _ _ Ho b Hb) as (k & Hk'). exists k. rewrite lookup_insert_ne; [done|]. intros <-. congruence.
  - unfold free_block. destruct (free_law (vheap (put_hs (set_vheap s h) h2 (g_sys_fd_hashtable s))) a) as (h3 & -> & Hwf3 & Hl3).
    { apply (rep_wf _ _ _ _ R2). } { cbn. congruence. }
    rewrite !bind_Ret. cbn in Hl3. eexists _, _. split; [reflexivity|].
    assert (Hfn3 : forall b, live (vheap s) b <> None -> b ∉ ht_blocks (hs s) s.(g_sys_fd_hashtable) -> live h3 b = live (vheap s) b /\ b ∉ ht_blocks h2 s.(g_sys_fd_hashtable)).
    { intros b Hb Hno. destruct (Hstep b Hb Hno) as [E1 E2]. split; [|done]. rewrite Hl3, decide_False; [done|]. intros ->. congruence. }
    assert (Hhs3 : hs (set_vheap (put_hs (set_vheap s h) h2 (g_sys_fd_hashtable s)) h3) = set_h h2 h3)
      by (unfold hs, put_hs, set_h; destruct h2 as [x y z]; cbn in *; by rewrite Hgp).
    split.
    { split; [cbn; unfold put_hs; cbn; by rewrite Hfn|]. intros b _ Hb Hno. rewrite Hhs3. cbn -[ht_blocks].
      change (ht_blocks (set_h h2 h3) ?t) with (ht_blocks h2 t). by apply Hfn3. }
    left. split; [done|]. split; [|done]. split.
    + rewrite Hhs3. apply (ht_frame f h2); [done|done|]. intros b Hb. rewrite Hl3, decide_False; [done|]. by intros ->.
    + rewrite Hhs3. cbn -[ht_blocks]. intros k b Hb. destruct (ft_file _ _ _ Ho k b Hb) as (d & H1 & H2 & H3 & H4 & H5 & H6). exists d.
      do 4 (split; [done|]). change (ht_blocks (set_h h2 h3) ?t) with (ht_blocks h2 t).
      destruct (Hfn3 b) as [E1 E2]; [congruence|done|]. by rewrite E1.
    + apply Ho.
Qed.

Lemma delete_file f s m fd n a : fdt_ok f s m -> is_fd fd -> is_i32 n -> m !! key fd n = Some a ->
  exists d, s.(sysfds) !! a = Some d /\ d.(fd_fd) = fd /\ d.(fd_pid) = n.
Proof.
  intros Ho Hfd Hn Ha. destruct (ft_file _ _ _ Ho _ a Ha) as (d & Hd & Hk & Hf & Hp & _). exists d.
  split; [done|]. destruct (key_inj fd n d.(fd_fd) d.(fd_pid)); done.
Qed.

Lemma free_sysfd_spec f s m fd n a : fdt_ok f s m -> is_fd fd -> is_i32 n -> m !! key fd n = Some a ->
  (exists s', vfs_fdt_free_sysfd a s = Ret s' /\ fdt_step s s' a /\ fdt_ok f s' (delete (key fd n) m) /\
     s'.(sysfds) = delete a s.(sysfds)) \/
  vfs_fdt_free_sysfd a s = Panic.
Proof.
  intros Ho Hfd Hn Ha. pose proof (key_u64 fd n Hfd) as Hk. pose proof (ft_rep _ _ _ Ho) as R.
  destruct (delete_file _ _ _ _ _ _ Ho Hfd Hn Ha) as (d & Hd & Ef & Ep). unfold vfs_fdt_free_sysfd. rewrite Hd. cbn [deref].
  rewrite bind_Ret, Ef, Ep.
  destruct (remove_present f _ _ m (key fd n) a R Hk Ha) as [(h2 & ht & Hrm & _ & R2)|[-> _]]; [left|by right].
  pose proof (remove_frame f _ _ m _ _ _ _ R Hk Hrm) as [Hfn Hgp Hfr]. rewrite Hrm, bind_Ret. cbn beta iota.
  destruct (ft_file _ _ _ Ho _ a Ha) as (_ & _ & _ & _ & _ & Hla & Hout). destruct (Hfr a ltac:(cbn; congruence) Hout) as [Hla2 Hout2].
  unfold free_block. destruct (free_law (HashTable.heap h2) a (rep_wf _ _ _ _ R2)) as (h3 & Hfree & Hwf3 & Hl3); [cbn in Hla2; congruence|].
  change (vheap (put_hs s h2 ht)) with (HashTable.heap h2). rewrite Hfree, !bind_Ret.
  assert (Hstep : forall b, b <> a -> live (vheap s) b <> None -> b ∉ ht_blocks (hs s) s.(g_sys_fd_hashtable) ->
    live h3 b = live (vheap s) b /\ b ∉ ht_blocks h2 ht).
  { intros b Hba Hb Hno. destruct (Hfr b Hb Hno) as [E1 E2]. split; [|done]. rewrite Hl3, decide_False by done. by rewrite E1. }
  eexists. split; [reflexivity|].
  assert (Hhs : forall t, hs (set_sysfds (set_vheap (put_hs s h2 ht) h3) t) = set_h h2 h3)
    by (intros t; unfold hs, put_hs, set_h; destruct h2 as [x y z]; cbn in *; by rewrite Hgp).
  split; [|split; [|done]].
  - split; [cbn; unfold put_hs; cbn; by rewrite Hfn|]. intros b Hba Hb Hno. rewrite Hhs. cbn -[ht_blocks].
    change (ht_blocks (set_h h2 h3) ?t) with (ht_blocks h2 t). by apply Hstep.
  - split.
    + rewrite Hhs. apply (ht_frame f h2); [done|done|]. intros b Hb. rewrite Hl3, decide_False; [done|]. by intros ->.
    + rewrite Hhs. cbn -[ht_blocks]. intros k b [Hne Hb]%lookup_delete_Some.
      destruct (ft_file _ _ _ Ho k b Hb) as (e & H1 & H2 & H3 & H4 & H5 & H6).
      assert (Hba : b <> a) by (intros ->; apply Hne; by apply (file_key f s m _ _ a)).
      exists e. split; [by rewrite lookup_delete_ne|]. do 3 (split; [done|]).
      change (ht_blocks (set_h h2 h3) ?t) with (ht_blocks h2 t). destruct (Hstep b) as [E1 E2]; [done|congruence|done|]. by rewrite E1.
    + cbn. intros b [Hne Hb]%lookup_delete_is_Some. destruct (ft_all _ _ _ Ho b Hb) as (k & Hk'). exists k.
      rewrite lookup_delete_ne; [done|]. intros <-. congruence.
Qed.
End fdt.

(** ** Reference counts *)
Section refs.
Implicit Types (m : gmap Z Z) (t : gmap Z FileDescriptor).

Definition opens t (v : Z) (ka : Z * Z) : Prop := fd_vnode <$> t !! ka.2 = Some v.
#[export] Instance opens_dec t v ka : Decision (opens t v ka) := decide (_ = _).
(** How many open files there are on [v]. *)
Definition refs m t (v : Z) : Z := Z.of_nat (size (filter (opens t v) m)).

Lemma refs_ext m t t' v : (forall k a, m !! k = Some a -> t' !! a = t !! a) -> refs m t' v = refs m t v.
Proof.
  intros Ht. unfold refs. do 2 f_equal. apply map_filter_ext. intros k a Ha. unfold opens. cbn. by rewrite (Ht k a).
Qed.
Lemma refs_insert m t k a d v : m !! k = None -> (forall k' b, m !! k' = Some b -> b <> a) ->
  refs (<[k := a]> m) (<[a := d]> t) v = refs m t v + (if d.(fd_vnode) =? v then 1 else 0).
Proof.
  intros Hk Ha. rewrite <- (refs_ext m t (<[a := d]> t) v).
  2: { intros k' b Hb. rewrite lookup_insert_ne; [done|]. intros ->. by apply (Ha k' b). }
  unfold refs. destruct (Z.eqb_spec d.(fd_vnode) v) as [E|E].
  - rewrite map_filter_insert_True by (unfold opens; cbn; rewrite lookup_insert_eq; cbn; by rewrite E).
    rewrite map_size_insert_None; [lia|]. apply map_lookup_filter_None. by left.
  - rewrite map_filter_insert_False by (unfold opens; cbn; rewrite lookup_insert_eq; cbn; congruence).
    rewrite delete_id by done. lia.
Qed.
Lemma refs_delete m t k a d v : m !! k = Some a -> t !! a = Some d -> (forall k' , m !! k' = Some a -> k' = k) ->
  refs (delete k m) (delete a t) v = refs m t v - (if d.(fd_vnode) =? v then 1 else 0).
Proof.
  intros Hk Ht Hu. rewrite (refs_ext (delete k m) t).
  2: { intros k' b [Hne Hb]%lookup_delete_Some. rewrite lookup_delete_ne; [done|]. intros <-. by destruct Hne; rewrite (Hu k' Hb). }
  rewrite <- (insert_delete_id m k a) at 2 by done. rewrite <- (insert_delete_id t a d) at 2 by done.
  rewrite refs_insert.
  - rewrite (refs_ext (delete k m) t (delete a t)); [lia|].
    intros k' b [Hne Hb]%lookup_delete_Some. rewrite lookup_delete_ne; [done|]. intros <-. by destruct Hne; rewrite (Hu k' Hb).
  - by rewrite lookup_delete_eq.
  - intros k' b [Hne Hb]%lookup_delete_Some ->. by destruct Hne; rewrite (Hu k' Hb).
Qed.
Lemma refs_nonneg m t v : 0 <= refs m t v.
Proof. unfold refs. lia. Qed.
End refs.

(** ** Opening and closing *)
Section files.
Context {H D : Type} `{!Allocator H} `{!AllocatorLaws H} `{DT : DriverTables} `{!Drivers (vstate H D)}.
Implicit Types (s : vstate H D) (m : gmap Z Z) (p : Process).
Notation key := vfs_fdt_combo_to_hashkey.

(** The table, a process' descriptors and the nodes agree: an open file of
    the process has a used number, its node is cached, and the count of every
    node is the number of open files on it. *)
Record vfs_ok (f : HashingFunction) s p m : Prop := {
  vo_table : fdt_ok f s m;
  vo_fds : fds_wf s.(vpm) p;
  vo_pid : is_i32 p.(pid);
  vo_block : p.(fds) ∉ ht_blocks (hs s) s.(g_sys_fd_hashtable);
  vo_apart : forall k a, m !! k = Some a -> a <> p.(fds);
  vo_used : forall fd a, is_fd fd -> m !! key fd p.(pid) = Some a -> p.(fd_table) !! Z.to_nat fd = Some true;
  vo_node : forall k a d, m !! k = Some a -> s.(sysfds) !! a = Some d -> is_Some (s.(vnodes) !! d.(fd_vnode));
  vo_refs : forall v x, s.(vnodes) !! v = Some x -> x.(ref_count) = refs m s.(sysfds) v }.

Lemma null_not_live (h : H) : alloc_wf h -> live h 0 = None.
Proof. intros Hwf. destruct (live h 0) as [n|] eqn:E; [|done]. destruct (live_law h 0 n Hwf E). lia. Qed.

(** The table and files are where [proc_new_fd] left them. *)
Lemma fdt_after_new_fd f s p m (m' : pmem H) q r : vfs_ok f s p m -> proc_new_fd p s.(vpm) = Ret (m', q, r) -> fds_wf m' q ->
  fdt_ok f (set_vpm s m') m /\ set_vpm s m' = set_vheap s (pm_heap m') /\
  q.(fds) ∉ ht_blocks (hs s) s.(g_sys_fd_hashtable) /\ forall k a, m !! k = Some a -> a <> q.(fds).
Proof.
  intros Ho Hn Hq. pose proof (vo_table _ _ _ _ Ho) as Ht. destruct (new_fd_frame _ _ _ _ _ (vo_fds _ _ _ _ Ho) Hn) as (Hm & _ & Hfr).
  pose proof (fw_alloc _ _ (vo_fds _ _ _ _ Ho)) as Hwf. pose proof (fw_alloc _ _ Hq) as Hwf'.
  assert (Es : set_vpm s m' = set_vheap s (pm_heap m')) by (unfold set_vheap; by rewrite <- Hm).
  assert (Hb : forall b, b ∈ ht_blocks (hs s) s.(g_sys_fd_hashtable) \/ (exists k, m !! k = Some b) ->
    live (pm_heap m') b = live (vheap s) b /\ (b <> 0 -> b <> q.(fds))).
  { intros b Hb. destruct (decide (b = 0)) as [->|Hb0].
    { split; [|done]. unfold vheap. by rewrite !null_not_live. }
    assert (Hlive : live (vheap s) b <> None /\ b <> p.(fds)).
    { destruct Hb as [Hb|[k Hk]].
      - split; [by destruct (table_blocks _ _ _ _ Ht Hb)|]. intros ->. by apply (vo_block _ _ _ _ Ho).
      - split; [|by apply (vo_apart _ _ _ _ Ho k)]. destruct (ft_file _ _ _ Ht k b Hk) as (d & _ & _ & _ & _ & ? & _). congruence. }
    destruct Hlive as [Hlive Hbp]. destruct (Hfr b Hlive Hbp). done. }
  split; [rewrite Es; apply fdt_heap; [done|done|]; intros b Hin; by destruct (Hb b Hin)|]. split; [done|].
  assert (Hq0 : q.(fds) <> 0) by (apply (live_not_null _ _ Hwf'); rewrite (fw_block _ _ Hq); done).
  split.
  - intros Hin. destruct (Hb _ (or_introl Hin)) as [_ Hne]. by apply Hne.
  - intros k a Ha ->. destruct (Hb q.(fds)) as [_ Hne]; [right; by exists k|]. by apply Hne.
Qed.

Lemma fds_step s s' a p : fdt_step s s' a -> alloc_wf (vheap s') -> p.(fds) <> a -> fds_wf s.(vpm) p ->
  p.(fds) ∉ ht_blocks (hs s) s.(g_sys_fd_hashtable) ->
  fds_wf s'.(vpm) p /\ p.(fds) ∉ ht_blocks (hs s') s'.(g_sys_fd_hashtable).
Proof.
  intros [_ Hfr] Hwf Hne Hp Hno. destruct (Hfr p.(fds)) as [Hl Hno']; [done|unfold vheap; rewrite (fw_block _ _ Hp); done|done|].
  split; [|done]. split; [done| |apply Hp]. unfold vheap in Hl. rewrite Hl. apply Hp.
Qed.
Lemma step_vnodes s s' a : fdt_step s s' a -> s'.(vnodes) = s.(vnodes).
Proof. by intros [-> _]. Qed.
Lemma step_files s s' a : fdt_step s s' a -> s'.(filesystems) = s.(filesystems).
Proof. by intros [-> _]. Qed.

(** The first free number is not open. *)
Lemma fresh_key f s p m i : vfs_ok f s p m -> first_free p.(fd_table) p.(fd_last_free_idx) i -> is_fd i -> m !! key i p.(pid) = None.
Proof.
  intros Ho (Hi & _ & Hfree) Hfd. destruct (m !! key i (pid p)) as [a|] eqn:E; [|done].
  pose proof (vo_used _ _ _ _ Ho i a Hfd E) as Hu. pose proof (lookup_lt_Some _ _ _ Hu). rewrite Hfree in Hu by lia. done.
Qed.

(** A process whose used descriptors are still used, on the same files. *)
Lemma ok_again f s s1 p q m : vfs_ok f s p m -> fdt_ok f s1 m -> fds_wf s1.(vpm) q ->
  q.(fds) ∉ ht_blocks (hs s1) s1.(g_sys_fd_hashtable) -> (forall k a, m !! k = Some a -> a <> q.(fds)) -> q.(pid) = p.(pid) ->
  (forall k fd a, m !! k = Some a -> k = key fd p.(pid) -> is_fd fd -> p.(fd_table) !! Z.to_nat fd = Some true -> q.(fd_table) !! Z.to_nat fd = Some true) ->
  s1.(sysfds) = s.(sysfds) -> s1.(vnodes) = s.(vnodes) -> vfs_ok f s1 q m.
Proof.
  intros Ho Ht Hf Hb Ha Hpid Hu Hs Hv. split; try done; try rewrite Hs; try rewrite Hv; try apply Ho.
  - rewrite Hpid. apply Ho.
  - rewrite Hpid. intros fd a Hfd Hk. apply (Hu _ fd a Hk); [done|done|]. by apply (vo_used _ _ _ _ Ho fd a).
Qed.

(** [proc_new_fd] keeps what is used, and a new number was not open. *)
Lemma new_fd_cases f s p m : vfs_ok f s p m ->
  exists i (m' : pmem H) q r, first_free p.(fd_table) p.(fd_last_free_idx) i /\ proc_new_fd p s.(vpm) = Ret (m', q, r) /\
    fds_wf m' q /\ q.(pid) = p.(pid) /\ vfs_ok f (set_vpm s m') q m /\ is_fd i /\
    ((r = i /\ q.(fd_table) !! Z.to_nat i = Some true) \/ r = - ENOMEM).
Proof.
  intros Ho. destruct (new_fd_spec _ _ (vo_fds _ _ _ _ Ho)) as (i & m' & q & r & Hff & Hn & Hq & Hr).
  exists i, m', q, r. split; [done|]. split; [done|]. split; [done|].
  destruct (fdt_after_new_fd _ _ _ _ _ _ _ Ho Hn Hq) as (Ht & Es & Hb & Ha).
  assert (Hfd : is_fd i).
  { destruct Hff as (Hi & _). pose proof (fds_small _ _ (vo_fds _ _ _ _ Ho)) as Hs. pose proof (fw_cursor _ _ (vo_fds _ _ _ _ Ho)).
    unfold fd_count, is_fd in *. lia. }
  assert (Hkeep : q.(pid) = p.(pid) /\ (forall k x, p.(fd_table) !! k = Some x -> k <> Z.to_nat i -> q.(fd_table) !! k = Some x) /\
     ((r = i /\ q.(fd_table) !! Z.to_nat i = Some true) \/ r = - ENOMEM)).
  { destruct Hff as (Hi & _). unfold fd_count, is_fd in *.
    destruct Hr as [(-> & Hlt & _ & ->)|[(-> & -> & Eq)|(-> & _ & ->)]]; cbn [pid set_fds fd_table].
    - split; [done|]. split; [intros k x Hk Hne; by rewrite list_lookup_insert_ne|]. left. split; [done|]. apply list_lookup_insert_eq. lia.
    - rewrite Eq. cbn [pid set_fds fd_table]. split; [done|]. split; [intros k x Hk Hne; by apply lookup_app_l_Some|]. left. split; [done|].
      rewrite lookup_app_r by lia. by replace (_ - _)%nat with O by lia.
    - split; [done|]. split; [done|]. by right. }
  destruct Hkeep as (Hpid & Hkeep & Hres). split; [done|]. split; [|done].
  apply (ok_again f s _ p); try done. intros k fd a Hk -> Hf Hu. apply Hkeep; [done|]. intros E.
  assert (fd = i) as -> by (unfold is_fd in *; lia). rewrite (fresh_key f s p m i) in Hk by done. done.
Qed.

(** Releasing a number that is not open. *)
Lemma ok_free_fd f s p m i : vfs_ok f s p m -> is_fd i -> m !! key i p.(pid) = None -> vfs_ok f s (proc_free_fd i p) m.
Proof.
  intros Ho Hi Hn. destruct (free_fd_spec _ _ i (vo_fds _ _ _ _ Ho) Hi) as (Hwf & _ & Hl).
  assert (Hs : fds (proc_free_fd i p) = fds p /\ pid (proc_free_fd i p) = pid p) by (unfold proc_free_fd; by destruct (_ >=? _)).
  destruct Hs as [Hb Hp]. apply (ok_again f s s p); try done; rewrite ?Hb; try apply Ho.
  intros k fd a Hk -> Hf Hu. rewrite Hl. destruct (Nat.eqb_spec (Z.to_nat fd) (Z.to_nat i)) as [E|]; [|done].
  assert (fd = i) as -> by (unfold is_fd in *; lia). congruence.
Qed.

(** A step of the table that leaves the files alone. *)
Lemma ok_step f s s' p m : vfs_ok f s p m -> fdt_step s s' 0 -> fdt_ok f s' m -> s'.(sysfds) = s.(sysfds) -> vfs_ok f s' p m.
Proof.
  intros Ho Hst Ht Hs. pose proof (vo_fds _ _ _ _ Ho) as Hf.
  assert (H0 : p.(fds) <> 0) by (apply (live_not_null _ _ (fw_alloc _ _ Hf)); rewrite (fw_block _ _ Hf); done).
  destruct (fds_step _ _ _ p Hst (rep_wf _ _ _ _ (ft_rep _ _ _ Ht)) H0 Hf (vo_block _ _ _ _ Ho)) as [Hf' Hb'].
  apply (ok_again f s s' p); try done; try apply Ho. by rewrite (step_vnodes _ _ _ Hst).
Qed.

(** The driver's [open] leaves the kernel's state alone. *)
Definition opens_only (o v flags : Z) : Prop := forall s, exists st, op_open o v flags s = Ret (s, st).

(** Every other descriptor of every process has the open file it had. *)
Definition others_same s m s' m' (fd n : Z) : Prop := forall fd' n', is_fd fd' -> is_i32 n' ->
  (fd', n') <> (fd, n) -> file_of s' m' fd' n' = file_of s m fd' n'.

Lemma others_insert f s m s' m' fd n a d : fdt_ok f s m -> is_fd fd -> is_i32 n -> m' = <[key fd n := a]> m ->
  s'.(sysfds) = <[a := d]> s.(sysfds) -> (forall k b, m !! k = Some b -> b <> a) -> others_same s m s' m' fd n.
Proof.
  intros Ho Hfd Hn -> Hs Ha fd' n' Hfd' Hn' Hne. unfold file_of. rewrite lookup_insert_ne.
  2: { intros E. apply Hne. destruct (key_inj fd n fd' n') as [-> ->]; done. }
  destruct (m !! key fd' n') as [b|] eqn:Eb; [|done]. cbn. rewrite Hs, lookup_insert_ne; [done|]. intros <-. by apply (Ha _ _ Eb).
Qed.
Lemma others_delete f s m s' m' fd n a : fdt_ok f s m -> is_fd fd -> is_i32 n -> m !! key fd n = Some a -> m' = delete (key fd n) m ->
  s'.(sysfds) = delete a s.(sysfds) -> others_same s m s' m' fd n.
Proof.
  intros Ho Hfd Hn Ha -> Hs fd' n' Hfd' Hn' Hne. unfold file_of. rewrite lookup_delete_ne.
  2: { intros E. apply Hne. destruct (key_inj fd n fd' n') as [-> ->]; done. }
  destruct (m !! key fd' n') as [b|] eqn:Eb; [|done]. cbn. rewrite Hs, lookup_delete_ne; [done|]. intros <-. apply Hne.
  pose proof (file_key _ _ _ _ _ _ Ho Ha Eb) as E. destruct (key_inj fd n fd' n') as [-> ->]; done.
Qed.

(** The state with the file on [v] opened and counted agrees again. *)
Lemma ok_opened f s s2 q m i v x a flags : vfs_ok f s q m -> is_fd i -> m !! key i q.(pid) = None ->
  q.(fd_table) !! Z.to_nat i = Some true -> s.(vnodes) !! v = Some x -> fdt_step s s2 0 -> a <> 0 -> live (vheap s) a = None ->
  fdt_ok f s2 (<[key i q.(pid) := a]> m) -> s2.(sysfds) = <[a := mkFD i q.(pid) 0 0 0]> s.(sysfds) ->
  let s3 := put_vnode (set_sysfds s2 (<[a := mkFD i q.(pid) flags 0 v]> s2.(sysfds))) v (set_ref x (x.(ref_count) + 1)) in
  vfs_ok f s3 q (<[key i q.(pid) := a]> m).
Proof.
  intros Ho Hi Hnew Hu Hx Hst Ha0 Hfresh Ht2 Hs2 s3. pose proof (vo_fds _ _ _ _ Ho) as Hf.
  assert (H0 : q.(fds) <> 0) by (apply (live_not_null _ _ (fw_alloc _ _ Hf)); rewrite (fw_block _ _ Hf); done).
  destruct (fds_step _ _ _ q Hst (rep_wf _ _ _ _ (ft_rep _ _ _ Ht2)) H0 Hf (vo_block _ _ _ _ Ho)) as [Hf2 Hb2].
  assert (Hold : forall k b, m !! k = Some b -> b <> a).
  { intros k b Hb ->. destruct (ft_file _ _ _ (vo_table _ _ _ _ Ho) k a Hb) as (d & _ & _ & _ & _ & Hl & _). congruence. }
  split; try done.
  - destruct Ht2 as [R F A]. split; [exact R| |intros b Hb; cbn in Hb; apply lookup_insert_is_Some in Hb as [<-|[_ Hb]]; [exists (key i (pid q)); by rewrite lookup_insert_eq|by apply A]].
    intros k b Hb. destruct (F k b Hb) as (d & H1 & H2 & H3 & H4 & H5 & H6). cbn.
    destruct (decide (b = a)) as [->|Hne].
    + rewrite Hs2, lookup_insert_eq in H1. injection H1 as <-. exists (mkFD i (pid q) flags 0 v). by rewrite lookup_insert_eq.
    + exists d. by rewrite lookup_insert_ne.
  - apply Ho.
  - intros k b [[<- <-]|[_ Hb]]%lookup_insert_Some; [|by apply (vo_apart _ _ _ _ Ho k)]. intros ->. unfold vheap in Hfresh. rewrite (fw_block _ _ Hf) in Hfresh. done.
  - intros fd b Hfd [[E _]|[_ Hb]]%lookup_insert_Some; [|by apply (vo_used _ _ _ _ Ho fd b)].
    destruct (key_inj i (pid q) fd (pid q)) as [-> _]; try done; apply Ho.
  - cbn. rewrite (step_vnodes _ _ _ Hst). intros k b d Hk Hd. apply lookup_insert_is_Some'.
    apply lookup_insert_Some in Hk as [[_ <-]|[Hne Hb]].
    + left. rewrite lookup_insert_eq in Hd. by injection Hd as <-.
    + right. pose proof (Hold k b Hb). rewrite Hs2, lookup_insert_ne, lookup_insert_ne in Hd by done. by apply (vo_node _ _ _ _ Ho k b).
  - cbn. rewrite (step_vnodes _ _ _ Hst), Hs2, insert_insert_eq. intros w y Hw. rewrite refs_insert by done. cbn [fd_vnode].
    apply lookup_insert_Some in Hw as [[<- <-]|[Hne Hw]].
    + rewrite Z.eqb_refl. cbn [ref_count set_ref]. by rewrite (vo_refs _ _ _ _ Ho v x Hx).
    + rewrite (proj2 (Z.eqb_neq v w) Hne), Z.add_0_r. by apply (vo_refs _ _ _ _ Ho w y).
Qed.

(** Opening a cached node, on every branch. *)
Definition opened f s p m v x flags s' q r : Prop :=
  q.(pid) = p.(pid) /\
  ((first_free p.(fd_table) p.(fd_last_free_idx) r /\ q.(fd_table) !! Z.to_nat r = Some true /\ exists m', vfs_ok f s' q m' /\
      file_of s' m' r p.(pid) = Some (mkFD r p.(pid) flags 0 v) /\ others_same s m s' m' r p.(pid) /\
      s'.(vnodes) = <[v := set_ref x (x.(ref_count) + 1)]> s.(vnodes)) \/
   (r < 0 /\ vfs_ok f s' q m /\ s'.(vnodes) = s.(vnodes) /\ s'.(sysfds) = s.(sysfds))).

Lemma open_node_spec f s p m v x flags : vfs_ok f s p m -> s.(vnodes) !! v = Some x -> x.(ref_count) + 1 < 2 ^ 32 ->
  opens_only x.(vn_ops) v flags ->
  (exists s' q r, open_node v flags p s = Ret (s', q, r) /\ opened f s p m v x flags s' q r) \/ open_node v flags p s = Panic.
Proof.
  intros Ho Hx Href Hop. unfold open_node.
  destruct (new_fd_cases f s p m Ho) as (i & m1 & q & r & Hff & -> & Hq & Hpid & Ho1 & Hi & Hr). rewrite bind_Ret. cbn beta iota zeta.
  set (s1 := set_vpm s m1) in *. assert (Hi0 : 0 <= i) by apply Hi.
  destruct Hr as [[-> Hu]| ->].
  2: { left. rewrite (proj2 (Z.ltb_lt _ 0)) by done. eexists _, _, _. split; [reflexivity|]. split; [done|]. right. split; [done|]. done. }
  rewrite (proj2 (Z.ltb_ge _ 0)) by lia. pose proof (fresh_key f s p m i Ho Hff Hi) as Hnew. rewrite <- Hpid in Hnew.
  pose proof (vo_pid _ _ _ _ Ho1) as Hqp.
  destruct (new_sysfd_spec f s1 m i (pid q) (vo_table _ _ _ _ Ho1) Hi Hqp Hnew) as (s2 & a & -> & Hst & Hc). rewrite bind_Ret. cbn beta iota.
  assert (Hx1 : s1.(vnodes) !! v = Some x) by exact Hx.
  destruct Hc as [(-> & Ht2 & Hs2)|(Ha & Hfresh & Ht2 & Hs2 & Hla)].
  { left. rewrite Z.eqb_refl. eexists _, _, _. split; [reflexivity|]. split; [unfold proc_free_fd; by destruct (_ >=? _)|]. right. split; [done|].
    split; [|split; [by rewrite (step_vnodes _ _ _ Hst)|done]]. apply ok_free_fd; [by apply (ok_step f s1)|done|done]. }
  rewrite (proj2 (Z.eqb_neq a 0)) by done. rewrite (step_vnodes _ _ _ Hst), Hx1. cbn [deref]. rewrite bind_Ret.
  destruct (Hop s2) as (st & ->). rewrite bind_Ret. cbn beta iota.
  assert (Hno : s.(sysfds) !! a = None).
  { destruct (s.(sysfds) !! a) as [d|] eqn:E; [|done]. destruct (ft_all _ _ _ (vo_table _ _ _ _ Ho1) a) as (k & Hk); [by exists d|].
    destruct (ft_file _ _ _ (vo_table _ _ _ _ Ho1) k a Hk) as (_ & _ & _ & _ & _ & Hl & _). congruence. }
  destruct (st <? 0) eqn:Est; reflect_bools.
  - destruct (free_sysfd_spec f s2 _ i (pid q) a Ht2 Hi Hqp (lookup_insert_eq _ _ _)) as [(s3 & -> & Hst3 & Ht3 & Hs3)| ->]; [left|by right].
    rewrite bind_Ret. eexists _, _, _. split; [reflexivity|]. split; [unfold proc_free_fd; by destruct (_ >=? _)|]. right. split; [done|].
    rewrite delete_insert_id in Ht3 by done. 
    assert (Hs30 : s3.(sysfds) = s.(sysfds)) by (rewrite Hs3, Hs2; by apply delete_insert_id).
    assert (Hv3 : s3.(vnodes) = s.(vnodes)) by (rewrite (step_vnodes _ _ _ Hst3), (step_vnodes _ _ _ Hst); done).
    split; [|done]. apply ok_free_fd; [|done|done].
    pose proof (vo_fds _ _ _ _ Ho1) as Hf. assert (H0 : q.(fds) <> 0) by (apply (live_not_null _ _ (fw_alloc _ _ Hf)); rewrite (fw_block _ _ Hf); done).
    destruct (fds_step _ _ _ q Hst (rep_wf _ _ _ _ (ft_rep _ _ _ Ht2)) H0 Hf (vo_block _ _ _ _ Ho1)) as [Hf2 Hb2].
    assert (Hqa : q.(fds) <> a) by (intros E; rewrite <- E in Hfresh; unfold vheap in Hfresh; rewrite (fw_block _ _ Hf) in Hfresh; done).
    destruct (fds_step _ _ _ q Hst3 (rep_wf _ _ _ _ (ft_rep _ _ _ Ht3)) Hqa Hf2 Hb2) as [Hf3 Hb3].
    apply (ok_again f s1 s3 q); try done; apply Ho1.
  - left. rewrite Hs2, lookup_insert_eq. cbn [deref fd_fd fd_pid fd_off]. rewrite bind_Ret. unfold vnode_increase_refcount.
    cbn [vnodes set_sysfds]. rewrite (step_vnodes _ _ _ Hst), Hx1. cbn [deref]. rewrite !bind_Ret.
    pose proof (vo_refs _ _ _ _ Ho v x Hx) as Hrc. pose proof (refs_nonneg m s.(sysfds) v).
    rewrite u32_small by (unfold is_u32; lia). rewrite <- Hs2. eexists _, _, _. split; [reflexivity|]. split; [done|]. left. split; [done|]. split; [done|].
    eexists. split; [by apply (ok_opened f s1 s2 q m i v x a flags)|]. rewrite <- Hpid. split; [|split].
    + unfold file_of. rewrite lookup_insert_eq. cbn. by rewrite lookup_insert_eq.
    + apply (others_insert f s m _ _ i (pid q) a (mkFD i (pid q) flags 0 v)); try done; [apply Ho| |].
      * cbn. rewrite Hs2. by rewrite insert_insert_eq.
      * intros k b Hb ->. destruct (ft_file _ _ _ (vo_table _ _ _ _ Ho1) k a Hb) as (d & _ & _ & _ & _ & Hl & _). congruence.
    + cbn. by rewrite (step_vnodes _ _ _ Hst).
Qed.

(** The state with a file closed and its node counted down agrees again. *)
Lemma ok_closed f s s2 p m fd a d x : vfs_ok f s p m -> is_fd fd -> m !! key fd p.(pid) = Some a ->
  s.(sysfds) !! a = Some d -> s.(vnodes) !! d.(fd_vnode) = Some x ->
  let s1 := put_vnode s d.(fd_vnode) (set_ref x (x.(ref_count) - 1)) in
  fdt_step s1 s2 a -> fdt_ok f s2 (delete (key fd p.(pid)) m) -> s2.(sysfds) = delete a s.(sysfds) ->
  vfs_ok f s2 (proc_free_fd fd p) (delete (key fd p.(pid)) m).
Proof.
  intros Ho Hfd Ha Hd Hx s1 Hst Ht2 Hs2. apply ok_free_fd; [|done|by rewrite lookup_delete_eq].
  assert (Hne : p.(fds) <> a) by (intros E; by apply (vo_apart _ _ _ _ Ho _ a Ha)).
  destruct (fds_step s1 s2 a p Hst (rep_wf _ _ _ _ (ft_rep _ _ _ Ht2)) Hne (vo_fds _ _ _ _ Ho) (vo_block _ _ _ _ Ho)) as [Hf2 Hb2].
  pose proof (step_vnodes _ _ _ Hst) as Hv. cbn in Hv.
  assert (Hu : forall k', m !! k' = Some a -> k' = key fd p.(pid)) by (intros k' Hk'; by apply (file_key f s m _ _ a (vo_table _ _ _ _ Ho))).
  split; try done; [apply Ho|..].
  - intros k b [_ Hb]%lookup_delete_Some. by apply (vo_apart _ _ _ _ Ho k).
  - intros fd' b Hfd' [_ Hb]%lookup_delete_Some. by apply (vo_used _ _ _ _ Ho fd' b).
  - rewrite Hv, Hs2. intros k b e [_ Hb]%lookup_delete_Some [_ He]%lookup_delete_Some. apply lookup_insert_is_Some'. right.
    by apply (vo_node _ _ _ _ Ho k b).
  - rewrite Hv, Hs2. intros w y Hw. rewrite (refs_delete m s.(sysfds) _ a d) by done.
    apply lookup_insert_Some in Hw as [[<- <-]|[Hn Hw]].
    + rewrite Z.eqb_refl. cbn [ref_count set_ref]. by rewrite (vo_refs _ _ _ _ Ho _ x Hx).
    + rewrite (proj2 (Z.eqb_neq _ _) Hn), Z.sub_0_r. by apply (vo_refs _ _ _ _ Ho w y).
Qed.

(** The last descriptor of a node that was removed meanwhile. *)
Definition last_of_removed (x : VirtualNode) : bool := (x.(ref_count) =? 1) && has x.(vn_flags) VNODE_PENDING_RM.

Lemma open_file f s p m fd a : vfs_ok f s p m -> is_fd fd -> m !! key fd p.(pid) = Some a ->
  exists d x, s.(sysfds) !! a = Some d /\ d.(fd_fd) = fd /\ d.(fd_pid) = p.(pid) /\ s.(vnodes) !! d.(fd_vnode) = Some x /\ 0 < x.(ref_count).
Proof.
  intros Ho Hfd Ha. destruct (delete_file _ _ _ _ _ _ (vo_table _ _ _ _ Ho) Hfd (vo_pid _ _ _ _ Ho) Ha) as (d & Hd & E1 & E2).
  destruct (vo_node _ _ _ _ Ho _ a d Ha Hd) as (x & Hx). exists d, x. do 4 (split; [done|]).
  pose proof (refs_delete m s.(sysfds) _ a d d.(fd_vnode) Ha Hd) as Hr. rewrite Z.eqb_refl in Hr.
  rewrite (vo_refs _ _ _ _ Ho _ x Hx). pose proof (refs_nonneg (delete (key fd (pid p)) m) (delete a s.(sysfds)) d.(fd_vnode)).
  rewrite Hr in *; [lia|]. intros k' Hk'. by apply (file_key f s m _ _ a (vo_table _ _ _ _ Ho)).
Qed.

Definition closed f s p m fd s' q : Prop :=
  q = proc_free_fd fd p /\ exists m' d x, vfs_ok f s' q m' /\ m' !! key fd p.(pid) = None /\ others_same s m s' m' fd p.(pid) /\
    file_of s m fd p.(pid) = Some d /\ s.(vnodes) !! d.(fd_vnode) = Some x /\
    s'.(vnodes) = <[d.(fd_vnode) := set_ref x (x.(ref_count) - 1)]> s.(vnodes).

Lemma close_spec f s p m fd a d x : vfs_ok f s p m -> is_fd fd -> m !! key fd p.(pid) = Some a ->
  s.(sysfds) !! a = Some d -> s.(vnodes) !! d.(fd_vnode) = Some x ->
  let s1 := put_vnode s d.(fd_vnode) (set_ref x (x.(ref_count) - 1)) in
  if last_of_removed x then
    vfs_close fd p s =
      (g ← deref (s.(filesystems) !! x.(owner));
       r ← drv_rmnode g.(driver) d.(fd_vnode) s1;
       s' ← vfs_fdt_free_sysfd a r.1; Ret (s', proc_free_fd fd p, 0))
  else (exists s' q, vfs_close fd p s = Ret (s', q, 0) /\ closed f s p m fd s' q) \/ vfs_close fd p s = Panic.
Proof.
  intros Ho Hfd Ha Hd Hx s1. pose proof (vo_table _ _ _ _ Ho) as Ht.
  destruct (open_file _ _ _ _ _ _ Ho Hfd Ha) as (d' & x' & Hd' & _ & _ & Hx' & Hpos). assert (d' = d) as -> by congruence. assert (x' = x) as -> by congruence.
  unfold vfs_close. rewrite (proj2 (Z.ltb_ge fd 0)) by apply Hfd. rewrite (get_spec f s m) by done. rewrite bind_Ret, Ha. change (default 0 (Some a)) with a.
  rewrite (proj2 (Z.eqb_neq a 0)) by by apply (file_block f s m _ a Ht Ha).
  rewrite Hd. cbn [deref]. rewrite bind_Ret. unfold vnode_decrease_refcount. rewrite Hx. cbn [deref]. rewrite bind_Ret.
  rewrite (proj2 (Z.ltb_lt 0 _)) by done. cbn [assert_]. rewrite bind_Ret. cbn [ref_count set_ref vn_flags owner]. cbv zeta.
  fold s1. fold (has x.(vn_flags) VNODE_PENDING_RM).
  assert (Hlast : (x.(ref_count) - 1 =? 0) && has x.(vn_flags) VNODE_PENDING_RM = last_of_removed x).
  { unfold last_of_removed. f_equal. destruct (Z.eqb_spec (ref_count x - 1) 0), (Z.eqb_spec (ref_count x) 1); lia || done. }
  rewrite Hlast. destruct (last_of_removed x).
  - change (filesystems s1) with (filesystems s). destruct (s.(filesystems) !! owner x) as [g|]; [|done]. cbn [deref]. rewrite !bind_Ret.
    destruct (drv_rmnode _ _ _) as [r| |]; [|done..]. done.
  - rewrite bind_Ret. assert (Ht1 : fdt_ok f s1 m) by (destruct Ht as [R F A]; split; [exact R|exact F|exact A]).
    destruct (free_sysfd_spec f s1 m fd p.(pid) a Ht1 Hfd (vo_pid _ _ _ _ Ho) Ha) as [(s2 & -> & Hst & Ht2 & Hs2)| ->]; [left|by right].
    rewrite bind_Ret. eexists _, _. split; [reflexivity|]. split; [done|]. eexists _, d, x.
    split; [by apply (ok_closed f s s2 p m fd a d x)|]. split; [by rewrite lookup_delete_eq|].
    split; [by apply (others_delete f s m s2 _ fd p.(pid) a); [done|done|apply Ho|..]|].
    split; [unfold file_of; rewrite Ha; exact Hd|]. split; [done|]. by rewrite (step_vnodes _ _ _ Hst).
Qed.
End files.

(** ** Which file system a path is on *)
Section mounts.
Context {H D : Type} `{!Allocator H} `{DT : DriverTables} `{!Drivers (vstate H D)}.
Implicit Types (s : vstate H D).

(** The mounted file systems in mount order, each with its mount point. *)
Definition mounts s (l : list (Z * list Z)) : Prop :=
  entries_of s s.(g_filesystems_ll) l.*1 /\
  forall fs mnt, (fs, mnt) ∈ l -> fs <> 0 /\ text mnt /\ exists g, s.(filesystems) !! fs = Some g /\ s.(strs) !! g.(mntpoint) = Some mnt.

(** [fs] is the last mount of the longest mount point in front of the path. *)
Definition topmost (l : list (Z * list Z)) (path : list Z) (fs : Z) : Prop :=
  exists l1 mnt l2, l = l1 ++ (fs, mnt) :: l2 /\ mnt `prefix_of` path /\
    (forall g t, (g, t) ∈ l1 -> t `prefix_of` path -> (length t <= length mnt)%nat) /\
    (forall g t, (g, t) ∈ l2 -> t `prefix_of` path -> (length t < length mnt)%nat).

Definition top_step s (path : list Z) (fs_hit fs : Z) : outcome (Z * bool) :=
  f ← deref (s.(filesystems) !! fs);
  mnt ← deref (s.(strs) !! f.(mntpoint));
  starts ← str_starts path mnt;
  if negb starts then Ret (fs_hit, false)
  else if fs_hit =? 0 then Ret (fs, false)
  else
    g ← deref (s.(filesystems) !! fs_hit);
    cur ← deref (s.(strs) !! g.(mntpoint));
    Ret (if (length cur <=? length mnt)%nat then fs else fs_hit, false).

Definition none_of (l : list (Z * list Z)) (path : list Z) : Prop := forall g t, (g, t) ∈ l -> ~ t `prefix_of` path.
Definition hit_for (l : list (Z * list Z)) (path : list Z) (hit : Z) : Prop :=
  (hit = 0 /\ none_of l path) \/ (hit <> 0 /\ topmost l path hit).

Lemma top_step_spec s l path done_ fs mnt rest hit : mounts s l -> text path -> l = done_ ++ (fs, mnt) :: rest -> hit_for done_ path hit ->
  exists hit', top_step s path hit fs = Ret (hit', false) /\ hit_for (done_ ++ [(fs, mnt)]) path hit'.
Proof.
  intros [_ Hm] Hp -> Hh. destruct (Hm fs mnt) as (Hfs & Hmt & g & Hg & Hs); [apply elem_of_app; right; left|].
  unfold top_step. rewrite Hg. cbn [deref]. rewrite bind_Ret, Hs. cbn [deref]. rewrite bind_Ret, str_starts_spec, bind_Ret by done.
  case_bool_decide as Hpre; cbn [negb]; cycle 1.
  { exists hit. split; [done|]. destruct Hh as [[-> Hn]|[Hh0 (l1 & t & l2 & -> & Ht & H1 & H2)]]; [left|right]; (split; [done|]).
    - intros g' t' [Hin|[= -> ->]%list_elem_of_singleton]%elem_of_app; [by apply (Hn g')|done].
    - exists l1, t, (l2 ++ [(fs, mnt)]). split; [by rewrite <- app_assoc|]. split; [done|]. split; [done|].
      intros g' t' [Hin|[= -> ->]%list_elem_of_singleton]%elem_of_app; [by apply (H2 g')|done]. }
  assert (Htake : (forall g' t', (g', t') ∈ done_ -> t' `prefix_of` path -> (length t' <= length mnt)%nat) ->
    hit_for (done_ ++ [(fs, mnt)]) path fs).
  { intros Hle. right. split; [done|]. exists done_, mnt, []. do 2 (split; [done|]). split; [done|]. by intros g' t' []%elem_of_nil. }
  destruct Hh as [[-> Hn]|[Hh0 Htop]].
  { rewrite Z.eqb_refl. exists fs. split; [done|]. apply Htake. intros g' t' Hin Ht'. by destruct (Hn g' t' Hin). }
  rewrite (proj2 (Z.eqb_neq hit 0)) by done. destruct Htop as (l1 & t & l2 & -> & Ht & H1 & H2).
  destruct (Hm hit t) as (_ & _ & g2 & Hg2 & Hs2); [apply elem_of_app; left; apply elem_of_app; right; left|].
  rewrite Hg2. cbn [deref]. rewrite bind_Ret, Hs2. cbn [deref]. rewrite bind_Ret.
  eexists. split; [done|]. destruct (length t <=? length mnt)%nat eqn:E; [apply Nat.leb_le in E|apply Nat.leb_gt in E].
  - apply Htake. intros g' t' [Hin|[[= -> ->]|Hin]%elem_of_cons]%elem_of_app Ht'; [|done|].
    + pose proof (H1 g' t' Hin Ht'). lia.
    + pose proof (H2 g' t' Hin Ht'). lia.
  - right. split; [done|]. exists l1, t, (l2 ++ [(fs, mnt)]). split; [by rewrite <- app_assoc|]. split; [done|]. split; [done|].
    intros g' t' [Hin|[= -> ->]%list_elem_of_singleton]%elem_of_app Ht'; [by apply (H2 g')|lia].
Qed.

Lemma topmost_spec s l path : mounts s l -> text path ->
  (none_of l path /\ vfs_topmost_fs_for_path path s = Panic) \/
  (exists fs, vfs_topmost_fs_for_path path s = Ret fs /\ topmost l path fs /\ fs <> 0).
Proof.
  intros Hm Hp. unfold vfs_topmost_fs_for_path. rewrite (for_each_spec s _ l.*1) by apply Hm. fold (top_step s path).
  assert (Hgo : forall rest done_ hit, l = done_ ++ rest -> hit_for done_ path hit ->
    exists hit', iter (top_step s path) rest.*1 hit = Ret hit' /\ hit_for l path hit').
  { induction rest as [|[fs mnt] rest IH]; intros done_ hit E Hh; cbn [fmap list_fmap fst iter].
    - rewrite app_nil_r in E. subst. by exists hit.
    - assert (Hfs : fs <> 0) by (apply (proj2 Hm fs mnt); rewrite E; apply elem_of_app; right; left).
      rewrite (proj2 (Z.eqb_neq fs 0) Hfs). destruct (top_step_spec s l path done_ fs mnt rest hit Hm Hp E Hh) as (hit' & -> & Hh').
      rewrite bind_Ret. cbn [fst snd]. apply (IH (done_ ++ [(fs, mnt)])); [by rewrite <- app_assoc|done]. }
  destruct (Hgo l [] 0 eq_refl) as (hit & -> & Hh).
  { left. split; [done|]. by intros g t []%elem_of_nil. }
  rewrite bind_Ret. destruct Hh as [[-> Hn]|[Hh Ht]]; [by left|right].
  rewrite (proj2 (Z.eqb_neq hit 0)) by done. cbn [negb assert_]. rewrite bind_Ret. by exists hit.
Qed.
End mounts.

(** ** Opening by path, reading, writing and seeking *)
Section calls.
Context {H D : Type} `{!Allocator H} `{!AllocatorLaws H} `{DT : DriverTables} `{!Drivers (vstate H D)}.
Implicit Types (s : vstate H D) (m : gmap Z Z) (p : Process).
Notation key := vfs_fdt_combo_to_hashkey.

(** The bytes of a user path as the kernel copies it. *)
Lemma safe_path_spec s a t : ustr s.(umem) a t -> Z.of_nat (length t) < PATH_MAX -> safe_path a s = (0, t) /\ text t.
Proof.
  intros Hu Hl. destruct (copy_str_spec _ a t PATH_MAX Hu) as (bytes & Hc & Hn & _); [done|]. unfold safe_path. rewrite Hc, Hn.
  unfold PATH_MAX in *. rewrite take_ge by lia. split; [done|]. destruct Hu as (_ & Hf & _). split; [done|lia].
Qed.

(** What opening the path gives when its file system answers [(err, v)]. *)
Lemma open_cases s p a t flags mode fs l g mnt ds : ustr s.(umem) a t -> Z.of_nat (length t) < PATH_MAX ->
  head t = Some SLASH -> mounts s l -> vfs_topmost_fs_for_path t s = Ret fs -> fs_ok s fs g mnt ds ->
  let '(rel, st) := relative (canonical t) mnt in
  let v := first_at s ds rel in
  (st < 0 -> vfs_open a flags mode p s = Ret (s, p, st)) /\
  (st = 0 -> v <> 0 -> vfs_open a flags mode p s = open_node v flags p s) /\
  (st = 0 -> v = 0 -> has flags O_CREAT = false -> vfs_open a flags mode p s = Ret (s, p, - ENOENT)) /\
  (st = 0 -> v = 0 -> has flags O_CREAT = true -> forall s' q r, vfs_open a flags mode p s = Ret (s', q, r) -> r < 0 /\ q = p).
Proof.
  intros Hu Hl Ha Hm Ht Hf. destruct (safe_path_spec s a t Hu Hl) as [Hs Htx].
  unfold vfs_open. rewrite Hs. cbn [Z.ltb Z.compare]. unfold absolute. rewrite bool_decide_eq_true_2 by done. cbn [negb].
  rewrite Ht, bind_Ret, (lookup_spec s fs g mnt ds t) by done. rewrite bind_Ret.
  assert (Hst : (relative (canonical t) mnt).2 = 0 \/ (relative (canonical t) mnt).2 = - EINVAL \/ (relative (canonical t) mnt).2 = - ENAMETOOLONG).
  { unfold relative. repeat case_match; cbn; auto. }
  destruct (relative (canonical t) mnt) as [rel st]. cbn [snd] in Hst. cbv zeta.
  split; [|split; [|split]].
  - intros Hneg. rewrite (proj2 (Z.ltb_lt st 0)) by done. rewrite (proj2 (Z.eqb_neq st _)), (proj2 (Z.ltb_lt st 0)); [done|done|].
    by destruct Hst as [->|[->| ->]].
  - intros -> Hv. cbn [Z.ltb Z.compare]. rewrite (proj2 (Z.eqb_neq _ 0)) by done. done.
  - intros -> -> Hc. by rewrite Z.eqb_refl, Hc.
  - intros -> -> Hc s' q r. cbn [Z.ltb Z.compare]. rewrite Z.eqb_refl, Hc. intros E.
    apply bind_Ret_inv in E as ([s1 [err n]] & _ & E). cbn beta iota in E.
    destruct (Z.ltb_spec err 0); [injection E as <- <- <-; done|]. bind_inv. subst. done.
Qed.

(** A descriptor that is open. *)
Definition is_open s m fd n d x : Prop := is_fd fd /\ file_of s m fd n = Some d /\ s.(vnodes) !! d.(fd_vnode) = Some x.

Lemma open_at f s p m fd d x : vfs_ok f s p m -> is_open s m fd p.(pid) d x ->
  exists a, m !! key fd p.(pid) = Some a /\ s.(sysfds) !! a = Some d /\ vfs_fdt_get_sysfd fd p.(pid) s = Ret a /\ a <> 0 /\ fd <? 0 = false /\ sysfd_at a s = Ret (d, x).
Proof.
  intros Ho (Hfd & Hd & Hx). unfold file_of in Hd. destruct (m !! key fd (pid p)) as [a|] eqn:Ha; [|done]. cbn in Hd. exists a.
  split; [done|]. split; [done|]. split; [rewrite (get_spec f s m) by (apply Ho || done); by rewrite Ha|].
  split; [by apply (file_block f s m _ a (vo_table _ _ _ _ Ho) Ha)|]. split; [apply Z.ltb_ge, Hfd|].
  unfold sysfd_at. rewrite Hd. cbn [deref]. rewrite bind_Ret, Hx. done.
Qed.

(** Moving an offset keeps the agreement. *)
Lemma ok_set_off f s p m fd a d o : vfs_ok f s p m -> m !! key fd p.(pid) = Some a -> s.(sysfds) !! a = Some d -> is_fd fd ->
  let s' := set_sysfds s (<[a := set_off d o]> s.(sysfds)) in
  vfs_ok f s' p m /\ file_of s' m fd p.(pid) = Some (set_off d o) /\ others_same s m s' m fd p.(pid) /\ s'.(vnodes) = s.(vnodes).
Proof.
  intros Ho Ha Hd Hfd s'. pose proof (vo_table _ _ _ _ Ho) as Ht. split; [|split; [|split; [|done]]].
  - split; try done; try apply Ho.
    + destruct Ht as [R F A]. split; [exact R| |].
      * intros k b Hb. destruct (F k b Hb) as (e & H1 & H2 & H3 & H4 & H5 & H6). cbn. destruct (decide (b = a)) as [->|Hne].
        { assert (e = d) as -> by congruence. exists (set_off d o). by rewrite lookup_insert_eq. }
        exists e. by rewrite lookup_insert_ne.
      * intros b Hb. apply A. cbn in Hb. apply lookup_insert_is_Some in Hb as [<-|[_ ?]]; [by exists d|done].
    + intros k b e Hb He. cbn in He. apply lookup_insert_Some in He as [[<- <-]|[_ He]]; [by apply (vo_node _ _ _ _ Ho k a d Hb Hd)|by apply (vo_node _ _ _ _ Ho k b e Hb He)].
    + intros v y Hy. rewrite (vo_refs _ _ _ _ Ho v y Hy). unfold refs. do 2 f_equal. apply map_filter_ext. intros k b Hb. unfold opens. cbn.
      destruct (decide (b = a)) as [->|Hne]; [by rewrite lookup_insert_eq, Hd|by rewrite lookup_insert_ne].
  - unfold file_of. rewrite Ha. cbn. by rewrite lookup_insert_eq.
  - intros fd' n' Hfd' Hn' Hne. unfold file_of. destruct (m !! key fd' n') as [b|] eqn:Eb; [|done]. cbn.
    rewrite lookup_insert_ne; [done|]. intros <-. apply Hne. pose proof (file_key _ _ _ _ _ _ Ht Ha Eb) as E.
    destruct (key_inj fd (pid p) fd' n') as [-> ->]; [done|done|apply Ho|done|done|done].
Qed.

(** The offset [lseek] asks for, on numbers. *)
Definition seek_base (d : FileDescriptor) (x : VirtualNode) (whence : Z) : option Z :=
  if whence =? SEEK_SET then Some 0 else if whence =? SEEK_CUR then Some d.(fd_off)
  else if whence =? SEEK_END then Some x.(vn_size) else None.

Lemma seek_target_spec d x off whence : is_i32 off -> 0 <= d.(fd_off) < 2 ^ 31 -> 0 <= x.(vn_size) < 2 ^ 31 ->
  match seek_base d x whence with
  | None => seek_target d x.(vn_size) off whence = Ret (inl (- EINVAL))
  | Some b =>
      (0 <= b + off < 2 ^ 31 -> seek_target d x.(vn_size) off whence = Ret (inr (b + off))) /\
      (b + off < 0 -> seek_target d x.(vn_size) off whence = Ret (inl (- EINVAL))) /\
      (2 ^ 31 <= b + off -> seek_target d x.(vn_size) off whence = if whence =? SEEK_CUR then Undef else Ret (inl (- EOVERFLOW)))
  end.
Proof.
  unfold is_i32. intros Ho Hd Hx. unfold seek_base, seek_target. destruct (whence =? SEEK_SET) eqn:E1; reflect_bools.
  { subst. rewrite Z.add_0_l. split; [|split]; intros ?; [by rewrite (proj2 (Z.ltb_ge off 0)) by lia|by rewrite (proj2 (Z.ltb_lt off 0)) by lia|lia]. }
  destruct (whence =? SEEK_CUR) eqn:E2; reflect_bools.
  { split; [|split]; intros ?.
    - rewrite bool_decide_eq_true_2 by lia. by rewrite (proj2 (Z.ltb_ge (fd_off d + off) 0)) by lia.
    - rewrite bool_decide_eq_true_2 by lia. rewrite (proj2 (Z.ltb_lt (fd_off d + off) 0)), (proj2 (Z.ltb_lt off 0)) by lia. done.
    - by rewrite bool_decide_eq_false_2 by lia. }
  destruct (whence =? SEEK_END) eqn:E3; reflect_bools; [|done].
  assert (Hs : i32 (u32 (vn_size x + u32 off)) = i32 (vn_size x + off)).
  { rewrite i32_u32. unfold i32, u32. f_equal. rewrite <- Z.add_assoc, (Z.add_comm (off mod _)), Z.add_assoc, Zplus_mod_idemp_r. f_equal. lia. }
  cbv zeta. rewrite Hs. split; [|split]; intros ?.
  - rewrite i32_small by (unfold is_i32; lia). by rewrite (proj2 (Z.ltb_ge _ 0)) by lia.
  - rewrite i32_small by (unfold is_i32; lia). rewrite (proj2 (Z.ltb_lt _ 0)), (proj2 (Z.ltb_lt off 0)) by lia. done.
  - assert (i32 (vn_size x + off) = vn_size x + off - 2 ^ 32) as ->.
    { unfold i32. rewrite <- (Z_mod_plus_full _ (-1)), Z.mod_small; lia. }
    rewrite (proj2 (Z.ltb_lt _ 0)), (proj2 (Z.ltb_ge off 0)) by lia. done.
Qed.
End calls.
