(* ===== verification/Fat.v ===== *)
(** * FAT32

    [drivers/fs/fat/]: the volume's layout, the file allocation table, the
    directory entries and the names in them, reading of files, and the driver
    on the state of the virtual file system and the block devices. *)
From S2P Require Import Prelude Alloc Bitwise CString KStdlib Kmalloc LinkedList HashTable Path Paging Falloc Proc User Fs Vfs Printf Storage.

Definition ENOTBLK : Z := 15.
Definition EAGAIN : Z := 11.
Definition FAT_FILE_MODE : Z := 0x1ED.
Definition FAT_DIR_MODE : Z := 0x41ED.
Definition FAT_ENTRY_VOL_ID : Z := 0x08.
Definition FAT_ENTRY_DIR : Z := 0x10.
Definition FAT_ENTRY_LFN : Z := 0x0F.
Definition FAT_CLUSTER_FREE : Z := 0.
Definition FAT_CLUSTER_USED : Z := 1.
Definition FAT_CLUSTER_RESERVED : Z := 2.
Definition FAT_CLUSTER_BAD : Z := 3.
Definition FAT_CLUSTER_EOF : Z := 4.
Definition FAT_CLUSTER_BROKEN : Z := 5.
Definition sizeof_FAT32Ctx : Z := 56.
Definition S_IFMT : Z := 0xF000.

(** ** Data *)
Inductive FatType := FAT12 | FAT16 | FAT32.
#[export] Instance FatType_eq_dec : EqDecision FatType.
Proof. solve_decision. Defined.

Record FatBootRecord := mkBPB {
  bpb_sectorsize : Z; bpb_sectors_per_cluster : Z; bpb_reserved_sector_count : Z; fat_count : Z; root_dir_entries_count : Z;
  sector_count16 : Z; media : Z; sectors_per_fat16 : Z; sectors_per_track : Z; heads_count : Z; hidden_sectors_count : Z; sectors_count32 : Z }.
Record Fat32BootRecord := mkBPB32 { sectors_per_fat32 : Z; bpb_flags : Z; version : Z; bpb_root_dir_cluster : Z }.
Definition bpb_of (l : list Z) : FatBootRecord :=
  mkBPB (field 11 2 l) (field 13 1 l) (field 14 2 l) (field 16 1 l) (field 17 2 l) (field 19 2 l) (field 21 1 l) (field 22 2 l)
    (field 24 2 l) (field 26 2 l) (field 28 4 l) (field 32 4 l).
Definition bpb32_of (l : list Z) : Fat32BootRecord := mkBPB32 (field 36 4 l) (field 40 2 l) (field 42 2 l) (field 44 4 l).

Record FAT32Ctx := mkCtx {
  sectorsize : Z; sectors_per_fat : Z; sectors_per_cluster : Z; ctx_sector_count : Z; data_sector_count : Z; cluster_count : Z;
  root_dir_sector_count : Z; root_dir_cluster : Z; reserved_sector_count : Z; first_data_sector : Z; type : FatType;
  clustersize : Z; entries_per_clusterdir : Z; blkdev : Z }.

Record FATEntryLoc := mkLoc { loc_cluster : Z; loc_offset : Z; read_next : bool }.

(** ** Directory entries

    The 32 bytes of an entry, read as a [FATEntry] or a [FATLFNEntry]. *)
Section entry.
Implicit Types (e : list Z).
Definition e_name e (i : nat) : Z := nth i e 0.
Definition e_ext e (i : nat) : Z := nth (8 + i) e 0.
Definition attributes e : Z := nth 11 e 0.
Definition cluster_hi e : Z := field 20 2 e.
Definition cluster_lo e : Z := field 26 2 e.
Definition file_size e : Z := field 28 4 e.
Definition order e : Z := nth 0 e 0.
Definition name1 e (k : nat) : Z := field (1 + 2 * k) 2 e.
Definition name2 e (k : nat) : Z := field (14 + 2 * k) 2 e.
Definition name3 e (k : nat) : Z := field (28 + 2 * k) 2 e.

Definition fat_entry_is_last_in_dir e : bool := e_name e 0 =? 0.
Definition fat_is_entry_deleted e : bool := e_name e 0 =? 0xE5.
Definition fat_is_dot_or_dotdot e : bool :=
  if e_name e 1 =? 32 then e_name e 0 =? 46
  else if e_name e 2 =? 32 then (e_name e 0 =? 46) && (e_name e 1 =? 46)
  else false.

(** The characters of a field before the first space. *)
Fixpoint until_space (l : list Z) : list Z :=
  match l with [] => [] | c :: l => if c =? 32 then [] else c :: until_space l end.
Definition name_field e : list Z := e_name e <$> seq 0 8.
Definition ext_field e : list Z := e_ext e <$> seq 0 3.

(** [++size] for each of them, the dot, the terminator. *)
Definition fat_legacy_name_size e : Z :=
  let size := Z.of_nat (length (until_space (name_field e))) in
  let ext := Z.of_nat (length (until_space (ext_field e))) in
  u8 ((if 0 <? ext then size + ext + 1 else size) + 1).

Definition lower (c : Z) : Z := if isupper c then u8 (tolower c) else c.
(** [strcpy] of the zeroed copy of the name, then [strcat] of the dot and the
    extension: a null in a field ends it. *)
Definition fat_copy_legacy_name e : list Z :=
  let name := until_nul (lower <$> until_space (name_field e)) in
  let ext := until_space (ext_field e) in
  if (0 <? length ext)%nat then name ++ [46] ++ until_nul (lower <$> ext) else name.

Definition fat_lfn_entries_count e : Z := Z.land (order e) (Z.lnot 0x40).
Definition fat_lfn_name_size e : Z := fat_lfn_entries_count e * 13 + 1.

(** One of the three loops over the characters of a part of the name. *)
Fixpoint lfn_chars (n k : nat) (name : nat -> Z) (base : Z) (i : Z) (dest : list Z) : outcome (Z * list Z) :=
  match n with
  | O => Ret (i, dest)
  | S n =>
      let c := name k in
      if (c =? 0) || (c =? 0xFFFF) then Ret (i, dest)
      else
        _ ← deref (dest !! Z.to_nat (base + i));
        lfn_chars n (S k) name base (i + 1) (<[Z.to_nat (base + i) := Z.land c 0xFF]> dest)
  end.
Definition lfn_part e (base : Z) (dest : list Z) : outcome (list Z) :=
  r ← lfn_chars 5 0 (name1 e) base 0 dest;
  r ← lfn_chars 6 0 (name2 e) base r.1 r.2;
  r ← lfn_chars 2 0 (name3 e) base r.1 r.2;
  Ret r.2.
End entry.

(** ** The volume *)

(** [st] is [true]: the result is 1. *)
Definition ctx_of_bpb (dev : Z) (l : list Z) : outcome FAT32Ctx :=
  let bpb := bpb_of l in
  let bpb32 := bpb32_of l in
  let spf := if bpb.(sectors_per_fat16) =? 0 then bpb32.(sectors_per_fat32) else bpb.(sector_count16) in
  let count := Z.max bpb.(sector_count16) bpb.(sectors_count32) in
  if (bpb.(bpb_sectorsize) =? 0) || (bpb.(bpb_sectors_per_cluster) =? 0) then Undef
  else
    let root := u16 ((bpb.(root_dir_entries_count) * 32 + (bpb.(bpb_sectorsize) - 1)) / bpb.(bpb_sectorsize)) in
    let data := u32 (count - u32 (bpb.(bpb_reserved_sector_count) + bpb.(fat_count) * spf + root)) in
    let clusters := data / bpb.(bpb_sectors_per_cluster) in
    let first := u32 (bpb.(bpb_reserved_sector_count) + bpb.(fat_count) * spf + root) in
    let '(rc, ty) := if clusters <? 4085 then (0, FAT12) else if clusters <? 65525 then (0, FAT16)
                     else (bpb32.(bpb_root_dir_cluster), FAT32) in
    let size := bpb.(bpb_sectors_per_cluster) * bpb.(bpb_sectorsize) in
    Ret (mkCtx bpb.(bpb_sectorsize) spf bpb.(bpb_sectors_per_cluster) count data clusters root rc bpb.(bpb_reserved_sector_count)
           first ty size (size / 32) dev).

(** What [fat_validate] accepts. *)
Definition bpb_valid (l : list Z) (blksize : Z) : bool :=
  let bpb := bpb_of l in
  (bpb.(bpb_sectorsize) =? blksize) &&
  (((bpb.(sectors_per_fat16) =? 0) && negb ((bpb32_of l).(sectors_per_fat32) =? 0)) || negb (bpb.(sectors_per_fat16) =? 0)) &&
  ((bpb.(bpb_sectorsize) =? 512) || (bpb.(bpb_sectorsize) =? 1024) || (bpb.(bpb_sectorsize) =? 2048) || (bpb.(bpb_sectorsize) =? 4096)).

Definition fat_cluster_to_sector (cluster : Z) (ctx : FAT32Ctx) : Z :=
  u32 (u32 (cluster - 2) * ctx.(sectors_per_cluster) + ctx.(first_data_sector)).
(** The sector and the offset of a table entry. *)
Definition entry_place (clus : Z) (ctx : FAT32Ctx) : Z * Z :=
  let fat_offset := u32 (if decide (ctx.(type) = FAT32) then clus * 4 else clus * 2) in
  (u32 (ctx.(reserved_sector_count) + fat_offset / ctx.(sectorsize)), fat_offset mod ctx.(sectorsize)).
Definition classify (fat count : Z) : Z :=
  if fat =? 0 then FAT_CLUSTER_FREE
  else if (fat >=? 0) && (fat <=? count) then FAT_CLUSTER_USED
  else if (fat >? count) && (fat <=? 0xFFFFFF6) then FAT_CLUSTER_RESERVED
  else if fat =? 0xFFFFFF7 then FAT_CLUSTER_BAD
  else if fat >=? 0xFFFFFF8 then FAT_CLUSTER_EOF
  else FAT_CLUSTER_BROKEN.

Definition fat_advance_loc (ctx : FAT32Ctx) (loc : FATEntryLoc) : FATEntryLoc :=
  if loc.(loc_offset) + 1 =? ctx.(entries_per_clusterdir) then mkLoc loc.(loc_cluster) 0 true
  else mkLoc loc.(loc_cluster) (u8 (loc.(loc_offset) + 1)) false.
Definition fat_read_one_entry (clusbuf : list Z) (idx : Z) : outcome (list Z) :=
  let e := take 32 (drop (Z.to_nat (idx * 32)) clusbuf) in
  if (length e =? 32)%nat then Ret e else Undef.

(** ** State *)
Record fatstate (X : Type) := mkFat { ctxs : gmap Z FAT32Ctx; fat_hw : X }.
Arguments mkFat {X} _ _.
Arguments ctxs {X} _.
Arguments fat_hw {X} _.
(** The disks are below. *)
#[export] Instance fat_devices {X} `{!BlockDevices X} : BlockDevices (fatstate X) := {|
  dev_read dev x l n w := r ← dev_read dev x l n w.(fat_hw); Ret (mkFat w.(ctxs) r.1, r.2);
  dev_write dev x l n src w := r ← dev_write dev x l n src w.(fat_hw); Ret (mkFat w.(ctxs) r.1, r.2) |}.

Section ops.
Context {H X : Type} `{!Allocator H} `{!BlockDevices X} `{DT : DriverTables} `{!BlockDrivers (vstate H (storage (fatstate X)))}.
Notation D := (storage (fatstate X)).
Notation vstate := (vstate H D).
Context `{!Drivers vstate}.

Definition get_ctx (p : Z) (s : vstate) : outcome FAT32Ctx := deref (s.(drv).(hw).(ctxs) !! p).
Definition put_ctx (p : Z) (x : FAT32Ctx) (s : vstate) : vstate := up (fun d => set_hw d (mkFat (<[p := x]> d.(hw).(ctxs)) d.(hw).(fat_hw))) s.
Definition del_ctx (p : Z) (s : vstate) : vstate := up (fun d => set_hw d (mkFat (delete p d.(hw).(ctxs)) d.(hw).(fat_hw))) s.

(** Sectors read into a buffer of [size] bytes. *)
Definition read_into (size part l n : Z) (s : vstate) : outcome (vstate * (Z * list Z)) :=
  r ← part_read part l n s;
  if Z.of_nat (length r.2.2) <=? size then Ret r else Undef.

Definition fat_entry_for_clus (bufsize clus : Z) (ctx : FAT32Ctx) (s : vstate) : outcome (vstate * Z) :=
  if ctx.(sectorsize) =? 0 then Undef
  else
    let '(sec, off) := entry_place clus ctx in
    r ← read_into bufsize ctx.(blkdev) sec 1 s;
    let '(s, (st, buf)) := r : vstate * (Z * list Z) in
    if st <? 0 then Ret (s, st)
    else
      let w := take 4 (drop (Z.to_nat off) buf) in
      if (length w =? 4)%nat then Ret (s, le w) else Undef.

Definition fat_cluster_type (bufsize cluster : Z) (ctx : FAT32Ctx) (s : vstate) : outcome (vstate * Z) :=
  r ← fat_entry_for_clus bufsize cluster ctx s;
  if r.2 <? 0 then Ret (r.1, i32 r.2) else Ret (r.1, classify r.2 ctx.(cluster_count)).

Definition fat_read_one_cluster (bufsize clus : Z) (ctx : FAT32Ctx) (s : vstate) : outcome (vstate * (Z * list Z)) :=
  read_into bufsize ctx.(blkdev) (fat_cluster_to_sector clus ctx) ctx.(sectors_per_cluster) s.

(** The state, the location and the status. *)
Definition fat_advance_loc_clus (bufsize : Z) (loc : FATEntryLoc) (ctx : FAT32Ctx) (s : vstate) : outcome (vstate * (FATEntryLoc * Z)) :=
  r ← fat_entry_for_clus bufsize loc.(loc_cluster) ctx s;
  let '(s, next) := r : vstate * Z in
  if next <? 0 then Ret (s, (loc, i32 next))
  else if (next >=? 2) && (next <=? ctx.(cluster_count)) then Ret (s, (mkLoc next loc.(loc_offset) false, 0))
  else Ret (s, (loc, - EINVAL)).

(** The cluster and the status. *)
Definition fat_next_clus (bufsize clus : Z) (ctx : FAT32Ctx) (s : vstate) : outcome (vstate * (Z * Z)) :=
  r ← fat_entry_for_clus bufsize clus ctx s;
  let next := u32 r.2 in
  if (next >=? 2) && (next <=? ctx.(cluster_count)) then Ret (r.1, (next, 0)) else Ret (r.1, (clus, - EINVAL)).

Definition free2 (s : vstate) (a b : Z) : outcome vstate := s ← free_block s a; free_block s b.

(** ** [fat_read.c] *)
Fixpoint jump_loop (n : nat) (fatbuf cluster : Z) (ctx : FAT32Ctx) (s : vstate) : outcome (vstate * (Z * Z)) :=
  match n with
  | O => Ret (s, (cluster, 0))
  | S n =>
      r ← fat_next_clus ctx.(sectorsize) cluster ctx s;
      let '(s, (cluster, st)) := r : vstate * (Z * Z) in
      if st <? 0 then s ← free_block s fatbuf; Ret (s, (cluster, st))
      else jump_loop n fatbuf cluster ctx s
  end.
(** [clusbuf] is what has been read. *)
Fixpoint read_loop (fuel : nat) (fatbuf clusp cluster working_size : Z) (clusbuf : list Z) (ctx : FAT32Ctx) (s : vstate)
    : outcome (vstate * (list Z * Z)) :=
  match fuel with
  | O => Undef
  | S fuel =>
      if negb (working_size >? 0) then Ret (s, (clusbuf, 0))
      else
        r ← read_into ctx.(clustersize) ctx.(blkdev) (fat_cluster_to_sector cluster ctx) ctx.(sectors_per_cluster) s;
        let '(s, (st, bytes)) := r : vstate * (Z * list Z) in
        if st <? 0 then s ← free2 s clusp fatbuf; Ret (s, (clusbuf, st))
        else
          r ← fat_next_clus ctx.(sectorsize) cluster ctx s;
          let '(s, (cluster, st)) := r : vstate * (Z * Z) in
          if st <? 0 then s ← free2 s clusp fatbuf; Ret (s, (clusbuf, st))
          else read_loop fuel fatbuf clusp cluster (u32 (working_size - ctx.(clustersize))) (clusbuf ++ bytes) ctx s
  end.
Definition fat_read (v buf n off : Z) (s : vstate) : outcome (vstate * Z) :=
  x ← deref (s.(vnodes) !! v);
  if (n =? 0) || (u32 off >=? x.(vn_size)) then Ret (s, 0)
  else
    f ← deref (s.(filesystems) !! x.(owner));
    _ ← assert_ (negb (f.(driver_ctx) =? 0));
    ctx ← get_ctx f.(driver_ctx) s;
    _ ← assert_ (negb (ctx.(blkdev) =? 0));
    let n := Z.min n (u32 (x.(vn_size) - u32 off)) in
    r ← kmalloc_ ctx.(sectorsize) (vheap s);
    let s := set_vheap s r.1 in
    let fatbuf := r.2 in
    if fatbuf =? 0 then Ret (s, - ENOMEM)
    else if ctx.(clustersize) =? 0 then Undef
    else
      r ← jump_loop (Z.to_nat (u32 off / ctx.(clustersize))) fatbuf x.(vn_n) ctx s;
      let '(s, (cluster, st)) := r : vstate * (Z * Z) in
      if st <? 0 then Ret (s, st)
      else
        let working_size := u32 (Bytes.bytes_align_up64 (u32 (n + u32 off mod ctx.(clustersize))) ctx.(clustersize)) in
        r ← kmalloc_ working_size (vheap s);
        let s := set_vheap s r.1 in
        let clusp := r.2 in
        if clusp =? 0 then s ← free_block s fatbuf; Ret (s, - ENOMEM)
        else
          r ← read_loop (S (Z.to_nat working_size)) fatbuf clusp cluster working_size [] ctx s;
          let '(s, (clusbuf, st)) := r : vstate * (list Z * Z) in
          if st <? 0 then Ret (s, st)
          else
            let src := take (Z.to_nat n) (drop (Z.to_nat off) clusbuf) in
            if (Z.of_nat (length src) =? n) then
              let s := set_umem s (user_copy_to s.(umem) buf src).1 in
              s ← free2 s fatbuf clusp; Ret (s, i32 n)
            else Undef.

(** ** [fat_dir.c] *)

(** The next cluster when the location says so, checked to be in use. *)
Definition next_dir_cluster (bufsize : Z) (loc : FATEntryLoc) (ctx : FAT32Ctx) (s : vstate) : outcome (vstate * (FATEntryLoc * Z)) :=
  r ← fat_advance_loc_clus bufsize loc ctx s;
  let '(s, (loc, st)) := r : vstate * (FATEntryLoc * Z) in
  if st <? 0 then Ret (s, (loc, st))
  else
    r ← fat_cluster_type bufsize loc.(loc_cluster) ctx s;
    let '(s, ty) := r : vstate * Z in
    if negb ((ty =? FAT_CLUSTER_USED) || (ty =? FAT_CLUSTER_EOF)) then Ret (s, (loc, - EINVAL)) else Ret (s, (loc, 0)).

(** One element for each entry of the name; the entry behind them. *)
Fixpoint fat_read_lfns (fuel : nat) (bufsize : Z) (clusbuf : list Z) (loc : FATEntryLoc) (ctx : FAT32Ctx) (dest : list Z) (e : list Z)
    (total_lfns lfn_entries_read : Z) (s : vstate) : outcome (vstate * (FATEntryLoc * list Z * list Z * Z)) :=
  match fuel with
  | O => Undef
  | S fuel =>
      if negb (attributes e =? FAT_ENTRY_LFN) then Ret (s, (loc, dest, e, 0))
      else if lfn_entries_read >=? total_lfns then Ret (s, (loc, dest, e, - EINVAL))
      else
        dest ← lfn_part e ((total_lfns - lfn_entries_read - 1) * 13) dest;
        r ← (if loc.(read_next) : bool then
               r ← next_dir_cluster bufsize loc ctx s;
               let '(s, (loc, st)) := r : vstate * (FATEntryLoc * Z) in
               if st <? 0 then Ret (s, (loc, clusbuf, st))
               else
                 r ← fat_read_one_cluster ctx.(clustersize) loc.(loc_cluster) ctx s;
                 let '(s, (st, bytes)) := r : vstate * (Z * list Z) in
                 Ret (s, (loc, if st <? 0 then clusbuf else bytes, st))
             else Ret (s, (loc, clusbuf, 0)));
        let '(s, (loc, clusbuf, st)) := r : vstate * (FATEntryLoc * list Z * Z) in
        if st <? 0 then Ret (s, (loc, dest, e, st))
        else
          e ← fat_read_one_entry clusbuf loc.(loc_offset);
          fat_read_lfns fuel bufsize clusbuf (fat_advance_loc ctx loc) ctx dest e total_lfns (lfn_entries_read + 1) s
  end.

(** What is known of the entry: its name and the fields set from it. *)
Definition entry_vnode (vn : VirtualNode) (name : Z) (e : list Z) : VirtualNode :=
  mkVN name (Z.lor (Z.shiftl (cluster_hi e) 16) (cluster_lo e)) (file_size e)
    (if Z.land (attributes e) FAT_ENTRY_DIR =? 0 then FAT_FILE_MODE else FAT_DIR_MODE)
    vn.(vn_uid) vn.(vn_gid) vn.(ref_count) vn.(vn_flags) vn.(parent) vn.(owner) vn.(vn_ops) vn.(vn_data).

Definition fat_dir_entry_to_vnode (loc : FATEntryLoc) (vn : VirtualNode) (s : vstate) : outcome (vstate * (FATEntryLoc * VirtualNode * Z)) :=
  f ← deref (s.(filesystems) !! vn.(owner));
  _ ← assert_ (negb (f.(driver_ctx) =? 0));
  ctx ← get_ctx f.(driver_ctx) s;
  dev ← deref (s.(drv).(mblkdev_at) !! ctx.(blkdev));
  let bufsize := dev.(mb_sectorsize) in
  r ← kmalloc_ bufsize (vheap s);
  let s := set_vheap s r.1 in
  let fatbuf := r.2 in
  if fatbuf =? 0 then Ret (s, (loc, vn, - ENOMEM))
  else
    r ← (if loc.(read_next) : bool then next_dir_cluster bufsize loc ctx s else Ret (s, (loc, 0)));
    let '(s, (loc, st)) := r : vstate * (FATEntryLoc * Z) in
    if st <? 0 then s ← free_block s fatbuf; Ret (s, (loc, vn, st))
    else
      r ← kmalloc_ ctx.(clustersize) (vheap s);
      let s := set_vheap s r.1 in
      let clusp := r.2 in
      if clusp =? 0 then s ← free_block s fatbuf; Ret (s, (loc, vn, - ENOMEM))
      else
        let out (s : vstate) (loc : FATEntryLoc) (vn : VirtualNode) (st : Z) : outcome (vstate * (FATEntryLoc * VirtualNode * Z)) :=
          s ← free2 s fatbuf clusp; Ret (s, (loc, vn, st)) in
        r ← fat_read_one_cluster ctx.(clustersize) loc.(loc_cluster) ctx s;
        let '(s, (st, clusbuf)) := r : vstate * (Z * list Z) in
        if st <? 0 then out s loc vn st
        else
          e ← fat_read_one_entry clusbuf loc.(loc_offset);
          if fat_entry_is_last_in_dir e then out s loc vn (- ENOENT)
          else
            let loc := fat_advance_loc ctx loc in
            if fat_is_entry_deleted e || fat_is_dot_or_dotdot e then out s loc vn (- EAGAIN)
            else if attributes e =? FAT_ENTRY_LFN then
              r ← kcalloc_ (fat_lfn_name_size e) (vheap s);
              let s := set_vheap s r.1 in
              let name := r.2 in
              if name =? 0 then out s loc vn (- ENOMEM)
              else
                let total := fat_lfn_entries_count e in
                r ← fat_read_lfns (S (S (Z.to_nat total))) bufsize clusbuf loc ctx (replicate (Z.to_nat (fat_lfn_name_size e)) 0) e total 0 s;
                let '(s, (loc, dest, e, st)) := r : vstate * (FATEntryLoc * list Z * list Z * Z) in
                if st <? 0 then s ← free_block s name; out s loc vn st
                else out (put_str name (until_nul dest) s) loc (entry_vnode vn name e) 0
            else if attributes e =? FAT_ENTRY_VOL_ID then out s loc vn (- EAGAIN)
            else
              r ← kmalloc_ (fat_legacy_name_size e) (vheap s);
              let s := set_vheap s r.1 in
              (* the status is not set before the jump *)
              if r.2 =? 0 then out s loc (entry_vnode vn 0 e) st
              else out (put_str r.2 (fat_copy_legacy_name e) s) loc (entry_vnode vn r.2 e) 0.

Definition fat_free_vnode (vn : VirtualNode) (s : vstate) : outcome (vstate * (VirtualNode * Z)) :=
  s ← free_str s vn.(vn_name); Ret (s, (set_vname vn 0, 0)).

(** The directory of the node [dir] from [loc] on: every step takes one of
    the fuel, which the depth of the tree and its entries bound on a volume
    without cycles. *)
Fixpoint enumerate_loop (fuel : nat) (dir fs : Z) (loc : FATEntryLoc) (s : vstate) : outcome (vstate * Z) :=
  match fuel with
  | O => Undef
  | S fuel =>
      r ← fat_dir_entry_to_vnode loc (set_owner_ops zero_vnode fs 0) s;
      let '(s, (loc, vn, st)) := r : vstate * (FATEntryLoc * VirtualNode * Z) in
      if st =? - EAGAIN then enumerate_loop fuel dir fs loc s
      else if st =? - ENOENT then Ret (s, 0)
      else if st <? 0 then Ret (s, st)
      else
        nm ← deref (s.(strs) !! vn.(vn_name));
        r ← fs_new_vnode_cache nm fs s;
        let '(s, cached) := r : vstate * Z in
        r ← fat_free_vnode vn s;
        let s := r.1 in
        if cached =? 0 then enumerate_loop fuel dir fs loc s
        else
          x ← deref (s.(vnodes) !! cached);
          let s := put_vnode s cached (mkVN x.(vn_name) vn.(vn_n) vn.(vn_size) vn.(vn_mode) x.(vn_uid) x.(vn_gid) x.(ref_count)
            x.(vn_flags) dir x.(owner) x.(vn_ops) x.(vn_data)) in
          if Z.land vn.(vn_mode) S_IFMT =? S_IFDIR then
            r ← enumerate_loop fuel cached fs (mkLoc vn.(vn_n) 0 false) s;
            enumerate_loop fuel dir fs loc r.1
          else enumerate_loop fuel dir fs loc s
  end.
Definition fat_enumerate_and_cache_dir (fuel : nat) (dir fs : Z) (s : vstate) : outcome (vstate * Z) :=
  x ← deref (s.(vnodes) !! dir);
  _ ← assert_ (Z.land x.(vn_mode) S_IFMT =? S_IFDIR);
  enumerate_loop fuel dir fs (mkLoc x.(vn_n) 0 false) s.

Definition fat_cache_root_vnode (fs : Z) (s : vstate) : outcome (vstate * Z) :=
  f ← deref (s.(filesystems) !! fs);
  _ ← assert_ (negb (f.(driver_ctx) =? 0));
  ctx ← get_ctx f.(driver_ctx) s;
  r ← fs_new_vnode_cache [SLASH] fs s;
  let '(s, v) := r : vstate * Z in
  if v =? 0 then Ret (s, - ENOMEM)
  else
    x ← deref (s.(vnodes) !! v);
    Ret (put_vnode s v (mkVN x.(vn_name) ctx.(root_dir_cluster) 0 FAT_DIR_MODE x.(vn_uid) x.(vn_gid) x.(ref_count)
      x.(vn_flags) 0 x.(owner) x.(vn_ops) x.(vn_data)), 0).

(** ** [fat.c] *)
Definition fat_parse_metadata (fs : Z) (s : vstate) : outcome (vstate * Z) :=
  f ← deref (s.(filesystems) !! fs);
  _ ← assert_ (negb (f.(driver_ctx) =? 0));
  ctx ← get_ctx f.(driver_ctx) s;
  _ ← assert_ (negb (ctx.(blkdev) =? 0));
  dev ← deref (s.(drv).(mblkdev_at) !! ctx.(blkdev));
  r ← kmalloc_ dev.(mb_sectorsize) (vheap s);
  let s := set_vheap s r.1 in
  let buf := r.2 in
  if buf =? 0 then Ret (s, - ENOMEM)
  else
    r ← read_into dev.(mb_sectorsize) ctx.(blkdev) 0 1 s;
    let '(s, (st, bytes)) := r : vstate * (Z * list Z) in
    if st <? 0 then s ← free_block s buf; Ret (s, st)
    else if (length bytes <? 48)%nat then Undef
    else
      ctx ← ctx_of_bpb ctx.(blkdev) bytes;
      s ← free_block (put_ctx f.(driver_ctx) ctx s) buf;
      Ret (s, 1).

Definition fat_validate (dev : Z) (s : vstate) : outcome (vstate * Z) :=
  x ← deref (s.(drv).(mblkdev_at) !! dev);
  r ← kmalloc_ x.(mb_sectorsize) (vheap s);
  let s := set_vheap s r.1 in
  let buf := r.2 in
  if buf =? 0 then Ret (s, - ENOMEM)
  else
    r ← read_into x.(mb_sectorsize) dev 0 1 s;
    let '(s, (st, bytes)) := r : vstate * (Z * list Z) in
    if st <? 0 then s ← free_block s buf; Ret (s, st)
    else if (length bytes <? 48)%nat then Undef
    else s ← free_block s buf; Ret (s, if bpb_valid bytes x.(mb_sectorsize) then 0 else - EINVAL).

(** [kfree] of the names in the list, then of the nodes with their names. *)
Definition fat_destroy (fs : Z) (s : vstate) : outcome vstate :=
  f ← deref (s.(filesystems) !! fs);
  s ← (if f.(driver_ctx) =? 0 then Ret s
       else s ← free_block s f.(driver_ctx); Ret (put_fs (del_ctx f.(driver_ctx) s) fs (set_ctx f 0)));
  s ← for_each s f.(vnode_ll) (fun s v =>
        x ← deref (s.(vnodes) !! v); s ← free_str s x.(vn_name); Ret (s, false)) s;
  r ← fs_free_all_cached_vnodes fs s; Ret r.1.

(** [stack] is what the stack holds where the name of a device is put
    together; [fresh] what a block of [kmalloc] holds. *)
Definition fat_init (stack : list Z) (fresh : Z -> FAT32Ctx) (fuel : nat) (fs : Z) (s : vstate) : outcome (vstate * Z) :=
  f ← deref (s.(filesystems) !! fs);
  src ← deref (s.(strs) !! f.(mntsrc));
  dev ← blkdevm_find_mountable_blkdev stack src s;
  if dev =? 0 then Ret (s, - ENOTBLK)
  else
    r ← fat_validate dev s;
    let '(s, st) := r : vstate * Z in
    if st <? 0 then Ret (s, st)
    else
      r ← kmalloc_ sizeof_FAT32Ctx (vheap s);
      let s := set_vheap s r.1 in
      let p := r.2 in
      if p =? 0 then Ret (s, - ENOMEM)
      else
        let c := fresh p in
        let c := mkCtx c.(sectorsize) c.(sectors_per_fat) c.(sectors_per_cluster) c.(ctx_sector_count) c.(data_sector_count) c.(cluster_count)
          c.(root_dir_sector_count) c.(root_dir_cluster) c.(reserved_sector_count) c.(first_data_sector) c.(type) c.(clustersize)
          c.(entries_per_clusterdir) dev in
        let s := put_fs (put_ctx p c s) fs (set_ctx f p) in
        r ← fat_parse_metadata fs s;
        let '(s, st) := r : vstate * Z in
        if st <? 0 then s ← fat_destroy fs s; Ret (s, st)
        else
          c ← get_ctx p s;
          if decide (c.(type) <> FAT32) then s ← fat_destroy fs s; Ret (s, - EINVAL)
          else
            r ← fat_cache_root_vnode fs s;
            let '(s, st) := r : vstate * Z in
            if st <? 0 then s ← fat_destroy fs s; Ret (s, st)
            else
              r ← fs_lookup_vnode [SLASH] fs s;
              _ ← assert_ (negb (r.2 =? 0));
              r ← fat_enumerate_and_cache_dir fuel r.2 fs s;
              let '(s, st) := r : vstate * Z in
              if st <? 0 then s ← fat_destroy fs s; Ret (s, st) else Ret (s, 0).

Definition fat_open (v flags : Z) (s : vstate) : outcome (vstate * Z) := Ret (s, 0).
Definition fat_write (v buf n off : Z) (s : vstate) : outcome (vstate * Z) := Panic.
Definition fat_ioctl (v req data : Z) (s : vstate) : outcome (vstate * Z) := Ret (s, -1).
Definition fat_mkfile (dir : Z) (name : list Z) (mode uid gid fs : Z) (s : vstate) : outcome (vstate * (Z * Z)) := Panic.
Definition fat_rmnode (v : Z) (s : vstate) : outcome (vstate * Z) := Panic.
End ops.

(** ** The driver at its address *)
Definition FATFS : Z := 0x100400.
Definition FATFS_OPS : Z := 0x100500.

Section drivers.
Context {H X : Type} `{!Allocator H} `{!BlockDevices X} `{DT : DriverTables} `{!BlockDrivers (vstate H (storage (fatstate X)))}.
Notation vstate := (vstate H (storage (fatstate X))).
Variables (stack : list Z) (fresh : Z -> FAT32Ctx) (fuel : nat) (other : Drivers vstate).

(** [g_fatfs_driver] and [g_fatfs_vnode_ops]; the drivers of other file
    systems are behind it. *)
Definition fat_drivers : Drivers vstate := {|
  drv_init d fs s := if d =? FATFS then fat_init stack fresh fuel fs s else @drv_init _ other d fs s;
  drv_destroy d fs s := if d =? FATFS then fat_destroy fs s else @drv_destroy _ other d fs s;
  drv_mkfile d dir name mode uid gid fs s := if d =? FATFS then fat_mkfile dir name mode uid gid fs s else @drv_mkfile _ other d dir name mode uid gid fs s;
  drv_rmnode d v s := if d =? FATFS then fat_rmnode v s else @drv_rmnode _ other d v s;
  op_open o v fl s := if o =? FATFS_OPS then fat_open v fl s else @op_open _ other o v fl s;
  op_read o v b n off s := if o =? FATFS_OPS then fat_read v b n off s else @op_read _ other o v b n off s;
  op_write o v b n off s := if o =? FATFS_OPS then fat_write v b n off s else @op_write _ other o v b n off s;
  op_ioctl o v r dt s := if o =? FATFS_OPS then fat_ioctl v r dt s else @op_ioctl _ other o v r dt s;
  op_mmap o := if o =? FATFS_OPS then None else @op_mmap _ other o |}.
End drivers.

(** ** What a volume holds *)
Section volume.
Implicit Types (img : Z -> list Z) (ctx : FAT32Ctx) (l : list Z).

(** [n] sectors from [l] on. *)
Definition sectors img (i n : Z) : list Z := concat ((fun k => img (i + Z.of_nat k)) <$> seq 0 (Z.to_nat n)).
Definition fat_entry img ctx (c : Z) : Z := let '(sec, off) := entry_place c ctx in le (take 4 (drop (Z.to_nat off) (img sec))).
Definition cluster_data img ctx (c : Z) : list Z := sectors img (fat_cluster_to_sector c ctx) ctx.(sectors_per_cluster).
Definition in_use ctx (c : Z) : bool := (c >=? 2) && (c <=? ctx.(cluster_count)).
(** [l] are the clusters behind [c] in its file. *)
Fixpoint links img ctx (c : Z) l : Prop :=
  match l with
  | [] => in_use ctx (fat_entry img ctx c) = false
  | c' :: l => fat_entry img ctx c = c' /\ in_use ctx c' = true /\ links img ctx c' l
  end.
Definition file_data img ctx (c : Z) l : list Z := concat (cluster_data img ctx <$> c :: l).

Record geometry img ctx : Prop := {
  ge_type : ctx.(type) = FAT32;
  ge_sector : 0 < ctx.(sectorsize) < 2 ^ 16 /\ (4 | ctx.(sectorsize));
  ge_spc : 0 < ctx.(sectors_per_cluster) < 2 ^ 8;
  ge_cluster : ctx.(clustersize) = ctx.(sectors_per_cluster) * ctx.(sectorsize);
  ge_img : forall i, Z.of_nat (length (img i)) = ctx.(sectorsize) /\ Forall is_byte (img i) }.

Lemma sectors_length img ctx i n : geometry img ctx -> 0 <= n -> Z.of_nat (length (sectors img i n)) = n * ctx.(sectorsize).
Proof.
  intros Hg Hn. unfold sectors. replace n with (Z.of_nat (Z.to_nat n)) at 2 by lia. generalize (Z.to_nat n) as k. intros k.
  assert (Hs : forall k j, Z.of_nat (length (concat ((fun k => img (i + Z.of_nat k)) <$> seq j k))) = Z.of_nat k * sectorsize ctx).
  { clear k. induction k as [|k IH]; intros j; [done|]. cbn [seq fmap list_fmap concat]. rewrite length_app, Nat2Z.inj_add, IH. destruct (ge_img _ _ Hg (i + Z.of_nat j)) as [-> _]. lia. }
  apply Hs.
Qed.
Lemma cluster_length img ctx c : geometry img ctx -> Z.of_nat (length (cluster_data img ctx c)) = ctx.(clustersize).
Proof. intros Hg. pose proof (ge_spc _ _ Hg). unfold cluster_data. rewrite (sectors_length img ctx) by (done || lia). by rewrite (ge_cluster _ _ Hg). Qed.

(** An entry of the table is inside its sector. *)
Lemma entry_sector ctx c : is_u32 (entry_place c ctx).1.
Proof. apply u32_range. Qed.
Lemma entry_off ctx c : ctx.(type) = FAT32 -> 0 < ctx.(sectorsize) -> (4 | ctx.(sectorsize)) ->
  let off := (entry_place c ctx).2 in 0 <= off /\ off + 4 <= ctx.(sectorsize).
Proof.
  intros Ht Hs [k Hk]. unfold entry_place. rewrite decide_True by done. cbn [snd]. pose proof (Z.mod_pos_bound (u32 (c * 4)) (sectorsize ctx) Hs) as Hb.
  assert (Hd : (4 | u32 (c * 4) mod sectorsize ctx)).
  { rewrite Z.mod_eq by lia. apply Z.divide_sub_r; [|rewrite Hk; exists (k * (u32 (c * 4) / (k * 4))); lia].
    unfold u32. rewrite Z.mod_eq by lia. apply Z.divide_sub_r; [by exists c|]. change (2 ^ 32) with (2 ^ 30 * 4). exists (2 ^ 30 * (c * 4 / (2 ^ 30 * 4))). lia. }
  destruct Hd as [j Hj]. lia.
Qed.
Lemma fat_entry_range img ctx c : geometry img ctx -> 0 <= fat_entry img ctx c < 2 ^ 32.
Proof.
  intros Hg. destruct (ge_sector _ _ Hg) as [Hs Hd]. pose proof (entry_off ctx c (ge_type _ _ Hg) ltac:(lia) Hd) as Ho. unfold fat_entry.
  destruct (entry_place c ctx) as [sec off]. cbn [snd] in Ho. destruct (ge_img _ _ Hg sec) as [Hl Hb].
  pose proof (le_bound (take 4 (drop (Z.to_nat off) (img sec)))) as H. rewrite length_take, length_drop in H. rewrite Nat.min_l in H by lia.
  apply H. by apply Forall_take, Forall_drop.
Qed.
End volume.

Section reading.
Context {H X : Type} `{AllocatorLaws H} `{!BlockDevices X} `{!BlockDrivers (vstate H (storage (fatstate X)))}.
Notation vstate := (vstate H (storage (fatstate X))).
Implicit Types (s : vstate) (img : Z -> list Z) (ctx : FAT32Ctx) (l : list Z).

(** The partition gives the sectors of [img], whatever has been read. *)
Definition part_holds s (part : Z) img : Prop :=
  forall s' i n, s'.(drv) = s.(drv) -> is_u32 i -> 0 < n -> part_read part i n s' = Ret (s', (0, sectors img i n)).

Section fixed.
Context (s0 : vstate) img ctx (Hg : geometry img ctx) (Hp : part_holds s0 ctx.(blkdev) img).

Lemma read_into_spec size i n s : s.(drv) = s0.(drv) -> is_u32 i -> 0 < n -> n * ctx.(sectorsize) <= size ->
  read_into size ctx.(blkdev) i n s = Ret (s, (0, sectors img i n)).
Proof.
  intros Hs Hi Hn Hsz. unfold read_into. rewrite Hp by done. rewrite bind_Ret. cbn [snd].
  rewrite (sectors_length img ctx) by (done || lia). by rewrite (proj2 (Z.leb_le _ _)).
Qed.
Lemma entry_spec c s : s.(drv) = s0.(drv) -> fat_entry_for_clus ctx.(sectorsize) c ctx s = Ret (s, fat_entry img ctx c).
Proof.
  intros Hs. destruct (ge_sector _ _ Hg) as [Hss Hd]. pose proof (entry_off ctx c (ge_type _ _ Hg) ltac:(lia) Hd) as Ho.
  unfold fat_entry_for_clus, fat_entry. rewrite (proj2 (Z.eqb_neq _ 0)) by lia. pose proof (entry_sector ctx c) as Hsec.
  destruct (entry_place c ctx) as [sec off]. cbn [fst snd] in Ho, Hsec. rewrite read_into_spec by (done || lia). rewrite bind_Ret. cbn [Z.ltb Z.compare].
  assert (E1 : sectors img sec 1 = img sec) by (unfold sectors; change (Z.to_nat 1) with 1%nat; cbn [seq fmap list_fmap concat]; rewrite app_nil_r; f_equal; lia).
  rewrite E1. destruct (ge_img _ _ Hg sec) as [Hl _]. rewrite length_take, length_drop, Nat.min_l by lia. done.
Qed.
Lemma next_clus_spec c s : s.(drv) = s0.(drv) ->
  fat_next_clus ctx.(sectorsize) c ctx s = Ret (s, if in_use ctx (fat_entry img ctx c) then (fat_entry img ctx c, 0) else (c, - EINVAL)).
Proof.
  intros Hs. unfold fat_next_clus. rewrite entry_spec by done. rewrite bind_Ret. cbn [fst snd].
  rewrite u32_small by (apply (fat_entry_range img ctx c Hg)). unfold in_use. by destruct (_ && _).
Qed.

(** Following the chain, with the table's buffer to give back. *)
Lemma jump_spec fb h : forall l n c s, s.(drv) = s0.(drv) -> links img ctx c l -> kfree_ fb (vheap s) = Ret h ->
  match (c :: l) !! n with
  | Some c' => jump_loop n fb c ctx s = Ret (s, (c', 0))
  | None => exists c', jump_loop n fb c ctx s = Ret (set_vheap s h, (c', - EINVAL))
  end.
Proof.
  intros l n. revert l. induction n as [|n IH]; intros l c s Hs Hl Hf; [done|]. cbn [jump_loop]. rewrite next_clus_spec by done. rewrite bind_Ret.
  destruct l as [|c' l]; cbn [links] in Hl.
  - rewrite Hl. cbv beta iota. cbn [Z.ltb Z.compare Z.opp EINVAL lookup list_lookup]. unfold free_block. rewrite Hf, !bind_Ret. by exists c.
  - destruct Hl as (-> & Hu & Hl). rewrite Hu. cbv beta iota. cbn [Z.ltb Z.compare]. by apply IH.
Qed.

(** Clusters from [c] on into the buffer: it takes a cluster behind the last
    one that is read. *)
Lemma read_loop_spec fb cb h1 h2 : forall l k fuel c acc s, s.(drv) = s0.(drv) -> links img ctx c l -> (k < fuel)%nat ->
  Z.of_nat k * ctx.(clustersize) < 2 ^ 32 -> kfree_ cb (vheap s) = Ret h1 -> kfree_ fb h1 = Ret h2 ->
  if decide (k <= length l)%nat then
    read_loop fuel fb cb c (Z.of_nat k * ctx.(clustersize)) acc ctx s =
      Ret (s, (acc ++ concat (cluster_data img ctx <$> take k (c :: l)), 0))
  else exists acc', read_loop fuel fb cb c (Z.of_nat k * ctx.(clustersize)) acc ctx s = Ret (set_vheap s h2, (acc', - EINVAL)).
Proof.
  pose proof (ge_cluster _ _ Hg) as Hc. pose proof (ge_spc _ _ Hg) as Hspc. destruct (ge_sector _ _ Hg) as [Hss _].
  assert (Hcs : 0 < clustersize ctx) by (rewrite Hc; apply Z.mul_pos_pos; lia).
  intros l k. revert l. induction k as [|k IH]; intros l [|fuel] c acc s Hs Hl Hf Hw E1 E2; try lia; cbn [read_loop].
  - rewrite decide_True by lia. change (Z.of_nat 0 * clustersize ctx >? 0) with (0 >? 0). cbn. by rewrite app_nil_r.
  - rewrite (proj2 (Z.gtb_lt _ 0)) by lia. cbn [negb]. rewrite read_into_spec by (done || lia || apply u32_range). rewrite bind_Ret. cbv beta iota. cbn [Z.ltb Z.compare].
    rewrite next_clus_spec by done. rewrite bind_Ret. destruct l as [|c' l]; cbn [links] in Hl.
    + rewrite Hl. rewrite decide_False by (cbn; lia). cbv beta iota. cbn [Z.ltb Z.compare Z.opp EINVAL]. unfold free2, free_block. rewrite E1, !bind_Ret.
      change (vheap (set_vheap s h1)) with h1. rewrite E2, !bind_Ret. by eexists.
    + destruct Hl as (-> & Hu & Hl). rewrite Hu. cbv beta iota. cbn [Z.ltb Z.compare].
      replace (u32 (Z.of_nat (S k) * clustersize ctx - clustersize ctx)) with (Z.of_nat k * clustersize ctx) by (rewrite u32_small; unfold is_u32; lia).
      specialize (IH l fuel c' (acc ++ sectors img (fat_cluster_to_sector c ctx) (sectors_per_cluster ctx)) s Hs Hl ltac:(lia) ltac:(lia) E1 E2).
      cbn [length take fmap list_fmap concat]. destruct (decide (k <= length l)%nat) as [Hk|Hk].
      * rewrite decide_True by lia. rewrite IH. by rewrite <- app_assoc.
      * by rewrite decide_False by lia.
Qed.
End fixed.

(** A node of a mounted volume. *)
Record on_volume s (v : Z) (x : VirtualNode) (f : FileSystem) ctx img : Prop := {
  ov_node : s.(vnodes) !! v = Some x;
  ov_fs : s.(filesystems) !! x.(owner) = Some f;
  ov_ptr : f.(driver_ctx) <> 0;
  ov_ctx : s.(drv).(hw).(ctxs) !! f.(driver_ctx) = Some ctx;
  ov_dev : ctx.(blkdev) <> 0;
  ov_geo : geometry img ctx;
  ov_holds : part_holds s ctx.(blkdev) img;
  ov_alloc : alloc_wf (vheap s) }.

Lemma clusters_needed n cs : 0 < cs -> 0 <= n -> n + cs <= 2 ^ 64 -> Bytes.bytes_align_up64 n cs = (n + cs - 1) / cs * cs.
Proof.
  intros Hc Hn Hl. destruct (Bytes.align_up_spec n cs Hc Hn Hl) as [[k Hk] Hb]. rewrite Hk in *.
  assert (E : (n + cs - 1) / cs = k); [|by rewrite E]. symmetry. apply (Z.div_unique _ _ _ (n + cs - 1 - cs * k)); [left|]; lia.
Qed.
Lemma take_ok {A} (l : list A) n off : 0 <= n -> 0 <= off -> (Z.of_nat (length (take (Z.to_nat n) (drop (Z.to_nat off) l))) =? n) = bool_decide (n = 0 \/ off + n <= Z.of_nat (length l)).
Proof.
  intros Hn Ho. rewrite length_take, length_drop. case_bool_decide as E; [apply Z.eqb_eq|apply Z.eqb_neq]; lia.
Qed.

(** The clusters from the [q]th on. *)
Lemma links_drop img ctx l : forall c0 k c, links img ctx c0 l -> (c0 :: l) !! k = Some c ->
  links img ctx c (drop k l) /\ (k <= length l)%nat /\ c :: drop k l = drop k (c0 :: l).
Proof.
  induction l as [|c1 l IH]; intros c0 [|k] c Hl Ek; cbn in Ek; try done.
  - injection Ek as ->. cbn. split; [done|]. split; [lia|done].
  - injection Ek as ->. cbn. split; [done|]. split; [lia|done].
  - cbn [links] in Hl. destruct Hl as (_ & _ & Hl). destruct (IH c1 k c Hl Ek) as (A & B & C). cbn. split; [done|]. split; [lia|exact C].
Qed.
Lemma clusters_length img ctx cl : geometry img ctx -> Z.of_nat (length (concat (cluster_data img ctx <$> cl))) = Z.of_nat (length cl) * ctx.(clustersize).
Proof.
  intros Hg. induction cl as [|a cl IH]; [done|]. cbn [fmap list_fmap concat]. rewrite length_app, Nat2Z.inj_add, IH, cluster_length by done. cbn [length]. lia.
Qed.
(** Bytes of [w] clusters from the [q]th on, as bytes of the file. *)
Lemma file_slice img ctx c l q w n off : geometry img ctx -> 0 <= q -> 0 <= w -> 0 <= off -> q + w <= Z.of_nat (length l) + 1 ->
  let cs := ctx.(clustersize) in
  let data := concat (cluster_data img ctx <$> take (Z.to_nat w) (drop (Z.to_nat q) (c :: l))) in
  Z.of_nat (length data) = w * cs /\
  (0 <= n -> off + n <= w * cs -> take (Z.to_nat n) (drop (Z.to_nat off) data) = take (Z.to_nat n) (drop (Z.to_nat (q * cs + off)) (file_data img ctx c l))).
Proof.
  intros Hg Hq Hw Ho Hqw cs data. assert (Hdl : Z.of_nat (length data) = w * cs).
  { unfold data. rewrite clusters_length, length_take, length_drop by done. cbn [length]. fold cs. f_equal. lia. }
  split; [done|]. intros Hn Hfit. unfold file_data. set (cl := c :: l) in *.
  assert (Hspl : concat (cluster_data img ctx <$> cl) = concat (cluster_data img ctx <$> take (Z.to_nat q) cl) ++ data ++
    concat (cluster_data img ctx <$> drop (Z.to_nat w) (drop (Z.to_nat q) cl))).
  { unfold data. rewrite <- !concat_app, <- !fmap_app, take_drop, take_drop. done. }
  rewrite Hspl. set (d0 := concat (cluster_data img ctx <$> take (Z.to_nat q) cl)).
  assert (H0l : Z.of_nat (length d0) = q * cs) by (unfold d0; rewrite clusters_length, length_take, Nat.min_l by (done || (unfold cl; cbn [length]; lia)); fold cs; by rewrite Z2Nat.id).
  replace (Z.to_nat (q * cs + off)) with (length d0 + Z.to_nat off)%nat by (pose proof (cluster_length img ctx c Hg) as Hc; fold cs in Hc; nia).
  rewrite drop_app_add, drop_app_le by lia. rewrite take_app_le; [done|]. rewrite length_drop. lia.
Qed.

(** What [fat_read] does with [n] bytes at [off] inside a file of the
    clusters [c :: l]: it fails when one of them comes out of the last
    cluster, and takes the bytes [off] behind the cluster of [off] otherwise. *)
Lemma fat_read_spec s v x f ctx img l buf n off : on_volume s v x f ctx img -> links img ctx x.(vn_n) l ->
  0 < n < 2 ^ 31 -> 0 <= off < x.(vn_size) -> x.(vn_size) < 2 ^ 31 ->
  let n' := Z.min n (x.(vn_size) - off) in
  let cs := ctx.(clustersize) in
  let q := off / cs in
  let w := (n' + off mod cs + cs - 1) / cs in
  let at_ := q * cs + off in
  exists h, owned (vheap s) h [] /\
    (fat_read v buf n off s = Ret (set_vheap s h, - ENOMEM) \/
     if decide (Z.of_nat (length l) < q + w) then fat_read v buf n off s = Ret (set_vheap s h, - EINVAL)
     else if decide (at_ + n' <= (q + w) * cs) then
       fat_read v buf n off s =
         Ret (set_umem (set_vheap s h) (user_copy_to s.(umem) buf (take (Z.to_nat n') (drop (Z.to_nat at_) (file_data img ctx x.(vn_n) l)))).1, n')
     else fat_read v buf n off s = Undef).
Proof.
  intros Hv Hl Hn Hoff Hsz n' cs q w pos. pose proof Hv as [Hx Hf Hp Hc Hd Hg Hh Hwf].
  pose proof (ge_cluster _ _ Hg) as Ecs. pose proof (ge_spc _ _ Hg) as Hspc. destruct (ge_sector _ _ Hg) as [Hss _]. fold cs in Ecs.
  assert (Hcs : 0 < cs < 2 ^ 24) by (rewrite Ecs; nia). clear Ecs.
  assert (Hn' : 0 < n' /\ n' < 2 ^ 31) by lia. pose proof (Z.mod_pos_bound off cs ltac:(lia)) as Hm.
  assert (Hw : w * cs = Bytes.bytes_align_up64 (n' + off mod cs) cs) by (unfold w; rewrite clusters_needed; lia).
  destruct (Bytes.align_up_spec (n' + off mod cs) cs) as [_ Hwb]; [lia..|]. rewrite <- Hw in Hwb.
  assert (Hw0 : 0 < w) by nia. assert (Hq0 : 0 <= q) by (apply Z.div_pos; lia).
  unfold fat_read. rewrite Hx. cbn [deref]. rewrite bind_Ret, (proj2 (Z.eqb_neq n 0)) by lia.
  rewrite (u32_small off) by (unfold is_u32; lia). rewrite Z.geb_leb, (proj2 (Z.leb_gt _ _)) by lia. cbn [orb]. rewrite Hf. cbn [deref]. rewrite bind_Ret.
  rewrite (proj2 (Z.eqb_neq _ 0) Hp). cbn [negb assert_]. rewrite bind_Ret. unfold get_ctx. rewrite Hc. cbn [deref]. rewrite bind_Ret.
  rewrite (proj2 (Z.eqb_neq _ 0) Hd). cbn [negb assert_]. rewrite bind_Ret. fold cs. rewrite (u32_small (vn_size x - off)) by (unfold is_u32; lia). fold n'. cbv zeta.
  pose proof (owned_nil (vheap s) Hwf) as Ho.
  destruct (malloc_law (vheap s) (sectorsize ctx) Hwf) as (h1 & fb & -> & Hwf1 & Hcase); [lia|]. rewrite bind_Ret. cbn [fst snd].
  destruct Hcase as [[-> Hl1]|(Hfb & Hfr & Hl1)].
  { exists h1. split; [by eapply owned_same|]. by left. }
  rewrite (proj2 (Z.eqb_neq fb 0) Hfb), (proj2 (Z.eqb_neq cs 0)) by lia. pose proof (owned_more _ _ _ _ _ _ Ho Hwf1 Hfb Hfr Hl1) as Ho1.
  destruct (free_head _ _ _ _ Ho1) as (hf & Ehf & Hof).
  fold q. pose proof (jump_spec s img ctx Hg Hh fb hf l (Z.to_nat q) (vn_n x) (set_vheap s h1) eq_refl Hl Ehf) as Hj.
  destruct ((vn_n x :: l) !! Z.to_nat q) as [c|] eqn:Eq.
  2:{ destruct Hj as (c' & ->). exists hf. split; [done|]. right. apply lookup_ge_None in Eq. cbn [length] in Eq.
      rewrite decide_True by lia. by rewrite bind_Ret. }
  rewrite Hj, bind_Ret. cbv beta iota. cbn [Z.ltb Z.compare]. clear Hj.
  rewrite (u32_small (n' + off mod cs)) by (unfold is_u32; lia). rewrite <- Hw, (u32_small (w * cs)) by (unfold is_u32; lia).
  change (vheap (set_vheap s h1)) with h1. destruct (malloc_law h1 (w * cs) Hwf1) as (h2 & cb & -> & Hwf2 & Hcase); [lia|]. rewrite bind_Ret. cbn [fst snd].
  change (set_vheap (set_vheap s h1) h2) with (set_vheap s h2).
  destruct Hcase as [[-> Hl2]|(Hcb & Hfr2 & Hl2)].
  { cbn [Z.eqb]. destruct (free_head (vheap s) h2 fb []) as (h3 & E3 & Ho3); [by eapply owned_same|].
    unfold free_block. change (vheap (set_vheap s h2)) with h2. rewrite E3, !bind_Ret. exists h3. split; [done|by left]. }
  rewrite (proj2 (Z.eqb_neq cb 0) Hcb). pose proof (owned_more _ _ _ _ _ _ Ho1 Hwf2 Hcb Hfr2 Hl2) as Ho2.
  destruct (free_head _ _ _ _ Ho2) as (h3 & E3 & Ho3). destruct (free_head _ _ _ _ Ho3) as (h4 & E4 & Ho4).
  destruct (free_head _ _ _ _ (owned_perm _ _ _ _ Ho2 (Permutation_swap fb cb []))) as (h5 & E5 & Ho5). destruct (free_head _ _ _ _ Ho5) as (h6 & E6 & Ho6).
  destruct (links_drop img ctx l _ _ c Hl Eq) as (Hlq & Hqle & Edrop).
  pose proof (read_loop_spec s img ctx Hg Hh fb cb h3 h4 (drop (Z.to_nat q) l) (Z.to_nat w) (S (Z.to_nat (w * cs))) c [] (set_vheap s h2) eq_refl Hlq
    ltac:(nia) ltac:(fold cs; lia) E3 E4) as Hr. fold cs in Hr. rewrite Z2Nat.id in Hr by lia. rewrite length_drop in Hr.
  destruct (decide (Z.to_nat w <= length l - Z.to_nat q)%nat) as [Hk|Hk].
  2:{ destruct Hr as (acc & ->). rewrite bind_Ret. cbv beta iota. cbn [Z.ltb Z.compare Z.opp EINVAL]. exists h4. split; [done|]. right. by rewrite decide_True by lia. }
  rewrite Hr, bind_Ret. cbv beta iota. cbn [Z.ltb Z.compare app]. clear Hr. exists h6. split; [done|]. right. rewrite decide_False by lia.
  set (data := concat (cluster_data img ctx <$> take (Z.to_nat w) (c :: drop (Z.to_nat q) l))).
  destruct (file_slice img ctx (vn_n x) l q w n' off Hg Hq0 ltac:(lia) ltac:(lia) ltac:(lia)) as [Hdl Hslice]. cbv zeta in Hdl, Hslice. rewrite <- Edrop in Hdl, Hslice.
  fold data cs in Hdl, Hslice.
  rewrite take_ok by lia. rewrite Hdl.
  assert (Epos : pos + n' <= (q + w) * cs <-> off + n' <= w * cs) by (unfold pos; lia).
  destruct (decide (pos + n' <= (q + w) * cs)) as [Hfit|Hfit].
  2:{ rewrite bool_decide_eq_false_2 by lia. done. }
  rewrite bool_decide_eq_true_2 by lia.
  rewrite Hslice by lia. fold pos. unfold free2, free_block. change (vheap (set_umem (set_vheap s h2) _)) with h2. rewrite E5, !bind_Ret.
  change (vheap (set_vheap (set_umem (set_vheap s h2) _) h5)) with h5. rewrite E6, !bind_Ret.
  rewrite i32_small by (unfold is_i32; lia). done.
Qed.
End reading.

(** ** Long names on disk *)
Section lfn.
Implicit Types (p name codes dest : list Z).

(** The codes of a piece of at most 13 characters: the characters, a null if
    there is room, then padding; and the entry that holds them. *)
Definition lfn_codes p : list Z := take 13 (p ++ 0 :: replicate 13 0xFFFF).
Definition word (c : Z) : list Z := [c mod 256; c / 256].
Definition code_words codes (k n : nat) : list Z := concat ((fun j => word (nth j codes 0xFFFF)) <$> seq k n).
Definition lfn_entry (ord chk : Z) p : list Z :=
  let codes := lfn_codes p in
  [ord] ++ code_words codes 0 5 ++ [FAT_ENTRY_LFN; 0; chk] ++ code_words codes 5 6 ++ [0; 0] ++ code_words codes 11 2.
(** The name in pieces, the last one first; the first entry is marked. *)
Fixpoint pieces (k : nat) name : list (list Z) := match k with O => [] | S k => take 13 name :: pieces k (drop 13 name) end.
Definition lfn_count name : nat := Z.to_nat ((Z.of_nat (length name) + 12) / 13).
Definition lfn_entries name (chk : Z) : list (list Z) :=
  let n := lfn_count name in
  imap (fun j p => lfn_entry (if (j =? 0)%nat then Z.of_nat n + 0x40 else Z.of_nat (n - j)) chk p) (rev (pieces n name)).

Lemma lfn_codes_length p : length (lfn_codes p) = 13%nat.
Proof. unfold lfn_codes. rewrite length_take, length_app. cbn [length]. rewrite length_replicate. lia. Qed.
Lemma word_value c : 0 <= c < 2 ^ 16 -> le (word c) = c.
Proof. intros Hc. unfold word, le. cbn [foldr]. pose proof (Z.div_mod c 256). lia. Qed.
Lemma lfn_codes_range p : Forall (fun c => 0 < c < 256) p -> Forall (fun c => 0 <= c < 2 ^ 16) (lfn_codes p).
Proof.
  intros Hp. apply Forall_take, Forall_app_2; [eapply Forall_impl; [exact Hp|]; intros ? ?; cbn in *; lia|]. constructor; [lia|]. apply Forall_replicate. lia.
Qed.

(** The three parts of the entry are the codes. *)
Lemma entry_names ord chk p : Forall (fun c => 0 < c < 256) p -> let e := lfn_entry ord chk p in
  (forall j, (j < 5)%nat -> name1 e j = nth j (lfn_codes p) 0xFFFF) /\
  (forall j, (j < 6)%nat -> name2 e j = nth (5 + j) (lfn_codes p) 0xFFFF) /\
  (forall j, (j < 2)%nat -> name3 e j = nth (11 + j) (lfn_codes p) 0xFFFF) /\
  order e = ord /\ attributes e = FAT_ENTRY_LFN /\ length e = 32%nat.
Proof.
  intros Hp e. pose proof (lfn_codes_range p Hp) as Hr. pose proof (lfn_codes_length p) as Hl. unfold e, lfn_entry. clear e. revert Hr Hl. generalize (lfn_codes p) as cs. intros cs Hr Hl.
  do 13 (destruct cs as [|? cs]; [discriminate Hl|]). destruct cs; [|discriminate Hl].
  assert (Hw : forall c, In c [z; z0; z1; z2; z3; z4; z5; z6; z7; z8; z9; z10; z11] -> c mod 256 + 256 * (c / 256 + 256 * 0) = c).
  { intros c Hc%list_elem_of_In. rewrite Forall_forall in Hr. specialize (Hr c Hc). pose proof (Z.div_mod c 256). lia. }
  unfold name1, name2, name3, field, order, attributes.
  repeat split; try (intros j Hj; do 6 (destruct j as [|j]; [first [exfalso; lia | cbn -[Z.mul Z.add Z.div Z.modulo]; apply Hw; cbn; tauto]|]); lia).
Qed.

(** [i] characters of the piece written. *)
Definition partly p (b : Z) dest (i : nat) : list Z := take (Z.to_nat b) dest ++ take i p ++ drop (Z.to_nat b + i) dest.
Lemma partly_step p b dest i c : 0 <= b -> p !! i = Some c -> Z.of_nat (length dest) >= b + Z.of_nat (length p) ->
  is_Some (partly p b dest i !! Z.to_nat (b + Z.of_nat i)) /\ <[Z.to_nat (b + Z.of_nat i) := c]> (partly p b dest i) = partly p b dest (S i).
Proof.
  intros Hb Hc Hl. pose proof (lookup_lt_Some _ _ _ Hc) as Hi. unfold partly.
  assert (Hd : exists d, dest !! (Z.to_nat b + i)%nat = Some d) by (apply lookup_lt_is_Some_2; lia). destruct Hd as [d Hd].
  rewrite (drop_S _ _ _ Hd), app_assoc. assert (El : length (take (Z.to_nat b) dest ++ take i p) = Z.to_nat (b + Z.of_nat i)) by (rewrite length_app, !length_take; lia).
  split; [rewrite list_lookup_middle by done; by eexists|]. rewrite insert_app_r_alt by lia. rewrite El, Nat.sub_diag. cbn [insert list_insert].
  rewrite (take_S_r _ _ _ Hc), <- !app_assoc. cbn [app]. do 4 f_equal. lia.
Qed.
Lemma chars_spec p b dest (a : nat) (part : nat -> Z) : 0 <= b -> Forall (fun c => 0 < c < 256) p -> Z.of_nat (length dest) >= b + Z.of_nat (length p) ->
  forall n k, (forall j, (j < n)%nat -> part (k + j)%nat = nth (a + k + j) (lfn_codes p) 0xFFFF) -> (a + k + n <= 13)%nat ->
  lfn_chars n k part b (Z.of_nat (Nat.min (a + k) (length p))) (partly p b dest (Nat.min (a + k) (length p))) =
    Ret (Z.of_nat (Nat.min (a + k + n) (length p)), partly p b dest (Nat.min (a + k + n) (length p))).
Proof.
  intros Hb Hp Hl. induction n as [|n IH]; intros k Hn Ha; cbn [lfn_chars]; [by rewrite Nat.add_0_r|].
  pose proof (Hn 0%nat ltac:(lia)) as Hk. rewrite !Nat.add_0_r in Hk. rewrite Hk. destruct (decide (a + k < length p)%nat) as [Hlt|Hge].
  - destruct (lookup_lt_is_Some_2 p (a + k) Hlt) as [c Hc]. assert (Ec : nth (a + k) (lfn_codes p) 0xFFFF = c).
    { apply nth_lookup_Some. unfold lfn_codes. rewrite lookup_take_lt by lia. by apply lookup_app_l_Some. }
    rewrite Ec. pose proof (proj1 (Forall_lookup _ _) Hp _ _ Hc) as Hr. cbn in Hr. rewrite (proj2 (Z.eqb_neq c 0)), (proj2 (Z.eqb_neq c 0xFFFF)) by lia. cbn [orb].
    rewrite Nat.min_l by lia. destruct (partly_step p b dest (a + k) c Hb Hc Hl) as [[d Hd] Hi]. rewrite Hd. cbn [deref]. rewrite bind_Ret.
    change 0xFF with (Z.ones 8). rewrite Z.land_ones, Z.mod_small by lia. rewrite Hi.
    replace (Z.of_nat (a + k) + 1) with (Z.of_nat (Nat.min (a + S k) (length p))) by lia. replace (S (a + k)) with (Nat.min (a + S k) (length p)) by lia.
    rewrite IH; [do 3 f_equal; lia| |lia]. intros j Hj. replace (S k + j)%nat with (k + S j)%nat by lia. rewrite Hn by lia. f_equal. lia.
  - assert (Hstop : nth (a + k) (lfn_codes p) 0xFFFF = 0 \/ nth (a + k) (lfn_codes p) 0xFFFF = 0xFFFF).
    { unfold lfn_codes. destruct (take 13 (p ++ 0 :: replicate 13 0xFFFF) !! (a + k)%nat) as [c|] eqn:E; [|right; apply lookup_ge_None in E; by apply nth_overflow].
      rewrite (nth_lookup_Some _ _ _ _ E). apply lookup_take_Some in E as [E _]. rewrite lookup_app_r in E by lia.
      destruct (a + k - length p)%nat as [|m]; [by left; injection E|]. apply (proj1 (lookup_replicate 13 _ _ m)) in E as [-> _]. by right. }
    replace ((_ =? 0) || (_ =? 65535)) with true by (symmetry; destruct Hstop as [-> | ->]; done).
    do 3 f_equal; lia.
Qed.
Lemma part_spec ord chk p b dest : 0 <= b -> Forall (fun c => 0 < c < 256) p -> (length p <= 13)%nat -> Z.of_nat (length dest) >= b + Z.of_nat (length p) ->
  lfn_part (lfn_entry ord chk p) b dest = Ret (take (Z.to_nat b) dest ++ p ++ drop (Z.to_nat b + length p) dest).
Proof.
  intros Hb Hp Hl Hd. destruct (entry_names ord chk p Hp) as (H1 & H2 & H3 & _). unfold lfn_part.
  assert (E0 : dest = partly p b dest 0) by (unfold partly; rewrite Nat.add_0_r, take_0; cbn; by rewrite take_drop). rewrite E0 at 1.
  pose proof (chars_spec p b dest 0 (name1 (lfn_entry ord chk p)) Hb Hp Hd 5 0 ltac:(intros j Hj; by apply H1) ltac:(lia)) as A. change (Nat.min (0 + 0) (length p)) with 0%nat in A. change (Z.of_nat 0) with 0 in A. change (0 + 0 + 5)%nat with 5%nat in A. rewrite A, bind_Ret. cbn [fst snd].
  pose proof (chars_spec p b dest 5 (name2 (lfn_entry ord chk p)) Hb Hp Hd 6 0 ltac:(intros j Hj; by apply H2) ltac:(lia)) as B. change (5 + 0)%nat with 5%nat in B. change (5 + 6)%nat with 11%nat in B. rewrite B, bind_Ret. cbn [fst snd].
  pose proof (chars_spec p b dest 11 (name3 (lfn_entry ord chk p)) Hb Hp Hd 2 0 ltac:(intros j Hj; by apply H3) ltac:(lia)) as C. change (11 + 0)%nat with 11%nat in C. change (11 + 2)%nat with 13%nat in C. rewrite C, bind_Ret. cbn [fst snd].
  rewrite Nat.min_r by lia. unfold partly. by rewrite firstn_all.
Qed.
End lfn.

Lemma mark_removed n : (1 <= n <= 63)%nat -> Z.land (Z.of_nat n + 0x40) (Z.lnot 0x40) = Z.of_nat n.
Proof.
  intros Hn. assert (Hall : forallb (fun k => Z.land (Z.of_nat k + 0x40) (Z.lnot 0x40) =? Z.of_nat k) (seq 1 63) = true) by (by vm_compute).
  rewrite forallb_forall in Hall. apply Z.eqb_eq, Hall, in_seq. lia.
Qed.

Section lfn_loop.
Context {H X : Type} `{!Allocator H} `{!BlockDevices X}.
Notation vstate := (vstate H (storage (fatstate X))).
Context (name : list Z) (chk : Z) (short pre post : list Z) (i : nat) (ctx : FAT32Ctx) (c : Z).
Context (Hname : Forall (fun c => 0 < c < 256) name) (Hne : name <> []) (Hlen : (length name <= 13 * 63)%nat)
  (Hshort : length short = 32%nat) (Hsa : attributes short <> FAT_ENTRY_LFN) (Hpre : length pre = (32 * i)%nat).
Notation n := (lfn_count name).
Context (Hfit : Z.of_nat (i + n + 1) <= ctx.(entries_per_clusterdir)) (Hsmall : (i + n < 256)%nat).

Lemma count_bounds : (13 * (n - 1) < length name <= 13 * n)%nat /\ (1 <= n <= 63)%nat.
Proof.
  unfold lfn_count. assert (length name <> 0%nat) by (destruct name; [done|cbn; lia]).
  pose proof (Z.div_mod (Z.of_nat (length name) + 12) 13). pose proof (Z.mod_pos_bound (Z.of_nat (length name) + 12) 13). lia.
Qed.
Lemma pieces_lookup k : forall m t, (m < k)%nat -> pieces k t !! m = Some (take 13 (drop (13 * m) t)).
Proof.
  induction k as [|k IH]; intros [|m] t Hm; try lia; cbn [pieces lookup list_lookup]; [done|]. etransitivity; [apply IH; lia|]. rewrite drop_drop. do 3 f_equal. lia.
Qed.
Lemma pieces_length k t : length (pieces k t) = k.
Proof. revert t. induction k as [|k IH]; intros t; cbn; [done|]. by rewrite IH. Qed.
Lemma entries_lookup j : (j < n)%nat -> exists ord, lfn_entries name chk !! j = Some (lfn_entry ord chk (take 13 (drop (13 * (n - 1 - j)) name))) /\
  (j = 0%nat -> ord = Z.of_nat n + 0x40).
Proof.
  intros Hj. unfold lfn_entries. rewrite list_lookup_imap.
  exists (if (j =? 0)%nat then Z.of_nat n + 0x40 else Z.of_nat (n - j)). split; [|by intros ->].
  replace (rev (pieces n name)) with (reverse (pieces n name)) by (unfold reverse; by rewrite <- rev_alt). 
  rewrite reverse_lookup by (by rewrite pieces_length). rewrite pieces_length, pieces_lookup by lia. cbn [fmap option_fmap option_map]. do 4 f_equal. lia.
Qed.
Lemma entries_length : length (lfn_entries name chk) = n.
Proof. unfold lfn_entries. by rewrite length_imap, length_rev, pieces_length. Qed.
Lemma piece_ok b : Forall (fun c => 0 < c < 256) (take 13 (drop b name)) /\ (length (take 13 (drop b name)) <= 13)%nat.
Proof. split; [by apply Forall_take, Forall_drop|rewrite length_take; lia]. Qed.

(** The name and the room behind it; what has been read of it when [k] pieces
    are missing. *)
Definition full : list Z := name ++ replicate (13 * n + 1 - length name) 0.
Definition known (k : nat) : list Z := replicate (13 * k) 0 ++ drop (13 * k) full.
Lemma known_all : known n = replicate (13 * n + 1) 0.
Proof.
  destruct count_bounds as [Hb _]. unfold known, full. rewrite drop_app_ge by lia. rewrite drop_replicate, <- replicate_add. f_equal. lia.
Qed.
Lemma known_length k : (k <= n)%nat -> length (known k) = (13 * n + 1)%nat.
Proof. intros Hk. destruct count_bounds as [Hb _]. unfold known, full. rewrite length_app, length_drop, length_app, !length_replicate. lia. Qed.
Lemma known_step k : (k < n)%nat -> let p := take 13 (drop (13 * k) name) in
  take (13 * k) (known (S k)) ++ p ++ drop (13 * k + length p) (known (S k)) = known k.
Proof.
  intros Hk p. destruct count_bounds as [Hb _]. pose proof (piece_ok (13 * k)) as [_ Hp]. fold p in Hp. unfold known.
  rewrite take_app_le, take_replicate, Nat.min_l by (rewrite ?length_replicate; lia). f_equal.
  rewrite drop_app_le by (rewrite length_replicate; lia). rewrite drop_replicate.
  replace (13 * S k - (13 * k + length p))%nat with (13 - length p)%nat by lia. rewrite app_assoc.
  replace (13 * S k)%nat with (13 * k + 13)%nat by lia. rewrite <- drop_drop.
  transitivity (take 13 (drop (13 * k) full) ++ drop 13 (drop (13 * k) full)); [|apply take_drop]. f_equal.
  unfold full. rewrite drop_app_le by lia. rewrite take_app, take_replicate. unfold p. f_equal. f_equal. rewrite length_take. rewrite length_drop. lia.
Qed.

(** The entries in the cluster. *)
Definition on_disk : list Z := pre ++ concat (lfn_entries name chk ++ [short]) ++ post.
Lemma entries_32 : Forall (fun e => length e = 32%nat) (lfn_entries name chk ++ [short]).
Proof.
  apply Forall_app_2; [|by apply Forall_singleton]. apply Forall_lookup. intros j e He. pose proof (lookup_lt_Some _ _ _ He) as Hj. rewrite entries_length in Hj.
  destruct (entries_lookup j Hj) as (ord & E & _). rewrite E in He. apply (inj Some) in He. subst e. by apply entry_names, piece_ok.
Qed.
Lemma read_one_spec j e : (lfn_entries name chk ++ [short]) !! j = Some e -> fat_read_one_entry on_disk (Z.of_nat (i + j)) = Ret e.
Proof.
  intros Hj. unfold fat_read_one_entry, on_disk. replace (Z.to_nat (Z.of_nat (i + j) * 32)) with (length pre + 32 * j)%nat by lia. rewrite drop_app_add.
  assert (Ht : take 32 (drop (32 * j) (concat (lfn_entries name chk ++ [short]) ++ post)) = e /\ length e = 32%nat).
  { pose proof entries_32 as Hall. revert j Hj. induction Hall as [|e0 es He0 _ IH]; intros j Hj; [done|]. destruct j as [|j].
    - injection Hj as ->. cbn [concat]. rewrite Nat.mul_0_r, drop_0, <- app_assoc. rewrite take_app_length' by done. done.
    - cbn [concat]. rewrite <- app_assoc. replace (32 * S j)%nat with (length e0 + 32 * j)%nat by lia. rewrite drop_app_add. by apply IH. }
  destruct Ht as [-> Hl]. by rewrite Hl.
Qed.

Lemma loc_next j : (j < n)%nat -> forall b, fat_advance_loc ctx (mkLoc c (Z.of_nat (i + j)) b) = mkLoc c (Z.of_nat (i + S j)) false.
Proof.
  intros Hj b. unfold fat_advance_loc. cbn [loc_offset loc_cluster]. rewrite (proj2 (Z.eqb_neq _ _)) by lia. f_equal. rewrite u8_small by (unfold is_u8; lia). lia.
Qed.

Lemma lfns_spec bufsize (s : vstate) : forall m j e fuel, (j + m = n)%nat -> (m < fuel)%nat -> (lfn_entries name chk ++ [short]) !! j = Some e ->
  fat_read_lfns fuel bufsize on_disk (fat_advance_loc ctx (mkLoc c (Z.of_nat (i + j)) false)) ctx (known m) e (Z.of_nat n) (Z.of_nat j) s =
    Ret (s, (fat_advance_loc ctx (mkLoc c (Z.of_nat (i + n)) false), known 0, short, 0)).
Proof.
  destruct count_bounds as [Hb Hn]. induction m as [|m IH]; intros j e [|fuel] Hj Hf He; try lia; cbn [fat_read_lfns].
  - assert (j = n) by lia. subst j. rewrite lookup_app_r in He by (rewrite entries_length; lia). rewrite entries_length, Nat.sub_diag in He. injection He as <-.
    by rewrite (proj2 (Z.eqb_neq _ _) Hsa).
  - pose proof He as He'. rewrite lookup_app_l in He' by (rewrite entries_length; lia). destruct (entries_lookup j) as (ord & E & _); [lia|]. rewrite E in He'. apply (inj Some) in He'. subst e. clear E.
    replace (n - 1 - j)%nat with m by lia. clear He. set (p := take 13 (drop (13 * m) name)). destruct (piece_ok (13 * m)) as [Hp Hpl]. fold p in Hp, Hpl.
    destruct (entry_names ord chk p Hp) as (_ & _ & _ & _ & Ha & _). rewrite Ha, Z.eqb_refl. cbn [negb].
    rewrite Z.geb_leb, (proj2 (Z.leb_gt _ _)) by lia. replace ((Z.of_nat n - Z.of_nat j - 1) * 13) with (Z.of_nat (13 * m)) by lia.
    rewrite part_spec by (done || lia || (rewrite known_length by lia; lia)). rewrite bind_Ret, Nat2Z.id.
    pose proof (known_step m ltac:(lia)) as Hk. cbv zeta in Hk. fold p in Hk. rewrite Hk. rewrite loc_next by lia. cbn [read_next]. rewrite bind_Ret. cbv beta iota.
    cbn [Z.ltb Z.compare loc_offset]. destruct (lookup_lt_is_Some_2 (lfn_entries name chk ++ [short]) (S j)) as [e' He'].
    { rewrite length_app, entries_length. cbn. lia. }
    rewrite (read_one_spec (S j) e' He'), bind_Ret. replace (Z.of_nat j + 1) with (Z.of_nat (S j)) by lia.
    by rewrite <- (IH (S j) e' fuel) by (done || lia).
Qed.
Lemma long_name_spec bufsize (s : vstate) : exists e dest,
  fat_read_one_entry on_disk (Z.of_nat i) = Ret e /\ attributes e = FAT_ENTRY_LFN /\ fat_lfn_entries_count e = Z.of_nat n /\
  fat_read_lfns (S (S n)) bufsize on_disk (fat_advance_loc ctx (mkLoc c (Z.of_nat i) false)) ctx
    (replicate (Z.to_nat (fat_lfn_name_size e)) 0) e (Z.of_nat n) 0 s =
    Ret (s, (fat_advance_loc ctx (mkLoc c (Z.of_nat (i + n)) false), dest, short, 0)) /\
  until_nul dest = name.
Proof.
  destruct count_bounds as [Hb Hn]. destruct (entries_lookup 0) as (ord & E & Ho); [lia|]. specialize (Ho eq_refl). subst ord.
  set (p := take 13 (drop (13 * (n - 1 - 0)) name)) in E. destruct (piece_ok (13 * (n - 1 - 0))) as [Hp _]. fold p in Hp.
  destruct (entry_names (Z.of_nat n + 0x40) chk p Hp) as (_ & _ & _ & Hord & Ha & _). set (e := lfn_entry (Z.of_nat n + 0x40) chk p) in *.
  assert (Hlk : (lfn_entries name chk ++ [short]) !! 0%nat = Some e) by (by apply lookup_app_l_Some).
  assert (Hc : fat_lfn_entries_count e = Z.of_nat n) by (unfold fat_lfn_entries_count; rewrite Hord; by apply mark_removed).
  exists e, (known 0). split; [|split; [done|split; [done|split]]].
  - rewrite <- (Nat.add_0_r i). by apply read_one_spec.
  - pose proof (lfns_spec bufsize s n 0 e (S (S n)) eq_refl ltac:(lia) Hlk) as Hr.
    rewrite Nat.add_0_r in Hr. change (Z.of_nat 0) with 0 in Hr. rewrite known_all in Hr.
    unfold fat_lfn_name_size. rewrite Hc. replace (Z.to_nat (Z.of_nat n * 13 + 1)) with (13 * n + 1)%nat by lia. exact Hr.
  - change (known 0) with full. unfold full. replace (13 * n + 1 - length name)%nat with (S (13 * n - length name)) by lia.
    by apply until_nul_app.
Qed.
End lfn_loop.

(** ** Short names *)
Lemma until_space_length l : (length (until_space l) <= length l)%nat.
Proof. induction l as [|c l IH]; cbn; [lia|]. case_match; cbn; lia. Qed.
Lemma until_nul_le l : (length (until_nul l) <= length l)%nat.
Proof. induction l as [|c l IH]; cbn; [lia|]. case_match; cbn; lia. Qed.
(** The name and its terminator fit the block of [fat_legacy_name_size]. *)
Lemma legacy_name_fits e : Z.of_nat (length (fat_copy_legacy_name e)) + 1 <= fat_legacy_name_size e.
Proof.
  unfold fat_copy_legacy_name, fat_legacy_name_size. pose proof (until_space_length (name_field e)) as H1. pose proof (until_space_length (ext_field e)) as H2.
  unfold name_field, ext_field in H1, H2. rewrite length_fmap, length_seq in H1, H2.
  fold (name_field e) in H1. fold (ext_field e) in H2.
  pose proof (until_nul_le (lower <$> until_space (name_field e))) as H3. pose proof (until_nul_le (lower <$> until_space (ext_field e))) as H4. rewrite !length_fmap in *.
  destruct (Nat.ltb_spec 0 (length (until_space (ext_field e)))) as [Hlt|Hge].
  - rewrite (proj2 (Z.ltb_lt 0 _)) by lia. rewrite u8_small by (unfold is_u8; lia). rewrite !length_app. cbn [length]. lia.
  - rewrite (proj2 (Z.ltb_ge 0 _)) by lia. rewrite u8_small by (unfold is_u8; lia). lia.
Qed.

(** ** Properties *)

(** C15: reading from a file takes the bytes [off] to [off + n] of its clusters
    (cut to its size) when [off] is in the first one and the last one is not
    touched; as the cluster behind the last one read is asked for, touching
    the file's last cluster, reading a whole file included, is refused with
    [-EINVAL] and nothing is copied; behind the first cluster the bytes come
    from [off] behind the start of the cluster of [off], or from outside the
    buffer.  Both buffers are given back on every path. *)
Theorem fat_read_correct {H X} `{AllocatorLaws H} `{!BlockDevices X} (s : vstate H (storage (fatstate X))) v x f ctx img l buf n off :
  on_volume s v x f ctx img -> links img ctx x.(vn_n) l -> 0 < n < 2 ^ 31 -> 0 <= off < x.(vn_size) -> x.(vn_size) < 2 ^ 31 ->
  let n' := Z.min n (x.(vn_size) - off) in
  let cs := ctx.(clustersize) in
  let q := off / cs in
  let w := (n' + off mod cs + cs - 1) / cs in
  exists h, owned (vheap s) h [] /\
    (fat_read v buf n off s = Ret (set_vheap s h, - ENOMEM) \/
     if decide (Z.of_nat (length l) < q + w) then fat_read v buf n off s = Ret (set_vheap s h, - EINVAL)
     else if decide (q * cs + off + n' <= (q + w) * cs) then
       fat_read v buf n off s =
         Ret (set_umem (set_vheap s h) (user_copy_to s.(umem) buf (take (Z.to_nat n') (drop (Z.to_nat (q * cs + off)) (file_data img ctx x.(vn_n) l)))).1, n')
     else fat_read v buf n off s = Undef).
Proof. intros Hv Hl Hn Ho Hs. exact (fat_read_spec s v x f ctx img l buf n off Hv Hl Hn Ho Hs). Qed.

(** A volume of 65600 clusters of one sector behind a table of 512 sectors:
    the root directory with a long and a short name, ["init.txt"] in three
    clusters and ["abcdefghijklmng"] in one. *)
Definition w16 (v : Z) : list Z := [v mod 256; v / 256].
Definition w32 (v : Z) : list Z := w16 (v mod 65536) ++ w16 (v / 65536).
Definition padded_to (n : nat) (l : list Z) : list Z := l ++ replicate (n - length l) 0.
Definition demo_boot : list Z := padded_to 512 (replicate 11 0 ++ w16 512 ++ [1] ++ w16 2 ++ [1] ++ w16 0 ++ w16 0 ++ [0] ++ w16 0 ++
  w16 0 ++ w16 0 ++ w32 0 ++ w32 (514 + 65600) ++ w32 512 ++ w16 0 ++ w16 0 ++ w32 2).
Definition demo_table : list Z := padded_to 512 (concat (w32 <$> [0xFFFFFF8; 0xFFFFFFF; 0xFFFFFFF; 4; 5; 0xFFFFFFF])).
Definition short_entry (name : list Z) (attr clus size : Z) : list Z :=
  name ++ [attr] ++ replicate 8 0 ++ w16 (clus / 65536) ++ replicate 4 0 ++ w16 (clus mod 65536) ++ w32 size.
Definition long_name : list Z := [97; 98; 99; 100; 101; 102; 103; 104; 105; 106; 107; 108; 109; 110; 103].
Definition demo_short : list Z := short_entry [65; 66; 67; 68; 69; 70; 126; 49; 32; 32; 32] 0x20 5 100.
Definition demo_first : list Z := short_entry [73; 78; 73; 84; 32; 32; 32; 32; 84; 88; 84] 0x20 3 1200.
Definition demo_root : list Z := padded_to 512 (demo_first ++ concat (lfn_entries long_name 0) ++ demo_short).
Definition demo_img (l : Z) : list Z :=
  if l =? 0 then demo_boot else if l =? 2 then demo_table else if l =? 514 then demo_root else replicate 512 (l mod 256).
#[local] Existing Instances demo_disk.
Definition demo_ctx : FAT32Ctx := mkCtx 512 512 1 66114 65600 65600 0 2 2 514 FAT32 512 16 61.
Definition demo_node : VirtualNode := mkVN 5 3 1200 FAT_FILE_MODE 0 0 0 0 0 31 FATFS_OPS 0.
Definition demo_fatfs : FileSystem := mkFS 3 4 0 0 FATFS 81 (mkLL 0 0).
Definition demo_fat : vstate kstate (storage (fatstate (Z -> list Z))) :=
  mkV (demo_pmem falloc_boot) (write_bytes ∅ 5000 (replicate 600 0))
    (<[1 := [104; 100; 97]]> (<[2 := [112; 48]]> (<[3 := [104; 100; 97; 112; 48]]> {[ 4 := [47] ]}))) {[ 71 := mkNode 61 0 ]}
    {[ 21 := demo_node ]} {[ 31 := demo_fatfs ]} ∅ 0 [] (mkHT 0 [] 0 0 0 0) (mkLL 0 0) 0 []
    (mkST {[ 51 := mkBD 1 0 512 0 200000 0 ]} {[ 61 := mkMB 2 0 0 100000 512 true 51 ]} ∅ (mkLL 0 0) (mkLL 71 71) (mkFat {[ 81 := demo_ctx ]} demo_img)).

Lemma padded_bytes k l : Forall is_byte l -> Forall is_byte (padded_to k l).
Proof. intros Hl. apply Forall_app_2; [done|]. apply Forall_replicate. unfold is_byte. lia. Qed.
Lemma bytes_check l : forallb (fun b => (0 <=? b) && (b <? 256)) l = true -> Forall is_byte l.
Proof. intros Hb. rewrite forallb_forall in Hb. apply Forall_forall. intros b Hin%list_elem_of_In. apply Hb, andb_prop in Hin as [? ?]. unfold is_byte. lia. Qed.
Lemma demo_geometry : geometry demo_img demo_ctx.
Proof.
  split; cbn; try lia; try done.
  - split; [lia|by exists 128].
  - intros i. unfold demo_img. destruct (i =? 0); [|destruct (i =? 2); [|destruct (i =? 514)]].
    1-3: split; [by vm_compute|apply bytes_check; by vm_compute].
    split; [by rewrite length_replicate|]. apply Forall_replicate. unfold is_byte. pose proof (Z.mod_pos_bound i 256). lia.
Qed.
Lemma demo_holds : part_holds demo_fat 61 demo_img.
Proof.
  intros s' i n Hs Hi Hn. assert (Hsame : up (fun d => set_hw d (mkFat (ctxs (hw d)) (fat_hw (hw d)))) s' = s').
  { destruct s' as [? ? ? ? ? ? ? ? ? ? ? ? ? [? ? ? ? ? []]]. reflexivity. }
  unfold part_read. rewrite Hs. change (mblkdev_at (drv demo_fat) !! 61) with (Some (mkMB 2 0 0 100000 512 true 51)). cbn [deref]. rewrite bind_Ret. cbn [mb_rw].
  unfold partition_generic_read, read_dev. rewrite Hs. cbn [mb_parent offset]. change (blkdev_at (drv demo_fat) !! 51) with (Some (mkBD 1 0 512 0 200000 0)).
  cbn [deref]. rewrite bind_Ret. cbn [dev_read fat_devices demo_disk]. rewrite bind_Ret. cbn [fst snd].
  rewrite Z.add_0_l, u64_small by (unfold is_u32, is_u64 in *; lia). rewrite <- Hs.
  rewrite bind_Ret. cbn [fst snd]. change (up (fun d => set_hw d _) s') with (up (fun d => set_hw d (mkFat (ctxs (hw (drv s'))) (fat_hw (hw (drv s'))))) s').
  assert (E : up (fun d => set_hw d (mkFat (ctxs (hw (drv s'))) (fat_hw (hw (drv s'))))) s' = s') by exact Hsame.
  rewrite E, Hs. done.
Qed.
Lemma demo_on_volume : on_volume demo_fat 21 demo_node demo_fatfs demo_ctx demo_img.
Proof.
  split; try reflexivity; try discriminate.
  - exact demo_geometry.
  - exact demo_holds.
  - exact (pw_alloc _ _ _ (demo_mm_wf falloc_boot)).
Qed.

(** The first 600 bytes of the file of three clusters can be read; the whole
    file cannot. *)
Lemma fat_read_correct_witness : exists h h',
  (fat_read 21 5000 600 0 demo_fat = Ret (set_vheap demo_fat h, - ENOMEM) \/
   fat_read 21 5000 600 0 demo_fat = Ret (set_umem (set_vheap demo_fat h) (user_copy_to demo_fat.(umem) 5000 (replicate 512 3 ++ replicate 88 4)).1, 600)) /\
  (fat_read 21 5000 1200 0 demo_fat = Ret (set_vheap demo_fat h', - ENOMEM) \/
   fat_read 21 5000 1200 0 demo_fat = Ret (set_vheap demo_fat h', - EINVAL)).
Proof.
  assert (Hl : links demo_img demo_ctx 3 [4; 5]) by (cbn [links]; repeat split; by vm_compute).
  destruct (fat_read_correct demo_fat 21 demo_node demo_fatfs demo_ctx demo_img [4; 5] 5000 600 0 demo_on_volume Hl ltac:(lia) ltac:(cbn; lia) ltac:(cbn; lia)) as (h & _ & H1).
  destruct (fat_read_correct demo_fat 21 demo_node demo_fatfs demo_ctx demo_img [4; 5] 5000 1200 0 demo_on_volume Hl ltac:(lia) ltac:(cbn; lia) ltac:(cbn; lia)) as (h' & _ & H2).
  exists h, h'. split.
  - destruct H1 as [H1|H1]; [left; exact H1|right]. rewrite decide_False in H1 by (vm_compute; discriminate). rewrite decide_True in H1 by (vm_compute; discriminate).
    exact H1.
  - destruct H2 as [H2|H2]; [left; exact H2|right]. rewrite decide_True in H2 by (vm_compute; reflexivity). exact H2.
Defined.

(** C17: a long name written to a directory as entries of 13 characters, the
    last piece first and marked, then the short entry, is read back exactly,
    into the block sized from the first entry, and the directory goes on
    behind the short entry. *)
Theorem long_name_roundtrip {H X} `{!Allocator H} `{!BlockDevices X} (s : vstate H (storage (fatstate X))) name chk short pre post i ctx c bufsize :
  Forall (fun c => 0 < c < 256) name -> name <> [] -> (length name <= 13 * 63)%nat ->
  length short = 32%nat -> attributes short <> FAT_ENTRY_LFN -> length pre = (32 * i)%nat ->
  Z.of_nat (i + lfn_count name + 1) <= ctx.(entries_per_clusterdir) -> (i + lfn_count name < 256)%nat ->
  let n := lfn_count name in
  let disk := pre ++ concat (lfn_entries name chk ++ [short]) ++ post in
  exists e dest, fat_read_one_entry disk (Z.of_nat i) = Ret e /\ attributes e = FAT_ENTRY_LFN /\ fat_lfn_entries_count e = Z.of_nat n /\
    fat_read_lfns (S (S n)) bufsize disk (fat_advance_loc ctx (mkLoc c (Z.of_nat i) false)) ctx
      (replicate (Z.to_nat (fat_lfn_name_size e)) 0) e (Z.of_nat n) 0 s =
      Ret (s, (fat_advance_loc ctx (mkLoc c (Z.of_nat (i + n)) false), dest, short, 0)) /\
    until_nul dest = name.
Proof. intros. by apply (long_name_spec name chk short pre post i ctx c). Qed.

Lemma long_name_roundtrip_witness : exists e dest,
  fat_read_lfns 4 512 demo_root (mkLoc 2 2 false) demo_ctx (replicate 27 0) e 2 0 demo_fat = Ret (demo_fat, (mkLoc 2 4 false, dest, demo_short, 0)) /\
  until_nul dest = long_name.
Proof.
  destruct (long_name_roundtrip demo_fat long_name 0 demo_short demo_first (replicate 384 0) 1 demo_ctx 2 512) as (e & dest & _ & _ & Hc & Hr & Hd);
    [repeat constructor; lia|discriminate|cbn; lia|reflexivity|discriminate|reflexivity|vm_compute; discriminate|vm_compute; lia|].
  exists e, dest. split; [|exact Hd]. unfold fat_lfn_name_size in Hr. rewrite Hc in Hr. exact Hr.
Defined.

(** on a volume that [fat_validate] accepts, whose clusters have sectors
    and whose tables and root fit the sectors it says it has, every cluster
    the table may link to lies in the data region, inside the volume, and two
    of them share no sector; the volume's last cluster is not among them. *)
Theorem fat_layout_correct dev (l : list Z) blk : Forall is_byte l -> bpb_valid l blk = true ->
  let b := bpb_of l in
  let spf := if b.(sectors_per_fat16) =? 0 then (bpb32_of l).(sectors_per_fat32) else b.(sector_count16) in
  let root := (b.(root_dir_entries_count) * 32 + (b.(bpb_sectorsize) - 1)) / b.(bpb_sectorsize) in
  b.(bpb_sectors_per_cluster) <> 0 ->
  b.(bpb_reserved_sector_count) + b.(fat_count) * spf + root <= Z.max b.(sector_count16) b.(sectors_count32) ->
  exists ctx, ctx_of_bpb dev l = Ret ctx /\
    (forall c, in_use ctx c = true ->
       let sec := fat_cluster_to_sector c ctx in
       ctx.(first_data_sector) <= sec /\ sec + ctx.(sectors_per_cluster) <= ctx.(ctx_sector_count) /\
       forall c', in_use ctx c' = true -> c < c' -> sec + ctx.(sectors_per_cluster) <= fat_cluster_to_sector c' ctx) /\
    in_use ctx (ctx.(cluster_count) + 1) = false /\
    (1 <= ctx.(cluster_count) ->
       fat_cluster_to_sector (ctx.(cluster_count) + 1) ctx + ctx.(sectors_per_cluster) <= ctx.(ctx_sector_count)).
Proof.
  intros Hl Hv b spf root Hspc Hfit. unfold bpb_valid in Hv. fold b in Hv.
  assert (Hf : forall off k, 0 <= field off k l < 256 ^ Z.of_nat k) by (intros; by apply field_bound).
  pose proof (Hf 11 2)%nat as B1. pose proof (Hf 13 1)%nat as B2. pose proof (Hf 14 2)%nat as B3. pose proof (Hf 16 1)%nat as B4. pose proof (Hf 17 2)%nat as B5.
  pose proof (Hf 19 2)%nat as B6. pose proof (Hf 32 4)%nat as B7. pose proof (Hf 36 4)%nat as B8.
  change (field 11 2 l) with b.(bpb_sectorsize) in B1. change (field 13 1 l) with b.(bpb_sectors_per_cluster) in B2.
  change (field 14 2 l) with b.(bpb_reserved_sector_count) in B3. change (field 16 1 l) with b.(fat_count) in B4.
  change (field 17 2 l) with b.(root_dir_entries_count) in B5. change (field 19 2 l) with b.(sector_count16) in B6.
  change (field 32 4 l) with b.(sectors_count32) in B7. change (field 36 4 l) with (bpb32_of l).(sectors_per_fat32) in B8.
  assert (Hss : 512 <= b.(bpb_sectorsize)) by (reflect_bools; lia). clear Hv Hf.
  assert (Hspf : 0 <= spf) by (unfold spf; case_match; lia).
  assert (Hroot : 0 <= root < 2 ^ 16).
  { unfold root. split; [apply Z.div_pos; lia|]. apply Z.div_lt_upper_bound; lia. }
  set (count := Z.max b.(sector_count16) b.(sectors_count32)) in *. assert (Hcount : count < 2 ^ 32) by (unfold count; lia).
  set (meta := b.(bpb_reserved_sector_count) + b.(fat_count) * spf + root) in *. assert (Hmeta : 0 <= meta) by (unfold meta; nia).
  unfold ctx_of_bpb. fold b. fold spf. fold count. rewrite (proj2 (Z.eqb_neq _ 0)) by lia. rewrite (proj2 (Z.eqb_neq _ 0) Hspc). cbn [orb]. cbv zeta. fold root.
  assert (Er : u16 root = root) by (apply Z.mod_small; lia). rewrite Er. fold meta.
  rewrite (u32_small meta) by (unfold is_u32; lia). rewrite (u32_small (count - meta)) by (unfold is_u32; lia).
  set (spc := b.(bpb_sectors_per_cluster)) in *. set (clusters := (count - meta) / spc).
  assert (Hcl : clusters * spc <= count - meta /\ 0 <= clusters).
  { unfold clusters. pose proof (Z.mul_div_le (count - meta) spc ltac:(lia)). split; [lia|]. apply Z.div_pos; lia. }
  clearbody clusters meta count root spf.
  assert (Hgoal : forall rc ty, let ctx := mkCtx (bpb_sectorsize b) spf spc count (count - meta) clusters root rc (bpb_reserved_sector_count b) meta ty
      (spc * bpb_sectorsize b) (spc * bpb_sectorsize b / 32) dev in
    (forall c, in_use ctx c = true -> let sec := fat_cluster_to_sector c ctx in meta <= sec /\ sec + spc <= count /\
       forall c', in_use ctx c' = true -> c < c' -> sec + spc <= fat_cluster_to_sector c' ctx) /\
    in_use ctx (clusters + 1) = false /\ (1 <= clusters -> fat_cluster_to_sector (clusters + 1) ctx + spc <= count)).
  { intros rc ty ctx. assert (Hsec : forall c, 2 <= c <= clusters + 1 -> fat_cluster_to_sector c ctx = (c - 2) * spc + meta).
    { intros c Hc. unfold fat_cluster_to_sector, ctx. cbn [sectors_per_cluster first_data_sector]. assert (0 <= (c - 2) * spc <= (clusters - 1) * spc) by nia.
      rewrite (u32_small (c - 2)) by (unfold is_u32; nia). apply u32_small. unfold is_u32. lia. }
    assert (Hin : forall c, in_use ctx c = true <-> 2 <= c <= clusters).
    { intros c. unfold in_use, ctx. cbn [cluster_count]. rewrite andb_true_iff, Z.geb_le, Z.leb_le. lia. }
    split; [|split].
    - intros c Hc%Hin sec. unfold sec. rewrite Hsec by lia. split; [nia|]. split; [nia|]. intros c' Hc'%Hin Hlt. rewrite Hsec by lia. nia.
    - destruct (in_use ctx (clusters + 1)) eqn:E; [apply Hin in E; lia|done].
    - intros H1. rewrite Hsec by lia. nia. }
  destruct (clusters <? 4085); [|destruct (clusters <? 65525)]; eexists; (split; [reflexivity|]); apply Hgoal.
Qed.

Lemma fat_layout_correct_witness :
  ctx_of_bpb 61 demo_boot = Ret demo_ctx /\ first_data_sector demo_ctx <= fat_cluster_to_sector 5 demo_ctx /\
  fat_cluster_to_sector 5 demo_ctx + sectors_per_cluster demo_ctx <= fat_cluster_to_sector 6 demo_ctx.
Proof.
  assert (E : ctx_of_bpb 61 demo_boot = Ret demo_ctx) by (vm_compute; reflexivity).
  destruct (fat_layout_correct 61 demo_boot 512) as (ctx & E' & Hc & _).
  - apply bytes_check. vm_compute. reflexivity.
  - vm_compute. reflexivity.
  - vm_compute. discriminate.
  - vm_compute. discriminate.
  - rewrite E in E'. injection E' as <-. destruct (Hc 5) as (H1 & _ & H2); [vm_compute; reflexivity|].
    split; [exact E|]. split; [exact H1|]. apply H2; [vm_compute; reflexivity|lia].
Defined.

(** ** Behaviour the code does not mean *)

(** A volume without sectors in its clusters is accepted, and divided by. *)
Example no_sectors_per_cluster : let l := <[13%nat := 0]> demo_boot in bpb_valid l 512 = true /\ ctx_of_bpb 61 l = Undef.
Proof. by vm_compute. Qed.

(** The offset is a byte: in a cluster of more than 256 entries it starts over
    and the next cluster is never asked for. *)
Lemma offset_starts_over ctx loc : 256 < ctx.(entries_per_clusterdir) -> 0 <= loc.(loc_offset) < 256 ->
  read_next (fat_advance_loc ctx loc) = false /\ 0 <= loc_offset (fat_advance_loc ctx loc) < 256.
Proof.
  intros He Ho. unfold fat_advance_loc. rewrite (proj2 (Z.eqb_neq _ _)) by lia. cbn. split; [done|]. apply (u8_range (loc_offset loc + 1)).
Qed.

(** Mounting the volume: the root, the file and the long name are cached. *)
Definition fat_tables : DriverTables := {|
  drv_name _ := [102; 97; 116; 102; 115]; generic_probe _ := true; vnode_ops _ := FATFS_OPS |}.
#[local] Existing Instances fat_tables.
Definition no_fat_blkdrv : BlockDrivers (vstate kstate (storage (fatstate (Z -> list Z)))) := {| blkdrv_init _ := None; blkdrv_destroy _ := None |}.
#[local] Existing Instance no_fat_blkdrv.
Definition unmounted : vstate kstate (storage (fatstate (Z -> list Z))) :=
  put_fs (up (fun d => set_hw d (mkFat ∅ demo_img)) (set_vnodes demo_fat ∅)) 31 (mkFS 3 4 0 0 FATFS 0 (mkLL 0 0)).
Definition no_ctx : FAT32Ctx := mkCtx 0 0 0 0 0 0 0 0 0 0 FAT12 0 0 0.
Definition names (s : vstate kstate (storage (fatstate (Z -> list Z)))) : list (option (list Z) * Z * Z) :=
  (fun v => (s.(strs) !! v.2.(vn_name), v.2.(vn_n), v.2.(vn_size))) <$> map_to_list s.(vnodes).
Example mount_demo : match fat_init (replicate 129 7) (fun _ => no_ctx) 20 31 unmounted with
  | Ret (s, st) => st = 0 /\ names s = [(Some long_name, 5, 100); (Some [47], 2, 0); (Some [105; 110; 105; 116; 46; 116; 120; 116], 3, 1200)]
  | _ => False
  end.
Proof. vm_compute. done. Qed.
(** A volume whose root has a broken chain behind its first cluster: what has
    been cached is freed twice. *)
Definition broken_img (l : Z) : list Z :=
  if l =? 514 then concat (replicate 16 demo_first) else demo_img l.
Example failed_mount_panics : fat_init (replicate 129 7) (fun _ => no_ctx) 40 31 (up (fun d => set_hw d (mkFat ∅ broken_img)) unmounted) = Panic.
Proof. vm_compute. done. Qed.
