(* ===== verification/Ramfs.v ===== *)
(** * ramfs and devfs

    [drivers/fs/ramfs/ramfs.c] and [drivers/fs/devfs/devfs.c] on the state of
    the virtual file system, and their instance of [Drivers]. *)
From S2P Require Import Prelude Alloc CString LinkedList HashTable Path Paging Falloc Proc User Fs Vfs.

(** ** Data *)

Record RamFsFileData := mkRF { rf_data : Z; rf_used : bool }.
Record RamFsMetadata := mkRM { rm_files : Z; file_capacity : Z; file_cursor : Z }.
Record DevFSEntry := mkDE { de_name : Z; de_mode : Z; de_uid : Z; de_gid : Z; de_ops : Z; de_data : Z }.

(** What the two drivers keep: the metadata at an address, the array of files
    in a block, the bytes of a file's block, and the registered devices. *)
Record ramstate := mkRS {
  metas : gmap Z RamFsMetadata; rfiles : gmap Z (list RamFsFileData); rdata : gmap Z (list Z);
  g_registered_entries : Z; entries : list DevFSEntry }.

Definition set_meta (d : ramstate) (a : Z) (x : RamFsMetadata) : ramstate :=
  mkRS (<[a := x]> d.(metas)) d.(rfiles) d.(rdata) d.(g_registered_entries) d.(entries).
Definition set_rfiles (d : ramstate) (t : gmap Z (list RamFsFileData)) : ramstate :=
  mkRS d.(metas) t d.(rdata) d.(g_registered_entries) d.(entries).
Definition set_rdata (d : ramstate) (t : gmap Z (list Z)) : ramstate :=
  mkRS d.(metas) d.(rfiles) t d.(g_registered_entries) d.(entries).
Definition set_entries (d : ramstate) (p : Z) (l : list DevFSEntry) : ramstate :=
  mkRS d.(metas) d.(rfiles) d.(rdata) p l.

Definition sizeof_RamFsMetadata : Z := 12.
Definition sizeof_RamFsFileData : Z := 8.
Definition sizeof_DevFSEntry : Z := 24.
Definition STARTING_FILES_COUNT : Z := 8.
(** [S_IRWXU | S_IRGRP | S_IXGRP | S_IROTH | S_IXOTH | S_IFDIR]. *)
Definition RAMFS_DIR_MODE : Z := 0x41ED.

Section ops.
Context {H : Type} `{!Allocator H} `{DT : DriverTables}.
Notation vstate := (vstate H ramstate).

(** What a block of [kmalloc] holds before it is written. *)
Variable fresh : Z -> RamFsMetadata.

Definition update_drv (f : ramstate -> ramstate) (s : vstate) : vstate := set_drv s (f s.(drv)).
Definition get_meta (a : Z) (s : vstate) : outcome RamFsMetadata := deref (s.(drv).(metas) !! a).
(** [meta->files[i]]. *)
Definition get_file (x : RamFsMetadata) (i : Z) (s : vstate) : outcome RamFsFileData :=
  l ← deref (s.(drv).(rfiles) !! x.(rm_files)); deref (l !! Z.to_nat i).
Definition put_file (x : RamFsMetadata) (i : Z) (fd : RamFsFileData) (s : vstate) : outcome vstate :=
  l ← deref (s.(drv).(rfiles) !! x.(rm_files));
  Ret (update_drv (fun d => set_rfiles d (<[x.(rm_files) := <[Z.to_nat i := fd]> l]> d.(rfiles))) s).

(** The new elements are cleared; the old ones are as many as the capacity
    says, or the clearing runs out of the block. *)
Definition ramfs_enlarge_files (newcount a : Z) (s : vstate) : outcome (vstate * Z) :=
  x ← get_meta a s;
  r ← krealloc_ x.(rm_files) (u32 (sizeof_RamFsFileData * newcount)) (vheap s);
  let s := set_vheap s r.1 in
  if r.2 =? 0 then Ret (s, - ENOMEM)
  else
    let old := default [] (s.(drv).(rfiles) !! x.(rm_files)) in
    if negb (Z.of_nat (length old) =? x.(file_capacity)) || (newcount <? x.(file_capacity)) then Undef
    else
      let new := old ++ replicate (Z.to_nat (newcount - x.(file_capacity))) (mkRF 0 false) in
      Ret (update_drv (fun d => set_meta (set_rfiles d (<[r.2 := new]> (delete x.(rm_files) d.(rfiles)))) a
             (mkRM r.2 newcount x.(file_cursor))) s, 0).

(** The files from the cursor on, [n] of them. *)
Fixpoint find_avail_loop (n : nat) (a : Z) (s : vstate) : outcome (vstate * option Z) :=
  match n with
  | O => Ret (s, None)
  | S n =>
      x ← get_meta a s;
      fd ← get_file x x.(file_cursor) s;
      let s' := update_drv (fun d => set_meta d a (mkRM x.(rm_files) x.(file_capacity) (x.(file_cursor) + 1))) s in
      if negb fd.(rf_used) then s' ← put_file x x.(file_cursor) (mkRF fd.(rf_data) true) s'; Ret (s', Some (x.(file_cursor) + 1))
      else find_avail_loop n a s'
  end.
(** An error (0 when none) and the inode number. *)
Definition ramfs_find_next_avail_fd (a : Z) (s : vstate) : outcome (vstate * (Z * Z)) :=
  x ← get_meta a s;
  r ← find_avail_loop (Z.to_nat (x.(file_capacity) - x.(file_cursor))) a s;
  match r.2 with
  | Some n => Ret (r.1, (0, n))
  | None =>
      x ← get_meta a r.1;
      r ← ramfs_enlarge_files (u32 (x.(file_capacity) * 2)) a r.1;
      if r.2 <? 0 then Ret (r.1, (- ENOMEM, 0)) else x ← get_meta a r.1; Ret (r.1, (0, x.(file_cursor)))
  end.

Definition ramfs_mkfile (dir : Z) (name : list Z) (mode uid gid fs : Z) (s : vstate) : outcome (vstate * (Z * Z)) :=
  f ← deref (s.(filesystems) !! fs);
  let meta := f.(driver_ctx) in
  _ ← assert_ (negb (meta =? 0));
  r ← fs_new_vnode_cache name fs s;
  let '(s, v) := r : vstate * Z in
  if v =? 0 then Ret (s, (- ENOMEM, 0))
  else
    r ← ramfs_find_next_avail_fd meta s;
    let '(s, (err, n)) := r : vstate * (Z * Z) in
    if negb (err =? 0) then r ← fs_free_cached_vnode v fs s; Ret (r.1, (err, 0))
    else
      x ← deref (s.(vnodes) !! v);
      let s := put_vnode s v (mkVN x.(vn_name) n 0 mode uid gid x.(ref_count) x.(vn_flags) dir x.(owner) x.(vn_ops) x.(vn_data)) in
      m ← get_meta meta s;
      s ← put_file m (n - 1) (mkRF 0 true) s;
      Ret (s, (0, n)).

(** The data blocks of the files from [i] on. *)
Fixpoint destroy_files (n : nat) (i : Z) (x : RamFsMetadata) (s : vstate) : outcome vstate :=
  match n with
  | O => Ret s
  | S n =>
      fd ← get_file x i s;
      s ← (if fd.(rf_data) =? 0 then Ret s else s ← free_block s fd.(rf_data); Ret (update_drv (fun d => set_rdata d (delete fd.(rf_data) d.(rdata))) s));
      s ← put_file x i (mkRF 0 false) s;
      destroy_files n (i + 1) x s
  end.
Definition ramfs_destroy (fs : Z) (s : vstate) : outcome vstate :=
  f ← deref (s.(filesystems) !! fs);
  x ← get_meta f.(driver_ctx) s;
  s ← destroy_files (Z.to_nat x.(file_capacity)) 0 x s;
  s ← (if x.(rm_files) =? 0 then Ret s
       else s ← free_block s x.(rm_files); Ret (update_drv (fun d => set_rfiles d (delete x.(rm_files) d.(rfiles))) s));
  s ← free_block s f.(driver_ctx);
  let s := update_drv (fun d => mkRS (delete f.(driver_ctx) d.(metas)) d.(rfiles) d.(rdata) d.(g_registered_entries) d.(entries)) s in
  let s := put_fs s fs (set_ctx f 0) in
  r ← fs_free_all_cached_vnodes fs s; Ret r.1.

Definition ramfs_init (fs : Z) (s : vstate) : outcome (vstate * Z) :=
  r ← kmalloc_ sizeof_RamFsMetadata (vheap s);
  let s := set_vheap s r.1 in
  let meta := r.2 in
  if meta =? 0 then Ret (s, - ENOMEM)
  else
    f ← deref (s.(filesystems) !! fs);
    let s := put_fs s fs (set_ctx f meta) in
    let x := fresh meta in
    let s := update_drv (fun d => set_meta d meta (mkRM x.(rm_files) x.(file_capacity) 0)) s in
    r ← ramfs_enlarge_files STARTING_FILES_COUNT meta s;
    if r.2 <? 0 then s ← ramfs_destroy fs r.1; Ret (s, - ENOMEM)
    else
      r ← ramfs_mkfile 0 [SLASH] RAMFS_DIR_MODE 0 0 fs r.1;
      if r.2.1 <? 0 then s ← ramfs_destroy fs r.1; Ret (s, r.2.1) else Ret (r.1, 0).

Definition ramfs_rmnode (v : Z) (s : vstate) : outcome (vstate * Z) :=
  x ← deref (s.(vnodes) !! v);
  f ← deref (s.(filesystems) !! x.(owner));
  let meta := f.(driver_ctx) in
  _ ← assert_ (negb (meta =? 0));
  if has x.(vn_mode) S_IFDIR then Panic
  else
    m ← get_meta meta s;
    let m := mkRM m.(rm_files) m.(file_capacity) (u32 (x.(vn_n) - 1)) in
    let s := update_drv (fun d => set_meta d meta m) s in
    fd ← get_file m (x.(vn_n) - 1) s;
    s ← (if fd.(rf_data) =? 0 then Ret s else s ← free_block s fd.(rf_data); Ret (update_drv (fun d => set_rdata d (delete fd.(rf_data) d.(rdata))) s));
    s ← put_file m (x.(vn_n) - 1) (mkRF 0 false) s;
    fs_free_cached_vnode v x.(owner) s.

Definition ramfs_open (v flags : Z) (s : vstate) : outcome (vstate * Z) := Ret (s, 0).

Definition ramfs_read (v buf n off : Z) (s : vstate) : outcome (vstate * Z) :=
  x ← deref (s.(vnodes) !! v);
  if (n =? 0) || (u32 off >=? x.(vn_size)) then Ret (s, 0)
  else
    f ← deref (s.(filesystems) !! x.(owner));
    let meta := f.(driver_ctx) in
    _ ← assert_ (negb (meta =? 0));
    m ← get_meta meta s;
    let n := Z.min n (u32 (x.(vn_size) - u32 off)) in
    fd ← get_file m (x.(vn_n) - 1) s;
    bytes ← deref (s.(drv).(rdata) !! fd.(rf_data));
    Ret (set_umem s (user_copy_to s.(umem) buf (take (Z.to_nat n) (drop (Z.to_nat off) bytes))).1, i32 n).

Definition ramfs_ioctl (v req data : Z) (s : vstate) : outcome (vstate * Z) := Ret (s, -1).
Definition ramfs_write (v buf n off : Z) (s : vstate) : outcome (vstate * Z) := Ret (s, 0).

(** ** [devfs.c] *)

Definition devfs_enlarge_entries (s : vstate) : outcome (vstate * Z) :=
  r ← krealloc_ s.(drv).(g_registered_entries) (u32 ((Z.of_nat (length s.(drv).(entries)) + 1) * sizeof_DevFSEntry)) (vheap s);
  let s := set_vheap s r.1 in
  if r.2 =? 0 then Ret (s, - ENOMEM)
  else Ret (update_drv (fun d => set_entries d r.2 (d.(entries) ++ [mkDE 0 0 0 0 0 0])) s, 0).

(** [strlen(name) + 1 + name[0] != '/'] is a comparison: the block has one
    byte, or none.  A name with a slash is appended to an uninitialised
    block. *)
Definition devfs_register (name : list Z) (mode uid gid ops data : Z) (s : vstate) : outcome (vstate * Z) :=
  let c := default 0 (head name) in
  r ← kmalloc_ (if Z.of_nat (length name) + 1 + c =? SLASH then 0 else 1) (vheap s);
  let s := set_vheap s r.1 in
  let fullname := r.2 in
  if fullname =? 0 then Ret (s, - ENOMEM)
  else if c =? SLASH then Undef
  else
    let s := set_strs s (<[fullname := SLASH :: name]> s.(strs)) in
    r ← devfs_enlarge_entries s;
    let '(s, st) := r : vstate * Z in
    if st <? 0 then s ← free_str s fullname; Ret (s, - ENOMEM)
    else Ret (update_drv (fun d => set_entries d d.(g_registered_entries)
           (<[(length d.(entries) - 1)%nat := mkDE fullname mode uid gid ops data]> d.(entries))) s, 0).
End ops.

(** ** The drivers at their addresses *)

Definition RAMFS : Z := 0x100000.
Definition DEVFS : Z := 0x100100.
Definition RAMFS_OPS : Z := 0x100200.
Definition DEVFS_OPS : Z := 0x100300.

(** Other drivers and devices. *)
Section drivers.
Context {H : Type} `{!Allocator H}.
Variables (fresh : Z -> RamFsMetadata) (other_name : Z -> list Z) (other_probe : Z -> bool) (other_vops : Z -> Z).
Variable other : Drivers (vstate H ramstate).
Notation vstate := (vstate H ramstate).

Definition ram_tables : DriverTables := {|
  drv_name d := if d =? RAMFS then [114; 97; 109; 102; 115] else if d =? DEVFS then [100; 101; 118; 102; 115] else other_name d;
  generic_probe d := if (d =? RAMFS) || (d =? DEVFS) then false else other_probe d;
  vnode_ops d := if d =? RAMFS then RAMFS_OPS else if d =? DEVFS then DEVFS_OPS else other_vops d |}.
#[local] Existing Instance ram_tables.

(** Both make files the same way, so [fs_mkfile] on a device file system does
    not come back to [devfs_init]. *)
Definition ram_mkfile (d dir : Z) (name : list Z) (mode uid gid fs : Z) (s : vstate) : outcome (vstate * (Z * Z)) :=
  if (d =? RAMFS) || (d =? DEVFS) then ramfs_mkfile dir name mode uid gid fs s
  else @drv_mkfile _ other d dir name mode uid gid fs s.
Definition mkfile_only : Drivers vstate := {|
  drv_init := @drv_init _ other; drv_destroy := @drv_destroy _ other; drv_mkfile := ram_mkfile; drv_rmnode := @drv_rmnode _ other;
  op_open := @op_open _ other; op_read := @op_read _ other; op_write := @op_write _ other; op_ioctl := @op_ioctl _ other;
  op_mmap := @op_mmap _ other |}.

(** The registered devices from [es] on get a file each; what fails is passed
    over. *)
Fixpoint devfs_files (es : list DevFSEntry) (fs : Z) (s : vstate) : outcome vstate :=
  match es with
  | [] => Ret s
  | e :: es =>
      f ← deref (s.(filesystems) !! fs);
      mnt ← deref (s.(strs) !! f.(mntpoint));
      nm ← deref (s.(strs) !! e.(de_name));
      if Z.of_nat (length mnt) + 1 + Z.of_nat (length nm) + 1 >? PATH_MAX then devfs_files es fs s
      else
        r ← @fs_mkfile H ramstate mkfile_only (mnt ++ SLASH :: nm) e.(de_mode) e.(de_uid) e.(de_gid) fs s;
        let '(s, (err, ino)) := r : vstate * (Z * Z) in
        if err <? 0 then devfs_files es fs s
        else
          v ← fs_ino_to_vnode ino fs s;
          x ← deref (s.(vnodes) !! v);
          devfs_files es fs (put_vnode s v (mkVN x.(vn_name) x.(vn_n) x.(vn_size) x.(vn_mode) x.(vn_uid) x.(vn_gid) x.(ref_count)
            x.(vn_flags) x.(parent) x.(owner) e.(de_ops) e.(de_data)))
  end.
Definition devfs_init (fs : Z) (s : vstate) : outcome (vstate * Z) :=
  r ← ramfs_init fresh fs s;
  if r.2 <? 0 then Ret r else s ← devfs_files r.1.(drv).(entries) fs r.1; Ret (s, 0).
Definition devfs_destroy (fs : Z) (s : vstate) : outcome vstate := ramfs_destroy fs s.

(** [g_ramfs_driver], [g_devfs_driver] and their node operations. *)
Definition ram_drivers : Drivers vstate := {|
  drv_init d fs s := if d =? RAMFS then ramfs_init fresh fs s else if d =? DEVFS then devfs_init fs s else @drv_init _ other d fs s;
  drv_destroy d fs s := if d =? RAMFS then ramfs_destroy fs s else if d =? DEVFS then devfs_destroy fs s else @drv_destroy _ other d fs s;
  drv_mkfile := ram_mkfile;
  drv_rmnode d v s := if (d =? RAMFS) || (d =? DEVFS) then ramfs_rmnode v s else @drv_rmnode _ other d v s;
  op_open o v fl s := if (o =? RAMFS_OPS) || (o =? DEVFS_OPS) then ramfs_open v fl s else @op_open _ other o v fl s;
  op_read o v b n off s := if (o =? RAMFS_OPS) || (o =? DEVFS_OPS) then ramfs_read v b n off s else @op_read _ other o v b n off s;
  op_write o v b n off s := if (o =? RAMFS_OPS) || (o =? DEVFS_OPS) then ramfs_write v b n off s else @op_write _ other o v b n off s;
  op_ioctl o v r dt s := if (o =? RAMFS_OPS) || (o =? DEVFS_OPS) then ramfs_ioctl v r dt s else @op_ioctl _ other o v r dt s;
  op_mmap o := if (o =? RAMFS_OPS) || (o =? DEVFS_OPS) then None else @op_mmap _ other o |}.
End drivers.

(** ** Inode numbers *)
Section inodes.
Context {H : Type} `{!Allocator H} `{!AllocatorLaws H} `{DT : DriverTables}.
Implicit Types (s : vstate H ramstate).

(** The metadata at [a] has the array [l], in a block of its own, and a
    cursor in it or behind. *)
Record meta_ok s (a : Z) (x : RamFsMetadata) (l : list RamFsFileData) : Prop := {
  mo_alloc : alloc_wf (vheap s);
  mo_meta : s.(drv).(metas) !! a = Some x;
  mo_files : s.(drv).(rfiles) !! x.(rm_files) = Some l;
  mo_block : live (vheap s) x.(rm_files) = Some (sizeof_RamFsFileData * x.(file_capacity));
  mo_len : Z.of_nat (length l) = x.(file_capacity);
  mo_cursor : 0 <= x.(file_cursor) <= x.(file_capacity) }.

(** The slot [i] is the first unused one from the cursor on. *)
Definition first_unused (l : list RamFsFileData) (c i : Z) : Prop :=
  c <= i /\ (forall k fd, c <= k < i -> l !! Z.to_nat k = Some fd -> fd.(rf_used) = true) /\
  exists fd, l !! Z.to_nat i = Some fd /\ fd.(rf_used) = false.
Definition all_used (l : list RamFsFileData) (c : Z) : Prop :=
  forall k fd, c <= k -> l !! Z.to_nat k = Some fd -> fd.(rf_used) = true.

(** The table as the search leaves it. *)
Definition with_files s (a : Z) (x : RamFsMetadata) (l : list RamFsFileData) (c : Z) : vstate H ramstate :=
  update_drv (fun d => set_meta (set_rfiles d (<[x.(rm_files) := l]> d.(rfiles))) a (mkRM x.(rm_files) x.(file_capacity) c)) s.

Lemma with_files_same s a x l c : s.(drv).(rfiles) !! x.(rm_files) = Some l ->
  update_drv (fun d => set_meta d a (mkRM x.(rm_files) x.(file_capacity) c)) s = with_files s a x l c.
Proof. intros Hl. unfold with_files, update_drv, set_drv, set_meta, set_rfiles. cbn. by rewrite (insert_id (rfiles (drv s))). Qed.

Lemma find_avail_spec a l n : forall s x, meta_ok s a x l -> n = Z.to_nat (x.(file_capacity) - x.(file_cursor)) ->
  (exists i fd, first_unused l x.(file_cursor) i /\ l !! Z.to_nat i = Some fd /\
     find_avail_loop n a s = Ret (with_files s a x (<[Z.to_nat i := mkRF fd.(rf_data) true]> l) (i + 1), Some (i + 1)) /\ i < x.(file_capacity)) \/
  (all_used l x.(file_cursor) /\ find_avail_loop n a s = Ret (with_files s a x l x.(file_capacity), None)).
Proof.
  induction n as [|n IH]; intros s x Ho Hn; pose proof (mo_cursor _ _ _ _ Ho) as Hc; pose proof (mo_len _ _ _ _ Ho) as Hlen; cbn [find_avail_loop].
  - right. split; [intros k fd Hk Hl; apply lookup_lt_Some in Hl; lia|]. rewrite <- (with_files_same s a x l) by apply Ho.
    replace x.(file_capacity) with x.(file_cursor) by lia. do 2 f_equal. unfold update_drv, set_drv, set_meta. destruct s as [? ? ? ? ? ? ? ? ? ? ? ? ? d].
    cbn. f_equal. pose proof (mo_meta _ _ _ _ Ho) as Hm. cbn in Hm. destruct d. cbn in *. f_equal. symmetry. apply insert_id. rewrite Hm. f_equal.
    destruct x. cbn in *. f_equal. lia.
  - destruct (lookup_lt_is_Some_2 l (Z.to_nat x.(file_cursor))) as (fd & Hfd); [lia|].
    assert (Em : get_meta a s = Ret x) by (unfold get_meta; by rewrite (mo_meta _ _ _ _ Ho)).
    assert (Ef : get_file x x.(file_cursor) s = Ret fd) by (unfold get_file; rewrite (mo_files _ _ _ _ Ho); cbn [deref]; by rewrite bind_Ret, Hfd).
    rewrite !Em, !bind_Ret, !Ef, !bind_Ret. cbv zeta.
    destruct (rf_used fd) eqn:Eu; cbn [negb].
    + set (x' := mkRM x.(rm_files) x.(file_capacity) (x.(file_cursor) + 1)). set (s' := update_drv _ s).
      assert (Ho' : meta_ok s' a x' l).
      { split; cbn; [apply Ho|by rewrite lookup_insert_eq|apply Ho|apply Ho|apply Ho|lia]. }
      assert (Hw : forall l' c, with_files s' a x' l' c = with_files s a x l' c).
      { intros l' c. unfold with_files, s', update_drv, set_drv, set_meta, set_rfiles. cbn. by rewrite insert_insert_eq. }
      destruct (IH s' x' Ho') as [(i & fd' & (Hi & Hbelow & Hfree) & Hl & Hr & Hlt)|[Hall Hr]]; [cbn; lia| |].
      * left. exists i, fd'. cbn in Hi, Hbelow, Hlt. rewrite Hw in Hr. split; [|by split; [|split]].
        split; [lia|]. split; [|done]. intros k g Hk Hg. destruct (decide (k = x.(file_cursor))) as [->|]; [congruence|]. apply (Hbelow k g); [lia|done].
      * right. cbn in Hall. rewrite Hw in Hr. split; [|exact Hr]. intros k g Hk Hg. destruct (decide (k = x.(file_cursor))) as [->|]; [congruence|]. apply (Hall k g); [lia|done].
    + left. exists x.(file_cursor), fd. split; [split; [lia|]; split; [intros; lia|by exists fd]|]. split; [done|]. split; [|lia].
      unfold put_file. cbn [drv update_drv set_drv set_meta rfiles]. rewrite (mo_files _ _ _ _ Ho). cbn [deref]. rewrite !bind_Ret. done.
Qed.

(** Growing a full table. *)
Lemma enlarge_full_spec s a x l : meta_ok s a x l -> 0 < x.(file_capacity) -> x.(file_capacity) < 2 ^ 28 ->
  let s1 := with_files s a x l x.(file_capacity) in
  exists s' st, ramfs_enlarge_files (u32 (x.(file_capacity) * 2)) a s1 = Ret (s', st) /\
    ((st = 0 /\ exists q, meta_ok s' a (mkRM q (2 * x.(file_capacity)) x.(file_capacity))
        (l ++ replicate (length l) (mkRF 0 false))) \/
     (st = - ENOMEM /\ meta_ok s' a (mkRM x.(rm_files) x.(file_capacity) x.(file_capacity)) l)).
Proof.
  intros Ho Hcap Hsm s1. pose proof (mo_len _ _ _ _ Ho) as Hlen. subst s1. unfold ramfs_enlarge_files, get_meta. cbn [with_files drv update_drv set_drv set_meta metas].
  rewrite lookup_insert_eq. cbn [deref]. rewrite bind_Ret. cbn [rm_files file_capacity file_cursor]. rewrite u32_small by (unfold is_u32; lia).
  unfold sizeof_RamFsFileData in *. rewrite u32_small by (unfold is_u32; lia).
  destruct (realloc_law (vheap s) x.(rm_files) (8 * (x.(file_capacity) * 2)) (mo_alloc _ _ _ _ Ho)) as (h & q & Hr & Hwf & Hc);
    [lia|right; rewrite (mo_block _ _ _ _ Ho); done|].
  change (vheap (with_files s a x l (file_capacity x))) with (vheap s). rewrite Hr, bind_Ret. cbn [fst snd].
  destruct Hc as [[-> Hl]|(Hq & _ & Hl)].
  - eexists _, _. split; [reflexivity|]. right. split; [done|]. split; cbn; try done.
    + by rewrite lookup_insert_eq.
    + by rewrite lookup_insert_eq.
    + unfold vheap. cbn. rewrite Hl. apply Ho.
    + lia.
  - rewrite (proj2 (Z.eqb_neq q 0)) by done. change (rfiles (drv (set_vheap (with_files s a x l (file_capacity x)) h))) with (<[rm_files x := l]> (rfiles (drv s))).
    rewrite lookup_insert_eq. cbn [default from_option id]. change (default [] (Some l)) with l. rewrite Hlen, Z.eqb_refl.
    rewrite (proj2 (Z.ltb_ge _ _)) by lia. cbn [negb orb]. eexists _, _. split; [reflexivity|]. left. split; [done|]. exists q. split; cbn.
    + done.
    + rewrite lookup_insert_eq. f_equal. f_equal. lia.
    + rewrite lookup_insert_eq. do 3 f_equal. lia.
    + unfold vheap. cbn. rewrite Hl, decide_True by done. f_equal. unfold sizeof_RamFsFileData. lia.
    + rewrite length_app, length_replicate. lia.
    + lia.
Qed.

Lemma next_avail_spec s a x l : meta_ok s a x l -> 0 < x.(file_capacity) -> x.(file_capacity) < 2 ^ 28 ->
  (exists i fd s', first_unused l x.(file_cursor) i /\ l !! Z.to_nat i = Some fd /\ ramfs_find_next_avail_fd a s = Ret (s', (0, i + 1)) /\
     meta_ok s' a (mkRM x.(rm_files) x.(file_capacity) (i + 1)) (<[Z.to_nat i := mkRF fd.(rf_data) true]> l)) \/
  (all_used l x.(file_cursor) /\ exists s' st, ramfs_find_next_avail_fd a s = Ret (s', st) /\
    ((st = (0, x.(file_capacity)) /\ exists q, meta_ok s' a (mkRM q (2 * x.(file_capacity)) x.(file_capacity))
        (l ++ replicate (length l) (mkRF 0 false))) \/
     (st = (- ENOMEM, 0) /\ meta_ok s' a (mkRM x.(rm_files) x.(file_capacity) x.(file_capacity)) l))).
Proof.
  intros Ho Hcap Hsm. unfold ramfs_find_next_avail_fd.
  assert (Em : get_meta a s = Ret x) by (unfold get_meta; by rewrite (mo_meta _ _ _ _ Ho)). rewrite !Em, !bind_Ret.
  destruct (find_avail_spec a l _ s x Ho eq_refl) as [(i & fd & Hi & Hl & -> & Hlt)|[Hall ->]]; rewrite !bind_Ret; cbn [fst snd].
  - left. exists i, fd, (with_files s a x (<[Z.to_nat i := mkRF fd.(rf_data) true]> l) (i + 1)). do 3 (split; [done|]).
    destruct Hi as (Hi & _). pose proof (mo_cursor _ _ _ _ Ho). split; cbn; try apply Ho.
    + by rewrite lookup_insert_eq.
    + by rewrite lookup_insert_eq.
    + rewrite length_insert. apply Ho.
    + lia.
  - right. split; [done|]. set (s1 := with_files s a x l (file_capacity x)).
    assert (E1 : get_meta a s1 = Ret (mkRM x.(rm_files) x.(file_capacity) x.(file_capacity))) by (unfold get_meta; cbn; by rewrite lookup_insert_eq).
    rewrite E1, bind_Ret. cbn [file_capacity].
    destruct (enlarge_full_spec s a x l Ho Hcap Hsm) as (s' & st & Hen & Hc). change (with_files s a x l (file_capacity x)) with s1 in Hen. rewrite Hen, bind_Ret. cbn [fst snd].
    destruct Hc as [(-> & q & Hm)|(-> & Hm)].
    + cbn [Z.ltb Z.compare]. unfold get_meta. rewrite (mo_meta _ _ _ _ Hm). cbn [deref]. rewrite bind_Ret. eexists _, _. split; [reflexivity|]. left. split; [done|]. by exists q.
    + cbn [Z.ltb Z.compare Z.opp ENOMEM]. eexists _, _. split; [reflexivity|]. by right.
Qed.
End inodes.
