(* ===== verification/Fb.v ===== *)
(** * Frame buffers

    [drivers/video/fb/fb.c]: the array of frame buffers and the one the boot
    loader set up, mapped for devices; [fb_devfs.c]: the file that programs
    write, map and ask about it with. *)
From S2P Require Import Prelude Alloc CString Gallocator Kmalloc MRegMap Falloc Fs Printf Ramfs Paging Bitmap Dma User Boot.

(** ** Data ([fb.h], [user@fb.h]) *)
Definition ENOENT : Z := 2.
Definition ENOMEM : Z := 12.
Definition EINVAL : Z := 22.
Definition E2BIG : Z := 7.
Definition ENOSPC : Z := 28.
Definition PAGE_R : Z := 4.
Definition PAGE_RW : Z := Z.lor PAGE_R PAGE_W.
Definition PROT_READ : Z := 1.
Definition PROT_WRITE : Z := 2.
Definition FBIO_GET_INFO : Z := 0xFF01.
Record FrameBuffer := mkFb {
  base_pa : Z; base_va : Z; width : Z; height : Z; bpp : Z; bytespp : Z; takeover : bool }.
Definition sizeof_FrameBuffer : Z := 28.
Definition set_takeover (fb : FrameBuffer) : FrameBuffer :=
  mkFb fb.(base_pa) fb.(base_va) fb.(width) fb.(height) fb.(bpp) fb.(bytespp) true.

(** The bytes of a word in memory, and a copy of bytes to memory: every byte
    has to be there. *)
Definition word_bytes (z : Z) : list Z := [z mod 256; z / 256 mod 256; z / 65536 mod 256; z / 16777216 mod 256].
Fixpoint put_bytes (m : gmap Z Z) (a : Z) (l : list Z) : outcome (gmap Z Z) :=
  match l with [] => Ret m | b :: l => m ← store m a b; put_bytes m (a + 1) l end.

(** ** [fb.c] *)
Section fb.
Context {H : Type} `{!Allocator H} `{!AlignedAllocator H} (koff : Z).
(** What the block of a new frame buffer holds. *)
Context (garbage : FrameBuffer).

(** [fbs] has the first [g_fb_count] elements of the block at [g_fbs]. *)
Record fbstate := mkFS { f_mm : Paging.mstate H; f_proc : dmaproc; g_fbs : Z; fbs : list FrameBuffer }.
Definition g_fb_count (s : fbstate) : Z := Z.of_nat (length s.(fbs)).
Definition set_fheap (h : H) (s : fbstate) : fbstate := mkFS (set_heap s.(f_mm) h) s.(f_proc) s.(g_fbs) s.(fbs).
Definition set_fbs (p : Z) (l : list FrameBuffer) (s : fbstate) : fbstate := mkFS s.(f_mm) s.(f_proc) p l.
Definition fb_index (s : fbstate) (fb : Z) : nat := Z.to_nat ((fb - s.(g_fbs)) / sizeof_FrameBuffer).

Definition fb_new_framebuffer (s : fbstate) : outcome (fbstate * Z) :=
  r ← krealloc_ s.(g_fbs) (u32 ((g_fb_count s + 1) * sizeof_FrameBuffer)) s.(f_mm).(heap);
  let s := set_fheap r.1 s in
  if r.2 =? 0 then Ret (s, 0)
  else
    let s := set_fbs r.2 (s.(fbs) ++ [garbage]) s in
    Ret (s, s.(g_fbs) + (g_fb_count s - 1) * sizeof_FrameBuffer).

(** [*f = *(f + 1)] for the [k] elements from index [i]. *)
Fixpoint fb_shift (k i : nat) (l : list FrameBuffer) : list FrameBuffer :=
  match k with
  | O => l
  | S k => fb_shift k (S i) (match l !! S i with Some x => <[i := x]> l | None => l end)
  end.
Definition fb_destroy_framebuffer (fb : Z) (s : fbstate) : outcome fbstate :=
  let i := fb_index s fb in
  let n := length s.(fbs) in
  let l := take (n - 1) (fb_shift (n - 1 - i) i s.(fbs)) in
  match l with
  | [] => h ← kfree_ s.(g_fbs) s.(f_mm).(heap); Ret (set_fbs 0 l (set_fheap h s))
  | _ => r ← krealloc_ s.(g_fbs) (u32 (Z.of_nat (length l) * sizeof_FrameBuffer)) s.(f_mm).(heap);
         Ret (set_fbs r.2 l (set_fheap r.1 s))
  end.

(** The registration with devfs, whose result is dropped, is apart. *)
Definition fb_init (info : FbInfo) (s : fbstate) : outcome (fbstate * Z) :=
  if negb info.(has_fb) then Ret (s, - ENOENT)
  else
    let bpp := info.(fb_bpp) in
    let fb_size := u32 (u32 (info.(fb_width) * info.(fb_height)) * (bpp / 8)) in
    r ← fb_new_framebuffer s;
    let '(s, fb) := r : fbstate * Z in
    if fb =? 0 then Ret (s, - ENOMEM)
    else
      d ← dma_map_range koff info.(fb_pa) fb_size PAGE_RW s.(f_proc) s.(f_mm);
      let '(mm, p, (err, va)) := d : Paging.mstate H * dmaproc * (Z * Z) in
      let s := mkFS mm p s.(g_fbs) s.(fbs) in
      if err <? 0 then s ← fb_destroy_framebuffer fb s; Ret (s, err)
      else
        Ret (set_fbs s.(g_fbs) (alter (fun old => mkFb info.(fb_pa) va info.(fb_width) info.(fb_height) bpp (bpp / 8) old.(takeover))
                                  (fb_index s fb) s.(fbs)) s, 0).
Definition fb_main (info : FbInfo) (s : fbstate) : outcome (fbstate * Z) := fb_init info s.
End fb.

(** [memcpy] from the local [pixel]. *)
Definition fb_write_pixel (x y pixel : Z) (fb : FrameBuffer) (m : gmap Z Z) : outcome (gmap Z Z) :=
  let off := u32 (u32 (u32 (y * fb.(width)) * fb.(bytespp)) + u32 (x * fb.(bytespp))) in
  if fb.(bytespp) >? 4 then Undef
  else put_bytes m (u32 (fb.(base_va) + off)) (take (Z.to_nat fb.(bytespp)) (word_bytes pixel)).

(** ** [fb_devfs.c] *)

(** The bytes of [FBInfo]; its padding is zero. *)
Definition fbinfo_bytes (fb : FrameBuffer) : list Z :=
  word_bytes fb.(width) ++ word_bytes fb.(height) ++ [u8 fb.(bpp); 0; 0; 0].
(** [fb] is the node's [data]: none is null. *)
Definition fbio_get_info (fb : option FrameBuffer) (info : Z) (u : gmap Z Z) : outcome (gmap Z Z * Z) :=
  match fb with None => Panic | Some fb => Ret (user_copy_to u info (fbinfo_bytes fb)) end.
Definition fb_vnode_open (fb : FrameBuffer) : FrameBuffer * Z := (set_takeover fb, 0).
Definition fb_vnode_read : Z := -1.
(** User memory [u], kernel memory [m]. *)
Definition fb_vnode_write (fb : option FrameBuffer) (u : gmap Z Z) (buf n off : Z) (m : gmap Z Z) : outcome (gmap Z Z * Z) :=
  match fb with
  | None => Panic
  | Some fb =>
      let fbsize := u32 (u32 (fb.(width) * fb.(height)) * fb.(bytespp)) in
      if u32 (off + n) >? fbsize then Ret (m, - ENOSPC)
      else
        let '(st, bytes) := user_copy_from u buf n in
        m ← put_bytes m (u32 (fb.(base_va) + off)) bytes; Ret (m, st)
  end.
Definition fb_vnode_ioctl (fb : option FrameBuffer) (req data : Z) (u : gmap Z Z) : outcome (gmap Z Z * Z) :=
  if req =? FBIO_GET_INFO then fbio_get_info fb data u else Ret (u, - EINVAL).

Section mmap.
Context {H : Type} `{!Allocator H} `{!AlignedAllocator H} (koff : Z).
(** [bpp] comes back from an 8-bit member. *)
Definition fb_vnode_mmap (fb : option FrameBuffer) (addr len prot off : Z) (p : dmaproc) (s : Paging.mstate H) :
    outcome (Paging.mstate H * dmaproc * Z) :=
  if len =? 0 then Ret (s, p, 0)
  else
    _ ← assert_ (addr =? 0); _ ← assert_ (off =? 0);
    match fb with
    | None => Panic
    | Some fb =>
        let fblen := u32 (u32 (fb.(width) * fb.(height)) * (u8 fb.(bpp) / 8)) in
        if len >? fblen then Ret (s, p, E2BIG)
        else
          let map_flags := Z.lor (Z.lor PAGE_USER (if Z.land prot PROT_READ =? 0 then 0 else PAGE_R))
                                 (if Z.land prot PROT_WRITE =? 0 then 0 else PAGE_W) in
          d ← dma_map_range koff fb.(base_pa) len map_flags p s;
          let '(s, p, (err, va)) := d : Paging.mstate H * dmaproc * (Z * Z) in
          if negb (err =? 0) then Ret (s, p, 0) else Ret (s, p, va)
    end.
End mmap.

(** [namebuf] is the local [name], [fmt] the literal ["fb%d"], and [ops] the
    operations above. *)
Definition S_IFREG : Z := 0x8000.
Definition FB_MODE : Z := Z.lor S_IFREG (Z.lor (Z.lor 0x100 0x80) (Z.lor 0x20 0x10)).
Section register.
Context {H : Type} `{!Allocator H} (tmpbuf namebuf fmt ops : Z).
Definition fb_devfs_register (n fb : Z) (m : gmap Z Z) (s : vstate H ramstate) : outcome (vstate H ramstate * Z) :=
  if n >? 9 then Ret (s, - E2BIG)
  else
    r ← snprintf tmpbuf m namebuf 4 fmt [n];
    name ← read_str r.1 namebuf;
    devfs_register name FB_MODE 0 0 ops fb s.
End register.

(** ** Bytes in memory *)
Lemma put_bytes_spec l : forall m a, mapped m a (Z.of_nat (length l)) -> put_bytes m a l = Ret (write_bytes m a (u8 <$> l)).
Proof.
  induction l as [|b l IH]; intros m a Hm; cbn [put_bytes write_bytes fmap list_fmap length]; [done|].
  unfold store. destruct (Hm a) as [c Hc]; [cbn; lia|]. rewrite Hc, bind_Ret. apply IH.
  intros x Hx. destruct (decide (x = a)) as [->|]; [by rewrite lookup_insert_eq|].
  rewrite lookup_insert_ne by done. apply Hm. cbn [length]. lia.
Qed.

Lemma copy_loop_length u n : forall src acc, (length (copy_loop n u src acc).2 <= length acc + n)%nat /\
  ((copy_loop n u src acc).1 = 0 -> length (copy_loop n u src acc).2 = (length acc + n)%nat) /\ (copy_loop n u src acc).1 <= 0.
Proof.
  induction n as [|n IH]; intros src acc; cbn [copy_loop fst snd]; [lia|].
  destruct (movl u src) as [b|]; cbn [fst snd]; [|unfold User.EFAULT; lia].
  specialize (IH (src + 1) (acc ++ [b])). rewrite length_app in IH. cbn in IH. lia.
Qed.

(** *** A frame buffer that lies in memory *)
Record fb_ok (fb : FrameBuffer) (m : gmap Z Z) : Prop := {
  fo_dims : 0 <= fb.(width) /\ 0 <= fb.(height) /\ 1 <= fb.(bytespp) <= 4;
  fo_size : fb.(width) * fb.(height) * fb.(bytespp) < 2 ^ 32;
  fo_va : 0 <= fb.(base_va) /\ fb.(base_va) + fb.(width) * fb.(height) * fb.(bytespp) <= 2 ^ 32;
  fo_map : mapped m fb.(base_va) (fb.(width) * fb.(height) * fb.(bytespp)) }.
(** The address of a pixel. *)
Definition pixel_addr (fb : FrameBuffer) (x y : Z) : Z := fb.(base_va) + (y * fb.(width) + x) * fb.(bytespp).
Definition pixel_bytes (fb : FrameBuffer) (pixel : Z) : list Z := take (Z.to_nat fb.(bytespp)) (word_bytes pixel).

Lemma fb_ok_write fb m a l : fb_ok fb m -> fb_ok fb (write_bytes m a l).
Proof.
  intros [H1 H2 H3 H4]. split; try done. intros x Hx. destruct (H4 x Hx) as [b Hb]. rewrite write_bytes_lookup.
  destruct (decide _); [|by rewrite Hb]. apply lookup_lt_is_Some. lia.
Qed.

Lemma word_bytes_bytes z : 0 <= z < 2 ^ 32 -> Forall is_byte (word_bytes z).
Proof.
  intros Hz. unfold word_bytes, is_byte.
  apply Forall_cons; split; [apply Z.mod_pos_bound; lia|]. apply Forall_cons; split; [apply Z.mod_pos_bound; lia|].
  apply Forall_cons; split; [apply Z.mod_pos_bound; lia|]. apply Forall_cons; split; [|by apply Forall_nil]. Z.div_mod_to_equations; lia.
Qed.

Lemma u8_bytes l : Forall is_byte l -> u8 <$> l = l.
Proof. induction 1 as [|b l Hb _ IH]; [done|]. cbn. rewrite IH, u8_small; done. Qed.

Lemma pixel_bytes_length fb z m : fb_ok fb m -> length (pixel_bytes fb z) = Z.to_nat fb.(bytespp).
Proof. intros [H1 _ _ _]. unfold pixel_bytes. rewrite length_take. cbn. lia. Qed.

Lemma pixel_inside fb m x y : fb_ok fb m -> 0 <= x < fb.(width) -> 0 <= y < fb.(height) ->
  fb.(base_va) <= pixel_addr fb x y /\
  pixel_addr fb x y + fb.(bytespp) <= fb.(base_va) + fb.(width) * fb.(height) * fb.(bytespp).
Proof.
  intros [(H1 & H2 & H3) H4 H5 _] Hx Hy. unfold pixel_addr.
  assert (A : 0 <= y * width fb + x) by nia. assert (B : y * width fb + x + 1 <= width fb * height fb) by nia.
  assert (C : (y * width fb + x + 1) * bytespp fb <= width fb * height fb * bytespp fb) by (apply Z.mul_le_mono_nonneg_r; lia).
  split; [|lia]. assert (0 <= (y * width fb + x) * bytespp fb) by (apply Z.mul_nonneg_nonneg; lia). lia.
Qed.

Lemma fb_write_pixel_spec fb m x y pixel : fb_ok fb m -> 0 <= x < fb.(width) -> 0 <= y < fb.(height) -> is_u32 pixel ->
  fb_write_pixel x y pixel fb m = Ret (write_bytes m (pixel_addr fb x y) (pixel_bytes fb pixel)).
Proof.
  intros Hok Hx Hy Hp. pose proof (pixel_inside fb m x y Hok Hx Hy) as [L R]. pose proof Hok as [(H1 & H2 & H3) H4 H5 H6].
  unfold fb_write_pixel. rewrite Z.gtb_ltb. rewrite (proj2 (Z.ltb_ge _ _)) by lia.
  assert (A1 : 0 <= y * width fb) by nia. assert (A2 : y * width fb + x + 1 <= width fb * height fb) by nia.
  assert (B3 : 0 <= x * bytespp fb) by (apply Z.mul_nonneg_nonneg; lia).
  assert (B1 : y * width fb <= y * width fb * bytespp fb) by nia.
  assert (B2 : (y * width fb + x) * bytespp fb <= width fb * height fb * bytespp fb) by (apply Z.mul_le_mono_nonneg_r; lia).
  rewrite Z.mul_add_distr_r in B2.
  unfold pixel_addr in *.
  rewrite (u32_small (y * width fb)), (u32_small (y * width fb * bytespp fb)), (u32_small (x * bytespp fb)) by (unfold is_u32; lia).
  rewrite (u32_small (y * width fb * bytespp fb + x * bytespp fb)), u32_small by (unfold is_u32; lia).
  replace (base_va fb + (y * width fb * bytespp fb + x * bytespp fb)) with (base_va fb + (y * width fb + x) * bytespp fb) by lia.
  fold (pixel_bytes fb pixel). rewrite put_bytes_spec.
  - rewrite u8_bytes; [done|]. unfold pixel_bytes. apply Forall_take, word_bytes_bytes. exact Hp.
  - rewrite (pixel_bytes_length fb pixel m Hok). intros a Ha. apply H6. lia.
Qed.

(** Two pixels share no byte. *)
Lemma pixels_apart fb m x y x' y' : fb_ok fb m -> 0 <= x < fb.(width) -> 0 <= x' < fb.(width) -> (x, y) <> (x', y') ->
  pixel_addr fb x y + fb.(bytespp) <= pixel_addr fb x' y' \/ pixel_addr fb x' y' + fb.(bytespp) <= pixel_addr fb x y.
Proof.
  intros [(H1 & H2 & H3) _ _ _] Hx Hx' Hne. unfold pixel_addr.
  assert (Hl : y * width fb + x <> y' * width fb + x').
  { intros E. apply Hne. assert (y = y') as -> by nia. f_equal. lia. }
  destruct (Z.lt_ge_cases (y * width fb + x) (y' * width fb + x')); [left|right]; nia.
Qed.

(** *** Writing through the file *)
Lemma fb_vnode_write_spec fb m u buf n off : fb_ok fb m -> 0 <= off -> 0 <= n -> off + n < 2 ^ 32 ->
  fb_vnode_write (Some fb) u buf n off m =
    if fb.(width) * fb.(height) * fb.(bytespp) <? off + n then Ret (m, - ENOSPC)
    else Ret (write_bytes m (fb.(base_va) + off) (u8 <$> (user_copy_from u buf n).2), (user_copy_from u buf n).1).
Proof.
  intros [(H1 & H2 & H3) H4 H5 H6] Ho Hn Hs. unfold fb_vnode_write.
  rewrite (u32_small (off + n)), Z.gtb_ltb by (unfold is_u32; lia).
  assert (0 <= width fb * height fb) by nia. assert (width fb * height fb <= width fb * height fb * bytespp fb) by nia.
  rewrite (u32_small (width fb * height fb)), (u32_small (_ * bytespp fb)) by (unfold is_u32; nia).
  destruct (Z.ltb_spec (width fb * height fb * bytespp fb) (off + n)) as [Hlt|Hge]; [done|].
  pose proof (copy_loop_length u (Z.to_nat n) buf []) as (Hl & _ & _). unfold user_copy_from.
  destruct (copy_loop (Z.to_nat n) u buf []) as [st bytes]. cbn [fst snd length] in *.
  destruct (decide (n = 0)) as [->|].
  { assert (bytes = []) as -> by (destruct bytes; cbn in *; [done|lia]). done. }
  rewrite (u32_small (base_va fb + off)), put_bytes_spec; [done| |unfold is_u32; lia].
  intros a Ha. apply H6. lia.
Qed.

(** ** Bringing the boot loader's frame buffer up *)
Section init.
Context (koff : Z) (Hkoff : 0 <= koff < 2 ^ 32) (Hkoff' : (PAGESIZE | koff)) (garbage : FrameBuffer).

(** Nothing is there yet; the process that maps it can. *)
Record before_fb (s : fbstate (H := kstate)) : Prop := {
  bf_none : s.(g_fbs) = 0 /\ s.(fbs) = [];
  bf_dma : dma_ok koff s.(f_mm) s.(f_proc) }.

Lemma new_fb_spec s : before_fb s ->
  exists h q, krealloc_ 0 sizeof_FrameBuffer s.(f_mm).(heap) = Ret (h, q) /\
    fb_new_framebuffer garbage s = Ret (if q =? 0 then (set_fheap h s, 0) else (set_fbs q [garbage] (set_fheap h s), q)) /\
    dma_ok koff (set_heap s.(f_mm) h) s.(f_proc) /\ (q <> 0 -> live h q <> None /\ s.(f_mm).(tables) !! q = None).
Proof.
  intros [[E1 E2] [Hps Hbm Hsp Hva Hend]]. destruct (realloc_law s.(f_mm).(heap) 0 sizeof_FrameBuffer (pw_alloc _ _ _ Hps)) as (h & q & Hr & Hh & Hc);
    [unfold sizeof_FrameBuffer; lia|by left|].
  pose proof (lowest_krealloc _ _ _ _ _ (pw_alloc _ _ _ Hps) Hr) as Hlow.
  exists h, q. split; [done|]. unfold fb_new_framebuffer, g_fb_count. rewrite E1, E2. cbn [length]. change (u32 ((Z.of_nat 0 + 1) * sizeof_FrameBuffer)) with sizeof_FrameBuffer.
  rewrite Hr, bind_Ret. cbn [fst snd]. split; [|split].
  - destruct (q =? 0); [done|]. cbn [fbs set_fheap set_fbs g_fbs app length]. rewrite E2. cbn [app length]. do 3 f_equal. lia.
  - split; try done. apply ps_wf_heap; [done|done|done|]. intros b Hb. destruct Hc as [[_ Hl]|(Hq & Hn & Hl)]; [apply Hl|].
    pose proof (live_not_null _ _ (pw_alloc _ _ _ Hps) Hb) as Hb0. rewrite Hl, decide_False, decide_False; [done|done|].
    intros ->. destruct Hn; congruence.
  - intros Hq. destruct Hc as [[? _]|(_ & Hn & Hl)]; [done|]. assert (Hlq : live h q <> None) by by rewrite Hl, decide_True.
    split; [done|]. destruct (tables (f_mm s) !! q) eqn:E; [|done]. exfalso. destruct Hn as [?|Hn]; [done|].
    pose proof (lowest_law h q Hh Hlq) as Hlo. destruct (pw_live _ _ _ Hps q) as [?|?]; [by rewrite E|done|lia].
Qed.

Definition fb_dims_ok (info : FbInfo) : Prop :=
  0 <= info.(fb_pa) /\ info.(fb_pa) mod PAGESIZE = 0 /\ 1 <= info.(fb_width) /\ 1 <= info.(fb_height) /\ 8 <= info.(fb_bpp) /\
  info.(fb_pa) + (info.(fb_width) * info.(fb_height) * (info.(fb_bpp) / 8) + PAGESIZE) <= 2 ^ 32.

(** The frame buffer the boot loader described, seen at [va]. *)
Definition described (info : FbInfo) (va : Z) : FrameBuffer :=
  mkFb info.(fb_pa) va info.(fb_width) info.(fb_height) info.(fb_bpp) (info.(fb_bpp) / 8) garbage.(takeover).

Lemma pages_cover n : n <= (n + PAGESIZE - 1) / PAGESIZE * PAGESIZE.
Proof. unfold PAGESIZE. Z.div_mod_to_equations. lia. Qed.

Lemma fb_init_spec info s : before_fb s -> info.(has_fb) = true -> fb_dims_ok info ->
  fb_init koff garbage info s = Panic \/
  exists s' st, fb_init koff garbage info s = Ret (s', st) /\ ps_wf koff s'.(f_mm) s.(f_proc).(paging_struct).(data) /\
    ((st < 0 /\ s'.(g_fbs) = 0 /\ s'.(fbs) = []) \/
     (st = 0 /\ exists va, s'.(fbs) = [described info va] /\
      forall a, 0 <= a < info.(fb_width) * info.(fb_height) * (info.(fb_bpp) / 8) ->
        mm_va2pa_arch koff (va + a) s.(f_proc).(paging_struct) s'.(f_mm) = Ret (info.(fb_pa) + a))).
Proof.
  intros Hb Hhas (Hp0 & Hpal & Hw & Hh & Hbpp & Hend). unfold fb_init. rewrite Hhas. cbn [negb].
  set (bytes := info.(fb_bpp) / 8). assert (1 <= bytes) by (unfold bytes; Z.div_mod_to_equations; lia).
  set (n := info.(fb_width) * info.(fb_height) * bytes) in *.
  assert (Hn : 1 <= n /\ 0 <= info.(fb_width) * info.(fb_height) <= n) by (unfold n; nia).
  assert (En : u32 (u32 (info.(fb_width) * info.(fb_height)) * bytes) = n).
  { unfold n, PAGESIZE in *. rewrite (u32_small (_ * fb_height info)), u32_small by (unfold is_u32; lia). done. }
  rewrite En. destruct (new_fb_spec s Hb) as (h & q & _ & -> & Hd & Hl). rewrite bind_Ret.
  destruct (Z.eqb_spec q 0) as [E0|E0].
  { right. cbn [fst snd]. rewrite Z.eqb_refl. eexists _, _. split; [reflexivity|]. split; [apply Hd|]. left. split; [done|]. apply Hb. }
  cbv beta iota. rewrite (proj2 (Z.eqb_neq q 0)) by done.
  cbn [f_mm f_proc set_fbs set_fheap g_fbs fbs].
  destruct (dma_map_range_full koff (set_heap s.(f_mm) h) s.(f_proc) info.(fb_pa) n PAGE_RW Hkoff Hkoff' Hd Hpal Hp0)
    as [->|(mm & p & err & va & -> & Hps & Hg & Hc)]; [lia|unfold PAGESIZE in *; lia|unfold PAGESIZE in *; lia|by left|right].
  rewrite bind_Ret. cbv beta iota. destruct Hc as [[Herr _]|(-> & _ & Ht & _)].
  - rewrite (proj2 (Z.ltb_lt _ _)) by done. unfold fb_destroy_framebuffer. cbn [fbs g_fbs length f_mm take Nat.sub].
    destruct (Hl E0) as [Hl1 Hl3]. destruct (Hg q Hl1) as [Hlq Htq]. cbn [heap set_heap tables] in Hlq, Htq.
    destruct (free_law mm.(heap) q (pw_alloc _ _ _ Hps)) as (h2 & Hf & Hh2 & Hl2); [rewrite Hlq; auto|].
    rewrite Hf, bind_Ret. eexists _, _. split; [reflexivity|]. cbn [f_mm set_fbs set_fheap g_fbs fbs]. split; [|by left].
    pose proof (lowest_kfree _ _ _ (pw_alloc _ _ _ Hps) Hf) as Hlow. destruct Hps as [Pa Pl Pv Pt]. split; [done|cbn [heap set_heap]; lia| |exact Pt].
    intros a Ha. cbn [heap set_heap tables] in *. destruct (Pv a Ha) as [Hla|Hla]; [left|right; lia].
    rewrite Hl2, decide_False; [done|]. intros ->. by rewrite (Htq Hl3) in Ha.
  - cbn [Z.ltb Z.compare]. eexists _, _. split; [reflexivity|]. cbn [f_mm fbs set_fbs g_fbs fb_index]. split; [exact Hps|].
    right. split; [done|]. exists va. unfold fb_index. cbn [g_fbs]. rewrite Z.sub_diag. split; [done|].
    intros a Ha. destruct (Ht (va + a)) as [E _]; [pose proof (pages_cover n); lia|]. rewrite E. f_equal. lia.
Qed.
End init.


Definition demo_fbstate : fbstate (H := kstate) := mkFS (demo_mm falloc_boot) demo_dma 0 [].
Definition demo_garbage : FrameBuffer := mkFb 0 0 0 0 0 0 true.
Definition demo_info : FbInfo := mkFbInfo true 0xFD000000 16 8 32.


(** Four bytes at offset [2^32 - 4]: the sum is 0, the check passes, and the
    bytes land in front of the frame buffer. *)
Example write_wraps :
  fb_vnode_write (Some (mkFb 0 0x1000 4 4 32 4 false)) (write_bytes ∅ 100 (replicate 8 7)) 100 4 (2 ^ 32 - 4)
    (write_bytes ∅ 0xFFC (replicate 68 0)) = Ret (write_bytes (write_bytes ∅ 0xFFC (replicate 68 0)) 0xFFC [7; 7; 7; 7], 0).
Proof. by vm_compute. Qed.
