(* ===== verification/Fbsink.v ===== *)
(** * Text on a frame buffer

    [drivers/sinks/fbsink/psf.c]: the font linked into the kernel, and
    [fbsink.c]: a cursor for each frame buffer, the glyphs painted at it, and
    scrolling, over the byte memory of [CString]. *)
From S2P Require Import Prelude Alloc CString Kmalloc Storage Boot Fb.

(** ** Data ([psf.h], [sink.h]) *)
Definition ENODEV : Z := 19.
Definition PSF2_MAGIC : Z := 0x864ab572.
Record PSF2Header := mkPsf {
  psf_magic : Z; psf_version : Z; header_size : Z; psf_flags : Z; glyph_count : Z; glyph_size : Z; glyph_height : Z; glyph_width : Z }.
Definition KOUTPUT_BLACK : Z := 0.
Definition KOUTPUT_RED : Z := 1.
Definition KOUTPUT_GREEN : Z := 2.
Definition KOUTPUT_YELLOW : Z := 3.
Definition KOUTPUT_BLUE : Z := 4.
Definition KOUTPUT_MAGENTA : Z := 5.
Definition KOUTPUT_CYAN : Z := 6.
Definition KOUTPUT_WHITE : Z := 7.

Definition load_psf (m : gmap Z Z) (p : Z) : outcome PSF2Header :=
  a ← load_le 4 m p; b ← load_le 4 m (p + 4); c ← load_le 4 m (p + 8); d ← load_le 4 m (p + 12);
  e ← load_le 4 m (p + 16); f ← load_le 4 m (p + 20); g ← load_le 4 m (p + 24); h ← load_le 4 m (p + 28);
  Ret (mkPsf a b c d e f g h).

(** A frame buffer is named by its index in the array of [fb.c]. *)
Record FrameBufferRenderContext := mkRC { rc_fb : nat; cx : Z; cy : Z; glyphs_per_row : Z; glyphs_per_col : Z }.
Definition sizeof_FrameBufferRenderContext : Z := 20.
Definition sizeof_FrameBufferSinkContext : Z := 20.
Definition set_cursor (x y : Z) (r : FrameBufferRenderContext) : FrameBufferRenderContext :=
  mkRC r.(rc_fb) x y r.(glyphs_per_row) r.(glyphs_per_col).
Record FrameBufferSinkContext := mkFSC {
  contexts_ptr : Z; contexts : list FrameBufferRenderContext; font : Z; glyph_buf : Z }.
Definition set_contexts (l : list FrameBufferRenderContext) (c : FrameBufferSinkContext) : FrameBufferSinkContext :=
  mkFSC c.(contexts_ptr) l c.(font) c.(glyph_buf).

(** ** [psf.c] *)
Definition psf_validate_builtin (m : gmap Z Z) (psfu_start : Z) : outcome Z :=
  magic ← load_le 4 m psfu_start; Ret (if negb (magic =? PSF2_MAGIC) then - EINVAL else 0).
Definition psf_get_builtin_header (psfu_start : Z) : Z := psfu_start.
(** A [char] is signed, and its product with the size is unsigned. *)
Definition psf_get_glyph_data (c dest hdr : Z) (m : gmap Z Z) : outcome (gmap Z Z * Z) :=
  h ← load_psf m hdr;
  let base := u32 (u32 (hdr + h.(header_size)) + u32 (i8 c * h.(glyph_size))) in
  r ← memcpy m dest base h.(glyph_size); Ret (r.1, 0).

(** ** [fbsink.c] *)
Definition fbsink_koutput_color2pixel (color : Z) : Z :=
  if color =? KOUTPUT_BLACK then 0x0
  else if color =? KOUTPUT_RED then 0x00FF0000
  else if color =? KOUTPUT_GREEN then 0x0000FF00
  else if color =? KOUTPUT_YELLOW then 0x00FFFF00
  else if color =? KOUTPUT_BLUE then 0x000000FF
  else if color =? KOUTPUT_MAGENTA then 0x00FF00FF
  else if color =? KOUTPUT_CYAN then 0x0000FFFF
  else 0x00CCCCCC.

Definition fbsink_validate_render_contexts (c : FrameBufferSinkContext) : Z := 0.

(** [memcpy(dst, src, rowsize)] for the rows from [i] on, [n] of them. *)
Fixpoint scroll_loop (n : nat) (i buf rowsize rowoffset : Z) (m : gmap Z Z) : outcome (gmap Z Z) :=
  match n with
  | O => Ret m
  | S n =>
      let src := u32 (buf + u32 (i * rowoffset)) in
      let dst := u32 (buf + u32 ((i - 1) * rowoffset)) in
      r ← memcpy m dst src rowsize; scroll_loop n (i + 1) buf rowsize rowoffset r.1
  end.
Definition fbsink_scroll (hdr : Z) (fb : FrameBuffer) (r : FrameBufferRenderContext) (m : gmap Z Z) : outcome (gmap Z Z * Z) :=
  h ← load_psf m hdr;
  let rowsize := u32 (u32 (fb.(width) * fb.(bytespp)) * h.(glyph_height)) in
  let rowoffset := u32 (u32 (h.(glyph_height) * fb.(bytespp)) * fb.(width)) in
  let buf := fb.(base_va) in
  m ← scroll_loop (Z.to_nat (r.(glyphs_per_col) - 1)) 1 buf rowsize rowoffset m;
  let off := u32 (u32 (r.(glyphs_per_col) - 1) * rowoffset) in
  r ← memset m (u32 (buf + off)) 0 rowsize; Ret (r.1, 0).

(** The context and the memory afterwards. *)
Definition fbsink_newline_to_ctx (hdr : Z) (fb : FrameBuffer) (r : FrameBufferRenderContext) (m : gmap Z Z) :
    outcome (FrameBufferRenderContext * gmap Z Z) :=
  let r := set_cursor 0 r.(cy) r in
  if u32 (r.(cy) + 1) >=? r.(glyphs_per_col) then s ← fbsink_scroll hdr fb r m; Ret (r, s.1)
  else Ret (set_cursor r.(cx) (r.(cy) + 1) r, m).

(** The pixels of one row of a glyph, from bit [k]. *)
Fixpoint bits_loop (n : nat) (k glyphrow width x y pixel : Z) (fb : FrameBuffer) (m : gmap Z Z) : outcome (gmap Z Z) :=
  match n with
  | O => Ret m
  | S n =>
      m ← (if negb (Z.land glyphrow (Z.shiftl 1 k) =? 0)
           then fb_write_pixel (u32 (x + (width - 1 - k))) y pixel fb m else Ret m);
      bits_loop n (k + 1) glyphrow width x y pixel fb m
  end.
(** [memcpy] to the low bytes of the local [glyphrow], whose other bytes stay. *)
Definition read_row (m : gmap Z Z) (a : Z) (n : nat) (glyphrow : Z) : outcome Z :=
  b ← Fs.load_bytes n m a; Ret (Z.lor (Z.shiftl (Z.shiftr glyphrow (8 * Z.of_nat n)) (8 * Z.of_nat n)) (le b)).
Fixpoint rows_loop (n : nat) (i glyphrow : Z) (h : PSF2Header) (buf x y pixel : Z) (fb : FrameBuffer) (m : gmap Z Z) : outcome (gmap Z Z) :=
  match n with
  | O => Ret m
  | S n =>
      let bytes_per_row := h.(glyph_width) / 8 in
      g ← read_row m (u32 (buf + u32 (i * bytes_per_row))) (Z.to_nat bytes_per_row) glyphrow;
      m ← bits_loop (Z.to_nat h.(glyph_width)) 0 g h.(glyph_width) x (u32 (y + i)) pixel fb m;
      rows_loop n (i + 1) g h buf x y pixel fb m
  end.
(** [stale] is what the local [glyphrow] holds at first; the members of the
    header are read once. *)
Definition fbsink_print_char_to_ctx (stale c fgcolor : Z) (ctx : FrameBufferSinkContext) (fb : FrameBuffer)
    (r : FrameBufferRenderContext) (m : gmap Z Z) : outcome (FrameBufferRenderContext * gmap Z Z) :=
  h ← load_psf m ctx.(font);
  let x := u32 (r.(cx) * h.(glyph_width)) in
  let y := u32 (r.(cy) * h.(glyph_height)) in
  let pixel := fbsink_koutput_color2pixel fgcolor in
  g ← psf_get_glyph_data c ctx.(glyph_buf) ctx.(font) m;
  m ← rows_loop (Z.to_nat h.(glyph_height)) 0 stale h ctx.(glyph_buf) x y pixel fb g.1;
  if u32 (r.(cx) + 1) >=? r.(glyphs_per_row) then fbsink_newline_to_ctx ctx.(font) fb r m
  else Ret (set_cursor (r.(cx) + 1) r.(cy) r, m).

(** Every context whose frame buffer no program has taken over. *)
Fixpoint each_ctx (f : FrameBuffer -> FrameBufferRenderContext -> gmap Z Z -> outcome (FrameBufferRenderContext * gmap Z Z))
    (fbs : list FrameBuffer) (l : list FrameBufferRenderContext) (m : gmap Z Z) : outcome (list FrameBufferRenderContext * gmap Z Z) :=
  match l with
  | [] => Ret ([], m)
  | r :: l =>
      fb ← deref (fbs !! r.(rc_fb));
      q ← (if fb.(takeover) then Ret (r, m) else f fb r m);
      rest ← each_ctx f fbs l q.2; Ret (q.1 :: rest.1, rest.2)
  end.
Definition fbsink_newline (ctx : FrameBufferSinkContext) (fbs : list FrameBuffer) (m : gmap Z Z) : outcome (FrameBufferSinkContext * gmap Z Z) :=
  r ← each_ctx (fbsink_newline_to_ctx ctx.(font)) fbs ctx.(contexts) m; Ret (set_contexts r.1 ctx, r.2).
Definition fbsink_print_char (stale c fgcolor : Z) (ctx : FrameBufferSinkContext) (fbs : list FrameBuffer) (m : gmap Z Z) :
    outcome (FrameBufferSinkContext * gmap Z Z) :=
  r ← each_ctx (fbsink_print_char_to_ctx stale c fgcolor ctx) fbs ctx.(contexts) m; Ret (set_contexts r.1 ctx, r.2).

(** ** Starting and stopping the sink *)
Section init.
Context {H : Type} `{!Allocator H} (psfu_start : Z).
Definition context_of (h : PSF2Header) (i : nat) (fb : FrameBuffer) : FrameBufferRenderContext :=
  mkRC i 0 0 (fb.(width) / h.(glyph_width)) (fb.(height) / h.(glyph_height)).
(** The heap, the sink's [ctx] and what it points at, and the result; a height
    or width of zero divides by zero. *)
Definition fbsink_init (fbs : list FrameBuffer) (m : gmap Z Z) (h : H) : outcome (H * option (Z * FrameBufferSinkContext) * Z) :=
  if Z.of_nat (length fbs) =? 0 then Ret (h, None, - ENODEV)
  else
    st ← psf_validate_builtin m psfu_start;
    if st <? 0 then Ret (h, None, st)
    else
      let font := psf_get_builtin_header psfu_start in
      f ← load_psf m font;
      if f.(glyph_width) >=? 32 then Ret (h, None, - EINVAL)
      else
        a ← kmalloc_ sizeof_FrameBufferSinkContext h;
        if a.2 =? 0 then Ret (a.1, None, - ENOMEM)
        else
          b ← kmalloc_ f.(glyph_size) a.1;
          if b.2 =? 0 then h ← kfree_ a.2 b.1; Ret (h, None, - ENOMEM)
          else
            c ← kmalloc_ (u32 (Z.of_nat (length fbs) * sizeof_FrameBufferRenderContext)) b.1;
            if c.2 =? 0 then h ← kfree_ b.2 c.1; h ← kfree_ a.2 h; Ret (h, None, - ENOMEM)
            else if (f.(glyph_width) =? 0) || (f.(glyph_height) =? 0) then Undef
            else Ret (c.1, Some (a.2, mkFSC c.2 (imap (context_of f) fbs) font b.2), 0).
Definition fbsink_destroy (ctx : Z) (c : FrameBufferSinkContext) (h : H) : outcome H :=
  h ← kfree_ c.(contexts_ptr) h; h ← kfree_ c.(glyph_buf) h; kfree_ ctx h.
End init.

(** ** Painting *)
Section paint.
Context (fb : FrameBuffer) (pixel : Z) (Hpixel : is_u32 pixel).
Implicit Types (m : gmap Z Z) (l : list (Z * Z)).

Definition addr (p : Z * Z) : Z := pixel_addr fb p.1 p.2.
Definition paint l m : gmap Z Z := foldl (fun m p => write_bytes m (addr p) (pixel_bytes fb pixel)) m l.
Definition on_screen (p : Z * Z) : Prop := 0 <= p.1 < fb.(width) /\ 0 <= p.2 < fb.(height).

Lemma paint_ok l : forall m, fb_ok fb m -> fb_ok fb (paint l m).
Proof. induction l as [|p l IH]; intros m Hm; [done|]. apply IH, fb_ok_write, Hm. Qed.

Lemma paint_outside l : forall m a, fb_ok fb m -> (forall p, p ∈ l -> ~ addr p <= a < addr p + fb.(bytespp)) -> paint l m !! a = m !! a.
Proof.
  induction l as [|p l IH]; intros m a Hm Ha; [done|]. cbn [paint foldl]. fold (paint l).
  pose proof (proj2 (proj2 (fo_dims _ _ Hm))). etrans; [apply IH; [by apply fb_ok_write|intros q Hq; apply Ha; by right]|].
  apply write_bytes_outside. rewrite (pixel_bytes_length fb pixel m Hm). specialize (Ha p ltac:(by left)). lia.
Qed.

Lemma paint_at l : forall m p, fb_ok fb m -> Forall on_screen l -> p ∈ l -> bytes_at (paint l m) (addr p) (pixel_bytes fb pixel).
Proof.
  induction l as [|q l IH]; intros m p Hm Hl Hp; [by apply not_elem_of_nil in Hp|]. apply Forall_cons in Hl as [Hq Hl].
  set (m1 := write_bytes m (addr q) (pixel_bytes fb pixel)). assert (Hm1 : fb_ok fb m1) by by apply fb_ok_write.
  change (paint (q :: l) m) with (paint l m1). destruct (decide (p ∈ l)) as [Hin|Hnot]; [by apply IH|].
  apply elem_of_cons in Hp as [->|?]; [|done]. intros i b Hi.
  pose proof (lookup_lt_Some _ _ _ Hi) as Hlt. rewrite (pixel_bytes_length fb pixel m Hm) in Hlt.
  rewrite paint_outside; [by apply write_bytes_at|done|]. intros p Hp. rewrite Forall_forall in Hl. specialize (Hl p Hp).
  destruct q as [qx qy], p as [px py], Hq, Hl. unfold addr. cbn [fst snd] in *.
  destruct (pixels_apart fb m qx qy px py Hm) as [?|?]; [done|done| |lia|lia]. intros E. rewrite E in Hnot. done.
Qed.

Lemma paint_app l l' m : paint (l ++ l') m = paint l' (paint l m).
Proof. unfold paint. by rewrite foldl_app. Qed.

(** What lies outside the frame buffer stays. *)
Lemma paint_frame l m a : fb_ok fb m -> Forall on_screen l ->
  ~ fb.(base_va) <= a < fb.(base_va) + fb.(width) * fb.(height) * fb.(bytespp) -> paint l m !! a = m !! a.
Proof.
  intros Hm Hl Ha. apply paint_outside; [done|]. intros p Hp. rewrite Forall_forall in Hl. destruct (Hl p Hp).
  destruct (pixel_inside fb m p.1 p.2 Hm) as [? ?]; [done|done|]. unfold addr. lia.
Qed.

(** The pixels of the bits set in [b], from bit [k], [n] of them, and of the
    rows of a glyph. *)
Fixpoint row_lit (n : nat) (k x y b : Z) : list (Z * Z) :=
  match n with
  | O => []
  | S n => (if Z.testbit b k then [(x + (7 - k), y)] else []) ++ row_lit n (k + 1) x y b
  end.
Fixpoint glyph_lit (rows : list Z) (x y : Z) : list (Z * Z) :=
  match rows with [] => [] | b :: rows => row_lit 8 0 x y b ++ glyph_lit rows x (y + 1) end.

Lemma row_lit_elem n : forall k x y b p, p ∈ row_lit n k x y b <->
  p.2 = y /\ exists j, k <= j < k + Z.of_nat n /\ Z.testbit b j = true /\ p.1 = x + (7 - j).
Proof.
  induction n as [|n IH]; intros k x y b p; cbn [row_lit].
  - rewrite elem_of_nil. split; [done|]. intros (_ & j & ? & _). lia.
  - rewrite elem_of_app, IH. split.
    + intros [Hp|(E & j & Hj & Hb & Hx)].
      * destruct (Z.testbit b k) eqn:Ek; [|by apply not_elem_of_nil in Hp]. apply list_elem_of_singleton in Hp as ->.
        split; [done|]. exists k. split; [lia|done].
      * split; [done|]. exists j. split; [lia|done].
    + intros (E & j & Hj & Hb & Hx). destruct (decide (j = k)) as [->|].
      * left. rewrite Hb. apply list_elem_of_singleton. by destruct p; cbn in *; subst.
      * right. split; [done|]. exists j. split; [lia|done].
Qed.

Lemma glyph_lit_elem rows : forall x y p, p ∈ glyph_lit rows x y <->
  exists i b j, rows !! i = Some b /\ 0 <= j < 8 /\ Z.testbit b j = true /\ p = (x + (7 - j), y + Z.of_nat i).
Proof.
  induction rows as [|b rows IH]; intros x y p; cbn [glyph_lit].
  - rewrite elem_of_nil. split; [done|]. intros (i & b & j & E & _). done.
  - rewrite elem_of_app, row_lit_elem, IH. split.
    + intros [(E & j & Hj & Hb & Hx)|(i & c & j & Hi & Hj & Hb & ->)].
      * exists 0%nat, b, j. split; [done|]. split; [lia|]. split; [done|]. destruct p; cbn in *; subst. f_equal; lia.
      * exists (S i), c, j. do 3 (split; [done|]). f_equal; lia.
    + intros ([|i] & c & j & Hi & Hj & Hb & ->); cbn in Hi.
      * left. injection Hi as ->. cbn. split; [lia|]. exists j. split; [lia|done].
      * right. exists i, c, j. do 3 (split; [done|]). f_equal; lia.
Qed.

Lemma glyph_on_screen rows x y : 0 <= x -> x + 8 <= fb.(width) -> 0 <= y -> y + Z.of_nat (length rows) <= fb.(height) ->
  Forall on_screen (glyph_lit rows x y).
Proof.
  intros H1 H2 H3 H4. apply Forall_forall. intros p (i & b & j & Hi & Hj & _ & ->)%glyph_lit_elem.
  apply lookup_lt_Some in Hi. unfold on_screen. cbn. lia.
Qed.

(** *** The loops *)
Lemma bits_loop_spec n : forall k g b x y m, fb_ok fb m -> 0 <= k -> k + Z.of_nat n = 8 -> (forall j, 0 <= j < 8 -> Z.testbit g j = Z.testbit b j) ->
  0 <= x -> x + 8 <= fb.(width) -> 0 <= y < fb.(height) -> fb.(width) < 2 ^ 32 ->
  bits_loop n k g 8 x y pixel fb m = Ret (paint (row_lit n k x y b) m).
Proof.
  induction n as [|n IH]; intros k g b x y m Hm Hk Hn Hg Hx Hxw Hy Hw; cbn [bits_loop row_lit]; [done|].
  rewrite Bitmap.bit_test, negb_involutive, Hg by lia. rewrite (u32_small (x + (8 - 1 - k))) by (unfold is_u32; lia).
  replace (8 - 1 - k) with (7 - k) by lia. destruct (Z.testbit b k); cbn [app].
  - rewrite (fb_write_pixel_spec fb m) by (done || lia). rewrite bind_Ret.
    rewrite (IH (k + 1) g b x y) by (done || lia || by apply fb_ok_write). done.
  - rewrite bind_Ret. by rewrite (IH (k + 1) g b x y) by (done || lia).
Qed.

Lemma read_row_spec m a b g : m !! a = Some b -> is_byte b ->
  exists g', read_row m a 1 g = Ret g' /\ forall j, 0 <= j < 8 -> Z.testbit g' j = Z.testbit b j.
Proof.
  intros Hb Hbb. unfold read_row. cbn [Fs.load_bytes]. unfold load. rewrite Hb. cbn [deref]. rewrite !bind_Ret.
  eexists. split; [reflexivity|]. intros j Hj. change (le [b]) with (b + 256 * 0). rewrite Z.mul_0_r, Z.add_0_r.
  change (8 * Z.of_nat 1) with 8. rewrite Z.lor_spec, Z.shiftl_spec, Z.testbit_neg_r by lia. done.
Qed.

Definition apart_from_fb (p n : Z) : Prop := disjoint fb.(base_va) (fb.(width) * fb.(height) * fb.(bytespp)) p n.

Lemma rows_loop_spec h buf rows : h.(glyph_width) = 8 -> Forall is_byte rows -> 0 <= buf -> fb.(width) < 2 ^ 32 -> fb.(height) < 2 ^ 32 ->
  forall rest i g x y m, fb_ok fb m -> bytes_at m buf rows -> apart_from_fb buf (Z.of_nat (length rows)) ->
  drop i rows = rest -> (i <= length rows)%nat -> buf + Z.of_nat (length rows) <= 2 ^ 32 ->
  0 <= x -> x + 8 <= fb.(width) -> 0 <= y -> y + Z.of_nat (length rows) <= fb.(height) ->
  rows_loop (length rest) (Z.of_nat i) g h buf x y pixel fb m = Ret (paint (glyph_lit rest x (y + Z.of_nat i)) m).
Proof.
  intros Hgw Hrows Hbuf Hw Hh rest. induction rest as [|b rest IH]; intros i g x y m Hm Hat Hap Hdrop Hi Hend Hx Hxw Hy Hyh; cbn [rows_loop length glyph_lit]; [done|].
  assert (Hb : rows !! i = Some b) by (rewrite <- (Nat.add_0_r i), <- lookup_drop, Hdrop; done).
  pose proof (lookup_lt_Some _ _ _ Hb) as Hlt. rewrite Hgw. change (8 / 8) with 1. change (Z.to_nat 1) with 1%nat. rewrite Z.mul_1_r.
  rewrite (u32_small (Z.of_nat i)), (u32_small (buf + _)) by (unfold is_u32; lia).
  destruct (read_row_spec m (buf + Z.of_nat i) b g (Hat i b Hb)) as (g' & -> & Hg'); [by eapply Forall_lookup_1|].
  rewrite bind_Ret, (u32_small (y + Z.of_nat i)) by (unfold is_u32; lia).
  rewrite (bits_loop_spec (Z.to_nat 8) 0 g' b) by (done || lia). rewrite bind_Ret.
  assert (Hon : Forall on_screen (row_lit 8 0 x (y + Z.of_nat i) b)).
  { apply Forall_forall. intros p (E & j & Hj & _ & Ex)%row_lit_elem. unfold on_screen. lia. }
  replace (Z.of_nat i + 1) with (Z.of_nat (S i)) by lia.
  rewrite (IH (S i) g' x y); [|by apply paint_ok| |done| |lia|done|done|done|done|done].
  - rewrite paint_app. change (Z.to_nat 8) with 8%nat. by replace (y + Z.of_nat i + 1) with (y + Z.of_nat (S i)) by lia.
  - intros k c Hc. pose proof (lookup_lt_Some _ _ _ Hc). rewrite paint_frame; [by apply Hat|done|done|].
    unfold apart_from_fb, disjoint in Hap. lia.
  - replace (S i) with (i + 1)%nat by lia. by rewrite <- drop_drop, Hdrop.
Qed.
End paint.

(** ** The font *)
Definition same_on (m m' : gmap Z Z) (p n : Z) : Prop := forall a, p <= a < p + n -> m' !! a = m !! a.

Lemma load_bytes_same n : forall m m' p, same_on m m' p (Z.of_nat n) -> Fs.load_bytes n m' p = Fs.load_bytes n m p.
Proof.
  induction n as [|n IH]; intros m m' p Hs; cbn [Fs.load_bytes]; [done|]. unfold load. rewrite (Hs p) by lia.
  rewrite (IH m m'); [done|]. intros a Ha. apply Hs. lia.
Qed.

Lemma load_psf_same m m' p : same_on m m' p 32 -> load_psf m' p = load_psf m p.
Proof.
  intros Hs. unfold load_psf, load_le.
  assert (E : forall k, 0 <= k <= 28 -> Fs.load_bytes 4 m' (p + k) = Fs.load_bytes 4 m (p + k)).
  { intros k Hk. apply load_bytes_same. intros a Ha. apply Hs. lia. }
  pose proof (E 0 ltac:(lia)) as E0. rewrite Z.add_0_r in E0. rewrite E0, !E by lia. done.
Qed.

(** A font of glyphs 8 pixels wide at [font]. *)
Record font_ok (m : gmap Z Z) (font : Z) (h : PSF2Header) : Prop := {
  ft_load : load_psf m font = Ret h;
  ft_width : h.(glyph_width) = 8;
  ft_height : 1 <= h.(glyph_height) <= h.(glyph_size);
  ft_size : h.(glyph_size) < 2 ^ 20;
  ft_base : 0 <= font /\ 0 <= h.(header_size) /\ font + h.(header_size) + 128 * h.(glyph_size) <= 2 ^ 32 }.
Definition glyph_addr (h : PSF2Header) (font c : Z) : Z := font + h.(header_size) + c * h.(glyph_size).

Lemma glyph_data_spec m font h c dest data : font_ok m font h -> 0 <= c < 128 -> bytes_at m (glyph_addr h font c) data ->
  Z.of_nat (length data) = h.(glyph_size) -> Forall is_byte data -> mapped m dest h.(glyph_size) ->
  dest <= glyph_addr h font c \/ glyph_addr h font c + h.(glyph_size) <= dest ->
  psf_get_glyph_data c dest font m = Ret (write_bytes m dest data, 0).
Proof.
  intros [Hl _ Hh Hs (Hf & Hhs & Hend)] Hc Hat Hlen Hb Hm Hd. unfold psf_get_glyph_data. rewrite Hl, bind_Ret. cbv zeta.
  assert (Ei : i8 c = c) by (apply i8_small; lia). unfold glyph_addr in *.
  assert (0 <= c * glyph_size h <= 127 * glyph_size h) by nia.
  rewrite Ei, (u32_small (font + _)), (u32_small (c * _)), u32_small by (unfold is_u32; lia).
  rewrite <- Hlen. rewrite (memcpy_spec m dest _ data) by (done || rewrite Hlen; done). done.
Qed.

(** ** Scrolling

    The text rows of a screen, each as many bytes as it has in memory. *)
Definition text_rows (h : PSF2Header) (fb : FrameBuffer) (r : FrameBufferRenderContext) (m : gmap Z Z) (rows : list (list Z)) : Prop :=
  bytes_at m fb.(base_va) (concat rows) /\ Z.of_nat (length rows) = r.(glyphs_per_col) /\
  Forall (fun row => Forall is_byte row /\ Z.of_nat (length row) = fb.(width) * fb.(bytespp) * h.(glyph_height)) rows.

Lemma concat_length (n : nat) (rows : list (list Z)) : Forall (fun row => length row = n) rows -> length (concat rows) = (length rows * n)%nat.
Proof. induction 1 as [|r rows Hr _ IH]; cbn; [done|]. rewrite length_app, Hr, IH. lia. Qed.

Lemma rows_at m base n rows i row : bytes_at m base (concat rows) -> Forall (fun r => length r = n) rows -> rows !! i = Some row ->
  bytes_at m (base + Z.of_nat (i * n)) row.
Proof.
  intros Hat Hl Hi. rewrite <- (take_drop_middle rows i row Hi) in Hat. rewrite concat_app in Hat. cbn [concat] in Hat.
  apply bytes_at_app in Hat as [_ Hat]. apply bytes_at_app in Hat as [Hat _].
  rewrite (concat_length n) in Hat by by apply Forall_take. rewrite length_take in Hat.
  pose proof (lookup_lt_Some _ _ _ Hi). by replace (i `min` length rows)%nat with i in Hat by lia.
Qed.

Lemma scroll_loop_spec m base n rows : Forall (fun r => length r = n) rows -> Forall (Forall is_byte) rows ->
  bytes_at m base (concat rows) -> 0 <= base -> (1 <= n)%nat -> base + Z.of_nat (length rows * n) <= 2 ^ 32 ->
  forall k i, (1 <= i)%nat -> (i + k = length rows)%nat ->
  scroll_loop k (Z.of_nat i) base (Z.of_nat n) (Z.of_nat n) (write_bytes m base (concat (take (i - 1) (tail rows)))) =
  Ret (write_bytes m base (concat (tail rows))).
Proof.
  intros Hl Hb Hat Hb0 Hn Hend k. induction k as [|k IH]; intros i Hi Hik; cbn [scroll_loop].
  - rewrite take_ge; [done|]. destruct rows; cbn in *; lia.
  - destruct (lookup_lt_is_Some_2 rows i) as [row Hrow]; [lia|]. pose proof (rows_at m base n rows i row Hat Hl Hrow) as Hsrc.
    assert (Hlen : length row = n) by by eapply (Forall_lookup_1 _ _ _ _ Hl).
    assert (Htl : tail rows !! (i - 1)%nat = Some row).
    { destruct rows as [|r0 rows]; [done|]. cbn. rewrite <- Hrow. destruct i as [|i]; [lia|]. cbn. by replace (i - 0)%nat with i by lia. }
    set (done_ := concat (take (i - 1) (tail rows))).
    assert (Hd : length done_ = ((i - 1) * n)%nat).
    { unfold done_. rewrite (concat_length n), length_take; [|apply Forall_take; by destruct rows; [|apply Forall_cons in Hl as [_ ?]]].
      apply lookup_lt_Some in Htl. lia. }
    assert (Esrc : u32 (base + u32 (Z.of_nat i * Z.of_nat n)) = base + Z.of_nat (i * n)).
    { rewrite Nat2Z.inj_mul, (u32_small (_ * _)), u32_small by (unfold is_u32; nia). done. }
    assert (Edst : u32 (base + u32 ((Z.of_nat i - 1) * Z.of_nat n)) = base + Z.of_nat (length done_)).
    { rewrite Hd. replace (Z.of_nat i - 1) with (Z.of_nat (i - 1)) by lia. rewrite Nat2Z.inj_mul, (u32_small (_ * _)), u32_small by (unfold is_u32; nia). done. }
    rewrite Esrc, Edst. pose proof (memcpy_spec (write_bytes m base done_) (base + Z.of_nat (length done_)) (base + Z.of_nat (i * n)) row) as Hcp.
    rewrite Hlen in Hcp. rewrite Hcp; [|apply write_bytes_bytes_at; [done|unfold disjoint; rewrite Hd, Hlen; nia]
      |by eapply (Forall_lookup_1 _ _ _ _ Hb)| |left; rewrite Hd; nia].
    2: { apply write_bytes_mapped. apply bytes_at_mapped in Hat. rewrite (concat_length n) in Hat by done.
         intros a Ha. apply Hat. rewrite Hd in Ha. nia. }
    rewrite bind_Ret. cbn [fst]. rewrite <- write_bytes_app.
    replace (done_ ++ row) with (concat (take (S i - 1) (tail rows))).
    2: { replace (S i - 1)%nat with (S (i - 1)) by lia. rewrite (take_S_r _ _ _ Htl), concat_app. cbn. by rewrite app_nil_r. }
    replace (Z.of_nat i + 1) with (Z.of_nat (S i)) by lia. apply IH; lia.
Qed.

(** Scrolling drops the first text row and clears the last. *)
Lemma fbsink_scroll_spec m hdr h fb r rows : load_psf m hdr = Ret h -> fb_ok fb m -> text_rows h fb r m rows -> 1 <= fb.(width) -> 1 <= h.(glyph_height) ->
  1 <= r.(glyphs_per_col) -> r.(glyphs_per_col) * h.(glyph_height) <= fb.(height) ->
  fbsink_scroll hdr fb r m =
    Ret (write_bytes m fb.(base_va) (concat (tail rows ++ [replicate (Z.to_nat (fb.(width) * fb.(bytespp) * h.(glyph_height))) 0])), 0).
Proof.
  intros Hl Hok (Hat & Hn & Hrows) Hw Hgh Hgc Hfit. pose proof Hok as [(H1 & H2 & H3) H4 [H5 H6] H7]. unfold fbsink_scroll. rewrite Hl, bind_Ret. cbv zeta.
  set (rs := fb.(width) * fb.(bytespp) * h.(glyph_height)). fold rs in Hrows.
  assert (Hall : r.(glyphs_per_col) * rs <= fb.(width) * fb.(height) * fb.(bytespp)).
  { unfold rs. replace (glyphs_per_col r * (width fb * bytespp fb * glyph_height h)) with (width fb * bytespp fb * (glyphs_per_col r * glyph_height h)) by lia.
    replace (width fb * height fb * bytespp fb) with (width fb * bytespp fb * height fb) by lia. apply Z.mul_le_mono_nonneg_l; [nia|done]. }
  assert (Hrs : 1 <= rs) by (unfold rs; nia). assert (Hrs2 : rs <= r.(glyphs_per_col) * rs) by nia.
  assert (A1 : 0 <= fb.(width) * fb.(bytespp) <= rs) by (unfold rs; nia). assert (A2 : 0 <= h.(glyph_height) * fb.(bytespp) <= rs) by (unfold rs; nia).
  assert (E1 : u32 (u32 (width fb * bytespp fb) * glyph_height h) = rs).
  { rewrite (u32_small (width fb * bytespp fb)), u32_small by (unfold is_u32; lia). done. }
  assert (E2 : u32 (u32 (glyph_height h * bytespp fb) * width fb) = rs).
  { rewrite (u32_small (glyph_height h * bytespp fb)) by (unfold is_u32; lia).
    replace (glyph_height h * bytespp fb * width fb) with rs by (unfold rs; lia). apply u32_small. unfold is_u32. lia. }
  rewrite E1, E2. set (n := Z.to_nat rs). assert (Hlen : Forall (fun row => length row = n) rows).
  { eapply Forall_impl; [exact Hrows|]. cbn. intros row [_ E]. unfold n. lia. }
  assert (Hbytes : Forall (Forall is_byte) rows) by (eapply Forall_impl; [exact Hrows|]; by intros row [? _]).
  assert (Hln : (length rows * n)%nat = Z.to_nat (r.(glyphs_per_col) * rs)) by (unfold n; rewrite <- Hn, Z2Nat.inj_mul by lia; by rewrite Nat2Z.id).
  pose proof (scroll_loop_spec m (base_va fb) n rows Hlen Hbytes Hat H5 ltac:(unfold n; lia) ltac:(lia) (length rows - 1) 1 ltac:(lia) ltac:(lia)) as Hloop.
  change (1 - 1)%nat with 0%nat in Hloop. rewrite take_0 in Hloop. cbn [concat write_bytes] in Hloop.
  replace (Z.to_nat (r.(glyphs_per_col) - 1)) with (length rows - 1)%nat by lia.
  replace rs with (Z.of_nat n) by (unfold n; lia). change (Z.of_nat 1) with 1 in Hloop. rewrite Hloop, bind_Ret.
  assert (Htl : length (concat (tail rows)) = ((length rows - 1) * n)%nat).
  { rewrite (concat_length n); [by destruct rows; cbn; [|rewrite Nat.sub_0_r]|]. destruct rows; [done|]. by apply Forall_cons in Hlen as [_ ?]. }
  assert (Edst : u32 (base_va fb + u32 (u32 (glyphs_per_col r - 1) * Z.of_nat n)) = base_va fb + Z.of_nat (length (concat (tail rows)))).
  { rewrite Htl, Nat2Z.inj_mul. replace (Z.of_nat (length rows - 1)) with (glyphs_per_col r - 1) by lia.
    assert ((glyphs_per_col r - 1) * Z.of_nat n <= glyphs_per_col r * rs) by (unfold n; nia).
    assert (glyphs_per_col r <= glyphs_per_col r * rs) by nia.
    rewrite (u32_small (glyphs_per_col r - 1)), (u32_small (_ * Z.of_nat n)), u32_small by (unfold is_u32; nia). done. }
  rewrite Edst. rewrite (memset_spec _ _ 0 (Z.of_nat n)); [|lia|].
  2: { apply write_bytes_mapped. intros a Ha. apply H7. rewrite Htl in Ha.
       assert (Z.of_nat ((length rows - 1) * n) + Z.of_nat n = glyphs_per_col r * rs) by (unfold n in *; nia). lia. }
  rewrite bind_Ret. cbn [fst]. rewrite concat_app. cbn [concat]. rewrite app_nil_r, write_bytes_app, Nat2Z.id. done.
Qed.

(** ** A character and a line *)
Record print_ok (c : Z) (data : list Z) (ctx : FrameBufferSinkContext) (h : PSF2Header) (fb : FrameBuffer)
    (r : FrameBufferRenderContext) (m : gmap Z Z) : Prop := {
  po_fb : fb_ok fb m;
  po_font : font_ok m ctx.(font) h;
  po_char : 0 <= c < 128;
  po_data : bytes_at m (glyph_addr h ctx.(font) c) data /\ Z.of_nat (length data) = h.(glyph_size) /\ Forall is_byte data;
  po_buf : 0 <= ctx.(glyph_buf) /\ ctx.(glyph_buf) + h.(glyph_size) <= 2 ^ 32 /\ mapped m ctx.(glyph_buf) h.(glyph_size);
  po_apart : apart_from_fb fb ctx.(glyph_buf) h.(glyph_size) /\
    (ctx.(glyph_buf) <= glyph_addr h ctx.(font) c \/ glyph_addr h ctx.(font) c + h.(glyph_size) <= ctx.(glyph_buf));
  po_row : 0 <= r.(cx) < r.(glyphs_per_row) /\ r.(glyphs_per_row) * 8 <= fb.(width);
  po_col : 0 <= r.(cy) < r.(glyphs_per_col) /\ r.(glyphs_per_col) * h.(glyph_height) <= fb.(height) }.

Lemma color_u32 color : is_u32 (fbsink_koutput_color2pixel color).
Proof. unfold fbsink_koutput_color2pixel, is_u32. repeat case_cond; lia. Qed.

Lemma print_spec stale c color data ctx h fb r m : print_ok c data ctx h fb r m ->
  let pixel := fbsink_koutput_color2pixel color in
  let lit := glyph_lit (take (Z.to_nat h.(glyph_height)) data) (r.(cx) * 8) (r.(cy) * h.(glyph_height)) in
  let m1 := write_bytes m ctx.(glyph_buf) data in
  Forall (on_screen fb) lit /\ fb_ok fb m1 /\
  fbsink_print_char_to_ctx stale c color ctx fb r m =
    (if r.(glyphs_per_row) <=? r.(cx) + 1 then fbsink_newline_to_ctx ctx.(font) fb r (paint fb pixel lit m1)
     else Ret (set_cursor (r.(cx) + 1) r.(cy) r, paint fb pixel lit m1)).
Proof.
  intros [Hfb Hft Hc (Hat & Hlen & Hb) (Hb0 & Hbe & Hbm) (Hap & Hov) (Hcx & Hrow) (Hcy & Hcol)] pixel lit m1.
  pose proof Hfb as [(W1 & W2 & W3) W4 _ _]. pose proof Hft as [Hload Hgw (Hgh & Hgs) Hsz _].
  assert (Hm1 : fb_ok fb m1) by by apply fb_ok_write.
  assert (Hh1 : 0 <= r.(cy) * h.(glyph_height) /\ r.(cy) * h.(glyph_height) + h.(glyph_height) <= fb.(height)) by nia.
  assert (Hwh : fb.(width) < 2 ^ 32 /\ fb.(height) < 2 ^ 32).
  { assert (1 <= fb.(width)) by lia. assert (1 <= fb.(height)) by lia. assert (fb.(width) <= fb.(width) * fb.(height) /\ fb.(height) <= fb.(width) * fb.(height)) by nia.
    assert (fb.(width) * fb.(height) <= fb.(width) * fb.(height) * fb.(bytespp)) by nia. lia. }
  set (rows := take (Z.to_nat h.(glyph_height)) data) in *.
  assert (Hrl : Z.of_nat (length rows) = h.(glyph_height)) by (unfold rows; rewrite length_take; lia).
  split; [apply glyph_on_screen; lia|]. split; [done|].
  unfold fbsink_print_char_to_ctx. rewrite Hload, bind_Ret. cbv zeta. rewrite Hgw.
  rewrite (u32_small (r.(cx) * 8)), (u32_small (r.(cy) * h.(glyph_height))), (u32_small (r.(cx) + 1)) by (unfold is_u32; lia).
  rewrite (glyph_data_spec m _ h c _ data) by done. rewrite bind_Ret. cbn [fst].
  pose proof (rows_loop_spec fb pixel (color_u32 color) h ctx.(glyph_buf) rows Hgw (Forall_take _ _ _ Hb) Hb0 (proj1 Hwh) (proj2 Hwh)
    rows 0 stale (r.(cx) * 8) (r.(cy) * h.(glyph_height)) m1 Hm1) as Hl.
  rewrite Z.add_0_r in Hl. change (Z.of_nat 0) with 0 in Hl.
  replace (Z.to_nat h.(glyph_height)) with (length rows) by lia. unfold pixel in Hl. fold m1. rewrite Hl; [|..|lia]; clear Hl.
  - rewrite bind_Ret, Z.geb_leb. done.
  - intros i b Hi. apply (write_bytes_at m ctx.(glyph_buf) data). unfold rows in Hi. apply lookup_take_Some in Hi as [Hi _]. exact Hi.
  - unfold apart_from_fb, disjoint in *. lia.
  - done.
  - lia.
  - lia.
  - lia.
  - lia.
  - lia.
Qed.

(** C28: Printing a character with a font 8 pixels wide paints exactly the
    pixels its glyph sets, in the colour of the sink, and no other pixel or
    memory but the glyph's buffer; then the cursor goes on, or the line ends.
    A new line goes one text row down; on the last row every text row moves up
    by one and the last is cleared, the cursor staying there. *)
Theorem fbsink_correct stale c color data ctx h fb r m : print_ok c data ctx h fb r m ->
  (exists m2, fbsink_print_char_to_ctx stale c color ctx fb r m =
      (if r.(glyphs_per_row) <=? r.(cx) + 1 then fbsink_newline_to_ctx ctx.(font) fb r m2
       else Ret (set_cursor (r.(cx) + 1) r.(cy) r, m2)) /\
    (forall i b j, data !! i = Some b -> Z.of_nat i < h.(glyph_height) -> 0 <= j < 8 ->
       let a := pixel_addr fb (r.(cx) * 8 + j) (r.(cy) * h.(glyph_height) + Z.of_nat i) in
       if Z.testbit b (7 - j) then bytes_at m2 a (pixel_bytes fb (fbsink_koutput_color2pixel color))
       else same_on m m2 a fb.(bytespp)) /\
    (forall a, ~ ctx.(glyph_buf) <= a < ctx.(glyph_buf) + h.(glyph_size) ->
       (forall i j, 0 <= i < h.(glyph_height) -> 0 <= j < 8 ->
          let p := pixel_addr fb (r.(cx) * 8 + j) (r.(cy) * h.(glyph_height) + i) in ~ p <= a < p + fb.(bytespp)) ->
       m2 !! a = m !! a)) /\
  (r.(cy) + 1 < r.(glyphs_per_col) -> fbsink_newline_to_ctx ctx.(font) fb r m = Ret (set_cursor 0 (r.(cy) + 1) r, m)) /\
  (r.(cy) + 1 = r.(glyphs_per_col) -> forall rows, text_rows h fb r m rows ->
     fbsink_newline_to_ctx ctx.(font) fb r m =
       Ret (set_cursor 0 r.(cy) r,
            write_bytes m fb.(base_va) (concat (tail rows ++ [replicate (Z.to_nat (fb.(width) * fb.(bytespp) * h.(glyph_height))) 0])))).
Proof.
  intros Hok. pose proof (print_spec stale c color data ctx h fb r m Hok) as (Hon & Hm1 & Hp).
  pose proof Hok as [Hfb Hft Hc (Hat & Hlen & Hb) (Hb0 & Hbe & Hbm) (Hap & Hov) (Hcx & Hrow) (Hcy & Hcol)].
  pose proof Hft as [Hload Hgw (Hgh & Hgs) Hsz _]. set (pixel := fbsink_koutput_color2pixel color) in *.
  set (lit := glyph_lit _ _ _) in *. set (m1 := write_bytes m (glyph_buf ctx) data) in *.
  assert (Hwh : fb.(width) < 2 ^ 32 /\ fb.(height) < 2 ^ 32).
  { pose proof Hfb as [(W1 & W2 & W3) W4 _ _]. assert (1 <= fb.(height)) by nia.
    assert (fb.(width) <= fb.(width) * fb.(height) /\ fb.(height) <= fb.(width) * fb.(height)) by nia.
    assert (fb.(width) * fb.(height) <= fb.(width) * fb.(height) * fb.(bytespp)) by nia. lia. }
  split; [|split].
  - exists (paint fb pixel lit m1). split; [exact Hp|]. split.
    + intros i b j Hi Hih Hj a. destruct (Z.testbit b (7 - j)) eqn:Ebit.
      * apply (paint_at fb pixel lit m1 (r.(cx) * 8 + j, r.(cy) * h.(glyph_height) + Z.of_nat i)); [done|done|].
        apply glyph_lit_elem. exists i, b, (7 - j). split; [by rewrite lookup_take_lt by lia|]. split; [lia|]. split; [done|]. f_equal; lia.
      * intros x Hx. destruct (pixel_inside fb m (r.(cx) * 8 + j) (r.(cy) * h.(glyph_height) + Z.of_nat i) Hfb) as [P1 P2]; [lia|nia|].
        fold a in P1, P2. rewrite paint_outside; [|done|].
        { apply write_bytes_outside. unfold apart_from_fb, disjoint in Hap. lia. }
        intros p (i' & b' & j' & Hi' & Hj' & Hb' & ->)%glyph_lit_elem Hin. unfold addr in Hin. cbn [fst snd] in Hin.
        apply lookup_take_Some in Hi' as [Hi' _].
        destruct (pixels_apart fb m (r.(cx) * 8 + j) (r.(cy) * h.(glyph_height) + Z.of_nat i) (r.(cx) * 8 + (7 - j')) (r.(cy) * h.(glyph_height) + Z.of_nat i') Hfb) as [?|?];
          [lia|lia| |unfold a in *; lia|unfold a in *; lia].
        intros [= E1 E2]. assert (j' = 7 - j) as -> by lia. assert (i' = i) as -> by lia. congruence.
    + intros a Ha Hall. rewrite paint_outside; [|done|].
      * apply write_bytes_outside. lia.
      * intros p (i' & b' & j' & Hi' & Hj' & Hb' & ->)%glyph_lit_elem. apply lookup_take_Some in Hi' as [Hi' Hlt].
        apply (Hall (Z.of_nat i') (7 - j')); lia.
  - intros Hlt. unfold fbsink_newline_to_ctx. cbn [cy cx set_cursor glyphs_per_col]. rewrite u32_small, Z.geb_leb by (unfold is_u32; nia).
    by rewrite (proj2 (Z.leb_gt _ _)) by lia.
  - intros Heq rows Hrows. unfold fbsink_newline_to_ctx. cbn [cy cx set_cursor glyphs_per_col]. rewrite u32_small, Z.geb_leb by (unfold is_u32; nia).
    rewrite (proj2 (Z.leb_le _ _)) by lia.
    rewrite (fbsink_scroll_spec m _ h fb (set_cursor 0 (cy r) r) rows); cbn [glyphs_per_col set_cursor]; (done || lia || idtac).
Qed.

(** A screen of 16 by 8 pixels, a font 8 by 4, and glyph 1. *)
Definition demo_glyph : list Z := [0x81; 0x42; 0x24; 0x18].
Definition demo_font : list Z :=
  concat (word_bytes <$> [PSF2_MAGIC; 0; 32; 0; 2; 4; 4; 8]) ++ [0; 0; 0; 0] ++ demo_glyph.
Definition demo_screen : gmap Z Z :=
  write_bytes (write_bytes (write_bytes ∅ 0x1000 (replicate 512 0)) 0x8000 (replicate 4 0)) 0x9000 demo_font.
Definition demo_h : PSF2Header := mkPsf PSF2_MAGIC 0 32 0 2 4 4 8.
Definition demo_fb : FrameBuffer := mkFb 0xFD000000 0x1000 16 8 32 4 false.
Definition demo_rc : FrameBufferRenderContext := mkRC 0 1 1 2 2.
Definition demo_ctx : FrameBufferSinkContext := mkFSC 0xA000 [demo_rc] 0x9000 0x8000.

Lemma demo_print_ok : print_ok 1 demo_glyph demo_ctx demo_h demo_fb demo_rc demo_screen.
Proof.
  split; cbn [font glyph_buf demo_ctx glyph_size demo_h]; try (repeat split; cbn; lia).
  - split; cbn; try lia. apply mapped_check. by vm_compute.
  - split; [|split; [done|repeat constructor; unfold is_byte; lia]].
    intros i b Hi. destruct i as [|[|[|[|i]]]]; cbn in Hi; [injection Hi as <-; by vm_compute..|done].
  - split; [lia|]. split; [lia|]. apply mapped_check. by vm_compute.
  - split; [unfold apart_from_fb, disjoint; cbn; lia|unfold glyph_addr; cbn; lia].
Qed.

Lemma fbsink_correct_witness : exists m2,
  fbsink_print_char_to_ctx 0xFFFFFFFF 1 KOUTPUT_WHITE demo_ctx demo_fb demo_rc demo_screen =
    fbsink_newline_to_ctx 0x9000 demo_fb demo_rc m2 /\ bytes_at m2 (pixel_addr demo_fb 8 4) [0xCC; 0xCC; 0xCC; 0].
Proof.
  destruct (fbsink_correct 0xFFFFFFFF 1 KOUTPUT_WHITE demo_glyph demo_ctx demo_h demo_fb demo_rc demo_screen demo_print_ok) as ((m2 & E & Hbit & _) & _).
  exists m2. split; [exact E|]. exact (Hbit 0%nat 0x81 0 eq_refl ltac:(cbn; lia) ltac:(lia)).
Defined.

(** A font 16 pixels wide: a word of the little-endian machine swaps the two
    bytes of a row, so the leftmost pixel shows the ninth. *)
Example wide_font_swapped : exists m,
  bits_loop 16 0 (le [0x80; 0x00]) 16 0 0 0xFFFFFF demo_fb demo_screen = Ret m /\
  m !! 0x1000 = Some 0 /\ m !! (0x1000 + 8 * 4) = Some 255.
Proof. eexists. split; [reflexivity|]. split; by vm_compute. Qed.
