(* ===== verification/Acpi.v ===== *)
(** * The tables of the firmware

    [drivers/acpi/acpi_tables.c]: the search for the root pointer in low
    memory, the checksums, and the tables the root names, each mapped as a
    device's memory and kept with its kind.  What mapping promises is the class
    [DmaWindows] with its laws; [dma_map_range] is the code behind it. *)
From S2P Require Import Prelude Alloc Bitwise CString Gallocator Kmalloc MRegMap Falloc Fs Storage Paging Bitmap Boot.

(** ** Data ([acpi_tables.h]) *)
Definition EINVAL : Z := 22.
Definition ENOMEM : Z := 12.
Definition PAGE_RW : Z := 6.
Definition ACPI_TABLE_HPET : Z := 1.
Definition ACPI_TABLE_APIC : Z := 2.
Definition ACPI_TABLE_FACP : Z := 3.
Definition ACPI_TABLE_WAET : Z := 4.
Definition sizeof_ACPIRSDPointerV1 : Z := 20.
Definition sizeof_ACPIRSDPointerV2 : Z := 36.
Definition sizeof_ACPISDTHeader : Z := 36.
(** The members that are read. *)
Definition rsdp_rev m rsdp := load_le 1 m (rsdp + 15).
Definition rsdt_base m rsdp := load_le 4 m (rsdp + 16).
Definition sdt_len m hdr := load_le 4 m (hdr + 4).
Definition rsdt_table m rsdt i := load_le 4 m (rsdt + 36 + 4 * i).
Record ACPITable := mkTable { t_type : Z; vaddr : Z }.
Definition sizeof_ACPITable : Z := 8.

(** Mapping physical memory for a device in a state [S] that has the kernel's
    heap [H], and the memory of the firmware and of the image as the kernel
    sees it.  [w_dma] is [dma_map_range] for the kernel's process: the error
    and the address. *)
Class DmaWindows (S H : Type) := {
  w_dma : Z -> Z -> Z -> S -> outcome (S * (Z * Z));
  w_seen : S -> gmap Z Z;
  w_heap : S -> H;
  w_set_heap : H -> S -> S }.

Section acpi.
Context {S H : Type} `{!Allocator H} `{!DmaWindows S H} (koff : Z).
(** The addresses of the literals. *)
Record literals := mkLits { RSD_PTR : Z; HPET : Z; FACP : Z; APIC : Z; WAET : Z }.
Context (lit : literals).

Record acpistate := mkAS { a_sys : S; g_acpi_tables : Z; acpi_tables : list ACPITable }.
Definition seen (a : acpistate) : gmap Z Z := w_seen a.(a_sys).
Definition set_sys (s : S) (a : acpistate) : acpistate := mkAS s a.(g_acpi_tables) a.(acpi_tables).

(** The new last element is filled in at once by the only caller. *)
Definition acpi_new_table (table : ACPITable) (a : acpistate) : outcome (acpistate * bool) :=
  r ← krealloc_ a.(g_acpi_tables) (u32 ((Z.of_nat (length a.(acpi_tables)) + 1) * sizeof_ACPITable)) (w_heap a.(a_sys));
  let a := set_sys (w_set_heap r.1 a.(a_sys)) a in
  if r.2 =? 0 then Ret (a, false) else Ret (mkAS a.(a_sys) r.2 (a.(acpi_tables) ++ [table]), true).

Fixpoint rsdp_scan (k : nat) m (i bound : Z) : outcome Z :=
  match k with
  | O => Undef
  | Datatypes.S k =>
      if negb (i <? bound) then Ret 0
      else
        r ← memcmp m i lit.(RSD_PTR) 8;
        if r =? 0 then Ret i else rsdp_scan k m (u32 (i + 16)) bound
  end.
Definition acpi_find_rsdp m : outcome Z :=
  seg ← load_le 2 m (u32 (0x40E + koff));
  let ebda := u32 (Z.shiftl seg 4 + koff) in
  r ← rsdp_scan 65 m ebda (u32 (ebda + 0x400));
  if negb (r =? 0) then Ret r
  else rsdp_scan (Z.to_nat 8193) m (u32 (0xE0000 + koff)) (u32 (0x100000 + koff)).

(** The loops that add up [k] bytes. *)
Fixpoint sum_bytes (k : nat) m (a sum : Z) : outcome Z :=
  match k with O => Ret sum | Datatypes.S k => b ← load m a; sum_bytes k m (a + 1) (u32 (sum + b)) end.
Definition acpi_is_rsdp_valid m (rsdp : Z) : outcome bool :=
  if rsdp =? 0 then Ret false
  else
    sum ← sum_bytes (Z.to_nat sizeof_ACPIRSDPointerV1) m rsdp 0;
    rev ← rsdp_rev m rsdp;
    sum ← (if rev =? 2
           then sum_bytes (Z.to_nat (sizeof_ACPIRSDPointerV2 - sizeof_ACPIRSDPointerV1)) m (rsdp + sizeof_ACPIRSDPointerV1) sum
           else Ret sum);
    Ret (Z.land sum 0xFF =? 0).
Definition acpi_is_sdt_header_valid m (header : Z) : outcome bool :=
  if header =? 0 then Ret false
  else
    len ← sdt_len m header;
    sum ← sum_bytes (Z.to_nat len) m header 0;
    Ret (Z.land sum 0xFF =? 0).

(** The kind by the signature, 0 for an unknown one. *)
Definition table_type m (hdr : Z) : outcome Z :=
  r ← memcmp m hdr lit.(HPET) 4; if r =? 0 then Ret ACPI_TABLE_HPET else
  r ← memcmp m hdr lit.(FACP) 4; if r =? 0 then Ret ACPI_TABLE_FACP else
  r ← memcmp m hdr lit.(APIC) 4; if r =? 0 then Ret ACPI_TABLE_APIC else
  r ← memcmp m hdr lit.(WAET) 4; if r =? 0 then Ret ACPI_TABLE_WAET else Ret 0.
Definition acpi_register_table (hdr : Z) (a : acpistate) : outcome (acpistate * Z) :=
  ty ← table_type (seen a) hdr;
  if ty =? 0 then Ret (a, - EINVAL)
  else
    r ← acpi_new_table (mkTable ty hdr) a;
    Ret (r.1, if r.2 : bool then 0 else - ENOMEM).

Definition MIN_MAP : Z := Paging.PAGESIZE.
Definition acpi_map_table (hdr_paddr : Z) (a : acpistate) : outcome (acpistate * (Z * Z)) :=
  r ← w_dma hdr_paddr MIN_MAP PAGE_RW a.(a_sys);
  let '(s, (err, va)) := r : S * (Z * Z) in
  let a := set_sys s a in
  if negb (err =? 0) then Ret (a, (err, 0))
  else
    len ← sdt_len (seen a) va;
    if len >? MIN_MAP then
      r ← w_dma hdr_paddr len PAGE_RW a.(a_sys);
      let '(s, (err, va)) := r : S * (Z * Z) in
      let a := set_sys s a in
      if negb (err =? 0) then Ret (a, (err, 0)) else Ret (a, (0, va))
    else Ret (a, (0, va)).

(** The tables from index [i] on, [k] of them. *)
Fixpoint enumerate_loop (k : nat) (i rsdt : Z) (a : acpistate) : outcome (acpistate * Z) :=
  match k with
  | O => Ret (a, 0)
  | Datatypes.S k =>
      hdr_paddr ← rsdt_table (seen a) rsdt i;
      r ← acpi_map_table hdr_paddr a;
      let '(a, (err, hdr)) := r : acpistate * (Z * Z) in
      if negb (err =? 0) then Ret (a, err)
      else
        ok ← acpi_is_sdt_header_valid (seen a) hdr;
        if negb ok then enumerate_loop k (i + 1) rsdt a
        else r ← acpi_register_table hdr a; enumerate_loop k (i + 1) rsdt r.1
  end.
Definition acpi_enumerate_rsd_tables (rsdt : Z) (a : acpistate) : outcome (acpistate * Z) :=
  len ← sdt_len (seen a) rsdt;
  let tables := u32 (len - sizeof_ACPISDTHeader) / 4 in
  enumerate_loop (Z.to_nat tables) 0 rsdt a.

Definition acpi_init_rsdt (a : acpistate) : outcome (acpistate * Z) :=
  rsdp ← acpi_find_rsdp (seen a);
  ok ← acpi_is_rsdp_valid (seen a) rsdp;
  if negb ok then Ret (a, - EINVAL)
  else
    base ← rsdt_base (seen a) rsdp;
    r ← acpi_map_table base a;
    let '(a, (err, rsdt)) := r : acpistate * (Z * Z) in
    if negb (err =? 0) then Ret (a, err)
    else
      ok ← acpi_is_sdt_header_valid (seen a) rsdt;
      if negb ok then Ret (a, - EINVAL)
      else r ← acpi_enumerate_rsd_tables rsdt a; if r.2 <? 0 then Ret r else Ret (r.1, 0).
Definition acpi_main (a : acpistate) : outcome (acpistate * Z) := acpi_init_rsdt a.

Definition find_table (ty : Z) (a : acpistate) : Z :=
  from_option (fun q : nat * ACPITable => q.2.(vaddr)) 0 (list_find (fun t => t.(t_type) = ty) a.(acpi_tables)).
Definition acpi_get_hpet_table (a : acpistate) : Z := find_table ACPI_TABLE_HPET a.
Definition acpi_get_mad_table (a : acpistate) : Z := find_table ACPI_TABLE_APIC a.
End acpi.
Arguments acpistate : clear implicits.

(** ** Bytes in memory *)
Lemma bytes_at_slice m p l i n : bytes_at m p l -> bytes_at m (p + Z.of_nat i) (take n (drop i l)).
Proof.
  intros Hl j b Hj. apply lookup_take_Some in Hj as [Hj _]. rewrite lookup_drop in Hj.
  replace (p + Z.of_nat i + Z.of_nat j) with (p + Z.of_nat (i + j)) by lia. by apply Hl.
Qed.
Lemma bytes_at_take m p l n : bytes_at m p l -> bytes_at m p (take n l).
Proof. intros Hl. pose proof (bytes_at_slice m p l 0 n Hl) as H. by rewrite drop_0, Z.add_0_r in H. Qed.
Lemma bytes_at_mono m m' p l : m ⊆ m' -> bytes_at m p l -> bytes_at m' p l.
Proof. intros Hm Hl i b Hb. eapply lookup_weaken; [by apply Hl|done]. Qed.
Lemma load_le_at m p l i n : bytes_at m p l -> (i + n <= length l)%nat -> load_le n m (p + Z.of_nat i) = Ret (le (take n (drop i l))).
Proof.
  intros Hl Hn. pose proof (bytes_at_slice m p l i n Hl) as Hs. unfold load_le.
  pose proof (load_bytes_spec m _ _ Hs) as E. rewrite length_take, length_drop, Nat.min_l in E by lia. by rewrite E.
Qed.
Lemma memcmp_is m p lit s t n : bytes_at m p s -> bytes_at m lit t -> Forall is_byte s -> Forall is_byte t -> length s = n -> length t = n ->
  exists r, memcmp m p lit (Z.of_nat n) = Ret r /\ (r =? 0) = bool_decide (s = t).
Proof.
  intros H1 H2 B1 B2 <- L2. eexists. split; [by apply memcmp_spec|].
  destruct (bool_decide_reflect (s = t)) as [E|E].
  - apply Z.eqb_eq. by apply byte_diff_0.
  - apply Z.eqb_neq. intros E'. by apply E, byte_diff_0.
Qed.

(** The byte sum a table's checksum makes zero. *)
Definition checksum (l : list Z) : Z := foldr Z.add 0 l mod 256.
Lemma sum_bytes_spec m l : forall p sum, bytes_at m p l -> exists r, sum_bytes (length l) m p sum = Ret r /\ r mod 256 = (sum + foldr Z.add 0 l) mod 256.
Proof.
  induction l as [|b l IH]; intros p sum Hl; cbn [length sum_bytes foldr]; [eexists; split; [done|f_equal; lia]|].
  pose proof (Hl 0%nat b eq_refl) as Hb. rewrite Z.add_0_r in Hb. unfold load. rewrite Hb. cbn [deref]. rewrite bind_Ret.
  destruct (IH (p + 1) (u32 (sum + b))) as (r & Hr & Er).
  { intros i c Hc. replace (p + 1 + Z.of_nat i) with (p + Z.of_nat (Datatypes.S i)) by lia. by apply Hl. }
  exists r. split; [done|]. rewrite Er. unfold u32. pose proof (Z.mod_eq (sum + b) (2 ^ 32) ltac:(done)) as M. rewrite M.
  rewrite <- (Z_mod_plus_full (sum + (b + foldr Z.add 0 l)) (- (2 ^ 24 * ((sum + b) / 2 ^ 32))) 256). f_equal. lia.
Qed.
Lemma sum_app l l' : foldr Z.add 0 (l ++ l') = foldr Z.add 0 l + foldr Z.add 0 l'.
Proof. induction l as [|x l IH]; cbn; [done|]. rewrite IH. lia. Qed.
Lemma low_byte r : Z.land r 0xFF = r mod 256.
Proof. change 0xFF with (Z.ones 8). by rewrite Z.land_ones. Qed.

(** The signatures. *)
Definition RSD_SIG : list Z := [82; 83; 68; 32; 80; 84; 82; 32].
Definition HPET_SIG : list Z := [72; 80; 69; 84].
Definition FACP_SIG : list Z := [70; 65; 67; 80].
Definition APIC_SIG : list Z := [65; 80; 73; 67].
Definition WAET_SIG : list Z := [87; 65; 69; 84].
Record literals_ok (m : gmap Z Z) (lit : literals) : Prop := {
  lit_rsd : bytes_at m lit.(RSD_PTR) RSD_SIG; lit_hpet : bytes_at m lit.(HPET) HPET_SIG; lit_facp : bytes_at m lit.(FACP) FACP_SIG;
  lit_apic : bytes_at m lit.(APIC) APIC_SIG; lit_waet : bytes_at m lit.(WAET) WAET_SIG }.
Definition kind (sig : list Z) : Z :=
  if bool_decide (sig = HPET_SIG) then ACPI_TABLE_HPET else if bool_decide (sig = FACP_SIG) then ACPI_TABLE_FACP
  else if bool_decide (sig = APIC_SIG) then ACPI_TABLE_APIC else if bool_decide (sig = WAET_SIG) then ACPI_TABLE_WAET else 0.

Lemma table_type_spec m lit hdr l : literals_ok m lit -> bytes_at m hdr l -> Forall is_byte l -> (4 <= length l)%nat ->
  table_type lit m hdr = Ret (kind (take 4 l)).
Proof.
  intros [_ L1 L2 L3 L4] Hl Hb Hn. pose proof (bytes_at_take m hdr l 4 Hl) as Ht.
  assert (Bt : Forall is_byte (take 4 l)) by by apply Forall_take.
  assert (Lt : length (take 4 l) = 4%nat) by (rewrite length_take; lia).
  assert (Hcmp : forall q sig, bytes_at m q sig -> Forall is_byte sig -> length sig = 4%nat ->
    exists r, memcmp m hdr q 4 = Ret r /\ (r =? 0) = bool_decide (take 4 l = sig)) by (intros q sig ???; by apply (memcmp_is m hdr q _ _ 4)).
  destruct (Hcmp _ _ L1) as (r1 & E1 & D1); [by repeat constructor|done|]. destruct (Hcmp _ _ L2) as (r2 & E2 & D2); [by repeat constructor|done|].
  destruct (Hcmp _ _ L3) as (r3 & E3 & D3); [by repeat constructor|done|]. destruct (Hcmp _ _ L4) as (r4 & E4 & D4); [by repeat constructor|done|].
  unfold table_type, kind. rewrite E1, bind_Ret, D1. destruct (bool_decide _); [done|]. rewrite E2, bind_Ret, D2. destruct (bool_decide _); [done|].
  rewrite E3, bind_Ret, D3. destruct (bool_decide _); [done|]. rewrite E4, bind_Ret, D4. by destruct (bool_decide _).
Qed.

Lemma sdt_len_spec m hdr l : bytes_at m hdr l -> (8 <= length l)%nat -> sdt_len m hdr = Ret (le (take 4 (drop 4 l))).
Proof. intros Hl Hn. exact (load_le_at m hdr l 4 4 Hl ltac:(lia)). Qed.

(** A table as its length member says it. *)
Record table_bytes (l : list Z) : Prop := {
  tb_bytes : Forall is_byte l; tb_size : (36 <= length l)%nat /\ Z.of_nat (length l) <= 2 ^ 30; tb_len : le (take 4 (drop 4 l)) = Z.of_nat (length l) }.

Lemma sdt_valid_spec m hdr l : table_bytes l -> bytes_at m hdr l -> hdr <> 0 -> acpi_is_sdt_header_valid m hdr = Ret (checksum l =? 0).
Proof.
  intros [Hb [Hs _] Hlen] Hl H0. unfold acpi_is_sdt_header_valid. rewrite (proj2 (Z.eqb_neq _ _)) by done.
  rewrite (sdt_len_spec m hdr l), bind_Ret, Hlen, Nat2Z.id by (done || lia).
  destruct (sum_bytes_spec m l hdr 0 Hl) as (r & -> & Er). rewrite bind_Ret, low_byte, Er. done.
Qed.

(** ** The root pointer *)
Definition is_rsdp m (c : Z) : Prop := load_bytes 8 m c = Ret RSD_SIG.
#[export] Instance is_rsdp_dec m c : Decision (is_rsdp m c).
Proof. unfold is_rsdp. apply _. Defined.
Definition first_rsdp m (l : list Z) : Z := default 0 (head (filter (is_rsdp m) l)).
(** The places it can be at: every 16 bytes. *)
Definition places (a : Z) (n : nat) : list Z := (fun k => a + 16 * k) <$> seqZ 0 (Z.of_nat n).
Definition readable m (c : Z) : Prop := exists l, length l = 8%nat /\ Forall is_byte l /\ bytes_at m c l.

Lemma places_S a n : places a (S n) = a :: places (a + 16) n.
Proof.
  unfold places. rewrite seqZ_cons by lia. cbn [fmap list_fmap]. f_equal; [lia|]. replace (Z.pred (Z.of_nat (S n))) with (Z.of_nat n) by lia.
  replace (Z.succ 0) with (0 + 1) by lia. rewrite <- (fmap_add_seqZ 1 0), <- list_fmap_compose. apply list_fmap_ext. intros _ k _. cbn. lia.
Qed.
Lemma is_rsdp_memcmp m lit c : bytes_at m lit RSD_SIG -> readable m c ->
  exists r, memcmp m c lit 8 = Ret r /\ (r =? 0) = bool_decide (is_rsdp m c).
Proof.
  intros Hs (l & Hn & Hb & Hl). destruct (memcmp_is m c lit l RSD_SIG 8 Hl Hs Hb) as (r & E & D); [by repeat constructor|done|done|].
  exists r. split; [exact E|]. rewrite D. apply bool_decide_ext. unfold is_rsdp. pose proof (load_bytes_spec m l c Hl) as L. rewrite Hn in L. rewrite L.
  split; [by intros ->|by intros [= ->]].
Qed.
Lemma rsdp_scan_spec m lit n : forall a, bytes_at m lit.(RSD_PTR) RSD_SIG -> Forall (readable m) (places a n) -> 0 <= a -> a + 16 * Z.of_nat n < 2 ^ 32 ->
  rsdp_scan lit (S n) m a (a + 16 * Z.of_nat n) = Ret (first_rsdp m (places a n)).
Proof.
  induction n as [|n IH]; intros a Hs Hr H0 H1; cbn [rsdp_scan].
  - rewrite Z.add_0_r, Z.ltb_irrefl. done.
  - rewrite places_S in Hr |- *. apply Forall_cons in Hr as [Ha Hr]. rewrite (proj2 (Z.ltb_lt _ _)) by lia. cbn [negb].
    destruct (is_rsdp_memcmp m _ a Hs Ha) as (r & -> & D). rewrite bind_Ret, D. unfold first_rsdp. rewrite filter_cons.
    destruct (bool_decide_reflect (is_rsdp m a)) as [E|E]; [by rewrite decide_True by done|]. rewrite decide_False by done.
    rewrite u32_small by (unfold is_u32; lia). replace (a + 16 * Z.of_nat (S n)) with (a + 16 + 16 * Z.of_nat n) by lia. by apply IH; try done; lia.
Qed.

Lemma rsdp_scan_spec' m lit n k a bound : k = S n -> bound = a + 16 * Z.of_nat n -> bytes_at m lit.(RSD_PTR) RSD_SIG -> Forall (readable m) (places a n) ->
  0 <= a -> bound < 2 ^ 32 -> rsdp_scan lit k m a bound = Ret (first_rsdp m (places a n)).
Proof. intros -> -> ????. by apply rsdp_scan_spec. Qed.

(** The first KiB of the extended BIOS data, then the BIOS. *)
Definition rsdp_places koff seg : list Z := places (16 * seg + koff) 64 ++ places (0xE0000 + koff) (Z.to_nat 8192).
Lemma find_rsdp_spec m lit koff seg : bytes_at m lit.(RSD_PTR) RSD_SIG -> 0 < koff <= 2 ^ 32 - 2 ^ 21 -> 0 <= seg < 2 ^ 16 ->
  load_le 2 m (0x40E + koff) = Ret seg -> Forall (readable m) (rsdp_places koff seg) ->
  acpi_find_rsdp koff lit m = Ret (first_rsdp m (rsdp_places koff seg)).
Proof.
  intros Hs Hk Hseg Hl Hr. unfold rsdp_places in *. unfold acpi_find_rsdp.
  assert (HK : Z.to_nat 8193 = S (Z.to_nat 8192)) by lia. assert (HN : Z.of_nat (Z.to_nat 8192) = 8192) by lia.
  revert HK HN Hr. generalize (Z.to_nat 8193) as K, (Z.to_nat 8192) as N. intros K N HK HN Hr. apply Forall_app in Hr as [Hr1 Hr2].
  rewrite (u32_small (0x40E + koff)) by (unfold is_u32; lia). rewrite Hl, bind_Ret, Z.shiftl_mul_pow2 by lia. replace (seg * 2 ^ 4) with (16 * seg) by lia.
  rewrite (u32_small (16 * seg + koff)), (u32_small (16 * seg + koff + 0x400)), (u32_small (0xE0000 + koff)), (u32_small (0x100000 + koff)) by (unfold is_u32; lia).
  replace (16 * seg + koff + 0x400) with (16 * seg + koff + 16 * Z.of_nat 64) by lia.
  rewrite (rsdp_scan_spec m lit 64 (16 * seg + koff) Hs Hr1) by lia. rewrite bind_Ret.
  unfold first_rsdp. rewrite filter_app, head_app. destruct (head (filter (is_rsdp m) (places (16 * seg + koff) 64))) as [c|] eqn:E; cbn [default from_option].
  - assert (Hc : c <> 0).
    { apply head_Some_elem_of, list_elem_of_filter in E as [_ E]. unfold places in E. apply list_elem_of_fmap in E as (k & -> & [Hk0 _]%elem_of_seqZ). lia. }
    rewrite (proj2 (Z.eqb_neq _ _)) by done. done.
  - rewrite Z.eqb_refl. cbn [negb]. apply (rsdp_scan_spec' m lit N K); first [assumption|lia].
Qed.

(** What the checksum of the pointer covers. *)
Definition rsdp_covered (v : list Z) : list Z := if nth 15 v 0 =? 2 then v else take 20 v.
Lemma rsdp_valid_spec m rsdp v : rsdp <> 0 -> length v = 36%nat -> bytes_at m rsdp v ->
  acpi_is_rsdp_valid m rsdp = Ret (checksum (rsdp_covered v) =? 0).
Proof.
  intros H0 Hn Hv. unfold acpi_is_rsdp_valid, rsdp_rev. rewrite (proj2 (Z.eqb_neq _ _)) by done.
  destruct (sum_bytes_spec m (take 20 v) rsdp 0 (bytes_at_take _ _ _ 20 Hv)) as (r & E & Er). rewrite length_take, Nat.min_l in E by lia.
  change (Z.to_nat sizeof_ACPIRSDPointerV1) with 20%nat. rewrite E, bind_Ret.
  pose proof (load_le_at m rsdp v 15 1 Hv ltac:(lia)) as E15. change (Z.of_nat 15) with 15 in E15. rewrite E15, bind_Ret.
  assert (L15 : le (take 1 (drop 15 v)) = nth 15 v 0).
  { destruct (lookup_lt_is_Some_2 v 15 ltac:(lia)) as [b Hb]. rewrite (drop_S _ _ _ Hb), nth_lookup, Hb. change (take 1 (b :: drop 16 v)) with [b]. unfold le. cbn. lia. }
  rewrite L15. unfold rsdp_covered, checksum. destruct (nth 15 v 0 =? 2).
  - destruct (sum_bytes_spec m (drop 20 v) (rsdp + 20) r) as (r2 & E2 & Er2).
    { pose proof (bytes_at_slice m rsdp v 20 16 Hv) as H. by rewrite take_ge in H by (rewrite length_drop; lia). }
    rewrite length_drop, Hn in E2. change (Z.to_nat (sizeof_ACPIRSDPointerV2 - sizeof_ACPIRSDPointerV1)) with (36 - 20)%nat. change sizeof_ACPIRSDPointerV1 with 20.
    rewrite E2, bind_Ret, low_byte, Er2. rewrite <- Zplus_mod_idemp_l, Er, Zplus_mod_idemp_l. do 2 f_equal.
    rewrite <- (take_drop 20 v) at 3. rewrite sum_app. f_equal; lia.
  - by rewrite bind_Ret, low_byte, Er.
Qed.

(** ** What mapping promises

    [phys] is the memory of the firmware: an aligned range that is mapped is
    seen with its bytes, and nothing that was seen is lost. *)
Class DmaWindowsLaws (phys : gmap Z Z) (S H : Type) `{!Allocator H} `{!DmaWindows S H} := {
  w_unaligned pa n fl s : pa mod Paging.PAGESIZE <> 0 -> w_dma pa n fl s = Panic;
  w_law pa n fl s : is_u32 pa -> pa mod Paging.PAGESIZE = 0 -> 0 < n <= 2 ^ 31 -> alloc_wf (w_heap s) ->
    exists s' err va, w_dma pa n fl s = Ret (s', (err, va)) /\ alloc_wf (w_heap s') /\
      (forall p, live (w_heap s) p <> None -> live (w_heap s') p <> None) /\ w_seen s ⊆ w_seen s' /\
      (err < 0 \/ (err = 0 /\ va <> 0 /\ forall l, bytes_at phys pa l -> Z.of_nat (length l) <= n -> bytes_at (w_seen s') va l));
  w_heap_set h s : w_heap (w_set_heap h s) = h;
  w_seen_set h s : w_seen (w_set_heap h s) = w_seen s }.

(** The table at an address of the firmware's memory. *)
Definition table_at (phys : gmap Z Z) (pa : Z) (l : list Z) : Prop :=
  is_u32 pa /\ pa mod Paging.PAGESIZE = 0 /\ bytes_at phys pa l /\ table_bytes l.
(** The tables that are kept. *)
Definition good (l : list Z) : Prop := checksum l = 0 /\ kind (take 4 l) <> 0.
#[export] Instance good_dec l : Decision (good l).
Proof. unfold good. apply _. Defined.
(** [reg] are [ls] under the addresses they are seen at. *)
Definition keeps (m : gmap Z Z) (reg : list ACPITable) (ls : list (list Z)) : Prop :=
  Forall2 (fun t l => t.(t_type) = kind (take 4 l) /\ bytes_at m t.(vaddr) l) reg ls.

Section spec.
Context {S H : Type} `{!Allocator H} `{!AllocatorLaws H} `{!DmaWindows S H} (phys : gmap Z Z) `{!DmaWindowsLaws phys S H} (lit : literals).
Implicit Types (a : acpistate S).

Record acpi_ok a : Prop := {
  ak_heap : alloc_wf (w_heap a.(a_sys));
  ak_block : a.(g_acpi_tables) = 0 \/ live (w_heap a.(a_sys)) a.(g_acpi_tables) <> None }.
(** [a'] sees what [a] saw, with the same list. *)
Definition sees_more a a' : Prop := acpi_ok a' /\ seen a ⊆ seen a' /\ a'.(acpi_tables) = a.(acpi_tables).

Lemma dma_step pa n fl a : acpi_ok a -> is_u32 pa -> pa mod Paging.PAGESIZE = 0 -> 0 < n <= 2 ^ 31 ->
  exists s' err va, w_dma pa n fl a.(a_sys) = Ret (s', (err, va)) /\ sees_more a (set_sys s' a) /\
    (err < 0 \/ (err = 0 /\ va <> 0 /\ forall l, bytes_at phys pa l -> Z.of_nat (length l) <= n -> bytes_at (w_seen s') va l)).
Proof.
  intros [Hh Hb] H32 Hp Hn. destruct (w_law pa n fl (a_sys a) H32 Hp Hn Hh) as (s' & err & va & E & Hh' & Hl & Hs & Hr).
  exists s', err, va. split; [done|]. split; [|done]. split; [|done]. split; [done|]. destruct Hb as [Hb|Hb]; [by left|right; by apply Hl].
Qed.

Lemma map_table_spec pa l a : acpi_ok a -> table_at phys pa l ->
  exists a' err va, acpi_map_table pa a = Ret (a', (err, va)) /\ sees_more a a' /\ (err < 0 \/ (err = 0 /\ va <> 0 /\ bytes_at (seen a') va l)).
Proof.
  intros Ha (H32 & Hp & Hl & [Hb [Hs Hs'] Hlen]). unfold acpi_map_table, MIN_MAP.
  destruct (dma_step pa Paging.PAGESIZE PAGE_RW a Ha H32 Hp) as (s1 & e1 & v1 & E1 & M1 & R1); [unfold Paging.PAGESIZE; lia|]. rewrite E1, bind_Ret.
  destruct R1 as [R1|(-> & Hv1 & B1)].
  { rewrite (proj2 (Z.eqb_neq e1 0)) by lia. eexists _, e1, 0. split; [reflexivity|]. split; [done|by left]. }
  cbn [negb Z.eqb]. pose proof (B1 (take 4096 l) (bytes_at_take _ _ _ _ Hl)) as Bt. rewrite length_take in Bt. unfold Paging.PAGESIZE in Bt. specialize (Bt ltac:(lia)).
  assert (El : sdt_len (seen (set_sys s1 a)) v1 = Ret (Z.of_nat (length l))).
  { rewrite <- Hlen. change (seen (set_sys s1 a)) with (w_seen s1). rewrite (sdt_len_spec _ _ _ Bt) by (rewrite length_take; lia). do 2 f_equal.
    rewrite skipn_firstn_comm, take_take. done. }
  rewrite El, bind_Ret. destruct (Z.gtb_spec (Z.of_nat (length l)) Paging.PAGESIZE) as [Hgt|Hle].
  - destruct M1 as (Ha1 & Hm1 & Ht1).
    destruct (dma_step pa (Z.of_nat (length l)) PAGE_RW (set_sys s1 a) Ha1 H32 Hp) as (s2 & e2 & v2 & E2 & (Ha2 & Hm2 & Ht2) & R2); [lia|].
    rewrite E2, bind_Ret. destruct R2 as [R2|(-> & Hv2 & B2)].
    + rewrite (proj2 (Z.eqb_neq e2 0)) by lia. eexists _, e2, 0. split; [reflexivity|]. split; [|by left].
      split; [done|]. split; [by etransitivity|]. by rewrite Ht2.
    + eexists _, 0, v2. split; [reflexivity|]. split; [split; [done|]; split; [by etransitivity|by rewrite Ht2]|].
      right. split; [done|]. split; [done|]. by apply B2.
  - eexists _, 0, v1. split; [reflexivity|]. split; [done|]. right. split; [done|]. split; [done|]. apply B1; [done|lia].
Qed.

Lemma map_unaligned pa a : pa mod Paging.PAGESIZE <> 0 -> acpi_map_table pa a = Panic.
Proof. intros Hp. unfold acpi_map_table. by rewrite w_unaligned. Qed.

Lemma register_table_spec hdr l a : acpi_ok a -> literals_ok (seen a) lit -> bytes_at (seen a) hdr l -> table_bytes l ->
  Z.of_nat (length a.(acpi_tables)) < 2 ^ 29 - 1 ->
  exists a' st, acpi_register_table lit hdr a = Ret (a', st) /\ acpi_ok a' /\ seen a' = seen a /\
    (a'.(acpi_tables) = a.(acpi_tables) \/
     (kind (take 4 l) <> 0 /\ a'.(acpi_tables) = a.(acpi_tables) ++ [mkTable (kind (take 4 l)) hdr])).
Proof.
  intros Ha Hlit Hl [Hb [Hs _] _] Hn. unfold acpi_register_table. rewrite (table_type_spec (seen a) lit hdr l), bind_Ret by (done || lia).
  destruct (Z.eqb_spec (kind (take 4 l)) 0) as [E|E]; [eexists a, _; by split_and!; eauto|].
  unfold acpi_new_table, sizeof_ACPITable. rewrite u32_small by (unfold is_u32; lia). destruct Ha as [Hh Hbl].
  destruct (realloc_law (w_heap (a_sys a)) (g_acpi_tables a) ((Z.of_nat (length (acpi_tables a)) + 1) * 8) Hh) as (h' & q & Eq & Hh' & Hc); [lia|done|].
  rewrite Eq, bind_Ret. cbn [fst snd]. destruct Hc as [[-> Hlive]|(Hq & _ & Hlive)].
  - cbn. eexists _, _. split; [reflexivity|]. split; [|split; [apply w_seen_set|by left]].
    split; cbn; rewrite ?w_heap_set; [done|]. by rewrite Hlive.
  - rewrite (proj2 (Z.eqb_neq q 0)) by done. rewrite bind_Ret. eexists _, _. split; [reflexivity|]. split; [|split; [apply w_seen_set|right; by split]].
    split; cbn; rewrite ?w_heap_set; [done|]. right. by rewrite Hlive, decide_True.
Qed.

(** The root's entries, four bytes each behind its header. *)
Definition lists (root : list Z) (es : list Z) : Prop :=
  length es = ((length root - 36) / 4)%nat /\ forall j e, es !! j = Some e -> le (take 4 (drop (36 + 4 * j) root)) = e.

Lemma literals_mono m m' : m ⊆ m' -> literals_ok m lit -> literals_ok m' lit.
Proof. intros Hm [H1 H2 H3 H4 H5]. split; by eapply bytes_at_mono. Qed.
Lemma keeps_mono m m' reg ls : m ⊆ m' -> keeps m reg ls -> keeps m' reg ls.
Proof. intros Hm Hk. eapply Forall2_impl; [exact Hk|]. intros t l [? ?]. split; [done|by eapply bytes_at_mono]. Qed.
Lemma root_entry_spec m root rsdt es j e : bytes_at m rsdt root -> lists root es -> es !! j = Some e -> rsdt_table m rsdt (Z.of_nat j) = Ret e.
Proof.
  intros Hr [Hn He] Hj. unfold rsdt_table. replace (rsdt + 36 + 4 * Z.of_nat j) with (rsdt + Z.of_nat (36 + 4 * j)) by lia.
  pose proof (lookup_lt_Some _ _ _ Hj) as Hlt. pose proof (Nat.Div0.mul_div_le (length root - 36) 4).
  rewrite (load_le_at m rsdt root) by (done || lia). by rewrite (He j e Hj).
Qed.

(** What the loop leaves of the tables [ls]: the [n] first were looked at. *)
Record walked a a' st (ls : list (list Z)) : Prop := {
  wk_ok : acpi_ok a'; wk_sees : seen a ⊆ seen a';
  wk_list : exists n reg sub, (st = 0 /\ n = length ls \/ st < 0 /\ (n <= length ls)%nat) /\
    a'.(acpi_tables) = a.(acpi_tables) ++ reg /\ sub `sublist_of` filter good (take n ls) /\ keeps (seen a') reg sub }.

Lemma walked_cons a a1 a' st l ls reg sub : seen a ⊆ seen a1 -> a1.(acpi_tables) = a.(acpi_tables) ++ reg -> keeps (seen a1) reg sub ->
  sub `sublist_of` filter good [l] -> walked a1 a' st ls -> walked a a' st (l :: ls).
Proof.
  intros Hs Ht Hk Hsub [Hok Hsees (n & reg' & sub' & Hn & Ht' & Hsub' & Hk')]. split; [done|by etransitivity|].
  exists (Datatypes.S n), (reg ++ reg'), (sub ++ sub'). split; [cbn [length]; lia|]. split; [by rewrite Ht', Ht, app_assoc|]. split.
  - cbn [take]. change (l :: take n ls) with ([l] ++ take n ls). rewrite filter_app. by apply sublist_app.
  - apply Forall2_app; [by eapply keeps_mono|done].
Qed.

Lemma enumerate_tables_spec root rsdt es ls : lists root es -> Forall2 (table_at phys) es ls ->
  forall k i a, (i + k = length es)%nat -> acpi_ok a -> literals_ok (seen a) lit -> bytes_at (seen a) rsdt root ->
  Z.of_nat (length a.(acpi_tables) + k) < 2 ^ 29 ->
  exists a' st, enumerate_loop lit k (Z.of_nat i) rsdt a = Ret (a', st) /\ walked a a' st (drop i ls).
Proof.
  intros Hlist Hes. pose proof (Forall2_length _ _ _ Hes) as Hlen. induction k as [|k IH]; intros i a Hi Ha Hlit Hr Hn; cbn [enumerate_loop].
  - exists a, 0. split; [done|]. rewrite drop_ge by lia. split; [done|done|]. exists O, [], []. split; [by left|]. rewrite app_nil_r. split; [done|]. split; [done|constructor].
  - destruct (lookup_lt_is_Some_2 es i ltac:(lia)) as [e He]. destruct (lookup_lt_is_Some_2 ls i ltac:(lia)) as [l Hl].
    pose proof (Forall2_lookup_lr _ _ _ _ _ _ Hes He Hl) as Ht. rewrite (drop_S _ _ _ Hl).
    rewrite (root_entry_spec _ root rsdt es i e) by done. rewrite bind_Ret.
    destruct (map_table_spec e l a Ha Ht) as (a1 & err & va & E1 & (Ha1 & Hs1 & Ht1) & R1). rewrite E1, bind_Ret.
    destruct R1 as [R1|(-> & Hva & Hb)].
    { rewrite (proj2 (Z.eqb_neq err 0)) by lia. exists a1, err. split; [done|]. split; [done|done|]. exists O, [], [].
      split; [right; split; [done|lia]|]. rewrite app_nil_r. split; [done|]. split; [done|constructor]. }
    cbn [negb Z.eqb]. destruct Ht as (_ & _ & _ & Htab). rewrite (sdt_valid_spec _ _ l Htab Hb Hva), bind_Ret.
    assert (Hlit1 : literals_ok (seen a1) lit) by by eapply literals_mono. assert (Hr1 : bytes_at (seen a1) rsdt root) by by eapply bytes_at_mono.
    replace (Z.of_nat i + 1) with (Z.of_nat (Datatypes.S i)) by lia.
    destruct (Z.eqb_spec (checksum l) 0) as [Hck|Hck]; cbn [negb].
    + destruct (register_table_spec va l a1 Ha1 Hlit1 Hb Htab) as (a2 & st2 & E2 & Ha2 & Hs2 & Ht2); [rewrite Ht1; lia|]. rewrite E2, bind_Ret. cbn [fst].
      destruct (IH (Datatypes.S i) a2) as (a' & st & E' & W); [lia|done|by rewrite Hs2|by rewrite Hs2|destruct Ht2 as [->|[_ ->]]; rewrite ?length_app, Ht1; cbn; lia|].
      exists a', st. split; [done|]. destruct Ht2 as [Ht2|[Hkind Ht2]].
      * eapply (walked_cons a a2 a' st l _ [] []); [by rewrite Hs2|by rewrite Ht2, Ht1, app_nil_r|constructor|apply sublist_nil_l|done].
      * eapply (walked_cons a a2 a' st l _ [_] [l]); [by rewrite Hs2|by rewrite Ht2, Ht1| |rewrite filter_cons_True by done; done|done].
        rewrite Hs2. constructor; [done|constructor].
    + destruct (IH (Datatypes.S i) a1) as (a' & st & E' & W); [lia|done|done|done|rewrite Ht1; lia|].
      exists a', st. split; [done|]. eapply (walked_cons a a1 a' st l _ [] []); [done|by rewrite Ht1, app_nil_r|constructor|apply sublist_nil_l|done].
Qed.

Lemma kind_sig sig : (kind sig = ACPI_TABLE_HPET -> sig = HPET_SIG) /\ (kind sig = ACPI_TABLE_APIC -> sig = APIC_SIG).
Proof. unfold kind. split; repeat case_bool_decide; done. Qed.
Lemma find_table_spec ty a ls : ty <> 0 -> keeps (seen a) a.(acpi_tables) ls -> find_table ty a <> 0 ->
  exists l, l ∈ ls /\ kind (take 4 l) = ty /\ bytes_at (seen a) (find_table ty a) l.
Proof.
  intros Hty Hk. unfold find_table. destruct (list_find _ _) as [[i t]|] eqn:E; cbn; [intros _|done].
  apply list_find_Some in E as (Hi & Ht & _). destruct (Forall2_lookup_l _ _ _ _ _ Hk Hi) as (l & Hl & Hkind & Hb).
  exists l. split; [by eapply list_elem_of_lookup_2|]. split; [congruence|done].
Qed.

(** What the two functions for the tables' users hand out. *)
Definition hands_out a (ls : list (list Z)) : Prop :=
  forall get sig, (get, sig) ∈ [(acpi_get_hpet_table, HPET_SIG); (acpi_get_mad_table, APIC_SIG)] -> get a <> 0 ->
  exists l, l ∈ ls /\ take 4 l = sig /\ checksum l = 0 /\ bytes_at (seen a) (get a) l.
Lemma hands_out_keeps a ls sub : keeps (seen a) a.(acpi_tables) sub -> (forall l, l ∈ sub -> l ∈ ls /\ good l) -> hands_out a ls.
Proof.
  intros Hkeep Hin. assert (Hget : forall ty sig, ty <> 0 -> (forall s, kind s = ty -> s = sig) -> find_table ty a <> 0 ->
    exists l, l ∈ ls /\ take 4 l = sig /\ checksum l = 0 /\ bytes_at (seen a) (find_table ty a) l).
  { intros ty sig Hty Hsig Hnz. destruct (find_table_spec ty a sub Hty Hkeep Hnz) as (l & Hl1 & Hkind & Hl2).
    exists l. split; [by apply Hin|]. split; [by apply Hsig|]. split; [by apply Hin|done]. }
  intros get sig Hg Hnz. rewrite !elem_of_cons in Hg. destruct Hg as [[= -> ->]|[[= -> ->]|[]%elem_of_nil]].
  - apply Hget; [done|intros s; apply kind_sig|done].
  - apply Hget; [done|intros s; apply kind_sig|done].
Qed.
Lemma root_entries root es : table_bytes root -> lists root es ->
  Z.to_nat (u32 (Z.of_nat (length root) - sizeof_ACPISDTHeader) / 4) = length es /\ Z.of_nat (length es) < 2 ^ 29.
Proof.
  intros [_ [H1 H2] _] [Hn _]. unfold sizeof_ACPISDTHeader. rewrite u32_small by (unfold is_u32; lia). rewrite Hn.
  pose proof (Nat.Div0.mul_div_le (length root - 36) 4).
  replace (Z.of_nat (length root) - 36) with (Z.of_nat (length root - 36)) by lia. change 4 with (Z.of_nat 4) at 1. rewrite <- Nat2Z.inj_div. lia.
Qed.
(** A list nothing was added to. *)
Lemma kept_nothing a : a.(acpi_tables) = [] -> keeps (seen a) a.(acpi_tables) [] /\ forall ls, hands_out a ls.
Proof.
  intros E. assert (Hk : keeps (seen a) a.(acpi_tables) []) by (rewrite E; constructor). split; [done|].
  intros ls. eapply hands_out_keeps; [done|]. by intros l ?%elem_of_nil.
Qed.

End spec.

(** The windows of [dma_map_range]: a range that does not start a page stops
    the kernel. *)
Section windows.
Context {H : Type} `{!Allocator H} `{!AlignedAllocator H} (koff : Z) (see : Paging.mstate H -> gmap Z Z).
#[local] Instance dma_windows : DmaWindows (Paging.mstate H * dmaproc) H := {|
  w_dma pa n fl s :=
    r ← dma_map_range koff pa n fl s.2 s.1;
    let '(mm, p, ev) := r : Paging.mstate H * dmaproc * (Z * Z) in Ret ((mm, p), ev);
  w_seen s := see s.1;
  w_heap s := s.1.(heap);
  w_set_heap h s := (set_heap s.1 h, s.2) |}.
Lemma dma_windows_unaligned pa n fl s : pa mod Paging.PAGESIZE <> 0 -> w_dma pa n fl s = Panic.
Proof. intros Hp. cbn. unfold dma_map_range. change Bitmap.PAGESIZE with Paging.PAGESIZE. by rewrite (proj2 (Z.eqb_neq _ 0)). Qed.
End windows.

(** ** A machine with one table *)
Lemma bytes_at_load m l : forall p, load_bytes (length l) m p = Ret l -> bytes_at m p l.
Proof.
  induction l as [|b l IH]; intros p E; [by intros i b|]. cbn [length load_bytes] in E. unfold load in E.
  destruct (m !! p) as [c|] eqn:Ec; [|done]. cbn [deref] in E. rewrite bind_Ret in E.
  destruct (load_bytes (length l) m (p + 1)) as [l'| |] eqn:El; [|done|done]. rewrite bind_Ret in E. injection E as -> ->.
  intros [|i] x Hx; cbn in Hx; [injection Hx as <-; by rewrite Z.add_0_r|].
  replace (p + Z.of_nat (Datatypes.S i)) with (p + 1 + Z.of_nat i) by lia. by apply (IH (p + 1)).
Qed.
Lemma mapped_readable m c : map_Forall (fun _ => is_byte) m -> mapped m c 8 -> readable m c.
Proof.
  intros Hb Hm. exists ((fun k => default 0 (m !! (c + k))) <$> seqZ 0 8). split; [done|]. split.
  - apply Forall_fmap, Forall_forall. intros k [Hk1 Hk2]%elem_of_seqZ. cbn. destruct (Hm (c + k)) as [b E]; [lia|]. rewrite E. by apply (Hb _ _ E).
  - intros i b Hi. rewrite list_lookup_fmap in Hi. apply fmap_Some in Hi as (k & [-> Hk]%lookup_seqZ & ->).
    destruct (Hm (c + (0 + Z.of_nat i))) as [b E]; [lia|]. rewrite Z.add_0_l in *. by rewrite E.
Qed.

Definition demo_table : list Z := HPET_SIG ++ [40; 0; 0; 0; 1; 166] ++ replicate 30 0.
Definition demo_root : list Z := [82; 83; 68; 84; 40; 0; 0; 0; 1; 122] ++ replicate 26 0 ++ [0; 32; 0; 0].
Definition demo_rsdp : list Z := RSD_SIG ++ [209; 0; 0; 0; 0; 0; 0; 0; 0; 16; 0; 0] ++ replicate 16 0.
Definition demo_phys : gmap Z Z := write_bytes (write_bytes ∅ 0x1000 demo_root) 0x2000 demo_table.
Definition KOFF : Z := 0xC0000000.
Definition WINDOW : Z := 0xD0000000.
Definition demo_lit : literals := mkLits 0xC0200000 0xC0200010 0xC0200020 0xC0200030 0xC0200040.
(** The extended BIOS data start with the root pointer. *)
Definition demo_fw : gmap Z Z :=
  kmap (Z.add WINDOW) demo_phys ∪
  write_bytes (write_bytes (write_bytes (write_bytes (write_bytes (write_bytes (write_bytes ∅
    (0x40E + KOFF) [0; 0x9F]) (0x9F000 + KOFF) demo_rsdp) 0xC0200000 RSD_SIG) 0xC0200010 HPET_SIG) 0xC0200020 FACP_SIG) 0xC0200030 APIC_SIG) 0xC0200040 WAET_SIG.
Definition demo_seen : gmap Z Z := demo_fw ∪ gset_to_gmap 0 (list_to_set (seqZ (0x9F000 + KOFF) 0x62000)).
#[local] Instance demo_windows : DmaWindows kstate kstate := {|
  w_dma pa n fl s := if pa mod Paging.PAGESIZE =? 0 then Ret (s, (0, WINDOW + pa)) else Panic;
  w_seen s := demo_seen; w_heap s := s; w_set_heap h s := h |}.

Lemma demo_sees p l : load_bytes (length l) demo_fw p = Ret l -> bytes_at demo_seen p l.
Proof. intros E. eapply bytes_at_mono; [apply map_union_subseteq_l|by apply bytes_at_load]. Qed.
#[local] Instance demo_windows_laws : DmaWindowsLaws demo_phys kstate kstate.
Proof.
  split; try done.
  - intros pa n fl s Hp. cbn. by rewrite (proj2 (Z.eqb_neq _ 0)).
  - intros pa n fl s H32 Hp _ Hs. cbn. rewrite Hp. exists s, 0, (WINDOW + pa). do 4 (split; [done|]). right.
    split; [done|]. split; [unfold is_u32, WINDOW in *; lia|]. intros l Hl _ i b Hb. unfold demo_seen, demo_fw. apply lookup_union_Some_l, lookup_union_Some_l.
    replace (WINDOW + pa + Z.of_nat i) with (WINDOW + (pa + Z.of_nat i)) by lia. rewrite lookup_kmap by (intros ??; lia). by apply Hl.
Qed.
Lemma demo_bytes : map_Forall (fun _ => is_byte) demo_seen.
Proof.
  apply map_Forall_union_2; [apply (bool_decide_eq_true_1 (map_Forall (fun _ b => 0 <= b < 256) demo_fw)); by vm_compute|].
  intros a b Hb. apply lookup_gset_to_gmap_Some in Hb as [_ <-]. done.
Qed.
Lemma demo_low_mapped a : 0x9F000 + KOFF <= a < 0x101000 + KOFF -> is_Some (demo_seen !! a).
Proof.
  intros Ha. unfold demo_seen. destruct (demo_fw !! a) as [b|] eqn:E; [exists b; by apply lookup_union_Some_l|]. rewrite lookup_union_r by done.
  exists 0. apply lookup_gset_to_gmap_Some. split; [|done]. apply elem_of_list_to_set, elem_of_seqZ. lia.
Qed.
Lemma demo_readable : Forall (readable demo_seen) (rsdp_places KOFF 0x9F00).
Proof.
  assert (H : forall p n, 0x9F000 + KOFF <= p -> p + 16 * Z.of_nat n <= 0x100000 + KOFF -> Forall (readable demo_seen) (places p n)).
  { intros p n H1 H2. unfold places. apply Forall_fmap, Forall_forall. intros k [Hk1 Hk2]%elem_of_seqZ. cbn. apply mapped_readable; [apply demo_bytes|].
    intros a Ha. apply demo_low_mapped. lia. }
  unfold rsdp_places. apply Forall_app. split; apply H; unfold KOFF; lia.
Qed.
Lemma demo_first : first_rsdp demo_seen (rsdp_places KOFF 0x9F00) = 0x9F000 + KOFF.
Proof.
  unfold rsdp_places. change 64%nat with (Datatypes.S 63). rewrite places_S. unfold first_rsdp. cbn [app]. rewrite filter_cons, decide_True; [done|].
  apply (load_bytes_spec demo_seen RSD_SIG), demo_sees. by vm_compute.
Qed.

Definition demo_acpi : acpistate kstate := mkAS demo_k 0 [].
