(* ===== verification/Files.v ===== *)
(** * Files of a process

    What a process can rely on when it opens, reads, seeks and closes files:
    the theorems about [fs.c], [vfs.c], [vfs_fdt.c] and [ramfs.c], with the
    ram file system as the driver where one is needed. *)
From S2P Require Import Prelude Alloc Kmalloc CString LinkedList Sha1 HashTable Path Paging Falloc Proc User Fs Vfs Ramfs.

(** ** Shared facts *)
Section facts.
Context {D : Type} `{DT : DriverTables} `{!Drivers (vstate kstate D)}.
Implicit Types (s : vstate kstate D) (p : Process).
Notation key := vfs_fdt_combo_to_hashkey.

Lemma topmost_unique l path a b : topmost l path a -> topmost l path b -> a = b.
Proof.
  intros (l1 & t & l2 & -> & Ht & H1 & H2) (k1 & u & k2 & E & Hu & K1 & K2).
  destruct (decide (length l1 < length k1)%nat) as [Hlt|Hge]; [|destruct (decide (length k1 < length l1)%nat) as [Hgt|Heq]].
  - exfalso. assert (Ha : k1 !! length l1 = Some (a, t)).
    { pose proof (list_lookup_middle l1 l2 (a, t) _ eq_refl) as Hl. rewrite E in Hl. by rewrite lookup_app_l in Hl. }
    assert (Hb : l2 !! (length k1 - S (length l1))%nat = Some (b, u)).
    { pose proof (list_lookup_middle k1 k2 (b, u) _ eq_refl) as Hl. rewrite <- E, lookup_app_r in Hl by lia.
      replace (length k1 - length l1)%nat with (S (length k1 - S (length l1))) in Hl by lia. exact Hl. }
    pose proof (H2 b u (list_elem_of_lookup_2 _ _ _ Hb) Hu). pose proof (K1 a t (list_elem_of_lookup_2 _ _ _ Ha) Ht). lia.
  - exfalso. assert (Hb : l1 !! length k1 = Some (b, u)).
    { pose proof (list_lookup_middle k1 k2 (b, u) _ eq_refl) as Hl. rewrite <- E in Hl. by rewrite lookup_app_l in Hl. }
    assert (Ha : k2 !! (length l1 - S (length k1))%nat = Some (a, t)).
    { pose proof (list_lookup_middle l1 l2 (a, t) _ eq_refl) as Hl. rewrite E, lookup_app_r in Hl by lia.
      replace (length l1 - length k1)%nat with (S (length l1 - S (length k1))) in Hl by lia. exact Hl. }
    pose proof (K2 a t (list_elem_of_lookup_2 _ _ _ Ha) Ht). pose proof (H1 b u (list_elem_of_lookup_2 _ _ _ Hb) Hu). lia.
  - assert (El : length l1 = length k1) by lia. apply app_inj_1 in E as [_ E]; [|done]. by injection E.
Qed.

Lemma topmost_found s l path fs : mounts s l -> text path -> topmost l path fs -> vfs_topmost_fs_for_path path s = Ret fs.
Proof.
  intros Hm Hp Ht. destruct (topmost_spec s l path Hm Hp) as [[Hn _]|(fs' & -> & Ht' & _)].
  - destruct Ht as (l1 & mnt & l2 & -> & Hpre & _). destruct (Hn fs mnt); [apply elem_of_app; right; left|done].
  - f_equal. by apply (topmost_unique l path).
Qed.

Lemma first_at_node s ds rel : cache_ok s ds -> first_at s ds rel <> 0 ->
  first_at s ds rel ∈ ds /\ at_path s rel (first_at s ds rel) /\ exists x, s.(vnodes) !! first_at s ds rel = Some x.
Proof.
  intros Hc. unfold first_at. destruct (filter (at_path s rel) ds) as [|v l] eqn:E; [done|]. cbn. intros _.
  assert (Hin : v ∈ filter (at_path s rel) ds) by (rewrite E; left). apply list_elem_of_filter in Hin as [Ha Hin].
  split; [done|]. split; [done|]. change (Z.to_nat PATH_MAX) with (S 511) in *. unfold at_path in Ha. change (Z.to_nat PATH_MAX) with (S 511) in Ha.
  cbn [node_path] in Ha. destruct (s.(vnodes) !! v) as [x|]; [by exists x|done].
Qed.

Lemma not_open f s p m fd : vfs_ok f s p m -> is_fd fd -> file_of s m fd p.(pid) = None -> vfs_fdt_get_sysfd fd p.(pid) s = Ret 0.
Proof.
  intros Ho Hfd Hn. rewrite (get_spec f s m fd (pid p) (vo_table _ _ _ _ Ho) Hfd). unfold file_of in Hn.
  destruct (m !! key fd (pid p)) as [a|] eqn:Ha; [|done]. destruct (ft_file _ _ _ (vo_table _ _ _ _ Ho) _ a Ha) as (d & Hd & _). cbn in Hn. congruence.
Qed.

(** A transfer of [n] bytes that the driver answered with [s1]. *)
Lemma after_transfer f s p m fd a d s1 n : vfs_ok f s1 p m -> m !! key fd p.(pid) = Some a -> s.(sysfds) !! a = Some d ->
  s1.(sysfds) = s.(sysfds) -> is_fd fd -> 0 <= d.(fd_off) -> 0 <= n -> d.(fd_off) + n < 2 ^ 31 ->
  exists s', add_off a n s1 = Ret s' /\ vfs_ok f s' p m /\ file_of s' m fd p.(pid) = Some (set_off d (d.(fd_off) + n)) /\
    others_same s1 m s' m fd p.(pid) /\ s'.(vnodes) = s1.(vnodes).
Proof.
  intros Ho Ha Hd Hs Hfd H0 Hn Hlt. unfold add_off. rewrite Hs, Hd. cbn [deref]. rewrite bind_Ret, bool_decide_eq_true_2 by lia.
  eexists. split; [done|]. rewrite <- Hs. rewrite <- Hs in Hd. by apply (ok_set_off f s1 p m fd a d).
Qed.
End facts.

(** ** The theorems *)




(** C39: [vfs_lseek] puts the offset at the base plus the distance when that is
    a non-negative 31-bit number and answers it, refuses a negative one with
    [-EINVAL] and, from the end of the file, one that is too large with
    [-EOVERFLOW]; [vfs_read] checks the kind of node, the open mode and the
    length in that order, and moves the offset by what the driver read;
    nothing else changes, and a refusal changes nothing. *)
Theorem vfs_io_correct {D} `{DT : DriverTables} `{!Drivers (vstate kstate D)} f (s : vstate kstate D) p m fd d x off whence buf n :
  vfs_ok f s p m -> is_open s m fd p.(pid) d x -> is_i32 off -> 0 <= d.(fd_off) < 2 ^ 31 -> 0 <= x.(vn_size) < 2 ^ 31 ->
  match seek_base d x whence with
  | None => vfs_lseek fd off whence p s = Ret (s, - EINVAL)
  | Some b =>
      (0 <= b + off < 2 ^ 31 -> exists s', vfs_lseek fd off whence p s = Ret (s', b + off) /\ vfs_ok f s' p m /\
         file_of s' m fd p.(pid) = Some (set_off d (b + off)) /\ others_same s m s' m fd p.(pid)) /\
      (b + off < 0 -> vfs_lseek fd off whence p s = Ret (s, - EINVAL)) /\
      (2 ^ 31 <= b + off -> vfs_lseek fd off whence p s = if whence =? SEEK_CUR then Undef else Ret (s, - EOVERFLOW))
  end /\
  (has x.(vn_mode) S_IFDIR = true -> vfs_read fd buf n p s = Ret (s, - EISDIR)) /\
  (has x.(vn_mode) S_IFDIR = false -> has d.(fd_flags) O_RDONLY = false -> vfs_read fd buf n p s = Ret (s, - EBADF)) /\
  (has x.(vn_mode) S_IFDIR = false -> has d.(fd_flags) O_RDONLY = true -> n = 0 -> vfs_read fd buf n p s = Ret (s, 0)) /\
  (has x.(vn_mode) S_IFDIR = false -> has d.(fd_flags) O_RDONLY = true -> n <> 0 -> forall s1 rd,
     op_read x.(vn_ops) d.(fd_vnode) buf n d.(fd_off) s = Ret (s1, rd) -> vfs_ok f s1 p m -> s1.(sysfds) = s.(sysfds) ->
     (rd < 0 -> vfs_read fd buf n p s = Ret (s1, rd)) /\
     (0 <= rd -> d.(fd_off) + rd < 2 ^ 31 -> exists s', vfs_read fd buf n p s = Ret (s', rd) /\ vfs_ok f s' p m /\
        file_of s' m fd p.(pid) = Some (set_off d (d.(fd_off) + rd)) /\ others_same s1 m s' m fd p.(pid) /\ s'.(vnodes) = s1.(vnodes))).
Proof.
  intros Ho Hop Hoff Hd Hx. destruct (open_at f s p m fd d x Ho Hop) as (a & Ha & Hda & Hget & Ha0 & Hfd & Hat).
  assert (Hseek : vfs_lseek fd off whence p s =
    (t ← seek_target d x.(vn_size) off whence;
     match t with inl e => Ret (s, e) | inr o => Ret (set_sysfds s (<[a := set_off d o]> s.(sysfds)), o) end)).
  { unfold vfs_lseek. rewrite Hfd, Hget, bind_Ret, (proj2 (Z.eqb_neq a 0)), Hat, bind_Ret by done. done. }
  assert (Hread : vfs_read fd buf n p s =
    (if has x.(vn_mode) S_IFDIR then Ret (s, - EISDIR) else if negb (has d.(fd_flags) O_RDONLY) then Ret (s, - EBADF)
     else if n =? 0 then Ret (s, 0) else
       r ← op_read x.(vn_ops) d.(fd_vnode) buf n d.(fd_off) s;
       let '(s, rd) := r : vstate kstate D * Z in if rd <? 0 then Ret (s, rd) else s ← add_off a rd s; Ret (s, rd))).
  { unfold vfs_read. rewrite Hfd, Hget, bind_Ret, (proj2 (Z.eqb_neq a 0)), Hat, bind_Ret by done. done. }
  rewrite Hseek, Hread. split.
  - pose proof (seek_target_spec d x off whence Hoff Hd Hx) as Ht. destruct (seek_base d x whence) as [b|]; [|by rewrite Ht].
    destruct Ht as (T1 & T2 & T3). split; [|split]; intros Hb.
    + rewrite (T1 Hb), bind_Ret. eexists. split; [done|].
      destruct (ok_set_off f s p m fd a d (b + off) Ho Ha Hda (proj1 Hop)) as (K1 & K2 & K3 & _). done.
    + by rewrite (T2 Hb).
    + rewrite (T3 Hb). by destruct (whence =? SEEK_CUR).
  - split; [by intros ->|]. split; [by intros -> ->|]. split; [by intros -> -> ->|].
    intros -> -> Hn s1 rd Hrd Ho1 Hs1. cbn [negb]. rewrite (proj2 (Z.eqb_neq n 0)), Hrd, bind_Ret by done. cbn beta iota. split.
    + intros Hneg. by rewrite (proj2 (Z.ltb_lt rd 0)).
    + intros H0 Hlt. rewrite (proj2 (Z.ltb_ge rd 0)) by done.
      destruct (after_transfer f s p m fd a d s1 rd Ho1 Ha Hda Hs1 (proj1 Hop)) as (s' & -> & K); [lia|done|done|].
      rewrite bind_Ret. exists s'. done.
Qed.

(** C40: making a file in a ram file system takes the first unused slot from
    the cursor on, and its inode number is that slot's plus one.  When every
    slot from the cursor on is used the table is doubled, but the number
    handed out is the capacity it had, which is the inode number that belongs
    to the last slot of the old table, and not one of the new slots. *)
Theorem ramfs_inode_correct `{DT : DriverTables} (s : vstate kstate ramstate) a x l : meta_ok s a x l ->
  0 < x.(file_capacity) < 2 ^ 28 ->
  (exists i fd s', first_unused l x.(file_cursor) i /\ l !! Z.to_nat i = Some fd /\ ramfs_find_next_avail_fd a s = Ret (s', (0, i + 1)) /\
     meta_ok s' a (mkRM x.(rm_files) x.(file_capacity) (i + 1)) (<[Z.to_nat i := mkRF fd.(rf_data) true]> l)) \/
  (all_used l x.(file_cursor) /\ exists s' st, ramfs_find_next_avail_fd a s = Ret (s', st) /\
    ((st = (0, x.(file_capacity)) /\ exists q l', meta_ok s' a (mkRM q (2 * x.(file_capacity)) x.(file_capacity)) l' /\
        forall i, 0 <= i < x.(file_capacity) -> l' !! Z.to_nat i = l !! Z.to_nat i) \/
     (st = (- ENOMEM, 0) /\ meta_ok s' a (mkRM x.(rm_files) x.(file_capacity) x.(file_capacity)) l))).
Proof.
  intros Ho Hc. destruct (next_avail_spec s a x l Ho) as [?|(Hall & s' & st & Hr & Hcase)]; [lia|lia|by left|right].
  split; [done|]. exists s', st. split; [done|]. destruct Hcase as [(-> & q & Hm)|?]; [left|by right].
  split; [done|]. exists q, (l ++ replicate (length l) (mkRF 0 false)). split; [done|]. intros i Hi.
  pose proof (mo_len _ _ _ _ Ho). by rewrite lookup_app_l by lia.
Qed.

(** ** A concrete system *)

(** No other driver. *)
Definition no_other : Drivers (vstate kstate ramstate) := {|
  drv_init _ _ _ := Panic; drv_destroy _ _ _ := Panic; drv_mkfile _ _ _ _ _ _ _ _ := Panic; drv_rmnode _ _ _ := Panic;
  op_open _ _ _ _ := Panic; op_read _ _ _ _ _ _ := Panic; op_write _ _ _ _ _ _ := Panic; op_ioctl _ _ _ _ _ := Panic; op_mmap _ := None |}.
Definition demo_tables : DriverTables := ram_tables (fun _ => []) (fun _ => false) (fun _ => 0).
Definition demo_drivers : Drivers (vstate kstate ramstate) :=
  ram_drivers (fun _ => mkRM 0 0 0) (fun _ => []) (fun _ => false) (fun _ => 0) no_other.
#[local] Existing Instances demo_tables demo_drivers.

(** A descriptor table over SHA-1, then a process, on one heap. *)
Definition demo_tab : hstate kstate * HashTable * Z :=
  match hashtable_init demo_registry with Ret r => r | _ => (demo_registry, mkHT 0 [] 0 0 0 0, 0) end.
Definition demo_pm : pmem kstate := set_pheap (demo_pmem falloc_boot) (HashTable.heap demo_tab.1.1).
Definition demo_new : pmem kstate * Process * Z :=
  match proc_init demo_pm with Ret r => r | _ => (demo_pm, zero_process, 0) end.
Definition demo_p : Process := set_pid demo_new.1.2 1.

(** A ram file system on ["/"] with the file ["/init"], a user string of its
    path, no open file. *)
Definition init_path : list Z := [47; 105; 110; 105; 116].
Definition root_node : VirtualNode := mkVN 2 1 0 RAMFS_DIR_MODE 0 0 0 0 0 31 RAMFS_OPS 0.
Definition init_node : VirtualNode := mkVN 3 2 40 0x81FF 0 0 0 0 21 31 RAMFS_OPS 0.
Definition demo_fs : FileSystem := mkFS 0 1 0 0 RAMFS 0 (mkLL 12 13).
Definition demo_s : vstate kstate ramstate :=
  mkV demo_new.1.1 (write_bytes ∅ 4096 (init_path ++ [0; 0; 0; 0]))
    (<[1 := [47]]> (<[2 := [47]]> {[ 3 := tail init_path ]}))
    (<[11 := mkNode 31 0]> (<[12 := mkNode 21 13]> {[ 13 := mkNode 22 0 ]}))
    (<[21 := root_node]> {[ 22 := init_node ]}) {[ 31 := demo_fs ]} ∅
    demo_tab.1.1.(g_hash_funcs) demo_tab.1.1.(funcs) demo_tab.1.2 (mkLL 11 11) 0 [] (mkRS ∅ ∅ ∅ 0 []).

Lemma demo_tab_rep : exists f, ht_rep f demo_tab.1.1 demo_tab.1.2 ∅.
Proof.
  unfold demo_tab. destruct (init_spec demo_registry demo_registry_ok) as (s & ht & st & f & Hr & _ & _ & Hc). rewrite Hr. cbn [fst snd].
  destruct Hc as [[_ R]|[-> _]]; [by eexists|].
  exfalso. pose proof (f_equal (fun r => match r with Ret (_, a) => a | _ => 1 end) Hr) as Ha. vm_compute in Ha. discriminate Ha.
Qed.

Lemma demo_new_ok : fds_wf demo_new.1.1 demo_p /\ live (HashTable.heap demo_tab.1.1) demo_p.(fds) = None /\
  forall b, live (HashTable.heap demo_tab.1.1) b <> None -> live (pm_heap demo_new.1.1) b = live (HashTable.heap demo_tab.1.1) b.
Proof.
  destruct demo_tab_rep as (f & R). pose proof (rep_wf _ _ _ _ R) as Hwf. unfold demo_p, demo_new, proc_init.
  assert (Hst : match proc_init demo_pm with Ret r => r.2 | _ => 1 end = 0) by (vm_compute; reflexivity).
  unfold proc_init in Hst. destruct (proc_enlarge_fds zero_process demo_pm) as [[[m q] st]| |] eqn:E; [|discriminate Hst..].
  rewrite bind_Ret in *. cbn beta iota in *. unfold proc_enlarge_fds in E.
  change (pm_heap demo_pm) with (HashTable.heap demo_tab.1.1) in E. change (fds zero_process) with 0 in E.
  change (u32 (fd_count zero_process + STEP)) with 4 in E.
  destruct (realloc_law (HashTable.heap demo_tab.1.1) 0 4 Hwf) as (h & a & Hr & Hwf' & Hc); [lia|by left|].
  rewrite Hr, bind_Ret in E. cbn [fst snd] in E. destruct Hc as [[-> _]|(Ha & Hfr & Hl)].
  { cbn [Z.eqb] in E. injection E as <- <- <-. discriminate Hst. }
  rewrite (proj2 (Z.eqb_neq a 0) Ha) in E. injection E as <- <- <-. cbn [Z.ltb Z.compare].
  assert (Hfresh : live (HashTable.heap demo_tab.1.1) a = None).
  { destruct Hfr as [->|?]; [|assumption]. destruct Ha. reflexivity. }
  split; [|split].
  - split; [exact Hwf'| |change (0 <= 0 <= 4); lia]. change (live h a = Some 4). rewrite Hl. rewrite decide_True by reflexivity. reflexivity.
  - exact Hfresh.
  - intros b Hb. change (live h b = live (HashTable.heap demo_tab.1.1) b). rewrite Hl.
    rewrite decide_False by (intros ->; contradiction). rewrite decide_False; [reflexivity|]. intros ->.
    apply Hb. apply null_not_live. exact Hwf.
Qed.

Lemma demo_hs : hs demo_s = set_h demo_tab.1.1 (pm_heap demo_new.1.1).
Proof. reflexivity. Qed.

Lemma demo_ok : exists f, vfs_ok f demo_s demo_p ∅.
Proof.
  destruct demo_tab_rep as (f & R), demo_new_ok as (Hf & Hn & Hl). exists f. pose proof (rep_wf _ _ _ _ R) as Hwf.
  pose proof (fun b => ht_blocks_live f demo_tab.1.1 demo_tab.1.2 ∅ b R) as Hb.
  assert (Ht : fdt_ok f demo_s ∅).
  { split.
    - rewrite demo_hs. apply (ht_frame f demo_tab.1.1); [exact R|apply Hf|]. intros b Hin. destruct (Hb b Hin) as [->|Hb']; [|by apply Hl].
      rewrite (null_not_live _ Hwf). apply null_not_live, Hf.
    - intros k a Ha. rewrite lookup_empty in Ha; discriminate Ha.
    - intros a [d Ha]. cbn [sysfds demo_s] in Ha. rewrite lookup_empty in Ha; discriminate Ha. }
  split; try exact Ht; try exact Hf.
  - unfold is_i32. cbn. lia.
  - rewrite demo_hs. intros Hin. destruct (Hb _ Hin) as [E|E]; [|contradiction].
    apply (live_not_null _ _ (fw_alloc _ _ Hf)) in E; [exact E|]. rewrite (fw_block _ _ Hf). discriminate.
  - intros k a Ha. rewrite lookup_empty in Ha; discriminate Ha.
  - intros fd a _ Ha. rewrite lookup_empty in Ha; discriminate Ha.
  - intros k a d Ha. rewrite lookup_empty in Ha; discriminate Ha.
  - intros v x Hx. cbn [vnodes demo_s] in Hx. apply lookup_insert_Some in Hx as [[_ <-]|[_ [_ <-]%lookup_singleton_Some]]; reflexivity.
Qed.

Lemma demo_nodes v x : demo_s.(vnodes) !! v = Some x -> (v = 21 /\ x = root_node) \/ (v = 22 /\ x = init_node).
Proof. cbn [vnodes demo_s]. intros [[<- <-]|[_ [<- <-]%lookup_singleton_Some]]%lookup_insert_Some; [by left|by right]. Qed.

Lemma demo_fs_ok : fs_ok demo_s 31 demo_fs [47] [21; 22].
Proof.
  split.
  - reflexivity.
  - reflexivity.
  - split; [repeat constructor; lia|cbn; lia].
  - exists [(12, 21); (13, 22)]. split; [|split; [|reflexivity]].
    + split; [reflexivity|]. split; [discriminate|]. exists 13. split; [reflexivity|]. split; [reflexivity|]. split; [discriminate|].
      exists 0. split; reflexivity.
    + apply NoDup_cons. split; [|apply NoDup_singleton]. intros E%list_elem_of_singleton. discriminate E.
  - split; [|reflexivity]. intros v x Hx. destruct (demo_nodes v x Hx) as [[-> ->]|[-> ->]].
    + exists [47]. split; [reflexivity|]. split; [split; [repeat constructor; lia|cbn; lia]|discriminate].
    + exists (tail init_path). split; [reflexivity|]. split; [split; [repeat constructor; lia|cbn; lia]|discriminate].
  - intros v [->|[->|[]%elem_of_nil]%elem_of_cons]%elem_of_cons.
    + exists [47]. split; [vm_compute; reflexivity|cbn; reflexivity].
    + exists init_path. split; [vm_compute; reflexivity|cbn; reflexivity].
Qed.
Lemma demo_mounts : mounts demo_s [(31, [47])].
Proof.
  split.
  - exists [(11, 31)]. split; [|split; [apply NoDup_singleton|reflexivity]]. split; [reflexivity|]. split; [discriminate|]. exists 0. split; reflexivity.
  - intros fs mnt [= -> ->]%list_elem_of_singleton. split; [discriminate|]. split; [split; [repeat constructor; lia|cbn; lia]|].
    exists demo_fs. split; reflexivity.
Qed.
Lemma demo_user : ustr demo_s.(umem) 4096 init_path.
Proof.
  split; [|split; [repeat constructor; lia|]].
  - intros i b Hi. cbn [umem demo_s]. rewrite write_bytes_lookup. pose proof (lookup_lt_Some _ _ _ Hi) as Hlt. cbn in Hlt.
    rewrite decide_True by (cbn; lia). replace (Z.to_nat (4096 + Z.of_nat i - 4096)) with i by lia.
    change (init_path ++ [0; 0; 0; 0]) with ((init_path ++ [0]) ++ [0; 0; 0]). by apply lookup_app_l_Some.
  - intros i Hi. assert (i = 0 \/ i = 1 \/ i = 2) as [-> |[-> | ->]] by lia; eexists; vm_compute; reflexivity.
Qed.
Lemma demo_opens v x : demo_s.(vnodes) !! v = Some x -> x.(ref_count) + 1 < 2 ^ 32 /\ opens_only x.(vn_ops) v O_RDONLY.
Proof. intros Hx. destruct (demo_nodes v x Hx) as [[-> ->]|[-> ->]]; (split; [reflexivity|]); intros s; exists 0; reflexivity. Qed.

Lemma init_text : text init_path.
Proof. split; [repeat constructor; lia|cbn; lia]. Qed.
Lemma init_relative : relative (canonical init_path) [47] = (init_path, 0).
Proof. vm_compute. reflexivity. Qed.
Lemma init_first : first_at demo_s [21; 22] init_path = 22.
Proof. vm_compute. reflexivity. Qed.


(** Opening ["/init"] runs to a descriptor. *)
Lemma open_runs : match vfs_open 4096 O_RDONLY 0 demo_p demo_s with Ret (_, _, n) => n | _ => -1 end = 0.
Proof. vm_compute. reflexivity. Qed.

Lemma demo_topmost : topmost [(31, [47])] init_path 31.
Proof.
  exists [], [47], []. split; [reflexivity|]. split; [exists (tail init_path); reflexivity|].
  split; intros g t []%elem_of_nil.
Qed.

(** The same through the node, for the states the other theorems start in. *)
Lemma demo_opened : exists f (s' : vstate kstate ramstate) q m', vfs_ok f s' q m' /\ q.(pid) = 1 /\
  is_open s' m' 0 q.(pid) (mkFD 0 1 O_RDONLY 0 22) (set_ref init_node 1).
Proof.
  destruct demo_ok as (f & Ho).
  assert (Hrun : match open_node 22 O_RDONLY demo_p demo_s with Ret (_, _, n) => n | _ => -1 end = 0) by (vm_compute; reflexivity).
  destruct (demo_opens 22 init_node eq_refl) as [H1 H2].
  destruct (open_node_spec f demo_s demo_p ∅ 22 init_node O_RDONLY Ho eq_refl H1 H2) as [(s' & q & r & Hr & Hpid & Hop)|Hp].
  - rewrite Hr in Hrun. subst r. destruct Hop as [(_ & _ & m' & Hok & Hf & _ & Hv)|(Hneg & _)]; [|lia].
    exists f, s', q, m'. split; [exact Hok|]. split; [rewrite Hpid; reflexivity|]. rewrite Hpid. split; [unfold is_fd; lia|]. split; [exact Hf|].
    rewrite Hv. cbn [fd_vnode]. apply lookup_insert_eq.
  - rewrite Hp in Hrun. discriminate Hrun.
Qed.


Lemma vfs_io_correct_witness : exists (s : vstate kstate ramstate) p, exists s' s'',
  vfs_lseek 0 5 SEEK_SET p s = Ret (s', 5) /\ vfs_lseek 0 (-2) SEEK_END p s = Ret (s'', 38) /\ vfs_lseek 0 (-1) SEEK_SET p s = Ret (s, - EINVAL).
Proof.
  destruct demo_opened as (f & s & p & m & Ho & _ & Hop). exists s, p.
  assert (H0 : 0 <= fd_off (mkFD 0 1 O_RDONLY 0 22) < 2 ^ 31) by (cbn; lia).
  assert (Hs : 0 <= vn_size (set_ref init_node 1) < 2 ^ 31) by (cbn; lia).
  destruct (vfs_io_correct f s p m 0 _ _ 5 SEEK_SET 0 0 Ho Hop ltac:(unfold is_i32; lia) H0 Hs) as [[T1 _] _].
  destruct (vfs_io_correct f s p m 0 _ _ (-2) SEEK_END 0 0 Ho Hop ltac:(unfold is_i32; lia) H0 Hs) as [[T2 _] _].
  destruct (vfs_io_correct f s p m 0 _ _ (-1) SEEK_SET 0 0 Ho Hop ltac:(unfold is_i32; lia) H0 Hs) as [(_ & T3 & _) _].
  destruct T1 as (s' & T1 & _); [lia|]. destruct T2 as (s'' & T2 & _); [cbn; lia|].
  exists s', s''. split; [exact T1|]. split; [exact T2|]. apply T3. lia.
Defined.

(** A ram file system whose table of 8 is full. *)
Definition full_table : list RamFsFileData := replicate 8 (mkRF 0 true).
Definition full_fs (h : kstate) (b : Z) : vstate kstate ramstate :=
  set_drv (set_vheap demo_s h) (mkRS {[ 500 := mkRM b 8 8 ]} {[ b := full_table ]} ∅ 0 []).
Lemma full_ok : exists h b, meta_ok (full_fs h b) 500 (mkRM b 8 8) full_table.
Proof.
  pose proof (Hwf0 := demo_k_wf : @alloc_wf kstate kmalloc_allocator demo_k).
  destruct (malloc_law demo_k 64 Hwf0) as (h & b & Hr & Hwf & Hc); [lia|]. exists h, b.
  destruct Hc as [[-> _]|(Hb & _ & Hl)].
  { exfalso. pose proof (f_equal (fun r => match r with Ret (_, a) => a | _ => 1 end) Hr) as Ha. vm_compute in Ha. discriminate Ha. }
  split.
  - exact Hwf.
  - reflexivity.
  - apply lookup_singleton_eq.
  - change (live h b = Some 64). rewrite Hl. rewrite decide_True by reflexivity. reflexivity.
  - reflexivity.
  - cbn [file_cursor file_capacity]. lia.
Qed.
Lemma ramfs_inode_correct_witness : exists (s s' : vstate kstate ramstate) st, ramfs_find_next_avail_fd 500 s = Ret (s', st) /\
  (st = (0, 8) \/ st = (- ENOMEM, 0)).
Proof.
  destruct full_ok as (h & b & Ho). exists (full_fs h b).
  destruct (ramfs_inode_correct (full_fs h b) 500 _ full_table Ho) as [(i & fd & _ & (_ & _ & g & Hg & Hu) & _)|(_ & s' & st & Hr & Hc)].
  - cbn [file_capacity]. lia.
  - apply lookup_replicate in Hg as [-> _]. discriminate Hu.
  - exists s', st. split; [exact Hr|]. destruct Hc as [(-> & _)|(-> & _)]; [left|right]; reflexivity.
Defined.
