(* ===== verification/Pagefault.v ===== *)
(** * Page faults

    [kernel/mem/pagefault.c] and the x86 trap in front of it: what the kernel
    does when an access faults, and when it maps a page of its heap on
    demand. *)
From S2P Require Import Prelude Alloc Bitwise CString Gallocator Kmalloc Falloc Paging.

Definition ENOMEM : Z := 12.
Definition PAGE_RW : Z := 6.

Inductive PageFaultReason : Type := PAGEFAULT_REASON_PROT_FAULT | PAGEFAULT_REASON_ABSENT.
Inductive PageFaultAction : Type := PAGEFAULT_ACTION_READ | PAGEFAULT_ACTION_WRITE | PAGEFAULT_ACTION_EXEC.
#[export] Instance reason_eq_dec : EqDecision PageFaultReason.
Proof. solve_decision. Defined.

Section pagefault.
(** The linker's symbols: [kimg_map_offset()], the bounds of [.useraccess],
    and the address of [user_access_fault_stub]. *)
Context (koff kimg_useraccess_start kimg_useraccess_end user_access_fault_stub : Z).

(** The memory manager, the kernel's paging structure, and the physical
    memory by byte. *)
Record pfstate := mkPF { pf_mm : mstate kstate; kps : PagingStruct; phys : gmap Z Z }.
Implicit Types s : pfstate.

(** A byte written by the kernel through its own tables; a page that is absent
    or read-only would fault again. *)
Definition kernel_store s (va b : Z) : outcome pfstate :=
  match translate koff s.(pf_mm).(tables) s.(kps).(Paging.data) va with
  | Some (pa, (true, _, _)) => Ret (mkPF s.(pf_mm) s.(kps) (<[pa := b]> s.(phys)))
  | _ => Undef
  end.
Fixpoint kernel_memset_loop (k : nat) s (p c i : Z) : outcome pfstate :=
  match k with
  | O => Ret s
  | S k => s ← kernel_store s (p + i) (u8 c); kernel_memset_loop k s p c (i + 1)
  end.
Definition kernel_memset s (p c n : Z) : outcome pfstate := kernel_memset_loop (Z.to_nat n) s p c 0.

Definition pagefault_handle_prot_fault (faultaddr ring : Z) (action : PageFaultAction) (ip : Z) : outcome pfstate :=
  if ring =? 0 then Panic else Panic.

Definition pagefault_handle_absent_kernel_heap (faultaddr : Z) s : outcome pfstate :=
  let aligned_faultaddr := u32 (Bytes.bytes_align_down64 faultaddr PAGESIZE) in
  let frame := u32 (aligned_faultaddr - koff) in
  r ← falloc_one_at frame s.(pf_mm).(frames);
  let '(f, st) := r : fstate * Z in
  let m := set_frames s.(pf_mm) f in
  if st <? 0 then Panic
  else
    r ← mm_map_page koff aligned_faultaddr frame PAGE_RW s.(kps) m;
    let '(m, st) := r : mstate kstate * Z in
    if st <? 0 then Panic else kernel_memset (mkPF m s.(kps) s.(phys)) aligned_faultaddr 0 PAGESIZE.

Definition pagefault_handle_absent_kernel_bogus (faultaddr : Z) : outcome pfstate :=
  if faultaddr <? PAGESIZE then Panic else Panic.

Definition handle_absent_user (faultaddr : Z) : outcome pfstate := Panic.

Definition pagefault_handle_absent (faultaddr ring : Z) s : outcome pfstate :=
  if ring =? 0 then
    if kmalloc_owns_va faultaddr s.(pf_mm).(heap) then pagefault_handle_absent_kernel_heap faultaddr s
    else pagefault_handle_absent_kernel_bogus faultaddr
  else handle_absent_user faultaddr.

(** [ip] is where the interrupted code goes on. *)
Definition pagefault_handle (faultaddr ip ring : Z) (reason : PageFaultReason) (action : PageFaultAction) s
    : outcome (pfstate * Z) :=
  let user_access := (ip >=? kimg_useraccess_start) && (ip <? kimg_useraccess_end) in
  match reason with
  | PAGEFAULT_REASON_PROT_FAULT =>
      if user_access then Ret (s, user_access_fault_stub)
      else s ← pagefault_handle_prot_fault faultaddr ring action ip; Ret (s, ip)
  | PAGEFAULT_REASON_ABSENT =>
      if user_access && negb (kmalloc_owns_va faultaddr s.(pf_mm).(heap)) then Ret (s, user_access_fault_stub)
      else s ← pagefault_handle_absent faultaddr ring s; Ret (s, ip)
  end.

Definition PAGEFAULT_IS_PROT_VIOL (x : Z) : bool := negb (Z.land x 1 =? 0).
Definition PAGEFAULT_IS_WRITE (x : Z) : bool := negb (Z.land x (Z.shiftl 1 1) =? 0).
Definition PAGEFAULT_IS_EXEC (x : Z) : bool := negb (Z.land x (Z.shiftl 1 4) =? 0).

(** [code], [xip] and [xcs] are the frame's fields, [cr2] the register; the
    result is the new [frame->xip]. *)
Definition pagefault_isr (cr2 code xip xcs : Z) s : outcome (pfstate * Z) :=
  let reason := if PAGEFAULT_IS_PROT_VIOL code then PAGEFAULT_REASON_PROT_FAULT else PAGEFAULT_REASON_ABSENT in
  let action := if PAGEFAULT_IS_EXEC code then PAGEFAULT_ACTION_EXEC
                else if PAGEFAULT_IS_WRITE code then PAGEFAULT_ACTION_WRITE else PAGEFAULT_ACTION_READ in
  pagefault_handle cr2 xip (Z.land xcs 3) reason action s.

(** ** Writing a whole page *)

(** The page at [p] is backed, writable, by the frame at [pa]. *)
Definition backed s (p pa : Z) : Prop := forall i, 0 <= i < PAGESIZE -> exists u x,
  translate koff s.(pf_mm).(tables) s.(kps).(Paging.data) (p + i) = Some (pa + i, (true, u, x)).

Lemma memset_spec_page p pa c : forall k s i, backed s p pa -> 0 <= i -> i + Z.of_nat k <= PAGESIZE ->
  kernel_memset_loop k s p c i = Ret (mkPF s.(pf_mm) s.(kps) (write_bytes s.(phys) (pa + i) (replicate k (u8 c)))).
Proof.
  induction k as [|k IH]; intros [m ps ph] i Hb Hi Hk; cbn; [done|].
  unfold kernel_store. destruct (Hb i) as (u & x & ->); [lia|]. rewrite bind_Ret. cbn [pf_mm kps phys] in *.
  rewrite IH by (done || lia). cbn. by rewrite Z.add_assoc.
Qed.

(** What a served heap fault leaves: the faulting page is backed by the frame
    at the same offset from the image, which was free, writable for the kernel
    alone and not executable, and all zeros; no other page, frame or byte
    changed. *)
Record heap_page_made s s' (va : Z) : Prop := {
  hm_frame : let k := u32 (va - va mod PAGESIZE - koff) / PAGESIZE in
    taken s.(pf_mm).(frames) k = false /\
    forall j, 0 <= j -> taken s'.(pf_mm).(frames) j = (j =? k) || taken s.(pf_mm).(frames) j;
  hm_page : forall va', is_u32 va' -> va' / PAGESIZE = va / PAGESIZE ->
    translate koff s'.(pf_mm).(tables) s.(kps).(Paging.data) va' = Some (u32 (va' - koff), (true, false, false));
  hm_others : forall va', is_u32 va' -> va' / PAGESIZE <> va / PAGESIZE ->
    pte_view koff s'.(pf_mm).(tables) s.(kps).(Paging.data) va' = pte_view koff s.(pf_mm).(tables) s.(kps).(Paging.data) va';
  hm_zero : forall va', is_u32 va' -> va' / PAGESIZE = va / PAGESIZE -> s'.(phys) !! u32 (va' - koff) = Some 0;
  hm_bytes : forall pa, pa / PAGESIZE <> u32 (va - koff) / PAGESIZE -> s'.(phys) !! pa = s.(phys) !! pa;
  hm_kps : s'.(kps) = s.(kps);
  hm_wf : ps_wf koff s'.(pf_mm) s.(kps).(Paging.data) /\ falloc_wf s'.(pf_mm).(frames) }.

(** The offset of a page from the image is a frame. *)
Lemma page_offset va : 0 <= koff < 2 ^ 32 -> (PAGESIZE | koff) -> is_u32 va ->
  let frame := u32 (va - va mod PAGESIZE - koff) in
  frame = frame / PAGESIZE * PAGESIZE /\ 0 <= frame / PAGESIZE < 2 ^ 20 /\
  forall i, 0 <= i < PAGESIZE -> u32 (va - va mod PAGESIZE + i - koff) = frame + i.
Proof.
  intros Hk [q Hq] Hva frame. set (n := va / PAGESIZE - q).
  assert (Hn : va - va mod PAGESIZE - koff = n * PAGESIZE).
  { unfold n. pose proof (Z.div_mod va PAGESIZE ltac:(done)). rewrite Hq. lia. }
  assert (Hf : frame = n mod 2 ^ 20 * PAGESIZE).
  { unfold frame, u32. rewrite Hn. change (2 ^ 32) with (2 ^ 20 * PAGESIZE). rewrite Z.mul_mod_distr_r by done. lia. }
  pose proof (Z.mod_pos_bound n (2 ^ 20) ltac:(done)).
  assert (Hd : frame / PAGESIZE = n mod 2 ^ 20) by (rewrite Hf; by apply Z.div_mul).
  rewrite Hd. split; [done|]. split; [done|]. intros i Hi.
  replace (va - va mod PAGESIZE + i - koff) with (n * PAGESIZE + i) by lia. rewrite Hf. unfold u32.
  rewrite <- Z.add_mod_idemp_l by done. fold (u32 (n * PAGESIZE)). rewrite <- Hn. fold frame. rewrite Hf.
  apply Z.mod_small. unfold PAGESIZE in *. lia.
Qed.

Lemma in_page va va' : va' / PAGESIZE = va / PAGESIZE ->
  exists i, 0 <= i < PAGESIZE /\ va' = va - va mod PAGESIZE + i /\ i = va' mod PAGESIZE.
Proof.
  intros E. exists (va' mod PAGESIZE). pose proof (Z.mod_pos_bound va' PAGESIZE ltac:(done)).
  pose proof (Z.div_mod va' PAGESIZE ltac:(done)). pose proof (Z.div_mod va PAGESIZE ltac:(done)). rewrite <- E in *. lia.
Qed.

Lemma heap_fault_spec s va : 0 <= koff < 2 ^ 32 -> (PAGESIZE | koff) ->
  ps_wf koff s.(pf_mm) s.(kps).(Paging.data) -> falloc_wf s.(pf_mm).(frames) -> is_u32 va ->
  pagefault_handle_absent_kernel_heap va s = Panic \/
  (taken s.(pf_mm).(frames) (u32 (va - va mod PAGESIZE - koff) / PAGESIZE) = false /\
   exists s', pagefault_handle_absent_kernel_heap va s = Ret s' /\ heap_page_made s s' va).
Proof.
  intros Hk Hk' Hps Hf Hva. destruct (page_offset va Hk Hk' Hva) as (Hfr & Hkr & Hoff).
  set (k := u32 (va - va mod PAGESIZE - koff) / PAGESIZE) in *.
  pose proof (Z.mod_pos_bound va PAGESIZE ltac:(done)). pose proof (Z.mod_le va PAGESIZE ltac:(unfold is_u32 in *; lia) ltac:(done)).
  assert (Hal : u32 (Bytes.bytes_align_down64 va PAGESIZE) = va - va mod PAGESIZE)
    by (unfold Bytes.bytes_align_down64; apply u32_small; unfold is_u32 in *; lia).
  assert (Hm : (va - va mod PAGESIZE) mod PAGESIZE = 0) by (rewrite Zminus_mod_idemp_r, Z.sub_diag; done).
  unfold pagefault_handle_absent_kernel_heap. cbv zeta. rewrite Hal, Hfr.
  destruct (one_at_spec s.(pf_mm).(frames) k Hf Hkr) as (f & Hr & Hf' & Ht & _). change Falloc.PAGESIZE with PAGESIZE in Hr.
  rewrite Hr, bind_Ret. destruct (taken s.(pf_mm).(frames) k) eqn:Ek; [by left|]. cbn [Z.ltb Z.compare].
  unfold mm_map_page. rewrite Hm, Z.mod_mul by done. cbn [Z.eqb assert_]. rewrite !bind_Ret.
  assert (Hps1 : ps_wf koff (set_frames s.(pf_mm) f) s.(kps).(Paging.data)) by by destruct Hps.
  destruct (map_page_spec koff Hk Hk' (set_frames s.(pf_mm) f) s.(kps) (va - va mod PAGESIZE) (k * PAGESIZE) PAGE_RW Hps1)
    as (m & st & -> & Hpm & Hfm & _ & Hc); [unfold is_u32 in *; lia|unfold is_u32, PAGESIZE in *; lia|by apply Z.mod_mul|].
  rewrite bind_Ret. destruct Hc as [(-> & _)|(-> & Hv & Htl)]; [by left|]. cbn [Z.ltb Z.compare]. right. split; [done|].
  assert (Hpg : (va - va mod PAGESIZE) / PAGESIZE = va / PAGESIZE).
  { symmetry. apply Z.div_unique with 0; [unfold PAGESIZE; lia|]. pose proof (Z.div_mod va PAGESIZE ltac:(done)) as E; clearbody k; lia. }
  rewrite Hpg in Hv, Htl.
  assert (Hmade : forall va', is_u32 va' -> va' / PAGESIZE = va / PAGESIZE ->
    translate koff m.(tables) s.(kps).(Paging.data) va' = Some (k * PAGESIZE + va' mod PAGESIZE, (true, false, false)))
    by (intros va' Hva' E; by rewrite (Htl va' Hva' E)).
  assert (Hpaddr : forall va', va' / PAGESIZE = va / PAGESIZE -> u32 (va' - koff) = k * PAGESIZE + va' mod PAGESIZE).
  { intros va' E. destruct (in_page va va' E) as (i & Hi & -> & <-). rewrite Hoff by done. by rewrite Hfr. }
  unfold kernel_memset. rewrite (memset_spec_page _ (k * PAGESIZE)); [|intros i Hi|lia|by vm_compute].
  - eexists. split; [reflexivity|]. rewrite Z.add_0_r. split; cbn [pf_mm kps phys].
    + split; [done|]. intros j Hj. rewrite Hfm. by apply Ht.
    + intros va' Hva' E. rewrite Hpaddr by done. by apply Hmade.
    + intros va' Hva' E. rewrite (Hv va' Hva'). by rewrite (proj2 (Z.eqb_neq _ _) E).
    + intros va' Hva' E. rewrite Hpaddr by done. pose proof (Z.mod_pos_bound va' PAGESIZE ltac:(done)).
      rewrite <- (Z2Nat.id (va' mod PAGESIZE)) by lia. apply write_bytes_at.
      apply lookup_replicate_2. unfold PAGESIZE in *. lia.
    + intros pa Hpa. apply write_bytes_outside. rewrite length_replicate. rewrite (Hpaddr va) in Hpa by done.
      change (Z.of_nat (Z.to_nat PAGESIZE)) with PAGESIZE.
      destruct (decide (k * PAGESIZE <= pa < k * PAGESIZE + PAGESIZE)) as [Hin|]; [|lia]. exfalso. apply Hpa.
      rewrite Z.div_add_l, (Z.div_small (va mod PAGESIZE)), Z.add_0_r by (done || lia). symmetry.
      apply Z.div_unique with (pa - k * PAGESIZE); clearbody k; lia.
    + done.
    + split; [done|]. by rewrite Hfm.
  - cbn [pf_mm kps]. exists false, false.
    assert (E : (va - va mod PAGESIZE + i) / PAGESIZE = va / PAGESIZE).
    { symmetry. apply Z.div_unique with i; [lia|]. pose proof (Z.div_mod va PAGESIZE ltac:(done)). lia. }
    rewrite Hmade; [|pose proof (Z.div_mod va PAGESIZE ltac:(done)); unfold is_u32, PAGESIZE in *; Z.div_mod_to_equations; lia|done].
    do 2 f_equal. replace ((va - va mod PAGESIZE + i) mod PAGESIZE) with i; [done|].
    rewrite <- Z.add_mod_idemp_l, Hm, Z.add_0_l by done. symmetry. by apply Z.mod_small.
Qed.
End pagefault.

(** ** Properties *)

(** C11: a page fault has one of three ends.  A fault of the user-access
    routines outside the kernel heap, or on any protected page, changes
    nothing and resumes in their error stub.  An absent page touched by ring 0
    inside the heap is made: the page now translates to the frame at the same
    offset from the image, which was free, for the kernel to read and write
    only; its bytes are zero, every other page, frame and byte is as it was and the
    interrupted instruction runs again; or, when that frame is taken or no
    table can be made, the kernel stops.  Every other fault stops the
    kernel. *)
Theorem pagefault_correct koff ua_start ua_end stub (s : pfstate) cr2 code xip xcs :
  0 <= koff < 2 ^ 32 -> (PAGESIZE | koff) -> ps_wf koff s.(pf_mm) s.(kps).(Paging.data) ->
  falloc_wf s.(pf_mm).(frames) -> is_u32 cr2 ->
  let present := Z.odd code in
  let in_copy := (xip >=? ua_start) && (xip <? ua_end) in
  let in_heap := kmalloc_owns_va cr2 s.(pf_mm).(heap) in
  let res := pagefault_isr koff ua_start ua_end stub cr2 code xip xcs s in
  if in_copy && (present || negb in_heap) then res = Ret (s, stub)
  else if negb present && in_heap && (xcs mod 4 =? 0) then
    res = Panic \/
    (taken s.(pf_mm).(frames) (u32 (cr2 - cr2 mod PAGESIZE - koff) / PAGESIZE) = false /\
     exists s', res = Ret (s', xip) /\ heap_page_made koff s s' cr2)
  else res = Panic.
Proof.
  intros Hk Hk' Hps Hf Hva. cbv zeta. unfold pagefault_isr, PAGEFAULT_IS_PROT_VIOL.
  assert (Hp : negb (Z.land code 1 =? 0) = Z.odd code).
  { change 1 with (Z.ones 1). rewrite Z.land_ones by lia. change (2 ^ 1) with 2. rewrite Zmod_odd. by destruct (Z.odd code). }
  assert (Hring : Z.land xcs 3 = xcs mod 4) by (change 3 with (Z.ones 2); by rewrite Z.land_ones).
  rewrite Hp, Hring. unfold pagefault_handle, pagefault_handle_absent, pagefault_handle_prot_fault, handle_absent_user,
    pagefault_handle_absent_kernel_bogus.
  destruct (Z.odd code), ((xip >=? ua_start) && (xip <? ua_end)), (kmalloc_owns_va cr2 s.(pf_mm).(heap));
    cbn [negb andb orb]; try done; destruct (xcs mod 4 =? 0); try done; try (by case_match).
  all: destruct (heap_fault_spec koff s cr2 Hk Hk' Hps Hf Hva) as [->|(Ht & s' & -> & Hm)]; [by left|right]; eauto.
Qed.

(** A fault at [0xC0405123], in the heap of the demo kernel, with every frame
    free. *)
Lemma boot_falloc_wf : falloc_wf falloc_boot.
Proof.
  split; [by vm_compute| |unfold is_u32; cbn; lia|cbn; unfold PAGEFRAME_POOL_SIZE; lia|cbn; lia].
  apply Forall_replicate. unfold is_u64. lia.
Qed.
Definition demo_fault : outcome (pfstate * Z) :=
  pagefault_isr demo_koff 0xC0100000 0xC0101000 0xC0100F00 0xC0405123 0 0xC0123456 8 (mkPF (demo_mm falloc_boot) demo_ps ∅).

Lemma demo_heap_owns : kmalloc_owns_va 0x1234 demo_heap_k = false /\ kmalloc_owns_va 0xC0405123 demo_heap_k = true.
Proof. by vm_compute. Qed.
Lemma demo_fault_served : match demo_fault with Ret _ => true | _ => false end = true.
Proof. by vm_compute. Qed.

Lemma pagefault_correct_witness :
  pagefault_isr demo_koff 0xC0100000 0xC0101000 0xC0100F00 0x1234 0 0xC0100010 8 (mkPF (demo_mm falloc_boot) demo_ps ∅)
    = Ret (mkPF (demo_mm falloc_boot) demo_ps ∅, 0xC0100F00) /\
  exists s', demo_fault = Ret (s', 0xC0123456) /\ s'.(phys) !! 0x405fff = Some 0 /\ s'.(phys) !! 0x406000 = None.
Proof.
  pose proof (fun cr2 xip => pagefault_correct demo_koff 0xC0100000 0xC0101000 0xC0100F00 (mkPF (demo_mm falloc_boot) demo_ps ∅)
    cr2 0 xip 8 ltac:(unfold demo_koff; lia) ltac:(by exists 0xC0000) (demo_mm_wf falloc_boot) boot_falloc_wf) as T.
  destruct demo_heap_owns as [O1 O2]. split.
  - pose proof (T 0x1234 0xC0100010 ltac:(unfold is_u32; lia)) as P. cbn [pf_mm heap demo_mm] in P. rewrite O1 in P. exact P.
  - pose proof (T 0xC0405123 0xC0123456 ltac:(unfold is_u32; lia)) as P. cbv zeta in P.
    change (kmalloc_owns_va 0xC0405123 _) with (kmalloc_owns_va 0xC0405123 demo_heap_k) in P. rewrite O2 in P.
    destruct P as [E|(_ & s' & E & Hm)].
    + exfalso. pose proof demo_fault_served as Ha. unfold demo_fault in Ha. rewrite E in Ha. discriminate Ha.
    + exists s'. split; [exact E|]. split.
      * apply (hm_zero _ _ _ _ Hm 0xC0405fff); [unfold is_u32; lia|reflexivity].
      * apply (hm_bytes _ _ _ _ Hm 0x406000). discriminate.
Defined.
