(* ===== verification/MmInit.v ===== *)
(** * Memory set-up at boot

    The boot half of [kernel/mem/mm.c]: the rights of the kernel's sections,
    the firmware's memory map, and the kernel heap and DMA areas. *)
From S2P Require Import Prelude Alloc Bitwise Gallocator Kmalloc MRegMap Falloc Paging Proc Procm Pagefault.

(** ** The kernel image

    What the linker's symbols say, by the name of the accessor in
    [kernel/kimg.c]. *)
Record kimg := mkImg {
  kimg_bootloader_start : Z; kimg_bootloader_end : Z; kimg_text_start : Z; kimg_text_end : Z;
  kimg_syscalls_start : Z; kimg_syscalls_end : Z; kimg_useraccess_start : Z; kimg_useraccess_end : Z;
  kimg_module_start : Z; kimg_module_end : Z; kimg_init_start : Z; kimg_init_end : Z;
  kimg_data_start : Z; kimg_data_end : Z; kimg_ro_postinit_start : Z; kimg_ro_postinit_end : Z;
  kimg_rodata_start : Z; kimg_rodata_end : Z; kimg_bss_start : Z; kimg_bss_end : Z;
  kimg_ksyms_start : Z; kimg_ksyms_end : Z;
  kimg_map_offset : Z; kimg_paddr : Z; kimg_vaddr : Z; kimg_size : Z }.

Definition PAGE_WX : Z := 3.
Definition MIB : Z := 2 ^ 20.
(** [4 * GIB] is an [unsigned long] of 32 bits. *)
Definition MEM_KERNEL_SPACE_VA_END : Z := u32 (4 * GIB).
Definition MEM_KERNEL_HEAP_PERC : Z := 80.
Definition MEM_KERNEL_DMA_PERC : Z := 20.
Definition BOOTSTRAP_HEAP_SIZE : Z := 200 * 1024.

Section boot.
Context (img : kimg) (kernel_ps kernel_proc bootstrap_heap_space max_align : Z).
Notation koff := img.(kimg_map_offset).

(** ** The rights of the sections *)

(** [FOR_EACH_PAGE] over [mm_rm_page_flags], whose result is ignored; there
    are [2^20] pages. *)
Fixpoint each_page (fuel : nat) (page end_ flags : Z) (ps : PagingStruct) (s : Paging.mstate kstate) : outcome (Paging.mstate kstate) :=
  match fuel with
  | O => Undef
  | S fuel =>
      if page <? end_ then
        r ← mm_rm_page_flags_arch koff page flags ps s; each_page fuel (u32 (page + PAGESIZE)) end_ flags ps r.1
      else Ret s
  end.
Definition for_each_page (start end_ flags : Z) (ps : PagingStruct) (s : Paging.mstate kstate) : outcome (Paging.mstate kstate) :=
  _ ← assert_ (start mod PAGESIZE =? 0);
  each_page (S (Z.to_nat (2 ^ 20))) start end_ flags ps s.

Definition mm_enforce_ksections_perms (ps : PagingStruct) (s : Paging.mstate kstate) : outcome (Paging.mstate kstate) :=
  s ← for_each_page img.(kimg_bootloader_start) img.(kimg_bootloader_end) PAGE_PRESENT ps s;
  s ← for_each_page img.(kimg_text_start) img.(kimg_text_end) PAGE_W ps s;
  s ← for_each_page img.(kimg_syscalls_start) img.(kimg_syscalls_end) PAGE_WX ps s;
  s ← for_each_page img.(kimg_useraccess_start) img.(kimg_useraccess_end) PAGE_W ps s;
  s ← for_each_page img.(kimg_module_start) img.(kimg_module_end) PAGE_X ps s;
  s ← for_each_page img.(kimg_init_start) img.(kimg_init_end) PAGE_W ps s;
  s ← for_each_page img.(kimg_data_start) img.(kimg_data_end) PAGE_X ps s;
  s ← for_each_page img.(kimg_ro_postinit_start) img.(kimg_ro_postinit_end) PAGE_X ps s;
  s ← for_each_page img.(kimg_rodata_start) img.(kimg_rodata_end) PAGE_WX ps s;
  s ← for_each_page img.(kimg_bss_start) img.(kimg_bss_end) PAGE_X ps s;
  for_each_page img.(kimg_ksyms_start) img.(kimg_ksyms_end) PAGE_WX ps s.

(** ** The memory map *)

(** The results of the removals and of the alignment are not looked at. *)
Definition mm_setup_sys_mregmap (fuel : nat) (s : MRegMap.mstate kstate) : outcome (MRegMap.mstate kstate) :=
  r ← mregmap_rm_reg fuel 0 MIB s;
  r ← mregmap_rm_reg fuel img.(kimg_paddr) img.(kimg_size) r.1;
  a ← mregmap_align_regs PAGESIZE r.1.2;
  Ret (r.1.1, a.1).

(** ** The heap and the DMA area *)

(** The memory manager with the processes on top, the physical memory, and the
    firmware's map. *)
Record bootstate := mkBoot { b_pm : pmstate kstate; b_phys : gmap Z Z; b_regions : MemoryRegionMap }.
Implicit Types s : bootstate.
Definition b_mm s : Paging.mstate kstate := s.(b_pm).(pmem_).(pm_mm).
Definition set_b_mm s (m : Paging.mstate kstate) : bootstate :=
  mkBoot (set_mem s.(b_pm) (set_mm s.(b_pm).(pmem_) m)) s.(b_phys) s.(b_regions).
Definition set_b_heap s (h : kstate) : bootstate := set_b_mm s (Paging.set_heap (b_mm s) h).
Definition set_b_frames s (f : fstate) : bootstate := set_b_mm s (set_frames (b_mm s) f).

Definition mm_setup_dma (dma_start dma_size : Z) s : outcome bootstate :=
  p ← deref (s.(b_pm).(procs) !! kernel_proc);
  let p := mkProc p.(path) p.(pid) p.(paging_struct) (mkHeap dma_start (dma_size / PAGESIZE)) p.(proc_dma_bitmap)
             p.(fds) p.(fd_table) p.(fd_last_free_idx) p.(inst_ptr) p.(stack_top) p.(stack_pagespan) p.(stack_ptr)
             p.(kstack_top) p.(zombie) p.(exit_status) p.(state) in
  Ret (mkBoot (set_procs s.(b_pm) (<[kernel_proc := p]> s.(b_pm).(procs))) s.(b_phys) s.(b_regions)).

Definition mm_setup_kmalloc (kheap_start kheap_size : Z) s : outcome bootstate :=
  let kheap := mkHeap kheap_start (kheap_size / PAGESIZE) in
  let r := kmalloc_init max_align (b_mm s).(heap) in
  if r.2 <? 0 then Panic
  else
    r ← kmalloc_register_heap (mkHeap bootstrap_heap_space (BOOTSTRAP_HEAP_SIZE / PAGESIZE)) r.1;
    let bootstrap_heap_id := r.2 in
    if bootstrap_heap_id <? 0 then Panic
    else
      let k := (kmalloc_use_heap bootstrap_heap_id r.1).1 in
      r ← kmalloc_register_heap kheap k;
      if r.2 <? 0 then Panic else Ret (set_b_heap s r.1).

(** The frames of the pages behind the image. *)
Fixpoint mark_loop (k : nat) (kernel_vend i : Z) (f : fstate) : outcome fstate :=
  match k with
  | O => Ret f
  | S k =>
      let paddr := mm_kva2pa koff (u32 (kernel_vend + i * PAGESIZE)) in
      r ← falloc_one_at paddr f; mark_loop k kernel_vend (i + 1) r.1
  end.

Definition kheap_size_of (kernel_vend : Z) : Z :=
  Bytes.bytes_align_down64 (u32 (u32 (MEM_KERNEL_SPACE_VA_END - kernel_vend) / 100 * MEM_KERNEL_HEAP_PERC)) PAGESIZE.
Definition dma_size_of (kernel_vend : Z) : Z :=
  Bytes.bytes_align_down64 (u32 (u32 (MEM_KERNEL_SPACE_VA_END - kernel_vend) / 100 * MEM_KERNEL_DMA_PERC)) PAGESIZE.

Definition mm_setup_vm_allocation s : outcome (bootstate * Z) :=
  let kernel_vend := u32 (img.(kimg_vaddr) + img.(kimg_size)) in
  _ ← assert_ (kernel_vend mod PAGESIZE =? 0);
  let sz := u32 (Bytes.bytes_align_up64 kernel_vend 0x200000 - kernel_vend) in
  ps ← deref (s.(b_pm).(pmem_).(pstructs) !! kernel_ps);
  z ← kernel_memset koff (mkPF (b_mm s) ps s.(b_phys)) kernel_vend 0 sz;
  f ← mark_loop (Z.to_nat (sz / PAGESIZE)) kernel_vend 0 (b_mm s).(frames);
  let s := set_b_frames (mkBoot s.(b_pm) z.(phys) s.(b_regions)) f in
  let kheap_start := kernel_vend in
  let kheap_size := kheap_size_of kernel_vend in
  s ← mm_setup_kmalloc kernel_vend kheap_size s;
  r ← procm_spawn_kernel_proc kernel_ps kernel_proc s.(b_pm);
  let s := mkBoot r.1 s.(b_phys) s.(b_regions) in
  let dma_start := u32 (kheap_start + kheap_size) in
  let dma_size := dma_size_of kernel_vend in
  s ← mm_setup_dma dma_start dma_size s; Ret (s, 0).

(** [cr3] is what the bootloader left in the register; registering the trap
    handler is not part of this state. *)
Definition mm_setup_paging_arch (cr3 : Z) (ps : PagingStruct) : PagingStruct :=
  mkPS ps.(allocated_pages) ps.(pages) ps.(allocated_pages_capacity) (mm_kpa2va koff cr3).

Definition mm_init (fuel : nat) (cr3 : Z) s : outcome bootstate :=
  ps ← deref (s.(b_pm).(pmem_).(pstructs) !! kernel_ps);
  let ps := mm_setup_paging_arch cr3 ps in
  let s := mkBoot (set_mem s.(b_pm) (set_pstruct s.(b_pm).(pmem_) kernel_ps ps)) s.(b_phys) s.(b_regions) in
  m ← mm_enforce_ksections_perms ps (b_mm s);
  let s := set_b_mm s m in
  r ← mm_setup_sys_mregmap fuel ((b_mm s).(heap), s.(b_regions));
  let s := mkBoot (set_b_heap s r.1).(b_pm) s.(b_phys) r.2 in
  r ← falloc_init s.(b_regions) (b_mm s).(frames);
  let s := set_b_frames s r.1 in
  r ← mm_setup_vm_allocation s; Ret r.1.
End boot.

(** ** What the loops leave *)
Section rights.
Context (img : kimg).
Notation koff := img.(kimg_map_offset).
Context (Hkoff : 0 <= koff < 2 ^ 32).
Implicit Types (s : Paging.mstate kstate) (ps : PagingStruct).

(** The page of [va] starts in [start, end_). *)
Definition in_pages (start end_ va : Z) : bool := (start <=? va - va mod PAGESIZE) && (va - va mod PAGESIZE <? end_).

(** The entry of a page whose section asks for [fl]. *)
Definition restricted s ps (fl : option Z) (va : Z) : pte_t :=
  let old := pte_view koff s.(tables) ps.(Paging.data) va in
  match fl, walk_pt koff s.(tables) ps.(Paging.data) va with
  | Some flags, Some _ => rm_pte_flags flags old
  | _, _ => old
  end.

(** Each page in [fl] has the rights [fl] leaves it, and the tables stand
    where they stood. *)
Record rights_set s s' ps (fl : Z -> option Z) : Prop := {
  rs_wf : ps_wf koff s' ps.(Paging.data);
  rs_walk : forall va, walk_pt koff s'.(tables) ps.(Paging.data) va = walk_pt koff s.(tables) ps.(Paging.data) va;
  rs_view : forall va, is_u32 va -> pte_view koff s'.(tables) ps.(Paging.data) va = restricted s ps (fl va) va }.

Lemma rights_refl s ps fl : ps_wf koff s ps.(Paging.data) -> (forall va, is_u32 va -> fl va = None) -> rights_set s s ps fl.
Proof. intros Hp Hf. split; [done..|]. intros va Hva. unfold restricted. by rewrite (Hf va Hva). Qed.

(** The later rights replace the earlier ones. *)
Lemma rights_trans s1 s2 s3 ps f g : rights_set s1 s2 ps f -> rights_set s2 s3 ps g ->
  rights_set s1 s3 ps (fun va => match g va with Some x => Some x | None => f va end).
Proof.
  intros [W1 K1 V1] [W2 K2 V2]. split; [done|intros; by rewrite K2, K1|]. intros va Hva. rewrite (V2 va Hva).
  unfold restricted. rewrite K1, (V1 va Hva). unfold restricted.
  destruct (g va) as [x|], (f va) as [y|], (walk_pt koff s1.(tables) ps.(Paging.data) va); done.
Qed.
Lemma rights_ext s s' ps f g : (forall va, is_u32 va -> f va = g va) -> rights_set s s' ps f -> rights_set s s' ps g.
Proof. intros E [W K V]. split; [done..|]. intros va Hva. by rewrite (V va Hva), (E va Hva). Qed.

Lemma rm_flags_walk s ps va flags r st va' : ps_wf koff s ps.(Paging.data) ->
  mm_rm_page_flags_arch koff va flags ps s = Ret (r, st) ->
  walk_pt koff r.(tables) ps.(Paging.data) va' = walk_pt koff s.(tables) ps.(Paging.data) va'.
Proof.
  intros Hps. unfold mm_rm_page_flags_arch. intros E. bind_inv. destruct (_ : option (Z * nat)) as [[pt i]|]; bind_inv; [|by simplify_eq].
  simplify_eq. unfold get_pt in *. destruct (s.(tables) !! pt) as [[| |l]|] eqn:El; simplify_eq.
  cbn. apply pt_walk; [apply Hps|done].
Qed.

Lemma rm_flags_step s ps page flags : ps_wf koff s ps.(Paging.data) -> is_u32 page -> page mod PAGESIZE = 0 ->
  exists s' st, mm_rm_page_flags_arch koff page flags ps s = Ret (s', st) /\
    rights_set s s' ps (fun va => if va / PAGESIZE =? page / PAGESIZE then Some flags else None).
Proof.
  intros Hps Hpage Hal. pose proof (rm_flags_spec koff Hkoff s ps page flags Hps Hpage Hal) as R.
  destruct (walk_pt koff s.(tables) ps.(Paging.data) page) as [pt|] eqn:Ew.
  - destruct R as (s' & Hr & Hps' & Hv). exists s', 0. split; [done|].
    split; [done|by intros va; eapply rm_flags_walk|]. intros va Hva. rewrite (Hv va Hva). unfold restricted.
    destruct (Z.eqb_spec (va / PAGESIZE) (page / PAGESIZE)) as [E|]; [|done].
    destruct (same_page_idx va page Hva Hpage E) as (I3 & I2 & I1).
    assert (Ewv : walk_pt koff s.(tables) ps.(Paging.data) va = Some pt)
      by (rewrite <- Ew; unfold walk_pt, walk_pd; by rewrite I3, I2).
    rewrite Ewv. unfold pte_view. by rewrite Ew, Ewv, I1.
  - exists s, (- Paging.ENOENT). split; [done|]. split; [done..|]. intros va Hva. unfold restricted.
    destruct (Z.eqb_spec (va / PAGESIZE) (page / PAGESIZE)) as [E|]; [|done].
    destruct (same_page_idx va page Hva Hpage E) as (I3 & I2 & _).
    assert (walk_pt koff s.(tables) ps.(Paging.data) va = None) as -> by (rewrite <- Ew; unfold walk_pt, walk_pd; by rewrite I3, I2).
    done.
Qed.

Lemma each_page_spec ps end_ flags : end_ <= 2 ^ 32 - PAGESIZE -> forall fuel page s, ps_wf koff s ps.(Paging.data) ->
  0 <= page <= 2 ^ 32 - PAGESIZE -> page mod PAGESIZE = 0 -> (2 ^ 32 - page) / PAGESIZE < Z.of_nat fuel ->
  exists s', each_page img fuel page end_ flags ps s = Ret s' /\
    rights_set s s' ps (fun va => if in_pages page end_ va then Some flags else None).
Proof.
  intros Hend. induction fuel as [|fuel IH]; intros page s Hps Hpage Hal Hf.
  { assert (0 <= (2 ^ 32 - page) / PAGESIZE) by (apply Z.div_pos; unfold PAGESIZE in *; lia). lia. }
  cbn [each_page]. destruct (Z.ltb_spec page end_) as [Hlt|Hge].
  - destruct (rm_flags_step s ps page flags Hps) as (s1 & st & -> & H1); [unfold is_u32, PAGESIZE in *; lia|done|]. rewrite bind_Ret.
    assert (Hnext : u32 (page + PAGESIZE) = page + PAGESIZE) by (apply u32_small; unfold is_u32, PAGESIZE in *; lia).
    cbn [fst]. rewrite Hnext.
    destruct (IH (page + PAGESIZE) s1) as (s' & Hr & H2); [apply H1| | | |].
    { pose proof (Z.div_mod page PAGESIZE ltac:(done)). unfold PAGESIZE in *. lia. }
    { rewrite <- Z.add_mod_idemp_l, Hal by done. done. }
    { replace (2 ^ 32 - (page + PAGESIZE)) with (2 ^ 32 - page + -1 * PAGESIZE) by lia. rewrite Z.div_add by done. lia. }
    exists s'. split; [done|]. eapply rights_ext; [|eapply rights_trans; [exact H1|exact H2]]. intros va Hva. cbn. unfold in_pages.
    pose proof (Z.div_mod va PAGESIZE ltac:(done)). pose proof (Z.div_mod page PAGESIZE ltac:(done)).
    pose proof (Z.mod_pos_bound va PAGESIZE ltac:(done)). unfold PAGESIZE in *.
    repeat case_match; reflect_bools; try done; exfalso; lia.
  - exists s. split; [done|]. apply rights_refl; [done|]. intros va Hva. unfold in_pages.
    destruct (_ && _) eqn:E; [|done]. reflect_bools. lia.
Qed.

Lemma for_each_page_spec ps start end_ flags s : ps_wf koff s ps.(Paging.data) ->
  0 <= start <= 2 ^ 32 - PAGESIZE -> start mod PAGESIZE = 0 -> end_ <= 2 ^ 32 - PAGESIZE ->
  exists s', for_each_page img start end_ flags ps s = Ret s' /\
    rights_set s s' ps (fun va => if in_pages start end_ va then Some flags else None).
Proof.
  intros Hps Hs Hal He. unfold for_each_page. rewrite Hal. cbn [Z.eqb assert_]. rewrite bind_Ret.
  apply each_page_spec; [done..|]. rewrite Nat2Z.inj_succ, Z2Nat.id by lia.
  assert ((2 ^ 32 - start) / PAGESIZE <= 2 ^ 20) by (apply Z.div_le_upper_bound; unfold PAGESIZE; lia). lia.
Qed.

(** ** All sections, in the order they are visited *)

Definition ksections : list (Z * Z * Z) :=
  [(img.(kimg_bootloader_start), img.(kimg_bootloader_end), PAGE_PRESENT); (img.(kimg_text_start), img.(kimg_text_end), PAGE_W);
   (img.(kimg_syscalls_start), img.(kimg_syscalls_end), PAGE_WX); (img.(kimg_useraccess_start), img.(kimg_useraccess_end), PAGE_W);
   (img.(kimg_module_start), img.(kimg_module_end), PAGE_X); (img.(kimg_init_start), img.(kimg_init_end), PAGE_W);
   (img.(kimg_data_start), img.(kimg_data_end), PAGE_X); (img.(kimg_ro_postinit_start), img.(kimg_ro_postinit_end), PAGE_X);
   (img.(kimg_rodata_start), img.(kimg_rodata_end), PAGE_WX); (img.(kimg_bss_start), img.(kimg_bss_end), PAGE_X);
   (img.(kimg_ksyms_start), img.(kimg_ksyms_end), PAGE_WX)].
Definition section_ok (x : Z * Z * Z) : Prop :=
  0 <= x.1.1 <= 2 ^ 32 - PAGESIZE /\ x.1.1 mod PAGESIZE = 0 /\ x.1.2 <= 2 ^ 32 - PAGESIZE.

(** What the last section that holds the page of [va] denies it. *)
Fixpoint denied (l : list (Z * Z * Z)) (va : Z) : option Z :=
  match l with
  | [] => None
  | (start, end_, flags) :: l =>
      match denied l va with
      | Some x => Some x
      | None => if in_pages start end_ va then Some flags else None
      end
  end.
Fixpoint enforce_all (l : list (Z * Z * Z)) ps s : outcome (Paging.mstate kstate) :=
  match l with
  | [] => Ret s
  | (start, end_, flags) :: l => s ← for_each_page img start end_ flags ps s; enforce_all l ps s
  end.

Lemma bind_id {A} (m : outcome A) : (m ≫= Ret) = m.
Proof. by destruct m. Qed.
Lemma bind_ext {A B} (m : outcome A) (f g : A -> outcome B) : (forall a, f a = g a) -> (m ≫= f) = (m ≫= g).
Proof. destruct m; cbn; auto. Qed.
Lemma enforce_code ps s : mm_enforce_ksections_perms img ps s = enforce_all ksections ps s.
Proof.
  unfold mm_enforce_ksections_perms. cbn [enforce_all ksections].
  do 10 (apply bind_ext; intros ?). symmetry. apply bind_id.
Qed.

Lemma enforce_spec ps : forall l s, ps_wf koff s ps.(Paging.data) -> Forall section_ok l ->
  exists s', enforce_all l ps s = Ret s' /\ rights_set s s' ps (denied l).
Proof.
  induction l as [|[[start end_] flags] l IH]; intros s Hps Hall; cbn [enforce_all].
  - exists s. split; [done|]. by apply rights_refl.
  - apply Forall_cons in Hall as [(Hs & Hal & He) Hall].
    destruct (for_each_page_spec ps start end_ flags s Hps Hs Hal He) as (s1 & -> & H1). rewrite bind_Ret.
    destruct (IH s1) as (s' & Hr & H2); [apply H1|done|]. exists s'. split; [done|]. exact (rights_trans _ _ _ _ _ _ H1 H2).
Qed.

Lemma denied_flags l va f : denied l va = Some f -> exists x, x ∈ l /\ x.2 = f.
Proof.
  induction l as [|[[a b] g] l IH]; cbn; [done|]. destruct (denied l va) as [x|].
  - intros [= ->]. destruct IH as (x & Hx & E); [done|]. exists x. split; [by right|done].
  - destruct (in_pages a b va); [|done]. intros [= ->]. exists (a, b, f). split; [by left|done].
Qed.
End rights.

(** ** Properties *)

(** C37: from page-aligned sections, [mm_enforce_ksections_perms] ends with the
    tables well formed, and each page of a section that has a page table
    keeps its frame and loses exactly the rights its section denies (code and
    read-only data cannot be written, data cannot be executed, the bootloader
    is not present), the last section that holds it deciding; every right not
    denied, the user's included, is on.  A page outside every section or
    without a table is as it was. *)
Theorem ksections_correct img (s : Paging.mstate kstate) ps : 0 <= img.(kimg_map_offset) < 2 ^ 32 ->
  ps_wf img.(kimg_map_offset) s ps.(Paging.data) -> Forall section_ok (ksections img) ->
  let view s := pte_view img.(kimg_map_offset) s.(tables) ps.(Paging.data) in
  exists s', mm_enforce_ksections_perms img ps s = Ret s' /\ ps_wf img.(kimg_map_offset) s' ps.(Paging.data) /\
    forall va, is_u32 va ->
      match denied (ksections img) va, walk_pt img.(kimg_map_offset) s.(tables) ps.(Paging.data) va with
      | Some f, Some _ => view s' va =
          mkPte (negb (has f PAGE_PRESENT)) (negb (has f PAGE_W)) true (frame_base (view s va)) (has f PAGE_X)
      | _, _ => view s' va = view s va
      end.
Proof.
  intros Hk Hps Hall view. rewrite enforce_code. destruct (enforce_spec img Hk ps (ksections img) s Hps Hall) as (s' & Hr & [W K V]).
  exists s'. split; [done|]. split; [done|]. intros va Hva. unfold view. rewrite (V va Hva). unfold restricted.
  destruct (denied (ksections img) va) as [f|] eqn:Ed; [|done].
  destruct (walk_pt img.(kimg_map_offset) s.(tables) ps.(Paging.data) va); [|done].
  assert (has f PAGE_USER = false) as Hu; [|unfold rm_pte_flags, set_pte_flags; cbn; by rewrite ?Hu].
  apply denied_flags in Ed as (x & Hx & <-). unfold ksections in Hx.
  repeat (apply elem_of_cons in Hx as [->|Hx]; [done|]). by apply not_elem_of_nil in Hx.
Qed.

(** An image with two pages of code at 1 MiB, the first of them mapped for
    every access. *)
Definition demo_img : kimg :=
  mkImg 0 0 0xC0100000 0xC0102000 0 0 0 0 0 0 0 0 0 0 0 0 0 0 0 0 0 0 demo_koff 0x100000 0xC0100000 0x2000.
Definition demo_mapped : Paging.mstate kstate :=
  match mm_map_page demo_koff 0xC0100000 0x100000 (Z.lor PAGE_WX PAGE_USER) demo_ps (demo_mm falloc_boot) with
  | Ret (s, _) => s | _ => demo_mm falloc_boot
  end.
Lemma demo_mapped_wf : ps_wf demo_koff demo_mapped demo_ps.(Paging.data).
Proof.
  destruct (map_page_spec demo_koff ltac:(unfold demo_koff; lia) ltac:(by exists 0xC0000) (demo_mm falloc_boot) demo_ps
    0xC0100000 0x100000 (Z.lor PAGE_WX PAGE_USER) (demo_mm_wf falloc_boot)) as (s' & st & Hr & Hw & _);
    [unfold is_u32; lia|unfold is_u32; lia|reflexivity|].
  assert (demo_mapped = s') as ->; [|exact Hw]. unfold demo_mapped, mm_map_page.
  change (0xC0100000 mod PAGESIZE =? 0) with true. change (0x100000 mod PAGESIZE =? 0) with true. cbn [assert_].
  rewrite !bind_Ret, Hr. reflexivity.
Qed.
Lemma demo_mapped_page : match walk_pt demo_koff demo_mapped.(tables) demo_ps.(Paging.data) 0xC0100123 with
  | Some _ => pte_view demo_koff demo_mapped.(tables) demo_ps.(Paging.data) 0xC0100123 | None => zero_pte end = mkPte true true true 256 false.
Proof. by vm_compute. Qed.

Lemma ksections_correct_witness : exists s', mm_enforce_ksections_perms demo_img demo_ps demo_mapped = Ret s' /\
  pte_view demo_koff s'.(tables) demo_ps.(Paging.data) 0xC0100123 = mkPte true false true 256 false.
Proof.
  destruct (ksections_correct demo_img demo_mapped demo_ps) as (s' & Hr & _ & Hv).
  - split; [discriminate|reflexivity].
  - exact demo_mapped_wf.
  - repeat (apply Forall_cons; split; [repeat split; discriminate|]). apply Forall_nil; exact I.
  - exists s'. split; [exact Hr|]. specialize (Hv 0xC0100123 ltac:(split; [discriminate|reflexivity])).
    assert (Hd : denied (ksections demo_img) 0xC0100123 = Some PAGE_W) by reflexivity. rewrite Hd in Hv.
    pose proof demo_mapped_page as Hp. change (demo_img.(kimg_map_offset)) with demo_koff in Hv.
    destruct (walk_pt demo_koff demo_mapped.(tables) demo_ps.(Paging.data) 0xC0100123); [|discriminate Hp].
    rewrite Hp in Hv. exact Hv.
Defined.
