(* ===== verification/Elf.v ===== *)
(** * Program loading

    [kernel/elf/elf.c] and [kernel/elf/elfloader.c]: an executable is read
    through the virtual file system and its segments are mapped and filled in
    the address space of the new process. *)
From S2P Require Import Prelude Alloc Bitwise CString Falloc Paging Proc Fs Vfs.

(** ** Data *)

Definition ENOEXEC : Z := 8.
Definition EI_NIDENT : nat := 16.
Definition EI_CLASS : nat := 4.
Definition ELFCLASS32 : Z := 1.
Definition ELFCLASS64 : Z := 2.
Definition ET_EXEC : Z := 2.
Definition PT_LOAD : Z := 1.
Definition PAGE_ACCESS_MODE : Z := 7.

Record ElfGenericEhdr := mkGE { g_ident : list Z; g_type : Z; g_machine : Z; g_version : Z }.
Record Elf32Ehdr := mkE32 {
  e_ident : list Z; e_type : Z; e_machine : Z; e_version : Z; e_entry : Z; e_phoff : Z; e_shoff : Z;
  e_flags : Z; e_ehsize : Z; e_phentsize : Z; e_phnum : Z; e_shentsize : Z; e_shnum : Z; e_shstrndx : Z }.
Record Elf32Phdr := mkPh {
  p_type : Z; p_offset : Z; p_vaddr : Z; p_paddr : Z; p_filesize : Z; p_memsize : Z; p_flags : Z; p_align : Z }.
Definition GENERIC_EHDR_SIZE : Z := 24.
Definition EHDR32_SIZE : Z := 52.
Definition sizeof_Elf32Phdr : Z := 32.

(** The packed structures over the bytes of a buffer: little-endian fields at
    their offsets. *)
Definition le (l : list Z) : Z := foldr (fun b acc => b + 256 * acc) 0 l.
Definition field (off n : nat) (l : list Z) : Z := le (take n (drop off l)).
Definition generic_ehdr (l : list Z) : ElfGenericEhdr := mkGE (take EI_NIDENT l) (field 16 2 l) (field 18 2 l) (field 20 4 l).
Definition ehdr32 (l : list Z) : Elf32Ehdr :=
  mkE32 (take EI_NIDENT l) (field 16 2 l) (field 18 2 l) (field 20 4 l) (field 24 4 l) (field 28 4 l) (field 32 4 l)
    (field 36 4 l) (field 40 2 l) (field 42 2 l) (field 44 2 l) (field 46 2 l) (field 48 2 l) (field 50 2 l).
Definition phdr32 (l : list Z) : Elf32Phdr :=
  mkPh (field 0 4 l) (field 4 4 l) (field 8 4 l) (field 12 4 l) (field 16 4 l) (field 20 4 l) (field 24 4 l) (field 28 4 l).

Definition elf_valid_magic (ident : list Z) : bool :=
  bool_decide (ident !! 0%nat = Some 0x7f) && bool_decide (ident !! 1%nat = Some 69) &&
  bool_decide (ident !! 2%nat = Some 76) && bool_decide (ident !! 3%nat = Some 70).

Section elf.
Context {H D : Type} `{!Allocator H} `{!AlignedAllocator H} `{DT : DriverTables} `{!Drivers (vstate H D)}.
Notation vstate := (vstate H D).
(** [kimg_map_offset()], where a call keeps its local buffer, and what memory
    holds that nobody has written yet. *)
Context (koff kbuf : Z) (stale : Z -> Z).

(** [n] fresh bytes at [a]: a local array, a block, a page. *)
Definition fresh_bytes (a n : Z) (s : vstate) : vstate :=
  set_umem s (write_bytes s.(umem) a (stale <$> seqZ a n)).

(** ** [elf.c]: an error or the header *)

Definition elf_read_generic_ehdr (fd : Z) (p : Process) (s : vstate) : outcome (vstate * (Z + ElfGenericEhdr)) :=
  r ← vfs_lseek fd 0 SEEK_SET p s;
  let '(s, off) := r : vstate * Z in
  if off <? 0 then Ret (s, inl off)
  else
    r ← vfs_read fd kbuf GENERIC_EHDR_SIZE p (fresh_bytes kbuf GENERIC_EHDR_SIZE s);
    let '(s, read) := r : vstate * Z in
    if read <? 0 then Ret (s, inl read)
    else if u32 read <? GENERIC_EHDR_SIZE then Ret (s, inl (- EINVAL))
    else
      buf ← load_bytes (Z.to_nat GENERIC_EHDR_SIZE) s.(umem) kbuf;
      let tmpheader := generic_ehdr buf in
      if negb (elf_valid_magic tmpheader.(g_ident)) then Ret (s, inl (- EINVAL)) else Ret (s, inr tmpheader).

Definition elf_read_ehdr32 (fd : Z) (p : Process) (s : vstate) : outcome (vstate * (Z + Elf32Ehdr)) :=
  r ← vfs_lseek fd 0 SEEK_SET p s;
  let '(s, off) := r : vstate * Z in
  if off <? 0 then Ret (s, inl off)
  else
    r ← vfs_read fd kbuf EHDR32_SIZE p (fresh_bytes kbuf EHDR32_SIZE s);
    let '(s, read) := r : vstate * Z in
    if read <? 0 then Ret (s, inl read)
    else if u32 read <? EHDR32_SIZE then Ret (s, inl (- EINVAL))
    else
      buf ← load_bytes (Z.to_nat EHDR32_SIZE) s.(umem) kbuf;
      let tmp := ehdr32 buf in
      if negb (elf_valid_magic tmp.(e_ident)) || negb (bool_decide (tmp.(e_ident) !! EI_CLASS = Some ELFCLASS32))
      then Ret (s, inl (- EINVAL)) else Ret (s, inr tmp).

(** [k] headers left from the [i]th on. *)
Fixpoint phdrs_loop (k : nat) (i : Z) (fd : Z) (p : Process) (phoff phdrs32 : Z) (s : vstate) : outcome (vstate * Z) :=
  match k with
  | O => Ret (s, 0)
  | S k =>
      let offset := i32 (u32 (phoff + i * sizeof_Elf32Phdr)) in
      r ← vfs_lseek fd offset SEEK_SET p s;
      let '(s, off) := r : vstate * Z in
      if off <? 0 then Ret (s, off)
      else
        r ← vfs_read fd (phdrs32 + i * sizeof_Elf32Phdr) sizeof_Elf32Phdr p s;
        let '(s, read) := r : vstate * Z in
        if read <? 0 then Ret (s, read)
        else if u32 read <? sizeof_Elf32Phdr then Ret (s, - EINVAL)
        else phdrs_loop k (i + 1) fd p phoff phdrs32 s
  end.
Definition elf_read_phdrs32 (fd : Z) (p : Process) (hdr32 : Elf32Ehdr) (phdrs32 : Z) (s : vstate) : outcome (vstate * Z) :=
  if negb (sizeof_Elf32Phdr =? hdr32.(e_phentsize)) then Ret (s, - EINVAL)
  else if negb (elf_valid_magic hdr32.(e_ident)) then Ret (s, - EINVAL)
  else phdrs_loop (Z.to_nat hdr32.(e_phnum)) 0 fd p hdr32.(e_phoff) phdrs32 s.

(** ** [elfloader.c] *)

Definition elfloader_copy_section_from_file (fd : Z) (phdr : Elf32Phdr) (actingproc : Process) (s : vstate) : outcome (vstate * Z) :=
  r ← vfs_lseek fd (i32 phdr.(p_offset)) SEEK_SET actingproc s;
  let '(s, off) := r : vstate * Z in
  if off <? 0 then Ret (s, - EINVAL)
  else
    r ← vfs_read fd phdr.(p_vaddr) phdr.(p_filesize) actingproc s;
    let '(s, read) := r : vstate * Z in
    if read <? 0 then Ret (s, read)
    else if u32 read <? phdr.(p_filesize) then Ret (s, - EINVAL)
    else Ret (s, 0).

(** [mm_new_user_page] and [mm_set_page_flags] on the paging structure at
    [psa].  The page holds what its frame held. *)
Definition new_user_page (vaddr flags psa : Z) (s : vstate) : outcome (vstate * Z) :=
  ps ← deref (s.(vpm).(pstructs) !! psa);
  r ← mm_new_user_page koff vaddr flags ps s.(vpm).(pm_mm);
  let '(mm, ps, st) := r : mstate H * PagingStruct * Z in
  let s := set_vpm s (set_pstruct (set_mm s.(vpm) mm) psa ps) in
  Ret (if st <? 0 then s else fresh_bytes vaddr PAGESIZE s, st).
Definition set_page_flags (vaddr flags psa : Z) (s : vstate) : outcome (vstate * Z) :=
  ps ← deref (s.(vpm).(pstructs) !! psa);
  r ← mm_set_page_flags_arch koff vaddr flags ps s.(vpm).(pm_mm);
  Ret (set_vpm s (set_mm s.(vpm) r.1), r.2).

Definition aligned_start (phdr : Elf32Phdr) : Z := u32 (Bytes.bytes_align_down64 phdr.(p_vaddr) PAGESIZE).
Definition pagespan (phdr : Elf32Phdr) : Z :=
  u32 (Bytes.bytes_align_up64 (u32 (phdr.(p_memsize) + u32 (phdr.(p_vaddr) - aligned_start phdr))) PAGESIZE / PAGESIZE).

(** The pages of a segment from the [i]th on. *)
Fixpoint map_pages (k : nat) (i : Z) (phdr : Elf32Phdr) (psa : Z) (s : vstate) : outcome (vstate * Z) :=
  match k with
  | O => Ret (s, 0)
  | S k =>
      let vaddr := u32 (aligned_start phdr + i * PAGESIZE) in
      let flags := u16 (Z.lor (Z.land phdr.(p_flags) PAGE_ACCESS_MODE) PAGE_W) in
      r ← new_user_page vaddr flags psa s;
      if r.2 <? 0 then Ret r else map_pages k (i + 1) phdr psa r.1
  end.
Fixpoint set_rights (k : nat) (i : Z) (phdr : Elf32Phdr) (psa : Z) (s : vstate) : outcome vstate :=
  match k with
  | O => Ret s
  | S k =>
      let vaddr := u32 (aligned_start phdr + i * PAGESIZE) in
      let flags := u16 (Z.lor (Z.land phdr.(p_flags) PAGE_ACCESS_MODE) PAGE_USER) in
      r ← set_page_flags vaddr flags psa s;
      _ ← assert_ (r.2 =? 0);
      set_rights k (i + 1) phdr psa r.1
  end.

(** One pass of the loop over the program headers. *)
Definition load_segment (fd : Z) (phdr : Elf32Phdr) (actingproc : Process) (psa : Z) (s : vstate) : outcome (vstate * Z) :=
  if negb (phdr.(p_type) =? PT_LOAD) then Ret (s, 0)
  else
    let n := Z.to_nat (pagespan phdr) in
    r ← map_pages n 0 phdr psa s;
    let '(s, st) := r : vstate * Z in
    if st <? 0 then Ret (s, st)
    else
      r ← (if negb (phdr.(p_filesize) =? 0) then elfloader_copy_section_from_file fd phdr actingproc s else Ret (s, 0));
      let '(s, st) := r : vstate * Z in
      if st <? 0 then Ret (s, st)
      else
        s ← (if phdr.(p_memsize) >? phdr.(p_filesize) then
               r ← memset s.(umem) (u32 (phdr.(p_vaddr) + phdr.(p_filesize))) 0 (phdr.(p_memsize) - phdr.(p_filesize));
               Ret (set_umem s r.1)
             else Ret s);
        s ← set_rights n 0 phdr psa s; Ret (s, 0).

Fixpoint load_loop (k : nat) (i : Z) (fd phdrs32 : Z) (actingproc : Process) (psa : Z) (s : vstate) : outcome (vstate * Z) :=
  match k with
  | O => Ret (s, 0)
  | S k =>
      b ← load_bytes (Z.to_nat sizeof_Elf32Phdr) s.(umem) (phdrs32 + i * sizeof_Elf32Phdr);
      r ← load_segment fd (phdr32 b) actingproc psa s;
      let '(s, st) := r : vstate * Z in
      if st <? 0 then Ret (s, st) else load_loop k (i + 1) fd phdrs32 actingproc psa s
  end.

Definition set_inst_ptr (p : Process) (a : Z) : Process :=
  mkProc p.(path) p.(pid) p.(paging_struct) p.(proc_dma_heap) p.(proc_dma_bitmap) p.(fds) p.(fd_table) p.(fd_last_free_idx)
    a p.(stack_top) p.(stack_pagespan) p.(stack_ptr) p.(kstack_top) p.(zombie) p.(exit_status) p.(state).

Definition elfloader_load_from_file32 (fd : Z) (actingproc targetproc : Process) (s : vstate) : outcome (vstate * Process * Z) :=
  r ← elf_read_ehdr32 fd actingproc s;
  match r with
  | (s, inl st) => Ret (s, targetproc, st)
  | (s, inr hdr) =>
      let n := hdr.(e_phnum) * sizeof_Elf32Phdr in
      r ← kmalloc_ n (vheap s);
      let '(h, phdrs32) := r : H * Z in
      let s := set_vheap s h in
      if phdrs32 =? 0 then Ret (s, targetproc, - ENOMEM)
      else
        r ← elf_read_phdrs32 fd actingproc hdr phdrs32 (fresh_bytes phdrs32 n s);
        let '(s, st) := r : vstate * Z in
        if st <? 0 then s ← free_block s phdrs32; Ret (s, targetproc, st)
        else
          r ← load_loop (Z.to_nat hdr.(e_phnum)) 0 fd phdrs32 actingproc targetproc.(paging_struct) s;
          let '(s, st) := r : vstate * Z in
          s ← free_block s phdrs32;
          if st <? 0 then Ret (s, targetproc, st) else Ret (s, set_inst_ptr targetproc hdr.(e_entry), 0)
  end.

Definition elfloader_validate_file (ehdr : ElfGenericEhdr) : Z :=
  if negb (ehdr.(g_type) =? ET_EXEC) then - ENOEXEC else 0.

(** The kernel with the loaded address space: [umem] has the kernel's memory
    and the user memory of the loaded space, [spaces] the user memory of the
    others, by the register's value. *)
Record estate := mkE { ev : vstate; ecpu : cpu; spaces : gmap Z (gmap Z Z) }.
Definition set_ev (e : estate) (s : vstate) : estate := mkE s e.(ecpu) e.(spaces).
Definition user_part (u : gmap Z Z) : gmap Z Z := filter (fun x => x.1 < PROC_HIGH_ADDRESS) u.
Definition kernel_part (u : gmap Z Z) : gmap Z Z := filter (fun x => ~ x.1 < PROC_HIGH_ADDRESS) u.

Definition mm_load_paging_struct (psa : Z) (e : estate) : outcome estate :=
  ps ← deref (e.(ev).(vpm).(pstructs) !! psa);
  let c := mm_load_paging_struct_arch koff ps e.(ecpu) in
  if c.(cr3) =? e.(ecpu).(cr3) then Ret (mkE e.(ev) c e.(spaces))
  else
    let u := e.(ev).(umem) in
    Ret (mkE (set_umem e.(ev) (default ∅ (e.(spaces) !! c.(cr3)) ∪ kernel_part u)) c (<[e.(ecpu).(cr3) := user_part u]> e.(spaces))).

Definition elfloader_load_from_file (fd : Z) (actingproc targetproc : Process) (e : estate) : outcome (estate * Process * Z) :=
  r ← elf_read_generic_ehdr fd actingproc e.(ev);
  match r with
  | (s, inl st) => Ret (set_ev e s, targetproc, st)
  | (s, inr ehdr) =>
      let st := elfloader_validate_file ehdr in
      if st <? 0 then Ret (set_ev e s, targetproc, st)
      else
        e ← mm_load_paging_struct targetproc.(paging_struct) (set_ev e s);
        r ← (if bool_decide (ehdr.(g_ident) !! EI_CLASS = Some ELFCLASS32) then
               r ← elfloader_load_from_file32 fd actingproc targetproc e.(ev);
               let '(s, q, st) := r : vstate * Process * Z in Ret (set_ev e s, q, st)
             else if bool_decide (ehdr.(g_ident) !! EI_CLASS = Some ELFCLASS64) then Panic
             else Ret (e, targetproc, - EINVAL));
        let '(e, q, st) := r : estate * Process * Z in
        e ← mm_load_paging_struct actingproc.(paging_struct) e;
        Ret (e, q, st)
  end.

(** [proc_load_from_file] of [proc.c]. *)
Definition proc_load_from_file (path : Z) (actingproc targetproc : Process) (e : estate)
    : outcome (estate * Process * Process * Z) :=
  r ← vfs_open path O_RDONLY 0 actingproc e.(ev);
  let '(s, actingproc, fd) := r : vstate * Process * Z in
  let e := set_ev e s in
  if fd <? 0 then Ret (e, actingproc, targetproc, fd)
  else
    r ← elfloader_load_from_file fd actingproc targetproc e;
    let '(e, targetproc, st) := r : estate * Process * Z in
    r ← vfs_close fd actingproc e.(ev);
    let '(s, actingproc, _) := r : vstate * Process * Z in
    Ret (set_ev e s, actingproc, targetproc, st).
End elf.
Arguments estate : clear implicits.
