(* ===== verification/Loader.v ===== *)
(** * What loading a program leaves in memory

    Theorems about [Elf]: from the open file to the bytes, the pages and the
    rights of the new address space. *)
From S2P Require Import Prelude Alloc Bitwise CString Kmalloc LinkedList Sha1 HashTable Falloc Paging Proc User Fs Vfs Ramfs Files Pagefault Elf.

(** ** Bytes *)

(** At most [n] bytes of a file from [off] on. *)
Definition slice (off n : Z) (l : list Z) : list Z := take (Z.to_nat n) (drop (Z.to_nat off) l).

Lemma slice_full off n l : 0 <= off -> 0 <= n -> off + n <= Z.of_nat (length l) -> Z.of_nat (length (slice off n l)) = n.
Proof. intros. unfold slice. rewrite length_take, length_drop. lia. Qed.
Lemma slice_bound off n l : 0 <= off -> 0 <= n ->
  0 <= Z.of_nat (length (slice off n l)) <= n /\ (off <= Z.of_nat (length l) -> off + Z.of_nat (length (slice off n l)) <= Z.of_nat (length l)) /\
  (Z.of_nat (length l) < off -> length (slice off n l) = 0%nat).
Proof. intros. unfold slice. rewrite length_take, length_drop. lia. Qed.

Lemma load_image_spec m l : forall p, bytes_at m p l -> load_bytes (length l) m p = Ret l.
Proof.
  induction l as [|b l IH]; intros p Hb; cbn [load_bytes length]; [done|].
  rewrite <- (Z.add_0_r p) at 1. rewrite (CString.load_bytes_at m p (b :: l) 0 b Hb) by done. rewrite bind_Ret.
  rewrite IH; [done|]. intros i c Hi. replace (p + 1 + Z.of_nat i) with (p + Z.of_nat (S i)) by lia. by apply Hb.
Qed.

Lemma fresh_length (st : Z -> Z) a n : 0 <= n -> Z.of_nat (length (st <$> seqZ a n)) = n.
Proof. intros. rewrite length_fmap, length_seqZ. lia. Qed.
Lemma write_bytes_own m p l : mapped (write_bytes m p l) p (Z.of_nat (length l)).
Proof. apply bytes_at_mapped, write_bytes_at. Qed.

Lemma field_range off n l : Forall is_byte l -> 0 <= field off n l < 2 ^ (8 * Z.of_nat n).
Proof.
  intros Hl. unfold field. assert (Hb : Forall is_byte (take n (drop off l))) by (by apply Forall_take, Forall_drop).
  assert (Hlen : (length (take n (drop off l)) <= n)%nat) by (rewrite length_take; lia).
  set (t := take n (drop off l)) in *. clearbody t. revert n Hlen. induction Hb as [|b t Hb _ IH]; intros n Hlen; cbn [le foldr length] in *; [lia|].
  destruct n as [|n]; [lia|]. specialize (IH n ltac:(lia)). unfold is_byte in Hb.
  replace (8 * Z.of_nat (S n)) with (8 + 8 * Z.of_nat n) by lia. rewrite Z.pow_add_r by lia. unfold le in IH. change (2 ^ 8) with 256. lia.
Qed.

Section io.
Context {H D : Type} `{!Allocator H} `{!AllocatorLaws H} `{DT : DriverTables} `{!Drivers (vstate H D)}.
Context (f : HashingFunction) (m : gmap Z Z) (p : Process) (fd a v o : Z) (img : list Z).
Context (Hfd : is_fd fd) (Himg : Z.of_nat (length img) < 2 ^ 31).
Notation key := vfs_fdt_combo_to_hashkey.
Implicit Types (s : vstate H D).

(** The driver reads the file's bytes, as many as there are. *)
Definition reads_image s0 : Prop := forall s buf n off,
  s.(vnodes) = s0.(vnodes) -> s.(filesystems) = s0.(filesystems) -> s.(drv) = s0.(drv) ->
  0 < n < 2 ^ 32 -> mapped s.(umem) buf n -> 0 <= off < 2 ^ 31 ->
  op_read o v buf n off s =
    Ret (set_umem s (write_bytes s.(umem) buf (slice off n img)), Z.of_nat (length (slice off n img))).

(** [fd] of the process is open on the file for reading. *)
Record opened s : Prop := {
  op_table : fdt_ok f s m;
  op_key : m !! key fd p.(pid) = Some a;
  op_file : exists d, s.(sysfds) !! a = Some d /\ has d.(fd_flags) O_RDONLY = true /\ d.(fd_vnode) = v;
  op_node : exists x, s.(vnodes) !! v = Some x /\ has x.(vn_mode) S_IFDIR = false /\ x.(vn_ops) = o;
  op_reads : reads_image s }.

(** Only the memory and the file's offset changed. *)
Record io_step s s' : Prop := {
  io_same : s' = set_sysfds (set_umem s s'.(umem)) s'.(sysfds);
  io_open : opened s' }.

Lemma io_refl s : opened s -> io_step s s.
Proof. intros Ho. split; [by destruct s|done]. Qed.
Lemma io_trans s1 s2 s3 : io_step s1 s2 -> io_step s2 s3 -> io_step s1 s3.
Proof.
  intros [E1 _] [E2 O2]. split; [|done]. rewrite E2 at 1. rewrite E1. by destruct s1.
Qed.

Lemma opened_umem s u : opened s -> opened (set_umem s u).
Proof. intros [T K F N R]. split; try done. destruct T. by split. Qed.
Lemma io_umem s u : opened s -> io_step s (set_umem s u).
Proof. intros Ho. split; [by destruct s|by apply opened_umem]. Qed.

Lemma opened_off s d n : opened s -> s.(sysfds) !! a = Some d ->
  io_step s (set_sysfds s (<[a := set_off d n]> s.(sysfds))).
Proof.
  intros [[R F A] K (d0 & Hd0 & Hr & Hv) N Rd] Hd. assert (d0 = d) as -> by congruence.
  split; [by destruct s|]. split; try done.
  - split; [done| |].
    + intros k b Hk. destruct (F k b Hk) as (e & He & Hrest). cbn. destruct (decide (a = b)) as [<-|Hne].
      * rewrite lookup_insert_eq. assert (e = d) as -> by congruence. eexists. split; [done|]. exact Hrest.
      * rewrite lookup_insert_ne by done. by exists e.
    + intros b Hb. cbn in Hb. apply lookup_insert_is_Some in Hb as [<-|[_ Hb]]; [by exists (key fd (pid p))|by apply A].
  - exists (set_off d n). cbn. rewrite lookup_insert_eq. done.
Qed.

Lemma lseek_set s off : opened s -> is_i32 off ->
  if off <? 0 then vfs_lseek fd off SEEK_SET p s = Ret (s, - Vfs.EINVAL)
  else exists s', vfs_lseek fd off SEEK_SET p s = Ret (s', off) /\ io_step s s' /\ s'.(umem) = s.(umem) /\
    exists d, s'.(sysfds) !! a = Some d /\ d.(fd_off) = off.
Proof.
  intros Ho Hoff. pose proof Ho as [T K (d & Hd & _ & Hv) (x & Hx & _) _]. unfold vfs_lseek.
  rewrite (proj2 (Z.ltb_ge fd 0)) by (unfold is_fd in *; lia). rewrite (get_spec f s m) by done. rewrite bind_Ret, K.
  change (default 0 (Some a)) with a. rewrite (proj2 (Z.eqb_neq a 0)) by exact (file_block f s m _ a T K).
  unfold sysfd_at. rewrite Hd. cbn [deref]. rewrite bind_Ret, Hv, Hx. cbn [deref]. rewrite !bind_Ret.
  unfold seek_target. cbn [fst snd]. change (SEEK_SET =? SEEK_SET) with true. cbv iota. rewrite bind_Ret. destruct (off <? 0); [done|].
  eexists. split; [reflexivity|]. split; [by apply opened_off|]. split; [done|]. exists (set_off d off). split; [apply lookup_insert_eq|done].
Qed.

Lemma read_spec s buf n off d : opened s -> 0 < n < 2 ^ 32 -> mapped s.(umem) buf n -> 0 <= off < 2 ^ 31 ->
  s.(sysfds) !! a = Some d -> d.(fd_off) = off ->
  exists s', vfs_read fd buf n p s = Ret (s', Z.of_nat (length (slice off n img))) /\ io_step s s' /\
    s'.(umem) = write_bytes s.(umem) buf (slice off n img).
Proof.
  intros Ho Hn Hmap Hoff Hd Hdo. pose proof Ho as [T K (d0 & Hd0 & Hr & Hv) (x & Hx & Hm & Hxo) R]. assert (d0 = d) as -> by congruence.
  unfold vfs_read. rewrite (proj2 (Z.ltb_ge fd 0)) by (unfold is_fd in *; lia). rewrite (get_spec f s m) by done. rewrite bind_Ret, K.
  change (default 0 (Some a)) with a. rewrite (proj2 (Z.eqb_neq a 0)) by exact (file_block f s m _ a T K).
  unfold sysfd_at. rewrite Hd. cbn [deref]. rewrite bind_Ret, Hv, Hx. cbn [deref]. rewrite !bind_Ret. rewrite Hm, Hr. cbn [negb].
  rewrite (proj2 (Z.eqb_neq n 0)) by lia. rewrite Hxo, Hdo, Hv, (R s buf n off) by done. rewrite bind_Ret.
  destruct (slice_bound off n img ltac:(lia) ltac:(lia)) as (L1 & L2 & L3).
  rewrite (proj2 (Z.ltb_ge _ 0)) by lia. unfold add_off. cbn [sysfds set_umem]. rewrite Hd. cbn [deref]. rewrite bind_Ret.
  rewrite bool_decide_true by (destruct (decide (off <= Z.of_nat (length img))); lia). rewrite bind_Ret.
  eexists. split; [reflexivity|]. split; [|done].
  pose proof (opened_umem s (write_bytes s.(umem) buf (slice off n img)) Ho) as Ho'.
  eapply io_trans; [exact (io_umem s (write_bytes s.(umem) buf (slice off n img)) Ho)|]. exact (opened_off _ d _ Ho' Hd).
Qed.

(** ** The headers *)
Context (kbuf : Z) (stale : Z -> Z).

Lemma fresh_step n k s : opened s -> io_step s (fresh_bytes stale n k s).
Proof. intros Ho. by apply io_umem. Qed.
Lemma fresh_mapped n k s : 0 <= k -> mapped (fresh_bytes stale n k s).(umem) n k.
Proof. intros Hk. unfold fresh_bytes. cbn. rewrite <- (fresh_length stale n k Hk) at 2. apply write_bytes_own. Qed.

Lemma seek_read_spec s off buf n : opened s -> is_i32 off -> 0 < n < 2 ^ 32 -> 0 <= off ->
  exists s1, vfs_lseek fd off SEEK_SET p s = Ret (s1, off) /\ io_step s s1 /\ s1.(umem) = s.(umem) /\
  forall u, mapped u buf n -> exists s', vfs_read fd buf n p (set_umem s1 u) = Ret (s', Z.of_nat (length (slice off n img))) /\
    io_step s s' /\ s'.(umem) = write_bytes u buf (slice off n img).
Proof.
  intros Ho Hi Hn Hoff. pose proof (lseek_set s off Ho Hi) as Hs. rewrite (proj2 (Z.ltb_ge off 0)) in Hs by lia.
  destruct Hs as (s1 & Hr & H1 & Hu & d & Hd & Hdo). exists s1. do 3 (split; [done|]). intros u Hmap.
  destruct (read_spec (set_umem s1 u) buf n off d) as (s' & Hr' & H2 & Hu'); [apply opened_umem, H1|done|done|unfold is_i32 in *; lia|done|done|].
  exists s'. split; [done|]. split; [|done]. eapply io_trans; [exact H1|]. eapply io_trans; [|exact H2]. apply io_umem, H1.
Qed.

Lemma read_header_spec s n : opened s -> 0 < n < 2 ^ 32 ->
  exists s1 s', vfs_lseek fd 0 SEEK_SET p s = Ret (s1, 0) /\
    vfs_read fd kbuf n p (fresh_bytes stale kbuf n s1) = Ret (s', Z.of_nat (length (slice 0 n img))) /\ io_step s s' /\
    (n <= Z.of_nat (length img) -> load_bytes (Z.to_nat n) s'.(umem) kbuf = Ret (slice 0 n img)) /\
    forall x, x < kbuf -> s'.(umem) !! x = s.(umem) !! x.
Proof.
  intros Ho Hn. destruct (seek_read_spec s 0 kbuf n Ho) as (s1 & Hr & H1 & Hu & Hrd); [unfold is_i32; lia|done|lia|].
  destruct (Hrd (fresh_bytes stale kbuf n s1).(umem)) as (s' & Hr' & H2 & Hu'); [apply fresh_mapped; lia|].
  exists s1, s'. do 3 (split; [done|]). split.
  - intros Hlen. rewrite Hu'.
    assert (Hl : length (slice 0 n img) = Z.to_nat n) by (pose proof (slice_full 0 n img ltac:(lia) ltac:(lia) ltac:(lia)); lia).
    rewrite <- Hl. apply load_image_spec, write_bytes_at.
  - intros x Hx. rewrite Hu'. unfold fresh_bytes. cbn [umem set_umem]. rewrite !CString.write_bytes_outside by lia. by rewrite Hu.
Qed.

Lemma read_short n : 0 < n < 2 ^ 32 -> (u32 (Z.of_nat (length (slice 0 n img))) <? n) = (Z.of_nat (length img) <? n).
Proof.
  intros Hn. destruct (slice_bound 0 n img ltac:(lia) ltac:(lia)) as (L1 & L2 & _). rewrite u32_small by (unfold is_u32; lia).
  unfold slice in *. rewrite length_take, length_drop in *. destruct (Z.ltb_spec (Z.of_nat (length img)) n); [apply Z.ltb_lt|apply Z.ltb_ge]; lia.
Qed.

Lemma generic_spec s : opened s -> exists s', io_step s s' /\ (forall x, x < kbuf -> s'.(umem) !! x = s.(umem) !! x) /\
  elf_read_generic_ehdr kbuf stale fd p s = Ret (s',
    if Z.of_nat (length img) <? GENERIC_EHDR_SIZE then inl (- Vfs.EINVAL)
    else if negb (elf_valid_magic (generic_ehdr (slice 0 GENERIC_EHDR_SIZE img)).(g_ident)) then inl (- Vfs.EINVAL)
    else inr (generic_ehdr (slice 0 GENERIC_EHDR_SIZE img))).
Proof.
  intros Ho. destruct (read_header_spec s GENERIC_EHDR_SIZE Ho) as (s1 & s' & Hs & Hr & Hi & Hb & Hx); [unfold GENERIC_EHDR_SIZE; lia|].
  exists s'. split; [done|]. split; [done|]. unfold elf_read_generic_ehdr. rewrite Hs, bind_Ret. cbn [Z.ltb Z.compare]. rewrite Hr, bind_Ret.
  rewrite (proj2 (Z.ltb_ge _ 0)) by lia. rewrite read_short by (unfold GENERIC_EHDR_SIZE; lia).
  destruct (Z.ltb_spec (Z.of_nat (length img)) GENERIC_EHDR_SIZE); [done|]. rewrite Hb, bind_Ret by done. by destruct (elf_valid_magic _).
Qed.

Definition ehdr_class32 (h : Elf32Ehdr) : bool := elf_valid_magic h.(e_ident) && bool_decide (h.(e_ident) !! EI_CLASS = Some ELFCLASS32).
Lemma ehdr32_spec s : opened s -> exists s', io_step s s' /\
  elf_read_ehdr32 kbuf stale fd p s = Ret (s',
    if Z.of_nat (length img) <? EHDR32_SIZE then inl (- Vfs.EINVAL)
    else if negb (ehdr_class32 (ehdr32 (slice 0 EHDR32_SIZE img))) then inl (- Vfs.EINVAL)
    else inr (ehdr32 (slice 0 EHDR32_SIZE img))).
Proof.
  intros Ho. destruct (read_header_spec s EHDR32_SIZE Ho) as (s1 & s' & Hs & Hr & Hi & Hb & _); [unfold EHDR32_SIZE; lia|].
  exists s'. split; [done|]. unfold elf_read_ehdr32. rewrite Hs, bind_Ret. cbn [Z.ltb Z.compare]. rewrite Hr, bind_Ret.
  rewrite (proj2 (Z.ltb_ge _ 0)) by lia. rewrite read_short by (unfold EHDR32_SIZE; lia).
  destruct (Z.ltb_spec (Z.of_nat (length img)) EHDR32_SIZE); [done|]. rewrite Hb, bind_Ret by done. unfold ehdr_class32.
  by destruct (elf_valid_magic _), (bool_decide _).
Qed.

(** The bytes of the [i]th program header. *)
Definition phdr_bytes (phoff i : Z) : list Z := slice (i32 (u32 (phoff + i * sizeof_Elf32Phdr))) sizeof_Elf32Phdr img.
Definition phdrs_at (u : gmap Z Z) (phdrs32 phoff i j : Z) : Prop := forall k, i <= k < j ->
  bytes_at u (phdrs32 + k * sizeof_Elf32Phdr) (phdr_bytes phoff k) /\ length (phdr_bytes phoff k) = Z.to_nat sizeof_Elf32Phdr.

Lemma phdrs_loop_spec phoff phdrs32 n : forall k i s, opened s -> 0 <= i -> i + Z.of_nat k <= n ->
  mapped s.(umem) phdrs32 (n * sizeof_Elf32Phdr) -> phdrs_at s.(umem) phdrs32 phoff 0 i ->
  exists s' st, phdrs_loop k i fd p phoff phdrs32 s = Ret (s', st) /\ io_step s s' /\
    (st = - Vfs.EINVAL \/ (st = 0 /\ phdrs_at s'.(umem) phdrs32 phoff 0 (i + Z.of_nat k))).
Proof.
  induction k as [|k IH]; intros i s Ho Hi Hn Hmap Hat; cbn [phdrs_loop].
  { exists s, 0. split; [done|]. split; [by apply io_refl|]. right. split; [done|]. by rewrite Z.add_0_r. }
  set (off := i32 (u32 (phoff + i * sizeof_Elf32Phdr))). assert (Hoff : is_i32 off) by apply i32_range.
  destruct (Z.ltb_spec off 0) as [Hneg|Hpos].
  { pose proof (lseek_set s off Ho Hoff) as Hs. rewrite (proj2 (Z.ltb_lt off 0)) in Hs by done. rewrite Hs, bind_Ret.
    cbn [Z.ltb Z.compare Z.opp Vfs.EINVAL]. exists s, (- Vfs.EINVAL). split; [done|]. split; [by apply io_refl|by left]. }
  destruct (seek_read_spec s off (phdrs32 + i * sizeof_Elf32Phdr) sizeof_Elf32Phdr Ho Hoff) as (s1 & -> & H1 & Hu1 & Hrd);
    [unfold sizeof_Elf32Phdr; lia|done|]. rewrite bind_Ret. rewrite (proj2 (Z.ltb_ge off 0)) by lia.
  destruct (Hrd s.(umem)) as (s2 & Hr & H2 & Hu2).
  { intros x Hx. apply Hmap. unfold sizeof_Elf32Phdr in *. lia. }
  replace (set_umem s1 (umem s)) with s1 in Hr by (rewrite <- Hu1; by destruct s1). rewrite Hr, bind_Ret.
  destruct (slice_bound off sizeof_Elf32Phdr img) as (L1 & _); [lia|unfold sizeof_Elf32Phdr; lia|].
  rewrite (proj2 (Z.ltb_ge _ 0)) by lia. rewrite u32_small by (unfold is_u32, sizeof_Elf32Phdr in *; lia).
  destruct (Z.ltb_spec (Z.of_nat (length (slice off sizeof_Elf32Phdr img))) sizeof_Elf32Phdr) as [Hs|Hs].
  { exists s2, (- Vfs.EINVAL). split; [done|]. split; [done|by left]. }
  destruct (IH (i + 1) s2) as (s' & st & Hr' & H3 & Hc); [apply H2|lia|lia| | |].
  - rewrite Hu2. by apply write_bytes_mapped.
  - intros j Hj. destruct (decide (j = i)) as [->|Hji].
    + unfold phdr_bytes. fold off. rewrite Hu2. split; [apply write_bytes_at|unfold sizeof_Elf32Phdr in *; lia].
    + destruct (Hat j) as [Hb Hl]; [lia|]. split; [|done]. rewrite Hu2. apply write_bytes_bytes_at; [done|].
      rewrite Hl. unfold disjoint, sizeof_Elf32Phdr in *. lia.
  - exists s', st. split; [done|]. split; [by eapply io_trans|]. by replace (i + Z.of_nat (S k)) with (i + 1 + Z.of_nat k) by lia.
Qed.
End io.

(** ** Pages *)
Section pages.
Context {H : Type} `{!Allocator H} `{!AlignedAllocator H} `{!AllocatorLaws H} `{!AlignedAllocatorLaws H}.
Context (koff : Z) (Hkoff : 0 <= koff < 2 ^ 32) (Hkoff' : (PAGESIZE | koff)).
Implicit Types (s : mstate H) (ps : PagingStruct).

Lemma ascending_NoDup l : ascending l -> NoDup l.
Proof.
  induction 1 as [|x l Hs IH Hall]; constructor; [|done]. intros Hin. rewrite Forall_forall in Hall. specialize (Hall x Hin). lia.
Qed.

(** Every block but the array of tracked pages stays, and none becomes a table
    or that array. *)
Definition keeps s s' ps ps' : Prop := forall b, live s.(heap) b <> None -> b <> ps.(allocated_pages) ->
  live s'.(heap) b = live s.(heap) b /\ (s.(tables) !! b = None -> s'.(tables) !! b = None) /\ b <> ps'.(allocated_pages).

Lemma keeps_refl s ps : keeps s s ps ps.
Proof. by intros b. Qed.
Lemma keeps_trans s1 s2 s3 ps1 ps2 ps3 : keeps s1 s2 ps1 ps2 -> keeps s2 s3 ps2 ps3 -> keeps s1 s3 ps1 ps3.
Proof.
  intros H1 H2 b Hb Hne. destruct (H1 b Hb Hne) as (E1 & T1 & N1). destruct (H2 b) as (E2 & T2 & N2); [by rewrite E1|done|].
  split; [by rewrite E2|]. auto.
Qed.
Lemma grows_keeps s s' ps : grows s s' -> keeps s s' ps ps.
Proof. intros Hg b Hb Hne. by destruct (Hg b Hb). Qed.

Lemma track_keeps s ps va s' ps' st : alloc_wf s.(heap) -> tracks s ps -> pagingstruct_track_page va ps s = Ret (s', ps', st) ->
  keeps s s' ps ps'.
Proof.
  intros Ha (_ & Hsz & _ & Hblk) Hr.
  assert (Hcap : 0 <= 4 * ps.(allocated_pages_capacity) < 2 ^ 31 /\
    (ps.(allocated_pages) = 0 \/ live s.(heap) ps.(allocated_pages) <> None)).
  { destruct Hblk as [[E1 E2]|E]; [split; [lia|by left]|]. destruct (live_law _ _ _ Ha E). split; [lia|right; congruence]. }
  destruct Hcap as [Hcap Hp]. unfold pagingstruct_track_page in Hr. bind_inv. destruct r as [[s1 ps1] st1].
  assert (K : keeps s s1 ps ps1).
  { destruct (allocated_pages_size ps =? allocated_pages_capacity ps); [|simplify_eq; apply keeps_refl].
    unfold pagingstruct_enlarge_allocated_pages, sizeof_Page in E. cbv zeta in E.
    rewrite (u32_small (_ + 20)) in E by (unfold is_u32; lia). rewrite (u32_small (_ * 4)) in E by (unfold is_u32; lia).
    destruct (realloc_law s.(heap) ps.(allocated_pages) ((ps.(allocated_pages_capacity) + 20) * 4) Ha)
      as (h' & q & Hq & _ & Hc); [lia|done|]. rewrite Hq, bind_Ret in E. cbn [fst snd] in E.
    destruct Hc as [[-> Hl]|(Hqn & Hqp & Hl)].
    - cbn in E. simplify_eq. intros b Hb Hne. cbn. by rewrite Hl.
    - rewrite (proj2 (Z.eqb_neq q 0)) in E by done. simplify_eq. intros b Hb Hne. cbn.
      assert (b <> q) by (destruct Hqp as [->|?]; [done|congruence]). rewrite Hl, !decide_False by done. done. }
  destruct (st1 <? 0); [by simplify_eq|]. bind_inv. simplify_eq. exact K.
Qed.

Lemma new_page_keeps s ps va flags s' ps' st : ps_wf koff s ps.(data) -> falloc_wf s.(frames) -> tracks s ps ->
  is_u32 va -> va mod PAGESIZE = 0 -> mm_new_user_page koff va flags ps s = Ret (s', ps', st) -> keeps s s' ps ps'.
Proof.
  intros Hps Hf Htr Hva Hal Hr. unfold mm_new_user_page in Hr. rewrite Hal in Hr. cbn [Z.eqb assert_] in Hr. rewrite bind_Ret in Hr.
  destruct (user_loop_spec (Z.to_nat s.(frames).(g_pgframes_user_cursor)) s.(frames) Hf) as (f1 & pa & Hu & Hf1 & Hc).
  { pose proof (wf_cursor _ Hf). lia. }
  unfold falloc_one_user in Hr. rewrite Hu, bind_Ret in Hr. cbn [fst snd] in Hr. cbv zeta in Hr. set (s1 := set_frames s f1) in *.
  assert (Hps1 : ps_wf koff s1 ps.(data)) by by destruct Hps.
  destruct Hc as [(-> & _)|(k & -> & Hk & _)]; [cbn in Hr; simplify_eq; by apply (keeps_refl s)|].
  assert (Hk20 : 0 < k < 2 ^ 20).
  { pose proof (wf_cursor _ Hf). pose proof (wf_sub _ Hf). unfold cursor_frame, PAGEFRAME_POOL_SIZE in *. lia. }
  change Falloc.PAGESIZE with PAGESIZE in *.
  rewrite (proj2 (Z.eqb_neq (k * PAGESIZE) 0)) in Hr by (unfold PAGESIZE; lia).
  destruct (map_page_spec koff Hkoff Hkoff' s1 ps va (k * PAGESIZE) (Z.lor flags PAGE_USER) Hps1 Hva)
    as (s2 & st2 & E2 & Hps2 & Hf2 & Hg2 & _); [unfold is_u32, PAGESIZE; lia|by apply Z.mod_mul|].
  rewrite E2, bind_Ret in Hr. cbn [fst snd] in Hr.
  assert (K : keeps s s2 ps ps) by (apply (grows_keeps s1); exact Hg2).
  destruct (st2 <? 0).
  - bind_inv. simplify_eq. exact K.
  - bind_inv. destruct r as [[s3 ps3] st3]. cbn [fst snd] in Hr. destruct (st3 <? 0); [done|]. simplify_eq.
    eapply keeps_trans; [exact K|]. eapply track_keeps; [apply Hps2| |done].
    apply (tracks_grows koff s1 s2 ps); [exact Hg2|apply Hps2|exact Htr].
Qed.

Lemma get_pd_table s a l : get_pd s a = Ret l -> s.(tables) !! a <> None.
Proof. unfold get_pd. by destruct (tables s !! a). Qed.
Lemma get_pt_table s a l : get_pt s a = Ret l -> s.(tables) !! a <> None.
Proof. unfold get_pt. by destruct (tables s !! a). Qed.

Lemma set_flags_grows s ps va flags s' st : mm_set_page_flags_arch koff va flags ps s = Ret (s', st) ->
  grows s s' /\ s'.(heap) = s.(heap) /\ s'.(frames) = s.(frames).
Proof.
  unfold mm_set_page_flags_arch. intros E. bind_inv.
  destruct (pdpte_pd_vaddr koff _ =? 0); [simplify_eq; split; [apply grows_refl|done]|]. bind_inv.
  destruct (pde_pt_vaddr koff _ =? 0); [simplify_eq; split; [apply grows_refl|done]|]. bind_inv.
  destruct (pte_frame_paddr _ =? 0); [simplify_eq; split; [apply grows_refl|done]|]. injection E as <- <-. split; [|done].
  eapply grows_trans; apply grows_update; [by eapply get_pd_table|]. cbn.
  match goal with H : get_pt _ ?b = Ret _ |- _ => pose proof (get_pt_table _ _ _ H) as Hb end.
  match goal with |- <[?x := _]> _ !! ?y <> None => destruct (decide (x = y)) as [<-|Hne] end;
    [by rewrite lookup_insert_eq|by rewrite lookup_insert_ne].
Qed.

(** The rights of a page the user has. *)
Definition user_pte (flags k : Z) : pte_t := mkPte true (Paging.has flags PAGE_W) true k (negb (Paging.has flags PAGE_X)).

Lemma user_flags fl : let flags := u16 (Z.lor (Z.land fl PAGE_ACCESS_MODE) PAGE_USER) in
  Paging.has flags PAGE_USER = true /\ forall n, user_pte flags n = user_pte fl n.
Proof.
  cbv zeta. assert (Hm : Z.land fl PAGE_ACCESS_MODE = fl mod 2 ^ 3) by (change PAGE_ACCESS_MODE with (Z.ones 3); by apply Z.land_ones).
  assert (Hs : u16 (Z.lor (Z.land fl PAGE_ACCESS_MODE) PAGE_USER) = Z.lor (Z.land fl PAGE_ACCESS_MODE) PAGE_USER).
  { apply Z.mod_small. apply lor_lt; [lia| |unfold PAGE_USER; lia]. rewrite Hm. pose proof (Z.mod_pos_bound fl (2 ^ 3)). lia. }
  assert (Hh : forall c, Z.land PAGE_ACCESS_MODE c = c -> Z.land PAGE_USER c = 0 ->
    Paging.has (u16 (Z.lor (Z.land fl PAGE_ACCESS_MODE) PAGE_USER)) c = Paging.has fl c).
  { intros c H1 H2. unfold Paging.has. by rewrite Hs, Z.land_lor_distr_l, <- Z.land_assoc, H1, H2, Z.lor_0_r. }
  split; [rewrite Hs, Paging.has_lor; apply orb_true_r|]. intros n. unfold user_pte. by rewrite !Hh.
Qed.

Lemma set_user_flags s ps va k f0 flags : ps_wf koff s ps.(data) -> is_u32 va -> va mod PAGESIZE = 0 -> 0 < k < 2 ^ 20 ->
  tracks s ps -> Paging.has flags PAGE_USER = true -> pte_view koff s.(tables) ps.(data) va = user_pte f0 k ->
  exists s', mm_set_page_flags_arch koff va flags ps s = Ret (s', 0) /\ ps_wf koff s' ps.(data) /\
    s'.(frames) = s.(frames) /\ tracks s' ps /\ keeps s s' ps ps /\
    only_changes koff s.(tables) s'.(tables) ps.(data) va (user_pte flags k).
Proof.
  intros Hps Hva Hal Hk Htr Hu Hv. pose proof (set_flags_spec koff Hkoff s ps va flags Hps Hva Hal) as R. rewrite Hv in R. cbv zeta in R.
  assert (Hfp : pte_frame_paddr (user_pte f0 k) = k * PAGESIZE) by (apply base_shift; lia).
  rewrite Hfp in R. rewrite (proj2 (Z.eqb_neq _ 0)) in R by (unfold PAGESIZE; lia). destruct R as (s' & Hr & Hps' & Hc).
  destruct (set_flags_grows _ _ _ _ _ _ Hr) as (Hg & _ & Hf).
  exists s'. do 3 (split; [done|]). split; [eapply tracks_grows; [exact Hg|apply Hps'|done]|]. split; [by apply grows_keeps|].
  intros va' Hva'. rewrite (Hc va' Hva'). unfold set_pte_flags, user_pte. cbn. by rewrite Hu.
Qed.
End pages.

(** ** The address space being filled *)
Section load.
Context {H D : Type} `{!Allocator H} `{!AlignedAllocator H} `{!AllocatorLaws H} `{!AlignedAllocatorLaws H}
  `{DT : DriverTables} `{!Drivers (vstate H D)}.
Context (koff kbuf : Z) (stale : Z -> Z) (Hkoff : 0 <= koff < 2 ^ 32) (Hkoff' : (PAGESIZE | koff)).
Context (f : HashingFunction) (m : gmap Z Z) (p : Process) (fd a v o : Z) (img : list Z).
Context (Hfd : is_fd fd) (Himg : Z.of_nat (length img) < 2 ^ 31).
(** The paging structure being filled, and the block of the program headers. *)
Context (psa phdrs32 : Z).
Implicit Types (s : vstate H D) (ps : PagingStruct) (h : Elf32Phdr).
Notation opened := (opened f m p fd a v o img).
Notation io_step := (io_step f m p fd a v o img).
Definition mm_of s : mstate H := s.(vpm).(pm_mm).
Definition view s ps va : pte_t := pte_view koff (mm_of s).(tables) ps.(data) va.

(** A block the descriptor table does not use. *)
Definition apart s (b : Z) : Prop := b ∉ ht_blocks (hs s) s.(g_sys_fd_hashtable) /\ forall k, m !! k <> Some b.

Record ready s ps : Prop := {
  li_open : opened s;
  li_ps : s.(vpm).(pstructs) !! psa = Some ps;
  li_wf : ps_wf koff (mm_of s) ps.(data);
  li_falloc : falloc_wf (mm_of s).(frames);
  li_tracks : tracks (mm_of s) ps;
  li_apart : ps.(allocated_pages) <> 0 -> apart s ps.(allocated_pages) }.
Record linv s ps : Prop := {
  li_ready :> ready s ps;
  li_block : live (vheap s) phdrs32 <> None /\ (mm_of s).(tables) !! phdrs32 = None /\ phdrs32 <> ps.(allocated_pages) /\ apart s phdrs32 }.

(** The table and the open file after changes of the memory manager. *)
Lemma opened_vpm s (pm : pmem H) : opened s -> alloc_wf (pm_heap pm) ->
  (forall b, b <> 0 -> live (vheap s) b <> None -> ~ apart s b -> live (pm_heap pm) b = live (vheap s) b) ->
  opened (set_vpm s pm).
Proof.
  intros [T K F N R] Hwf Hl. split; try done.
  assert (Ht : fdt_ok f (set_vheap s (pm_heap pm)) m); [|by destruct Ht].
  apply fdt_heap; [done|done|]. intros b Hb.
  assert (Hna : ~ apart s b) by (intros [H1 H2]; destruct Hb as [Hb|[k Hk]]; [done|by apply (H2 k)]).
  assert (Hb0 : b = 0 \/ live (vheap s) b <> None).
  { destruct Hb as [Hb|[k Hk]]; [by apply (table_blocks f s m)|]. right. destruct (ft_file _ _ _ T k b Hk) as (d & _ & _ & _ & _ & E & _). congruence. }
  destruct Hb0 as [->|Hb0]; [|apply Hl; [|done|done]; apply (live_not_null (vheap s)); [apply (rep_wf _ _ _ _ (ft_rep _ _ _ T))|done]].
  unfold vheap. rewrite !null_not_live; [done|apply (rep_wf _ _ _ _ (ft_rep _ _ _ T))|done].
Qed.

Lemma ready_mm s ps (mm : mstate H) pst ps' : ready s ps -> pst !! psa = Some ps' -> ps_wf koff mm ps'.(data) ->
  falloc_wf mm.(frames) -> tracks mm ps' -> keeps (mm_of s) mm ps ps' -> ready (set_vpm s (mkPM mm pst)) ps'.
Proof.
  intros Hi Hps Hwf Hf Htr Hk. pose proof (li_open _ _ Hi) as Ho. pose proof (op_table _ _ _ _ _ _ _ _ _ Ho) as T.
  pose proof (rep_wf _ _ _ _ (ft_rep _ _ _ T)) as Hhw.
  assert (Hnot : forall b, ~ apart s b -> b <> 0 -> live (vheap s) b <> None ->
    live mm.(heap) b = live (vheap s) b /\ b <> ps'.(allocated_pages)).
  { intros b Hb Hb0 Hl. destruct (decide (b = ps.(allocated_pages))) as [->|Hne]; [by destruct Hb; apply (li_apart _ _ Hi)|].
    destruct (Hk b Hl Hne) as (E & _ & N). done. }
  split; try done.
  - apply (opened_vpm s (mkPM mm pst)); [done|apply Hwf|]. intros b Hb Hl Hna. by apply Hnot.
  - intros Hne. split.
    + intros Hin. change (ps'.(allocated_pages) ∈ ht_blocks (hs s) s.(g_sys_fd_hashtable)) in Hin.
      destruct (table_blocks f s m _ T Hin) as [?|Hl]; [done|]. destruct (Hnot _ (fun A => proj1 A Hin) Hne Hl) as [_ N]. done.
    + intros k Hk'. destruct (ft_file _ _ _ T k _ Hk') as (d & _ & _ & _ & _ & E & _).
      destruct (Hnot ps'.(allocated_pages)) as [_ N]; [by intros [_ A]; apply (A k)|done|congruence|done].
Qed.

Lemma linv_mm s ps (mm : mstate H) pst ps' : linv s ps -> pst !! psa = Some ps' -> ps_wf koff mm ps'.(data) ->
  falloc_wf mm.(frames) -> tracks mm ps' -> keeps (mm_of s) mm ps ps' -> linv (set_vpm s (mkPM mm pst)) ps'.
Proof.
  intros [Hr (B1 & B2 & B3 & B4)] Hps Hwf Hf Htr Hk. split; [by eapply ready_mm|].
  destruct (Hk _ B1 B3) as (E & T' & N).
  split; [change (live mm.(heap) phdrs32 <> None); by rewrite E|]. split; [by apply T'|done].
Qed.

Lemma linv_io s s' ps : linv s ps -> io_step s s' -> linv s' ps.
Proof.
  intros [[Ho Hps Hwf Hf Htr Hap] Hb] [E Ho']. split; [split; [done|..]|]; rewrite E; done.
Qed.
Lemma linv_umem s u ps : linv s ps -> linv (set_umem s u) ps.
Proof. intros Hi. apply (linv_io s); [done|]. apply io_umem, Hi. Qed.

(** ** What may change

    [kept x]: the page of [x] was there before, or is the kernel's. *)
Definition page_of (x : Z) : Z := x - x mod PAGESIZE.
Definition kept ps (x : Z) : Prop := page_of x ∈ ps.(pages) \/ PROC_HIGH_ADDRESS <= x.
Record grown s s' ps ps' : Prop := {
  gr_pages : forall va, va ∈ ps.(pages) -> va ∈ ps'.(pages);
  gr_data : ps'.(data) = ps.(data);
  gr_structs : forall x, x <> psa -> s'.(vpm).(pstructs) !! x = s.(vpm).(pstructs) !! x;
  gr_bytes : forall x, kept ps x -> s'.(umem) !! x = s.(umem) !! x;
  gr_view : forall va, is_u32 va -> kept ps va -> view s' ps' va = view s ps va }.

Lemma grown_refl s ps : grown s s ps ps.
Proof. by split. Qed.
Lemma grown_trans s1 s2 s3 ps1 ps2 ps3 : grown s1 s2 ps1 ps2 -> grown s2 s3 ps2 ps3 -> grown s1 s3 ps1 ps3.
Proof.
  intros [P1 D1 S1 B1 V1] [P2 D2 S2 B2 V2]. assert (K : forall x, kept ps1 x -> kept ps2 x) by (intros x [?|?]; [left; auto|by right]).
  split; [auto|congruence|intros x Hx; rewrite S2 by done; auto| |].
  - intros x Hx. rewrite B2 by auto. auto.
  - intros va Hva Hx. rewrite V2 by auto. auto.
Qed.
Lemma grown_io s s' ps : io_step s s' -> (forall x, kept ps x -> s'.(umem) !! x = s.(umem) !! x) -> grown s s' ps ps.
Proof. intros [E _] Hb. split; [done|done|by rewrite E|done|]. intros va _ _. unfold view, mm_of. by rewrite E. Qed.

Lemma page_of_div x y : page_of x = page_of y <-> x / PAGESIZE = y / PAGESIZE.
Proof.
  unfold page_of. pose proof (Z.div_mod x PAGESIZE ltac:(done)). pose proof (Z.div_mod y PAGESIZE ltac:(done)).
  split; intros; unfold PAGESIZE in *; lia.
Qed.
Lemma page_of_aligned va : va mod PAGESIZE = 0 -> page_of va = va.
Proof. unfold page_of. lia. Qed.
Lemma page_of_inside va x : va mod PAGESIZE = 0 -> page_of x = va <-> va <= x < va + PAGESIZE.
Proof.
  intros Hal. unfold page_of. pose proof (Z.mod_pos_bound x PAGESIZE ltac:(done)).
  pose proof (Z.div_mod x PAGESIZE ltac:(done)). pose proof (Z.div_mod va PAGESIZE ltac:(done)). unfold PAGESIZE in *. lia.
Qed.

(** One page more. *)
Lemma new_user_page_step s ps va flags : linv s ps -> 0 <= va -> va + PAGESIZE <= PROC_HIGH_ADDRESS -> va mod PAGESIZE = 0 ->
  new_user_page koff stale va flags psa s = Panic \/
  exists s' ps' st, new_user_page koff stale va flags psa s = Ret (s', st) /\ linv s' ps' /\ grown s s' ps ps' /\
    (st = - Paging.ENOMEM \/
     (st = 0 /\ (va ∉ ps.(pages)) /\ va ∈ ps'.(pages) /\ mapped s'.(umem) va PAGESIZE /\
      exists k, 0 < k < 2 ^ 20 /\ view s' ps' va = user_pte flags k)).
Proof.
  intros Hi H0 Hhi Hal. pose proof Hi as [[Ho Hps Hwf Hf Htr Hap] Hb].
  assert (Hva : is_u32 va) by (unfold is_u32, PROC_HIGH_ADDRESS, PAGESIZE in *; lia).
  unfold new_user_page. rewrite Hps. cbn [deref]. rewrite bind_Ret. change (pm_mm (vpm s)) with (mm_of s).
  destruct (new_user_page_spec koff Hkoff Hkoff' (mm_of s) ps va flags Hwf Hf Htr Hva Hal)
    as [(mm & ps' & Hr & Hwf' & Hf' & Htr' & Hd & k & (Ht & _ & Hc & _ & Hp & Hasc & Hk20))|[(mm & Hr & Hwf' & Hf' & Htr' & Hv)|[Hr _]]];
    rewrite Hr; [right|right|by left].
  - rewrite bind_Ret. cbn [Z.ltb Z.compare]. eexists _, ps', 0. split; [reflexivity|].
    pose proof (new_page_keeps koff Hkoff Hkoff' _ _ _ _ _ _ _ Hwf Hf Htr Hva Hal Hr) as Hk.
    assert (Hi' : linv (set_vpm s (set_pstruct (set_mm (vpm s) mm) psa ps')) ps').
    { apply (linv_mm s ps mm); [done|apply lookup_insert_eq|by rewrite Hd|done|done|done]. }
    split; [by apply linv_umem|].
    assert (Hnin : va ∉ ps.(pages)).
    { assert (Hnd : NoDup (va :: ps.(pages))).
      { rewrite <- Hp. by apply ascending_NoDup. }
      by apply NoDup_cons in Hnd as [? _]. }
    assert (Hkept : forall x, kept ps x -> page_of x <> va).
    { intros x [Hx|Hx] E; [congruence|]. rewrite page_of_inside in E by done. lia. }
    split; [|right; split; [done|]; split; [done|]; split; [rewrite Hp; by left|]; split; [|exists k; split; [done|]]].
    + split; [intros x Hx; rewrite Hp; by right|done|intros x Hx; by apply lookup_insert_ne| |].
      * intros x Hx. unfold fresh_bytes. cbn [umem set_umem set_vpm]. apply CString.write_bytes_outside.
        rewrite fresh_length by done. pose proof (Hkept x Hx) as Hne. rewrite page_of_inside in Hne by done. lia.
      * intros x Hx Hkx. pose proof (Hkept x Hkx) as Hne. rewrite <- (page_of_aligned va Hal), page_of_div in Hne.
        unfold view. rewrite Hd. change (mm_of _) with mm at 1. rewrite (Hc x Hx). by rewrite (proj2 (Z.eqb_neq _ _) Hne).
    + apply fresh_mapped. done.
    + unfold view. rewrite Hd. change (mm_of _) with mm at 1. rewrite (Hc va Hva), Z.eqb_refl. done.
  - rewrite bind_Ret. cbn [Z.ltb Z.compare Z.opp Paging.ENOMEM]. eexists _, ps, (- Paging.ENOMEM). split; [reflexivity|].
    pose proof (new_page_keeps koff Hkoff Hkoff' _ _ _ _ _ _ _ Hwf Hf Htr Hva Hal Hr) as Hk.
    split; [apply (linv_mm s ps mm); [done|apply lookup_insert_eq|done..]|]. split; [|by left].
    split; [done|done|intros x Hx; by apply lookup_insert_ne|done|]. intros x Hx _. unfold view. change (mm_of _) with mm at 1. apply Hv.
Qed.

(** ** A segment *)

(** A segment the loader can honour: its file part is inside it, and it lies
    below the kernel. *)
Record seg_ok h : Prop := {
  so_vaddr : is_u32 h.(p_vaddr); so_offset : is_u32 h.(p_offset);
  so_size : 0 <= h.(p_filesize) <= h.(p_memsize); so_top : h.(p_vaddr) + h.(p_memsize) <= PROC_HIGH_ADDRESS }.
(** The [j]th page of a segment. *)
Definition seg_page h (j : Z) : Z := page_of h.(p_vaddr) + j * PAGESIZE.

Lemma seg_span h : seg_ok h -> aligned_start h = page_of h.(p_vaddr) /\
  0 <= page_of h.(p_vaddr) <= h.(p_vaddr) /\ page_of h.(p_vaddr) mod PAGESIZE = 0 /\ 0 <= pagespan h /\
  h.(p_vaddr) + h.(p_memsize) <= page_of h.(p_vaddr) + pagespan h * PAGESIZE <= PROC_HIGH_ADDRESS.
Proof.
  intros [Hv _ Hs Ht]. set (q := h.(p_vaddr) / PAGESIZE). set (r := h.(p_vaddr) mod PAGESIZE).
  assert (Hdm : h.(p_vaddr) = PAGESIZE * q + r) by (apply Z.div_mod; done).
  assert (Hr : 0 <= r < PAGESIZE) by (apply Z.mod_pos_bound; done).
  assert (Hp : page_of h.(p_vaddr) = q * PAGESIZE) by (unfold page_of; fold r; lia).
  assert (Hq : 0 <= q) by (apply Z.div_pos; unfold is_u32 in *; [lia|done]).
  assert (Ha : aligned_start h = page_of h.(p_vaddr)).
  { unfold aligned_start, Bytes.bytes_align_down64. fold r. rewrite Hp. rewrite u32_small; [lia|]. unfold is_u32, PAGESIZE in *. lia. }
  split; [done|]. rewrite Hp. split; [unfold PAGESIZE in *; lia|]. split; [by apply Z.mod_mul|].
  unfold pagespan. rewrite Ha, Hp. rewrite (u32_small (p_vaddr h - _)) by (unfold is_u32, PAGESIZE in *; lia).
  replace (p_vaddr h - q * PAGESIZE) with r by lia.
  rewrite (u32_small (p_memsize h + r)) by (unfold is_u32, PROC_HIGH_ADDRESS, PAGESIZE in *; lia).
  destruct (Bytes.align_up_spec (h.(p_memsize) + r) PAGESIZE) as [[n Hn] Hb]; [done|unfold PAGESIZE; lia|unfold PROC_HIGH_ADDRESS, PAGESIZE in *; lia|].
  rewrite Hn in Hb |- *. rewrite Z.div_mul by done.
  assert (0 <= n < 2 ^ 20) by (unfold PROC_HIGH_ADDRESS, PAGESIZE in *; lia). rewrite u32_small by (unfold is_u32; lia).
  unfold PROC_HIGH_ADDRESS, PAGESIZE in *. lia.
Qed.

Lemma seg_page_facts h j : seg_ok h -> 0 <= j < pagespan h ->
  seg_page h j = u32 (aligned_start h + j * PAGESIZE) /\ 0 <= seg_page h j /\ seg_page h j + PAGESIZE <= PROC_HIGH_ADDRESS /\
  seg_page h j mod PAGESIZE = 0.
Proof.
  intros Hs Hj. destruct (seg_span h Hs) as (Ha & Hp & Hm & H0 & Hb). unfold seg_page. rewrite Ha.
  rewrite u32_small by (unfold is_u32, PROC_HIGH_ADDRESS, PAGESIZE in *; nia).
  split; [done|]. split; [unfold PAGESIZE in *; lia|]. split; [unfold PAGESIZE in *; nia|]. by rewrite Z.mod_add.
Qed.

(** Pages [i] to [j] of the segment are there, with some frame and rights. *)
Definition pages_there s ps h flags (i j : Z) : Prop := forall k, i <= k < j ->
  seg_page h k ∈ ps.(pages) /\ exists n, 0 < n < 2 ^ 20 /\ view s ps (seg_page h k) = user_pte flags n.

Lemma pages_grown s s' ps ps' h flags i j : seg_ok h -> 0 <= i -> j <= pagespan h -> grown s s' ps ps' ->
  pages_there s ps h flags i j -> pages_there s' ps' h flags i j.
Proof.
  intros Hs Hi Hj Hg Hp k Hk. destruct (Hp k Hk) as (Hin & n & Hn & Hv). destruct (seg_page_facts h k Hs ltac:(lia)) as (_ & F1 & F2 & F3).
  split; [by apply (gr_pages _ _ _ _ Hg)|]. exists n. split; [done|]. rewrite <- Hv. apply (gr_view _ _ _ _ Hg).
  - unfold is_u32, PROC_HIGH_ADDRESS, PAGESIZE in *. lia.
  - left. by rewrite page_of_aligned.
Qed.

Lemma map_pages_spec h : seg_ok h -> let flags := u16 (Z.lor (Z.land h.(p_flags) PAGE_ACCESS_MODE) PAGE_W) in
  forall k i s ps, linv s ps -> 0 <= i -> i + Z.of_nat k <= pagespan h ->
  map_pages koff stale k i h psa s = Panic \/
  exists s' ps' st, map_pages koff stale k i h psa s = Ret (s', st) /\ linv s' ps' /\ grown s s' ps ps' /\
    (st = - Paging.ENOMEM \/
     (st = 0 /\ pages_there s' ps' h flags i (i + Z.of_nat k) /\ mapped s'.(umem) (seg_page h i) (Z.of_nat k * PAGESIZE) /\
      forall j, i <= j < i + Z.of_nat k -> seg_page h j ∉ ps.(pages))).
Proof.
  intros Hs flags. induction k as [|k IH]; intros i s ps Hi H0 Hk; cbn [map_pages].
  { right. exists s, ps, 0. split; [done|]. split; [done|]. split; [apply grown_refl|]. right. split; [done|].
    split; [intros j Hj; lia|]. split; [intros x Hx; lia|intros j Hj; lia]. }
  destruct (seg_page_facts h i Hs ltac:(lia)) as (E & F1 & F2 & F3). rewrite <- E. fold flags.
  destruct (new_user_page_step s ps (seg_page h i) flags Hi F1 F2 F3) as [->|(s1 & ps1 & st & -> & Hi1 & Hg1 & Hc)]; [by left|].
  rewrite bind_Ret. cbn [fst snd]. destruct Hc as [->|(-> & Hnin & Hin & Hmap & n & Hn & Hv)].
  { right. exists s1, ps1, (- Paging.ENOMEM). split; [done|]. split; [done|]. split; [done|by left]. }
  cbn [Z.ltb Z.compare]. destruct (IH (i + 1) s1 ps1 Hi1) as [->|(s2 & ps2 & st & -> & Hi2 & Hg2 & Hc)]; [lia|lia|by left|]. right.
  exists s2, ps2, st. split; [done|]. split; [done|]. split; [by eapply grown_trans|].
  destruct Hc as [->|(-> & Hp & Hm & Hnew)]; [by left|right]. split; [done|].
  assert (H1 : pages_there s1 ps1 h flags i (i + 1)).
  { intros j Hj. assert (j = i) as -> by lia. eauto. }
  apply (pages_grown s1 s2 ps1 ps2) in H1; [|done|lia|lia|done]. split; [|split].
  - intros j Hj. destruct (decide (j = i)) as [->|]; [apply H1; lia|apply Hp; lia].
  - intros x Hx. destruct (decide (x < seg_page h (i + 1))) as [Hlt|Hge].
    + rewrite (gr_bytes _ _ _ _ Hg2); [apply Hmap; unfold seg_page in *; lia|]. left.
      assert (page_of x = seg_page h i) as ->; [|done]. apply page_of_inside; [done|]. unfold seg_page in *. lia.
    + apply Hm. unfold seg_page in *. lia.
  - intros j Hj. destruct (decide (j = i)) as [->|]; [done|]. intros Hj'. apply (Hnew j); [lia|]. by apply (gr_pages _ _ _ _ Hg1).
Qed.

(** Only rights of pages of the segment changed. *)
Record repaged s s' ps h (i j : Z) : Prop := {
  rp_bytes : s'.(umem) = s.(umem);
  rp_structs : s'.(vpm).(pstructs) = s.(vpm).(pstructs);
  rp_view : forall va, is_u32 va -> (forall k, i <= k < j -> page_of va <> seg_page h k) -> view s' ps va = view s ps va }.

Lemma set_rights_spec h f0 : seg_ok h -> let flags := u16 (Z.lor (Z.land h.(p_flags) PAGE_ACCESS_MODE) PAGE_USER) in
  forall k i s ps, linv s ps -> 0 <= i -> i + Z.of_nat k <= pagespan h -> pages_there s ps h f0 i (i + Z.of_nat k) ->
  exists s', set_rights koff k i h psa s = Ret s' /\ linv s' ps /\ repaged s s' ps h i (i + Z.of_nat k) /\
    pages_there s' ps h flags i (i + Z.of_nat k).
Proof.
  intros Hs flags. induction k as [|k IH]; intros i s ps Hi H0 Hk Hp; cbn [set_rights].
  { exists s. split; [done|]. split; [done|]. split; [done|]. intros j Hj; lia. }
  destruct (seg_page_facts h i Hs ltac:(lia)) as (E & F1 & F2 & F3). rewrite <- E. fold flags.
  destruct (Hp i ltac:(lia)) as (Hin & n & Hn & Hv). unfold set_page_flags. rewrite (li_ps _ _ Hi). cbn [deref]. rewrite bind_Ret.
  assert (Hva : is_u32 (seg_page h i)) by (unfold is_u32, PROC_HIGH_ADDRESS, PAGESIZE in *; lia).
  destruct (user_flags h.(p_flags)) as (Hu & _).
  destruct (set_user_flags koff Hkoff (mm_of s) ps (seg_page h i) n f0 flags (li_wf _ _ Hi) Hva F3 Hn (li_tracks _ _ Hi) Hu Hv)
    as (mm & Hr & Hwf & Hf & Htr & Hkp & Hc). change (pm_mm (vpm s)) with (mm_of s). rewrite Hr, bind_Ret. cbn [fst snd Z.eqb].
  cbn [assert_]. rewrite bind_Ret.
  set (s1 := set_vpm s (set_mm (vpm s) mm)).
  assert (Hi1 : linv s1 ps).
  { apply (linv_mm s ps mm); [done|apply (li_ps _ _ Hi)|done|rewrite Hf; apply (li_falloc _ _ Hi)|done|done]. }
  assert (Hv1 : forall va, is_u32 va -> view s1 ps va = if va / PAGESIZE =? seg_page h i / PAGESIZE then user_pte flags n else view s ps va)
    by exact Hc.
  assert (Hother : forall j, j <> i -> 0 <= j < pagespan h -> view s1 ps (seg_page h j) = view s ps (seg_page h j)).
  { intros j Hji Hj. destruct (seg_page_facts h j Hs Hj) as (_ & G1 & G2 & G3). rewrite Hv1 by (unfold is_u32, PROC_HIGH_ADDRESS, PAGESIZE in *; lia).
    destruct (Z.eqb_spec (seg_page h j / PAGESIZE) (seg_page h i / PAGESIZE)) as [Ej|]; [|done].
    apply page_of_div in Ej. rewrite !page_of_aligned in Ej by done. unfold seg_page, PAGESIZE in Ej. lia. }
  destruct (IH (i + 1) s1 ps Hi1) as (s' & Hr' & Hi' & [Hb' Hst' Hv'] & Hp'); [lia|lia| |].
  { intros j Hj. rewrite Hother by lia. apply Hp. lia. }
  replace (i + Z.of_nat (S k)) with (i + 1 + Z.of_nat k) by lia.
  exists s'. split; [done|]. split; [done|]. split.
  - split; [by rewrite Hb'|by rewrite Hst'|]. intros va Hvx Hne. rewrite Hv' by (done || (intros j Hj; apply Hne; lia)). rewrite Hv1 by done.
    destruct (Z.eqb_spec (va / PAGESIZE) (seg_page h i / PAGESIZE)) as [Ej|]; [|done].
    apply page_of_div in Ej. rewrite (page_of_aligned (seg_page h i)) in Ej by done. exfalso. apply (Hne i); [lia|done].
  - intros j Hj. destruct (decide (j = i)) as [->|]; [|apply Hp'; lia]. split; [done|]. exists n. split; [done|].
    rewrite Hv'; [rewrite Hv1, Z.eqb_refl; done|done|]. intros j' Hj'. rewrite page_of_aligned by done. unfold seg_page, PAGESIZE. lia.
Qed.

Lemma seg_covers h x : seg_ok h -> h.(p_vaddr) <= x < h.(p_vaddr) + h.(p_memsize) ->
  exists j, 0 <= j < pagespan h /\ page_of x = seg_page h j.
Proof.
  intros Hs Hx. destruct (seg_span h Hs) as (_ & H0 & Hm & Hsp & Hb). exists ((x - page_of h.(p_vaddr)) / PAGESIZE).
  pose proof (Z.div_mod (x - page_of h.(p_vaddr)) PAGESIZE ltac:(done)) as E.
  pose proof (Z.mod_pos_bound (x - page_of h.(p_vaddr)) PAGESIZE ltac:(done)). split.
  - split; [apply Z.div_pos; [lia|done]|]. apply Z.div_lt_upper_bound; [done|lia].
  - apply page_of_inside.
    + unfold seg_page. by rewrite Z.mod_add.
    + unfold seg_page. lia.
Qed.

(** What the segment is to hold. *)
Definition content h : list Z :=
  slice h.(p_offset) h.(p_filesize) img ++ replicate (Z.to_nat (h.(p_memsize) - h.(p_filesize))) 0.
Definition seg_loaded s ps h : Prop :=
  pages_there s ps h h.(p_flags) 0 (pagespan h) /\ bytes_at s.(umem) h.(p_vaddr) (content h) /\
  Z.of_nat (length (slice h.(p_offset) h.(p_filesize) img)) = h.(p_filesize).

Lemma loaded_grown s s' ps ps' h : seg_ok h -> grown s s' ps ps' -> seg_loaded s ps h -> seg_loaded s' ps' h.
Proof.
  intros Hs Hg (Hp & Hb & Hl). split; [by eapply pages_grown|]. split; [|done]. intros i b Hi.
  rewrite (gr_bytes _ _ _ _ Hg); [by apply Hb|]. left.
  assert (Hlt : Z.of_nat i < h.(p_memsize)).
  { apply lookup_lt_Some in Hi. unfold content in Hi. rewrite length_app, length_replicate in Hi. pose proof (so_size _ Hs). lia. }
  destruct (seg_covers h (p_vaddr h + Z.of_nat i) Hs) as (j & Hj & ->); [lia|]. by apply Hp.
Qed.

Lemma copy_section_spec h s : opened s -> seg_ok h -> 0 < h.(p_filesize) -> mapped s.(umem) h.(p_vaddr) h.(p_filesize) ->
  exists s' st, elfloader_copy_section_from_file fd h p s = Ret (s', st) /\ io_step s s' /\
    (forall x, ~ h.(p_vaddr) <= x < h.(p_vaddr) + h.(p_filesize) -> s'.(umem) !! x = s.(umem) !! x) /\
    (st = - Vfs.EINVAL \/
     (st = 0 /\ s'.(umem) = write_bytes s.(umem) h.(p_vaddr) (slice h.(p_offset) h.(p_filesize) img) /\
      Z.of_nat (length (slice h.(p_offset) h.(p_filesize) img)) = h.(p_filesize))).
Proof.
  intros Ho Hs Hpos Hmap. pose proof Hs as [Hv Hof Hsz Htop]. unfold elfloader_copy_section_from_file.
  destruct (Z.ltb_spec (i32 h.(p_offset)) 0) as [Hneg|Hge].
  { pose proof (lseek_set f m p fd a v o img Hfd s _ Ho (i32_range h.(p_offset))) as R. rewrite (proj2 (Z.ltb_lt _ 0)) in R by done.
    rewrite R, bind_Ret. cbn [Z.ltb Z.compare Z.opp Vfs.EINVAL]. exists s, (- Vfs.EINVAL). split; [done|]. split; [by apply io_refl|].
    split; [done|by left]. }
  assert (Ei : i32 h.(p_offset) = h.(p_offset)).
  { unfold is_u32, i32 in *. destruct (decide (h.(p_offset) < 2 ^ 31)); [rewrite Z.mod_small; lia|]. exfalso.
    replace (p_offset h + 2 ^ 31) with (p_offset h - 2 ^ 31 + 1 * 2 ^ 32) in Hge by lia. rewrite Z.mod_add, Z.mod_small in Hge; lia. }
  pose proof (i32_range h.(p_offset)) as Hi. rewrite Ei in *.
  destruct (seek_read_spec f m p fd a v o img Hfd Himg s h.(p_offset) h.(p_vaddr) h.(p_filesize) Ho Hi)
    as (s1 & -> & H1 & Hu1 & Hrd); [unfold PROC_HIGH_ADDRESS, is_u32 in *; lia|lia|]. rewrite bind_Ret.
  rewrite (proj2 (Z.ltb_ge (p_offset h) 0)) by lia. destruct (Hrd s.(umem) Hmap) as (s2 & Hr & H2 & Hu2).
  replace (set_umem s1 (umem s)) with s1 in Hr by (rewrite <- Hu1; by destruct s1). rewrite Hr, bind_Ret.
  destruct (slice_bound h.(p_offset) h.(p_filesize) img) as (L1 & _); [lia|lia|].
  rewrite (proj2 (Z.ltb_ge _ 0)) by lia. rewrite u32_small by (unfold is_u32, PROC_HIGH_ADDRESS in *; lia).
  assert (Hout : forall x, ~ h.(p_vaddr) <= x < h.(p_vaddr) + h.(p_filesize) -> s2.(umem) !! x = s.(umem) !! x).
  { intros x Hx. rewrite Hu2. apply CString.write_bytes_outside. lia. }
  destruct (Z.ltb_spec (Z.of_nat (length (slice (p_offset h) (p_filesize h) img))) (p_filesize h)).
  - exists s2, (- Vfs.EINVAL). split; [done|]. split; [done|]. split; [done|by left].
  - exists s2, 0. split; [done|]. split; [done|]. split; [done|]. right. split; [done|]. split; [done|lia].
Qed.

(** Writing inside the segment's new pages keeps everything else. *)
Lemma grown_inside s s1 s2 ps ps1 h : seg_ok h -> grown s s1 ps ps1 -> (forall j, 0 <= j < pagespan h -> seg_page h j ∉ ps.(pages)) ->
  (forall x, ~ h.(p_vaddr) <= x < h.(p_vaddr) + h.(p_memsize) -> s2.(umem) !! x = s1.(umem) !! x) ->
  (forall va, is_u32 va -> (forall k, 0 <= k < pagespan h -> page_of va <> seg_page h k) -> view s2 ps1 va = view s1 ps1 va) ->
  s2.(vpm).(pstructs) = s1.(vpm).(pstructs) -> grown s s2 ps ps1.
Proof.
  intros Hs [P Dt S B V] Hnew Hb Hv Hst.
  assert (Hk : forall x, kept ps x -> forall k, 0 <= k < pagespan h -> page_of x <> seg_page h k).
  { intros x [Hx|Hx] k Hk E; [apply (Hnew k Hk); by rewrite <- E|]. destruct (seg_page_facts h k Hs Hk) as (_ & _ & F2 & F3).
    rewrite page_of_inside in E by done. lia. }
  split; [done|done|by rewrite Hst| |].
  - intros x Hx. rewrite Hb; [auto|]. intros Hin. destruct (seg_covers h x Hs Hin) as (j & Hj & E). by apply (Hk x Hx j Hj).
  - intros va Hva Hx. rewrite Hv; [auto|done|]. by apply Hk.
Qed.

(** The bytes of the file, when there are any. *)
Lemma fill_spec h s : opened s -> seg_ok h -> mapped s.(umem) h.(p_vaddr) h.(p_memsize) ->
  exists s' st, (if negb (h.(p_filesize) =? 0) then elfloader_copy_section_from_file fd h p s else Ret (s, 0)) = Ret (s', st) /\
    io_step s s' /\ (forall x, ~ h.(p_vaddr) <= x < h.(p_vaddr) + h.(p_memsize) -> s'.(umem) !! x = s.(umem) !! x) /\
    (st = - Vfs.EINVAL \/
     (st = 0 /\ s'.(umem) = write_bytes s.(umem) h.(p_vaddr) (slice h.(p_offset) h.(p_filesize) img) /\
      Z.of_nat (length (slice h.(p_offset) h.(p_filesize) img)) = h.(p_filesize))).
Proof.
  intros Ho Hs Hmap. pose proof (so_size _ Hs) as Hsz. destruct (Z.eqb_spec (p_filesize h) 0) as [E|E]; cbn [negb].
  - exists s, 0. split; [done|]. split; [by apply io_refl|]. split; [done|]. right. rewrite E. unfold slice. cbn. done.
  - destruct (copy_section_spec h s Ho Hs) as (s' & st & Hr & Hi & Hx & Hc); [lia|intros x Hx; apply Hmap; lia|].
    exists s', st. split; [done|]. split; [done|]. split; [|done]. intros x Hxx. apply Hx. lia.
Qed.

Lemma bss_spec h s : seg_ok h -> mapped s.(umem) h.(p_vaddr) h.(p_memsize) ->
  (if h.(p_memsize) >? h.(p_filesize) then
     r ← memset s.(umem) (u32 (h.(p_vaddr) + h.(p_filesize))) 0 (h.(p_memsize) - h.(p_filesize)); Ret (set_umem s r.1)
   else Ret s) =
  Ret (set_umem s (write_bytes s.(umem) (h.(p_vaddr) + h.(p_filesize)) (replicate (Z.to_nat (h.(p_memsize) - h.(p_filesize))) 0))).
Proof.
  intros [Hv _ Hsz Htop] Hmap. rewrite Z.gtb_ltb. destruct (Z.ltb_spec (p_filesize h) (p_memsize h)).
  - rewrite u32_small by (unfold is_u32, PROC_HIGH_ADDRESS in *; lia). rewrite memset_spec; [done|lia|]. intros x Hx. apply Hmap. lia.
  - replace (Z.to_nat (p_memsize h - p_filesize h)) with 0%nat by lia. cbn. by destruct s.
Qed.

Lemma load_segment_spec h s ps : linv s ps -> (h.(p_type) = PT_LOAD -> seg_ok h) ->
  load_segment koff stale fd h p psa s = Panic \/
  exists s' ps' st, load_segment koff stale fd h p psa s = Ret (s', st) /\ linv s' ps' /\ grown s s' ps ps' /\
    (st = - Paging.ENOMEM \/ st = - Vfs.EINVAL \/ (st = 0 /\ (h.(p_type) = PT_LOAD -> seg_loaded s' ps' h))).
Proof.
  intros Hi Hok. unfold load_segment. destruct (Z.eqb_spec (p_type h) PT_LOAD) as [El|El]; cbn [negb].
  2: { right. exists s, ps, 0. split; [done|]. split; [done|]. split; [apply grown_refl|]. right. right. split; [done|by intros ?]. }
  pose proof (Hok El) as Hs. destruct (seg_span h Hs) as (_ & Hp0 & Hpm & Hspan & Hb).
  destruct (map_pages_spec h Hs (Z.to_nat (pagespan h)) 0 s ps Hi) as [->|(s1 & ps1 & st & -> & Hi1 & Hg1 & Hc)];
    [lia|lia|by left|right]. rewrite bind_Ret.
  destruct Hc as [->|(-> & Hpt & Hmap & Hnew)].
  { exists s1, ps1, (- Paging.ENOMEM). split; [done|]. split; [done|]. split; [done|by left]. }
  cbn [Z.ltb Z.compare]. rewrite Z2Nat.id in Hpt, Hmap, Hnew by done. rewrite Z.add_0_l in *.
  assert (Hm : mapped s1.(umem) h.(p_vaddr) h.(p_memsize)).
  { intros x Hx. apply Hmap. unfold seg_page. rewrite Z.mul_0_l, Z.add_0_r. lia. }
  destruct (fill_spec h s1 (li_open _ _ Hi1) Hs Hm) as (s2 & st & -> & H2 & Hx2 & Hc). rewrite bind_Ret.
  assert (Hv2 : forall va, view s2 ps1 va = view s1 ps1 va) by (intros va; unfold view, mm_of; by rewrite (io_same _ _ _ _ _ _ _ _ _ _ H2)).
  destruct Hc as [->|(-> & Hu2 & Hlen)].
  { exists s2, ps1, (- Vfs.EINVAL). split; [done|]. split; [by eapply linv_io|]. split; [|right; by left].
    apply (grown_inside s s1 s2 ps ps1 h Hs Hg1 Hnew Hx2); [intros; apply Hv2|]. by rewrite (io_same _ _ _ _ _ _ _ _ _ _ H2). }
  cbn [Z.ltb Z.compare]. rewrite bss_spec; [|done|rewrite Hu2; by apply write_bytes_mapped]. rewrite bind_Ret. cbn [umem set_umem].
  set (u3 := write_bytes s2.(umem) (p_vaddr h + p_filesize h) _). set (s3 := set_umem s2 u3).
  assert (Hu3 : u3 = write_bytes s1.(umem) h.(p_vaddr) (content h)).
  { unfold u3, content. rewrite Hu2, write_bytes_app. by rewrite Hlen. }
  assert (Hcl : Z.of_nat (length (content h)) = h.(p_memsize)).
  { unfold content. rewrite length_app, length_replicate. pose proof (so_size _ Hs). lia. }
  assert (Hi3 : linv s3 ps1) by (apply linv_umem; by eapply linv_io).
  destruct (set_rights_spec h (u16 (Z.lor (Z.land h.(p_flags) PAGE_ACCESS_MODE) PAGE_W)) Hs (Z.to_nat (pagespan h)) 0 s3 ps1 Hi3) as (s4 & -> & Hi4 & [Hb4 Hst4 Hv4] & Hp4); [lia|lia| |].
  { rewrite Z2Nat.id by done. intros k Hk. destruct (Hpt k ltac:(lia)) as (Hin & n & Hn & Hv). split; [done|]. exists n. split; [done|].
    rewrite <- Hv. apply Hv2. }
  rewrite bind_Ret. rewrite Z2Nat.id, Z.add_0_l in * by done. exists s4, ps1, 0. split; [done|]. split; [done|]. split.
  - apply (grown_inside s s1 s4 ps ps1 h Hs Hg1 Hnew).
    + intros x Hx. rewrite Hb4. cbn [umem set_umem s3]. rewrite Hu3. apply CString.write_bytes_outside. lia.
    + intros va Hva Hne. rewrite Hv4 by done. apply Hv2.
    + rewrite Hst4. cbn. by rewrite (io_same _ _ _ _ _ _ _ _ _ _ H2).
  - right. right. split; [done|]. intros _. split; [|split; [|done]].
    + intros k Hk. destruct (Hp4 k ltac:(lia)) as (Hin & n & Hn & Hv). split; [done|]. exists n. split; [done|].
      rewrite Hv. apply (proj2 (user_flags h.(p_flags))).
    + rewrite Hb4. cbn [umem set_umem s3]. rewrite Hu3. apply write_bytes_at.
Qed.

(** ** All segments *)
Definition phdr_at (phoff i : Z) : Elf32Phdr := phdr32 (phdr_bytes img phoff i).

Lemma load_loop_spec phoff n : PROC_HIGH_ADDRESS <= phdrs32 ->
  (forall j, 0 <= j < n -> (phdr_at phoff j).(p_type) = PT_LOAD -> seg_ok (phdr_at phoff j)) ->
  forall k i s ps, linv s ps -> 0 <= i -> i + Z.of_nat k = n -> phdrs_at img s.(umem) phdrs32 phoff 0 n ->
  (forall j, 0 <= j < i -> (phdr_at phoff j).(p_type) = PT_LOAD -> seg_loaded s ps (phdr_at phoff j)) ->
  load_loop koff stale k i fd phdrs32 p psa s = Panic \/
  exists s' ps' st, load_loop koff stale k i fd phdrs32 p psa s = Ret (s', st) /\ linv s' ps' /\ grown s s' ps ps' /\
    (st = - Paging.ENOMEM \/ st = - Vfs.EINVAL \/
     (st = 0 /\ forall j, 0 <= j < n -> (phdr_at phoff j).(p_type) = PT_LOAD -> seg_loaded s' ps' (phdr_at phoff j))).
Proof.
  intros Hph Hok. induction k as [|k IH]; intros i s ps Hi H0 Hn Hat Hdone; cbn [load_loop].
  { right. exists s, ps, 0. split; [done|]. split; [done|]. split; [apply grown_refl|]. right. right. split; [done|].
    intros j Hj. apply Hdone. lia. }
  destruct (Hat i ltac:(lia)) as [Hb Hl]. rewrite <- Hl, (load_image_spec _ _ _ Hb), bind_Ret. fold (phdr_at phoff i).
  destruct (load_segment_spec (phdr_at phoff i) s ps Hi) as [->|(s1 & ps1 & st & -> & Hi1 & Hg1 & Hc)]; [apply Hok; lia|by left|].
  rewrite bind_Ret. destruct Hc as [->|[->|(-> & Hld)]].
  { right. exists s1, ps1, (- Paging.ENOMEM). split; [done|]. split; [done|]. split; [done|by left]. }
  { right. exists s1, ps1, (- Vfs.EINVAL). split; [done|]. split; [done|]. split; [done|right; by left]. }
  cbn [Z.ltb Z.compare]. destruct (IH (i + 1) s1 ps1 Hi1) as [->|(s2 & ps2 & st & -> & Hi2 & Hg2 & Hc)]; [lia|lia| | |by left|right].
  - intros j Hj. destruct (Hat j Hj) as [Hbj Hlj]. split; [|done]. intros x b Hx. rewrite (gr_bytes _ _ _ _ Hg1); [by apply Hbj|].
    right. unfold sizeof_Elf32Phdr. lia.
  - intros j Hj Hty. destruct (decide (j = i)) as [->|]; [by apply Hld|].
    apply (loaded_grown s s1 ps ps1); [apply Hok; [lia|done]|done|]. apply Hdone; [lia|done].
  - exists s2, ps2, st. split; [done|]. split; [done|]. split; [by eapply grown_trans|done].
Qed.

End load.

(** ** The whole program *)
Section program.
Context {H D : Type} `{!Allocator H} `{!AlignedAllocator H} `{!AllocatorLaws H} `{!AlignedAllocatorLaws H}
  `{DT : DriverTables} `{!Drivers (vstate H D)}.
Context (koff kbuf : Z) (stale : Z -> Z) (Hkoff : 0 <= koff < 2 ^ 32) (Hkoff' : (PAGESIZE | koff)) (Hhigh : PROC_HIGH_ADDRESS <= koff).
Context (f : HashingFunction) (m : gmap Z Z) (p : Process) (fd a v o : Z) (img : list Z).
Context (Hfd : is_fd fd) (Himg : Z.of_nat (length img) < 2 ^ 31) (Hbytes : Forall is_byte img).
Implicit Types (s : vstate H D) (ps : PagingStruct).
Notation opened := (opened f m p fd a v o img).
Notation io_step := (io_step f m p fd a v o img).
Notation ready := (ready koff f m p fd a v o img).
Notation linv := (linv koff f m p fd a v o img).

Definition the_hdr : Elf32Ehdr := ehdr32 (slice 0 EHDR32_SIZE img).
Definition the_phdr (j : Z) : Elf32Phdr := phdr_at img the_hdr.(e_phoff) j.
(** Every segment to be loaded can be honoured. *)
Definition segs_ok : Prop := forall j, 0 <= j < the_hdr.(e_phnum) -> (the_phdr j).(p_type) = PT_LOAD -> seg_ok (the_phdr j).

(** A block for the program headers. *)
Lemma block_spec psa s ps n : ready psa s ps -> 0 <= n < 2 ^ 32 ->
  exists h r, kmalloc_ n (vheap s) = Ret (h, r) /\ ((r = 0 /\ ready psa (set_vheap s h) ps) \/
    (r <> 0 /\ PROC_HIGH_ADDRESS <= r /\ linv psa r (set_vheap s h) ps)).
Proof.
  intros Hi Hn. destruct (decide (n = 0)) as [->|Hn0].
  { rewrite malloc_zero. eexists _, 0. split; [done|]. left. split; [done|]. destruct s as [[[] ?]]. exact Hi. }
  pose proof Hi as [Ho Hps Hwf Hf Htr Hap]. pose proof (op_table _ _ _ _ _ _ _ _ _ Ho) as T.
  pose proof Hwf as [Ha Hlo Hv Htb]. change (heap (mm_of s)) with (vheap s) in *.
  destruct (malloc_law (vheap s) n Ha ltac:(lia)) as (h & r & Hr & Ha' & Hc). exists h, r. split; [done|].
  pose proof (lowest_kmalloc _ _ _ _ Ha Hr) as Hlow.
  assert (Hkeep : forall b, live (vheap s) b <> None -> live h b = live (vheap s) b /\ (r <> 0 -> b <> r)).
  { intros b Hb. destruct Hc as [[-> Hl]|(Hr0 & Hf0 & Hl)]; [by rewrite Hl|]. assert (b <> r) by congruence. by rewrite Hl, decide_False. }
  assert (Hready : ready psa (set_vheap s h) ps).
  { apply (ready_mm koff f m p fd a v o img psa s ps (set_heap (mm_of s) h)); [done|done| |done| |].
    - split; cbn; [done|by rewrite Hlow| |done]. intros b Hb. rewrite Hlow. destruct (Hv b Hb) as [Hl|?]; [left|by right].
      by destruct (Hkeep b Hl) as [-> _].
    - destruct Htr as (T1 & T2 & T3 & [E|E]); (split; [done|]; split; [done|]; split; [done|]); [by left|right].
      cbn. destruct (Hkeep ps.(allocated_pages)) as [El _]; [change (vheap s) with (heap (mm_of s)); by rewrite E|]. by rewrite El.
    - intros b Hb Hne. cbn. by destruct (Hkeep b Hb). }
  destruct Hc as [[-> _]|(Hr0 & Hf0 & Hl)]; [left; done|right]. split; [done|].
  assert (Hlr : live h r = Some n) by by rewrite Hl, decide_True.
  assert (Hge : lowest (vheap s) <= r) by (rewrite <- Hlow; apply lowest_law; [done|congruence]).
  split; [lia|]. split; [done|]. split; [change (live h r <> None); congruence|]. split; [|split; [|split]].
  - change (tables (mm_of s) !! r = None). destruct (tables (mm_of s) !! r) eqn:E; [|done].
    destruct (Hv r) as [?|?]; [congruence|congruence|lia].
  - intros ->. destruct Htr as (_ & _ & _ & [[E _]|E]); [congruence|]. change (heap (mm_of s)) with (vheap s) in E. congruence.
  - intros Hin. destruct (table_blocks f s m r T Hin); congruence.
  - intros k Hk. destruct (ft_file _ _ _ T k r Hk) as (d & _ & _ & _ & _ & E & _). congruence.
Qed.

Lemma phdrs_free_spec psa r s ps : linv psa r s ps -> exists h, free_block s r = Ret (set_vheap s h) /\ opened (set_vheap s h).
Proof.
  intros [Hi (B1 & _ & _ & B4)]. pose proof (li_wf _ _ _ _ _ _ _ _ _ _ _ _ Hi) as Hwf.
  destruct (free_law (vheap s) r) as (h & Hr & Ha & Hl); [apply Hwf|done|]. exists h. unfold free_block. rewrite Hr, bind_Ret.
  split; [done|]. apply (opened_vpm f m p fd a v o img s (set_pheap (vpm s) h)); [apply Hi|done|].
  intros b _ _ Hna. cbn. rewrite Hl. rewrite decide_False; [done|]. by intros ->.
Qed.

(** How loading into the current space can end. *)
Definition ended psa (target q : Process) s s' (st : Z) : Prop :=
  opened s' /\ (forall x, x <> psa -> s'.(vpm).(pstructs) !! x = s.(vpm).(pstructs) !! x) /\
  exists ps', s'.(vpm).(pstructs) !! psa = Some ps' /\ (forall ps, s.(vpm).(pstructs) !! psa = Some ps -> ps'.(Paging.data) = ps.(Paging.data)) /\
  (((st = - ENOMEM \/ st = - EINVAL) /\ q = target) \/
   (st = 0 /\ q = set_inst_ptr target the_hdr.(e_entry) /\
    forall j, 0 <= j < the_hdr.(e_phnum) -> (the_phdr j).(p_type) = PT_LOAD -> seg_loaded koff img s' ps' (the_phdr j))).

Lemma ready_io psa s s' ps : ready psa s ps -> io_step s s' -> ready psa s' ps.
Proof. intros [Ho Hps Hwf Hf Htr Hap] [E Ho']. split; [done|..]; rewrite E; done. Qed.

Lemma ended_error psa target s s' ps st : ready psa s ps -> opened s' -> s'.(vpm).(pstructs) = s.(vpm).(pstructs) ->
  st = - ENOMEM \/ st = - EINVAL -> ended psa target target s s' st.
Proof.
  intros Hi Ho Es Hst. split; [done|]. split; [by rewrite Es|]. exists ps. split; [rewrite Es; apply (li_ps _ _ _ _ _ _ _ _ _ _ _ _ Hi)|].
  split; [|by left]. intros ps'. rewrite (li_ps _ _ _ _ _ _ _ _ _ _ _ _ Hi). congruence.
Qed.

Lemma load32_spec psa target s ps : ready psa s ps -> target.(paging_struct) = psa -> segs_ok ->
  elfloader_load_from_file32 koff kbuf stale fd p target s = Panic \/
  exists s' q st, elfloader_load_from_file32 koff kbuf stale fd p target s = Ret (s', q, st) /\ ended psa target q s s' st /\
    (st = 0 -> EHDR32_SIZE <= Z.of_nat (length img) /\ ehdr_class32 the_hdr = true).
Proof.
  intros Hi Hpsa Hsegs. unfold elfloader_load_from_file32.
  destruct (ehdr32_spec f m p fd a v o img Hfd Himg kbuf stale s (li_open _ _ _ _ _ _ _ _ _ _ _ _ Hi)) as (s1 & H1 & ->). rewrite bind_Ret.
  fold the_hdr. pose proof (ready_io psa s s1 ps Hi H1) as Hi1.
  assert (Es1 : s1.(vpm).(pstructs) = s.(vpm).(pstructs)) by by rewrite (io_same _ _ _ _ _ _ _ _ _ _ H1).
  assert (Herr : forall st, st = - ENOMEM \/ st = - EINVAL -> ended psa target target s s1 st).
  { intros st Hst. eapply ended_error; [exact Hi|apply H1|done|done]. }
  destruct (Z.ltb_spec (Z.of_nat (length img)) EHDR32_SIZE) as [Hsh|Hlen].
  { right. exists s1, target, (- EINVAL). split; [done|]. split; [auto|done]. }
  destruct (ehdr_class32 the_hdr) eqn:Ecl; cbn [negb]; [|right; exists s1, target, (- EINVAL); split; [done|]; split; [auto|done]].
  assert (Hph : 0 <= the_hdr.(e_phnum) < 2 ^ 16) by (apply (field_range 44 2); by apply Forall_take, Forall_drop).
  destruct (block_spec psa s1 ps (e_phnum the_hdr * sizeof_Elf32Phdr) Hi1) as (h & r & -> & Hc); [unfold sizeof_Elf32Phdr; lia|].
  rewrite bind_Ret. destruct Hc as [(-> & Hi2)|(Hr0 & Hge & Hi2)].
  { right. rewrite Z.eqb_refl. eexists _, target, (- ENOMEM). split; [reflexivity|]. split; [|done].
    eapply ended_error; [exact Hi|apply Hi2|done|by left]. }
  rewrite (proj2 (Z.eqb_neq r 0)) by done.
  assert (Hfree : forall s2 ps2, linv psa r s2 ps2 -> (forall x, x <> psa -> s2.(vpm).(pstructs) !! x = s1.(vpm).(pstructs) !! x) ->
    ps2.(Paging.data) = ps.(Paging.data) -> exists h', free_block s2 r = Ret (set_vheap s2 h') /\
    forall q st, (((st = - ENOMEM \/ st = - EINVAL) /\ q = target) \/
      (st = 0 /\ q = set_inst_ptr target the_hdr.(e_entry) /\
       forall j, 0 <= j < the_hdr.(e_phnum) -> (the_phdr j).(p_type) = PT_LOAD -> seg_loaded koff img s2 ps2 (the_phdr j))) ->
      ended psa target q s (set_vheap s2 h') st).
  { intros s2 ps2 Hi3 Hst Hd. destruct (phdrs_free_spec psa r s2 ps2 Hi3) as (h' & Hf & Ho'). exists h'. split; [done|].
    intros q st Hc. split; [done|]. split; [intros x Hx; rewrite <- Es1; by apply Hst|].
    exists ps2. split; [apply (li_ps _ _ _ _ _ _ _ _ _ _ _ _ Hi3)|]. split; [|done]. intros ps'.
    rewrite (li_ps _ _ _ _ _ _ _ _ _ _ _ _ Hi). by intros [= <-]. }
  set (s2 := fresh_bytes stale r _ (set_vheap s1 h)).
  assert (Hi3 : linv psa r s2 ps) by by apply linv_umem.
  unfold elf_read_phdrs32. unfold ehdr_class32 in Ecl. apply andb_prop in Ecl as [Emg Ecl]. rewrite Emg. cbn [negb].
  destruct (sizeof_Elf32Phdr =? e_phentsize the_hdr) eqn:Eps; cbn [negb].
  2: { right. rewrite bind_Ret. cbn [Z.ltb Z.compare Z.opp EINVAL]. destruct (Hfree s2 ps Hi3) as (h' & -> & He); [done|done|]. rewrite bind_Ret.
       eexists _, target, _. split; [reflexivity|]. split; [apply He; left; split; [by right|done]|done]. }
  destruct (phdrs_loop_spec f m p fd a v o img Hfd Himg (e_phoff the_hdr) r (e_phnum the_hdr) (Z.to_nat (e_phnum the_hdr)) 0 s2)
    as (s3 & st & -> & H3 & Hc); [apply Hi3|lia|lia|apply fresh_mapped; unfold sizeof_Elf32Phdr; lia|intros j Hj; lia|].
  rewrite bind_Ret. assert (Hi4 : linv psa r s3 ps) by by eapply linv_io.
  assert (Es3 : s3.(vpm).(pstructs) = s1.(vpm).(pstructs)) by by rewrite (io_same _ _ _ _ _ _ _ _ _ _ H3).
  destruct Hc as [->|(-> & Hat)].
  { right. cbn [Z.ltb Z.compare Z.opp EINVAL]. destruct (Hfree s3 ps Hi4) as (h' & -> & He); [by rewrite Es3|done|]. rewrite bind_Ret.
    eexists _, target, _. split; [reflexivity|]. split; [apply He; left; split; [by right|done]|done]. }
  cbn [Z.ltb Z.compare]. rewrite Z2Nat.id, Z.add_0_l in Hat by lia. rewrite Hpsa.
  destruct (load_loop_spec koff stale Hkoff Hkoff' f m p fd a v o img Hfd Himg psa r (e_phoff the_hdr) (e_phnum the_hdr) Hge Hsegs
    (Z.to_nat (e_phnum the_hdr)) 0 s3 ps Hi4) as [->|(s4 & ps4 & st & -> & Hi5 & Hg & Hc)]; [lia|lia|done|intros j Hj; lia|by left|right].
  rewrite bind_Ret. destruct (Hfree s4 ps4 Hi5) as (h' & -> & He); [intros x Hx; rewrite <- Es3; by apply (gr_structs _ _ _ _ _ _ Hg)|apply Hg|].
  rewrite bind_Ret. destruct Hc as [->|[->|(-> & Hld)]].
  - eexists _, target, _. split; [reflexivity|]. split; [apply He; left; split; [by left|done]|done].
  - eexists _, target, _. split; [reflexivity|]. split; [apply He; left; split; [by right|done]|done].
  - cbn [Z.ltb Z.compare]. eexists _, _, 0. split; [reflexivity|]. split; [apply He; by right|done].
Qed.

(** ** Address spaces *)
Definition space_of ps : Z := mm_kva2pa koff ps.(Paging.data).

Lemma user_part_lookup u x : user_part u !! x = if decide (x < PROC_HIGH_ADDRESS) then u !! x else None.
Proof. apply option_eq. intros b. unfold user_part. rewrite map_lookup_filter_Some. cbn. case_decide; naive_solver. Qed.
Lemma kernel_part_lookup u x : kernel_part u !! x = if decide (x < PROC_HIGH_ADDRESS) then None else u !! x.
Proof. apply option_eq. intros b. unfold kernel_part. rewrite map_lookup_filter_Some. cbn. case_decide; naive_solver. Qed.
Lemma joined_lookup u u' x : (user_part u ∪ kernel_part u') !! x = if decide (x < PROC_HIGH_ADDRESS) then u !! x else u' !! x.
Proof.
  rewrite lookup_union, user_part_lookup, kernel_part_lookup. case_decide; [by destruct (u !! x)|by destruct (u' !! x)].
Qed.

Implicit Types e : estate H D.
Lemma load_space_spec psx ps e : e.(ev).(vpm).(pstructs) !! psx = Some ps -> space_of ps <> e.(ecpu).(cr3) ->
  mm_load_paging_struct koff psx e =
    Ret (mkE (set_umem e.(ev) (default ∅ (e.(spaces) !! space_of ps) ∪ kernel_part e.(ev).(umem)))
           (mkCPU (space_of ps) e.(ecpu).(esp0) e.(ecpu).(running)) (<[e.(ecpu).(cr3) := user_part e.(ev).(umem)]> e.(spaces))).
Proof.
  intros Hps Hne. unfold mm_load_paging_struct. rewrite Hps. cbn [deref]. rewrite bind_Ret. unfold mm_load_paging_struct_arch.
  fold (space_of ps). rewrite (proj2 (Z.eqb_neq _ _) Hne). cbn [cr3]. by rewrite (proj2 (Z.eqb_neq _ _) Hne).
Qed.

(** The acting process sees its own memory, as it was. *)
Record resumed e e' : Prop := {
  re_open : opened e'.(ev);
  re_cpu : e'.(ecpu) = e.(ecpu);
  re_user : forall x, x < PROC_HIGH_ADDRESS -> e'.(ev).(umem) !! x = e.(ev).(umem) !! x }.

(** There and back again. *)
Lemma there_and_back psa ps psp e :
  e.(ev).(vpm).(pstructs) !! psa = Some ps -> e.(ev).(vpm).(pstructs) !! p.(paging_struct) = Some psp ->
  e.(ecpu).(cr3) = space_of psp -> space_of ps <> space_of psp -> opened e.(ev) ->
  exists s1, io_step e.(ev) s1 /\ let e1 := mkE s1 (mkCPU (space_of ps) e.(ecpu).(esp0) e.(ecpu).(running)) (<[space_of psp := user_part e.(ev).(umem)]> e.(spaces)) in
  mm_load_paging_struct koff psa e = Ret e1 /\
  forall s2, opened s2 -> s2.(vpm).(pstructs) !! p.(paging_struct) = Some psp -> exists e2,
    mm_load_paging_struct koff p.(paging_struct) (set_ev e1 s2) = Ret e2 /\ resumed e e2 /\
    e2.(ev).(vpm) = s2.(vpm) /\ e2.(spaces) !! space_of ps = Some (user_part s2.(umem)).
Proof.
  intros Hps Hpp Hcr Hne Ho. set (u := default ∅ (e.(spaces) !! space_of ps) ∪ kernel_part e.(ev).(umem)).
  exists (set_umem e.(ev) u). split; [by apply io_umem|]. split; [rewrite (load_space_spec psa ps) by congruence; by rewrite Hcr|].
  intros s2 Ho2 Hpp2. set (e1 := set_ev _ s2). rewrite (load_space_spec p.(paging_struct) psp e1); [|done|cbn; congruence].
  eexists. split; [reflexivity|]. cbn [ev ecpu spaces vpm set_umem e1 set_ev cr3 esp0 running]. rewrite lookup_insert_eq.
  split; [|split; [done|by rewrite lookup_insert_eq]]. split; cbn [ev ecpu].
  - by apply opened_umem.
  - rewrite <- Hcr. by destruct (ecpu e).
  - intros x Hx. cbn [umem set_umem]. match goal with |- context [default ∅ (Some ?y)] => change (default ∅ (Some y)) with y end. rewrite joined_lookup. by rewrite decide_True.
Qed.

Definition file_hdr : ElfGenericEhdr := generic_ehdr (slice 0 GENERIC_EHDR_SIZE img).

Lemma resumed_io e s : opened e.(ev) -> PROC_HIGH_ADDRESS <= kbuf -> io_step e.(ev) s ->
  (forall x, x < kbuf -> s.(umem) !! x = e.(ev).(umem) !! x) -> resumed e (set_ev e s).
Proof. intros Ho Hk Hi Hx. split; [apply Hi|done|]. intros x Hlt. apply Hx. lia. Qed.
Lemma resumed_trans e1 e2 e3 : resumed e1 e2 -> resumed e2 e3 -> resumed e1 e3.
Proof. intros [_ C1 U1] [O C2 U2]. split; [done|congruence|]. intros x Hx. rewrite U2 by done. auto. Qed.

(** The two spaces: the acting process' is loaded, the target has its own. *)
Record two_spaces psa ps psp (target : Process) e : Prop := {
  ts_target : target.(paging_struct) = psa /\ e.(ev).(vpm).(pstructs) !! psa = Some ps;
  ts_acting : p.(paging_struct) <> psa /\ e.(ev).(vpm).(pstructs) !! p.(paging_struct) = Some psp;
  ts_loaded : e.(ecpu).(cr3) = space_of psp;
  ts_apart : space_of ps <> space_of psp }.

(** C36: a file that is too short, has no ELF magic, or is of no known class is
    refused with [-EINVAL], one that is not an executable with [-ENOEXEC], a
    64-bit one stops the kernel; a refusal leaves the new process and all of
    memory management as they were, and the acting process in its own address
    space with its memory untouched and the descriptor still open. *)
Theorem elf_refuses psa ps psp target e : PROC_HIGH_ADDRESS <= kbuf -> opened e.(ev) -> two_spaces psa ps psp target e ->
  let res := elfloader_load_from_file koff kbuf stale fd p target e in
  let refused st := exists e', res = Ret (e', target, st) /\ resumed e e' /\ e'.(ev).(vpm) = e.(ev).(vpm) in
  if (Z.of_nat (length img) <? GENERIC_EHDR_SIZE) || negb (elf_valid_magic file_hdr.(g_ident)) then refused (- EINVAL)
  else if negb (file_hdr.(g_type) =? ET_EXEC) then refused (- ENOEXEC)
  else file_hdr.(g_ident) !! EI_CLASS <> Some ELFCLASS32 ->
    if bool_decide (file_hdr.(g_ident) !! EI_CLASS = Some ELFCLASS64) then res = Panic else refused (- EINVAL).
Proof.
  intros Hk Ho [[Hta Hps] [Hne Hpp] Hcr Hap] res refused. unfold refused, res, elfloader_load_from_file. clear res refused.
  destruct (generic_spec f m p fd a v o img Hfd Himg kbuf stale e.(ev) Ho) as (s1 & H1 & Hx & ->). rewrite bind_Ret. fold file_hdr.
  pose proof (resumed_io e s1 Ho Hk H1 Hx) as R1.
  assert (Ev : s1.(vpm) = e.(ev).(vpm)) by by rewrite (io_same _ _ _ _ _ _ _ _ _ _ H1).
  destruct (Z.ltb_spec (Z.of_nat (length img)) GENERIC_EHDR_SIZE); cbn [orb]; [by exists (set_ev e s1)|].
  destruct (elf_valid_magic (g_ident file_hdr)); cbn [negb]; [|by exists (set_ev e s1)]. unfold elfloader_validate_file.
  destruct (g_type file_hdr =? ET_EXEC); cbn [negb Z.ltb Z.compare Z.opp ENOEXEC]; [|by exists (set_ev e s1)]. intros Hcl.
  destruct (there_and_back psa ps psp (set_ev e s1)) as (s2 & H2 & E2 & Hback);
    [cbn; by rewrite Ev|cbn; by rewrite Ev|done|done|apply H1|]. rewrite Hta, E2, bind_Ret.
  rewrite (bool_decide_false (g_ident file_hdr !! EI_CLASS = Some ELFCLASS32)) by done.
  case_bool_decide; [done|]. rewrite bind_Ret. cbv beta iota.
  destruct (Hback s2) as (e3 & E3 & R3 & V3 & _); [apply H2|by rewrite (io_same _ _ _ _ _ _ _ _ _ _ H2); cbn; rewrite Ev|].
  exists e3. split; [exact (f_equal (fun r => e' ← r; Ret (e', target, - EINVAL)) E3)|]. split; [by eapply resumed_trans|].
  rewrite V3, (io_same _ _ _ _ _ _ _ _ _ _ H2). cbn. done.
Qed.

End program.

(** ** A concrete load

    The ram file system of [Files] with a small executable in ["/init"], open
    as descriptor 0 of the process there; the new process has an empty
    address space. *)
#[local] Existing Instances demo_tables demo_drivers.

Lemma copy_to_mapped l : forall u d, mapped u d (Z.of_nat (length l)) -> user_copy_to u d l = (write_bytes u d l, 0).
Proof.
  induction l as [|b l IH]; intros u d Hm; cbn [user_copy_to write_bytes]; [done|].
  destruct (Hm d) as [x Hx]; [cbn [length]; lia|]. rewrite Hx. apply IH. intros y Hy. cbn [length] in Hm.
  apply lookup_insert_is_Some. destruct (decide (d = y)); [by left|right]. split; [done|]. apply Hm. lia.
Qed.

Lemma slice_cut off n l : 0 <= off -> 0 <= n -> slice off (Z.min n (Z.of_nat (length l) - off)) l = slice off n l.
Proof.
  intros Ho Hn. unfold slice. destruct (decide (n <= Z.of_nat (length l) - off)); [by rewrite Z.min_l|].
  rewrite !take_ge; [done|rewrite length_drop; lia..].
Qed.

(** The ram driver's promise. *)
Lemma ramfs_reads_image (s : vstate kstate ramstate) v x fs m l r img :
  Z.of_nat (length img) < 2 ^ 31 ->
  s.(vnodes) !! v = Some x -> x.(vn_size) = Z.of_nat (length img) -> s.(filesystems) !! x.(owner) = Some fs ->
  fs.(driver_ctx) <> 0 -> s.(drv).(metas) !! fs.(driver_ctx) = Some m -> s.(drv).(rfiles) !! m.(rm_files) = Some l ->
  0 <= x.(vn_n) - 1 -> l !! Z.to_nat (x.(vn_n) - 1) = Some r -> s.(drv).(rdata) !! r.(rf_data) = Some img ->
  reads_image v RAMFS_OPS img s.
Proof.
  intros Himg Hx Hsz Hfs Hc Hm Hl Hn Hr Hd s' buf n off Ev Ef Ed Hn' Hmap Hoff.
  change (op_read RAMFS_OPS v buf n off s') with (ramfs_read v buf n off s'). unfold ramfs_read, get_meta, get_file.
  rewrite Ev, Hx. cbn [deref]. rewrite bind_Ret. rewrite (proj2 (Z.eqb_neq n 0)) by lia. cbn [orb].
  assert (Eo : u32 off = off) by (apply u32_small; unfold is_u32; lia). rewrite !Eo, Hsz.
  destruct (slice_bound off n img) as (L1 & L2 & L3); [lia..|].
  destruct (Z.geb_spec off (Z.of_nat (length img))) as [Hge|Hlt].
  - assert (E : slice off n img = []) by (unfold slice; rewrite drop_ge by lia; by rewrite take_nil).
    rewrite E. cbn [write_bytes length]. by destruct s'.
  - rewrite Ef, Hfs. cbn [deref]. rewrite bind_Ret, (proj2 (Z.eqb_neq _ 0)) by done. cbn [negb assert_]. rewrite bind_Ret.
    rewrite Ed, Hm. cbn [deref]. rewrite bind_Ret.
    rewrite Hl. cbn [deref]. rewrite bind_Ret, Hr. cbn [deref]. rewrite bind_Ret, Hd. cbn [deref]. rewrite bind_Ret.
    rewrite u32_small by (unfold is_u32; lia). fold (slice off (Z.min n (Z.of_nat (length img) - off)) img). rewrite slice_cut by lia.
    rewrite copy_to_mapped by (intros y Hy; apply Hmap; lia). cbn [fst].
    assert (EL : Z.of_nat (length (slice off n img)) = Z.min n (Z.of_nat (length img) - off)) by (unfold slice; rewrite length_take, length_drop; lia).
    rewrite EL, i32_small by (unfold is_i32; lia). done.
Qed.


(** A program of one segment: eight bytes of code, four of zeros. *)
Definition demo_img : list Z :=
  [0x7f; 69; 76; 70; 1; 1; 1; 0; 0; 0; 0; 0; 0; 0; 0; 0; 2; 0; 3; 0; 1; 0; 0; 0; 0x54; 0x80; 4; 8; 52; 0; 0; 0; 0; 0; 0; 0; 0; 0; 0; 0;
   52; 0; 32; 0; 1; 0; 40; 0; 0; 0; 0; 0] ++
  [1; 0; 0; 0; 84; 0; 0; 0; 0x54; 0x80; 4; 8; 0x54; 0x80; 4; 8; 8; 0; 0; 0; 12; 0; 0; 0; 5; 0; 0; 0; 0; 16; 0; 0] ++
  [0xb8; 1; 0; 0; 0; 0xcd; 0x80; 0xc3].

Definition open_s : vstate kstate ramstate := match open_node 22 O_RDONLY demo_p demo_s with Ret (s, _, _) => s | _ => demo_s end.
Definition img_node : VirtualNode := mkVN 3 2 92 0x81FF 0 0 1 0 21 31 RAMFS_OPS 0.
(** A state with the file's contents and the two paging structures. *)
Definition with_img (s : vstate kstate ramstate) (img : list Z) : vstate kstate ramstate :=
  mkV (mkPM s.(vpm).(pm_mm) (<[500 := demo_ps]> {[ 0 := mkPS 0 [] 0 0xC0300000 ]}))
    s.(umem) s.(strs) s.(lnodes) {[ 22 := img_node ]} {[ 31 := mkFS 0 1 0 0 RAMFS 500 (mkLL 12 13) ]} s.(sysfds)
    s.(hash_ptr) s.(hash_funcs) s.(g_sys_fd_hashtable) s.(g_filesystems_ll) s.(g_fs_drivers_ptr) s.(g_fs_drivers)
    (mkRS {[ 500 := mkRM 600 8 2 ]} {[ 600 := [mkRF 0 true; mkRF 700 true] ]} {[ 700 := img ]} 0 []).

Lemma with_img_table f s m img : fdt_ok f s m -> fdt_ok f (with_img s img) m.
Proof. intros [T1 T2 T3]. split; [exact T1|exact T2|exact T3]. Qed.
Lemma with_img_reads s img : Z.of_nat (length img) = 92 -> reads_image 22 RAMFS_OPS img (with_img s img).
Proof.
  intros Hlen. apply (ramfs_reads_image _ _ img_node (mkFS 0 1 0 0 RAMFS 500 (mkLL 12 13)) (mkRM 600 8 2) [mkRF 0 true; mkRF 700 true] (mkRF 700 true));
    [rewrite Hlen; lia|apply lookup_singleton_eq|rewrite Hlen; reflexivity|apply lookup_singleton_eq|discriminate|apply lookup_singleton_eq
    |apply lookup_singleton_eq|cbn; lia|reflexivity|apply lookup_singleton_eq].
Qed.
Definition img_s (img : list Z) : vstate kstate ramstate := with_img open_s img.

Lemma open_s_ok : exists f m a d, fdt_ok f open_s m /\ m !! vfs_fdt_combo_to_hashkey 0 1 = Some a /\ open_s.(sysfds) !! a = Some d /\
  has d.(fd_flags) O_RDONLY = true /\ d.(fd_vnode) = 22.
Proof.
  destruct demo_ok as (f & Ho). unfold open_s.
  assert (Hrun : match open_node 22 O_RDONLY demo_p demo_s with Ret (_, _, n) => n | _ => -1 end = 0) by (vm_compute; reflexivity).
  destruct (demo_opens 22 init_node eq_refl) as [H1 H2].
  destruct (open_node_spec f demo_s demo_p ∅ 22 init_node O_RDONLY Ho eq_refl H1 H2) as [(s' & q & r & Hr & Hpid & Hop)|Hp].
  - rewrite Hr in *. subst r. destruct Hop as [(_ & _ & m' & Hok & Hf & _ & Hv)|(Hneg & _)]; [|lia].
    unfold file_of in Hf. change (pid demo_p) with 1 in Hf. 
    destruct (m' !! vfs_fdt_combo_to_hashkey 0 1) as [a|] eqn:Ha; [|discriminate Hf]. change (s'.(sysfds) !! a = Some (mkFD 0 1 O_RDONLY 0 22)) in Hf.
    exists f, m', a, (mkFD 0 1 O_RDONLY 0 22). split; [apply Hok|]. split; [exact Ha|]. split; [exact Hf|]. split; reflexivity.
  - rewrite Hp in Hrun. discriminate Hrun.
Qed.

Lemma img_opened img : Z.of_nat (length img) = 92 -> exists f m a, opened f m demo_p 0 a 22 RAMFS_OPS img (img_s img).
Proof.
  intros Hlen. destruct open_s_ok as (f & m & a & d & T & Ha & Hd & Hr & Hv). exists f, m, a. unfold img_s.
  generalize dependent open_s. intros s T Hd. split.
  - exact (with_img_table f s m img T).
  - exact Ha.
  - exists d. split; [exact Hd|]. split; [exact Hr|exact Hv].
  - exists img_node. split; [apply lookup_singleton_eq|]. split; reflexivity.
  - exact (with_img_reads s img Hlen).
Qed.

Definition demo_psp : PagingStruct := mkPS 0 [] 0 0xC0300000.
Lemma open_s_mm : (mm_of open_s).(tables) = {[ demo_ps.(Paging.data) := Pdpt pdpt_init ]} /\ (mm_of open_s).(frames) = falloc_boot /\
  klowest (vheap open_s) = 0xC0400000.
Proof. split; [|split]; vm_compute; reflexivity. Qed.
Lemma demo_p_ps : demo_p.(paging_struct) = 0 /\ demo_p.(pid) = 1.
Proof. split; vm_compute; reflexivity. Qed.

Lemma img_ready img f m a : opened f m demo_p 0 a 22 RAMFS_OPS img (img_s img) ->
  ready demo_koff f m demo_p 0 a 22 RAMFS_OPS img 500 (img_s img) demo_ps.
Proof.
  intros Ho. pose proof (rep_wf _ _ _ _ (ft_rep _ _ _ (op_table _ _ _ _ _ _ _ _ _ Ho))) as Ha. revert Ho Ha. unfold img_s.
  destruct open_s_mm as (Et & Ef & El). generalize dependent open_s. intros s Et Ef El Ho Ha. split.
  - exact Ho.
  - apply lookup_insert_eq.
  - split.
    + exact Ha.
    + change (demo_koff < klowest (vheap s)). rewrite El. unfold demo_koff. lia.
    + intros b Hb. right. change (tables (mm_of s) !! b <> None) in Hb. rewrite Et in Hb. apply single_table_at in Hb as ->.
      change (lowest (heap (mm_of (with_img s img)))) with (klowest (vheap s)). rewrite El. cbn. lia.
    + change (tables_wf demo_koff (tables (mm_of s)) demo_ps.(Paging.data)). rewrite Et. apply single_table_wf. discriminate.
  - change (falloc_wf (frames (mm_of s))). rewrite Ef. exact boot_falloc_wf.
  - split; [constructor|]. split; [vm_compute; split; discriminate|]. split; [|left; split; reflexivity].
    change (tables (mm_of s) !! 0 = None). rewrite Et. apply lookup_singleton_ne. discriminate.
  - intros Hn. destruct Hn. reflexivity.
Qed.

Definition demo_target : Process :=
  mkProc 0 2 500 zero_process.(proc_dma_heap) zero_process.(proc_dma_bitmap) 0 [] 0 0 0 0 0 0 false 0 0.
Definition demo_e (img : list Z) : estate kstate ramstate := mkE (img_s img) (mkCPU 0x300000 0 0) ∅.
Definition demo_stale (_ : Z) : Z := 0xCC.
Lemma demo_spaces img : two_spaces demo_koff demo_p 500 demo_ps demo_psp demo_target (demo_e img).
Proof.
  destruct demo_p_ps as [E _]. split.
  - split; [reflexivity|]. apply lookup_insert_eq.
  - rewrite E. split; [discriminate|]. change ((<[500 := demo_ps]> {[ 0 := demo_psp ]} : gmap Z PagingStruct) !! 0 = Some demo_psp).
    rewrite lookup_insert_ne by discriminate. apply lookup_singleton_eq.
  - reflexivity.
  - vm_compute. discriminate.
Qed.
Lemma demo_koff_ok : (0 <= demo_koff < 2 ^ 32) /\ (PAGESIZE | demo_koff) /\ PROC_HIGH_ADDRESS <= demo_koff.
Proof. split; [unfold demo_koff; lia|]. split; [by exists 0xC0000|]. vm_compute. discriminate. Qed.
Lemma demo_seg : the_phdr demo_img 0 = mkPh 1 84 0x08048054 0x08048054 8 12 5 4096 /\ (the_hdr demo_img).(e_phnum) = 1 /\
  (the_hdr demo_img).(e_entry) = 0x08048054.
Proof. vm_compute. done. Qed.

(** The load runs to the end. *)
Lemma demo_loads : match elfloader_load_from_file demo_koff 0xC0500000 demo_stale 0 demo_p demo_target (demo_e demo_img) with
  | Ret (_, _, st) => st | _ => 1 end = 0.
Proof. vm_compute. reflexivity. Qed.

Lemma demo_img_ok : Z.of_nat (length demo_img) = 92 /\ Forall is_byte demo_img /\ segs_ok demo_img.
Proof.
  split; [reflexivity|]. split; [repeat constructor; discriminate|]. intros j Hj _. destruct demo_seg as (E & En & _).
  assert (j = 0) as -> by lia. rewrite E. split; cbn; unfold is_u32, PROC_HIGH_ADDRESS; lia.
Qed.
Lemma demo_pages : pagespan (the_phdr demo_img 0) = 1 /\ (the_phdr demo_img 0).(p_type) = PT_LOAD /\
  content demo_img (the_phdr demo_img 0) = [0xb8; 1; 0; 0; 0; 0xcd; 0x80; 0xc3; 0; 0; 0; 0].
Proof. vm_compute. done. Qed.

(** The same file for another machine word. *)
Definition img64 : list Z := take 4 demo_img ++ [2] ++ drop 5 demo_img.
Definition img_data : list Z := 0 :: tail demo_img.


Lemma elf_refuses_witness :
  (exists e', elfloader_load_from_file demo_koff 0xC0500000 demo_stale 0 demo_p demo_target (demo_e img_data) = Ret (e', demo_target, - EINVAL)) /\
  elfloader_load_from_file demo_koff 0xC0500000 demo_stale 0 demo_p demo_target (demo_e img64) = Panic.
Proof.
  destruct demo_koff_ok as (K1 & K2 & K3). split.
  - destruct (img_opened img_data eq_refl) as (f & m & a & Ho).
    pose proof (elf_refuses demo_koff 0xC0500000 demo_stale K1 f m demo_p 0 a 22 RAMFS_OPS img_data ltac:(unfold is_fd; lia) ltac:(cbn; lia)
      500 demo_ps demo_psp demo_target (demo_e img_data) ltac:(unfold PROC_HIGH_ADDRESS; lia) Ho (demo_spaces img_data)) as T.
    cbv zeta in T. replace (_ || _) with true in T by reflexivity. destruct T as (e' & Hr & _). exists e'. exact Hr.
  - destruct (img_opened img64 eq_refl) as (f & m & a & Ho).
    pose proof (elf_refuses demo_koff 0xC0500000 demo_stale K1 f m demo_p 0 a 22 RAMFS_OPS img64 ltac:(unfold is_fd; lia) ltac:(cbn; lia)
      500 demo_ps demo_psp demo_target (demo_e img64) ltac:(unfold PROC_HIGH_ADDRESS; lia) Ho (demo_spaces img64)) as T.
    cbv zeta in T. replace (_ || _) with false in T by reflexivity. replace (negb _) with false in T by reflexivity.
    specialize (T ltac:(discriminate)). exact T.
Defined.
